(* ===== verification/_CoqProject ===== *)
-Q . S2P
Prelude.v
SmallMap.v
Float32.v
Protocol.v
Packet.v
Fragmentation.v
CryptoLib.v
Identity.v
Noise.v
Replay.v
Session.v
Transport.v
StoreForward.v
Storm.v
Routing.v
Messages.v
Ierp.v
Power.v
Beacon.v
Radio.v
Neighbor.v
Zone.v
Methods.v
NodeState.v
NodeTx.v
NodeRx.v
Node.v
Calculus.v
EngineInv.v
NodeInv.v
NodeSafe.v
NodeRxSafe.v
NodeTimersSafe.v
NodeMain.v
RelayState.v
Relay.v
RelaySafe.v
RelayMain.v
Text.v
Unified.v
Bridge.v
Gateway.v
GatewayMain.v
StarAdapter.v
Strings.v
Proto.v
ForeignCrypto.v
MtWire.v
MtAdapter.v
MtFacts.v
MtText.v
Float64.v
McWire.v
McAdapter.v
McFacts.v
McText.v
Adapters.v
Companion.v
CompanionFacts.v
Thumb.v
Platform.v
Hal.v
Driver.v
Sx126x.v
Sx126xFacts.v
Sx126xCalls.v
Sx127x.v
Sx127xFacts.v
