(* ===== verification/Prelude.v ===== *)
(** * MeshStar: a verification development of the mesh protocol core

    MeshStar is a LoRa mesh network stack in Rust.  Its protocol core is the
    crate [crates/meshstar-core]: a node owns a set of bounded, single-threaded
    components (tables, windows, schedulers, codecs), and an engine
    ([node/]) that calls them with the current time, received frames and an
    application's requests.  This library models those components as
    executable functions and proves the properties the rest of the code relies
    on.  Paths below are under [crates/meshstar-core/src/], those of the second
    half of the file list under [crates/meshstar-protocols/src/], the crate that
    connects a node to other LoRa mesh networks.

    ** How the parts interact

    A frame received by the radio is decoded ([packet]), deduplicated and
    perhaps scheduled for relaying ([storm]), reassembled ([fragmentation]),
    decrypted ([crypto/session], keys from [crypto/noise]) and delivered once
    ([transport]).  A message to send looks for a next hop in the zone table
    ([zrp/zone], fed by the beacons of [neighbor]) or the route cache
    ([routing]), or starts a discovery ([zrp]); messages for sleeping nodes are
    sealed in envelopes ([crypto/envelope]) and kept by an anchor
    ([store_forward]).  Every transmission asks the duty-cycle budget
    ([power]).  A gateway ([bridge/]) hears frames of several networks: each
    protocol's adapter scores a frame, the detector picks the one that is
    certain, the decoded message is deduplicated and, where the policy and the
    loop guard allow, translated and encoded by the adapters of the other
    networks.

    ** Files

    - Prelude: machine integers, [outcome] (value, error or panic), byte codecs,
      ordered keys, iterator adaptors, the random-number interface, the
      state-and-error monad and its [wp]/[wpx] calculus, tactics.
    - SmallMap: [util.rs], the sorted-vector map (with the binary search of the
      standard library) and the insertion sort; the same structure stands for
      [BTreeMap].
    - Float32: the language's [f32] on the Standard Library's executable
      specification of IEEE 754.
    - Protocol: [protocol/mod.rs] and the [Address] type of [identity/mod.rs].
    - Packet: [packet/mod.rs]; the hash functions are section variables.
    - Fragmentation: [fragmentation/mod.rs].
    - CryptoLib: the interface to the external cryptographic crates, as a class
      of operations with a class of documented laws, and a concrete instance
      that satisfies them.  Neither secrecy nor unforgeability is assumed.
    - Identity: [identity/mod.rs].  Noise: [crypto/noise.rs],
      [crypto/envelope.rs].  Replay: [crypto/replay.rs].  Session:
      [crypto/session.rs] and the group encryption of [crypto/mod.rs].
    - Transport: [transport/mod.rs].  StoreForward: [store_forward/mod.rs].
    - Storm: [storm/mod.rs].  Routing: [routing/mod.rs].  Messages:
      [zrp/messages.rs].  Ierp: [zrp/mod.rs].  Zone: [zrp/zone.rs].
    - Beacon: [neighbor/beacon.rs].  Neighbor: [neighbor/mod.rs].  Radio:
      [radio/mod.rs], the modem profiles and the air-time formula.
    - Power: [power/mod.rs].
    - NodeState: the data of the engine ([node/mod.rs], [node/diag.rs]) and its
      small methods (written with the combinators of Methods).  NodeTx: [node/tx.rs] and the sending half of
      [node/session.rs].  NodeRx: [node/rx.rs] and the receiving half of
      [node/session.rs].  Node: construction, timers, housekeeping and the radio
      queue of [node/mod.rs].
    - Calculus: weakest preconditions and frame rules for methods that change one
      field of a large state.  EngineInv: invariants of the components both
      engines own, and where a packet comes from.  NodeInv: the engine's
      invariant [node_ok].  NodeSafe, NodeRxSafe, NodeTimersSafe: every method
      keeps it and does not panic.  NodeMain: the theorems on the whole engine
      and, as an example, a two-node run.
    - RelayState, Relay: [relay/mod.rs], the forwarding-only engine; the trait
      [RelayIdentity] is a class with an instance per identity.  RelaySafe: its
      invariant [relay_ok], kept by every method.  RelayMain: its theorems, the
      period of its packet ids, and, as an example, a run of two nodes that talk
      through a relay.
    - Text: Rust strings as UTF-8 bytes, with the string methods the crate uses.
    - Unified: [model.rs], [adapter.rs], [profiles.rs]; the trait
      [RadioProtocol] is a class and [AdapterContract] what its implementations
      promise a gateway.
    - Bridge: [bridge/dedup.rs], [bridge/loops.rs], [bridge/policy.rs],
      [bridge/translate.rs].  Gateway: [detector/mod.rs], [bridge/gateway.rs].
      GatewayMain: its theorems, for any adapters that keep the contract.
    - StarAdapter: [meshstar/mod.rs] and its instance of the contract.
    - Strings: number parsing and the lossy and trimming string methods.
    - Proto: [meshtastic/proto.rs], the protobuf codec and the messages of
      Meshtastic.  ForeignCrypto: the interface to the AES crates, with its laws
      and a concrete instance.  MtWire: [meshtastic/header.rs],
      [meshtastic/ports.rs], [meshtastic/crypto.rs], [meshtastic/profiles.rs].
      MtAdapter: [meshtastic/mod.rs].  MtFacts: its instance of the contract.
      MtText: a text from one Meshtastic node to another.
    - Float64: the language's [f64], its parser and its conversion to [i32].
      McWire: [meshcore/packet.rs], [meshcore/crypto.rs],
      [meshcore/identity.rs], [meshcore/messages.rs], [meshcore/profiles.rs].
      McAdapter: [meshcore/mod.rs].  McFacts: its instance of the contract.
      McText: a text from one MeshCore node to another.
    - Adapters: the sum of the three adapters, as the detector holds them, with
      its instance of the contract and a text that crosses the three networks.
    - Companion, CompanionFacts: [crates/meshstar-companion/src/lib.rs], the
      frames a phone exchanges with a node, and the stream framer.  Thumb:
      [crates/meshstar-companion/src/thumb.rs].
    - Platform: [platform/mod.rs] and [platform/nvs.rs].
    - Hal: the traits of [embedded-hal] the radio drivers are generic over, as a
      class with its laws, and the monad of a driver call.  Driver: what the two
      drivers share, the agreement of the receive flag with the mode last
      commanded, and sessions of calls.  Sx126x, Sx126xFacts, Sx126xCalls:
      [crates/meshstar-radio-sx126x/src/lib.rs].  Sx127x, Sx127xFacts:
      [crates/meshstar-radio-sx127x/src/lib.rs].

    A source type [T] is a Record (or Inductive) of the same name, its methods
    are definitions of a Module [T] (or carry a prefix, in the codecs), and
    [&mut self] is a state argument returned with the result.  Fields take a
    prefix where Rocq needs distinct names.  Each file ends with a Module
    [...Facts] holding invariants, theorems and concrete runs.

    ** Conventions

    - Integers are [Z] with the width written out: release builds wrap, so every
      [+], [-] and [*] that can leave its type goes through [u8] ... [u64] or
      [usize] (32 bits, the firmware's targets); [saturating_*] is [sat_add],
      [sat_sub].
    - Indexing, slicing, [unwrap] and [copy_from_slice] yield [Panic] out of
      range.  Theorems on decoders state that no input reaches it.
    - Loops over data are structural; [while] loops that shrink a table take the
      table's length as fuel, and the lemmas show the fuel is never the reason
      to stop (the binary search in SmallMap, [enforce_loop] in Zone).
    - Random numbers come from an instance of [RngCore]; results that depend on
      their range use [RngCoreLaws].

    ** What the theorems show

    - The engine: whatever the application calls, the clock does and the radio
      delivers, no call panics, and the tables and queues the code limits stay
      within their limits ([engine_bounded_memory] lists them, and what has no
      limit: sessions, handshakes, the key directory, adjacency lists, the request
      cache).  Keys and sessions belong to the address they are filed under.  A
      message event or delivery report goes back to packets in received frames of
      the named sender, opened the way its protection says: by a session out of a
      handshake this node ran on received messages, by its own key, or by its
      network key ([genuine] in NodeInv).  What it passes on for others it
      received: only the hop fields change.  The relay, too, never panics, keeps its
      limits and passes on only what it received.  The loops of [poll]
      end: the hop loop within [HOP_ROUNDS] rounds (twice the capacity and one,
      in the relay), shown by a measure on the entries out of retries.
    - Codecs (packets, beacons, discovery messages, STORE requests, addresses):
      encoding and decoding are inverse on well-formed values, accepted input is
      well formed, and no byte string panics a decoder.  An accepted packet is the
      canonical encoding, except that a node without a network key cannot check
      the bytes of a tag.
    - Channel security mechanics: both ends of a handshake agree on keys and
      identities; the handshake state machine refuses out-of-turn messages
      without effect; a session delivers each message once over a channel that
      loses, reorders and duplicates, ignores forgeries, and never reuses a
      nonce; the bitmap replay window refines the set of accepted counters.
    - Identity: addresses are self-certifying, signed beacons authenticate their
      sender, and a pinned identity is never replaced.
    - Bounded memory: reassembly, transport, mailbox, seen cache, route cache,
      neighbour and zone tables keep their limits and their accounting under
      any sequence of calls.
    - Functional behaviour: reassembly in any order, exact expiry, optimal route
      lookup, exact timers, rotation of zone advertisements (while the 32-bit
      count of beacons does not wrap), receive deduplication across counter
      wrap-around.
    - Termination: retransmission and route discovery give up after their
      configured attempts.
    - Bridging: whatever frames arrive, a gateway does not panic and stays within
      its tables; it sends only translations of a message that is new to it,
      where the policy and the loop guard allow; a translation stays within the
      limits of the target; an echo with its text and time is recognised while it
      is on record.  A policy releases what its first applicable rule says, and no
      end-to-end traffic if its allow rules carry a [public] or [not-e2e] clause.
      Loops over several gateways are not ruled out: the bridge path of a message
      is not transmitted.
      The three adapters keep the contract these theorems assume.
    - Meshtastic: the protobuf decoders accept or refuse every buffer without
      panicking and invert the encoders; a text on a channel or in a direct
      message is delivered by the receiver as it was written.
    - MeshCore: a packet has one encoding and every frame at most one reading; a
      text to a node's key is delivered as it was written, and so is one on a
      channel from a sender whose name does not contain the separator.
    - The companion link: requests and responses arrive as they were sent,
      however the link cuts the stream; thumbnails decode to the nearest palette
      colours; the partition parser panics only on an oversized blob index (an
      exhausted heap, which aborts, is outside the model).
    - Radio drivers: whatever the chip answers, no call panics or polls beyond its
      deadline (the fuel of the transmit loops is the deadline and three), and
      unless a call failed for more than a bad frame the chip is in receive mode
      when the driver believes so; a configuration programs the chip with the
      parameters of the profile, its power cut to the range of the amplifier.
    - Regulation and energy: granted transmissions respect the duty cycle in
      every window, if each lasts at least a 4096th of the budget; waking periods of a sleeping node are bounded.

    ** Not modelled

    The simulator, command line, firmware examples and phone application are test
    infrastructure or user interface and are left out, as are the clock and file
    storage of the standard library.  The bus and the pins of the drivers are a
    parameter: what a chip does with a command is not modelled, only what it is
    told.  Serialization by
    [serde] and the wiping of secrets on drop have no counterpart here. *)
From stdpp Require Import base tactics list numbers sorting sets.
From Stdlib Require Import Lia.

#[global] Open Scope Z_scope.

Declare Scope mesh_scope.
Delimit Scope mesh_scope with mesh.
#[global] Open Scope mesh_scope.

Create HintDb mesh.
Create Rewrite HintDb mesh.

(** * Machine integers

    Rust integers are [Z] values kept in range by an explicit reduction.  The
    firmware is built with the release profile, where [+], [-] and [*] wrap
    modulo the width; [saturating_*] and [wrapping_*] are written out. *)

Definition wrap (w z : Z) : Z := z mod 2 ^ w.
Definition u8 (z : Z) : Z := wrap 8 z.
Definition u16 (z : Z) : Z := wrap 16 z.
Definition u32 (z : Z) : Z := wrap 32 z.
Definition u64 (z : Z) : Z := wrap 64 z.
(** [usize] on the narrowest targets of the crate (ESP32, STM32): 32 bits. *)
Definition usize (z : Z) : Z := wrap 32 z.

Definition in_u (w z : Z) : Prop := 0 <= z < 2 ^ w.
Definition U8_MAX : Z := 255.
Definition U16_MAX : Z := 65535.
Definition U32_MAX : Z := 4294967295.
Definition U64_MAX : Z := 18446744073709551615.

Definition sat_sub (a b : Z) : Z := Z.max 0 (a - b).
Definition sat_add (w a b : Z) : Z := Z.min (2 ^ w - 1) (a + b).
Definition sat_mul (w a b : Z) : Z := Z.min (2 ^ w - 1) (a * b).

(** Length of a vector or slice as an integer. *)
Definition zlen {A} (l : list A) : Z := Z.of_nat (length l).

#[global] Instance in_u_dec w z : Decision (in_u w z).
Proof. unfold in_u. apply _. Defined.

Lemma wrap_small w z : in_u w z -> wrap w z = z.
Proof. apply Z.mod_small. Qed.

Lemma wrap_range w z : 0 <= w -> in_u w (wrap w z).
Proof. intros Hw. apply Z.mod_pos_bound, Z.pow_pos_nonneg; lia. Qed.

Lemma u8_small z : 0 <= z < 256 -> u8 z = z.
Proof. exact (wrap_small 8 z). Qed.
Lemma u16_small z : 0 <= z < 65536 -> u16 z = z.
Proof. exact (wrap_small 16 z). Qed.
Lemma u32_small z : 0 <= z < 2 ^ 32 -> u32 z = z.
Proof. exact (wrap_small 32 z). Qed.
Lemma u64_small z : 0 <= z < 2 ^ 64 -> u64 z = z.
Proof. exact (wrap_small 64 z). Qed.
Lemma usize_small z : 0 <= z < 2 ^ 32 -> usize z = z.
Proof. exact (wrap_small 32 z). Qed.

Lemma zlen_nonneg {A} (l : list A) : 0 <= zlen l.
Proof. unfold zlen. lia. Qed.

Lemma zlen_app {A} (l k : list A) : zlen (l ++ k) = zlen l + zlen k.
Proof. unfold zlen. rewrite length_app. lia. Qed.

Lemma zlen_cons {A} (x : A) l : zlen (x :: l) = 1 + zlen l.
Proof. unfold zlen. simpl. lia. Qed.

Lemma zlen_nil {A} : zlen (@nil A) = 0.
Proof. done. Qed.

#[export] Hint Resolve zlen_nonneg : mesh.
#[export] Hint Rewrite @zlen_app @zlen_cons @zlen_nil : mesh.

(** Unfold the fixed widths so that [lia] sees literal bounds. *)
Ltac unfold_widths :=
  unfold u8, u16, u32, u64, usize, in_u, U8_MAX, U16_MAX, U32_MAX, U64_MAX in *;
  change (2 ^ 8) with 256 in *; change (2 ^ 16) with 65536 in *;
  change (2 ^ 32) with 4294967296 in *;
  change (2 ^ 64) with 18446744073709551616 in *.
Ltac wrap_lia := unfold wrap in *; unfold_widths; unfold sat_sub, sat_add, sat_mul in *;
  change (2 ^ 8) with 256 in *; change (2 ^ 16) with 65536 in *;
  change (2 ^ 32) with 4294967296 in *;
  change (2 ^ 64) with 18446744073709551616 in *; lia.

(** [lia] with division and remainder by constants. *)
Ltac div_lia := Z.to_euclidean_division_equations; lia.

(** * Outcomes: [Result<T, E>] with panics

    [Panic] is an out-of-range index or slice, or an [unwrap] of nothing. *)

Inductive outcome (E A : Type) : Type :=
| Ok (a : A)
| Err (e : E)
| Panic.
Arguments Ok {E A} a.
Arguments Err {E A} e.
Arguments Panic {E A}.

#[global] Instance outcome_bind {E} : MBind (outcome E) := fun A B f m =>
  match m with Ok a => f a | Err e => Err e | Panic => Panic end.

Definition is_ok {E A} (m : outcome E A) : bool :=
  match m with Ok _ => true | _ => false end.

(** [opt.ok_or(e)?] *)
Definition ok_or {E A} (o : option A) (e : E) : outcome E A :=
  match o with Some a => Ok a | None => Err e end.
(** [opt.unwrap()] *)
Definition unwrap {E A} (o : option A) : outcome E A :=
  match o with Some a => Ok a | None => Panic end.
(** [b[i]] *)
Definition idx {E A} (b : list A) (i : Z) : outcome E A :=
  if decide (0 <= i) then unwrap (b !! Z.to_nat i) else Panic.
(** [&b[lo..hi]] *)
Definition slice {E A} (b : list A) (lo hi : Z) : outcome E (list A) :=
  if decide (0 <= lo <= hi /\ hi <= zlen b)
  then Ok (take (Z.to_nat (hi - lo)) (drop (Z.to_nat lo) b)) else Panic.
(** [&b[lo..]] *)
Definition slice_from {E A} (b : list A) (lo : Z) : outcome E (list A) :=
  slice b lo (zlen b).

Lemma bind_ok {E A B} (m : outcome E A) (f : A -> outcome E B) b :
  m ≫= f = Ok b <-> exists a, m = Ok a /\ f a = Ok b.
Proof. destruct m; unfold mbind; simpl; naive_solver. Qed.

Lemma idx_ok {E A} (b : list A) i x :
  0 <= i -> b !! Z.to_nat i = Some x -> @idx E A b i = Ok x.
Proof. intros Hi Hx. unfold idx. rewrite decide_True by done. by rewrite Hx. Qed.

Lemma idx_in {E A} (b : list A) i :
  0 <= i < zlen b -> exists x, @idx E A b i = Ok x /\ b !! Z.to_nat i = Some x.
Proof.
  intros Hi. destruct (lookup_lt_is_Some_2 b (Z.to_nat i)) as [x Hx].
  { unfold zlen in Hi. lia. }
  exists x. split; [|done]. apply idx_ok; [lia|done].
Qed.

Lemma slice_in {E A} (b : list A) lo hi :
  0 <= lo <= hi -> hi <= zlen b ->
  @slice E A b lo hi = Ok (take (Z.to_nat (hi - lo)) (drop (Z.to_nat lo) b)).
Proof. intros ??. unfold slice. by rewrite decide_True. Qed.

(** Slicing out the middle of a concatenation. *)
Lemma slice_mid {E A} (p m s : list A) lo hi :
  lo = zlen p -> hi = zlen p + zlen m -> @slice E A (p ++ m ++ s) lo hi = Ok m.
Proof.
  intros -> ->. rewrite slice_in.
  - replace (Z.to_nat (zlen p + zlen m - zlen p)) with (length m) by (unfold zlen; lia).
    unfold zlen. rewrite Nat2Z.id, drop_app_length, take_app_length. done.
  - pose proof (zlen_nonneg p). pose proof (zlen_nonneg m). lia.
  - rewrite !zlen_app. pose proof (zlen_nonneg s). lia.
Qed.

Lemma slice_from_app {E A} (p s : list A) lo :
  lo = zlen p -> @slice_from E A (p ++ s) lo = Ok s.
Proof.
  intros ->. unfold slice_from. rewrite <- (app_nil_r s) at 1.
  apply slice_mid; [done|]. by rewrite zlen_app.
Qed.

Lemma idx_app_r {E A} (p : list A) x s i :
  i = zlen p -> @idx E A (p ++ x :: s) i = Ok x.
Proof.
  intros ->. apply idx_ok; [apply zlen_nonneg|].
  unfold zlen. rewrite Nat2Z.id, lookup_app_r by done. by rewrite Nat.sub_diag.
Qed.

(** * Bytes and big-endian integers *)

Definition byte_ok (b : Z) : Prop := in_u 8 b.
Definition bytes_ok (l : list Z) : Prop := Forall byte_ok l.

(** [z.to_be_bytes()] for an [n]-byte integer. *)
Fixpoint be_bytes (n : nat) (z : Z) : list Z :=
  match n with
  | O => []
  | S n' => (z / 256 ^ Z.of_nat n') mod 256 :: be_bytes n' z
  end.

(** [uN::from_be_bytes(l)]. *)
Definition from_be (l : list Z) : Z := foldl (fun acc b => acc * 256 + b) 0 l.

Lemma length_be_bytes n z : length (be_bytes n z) = n.
Proof. induction n; simpl; congruence. Qed.

Lemma zlen_be_bytes n z : zlen (be_bytes n z) = Z.of_nat n.
Proof. unfold zlen. by rewrite length_be_bytes. Qed.

Lemma be_bytes_ok n z : bytes_ok (be_bytes n z).
Proof.
  induction n; constructor; [|done].
  unfold byte_ok, in_u. apply Z.mod_pos_bound. lia.
Qed.

Lemma from_be_acc l acc :
  foldl (fun acc b => acc * 256 + b) acc l = acc * 256 ^ zlen l + from_be l.
Proof.
  unfold from_be. revert acc. induction l as [|b l IH]; intros acc; simpl.
  - rewrite zlen_nil. lia.
  - rewrite (IH (acc * 256 + b)), (IH (0 * 256 + b)), zlen_cons, Z.pow_add_r by (auto with mesh; lia). lia.
Qed.

Lemma from_be_cons b l : from_be (b :: l) = b * 256 ^ zlen l + from_be l.
Proof. unfold from_be at 1. simpl. apply from_be_acc. Qed.

Lemma from_be_be_bytes n z : from_be (be_bytes n z) = z mod 256 ^ Z.of_nat n.
Proof.
  induction n as [|n IH]; [change (256 ^ Z.of_nat 0) with 1; by rewrite Z.mod_1_r|].
  cbn [be_bytes]. rewrite from_be_cons, IH, zlen_be_bytes.
  replace (Z.of_nat (S n)) with (Z.of_nat n + 1) by lia.
  rewrite Z.pow_add_r, (Z.rem_mul_r z) by lia.
  change (256 ^ 1) with 256. lia.
Qed.

Lemma from_be_range l : bytes_ok l -> 0 <= from_be l < 256 ^ zlen l.
Proof.
  induction 1 as [|b l Hb _ IH]; [split; done|].
  rewrite from_be_cons, zlen_cons, Z.pow_add_r by (auto with mesh; lia).
  unfold byte_ok, in_u in Hb. nia.
Qed.

(** The low [n] bytes do not see multiples of [256 ^ m] for [n <= m]. *)
Lemma be_bytes_low n m k z :
  (n <= m)%nat -> be_bytes n (k * 256 ^ Z.of_nat m + z) = be_bytes n z.
Proof.
  induction n as [|n IH]; intros Hn; [done|]. cbn [be_bytes]. f_equal; [|apply IH; lia].
  replace (Z.of_nat m) with (Z.of_nat n + (1 + (Z.of_nat m - Z.of_nat n - 1))) by lia.
  rewrite !Z.pow_add_r by lia. set (q := 256 ^ (Z.of_nat m - Z.of_nat n - 1)).
  replace (k * (256 ^ Z.of_nat n * (256 ^ 1 * q)))
    with ((k * q * 256) * 256 ^ Z.of_nat n) by (change (256 ^ 1) with 256; ring).
  rewrite Z.div_add_l by lia. by rewrite Z.add_comm, Z.mod_add by lia.
Qed.

Lemma be_bytes_from_be l n :
  bytes_ok l -> length l = n -> be_bytes n (from_be l) = l.
Proof.
  intros Hl <-. induction Hl as [|b l Hb Hl IH]; [done|].
  cbn [length be_bytes]. rewrite from_be_cons.
  pose proof (from_be_range _ Hl). f_equal.
  - unfold zlen in *. rewrite Z.div_add_l, (Z.div_small (from_be l)) by lia.
    unfold byte_ok, in_u in Hb. rewrite Z.add_0_r. by apply Z.mod_small.
  - unfold zlen. by rewrite be_bytes_low.
Qed.

#[export] Hint Rewrite zlen_be_bytes from_be_be_bytes : mesh.
#[export] Hint Resolve be_bytes_ok : mesh.

Lemma from_be_16 z : in_u 16 z -> from_be (be_bytes 2 z) = z.
Proof. intros H. rewrite from_be_be_bytes. by apply Z.mod_small. Qed.
Lemma from_be_32 z : in_u 32 z -> from_be (be_bytes 4 z) = z.
Proof. intros H. rewrite from_be_be_bytes. by apply Z.mod_small. Qed.

(** * Total orders on keys ([Ord]) *)

Class KeyOrd (K : Type) := kcmp : K -> K -> comparison.
Class KeyOrdLaws (K : Type) {O : KeyOrd K} : Prop := {
  kcmp_eq a b : kcmp a b = Eq <-> a = b;
  kcmp_sym a b : kcmp b a = CompOpp (kcmp a b);
  kcmp_trans a b c : kcmp a b = Lt -> kcmp b c = Lt -> kcmp a c = Lt
}.
Definition klt {K} `{KeyOrd K} (a b : K) : Prop := kcmp a b = Lt.

#[global] Instance Z_KeyOrd : KeyOrd Z := Z.compare.
#[global] Instance Z_KeyOrdLaws : KeyOrdLaws Z.
Proof.
  split; unfold kcmp, Z_KeyOrd; intros.
  - apply Z.compare_eq_iff.
  - apply Z.compare_antisym.
  - rewrite Z.compare_lt_iff in *. lia.
Qed.

(** Derived [Ord] on arrays: lexicographic. *)
Fixpoint list_cmp {K} `{KeyOrd K} (a b : list K) : comparison :=
  match a, b with
  | [], [] => Eq
  | [], _ => Lt
  | _, [] => Gt
  | x :: a', y :: b' => match kcmp x y with Eq => list_cmp a' b' | c => c end
  end.
#[global] Instance list_KeyOrd {K} `{KeyOrd K} : KeyOrd (list K) := list_cmp.

(** Derived [Ord] on tuples and structs: by component. *)
#[global] Instance prod_KeyOrd {A B} `{KeyOrd A} `{KeyOrd B} : KeyOrd (A * B) :=
  fun p q => match kcmp p.1 q.1 with Eq => kcmp p.2 q.2 | c => c end.

Lemma kcmp_refl {K} `{KeyOrdLaws K} (a : K) : kcmp a a = Eq.
Proof. by apply kcmp_eq. Qed.
Lemma klt_irrefl {K} `{KeyOrdLaws K} (a : K) : ~ klt a a.
Proof. unfold klt. by rewrite kcmp_refl. Qed.
Lemma klt_gt {K} `{KeyOrdLaws K} (a b : K) : kcmp a b = Gt <-> klt b a.
Proof. unfold klt. rewrite (kcmp_sym a b). destruct (kcmp a b); naive_solver. Qed.
#[global] Instance klt_trans {K} `{KeyOrdLaws K} : Transitive (@klt K _).
Proof. intros a b c. apply kcmp_trans. Qed.

#[global] Instance list_KeyOrdLaws {K} `{KeyOrdLaws K} : KeyOrdLaws (list K).
Proof.
  split; unfold kcmp, list_KeyOrd.
  - induction a as [|x a IH]; destruct b as [|y b]; simpl; try naive_solver.
    destruct (kcmp x y) eqn:E.
    + apply kcmp_eq in E as ->. rewrite IH. naive_solver.
    + split; [done|]. intros [= -> ->]. by rewrite kcmp_refl in E.
    + split; [done|]. intros [= -> ->]. by rewrite kcmp_refl in E.
  - induction a as [|x a IH]; destruct b as [|y b]; simpl; try done.
    rewrite (kcmp_sym x y). destruct (kcmp x y); simpl; auto.
  - induction a as [|x a IH]; destruct b as [|y b], c as [|z c]; simpl; try done.
    destruct (kcmp x y) eqn:E1; [apply kcmp_eq in E1 as ->| |done];
      destruct (kcmp y z) eqn:E2; try done.
    + apply IH.
    + apply kcmp_eq in E2 as ->. by rewrite E1.
    + by rewrite (kcmp_trans _ _ _ E1 E2).
Qed.

Lemma kcmp_pair {A B} `{KeyOrd A} `{KeyOrd B} (a a' : A) (b b' : B) :
  kcmp (a, b) (a', b') = match kcmp a a' with Eq => kcmp b b' | c => c end.
Proof. done. Qed.

#[global] Instance prod_KeyOrdLaws {A B} `{KeyOrdLaws A} `{KeyOrdLaws B} : KeyOrdLaws (A * B).
Proof.
  split.
  - intros [a b] [a' b']. rewrite kcmp_pair. destruct (kcmp a a') eqn:E.
    + apply kcmp_eq in E as ->. rewrite kcmp_eq. naive_solver.
    + split; [done|]. intros [= -> ->]. by rewrite kcmp_refl in E.
    + split; [done|]. intros [= -> ->]. by rewrite kcmp_refl in E.
  - intros [a b] [a' b']. rewrite !kcmp_pair, (kcmp_sym a a').
    destruct (kcmp a a'); simpl; auto using kcmp_sym.
  - intros [a b] [a' b'] [a'' b'']. rewrite !kcmp_pair.
    destruct (kcmp a a') eqn:E1; [apply kcmp_eq in E1 as ->| |done];
      destruct (kcmp a' a'') eqn:E2; try done.
    + apply kcmp_trans.
    + apply kcmp_eq in E2 as ->. by rewrite E1.
    + by rewrite (kcmp_trans _ _ _ E1 E2).
Qed.

(** * Iterator adaptors *)

(** [min_by_key]: the first element with the least key. *)
Definition min_by_key {A K} `{KeyOrd K} (f : A -> K) (l : list A) : option A :=
  match l with
  | [] => None
  | x :: l' => Some (foldl (fun x y => match kcmp (f x) (f y) with Gt => y | _ => x end) x l')
  end.
(** [max_by_key]: the last element with the greatest key. *)
Definition max_by_key {A K} `{KeyOrd K} (f : A -> K) (l : list A) : option A :=
  match l with
  | [] => None
  | x :: l' => Some (foldl (fun x y => match kcmp (f x) (f y) with Gt => x | _ => y end) x l')
  end.
(** [iter().min()] on integers. *)
Definition zmin (l : list Z) : option Z := min_by_key id l.

Definition zsum (l : list Z) : Z := foldr Z.add 0 l.

(** First index satisfying [p]: [iter().position(p)]. *)
Fixpoint position {A} (p : A -> bool) (l : list A) : option nat :=
  match l with
  | [] => None
  | x :: l' => if p x then Some O else S <$> position p l'
  end.

(** [iter_mut().find(p)] followed by an update through the reference. *)
Fixpoint update_first {A} (p : A -> bool) (f : A -> A) (l : list A) : list A :=
  match l with
  | [] => []
  | x :: l' => if p x then f x :: l' else x :: update_first p f l'
  end.

(** [iter().find(p)]. *)
Fixpoint find_first {A} (p : A -> bool) (l : list A) : option A :=
  match l with
  | [] => None
  | x :: l' => if p x then Some x else find_first p l'
  end.

(** [Vec::retain] / [iter().filter] with a boolean closure. *)
Definition retain {A} (p : A -> bool) (l : list A) : list A := filter (fun x => p x = true) l.

(** * Random numbers: the [RngCore] trait of [rand_core] *)

Class RngCore (R : Type) := {
  next_u32 : R -> Z * R;
  next_u64 : R -> Z * R;
  (** [fill_bytes] on a buffer of the given length. *)
  fill_bytes : R -> nat -> list Z * R
}.
Class RngCoreLaws (R : Type) {G : RngCore R} : Prop := {
  next_u32_range r : in_u 32 (next_u32 r).1;
  next_u64_range r : in_u 64 (next_u64 r).1;
  fill_bytes_len r n : length (fill_bytes r n).1 = n;
  fill_bytes_ok r n : bytes_ok (fill_bytes r n).1
}.

(** A counter as a generator, to run the randomised code on concrete inputs. *)
Module ToyRng.
#[global] Instance rng : RngCore Z := {
  next_u32 r := (u32 (r * 2654435769), r + 1);
  next_u64 r := (u64 (r * 11400714819323198485), r + 1);
  fill_bytes r n := (be_bytes n (r * 2654435769 + 12345), r + 1)
}.
#[global] Instance laws : RngCoreLaws Z.
Proof.
  split; simpl; intros.
  - by apply wrap_range.
  - by apply wrap_range.
  - apply length_be_bytes.
  - apply be_bytes_ok.
Qed.
End ToyRng.

(** * State and errors

    A [&mut self] method that returns a [Result].  A failure keeps the changes
    made before it, as the early return of [?] does. *)

Definition St (S E A : Type) : Type := S -> S * outcome E A.

#[global] Instance St_ret {S E} : MRet (St S E) := fun A a s => (s, Ok a).
#[global] Instance St_bind {S E} : MBind (St S E) := fun A B f m s =>
  match m s with
  | (s', Ok a) => f a s'
  | (s', Err e) => (s', Err e)
  | (s', Panic) => (s', Panic)
  end.

(** Read through a projection, update, run a fallible pure computation, return
    an error, guard, and work on a field. *)
Definition gets {S E A} (f : S -> A) : St S E A := fun s => (s, Ok (f s)).
Definition modify {S E} (f : S -> S) : St S E unit := fun s => (f s, Ok ()).
Definition lift {S E A} (o : outcome E A) : St S E A := fun s => (s, o).
Definition fail {S E A} (e : E) : St S E A := fun s => (s, Err e).
Definition ensure {S E} (b : bool) (e : E) : St S E unit := if b then mret () else fail e.
Definition zoom {S T E A} (pr : S -> T) (set : T -> S -> S) (m : St T E A) : St S E A :=
  fun s => let '(t, r) := m (pr s) in (set t s, r).

Lemma st_bind_run {S E A B} (m : St S E A) (f : A -> St S E B) s s1 a :
  m s = (s1, Ok a) -> (m ≫= f) s = f a s1.
Proof. intros H. unfold mbind, St_bind. by rewrite H. Qed.

(** The state after a successful call, with its result. *)
Definition exec {S E A} (m : St S E A) (s : S) : outcome E (S * A) :=
  match m s with (s', Ok a) => Ok (s', a) | (_, Err e) => Err e | (_, Panic) => Panic end.

(** [dst.copy_from_slice(src)] into an array of [n] elements. *)
Definition copy_from_slice {E A} (n : nat) (src : list A) : outcome E (list A) :=
  if decide (length src = n) then Ok src else Panic.

Section Adaptors.
Context {A : Type}.
Implicit Types (l : list A) (p : A -> bool).

Lemma min_by_key_None {K} `{KeyOrd K} (f : A -> K) l : min_by_key f l = None <-> l = [].
Proof. destruct l; simpl; naive_solver. Qed.

Lemma max_by_key_None {K} `{KeyOrd K} (f : A -> K) l : max_by_key f l = None <-> l = [].
Proof. destruct l; simpl; naive_solver. Qed.

Lemma foldl_pick_In (g : A -> A -> A) x l :
  (forall a b, g a b = a \/ g a b = b) -> foldl g x l ∈ x :: l.
Proof.
  intros Hg. revert x. induction l as [|y l IH]; intros x; simpl; [set_solver|].
  specialize (IH (g x y)). destruct (Hg x y) as [E|E]; rewrite E in *; set_solver.
Qed.

Lemma min_by_key_In {K} `{KeyOrd K} (f : A -> K) l m : min_by_key f l = Some m -> m ∈ l.
Proof.
  destruct l as [|x l]; intros [= <-]. apply foldl_pick_In.
  intros a b. destruct (kcmp (f a) (f b)); auto.
Qed.

Lemma max_by_key_In {K} `{KeyOrd K} (f : A -> K) l m : max_by_key f l = Some m -> m ∈ l.
Proof.
  destruct l as [|x l]; intros [= <-]. apply foldl_pick_In.
  intros a b. destruct (kcmp (f a) (f b)); auto.
Qed.

Lemma min_by_key_le {K} `{KeyOrdLaws K} (f : A -> K) l m y :
  min_by_key f l = Some m -> y ∈ l -> kcmp (f m) (f y) <> Gt.
Proof.
  destruct l as [|x l]; intros [= <-]. revert x y.
  induction l as [|z l IH]; intros x y; simpl.
  { intros ->%list_elem_of_singleton. by rewrite kcmp_refl. }
  rewrite elem_of_cons, elem_of_cons. destruct (kcmp (f x) (f z)) eqn:E.
  - apply kcmp_eq in E. intros [->|[->|Hy]]; [apply IH; set_solver| |apply IH; set_solver].
    rewrite <- E. apply IH. set_solver.
  - intros [->|[->|Hy]]; [apply IH; set_solver| |apply IH; set_solver].
    intros Hc%klt_gt. apply (IH x x); [set_solver|]. apply klt_gt. by transitivity (f z).
  - apply klt_gt in E. intros [->|[->|Hy]]; [|apply IH; set_solver|apply IH; set_solver].
    intros Hc%klt_gt. apply (IH z z); [set_solver|]. apply klt_gt. by transitivity (f x).
Qed.

Lemma max_by_key_ge {K} `{KeyOrdLaws K} (f : A -> K) l m y :
  max_by_key f l = Some m -> y ∈ l -> kcmp (f y) (f m) <> Gt.
Proof.
  destruct l as [|x l]; intros [= <-]. revert x y.
  induction l as [|z l IH]; intros x y; simpl.
  { intros ->%list_elem_of_singleton. by rewrite kcmp_refl. }
  rewrite elem_of_cons, elem_of_cons. destruct (kcmp (f x) (f z)) eqn:E.
  - apply kcmp_eq in E. intros [->|[->|Hy]]; [|apply IH; set_solver|apply IH; set_solver].
    rewrite E. apply IH. set_solver.
  - intros [->|[->|Hy]]; [|apply IH; set_solver|apply IH; set_solver].
    intros Hc%klt_gt. apply (IH z z); [set_solver|]. apply klt_gt. by transitivity (f x).
  - apply klt_gt in E. intros [->|[->|Hy]]; [apply IH; set_solver| |apply IH; set_solver].
    intros Hc%klt_gt. apply (IH x x); [set_solver|]. apply klt_gt. by transitivity (f z).
Qed.

Lemma elem_of_retain p l x : x ∈ retain p l <-> p x = true /\ x ∈ l.
Proof. unfold retain. by rewrite list_elem_of_filter. Qed.

Lemma Forall_retain (P : A -> Prop) p l : Forall P l -> Forall P (retain p l).
Proof. rewrite !Forall_forall. intros H x Hx. apply elem_of_retain in Hx as [_ ?]. auto. Qed.

Lemma retain_nil p : retain p (@nil A) = [].
Proof. done. Qed.

Lemma retain_cons p x l : retain p (x :: l) = if p x then x :: retain p l else retain p l.
Proof. unfold retain. rewrite filter_cons. destruct (p x); [by rewrite decide_True|by rewrite decide_False]. Qed.

Lemma retain_all p l : Forall (fun x => p x = true) l -> retain p l = l.
Proof. induction 1 as [|x l Hx _ IH]; [done|]. by rewrite retain_cons, Hx, IH. Qed.

Lemma retain_all_inv p l : zlen (retain p l) = zlen l -> Forall (fun x => p x = true) l.
Proof.
  induction l as [|x l IH]; [constructor|]. rewrite retain_cons. unfold zlen in *.
  pose proof (length_filter (fun x => p x = true) l) as Hl. fold (retain p l) in Hl.
  destruct (p x) eqn:E; simpl; intros H; [constructor; [done|apply IH; lia]|lia].
Qed.

Lemma retain_app p l k : retain p (l ++ k) = retain p l ++ retain p k.
Proof. apply filter_app. Qed.

Lemma retain_partition p l : l ≡ₚ retain p l ++ retain (fun x => negb (p x)) l.
Proof.
  induction l as [|x l IH]; [done|]. rewrite !retain_cons. destruct (p x); simpl.
  - by rewrite <- IH.
  - rewrite <- Permutation_middle. by rewrite <- IH.
Qed.

Lemma retain_Permutation p l k : l ≡ₚ k -> retain p l ≡ₚ retain p k.
Proof. intros H. unfold retain. by rewrite H. Qed.

Lemma retain_sublist p l : sublist (retain p l) l.
Proof. apply sublist_filter. Qed.

Lemma take_drop_perm l i x : l !! i = Some x -> l ≡ₚ x :: take i l ++ drop (S i) l.
Proof. intros H. rewrite <- (take_drop_middle l i x H) at 1. by rewrite Permutation_middle. Qed.

Lemma length_retain p l : (length (retain p l) <= length l)%nat.
Proof. apply length_filter. Qed.

Lemma find_first_Some p l x : find_first p l = Some x -> p x = true /\ x ∈ l.
Proof.
  induction l as [|y l IH]; simpl; [done|]. destruct (p y) eqn:E.
  - intros [= ->]. set_solver.
  - intros [??]%IH. set_solver.
Qed.

Lemma position_Some p l i :
  position p l = Some i <->
  exists x, l !! i = Some x /\ p x = true /\
    forall j y, (j < i)%nat -> l !! j = Some y -> p y = false.
Proof.
  revert i. induction l as [|x l IH]; intros i; simpl; [split; [done|naive_solver]|].
  destruct (p x) eqn:E.
  - split.
    + intros [= <-]. exists x. repeat split; auto. intros; lia.
    + intros (y & Hy & Hp & Hb). destruct i as [|i]; [done|].
      specialize (Hb O x ltac:(lia) eq_refl). congruence.
  - rewrite fmap_Some. setoid_rewrite IH. split.
    + intros (i' & (y & Hy & Hp & Hb) & ->). exists y. split; [done|split;[done|]].
      intros [|j] z Hj Hz; simpl in *; [naive_solver|]. apply (Hb j); [lia|done].
    + intros (y & Hy & Hp & Hb). destruct i as [|i]; simpl in *; [congruence|].
      exists i. split; [|done]. exists y. split; [done|split;[done|]].
      intros j z Hj Hz. apply (Hb (S j) z); [lia|done].
Qed.

Lemma position_None p l : position p l = None <-> Forall (fun x => p x = false) l.
Proof.
  induction l as [|x l IH]; simpl; [by split; [constructor|]|].
  rewrite Forall_cons. destruct (p x); [naive_solver|].
  rewrite fmap_None, IH. naive_solver.
Qed.

Lemma length_update_first p f l : length (update_first p f l) = length l.
Proof. induction l as [|x l IH]; simpl; [done|]. destruct (p x); simpl; auto. Qed.

Lemma Forall_update_first (P : A -> Prop) p f l :
  Forall P l -> (forall x, x ∈ l -> P x -> p x = true -> P (f x)) ->
  Forall P (update_first p f l).
Proof.
  induction 1 as [|x l Hx Hl IH]; simpl; intros Hf; [done|]. destruct (p x) eqn:E.
  - constructor; [apply Hf; set_solver|done].
  - constructor; [done|]. apply IH. intros y Hy. apply Hf. set_solver.
Qed.

Lemma fmap_update_first {B} (g : A -> B) p f l :
  (forall x, p x = true -> g (f x) = g x) -> g <$> update_first p f l = g <$> l.
Proof.
  intros Hg. induction l as [|x l IH]; simpl; [done|].
  destruct (p x) eqn:E; rewrite !fmap_cons; [by rewrite Hg|by rewrite IH].
Qed.
End Adaptors.

Lemma zsum_app l k : zsum (l ++ k) = zsum l + zsum k.
Proof. induction l; simpl; lia. Qed.
Lemma zsum_Permutation l k : l ≡ₚ k -> zsum l = zsum k.
Proof. induction 1; simpl in *; lia. Qed.
Lemma zsum_nonneg l : Forall (fun x => 0 <= x) l -> 0 <= zsum l.
Proof. induction 1; simpl; lia. Qed.
#[global] Instance zsum_Proper : Proper ((≡ₚ) ==> (=)) zsum.
Proof. intros ???. by apply zsum_Permutation. Qed.

#[export] Hint Resolve length_retain : mesh.

(** Exhaustive check of a decidable fact about one byte. *)
Lemma byte_forall (P : Z -> Prop) `{forall b, Decision (P b)} :
  forallb (fun b => bool_decide (P b)) (Z.of_nat <$> seq 0 256) = true -> forall b, byte_ok b -> P b.
Proof.
  intros Hall b Hb. rewrite forallb_forall in Hall. apply (bool_decide_eq_true_1 (P b)), Hall, list_elem_of_In.
  apply list_elem_of_fmap. exists (Z.to_nat b). unfold byte_ok, in_u in Hb. change (2 ^ 8) with 256 in Hb.
  split; [lia|]. apply elem_of_seq. lia.
Qed.

Ltac byte_check b Hb :=
  pattern b;
  match goal with |- ?Q b => refine (byte_forall Q _ b Hb); vm_compute; reflexivity end.

(** * Reading fields out of a concatenation

    [codec] walks a decoder over the bytes an encoder produced: it skips the
    fields in front of the one being read. *)

(** [uN::from_be_bytes([b[off], .., b[off + n - 1]])]. *)
Definition be_at {E} (b : list Z) (off : Z) (n : nat) : outcome E Z :=
  s ← slice b off (off + Z.of_nat n); Ok (from_be s).

Lemma slice_skip {E A} (p s : list A) lo hi :
  zlen p <= lo <= hi -> @slice E A (p ++ s) lo hi = slice s (lo - zlen p) (hi - zlen p).
Proof.
  intros H. pose proof (zlen_nonneg p). unfold slice. rewrite zlen_app.
  destruct (decide (hi - zlen p <= zlen s)).
  - rewrite !decide_True by lia. f_equal.
    replace (hi - zlen p - (lo - zlen p)) with (hi - lo) by lia.
    rewrite skipn_app, (skipn_all2 p) by (unfold zlen in *; lia). simpl. do 2 f_equal. unfold zlen in *. lia.
  - rewrite !decide_False by lia. done.
Qed.

Lemma slice_cons_skip {E A} (x : A) s lo hi :
  1 <= lo <= hi -> @slice E A (x :: s) lo hi = slice s (lo - 1) (hi - 1).
Proof. intros H. apply (slice_skip [x]). unfold zlen. simpl. lia. Qed.

Lemma slice_here {E A} (m s : list A) lo hi :
  lo = 0 -> hi = zlen m -> @slice E A (m ++ s) lo hi = Ok m.
Proof. intros -> ->. rewrite <- (app_nil_l (m ++ s)). by apply slice_mid. Qed.

Lemma slice_here_end {E A} (m : list A) lo hi :
  lo = 0 -> hi = zlen m -> @slice E A m lo hi = Ok m.
Proof. intros -> ->. rewrite <- (app_nil_r m) at 1. by apply slice_here. Qed.

Lemma idx_skip {E A} (p s : list A) i : zlen p <= i -> @idx E A (p ++ s) i = idx s (i - zlen p).
Proof.
  intros H. pose proof (zlen_nonneg p). unfold idx. rewrite !decide_True by lia.
  rewrite lookup_app_r by (unfold zlen in *; lia). do 2 f_equal. unfold zlen in *. lia.
Qed.

Lemma idx_cons_skip {E A} (x : A) s i : 1 <= i -> @idx E A (x :: s) i = idx s (i - 1).
Proof. intros H. apply (idx_skip [x]). unfold zlen. simpl. lia. Qed.

Lemma idx_here {E A} (x : A) s i : i = 0 -> @idx E A (x :: s) i = Ok x.
Proof. intros ->. done. Qed.

Lemma idx_here_app {E A} (x : A) s i : i = 0 -> @idx E A ([x] ++ s) i = Ok x.
Proof. intros ->. done. Qed.

Lemma slice_from_skip {E A} (p s : list A) lo :
  zlen p <= lo <= zlen p + zlen s -> @slice_from E A (p ++ s) lo = slice_from s (lo - zlen p).
Proof.
  intros H. unfold slice_from. rewrite zlen_app, slice_skip by lia. f_equal. lia.
Qed.

Lemma slice_from_cons_skip {E A} (x : A) s lo :
  1 <= lo <= 1 + zlen s -> @slice_from E A (x :: s) lo = slice_from s (lo - 1).
Proof. intros H. apply (slice_from_skip [x]). rewrite zlen_cons, zlen_nil. lia. Qed.

Lemma slice_from_here {E A} (s : list A) lo : lo = 0 -> @slice_from E A s lo = Ok s.
Proof. intros ->. by apply slice_here_end. Qed.

Lemma slice_wf {E} (b : list Z) lo hi s : bytes_ok b -> @slice E Z b lo hi = Ok s -> bytes_ok s.
Proof. unfold slice. case_decide; intros Hb [= <-]. by apply Forall_take, Forall_drop. Qed.

Lemma idx_wf {E} (b : list Z) i x : bytes_ok b -> @idx E Z b i = Ok x -> byte_ok x.
Proof.
  unfold idx. case_decide; [|done]. intros Hb. destruct (b !! Z.to_nat i) eqn:E'; [|done].
  intros [= <-]. unfold bytes_ok in Hb. rewrite Forall_lookup in Hb. eauto.
Qed.

Lemma slice_zlen {E A} (b : list A) lo hi s : @slice E A b lo hi = Ok s -> zlen s = hi - lo.
Proof.
  unfold slice. case_decide; intros [= <-]. unfold zlen in *. rewrite length_take, length_drop. lia.
Qed.

Lemma be_at_wf {E} (b : list Z) off n x : bytes_ok b -> @be_at E b off n = Ok x -> in_u (8 * Z.of_nat n) x.
Proof.
  intros Hb. unfold be_at. rewrite bind_ok. intros (s & Hs & [= <-]).
  pose proof (slice_zlen _ _ _ _ Hs). apply slice_wf in Hs; [|done].
  pose proof (from_be_range s Hs). unfold in_u. rewrite Z.pow_mul_r by lia. change (2 ^ 8) with 256.
  by replace (Z.of_nat n) with (zlen s) by lia.
Qed.

Lemma be_at_in {E} (b : list Z) off n :
  0 <= off -> off + Z.of_nat n <= zlen b -> exists x, @be_at E b off n = Ok x.
Proof. intros ??. unfold be_at. rewrite slice_in by lia. simpl. eauto. Qed.

Ltac zlens := autorewrite with mesh; lia.
Ltac codec_step :=
  first
    [ rewrite slice_here by zlens
    | rewrite slice_here_end by zlens
    | rewrite slice_cons_skip by zlens
    | rewrite slice_skip by zlens
    | rewrite idx_here by zlens
    | rewrite idx_here_app by zlens
    | rewrite idx_cons_skip by zlens
    | rewrite idx_skip by zlens
    | rewrite slice_from_here by zlens
    | rewrite slice_from_cons_skip by zlens
    | rewrite slice_from_skip by zlens
    | rewrite decide_False by zlens
    | rewrite decide_True by zlens ].
Ltac codec := repeat (unfold be_at; codec_step; cbn [mbind outcome_bind]).

(** Run the first read of a decoder on its own. *)
Lemma bind_head {E A B} (m : outcome E A) (f : A -> outcome E B) a r : m = Ok a -> f a = r -> m ≫= f = r.
Proof. intros ->. done. Qed.
Ltac codec_head := eapply bind_head; [solve [codec; reflexivity]|cbn beta].

(** ** Inverting a successful decoder run *)

(** Break [H : m ≫= k = Ok _] into the successful steps. *)
Ltac inv_ok H :=
  repeat match type of H with
  | (_ ≫= _) = Ok _ => apply bind_ok in H as (? & ? & H)
  | (if decide ?P then _ else _) = Ok _ => case_decide; [done|]
  | (if ?b then _ else _) = Ok _ => destruct b eqn:?; [done|]
  end.

(** The bytes a successful read consumed. *)
Lemma drop_idx {E A} (f : list A) i x n :
  @idx E A f i = Ok x -> i = Z.of_nat n -> drop n f = x :: drop (S n) f.
Proof.
  unfold idx. intros Hx ->. case_decide; [|done]. rewrite Nat2Z.id in Hx.
  destruct (f !! n) eqn:E'; [|done]. injection Hx as <-. by apply drop_S.
Qed.

Lemma drop_slice {E A} (f : list A) lo hi s n m :
  @slice E A f lo hi = Ok s -> lo = Z.of_nat n -> hi = Z.of_nat m -> drop n f = s ++ drop m f.
Proof.
  unfold slice. intros Hs -> ->. case_decide as Hd; [|done]. injection Hs as <-.
  rewrite Nat2Z.id. replace (Z.to_nat (Z.of_nat m - Z.of_nat n)) with (m - n)%nat by lia.
  rewrite <- (take_drop (m - n) (drop n f)) at 1. f_equal. rewrite drop_drop. f_equal. lia.
Qed.

Lemma drop_be_at {E} (f : list Z) off k x n m :
  bytes_ok f -> @be_at E f off k = Ok x -> off = Z.of_nat n -> m = (n + k)%nat ->
  drop n f = be_bytes k x ++ drop m f.
Proof.
  intros Hf Hx -> ->. unfold be_at in Hx. apply bind_ok in Hx as (s & Hs & [= <-]).
  rewrite be_bytes_from_be.
  - eapply drop_slice; [done|done|lia].
  - by eapply slice_wf.
  - apply slice_zlen in Hs. unfold zlen in Hs. lia.
Qed.

#[global] Arguments be_bytes : simpl never.
#[global] Arguments from_be : simpl never.
#[global] Arguments zlen : simpl never.
#[global] Arguments wrap : simpl never.
#[global] Arguments slice : simpl never.
#[global] Arguments idx : simpl never.
#[global] Arguments be_at : simpl never.

(** * Absence of panics *)

Definition safe {E A} (m : outcome E A) : Prop := m <> Panic.

Section Safe.
Context {E A B : Type}.
Implicit Types (m : outcome E A).

Lemma safe_bind m (f : A -> outcome E B) :
  safe m -> (forall a, m = Ok a -> safe (f a)) -> safe (m ≫= f).
Proof. unfold safe. intros Hm Hf. destruct m; simpl; auto. Qed.

Lemma safe_if (P : Prop) `{Decision P} m1 m2 :
  (P -> safe m1) -> (~ P -> safe m2) -> safe (if decide P then m1 else m2).
Proof. case_decide; auto. Qed.

Lemma safe_ifb (b : bool) m1 m2 :
  (b = true -> safe m1) -> (b = false -> safe m2) -> safe (if b then m1 else m2).
Proof. destruct b; auto. Qed.

Lemma safe_Ok (a : A) : safe (@Ok E A a).
Proof. done. Qed.
Lemma safe_Err (e : E) : safe (@Err E A e).
Proof. done. Qed.
Lemma safe_ok_or (o : option A) (e : E) : safe (ok_or o e).
Proof. by destruct o. Qed.
Lemma safe_idx (b : list A) i : 0 <= i < zlen b -> safe (@idx E A b i).
Proof. intros H. destruct (@idx_in E A b i H) as (x & -> & _). done. Qed.
Lemma safe_slice (b : list A) lo hi : 0 <= lo <= hi /\ hi <= zlen b -> safe (@slice E A b lo hi).
Proof. intros [H1 H2]. by rewrite slice_in. Qed.
Lemma safe_slice_from (b : list A) lo : 0 <= lo <= zlen b -> safe (@slice_from E A b lo).
Proof. intros H. unfold slice_from. by rewrite slice_in by lia. Qed.
End Safe.

Lemma safe_be_at {E} (b : list Z) off n :
  0 <= off /\ off + Z.of_nat n <= zlen b -> safe (@be_at E b off n).
Proof. intros [? ?]. by destruct (@be_at_in E b off n) as [x ->]. Qed.

(** Goes through a decoder, discharging every index against the length guards
    met on the way; leaves the steps that are not plain reads. *)
Ltac safe_step :=
  match goal with
  | |- safe (_ ≫= _) => apply safe_bind; [|intros ? ?]
  | |- safe (if decide _ then _ else _) => apply safe_if; intros ?
  | |- safe (if _ then _ else _) => apply safe_ifb; intros ?
  | |- safe (Ok _) => apply safe_Ok
  | |- safe (Err _) => apply safe_Err
  | |- safe (ok_or _ _) => apply safe_ok_or
  | |- safe (idx _ _) => apply safe_idx; lia
  | |- safe (slice _ _ _) => apply safe_slice; lia
  | |- safe (slice_from _ _) => apply safe_slice_from; lia
  | |- safe (be_at _ _ _) => apply safe_be_at; lia
  end.
Ltac safe_tac := repeat (safe_step || (progress auto with mesh)).

(** * Reasoning about methods

    [wp m Q s]: from [s] the method does not panic, and when it succeeds its
    final state and result satisfy [Q]. *)

Definition wp {S E A} (m : St S E A) (Q : S -> A -> Prop) (s : S) : Prop :=
  match m s with (s', Ok a) => Q s' a | (_, Err _) => True | (_, Panic) => False end.

Section Wp.
Context {S E A B : Type}.
Implicit Types (s : S).

Lemma wp_bind (m : St S E A) (f : A -> St S E B) Q s :
  wp m (fun s' a => wp (f a) Q s') s -> wp (m ≫= f) Q s.
Proof. unfold wp, mbind, St_bind. destruct (m s) as [s' [a|e|]]; done. Qed.

Lemma wp_gets (f : S -> A) Q s : Q s (f s) -> wp (E := E) (gets f) Q s.
Proof. done. Qed.
Lemma wp_modify (f : S -> S) Q s : Q (f s) () -> wp (E := E) (modify f) Q s.
Proof. done. Qed.
Lemma wp_ret (a : A) Q s : Q s a -> wp (E := E) (mret a) Q s.
Proof. done. Qed.
Lemma wp_ensure b (e : E) Q s : (b = true -> Q s ()) -> wp (ensure b e) Q s.
Proof. destruct b; [|done]. intros H. by apply H. Qed.
Lemma wp_lift (o : outcome E A) Q s : safe o -> (forall a, o = Ok a -> Q s a) -> wp (lift o) Q s.
Proof. unfold wp, lift, safe. destruct o; naive_solver. Qed.
Lemma wp_zoom {T} (pr : S -> T) set (m : St T E A) Q s :
  wp m (fun t a => Q (set t s) a) (pr s) -> wp (zoom pr set m) Q s.
Proof. unfold wp, zoom. destruct (m (pr s)) as [t [a|e|]]; done. Qed.
Lemma wp_mono (m : St S E A) (Q Q' : S -> A -> Prop) s :
  wp m Q s -> (forall s' a, Q s' a -> Q' s' a) -> wp m Q' s.
Proof. unfold wp. destruct (m s) as [s' [a|e|]]; auto. Qed.
Lemma wp_ok (m : St S E A) Q s s' a : wp m Q s -> m s = (s', Ok a) -> Q s' a.
Proof. unfold wp. intros H Hm. by rewrite Hm in H. Qed.
Lemma wp_safe (m : St S E A) Q s : wp m Q s -> (m s).2 <> Panic.
Proof. unfold wp. destruct (m s) as [s' [a|e|]]; done. Qed.
End Wp.

Ltac wp_step :=
  match goal with
  | |- wp (_ ≫= _) _ _ => apply wp_bind
  | |- wp (gets _) _ _ => apply wp_gets
  | |- wp (modify _) _ _ => apply wp_modify
  | |- wp (mret _) _ _ => apply wp_ret
  | |- wp (ensure _ _) _ _ => apply wp_ensure; intros ?
  | |- wp (lift _) _ _ => apply wp_lift; [|intros ? ?]
  | |- wp (zoom _ _ _) _ _ => apply wp_zoom
  end.

(** [wpx m Q X s]: like [wp], with [X] holding of the state an error or a panic
    leaves behind. *)
Definition wpx {S E A} (m : St S E A) (Q : S -> A -> Prop) (X : S -> Prop) (s : S) : Prop :=
  match m s with (s', Ok a) => Q s' a | (s', _) => X s' end.

Section Wpx.
Context {S E A B : Type}.
Implicit Types (s : S) (X : S -> Prop).

Lemma wpx_bind (m : St S E A) (f : A -> St S E B) Q X s :
  wpx m (fun s' a => wpx (f a) Q X s') X s -> wpx (m ≫= f) Q X s.
Proof. unfold wpx, mbind, St_bind. destruct (m s) as [s' [a|e|]]; done. Qed.
Lemma wpx_gets (f : S -> A) Q X s : Q s (f s) -> wpx (E := E) (gets f) Q X s.
Proof. done. Qed.
Lemma wpx_modify (f : S -> S) Q X s : Q (f s) () -> wpx (E := E) (modify f) Q X s.
Proof. done. Qed.
Lemma wpx_ret (a : A) Q X s : Q s a -> wpx (E := E) (mret a) Q X s.
Proof. done. Qed.
Lemma wpx_ensure b (e : E) Q X s : (b = true -> Q s ()) -> X s -> wpx (ensure b e) Q X s.
Proof. unfold wpx. destruct b; simpl; auto. Qed.
Lemma wpx_lift (o : outcome E A) Q X s : (forall a, o = Ok a -> Q s a) -> X s -> wpx (lift o) Q X s.
Proof. unfold wpx, lift. destruct o; auto. Qed.
Lemma wpx_zoom {T} (pr : S -> T) set (m : St T E A) Q X s :
  wpx m (fun t a => Q (set t s) a) (fun t => X (set t s)) (pr s) -> wpx (zoom pr set m) Q X s.
Proof. unfold wpx, zoom. destruct (m (pr s)) as [t [a|e|]]; done. Qed.
Lemma wpx_final (m : St S E A) X s : wpx m (fun s' _ => X s') X s -> X (m s).1.
Proof. unfold wpx. by destruct (m s) as [s' [a|e|]]. Qed.
End Wpx.

Ltac wpx_step :=
  match goal with
  | |- wpx (_ ≫= _) _ _ _ => apply wpx_bind
  | |- wpx (gets _) _ _ _ => apply wpx_gets
  | |- wpx (modify _) _ _ _ => apply wpx_modify
  | |- wpx (mret _) _ _ _ => apply wpx_ret
  | |- wpx (ensure _ _) _ _ _ => apply wpx_ensure; [intros ?|]
  | |- wpx (lift _) _ _ _ => apply wpx_lift; [intros ? ?|]
  | |- wpx (zoom _ _ _) _ _ _ => apply wpx_zoom
  end.
