(* ===== verification/SmallMap.v ===== *)
(** * Small containers ([crates/meshstar-core/src/util.rs])

    [SmallMap<K, V>]: a vector of pairs kept sorted by key, searched by binary
    search, and the in-place insertion sort [sort_by_key].  The same structure
    stands for [BTreeMap], whose API the source type mirrors (key order
    iteration, one value per key).

    The refinement results relate every operation to lookups ([get]) and to the
    multiset of entries, which is all the protocol tables rely on. *)
From stdpp Require Import base tactics list numbers sorting sets.
From Stdlib Require Import Lia Sorted Permutation.
From S2P Require Import Prelude.

Notation smallmap K V := (list (K * V)).

Module SmallMap.
Section defs.
Context {K V : Type} `{KeyOrd K}.
Implicit Types (m : smallmap K V).

Definition empty : smallmap K V := [].

(** [slice::binary_search_by] of the standard library: halve the window
    [base, base + size) until one candidate is left. *)
Fixpoint search_loop (fuel : nat) (f : nat -> comparison) (base size : nat) : nat :=
  match fuel with
  | O => base
  | S fuel' =>
      if (size <=? 1)%nat then base
      else let half := (size / 2)%nat in
           let mid := (base + half)%nat in
           search_loop fuel' f (match f mid with Gt => base | _ => mid end) (size - half)
  end.

Definition cmp_at (m : smallmap K V) (k : K) (i : nat) : comparison :=
  match m !! i with Some (key, _) => kcmp key k | None => Gt end.

(** [find]: [inl i] is [Ok(i)], [inr i] is [Err(i)]. *)
Definition find m (k : K) : nat + nat :=
  match m with
  | [] => inr O
  | _ => let base := search_loop (length m) (cmp_at m k) O (length m) in
         match cmp_at m k base with
         | Eq => inl base
         | Lt => inr (S base)
         | Gt => inr base
         end
  end.

Definition len m : Z := zlen m.
Definition is_empty m : bool := match m with [] => true | _ => false end.
Definition clear m : smallmap K V := [].

Definition contains_key m k : bool := match find m k with inl _ => true | inr _ => false end.

Definition get m k : option V :=
  match find m k with inl i => snd <$> m !! i | inr _ => None end.

(** [get_mut] followed by an update [f] through the reference. *)
Definition update m k (f : V -> V) : smallmap K V :=
  match find m k with
  | inl i => alter (fun kv => (kv.1, f kv.2)) i m
  | inr _ => m
  end.

Definition vec_insert {A} (i : nat) (x : A) (l : list A) : list A := take i l ++ x :: drop i l.
Definition vec_remove {A} (i : nat) (l : list A) : list A := take i l ++ drop (S i) l.

Definition insert m k (v : V) : smallmap K V * option V :=
  match find m k with
  | inl i => (alter (fun kv => (kv.1, v)) i m, snd <$> m !! i)
  | inr i => (vec_insert i (k, v) m, None)
  end.

Definition remove m k : smallmap K V * option V :=
  match find m k with
  | inl i => (vec_remove i m, snd <$> m !! i)
  | inr _ => (m, None)
  end.

(** [get_or_default]: the map with the default inserted if absent. *)
Definition get_or_default (dflt : V) m k : smallmap K V :=
  match find m k with
  | inl _ => m
  | inr i => vec_insert i (k, dflt) m
  end.

Definition keys m : list K := m.*1.
Definition values m : list V := m.*2.

(** [for k in ks { map.remove(k) }]. *)
Definition remove_all (ks : list K) (m : smallmap K V) : smallmap K V := foldl (fun m k => (remove m k).1) m ks.

Definition retain (f : K -> V -> bool) m : smallmap K V := Prelude.retain (fun kv => f kv.1 kv.2) m.

(** [iter_mut] / [values_mut] with an in-place update. *)
Definition map_values (f : K -> V -> V) m : smallmap K V := (fun kv => (kv.1, f kv.1 kv.2)) <$> m.

(** [map[&k]]: panics when the key is absent. *)
Definition index {E} m k : outcome E V := unwrap (get m k).

Definition from_iter (l : list (K * V)) : smallmap K V :=
  foldl (fun m kv => (insert m kv.1 kv.2).1) empty l.
End defs.
End SmallMap.

(** [sort_by_key]: insertion sort by adjacent swaps. *)
Definition swap {A} (v : list A) (i j : nat) : list A :=
  match v !! i, v !! j with
  | Some a, Some b => <[j := a]> (<[i := b]> v)
  | _, _ => v
  end.

(** The [while j > 0 && key(v[j-1]) > key(v[j])] loop. *)
Fixpoint sift {A K} `{KeyOrd K} (key : A -> K) (v : list A) (j : nat) : list A :=
  match j with
  | O => v
  | S j' =>
      match v !! j', v !! j with
      | Some a, Some b =>
          match kcmp (key a) (key b) with
          | Gt => sift key (swap v j' j) j'
          | _ => v
          end
      | _, _ => v
      end
  end.

Definition sort_by_key {A K} `{KeyOrd K} (v : list A) (key : A -> K) : list A :=
  foldl (sift key) v (seq 1 (length v - 1)).

(** ** The insertion sort sorts *)

Section sort_facts.
Context {A K : Type} `{KeyOrdLaws K} (key : A -> K).

Definition key_le (a b : A) : Prop := kcmp (key a) (key b) <> Gt.

#[global] Instance key_le_trans : Transitive key_le.
Proof.
  intros a b c. unfold key_le. rewrite !klt_gt. intros Hab Hbc Hca.
  destruct (kcmp (key b) (key c)) eqn:E.
  - apply kcmp_eq in E. by rewrite E in Hab.
  - apply Hab. by transitivity (key c).
  - by apply klt_gt in E.
Qed.

(** Insertion of [x] below the larger elements, on the reversed prefix. *)
Fixpoint ins_rev (x : A) (rs : list A) : list A :=
  match rs with
  | [] => [x]
  | a :: rs' => match kcmp (key a) (key x) with Gt => a :: ins_rev x rs' | _ => x :: a :: rs' end
  end.

Lemma swap_adjacent (l : list A) a b r :
  swap (l ++ a :: b :: r) (length l) (S (length l)) = l ++ b :: a :: r.
Proof.
  unfold swap.
  rewrite !lookup_app_r by lia.
  rewrite Nat.sub_diag. replace (S (length l) - length l)%nat with 1%nat by lia. simpl.
  rewrite <- (Nat.add_0_r (length l)) at 2. rewrite insert_app_r. simpl.
  replace (S (length l)) with (length l + 1)%nat by lia. by rewrite insert_app_r.
Qed.

Lemma sift_spec rs x rest :
  sift key (reverse rs ++ x :: rest) (length rs) = reverse (ins_rev x rs) ++ rest.
Proof.
  revert x rest. induction rs as [|a rs IH]; intros x rest; [done|].
  cbn [length sift ins_rev]. rewrite reverse_cons, <- app_assoc. simpl.
  rewrite !lookup_app_r by (rewrite length_reverse; lia). rewrite !length_reverse, Nat.sub_diag.
  replace (S (length rs) - length rs)%nat with 1%nat by lia. simpl.
  destruct (kcmp (key a) (key x)).
  - by rewrite !reverse_cons, <- !app_assoc.
  - by rewrite !reverse_cons, <- !app_assoc.
  - rewrite <- (length_reverse rs) at 1 2. rewrite swap_adjacent, ?length_reverse, IH.
    by rewrite reverse_cons, <- app_assoc.
Qed.

Lemma ins_rev_perm x rs : ins_rev x rs ≡ₚ x :: rs.
Proof.
  induction rs as [|a rs IH]; simpl; [done|]. destruct (kcmp (key a) (key x)); [done|done|].
  rewrite IH. constructor.
Qed.

Lemma ins_rev_sorted x rs :
  StronglySorted (flip key_le) rs -> StronglySorted (flip key_le) (ins_rev x rs).
Proof.
  induction 1 as [|a rs Hs IH Hall]; simpl; [repeat constructor|].
  destruct (kcmp (key a) (key x)) eqn:E.
  - constructor; [by constructor|]. assert (flip key_le x a) as Hx by (unfold flip, key_le; congruence).
    constructor; [done|]. eapply Forall_impl; [done|]. intros y Hy. unfold flip in *. by transitivity a.
  - constructor; [by constructor|]. assert (flip key_le x a) as Hx by (unfold flip, key_le; congruence).
    constructor; [done|]. eapply Forall_impl; [done|]. intros y Hy. unfold flip in *. by transitivity a.
  - constructor; [done|]. rewrite ins_rev_perm. constructor; [|done].
    unfold flip, key_le. rewrite (kcmp_sym (key a)), E. done.
Qed.

Lemma StronglySorted_flip_reverse (R : A -> A -> Prop) l :
  StronglySorted (flip R) l -> StronglySorted R (reverse l).
Proof.
  induction 1 as [|a l Hs IH Hall]; [constructor|]. rewrite reverse_cons.
  apply StronglySorted_app_2; [|done|repeat constructor].
  intros x y Hx ->%list_elem_of_singleton. rewrite elem_of_reverse in Hx.
  rewrite Forall_forall in Hall. by apply Hall.
Qed.

(** After processing indices [1 .. n], the first [n+1] elements are the
    insertion-sorted prefix and the rest is untouched. *)
Lemma sort_loop_spec n rs rest :
  (n <= length rest)%nat -> StronglySorted (flip key_le) rs ->
  exists rs', StronglySorted (flip key_le) rs' /\ reverse rs' ≡ₚ reverse rs ++ take n rest /\
    foldl (sift key) (reverse rs ++ rest) (seq (length rs) n) = reverse rs' ++ drop n rest.
Proof.
  revert rs rest. induction n as [|n IH]; intros rs rest Hn Hs.
  { exists rs. simpl. by rewrite take_0, drop_0, app_nil_r. }
  destruct rest as [|x rest]; simpl in Hn; [lia|]. simpl.
  rewrite sift_spec.
  destruct (IH (ins_rev x rs) rest) as (rs' & Hs' & HP & Heq); [lia|by apply ins_rev_sorted|].
  exists rs'. split; [done|]. split.
  - rewrite HP, !reverse_Permutation, ins_rev_perm. simpl. by rewrite Permutation_middle.
  - rewrite <- Heq. f_equal. by rewrite (Permutation_length (ins_rev_perm x rs)).
Qed.

Lemma sort_by_key_spec v :
  StronglySorted key_le (sort_by_key v key) /\ sort_by_key v key ≡ₚ v.
Proof.
  unfold sort_by_key. destruct v as [|x v]; [split; constructor|].
  destruct (sort_loop_spec (length v) [x] v) as (rs' & Hs & HP & Heq); [lia|repeat constructor|].
  simpl. rewrite Nat.sub_0_r. simpl in Heq. change (reverse [x]) with [x] in *. simpl in *. rewrite Heq.
  rewrite drop_all, app_nil_r. split; [by apply StronglySorted_flip_reverse|].
  rewrite HP. by rewrite firstn_all.
Qed.

Lemma sort_by_key_perm v : sort_by_key v key ≡ₚ v.
Proof. apply sort_by_key_spec. Qed.
Lemma sort_by_key_sorted v : StronglySorted key_le (sort_by_key v key).
Proof. apply sort_by_key_spec. Qed.
End sort_facts.

(** ** Correctness of the binary search *)

Module SmallMapFacts.
Import SmallMap.
Section facts.
Context {K V : Type} `{KeyOrdLaws K}.
Implicit Types (m : smallmap K V) (k : K) (v : V).

(** The representation invariant: keys strictly increasing. *)
Definition wf m : Prop := StronglySorted klt (m.*1).

Lemma wf_lookup_lt m i j ki kj vi vj :
  wf m -> m !! i = Some (ki, vi) -> m !! j = Some (kj, vj) -> (i < j)%nat -> klt ki kj.
Proof.
  unfold wf. revert i j. induction m as [|[k0 v0] m IH]; intros i j Hs Hi Hj Hij; [done|].
  simpl in Hs. apply StronglySorted_inv in Hs as [Hs Hall].
  destruct j as [|j]; [lia|]. destruct i as [|i]; simpl in *.
  - simplify_eq. rewrite Forall_forall in Hall. apply Hall.
    apply list_elem_of_fmap. exists (kj, vj). split; [done|]. by eapply list_elem_of_lookup_2.
  - apply (IH i j); auto. lia.
Qed.

Lemma search_loop_spec m k fuel base size :
  wf m -> (1 <= size)%nat -> (size <= S fuel)%nat -> (base + size <= length m)%nat ->
  (base = O \/ cmp_at m k base <> Gt) ->
  (forall i, (base + size <= i)%nat -> cmp_at m k i = Gt) ->
  let b := search_loop fuel (cmp_at m k) base size in
  (b < length m)%nat /\ (b = O \/ cmp_at m k b <> Gt) /\
  (forall i, (b < i)%nat -> cmp_at m k i = Gt).
Proof.
  intros Hwf. revert base size. induction fuel as [|fuel IH]; intros base size H1 Hf Hb Hlo Hhi b; subst b.
  { simpl. assert (size = 1%nat) by lia. subst. repeat split; auto; [lia|]. intros; apply Hhi; lia. }
  cbn [search_loop]. destruct (Nat.leb_spec size 1).
  { assert (size = 1%nat) by lia. subst. repeat split; auto; [lia|]. intros; apply Hhi; lia. }
  set (half := (size / 2)%nat).
  assert (1 <= half /\ half < size /\ 2 * half <= size)%nat as (? & ? & ?).
  { unfold half. pose proof (Nat.div_mod_eq size 2). pose proof (Nat.mod_upper_bound size 2). lia. }
  destruct (cmp_at m k (base + half)) eqn:E.
  - apply IH; try lia; [right; congruence|]. intros i Hi. apply Hhi. lia.
  - apply IH; try lia; [right; congruence|]. intros i Hi. apply Hhi. lia.
  - apply IH; try lia; [done|]. intros i Hi.
    destruct (decide (length m <= i)%nat) as [Hl|Hl].
    { unfold cmp_at. by rewrite lookup_ge_None_2. }
    destruct (decide (i = base + half)%nat) as [->|]; [done|].
    unfold cmp_at in *.
    destruct (lookup_lt_is_Some_2 m (base + half)) as [[k1 v1] E1]; [lia|].
    destruct (lookup_lt_is_Some_2 m i) as [[k2 v2] E2]; [lia|].
    rewrite E1 in E. rewrite E2. apply klt_gt in E. apply klt_gt.
    etransitivity; [exact E|]. apply (wf_lookup_lt m (base + half) i _ _ v1 v2); auto; lia.
Qed.

(** What [find] returns: [Ok(i)] points at the key; [Err(i)] splits the
    vector into smaller and larger keys. *)
Lemma find_spec m k :
  wf m ->
  match find m k with
  | inl i => exists v, m !! i = Some (k, v)
  | inr i => (i <= length m)%nat /\
             (forall j kj vj, m !! j = Some (kj, vj) -> if decide (j < i)%nat then klt kj k else klt k kj)
  end.
Proof.
  intros Hwf. unfold find. destruct m as [|kv m']; [simpl; split; [lia|intros ???; rewrite lookup_nil; done]|].
  set (m := kv :: m') in *.
  destruct (search_loop_spec m k (length m) 0 (length m)) as (Hb & Hlo & Hhi); try (simpl; lia); auto.
  { intros i Hi. unfold cmp_at. by rewrite lookup_ge_None_2. }
  set (b := search_loop _ _ _ _) in *.
  destruct (lookup_lt_is_Some_2 m b Hb) as [[kb vb] Eb].
  assert (Hc : cmp_at m k b = kcmp kb k) by (unfold cmp_at; by rewrite Eb).
  assert (Hgt : forall j kj vj, (b < j)%nat -> m !! j = Some (kj, vj) -> klt k kj).
  { intros j kj vj Hj Ej. specialize (Hhi j Hj). unfold cmp_at in Hhi. rewrite Ej in Hhi. by apply klt_gt. }
  rewrite Hc. destruct (kcmp kb k) eqn:E.
  - apply kcmp_eq in E as ->. eauto.
  - split; [lia|]. intros j kj vj Ej. case_decide.
    + destruct (decide (j = b)) as [->|]; [naive_solver|].
      transitivity kb; [|done]. eapply (wf_lookup_lt m j b); eauto. lia.
    + eapply Hgt; [|done]. lia.
  - split; [lia|]. apply klt_gt in E. rewrite Hc in Hlo.
    assert (b = O) as Hb0 by (destruct Hlo as [|Hn]; [done|]; by apply klt_gt in E).
    intros j kj vj Ej. case_decide; [lia|].
    destruct (decide (j = b)) as [->|]; [naive_solver|]. eapply Hgt; [|done]. lia.
Qed.

Definition all_lt (l : smallmap K V) k : Prop := forall kv, kv ∈ l -> klt kv.1 k.
Definition all_gt (l : smallmap K V) k : Prop := forall kv, kv ∈ l -> klt k kv.1.

Lemma wf_zipper l r k v : wf (l ++ (k, v) :: r) <-> wf l /\ wf r /\ all_lt l k /\ all_gt r k.
Proof.
  unfold wf, all_lt, all_gt. rewrite fmap_app, fmap_cons, StronglySorted_app, StronglySorted_cons.
  rewrite Forall_forall. setoid_rewrite elem_of_cons. setoid_rewrite list_elem_of_fmap. simpl.
  split.
  - intros (Hlr & Hl & Hk & Hr). repeat split; auto; intros kv Hkv; [apply Hlr|apply Hk]; eauto.
  - intros (Hl & Hr & Hlt & Hgt). repeat split; auto.
    + intros x1 x2 (kv1 & -> & Hk1) [->|(kv2 & -> & Hk2)]; [auto|]. transitivity k; auto.
    + intros x (kv & -> & Hkv). auto.
Qed.

Lemma wf_app l r k : wf l -> wf r -> all_lt l k -> all_gt r k -> wf (l ++ r).
Proof.
  unfold wf, all_lt, all_gt. intros Hl Hr Hlt Hgt. rewrite fmap_app. apply StronglySorted_app_2; auto.
  intros x1 x2. rewrite !list_elem_of_fmap. intros (kv1 & -> & Hk1) (kv2 & -> & Hk2).
  transitivity k; auto.
Qed.

(** The cut [find] makes: the state of the vector around the key. *)
Lemma find_split m k :
  wf m ->
  (exists l v r, m = l ++ (k, v) :: r /\ find m k = inl (length l) /\ all_lt l k /\ all_gt r k) \/
  (exists l r, m = l ++ r /\ find m k = inr (length l) /\ all_lt l k /\ all_gt r k /\ wf l /\ wf r).
Proof.
  intros Hwf. pose proof (find_spec m k Hwf) as Hf. destruct (find m k) as [i|i].
  - left. destruct Hf as [v Hv]. pose proof (take_drop_middle m i (k, v) Hv) as Hm.
    exists (take i m), v, (drop (S i) m). rewrite length_take_le by (apply lookup_lt_Some in Hv; lia).
    rewrite <- Hm in Hwf. apply wf_zipper in Hwf as (_ & _ & ? & ?). auto.
  - right. destruct Hf as [Hi Hf]. exists (take i m), (drop i m).
    rewrite take_drop, length_take_le by done. repeat split; auto.
    + intros [kj vj] (j & Hj)%list_elem_of_lookup. apply lookup_take_Some in Hj as [Hj Hji].
      specialize (Hf _ _ _ Hj). by rewrite decide_True in Hf by lia.
    + intros [kj vj] (j & Hj)%list_elem_of_lookup. rewrite lookup_drop in Hj.
      specialize (Hf _ _ _ Hj). by rewrite decide_False in Hf by lia.
    + rewrite <- (take_drop i m) in Hwf. unfold wf in *. rewrite fmap_app in Hwf.
      by apply StronglySorted_app_1_l in Hwf.
    + rewrite <- (take_drop i m) in Hwf. unfold wf in *. rewrite fmap_app in Hwf.
      by apply StronglySorted_app_1_r in Hwf.
Qed.

(** Case analysis on a lookup, rewriting [m] into its zipper form. *)
Inductive split_spec m k : Prop :=
| SplitHit l v r : m = l ++ (k, v) :: r -> find m k = inl (length l) ->
    get m k = Some v -> all_lt l k -> all_gt r k -> wf l -> wf r -> split_spec m k
| SplitMiss l r : m = l ++ r -> find m k = inr (length l) ->
    get m k = None -> all_lt l k -> all_gt r k -> wf l -> wf r -> split_spec m k.

Lemma split_get m k : wf m -> split_spec m k.
Proof.
  intros Hwf. destruct (find_split m k Hwf) as [(l & v & r & -> & Hf & Hl & Hr)|(l & r & -> & Hf & Hl & Hr & ? & ?)].
  - apply wf_zipper in Hwf as (? & ? & _). eapply SplitHit; eauto.
    unfold get. rewrite Hf. rewrite lookup_app_r, Nat.sub_diag by lia. done.
  - eapply SplitMiss; eauto. unfold get. by rewrite Hf.
Qed.

Lemma update_hit l r k v f :
  find (l ++ (k, v) :: r) k = inl (length l) ->
  update (l ++ (k, v) :: r) k f = l ++ (k, f v) :: r.
Proof. unfold update. intros ->. rewrite <- (Nat.add_0_r (length l)), alter_app_r. done. Qed.

Lemma insert_hit l r k v v' :
  find (l ++ (k, v) :: r) k = inl (length l) ->
  insert (l ++ (k, v) :: r) k v' = (l ++ (k, v') :: r, Some v).
Proof.
  unfold insert. intros ->. rewrite lookup_app_r, Nat.sub_diag by lia.
  rewrite <- (Nat.add_0_r (length l)) at 1. rewrite alter_app_r. done.
Qed.

Lemma insert_miss l r k v :
  find (l ++ r) k = inr (length l) -> insert (l ++ r) k v = (l ++ (k, v) :: r, None).
Proof. unfold insert, vec_insert. intros ->. by rewrite take_app_length, drop_app_length. Qed.

Lemma remove_hit l r k v :
  find (l ++ (k, v) :: r) k = inl (length l) -> remove (l ++ (k, v) :: r) k = (l ++ r, Some v).
Proof.
  unfold remove, vec_remove. intros ->. rewrite lookup_app_r, Nat.sub_diag by lia.
  rewrite take_app_length. replace (S (length l)) with (length l + 1)%nat by lia.
  by rewrite drop_app_add.
Qed.

Lemma get_Some m k v : wf m -> get m k = Some v <-> (k, v) ∈ m.
Proof.
  intros Hwf. destruct (split_get m k Hwf) as [l v' r -> _ -> Hl Hr _ _|l r -> _ -> Hl Hr _ _];
    rewrite ?elem_of_app, ?elem_of_cons; split; try naive_solver.
  - intros [Hin|[?|Hin]]; [|congruence|]; exfalso.
    + by apply (klt_irrefl k), (Hl (k, v)).
    + by apply (klt_irrefl k), (Hr (k, v)).
  - intros [Hin|Hin]; exfalso.
    + by apply (klt_irrefl k), (Hl (k, v)).
    + by apply (klt_irrefl k), (Hr (k, v)).
Qed.

Lemma get_None m k : wf m -> get m k = None <-> forall v, (k, v) ∉ m.
Proof.
  intros Hwf. split.
  - intros Hn v Hv. apply get_Some in Hv; [|done]. congruence.
  - intros Hn. destruct (get m k) as [v|] eqn:E; [|done]. apply get_Some in E; [|done]. by destruct (Hn v).
Qed.

Lemma contains_key_get m k : wf m -> contains_key m k = bool_decide (is_Some (get m k)).
Proof.
  intros Hwf. unfold contains_key.
  destruct (split_get m k Hwf) as [l v' r Hm -> -> _ _ _ _|l r Hm -> -> _ _ _ _];
    symmetry; [by apply bool_decide_eq_true|apply bool_decide_eq_false; by intros [??]].
Qed.

  (** *** Well-formedness and contents after each operation *)

Lemma insert_wf m k v : wf m -> wf (insert m k v).1.
Proof.
  intros Hwf. destruct (split_get m k Hwf) as [l v' r -> Hf _ ? ? ? ?|l r -> Hf _ ? ? ? ?].
  - rewrite insert_hit by done. by apply wf_zipper.
  - rewrite insert_miss by done. by apply wf_zipper.
Qed.

Lemma insert_old m k v : wf m -> (insert m k v).2 = get m k.
Proof.
  intros Hwf. destruct (split_get m k Hwf) as [l v' r -> Hf -> ? ? ? ?|l r -> Hf -> ? ? ? ?];
    [by rewrite insert_hit|by rewrite insert_miss].
Qed.

Lemma remove_wf m k : wf m -> wf (remove m k).1.
Proof.
  intros Hwf. destruct (split_get m k Hwf) as [l v' r -> Hf _ ? ? ? ?|l r -> Hf _ ? ? ? ?].
  - rewrite remove_hit by done. by eapply wf_app.
  - unfold remove. rewrite Hf. done.
Qed.

Lemma remove_old m k : wf m -> (remove m k).2 = get m k.
Proof.
  intros Hwf. destruct (split_get m k Hwf) as [l v' r -> Hf -> ? ? ? ?|l r -> Hf -> ? ? ? ?];
    [by rewrite remove_hit|]. unfold remove. by rewrite Hf.
Qed.

Lemma remove_perm m k v : wf m -> get m k = Some v -> m ≡ₚ (k, v) :: (remove m k).1.
Proof.
  intros Hwf Hg. destruct (split_get m k Hwf) as [l v' r -> Hf Hg' ? ? ? ?|l r -> Hf Hg' ? ? ? ?];
    [|congruence]. rewrite remove_hit by done. simplify_eq/=. by rewrite Permutation_middle.
Qed.

Lemma remove_None m k : wf m -> get m k = None -> (remove m k).1 = m.
Proof.
  intros Hwf Hg. destruct (split_get m k Hwf) as [l v' r -> Hf Hg' ? ? ? ?|l r -> Hf Hg' ? ? ? ?];
    [congruence|]. unfold remove. by rewrite Hf.
Qed.

Lemma insert_perm m k v : wf m -> (insert m k v).1 ≡ₚ (k, v) :: (remove m k).1.
Proof.
  intros Hwf. destruct (split_get m k Hwf) as [l v' r -> Hf Hg' ? ? ? ?|l r -> Hf Hg' ? ? ? ?].
  - rewrite insert_hit, remove_hit by done. simpl. by rewrite Permutation_middle.
  - rewrite insert_miss by done. unfold remove. rewrite Hf. simpl. by rewrite Permutation_middle.
Qed.

Lemma update_insert m k f v : wf m -> get m k = Some v -> update m k f = (insert m k (f v)).1.
Proof.
  intros Hwf Hg. destruct (split_get m k Hwf) as [l v' r -> Hf Hg' ? ? ? ?|l r -> Hf Hg' ? ? ? ?];
    [|congruence]. simplify_eq. by rewrite insert_hit, update_hit.
Qed.

Lemma update_None m k f : wf m -> get m k = None -> update m k f = m.
Proof.
  intros Hwf Hg. destruct (split_get m k Hwf) as [l v' r -> Hf Hg' ? ? ? ?|l r -> Hf Hg' ? ? ? ?];
    [congruence|]. unfold update. by rewrite Hf.
Qed.

Lemma update_wf m k f : wf m -> wf (update m k f).
Proof.
  intros Hwf. destruct (get m k) eqn:E; [erewrite update_insert by eauto; by apply insert_wf|].
  by rewrite update_None.
Qed.

Lemma get_or_default_insert d m k :
  wf m -> get_or_default d m k = match get m k with Some _ => m | None => (insert m k d).1 end.
Proof.
  intros Hwf. unfold get_or_default, insert.
  destruct (split_get m k Hwf) as [l v' r -> -> -> ? ? ? ?|l r -> -> -> ? ? ? ?]; done.
Qed.

Lemma get_remove m k k' : wf m -> get (remove m k).1 k' = match kcmp k k' with Eq => None | _ => get m k' end.
Proof.
  intros Hwf. apply option_eq. intros v. rewrite get_Some by (by apply remove_wf).
  destruct (get m k) as [v0|] eqn:E.
  - pose proof (remove_perm m k v0 Hwf E) as HP. destruct (kcmp k k') eqn:Ek.
    + apply kcmp_eq in Ek as <-. split; [|done]. intros Hin.
      assert (Hnd : (k, v) ∈ (remove m k).1) by done. clear HP.
      destruct (split_get m k Hwf) as [l v' r -> Hf Hg' Hl Hr ? ?|l r -> Hf Hg' ? ? ? ?]; [|congruence].
      rewrite remove_hit in Hnd by done. apply elem_of_app in Hnd as [Hi|Hi]; exfalso;
        apply (klt_irrefl k); [by apply (Hl (k, v))|by apply (Hr (k, v))].
    + rewrite get_Some by done. generalize dependent (remove m k).1. intros m' ->. rewrite elem_of_cons.
      split; [auto|]. intros [[= -> ->]|]; [|done]. by rewrite kcmp_refl in Ek.
    + rewrite get_Some by done. generalize dependent (remove m k).1. intros m' ->. rewrite elem_of_cons.
      split; [auto|]. intros [[= -> ->]|]; [|done]. by rewrite kcmp_refl in Ek.
  - rewrite remove_None, <- get_Some by done. destruct (kcmp k k') eqn:Ek; [|done|done].
    apply kcmp_eq in Ek as <-. by rewrite E.
Qed.

Lemma get_insert m k v k' :
  wf m -> get (insert m k v).1 k' = match kcmp k k' with Eq => Some v | _ => get m k' end.
Proof.
  intros Hwf. apply option_eq. intros v'. rewrite get_Some, insert_perm, elem_of_cons by (auto using insert_wf).
  rewrite <- (get_Some (remove m k).1), get_remove by (auto using remove_wf).
  destruct (kcmp k k') eqn:E.
  - apply kcmp_eq in E as <-. naive_solver.
  - split; [intros [[= -> ->]|]; [by rewrite kcmp_refl in E|done]|auto].
  - split; [intros [[= -> ->]|]; [by rewrite kcmp_refl in E|done]|auto].
Qed.

Lemma get_update m k f k' :
  wf m -> get (update m k f) k' = match kcmp k k' with Eq => f <$> get m k' | _ => get m k' end.
Proof.
  intros Hwf. destruct (get m k) as [v|] eqn:E.
  - erewrite update_insert, get_insert by eauto. destruct (kcmp k k') eqn:Ek; [|done|done].
    apply kcmp_eq in Ek as <-. by rewrite E.
  - rewrite update_None by done. destruct (kcmp k k') eqn:Ek; [|done|done].
    apply kcmp_eq in Ek as <-. by rewrite E.
Qed.

Lemma retain_wf f m : wf m -> wf (retain f m).
Proof.
  unfold wf, retain, Prelude.retain. induction m as [|[k v] m IH]; [done|]. simpl.
  intros [Hs Hall]%StronglySorted_inv. rewrite filter_cons. case_decide; [|auto].
  rewrite fmap_cons. constructor; [auto|]. rewrite Forall_forall in *. intros x.
  rewrite list_elem_of_fmap. intros (kv & -> & [_ Hkv]%elem_of_retain).
  apply Hall, list_elem_of_fmap. eauto.
Qed.

Lemma get_retain f m k :
  wf m -> get (retain f m) k = match get m k with Some v => if f k v then Some v else None | None => None end.
Proof.
  intros Hwf. apply option_eq. intros v. rewrite get_Some by (by apply retain_wf).
  unfold retain. rewrite elem_of_retain, <- get_Some by done. simpl.
  destruct (get m k) as [v'|]; [|by split; [intros [??]|]]. destruct (f k v') eqn:E; split.
  - intros [_ ?]. congruence.
  - intros [= <-]. auto.
  - intros [? [= <-]]. congruence.
  - done.
Qed.

Lemma map_values_keys f m : (map_values f m).*1 = m.*1.
Proof. unfold map_values. rewrite <- list_fmap_compose. by apply list_fmap_ext. Qed.

Lemma map_values_wf f m : wf m -> wf (map_values f m).
Proof. unfold wf. by rewrite map_values_keys. Qed.

Lemma get_map_values f m k : wf m -> get (map_values f m) k = f k <$> get m k.
Proof.
  intros Hwf. apply option_eq. intros v. rewrite get_Some by (by apply map_values_wf).
  unfold map_values. rewrite list_elem_of_fmap, fmap_Some. split.
  - intros ([k' v'] & [= -> ->] & Hin). exists v'. split; [by apply get_Some|done].
  - intros (v' & Hv & ->). apply get_Some in Hv; [|done]. exists (k, v'). done.
Qed.

Lemma get_empty k : get (@empty K V) k = None.
Proof. done. Qed.
Lemma empty_wf : wf (@empty K V).
Proof. constructor. Qed.

Lemma wf_keys_NoDup m : wf m -> NoDup (m.*1).
Proof.
  unfold wf. induction 1 as [|k l Hs IH Hall]; constructor; [|done].
  intros Hin. rewrite Forall_forall in Hall. by apply (klt_irrefl k), Hall.
Qed.

(** Two well-formed maps with the same lookups are the same vector. *)
Lemma wf_ext m1 m2 : wf m1 -> wf m2 -> (forall k, get m1 k = get m2 k) -> m1 = m2.
Proof.
  intros H1 H2 Hext.
  assert (Hin : forall kv, kv ∈ m1 <-> kv ∈ m2).
  { intros [k v]. rewrite <- !get_Some by done. by rewrite Hext. }
  clear Hext. revert m2 H1 H2 Hin.
  induction m1 as [|[k1 v1] m1 IH]; intros [|[k2 v2] m2] H1 H2 Hin; [done|set_solver|set_solver|].
  pose proof (wf_zipper [] m1 k1 v1) as Hz1. pose proof (wf_zipper [] m2 k2 v2) as Hz2. simpl in *.
  apply Hz1 in H1 as (_ & H1 & _ & Hg1). apply Hz2 in H2 as (_ & H2 & _ & Hg2).
  assert ((k1, v1) = (k2, v2)) as [= -> ->].
  { assert (Ha : (k1, v1) ∈ (k2, v2) :: m2) by (apply Hin; set_solver).
    assert (Hb : (k2, v2) ∈ (k1, v1) :: m1) by (apply Hin; set_solver).
    apply elem_of_cons in Ha as [|Ha]; [done|]. apply elem_of_cons in Hb as [|Hb]; [done|].
    apply Hg2 in Ha. apply Hg1 in Hb. simpl in *. destruct (klt_irrefl k1). by transitivity k2. }
  f_equal. apply IH; auto. intros [k v]. specialize (Hin (k, v)). rewrite !elem_of_cons in Hin.
  split; intros Hkv.
  - destruct Hin as [[Heq|] _]; [by right| |done]. injection Heq as -> ->.
    destruct (klt_irrefl k2). by apply (Hg1 (k2, v2)).
  - destruct Hin as [_ [Heq|]]; [by right| |done]. injection Heq as -> ->.
    destruct (klt_irrefl k2). by apply (Hg2 (k2, v2)).
Qed.

Lemma remove_insert m k v : wf m -> (remove (insert m k v).1 k).1 = (remove m k).1.
Proof.
  intros Hwf. apply wf_ext; [by apply remove_wf, insert_wf|by apply remove_wf|]. intros k'.
  rewrite !get_remove, get_insert by auto using insert_wf. by destruct (kcmp k k').
Qed.

Lemma insert_insert m k v v' : wf m -> (insert (insert m k v).1 k v').1 = (insert m k v').1.
Proof.
  intros Hwf. apply wf_ext; [by apply insert_wf, insert_wf|by apply insert_wf|]. intros k'.
  rewrite !get_insert by auto using insert_wf. by destruct (kcmp k k').
Qed.

Lemma get_insert_eq m k v : wf m -> get (insert m k v).1 k = Some v.
Proof. intros Hwf. by rewrite get_insert, kcmp_refl. Qed.

Lemma len_insert m k v :
  wf m -> len (insert m k v).1 = len m + (if get m k then 0 else 1).
Proof.
  intros Hwf. pose proof (Permutation_length (insert_perm m k v Hwf)) as HP. unfold len, zlen.
  destruct (get m k) as [v0|] eqn:Hg.
  - pose proof (Permutation_length (remove_perm m k v0 Hwf Hg)). simpl in *. lia.
  - rewrite (remove_None m k Hwf Hg) in HP. simpl in HP. lia.
Qed.

Lemma len_remove m k : wf m -> len (remove m k).1 = len m - (if get m k then 1 else 0).
Proof.
  intros Hwf. unfold len, zlen. destruct (get m k) as [v0|] eqn:Hg.
  - pose proof (Permutation_length (remove_perm m k v0 Hwf Hg)). simpl in *. lia.
  - rewrite (remove_None m k Hwf Hg). lia.
Qed.

Lemma len_update m k f : wf m -> len (update m k f) = len m.
Proof.
  intros Hwf. unfold update. destruct (find m k); [|done]. unfold len, zlen. by rewrite length_alter.
Qed.

Lemma len_retain f m : len (retain f m) <= len m.
Proof. unfold len, zlen, retain. pose proof (length_retain (fun kv => f kv.1 kv.2) m). lia. Qed.

Lemma Forall_insert (P : K * V -> Prop) m k v :
  wf m -> Forall P m -> P (k, v) -> Forall P (insert m k v).1.
Proof.
  intros Hwf Hm Hv. rewrite (insert_perm m k v Hwf). constructor; [done|].
  destruct (get m k) as [v0|] eqn:Hg; [|by rewrite remove_None].
  rewrite (remove_perm m k v0 Hwf Hg) in Hm. by inversion Hm.
Qed.

Lemma Forall_remove (P : K * V -> Prop) m k : wf m -> Forall P m -> Forall P (remove m k).1.
Proof.
  intros Hwf Hm. destruct (get m k) as [v0|] eqn:Hg; [|by rewrite remove_None].
  rewrite (remove_perm m k v0 Hwf Hg) in Hm. by inversion Hm.
Qed.

Lemma Forall_update (P : K * V -> Prop) m k f :
  wf m -> Forall P m -> (forall v, get m k = Some v -> P (k, v) -> P (k, f v)) -> Forall P (update m k f).
Proof.
  intros Hwf Hm Hf. destruct (get m k) as [v0|] eqn:Hg; [|by rewrite update_None].
  rewrite (update_insert m k f v0 Hwf Hg). apply Forall_insert; auto. apply Hf; auto.
  rewrite Forall_forall in Hm. apply Hm. by apply get_Some.
Qed.

(** ** Removing a set of keys *)

Lemma remove_all_spec (ks : list K) m :
  wf m -> wf (remove_all ks m) /\ len (remove_all ks m) <= len m /\
  forall k, get (remove_all ks m) k = if decide (Exists (fun x => kcmp x k = Eq) ks) then None else get m k.
Proof.
  revert m. induction ks as [|x ks IH]; intros m Hwf; cbn [remove_all foldl].
  { split; [done|]. split; [lia|]. intros k. rewrite decide_False; [done|by intros ?%Exists_nil]. }
  destruct (IH (remove m x).1) as (H1 & H2 & H3); [by apply remove_wf|]. unfold remove_all in *. split; [done|]. split.
  - rewrite (len_remove m x Hwf) in H2. destruct (get m x); lia.
  - intros k. rewrite H3, get_remove by done. destruct (decide (Exists _ ks)) as [He|He].
    + rewrite decide_True; [done|]. by apply Exists_cons_tl.
    + destruct (kcmp x k) eqn:Ex.
      * rewrite decide_True; [done|]. by apply Exists_cons_hd.
      * rewrite decide_False; [done|]. intros [|]%Exists_cons; congruence.
      * rewrite decide_False; [done|]. intros [|]%Exists_cons; congruence.
Qed.

Lemma Forall_remove_all (P : K * V -> Prop) (ks : list K) m : wf m -> Forall P m -> Forall P (remove_all ks m).
Proof.
  revert m. induction ks as [|x ks IH]; intros m Hwf Hm; cbn [remove_all foldl]; [done|].
  apply IH; [by apply remove_wf|by apply Forall_remove].
Qed.

(** Maps whose values carry their own key. *)
Definition keyed (key : V -> K) m : Prop := Forall (fun kv => key kv.2 = kv.1) m.

Lemma elem_of_values m v : v ∈ values m <-> exists k, (k, v) ∈ m.
Proof.
  unfold values. rewrite list_elem_of_fmap. split; [intros ([k v'] & -> & ?); eauto|intros [k Hk]; by exists (k, v)].
Qed.

Lemma keyed_values key m v : wf m -> keyed key m -> v ∈ values m <-> get m (key v) = Some v.
Proof.
  intros Hwf Hk. rewrite elem_of_values. unfold keyed in Hk. rewrite Forall_forall in Hk. split.
  - intros [k Hin]. pose proof (Hk _ Hin) as Heq. simpl in Heq. rewrite Heq. by apply get_Some.
  - intros Hg%get_Some; [eauto|done].
Qed.

Lemma keyed_get key m k v : wf m -> keyed key m -> get m k = Some v -> key v = k.
Proof. intros Hwf Hk Hg%get_Some; [|done]. unfold keyed in Hk. rewrite Forall_forall in Hk. by apply (Hk (k, v)). Qed.

Lemma remove_selected key (p : V -> bool) m k :
  wf m -> keyed key m ->
  get (remove_all (key <$> Prelude.retain p (values m)) m) k =
  match get m k with Some v => if p v then None else Some v | None => None end.
Proof.
  intros Hwf Hk. destruct (remove_all_spec (key <$> Prelude.retain p (values m)) m Hwf) as (_ & _ & ->).
  case_decide as He.
  - apply Exists_exists in He as (x & Hx & Hc). apply kcmp_eq in Hc as ->.
    apply list_elem_of_fmap in Hx as (v & -> & [Hp Hv]%elem_of_retain).
    apply (keyed_values key) in Hv; [|done..]. by rewrite Hv, Hp.
  - destruct (get m k) as [v|] eqn:E; [|done]. destruct (p v) eqn:Hp; [|done]. exfalso. apply He.
    pose proof (keyed_get _ _ _ _ Hwf Hk E) as Hkey. apply Exists_exists. exists k. split; [|by apply kcmp_refl].
    apply list_elem_of_fmap. exists v. split; [done|]. apply elem_of_retain. split; [done|].
    apply (keyed_values key); [done..|]. by rewrite Hkey.
Qed.
End facts.
End SmallMapFacts.
