(* ===== verification/Float32.v ===== *)
(** * Single-precision floating point

    The [f32] of the language: IEEE 754 binary32 with round-to-nearest-even,
    on the executable specification of floating-point numbers of the Standard
    Library (precision 24, exponent bound 128).  Literals are correctly rounded
    quotients of integers; conversions and comparisons follow the language. *)
From stdpp Require Import base tactics list numbers.
From Stdlib Require Import SpecFloat Lia.
From S2P Require Import Prelude.

Declare Scope f32_scope.
Delimit Scope f32_scope with f32.

Notation f32 := spec_float.
Bind Scope f32_scope with spec_float.

(** [z as f32]. *)
Definition f32_of (z : Z) : f32 := binary_normalize 24 128 z 0 false.

Notation "a + b" := (SFadd 24 128 a b) : f32_scope.
Notation "a - b" := (SFsub 24 128 a b) : f32_scope.
Notation "a * b" := (SFmul 24 128 a b) : f32_scope.
Notation "a / b" := (SFdiv 24 128 a b) : f32_scope.

(** The literal of value [n / d], for [n] and [d] exact in binary32. *)
Definition lit (n d : Z) : f32 := (f32_of n / f32_of d)%f32.

(** [f32::clamp], for bounds that are not NaN. *)
Definition f32_clamp (x lo hi : f32) : f32 :=
  let x := if SFltb x lo then lo else x in
  if SFltb hi x then hi else x.

(** [f32::min]: a NaN operand is ignored. *)
Definition f32_min (x y : f32) : f32 :=
  match SFcompare x y with
  | Some Gt => y
  | Some _ => x
  | None => match x with S754_nan => y | _ => x end
  end.

(** [x as u8], [x as u32]: truncation towards zero, saturating; NaN is 0. *)
Definition f32_to_u (w : Z) (x : f32) : Z :=
  match x with
  | S754_finite false m e =>
      Z.min (2 ^ w - 1) (if decide (0 <= e) then Z.pos m * 2 ^ e else Z.pos m / 2 ^ (- e))
  | S754_infinity false => 2 ^ w - 1
  | _ => 0
  end.

Lemma f32_to_u_range w x : 0 <= w -> in_u w (f32_to_u w x).
Proof.
  intros Hw. pose proof (Z.pow_pos_nonneg 2 w ltac:(lia) Hw). unfold in_u, f32_to_u.
  destruct x as [s|[]| |[] m e]; try lia.
  assert (0 <= if decide (0 <= e) then Z.pos m * 2 ^ e else Z.pos m / 2 ^ (- e)); [|lia].
  case_decide; [pose proof (Z.pow_nonneg 2 e); lia|]. apply Z.div_pos; [lia|]. apply Z.pow_pos_nonneg; lia.
Qed.

(** Values as the compiler computes them. *)
Example f32_literals :
  lit 3 10 = S754_finite false 10066330 (-25) /\ f32_of 16777217 = f32_of 16777216 /\
  f32_to_u 8 (lit 999 10) = 99 /\ f32_to_u 8 (f32_of 300) = 255 /\ f32_to_u 8 (f32_of (-3)) = 0.
Proof. by vm_compute. Qed.
