(* ===== verification/Protocol.v ===== *)
(** * Protocol constants, enumerations and addresses

    [crates/meshstar-core/src/protocol/mod.rs] and the [Address] type of
    [crates/meshstar-core/src/identity/mod.rs]. *)
From stdpp Require Import base tactics list numbers.
From Stdlib Require Import Lia.
From S2P Require Import Prelude.

Definition PROTOCOL_VERSION : Z := 1.
Definition MAX_FRAME : Z := 255.
Definition MAX_TTL : Z := 255.
Definition DEFAULT_TTL : Z := 32.
Definition DISCOVERY_TTL_STEPS : list Z := [4; 12; 32].
Definition ADDRESS_LEN : Z := 8.
Definition TAG_LEN : Z := 16.
Definition NET_TAG_LEN : Z := 4.

Inductive PacketType :=
| Beacon | Data | Ack | RouteRequest | RouteReply
| RouteError | Store | Fetch | Handshake | Control.

#[global] Instance PacketType_eq_dec : EqDecision PacketType.
Proof. solve_decision. Defined.

(** [self as u8] *)
Definition ptype_u8 (t : PacketType) : Z :=
  match t with
  | Beacon => 0 | Data => 1 | Ack => 2 | RouteRequest => 3 | RouteReply => 4
  | RouteError => 5 | Store => 6 | Fetch => 7 | Handshake => 8 | Control => 9
  end.

Definition ptype_from_u8 (v : Z) : option PacketType :=
  match Z.land v 0x0F with
  | 0 => Some Beacon
  | 1 => Some Data
  | 2 => Some Ack
  | 3 => Some RouteRequest
  | 4 => Some RouteReply
  | 5 => Some RouteError
  | 6 => Some Store
  | 7 => Some Fetch
  | 8 => Some Handshake
  | 9 => Some Control
  | _ => None
  end.

Definition is_link_local (t : PacketType) : bool :=
  match t with Beacon => true | _ => false end.

Module flags.
Definition ACK_REQUEST : Z := Z.shiftl 1 0.
Definition FRAGMENTED : Z := Z.shiftl 1 1.
Definition ENCRYPTED : Z := Z.shiftl 1 2.
Definition ENVELOPE : Z := Z.shiftl 1 3.
Definition STORE_FORWARD : Z := Z.shiftl 1 4.
Definition LEAF_SOURCE : Z := Z.shiftl 1 5.
Definition GROUP_ENCRYPTED : Z := Z.shiftl 1 6.
Definition NET_AUTH : Z := Z.shiftl 1 7.
End flags.

Inductive Role := Normal | Leaf | Anchor.

#[global] Instance Role_eq_dec : EqDecision Role.
Proof. solve_decision. Defined.

Definition role_u8 (r : Role) : Z := match r with Normal => 0 | Leaf => 1 | Anchor => 2 end.
Definition role_from_u8 (v : Z) : option Role :=
  match v with 0 => Some Normal | 1 => Some Leaf | 2 => Some Anchor | _ => None end.
Definition role_relays (r : Role) : bool := match r with Leaf => false | _ => true end.

Inductive Reliability := Unreliable | Acknowledged | StoreAndForward.

#[global] Instance Reliability_eq_dec : EqDecision Reliability.
Proof. solve_decision. Defined.

Module control.
Definition SESSION_CLOSE : Z := 1.
Definition REKEY_REQUEST : Z := 2.
Definition STORE_ACCEPTED : Z := 3.
Definition STORE_REJECTED : Z := 4.
Definition PING : Z := 5.
Definition PONG : Z := 6.
Definition MAILBOX_ACK : Z := 7.
Definition LINK_ACK : Z := 8.
Definition NO_SESSION : Z := 9.
Definition TRACE_REQ : Z := 10.
Definition TRACE_REP : Z := 11.
Definition TRACE_MAX_HOPS : Z := 24.
End control.

Inductive Error :=
| Truncated | BadVersion | BadType | BadField | BadTtl | Duplicate | AuthFailed
| Replay | NoSession | HandshakeState | TooLarge | NoRoute | Full
| RoleViolation | Expired | NotFound.

#[global] Instance Error_eq_dec : EqDecision Error.
Proof. solve_decision. Defined.

Notation Result := (outcome Error).

(** ** Addresses *)

(** [struct Address([u8; 8])]. *)
Record Address := mkAddress { addr_bytes : list Z }.

#[global] Instance Address_eq_dec : EqDecision Address.
Proof. solve_decision. Defined.
(** Derived [Ord]: lexicographic on the bytes. *)
#[global] Instance Address_KeyOrd : KeyOrd Address := fun a b => kcmp (addr_bytes a) (addr_bytes b).
#[global] Instance Address_KeyOrdLaws : KeyOrdLaws Address.
Proof.
  split; unfold kcmp, Address_KeyOrd.
  - intros [a] [b]; simpl. rewrite kcmp_eq. naive_solver.
  - intros. apply kcmp_sym.
  - intros ???. apply kcmp_trans.
Qed.

Definition address_ok (a : Address) : Prop := length (addr_bytes a) = 8%nat /\ bytes_ok (addr_bytes a).

Definition BROADCAST : Address := mkAddress (replicate 8 0xFF).
Definition NULL : Address := mkAddress (replicate 8 0).

Definition addr_from_bytes (b : list Z) : Result Address :=
  if decide (zlen b < ADDRESS_LEN) then Err Truncated
  else s ← slice b 0 ADDRESS_LEN; Ok (mkAddress s).

Definition is_broadcast (a : Address) : bool := bool_decide (a = BROADCAST).
Definition is_null (a : Address) : bool := bool_decide (a = NULL).

(** The address is a destination a packet may carry: neither reserved value. *)
Definition is_reserved (a : Address) : bool := is_null a || is_broadcast a.

(** [u16::from_be_bytes([self.0[6], self.0[7]])]; the array has eight bytes. *)
Definition addr_short (a : Address) : Z := from_be (drop 6 (addr_bytes a)).
Definition addr_to_u64 (a : Address) : Z := from_be (addr_bytes a).
Definition addr_from_u64 (v : Z) : Address := mkAddress (be_bytes 8 v).

(** *** Text form.  A [str] is its list of Unicode scalar values. *)

(** The [White_Space] characters removed by [str::trim]. *)
Definition is_whitespace (c : Z) : bool :=
  bool_decide (9 <= c <= 13) || bool_decide (c = 32) || bool_decide (c = 0x85) ||
  bool_decide (c = 0xA0) || bool_decide (c = 0x1680) || bool_decide (0x2000 <= c <= 0x200A) ||
  bool_decide (c = 0x2028) || bool_decide (c = 0x2029) || bool_decide (c = 0x202F) ||
  bool_decide (c = 0x205F) || bool_decide (c = 0x3000).

Fixpoint trim_start (s : list Z) : list Z :=
  match s with
  | c :: s' => if is_whitespace c then trim_start s' else s
  | [] => []
  end.
Definition trim (s : list Z) : list Z := reverse (trim_start (reverse (trim_start s))).

(** UTF-8 bytes of a scalar value: [str::as_bytes]. *)
Definition utf8 (c : Z) : list Z :=
  if decide (c < 0x80) then [c]
  else if decide (c < 0x800) then [0xC0 + c / 64; 0x80 + c mod 64]
  else if decide (c < 0x10000) then [0xE0 + c / 4096; 0x80 + (c / 64) mod 64; 0x80 + c mod 64]
  else [0xF0 + c / 262144; 0x80 + (c / 4096) mod 64; 0x80 + (c / 64) mod 64; 0x80 + c mod 64].
Definition as_bytes (s : list Z) : list Z := s ≫= utf8.

Definition strip_prefix (p s : list Z) : option (list Z) :=
  if decide (take (length p) s = p) then Some (drop (length p) s) else None.

Definition hex_val (c : Z) : option Z :=
  if decide (48 <= c <= 57) then Some (c - 48)
  else if decide (97 <= c <= 102) then Some (c - 97 + 10)
  else if decide (65 <= c <= 70) then Some (c - 65 + 10)
  else None.

(** The [chunks(2)] loop of [Address::parse]. *)
Fixpoint parse_hex (l : list Z) : Result (list Z) :=
  match l with
  | [] => Ok []
  | [_] => Panic (* chunk[1] of a short chunk *)
  | c0 :: c1 :: l' =>
      hi ← ok_or (hex_val c0) BadField;
      lo ← ok_or (hex_val c1) BadField;
      r ← parse_hex l';
      Ok (Z.lor (u8 (Z.shiftl hi 4)) lo :: r)
  end.

(** ["MS-"] and ["ms-"]. *)
Definition PREFIX_UPPER : list Z := [77; 83; 45].
Definition PREFIX_LOWER : list Z := [109; 115; 45].

Definition addr_parse (s : list Z) : Result Address :=
  let s := trim s in
  let hex_part :=
    match strip_prefix PREFIX_UPPER s with
    | Some h => h
    | None => match strip_prefix PREFIX_LOWER s with Some h => h | None => s end
    end in
  if decide (zlen (as_bytes hex_part) <> ADDRESS_LEN * 2) then Err BadField
  else a ← parse_hex (as_bytes hex_part); Ok (mkAddress a).

(** [{:02x}] *)
Definition hex_digit (d : Z) : Z := if decide (d < 10) then 48 + d else 97 + d - 10.
Definition hex_byte (b : Z) : list Z := [hex_digit (b / 16); hex_digit (b mod 16)].

(** [impl Display for Address]; ["BROADCAST"] spelled out. *)
Definition addr_display (a : Address) : list Z :=
  if is_broadcast a then PREFIX_UPPER ++ [66; 82; 79; 65; 68; 67; 65; 83; 84]
  else PREFIX_UPPER ++ (addr_bytes a ≫= hex_byte).

(** [Address::from_bytes(..)?] followed by the check the payload decoders make. *)
Definition read_target (b : list Z) (off : Z) : Result Address :=
  s ← slice b off (off + 8);
  a ← addr_from_bytes s;
  if is_null a || is_broadcast a then Err BadField else Ok a.

(** ** Lemmas *)

Lemma ptype_roundtrip t hi :
  0 <= hi -> ptype_from_u8 (Z.lor (Z.shiftl hi 4) (ptype_u8 t)) = Some t.
Proof.
  intros Hhi. unfold ptype_from_u8.
  assert (Z.land (Z.lor (Z.shiftl hi 4) (ptype_u8 t)) 0x0F = ptype_u8 t) as ->.
  { rewrite Z.land_lor_distr_l. change 0x0F with (Z.ones 4). rewrite !Z.land_ones by lia.
    rewrite Z.shiftl_mul_pow2, Z.mod_mul by lia. destruct t; done. }
  by destruct t.
Qed.

Lemma ptype_u8_range t : 0 <= ptype_u8 t < 10.
Proof. destruct t; simpl; lia. Qed.

Lemma role_roundtrip r : role_from_u8 (role_u8 r) = Some r.
Proof. by destruct r. Qed.

Lemma addr_from_bytes_app a s :
  address_ok a -> addr_from_bytes (addr_bytes a ++ s) = Ok a.
Proof.
  intros [Hl _]. destruct a as [b]; simpl in *. unfold addr_from_bytes, ADDRESS_LEN.
  assert (zlen b = 8) as Hz by (unfold zlen; lia).
  rewrite decide_False by (rewrite zlen_app; pose proof (zlen_nonneg s); lia).
  rewrite <- (app_nil_l (b ++ s)), slice_mid; [done|done|by rewrite Hz].
Qed.

Lemma addr_from_bytes_self a : address_ok a -> addr_from_bytes (addr_bytes a) = Ok a.
Proof. intros Ha. rewrite <- (app_nil_r (addr_bytes a)). by apply addr_from_bytes_app. Qed.

Lemma addr_from_bytes_wf b a : bytes_ok b -> addr_from_bytes b = Ok a -> address_ok a.
Proof.
  intros Hb. unfold addr_from_bytes, ADDRESS_LEN. case_decide as Hlt; [done|].
  rewrite slice_in by lia. intros [= <-]. split; simpl; change (Z.to_nat (8 - 0)) with 8%nat.
  - rewrite length_take, length_drop. unfold zlen in Hlt. lia.
  - by apply Forall_take, Forall_drop.
Qed.

Lemma addr_from_bytes_inv b a : zlen b = 8 -> addr_from_bytes b = Ok a -> addr_bytes a = b.
Proof.
  intros Hb. unfold addr_from_bytes, ADDRESS_LEN. rewrite decide_False by lia.
  rewrite slice_here_end by done. intros [= <-]. done.
Qed.

Lemma addr_from_bytes_total b : 8 <= zlen b -> exists a, addr_from_bytes b = Ok a.
Proof.
  intros H. unfold addr_from_bytes, ADDRESS_LEN. rewrite decide_False by lia.
  rewrite slice_in by lia. eauto.
Qed.

Lemma zlen_addr a : address_ok a -> zlen (addr_bytes a) = 8.
Proof. intros [H _]. unfold zlen. lia. Qed.

Lemma addr_short_range a : address_ok a -> in_u 16 (addr_short a).
Proof.
  intros [Hl Hb]. unfold addr_short.
  pose proof (from_be_range (drop 6 (addr_bytes a)) (Forall_drop _ _ _ Hb)) as Hr.
  unfold zlen in Hr. rewrite length_drop, Hl in Hr. exact Hr.
Qed.

Lemma addr_u64_roundtrip a : address_ok a -> addr_from_u64 (addr_to_u64 a) = a.
Proof.
  intros [Hl Hb]. destruct a as [b]. unfold addr_from_u64, addr_to_u64, addr_bytes in *.
  by rewrite be_bytes_from_be.
Qed.

(** *** Text form *)

Lemma hex_byte_parse b r :
  byte_ok b -> parse_hex (hex_byte b ++ r) = (l ← parse_hex r; Ok (b :: l)).
Proof.
  intros Hb. unfold hex_byte. cbn [app parse_hex].
  assert (hex_val (hex_digit (b / 16)) = Some (b / 16)) as -> by byte_check b Hb.
  assert (hex_val (hex_digit (b mod 16)) = Some (b mod 16)) as -> by byte_check b Hb.
  simpl. destruct (parse_hex r); [|done|done]. simpl.
  assert (Z.lor (u8 (Z.shiftl (b / 16) 4)) (b mod 16) = b) as -> by byte_check b Hb. done.
Qed.

Lemma parse_hex_display l : bytes_ok l -> parse_hex (l ≫= hex_byte) = Ok l.
Proof. induction 1 as [|b l Hb _ IH]; [done|]. rewrite bind_cons, hex_byte_parse, IH; done. Qed.

(** Characters the textual form is made of: ASCII, never white space. *)
Definition plain_char (c : Z) : bool := bool_decide (33 <= c < 127).

Lemma plain_not_ws c : plain_char c = true -> is_whitespace c = false.
Proof.
  unfold plain_char, is_whitespace. rewrite bool_decide_eq_true. intros H.
  rewrite !bool_decide_eq_false_2 by lia. done.
Qed.

Lemma trim_plain s : Forall (fun c => plain_char c = true) s -> trim s = s.
Proof.
  assert (Hts : forall l, Forall (fun c => plain_char c = true) l -> trim_start l = l).
  { intros [|c l] Hl; [done|]. simpl. inversion_clear Hl. by rewrite plain_not_ws. }
  intros Hs. unfold trim. rewrite (Hts s Hs), Hts by (by rewrite Forall_reverse). apply reverse_involutive.
Qed.

Lemma as_bytes_plain s : Forall (fun c => plain_char c = true) s -> as_bytes s = s.
Proof.
  unfold as_bytes. induction 1 as [|c s Hc _ IH]; [done|]. rewrite bind_cons, IH.
  unfold plain_char in Hc. apply bool_decide_eq_true in Hc. unfold utf8. by rewrite decide_True by lia.
Qed.

Lemma hex_bytes_plain l : bytes_ok l -> Forall (fun c => plain_char c = true) (l ≫= hex_byte).
Proof.
  induction 1 as [|b l Hb _ IH]; [constructor|]. rewrite bind_cons. unfold hex_byte. simpl.
  repeat constructor; [| |done].
  - byte_check b Hb.
  - byte_check b Hb.
Qed.

Lemma length_hex_bytes l : length (l ≫= hex_byte) = (2 * length l)%nat.
Proof. induction l as [|b l IH]; [done|]. rewrite bind_cons, length_app, IH. simpl. lia. Qed.

(** [Address::from_bytes] never panics. *)
Lemma safe_addr_from_bytes b : safe (addr_from_bytes b).
Proof. unfold addr_from_bytes, ADDRESS_LEN. safe_tac. Qed.
#[export] Hint Resolve safe_addr_from_bytes : mesh.

(** Node addresses as payloads carry them: never null or broadcast. *)
Definition target_ok (a : Address) : Prop := address_ok a /\ is_reserved a = false.

Lemma read_target_at (a : Address) (p s : list Z) off :
  target_ok a -> off = zlen p -> read_target (p ++ addr_bytes a ++ s) off = Ok a.
Proof.
  intros [Ha Hr] ->. unfold read_target. rewrite slice_mid by (done || by rewrite zlen_addr).
  cbn [mbind outcome_bind]. rewrite addr_from_bytes_self by done. cbn [mbind outcome_bind].
  unfold is_reserved in Hr. by rewrite Hr.
Qed.

Lemma read_target_head (a : Address) (s : list Z) : target_ok a -> read_target (addr_bytes a ++ s) 0 = Ok a.
Proof. intros Ha. by apply (read_target_at a [] s). Qed.

Lemma safe_read_target b off : 0 <= off -> off + 8 <= zlen b -> safe (read_target b off).
Proof. intros ??. unfold read_target. safe_tac. Qed.

Lemma zlen_addresses (l : list Address) : Forall target_ok l -> zlen (concat (addr_bytes <$> l)) = 8 * zlen l.
Proof.
  induction 1 as [|a l Ha _ IH]; [done|]. rewrite fmap_cons. cbn [concat].
  rewrite zlen_app, (zlen_cons a l), IH, (zlen_addr _ (proj1 Ha)). lia.
Qed.

Lemma read_target_ok b off a : bytes_ok b -> read_target b off = Ok a -> target_ok a.
Proof.
  intros Hb. unfold read_target. rewrite bind_ok. intros (s & Hs & H). apply bind_ok in H as (a' & Ha & H).
  destruct (is_null a' || is_broadcast a') eqn:E; [done|]. injection H as <-. split; [|exact E].
  eapply addr_from_bytes_wf; [|done]. by eapply slice_wf.
Qed.
