(* ===== verification/Packet.v ===== *)
(** * Packet format ([crates/meshstar-core/src/packet/mod.rs])

    Header, fragment sub-header, network key tag, and the frame codec.  The
    hash functions of the [sha2] and [hmac] crates are parameters. *)
From stdpp Require Import base tactics list numbers.
From Stdlib Require Import Lia.
From S2P Require Import Prelude Protocol.

Definition HEADER_LEN : Z := 31.
Definition FRAG_HEADER_LEN : Z := 4.
Definition NEXT_HOP_ANY : Z := 0xFFFF.

Definition max_payload (net_auth : bool) : Z :=
  MAX_FRAME - HEADER_LEN - (if net_auth then NET_TAG_LEN else 0).

(** [struct NetworkKey(pub [u8; 32])]. *)
Record NetworkKey := mkNetworkKey { netkey_bytes : list Z }.

Record Header := mkHeader {
  h_ptype : PacketType;
  h_flags : Z;
  h_ttl : Z;
  h_hops : Z;
  h_src : Address;
  h_dst : Address;
  h_packet_id : Z;
  h_seq : Z;
  h_next_hop : Z;
  h_relay : Z
}.

(** [Header::new] *)
Definition header_new (ptype : PacketType) (src dst : Address) (packet_id seq ttl : Z) : Header :=
  mkHeader ptype 0 ttl 0 src dst packet_id seq NEXT_HOP_ANY (addr_short src).

Definition has_flag (fl flag : Z) : bool := negb (Z.land fl flag =? 0).
(** [Header::has] *)
Definition h_has (h : Header) (flag : Z) : bool := has_flag (h_flags h) flag.

(** [Header::set]; [!flag] is the 8-bit complement. *)
Definition h_set (h : Header) (flag : Z) (on : bool) : Header :=
  let fl := if on then Z.lor (h_flags h) flag else Z.land (h_flags h) (Z.lxor flag 0xFF) in
  mkHeader (h_ptype h) fl (h_ttl h) (h_hops h) (h_src h) (h_dst h)
    (h_packet_id h) (h_seq h) (h_next_hop h) (h_relay h).

(** [struct PacketKey { src, id }], compared by field. *)
Definition PacketKey : Type := (Address * Z)%type.
Definition h_key (h : Header) : PacketKey := (h_src h, h_packet_id h).

(** [Header::write]: the 31 bytes written. *)
Definition header_write (h : Header) (payload_len : Z) : list Z :=
  [Z.lor (u8 (Z.shiftl PROTOCOL_VERSION 4)) (ptype_u8 (h_ptype h)); h_flags h; h_ttl h; h_hops h] ++
  addr_bytes (h_src h) ++ addr_bytes (h_dst h) ++
  be_bytes 4 (h_packet_id h) ++ be_bytes 2 (h_seq h) ++
  be_bytes 2 (h_next_hop h) ++ be_bytes 2 (h_relay h) ++ [payload_len].

#[global] Arguments header_write : simpl never.

(** [Header::aad]: the header with the per-hop fields zeroed. *)
Definition header_aad (h : Header) (payload_len : Z) : list Z :=
  header_write (mkHeader (h_ptype h) (h_flags h) 0 0 (h_src h) (h_dst h)
                  (h_packet_id h) (h_seq h) 0 0) payload_len.

(** [Header::parse] *)
Definition header_parse (b : list Z) (max_ttl : Z) : Result (Header * Z) :=
  if decide (zlen b < HEADER_LEN) then Err Truncated else
  b0 ← idx b 0;
  if decide (Z.shiftr b0 4 <> PROTOCOL_VERSION) then Err BadVersion else
  ptype ← ok_or (ptype_from_u8 b0) BadType;
  ttl ← idx b 2;
  hops ← idx b 3;
  if decide (ttl = 0 \/ max_ttl < ttl) then Err BadTtl else
  if decide (MAX_TTL < u16 (hops + ttl)) then Err BadTtl else
  s ← slice b 4 12;
  src ← addr_from_bytes s;
  d ← slice b 12 20;
  dst ← addr_from_bytes d;
  if is_null src || is_broadcast src || is_null dst then Err BadField else
  packet_id ← be_at b 20 4;
  seq ← be_at b 24 2;
  next_hop ← be_at b 26 2;
  relay ← be_at b 28 2;
  plen ← idx b 30;
  fl ← idx b 1;
  Ok (mkHeader ptype fl ttl hops src dst packet_id seq next_hop relay, plen).

Record FragHeader := mkFragHeader { frag_id : Z; frag_index : Z; frag_total : Z }.

#[global] Instance FragHeader_eq_dec : EqDecision FragHeader.
Proof. solve_decision. Defined.

(** [FragHeader::write]: the four bytes written. *)
Definition frag_write (h : FragHeader) : list Z :=
  be_bytes 2 (frag_id h) ++ [frag_index h; frag_total h].

#[global] Arguments frag_write : simpl never.

(** [FragHeader::parse] *)
Definition frag_parse (b : list Z) : Result FragHeader :=
  if decide (zlen b < FRAG_HEADER_LEN) then Err Truncated else
  id ← be_at b 0 2;
  index ← idx b 2;
  total ← idx b 3;
  if decide (total = 0 \/ total <= index) then Err BadField
  else Ok (mkFragHeader id index total).

Record Packet := mkPacket { p_header : Header; p_payload : list Z }.

#[global] Instance Header_eq_dec : EqDecision Header.
Proof. solve_decision. Defined.
#[global] Instance Packet_eq_dec : EqDecision Packet.
Proof. solve_decision. Defined.

(** [Packet::wire_len] *)
Definition wire_len (p : Packet) : Z :=
  HEADER_LEN + zlen (p_payload p) + (if h_has (p_header p) flags.NET_AUTH then NET_TAG_LEN else 0).

(** [ct_eq]: constant time comparison. *)
Definition ct_eq (a b : list Z) : bool :=
  if decide (zlen a <> zlen b) then false
  else foldl (fun d xy => Z.lor d (Z.lxor xy.1 xy.2)) 0 (zip a b) =? 0.

(** [Packet::frag_header] *)
Definition frag_header (p : Packet) : option FragHeader :=
  if h_has (p_header p) flags.FRAGMENTED
  then match frag_parse (p_payload p) with Ok h => Some h | _ => None end
  else None.

(** [Packet::body]; the lower bound of the slice never exceeds the length. *)
Definition packet_body (p : Packet) : list Z :=
  if h_has (p_header p) flags.FRAGMENTED
  then drop (Z.to_nat (Z.min FRAG_HEADER_LEN (zlen (p_payload p)))) (p_payload p)
  else p_payload p.

Section Frames.
(** [Hmac<Sha256>]: key, then message. *)
Variable hmac_sha256 : list Z -> list Z -> list Z.
(** [Sha256::digest]. *)
Variable sha256 : list Z -> list Z.

(** [NetworkKey::from_passphrase]; the prefix is ["MeshStar/netkey/v1"]. *)
Definition netkey_from_passphrase (name passphrase : list Z) : NetworkKey :=
  mkNetworkKey (sha256
    ([77;101;115;104;83;116;97;114;47;110;101;116;107;101;121;47;118;49] ++
     name ++ [0] ++ passphrase)).

(** [NetworkKey::group_key]; the prefix is ["MeshStar/groupkey/v1"]. *)
Definition group_key (k : NetworkKey) : list Z :=
  sha256 ([77;101;115;104;83;116;97;114;47;103;114;111;117;112;107;101;121;47;118;49] ++ netkey_bytes k).

(** [NetworkKey::tag] *)
Definition net_tag (k : NetworkKey) (aad payload : list Z) : list Z :=
  take (Z.to_nat NET_TAG_LEN) (hmac_sha256 (netkey_bytes k) (aad ++ payload)).

(** [Packet::encode] *)
Definition packet_encode (p : Packet) (net_key : option NetworkKey) : Result (list Z) :=
  let net_auth := h_has (p_header p) flags.NET_AUTH in
  if decide (net_auth = true /\ net_key = None) then Err BadField else
  if decide (max_payload net_auth < zlen (p_payload p)) then Err TooLarge else
  let h := header_write (p_header p) (u8 (zlen (p_payload p))) in
  let out := h ++ p_payload p in
  if net_auth then
    k ← unwrap net_key;
    Ok (out ++ net_tag k (header_aad (p_header p) (u8 (zlen (p_payload p)))) (p_payload p))
  else Ok out.

(** [Packet::decode] *)
Definition packet_decode (frame : list Z) (net_key : option NetworkKey) (max_ttl : Z) : Result Packet :=
  if decide (MAX_FRAME < zlen frame) then Err TooLarge else
  hp ← header_parse frame max_ttl;
  let header := hp.1 in
  let plen := hp.2 in
  let net_auth := h_has header flags.NET_AUTH in
  let expected := HEADER_LEN + plen + (if net_auth then NET_TAG_LEN else 0) in
  if decide (zlen frame <> expected) then Err Truncated else
  payload ← slice frame HEADER_LEN (HEADER_LEN + plen);
  _ ← (match net_key with
       | None => Ok tt
       | Some k =>
           if negb net_auth then Err AuthFailed else
           let tag := net_tag k (header_aad header (u8 plen)) payload in
           got ← slice_from frame (HEADER_LEN + plen);
           if negb (ct_eq tag got) then Err AuthFailed else Ok tt
       end);
  _ ← (if h_has header flags.FRAGMENTED
       then (_ ← frag_parse payload; Ok tt) else Ok tt);
  if is_link_local (h_ptype header) && negb (is_broadcast (h_dst header)) then Err BadField
  else Ok (mkPacket header payload).
End Frames.

(** ** Well-formedness: what a received packet is known to satisfy *)

Definition header_ok (max_ttl : Z) (h : Header) : Prop :=
  byte_ok (h_flags h) /\ 1 <= h_ttl h <= max_ttl /\ 0 <= h_hops h /\
  h_hops h + h_ttl h <= MAX_TTL /\
  address_ok (h_src h) /\ address_ok (h_dst h) /\
  is_reserved (h_src h) = false /\ is_null (h_dst h) = false /\
  in_u 32 (h_packet_id h) /\ in_u 16 (h_seq h) /\ in_u 16 (h_next_hop h) /\ in_u 16 (h_relay h).

Definition frag_header_ok (h : FragHeader) : Prop :=
  in_u 16 (frag_id h) /\ 0 <= frag_index h < frag_total h /\ byte_ok (frag_total h).

Definition packet_ok (max_ttl : Z) (p : Packet) : Prop :=
  header_ok max_ttl (p_header p) /\ bytes_ok (p_payload p) /\
  zlen (p_payload p) <= max_payload (h_has (p_header p) flags.NET_AUTH) /\
  (h_has (p_header p) flags.FRAGMENTED = true -> exists fh, frag_parse (p_payload p) = Ok fh) /\
  (is_link_local (h_ptype (p_header p)) = true -> is_broadcast (h_dst (p_header p)) = true).

(** ** Header codec *)

Lemma zlen_header_write h plen :
  address_ok (h_src h) -> address_ok (h_dst h) -> zlen (header_write h plen) = HEADER_LEN.
Proof.
  intros Hs Hd. unfold header_write, HEADER_LEN. autorewrite with mesh.
  rewrite !zlen_addr by done. reflexivity.
Qed.

Lemma first_byte_ok t : Z.shiftr (Z.lor (u8 (Z.shiftl PROTOCOL_VERSION 4)) (ptype_u8 t)) 4 = PROTOCOL_VERSION.
Proof. by destruct t. Qed.

Lemma header_parse_write max_ttl h plen rest :
  header_ok max_ttl h -> header_parse (header_write h plen ++ rest) max_ttl = Ok (h, plen).
Proof.
  intros (Hfl & Httl & Hhops & Hsum & Hs & Hd & Hres & Hnull & Hpid & Hseq & Hnh & Hrel).
  pose proof (zlen_addr _ Hs) as Zs. pose proof (zlen_addr _ Hd) as Zd.
  pose proof (zlen_nonneg rest). unfold MAX_TTL in *.
  unfold header_parse. rewrite decide_False by (rewrite zlen_app, zlen_header_write by done; lia).
  unfold header_write. rewrite <- !app_assoc. cbn [app].
  codec.
  rewrite first_byte_ok, decide_False by congruence.
  change (u8 (Z.shiftl PROTOCOL_VERSION 4)) with (Z.shiftl 1 4). rewrite ptype_roundtrip by lia.
  cbn [ok_or mbind outcome_bind]. codec.
  assert (u16 (h_hops h + h_ttl h) = h_hops h + h_ttl h) as ->.
  { apply wrap_small. unfold in_u. lia. }
  rewrite decide_False by (unfold MAX_TTL; lia). codec.
  rewrite !addr_from_bytes_self by done. cbn [mbind outcome_bind]. codec.
  unfold is_reserved in Hres. rewrite Hres, Hnull. cbn [orb]. codec.
  rewrite from_be_32, !from_be_16 by done. destruct h; done.
Qed.

Lemma first_byte_inv b t :
  byte_ok b -> Z.shiftr b 4 = PROTOCOL_VERSION -> ptype_from_u8 b = Some t ->
  Z.lor (u8 (Z.shiftl PROTOCOL_VERSION 4)) (ptype_u8 t) = b.
Proof.
  intros Hb Hv Ht.
  assert (H : Z.shiftr b 4 = PROTOCOL_VERSION ->
    from_option (fun t => bool_decide (Z.lor (u8 (Z.shiftl PROTOCOL_VERSION 4)) (ptype_u8 t) = b)) true
      (ptype_from_u8 b) = true) by (byte_check b Hb).
  specialize (H Hv). rewrite Ht in H. by apply bool_decide_eq_true in H.
Qed.

(** A parsed header is the encoding of the result: no byte is ignored. *)
Lemma header_parse_inv max_ttl f h plen :
  bytes_ok f -> header_parse f max_ttl = Ok (h, plen) ->
  header_ok max_ttl h /\ byte_ok plen /\ f = header_write h plen ++ drop 31 f.
Proof.
  intros Hf. unfold header_parse, HEADER_LEN. case_decide as Hlen; [done|]. intros Hp.
  apply bind_ok in Hp as (b0 & Hb0 & Hp). case_decide as Hv; [done|].
  apply bind_ok in Hp as (t & Ht & Hp).
  apply bind_ok in Hp as (ttl & Httl & Hp). apply bind_ok in Hp as (hops & Hhops & Hp).
  case_decide as Httl0; [done|]. case_decide as Hsum; [done|].
  apply bind_ok in Hp as (s & Hs & Hp). apply bind_ok in Hp as (src & Hsrc & Hp).
  apply bind_ok in Hp as (d & Hd & Hp). apply bind_ok in Hp as (dst & Hdst & Hp).
  destruct (is_null src || is_broadcast src || is_null dst) eqn:Hres; [done|].
  apply bind_ok in Hp as (pid & Hpid & Hp). apply bind_ok in Hp as (seq & Hseq & Hp).
  apply bind_ok in Hp as (nh & Hnh & Hp). apply bind_ok in Hp as (rel & Hrel & Hp).
  apply bind_ok in Hp as (pl & Hpl & Hp). apply bind_ok in Hp as (fl & Hfl & Hp).
  injection Hp as <- <-.
  apply orb_false_iff in Hres as [Hsr Hdn].
  pose proof (idx_wf _ _ _ Hf Httl). pose proof (idx_wf _ _ _ Hf Hhops).
  unfold byte_ok, in_u in *. change (2 ^ 8) with 256 in *.
  assert (u16 (hops + ttl) = hops + ttl) as Hu by (apply wrap_small; unfold in_u; lia).
  rewrite Hu in Hsum. unfold MAX_TTL in *.
  split; [|split].
  - unfold header_ok, MAX_TTL; simpl.
    pose proof (idx_wf _ _ _ Hf Hfl). pose proof (slice_wf _ _ _ _ Hf Hs). pose proof (slice_wf _ _ _ _ Hf Hd).
    apply be_at_wf in Hpid, Hseq, Hnh, Hrel; auto.
    pose proof (addr_from_bytes_wf s src). pose proof (addr_from_bytes_wf d dst).
    split_and!; auto; lia.
  - by apply (idx_wf _ _ _ Hf Hpl).
  - unfold header_write; simpl.
    rewrite (addr_from_bytes_inv _ _ (slice_zlen _ _ _ _ Hs) Hsrc), (addr_from_bytes_inv _ _ (slice_zlen _ _ _ _ Hd) Hdst).
    pose proof (idx_wf _ _ _ Hf Hb0). destruct (ptype_from_u8 b0) as [t'|] eqn:Ht'; [|done].
    injection Ht as <-. rewrite (first_byte_inv b0 t') by done.
    rewrite <- (drop_0 f) at 1.
    rewrite (drop_idx f 0 b0 0 Hb0 eq_refl), (drop_idx f 1 fl 1 Hfl eq_refl), (drop_idx f 2 ttl 2 Httl eq_refl),
      (drop_idx f 3 hops 3 Hhops eq_refl), (drop_slice f 4 12 s 4 12 Hs eq_refl eq_refl),
      (drop_slice f 12 20 d 12 20 Hd eq_refl eq_refl), (drop_be_at f 20 4 pid 20 24 Hf Hpid eq_refl eq_refl),
      (drop_be_at f 24 2 seq 24 26 Hf Hseq eq_refl eq_refl), (drop_be_at f 26 2 nh 26 28 Hf Hnh eq_refl eq_refl),
      (drop_be_at f 28 2 rel 28 30 Hf Hrel eq_refl eq_refl), (drop_idx f 30 pl 30 Hpl eq_refl).
    by rewrite <- !app_assoc.
Qed.

Lemma foldl_lor_0 (l : list (Z * Z)) d :
  foldl (fun d xy => Z.lor d (Z.lxor xy.1 xy.2)) d l = 0 <-> d = 0 /\ Forall (fun xy => xy.1 = xy.2) l.
Proof.
  revert d. induction l as [|[x y] l IH]; intros d; simpl.
  { split; [by intros ->|by intros [? _]]. }
  rewrite IH, Z.lor_eq_0_iff, Z.lxor_eq_0_iff, Forall_cons_iff. simpl. tauto.
Qed.

Lemma ct_eq_spec a b : ct_eq a b = true <-> a = b.
Proof.
  unfold ct_eq. case_decide as Hl.
  { split; [done|]. intros ->. done. }
  rewrite Z.eqb_eq, foldl_lor_0. assert (length a = length b) as Hlen by (unfold zlen in Hl; lia).
  split.
  - intros [_ Hall]. clear Hl. revert b Hlen Hall. induction a as [|x a IH]; intros [|y b] Hlen Hall; try done.
    simpl in *. inversion_clear Hall. f_equal; [done|]. apply IH; [lia|done].
  - intros ->. split; [done|]. clear. induction b; constructor; auto.
Qed.

Lemma frag_parse_write h rest : frag_header_ok h -> frag_parse (frag_write h ++ rest) = Ok h.
Proof.
  intros (Hid & Hi & Ht). unfold frag_parse, frag_write, FRAG_HEADER_LEN. pose proof (zlen_nonneg rest).
  rewrite <- app_assoc. cbn [app]. codec. rewrite from_be_16 by done. cbn [mbind outcome_bind].
  codec. by destruct h.
Qed.

Lemma frag_parse_inv b h :
  bytes_ok b -> frag_parse b = Ok h -> frag_header_ok h /\ b = frag_write h ++ drop 4 b.
Proof.
  intros Hb. unfold frag_parse, FRAG_HEADER_LEN. case_decide; [done|]. intros Hp.
  apply bind_ok in Hp as (id & Hid & Hp). apply bind_ok in Hp as (i & Hi & Hp).
  apply bind_ok in Hp as (t & Ht & Hp). case_decide; [done|]. injection Hp as <-. split.
  - pose proof (be_at_wf _ _ _ _ Hb Hid). pose proof (idx_wf _ _ _ Hb Hi). pose proof (idx_wf _ _ _ Hb Ht).
    unfold frag_header_ok, byte_ok, in_u in *. simpl. lia.
  - unfold frag_write; simpl. rewrite <- (drop_0 b) at 1.
    rewrite (drop_be_at b 0 2 id 0 2 Hb Hid eq_refl eq_refl), (drop_idx b 2 i 2 Hi eq_refl),
      (drop_idx b 3 t 3 Ht eq_refl). done.
Qed.

Lemma safe_frag_parse b : safe (frag_parse b).
Proof. unfold frag_parse, FRAG_HEADER_LEN. safe_tac. Qed.

Lemma safe_header_parse b max_ttl : safe (header_parse b max_ttl).
Proof. unfold header_parse, HEADER_LEN. safe_tac. Qed.
#[export] Hint Resolve safe_frag_parse safe_header_parse : mesh.

Lemma header_parse_plen f max_ttl h plen :
  bytes_ok f -> header_parse f max_ttl = Ok (h, plen) -> 0 <= plen.
Proof. intros Hf Hp. apply header_parse_inv in Hp as (_ & [? _] & _); done. Qed.

(** The fields of a header that no relay may change. *)
Definition same_immutable (h1 h2 : Header) : Prop :=
  h_ptype h1 = h_ptype h2 /\ h_flags h1 = h_flags h2 /\ h_src h1 = h_src h2 /\
  h_dst h1 = h_dst h2 /\ h_packet_id h1 = h_packet_id h2 /\ h_seq h1 = h_seq h2.

Lemma be_bytes_inj n a b :
  0 <= a < 256 ^ Z.of_nat n -> 0 <= b < 256 ^ Z.of_nat n -> be_bytes n a = be_bytes n b -> a = b.
Proof.
  intros Ha Hb Heq. apply (f_equal from_be) in Heq. rewrite !from_be_be_bytes in Heq.
  by rewrite !Z.mod_small in Heq.
Qed.

Lemma address_eq a b : addr_bytes a = addr_bytes b -> a = b.
Proof. destruct a, b. simpl. by intros ->. Qed.

(** The associated data binds exactly the end-to-end fields: two headers
    have the same [aad] if and only if they agree on type, flags, source,
    destination, packet id, sequence number and payload length.  A relay may
    therefore rewrite ttl, hops, next hop and relay, and nothing else, without
    invalidating the network tag or the session AEAD. *)
Theorem header_aad_binding max_ttl1 max_ttl2 h1 h2 n1 n2 :
  header_ok max_ttl1 h1 -> header_ok max_ttl2 h2 ->
  (header_aad h1 n1 = header_aad h2 n2 <-> same_immutable h1 h2 /\ n1 = n2).
Proof.
  intros (_ & _ & _ & _ & [Hs1 _] & [Hd1 _] & _ & _ & Hp1 & Hq1 & _) (_ & _ & _ & _ & [Hs2 _] & [Hd2 _] & _ & _ & Hp2 & Hq2 & _).
  unfold header_aad, header_write, same_immutable.
  cbn [h_ptype h_flags h_ttl h_hops h_src h_dst h_packet_id h_seq h_next_hop h_relay]. split.
  - intros Hrest. apply app_inj_1 in Hrest as [Hhd Hrest]; [|done]. injection Hhd as Ht Hfl.
    apply app_inj_1 in Hrest as [Hsrc Hrest]; [|congruence].
    apply app_inj_1 in Hrest as [Hdst Hrest]; [|congruence].
    apply app_inj_1 in Hrest as [Hpid Hrest]; [|by rewrite !length_be_bytes].
    apply app_inj_1 in Hrest as [Hseq Hrest]; [|by rewrite !length_be_bytes].
    apply app_inj_1 in Hrest as [_ [= ->]]; [|by rewrite !length_be_bytes].
    apply be_bytes_inj in Hpid, Hseq; auto. split; [|done]. split_and!; auto using address_eq.
    destruct (h_ptype h1), (h_ptype h2); done.
  - intros [(-> & -> & -> & -> & -> & ->) ->]. done.
Qed.

Section FrameFacts.
Variable hmac_sha256 : list Z -> list Z -> list Z.
(** HMAC-SHA256 returns 32 bytes. *)
Hypothesis hmac_len : forall k m, length (hmac_sha256 k m) = 32%nat.

Lemma zlen_net_tag k aad pl : zlen (net_tag hmac_sha256 k aad pl) = NET_TAG_LEN.
Proof. unfold net_tag, zlen, NET_TAG_LEN. rewrite length_take, hmac_len. reflexivity. Qed.

(** The frame [encode] builds. *)
Definition frame_of (p : Packet) (k : NetworkKey) : list Z :=
  header_write (p_header p) (zlen (p_payload p)) ++ p_payload p ++
  (if h_has (p_header p) flags.NET_AUTH
   then net_tag hmac_sha256 k (header_aad (p_header p) (zlen (p_payload p))) (p_payload p) else []).

Lemma payload_len_u8 p :
  zlen (p_payload p) <= max_payload (h_has (p_header p) flags.NET_AUTH) ->
  u8 (zlen (p_payload p)) = zlen (p_payload p) /\ zlen (p_payload p) <= 224.
Proof.
  unfold max_payload, MAX_FRAME, HEADER_LEN, NET_TAG_LEN. intros H.
  pose proof (zlen_nonneg (p_payload p)). split; [|destruct (h_has _ _); lia].
  apply wrap_small. unfold in_u. change (2 ^ 8) with 256. destruct (h_has _ _); lia.
Qed.

Lemma encode_frame p nk k :
  zlen (p_payload p) <= max_payload (h_has (p_header p) flags.NET_AUTH) ->
  (h_has (p_header p) flags.NET_AUTH = true -> nk = Some k) ->
  packet_encode hmac_sha256 p nk = Ok (frame_of p k).
Proof.
  intros Hpl Hk. destruct (payload_len_u8 p Hpl) as [Hu _].
  unfold packet_encode, frame_of. rewrite Hu. rewrite decide_False by (intros [Ha ->]; by specialize (Hk Ha)).
  rewrite decide_False by lia. destruct (h_has (p_header p) flags.NET_AUTH).
  - rewrite Hk by done. cbn [unwrap mbind outcome_bind]. by rewrite app_assoc.
  - by rewrite app_nil_r.
Qed.

Lemma zlen_frame_of max_ttl p k : header_ok max_ttl (p_header p) -> zlen (frame_of p k) = wire_len p.
Proof.
  intros (_ & _ & _ & _ & Hs & Hd & _). unfold frame_of, wire_len. rewrite !zlen_app, zlen_header_write by done.
  destruct (h_has _ _); [rewrite zlen_net_tag|rewrite zlen_nil]; lia.
Qed.

Lemma decode_frame_of max_ttl p nk k :
  packet_ok max_ttl p ->
  (forall k', nk = Some k' -> k' = k /\ h_has (p_header p) flags.NET_AUTH = true) ->
  packet_decode hmac_sha256 (frame_of p k) nk max_ttl = Ok p.
Proof.
  intros (Hh & Hb & Hpl & Hfr & Hll) Hk. pose proof (zlen_frame_of max_ttl p k Hh) as Hz.
  destruct (payload_len_u8 p Hpl) as [Hu _]. pose proof (zlen_nonneg (p_payload p)).
  unfold packet_decode. rewrite Hz.
  rewrite decide_False by (unfold wire_len, max_payload, MAX_FRAME, HEADER_LEN, NET_TAG_LEN in *; destruct (h_has _ _); lia).
  unfold frame_of. rewrite header_parse_write by done. cbn [mbind outcome_bind fst snd].
  rewrite decide_False by (unfold wire_len; destruct (h_has _ _); lia).
  destruct Hh as (Hfl & Httl & Hhops & Hsum & Hs & Hd & _).
  assert (Zh : zlen (header_write (p_header p) (zlen (p_payload p))) = HEADER_LEN) by (by apply zlen_header_write).
  rewrite slice_skip by lia. rewrite Zh, slice_here by lia. cbn [mbind outcome_bind].
  assert (Htail : forall A (x y : A), (if is_link_local (h_ptype (p_header p)) &&
    negb (is_broadcast (h_dst (p_header p))) then x else y) = y).
  { intros. destruct (is_link_local _); [|done]. by rewrite Hll. }
  rewrite Hu. destruct nk as [k'|].
  - destruct (Hk k' eq_refl) as [-> Hna]. rewrite Hna. cbn [negb].
    rewrite slice_from_skip by (rewrite zlen_app, zlen_net_tag; unfold NET_TAG_LEN, HEADER_LEN in *; lia).
    rewrite slice_from_skip by (rewrite zlen_net_tag; unfold NET_TAG_LEN, HEADER_LEN in *; lia).
    rewrite slice_from_here by lia. cbn [mbind outcome_bind].
    rewrite (proj2 (ct_eq_spec _ _) eq_refl). cbn [negb mbind outcome_bind].
    destruct (h_has _ flags.FRAGMENTED); [destruct Hfr as [fh ->]; [done|]|];
      cbn [mbind outcome_bind]; rewrite Htail; by destruct p.
  - cbn [mbind outcome_bind].
    destruct (h_has _ flags.FRAGMENTED); [destruct Hfr as [fh ->]; [done|]|];
      cbn [mbind outcome_bind]; rewrite Htail; by destruct p.
Qed.

(** C33. Encoding a well-formed packet succeeds with a frame of at most 255
    bytes, and decoding that frame with the same network key returns exactly
    the packet (a node with a key only sends tagged packets). *)
Theorem packet_roundtrip max_ttl p nk :
  packet_ok max_ttl p -> (h_has (p_header p) flags.NET_AUTH = true <-> is_Some nk) ->
  exists f, packet_encode hmac_sha256 p nk = Ok f /\ zlen f = wire_len p /\ zlen f <= MAX_FRAME /\
            packet_decode hmac_sha256 f nk max_ttl = Ok p.
Proof.
  intros Hp Hk. pose proof Hp as (Hh & _ & Hpl & _).
  set (k := default (mkNetworkKey []) nk). exists (frame_of p k).
  split_and!.
  - apply encode_frame; [done|]. intros [k' ->]%Hk. done.
  - by eapply zlen_frame_of.
  - erewrite zlen_frame_of by done.
    unfold wire_len, max_payload, MAX_FRAME, HEADER_LEN, NET_TAG_LEN in *. destruct (h_has _ _); lia.
  - apply decode_frame_of; [done|]. intros k' ->. split; [done|]. apply Hk. eauto.
Qed.

Lemma packet_decode_sound max_ttl f nk p :
  bytes_ok f -> packet_decode hmac_sha256 f nk max_ttl = Ok p ->
  packet_ok max_ttl p /\
  (is_Some nk \/ h_has (p_header p) flags.NET_AUTH = false -> packet_encode hmac_sha256 p nk = Ok f).
Proof.
  intros Hf. unfold packet_decode. case_decide as Hmax; [done|]. intros Hp.
  apply bind_ok in Hp as ([h plen] & Hparse & Hp). cbn [fst snd] in Hp.
  case_decide as Hexp; [done|]. apply bind_ok in Hp as (pl & Hpl & Hp).
  apply bind_ok in Hp as (u1 & Htag & Hp). apply bind_ok in Hp as (u2 & Hfrag & Hp).
  destruct (is_link_local (h_ptype h) && negb (is_broadcast (h_dst h))) eqn:Hll; [done|].
  injection Hp as <-. apply header_parse_inv in Hparse as (Hh & Hplen & Hfeq); [|done].
  pose proof (slice_wf _ _ _ _ Hf Hpl) as Hplb. pose proof (slice_zlen _ _ _ _ Hpl) as Hplz.
  assert (Hpleq : zlen pl = plen) by lia.
  assert (Hmaxp : zlen pl <= max_payload (h_has h flags.NET_AUTH)).
  { unfold max_payload, MAX_FRAME, HEADER_LEN, NET_TAG_LEN in *. destruct (h_has _ _); lia. }
  assert (Hdrop : drop 31 f = pl ++ drop (31 + Z.to_nat plen) f).
  { eapply drop_slice; [done|done|]. unfold HEADER_LEN. unfold byte_ok, in_u in Hplen. lia. }
  split.
  - split_and!; simpl; auto.
    + intros Hfr. rewrite Hfr in Hfrag. destruct (frag_parse pl); [eauto|done|done].
    + intros Hl. rewrite Hl in Hll. by destruct (is_broadcast (h_dst h)).
  - intros Hk. rewrite (encode_frame _ nk (default (mkNetworkKey []) nk)); [|done|].
    2: { cbn [p_header] in *. intros Hna. destruct Hk as [[k ->]|Hk]; [done|congruence]. }
    cbn [p_header p_payload] in *. unfold frame_of; cbn [p_header p_payload]. f_equal. rewrite Hpleq. rewrite Hfeq at 1. rewrite Hdrop. do 2 f_equal.
    assert (Hz : zlen (drop (31 + Z.to_nat plen) f) = if h_has h flags.NET_AUTH then NET_TAG_LEN else 0).
    { unfold zlen in *. rewrite length_drop. unfold byte_ok, in_u, HEADER_LEN, NET_TAG_LEN in *.
      destruct (h_has _ _); lia. }
    destruct (h_has h flags.NET_AUTH) eqn:Hna.
    2: { unfold zlen in Hz. symmetry. apply nil_length_inv. lia. }
    destruct Hk as [[k ->]|]; [|done]. cbn [default negb] in *.
    apply bind_ok in Htag as (got & Hgot & Htag).
    destruct (ct_eq _ got) eqn:Hct; [|done]. apply ct_eq_spec in Hct as <-.
    assert (u8 plen = plen) as Hu by (by apply wrap_small). rewrite Hu in Hgot. simpl.
    pose proof (drop_slice _ _ _ _ (31 + Z.to_nat plen) (length f) Hgot) as Hds.
    rewrite drop_all, app_nil_r in Hds. symmetry. apply Hds; [|done].
    unfold HEADER_LEN, byte_ok, in_u in *. lia.
Qed.

(** Every index and slice is covered by a length check. *)
Lemma packet_decode_safe f nk max_ttl : bytes_ok f -> packet_decode hmac_sha256 f nk max_ttl <> Panic.
Proof.
  intros Hf. change (safe (packet_decode hmac_sha256 f nk max_ttl)). unfold packet_decode. safe_tac.
  - destruct a as [h plen]. apply header_parse_plen in H0; [|done]. cbn [fst snd] in *.
    apply safe_slice. unfold HEADER_LEN, NET_TAG_LEN in *. destruct (h_has _ _); lia.
  - destruct a as [h plen]. apply header_parse_plen in H0; [|done]. cbn [fst snd] in *.
    destruct nk; safe_tac. apply safe_slice_from. unfold HEADER_LEN, NET_TAG_LEN in *.
    destruct (h_has _ _); lia.
Qed.

(** The bytes of an accepted frame: header, payload, and what is left is a tag. *)
Lemma packet_decode_shape max_ttl f nk p :
  bytes_ok f -> packet_decode hmac_sha256 f nk max_ttl = Ok p ->
  exists tag, f = header_write (p_header p) (zlen (p_payload p)) ++ p_payload p ++ tag /\
    zlen tag = if h_has (p_header p) flags.NET_AUTH then NET_TAG_LEN else 0.
Proof.
  intros Hf. unfold packet_decode. case_decide as Hmax; [done|]. intros Hp.
  apply bind_ok in Hp as ([h plen] & Hparse & Hp). cbn [fst snd] in Hp.
  case_decide as Hexp; [done|]. apply bind_ok in Hp as (pl & Hpl & Hp).
  apply bind_ok in Hp as (u1 & _ & Hp). apply bind_ok in Hp as (u2 & _ & Hp).
  destruct (_ && _); [done|]. injection Hp as <-. apply header_parse_inv in Hparse as (_ & Hplen & Hfeq); [|done].
  pose proof (slice_zlen _ _ _ _ Hpl) as Hplz. unfold byte_ok, in_u in Hplen.
  assert (Hdrop : drop 31 f = pl ++ drop (31 + Z.to_nat plen) f).
  { eapply drop_slice; [done|done|]. unfold HEADER_LEN. lia. }
  exists (drop (31 + Z.to_nat plen) f). cbn [p_header p_payload]. split.
  - rewrite <- Hdrop. replace (zlen pl) with plen by lia. exact Hfeq.
  - unfold zlen in *. rewrite length_drop. unfold HEADER_LEN, NET_TAG_LEN in *. destruct (h_has _ _); lia.
Qed.

(** C34. The frame decoder on arbitrary received bytes: it never panics, and
    what it accepts is well formed: every field respects the specification.  If
    the node has a network key, or the frame carries no tag, re-encoding
    reproduces the received frame byte for byte.  Without a key the tag cannot
    be checked: a tagged frame is then the encoding under any key, except for
    the bytes of the tag. *)
Theorem packet_decode_canonical max_ttl f nk :
  bytes_ok f ->
  packet_decode hmac_sha256 f nk max_ttl <> Panic /\
  forall p, packet_decode hmac_sha256 f nk max_ttl = Ok p ->
    packet_ok max_ttl p /\
    (is_Some nk \/ h_has (p_header p) flags.NET_AUTH = false -> packet_encode hmac_sha256 p nk = Ok f) /\
    (h_has (p_header p) flags.NET_AUTH = true -> forall k,
       exists body tag tag', f = body ++ tag /\ packet_encode hmac_sha256 p (Some k) = Ok (body ++ tag') /\
         zlen tag = NET_TAG_LEN /\ zlen tag' = NET_TAG_LEN).
Proof.
  intros Hf. split; [by apply packet_decode_safe|]. intros p Hp. destruct (packet_decode_sound _ _ _ _ Hf Hp) as [Hok Hk].
  split; [done|]. split; [done|]. intros Hna k. destruct (packet_decode_shape _ _ _ _ Hf Hp) as (tag & He & Hz). rewrite Hna in Hz.
  exists (header_write (p_header p) (zlen (p_payload p)) ++ p_payload p), tag,
    (net_tag hmac_sha256 k (header_aad (p_header p) (zlen (p_payload p))) (p_payload p)).
  split; [by rewrite <- app_assoc|]. split; [|split; [done|apply zlen_net_tag]].
  rewrite (encode_frame p (Some k) k); [|apply Hok|done]. unfold frame_of. rewrite Hna. by rewrite <- app_assoc.
Qed.
End FrameFacts.

(** ** Witnesses: a concrete keyed checksum stands for HMAC-SHA256 *)

Definition toy_mac (k m : list Z) : list Z := be_bytes 32 (from_be k + from_be m).
Lemma toy_mac_len k m : length (toy_mac k m) = 32%nat.
Proof. apply length_be_bytes. Qed.

Definition ex_header : Header :=
  mkHeader Data flags.NET_AUTH 10 3 (mkAddress (replicate 8 1)) (mkAddress (replicate 8 2))
    0xDEADBEEF 7 0x0202 0x0101.
Definition ex_packet : Packet := mkPacket ex_header [1; 2; 3; 4].
Definition ex_key : NetworkKey := mkNetworkKey (replicate 32 9).

Lemma ex_packet_ok : packet_ok 255 ex_packet.
Proof.
  unfold packet_ok, header_ok, address_ok, byte_ok, in_u. cbn -[bytes_ok Z.pow].
  split_and!; try done; try lia; repeat constructor; done.
Defined.

Lemma packet_roundtrip_witness :
  exists f, packet_encode toy_mac ex_packet (Some ex_key) = Ok f /\ zlen f = 39 /\ zlen f <= MAX_FRAME /\
            packet_decode toy_mac f (Some ex_key) 255 = Ok ex_packet.
Proof.
  apply (packet_roundtrip toy_mac toy_mac_len 255 ex_packet (Some ex_key)); [exact ex_packet_ok|].
  split; [intros _; by eexists|intros _; reflexivity].
Defined.

Definition ex_frame : list Z :=
  match packet_encode toy_mac ex_packet (Some ex_key) with Ok f => f | _ => [] end.

Lemma packet_decode_canonical_witness :
  packet_ok 255 ex_packet /\ packet_encode toy_mac ex_packet (Some ex_key) = Ok ex_frame.
Proof.
  destruct (packet_decode_canonical toy_mac toy_mac_len 255 ex_frame (Some ex_key)) as [_ H].
  - vm_compute. repeat (constructor; [done|]). constructor.
  - destruct (H ex_packet) as [H1 H2]; [vm_compute; reflexivity|]. split; [exact H1|]. apply (proj1 H2). left. by eexists.
Defined.

Lemma header_aad_binding_witness :
  header_aad ex_header 4 = header_aad (mkHeader Data flags.NET_AUTH 9 4 (mkAddress (replicate 8 1))
    (mkAddress (replicate 8 2)) 0xDEADBEEF 7 0xAB 0xCD) 4.
Proof.
  eapply (header_aad_binding 255 255); [apply ex_packet_ok| |split; [by split_and!|done]].
  unfold header_ok, address_ok, byte_ok, in_u. cbn -[bytes_ok Z.pow].
  split_and!; try done; try lia; repeat constructor; done.
Defined.
