(* ===== verification/Fragmentation.v ===== *)
(** * Fragmentation and reassembly ([crates/meshstar-core/src/fragmentation/mod.rs])

    [split] cuts a message into fragments; the bounded [Reassembler] collects
    them per [(source, frag_id)].  The [BTreeMap] of partial sets is a sorted
    association vector. *)
From stdpp Require Import base tactics list numbers sets.
From Stdlib Require Import Lia Permutation.
From S2P Require Import Prelude SmallMap Protocol Packet.

(** [slice::chunks]; [fuel] bounds the number of chunks by the length. *)
Fixpoint chunks_fuel {A} (fuel : nat) (n : nat) (l : list A) : list (list A) :=
  match fuel, l with
  | _, [] => []
  | O, _ => []
  | S fuel', _ => take n l :: chunks_fuel fuel' n (drop n l)
  end.
Definition chunks {A} (n : nat) (l : list A) : list (list A) := chunks_fuel (length l) n l.

Definition div_ceil (a b : Z) : Z := (a + b - 1) / b.

(** [split] *)
Definition split (fid : Z) (body : list Z) (chunk : Z) : option (list (FragHeader * list Z)) :=
  if decide (chunk = 0) then None else
  let total := Z.max (div_ceil (zlen body) chunk) 1 in
  if decide (255 < total) then None else
  let out := imap (fun i part => (mkFragHeader fid (u8 (Z.of_nat i)) (u8 total), part))
               (chunks (Z.to_nat chunk) body) in
  Some (out ++ (if decide (body = []) then [(mkFragHeader fid 0 1, [])] else [])).

(** [frame_fragment] *)
Definition frame_fragment (h : FragHeader) (chunk : list Z) : list Z := frag_write h ++ chunk.

Record FragSet := mkFragSet {
  fs_parts : list (option (list Z));
  fs_received : Z;
  fs_bytes : Z;
  fs_started_at : Z;
  fs_last_at : Z
}.

Record ReassemblyConfig := mkReassemblyConfig {
  max_sets : Z;
  max_bytes : Z;
  timeout_ms : Z
}.
Definition ReassemblyConfig_default : ReassemblyConfig := mkReassemblyConfig 8 (8 * 1024) 60000.

Record Reassembler := mkReassembler {
  ra_cfg : ReassemblyConfig;
  ra_sets : smallmap (Address * Z) FragSet;
  ra_bytes : Z;
  ra_dropped : Z
}.

Module Reassembler.
Definition new (cfg : ReassemblyConfig) : Reassembler := mkReassembler cfg SmallMap.empty 0 0.
Definition active_sets (r : Reassembler) : Z := SmallMap.len (ra_sets r).
Definition bytes_held (r : Reassembler) : Z := ra_bytes r.

(** Remove a set and give its bytes back: [self.bytes -= set.bytes;
    self.sets.remove(&key); self.dropped_sets += 1]. *)
Definition drop_set (r : Reassembler) (key : Address * Z) (s : FragSet) : Reassembler :=
  mkReassembler (ra_cfg r) (SmallMap.remove (ra_sets r) key).1
    (usize (ra_bytes r - fs_bytes s)) (u32 (ra_dropped r + 1)).

(** [evict_oldest] *)
Definition evict_oldest (r : Reassembler) : Reassembler :=
  match min_by_key (fun kv => fs_started_at kv.2) (ra_sets r) with
  | Some (k, s) => drop_set r k s
  | None => r
  end.

(** The prologue of [push]: make sure a set exists for the key. *)
Definition open_set (r : Reassembler) (now : Z) (key : Address * Z) (total : Z) : Reassembler * bool :=
  if SmallMap.contains_key (ra_sets r) key then (r, true)
  else
    let r := if decide (max_sets (ra_cfg r) <= active_sets r) then evict_oldest r else r in
    if decide (max_sets (ra_cfg r) <= active_sets r) then (r, false)
    else
      let s := mkFragSet (replicate (Z.to_nat total) None) 0 0 now now in
      (mkReassembler (ra_cfg r) (SmallMap.insert (ra_sets r) key s).1 (ra_bytes r) (ra_dropped r), true).

(** [for p in set.parts { out.extend_from_slice(&p.unwrap()) }] *)
Fixpoint assemble (parts : list (option (list Z))) : Result (list Z) :=
  match parts with
  | [] => Ok []
  | p :: parts' => c ← unwrap p; r ← assemble parts'; Ok (c ++ r)
  end.

(** The rest of [push], with the set in hand. *)
Definition push_into (r : Reassembler) (now : Z) (key : Address * Z) (h : FragHeader)
    (chunk : list Z) (s : FragSet) : Reassembler * Result (option (list Z)) :=
  if decide (zlen (fs_parts s) <> frag_total h) then (drop_set r key s, Err BadField) else
  match fs_parts s !! Z.to_nat (frag_index h) with
  | None => (r, Panic)
  | Some (Some _) => (r, Err Duplicate)
  | Some None =>
      if decide (max_bytes (ra_cfg r) < usize (ra_bytes r + zlen chunk)) then (drop_set r key s, Err Full) else
      let s' := mkFragSet (<[Z.to_nat (frag_index h) := Some chunk]> (fs_parts s))
                  (u8 (fs_received s + 1)) (usize (fs_bytes s + zlen chunk)) (fs_started_at s) now in
      let r' := mkReassembler (ra_cfg r) (SmallMap.update (ra_sets r) key (fun _ => s'))
                  (usize (ra_bytes r + zlen chunk)) (ra_dropped r) in
      if decide (fs_received s' = zlen (fs_parts s')) then
        (mkReassembler (ra_cfg r') (SmallMap.remove (ra_sets r') key).1
           (usize (ra_bytes r' - fs_bytes s')) (ra_dropped r'),
         out ← assemble (fs_parts s'); Ok (Some out))
      else (r', Ok None)
  end.

(** [push] *)
Definition push (r : Reassembler) (now : Z) (src : Address) (h : FragHeader) (chunk : list Z)
    : Reassembler * Result (option (list Z)) :=
  let key := (src, frag_id h) in
  match open_set r now key (frag_total h) with
  | (r, false) => (r, Err Full)
  | (r, true) =>
      match SmallMap.get (ra_sets r) key with
      | None => (r, Panic)
      | Some s => push_into r now key h chunk s
      end
  end.

Definition is_stale (r : Reassembler) (now : Z) (s : FragSet) : bool :=
  bool_decide (timeout_ms (ra_cfg r) < sat_sub now (fs_started_at s)).

(** [expire]: drops the stale sets, returns how many. *)
Definition expire (r : Reassembler) (now : Z) : Result (Reassembler * Z) :=
  let stale := (retain (fun kv => is_stale r now kv.2) (ra_sets r)).*1 in
  r' ← foldl (fun acc k =>
         r ← acc;
         s ← unwrap (SmallMap.remove (ra_sets r) k).2;
         Ok (mkReassembler (ra_cfg r) (SmallMap.remove (ra_sets r) k).1
               (usize (ra_bytes r - fs_bytes s)) (ra_dropped r)))
       (Ok r) stale;
  Ok (mkReassembler (ra_cfg r') (ra_sets r') (ra_bytes r') (u32 (ra_dropped r' + u32 (zlen stale))), zlen stale).
End Reassembler.

(** ** Splitting *)

Lemma concat_chunks_fuel {A} fuel n (l : list A) :
  (0 < n)%nat -> (length l <= fuel)%nat -> concat (chunks_fuel fuel n l) = l.
Proof.
  intros Hn. revert l. induction fuel as [|fuel IH]; intros [|x l] Hl; simpl in *; try done; [lia|].
  rewrite IH, take_drop; [done|]. rewrite length_drop. cbn [length]. lia.
Qed.

Lemma length_chunks_fuel {A} fuel n (l : list A) :
  (0 < n)%nat -> (length l <= fuel)%nat ->
  Z.of_nat (length (chunks_fuel fuel n l)) = div_ceil (zlen l) (Z.of_nat n).
Proof.
  intros Hn. unfold div_ceil. revert l. induction fuel as [|fuel IH]; intros l Hl.
  { destruct l; [|simpl in Hl; lia]. simpl. rewrite (@zlen_nil A). symmetry. apply Z.div_small. lia. }
  destruct l as [|x l]; [simpl; rewrite (@zlen_nil A); symmetry; apply Z.div_small; lia|].
  cbn [chunks_fuel length]. rewrite Nat2Z.inj_succ, IH by (rewrite length_drop; cbn [length] in *; lia).
  unfold zlen. rewrite length_drop. remember (length (x :: l)) as k eqn:Hk. assert (1 <= k)%nat by (subst k; simpl; lia).
  destruct (decide (n <= k)%nat).
  - replace (Z.of_nat k + Z.of_nat n - 1) with (Z.of_nat (k - n) + Z.of_nat n - 1 + 1 * Z.of_nat n) by lia.
    rewrite Z.div_add by lia. lia.
  - replace (k - n)%nat with 0%nat by lia. rewrite (Z.div_small (Z.of_nat 0 + _ - 1)) by lia.
    replace (Z.of_nat k + Z.of_nat n - 1) with (Z.of_nat k - 1 + 1 * Z.of_nat n) by lia.
    rewrite Z.div_add, Z.div_small by lia. lia.
Qed.

Lemma chunk_len_le {A} fuel n (l : list A) c :
  c ∈ chunks_fuel fuel n l -> (length c <= n)%nat.
Proof.
  revert l. induction fuel as [|fuel IH]; intros [|x l]; simpl; try (intros H; by apply not_elem_of_nil in H).
  rewrite elem_of_cons. intros [->|Hc]; [rewrite length_take; lia|eauto].
Qed.

(** The fragments of a body: a list of chunks [C] with [concat C = body], the
    [i]-th carried by header [(fid, i, |C|)]. *)
Definition numbered (fid : Z) (C : list (list Z)) : list (FragHeader * list Z) :=
  imap (fun i c => (mkFragHeader fid (Z.of_nat i) (zlen C), c)) C.

Lemma imap_ext_lt {A B} (f g : nat -> A -> B) l :
  (forall i x, (i < length l)%nat -> f i x = g i x) -> imap f l = imap g l.
Proof.
  revert f g. induction l as [|x l IH]; intros f g Hfg; [done|]. simpl. f_equal.
  - apply Hfg. simpl. lia.
  - apply IH. intros i y Hi. apply Hfg. simpl. lia.
Qed.

Lemma split_numbered fid body chunk fr :
  0 <= chunk -> split fid body chunk = Some fr ->
  exists C, concat C = body /\ (1 <= length C <= 255)%nat /\ fr = numbered fid C /\
            Forall (fun c => zlen c <= chunk) C.
Proof.
  intros Hc. unfold split. case_decide as Hc0; [done|]. case_decide as Ht; [done|]. intros [= <-].
  assert (Hn : (0 < Z.to_nat chunk)%nat) by lia.
  pose proof (length_chunks_fuel (length body) (Z.to_nat chunk) body Hn (le_n _)) as Hlen.
  rewrite Z2Nat.id in Hlen by lia. fold (chunks (Z.to_nat chunk) body) in Hlen.
  case_decide as Hb.
  - subst body. exists [[]]. split_and!; simpl; try lia; try done. repeat constructor. rewrite zlen_nil. lia.
  - assert (1 <= div_ceil (zlen body) chunk).
    { unfold div_ceil. apply Z.div_le_lower_bound; [lia|]. destruct body; [done|]. rewrite zlen_cons.
      pose proof (zlen_nonneg body). lia. }
    exists (chunks (Z.to_nat chunk) body). rewrite app_nil_r. split_and!; try lia.
    + by apply concat_chunks_fuel.
    + unfold numbered. apply imap_ext_lt. intros i x Hi. f_equal.
      change (zlen (chunks (Z.to_nat chunk) body)) with (Z.of_nat (length (chunks (Z.to_nat chunk) body))).
      rewrite Hlen, Z.max_l by lia.
      rewrite !(wrap_small 8) by (unfold in_u; change (2 ^ 8) with 256; lia). done.
    + rewrite Forall_forall. intros c Hin. apply chunk_len_le in Hin. unfold zlen. lia.
Qed.

(** ** The reassembler invariant *)

Module ReassemblerFacts.
Import Reassembler SmallMap SmallMapFacts.

Definition total_len (l : list (list Z)) : Z := zsum (zlen <$> l).

(** A partial set counts its fragments and bytes exactly and is incomplete. *)
Definition set_ok (s : FragSet) : Prop :=
  fs_received s = zlen (omap id (fs_parts s)) /\
  fs_bytes s = total_len (omap id (fs_parts s)) /\
  fs_received s < zlen (fs_parts s) <= 255.

Definition cfg_ok (c : ReassemblyConfig) : Prop := 0 <= max_sets c /\ 0 <= max_bytes c < 2 ^ 31.

Definition held (r : Reassembler) : Z := zsum (fs_bytes <$> values (ra_sets r)).

(** Memory accounting: the byte counter is the sum over the sets, within the
    configured budget, and the number of sets is bounded. *)
Definition reasm_ok (r : Reassembler) : Prop :=
  wf (ra_sets r) /\ Forall (fun kv => set_ok kv.2) (ra_sets r) /\
  ra_bytes r = held r /\ ra_bytes r <= max_bytes (ra_cfg r) /\
  active_sets r <= max_sets (ra_cfg r).

Lemma total_len_nonneg l : 0 <= total_len l.
Proof. unfold total_len. apply zsum_nonneg. rewrite Forall_fmap. apply Forall_true. intros. apply zlen_nonneg. Qed.

Lemma held_perm (m1 m2 : smallmap (Address * Z) FragSet) :
  m1 ≡ₚ m2 -> zsum (fs_bytes <$> values m1) = zsum (fs_bytes <$> values m2).
Proof. intros HP. unfold values. by rewrite HP. Qed.

Lemma held_cons k s (m : smallmap (Address * Z) FragSet) :
  zsum (fs_bytes <$> values ((k, s) :: m)) = fs_bytes s + zsum (fs_bytes <$> values m).
Proof. done. Qed.

Lemma set_bytes_nonneg (m : smallmap (Address * Z) FragSet) :
  Forall (fun kv => set_ok kv.2) m -> 0 <= zsum (fs_bytes <$> values m).
Proof.
  intros H. apply zsum_nonneg. unfold values. rewrite !Forall_fmap. eapply Forall_impl; [exact H|].
  intros [k s] (_ & Hb & _); simpl in *. rewrite Hb. apply total_len_nonneg.
Qed.

Lemma remove_sets_ok r k : wf (ra_sets r) -> Forall (fun kv => set_ok kv.2) (ra_sets r) ->
  Forall (fun kv => set_ok kv.2) (remove (ra_sets r) k).1.
Proof.
  intros Hwf Hall. destruct (get (ra_sets r) k) as [s|] eqn:Hg.
  - rewrite (remove_perm _ _ _ Hwf Hg) in Hall. by inversion Hall.
  - by rewrite remove_None.
Qed.

Lemma set_ok_of r k s : reasm_ok r -> get (ra_sets r) k = Some s -> set_ok s.
Proof.
  intros (Hwf & Hall & _) Hg. apply get_Some in Hg; [|done]. rewrite Forall_forall in Hall.
  by apply (Hall (k, s)).
Qed.

Lemma held_split r k s :
  reasm_ok r -> get (ra_sets r) k = Some s ->
  held r = fs_bytes s + zsum (fs_bytes <$> values (remove (ra_sets r) k).1) /\
  0 <= zsum (fs_bytes <$> values (remove (ra_sets r) k).1) /\ 0 <= fs_bytes s /\
  active_sets r = 1 + zlen (remove (ra_sets r) k).1.
Proof.
  intros Hr Hg. pose proof Hr as (Hwf & Hall & _). pose proof (remove_perm _ _ _ Hwf Hg) as HP.
  unfold held. rewrite (held_perm _ _ HP), held_cons. split_and!; [done| | |].
  - apply set_bytes_nonneg. by apply remove_sets_ok.
  - destruct (set_ok_of r k s Hr Hg) as (_ & -> & _). apply total_len_nonneg.
  - unfold active_sets, len, zlen. rewrite HP at 1. simpl. lia.
Qed.

Lemma drop_set_ok r k s :
  cfg_ok (ra_cfg r) -> reasm_ok r -> get (ra_sets r) k = Some s ->
  reasm_ok (drop_set r k s) /\ ra_cfg (drop_set r k s) = ra_cfg r /\
  active_sets (drop_set r k s) = active_sets r - 1.
Proof.
  intros [Hc1 Hc2] Hr Hg. destruct (held_split r k s Hr Hg) as (Hh & H1 & H2 & H3).
  pose proof Hr as (Hwf & Hall & Hb & Hmax & Hact). unfold drop_set. split_and!; [|done|].
  - unfold reasm_ok; simpl. rewrite usize_small by lia. split_and!.
    + by apply remove_wf.
    + by apply remove_sets_ok.
    + unfold held in *. simpl. lia.
    + lia.
    + unfold active_sets, len in *. simpl. lia.
  - unfold active_sets, len in *. simpl. lia.
Qed.

Lemma evict_oldest_ok r :
  cfg_ok (ra_cfg r) -> reasm_ok r ->
  reasm_ok (evict_oldest r) /\ ra_cfg (evict_oldest r) = ra_cfg r /\
  active_sets (evict_oldest r) = Z.max 0 (active_sets r - 1).
Proof.
  intros Hc Hr. unfold evict_oldest. destruct (min_by_key _ _) as [[k s]|] eqn:E.
  - apply min_by_key_In in E. apply get_Some in E; [|apply Hr].
    destruct (drop_set_ok r k s Hc Hr E) as (? & ? & ->). split_and!; auto.
    destruct (held_split r k s Hr E) as (_ & _ & _ & ->). pose proof (zlen_nonneg (remove (ra_sets r) k).1). lia.
  - apply min_by_key_None in E. split_and!; auto. unfold active_sets, len. rewrite E. done.
Qed.

Lemma omap_replicate_None (n : nat) : omap id (replicate n (@None (list Z))) = [].
Proof. induction n; done. Qed.

Lemma fresh_set_ok total now : 1 <= total <= 255 -> set_ok (mkFragSet (replicate (Z.to_nat total) None) 0 0 now now).
Proof.
  intros Ht. unfold set_ok, total_len; simpl. rewrite omap_replicate_None. split_and!; try done.
  - unfold zlen. rewrite length_replicate. lia.
  - unfold zlen. rewrite length_replicate. lia.
Qed.

Lemma insert_new_ok r key s :
  reasm_ok r -> get (ra_sets r) key = None -> set_ok s -> fs_bytes s = 0 -> active_sets r < max_sets (ra_cfg r) ->
  reasm_ok (mkReassembler (ra_cfg r) (insert (ra_sets r) key s).1 (ra_bytes r) (ra_dropped r)).
Proof.
  intros (Hwf & Hall & Hb & Hmax & Hact) Hg Hs Hz Hlt.
  pose proof (insert_perm (ra_sets r) key s Hwf) as HP. rewrite (remove_None _ _ Hwf Hg) in HP.
  unfold reasm_ok; simpl. split_and!.
  - by apply insert_wf.
  - rewrite HP. by constructor.
  - unfold held in *. cbn [ra_sets]. rewrite (held_perm _ _ HP), held_cons. lia.
  - done.
  - apply Permutation_length in HP. cbn [length] in HP. unfold active_sets, len, zlen in *. cbn [ra_sets ra_cfg]. lia.
Qed.

Lemma open_set_ok r now key total r' b :
  cfg_ok (ra_cfg r) -> reasm_ok r -> 1 <= total <= 255 -> open_set r now key total = (r', b) ->
  reasm_ok r' /\ ra_cfg r' = ra_cfg r /\ (b = true -> is_Some (get (ra_sets r') key)).
Proof.
  intros Hc Hr Ht. unfold open_set. rewrite contains_key_get by apply Hr. case_bool_decide as Hg.
  { intros [= <- <-]. auto. }
  assert (Hn : get (ra_sets r) key = None) by (by apply eq_None_not_Some).
  destruct (evict_oldest_ok r Hc Hr) as (Her & Hec & _).
  set (r1 := if decide _ then evict_oldest r else r).
  assert (reasm_ok r1 /\ ra_cfg r1 = ra_cfg r /\ get (ra_sets r1) key = None) as (Hr1 & Hc1 & Hn1).
  { subst r1. case_decide; [|done]. split_and!; auto.
    unfold evict_oldest. destruct (min_by_key _ _) as [[k s]|]; [|done].
    unfold drop_set; simpl. rewrite get_remove by apply Hr. by destruct (kcmp k key). }
  case_decide as Hfull; intros [= <- <-]; [by split_and!|].
  split_and!; [|done|].
  - apply insert_new_ok; auto using fresh_set_ok. lia.
  - intros _. simpl. rewrite get_insert by apply Hr1. rewrite kcmp_refl. eauto.
Qed.

(** Filling an empty slot adds exactly one fragment. *)
Lemma omap_insert_None (parts : list (option (list Z))) i c :
  parts !! i = Some None -> omap id (<[i := Some c]> parts) ≡ₚ c :: omap id parts.
Proof.
  intros Hi. rewrite insert_take_drop by (by eapply lookup_lt_Some).
  rewrite <- (take_drop_middle parts i None Hi) at 3. rewrite !omap_app. simpl.
  by rewrite Permutation_middle.
Qed.

Lemma total_len_perm l k : l ≡ₚ k -> total_len l = total_len k.
Proof. intros HP. unfold total_len. by rewrite HP. Qed.

Lemma omap_full (parts : list (option (list Z))) :
  zlen (omap id parts) = zlen parts -> exists C, parts = Some <$> C.
Proof.
  unfold zlen. intros H. assert (Hl : length (omap id parts) = length parts) by lia. clear H.
  assert (Hle : forall p : list (option (list Z)), (length (omap id p) <= length p)%nat).
  { induction p as [|[c|] p IH]; csimpl; lia. }
  induction parts as [|[c|] parts IH]; csimpl in *.
  - by exists [].
  - destruct IH as [C ->]; [lia|]. by exists (c :: C).
  - specialize (Hle parts). lia.
Qed.

Lemma omap_some (C : list (list Z)) : omap id (Some <$> C) = C.
Proof. induction C as [|c C IH]; [done|]. csimpl. by rewrite IH. Qed.
Lemma total_len_concat C : zlen (concat C) = total_len C.
Proof. unfold total_len. induction C; csimpl; [done|]. rewrite zlen_app. lia. Qed.
Lemma assemble_full C : assemble (Some <$> C) = Ok (concat C).
Proof. induction C as [|c C IH]; [done|]. csimpl. by rewrite IH. Qed.

Lemma update_ok r key s s' bytes' :
  reasm_ok r -> get (ra_sets r) key = Some s -> set_ok s' ->
  bytes' = ra_bytes r - fs_bytes s + fs_bytes s' -> bytes' <= max_bytes (ra_cfg r) ->
  reasm_ok (mkReassembler (ra_cfg r) (update (ra_sets r) key (fun _ => s')) bytes' (ra_dropped r)).
Proof.
  intros Hr Hg Hs' Hb' Hle. pose proof Hr as (Hwf & Hall & Hb & Hmax & Hact).
  destruct (held_split r key s Hr Hg) as (Hh & _ & _ & Ha).
  rewrite (update_insert _ _ (fun _ => s') s Hwf Hg).
  pose proof (insert_perm (ra_sets r) key s' Hwf) as HP.
  unfold reasm_ok; cbn [ra_sets ra_bytes ra_cfg]. split_and!.
  - by apply insert_wf.
  - rewrite HP. constructor; [done|]. by apply remove_sets_ok.
  - unfold held in *. cbn [ra_sets]. rewrite (held_perm _ _ HP), held_cons. lia.
  - done.
  - apply Permutation_length in HP. cbn [length] in HP. unfold active_sets, len, zlen in *. cbn [ra_sets]. lia.
Qed.

(** The updated set of [push_into], before completion is tested. *)
Lemma fill_slot s i c :
  set_ok s -> fs_parts s !! i = Some None -> fs_bytes s + zlen c < 2 ^ 32 ->
  let s' := mkFragSet (<[i := Some c]> (fs_parts s)) (u8 (fs_received s + 1))
              (usize (fs_bytes s + zlen c)) (fs_started_at s) 0 in
  fs_received s' = zlen (omap id (fs_parts s')) /\ fs_received s' = fs_received s + 1 /\
  fs_bytes s' = total_len (omap id (fs_parts s')) /\ fs_bytes s' = fs_bytes s + zlen c /\
  zlen (fs_parts s') = zlen (fs_parts s).
Proof.
  intros (Hr & Hb & Hl) Hi Hlt. pose proof (omap_insert_None _ _ c Hi) as HP.
  pose proof (zlen_nonneg (omap id (fs_parts s))). pose proof (zlen_nonneg c).
  pose proof (total_len_nonneg (omap id (fs_parts s))). cbn [fs_received fs_bytes fs_parts].
  rewrite u8_small, usize_small by lia. rewrite (total_len_perm _ _ HP).
  unfold zlen at 1. rewrite (Permutation_length HP). cbn [length]. unfold zlen in Hr at 1.
  split_and!; try lia.
  - unfold total_len in *. csimpl. lia.
  - unfold zlen. by rewrite length_insert.
Qed.

(** A reassembled payload fits the memory budget. *)
Definition within (r : Reassembler) (res : Result (option (list Z))) : Prop :=
  forall full, res = Ok (Some full) -> zlen full <= max_bytes (ra_cfg r).

Lemma push_into_ok r now key h chunk s r' res :
  cfg_ok (ra_cfg r) -> reasm_ok r -> get (ra_sets r) key = Some s -> 0 <= frag_index h < frag_total h ->
  zlen chunk < 2 ^ 31 -> push_into r now key h chunk s = (r', res) ->
  reasm_ok r' /\ ra_cfg r' = ra_cfg r /\ res <> Panic /\ within r res.
Proof.
  intros Hc Hr Hg Hi Hch. pose proof (set_ok_of r key s Hr Hg) as Hs.
  destruct (drop_set_ok r key s Hc Hr Hg) as (Hdr & Hdc & _).
  destruct (held_split r key s Hr Hg) as (Hh & Hh1 & Hh2 & _).
  pose proof Hr as (Hwf & Hall & Hb & Hmax & Hact). destruct Hc as [Hc1 Hc2].
  pose proof (zlen_nonneg chunk). unfold push_into. case_decide as Htot.
  { intros [= <- <-]. done. }
  destruct (fs_parts s !! Z.to_nat (frag_index h)) as [[c|]|] eqn:Hp.
  - intros [= <- <-]. done.
  - rewrite usize_small by lia. case_decide as Hfull; [intros [= <- <-]; done|].
    destruct (fill_slot s _ chunk Hs Hp ltac:(lia)) as (F1 & F2 & F3 & F4 & F5).
    cbn [fs_received fs_bytes fs_parts] in *. cbn [ra_bytes ra_sets ra_cfg ra_dropped].
    case_decide as Hfin; intros [= <- <-].
    + destruct (omap_full (<[Z.to_nat (frag_index h):=Some chunk]> (fs_parts s))) as [C HC].
      { rewrite <- F1, Hfin. done. }
      rewrite HC, assemble_full. split_and!; [|done|done|].
      2: { intros full [= <-]. rewrite total_len_concat. rewrite HC, omap_some in F3. lia. }
      rewrite F4. rewrite (update_insert _ _ _ s Hwf Hg).
      rewrite remove_insert by done.
      replace (ra_bytes r + zlen chunk - (fs_bytes s + zlen chunk)) with (ra_bytes r - fs_bytes s) by lia.
      rewrite (usize_small (ra_bytes r - fs_bytes s)) by lia.
      destruct Hdr as (? & ? & Hb' & ? & ?). unfold drop_set in *. cbn [ra_sets ra_bytes ra_cfg] in *.
      rewrite usize_small in Hb' by lia. unfold reasm_ok, held in *. cbn [ra_sets ra_bytes ra_cfg] in *.
      split_and!; auto; lia.
    + split_and!; [|done|done|done]. eapply update_ok; eauto; cbn [fs_bytes].
      * unfold set_ok; cbn [fs_received fs_bytes fs_parts]. destruct Hs as (? & ? & ?). lia.
      * lia.
      * lia.
  - exfalso. apply lookup_ge_None in Hp. unfold zlen in Htot. lia.
Qed.

Lemma push_ok r now src h chunk :
  cfg_ok (ra_cfg r) -> reasm_ok r -> frag_header_ok h -> zlen chunk < 2 ^ 31 ->
  reasm_ok (push r now src h chunk).1 /\ ra_cfg (push r now src h chunk).1 = ra_cfg r /\
  (push r now src h chunk).2 <> Panic /\ within r (push r now src h chunk).2.
Proof.
  intros Hc Hr (Hid & Hi & Ht) Hch. unfold byte_ok, in_u in Ht. change (2 ^ 8) with 256 in Ht. unfold push.
  destruct (open_set r now (src, frag_id h) (frag_total h)) as [r1 b] eqn:Ho.
  apply open_set_ok in Ho as (Hr1 & Hc1 & Hg); [|done|done|lia]. destruct b; [|done].
  destruct Hg as [s Hg]; [done|]. rewrite Hg.
  destruct (push_into r1 now (src, frag_id h) h chunk s) as [r2 res] eqn:Hp.
  eapply push_into_ok in Hp as (? & ? & ? & Hw); eauto; [|by rewrite Hc1]. simpl. split_and!; auto; [congruence|].
  unfold within in *. by rewrite <- Hc1.
Qed.

(** *** Expiry *)

Lemma expire_loop ks r :
  cfg_ok (ra_cfg r) -> reasm_ok r -> NoDup ks -> (forall k, k ∈ ks -> is_Some (get (ra_sets r) k)) ->
  exists r', foldl (fun acc k =>
           r ← acc;
           s ← unwrap (remove (ra_sets r) k).2;
           Ok (mkReassembler (ra_cfg r) (remove (ra_sets r) k).1
                 (usize (ra_bytes r - fs_bytes s)) (ra_dropped r)))
         (@Ok Error _ r) ks = Ok r' /\ reasm_ok r' /\ ra_cfg r' = ra_cfg r /\
    forall k, get (ra_sets r') k = if decide (k ∈ ks) then None else get (ra_sets r) k.
Proof.
  revert r. induction ks as [|k ks IH]; intros r Hc Hr Hnd Hin; simpl.
  { exists r. split_and!; auto. }
  apply NoDup_cons in Hnd as [Hk Hnd]. destruct (Hin k) as [s Hg]; [set_solver|].
  pose proof Hr as (Hwf & _). rewrite remove_old, Hg by done. simpl.
  destruct (drop_set_ok r k s Hc Hr Hg) as (Hd & _).
  set (r1 := mkReassembler _ _ _ _).
  assert (Hr1 : reasm_ok r1).
  { destruct Hd as (? & ? & ? & ? & ?). unfold r1, drop_set, reasm_ok, held, active_sets in *.
    cbn [ra_sets ra_bytes ra_cfg] in *. split_and!; auto. }
  assert (Hget : forall k', get (ra_sets r1) k' = match kcmp k k' with Eq => None | _ => get (ra_sets r) k' end).
  { intros k'. by apply get_remove. }
  destruct (IH r1) as (r' & -> & Hr' & Hc' & Hg'); auto.
  { intros k' Hk'. rewrite Hget. destruct (kcmp k k') eqn:E; [apply kcmp_eq in E as <-; done|apply Hin; set_solver..]. }
  exists r'. split_and!; auto. intros k'. rewrite Hg', Hget. destruct (kcmp k k') eqn:E.
  - apply kcmp_eq in E as <-. rewrite (decide_True (P := k ∈ k :: ks)) by set_solver. by case_decide.
  - assert (k <> k') by (intros ->; by rewrite kcmp_refl in E).
    destruct (decide (k' ∈ ks)); [rewrite decide_True by set_solver|rewrite decide_False by set_solver]; done.
  - assert (k <> k') by (intros ->; by rewrite kcmp_refl in E).
    destruct (decide (k' ∈ ks)); [rewrite decide_True by set_solver|rewrite decide_False by set_solver]; done.
Qed.

(** *** Feeding a sequence of fragments *)

Fixpoint run (r : Reassembler) (src : Address) (l : list (Z * (FragHeader * list Z)))
    : Reassembler * list (Result (option (list Z))) :=
  match l with
  | [] => (r, [])
  | (now, (h, c)) :: l' =>
      let '(r1, res) := push r now src h c in
      let '(r2, rs) := run r1 src l' in (r2, res :: rs)
  end.

(** A reassembler in the middle of collecting [key]: [r0] plus the set [s]. *)
Definition mid (r0 : Reassembler) (key : Address * Z) (s : FragSet) : Reassembler :=
  mkReassembler (ra_cfg r0) (insert (ra_sets r0) key s).1 (ra_bytes r0 + fs_bytes s) (ra_dropped r0).

(** [s] holds a part of the chunks [C]. *)
Definition partial (C : list (list Z)) (s : FragSet) : Prop :=
  set_ok s /\ length (fs_parts s) = length C /\
  forall i c, fs_parts s !! i = Some (Some c) -> C !! i = Some c.

Lemma omap_agree (parts : list (option (list Z))) C C' :
  parts = Some <$> C' -> length parts = length C ->
  (forall i c, parts !! i = Some (Some c) -> C !! i = Some c) -> C' = C.
Proof.
  intros -> Hl Hag. rewrite length_fmap in Hl. apply list_eq_same_length with (n := length C); auto.
  intros i x y Hi Hx Hy. specialize (Hag i x). rewrite list_lookup_fmap, Hx in Hag.
  specialize (Hag eq_refl). congruence.
Qed.

Lemma push_mid r0 key s C now h c i :
  cfg_ok (ra_cfg r0) -> reasm_ok r0 -> get (ra_sets r0) key = None -> partial C s ->
  key.2 = frag_id h -> frag_total h = zlen C -> frag_index h = Z.of_nat i ->
  C !! i = Some c -> fs_parts s !! i = Some None ->
  ra_bytes r0 + total_len C <= max_bytes (ra_cfg r0) -> fs_bytes s + zlen c <= total_len C ->
  push (mid r0 key s) now key.1 h c =
    if decide (fs_received s + 1 = zlen C) then (r0, Ok (Some (concat C)))
    else let s' := mkFragSet (<[i := Some c]> (fs_parts s)) (fs_received s + 1)
                     (fs_bytes s + zlen c) (fs_started_at s) now in (mid r0 key s', Ok None).
Proof.
  intros [Hc1 Hc2] Hr Hn (Hs & Hlen & Hag) Hfid Htot Hidx HCi Hpi Hfit Hb.
  pose proof Hr as (Hwf & Hall & Hbytes & Hmax & Hact).
  assert (0 <= ra_bytes r0) by (rewrite Hbytes; by apply set_bytes_nonneg).
  destruct (fill_slot s i c Hs Hpi ltac:(lia)) as (F1 & F2 & F3 & F4 & F5).
  cbn [fs_received fs_bytes fs_parts] in *. pose proof (zlen_nonneg c).
  assert (0 <= fs_bytes s) by (destruct Hs as (_ & -> & _); apply total_len_nonneg).
  unfold push. rewrite <- Hfid, <- surjective_pairing. unfold open_set, mid. cbn [ra_sets].
  rewrite contains_key_get by (by apply insert_wf). rewrite get_insert_eq by done.
  rewrite bool_decide_true by (by eexists).
  cbn [ra_sets]. rewrite get_insert_eq by done. unfold push_into. cbn [ra_sets ra_cfg ra_bytes ra_dropped].
  rewrite Htot, Hidx, Nat2Z.id, Hpi. rewrite decide_False by (unfold zlen; lia).
  rewrite F2, F4, usize_small by lia. rewrite decide_False by lia.
  cbn [fs_received fs_parts fs_bytes]. rewrite F5.
  assert (zlen (fs_parts s) = zlen C) as HzC by (unfold zlen; lia). rewrite HzC.
  rewrite (update_insert _ _ _ s (insert_wf _ _ _ Hwf) (get_insert_eq _ _ _ Hwf)), insert_insert by done.
  case_decide as Hfin.
  - rewrite remove_insert, remove_None by done. rewrite usize_small by lia.
    replace (ra_bytes r0 + fs_bytes s + zlen c - (fs_bytes s + zlen c)) with (ra_bytes r0) by lia.
    destruct (omap_full (<[i:=Some c]> (fs_parts s))) as [C' HC']; [rewrite F5, HzC; lia|].
    assert (C' = C) as ->.
    { eapply omap_agree; [exact HC'|by rewrite length_insert|]. intros j d Hj.
      destruct (decide (i = j)) as [<-|]; [rewrite list_lookup_insert_eq in Hj by (by eapply lookup_lt_Some); congruence|].
      rewrite list_lookup_insert_ne in Hj by done. by apply Hag. }
    rewrite HC', assemble_full. by destruct r0.
  - f_equal. f_equal. lia.
Qed.

(** The fragments still to come: each fills an empty slot, no slot twice. *)
Definition pending (fid : Z) (C : list (list Z)) (s : FragSet) (l : list (FragHeader * list Z)) : Prop :=
  NoDup (frag_index <$> l.*1) /\
  forall h c, (h, c) ∈ l -> exists i,
    frag_id h = fid /\ frag_total h = zlen C /\ frag_index h = Z.of_nat i /\
    C !! i = Some c /\ fs_parts s !! i = Some None.

Lemma total_len_app l k : total_len (l ++ k) = total_len l + total_len k.
Proof. unfold total_len. rewrite fmap_app. apply zsum_app. Qed.

Lemma run_mid r0 src fid C l :
  cfg_ok (ra_cfg r0) -> reasm_ok r0 -> get (ra_sets r0) (src, fid) = None ->
  ra_bytes r0 + total_len C <= max_bytes (ra_cfg r0) -> l <> [] ->
  forall s, partial C s -> pending fid C s (l.*2) -> omap id (fs_parts s) ++ (l.*2).*2 ≡ₚ C ->
  run (mid r0 (src, fid) s) src l = (r0, replicate (length l - 1) (Ok None) ++ [Ok (Some (concat C))]).
Proof.
  intros Hc Hr Hn Hfit Hl. induction l as [|[now [h c]] l IH]; [done|]. intros s Hpart [Hnd Hpend] HP.
  csimpl in *. destruct (Hpend h c) as (i & Hfid & Htot & Hidx & HCi & Hpi); [set_solver|].
  pose proof Hpart as (Hs & Hlen & Hag). pose proof Hs as (Hrec & Hby & _).
  pose proof (total_len_perm _ _ HP) as HT. rewrite total_len_app in HT.
  pose proof (Permutation_length HP) as HL. rewrite length_app in HL. simpl in HL. rewrite !length_fmap in HL.
  pose proof (total_len_nonneg (l.*2).*2) as Hnn. unfold total_len at 2 in HT. csimpl in HT. fold (total_len (l.*2).*2) in HT.
  pose proof (push_mid r0 (src, fid) s C now h c i) as Hpush. cbn [fst snd] in Hpush.
  rewrite Hpush by (auto; lia). clear Hpush.
  destruct l as [|x l].
  - simpl in HL. rewrite decide_True by (unfold zlen in *; lia). done.
  - rewrite decide_False by (simpl in HL; unfold zlen in *; lia). cbv zeta.
    set (s' := mkFragSet _ _ _ _ _).
    destruct (fill_slot s i c Hs Hpi) as (F1 & F2 & F3 & F4 & F5).
    { assert (0 <= ra_bytes r0) by (destruct Hr as (_ & Hall & -> & _); by apply set_bytes_nonneg).
      destruct Hc as [_ ?]. change (2 ^ 32) with (2 * 2 ^ 31). lia. }
    cbn [fs_received fs_bytes fs_parts] in *.
    assert (HP' : omap id (fs_parts s') ++ ((x :: l).*2).*2 ≡ₚ C).
    { rewrite <- HP. simpl. rewrite (omap_insert_None _ _ _ Hpi). simpl. by rewrite Permutation_middle. }
    rewrite IH; [|done| | |exact HP'].
    + simpl. by rewrite Nat.sub_0_r.
    + unfold partial. split_and!.
      * unfold set_ok. simpl. split_and!; [lia|lia| |].
        -- rewrite F5. simpl in HL. unfold zlen in *. lia.
        -- rewrite F5. destruct Hs as (_ & _ & ?). lia.
      * simpl. by rewrite length_insert.
      * simpl. intros j d Hj. destruct (decide (i = j)) as [<-|].
        { rewrite list_lookup_insert_eq in Hj by (by eapply lookup_lt_Some). congruence. }
        rewrite list_lookup_insert_ne in Hj by done. by apply Hag.
    + apply NoDup_cons in Hnd as [Hni Hnd]. split; [done|]. intros h' c' Hin.
      destruct (Hpend h' c') as (j & ? & ? & Hj & ? & ?); [set_solver|]. exists j. split_and!; auto.
      simpl. rewrite list_lookup_insert_ne; [done|]. intros ->. apply Hni.
      rewrite Hidx, <- Hj. apply list_elem_of_fmap. exists h'. split; [done|].
      apply list_elem_of_fmap. by exists (h', c').
Qed.

Lemma push_first r now src h c :
  reasm_ok r -> get (ra_sets r) (src, frag_id h) = None -> active_sets r < max_sets (ra_cfg r) ->
  push r now src h c =
  push (mid r (src, frag_id h) (mkFragSet (replicate (Z.to_nat (frag_total h)) None) 0 0 now now)) now src h c.
Proof.
  intros (Hwf & _) Hn Hlt. unfold push, open_set. rewrite contains_key_get, Hn by done.
  rewrite bool_decide_false by (by intros [??]). cbv zeta.
  do 2 (rewrite (decide_False (P := max_sets (ra_cfg r) <= active_sets r)) by lia). unfold mid. cbn [ra_sets fs_bytes].
  rewrite contains_key_get by (by apply insert_wf). rewrite get_insert_eq by done.
  rewrite bool_decide_true by (by eexists). rewrite Z.add_0_r. cbn [ra_sets]. by rewrite get_insert_eq.
Qed.

Lemma numbered_lookup fid C i h c :
  numbered fid C !! i = Some (h, c) <-> h = mkFragHeader fid (Z.of_nat i) (zlen C) /\ C !! i = Some c.
Proof.
  unfold numbered. rewrite list_lookup_imap. destruct (C !! i) as [d|]; simpl; [|naive_solver].
  split; [intros [= <- <-]; done|]. intros [-> [= ->]]. done.
Qed.

Lemma numbered_pending fid C now :
  pending fid C (mkFragSet (replicate (length C) None) 0 0 now now) (numbered fid C).
Proof.
  split.
  - apply NoDup_alt. intros i j x. rewrite !list_lookup_fmap.
    destruct (numbered fid C !! i) as [[h c]|] eqn:Hi; [|done].
    destruct (numbered fid C !! j) as [[h' c']|] eqn:Hj; [|done]. simpl.
    apply numbered_lookup in Hi as [-> _], Hj as [-> _]. simpl. intros [= <-] [= ?]. lia.
  - intros h c (i & Hi)%list_elem_of_lookup. apply numbered_lookup in Hi as [-> Hi]. exists i. split_and!; auto.
    simpl. apply lookup_replicate. split; [done|]. by eapply lookup_lt_Some.
Qed.

Lemma numbered_chunks fid C : (numbered fid C).*2 = C.
Proof.
  apply list_eq. intros i. rewrite list_lookup_fmap. unfold numbered. rewrite list_lookup_imap.
  by destruct (C !! i).
Qed.

Lemma pending_perm fid C s l k : l ≡ₚ k -> pending fid C s k -> pending fid C s l.
Proof.
  intros HP [Hnd Hk]. split; [by rewrite HP|]. intros h c Hin. apply Hk. by rewrite <- HP.
Qed.

(** C35. Reassembly is correct for every arrival order: if a message was split
    and its fragments reach, in any order and at any times, a reassembler with
    room for it, every fragment but the last is absorbed silently, the last one
    yields exactly the original message, and the reassembler is left as it was
    found (no residual memory). *)
Theorem reassemble_any_order r src fid body chunk fr l :
  cfg_ok (ra_cfg r) -> reasm_ok r -> 0 <= chunk ->
  split fid body chunk = Some fr -> l.*2 ≡ₚ fr ->
  get (ra_sets r) (src, fid) = None -> active_sets r < max_sets (ra_cfg r) ->
  ra_bytes r + zlen body <= max_bytes (ra_cfg r) ->
  run r src l = (r, replicate (length fr - 1) (Ok None) ++ [Ok (Some body)]).
Proof.
  intros Hc Hr Hch Hsp HP Hn Hact Hfit.
  destruct (split_numbered _ _ _ _ Hch Hsp) as (C & <- & Hlen & -> & _).
  assert (length l = length (numbered fid C)) as Hll by (rewrite <- (Permutation_length HP); by rewrite length_fmap).
  assert (HlC : length (numbered fid C) = length C) by apply length_imap. rewrite <- Hll.
  rewrite total_len_concat in Hfit. destruct l as [|[now [h c]] l]; [simpl in *; lia|].
  set (s0 := mkFragSet (replicate (length C) None) 0 0 now now).
  pose proof (pending_perm _ _ s0 _ _ HP (numbered_pending fid C now)) as Hpend.
  destruct (proj2 Hpend h c) as (i & Hfid & Htot & _); [set_solver|].
  assert (run r src ((now, (h, c)) :: l) = run (mid r (src, fid) s0) src ((now, (h, c)) :: l)) as ->.
  { simpl. rewrite (push_first r), Hfid, Htot by (rewrite ?Hfid; done). unfold zlen. by rewrite Nat2Z.id. }
  apply (run_mid r src fid C); auto.
  - unfold partial, s0. split_and!; simpl.
    + pose proof (fresh_set_ok (zlen C) now) as Hf. unfold zlen in Hf. rewrite Nat2Z.id in Hf. apply Hf. lia.
    + by rewrite length_replicate.
    + intros j d. rewrite lookup_replicate. by intros [? _].
  - unfold s0. cbn [fs_parts]. rewrite omap_replicate_None, app_nil_l, HP. by rewrite numbered_chunks.
Qed.

(** The reassembler never panics on a parsed fragment header, and keeps its
    memory bounds: after any push the byte counter equals the bytes actually
    held, stays within [max_bytes], and at most [max_sets] partial messages
    exist, whatever an attacker sends. *)
Theorem push_bounded_memory r now src h chunk :
  cfg_ok (ra_cfg r) -> reasm_ok r -> frag_header_ok h -> zlen chunk < 2 ^ 31 ->
  let '(r', res) := push r now src h chunk in
  res <> Panic /\ reasm_ok r' /\ bytes_held r' = held r' /\ 0 <= bytes_held r' <= max_bytes (ra_cfg r) /\
  active_sets r' <= max_sets (ra_cfg r).
Proof.
  intros Hc Hr Hh Hch. destruct (push_ok r now src h chunk Hc Hr Hh Hch) as (Hr' & Hc' & Hnp & _).
  destruct (push r now src h chunk) as [r' res]. simpl in *. pose proof Hr' as (? & Hall & Hb & Hm & Ha).
  rewrite Hc' in *. split_and!; auto. unfold bytes_held. rewrite Hb. by apply set_bytes_nonneg.
Qed.

(** [expire] never panics; it removes exactly the sets older than the
    timeout, keeps every other set untouched, and preserves the memory
    accounting. *)
Theorem expire_exact r now :
  cfg_ok (ra_cfg r) -> reasm_ok r ->
  exists r' n, expire r now = Ok (r', n) /\ reasm_ok r' /\ ra_cfg r' = ra_cfg r /\
    (forall k, get (ra_sets r') k = match get (ra_sets r) k with
       | Some s => if is_stale r now s then None else Some s | None => None end).
Proof.
  intros Hc Hr. pose proof Hr as (Hwf & _). set (stale := (Prelude.retain (fun kv => is_stale r now kv.2) (ra_sets r)).*1).
  assert (Hst : forall k, k ∈ stale <-> exists s, get (ra_sets r) k = Some s /\ is_stale r now s = true).
  { intros k. unfold stale. rewrite list_elem_of_fmap. split.
    - intros ([k' s] & -> & [Hs Hin]%elem_of_retain). exists s. split; [by apply get_Some|done].
    - intros (s & Hg & Hs). exists (k, s). split; [done|]. apply elem_of_retain. split; [done|]. by apply get_Some. }
  destruct (expire_loop stale r Hc Hr) as (r' & Hloop & Hr' & Hc' & Hg').
  - apply wf_keys_NoDup. by apply (retain_wf (fun _ s => is_stale r now s)).
  - intros k Hk%Hst. destruct Hk as (s & -> & _). eauto.
  - eexists _, _. unfold expire. fold stale. rewrite Hloop. simpl. split; [reflexivity|]. split; [|split; [exact Hc'|]].
    + destruct Hr' as (? & ? & ? & ? & ?). unfold reasm_ok, held, active_sets in *. simpl. split_and!; auto.
    + simpl. intros k. rewrite Hg'. destruct (get (ra_sets r) k) as [s|] eqn:E; [|by case_decide].
      destruct (is_stale r now s) eqn:Es.
      * rewrite decide_True; [done|]. apply Hst. eauto.
      * rewrite decide_False; [done|]. rewrite Hst. intros (s' & ? & ?). congruence.
Qed.

(** *** Where the collected bytes come from

    [Q key total k chunk]: [chunk] came as fragment [k] of [total] of the set
    [key]. *)
Section Provenance.
Context (Q : Address * Z -> Z -> nat -> list Z -> Prop).

Definition set_from (key : Address * Z) (s : FragSet) : Prop :=
  forall k chunk, fs_parts s !! k = Some (Some chunk) -> Q key (zlen (fs_parts s)) k chunk.
Definition parts_from (m : smallmap (Address * Z) FragSet) : Prop := forall key s, get m key = Some s -> set_from key s.

Lemma parts_from_remove m key : wf m -> parts_from m -> parts_from (remove m key).1.
Proof. intros Hwf Hm k s Hg. rewrite get_remove in Hg by done. destruct (kcmp key k); [done|by apply Hm..]. Qed.
Lemma parts_from_insert m key s : wf m -> parts_from m -> set_from key s -> parts_from (insert m key s).1.
Proof.
  intros Hwf Hm Hs k s' Hg. rewrite get_insert in Hg by done. destruct (kcmp key k) eqn:E; [|by apply Hm..].
  apply kcmp_eq in E as <-. by injection Hg as <-.
Qed.
Lemma parts_from_update m key s s' : wf m -> get m key = Some s -> parts_from m -> set_from key s' -> parts_from (update m key (fun _ => s')).
Proof. intros Hwf Hg Hm Hs. rewrite (update_insert _ _ (fun _ => s') s Hwf Hg). by apply parts_from_insert. Qed.

Lemma open_set_from r now key total :
  reasm_ok r -> parts_from (ra_sets r) -> parts_from (ra_sets (open_set r now key total).1).
Proof.
  intros Hr Hm. pose proof Hr as (Hwf & _). unfold open_set. destruct (contains_key _ _); [done|].
  set (r1 := if decide _ then evict_oldest r else r).
  assert (H1 : wf (ra_sets r1) /\ parts_from (ra_sets r1)).
  { subst r1. case_decide; [|done]. unfold evict_oldest. destruct (min_by_key _ _) as [[k s]|]; [|done]. simpl.
    split; [by apply remove_wf|by apply parts_from_remove]. }
  case_decide; [apply H1|]. simpl. apply parts_from_insert; [apply H1..|]. intros k chunk. simpl. rewrite lookup_replicate. by intros [? _].
Qed.

(** A message put together from fragments [Q] speaks for. *)
Definition assembled (key : Address * Z) (full : list Z) : Prop :=
  exists chunks, full = concat chunks /\ forall k chunk, chunks !! k = Some chunk -> Q key (zlen chunks) k chunk.

Lemma assemble_inv parts full : assemble parts = Ok full -> exists chunks, parts = Some <$> chunks /\ full = concat chunks.
Proof.
  revert full. induction parts as [|p parts IH]; intros full; simpl; [intros [= <-]; by exists []|].
  destruct p as [c0|]; [|done]. simpl. intros (rest & Hr & [= <-])%bind_ok. destruct (IH rest Hr) as (chunks & -> & ->). by exists (c0 :: chunks).
Qed.

Lemma push_into_from r now key h chunk s :
  wf (ra_sets r) -> get (ra_sets r) key = Some s -> parts_from (ra_sets r) -> Q key (frag_total h) (Z.to_nat (frag_index h)) chunk ->
  parts_from (ra_sets (push_into r now key h chunk s).1) /\
  forall full, (push_into r now key h chunk s).2 = Ok (Some full) -> assembled key full.
Proof.
  intros Hwf Hg Hm HQ. unfold push_into. case_decide as Htot; [split; [by apply parts_from_remove|done]|].
  destruct (fs_parts s !! Z.to_nat (frag_index h)) as [[c0|]|] eqn:Hp; [done| |done].
  case_decide; [split; [by apply parts_from_remove|done]|]. set (s' := mkFragSet _ _ _ _ _).
  assert (Hs' : set_from key s').
  { intros k d. unfold s'. cbn [fs_parts]. intros Hk. assert (Hz : zlen (<[Z.to_nat (frag_index h):=Some chunk]> (fs_parts s)) = zlen (fs_parts s))
      by (unfold zlen; by rewrite length_insert).
    rewrite Hz. apply list_lookup_insert_Some in Hk as [(<- & [= <-] & _)|[_ Hk]]; [by rewrite Htot|by apply (Hm key s Hg)]. }
  assert (Hup : parts_from (update (ra_sets r) key (fun _ => s'))) by (by apply (parts_from_update _ _ s)).
  cbn [ra_sets ra_cfg ra_bytes ra_dropped]. case_decide; [|split; [exact Hup|done]]. split.
  - apply parts_from_remove; [|exact Hup]. rewrite (update_insert _ _ (fun _ => s') s Hwf Hg). by apply insert_wf.
  - intros full (out & Ho & [= <-])%bind_ok. apply assemble_inv in Ho as (chunks & Hc & ->). exists chunks. split; [done|].
    intros k d Hk. replace (zlen chunks) with (zlen (fs_parts s')) by (rewrite Hc; unfold zlen; by rewrite length_fmap).
    apply Hs'. by rewrite Hc, list_lookup_fmap, Hk.
Qed.

Lemma push_from r now src h chunk :
  cfg_ok (ra_cfg r) -> reasm_ok r -> frag_header_ok h -> parts_from (ra_sets r) ->
  Q (src, frag_id h) (frag_total h) (Z.to_nat (frag_index h)) chunk ->
  parts_from (ra_sets (push r now src h chunk).1) /\
  forall full, (push r now src h chunk).2 = Ok (Some full) -> assembled (src, frag_id h) full.
Proof.
  intros Hc Hr (_ & Hi & Ht) Hm HQ. unfold byte_ok, in_u in Ht. change (2 ^ 8) with 256 in Ht. unfold push.
  pose proof (open_set_from r now (src, frag_id h) (frag_total h) Hr Hm) as H1.
  destruct (open_set r now (src, frag_id h) (frag_total h)) as [r1 b] eqn:Ho. apply open_set_ok in Ho as ((Hwf & _) & _ & _); [|done..|lia].
  destruct b; [|done]. destruct (get _ _) as [s|] eqn:Hg; [|done]. by apply push_into_from.
Qed.
End Provenance.

Lemma parts_from_mono (P Q : Address * Z -> Z -> nat -> list Z -> Prop) m :
  (forall key total k chunk, P key total k chunk -> Q key total k chunk) -> parts_from P m -> parts_from Q m.
Proof. intros HPQ Hm key s Hg k chunk Hk. apply HPQ. by apply (Hm key s Hg). Qed.

(** *** Witnesses *)

Definition ex_src : Address := mkAddress (replicate 8 5).
Definition ex_cfg : ReassemblyConfig := mkReassemblyConfig 2 1000 100.

Lemma ex_cfg_ok : cfg_ok ex_cfg.
Proof. unfold cfg_ok; simpl. lia. Defined.
Lemma new_ok c : cfg_ok c -> reasm_ok (new c).
Proof. intros [? [? ?]]. split; [apply empty_wf|]. split; [constructor|]. split; [reflexivity|]. split; assumption. Defined.

Definition ex_frags : list (FragHeader * list Z) := default [] (split 9 [10; 20; 30; 40; 50] 2).

Lemma reassemble_any_order_witness :
  run (new ex_cfg) ex_src [(3, (mkFragHeader 9 2 3, [50])); (5, (mkFragHeader 9 0 3, [10; 20]));
                           (8, (mkFragHeader 9 1 3, [30; 40]))]
  = (new ex_cfg, [Ok None; Ok None; Ok (Some [10; 20; 30; 40; 50])]).
Proof.
  apply (reassemble_any_order (new ex_cfg) ex_src 9 [10; 20; 30; 40; 50] 2 ex_frags).
  - exact ex_cfg_ok.
  - apply new_ok, ex_cfg_ok.
  - lia.
  - reflexivity.
  - vm_compute. apply (Permutation_app_comm [_] [_; _]).
  - reflexivity.
  - vm_compute. reflexivity.
  - vm_compute. discriminate.
Defined.

Lemma push_bounded_memory_witness :
  active_sets (push (new ex_cfg) 0 ex_src (mkFragHeader 9 0 3) [1; 2]).1 <= 2.
Proof.
  pose proof (push_bounded_memory (new ex_cfg) 0 ex_src (mkFragHeader 9 0 3) [1; 2] ex_cfg_ok (new_ok _ ex_cfg_ok)) as H.
  destruct (push _ _ _ _ _) as [r' res]. apply H.
  - unfold frag_header_ok, byte_ok, in_u; simpl. lia.
  - reflexivity.
Defined.

(** One pending fragment, received at time 0. *)
Definition ex_pending : Reassembler := (push (new ex_cfg) 0 ex_src (mkFragHeader 9 0 3) [1; 2]).1.
Lemma ex_pending_ok : reasm_ok ex_pending.
Proof.
  apply push_ok; [apply ex_cfg_ok|apply new_ok, ex_cfg_ok| |reflexivity].
  unfold frag_header_ok, byte_ok, in_u; simpl. lia.
Defined.

Lemma expire_exact_witness :
  exists r' n, expire ex_pending 500 = Ok (r', n) /\ reasm_ok r' /\ get (ra_sets r') (ex_src, 9) = None.
Proof.
  destruct (expire_exact ex_pending 500 ex_cfg_ok ex_pending_ok) as (r' & n & H1 & H2 & _ & H3).
  exists r', n. split; [exact H1|]. split; [exact H2|]. rewrite (H3 (ex_src, 9)). vm_compute. reflexivity.
Defined.
End ReassemblerFacts.
