(* ===== verification/CryptoLib.v ===== *)
(** * Cryptographic libraries

    What [crypto/] uses of the [sha2], [hmac], [chacha20poly1305],
    [x25519-dalek] and [ed25519-dalek] crates, as an interface: the operations,
    and the documented facts the protocol code relies on.  No secrecy or
    unforgeability is assumed. *)
From stdpp Require Import base tactics list numbers.
From Stdlib Require Import Lia.
From S2P Require Import Prelude Protocol.

Class CryptoLib := {
  (** SHA-256 digest of a message; HMAC-SHA256 of a key and a message. *)
  sha256 : list Z -> list Z;
  hmac_sha256 : list Z -> list Z -> list Z;
  (** [encrypt_in_place_detached]: key, nonce, associated data, plaintext give
      ciphertext and tag, or an error (plaintext too long). *)
  aead_encrypt : list Z -> list Z -> list Z -> list Z -> option (list Z * list Z);
  (** [decrypt_in_place_detached]: key, nonce, associated data, ciphertext, tag. *)
  aead_decrypt : list Z -> list Z -> list Z -> list Z -> list Z -> option (list Z);
  (** [StaticSecret::diffie_hellman], [PublicKey::from(&StaticSecret)] and
      [SharedSecret::was_contributory]. *)
  x25519 : list Z -> list Z -> list Z;
  x25519_public : list Z -> list Z;
  was_contributory : list Z -> bool;
  (** [VerifyingKey::from_bytes] succeeds, [is_weak], [to_montgomery]. *)
  ed_decodes : list Z -> bool;
  ed_is_weak : list Z -> bool;
  ed_to_montgomery : list Z -> list Z;
  (** [SigningKey::from_bytes(seed)]: [verifying_key().to_bytes()] and
      [to_scalar_bytes()]. *)
  ed_public : list Z -> list Z;
  ed_scalar_bytes : list Z -> list Z;
  (** [SigningKey::sign] (seed, message) and [verify_strict] (key, message,
      signature). *)
  ed_sign : list Z -> list Z -> list Z;
  ed_verify_strict : list Z -> list Z -> list Z -> bool
}.

Class CryptoLibLaws (C : CryptoLib) : Prop := {
  sha256_len m : length (sha256 m) = 32%nat;
  sha256_bytes m : bytes_ok (sha256 m);
  hmac_len k m : length (hmac_sha256 k m) = 32%nat;
  aead_total k n ad pt : zlen pt < 2 ^ 32 -> is_Some (aead_encrypt k n ad pt);
  aead_encrypt_len k n ad pt ct tag :
    aead_encrypt k n ad pt = Some (ct, tag) -> length ct = length pt /\ length tag = 16%nat;
  aead_decrypt_len k n ad ct tag pt :
    aead_decrypt k n ad ct tag = Some pt -> length pt = length ct;
  aead_correct k n ad pt ct tag :
    aead_encrypt k n ad pt = Some (ct, tag) -> aead_decrypt k n ad ct tag = Some pt;
  x25519_public_len s : length (x25519_public s) = 32%nat;
  x25519_comm a b : x25519 a (x25519_public b) = x25519 b (x25519_public a);
  ed_public_len seed : length (ed_public seed) = 32%nat;
  ed_decodes_len pk : ed_decodes pk = true -> length pk = 32%nat;
  ed_public_decodes seed : ed_decodes (ed_public seed) = true;
  ed_public_strong seed : ed_is_weak (ed_public seed) = false;
  ed_montgomery seed : ed_to_montgomery (ed_public seed) = x25519_public (ed_scalar_bytes seed);
  ed_sign_len seed m : length (ed_sign seed m) = 64%nat;
  ed_sign_verify seed m : ed_verify_strict (ed_public seed) m (ed_sign seed m) = true
}.

(** A concrete instance with the same algebra (multiplication modulo a prime
    for the key exchange, a checksum for the tag): the laws can hold together,
    and the protocol code runs on it. *)
Module ToyCrypto.
Definition prime : Z := 65521.
Definition digest (m : list Z) : Z := foldl (fun acc b => (acc * 257 + b + 1) mod (2 ^ 61 - 1)) 7 m.
Definition mix (k n ad pt : list Z) : Z :=
  digest (k ++ 256 :: n ++ 256 :: ad ++ 256 :: pt).
Definition pub (s : list Z) : list Z := be_bytes 32 (from_be s mod prime).

#[global] Instance lib : CryptoLib := {
  sha256 m := be_bytes 8 (digest m) ++ be_bytes 24 (digest m);
  hmac_sha256 k m := be_bytes 32 (digest (k ++ 256 :: m));
  aead_encrypt k n ad pt := Some (pt, be_bytes 16 (mix k n ad pt));
  aead_decrypt k n ad ct tag :=
    if decide (tag = be_bytes 16 (mix k n ad ct)) then Some ct else None;
  x25519 a p := be_bytes 32 ((from_be a * from_be p) mod prime);
  x25519_public := pub;
  was_contributory s := negb (bool_decide (s = replicate 32 0));
  ed_decodes pk := bool_decide (length pk = 32%nat);
  ed_is_weak pk := false;
  ed_to_montgomery pk := pk;
  ed_public := pub;
  ed_scalar_bytes seed := seed;
  ed_sign seed m := be_bytes 64 (digest (pub seed ++ m));
  ed_verify_strict pk m sig := bool_decide (sig = be_bytes 64 (digest (pk ++ m)))
}.

Lemma pub_value s : from_be (pub s) = from_be s mod prime.
Proof.
  unfold pub. rewrite from_be_be_bytes. apply Z.mod_small.
  pose proof (Z.mod_pos_bound (from_be s) prime ltac:(done)). unfold prime in *.
  split; [lia|]. transitivity 65521; [lia|]. reflexivity.
Qed.

#[global] Instance laws : CryptoLibLaws lib.
Proof.
  split; intros; simpl in *.
  - done.
  - apply (Forall_app_2 byte_ok (be_bytes 8 (digest m))); apply be_bytes_ok.
  - first [done | apply length_be_bytes].
  - eauto.
  - simplify_eq. by rewrite ?length_be_bytes.
  - case_decide; by simplify_eq.
  - simplify_eq. by rewrite decide_True.
  - first [done | apply length_be_bytes].
  - rewrite !pub_value. f_equal. rewrite !Z.mul_mod_idemp_r by done. f_equal. lia.
  - first [done | apply length_be_bytes].
  - by eapply bool_decide_eq_true.
  - done.
  - done.
  - done.
  - first [done | apply length_be_bytes].
  - by apply bool_decide_true.
Qed.
End ToyCrypto.
