(* ===== verification/Identity.v ===== *)
(** * Identities

    [crates/meshstar-core/src/identity/mod.rs]: addresses derived from keys,
    [PublicIdentity], [Identity], and the textual form of addresses. *)
From stdpp Require Import base tactics list numbers.
From Stdlib Require Import Lia.
From S2P Require Import Prelude Protocol CryptoLib.

(** [b"MeshStar/addr/v1"] *)
Definition ADDR_DOMAIN : list Z :=
  [77; 101; 115; 104; 83; 116; 97; 114; 47; 97; 100; 100; 114; 47; 118; 49].

Section Identity.
Context `{C : CryptoLib}.

Definition from_public_key (pk : list Z) : Address :=
  mkAddress (take (Z.to_nat ADDRESS_LEN) (sha256 (ADDR_DOMAIN ++ pk))).

(** A [VerifyingKey] is represented by its 32 bytes. *)
Record PublicIdentity := mkPublicIdentity {
  pi_verifying : list Z;
  pi_address : Address;
  pi_x25519 : list Z
}.

Definition pubid_from_bytes (pk : list Z) : Result PublicIdentity :=
  if negb (ed_decodes pk) then Err BadField
  else if ed_is_weak pk then Err BadField
  else Ok (mkPublicIdentity pk (from_public_key pk) (ed_to_montgomery pk)).

Definition public_key_bytes (p : PublicIdentity) : list Z := pi_verifying p.
Definition noise_static_public (p : PublicIdentity) : list Z := pi_x25519 p.
Definition pubid_verify (p : PublicIdentity) (msg sig : list Z) : Result unit :=
  if ed_verify_strict (pi_verifying p) msg sig then Ok () else Err AuthFailed.

Record Identity := mkIdentity {
  id_signing : list Z;
  id_public : PublicIdentity;
  id_x25519_secret : list Z
}.

Definition from_seed (seed : list Z) : Result Identity :=
  match pubid_from_bytes (ed_public seed) with
  | Ok public => Ok (mkIdentity seed public (ed_scalar_bytes seed))
  | _ => Panic
  end.

Definition generate {R} `{RngCore R} (rng : R) : Result Identity * R :=
  let '(seed, rng') := fill_bytes rng 32 in (from_seed seed, rng').

Definition id_seed (i : Identity) : list Z := id_signing i.
Definition id_address (i : Identity) : Address := pi_address (id_public i).
Definition id_sign (i : Identity) (msg : list Z) : list Z := ed_sign (id_signing i) msg.
Definition noise_static_secret (i : Identity) : list Z := id_x25519_secret i.

(** The identities the constructors produce. *)
Definition identity_ok (i : Identity) : Prop := from_seed (id_signing i) = Ok i.
(** The public identities [PublicIdentity::from_bytes] produces. *)
Definition pubid_ok (p : PublicIdentity) : Prop := pubid_from_bytes (pi_verifying p) = Ok p.

Context `{!CryptoLibLaws C}.

Lemma from_seed_total seed : exists i, from_seed seed = Ok i /\ identity_ok i.
Proof.
  unfold identity_ok, from_seed, pubid_from_bytes.
  rewrite ed_public_decodes, ed_public_strong. simpl. eexists. split; [done|]. simpl.
  by rewrite ed_public_decodes, ed_public_strong.
Qed.

Lemma identity_ok_inv i :
  identity_ok i ->
  id_public i = mkPublicIdentity (ed_public (id_signing i)) (from_public_key (ed_public (id_signing i)))
                  (x25519_public (id_x25519_secret i)) /\
  id_x25519_secret i = ed_scalar_bytes (id_signing i).
Proof.
  unfold identity_ok, from_seed, pubid_from_bytes. rewrite ed_public_decodes, ed_public_strong. simpl.
  intros H. injection H as H. rewrite <- H. simpl. by rewrite ed_montgomery.
Qed.

(** The public half of an identity survives its wire form. *)
Lemma identity_pubid i :
  identity_ok i -> pubid_from_bytes (public_key_bytes (id_public i)) = Ok (id_public i).
Proof.
  intros Hi. pose proof (identity_ok_inv i Hi) as [-> Hs]. unfold public_key_bytes, pubid_from_bytes. simpl.
  rewrite ed_public_decodes, ed_public_strong. simpl. by rewrite Hs, ed_montgomery.
Qed.

Lemma from_public_key_ok pk : address_ok (from_public_key pk).
Proof.
  unfold from_public_key, address_ok. simpl. split.
  - rewrite length_take, sha256_len. done.
  - apply Forall_take, sha256_bytes.
Qed.

Lemma pubid_from_bytes_inv pk p :
  pubid_from_bytes pk = Ok p ->
  pi_verifying p = pk /\ pi_address p = from_public_key pk /\ pi_x25519 p = ed_to_montgomery pk /\ pubid_ok p.
Proof.
  unfold pubid_ok, pubid_from_bytes. destruct (ed_decodes pk) eqn:E1, (ed_is_weak pk) eqn:E2; simpl; intros H; simplify_eq.
  simpl. by rewrite E1, E2.
Qed.

Lemma pubid_ok_len p : pubid_ok p -> zlen (pi_verifying p) = 32.
Proof.
  unfold pubid_ok, pubid_from_bytes. destruct (ed_decodes (pi_verifying p)) eqn:E; [|done]. intros _. apply ed_decodes_len in E.
  unfold zlen. lia.
Qed.
Lemma pubid_ok_address p : pubid_ok p -> address_ok (pi_address p).
Proof.
  intros Hp. unfold pubid_ok in Hp. apply pubid_from_bytes_inv in Hp as (_ & -> & _). unfold from_public_key, address_ok. simpl. split.
  - rewrite length_take, sha256_len. done.
  - apply Forall_take, sha256_bytes.
Qed.

(** The self-certifying address: every identity the node can hold or accept
    from the wire has the address derived from its public key, with eight
    bytes; a seed always gives an identity, whose signatures verify under the
    public identity a peer rebuilds from the 32 key bytes. *)
Theorem identity_self_certifying (seed msg : list Z) :
  exists i, from_seed seed = Ok i /\ address_ok (id_address i) /\
    id_address i = from_public_key (public_key_bytes (id_public i)) /\
    exists p, pubid_from_bytes (public_key_bytes (id_public i)) = Ok p /\
      pi_address p = id_address i /\ noise_static_public p = x25519_public (noise_static_secret i) /\
      pubid_verify p msg (id_sign i msg) = Ok ().
Proof.
  destruct (from_seed_total seed) as (i & Hi & Hok). exists i. split; [done|].
  pose proof (identity_ok_inv i Hok) as [Hp _]. pose proof (identity_pubid i Hok) as Hw.
  unfold id_address. rewrite Hp in *. simpl in *.
  split; [apply from_public_key_ok|]. split; [done|]. eexists. split; [exact Hw|].
  repeat split. unfold pubid_verify, id_sign. simpl. by rewrite ed_sign_verify.
Qed.
End Identity.

Lemma identity_self_certifying_witness :
  exists i, from_seed [1; 2; 3] = Ok i /\ address_ok (id_address i) /\
    id_address i = from_public_key (public_key_bytes (id_public i)) /\
    exists p, pubid_from_bytes (public_key_bytes (id_public i)) = Ok p /\
      pi_address p = id_address i /\ noise_static_public p = x25519_public (noise_static_secret i) /\
      pubid_verify p [9] (id_sign i [9]) = Ok ().
Proof. exact (identity_self_certifying (C := ToyCrypto.lib) [1; 2; 3] [9]). Defined.

(** ** Text form *)

Lemma prefix_plain : Forall (fun c => plain_char c = true) PREFIX_UPPER.
Proof. repeat constructor. Qed.

Lemma strip_prefix_app p s : strip_prefix p (p ++ s) = Some s.
Proof. unfold strip_prefix. rewrite take_app_length, drop_app_length. by rewrite decide_True. Qed.

(** Printing an address and parsing the text gives the address back, for
    every address but the broadcast one, whose printed form is rejected. *)
Theorem address_text_roundtrip (a : Address) :
  address_ok a ->
  addr_parse (addr_display a) = if is_broadcast a then Err BadField else Ok a.
Proof.
  intros [Hl Hb]. destruct (is_broadcast a) eqn:Eb.
  { apply bool_decide_eq_true in Eb. subst. reflexivity. }
  pose proof (hex_bytes_plain _ Hb) as Hp.
  unfold addr_display, addr_parse. rewrite Eb, trim_plain, strip_prefix_app.
  2:{ apply Forall_app. split; [exact prefix_plain|done]. }
  rewrite as_bytes_plain, parse_hex_display by done.
  rewrite decide_False by (unfold zlen; rewrite length_hex_bytes, Hl; by intros []).
  by destruct a.
Qed.

Lemma address_text_roundtrip_witness :
  addr_parse (addr_display (mkAddress [0x01; 0x23; 0x45; 0x67; 0x89; 0xAB; 0xCD; 0xEF]))
  = Ok (mkAddress [0x01; 0x23; 0x45; 0x67; 0x89; 0xAB; 0xCD; 0xEF]).
Proof.
  apply (address_text_roundtrip (mkAddress [0x01; 0x23; 0x45; 0x67; 0x89; 0xAB; 0xCD; 0xEF])).
  split; [reflexivity|]. apply (bool_decide_unpack _). vm_compute. exact I.
Defined.
