(* ===== verification/Noise.v ===== *)
(** * Noise protocol

    [crates/meshstar-core/src/crypto/noise.rs]: [CipherState],
    [SymmetricState], the XX handshake state machine and the one-way X
    message; [crypto/envelope.rs] on top of it.  The primitives come from the
    interface of CryptoLib.v. *)
From stdpp Require Import base tactics list numbers.
From Stdlib Require Import Lia.
From S2P Require Import Prelude Protocol CryptoLib Identity.

(** [b"Noise_XX_25519_ChaChaPoly_SHA256"] *)
Definition PROTOCOL_NAME_XX : list Z :=
  [78; 111; 105; 115; 101; 95; 88; 88; 95; 50; 53; 53; 49; 57; 95; 67;
   104; 97; 67; 104; 97; 80; 111; 108; 121; 95; 83; 72; 65; 50; 53; 54].
(** [b"Noise_X_25519_ChaChaPoly_SHA256"] *)
Definition PROTOCOL_NAME_X : list Z :=
  [78; 111; 105; 115; 101; 95; 88; 95; 50; 53; 53; 49; 57; 95; 67;
   104; 97; 67; 104; 97; 80; 111; 108; 121; 95; 83; 72; 65; 50; 53; 54].

Record CipherState := mkCipherState { cs_k : option (list Z); cs_n : Z }.
Record SymmetricState := mkSymmetricState { ss_cs : CipherState; ss_ck : list Z; ss_h : list Z }.

Inductive NoiseRole := Initiator | Responder.
#[global] Instance NoiseRole_eq_dec : EqDecision NoiseRole.
Proof. solve_decision. Defined.

Record TransportKeys := mkTransportKeys {
  tk_send : list Z; tk_recv : list Z; tk_handshake_hash : list Z
}.

Inductive HandshakeMessage := One | Two | Three.
Definition hsmsg_u8 (m : HandshakeMessage) : Z := match m with One => 1 | Two => 2 | Three => 3 end.
Definition hsmsg_from_u8 (v : Z) : option HandshakeMessage :=
  match v with 1 => Some One | 2 => Some Two | 3 => Some Three | _ => None end.

Record HandshakeXX := mkHandshakeXX {
  hs_role : NoiseRole;
  hs_ss : SymmetricState;
  hs_s : list Z;
  hs_s_pub : list Z;
  hs_ed_pub : list Z;
  hs_e : option (list Z);
  hs_e_pub : list Z;
  hs_re : option (list Z);
  hs_rs : option (list Z);
  hs_step : Z;
  hs_remote : option PublicIdentity
}.

Definition set_ss (v : SymmetricState) (h : HandshakeXX) : HandshakeXX :=
  mkHandshakeXX (hs_role h) v (hs_s h) (hs_s_pub h) (hs_ed_pub h) (hs_e h) (hs_e_pub h)
    (hs_re h) (hs_rs h) (hs_step h) (hs_remote h).
Definition set_re (v : option (list Z)) (h : HandshakeXX) : HandshakeXX :=
  mkHandshakeXX (hs_role h) (hs_ss h) (hs_s h) (hs_s_pub h) (hs_ed_pub h) (hs_e h) (hs_e_pub h)
    v (hs_rs h) (hs_step h) (hs_remote h).
Definition set_rs (v : option (list Z)) (h : HandshakeXX) : HandshakeXX :=
  mkHandshakeXX (hs_role h) (hs_ss h) (hs_s h) (hs_s_pub h) (hs_ed_pub h) (hs_e h) (hs_e_pub h)
    (hs_re h) v (hs_step h) (hs_remote h).
Definition set_step (v : Z) (h : HandshakeXX) : HandshakeXX :=
  mkHandshakeXX (hs_role h) (hs_ss h) (hs_s h) (hs_s_pub h) (hs_ed_pub h) (hs_e h) (hs_e_pub h)
    (hs_re h) (hs_rs h) v (hs_remote h).
Definition set_remote (v : option PublicIdentity) (h : HandshakeXX) : HandshakeXX :=
  mkHandshakeXX (hs_role h) (hs_ss h) (hs_s h) (hs_s_pub h) (hs_ed_pub h) (hs_e h) (hs_e_pub h)
    (hs_re h) (hs_rs h) (hs_step h) v.

Section Noise.
Context `{C : CryptoLib}.

(** ** [CipherState] *)

Definition cs_empty : CipherState := mkCipherState None 0.
Definition with_key (k : list Z) : CipherState := mkCipherState (Some k) 0.
Definition cs_has_key (c : CipherState) : bool := bool_decide (is_Some (cs_k c)).
Definition set_nonce (n : Z) (c : CipherState) : CipherState := mkCipherState (cs_k c) n.

(** Four zero bytes and the little-endian counter. *)
Definition nonce_bytes (n : Z) : list Z := replicate 4 0 ++ reverse (be_bytes 8 n).

Definition encrypt_n (k : list Z) (n : Z) (ad plaintext : list Z) : Result (list Z) :=
  r ← unwrap (aead_encrypt k (nonce_bytes n) ad plaintext);
  Ok (r.1 ++ r.2).

Definition decrypt_n (k : list Z) (n : Z) (ad ciphertext : list Z) : Result (list Z) :=
  if decide (zlen ciphertext < TAG_LEN) then Err Truncated else
  ct ← slice ciphertext 0 (zlen ciphertext - TAG_LEN);
  tag ← slice_from ciphertext (zlen ciphertext - TAG_LEN);
  ok_or (aead_decrypt k (nonce_bytes n) ad ct tag) AuthFailed.

Definition encrypt_with_ad (ad plaintext : list Z) : St CipherState Error (list Z) := fun c =>
  match cs_k c with
  | None => (c, Ok plaintext)
  | Some k =>
      match encrypt_n k (cs_n c) ad plaintext with
      | Ok out => (mkCipherState (cs_k c) (u64 (cs_n c + 1)), Ok out)
      | r => (c, r)
      end
  end.

Definition decrypt_with_ad (ad ciphertext : list Z) : St CipherState Error (list Z) := fun c =>
  match cs_k c with
  | None => (c, Ok ciphertext)
  | Some k =>
      match decrypt_n k (cs_n c) ad ciphertext with
      | Ok out => (mkCipherState (cs_k c) (u64 (cs_n c + 1)), Ok out)
      | r => (c, r)
      end
  end.

(** ** [SymmetricState] *)

Definition hmac (key : list Z) (data : list (list Z)) : list Z := hmac_sha256 key (concat data).

Definition hkdf2 (ck ikm : list Z) : list Z * list Z :=
  let temp := hmac ck [ikm] in
  let o1 := hmac temp [[1]] in
  let o2 := hmac temp [o1; [2]] in
  (o1, o2).

Definition ss_new (protocol_name : list Z) : SymmetricState :=
  let h := if decide (zlen protocol_name <= 32)
           then protocol_name ++ replicate (32 - length protocol_name) 0
           else sha256 protocol_name in
  mkSymmetricState cs_empty h h.

Definition mix_key (ikm : list Z) (s : SymmetricState) : SymmetricState :=
  let '(ck, k) := hkdf2 (ss_ck s) ikm in
  mkSymmetricState (with_key k) ck (ss_h s).

Definition mix_hash (data : list Z) (s : SymmetricState) : SymmetricState :=
  mkSymmetricState (ss_cs s) (ss_ck s) (sha256 (ss_h s ++ data)).

Definition set_cs (c : CipherState) (s : SymmetricState) : SymmetricState :=
  mkSymmetricState c (ss_ck s) (ss_h s).

Definition encrypt_and_hash (plaintext : list Z) : St SymmetricState Error (list Z) :=
  h ← gets ss_h;
  ct ← zoom ss_cs set_cs (encrypt_with_ad h plaintext);
  modify (mix_hash ct);;
  mret ct.

Definition decrypt_and_hash (ciphertext : list Z) : St SymmetricState Error (list Z) :=
  h ← gets ss_h;
  pt ← zoom ss_cs set_cs (decrypt_with_ad h ciphertext);
  modify (mix_hash ciphertext);;
  mret pt.

Definition ss_split (s : SymmetricState) : CipherState * CipherState :=
  let '(k1, k2) := hkdf2 (ss_ck s) [] in (with_key k1, with_key k2).

Definition dh (secret public : list Z) : Result (list Z) :=
  let shared := x25519 secret public in
  if negb (was_contributory shared) then Err AuthFailed else Ok shared.

(** ** The XX handshake *)

Definition hs_new {R} `{RngCore R} (role : NoiseRole) (identity : Identity) (prologue : list Z)
    (rng : R) : HandshakeXX * R :=
  let ss := mix_hash prologue (ss_new PROTOCOL_NAME_XX) in
  let '(e, rng') := fill_bytes rng 32 in
  (mkHandshakeXX role ss (noise_static_secret identity) (noise_static_public (id_public identity))
     (public_key_bytes (id_public identity)) (Some e) (x25519_public e) None None 0 None, rng').

Definition identity_payload (h : HandshakeXX) (extra : list Z) : list Z := hs_ed_pub h ++ extra.

Definition on_ss {A} (m : St SymmetricState Error A) : St HandshakeXX Error A := zoom hs_ss set_ss m.

Definition verify_identity_payload (payload : list Z) : St HandshakeXX Error (list Z) :=
  ensure (bool_decide (32 <= zlen payload)) Truncated;;
  pk ← lift (slice payload 0 32);
  id ← lift (pubid_from_bytes pk);
  rs ← (o ← gets hs_rs; lift (ok_or o HandshakeState));
  ensure (bool_decide (noise_static_public id = rs)) AuthFailed;;
  modify (set_remote (Some id));;
  lift (slice_from payload 32).

Definition at_step (role : NoiseRole) (step : Z) (h : HandshakeXX) : bool :=
  bool_decide (hs_role h = role) && bool_decide (hs_step h = step).

Definition write_message_1 (payload : list Z) : St HandshakeXX Error (list Z) :=
  ok ← gets (at_step Initiator 0);
  ensure ok HandshakeState;;
  e_pub ← gets hs_e_pub;
  on_ss (modify (mix_hash e_pub));;
  ct ← on_ss (encrypt_and_hash payload);
  modify (set_step 1);;
  mret (e_pub ++ ct).

Definition read_message_1 (msg : list Z) : St HandshakeXX Error (list Z) :=
  ok ← gets (at_step Responder 0);
  ensure ok HandshakeState;;
  ensure (bool_decide (32 <= zlen msg)) Truncated;;
  re ← lift (slice msg 0 32);
  modify (set_re (Some re));;
  on_ss (modify (mix_hash re));;
  rest ← lift (slice_from msg 32);
  payload ← on_ss (decrypt_and_hash rest);
  modify (set_step 1);;
  mret payload.

Definition write_message_2 (extra : list Z) : St HandshakeXX Error (list Z) :=
  ok ← gets (at_step Responder 1);
  ensure ok HandshakeState;;
  re ← (o ← gets hs_re; lift (ok_or o HandshakeState));
  e ← (o ← gets hs_e; lift (ok_or o HandshakeState));
  e_pub ← gets hs_e_pub;
  on_ss (modify (mix_hash e_pub));;
  ee ← lift (dh e re);
  on_ss (modify (mix_key ee));;
  s_pub ← gets hs_s_pub;
  ct_s ← on_ss (encrypt_and_hash s_pub);
  s ← gets hs_s;
  es ← lift (dh s re);
  on_ss (modify (mix_key es));;
  payload ← gets (fun h => identity_payload h extra);
  ct ← on_ss (encrypt_and_hash payload);
  modify (set_step 2);;
  mret (e_pub ++ ct_s ++ ct).

Definition read_message_2 (msg : list Z) : St HandshakeXX Error (list Z) :=
  ok ← gets (at_step Initiator 1);
  ensure ok HandshakeState;;
  ensure (bool_decide (32 + 48 + 16 <= zlen msg)) Truncated;;
  e ← (o ← gets hs_e; lift (ok_or o HandshakeState));
  re ← lift (slice msg 0 32);
  modify (set_re (Some re));;
  on_ss (modify (mix_hash re));;
  ee ← lift (dh e re);
  on_ss (modify (mix_key ee));;
  enc_s ← lift (slice msg 32 80);
  rs_bytes ← on_ss (decrypt_and_hash enc_s);
  rs ← lift (copy_from_slice 32 rs_bytes);
  modify (set_rs (Some rs));;
  es ← lift (dh e rs);
  on_ss (modify (mix_key es));;
  rest ← lift (slice_from msg 80);
  payload ← on_ss (decrypt_and_hash rest);
  extra ← verify_identity_payload payload;
  modify (set_step 2);;
  mret extra.

Definition write_message_3 (extra : list Z) : St HandshakeXX Error (list Z) :=
  ok ← gets (at_step Initiator 2);
  ensure ok HandshakeState;;
  re ← (o ← gets hs_re; lift (ok_or o HandshakeState));
  s_pub ← gets hs_s_pub;
  ct_s ← on_ss (encrypt_and_hash s_pub);
  s ← gets hs_s;
  se ← lift (dh s re);
  on_ss (modify (mix_key se));;
  payload ← gets (fun h => identity_payload h extra);
  ct ← on_ss (encrypt_and_hash payload);
  modify (set_step 3);;
  mret (ct_s ++ ct).

Definition read_message_3 (msg : list Z) : St HandshakeXX Error (list Z) :=
  ok ← gets (at_step Responder 2);
  ensure ok HandshakeState;;
  ensure (bool_decide (48 + 16 <= zlen msg)) Truncated;;
  e ← (o ← gets hs_e; lift (ok_or o HandshakeState));
  enc_s ← lift (slice msg 0 48);
  rs_bytes ← on_ss (decrypt_and_hash enc_s);
  rs ← lift (copy_from_slice 32 rs_bytes);
  modify (set_rs (Some rs));;
  se ← lift (dh e rs);
  on_ss (modify (mix_key se));;
  rest ← lift (slice_from msg 48);
  payload ← on_ss (decrypt_and_hash rest);
  extra ← verify_identity_payload payload;
  modify (set_step 3);;
  mret extra.

(** [finish] consumes the handshake. *)
Definition finish (h : HandshakeXX) : Result (TransportKeys * PublicIdentity) :=
  if decide (hs_step h <> 3) then Err HandshakeState else
  let '(c1, c2) := ss_split (hs_ss h) in
  let '(send, recv) := match hs_role h with Initiator => (c1, c2) | Responder => (c2, c1) end in
  remote ← ok_or (hs_remote h) HandshakeState;
  ks ← unwrap (cs_k send);
  kr ← unwrap (cs_k recv);
  Ok (mkTransportKeys ks kr (ss_h (hs_ss h)), remote).

(** ** The one-way X message *)

Definition x_seal {R} `{RngCore R} (sender : Identity) (recipient : PublicIdentity)
    (prologue payload : list Z) (rng : R) : Result (list Z) * R :=
  let ss := mix_hash prologue (ss_new PROTOCOL_NAME_X) in
  let rs := noise_static_public recipient in
  let ss := mix_hash rs ss in
  let '(e, rng') := fill_bytes rng 32 in
  let e_pub := x25519_public e in
  let ss := mix_hash e_pub ss in
  (es ← dh e rs;
   '(ss, ct_s) ← exec (encrypt_and_hash (noise_static_public (id_public sender))) (mix_key es ss);
   sk ← dh (noise_static_secret sender) rs;
   '(ss, ct) ← exec (encrypt_and_hash (public_key_bytes (id_public sender) ++ payload)) (mix_key sk ss);
   Ok (e_pub ++ ct_s ++ ct), rng').

Definition x_open (recipient : Identity) (prologue msg : list Z) : Result (PublicIdentity * list Z) :=
  if decide (zlen msg < 32 + 48 + 32 + 16) then Err Truncated else
  let ss := mix_hash prologue (ss_new PROTOCOL_NAME_X) in
  let ss := mix_hash (noise_static_public (id_public recipient)) ss in
  re ← slice msg 0 32;
  let ss := mix_hash re ss in
  es ← dh (noise_static_secret recipient) re;
  enc_s ← slice msg 32 80;
  '(ss, rs_bytes) ← exec (decrypt_and_hash enc_s) (mix_key es ss);
  rs ← copy_from_slice 32 rs_bytes;
  sk ← dh (noise_static_secret recipient) rs;
  rest ← slice_from msg 80;
  '(ss, body) ← exec (decrypt_and_hash rest) (mix_key sk ss);
  if decide (zlen body < 32) then Err Truncated else
  pk ← slice body 0 32;
  sender ← pubid_from_bytes pk;
  if decide (noise_static_public sender <> rs) then Err AuthFailed else
  rest ← slice_from body 32;
  Ok (sender, rest).
End Noise.

(** ** Both sides compute the same symmetric state *)

(** Run a monadic method on a known state. *)
Ltac st_run :=
  unfold on_ss, zoom, ensure, gets, modify, lift, fail, mret, mbind, St_bind, St_ret.

Section NoiseFacts.
Context `{C : CryptoLib, !CryptoLibLaws C}.

(** Bytes the cipher adds to a message. *)
Definition overhead (s : SymmetricState) : Z := if cs_k (ss_cs s) then TAG_LEN else 0.

Lemma encrypt_n_spec k n ad pt :
  zlen pt < 2 ^ 32 ->
  exists ct, encrypt_n k n ad pt = Ok ct /\ zlen ct = zlen pt + TAG_LEN /\ decrypt_n k n ad ct = Ok pt.
Proof.
  intros Hlt. destruct (aead_total k (nonce_bytes n) ad pt Hlt) as [[ct tag] Hct].
  destruct (aead_encrypt_len _ _ _ _ _ _ Hct) as [Hl Ht].
  assert (zlen tag = 16 /\ zlen ct = zlen pt) as [Hzt Hzc] by (unfold zlen; split; lia).
  unfold encrypt_n, decrypt_n, TAG_LEN. rewrite Hct. simpl. eexists. split; [done|].
  rewrite zlen_app, Hzt. split; [lia|]. pose proof (zlen_nonneg ct).
  rewrite decide_False by lia. replace (zlen ct + 16 - 16) with (zlen ct) by lia.
  rewrite slice_here by done. simpl. rewrite slice_from_app by done. simpl.
  by rewrite (aead_correct _ _ _ _ _ _ Hct).
Qed.

Lemma decrypt_n_len k n ad ct pt : decrypt_n k n ad ct = Ok pt -> zlen pt = zlen ct - TAG_LEN.
Proof.
  unfold decrypt_n. case_decide; [done|]. intros Hd. inv_ok Hd.
  match goal with H : slice ct 0 _ = Ok _ |- _ => apply slice_zlen in H as Hz end.
  unfold ok_or in Hd. case_match eqn:Ha; [|done]. simplify_eq.
  apply aead_decrypt_len in Ha. unfold zlen in *. lia.
Qed.

(** Whatever one side encrypts, the other decrypts from the same symmetric
    state, and both reach the same next state. *)
Lemma encrypt_and_hash_spec s pt :
  zlen pt < 2 ^ 32 ->
  exists ct s', encrypt_and_hash pt s = (s', Ok ct) /\ decrypt_and_hash ct s = (s', Ok pt) /\
    zlen ct = zlen pt + overhead s /\ overhead s' = overhead s.
Proof.
  intros Hlt. unfold encrypt_and_hash, decrypt_and_hash, encrypt_with_ad, decrypt_with_ad. st_run. destruct (cs_k (ss_cs s)) as [k|] eqn:Ek.
  - destruct (encrypt_n_spec k (cs_n (ss_cs s)) (ss_h s) pt Hlt) as (ct & He & Hz & Hd).
    rewrite He. exists ct. rewrite Hd. eexists. unfold overhead. simpl. by rewrite Ek.
  - eexists _, _. split; [reflexivity|]. split; [reflexivity|]. unfold overhead. simpl. rewrite Ek. split; [lia|done].
Qed.

(** A decrypted string is shorter than what came in by the tag. *)
Lemma decrypt_and_hash_len s ct s' pt :
  decrypt_and_hash ct s = (s', Ok pt) -> zlen pt = zlen ct - overhead s.
Proof.
  unfold decrypt_and_hash, overhead, decrypt_with_ad. st_run.
  destruct (cs_k (ss_cs s)) as [k|].
  - destruct (decrypt_n _ _ _ _) eqn:Hd; intros; simplify_eq/=. by apply decrypt_n_len in Hd.
  - intros; simplify_eq/=. lia.
Qed.

Lemma dh_agree a b :
  was_contributory (x25519 a (x25519_public b)) = true ->
  dh a (x25519_public b) = Ok (x25519 a (x25519_public b)) /\
  dh b (x25519_public a) = Ok (x25519 a (x25519_public b)).
Proof. intros Hc. unfold dh. rewrite (x25519_comm b a), Hc. done. Qed.

Lemma overhead_mix_key k s : overhead (mix_key k s) = 16.
Proof. done. Qed.

Lemma copy_from_slice_ok {E A} n (l : list A) : length l = n -> @copy_from_slice E A n l = Ok l.
Proof. intros H. unfold copy_from_slice. by rewrite decide_True. Qed.

(** The identity a payload proves, from the peer's own public half. *)
Lemma verify_identity_payload_spec (i : Identity) (h : HandshakeXX) extra :
  identity_ok i -> hs_rs h = Some (noise_static_public (id_public i)) ->
  verify_identity_payload (public_key_bytes (id_public i) ++ extra) h =
  (set_remote (Some (id_public i)) h, Ok extra).
Proof.
  intros Hi Hrs. pose proof (identity_ok_inv i Hi) as [Hp _].
  assert (zlen (public_key_bytes (id_public i)) = 32) as Hz.
  { rewrite Hp. unfold public_key_bytes, zlen. simpl. by rewrite ed_public_len. }
  pose proof (zlen_nonneg extra).
  unfold verify_identity_payload. rewrite (bool_decide_true (32 <= _)) by zlens.
  st_run. rewrite slice_here by done.
  rewrite identity_pubid by done. rewrite Hrs. simpl. rewrite bool_decide_true by done.
  by rewrite slice_from_app by done.
Qed.
End NoiseFacts.

#[global] Opaque encrypt_and_hash decrypt_and_hash.
#[global] Arguments mix_hash : simpl never.
#[global] Arguments mix_key : simpl never.
#[global] Arguments Z.pow : simpl never.

Section Handshake.
Context `{C : CryptoLib, !CryptoLibLaws C}.
(** The two identities and the two ephemeral secrets. *)
Context (a b : Identity) (ea eb : list Z).
Hypothesis (Ha : identity_ok a) (Hb : identity_ok b).

Let sa := noise_static_secret a.
Let sb := noise_static_secret b.
Definition initiator ss re rs step remote : HandshakeXX :=
  mkHandshakeXX Initiator ss (noise_static_secret a) (noise_static_public (id_public a))
    (public_key_bytes (id_public a)) (Some ea) (x25519_public ea) re rs step remote.
Definition responder ss re rs step remote : HandshakeXX :=
  mkHandshakeXX Responder ss (noise_static_secret b) (noise_static_public (id_public b))
    (public_key_bytes (id_public b)) (Some eb) (x25519_public eb) re rs step remote.

Lemma zlen_public s : zlen (x25519_public s) = 32.
Proof. unfold zlen. by rewrite x25519_public_len. Qed.

Lemma static_public i : identity_ok i -> noise_static_public (id_public i) = x25519_public (noise_static_secret i).
Proof. intros Hi. destruct (identity_ok_inv i Hi) as [-> _]. done. Qed.

Lemma zlen_key i : identity_ok i -> zlen (public_key_bytes (id_public i)) = 32.
Proof.
  intros Hi. destruct (identity_ok_inv i Hi) as [-> _]. unfold zlen, public_key_bytes. simpl. by rewrite ed_public_len.
Qed.

Lemma message_1 ss p :
  zlen p < 2 ^ 32 ->
  exists m ss', write_message_1 p (initiator ss None None 0 None) = (initiator ss' None None 1 None, Ok m) /\
    read_message_1 m (responder ss None None 0 None) = (responder ss' (Some (x25519_public ea)) None 1 None, Ok p).
Proof.
  intros Hp. destruct (encrypt_and_hash_spec (mix_hash (x25519_public ea) ss) p Hp) as (ct & s' & He & Hd & Hz & _).
  pose proof (zlen_public ea). pose proof (zlen_nonneg ct).
  exists (x25519_public ea ++ ct), s'. unfold write_message_1, read_message_1. st_run. simpl. rewrite He.
  split; [done|]. rewrite bool_decide_true by zlens. rewrite slice_here by done. simpl.
  rewrite slice_from_app by done. by rewrite Hd.
Qed.

Lemma message_2 ss p :
  zlen p + 32 < 2 ^ 32 ->
  was_contributory (x25519 eb (x25519_public ea)) = true ->
  was_contributory (x25519 sb (x25519_public ea)) = true ->
  exists m ss', write_message_2 p (responder ss (Some (x25519_public ea)) None 1 None)
      = (responder ss' (Some (x25519_public ea)) None 2 None, Ok m) /\
    overhead ss' = 16 /\
    read_message_2 m (initiator ss None None 1 None)
      = (initiator ss' (Some (x25519_public eb)) (Some (noise_static_public (id_public b))) 2 (Some (id_public b)), Ok p).
Proof.
  intros Hp Hee Hes. destruct (dh_agree eb ea Hee) as [Dee Dee']. destruct (dh_agree sb ea Hes) as [Des Des'].
  pose proof (zlen_public ea). pose proof (zlen_public eb).
  assert (Hzs : zlen (noise_static_public (id_public b)) = 32) by (rewrite static_public by done; apply zlen_public).
  pose proof (zlen_key b Hb) as Hzk.
  destruct (encrypt_and_hash_spec (mix_key (x25519 eb (x25519_public ea)) (mix_hash (x25519_public eb) ss))
    (noise_static_public (id_public b)) ltac:(lia)) as (ct1 & s1 & He1 & Hd1 & Hz1 & _).
  rewrite overhead_mix_key in Hz1.
  destruct (encrypt_and_hash_spec (mix_key (x25519 sb (x25519_public ea)) s1)
    (public_key_bytes (id_public b) ++ p) ltac:(rewrite zlen_app; lia)) as (ct2 & s2 & He2 & Hd2 & Hz2 & Hck).
  rewrite overhead_mix_key, zlen_app in Hz2. pose proof (zlen_nonneg p).
  exists (x25519_public eb ++ ct1 ++ ct2), s2. unfold write_message_2, read_message_2, sb in *. st_run. simpl.
  rewrite Dee, He1. simpl. rewrite Des. unfold identity_payload. simpl. rewrite He2.
  split; [done|]. split; [by rewrite Hck|]. rewrite bool_decide_true by zlens. rewrite slice_here by done. simpl.
  rewrite Dee'. simpl. rewrite slice_mid by lia. rewrite Hd1. simpl.
  rewrite copy_from_slice_ok by (unfold zlen in *; lia). simpl. rewrite (static_public b Hb), Des'. simpl.
  rewrite app_assoc, slice_from_app by zlens. rewrite Hd2. simpl.
  rewrite verify_identity_payload_spec by (done || by rewrite static_public). done.
Qed.

Lemma message_3 ss p :
  zlen p + 32 < 2 ^ 32 ->
  was_contributory (x25519 sa (x25519_public eb)) = true ->
  exists m ss',
    write_message_3 p (initiator ss (Some (x25519_public eb)) (Some (noise_static_public (id_public b))) 2 (Some (id_public b)))
      = (initiator ss' (Some (x25519_public eb)) (Some (noise_static_public (id_public b))) 3 (Some (id_public b)), Ok m) /\
    (overhead ss = 16 ->
     read_message_3 m (responder ss (Some (x25519_public ea)) None 2 None)
      = (responder ss' (Some (x25519_public ea)) (Some (noise_static_public (id_public a))) 3 (Some (id_public a)), Ok p)).
Proof.
  intros Hp Hse. destruct (dh_agree sa eb Hse) as [Dse Dse'].
  assert (Hzs : zlen (noise_static_public (id_public a)) = 32) by (rewrite static_public by done; apply zlen_public).
  pose proof (zlen_key a Ha) as Hzk. pose proof (zlen_nonneg p).
  destruct (encrypt_and_hash_spec ss (noise_static_public (id_public a)) ltac:(lia)) as (ct1 & s1 & He1 & Hd1 & Hz1 & _).
  destruct (encrypt_and_hash_spec (mix_key (x25519 sa (x25519_public eb)) s1)
    (public_key_bytes (id_public a) ++ p) ltac:(rewrite zlen_app; lia)) as (ct2 & s2 & He2 & Hd2 & Hz2 & _).
  rewrite overhead_mix_key, zlen_app in Hz2.
  exists (ct1 ++ ct2), s2. unfold write_message_3, read_message_3, sa in *. st_run. simpl.
  rewrite He1. simpl. rewrite Dse. unfold identity_payload. simpl. rewrite He2. split; [done|].
  intros Ho. rewrite bool_decide_true by zlens. rewrite slice_here by lia. simpl. rewrite Hd1. simpl.
  rewrite copy_from_slice_ok by (unfold zlen in *; lia). simpl. rewrite (static_public a Ha), Dse'. simpl.
  rewrite slice_from_app by zlens. simpl. rewrite Hd2. simpl.
  rewrite verify_identity_payload_spec by (done || by rewrite static_public). done.
Qed.
End Handshake.

(** ** The whole exchange *)

Section Exchange.
Context `{C : CryptoLib}.

(** The six calls of an undisturbed handshake, in order, then both [finish]. *)
Definition xx_exchange (hi hr : HandshakeXX) (p1 p2 p3 : list Z) :
    Result ((list Z * list Z * list Z) * (TransportKeys * PublicIdentity) * (TransportKeys * PublicIdentity)) :=
  '(hi, m1) ← exec (write_message_1 p1) hi;
  '(hr, q1) ← exec (read_message_1 m1) hr;
  '(hr, m2) ← exec (write_message_2 p2) hr;
  '(hi, q2) ← exec (read_message_2 m2) hi;
  '(hi, m3) ← exec (write_message_3 p3) hi;
  '(hr, q3) ← exec (read_message_3 m3) hr;
  ki ← finish hi;
  kr ← finish hr;
  Ok ((q1, q2, q3), ki, kr).

Context `{!CryptoLibLaws C}.

Lemma exec_ok {S E A} (m : St S E A) s s' x : m s = (s', Ok x) -> exec m s = Ok (s', x).
Proof. intros H. unfold exec. by rewrite H. Qed.

(** C25. An undisturbed XX handshake between two identities sharing a prologue
    succeeds on both sides, delivers the three payloads, gives each side the
    other's identity, keys that match crosswise and the same channel binding;
    it needs only that the three exchanged secrets are contributory. *)
Theorem xx_handshake_agrees {R} `{RngCoreLaws R} (a b : Identity) (prologue p1 p2 p3 : list Z) (ra rb : R) :
  identity_ok a -> identity_ok b ->
  zlen p1 < 2 ^ 32 -> zlen p2 + 32 < 2 ^ 32 -> zlen p3 + 32 < 2 ^ 32 ->
  let ea := (fill_bytes ra 32).1 in
  let eb := (fill_bytes rb 32).1 in
  was_contributory (x25519 eb (x25519_public ea)) = true ->
  was_contributory (x25519 (noise_static_secret b) (x25519_public ea)) = true ->
  was_contributory (x25519 (noise_static_secret a) (x25519_public eb)) = true ->
  exists ki kr,
    xx_exchange (hs_new Initiator a prologue ra).1 (hs_new Responder b prologue rb).1 p1 p2 p3
    = Ok ((p1, p2, p3), (ki, id_public b), (kr, id_public a)) /\
    tk_send ki = tk_recv kr /\ tk_recv ki = tk_send kr /\ tk_handshake_hash ki = tk_handshake_hash kr.
Proof.
  intros Ha Hb H1 H2 H3 ea eb Hee Hes Hse.
  set (ss := mix_hash prologue (ss_new PROTOCOL_NAME_XX)).
  assert ((hs_new Initiator a prologue ra).1 = initiator a ea ss None None 0 None) as ->.
  { unfold hs_new, initiator, ea, ss. by destruct (fill_bytes ra 32). }
  assert ((hs_new Responder b prologue rb).1 = responder b eb ss None None 0 None) as ->.
  { unfold hs_new, responder, eb, ss. by destruct (fill_bytes rb 32). }
  destruct (message_1 a b ea eb ss p1 H1) as (m1 & s1 & W1 & R1).
  destruct (message_2 a b ea eb Hb s1 p2 H2 Hee Hes) as (m2 & s2 & W2 & Ho & R2).
  destruct (message_3 a b ea eb Ha s2 p3 H3 Hse) as (m3 & s3 & W3 & R3). specialize (R3 Ho).
  unfold xx_exchange.
  rewrite (exec_ok _ _ _ _ W1). simpl. rewrite (exec_ok _ _ _ _ R1). simpl.
  rewrite (exec_ok _ _ _ _ W2). simpl. rewrite (exec_ok _ _ _ _ R2). simpl.
  rewrite (exec_ok _ _ _ _ W3). simpl. rewrite (exec_ok _ _ _ _ R3). simpl.
  eexists _, _. split; [reflexivity|]. done.
Qed.

(** ** One-way messages *)

Lemma x_seal_open {R} `{RngCoreLaws R} (sender recipient : Identity) (prologue payload : list Z) (rng : R) :
  identity_ok sender -> identity_ok recipient -> zlen payload + 32 < 2 ^ 32 ->
  let e := (fill_bytes rng 32).1 in
  was_contributory (x25519 e (noise_static_public (id_public recipient))) = true ->
  was_contributory (x25519 (noise_static_secret sender) (noise_static_public (id_public recipient))) = true ->
  exists msg, (x_seal sender (id_public recipient) prologue payload rng).1 = Ok msg /\
    zlen msg = zlen payload + 128 /\
    x_open recipient prologue msg = Ok (id_public sender, payload).
Proof.
  intros Hs Hr Hp e Hes Hss. unfold x_seal, x_open. subst e. destruct (fill_bytes rng 32) as [e rng']. simpl in *.
  rewrite !(static_public recipient Hr) in *.
  destruct (dh_agree _ _ Hes) as [-> D1']. destruct (dh_agree _ _ Hss) as [D2 D2'].
  pose proof (zlen_public e) as Hze. pose proof (zlen_key sender Hs) as Hzk. pose proof (zlen_nonneg payload).
  assert (Hzs : zlen (noise_static_public (id_public sender)) = 32) by (rewrite static_public by done; apply zlen_public).
  cbn [mbind outcome_bind].
  match goal with |- context [mix_key _ ?s] =>
    destruct (encrypt_and_hash_spec (mix_key (x25519 e (x25519_public (noise_static_secret recipient))) s)
    (noise_static_public (id_public sender)) ltac:(lia)) as (ct1 & s1 & He1 & Hd1 & Hz1 & _) end.
  rewrite overhead_mix_key in Hz1. rewrite (exec_ok _ _ _ _ He1). cbn [mbind outcome_bind]. rewrite D2. cbn [mbind outcome_bind].
  destruct (encrypt_and_hash_spec (mix_key (x25519 (noise_static_secret sender) (x25519_public (noise_static_secret recipient))) s1)
    (public_key_bytes (id_public sender) ++ payload) ltac:(zlens)) as (ct2 & s2 & He2 & Hd2 & Hz2 & _).
  rewrite overhead_mix_key, zlen_app in Hz2. rewrite (exec_ok _ _ _ _ He2). cbn [mbind outcome_bind].
  eexists. split; [done|]. split; [zlens|]. codec.
  rewrite D1'. cbn [mbind outcome_bind].  codec. rewrite (exec_ok _ _ _ _ Hd1). cbn [mbind outcome_bind].
  rewrite copy_from_slice_ok by (unfold zlen in *; lia). cbn [mbind outcome_bind].
  rewrite (static_public sender Hs), D2'. cbn [mbind outcome_bind].
  codec. rewrite (exec_ok _ _ _ _ Hd2). cbn [mbind outcome_bind]. codec.
  rewrite identity_pubid by done. cbn [mbind outcome_bind]. rewrite (static_public sender Hs).
  rewrite decide_False by (by intros []). codec. done.
Qed.

(** ** What a reader guarantees on any input *)

Lemma wp_decrypt_and_hash ct s (Q : SymmetricState -> list Z -> Prop) :
  (forall s' pt, zlen pt = zlen ct - overhead s -> Q s' pt) -> wp (decrypt_and_hash ct) Q s.
Proof.
  intros HQ. unfold wp. destruct (decrypt_and_hash ct s) as [s' [pt|e|]] eqn:Hd; [|done|].
  - apply HQ. by eapply decrypt_and_hash_len.
  - Transparent decrypt_and_hash.
    unfold decrypt_and_hash, decrypt_with_ad, decrypt_n, TAG_LEN in Hd. revert Hd. st_run.
    pose proof (zlen_nonneg ct). destruct (cs_k (ss_cs s)); [|done]. case_decide; [done|].
    rewrite slice_in by lia. unfold slice_from. cbn [mbind outcome_bind]. rewrite slice_in by lia.
    cbn [mbind outcome_bind]. destruct (aead_decrypt _ _ _ _ _); done.
    Opaque decrypt_and_hash.
Qed.

Lemma safe_dh s p : safe (dh s p).
Proof. unfold dh. by destruct (was_contributory _). Qed.
Lemma safe_pubid pk : safe (pubid_from_bytes pk).
Proof. unfold pubid_from_bytes. by destruct (ed_decodes pk), (ed_is_weak pk). Qed.
Lemma safe_copy_from_slice {A} n (l : list A) : length l = n -> safe (@copy_from_slice Error A n l).
Proof. intros H. by rewrite copy_from_slice_ok. Qed.

(** The peer identity is bound to the static key that was decrypted. *)
Definition authenticated (h : HandshakeXX) : Prop :=
  exists id, hs_remote h = Some id /\ pubid_ok id /\ hs_rs h = Some (noise_static_public id).

Lemma wp_verify_identity payload h (Q : HandshakeXX -> list Z -> Prop) :
  (forall h' extra, authenticated h' -> hs_step h' = hs_step h -> Q h' extra) ->
  wp (verify_identity_payload payload) Q h.
Proof.
  intros HQ. unfold verify_identity_payload. repeat wp_step; try apply safe_pubid; try apply safe_ok_or.
  - apply bool_decide_eq_true in H. by apply safe_slice.
  - apply bool_decide_eq_true in H. apply safe_slice_from. lia.
  - apply HQ; [|done]. unfold ok_or in H2. destruct (hs_rs h) eqn:Ers; [|done]. simplify_eq.
    apply bool_decide_eq_true in H3. eexists. split; [done|]. split.
    + by eapply pubid_from_bytes_inv.
    + simpl. congruence.
Qed.

Ltac read_step :=
  first
    [ wp_step
    | apply wp_decrypt_and_hash; intros ? ? ?
    | apply wp_verify_identity; intros ? ? ? ?
    | apply safe_dh | apply safe_ok_or ].

Ltac guards :=
  repeat match goal with
  | H : bool_decide _ = true |- _ => apply bool_decide_eq_true in H
  | H : slice _ _ _ = Ok _ |- _ => apply slice_zlen in H
  end.

Lemma wp_read_message_2 msg h :
  wp (read_message_2 msg) (fun h' _ => at_step Initiator 1 h = true /\ hs_step h' = 2 /\ authenticated h') h.
Proof.
  unfold read_message_2, on_ss. repeat read_step; guards.
  - apply safe_slice. lia.
  - apply safe_slice. lia.
  - apply safe_copy_from_slice. simpl in *. rewrite overhead_mix_key in *. unfold zlen in *. lia.
  - apply safe_slice_from. lia.
  - done.
Qed.

Lemma wp_read_message_3 msg h :
  overhead (hs_ss h) = 16 ->
  wp (read_message_3 msg) (fun h' _ => at_step Responder 2 h = true /\ hs_step h' = 3 /\ authenticated h') h.
Proof.
  intros Ho. unfold read_message_3, on_ss. repeat read_step; guards.
  - apply safe_slice. lia.
  - apply safe_copy_from_slice. simpl in *. unfold zlen in *. lia.
  - apply safe_slice_from. lia.
  - done.
Qed.

(** ** Reachable handshakes *)

Inductive hs_call :=
| W1 (payload : list Z) | R1 (msg : list Z) | W2 (extra : list Z)
| R2 (msg : list Z) | W3 (extra : list Z) | R3 (msg : list Z).

Definition run_call (c : hs_call) : St HandshakeXX Error (list Z) :=
  match c with
  | W1 p => write_message_1 p | R1 m => read_message_1 m
  | W2 p => write_message_2 p | R2 m => read_message_2 m
  | W3 p => write_message_3 p | R3 m => read_message_3 m
  end.

(** Where a call is allowed: its side and its step. *)
Definition call_at (c : hs_call) : NoiseRole * Z :=
  match c with
  | W1 _ => (Initiator, 0) | R1 _ => (Responder, 0) | W2 _ => (Responder, 1)
  | R2 _ => (Initiator, 1) | W3 _ => (Initiator, 2) | R3 _ => (Responder, 2)
  end.

(** States met by calling the methods in any order on any input, failed calls
    included. *)
Inductive reachable {R} `{RngCore R} : HandshakeXX -> Prop :=
| reach_new role identity prologue (rng : R) : reachable (hs_new role identity prologue rng).1
| reach_call c h : reachable h -> reachable (run_call c h).1.

(** From step 2 on the symmetric state has a key. *)
Definition keyed (h : HandshakeXX) : Prop :=
  0 <= hs_step h <= 3 /\ (2 <= hs_step h -> overhead (hs_ss h) = 16).

Lemma wpx_encrypt_and_hash pt s (Q : SymmetricState -> list Z -> Prop) X :
  (forall s' ct, overhead s' = overhead s -> Q s' ct) -> X s -> wpx (encrypt_and_hash pt) Q X s.
Proof.
  Transparent encrypt_and_hash. intros HQ HX. unfold wpx, encrypt_and_hash, encrypt_with_ad. st_run.
  destruct (cs_k (ss_cs s)) as [k|] eqn:Ek; [destruct (encrypt_n _ _ _ _)|].
  - apply HQ. unfold overhead. simpl. by rewrite Ek.
  - by destruct s.
  - by destruct s.
  - apply HQ. unfold overhead. simpl. by rewrite Ek.
  Opaque encrypt_and_hash.
Qed.

Lemma wpx_decrypt_and_hash ct s (Q : SymmetricState -> list Z -> Prop) X :
  (forall s' pt, overhead s' = overhead s -> Q s' pt) -> X s -> wpx (decrypt_and_hash ct) Q X s.
Proof.
  Transparent decrypt_and_hash. intros HQ HX. unfold wpx, decrypt_and_hash, decrypt_with_ad. st_run.
  destruct (cs_k (ss_cs s)) as [k|] eqn:Ek; [destruct (decrypt_n _ _ _ _)|].
  - apply HQ. unfold overhead. simpl. by rewrite Ek.
  - by destruct s.
  - by destruct s.
  - apply HQ. unfold overhead. simpl. by rewrite Ek.
  Opaque decrypt_and_hash.
Qed.

Ltac call_step :=
  first
    [ wpx_step
    | apply wpx_encrypt_and_hash; [intros ? ? ?|]
    | apply wpx_decrypt_and_hash; [intros ? ? ?|] ].

(** Close the leaves: the step did not move yet, or a key was mixed in. *)
Ltac keyed_leaf :=
  unfold keyed, at_step in *; simpl in *;
  repeat match goal with
  | H : bool_decide _ && bool_decide _ = true |- _ =>
      apply andb_true_iff in H as [?%bool_decide_eq_true ?%bool_decide_eq_true]
  | H : ?x = ?y :> SymmetricState |- _ => rewrite H in *
  end;
  rewrite ?overhead_mix_key in *; intuition (lia || congruence).

Lemma run_call_keyed c h : keyed h -> keyed (run_call c h).1.
Proof.
  intros Hk. apply wpx_final.
  destruct c; simpl; unfold write_message_1, read_message_1, write_message_2, read_message_2,
    write_message_3, read_message_3, verify_identity_payload, on_ss;
    repeat call_step; keyed_leaf.
Qed.

Lemma reachable_keyed {R} `{RngCore R} h : reachable (R := R) h -> keyed h.
Proof.
  induction 1 as [role i p rng|c h _ IH].
  - unfold hs_new. destruct (fill_bytes rng 32). unfold keyed. simpl. lia.
  - by apply run_call_keyed.
Qed.

Definition is_read (c : hs_call) : bool :=
  match c with R1 _ | R2 _ | R3 _ => true | _ => false end.

Lemma wp_read_message_1 msg h : wp (read_message_1 msg) (fun _ _ => True) h.
Proof.
  unfold read_message_1, on_ss. repeat read_step; guards.
  - apply safe_slice. lia.
  - apply safe_slice_from. lia.
  - done.
Qed.

Lemma run_call_refused c h : call_at c <> (hs_role h, hs_step h) -> run_call c h = (h, Err HandshakeState).
Proof.
  intros Hc. destruct c; simpl in *; unfold write_message_1, read_message_1, write_message_2, read_message_2,
    write_message_3, read_message_3, at_step; st_run;
    repeat (case_bool_decide; simpl); congruence.
Qed.

Lemma run_call_advances c h h' out :
  run_call c h = (h', Ok out) -> hs_role h' = hs_role h /\ hs_step h' = hs_step h + 1.
Proof.
  intros Hr. enough (H : wpx (run_call c) (fun s _ => hs_role s = hs_role h /\ hs_step s = hs_step h + 1) (fun _ => True) h)
    by (unfold wpx in H; by rewrite Hr in H).
  clear Hr. destruct c; simpl; unfold write_message_1, read_message_1, write_message_2, read_message_2,
    write_message_3, read_message_3, verify_identity_payload, on_ss;
    repeat call_step; unfold at_step in *; simpl in *; try done;
    match goal with H : _ && _ = true |- _ =>
      apply andb_true_iff in H as [_ ?%bool_decide_eq_true] end; split; (done || lia).
Qed.

(** C26. In every handshake state reachable by calling the six methods in any
    order on any input: reading a message never panics; a call out of turn is
    refused and changes nothing; a call that succeeds advances the handshake by
    one step; and after reading the message that carries the peer's identity,
    that identity is the one whose key image is the authenticated static key. *)
Theorem handshake_state_machine {R} `{RngCore R} (h : HandshakeXX) (c : hs_call) :
  reachable (R := R) h ->
  (is_read c = true -> (run_call c h).2 <> Panic) /\
  (call_at c <> (hs_role h, hs_step h) -> run_call c h = (h, Err HandshakeState)) /\
  (forall h' out, run_call c h = (h', Ok out) ->
     hs_role h' = hs_role h /\ hs_step h' = hs_step h + 1 /\
     (is_read c = true -> 2 <= hs_step h' -> authenticated h')).
Proof.
  intros Hr. pose proof (reachable_keyed h Hr) as [Hs Hk]. split; [|split; [by apply run_call_refused|]].
  - intros Hc. destruct (decide (call_at c = (hs_role h, hs_step h))) as [E|E];
      [|by rewrite run_call_refused].
    destruct c; try done; simpl in *.
    + eapply wp_safe, wp_read_message_1.
    + eapply wp_safe, wp_read_message_2.
    + eapply wp_safe, wp_read_message_3, Hk. injection E. lia.
  - intros h' out Hc. pose proof (run_call_advances _ _ _ _ Hc) as [Hro Hst].
    split; [done|]. split; [done|]. intros Hread H2.
    destruct (decide (call_at c = (hs_role h, hs_step h))) as [E|E];
      [|by rewrite run_call_refused in Hc].
    destruct c; try done; simpl in *.
    + injection E. lia.
    + by destruct (wp_ok _ _ _ _ _ (wp_read_message_2 msg h) Hc) as (_ & _ & ?).
    + assert (Ho : overhead (hs_ss h) = 16) by (apply Hk; injection E; lia).
      by destruct (wp_ok _ _ _ _ _ (wp_read_message_3 msg h Ho) Hc) as (_ & _ & ?).
Qed.
End Exchange.

(** ** Sealed envelopes ([crypto/envelope.rs]) *)

Definition ENVELOPE_OVERHEAD : Z := 32 + 48 + 32 + 16.

(** [b"MeshStar/env/v1\0"], the destination and the envelope id. *)
Definition envelope_prologue (dst : Address) (envelope_id : Z) : list Z :=
  [77; 101; 115; 104; 83; 116; 97; 114; 47; 101; 110; 118; 47; 118; 49; 0] ++
  addr_bytes dst ++ be_bytes 4 envelope_id.

Section Envelope.
Context `{C : CryptoLib}.

Definition seal_envelope {R} `{RngCore R} (sender : Identity) (recipient : PublicIdentity)
    (envelope_id : Z) (body : list Z) (rng : R) : Result (list Z) * R :=
  x_seal sender recipient (envelope_prologue (pi_address recipient) envelope_id) body rng.

Definition open_envelope (recipient : Identity) (envelope_id : Z) (envelope : list Z) :
    Result (PublicIdentity * list Z) :=
  x_open recipient (envelope_prologue (id_address recipient) envelope_id) envelope.

Context `{!CryptoLibLaws C}.

(** An envelope sealed for a recipient is 128 bytes longer than its body
    and opens there, with the same envelope id, to the body and the sender's
    verified identity. *)
Theorem envelope_seal_open {R} `{RngCoreLaws R} (sender recipient : Identity) (envelope_id : Z)
    (body : list Z) (rng : R) :
  identity_ok sender -> identity_ok recipient -> zlen body + 32 < 2 ^ 32 ->
  was_contributory (x25519 (fill_bytes rng 32).1 (noise_static_public (id_public recipient))) = true ->
  was_contributory (x25519 (noise_static_secret sender) (noise_static_public (id_public recipient))) = true ->
  exists env, (seal_envelope sender (id_public recipient) envelope_id body rng).1 = Ok env /\
    zlen env = zlen body + ENVELOPE_OVERHEAD /\
    open_envelope recipient envelope_id env = Ok (id_public sender, body).
Proof. apply x_seal_open. Qed.

Lemma envelope_prologue_inj d1 d2 i1 i2 :
  address_ok d1 -> address_ok d2 -> in_u 32 i1 -> in_u 32 i2 ->
  envelope_prologue d1 i1 = envelope_prologue d2 i2 -> d1 = d2 /\ i1 = i2.
Proof.
  intros [Hl1 _] [Hl2 _] H1 H2 E. unfold envelope_prologue in E. apply app_inj_1 in E as [_ E]; [|done].
  apply app_inj_1 in E as [Ea Eb]; [|congruence]. split.
  - destruct d1, d2. by simpl in *; subst.
  - by rewrite <- (from_be_32 i1), <- (from_be_32 i2), Eb by done.
Qed.

Lemma exec_decrypt ct s s' pt :
  exec (decrypt_and_hash ct) s = Ok (s', pt) -> zlen pt = zlen ct - overhead s.
Proof.
  unfold exec. destruct (decrypt_and_hash ct s) as [s1 [x|e|]] eqn:E; intros [= <- <-].
  by eapply decrypt_and_hash_len.
Qed.

Lemma safe_exec_decrypt ct s : safe (exec (decrypt_and_hash ct) s).
Proof.
  pose proof (wp_safe _ _ _ (wp_decrypt_and_hash ct s (fun _ _ => True) ltac:(done))) as H.
  unfold safe, exec. destruct (decrypt_and_hash ct s) as [s1 [x|e|]]; done.
Qed.

Lemma open_envelope_safe recipient envelope_id msg : safe (open_envelope recipient envelope_id msg).
Proof.
  unfold open_envelope, x_open. apply safe_if; intros H; [done|].
  repeat (safe_step || apply safe_dh || apply safe_exec_decrypt || apply safe_pubid || case_match).
  simplify_eq. apply safe_copy_from_slice.
  match goal with H : exec _ _ = Ok _ |- _ => apply exec_decrypt in H end.
  match goal with H : slice _ 32 80 = Ok _ |- _ => apply slice_zlen in H end.
  rewrite overhead_mix_key in *. unfold zlen in *. lia.
Qed.

Lemma open_envelope_sender recipient envelope_id msg id body :
  open_envelope recipient envelope_id msg = Ok (id, body) -> pubid_ok id /\ zlen body = zlen msg - ENVELOPE_OVERHEAD.
Proof.
  unfold open_envelope, x_open, ENVELOPE_OVERHEAD. intros H. case_decide; [done|].
  repeat (inv_ok H; case_match; simplify_eq). inv_ok H. simplify_eq.
  repeat match goal with
  | H : exec _ _ = Ok _ |- _ => apply exec_decrypt in H
  | H : slice_from _ _ = Ok _ |- _ => unfold slice_from in H
  | H : slice _ _ _ = Ok _ |- _ => apply slice_zlen in H
  | H : pubid_from_bytes _ = Ok _ |- _ => apply pubid_from_bytes_inv in H as (_ & _ & _ & ?)
  end.
  rewrite overhead_mix_key in *. split; [done|lia].
Qed.

(** Opening an envelope never panics, whatever bytes arrive; anything
    shorter than the fixed overhead is reported as truncated, and a success
    names a sender identity that is valid for its key bytes.  The transcript
    binds destination and id: two different pairs have different prologues. *)
Theorem open_envelope_total (recipient : Identity) (envelope_id : Z) (msg : list Z) :
  open_envelope recipient envelope_id msg <> Panic /\
  (zlen msg < ENVELOPE_OVERHEAD -> open_envelope recipient envelope_id msg = Err Truncated) /\
  (forall id body, open_envelope recipient envelope_id msg = Ok (id, body) ->
     pubid_ok id /\ zlen body = zlen msg - ENVELOPE_OVERHEAD) /\
  (forall dst' id', in_u 32 envelope_id -> in_u 32 id' -> address_ok dst' -> address_ok (id_address recipient) ->
     envelope_prologue dst' id' = envelope_prologue (id_address recipient) envelope_id ->
     dst' = id_address recipient /\ id' = envelope_id).
Proof.
  split; [apply open_envelope_safe|]. split; [|split].
  - intros H. unfold open_envelope, x_open. by rewrite decide_True.
  - intros id body. apply open_envelope_sender.
  - intros. by apply envelope_prologue_inj.
Qed.
End Envelope.

(** ** Concrete runs *)

Module NoiseExamples.
Definition seeded (seed : list Z) : Identity :=
  mkIdentity seed (mkPublicIdentity (ToyCrypto.pub seed) (from_public_key (ToyCrypto.pub seed)) (ToyCrypto.pub seed)) seed.
Definition alice : Identity := seeded [17; 4].
Definition bob : Identity := seeded [99; 250].

Lemma alice_ok : identity_ok alice.
Proof. vm_compute. reflexivity. Qed.
Lemma bob_ok : identity_ok bob.
Proof. vm_compute. reflexivity. Qed.

Lemma xx_handshake_agrees_witness :
  exists ki kr,
    xx_exchange (hs_new Initiator alice [112] 5).1 (hs_new Responder bob [112] 9).1 [1] [2; 2] []
    = Ok (([1], [2; 2], []), (ki, id_public bob), (kr, id_public alice)) /\
    tk_send ki = tk_recv kr /\ tk_recv ki = tk_send kr /\ tk_handshake_hash ki = tk_handshake_hash kr.
Proof.
  apply (xx_handshake_agrees alice bob [112] [1] [2; 2] [] 5 9 alice_ok bob_ok); vm_compute; reflexivity.
Defined.

Lemma envelope_seal_open_witness :
  exists env, (seal_envelope alice (id_public bob) 7 [1; 2; 3] 4).1 = Ok env /\
    zlen env = 3 + ENVELOPE_OVERHEAD /\ open_envelope bob 7 env = Ok (id_public alice, [1; 2; 3]).
Proof.
  apply (envelope_seal_open alice bob 7 [1; 2; 3] 4 alice_ok bob_ok); vm_compute; reflexivity.
Defined.

Lemma open_envelope_total_witness :
  open_envelope bob 7 [1; 2; 3] = Err Truncated /\ open_envelope bob 7 (replicate 130 0) <> Panic.
Proof.
  split.
  - apply (open_envelope_total bob 7 [1; 2; 3]). vm_compute. reflexivity.
  - apply (open_envelope_total bob 7 (replicate 130 0)).
Defined.

(** The responder after the first message, and a second first message. *)
Definition responder_1 : HandshakeXX := (run_call (R1 (replicate 40 1)) (hs_new Responder bob [112] 9).1).1.
Lemma handshake_state_machine_witness :
  run_call (R1 (replicate 40 1)) responder_1 = (responder_1, Err HandshakeState).
Proof.
  refine (proj1 (proj2 (handshake_state_machine (R := Z) responder_1 (R1 (replicate 40 1)) _)) _).
  - apply reach_call, reach_new.
  - vm_compute. discriminate.
Defined.
End NoiseExamples.
