(* ===== verification/Replay.v ===== *)
(** * Sliding replay window

    [crates/meshstar-core/src/crypto/replay.rs]: [ReplayWindow] and its
    refinement of the set of counters accepted so far. *)
From stdpp Require Import base tactics list numbers sets.
From Stdlib Require Import Lia.
From S2P Require Import Prelude.

Record ReplayWindow := mkReplayWindow { top : Z; bitmap : Z; accepted_any : bool }.

Module ReplayWindow.
Definition SIZE : Z := 64.

Definition new : ReplayWindow := mkReplayWindow 0 0 false.

Definition check (w : ReplayWindow) (ctr : Z) : bool :=
  if negb (accepted_any w) then true
  else if decide (ctr > top w) then true
  else
    let diff := u64 (top w - ctr) in
    if decide (diff >= SIZE) then false
    else bool_decide (Z.land (bitmap w) (u64 (Z.shiftl 1 diff)) = 0).

Definition accept (w : ReplayWindow) (ctr : Z) : ReplayWindow * bool :=
  if negb (check w ctr) then (w, false)
  else if negb (accepted_any w) then (mkReplayWindow ctr 1 true, true)
  else if decide (ctr > top w) then
    let shift := u64 (ctr - top w) in
    let b := if decide (shift >= SIZE) then 0 else u64 (Z.shiftl (bitmap w) shift) in
    (mkReplayWindow ctr (Z.lor b 1) (accepted_any w), true)
  else
    (mkReplayWindow (top w) (Z.lor (bitmap w) (u64 (Z.shiftl 1 (u64 (top w - ctr)))))
       (accepted_any w), true).

Definition highest (w : ReplayWindow) : option Z :=
  if accepted_any w then Some (top w) else None.

(** Feeding a sequence of counters: the verdicts and the final window. *)
Fixpoint run (w : ReplayWindow) (cs : list Z) : ReplayWindow * list bool :=
  match cs with
  | [] => (w, [])
  | c :: cs' =>
      let '(w1, b) := accept w c in
      let '(w2, bs) := run w1 cs' in (w2, b :: bs)
  end.
End ReplayWindow.

(** ** The contract: what was accepted, and a horizon of 64 below the newest *)

Module ReplaySpec.
(** Greatest element of the accepted counters, newest first. *)
Definition newest (seen : list Z) : option Z := max_by_key id seen.

Definition fresh (seen : list Z) (c : Z) : bool :=
  match newest seen with
  | None => true
  | Some m => bool_decide (m - 64 < c) && bool_decide (c ∉ seen)
  end.

Definition accept (seen : list Z) (c : Z) : list Z * bool :=
  if fresh seen c then (c :: seen, true) else (seen, false).

Fixpoint run (seen : list Z) (cs : list Z) : list Z * list bool :=
  match cs with
  | [] => (seen, [])
  | c :: cs' =>
      let '(s1, b) := accept seen c in
      let '(s2, bs) := run s1 cs' in (s2, b :: bs)
  end.
End ReplaySpec.

(** ** Bit-level facts *)

Lemma land_bit_zero b d : 0 <= d < 64 -> Z.land b (u64 (Z.shiftl 1 d)) = 0 <-> Z.testbit b d = false.
Proof.
  intros Hd. rewrite Z.shiftl_1_l, u64_small.
  2:{ split; [lia|]. apply Z.pow_lt_mono_r; lia. }
  split.
  - intros H. apply (f_equal (fun z => Z.testbit z d)) in H.
    rewrite Z.land_spec, Z.pow2_bits_true, Z.bits_0, andb_true_r in H by lia. done.
  - intros H. apply Z.bits_inj'. intros n Hn. rewrite Z.land_spec, Z.bits_0.
    destruct (decide (n = d)) as [->|]; [by rewrite H|].
    by rewrite Z.pow2_bits_false, andb_false_r by lia.
Qed.

Lemma testbit_u64 z n : 0 <= n < 64 -> Z.testbit (u64 z) n = Z.testbit z n.
Proof. intros H. unfold u64, wrap. by rewrite Z.mod_pow2_bits_low by lia. Qed.

Lemma testbit_one n : 0 <= n -> Z.testbit 1 n = bool_decide (n = 0).
Proof.
  intros Hn. case_bool_decide as H; [by subst|]. change 1 with (2 ^ 0). apply Z.pow2_bits_false. lia.
Qed.

Lemma testbit_single d n : 0 <= d < 64 -> 0 <= n < 64 ->
  Z.testbit (u64 (Z.shiftl 1 d)) n = bool_decide (n = d).
Proof.
  intros Hd Hn. rewrite testbit_u64, Z.shiftl_1_l by lia. case_bool_decide as H.
  - subst. apply Z.pow2_bits_true. lia.
  - apply Z.pow2_bits_false. lia.
Qed.

(** ** Refinement *)

Module ReplayFacts.
Import ReplayWindow.

(** The window represents [seen]: it tracks the newest counter and, bit by
    bit, which of the 64 counters ending there were accepted. *)
Definition represents (w : ReplayWindow) (seen : list Z) : Prop :=
  Forall (in_u 64) seen /\
  match ReplaySpec.newest seen with
  | None => accepted_any w = false
  | Some m => accepted_any w = true /\ top w = m /\
      forall d, 0 <= d < 64 -> Z.testbit (bitmap w) d = bool_decide (m - d ∈ seen)
  end.

Lemma newest_spec seen m :
  ReplaySpec.newest seen = Some m <-> m ∈ seen /\ forall c, c ∈ seen -> c <= m.
Proof.
  unfold ReplaySpec.newest.
  assert (Hsound : forall m, max_by_key id seen = Some m -> m ∈ seen /\ forall c, c ∈ seen -> c <= m).
  { intros x Hx. split; [by eapply max_by_key_In|]. intros c Hc.
    pose proof (max_by_key_ge _ _ _ _ Hx Hc) as Hge.
    unfold kcmp, Z_KeyOrd, id in Hge. rewrite Z.compare_gt_iff in Hge. lia. }
  split; [by apply Hsound|]. intros [Hin Hmax].
  destruct (max_by_key id seen) as [x|] eqn:E.
  - destruct (Hsound x eq_refl) as [Hx Hx']. f_equal. apply Hmax in Hx. apply Hx' in Hin. lia.
  - apply max_by_key_None in E. subst. by apply elem_of_nil in Hin.
Qed.

Lemma newest_None seen : ReplaySpec.newest seen = None <-> seen = [].
Proof. apply max_by_key_None. Qed.

Lemma newest_cons_gt c seen m :
  ReplaySpec.newest seen = Some m -> m < c -> ReplaySpec.newest (c :: seen) = Some c.
Proof.
  rewrite !newest_spec. intros [? Hm] ?. split; [set_solver|].
  intros x. rewrite elem_of_cons. intros [->|Hx%Hm]; lia.
Qed.

Lemma newest_cons_le c seen m :
  ReplaySpec.newest seen = Some m -> c <= m -> ReplaySpec.newest (c :: seen) = Some m.
Proof.
  rewrite !newest_spec. intros [? Hm] ?. split; [set_solver|].
  intros x. rewrite elem_of_cons. intros [->|Hx%Hm]; lia.
Qed.

Lemma new_represents : represents new [].
Proof. split; [constructor|done]. Qed.

Lemma check_refines w seen c :
  represents w seen -> in_u 64 c -> check w c = ReplaySpec.fresh seen c.
Proof.
  intros [Hu Hw] Hc. unfold check, ReplaySpec.fresh.
  destruct (ReplaySpec.newest seen) as [m|] eqn:Em; [|by rewrite Hw].
  destruct Hw as (-> & Htop & Hbits). rewrite Htop. cbn [negb].
  pose proof (proj1 (newest_spec _ _) Em) as [Hm Hmax].
  assert (in_u 64 m) by (rewrite Forall_forall in Hu; auto).
  case_decide as Hgt.
  { rewrite !bool_decide_true; [done| |lia]. intros ?%Hmax. lia. }
  rewrite u64_small by (unfold in_u in *; lia). unfold SIZE. case_decide as Hsz.
  { rewrite (bool_decide_false (m - 64 < c)) by lia. done. }
  rewrite (bool_decide_true (m - 64 < c)) by lia. cbn [andb].
  apply bool_decide_ext. rewrite land_bit_zero, Hbits by lia.
  replace (m - (m - c)) with c by lia. by rewrite bool_decide_eq_false.
Qed.

(** Bits of the window after it moved to a newer counter. *)
Lemma shifted_bits b seen m c d :
  ReplaySpec.newest seen = Some m -> (forall x, x ∈ seen -> x <= m) ->
  (forall d, 0 <= d < 64 -> Z.testbit b d = bool_decide (m - d ∈ seen)) ->
  m < c -> 0 <= d < 64 ->
  Z.testbit (Z.lor (if decide (c - m >= 64) then 0 else u64 (Z.shiftl b (c - m))) 1) d
  = bool_decide (c - d ∈ c :: seen).
Proof.
  intros Em Hmax Hbits Hc Hd. rewrite Z.lor_spec, testbit_one by lia.
  assert (Hhi : d < c - m -> d <> 0 -> bool_decide (c - d ∈ c :: seen) = false).
  { intros ??. apply bool_decide_eq_false. rewrite elem_of_cons. intros [?|?%Hmax]; lia. }
  destruct (decide (d = 0)) as [->|Hd0].
  { rewrite !bool_decide_true; [by rewrite orb_true_r| |done].
    rewrite elem_of_cons. left. lia. }
  rewrite (bool_decide_false (d = 0)), orb_false_r by done.
  destruct (decide (c - m >= 64)) as [Hsh|Hsh].
  { rewrite Z.bits_0, Hhi; [done|lia|done]. }
  rewrite testbit_u64, Z.shiftl_spec by lia.
  destruct (decide (d < c - m)).
  { rewrite Z.testbit_neg_r, Hhi; [done|lia|done|lia]. }
  rewrite Hbits by lia. apply bool_decide_ext. rewrite elem_of_cons.
  replace (m - (d - (c - m))) with (c - d) by lia. split; [auto|]. intros [?|?]; [lia|done].
Qed.

Lemma accept_refines w seen c :
  represents w seen -> in_u 64 c ->
  (accept w c).2 = (ReplaySpec.accept seen c).2 /\
  represents (accept w c).1 (ReplaySpec.accept seen c).1.
Proof.
  intros Hr Hc. unfold accept, ReplaySpec.accept. rewrite (check_refines w seen c) by done.
  destruct (ReplaySpec.fresh seen c) eqn:Ef; cbn [negb fst snd]; [|done].
  destruct Hr as [Hu Hw]. unfold ReplaySpec.fresh in Ef. unfold represents.
  destruct (ReplaySpec.newest seen) as [m|] eqn:Em.
  2:{ rewrite Hw. cbn. split; [done|]. apply newest_None in Em. subst. simpl.
      split; [by constructor|]. split; [done|]. split; [done|].
      intros d Hd. rewrite testbit_one by lia. apply bool_decide_ext.
      rewrite list_elem_of_singleton. unfold id. lia. }
  destruct Hw as (Ha & Ht & Hbits). rewrite Ha, Ht. cbn [negb].
  pose proof (proj1 (newest_spec _ _) Em) as [Hm Hmax].
  assert (in_u 64 m) by (rewrite Forall_forall in Hu; auto).
  apply andb_true_iff in Ef as [Ef1%bool_decide_eq_true Ef2%bool_decide_eq_true].
  case_decide as Hgt; cbn [fst snd].
  - split; [done|]. split; [by constructor|]. rewrite (newest_cons_gt c seen m) by (done || lia).
    split; [done|]. split; [done|]. intros d Hd. cbn [bitmap]. unfold SIZE.
    rewrite u64_small by (unfold in_u in *; lia). eapply shifted_bits; eauto; lia.
  - split; [done|]. split; [by constructor|]. rewrite (newest_cons_le c seen m) by (done || lia).
    split; [done|]. split; [done|]. intros d Hd. cbn [bitmap].
    rewrite (u64_small (m - c)) by (unfold in_u in *; lia).
    rewrite Z.lor_spec, testbit_single, Hbits by lia. rewrite <- bool_decide_or.
    apply bool_decide_ext. rewrite elem_of_cons. split; [intros [?|?]|intros [?|?]]; (auto || (right; lia) || (left; lia)).
Qed.

Lemma run_refines_from w seen cs :
  represents w seen -> Forall (in_u 64) cs ->
  (run w cs).2 = (ReplaySpec.run seen cs).2 /\ represents (run w cs).1 (ReplaySpec.run seen cs).1.
Proof.
  intros Hr Hcs. revert w seen Hr. induction Hcs as [|c cs Hc Hcs IH]; intros w seen Hr; [done|].
  destruct (accept_refines w seen c Hr Hc) as [Hv Hr']. cbn.
  destruct (accept w c) as [w1 b], (ReplaySpec.accept seen c) as [s1 b']. cbn in *. subst b'.
  destruct (IH w1 s1 Hr') as [Hbs Hr2].
  destruct (run w1 cs) as [w2 bs], (ReplaySpec.run s1 cs) as [s2 bs']. cbn in *. by subst.
Qed.

Lemma spec_run_NoDup seen cs : NoDup seen -> NoDup (ReplaySpec.run seen cs).1.
Proof.
  revert seen. induction cs as [|c cs IH]; intros seen Hs; [done|]. simpl.
  assert (Hs' : NoDup (ReplaySpec.accept seen c).1).
  { unfold ReplaySpec.accept, ReplaySpec.fresh. destruct (ReplaySpec.newest seen) eqn:Em.
    - case_match eqn:Ef; [|done]. apply andb_true_iff in Ef as [_ Ef%bool_decide_eq_true]. by constructor.
    - apply newest_None in Em. subst. simpl. apply NoDup_singleton. }
  destruct (ReplaySpec.accept seen c) as [s1 b]. specialize (IH s1 Hs').
  by destruct (ReplaySpec.run s1 cs).
Qed.

(** The counters of [cs] that were accepted, in order. *)
Fixpoint taken (cs : list Z) (bs : list bool) : list Z :=
  match cs, bs with
  | c :: cs', b :: bs' => if b then c :: taken cs' bs' else taken cs' bs'
  | _, _ => []
  end.

Lemma spec_run_taken seen cs :
  (ReplaySpec.run seen cs).1 = rev (taken cs (ReplaySpec.run seen cs).2) ++ seen.
Proof.
  revert seen. induction cs as [|c cs IH]; intros seen; [done|]. simpl.
  unfold ReplaySpec.accept. destruct (ReplaySpec.fresh seen c).
  - specialize (IH (c :: seen)). destruct (ReplaySpec.run (c :: seen) cs) as [s2 bs]. cbn in *.
    rewrite IH, <- app_assoc. done.
  - specialize (IH seen). destruct (ReplaySpec.run seen cs) as [s2 bs]. cbn in *. done.
Qed.

(** C24. The bitmap window answers every sequence of 64-bit counters exactly as
    the abstract contract does: a counter is accepted when it is newer than the
    newest accepted one minus 64 and was not accepted before; the final window
    represents the accepted set. *)
Theorem replay_window_refines (cs : list Z) :
  Forall (in_u 64) cs ->
  (run new cs).2 = (ReplaySpec.run [] cs).2 /\ represents (run new cs).1 (ReplaySpec.run [] cs).1.
Proof. apply run_refines_from, new_represents. Qed.

(** No counter is ever accepted twice, whatever sequence arrives. *)
Theorem replay_never_accepts_twice (cs : list Z) :
  Forall (in_u 64) cs -> NoDup (taken cs (run new cs).2).
Proof.
  intros Hcs. destruct (run_refines_from new [] cs new_represents Hcs) as [-> _].
  pose proof (spec_run_NoDup [] cs (NoDup_nil_2)) as Hnd.
  by rewrite spec_run_taken, app_nil_r, <- Permutation_rev in Hnd.
Qed.

Lemma ex_counters_ok : Forall (in_u 64) [5; 5; 3; 3; 100; 5; 99; 37; 36; 1000; 100].
Proof. by apply (bool_decide_unpack _). Defined.

Lemma replay_window_refines_witness :
  (run new [5; 5; 3; 3; 100; 5; 99; 37; 36; 1000; 100]).2
  = [true; false; true; false; true; false; true; true; false; true; false].
Proof.
  rewrite (proj1 (replay_window_refines [5; 5; 3; 3; 100; 5; 99; 37; 36; 1000; 100] ex_counters_ok)).
  vm_compute. reflexivity.
Defined.

Lemma replay_never_accepts_twice_witness :
  NoDup [5; 3; 100; 99; 37; 1000].
Proof.
  exact (replay_never_accepts_twice [5; 5; 3; 3; 100; 5; 99; 37; 36; 1000; 100] ex_counters_ok).
Defined.
End ReplayFacts.
