(* ===== verification/Session.v ===== *)
(** * Transport sessions and group encryption

    [crates/meshstar-core/src/crypto/session.rs]: the explicit-counter session
    over Noise keys with its replay window, and the group AEAD of
    [crates/meshstar-core/src/crypto/mod.rs]. *)
From stdpp Require Import base tactics list numbers sets.
From Stdlib Require Import Lia.
From S2P Require Import Prelude Protocol CryptoLib Identity Noise Replay.

Definition TRANSPORT_OVERHEAD : Z := 4 + TAG_LEN.
Definition COUNTER_REKEY_THRESHOLD : Z := Z.shiftl 1 24 - 4096.

Record SessionLimits := mkSessionLimits {
  idle_timeout_ms : Z; max_age_ms : Z; max_messages : Z
}.
Definition SessionLimits_default : SessionLimits :=
  mkSessionLimits (4 * 60 * 60 * 1000) (24 * 60 * 60 * 1000) 50000.

Record Session := mkSession {
  s_peer : PublicIdentity;
  s_epoch : Z;
  s_send_key : list Z;
  s_recv_key : list Z;
  s_send_ctr : Z;
  s_replay : ReplayWindow;
  s_handshake_hash : list Z;
  s_established_at : Z;
  s_last_activity : Z;
  s_sent : Z;
  s_received : Z;
  s_rekey_in_progress : bool;
  s_m3 : option (list Z);
  s_m3_resends : Z
}.

Definition session_new (peer : PublicIdentity) (epoch : Z) (keys : TransportKeys) (now : Z) : Session :=
  mkSession peer epoch (tk_send keys) (tk_recv keys) 0 ReplayWindow.new (tk_handshake_hash keys)
    now now 0 0 false None 0.

(** The mutations of [encrypt] and of [decrypt]. *)
Definition after_send (now : Z) (s : Session) : Session :=
  mkSession (s_peer s) (s_epoch s) (s_send_key s) (s_recv_key s) (u64 (s_send_ctr s + 1)) (s_replay s)
    (s_handshake_hash s) (s_established_at s) now (u64 (s_sent s + 1)) (s_received s)
    (s_rekey_in_progress s) (s_m3 s) (s_m3_resends s).
Definition after_receive (now : Z) (w : ReplayWindow) (s : Session) : Session :=
  mkSession (s_peer s) (s_epoch s) (s_send_key s) (s_recv_key s) (s_send_ctr s) w
    (s_handshake_hash s) (s_established_at s) now (s_sent s) (u64 (s_received s + 1))
    (s_rekey_in_progress s) (s_m3 s) (s_m3_resends s).

(** [&ctr.to_be_bytes()[5..8]]: the low three bytes. *)
Definition ctr_bytes (ctr : Z) : list Z := drop 5 (be_bytes 8 ctr).

Definition full_ad (aad : list Z) (epoch ctr : Z) : list Z := aad ++ [epoch] ++ ctr_bytes ctr.

Definition epoch_of (payload : list Z) : option Z := head payload.

Definition is_expired (s : Session) (now : Z) (limits : SessionLimits) : bool :=
  bool_decide (sat_sub now (s_last_activity s) > idle_timeout_ms limits).

Definition needs_rekey (s : Session) (now : Z) (limits : SessionLimits) : bool :=
  negb (s_rekey_in_progress s) &&
  (bool_decide (sat_sub now (s_established_at s) > max_age_ms limits)
   || bool_decide (s_sent s >= max_messages limits)
   || bool_decide (s_send_ctr s >= COUNTER_REKEY_THRESHOLD)).

Section Session.
Context `{C : CryptoLib}.

Definition encrypt (now : Z) (aad plaintext : list Z) : St Session Error (list Z) :=
  ctr ← gets s_send_ctr;
  ensure (bool_decide (ctr < COUNTER_REKEY_THRESHOLD)) Expired;;
  modify (after_send now);;
  epoch ← gets s_epoch;
  key ← gets s_send_key;
  ct ← lift (encrypt_n key ctr (full_ad aad epoch ctr) plaintext);
  mret ([epoch] ++ ctr_bytes ctr ++ ct).

Definition decrypt (now : Z) (aad payload : list Z) : St Session Error (list Z) :=
  ensure (bool_decide (TRANSPORT_OVERHEAD <= zlen payload)) Truncated;;
  b0 ← lift (idx payload 0);
  epoch ← gets s_epoch;
  ensure (bool_decide (b0 = epoch)) NoSession;;
  b1 ← lift (idx payload 1);
  b2 ← lift (idx payload 2);
  b3 ← lift (idx payload 3);
  let ctr := from_be [0; 0; 0; 0; 0; b1; b2; b3] in
  fresh ← gets (fun s => ReplayWindow.check (s_replay s) ctr);
  ensure fresh Replay;;
  key ← gets s_recv_key;
  rest ← lift (slice_from payload 4);
  pt ← lift (decrypt_n key ctr (full_ad aad epoch ctr) rest);
  modify (fun s => after_receive now (ReplayWindow.accept (s_replay s) ctr).1 s);;
  mret pt.
End Session.

(** Sending and receiving sequences, one outcome per message. *)
Section Runs.
Context `{C : CryptoLib}.

Fixpoint send_all (now : Z) (msgs : list (list Z * list Z)) (s : Session) : Session * list (Result (list Z)) :=
  match msgs with
  | [] => (s, [])
  | (aad, pt) :: msgs' =>
      let '(s1, r) := encrypt now aad pt s in
      let '(s2, rs) := send_all now msgs' s1 in (s2, r :: rs)
  end.

Fixpoint receive_all (now : Z) (pkts : list (list Z * list Z)) (s : Session) : Session * list (Result (list Z)) :=
  match pkts with
  | [] => (s, [])
  | (aad, p) :: pkts' =>
      let '(s1, r) := decrypt now aad p s in
      let '(s2, rs) := receive_all now pkts' s1 in (s2, r :: rs)
  end.
End Runs.

Module SessionFacts.
Import ReplayFacts.

(** The counter field of a transport payload. *)
Definition wire_ctr (payload : list Z) : Z := from_be (take 3 (drop 1 payload)).

Lemma ctr_bytes_be ctr : ctr_bytes ctr = be_bytes 3 ctr.
Proof. unfold ctr_bytes, be_bytes. reflexivity. Qed.

Lemma from_be_zeros n l : from_be (replicate n 0 ++ l) = from_be l.
Proof. induction n as [|n IH]; [done|]. cbn [replicate app]. rewrite from_be_cons, IH. lia. Qed.

Lemma from_be_ctr ctr : in_u 24 ctr -> from_be (ctr_bytes ctr) = ctr.
Proof. intros H. rewrite ctr_bytes_be, from_be_be_bytes. by apply Z.mod_small. Qed.

Section Facts.
Context `{C : CryptoLib, !CryptoLibLaws C}.

(** A payload the session layer framed: its pieces. *)
Lemma encrypt_run now aad pt s :
  0 <= s_send_ctr s -> zlen pt < 2 ^ 32 ->
  if decide (s_send_ctr s < COUNTER_REKEY_THRESHOLD) then
    exists ct, encrypt now aad pt s = (after_send now s, Ok ([s_epoch s] ++ ctr_bytes (s_send_ctr s) ++ ct)) /\
      zlen ct = zlen pt + TAG_LEN /\
      decrypt_n (s_send_key s) (s_send_ctr s) (full_ad aad (s_epoch s) (s_send_ctr s)) ct = Ok pt
  else encrypt now aad pt s = (s, Err Expired).
Proof.
  intros H0 Hpt. unfold encrypt. st_run. case_decide as Hc.
  - rewrite bool_decide_true by done. simpl.
    destruct (encrypt_n_spec (s_send_key s) (s_send_ctr s) (full_ad aad (s_epoch s) (s_send_ctr s)) pt Hpt)
      as (ct & -> & Hz & Hd). eauto.
  - by rewrite bool_decide_false.
Qed.

(** [decrypt] on a framed payload. *)
Lemma decrypt_run now aad s ctr ct :
  in_u 24 ctr -> TAG_LEN <= zlen ct ->
  decrypt now aad ([s_epoch s] ++ ctr_bytes ctr ++ ct) s =
    if ReplayWindow.check (s_replay s) ctr then
      match decrypt_n (s_recv_key s) ctr (full_ad aad (s_epoch s) ctr) ct with
      | Ok pt => (after_receive now (ReplayWindow.accept (s_replay s) ctr).1 s, Ok pt)
      | r => (s, r)
      end
    else (s, Err Replay).
Proof.
  intros Hc Hz. unfold decrypt, TRANSPORT_OVERHEAD, TAG_LEN in *. st_run.
  assert (Hctr : from_be ([0; 0; 0; 0; 0] ++ ctr_bytes ctr) = ctr).
  { change [0; 0; 0; 0; 0] with (replicate 5 0). rewrite from_be_zeros. by apply from_be_ctr. }
  assert (exists x y z, ctr_bytes ctr = [x; y; z]) as (x & y & z & E) by (rewrite ctr_bytes_be; eauto).
  rewrite E in *. cbn [app] in *. rewrite bool_decide_true by zlens.
  assert (Hs : @slice_from Error Z (s_epoch s :: x :: y :: z :: ct) 4 = Ok ct)
    by (apply (slice_from_app [s_epoch s; x; y; z]); reflexivity).
  assert (Hi : forall i b, (s_epoch s :: x :: y :: z :: ct) !! Z.to_nat i = Some b -> 0 <= i ->
    @idx Error Z (s_epoch s :: x :: y :: z :: ct) i = Ok b) by (intros; by apply idx_ok).
  rewrite (Hi 0 (s_epoch s)), (Hi 1 x), (Hi 2 y), (Hi 3 z) by done.
  rewrite bool_decide_true by done. rewrite Hctr, Hs.
  destruct (ReplayWindow.check _ _); [|done].
  by destruct (decrypt_n _ _ _ _).
Qed.

Lemma wire_ctr_range p : bytes_ok p -> in_u 24 (wire_ctr p).
Proof.
  intros Hp. unfold wire_ctr.
  pose proof (from_be_range (take 3 (drop 1 p)) ltac:(by apply Forall_take, Forall_drop)) as H.
  assert (Hz : zlen (take 3 (drop 1 p)) <= 3) by (unfold zlen; rewrite length_take; lia).
  pose proof (Z.pow_le_mono_r 256 _ _ ltac:(lia) Hz). unfold in_u. change (2 ^ 24) with (256 ^ 3). lia.
Qed.

Lemma wire_ctr_framed e ctr ct : in_u 24 ctr -> wire_ctr ([e] ++ ctr_bytes ctr ++ ct) = ctr.
Proof.
  intros H. unfold wire_ctr. cbn [app drop]. rewrite drop_0.
  rewrite (take_app_length' (ctr_bytes ctr)) by (by rewrite ctr_bytes_be, length_be_bytes). by apply from_be_ctr.
Qed.

(** Any payload that passes the length check is framed. *)
Lemma framed p : bytes_ok p -> TRANSPORT_OVERHEAD <= zlen p ->
  exists e ct, p = [e] ++ ctr_bytes (wire_ctr p) ++ ct /\ TAG_LEN <= zlen ct.
Proof.
  intros Hp Hz. unfold TRANSPORT_OVERHEAD, TAG_LEN in *.
  destruct p as [|e [|x [|y [|z ct]]]]; try by (unfold zlen in Hz; simpl in Hz; lia).
  exists e, ct. rewrite !zlen_cons in Hz. split; [|lia]. unfold wire_ctr. cbn [drop take app]. f_equal.
  rewrite ctr_bytes_be, take_0.
  rewrite be_bytes_from_be; [done| |done]. unfold bytes_ok in *. inversion_clear Hp as [|? ? _ Hp'].
  inversion_clear Hp' as [|? ? ? Hp]. inversion_clear Hp as [|? ? ? Hp']. inversion_clear Hp'.
  repeat (apply Forall_cons_2; [done|]). constructor.
Qed.

Lemma decrypt_safe_n k n ad ct : safe (decrypt_n k n ad ct).
Proof. unfold decrypt_n, TAG_LEN. pose proof (zlen_nonneg ct). safe_tac. Qed.

(** What one [decrypt] can do to the session. *)
Lemma decrypt_inv now aad p s :
  bytes_ok p ->
  match decrypt now aad p s with
  | (s', Ok _) => ReplayWindow.check (s_replay s) (wire_ctr p) = true /\
      s' = after_receive now (ReplayWindow.accept (s_replay s) (wire_ctr p)).1 s
  | (s', Err _) => s' = s
  | (_, Panic) => False
  end.
Proof.
  intros Hp. destruct (decide (TRANSPORT_OVERHEAD <= zlen p)) as [Hz|Hz].
  2:{ unfold decrypt. st_run. by rewrite bool_decide_false. }
  destruct (framed p Hp Hz) as (e & ct & E & Hct). pose proof (wire_ctr_range p Hp) as Hc.
  set (ctr := wire_ctr p) in *. rewrite E.
  destruct (decide (e = s_epoch s)) as [->|He].
  - rewrite decrypt_run by done. destruct (ReplayWindow.check (s_replay s) ctr) eqn:Hchk; [|done].
    pose proof (decrypt_safe_n (s_recv_key s) ctr (full_ad aad (s_epoch s) ctr) ct) as Hs.
    by destruct (decrypt_n _ _ _ _).
  - unfold decrypt. st_run. rewrite bool_decide_true by (by rewrite <- E).
    assert (@idx Error Z ([e] ++ ctr_bytes ctr ++ ct) 0 = Ok e) as -> by reflexivity.
    by rewrite bool_decide_false.
Qed.

(** The counters of the payloads that were accepted. *)
Fixpoint accepted (pkts : list (list Z * list Z)) (rs : list (Result (list Z))) : list Z :=
  match pkts, rs with
  | (_, p) :: pkts', r :: rs' =>
      match r with Ok _ => wire_ctr p :: accepted pkts' rs' | _ => accepted pkts' rs' end
  | _, _ => []
  end.

Lemma u24_u64 z : in_u 24 z -> in_u 64 z.
Proof. unfold in_u. change (2 ^ 24) with 16777216. change (2 ^ 64) with 18446744073709551616. lia. Qed.

Lemma receive_all_fresh now pkts s seen :
  Forall (fun q => bytes_ok q.2) pkts -> represents (s_replay s) seen ->
  Forall (fun r => safe r) (receive_all now pkts s).2 /\
  NoDup (accepted pkts (receive_all now pkts s).2) /\
  (forall c, c ∈ accepted pkts (receive_all now pkts s).2 -> c ∉ seen).
Proof.
  intros Hb. revert s seen. induction Hb as [|[aad p] pkts Hp Hb IH]; intros s seen Hr; simpl in *.
  { split; [constructor|]. split; [constructor|]. set_solver. }
  pose proof (decrypt_inv now aad p s Hp) as Hd. destruct (decrypt now aad p s) as [s1 [pt|e|]]; [| |done].
  - destruct Hd as [Hchk ->]. pose proof (u24_u64 _ (wire_ctr_range p Hp)) as Hc.
    destruct (accept_refines _ _ _ Hr Hc) as [_ Hr'].
    rewrite (check_refines _ _ _ Hr Hc) in Hchk. unfold ReplaySpec.accept in Hr'. rewrite Hchk in Hr'.
    specialize (IH (after_receive now (ReplayWindow.accept (s_replay s) (wire_ctr p)).1 s) _ Hr').
    destruct (receive_all _ _ _) as [s2 rs]. simpl in *. destruct IH as (IH1 & IH2 & IH3).
    assert (wire_ctr p ∉ seen).
    { unfold ReplaySpec.fresh in Hchk. destruct (ReplaySpec.newest seen) eqn:En.
      - apply andb_true_iff in Hchk as [_ ?%bool_decide_eq_true]. done.
      - apply newest_None in En. subst. set_solver. }
    split; [by constructor|]. split.
    + constructor; [|done]. intros Hin%IH3. set_solver.
    + intros c. rewrite elem_of_cons. intros [->|Hin%IH3]; set_solver.
  - subst s1. specialize (IH s seen Hr). destruct (receive_all now pkts s) as [s2 rs]. simpl in *.
    destruct IH as (IH1 & IH2 & IH3). split; [by constructor|]. done.
Qed.

(** C23. At-most-once delivery against any channel: whatever payloads arrive at
    a new session, in whatever order and number, decryption never panics and no
    two accepted payloads carry the same counter. *)
Theorem session_at_most_once (peer : PublicIdentity) (epoch now : Z) (keys : TransportKeys)
    (pkts : list (list Z * list Z)) :
  Forall (fun q => bytes_ok q.2) pkts ->
  let rs := (receive_all now pkts (session_new peer epoch keys now)).2 in
  Forall (fun r => r <> Panic) rs /\ NoDup (accepted pkts rs).
Proof.
  intros Hb rs. destruct (receive_all_fresh now pkts (session_new peer epoch keys now) [] Hb new_represents) as (?&?&?).
  done.
Qed.

(** The packets of a run that were accepted. *)
Fixpoint kept (pkts : list (list Z * list Z)) (rs : list (Result (list Z))) : list (list Z * list Z) :=
  match pkts, rs with
  | q :: pkts', r :: rs' => if is_ok r then q :: kept pkts' rs' else kept pkts' rs'
  | _, _ => []
  end.

(** A forged, replayed or damaged packet has no influence: taking the
    refused packets out of a stream changes neither what the other packets
    decrypt to nor the session reached at the end. *)
Theorem session_forgery_harmless (now : Z) (pkts : list (list Z * list Z)) (s s' : Session)
    (rs : list (Result (list Z))) :
  Forall (fun q => bytes_ok q.2) pkts -> receive_all now pkts s = (s', rs) ->
  receive_all now (kept pkts rs) s = (s', retain is_ok rs).
Proof.
  intros Hb. revert s rs. induction Hb as [|[aad p] pkts Hp Hb IH]; intros s rs; simpl; [by intros [= <- <-]|].
  pose proof (decrypt_inv now aad p s Hp) as Hd. destruct (decrypt now aad p s) as [s1 [pt|e|]] eqn:E; [| |done].
  - destruct (receive_all now pkts s1) as [s2 rs2] eqn:E2. intros [= <- <-]. simpl. rewrite E, (IH _ _ E2). done.
  - subst s1. destruct (receive_all now pkts s) as [s2 rs2] eqn:E2. intros [= <- <-]. simpl. by rewrite (IH _ _ E2).
Qed.

(** ** Sending *)

Definition short_enough (q : list Z * list Z) : Prop := zlen q.2 < 2 ^ 32.

Lemma threshold_u24 z : 0 <= z < COUNTER_REKEY_THRESHOLD -> in_u 24 z.
Proof.
  unfold in_u. change COUNTER_REKEY_THRESHOLD with 16773120. change (2 ^ 24) with 16777216. lia.
Qed.

(** The outcome of the [i]-th message of a run. *)
Lemma send_all_lookup now msgs s i aad pt r :
  0 <= s_send_ctr s -> Forall short_enough msgs ->
  msgs !! i = Some (aad, pt) -> (send_all now msgs s).2 !! i = Some r ->
  let ctr := s_send_ctr s + Z.of_nat i in
  if decide (ctr < COUNTER_REKEY_THRESHOLD) then
    exists ct, r = Ok ([s_epoch s] ++ ctr_bytes ctr ++ ct) /\ zlen ct = zlen pt + TAG_LEN /\
      decrypt_n (s_send_key s) ctr (full_ad aad (s_epoch s) ctr) ct = Ok pt
  else r = Err Expired.
Proof.
  intros H0 Hs. revert s i H0. induction Hs as [|[a p] msgs Hp Hs IH]; intros s i H0; [done|].
  unfold short_enough in Hp. simpl in Hp. pose proof (encrypt_run now a p s H0 Hp) as He. simpl send_all.
  destruct (encrypt now a p s) as [s1 r1]. destruct (send_all now msgs s1) as [s2 rs] eqn:E2.
  destruct i as [|i]; simpl.
  { intros [= <- <-] [= <-]. rewrite Z.add_0_r. case_decide.
    - destruct He as (ct & [= _ ->] & ?). eauto.
    - by injection He. }
  intros Hm Hr. specialize (IH s1 i). rewrite E2 in IH.
  case_decide as Hc.
  - destruct He as (ct & [= -> _] & _). cbn [s_send_ctr after_send s_epoch s_send_key] in IH.
    assert (Hn : u64 (s_send_ctr s + 1) = s_send_ctr s + 1).
    { apply u64_small. pose proof (threshold_u24 _ (conj H0 Hc)) as Hq. unfold in_u in Hq.
      change (2 ^ 24) with 16777216 in Hq. change (2 ^ 64) with 18446744073709551616. lia. }
    rewrite Hn in IH. specialize (IH ltac:(lia) Hm Hr).
    by replace (s_send_ctr s + Z.of_nat (S i)) with (s_send_ctr s + 1 + Z.of_nat i) by lia.
  - injection He as -> _. specialize (IH H0 Hm Hr). cbn zeta in IH |- *.
    rewrite decide_False in IH by lia. by rewrite decide_False by lia.
Qed.

Lemma send_all_length now msgs s : length (send_all now msgs s).2 = length msgs.
Proof.
  revert s. induction msgs as [|[a p] msgs IH]; intros s; simpl; [done|].
  destruct (encrypt now a p s) as [s1 r1]. specialize (IH s1). destruct (send_all now msgs s1). simpl in *. by f_equal.
Qed.

(** Nonces never repeat: however many messages a session sends, two
    payloads it emits carry the same counter only if they are the same message;
    from the [2^24 - 4096]-th on every attempt is refused with [Expired]. *)
Theorem session_nonces_unique (peer : PublicIdentity) (epoch now : Z) (keys : TransportKeys)
    (msgs : list (list Z * list Z)) :
  Forall short_enough msgs ->
  let outs := (send_all now msgs (session_new peer epoch keys now)).2 in
  (forall i j p q, outs !! i = Some (Ok p) -> outs !! j = Some (Ok q) -> wire_ctr p = wire_ctr q -> i = j) /\
  (forall i r, outs !! i = Some r -> r = Err Expired <-> COUNTER_REKEY_THRESHOLD <= Z.of_nat i).
Proof.
  intros Hs outs.
  assert (Hout : forall i r, outs !! i = Some r ->
    if decide (Z.of_nat i < COUNTER_REKEY_THRESHOLD)
    then exists p, r = Ok p /\ wire_ctr p = Z.of_nat i else r = Err Expired).
  { intros i r Hr. destruct (lookup_lt_is_Some_2 msgs i) as [[aad pt] Hm].
    { subst outs. apply lookup_lt_Some in Hr. by rewrite send_all_length in Hr. }
    pose proof (send_all_lookup now msgs (session_new peer epoch keys now) i aad pt r ltac:(done) Hs Hm Hr) as H.
    cbn [s_send_ctr session_new] in H. rewrite Z.add_0_l in H. cbn zeta in H. case_decide; [|done].
    destruct H as (ct & -> & _). eexists. split; [done|]. apply wire_ctr_framed, threshold_u24. lia. }
  split.
  - intros i j p q Hi Hj E. apply Hout in Hi, Hj. repeat case_decide; naive_solver lia.
  - intros i r Hr. apply Hout in Hr. case_decide; naive_solver lia.
Qed.

(** ** Delivery over a channel that loses, reorders and duplicates *)

(** What a receiver should report for messages arriving in the given order:
    each one the first time, [Replay] afterwards. *)
Fixpoint expected (msgs : list (list Z * list Z)) (seen order : list nat) : list (Result (list Z)) :=
  match order with
  | [] => []
  | i :: order' =>
      (if decide (i ∈ seen) then Err Replay else ok_or (snd <$> msgs !! i) NotFound)
      :: expected msgs (i :: seen) order'
  end.

(** The packet of message [i] in the sender's output, with its header. *)
Definition packet_of (msgs : list (list Z * list Z)) (outs : list (Result (list Z))) (i : nat)
    (q : list Z * list Z) : Prop :=
  exists pt, msgs !! i = Some (q.1, pt) /\ outs !! i = Some (Ok q.2).

Lemma fresh_small seen c :
  (forall x, x ∈ seen -> 0 <= x < 64) -> 0 <= c < 64 -> ReplaySpec.fresh seen c = bool_decide (c ∉ seen).
Proof.
  intros Hs Hc. unfold ReplaySpec.fresh. destruct (ReplaySpec.newest seen) as [m|] eqn:E.
  - apply newest_spec in E as [Hm _]. apply Hs in Hm. by rewrite (bool_decide_true (m - 64 < c)) by lia.
  - apply newest_None in E. subst. by rewrite bool_decide_true by set_solver.
Qed.

Lemma receive_expected now msgs sender order pkts s seen seenz :
  s_send_ctr sender = 0 -> Forall short_enough msgs -> (length msgs <= 64)%nat ->
  s_epoch s = s_epoch sender -> s_recv_key s = s_send_key sender ->
  Forall2 (packet_of msgs (send_all now msgs sender).2) order pkts ->
  represents (s_replay s) seenz -> (forall x, x ∈ seenz -> 0 <= x < 64) ->
  (forall i : nat, i ∈ seen <-> Z.of_nat i ∈ seenz) ->
  (receive_all now pkts s).2 = expected msgs seen order.
Proof.
  intros H0 Hs Hlen Hep Hkey Hall. revert s seen seenz Hep Hkey.
  induction Hall as [|i [aad p] order pkts (pt & Hm & Ho) Hall IH]; intros s seen seenz Hep Hkey Hr Hz Hseen; [done|].
  simpl in Hm, Ho. apply lookup_lt_Some in Hm as Hi.
  assert (Hc : 0 <= Z.of_nat i < 64) by lia.
  assert (Hthr : Z.of_nat i < COUNTER_REKEY_THRESHOLD) by (change COUNTER_REKEY_THRESHOLD with 16773120; lia).
  assert (Hu : in_u 24 (Z.of_nat i)) by (apply threshold_u24; lia).
  pose proof (send_all_lookup now msgs sender i aad pt (Ok p) ltac:(lia) Hs Hm Ho) as H. cbn zeta in H.
  rewrite H0, Z.add_0_l, decide_True in H by done. destruct H as (ct & Hp & Hzc & Hd).
  assert (p = [s_epoch sender] ++ ctr_bytes (Z.of_nat i) ++ ct) as -> by congruence.
  rewrite <- Hep, <- Hkey in Hd. pose proof (zlen_nonneg pt). assert (TAG_LEN <= zlen ct) by lia.
  cbn [receive_all]. rewrite <- Hep, decrypt_run by done.
  rewrite (check_refines _ _ _ Hr (u24_u64 _ Hu)), fresh_small by done.
  cbn [expected]. rewrite Hm. case_bool_decide as Hin.
  - rewrite Hd. rewrite decide_False by (by rewrite Hseen).
    destruct (accept_refines _ _ _ Hr (u24_u64 _ Hu)) as [_ Hr'].
    unfold ReplaySpec.accept in Hr'. rewrite fresh_small, bool_decide_true in Hr' by done.
    specialize (IH (after_receive now (ReplayWindow.accept (s_replay s) (Z.of_nat i)).1 s) (i :: seen) _ Hep Hkey Hr').
    destruct (receive_all now pkts _) as [s2 rs]. simpl in *. f_equal. apply IH.
    + intros x. rewrite elem_of_cons. intros [->|?]; auto.
    + intros j. rewrite !elem_of_cons, Hseen. rewrite Nat2Z.inj_iff. done.
  - rewrite decide_True by (by rewrite Hseen).
    specialize (IH s (i :: seen) seenz Hep Hkey Hr Hz).
    destruct (receive_all now pkts s) as [s2 rs]. simpl in *. f_equal. apply IH.
    intros j. rewrite elem_of_cons, Hseen. split; [|auto]. by intros [->|?].
Qed.

(** C22. End to end: of up to 64 messages sent under matching keys, any subset
    may arrive, in any order and any number of times, and each is decrypted to
    its plaintext on first arrival and reported as a replay afterwards. *)
Theorem session_channel (pa pb : PublicIdentity) (epoch now : Z) (ka kb : TransportKeys)
    (msgs : list (list Z * list Z)) (order : list nat) (pkts : list (list Z * list Z)) :
  tk_send ka = tk_recv kb -> Forall short_enough msgs -> (length msgs <= 64)%nat ->
  Forall2 (packet_of msgs (send_all now msgs (session_new pa epoch ka now)).2) order pkts ->
  (receive_all now pkts (session_new pb epoch kb now)).2 = expected msgs [] order.
Proof.
  intros Hk Hs Hl Hall.
  apply (receive_expected now msgs (session_new pa epoch ka now) order pkts (session_new pb epoch kb now) [] []);
    (done || set_solver).
Qed.
End Facts.

(** Concrete sessions over the toy primitives. *)
Definition ex_peer : PublicIdentity := id_public NoiseExamples.alice.
Definition ex_ka : TransportKeys := mkTransportKeys [1] [2] [3].
Definition ex_kb : TransportKeys := mkTransportKeys [2] [1] [3].
Definition ex_msgs : list (list Z * list Z) := [([9], [10; 11]); ([8], [12]); ([7], [])].
Definition ex_outs := (send_all 5 ex_msgs (session_new ex_peer 0 ex_ka 5)).2.
Definition ex_pkt (i : nat) : list Z * list Z :=
  match ex_msgs !! i, ex_outs !! i with Some m, Some (Ok p) => (m.1, p) | _, _ => ([], []) end.

Lemma ex_msgs_short : Forall short_enough ex_msgs.
Proof. repeat constructor. Defined.

Lemma session_channel_witness :
  (receive_all 5 [ex_pkt 2; ex_pkt 0; ex_pkt 2; ex_pkt 1] (session_new ex_peer 0 ex_kb 5)).2
  = [Ok []; Ok [10; 11]; Err Replay; Ok [12]].
Proof.
  rewrite (session_channel ex_peer ex_peer 0 5 ex_ka ex_kb ex_msgs [2%nat; 0%nat; 2%nat; 1%nat]).
  - reflexivity.
  - reflexivity.
  - exact ex_msgs_short.
  - simpl. lia.
  - repeat (first [apply Forall2_nil_2 | apply Forall2_cons_2; [eexists; split; vm_compute; reflexivity|]]).
Defined.

Lemma ex_pkts_bytes : Forall (fun q => bytes_ok q.2) [ex_pkt 2; ex_pkt 0; ex_pkt 2; ([], [1; 2])].
Proof. apply (bool_decide_unpack _). vm_compute. exact I. Qed.

Lemma session_at_most_once_witness :
  NoDup (accepted [ex_pkt 2; ex_pkt 0; ex_pkt 2; ([], [1; 2])]
           (receive_all 5 [ex_pkt 2; ex_pkt 0; ex_pkt 2; ([], [1; 2])] (session_new ex_peer 0 ex_kb 5)).2).
Proof.
  exact (proj2 (session_at_most_once ex_peer 0 5 ex_kb [ex_pkt 2; ex_pkt 0; ex_pkt 2; ([], [1; 2])] ex_pkts_bytes)).
Defined.

Lemma session_forgery_harmless_witness :
  receive_all 5 [ex_pkt 2; ex_pkt 0] (session_new ex_peer 0 ex_kb 5) =
  ((receive_all 5 [ex_pkt 2; ex_pkt 0; ex_pkt 2; ([], [1; 2])] (session_new ex_peer 0 ex_kb 5)).1, [Ok []; Ok [10; 11]]).
Proof.
  exact (session_forgery_harmless 5 [ex_pkt 2; ex_pkt 0; ex_pkt 2; ([], [1; 2])] (session_new ex_peer 0 ex_kb 5) _ _
    ex_pkts_bytes (surjective_pairing _)).
Defined.

Lemma session_nonces_unique_witness :
  @Ok Error (list Z) (ex_pkt 1).2 = Err Expired <-> COUNTER_REKEY_THRESHOLD <= Z.of_nat 1.
Proof.
  apply (proj2 (session_nonces_unique ex_peer 0 5 ex_ka ex_msgs ex_msgs_short) 1%nat). vm_compute. reflexivity.
Defined.
End SessionFacts.

(** ** Group encryption ([crypto/mod.rs]) *)

(** Source address, then the packet id. *)
Definition group_nonce (src : Address) (packet_id : Z) : list Z := addr_bytes src ++ be_bytes 4 packet_id.

Section Group.
Context `{C : CryptoLib}.

Definition group_encrypt (key : list Z) (src : Address) (packet_id : Z) (aad plaintext : list Z) : Result (list Z) :=
  r ← unwrap (aead_encrypt key (group_nonce src packet_id) aad plaintext);
  Ok (r.1 ++ r.2).

Definition group_decrypt (key : list Z) (src : Address) (packet_id : Z) (aad ciphertext : list Z) : Result (list Z) :=
  if decide (zlen ciphertext < TAG_LEN) then Err Truncated else
  ct ← slice ciphertext 0 (zlen ciphertext - TAG_LEN);
  tag ← slice_from ciphertext (zlen ciphertext - TAG_LEN);
  ok_or (aead_decrypt key (group_nonce src packet_id) aad ct tag) AuthFailed.

Context `{!CryptoLibLaws C}.

(** Group encryption adds the 16-byte tag and decrypts to the plaintext
    for the same source and packet id; decryption of arbitrary bytes never
    panics; and distinct (source, packet id) pairs use distinct nonces. *)
Theorem group_crypt_roundtrip (key aad plaintext : list Z) (src : Address) (packet_id : Z) :
  zlen plaintext < 2 ^ 32 -> address_ok src -> in_u 32 packet_id ->
  (exists ct, group_encrypt key src packet_id aad plaintext = Ok ct /\
     zlen ct = zlen plaintext + TAG_LEN /\ group_decrypt key src packet_id aad ct = Ok plaintext) /\
  (forall garbage, group_decrypt key src packet_id aad garbage <> Panic) /\
  (forall src' id', address_ok src' -> in_u 32 id' ->
     group_nonce src' id' = group_nonce src packet_id -> src' = src /\ id' = packet_id).
Proof.
  intros Hlt [Hl _] Hid. split; [|split].
  - destruct (aead_total key (group_nonce src packet_id) aad plaintext Hlt) as [[ct tag] Hct].
    destruct (aead_encrypt_len _ _ _ _ _ _ Hct) as [Hlc Ht].
    assert (zlen tag = 16 /\ zlen ct = zlen plaintext) as [Hzt Hzc] by (unfold zlen; split; lia).
    unfold group_encrypt, group_decrypt, TAG_LEN. rewrite Hct. simpl. eexists. split; [done|].
    pose proof (zlen_nonneg ct). rewrite zlen_app, Hzt. split; [lia|]. rewrite decide_False by lia.
    replace (zlen ct + 16 - 16) with (zlen ct) by lia.
    rewrite slice_here by done. simpl. rewrite slice_from_app by done. simpl.
    by rewrite (aead_correct _ _ _ _ _ _ Hct).
  - intros garbage. pose proof (zlen_nonneg garbage). enough (safe (group_decrypt key src packet_id aad garbage)) by done.
    unfold group_decrypt, TAG_LEN. safe_tac.
  - intros src' id' [Hl' _] Hid' E. apply app_inj_1 in E as [Ea Eb]; [|congruence]. split.
    + destruct src, src'. simpl in *. by subst.
    + by rewrite <- (from_be_32 id'), <- (from_be_32 packet_id), Eb by done.
Qed.
End Group.

Lemma group_crypt_roundtrip_witness :
  exists ct, group_encrypt [5] (mkAddress (replicate 8 1)) 42 [1] [104; 105] = Ok ct /\
    zlen ct = 18 /\ group_decrypt [5] (mkAddress (replicate 8 1)) 42 [1] ct = Ok [104; 105].
Proof.
  apply (group_crypt_roundtrip [5] [1] [104; 105] (mkAddress (replicate 8 1)) 42);
    apply (bool_decide_unpack _); vm_compute; exact I.
Defined.
