(* ===== verification/Transport.v ===== *)
(** * Reliable delivery

    [crates/meshstar-core/src/transport/mod.rs]: acknowledgements, the
    retransmission table and the per-peer receive windows. *)
From stdpp Require Import base tactics list numbers sets relations.
From Stdlib Require Import Lia.
From S2P Require Import Prelude SmallMap Protocol Packet Replay.

Module ack_status.
Definition DELIVERED : Z := 0.
Definition STORED : Z := 1.
Definition REJECTED : Z := 2.
End ack_status.

Record Ack := mkAck { ack_seq : Z; ack_st : Z }.

Definition ack_encode (a : Ack) : list Z := be_bytes 2 (ack_seq a) ++ [ack_st a].

Definition ack_decode (b : list Z) : Result Ack :=
  if decide (zlen b <> 3) then Err Truncated else
  b2 ← idx b 2;
  if decide (b2 > ack_status.REJECTED) then Err BadField else
  seq ← be_at b 0 2;
  Ok (mkAck seq b2).

Record TransportConfig := mkTransportConfig {
  max_attempts : Z; initial_rto_ms : Z; max_rto_ms : Z; max_in_flight : Z; max_peers : Z
}.
Definition TransportConfig_default : TransportConfig := mkTransportConfig 4 4000 60000 16 64.

Record Outstanding := mkOutstanding {
  o_dst : Address;
  o_seq : Z;
  o_handle : Z;
  o_reliability : Reliability;
  o_body : list Z;
  o_attempts : Z;
  o_next_retry : Z;
  o_started_at : Z;
  o_envelope_id : option Z;
  o_stored : bool;
  o_last_packet : option Packet
}.

(** Field assignments through [&mut Outstanding]. *)
Definition o_set_timing (attempts next_retry started_at : Z) (o : Outstanding) : Outstanding :=
  mkOutstanding (o_dst o) (o_seq o) (o_handle o) (o_reliability o) (o_body o) attempts next_retry started_at
    (o_envelope_id o) (o_stored o) (o_last_packet o).
Definition o_mark_stored (o : Outstanding) : Outstanding :=
  mkOutstanding (o_dst o) (o_seq o) (o_handle o) (o_reliability o) (o_body o) (o_attempts o) U64_MAX (o_started_at o)
    (o_envelope_id o) true (o_last_packet o).
Definition o_set_packet (p : Packet) (o : Outstanding) : Outstanding :=
  mkOutstanding (o_dst o) (o_seq o) (o_handle o) (o_reliability o) (o_body o) (o_attempts o) (o_next_retry o)
    (o_started_at o) (o_envelope_id o) (o_stored o) (Some p).

Record SeqWindow := mkSeqWindow { sw_top : Z; sw_bitmap : Z; sw_any : bool }.

Module SeqWindow.
Definition default : SeqWindow := mkSeqWindow 0 0 false.

Definition accept (w : SeqWindow) (seq : Z) : SeqWindow * bool :=
  if negb (sw_any w) then (mkSeqWindow seq 1 true, true) else
  let ahead := u16 (seq - sw_top w) in
  if bool_decide (ahead <> 0) && bool_decide (ahead < 0x8000) then
    let shift := ahead in
    let b := if decide (shift >= 64) then 0 else u64 (Z.shiftl (sw_bitmap w) shift) in
    (mkSeqWindow seq (Z.lor b 1) (sw_any w), true)
  else
    let behind := u16 (sw_top w - seq) in
    if decide (behind >= 64) then (w, true)
    else if negb (bool_decide (Z.land (sw_bitmap w) (u64 (Z.shiftl 1 behind)) = 0)) then (w, false)
    else (mkSeqWindow (sw_top w) (Z.lor (sw_bitmap w) (u64 (Z.shiftl 1 behind))) (sw_any w), true).
End SeqWindow.

Record TransportStats := mkTransportStats {
  st_sent : Z; st_retries : Z; st_acked : Z; st_failed : Z;
  st_duplicates_dropped : Z; st_acks_sent : Z; st_stored_at_anchor : Z
}.
Definition TransportStats_default : TransportStats := mkTransportStats 0 0 0 0 0 0 0.

(** [stats.field += k] *)
Definition add_sent k s := mkTransportStats (u32 (st_sent s + k)) (st_retries s) (st_acked s) (st_failed s)
  (st_duplicates_dropped s) (st_acks_sent s) (st_stored_at_anchor s).
Definition add_retries k s := mkTransportStats (st_sent s) (u32 (st_retries s + k)) (st_acked s) (st_failed s)
  (st_duplicates_dropped s) (st_acks_sent s) (st_stored_at_anchor s).
Definition add_acked k s := mkTransportStats (st_sent s) (st_retries s) (u32 (st_acked s + k)) (st_failed s)
  (st_duplicates_dropped s) (st_acks_sent s) (st_stored_at_anchor s).
Definition add_failed k s := mkTransportStats (st_sent s) (st_retries s) (st_acked s) (u32 (st_failed s + k))
  (st_duplicates_dropped s) (st_acks_sent s) (st_stored_at_anchor s).
Definition add_dups k s := mkTransportStats (st_sent s) (st_retries s) (st_acked s) (st_failed s)
  (u32 (st_duplicates_dropped s + k)) (st_acks_sent s) (st_stored_at_anchor s).
Definition add_stored k s := mkTransportStats (st_sent s) (st_retries s) (st_acked s) (st_failed s)
  (st_duplicates_dropped s) (st_acks_sent s) (u32 (st_stored_at_anchor s + k)).

Record Transport := mkTransport {
  t_cfg : TransportConfig;
  t_outstanding : list Outstanding;
  t_windows : smallmap Address (SeqWindow * Z);
  t_next_seq : Z;
  t_stats : TransportStats
}.

Definition set_outstanding (l : list Outstanding) (f : TransportStats -> TransportStats) (t : Transport) : Transport :=
  mkTransport (t_cfg t) l (t_windows t) (t_next_seq t) (f (t_stats t)).

Module Transport.
Definition new (cfg : TransportConfig) (first_seq : Z) : Transport :=
  mkTransport cfg [] SmallMap.empty first_seq TransportStats_default.

Definition next_seq (t : Transport) : Transport * Z :=
  let s := t_next_seq t in
  let n := u16 (t_next_seq t + 1) in
  let n := if decide (n = 0) then 1 else n in
  (mkTransport (t_cfg t) (t_outstanding t) (t_windows t) n (t_stats t), s).

Definition in_flight (t : Transport) : Z := zlen (t_outstanding t).

Definition track (o : Outstanding) (now : Z) (t : Transport) : Transport * Result unit :=
  if decide (zlen (t_outstanding t) >= max_in_flight (t_cfg t)) then (t, Err Full)
  else
    let o := o_set_timing 1 (u64 (now + initial_rto_ms (t_cfg t))) now o in
    (set_outstanding (t_outstanding t ++ [o]) (add_sent 1) t, Ok ()).

Definition rto {R} `{RngCore R} (cfg : TransportConfig) (attempts : Z) (rng : R) : Z * R :=
  let base := sat_mul 64 (initial_rto_ms cfg) (Z.shiftl 1 (Z.min (sat_sub attempts 1) 6)) in
  let base := Z.min base (max_rto_ms cfg) in
  let '(r, rng') := next_u64 rng in
  (u64 (base + r mod u64 (base / 2 + 1)), rng').

(** [Vec::remove(i)] for an index found by [position]. *)
Definition take_at (i : nat) (l : list Outstanding) : list Outstanding * option Outstanding :=
  (take i l ++ drop (S i) l, l !! i).

Definition on_ack (from : Address) (ack : Ack) (t : Transport) : Transport * option Outstanding :=
  match position (fun o => bool_decide (o_dst o = from) && bool_decide (o_seq o = ack_seq ack)) (t_outstanding t) with
  | None => (t, None)
  | Some i =>
      if decide (ack_st ack = ack_status.STORED) then
        (set_outstanding (alter o_mark_stored i (t_outstanding t)) (add_stored 1) t, None)
      else
        let '(rest, o) := take_at i (t_outstanding t) in
        if decide (ack_st ack = ack_status.DELIVERED)
        then (set_outstanding rest (add_acked 1) t, o)
        else (set_outstanding rest (add_failed 1) t, o)
  end.

Definition has_envelope (envelope_id : Z) (o : Outstanding) : bool :=
  bool_decide (o_envelope_id o = Some envelope_id).

Definition on_envelope_delivered (envelope_id : Z) (t : Transport) : Transport * option Outstanding :=
  match position (has_envelope envelope_id) (t_outstanding t) with
  | None => (t, None)
  | Some i =>
      let '(rest, o) := take_at i (t_outstanding t) in
      (set_outstanding rest (add_acked 1) t, o)
  end.

Definition on_store_accepted (envelope_id : Z) (t : Transport) : Transport * bool :=
  match find_first (has_envelope envelope_id) (t_outstanding t) with
  | Some _ =>
      (set_outstanding (update_first (has_envelope envelope_id) o_mark_stored (t_outstanding t)) (add_stored 1) t, true)
  | None => (t, false)
  end.

Definition fail_all_to (dst : Address) (t : Transport) : Transport * list Outstanding :=
  let gone o := bool_decide (o_dst o = dst) && negb (o_stored o) in
  let g := retain gone (t_outstanding t) in
  (set_outstanding (retain (fun o => negb (gone o)) (t_outstanding t)) (add_failed (u32 (zlen g))) t, g).

(** The [while] loop of [tick] over the messages from index [i] on: what stays,
    what is retried, what failed. *)
Fixpoint tick_loop {R} `{RngCore R} (cfg : TransportConfig) (now : Z) (l : list Outstanding)
    (st : TransportStats) (rng : R) :
    list Outstanding * list Outstanding * list Outstanding * TransportStats * R :=
  match l with
  | [] => ([], [], [], st, rng)
  | o :: l' =>
      if o_stored o then
        if decide (sat_sub now (o_started_at o) > u64 (max_rto_ms cfg * 8)) then
          let '(keep, retry, failed, st, rng) := tick_loop cfg now l' st rng in
          (keep, retry, o :: failed, st, rng)
        else
          let '(keep, retry, failed, st, rng) := tick_loop cfg now l' st rng in
          (o :: keep, retry, failed, st, rng)
      else if decide (now >= o_next_retry o) then
        if decide (o_attempts o >= max_attempts cfg) then
          let '(keep, retry, failed, st, rng) := tick_loop cfg now l' (add_failed 1 st) rng in
          (keep, retry, o :: failed, st, rng)
        else
          let attempts := u8 (o_attempts o + 1) in
          let '(r, rng) := rto cfg attempts rng in
          let o := o_set_timing attempts (u64 (now + r)) (o_started_at o) o in
          let '(keep, retry, failed, st, rng) := tick_loop cfg now l' (add_retries 1 st) rng in
          (o :: keep, o :: retry, failed, st, rng)
      else
        let '(keep, retry, failed, st, rng) := tick_loop cfg now l' st rng in
        (o :: keep, retry, failed, st, rng)
  end.

Definition tick {R} `{RngCore R} (now : Z) (rng : R) (t : Transport) :
    Transport * (list Outstanding * list Outstanding) * R :=
  let '(keep, retry, failed, st, rng) := tick_loop (t_cfg t) now (t_outstanding t) (t_stats t) rng in
  (mkTransport (t_cfg t) keep (t_windows t) (t_next_seq t) st, (retry, failed), rng).

Definition next_deadline (t : Transport) : option Z :=
  zmin (o_next_retry <$> retain (fun o => negb (o_stored o)) (t_outstanding t)).

Definition shift_one (delta : Z) (o : Outstanding) : Outstanding :=
  o_set_timing (o_attempts o)
    (if decide (o_next_retry o <> U64_MAX) then sat_add 64 (o_next_retry o) delta else o_next_retry o)
    (sat_add 64 (o_started_at o) delta) o.

Definition shift_timers (delta : Z) (t : Transport) : Transport :=
  set_outstanding (shift_one delta <$> t_outstanding t) id t.

Definition set_last_packet (dst : Address) (seq : Z) (p : Packet) (t : Transport) : Transport :=
  set_outstanding
    (update_first (fun o => bool_decide (o_dst o = dst) && bool_decide (o_seq o = seq)) (o_set_packet p) (t_outstanding t)) id t.

Definition evict_window (from : Address) (t : Transport) : smallmap Address (SeqWindow * Z) :=
  if negb (SmallMap.contains_key (t_windows t) from) && bool_decide (SmallMap.len (t_windows t) >= max_peers (t_cfg t)) then
    match min_by_key (fun p => p.2.2) (t_windows t) with
    | Some (victim, _) => (SmallMap.remove (t_windows t) victim).1
    | None => t_windows t
    end
  else t_windows t.

Definition accept_incoming (from : Address) (seq now : Z) (t : Transport) : Transport * bool :=
  let ws := evict_window from t in
  let w := match SmallMap.get ws from with Some (w, _) => w | None => SeqWindow.default end in
  let '(w', fresh) := SeqWindow.accept w seq in
  let ws := (SmallMap.insert ws from (w', now)).1 in
  let st := if negb fresh then add_dups 1 (t_stats t) else t_stats t in
  (mkTransport (t_cfg t) (t_outstanding t) ws (t_next_seq t) st, fresh).

Definition reset_peer (from : Address) (t : Transport) : Transport :=
  mkTransport (t_cfg t) (t_outstanding t) (SmallMap.remove (t_windows t) from).1 (t_next_seq t) (t_stats t).
End Transport.

(** ** Receive window: duplicates across sequence-number wrap-around *)

Module SeqWindowFacts.
Import ReplayFacts.

(** The sender's counters are followed without wrap-around; the wire carries
    them modulo [2^16]. *)
Definition seq_represents (w : SeqWindow) (seen : list Z) : Prop :=
  match ReplaySpec.newest seen with
  | None => sw_any w = false
  | Some m => sw_any w = true /\ sw_top w = u16 m /\
      forall d, 0 <= d < 64 -> Z.testbit (sw_bitmap w) d = bool_decide (m - d ∈ seen)
  end.

Definition within_reach (seen : list Z) (c : Z) : bool :=
  match ReplaySpec.newest seen with
  | None => true
  | Some m => bool_decide (m - 64 < c < m + 0x8000)
  end.

Definition note (seen : list Z) (c : Z) : list Z := if decide (c ∈ seen) then seen else c :: seen.

Lemma u16_diff a b : u16 (u16 a - u16 b) = (a - b) mod 65536.
Proof. unfold u16, wrap. change (2 ^ 16) with 65536. by rewrite <- Zminus_mod. Qed.

Lemma seq_accept_first w c : sw_any w = false ->
  (SeqWindow.accept w (u16 c)).2 = true /\ seq_represents (SeqWindow.accept w (u16 c)).1 [c].
Proof.
  intros H. unfold SeqWindow.accept. rewrite H. simpl. split; [done|]. unfold seq_represents. simpl.
  split; [done|]. split; [done|]. intros d Hd. rewrite testbit_one by lia.
  apply bool_decide_ext. rewrite list_elem_of_singleton. unfold id. lia.
Qed.

Lemma seq_accept_refines w seen c :
  seq_represents w seen -> within_reach seen c = true ->
  (SeqWindow.accept w (u16 c)).2 = bool_decide (c ∉ seen) /\
  seq_represents (SeqWindow.accept w (u16 c)).1 (note seen c).
Proof.
  unfold seq_represents at 1, within_reach, note. intros Hw Hreach.
  destruct (ReplaySpec.newest seen) as [m|] eqn:Em.
  2:{ apply newest_None in Em. subst. rewrite decide_False by set_solver.
      rewrite bool_decide_true by set_solver. by apply seq_accept_first. }
  apply bool_decide_eq_true in Hreach. destruct Hw as (Ha & Ht & Hbits).
  pose proof (proj1 (newest_spec _ _) Em) as [Hm Hmax].
  unfold SeqWindow.accept. rewrite Ha, Ht, !u16_diff. cbn [negb].
  destruct (decide (m < c)) as [Hgt|Hle].
  - rewrite (Z.mod_small (c - m)) by lia.
    rewrite (bool_decide_true (c - m <> 0)), (bool_decide_true (c - m < _)) by lia. cbn [andb fst snd].
    assert (c ∉ seen) by (intros ?%Hmax; lia). rewrite (decide_False (P := c ∈ seen)), (bool_decide_true (c ∉ seen)) by done.
    split; [done|]. unfold seq_represents. rewrite (newest_cons_gt c seen m) by done.
    split; [done|]. split; [done|]. intros d Hd. cbn [sw_bitmap]. by eapply shifted_bits.
  - rewrite (Z.mod_small (m - c)) by lia.
    assert (bool_decide ((c - m) mod 65536 <> 0) && bool_decide ((c - m) mod 65536 < 0x8000) = false) as ->.
    { apply andb_false_iff. destruct (decide (c = m)) as [->|]; [left|right]; apply bool_decide_eq_false.
      - rewrite Z.sub_diag. by intros [].
      - rewrite <- (Z.mod_add _ 1) by lia. rewrite Z.mod_small by lia. lia. }
    rewrite decide_False by lia. rewrite (bool_decide_ext _ _ (land_bit_zero (sw_bitmap w) (m - c) ltac:(lia))).
    rewrite Hbits by lia. replace (m - (m - c)) with c by lia.
    destruct (decide (c ∈ seen)) as [Hin|Hin].
    + rewrite (bool_decide_true (c ∈ seen)), (bool_decide_false (c ∉ seen)) by tauto. simpl.
      split; [done|]. unfold seq_represents. by rewrite Em.
    + rewrite (bool_decide_false (c ∈ seen)), (bool_decide_true (c ∉ seen)) by tauto. simpl.
      split; [done|]. unfold seq_represents. rewrite (newest_cons_le c seen m) by (done || lia).
      split; [done|]. split; [done|]. intros d Hd. cbn [sw_bitmap].
      rewrite Z.lor_spec, testbit_single, Hbits by lia. rewrite <- bool_decide_or. apply bool_decide_ext.
      rewrite elem_of_cons. split; [intros [?|?]|intros [?|?]]; (auto || (right; lia) || (left; lia)).
Qed.

Fixpoint seq_run (w : SeqWindow) (cs : list Z) : list bool :=
  match cs with
  | [] => []
  | c :: cs' => let '(w', b) := SeqWindow.accept w (u16 c) in b :: seq_run w' cs'
  end.

(** Every counter arrives less than 64 behind or [2^15] ahead of the newest. *)
Fixpoint in_reach (seen cs : list Z) : bool :=
  match cs with [] => true | c :: cs' => within_reach seen c && in_reach (note seen c) cs' end.

Fixpoint first_times (seen cs : list Z) : list bool :=
  match cs with [] => [] | c :: cs' => bool_decide (c ∉ seen) :: first_times (note seen c) cs' end.

(** Receive-side deduplication follows the sender's counter across the
    wrap-around of the 16-bit sequence number: as long as packets arrive less
    than 64 behind and less than [2^15] ahead of the newest one, the window
    reports a packet as new exactly the first time its counter is seen. *)
Theorem seq_window_dedup (cs : list Z) :
  in_reach [] cs = true -> seq_run SeqWindow.default cs = first_times [] cs.
Proof.
  assert (H : forall cs w seen, seq_represents w seen -> in_reach seen cs = true -> seq_run w cs = first_times seen cs).
  { clear cs. intros cs. induction cs as [|c cs IH]; intros w seen Hw; [done|]. simpl.
    intros [Hr Hrest]%andb_true_iff. destruct (seq_accept_refines w seen c Hw Hr) as [Hv Hw'].
    destruct (SeqWindow.accept w (u16 c)) as [w' b]. simpl in *. rewrite <- Hv. f_equal. by apply IH. }
  by apply H.
Qed.

Lemma seq_window_dedup_witness :
  seq_run SeqWindow.default [65534; 65535; 65537; 65536; 65535; 65600; 65537]
  = [true; true; true; true; false; true; false].
Proof.
  rewrite (seq_window_dedup [65534; 65535; 65537; 65536; 65535; 65600; 65537]); vm_compute; reflexivity.
Defined.
End SeqWindowFacts.

(** ** The retransmission table *)

Module TransportFacts.
Import Transport.

(** Configurations whose timers cannot overflow. *)
Definition config_ok (cfg : TransportConfig) : Prop :=
  0 <= max_attempts cfg <= 255 /\ 0 <= initial_rto_ms cfg < 2 ^ 62 /\ 0 <= max_rto_ms cfg < 2 ^ 61.

(** A message without its timers. *)
Definition message (o : Outstanding) : Outstanding := o_set_timing 0 0 0 o.

Definition entry_ok (cfg : TransportConfig) (o : Outstanding) : Prop :=
  1 <= o_attempts o <= Z.max 1 (max_attempts cfg).

Definition transport_ok (t : Transport) : Prop :=
  config_ok (t_cfg t) /\
  zlen (t_outstanding t) <= Z.max 0 (max_in_flight (t_cfg t)) /\
  Forall (entry_ok (t_cfg t)) (t_outstanding t) /\
  SmallMapFacts.wf (t_windows t) /\
  SmallMap.len (t_windows t) <= Z.max 1 (max_peers (t_cfg t)).

Section Tick.
Context {R} `{RngCoreLaws R}.

(** The wait before the next attempt: the doubled base, capped, plus up to half. *)
Definition backoff (cfg : TransportConfig) (attempts : Z) : Z :=
  Z.min (initial_rto_ms cfg * 2 ^ Z.min (Z.max 0 (attempts - 1)) 6) (max_rto_ms cfg).

(** Exponential backoff with jitter: under a configuration whose timers
    stay below [2^61] ms nothing overflows, the [n]-th retry waits at least the
    initial timeout doubled [n - 1] times (six at most) or the configured
    maximum, whichever is smaller, and at most half of that more. *)
Theorem rto_backoff (cfg : TransportConfig) (attempts : Z) (rng : R) :
  config_ok cfg ->
  backoff cfg attempts <= (rto cfg attempts rng).1 <= backoff cfg attempts + backoff cfg attempts / 2.
Proof.
  intros (_ & Hi & Hm). unfold rto, backoff, sat_mul, sat_sub. rewrite Z.shiftl_1_l.
  set (p := 2 ^ Z.min (Z.max 0 (attempts - 1)) 6).
  assert (1 <= p) by (unfold p; pose proof (Z.pow_pos_nonneg 2 (Z.min (Z.max 0 (attempts - 1)) 6) ltac:(lia) ltac:(lia)); lia).
  change (2 ^ 64 - 1) with 18446744073709551615. change (2 ^ 61) with 2305843009213693952 in Hm.
  assert (E : Z.min (Z.min 18446744073709551615 (initial_rto_ms cfg * p)) (max_rto_ms cfg)
    = Z.min (initial_rto_ms cfg * p) (max_rto_ms cfg)) by lia.
  rewrite E. set (base := Z.min (initial_rto_ms cfg * p) (max_rto_ms cfg)).
  assert (0 <= base < 2305843009213693952) by (unfold base; nia).
  clearbody base. destruct (next_u64 rng) as [r rng']. simpl.
  assert (0 <= base / 2 <= base) by div_lia.
  rewrite (u64_small (base / 2 + 1)) by (change (2 ^ 64) with 18446744073709551616; lia).
  pose proof (Z.mod_pos_bound r (base / 2 + 1) ltac:(lia)).
  rewrite u64_small by (change (2 ^ 64) with 18446744073709551616; lia). lia.
Qed.

Ltac tick_case :=
  match goal with
  | |- context [tick_loop ?cfg ?now ?l ?st ?rng] =>
      let E := fresh "E" in destruct (tick_loop cfg now l st rng) as [[[[? ?] ?] ?] ?] eqn:E
  end.

(** What the loop keeps, retries and gives up on. *)
Lemma tick_loop_spec cfg now l st (rng : R) keep retry failed st' rng' :
  config_ok cfg -> Forall (entry_ok cfg) l ->
  tick_loop cfg now l st rng = (keep, retry, failed, st', rng') ->
  message <$> l ≡ₚ (message <$> keep) ++ (message <$> failed) /\
  sublist retry keep /\ sublist failed l /\ Forall (entry_ok cfg) keep /\
  Forall (fun o => if o_stored o then now - o_started_at o > u64 (max_rto_ms cfg * 8)
                   else o_next_retry o <= now /\ max_attempts cfg <= o_attempts o) failed /\
  Forall (fun o => o_stored o = false /\ 2 <= o_attempts o <= max_attempts cfg) retry.
Proof.
  intros Hcfg Hl. revert st rng keep retry failed st' rng'.
  induction Hl as [|o l Ho Hl IH]; intros st rng keep retry failed st' rng'; simpl.
  { intros [= <- <- <- <- <-]. repeat split; constructor. }
  destruct (o_stored o) eqn:Est; [case_decide as Hold|case_decide as Hdue; [case_decide as Hmax|]].
  - tick_case. intros [= <- <- <- <- <-]. destruct (IH _ _ _ _ _ _ _ E) as (IH1 & IH2 & IH3 & IH4 & IH5 & IH6).
    rewrite !fmap_cons, IH1. repeat split; try done.
    + apply Permutation_middle.
    + by constructor.
    + constructor; [|done]. rewrite Est. unfold sat_sub in Hold. assert (0 <= u64 (max_rto_ms cfg * 8)) by (apply wrap_range; lia). lia.
  - tick_case. intros [= <- <- <- <- <-]. destruct (IH _ _ _ _ _ _ _ E) as (IH1 & IH2 & IH3 & IH4 & IH5 & IH6).
    rewrite !fmap_cons, IH1. repeat split; try done; by constructor.
  - tick_case. intros [= <- <- <- <- <-]. destruct (IH _ _ _ _ _ _ _ E) as (IH1 & IH2 & IH3 & IH4 & IH5 & IH6).
    rewrite !fmap_cons, IH1. repeat split; try done.
    + apply Permutation_middle.
    + by constructor.
    + constructor; [|done]. rewrite Est. lia.
  - destruct (rto cfg _ rng) as [r rng1]. tick_case. intros [= <- <- <- <- <-].
    destruct (IH _ _ _ _ _ _ _ E) as (IH1 & IH2 & IH3 & IH4 & IH5 & IH6).
    unfold entry_ok in Ho. destruct Hcfg as (Ha & _).
    assert (u8 (o_attempts o + 1) = o_attempts o + 1) as Hu by (apply u8_small; lia).
    rewrite !fmap_cons, IH1. repeat split; try done.
    + by constructor.
    + by constructor.
    + constructor; [|done]. unfold entry_ok. simpl. rewrite Hu. lia.
    + constructor; [|done]. simpl. rewrite Hu. split; [done|lia].
  - tick_case. intros [= <- <- <- <- <-]. destruct (IH _ _ _ _ _ _ _ E) as (IH1 & IH2 & IH3 & IH4 & IH5 & IH6).
    rewrite !fmap_cons, IH1. repeat split; try done; by constructor.
Qed.

(** A timer tick accounts for every tracked message: apart from timers,
    the messages before are exactly those kept plus those reported failed; only
    kept messages are retried, at most [max_attempts] times in all; and a
    message fails only when its last allowed attempt has timed out, or when it
    waited too long in an anchor's mailbox. *)
Theorem tick_accounts_for_all (t t' : Transport) (now : Z) (rng rng' : R) (retry failed : list Outstanding) :
  transport_ok t -> tick now rng t = (t', (retry, failed), rng') ->
  message <$> t_outstanding t ≡ₚ (message <$> t_outstanding t') ++ (message <$> failed) /\
  sublist retry (t_outstanding t') /\ sublist failed (t_outstanding t) /\ transport_ok t' /\
  Forall (fun o => if o_stored o then now - o_started_at o > u64 (max_rto_ms (t_cfg t) * 8)
                   else o_next_retry o <= now /\ max_attempts (t_cfg t) <= o_attempts o) failed /\
  Forall (fun o => o_stored o = false /\ 2 <= o_attempts o <= max_attempts (t_cfg t)) retry.
Proof.
  intros (Hcfg & Hlen & Hent & Hwin). unfold tick. tick_case. intros [= <- <- <- <-].
  destruct (tick_loop_spec _ _ _ _ _ _ _ _ _ _ Hcfg Hent E) as (H1 & H2 & H3 & H4 & H5 & H6).
  split; [done|]. split; [done|]. split; [done|]. split; [|done].
  split; [done|]. split; [|done]. simpl. apply (f_equal length) in H1 || apply Permutation_length in H1.
  rewrite length_app, !length_fmap in H1. unfold zlen in *. lia.
Qed.

(** ** Every operation keeps the bounds *)

Inductive tstep : Transport -> Transport -> Prop :=
| step_next_seq t : tstep t (next_seq t).1
| step_track o now t : tstep t (track o now t).1
| step_on_ack from a t : tstep t (on_ack from a t).1
| step_delivered id t : tstep t (on_envelope_delivered id t).1
| step_accepted id t : tstep t (on_store_accepted id t).1
| step_fail dst t : tstep t (fail_all_to dst t).1
| step_tick now (rng : R) t : tstep t (tick now rng t).1.1
| step_shift delta t : tstep t (shift_timers delta t)
| step_packet dst seq p t : tstep t (set_last_packet dst seq p t)
| step_incoming from seq now t : tstep t (accept_incoming from seq now t).1
| step_reset from t : tstep t (reset_peer from t).

(** Replacing the table by one with the same bounds. *)
Lemma set_outstanding_ok t l f :
  transport_ok t -> (length l <= length (t_outstanding t))%nat -> Forall (entry_ok (t_cfg t)) l ->
  transport_ok (set_outstanding l f t).
Proof. intros (? & ? & ? & ?) Hl Hf. split; [done|]. split; [|done]. simpl. unfold zlen in *. lia. Qed.

Lemma take_at_ok cfg i l :
  Forall (entry_ok cfg) l ->
  (length (take_at i l).1 <= length l)%nat /\ Forall (entry_ok cfg) (take_at i l).1.
Proof.
  intros Hl. unfold take_at. simpl. split.
  - rewrite length_app, length_take, length_drop. lia.
  - apply Forall_app. split; [by apply Forall_take|by apply Forall_drop].
Qed.

Lemma remove_at_ok t i f : transport_ok t -> transport_ok (set_outstanding (take_at i (t_outstanding t)).1 f t).
Proof. intros Ht. destruct (take_at_ok (t_cfg t) i (t_outstanding t)) as [??]; [apply Ht|]. by apply set_outstanding_ok. Qed.

Lemma on_ack_ok from a t : transport_ok t -> transport_ok (on_ack from a t).1.
Proof.
  intros Ht. unfold on_ack. destruct (position _ _) as [i|]; [|done]. case_decide.
  - apply set_outstanding_ok; [done|by rewrite length_alter|]. apply Forall_alter; [apply Ht|]. done.
  - pose proof (fun f => remove_at_ok t i f Ht) as H1.
    destruct (take_at i (t_outstanding t)) as [rest o]. case_decide; apply H1.
Qed.

Lemma delivered_ok id t : transport_ok t -> transport_ok (on_envelope_delivered id t).1.
Proof.
  intros Ht. unfold on_envelope_delivered. destruct (position _ _) as [i|]; [|done].
  pose proof (fun f => remove_at_ok t i f Ht) as H1. destruct (take_at i (t_outstanding t)). apply H1.
Qed.

Lemma update_first_ok p f g t :
  transport_ok t -> (forall o, o_attempts (f o) = o_attempts o) ->
  transport_ok (set_outstanding (update_first p f (t_outstanding t)) g t).
Proof.
  intros Ht Hf. apply set_outstanding_ok; [done|by rewrite length_update_first|].
  apply Forall_update_first; [apply Ht|]. intros o _ Ho _. unfold entry_ok. by rewrite Hf.
Qed.

Lemma evict_window_ok from t :
  transport_ok t ->
  SmallMapFacts.wf (evict_window from t) /\
  SmallMap.len (SmallMap.insert (evict_window from t) from (SeqWindow.default, 0)).1 <= Z.max 1 (max_peers (t_cfg t)).
Proof.
  intros (_ & _ & _ & Hwf & Hlen). unfold evict_window.
  rewrite SmallMapFacts.contains_key_get by done.
  destruct (SmallMap.get (t_windows t) from) as [v|] eqn:Eg; simpl.
  { split; [done|]. rewrite SmallMapFacts.len_insert, Eg by done. lia. }
  case_bool_decide as Hfull.
  2:{ split; [done|]. rewrite SmallMapFacts.len_insert, Eg by done. lia. }
  destruct (min_by_key _ _) as [[victim v]|] eqn:Em.
  - apply min_by_key_In in Em. apply SmallMapFacts.get_Some in Em; [|done].
    assert (Hw : SmallMapFacts.wf (SmallMap.remove (t_windows t) victim).1) by (by apply SmallMapFacts.remove_wf).
    split; [done|]. rewrite SmallMapFacts.len_insert by done. rewrite SmallMapFacts.len_remove, Em by done.
    case_match; lia.
  - apply min_by_key_None in Em. rewrite Em. split; [apply SmallMapFacts.empty_wf|]. rewrite SmallMapFacts.len_insert by apply SmallMapFacts.empty_wf.
    unfold SmallMap.len. rewrite zlen_nil. case_match; lia.
Qed.

Lemma accept_incoming_ok from seq now t : transport_ok t -> transport_ok (accept_incoming from seq now t).1.
Proof.
  intros Ht. destruct (evict_window_ok from t Ht) as [Hw Hl]. unfold accept_incoming.
  destruct (SeqWindow.accept _ _) as [w' fresh]. destruct Ht as (? & ? & ? & _).
  split; [done|]. split; [done|]. split; [done|]. simpl. split; [by apply SmallMapFacts.insert_wf|].
  rewrite SmallMapFacts.len_insert in Hl |- * by done. done.
Qed.

Lemma tick_ok now (rng : R) t : transport_ok t -> transport_ok (tick now rng t).1.1.
Proof.
  intros (Hcfg & Hlen & Hent & Hwin). unfold tick. tick_case. simpl.
  destruct (tick_loop_spec _ _ _ _ _ _ _ _ _ _ Hcfg Hent E) as (H1 & _ & _ & H4 & _).
  split; [done|]. split; [|done]. simpl. apply Permutation_length in H1.
  rewrite length_app, !length_fmap in H1. unfold zlen in *. lia.
Qed.

Lemma tstep_ok t t' : transport_ok t -> tstep t t' -> transport_ok t'.
Proof.
  intros Ht Hs. destruct Hs.
  - done.
  - unfold track. case_decide; [done|]. destruct Ht as (? & ? & ? & ?). split; [done|]. split; [|split; [|done]]; simpl.
    + rewrite zlen_app. unfold zlen at 2. simpl. lia.
    + apply Forall_app. split; [done|]. repeat constructor; simpl; lia.
  - by apply on_ack_ok.
  - by apply delivered_ok.
  - unfold on_store_accepted. destruct (find_first _ _); [|done]. by apply update_first_ok.
  - apply set_outstanding_ok; [done|apply length_retain|]. apply Forall_retain, Ht.
  - by apply tick_ok.
  - apply set_outstanding_ok; [done|by rewrite length_fmap|]. apply Forall_fmap.
    eapply Forall_impl; [apply Ht|]. done.
  - by apply update_first_ok.
  - by apply accept_incoming_ok.
  - destruct Ht as (? & ? & ? & ? & ?). split; [done|]. split; [done|]. split; [done|]. split; simpl.
    + by apply SmallMapFacts.remove_wf.
    + rewrite SmallMapFacts.len_remove by done. destruct (SmallMap.get _ _); lia.
Qed.

(** Whatever sequence of calls the node makes, the engine stays within its
    configuration: at most [max_in_flight] tracked messages, each with between
    one and [max_attempts] attempts, and at most [max_peers] receive windows. *)
Theorem transport_bounded (cfg : TransportConfig) (first_seq : Z) (t : Transport) :
  config_ok cfg -> rtc tstep (new cfg first_seq) t -> transport_ok t /\ t_cfg t = cfg.
Proof.
  intros Hcfg Hr.
  assert (Hinit : transport_ok (new cfg first_seq) /\ t_cfg (new cfg first_seq) = cfg).
  { split; [|done]. split; [done|]. simpl. split; [rewrite zlen_nil; lia|].
    split; [constructor|]. split; [apply SmallMapFacts.empty_wf|]. unfold SmallMap.len, SmallMap.empty, zlen. simpl. lia. }
  revert Hinit. generalize (new cfg first_seq) Hr. clear Hr. intros t0 Hr.
  induction Hr as [|t0 t1 t2 Hs _ IH]; [done|]. intros [Hok Hc]. apply IH. split; [by eapply tstep_ok|].
  rewrite <- Hc. destruct Hs; try done.
  - unfold track. by case_decide.
  - unfold on_ack. destruct (position _ _); [|done]. case_decide; [done|].
    destruct (take_at _ _). by case_decide.
  - unfold on_envelope_delivered. destruct (position _ _); [|done]. by destruct (take_at _ _).
  - unfold on_store_accepted. by destruct (find_first _ _).
  - unfold tick. by tick_case.
  - unfold accept_incoming. by destruct (SeqWindow.accept _ _).
Qed.

(** ** Giving up *)

Fixpoint ticks (nows : list Z) (rng : R) (t : Transport) : Transport * R :=
  match nows with
  | [] => (t, rng)
  | now :: nows' => let '(t', _, rng') := tick now rng t in ticks nows' rng' t'
  end.

(** Every tick of the run comes when all unstored messages are due. *)
Fixpoint due_run (nows : list Z) (rng : R) (t : Transport) : bool :=
  match nows with
  | [] => true
  | now :: nows' =>
      bool_decide (Forall (fun o => o_stored o = true \/ o_next_retry o <= now) (t_outstanding t)) &&
      let '(t', _, rng') := tick now rng t in due_run nows' rng' t'
  end.

Lemma tick_loop_due cfg now l st (rng : R) k keep retry failed st' rng' :
  config_ok cfg -> Forall (entry_ok cfg) l ->
  Forall (fun o => o_stored o = true \/ o_next_retry o <= now) l ->
  Forall (fun o => o_stored o = true \/ k <= o_attempts o) l ->
  tick_loop cfg now l st rng = (keep, retry, failed, st', rng') ->
  Forall (fun o => o_stored o = true \/ k + 1 <= o_attempts o <= max_attempts cfg) keep.
Proof.
  intros Hcfg Hl Hd Hk. revert st rng keep retry failed st' rng'.
  induction Hl as [|o l Ho Hl IH]; intros st rng keep retry failed st' rng'; simpl.
  { intros [= <- <- <- <- <-]. constructor. }
  inversion_clear Hd as [|? ? Hdo Hdl]. inversion_clear Hk as [|? ? Hko Hkl]. specialize (IH Hdl Hkl).
  destruct (o_stored o) eqn:Est; [case_decide as Hold|case_decide as Hdue; [case_decide as Hmax|]].
  - tick_case. intros [= <- <- <- <- <-]. eauto.
  - tick_case. intros [= <- <- <- <- <-]. constructor; eauto.
  - tick_case. intros [= <- <- <- <- <-]. eauto.
  - destruct (rto cfg _ rng) as [r rng1]. tick_case. intros [= <- <- <- <- <-]. constructor; [|eauto].
    right. simpl. unfold entry_ok in Ho. destruct Hcfg as (? & _), Hko as [?|?]; [done|].
    rewrite u8_small by lia. lia.
  - destruct Hdo; [done|lia].
Qed.

(** C36. Retransmission terminates: once the retry timer of every message has
    expired [max_attempts] times in a row without an acknowledgement, no
    message is waiting any more, except those an anchor holds. *)
Theorem transport_gives_up (t : Transport) (nows : list Z) (rng : R) :
  transport_ok t -> due_run nows rng t = true -> max_attempts (t_cfg t) <= zlen nows -> nows <> [] ->
  Forall (fun o => o_stored o = true) (t_outstanding (ticks nows rng t).1).
Proof.
  intros Ht Hd Hlen Hne.
  assert (H1 : forall k, Forall (fun o => o_stored o = true \/ k <= o_attempts o) (t_outstanding t) ->
    transport_ok t -> due_run nows rng t = true ->
    Forall (fun o => o_stored o = true \/ k + zlen nows <= o_attempts o <= max_attempts (t_cfg t)) (t_outstanding (ticks nows rng t).1)).
  { clear Ht Hd Hlen. revert t rng. induction nows as [|now nows IH]; intros t rng k Hk Ht Hd; [done|].
    simpl in *. apply andb_true_iff in Hd as [Hdue%bool_decide_eq_true Hrest].
    pose proof (tick_ok now rng t Ht) as Ht'. pose proof Ht as (Hcfg & _ & Hent & _).
    destruct (tick now rng t) as [[t' rf] rng'] eqn:Et. simpl in Ht'.
    assert (Hn : t_cfg t' = t_cfg t /\
      Forall (fun o => o_stored o = true \/ k + 1 <= o_attempts o <= max_attempts (t_cfg t)) (t_outstanding t')).
    { revert Et. unfold tick. tick_case. intros [= <- <- <-]. split; [done|]. simpl. by eapply tick_loop_due. }
    destruct Hn as [Hc Hn]. destruct nows as [|now' nows].
    - simpl. rewrite zlen_cons, zlen_nil. by replace (k + (1 + 0)) with (k + 1) by lia.
    - rewrite <- Hc, zlen_cons, Z.add_assoc. apply IH; [done| |done|done].
      eapply Forall_impl; [exact Hn|]. simpl. intros o. intros [?|?]; [by left|right; lia]. }
  eapply Forall_impl; [apply (H1 1)|].
  - eapply Forall_impl; [apply Ht|]. intros o Ho. right. unfold entry_ok in Ho. lia.
  - done.
  - done.
  - simpl. intros o [?|?]; [done|lia].
Qed.
End Tick.

(** ** Concrete runs *)

Definition ex_dst : Address := mkAddress [1; 2; 3; 4; 5; 6; 7; 8].
Definition ex_out (seq : Z) (stored : bool) : Outstanding :=
  mkOutstanding ex_dst seq seq Acknowledged [42] 0 0 0 None stored None.
Definition ex_transport : Transport :=
  (track (ex_out 2 true) 1000 (track (ex_out 1 false) 1000 (new TransportConfig_default 7)).1).1.

Lemma transport_default_ok : config_ok TransportConfig_default.
Proof. unfold config_ok. simpl. split; [lia|]. split; [split; [lia|reflexivity]|split; [lia|reflexivity]]. Qed.

Lemma ex_transport_ok : transport_ok ex_transport.
Proof. apply (tstep_ok (R := Z) (track (ex_out 1 false) 1000 (new TransportConfig_default 7)).1); [|constructor].
  apply (tstep_ok (R := Z) (new TransportConfig_default 7)); [|constructor].
  split; [exact transport_default_ok|]. split; [done|]. split; [constructor|]. split; [apply SmallMapFacts.empty_wf|done].
Qed.

Lemma tick_accounts_for_all_witness :
  length (tick 6000 3 ex_transport).1.2.1 = 1%nat /\
  sublist (tick 6000 3 ex_transport).1.2.1 (t_outstanding (tick 6000 3 ex_transport).1.1).
Proof.
  split; [reflexivity|].
  apply (tick_accounts_for_all ex_transport (tick 6000 3 ex_transport).1.1 6000 3 (tick 6000 3 ex_transport).2
    (tick 6000 3 ex_transport).1.2.1 (tick 6000 3 ex_transport).1.2.2 ex_transport_ok).
  by destruct (tick 6000 3 ex_transport) as [[? [? ?]] ?].
Defined.

Lemma transport_bounded_witness : transport_ok ex_transport /\ t_cfg ex_transport = TransportConfig_default.
Proof.
  apply (transport_bounded (R := Z) TransportConfig_default 7); [exact transport_default_ok|].
  eapply rtc_l; [apply (step_track (ex_out 1 false) 1000)|].
  eapply rtc_l; [apply (step_track (ex_out 2 true) 1000)|]. apply rtc_refl.
Defined.

Lemma transport_gives_up_witness :
  due_run [10000; 100000; 200000; 300000] 5 ex_transport = true /\
  Forall (fun o => o_stored o = true) (t_outstanding (ticks [10000; 100000; 200000; 300000] 5 ex_transport).1).
Proof.
  split; [vm_compute; reflexivity|].
  apply (transport_gives_up ex_transport [10000; 100000; 200000; 300000] 5 ex_transport_ok).
  - vm_compute. reflexivity.
  - vm_compute. discriminate.
  - discriminate.
Defined.

Lemma rto_backoff_witness : 16000 <= (rto TransportConfig_default 3 5).1 <= 24000.
Proof. exact (rto_backoff TransportConfig_default 3 5 transport_default_ok). Defined.

Lemma ack_roundtrip (a : Ack) :
  in_u 16 (ack_seq a) -> 0 <= ack_st a <= 2 -> ack_decode (ack_encode a) = Ok a.
Proof.
  intros Hs Hst. unfold ack_decode, ack_encode, ack_status.REJECTED. rewrite decide_False by (autorewrite with mesh; lia).
  codec. rewrite from_be_16 by done. by destruct a.
Qed.
End TransportFacts.
