(* ===== verification/StoreForward.v ===== *)
(** * Store-and-forward mailbox

    [crates/meshstar-core/src/store_forward/mod.rs]: the STORE and envelope
    codecs and the bounded mailbox of an anchor node. *)
From stdpp Require Import base tactics list numbers sets relations sorting.
From Stdlib Require Import Lia.
From S2P Require Import Prelude SmallMap Protocol CryptoLib Identity Noise.

Record StoreRequest := mkStoreRequest {
  sr_dst : Address; sr_envelope_id : Z; sr_ttl_s : Z; sr_envelope : list Z
}.

Definition STORE_HEADER_LEN : Z := 16.

Definition store_encode (r : StoreRequest) : list Z :=
  addr_bytes (sr_dst r) ++ be_bytes 4 (sr_envelope_id r) ++ be_bytes 4 (sr_ttl_s r) ++ sr_envelope r.

Definition store_decode (b : list Z) : Result StoreRequest :=
  if decide (zlen b < STORE_HEADER_LEN + ENVELOPE_OVERHEAD) then Err Truncated else
  s ← slice b 0 8;
  dst ← addr_from_bytes s;
  if is_null dst || is_broadcast dst then Err BadField else
  envelope_id ← be_at b 8 4;
  ttl_s ← be_at b 12 4;
  if decide (ttl_s = 0) then Err BadField else
  envelope ← slice_from b 16;
  Ok (mkStoreRequest dst envelope_id ttl_s envelope).

Definition frame_envelope (envelope_id : Z) (envelope : list Z) : list Z :=
  be_bytes 4 envelope_id ++ envelope.

Definition parse_envelope_frame (b : list Z) : Result (Z * list Z) :=
  if decide (zlen b < 4 + ENVELOPE_OVERHEAD) then Err Truncated else
  id ← be_at b 0 4;
  rest ← slice_from b 4;
  Ok (id, rest).

Definition encode_store_result (envelope_id : Z) (reason : option Z) : list Z :=
  be_bytes 4 envelope_id ++ match reason with Some r => [r] | None => [] end.

Definition decode_store_result (b : list Z) : Result (Z * option Z) :=
  if decide (zlen b < 4) then Err Truncated else
  id ← be_at b 0 4;
  if decide (zlen b = 4) then Ok (id, None) else
  if decide (zlen b = 5) then (r ← idx b 4; Ok (id, Some r)) else Err BadField.

Record StoredEnvelope := mkStoredEnvelope {
  se_dst : Address;
  se_envelope_id : Z;
  se_depositor : Address;
  se_stored_at : Z;
  se_expires_at : Z;
  se_delivery_attempts : Z;
  se_last_attempt : Z;
  se_envelope : list Z
}.

Record MailboxConfig := mkMailboxConfig {
  max_entries : Z; max_bytes : Z; max_per_destination : Z;
  max_ttl_ms : Z; max_delivery_attempts : Z; retry_interval_ms : Z
}.
Definition MailboxConfig_default : MailboxConfig :=
  mkMailboxConfig 64 (16 * 1024) 8 (7 * 24 * 3600 * 1000) 6 30000.

Module reject_reason.
Definition FULL : Z := 1.
Definition PER_DESTINATION_LIMIT : Z := 2.
Definition DUPLICATE : Z := 3.
Definition NOT_ANCHOR : Z := 4.
End reject_reason.

Record MailboxStats := mkMailboxStats { ms_stored : Z; ms_delivered : Z; ms_expired : Z; ms_rejected : Z }.
Definition MailboxStats_default : MailboxStats := mkMailboxStats 0 0 0 0.

Record Mailbox := mkMailbox {
  mb_cfg : MailboxConfig; mb_entries : list StoredEnvelope; mb_bytes : Z; mb_stats : MailboxStats
}.

Module Mailbox.
Definition new (cfg : MailboxConfig) : Mailbox := mkMailbox cfg [] 0 MailboxStats_default.

Definition len (m : Mailbox) : Z := zlen (mb_entries m).
Definition is_empty (m : Mailbox) : bool := bool_decide (mb_entries m = []).

Definition has_space (m : Mailbox) : bool :=
  bool_decide (zlen (mb_entries m) < max_entries (mb_cfg m)) && bool_decide (mb_bytes m < max_bytes (mb_cfg m)).

Definition is_for (dst : Address) (e : StoredEnvelope) : bool := bool_decide (se_dst e = dst).
Definition is_env (dst : Address) (id : Z) (e : StoredEnvelope) : bool :=
  bool_decide (se_dst e = dst) && bool_decide (se_envelope_id e = id).

(** [stats.rejected += 1] *)
Definition reject (m : Mailbox) : Mailbox :=
  mkMailbox (mb_cfg m) (mb_entries m) (mb_bytes m)
    (mkMailboxStats (ms_stored (mb_stats m)) (ms_delivered (mb_stats m)) (ms_expired (mb_stats m))
       (u32 (ms_rejected (mb_stats m) + 1))).

Definition store (now : Z) (depositor : Address) (req : StoreRequest) (m : Mailbox) : Mailbox * outcome Z unit :=
  if existsb (is_env (sr_dst req) (sr_envelope_id req)) (mb_entries m) then (reject m, Err reject_reason.DUPLICATE)
  else if decide (zlen (retain (is_for (sr_dst req)) (mb_entries m)) >= max_per_destination (mb_cfg m))
  then (reject m, Err reject_reason.PER_DESTINATION_LIMIT)
  else if decide (zlen (mb_entries m) >= max_entries (mb_cfg m) \/
                  usize (mb_bytes m + zlen (sr_envelope req)) > max_bytes (mb_cfg m))
  then (reject m, Err reject_reason.FULL)
  else
    let ttl := Z.min (u64 (sr_ttl_s req * 1000)) (max_ttl_ms (mb_cfg m)) in
    let e := mkStoredEnvelope (sr_dst req) (sr_envelope_id req) depositor now (u64 (now + ttl)) 0 0 (sr_envelope req) in
    (mkMailbox (mb_cfg m) (mb_entries m ++ [e]) (usize (mb_bytes m + zlen (sr_envelope req)))
       (mkMailboxStats (u32 (ms_stored (mb_stats m) + 1)) (ms_delivered (mb_stats m)) (ms_expired (mb_stats m))
          (ms_rejected (mb_stats m))), Ok ()).

(** The two [continue] guards of [take_deliverable]. *)
Definition deliverable (cfg : MailboxConfig) (now : Z) (e : StoredEnvelope) : bool :=
  negb (bool_decide (se_delivery_attempts e > 0) &&
        bool_decide (sat_sub now (se_last_attempt e) < retry_interval_ms cfg)) &&
  negb (bool_decide (se_delivery_attempts e >= max_delivery_attempts cfg)).

Definition mark_attempt (now : Z) (e : StoredEnvelope) : StoredEnvelope :=
  mkStoredEnvelope (se_dst e) (se_envelope_id e) (se_depositor e) (se_stored_at e) (se_expires_at e)
    (u8 (se_delivery_attempts e + 1)) now (se_envelope e).

(** The loop of [take_deliverable], with the number of envelopes output. *)
Fixpoint take_loop (cfg : MailboxConfig) (dst : Address) (now max : Z) (taken : Z) (l : list StoredEnvelope) :
    list StoredEnvelope * list (Z * list Z) :=
  match l with
  | [] => ([], [])
  | e :: l' =>
      if negb (is_for dst e) then
        let '(r, out) := take_loop cfg dst now max taken l' in (e :: r, out)
      else if decide (taken >= max) then (e :: l', [])
      else if deliverable cfg now e then
        let '(r, out) := take_loop cfg dst now max (taken + 1) l' in
        (mark_attempt now e :: r, (se_envelope_id e, se_envelope e) :: out)
      else let '(r, out) := take_loop cfg dst now max taken l' in (e :: r, out)
  end.

Definition take_deliverable (dst : Address) (now max : Z) (m : Mailbox) : Mailbox * list (Z * list Z) :=
  let '(l, out) := take_loop (mb_cfg m) dst now max 0 (mb_entries m) in
  (mkMailbox (mb_cfg m) l (mb_bytes m) (mb_stats m), out).

Definition pending_for (dst : Address) (m : Mailbox) : Z := zlen (retain (is_for dst) (mb_entries m)).

(** [Vec::dedup]: drop an element equal to the one before it. *)
Fixpoint dedup (l : list Address) : list Address :=
  match l with
  | x :: (y :: _) as l' => if decide (x = y) then dedup l' else x :: dedup l'
  | _ => l
  end.

(** [v.sort(); v.dedup()]; a sort on a total order has one result. *)
Definition destinations (m : Mailbox) : list Address :=
  dedup (sort_by_key (se_dst <$> mb_entries m) id).

Definition delivered (dst : Address) (envelope_id : Z) (m : Mailbox) : Mailbox * bool :=
  match position (is_env dst envelope_id) (mb_entries m) with
  | Some i =>
      let n := match mb_entries m !! i with Some e => zlen (se_envelope e) | None => 0 end in
      (mkMailbox (mb_cfg m) (take i (mb_entries m) ++ drop (S i) (mb_entries m)) (usize (mb_bytes m - n))
         (mkMailboxStats (ms_stored (mb_stats m)) (u32 (ms_delivered (mb_stats m) + 1)) (ms_expired (mb_stats m))
            (ms_rejected (mb_stats m))), true)
  | None => (m, false)
  end.

Definition gc_keep (cfg : MailboxConfig) (now : Z) (e : StoredEnvelope) : bool :=
  bool_decide (se_expires_at e > now) && bool_decide (se_delivery_attempts e < max_delivery_attempts cfg).

Definition gc (now : Z) (m : Mailbox) : Mailbox * Z :=
  let keep := retain (gc_keep (mb_cfg m) now) (mb_entries m) in
  let freed := usize (zsum ((fun e => zlen (se_envelope e)) <$> retain (fun e => negb (gc_keep (mb_cfg m) now e)) (mb_entries m))) in
  let n := usize (zlen (mb_entries m) - zlen keep) in
  (mkMailbox (mb_cfg m) keep (usize (mb_bytes m - freed))
     (mkMailboxStats (ms_stored (mb_stats m)) (ms_delivered (mb_stats m)) (u32 (ms_expired (mb_stats m) + n))
        (ms_rejected (mb_stats m))), n).
End Mailbox.

(** ** Codecs *)

Definition store_request_ok (r : StoreRequest) : Prop :=
  address_ok (sr_dst r) /\ is_reserved (sr_dst r) = false /\ in_u 32 (sr_envelope_id r) /\
  1 <= sr_ttl_s r < 2 ^ 32 /\ ENVELOPE_OVERHEAD <= zlen (sr_envelope r).

Lemma store_decode_encode r : store_request_ok r -> store_decode (store_encode r) = Ok r.
Proof.
  intros (Hd & Hres & Hid & Httl & He). pose proof (zlen_addr _ Hd) as Hz.
  unfold store_decode, store_encode, STORE_HEADER_LEN, ENVELOPE_OVERHEAD in *.
  codec. rewrite addr_from_bytes_self by done. cbn [mbind outcome_bind].
  unfold is_reserved in Hres. rewrite Hres. codec.
  rewrite !from_be_32 by (done || (unfold in_u; lia)). codec.
  by destruct r.
Qed.

Lemma safe_store_codecs b : safe (store_decode b) /\ safe (parse_envelope_frame b) /\ safe (decode_store_result b).
Proof.
  unfold store_decode, parse_envelope_frame, decode_store_result, STORE_HEADER_LEN, ENVELOPE_OVERHEAD. repeat split; safe_tac.
Qed.

(** The store-and-forward payloads survive the wire: a STORE request, an
    envelope frame and a STORE result decode to what was encoded, and no input
    makes a decoder panic. *)
Theorem store_codecs_roundtrip (r : StoreRequest) (reason : option Z) :
  store_request_ok r -> from_option byte_ok True reason ->
  store_decode (store_encode r) = Ok r /\
  parse_envelope_frame (frame_envelope (sr_envelope_id r) (sr_envelope r)) = Ok (sr_envelope_id r, sr_envelope r) /\
  decode_store_result (encode_store_result (sr_envelope_id r) reason) = Ok (sr_envelope_id r, reason) /\
  forall b, store_decode b <> Panic /\ parse_envelope_frame b <> Panic /\ decode_store_result b <> Panic.
Proof.
  intros Hr Hreason. split; [by apply store_decode_encode|]. destruct Hr as (Hd & Hres & Hid & Httl & He).
  split; [|split].
  - unfold parse_envelope_frame, frame_envelope, ENVELOPE_OVERHEAD in *.
    codec. rewrite from_be_32 by done. codec. done.
  - unfold decode_store_result, encode_store_result. destruct reason as [x|].
    + codec. rewrite from_be_32 by done. codec. done.
    + rewrite app_nil_r. codec. by rewrite from_be_32.
  - apply safe_store_codecs.
Qed.

(** ** The mailbox *)

Module MailboxFacts.
Import Mailbox.

Definition ekey (e : StoredEnvelope) : Address * Z := (se_dst e, se_envelope_id e).
Definition elen (e : StoredEnvelope) : Z := zlen (se_envelope e).
Definition occupancy (l : list StoredEnvelope) : Z := zsum (elen <$> l).

Definition config_ok (cfg : MailboxConfig) : Prop :=
  0 <= max_entries cfg < 2 ^ 31 /\ 0 <= max_bytes cfg < 2 ^ 31 /\ 0 <= max_delivery_attempts cfg <= 255.

Definition mailbox_ok (m : Mailbox) : Prop :=
  config_ok (mb_cfg m) /\
  NoDup (ekey <$> mb_entries m) /\
  mb_bytes m = occupancy (mb_entries m) /\
  mb_bytes m <= max_bytes (mb_cfg m) /\
  zlen (mb_entries m) <= max_entries (mb_cfg m) /\
  (forall dst, pending_for dst m <= Z.max 0 (max_per_destination (mb_cfg m))) /\
  Forall (fun e => 0 <= se_delivery_attempts e <= max_delivery_attempts (mb_cfg m)) (mb_entries m).

(** The calls that change a mailbox. *)
Inductive mop :=
| Store (now : Z) (depositor : Address) (req : StoreRequest)
| Take (dst : Address) (now max : Z)
| Delivered (dst : Address) (envelope_id : Z)
| Gc (now : Z).

Definition run_op (o : mop) (m : Mailbox) : Mailbox :=
  match o with
  | Store now d r => (store now d r m).1
  | Take dst now max => (take_deliverable dst now max m).1
  | Delivered dst id => (delivered dst id m).1
  | Gc now => (gc now m).1
  end.

(** Requests carry envelopes that fit in memory. *)
Definition op_ok (o : mop) : Prop :=
  match o with Store _ _ r => zlen (sr_envelope r) < 2 ^ 31 | _ => True end.

Lemma occupancy_nonneg l : 0 <= occupancy l.
Proof. apply zsum_nonneg. apply Forall_fmap, Forall_true. intros e. apply zlen_nonneg. Qed.

Lemma occupancy_perm l k : l ≡ₚ k -> occupancy l = occupancy k.
Proof. intros H. unfold occupancy. by rewrite H. Qed.

Lemma mailbox_new_ok cfg : config_ok cfg -> mailbox_ok (new cfg).
Proof.
  intros Hc. split; [done|]. split; [constructor|]. destruct Hc as (? & ? & ?).
  split; [done|]. split; [simpl; lia|]. split; [simpl; rewrite zlen_nil; lia|]. split; [|constructor].
  intros dst. change (pending_for dst (new cfg)) with 0. lia.
Qed.

(** Dropping entries keeps the invariant, with the bytes given back. *)
Lemma shrink_ok m l gone s :
  mailbox_ok m -> mb_entries m ≡ₚ l ++ gone ->
  mailbox_ok (mkMailbox (mb_cfg m) l (usize (mb_bytes m - occupancy gone)) s) /\
  usize (mb_bytes m - occupancy gone) = occupancy l.
Proof.
  intros (Hc & Hnd & Hb & Hbm & Hn & Hp & Ha) Hl.
  pose proof (occupancy_perm _ _ Hl) as Ho. unfold occupancy in Ho. rewrite fmap_app, zsum_app in Ho.
  fold (occupancy l) (occupancy gone) (occupancy (mb_entries m)) in Ho.
  pose proof (occupancy_nonneg l). pose proof (occupancy_nonneg gone).
  destruct Hc as (Hc1 & Hc2 & Hc3). change (2 ^ 31) with 2147483648 in *.
  assert (Hu : usize (mb_bytes m - occupancy gone) = occupancy l).
  { rewrite usize_small by (change (2 ^ 32) with 4294967296; lia). lia. }
  split; [|done]. rewrite Hu. split; [done|]. simpl. split; [|split; [done|split; [lia|split; [|split]]]].
  - rewrite Hl, fmap_app in Hnd. by apply NoDup_app in Hnd as (? & _ & _).
  - apply Permutation_length in Hl. rewrite length_app in Hl. unfold zlen in *. lia.
  - intros dst. specialize (Hp dst). unfold pending_for in *. simpl.
    pose proof (Permutation_length (retain_Permutation (is_for dst) _ _ Hl)) as HP.
    rewrite retain_app, length_app in HP. unfold zlen in *. lia.
  - rewrite Hl in Ha. by apply Forall_app in Ha as [? _].
Qed.

Lemma existsb_ekey dst id l :
  existsb (is_env dst id) l = false <-> (dst, id) ∉ ekey <$> l.
Proof.
  rewrite <- not_true_iff_false, existsb_exists, list_elem_of_fmap. unfold is_env, ekey. split.
  - intros Hne (e & E & Hin). apply Hne. exists e. rewrite <- list_elem_of_In. split; [done|].
    injection E as -> ->. by rewrite !bool_decide_true.
  - intros Hne (e & Hin & Heq). apply Hne. exists e. rewrite list_elem_of_In. split; [|done].
    apply andb_true_iff in Heq as [->%bool_decide_eq_true ->%bool_decide_eq_true]. done.
Qed.

Lemma mailbox_store_ok now d req m :
  mailbox_ok m -> zlen (sr_envelope req) < 2 ^ 31 -> mailbox_ok (store now d req m).1.
Proof.
  intros Hm Hlen. unfold store.
  assert (Hrej : mailbox_ok (reject m)) by exact Hm.
  destruct (existsb _ _) eqn:Hdup; [done|]. case_decide as Hper; [done|]. case_decide as Hfull; [done|].
  destruct Hm as (Hc & Hnd & Hb & Hbm & Hn & Hp & Ha). simpl.
  pose proof (zlen_nonneg (sr_envelope req)). pose proof (occupancy_nonneg (mb_entries m)).
  destruct Hc as (Hc1 & Hc2 & Hc3). change (2 ^ 31) with 2147483648 in *.
  rewrite usize_small in * by (change (2 ^ 32) with 4294967296; lia).
  split; [done|]. simpl. split; [|split; [|split; [lia|split; [|split]]]].
  - rewrite fmap_app, Permutation_app_comm. simpl. constructor; [|done]. by apply existsb_ekey.
  - unfold occupancy. rewrite fmap_app, zsum_app. simpl. unfold occupancy in Hb. unfold elen at 2. simpl. lia.
  - rewrite zlen_app, zlen_cons, zlen_nil. lia.
  - intros dst. specialize (Hp dst). unfold pending_for in *. simpl. rewrite retain_app, zlen_app, retain_cons.
    unfold is_for at 2. simpl. case_bool_decide as E.
    + subst dst. rewrite zlen_cons. change (retain (is_for (sr_dst req)) []) with (@nil StoredEnvelope).
      rewrite zlen_nil. lia.
    + change (retain (is_for dst) []) with (@nil StoredEnvelope). rewrite zlen_nil. lia.
  - apply Forall_app. split; [done|]. repeat constructor; simpl; lia.
Qed.

Lemma mailbox_delivered_ok dst id m : mailbox_ok m -> mailbox_ok (delivered dst id m).1.
Proof.
  intros Hm. unfold delivered. destruct (position _ _) as [i|] eqn:Hpos; [|done].
  apply position_Some in Hpos as (e & He & _). rewrite He. simpl.
  assert (Hp' : mb_entries m ≡ₚ (take i (mb_entries m) ++ drop (S i) (mb_entries m)) ++ [e]).
  { rewrite (take_drop_perm _ _ _ He) at 1. apply Permutation_cons_append. }
  pose proof (shrink_ok m _ _ (mkMailboxStats (ms_stored (mb_stats m)) (u32 (ms_delivered (mb_stats m) + 1))
    (ms_expired (mb_stats m)) (ms_rejected (mb_stats m))) Hm Hp') as [H _].
  unfold occupancy in H. simpl in H. by rewrite Z.add_0_r in H.
Qed.

Lemma mailbox_gc_ok now m : mailbox_ok m -> mailbox_ok (gc now m).1.
Proof.
  intros Hm. unfold gc. cbn [fst].
  pose proof (shrink_ok m _ _ (mkMailboxStats (ms_stored (mb_stats m)) (ms_delivered (mb_stats m))
      (u32 (ms_expired (mb_stats m) + usize (zlen (mb_entries m) - zlen (retain (gc_keep (mb_cfg m) now) (mb_entries m)))))
      (ms_rejected (mb_stats m))) Hm
      (retain_partition (gc_keep (mb_cfg m) now) (mb_entries m))) as [H _].
  unfold occupancy, elen in H. rewrite (usize_small (zsum _)); [exact H|].
  destruct Hm as ((_ & Hc & _) & _ & Hb & Hbm & _).
  pose proof (occupancy_perm _ _ (retain_partition (gc_keep (mb_cfg m) now) (mb_entries m))) as Ho.
  unfold occupancy at 2 in Ho. rewrite fmap_app, zsum_app in Ho.
  fold (occupancy (retain (gc_keep (mb_cfg m) now) (mb_entries m)))
    (occupancy (retain (fun e => negb (gc_keep (mb_cfg m) now e)) (mb_entries m))) in Ho.
  change (0 <= occupancy (retain (fun e => negb (gc_keep (mb_cfg m) now e)) (mb_entries m)) < 2 ^ 32).
  pose proof (occupancy_nonneg (retain (gc_keep (mb_cfg m) now) (mb_entries m))).
  pose proof (occupancy_nonneg (retain (fun e => negb (gc_keep (mb_cfg m) now e)) (mb_entries m))).
  change (2 ^ 31) with 2147483648 in *. change (2 ^ 32) with 4294967296. lia.
Qed.

(** One attempt more on some entries, nothing else changed. *)
Definition attempted (cfg : MailboxConfig) (now : Z) (e e' : StoredEnvelope) : Prop :=
  e' = e \/ (deliverable cfg now e = true /\ e' = mark_attempt now e).

Lemma attempted_refl cfg now l : Forall2 (attempted cfg now) l l.
Proof. induction l; constructor; [by left|done]. Qed.

Lemma take_loop_spec cfg dst now max taken l :
  Forall2 (attempted cfg now) l (take_loop cfg dst now max taken l).1 /\
  (take_loop cfg dst now max taken l).2 =
    take (Z.to_nat (max - taken))
      ((fun e => (se_envelope_id e, se_envelope e)) <$> retain (fun e => is_for dst e && deliverable cfg now e) l).
Proof.
  revert taken. induction l as [|e l IH]; intros taken; simpl.
  { split; [constructor|]. unfold retain. simpl. by rewrite take_nil. }
  rewrite retain_cons. destruct (is_for dst e) eqn:Ef; simpl.
  2:{ specialize (IH taken). destruct (take_loop _ _ _ _ _ _) as [r out]. simpl in *. destruct IH.
      split; [|done]. constructor; [by left|done]. }
  case_decide as Hmax.
  { simpl. split; [by apply attempted_refl|].
    replace (Z.to_nat (max - taken)) with 0%nat by lia. done. }
  destruct (deliverable cfg now e) eqn:Ed.
  - specialize (IH (taken + 1)). destruct (take_loop _ _ _ _ _ _) as [r out]. simpl in *. destruct IH as [IH1 ->].
    split; [constructor; [by right|done]|].
    replace (Z.to_nat (max - taken)) with (S (Z.to_nat (max - (taken + 1)))) by lia. done.
  - specialize (IH taken). destruct (take_loop _ _ _ _ _ _) as [r out]. simpl in *. destruct IH.
    split; [|done]. constructor; [by left|done].
Qed.

Lemma attempted_key cfg now e e' :
  attempted cfg now e e' -> ekey e' = ekey e /\ elen e' = elen e /\ se_dst e' = se_dst e /\
    se_envelope e' = se_envelope e /\ se_expires_at e' = se_expires_at e.
Proof. intros [->|[_ ->]]; done. Qed.

Lemma attempted_map {B} (f : StoredEnvelope -> B) cfg now l l' :
  (forall e e', attempted cfg now e e' -> f e' = f e) -> Forall2 (attempted cfg now) l l' -> f <$> l' = f <$> l.
Proof. intros Hf. induction 1; [done|]. rewrite !fmap_cons. f_equal; auto. Qed.

Lemma pending_map dst l : zlen (retain (is_for dst) l) = zlen (retain (fun a => bool_decide (a = dst)) (se_dst <$> l)).
Proof.
  induction l as [|e l IH]; [done|]. rewrite fmap_cons, !retain_cons. unfold is_for at 1.
  destruct (bool_decide (se_dst e = dst)); rewrite ?zlen_cons; lia.
Qed.

Lemma mailbox_take_ok dst now max m : mailbox_ok m -> mailbox_ok (take_deliverable dst now max m).1.
Proof.
  intros (Hc & Hnd & Hb & Hbm & Hn & Hp & Ha). unfold take_deliverable.
  destruct (take_loop_spec (mb_cfg m) dst now max 0 (mb_entries m)) as [Hl _].
  destruct (take_loop _ _ _ _ _ _) as [l out]. simpl in *.
  assert (Hk := attempted_map ekey _ _ _ _ (fun e e' h => proj1 (attempted_key _ _ e e' h)) Hl).
  assert (He := attempted_map elen _ _ _ _ (fun e e' h => proj1 (proj2 (attempted_key _ _ e e' h))) Hl).
  assert (Hd := attempted_map se_dst _ _ _ _ (fun e e' h => proj1 (proj2 (proj2 (attempted_key _ _ e e' h)))) Hl).
  split; [done|]. simpl. split; [by rewrite Hk|]. split; [unfold occupancy; by rewrite He|]. split; [done|].
  split; [apply Forall2_length in Hl; unfold zlen in *; lia|]. split.
  - intros d. specialize (Hp d). unfold pending_for in *. simpl. rewrite pending_map in *. by rewrite Hd.
  - clear -Hl Ha Hc. destruct Hc as (_ & _ & Hc). induction Hl as [|e e' l l' Hee Hl IH]; [constructor|].
    inversion_clear Ha as [|? ? Hae Hal]. constructor; [|by apply IH].
    destruct Hee as [->|[Hd ->]]; [done|]. unfold deliverable in Hd.
    apply andb_true_iff in Hd as [_ Hd%negb_true_iff%bool_decide_eq_false]. simpl. rewrite u8_small; lia.
Qed.

Lemma run_op_ok o m : mailbox_ok m -> op_ok o -> mailbox_ok (run_op o m).
Proof.
  destruct o; simpl; intros Hm Ho.
  - by apply mailbox_store_ok.
  - by apply mailbox_take_ok.
  - by apply mailbox_delivered_ok.
  - by apply mailbox_gc_ok.
Qed.

(** Whatever deposits, fetches, acknowledgements and collections an anchor
    serves, its mailbox keeps its limits: entries, bytes (accounted exactly),
    envelopes per destination and delivery attempts per envelope are bounded,
    and no two entries share destination and envelope id. *)
Theorem mailbox_bounded (cfg : MailboxConfig) (ops : list mop) :
  config_ok cfg -> Forall op_ok ops -> mailbox_ok (foldl (fun m o => run_op o m) (new cfg) ops).
Proof.
  intros Hc Hops. pose proof (mailbox_new_ok cfg Hc) as Hm. revert Hm. generalize (new cfg).
  induction Hops as [|o ops Ho Hops IH]; intros m Hm; simpl; [done|]. by apply IH, run_op_ok.
Qed.

(** No stored envelope is lost or altered: after any call it is still
    there, byte for byte and with the same expiry, unless the call was its
    delivery acknowledgement or a collection that found it expired or out of
    attempts. *)
Theorem mailbox_keeps_mail (o : mop) (m : Mailbox) (e : StoredEnvelope) :
  mailbox_ok m -> e ∈ mb_entries m ->
  (exists e', e' ∈ mb_entries (run_op o m) /\ ekey e' = ekey e /\ se_envelope e' = se_envelope e /\
     se_expires_at e' = se_expires_at e) \/
  o = Delivered (se_dst e) (se_envelope_id e) \/
  (exists now, o = Gc now /\
     (se_expires_at e <= now \/ max_delivery_attempts (mb_cfg m) <= se_delivery_attempts e)).
Proof.
  intros Hm He. destruct o as [now d req|dst now max|dst id|now]; simpl.
  - left. exists e. split; [|done]. unfold store.
    repeat case_match; simpl; try done. apply elem_of_app. by left.
  - left. unfold take_deliverable. destruct (take_loop_spec (mb_cfg m) dst now max 0 (mb_entries m)) as [Hl _].
    destruct (take_loop _ _ _ _ _ _) as [l out]. simpl in *.
    apply list_elem_of_lookup in He as [i Hi]. destruct (Forall2_lookup_l _ _ _ _ _ Hl Hi) as (e' & Hi' & Ha).
    apply attempted_key in Ha as (? & _ & _ & ? & ?). exists e'.
    split; [by eapply list_elem_of_lookup_2|done].
  - unfold delivered. destruct (position _ _) as [i|] eqn:Hpos; [|by left; eauto].
    apply position_Some in Hpos as (x & Hx & Hxe & _).
    pose proof (take_drop_perm _ _ _ Hx) as Hp. rewrite Hp in He. apply elem_of_cons in He as [->|He].
    + right; left. unfold is_env in Hxe.
      apply andb_true_iff in Hxe as [->%bool_decide_eq_true ->%bool_decide_eq_true]. done.
    + left. eauto.
  - unfold gc. simpl. destruct (gc_keep (mb_cfg m) now e) eqn:Hk.
    + left. exists e. split; [|done]. by apply elem_of_retain.
    + right; right. exists now. split; [done|]. unfold gc_keep in Hk.
      apply andb_false_iff in Hk as [Hk%bool_decide_eq_false|Hk%bool_decide_eq_false]; lia.
Qed.

(** A fetch hands out, in storage order and unchanged, the first [max]
    envelopes for the destination that are due a delivery attempt, and marks
    the attempt on deliverable entries only. *)
Theorem take_deliverable_exact (dst : Address) (now max : Z) (m : Mailbox) :
  (take_deliverable dst now max m).2 =
    take (Z.to_nat max)
      ((fun e => (se_envelope_id e, se_envelope e)) <$>
         retain (fun e => is_for dst e && deliverable (mb_cfg m) now e) (mb_entries m)) /\
  Forall2 (attempted (mb_cfg m) now) (mb_entries m) (mb_entries (take_deliverable dst now max m).1).
Proof.
  unfold take_deliverable. destruct (take_loop_spec (mb_cfg m) dst now max 0 (mb_entries m)) as [H1 H2].
  destruct (take_loop _ _ _ _ _ _) as [l out]. simpl in *. rewrite Z.sub_0_r in H2. done.
Qed.

(** Concrete mailbox. *)
Definition ex_dst : Address := mkAddress [1; 2; 3; 4; 5; 6; 7; 8].
Definition ex_req (id : Z) : StoreRequest := mkStoreRequest ex_dst id 3600 (replicate 130 7).
Definition ex_mailbox : Mailbox :=
  foldl (fun m o => run_op o m) (new MailboxConfig_default)
    [Store 10 ex_dst (ex_req 1); Store 20 ex_dst (ex_req 2); Store 30 ex_dst (ex_req 1); Take ex_dst 40 1].

Lemma mailbox_default_ok : config_ok MailboxConfig_default.
Proof. unfold config_ok. simpl. split; [split; [lia|reflexivity]|]. split; [split; [lia|reflexivity]|lia]. Qed.

Lemma mailbox_bounded_witness : mailbox_ok ex_mailbox.
Proof.
  apply (mailbox_bounded MailboxConfig_default
    [Store 10 ex_dst (ex_req 1); Store 20 ex_dst (ex_req 2); Store 30 ex_dst (ex_req 1); Take ex_dst 40 1] mailbox_default_ok).
  repeat constructor.
Defined.

Lemma ex_mailbox_ok : mailbox_ok ex_mailbox.
Proof. repeat first [apply run_op_ok | apply (mailbox_new_ok _ mailbox_default_ok) | exact I | reflexivity]. Qed.

Definition ex_entry : StoredEnvelope := mkStoredEnvelope ex_dst 2 ex_dst 20 3600020 0 0 (replicate 130 7).
Lemma mailbox_keeps_mail_witness :
  exists e', e' ∈ mb_entries (run_op (Gc 50) ex_mailbox) /\ ekey e' = (ex_dst, 2) /\ se_envelope e' = replicate 130 7 /\
    se_expires_at e' = 3600020.
Proof.
  destruct (mailbox_keeps_mail (Gc 50) ex_mailbox ex_entry ex_mailbox_ok) as [H|[H|(now & [= <-] & H)]].
  - apply (list_elem_of_lookup_2 _ 1). vm_compute. reflexivity.
  - exact H.
  - discriminate H.
  - exfalso. destruct H as [H|H]; vm_compute in H; by apply H.
Defined.

Definition ex_store_request : StoreRequest := ex_req 7.
Lemma store_codecs_roundtrip_witness :
  store_decode (store_encode ex_store_request) = Ok ex_store_request /\
  decode_store_result (encode_store_result 7 (Some 1)) = Ok (7, Some 1).
Proof.
  assert (H : store_request_ok ex_store_request).
  { unfold store_request_ok, ENVELOPE_OVERHEAD. split; [split; [done|apply (bool_decide_unpack _); vm_compute; exact I]|].
    split; [reflexivity|]. split; [split; [done|reflexivity]|]. split; [split; [done|reflexivity]|]. done. }
  destruct (store_codecs_roundtrip ex_store_request (Some 1) H) as (H1 & _ & H2 & _); [split; [done|reflexivity]|].
  split; [exact H1|exact H2].
Defined.
End MailboxFacts.
