(* ===== verification/Storm.v ===== *)
(** * Broadcast storm protection

    [crates/meshstar-core/src/storm/mod.rs]: the seen-packet cache, the
    SNR-weighted delay, the forwarding probability and the rebroadcast
    scheduler. *)
From stdpp Require Import base tactics list numbers sets.
From Stdlib Require Import Lia.
From S2P Require Import Prelude SmallMap Float32 Protocol Packet.

Record StormConfig := mkStormConfig {
  seen_cache_size : Z; seen_ttl_ms : Z; min_delay_ms : Z; max_delay_ms : Z;
  counter_threshold : Z; density_threshold : Z; min_forward_percent : Z; max_pending : Z
}.
Definition StormConfig_default : StormConfig := mkStormConfig 256 (5 * 60 * 1000) 40 600 3 4 25 16.

Record SeenEntry := mkSeenEntry { first_seen : Z; se_count : Z; forwarded : bool }.

Record SeenCache := mkSeenCache {
  sc_map : smallmap PacketKey SeenEntry;
  sc_order : list PacketKey;
  sc_cap : Z;
  sc_ttl_ms : Z
}.

Module SeenCache.
Definition new (cap ttl_ms : Z) : SeenCache := mkSeenCache SmallMap.empty [] (Z.max cap 1) ttl_ms.

(** [while self.map.len() >= self.cap { pop the front }]. *)
Fixpoint evict (cap : Z) (order : list PacketKey) (m : smallmap PacketKey SeenEntry) :
    list PacketKey * smallmap PacketKey SeenEntry :=
  match order with
  | old :: order' =>
      if decide (SmallMap.len m >= cap) then evict cap order' (SmallMap.remove m old).1 else (order, m)
  | [] => ([], m)
  end.

Definition bump (e : SeenEntry) : SeenEntry := mkSeenEntry (first_seen e) (sat_add 16 (se_count e) 1) (forwarded e).

Definition observe (key : PacketKey) (now : Z) (c : SeenCache) : SeenCache * bool :=
  match SmallMap.get (sc_map c) key with
  | Some _ => (mkSeenCache (SmallMap.update (sc_map c) key bump) (sc_order c) (sc_cap c) (sc_ttl_ms c), false)
  | None =>
      let '(order, m) := evict (sc_cap c) (sc_order c) (sc_map c) in
      (mkSeenCache (SmallMap.insert m key (mkSeenEntry now 1 false)).1 (order ++ [key]) (sc_cap c) (sc_ttl_ms c), true)
  end.

Definition count (key : PacketKey) (c : SeenCache) : Z :=
  match SmallMap.get (sc_map c) key with Some e => se_count e | None => 0 end.

Definition contains (key : PacketKey) (c : SeenCache) : bool := SmallMap.contains_key (sc_map c) key.

Definition mark_forwarded (key : PacketKey) (c : SeenCache) : SeenCache :=
  mkSeenCache (SmallMap.update (sc_map c) key (fun e => mkSeenEntry (first_seen e) (se_count e) true))
    (sc_order c) (sc_cap c) (sc_ttl_ms c).

Definition was_forwarded (key : PacketKey) (c : SeenCache) : bool :=
  match SmallMap.get (sc_map c) key with Some e => forwarded e | None => false end.

Definition len (c : SeenCache) : Z := SmallMap.len (sc_map c).

Fixpoint expire_loop (now ttl_ms : Z) (order : list PacketKey) (m : smallmap PacketKey SeenEntry) :
    list PacketKey * smallmap PacketKey SeenEntry :=
  match order with
  | [] => ([], m)
  | k :: order' =>
      match SmallMap.get m k with
      | Some e =>
          if decide (sat_sub now (first_seen e) > ttl_ms)
          then expire_loop now ttl_ms order' (SmallMap.remove m k).1
          else (order, m)
      | None => expire_loop now ttl_ms order' m
      end
  end.

Definition expire (now : Z) (c : SeenCache) : SeenCache :=
  let '(order, m) := expire_loop now (sc_ttl_ms c) (sc_order c) (sc_map c) in
  mkSeenCache m order (sc_cap c) (sc_ttl_ms c).
End SeenCache.

(** Low SNR (far from the transmitter) gives a short delay. *)
Definition forward_delay_ms {R} `{RngCore R} (rng : R) (cfg : StormConfig) (snr_db : f32) : Z * R :=
  let span := Z.max (sat_sub (max_delay_ms cfg) (min_delay_ms cfg)) 1 in
  let w := f32_clamp ((snr_db + f32_of 20) / f32_of 30)%f32 (f32_of 0) (f32_of 1) in
  let base := u32 (min_delay_ms cfg + f32_to_u 32 (f32_of span * lit 6 10 * w)%f32) in
  let '(r, rng') := next_u32 rng in
  let jitter := r mod u32 (u32 (span * 2) / 5 + 1) in
  (u32 (base + jitter), rng').

Definition forward_percent (cfg : StormConfig) (neighbor_count : Z) : Z :=
  if decide (neighbor_count <= density_threshold cfg) then 100
  else Z.max (u8 (usize (density_threshold cfg * 100) / neighbor_count)) (min_forward_percent cfg).

Definition roll_percent {R} `{RngCore R} (rng : R) (percent : Z) : bool * R :=
  if decide (percent >= 100) then (true, rng)
  else let '(r, rng') := next_u32 rng in (bool_decide (r mod 100 < percent), rng').

Record Pending := mkPending { p_key : PacketKey; p_due : Z; p_packet : Packet; p_heard : Z }.

Record RebroadcastScheduler := mkRebroadcastScheduler {
  rs_pending : list Pending; rs_cancelled : Z; rs_relayed : Z
}.

Module RebroadcastScheduler.
Definition new : RebroadcastScheduler := mkRebroadcastScheduler [] 0 0.

Definition len (s : RebroadcastScheduler) : Z := zlen (rs_pending s).

Definition schedule (key : PacketKey) (packet : Packet) (due max_pending : Z) (s : RebroadcastScheduler) :
    RebroadcastScheduler * bool :=
  if decide (zlen (rs_pending s) >= max_pending) then (s, false)
  else (mkRebroadcastScheduler (rs_pending s ++ [mkPending key due packet 1]) (rs_cancelled s) (rs_relayed s), true).

Definition has_key (key : PacketKey) (p : Pending) : bool := bool_decide (p_key p = key).

Definition heard (key : PacketKey) (s : RebroadcastScheduler) : RebroadcastScheduler * bool :=
  match find_first (has_key key) (rs_pending s) with
  | Some _ =>
      (mkRebroadcastScheduler
         (update_first (has_key key) (fun p => mkPending (p_key p) (p_due p) (p_packet p) (sat_add 8 (p_heard p) 1)) (rs_pending s))
         (rs_cancelled s) (rs_relayed s), true)
  | None => (s, false)
  end.

Definition cancel (key : PacketKey) (s : RebroadcastScheduler) : RebroadcastScheduler * bool :=
  let keep := retain (fun p => negb (has_key key p)) (rs_pending s) in
  let removed := negb (bool_decide (zlen (rs_pending s) = zlen keep)) in
  (mkRebroadcastScheduler keep (if removed then u32 (rs_cancelled s + 1) else rs_cancelled s) (rs_relayed s), removed).

Definition is_pending (key : PacketKey) (s : RebroadcastScheduler) : bool := existsb (has_key key) (rs_pending s).

Definition next_due (s : RebroadcastScheduler) : option Z := zmin (p_due <$> rs_pending s).

(** The [while] loop of [due] from index [i] on. *)
Fixpoint due_loop (now threshold : Z) (l : list Pending) (cancelled relayed : Z) :
    list Pending * list (PacketKey * Packet) * Z * Z :=
  match l with
  | [] => ([], [], cancelled, relayed)
  | p :: l' =>
      if decide (p_due p <= now) then
        if decide (p_heard p >= threshold) then due_loop now threshold l' (u32 (cancelled + 1)) relayed
        else
          let '(keep, out, c, r) := due_loop now threshold l' cancelled (u32 (relayed + 1)) in
          (keep, (p_key p, p_packet p) :: out, c, r)
      else
        let '(keep, out, c, r) := due_loop now threshold l' cancelled relayed in
        (p :: keep, out, c, r)
  end.

Definition due (now counter_threshold : Z) (s : RebroadcastScheduler) : RebroadcastScheduler * list (PacketKey * Packet) :=
  let '(keep, out, c, r) := due_loop now counter_threshold (rs_pending s) (rs_cancelled s) (rs_relayed s) in
  (mkRebroadcastScheduler keep c r, out).
End RebroadcastScheduler.

(** ** The seen-packet cache *)

Module StormFacts.
Import SeenCache.

(** Every remembered key is queued once for eviction, and the cache is within
    its capacity. *)
Definition cache_ok (c : SeenCache) : Prop :=
  SmallMapFacts.wf (sc_map c) /\ 1 <= sc_cap c /\ NoDup (sc_order c) /\
  (forall k, k ∈ sc_order c <-> is_Some (SmallMap.get (sc_map c) k)) /\
  SmallMap.len (sc_map c) <= sc_cap c.

Lemma len_order (m : smallmap PacketKey SeenEntry) order :
  SmallMapFacts.wf m -> NoDup order -> (forall k, k ∈ order <-> is_Some (SmallMap.get m k)) ->
  SmallMap.len m = zlen order.
Proof.
  intros Hwf Hnd Hk. unfold SmallMap.len, zlen. f_equal. rewrite <- (length_fmap fst m).
  apply Permutation_length, NoDup_Permutation; [by apply SmallMapFacts.wf_keys_NoDup|done|].
  intros k. rewrite Hk, list_elem_of_fmap. split.
  - intros ([k' v] & -> & Hin). exists v. by apply SmallMapFacts.get_Some.
  - intros [v Hv]. exists (k, v). split; [done|]. by apply SmallMapFacts.get_Some.
Qed.

(** Dropping the front of the queue together with its map entry. *)
Lemma pop_front_ok (m : smallmap PacketKey SeenEntry) k order :
  SmallMapFacts.wf m -> NoDup (k :: order) ->
  (forall x, x ∈ k :: order <-> is_Some (SmallMap.get m x)) ->
  SmallMapFacts.wf (SmallMap.remove m k).1 /\ NoDup order /\
  (forall x, x ∈ order <-> is_Some (SmallMap.get (SmallMap.remove m k).1 x)).
Proof.
  intros Hwf Hnd Hk. inversion_clear Hnd as [|? ? Hni Hnd']. split; [by apply SmallMapFacts.remove_wf|].
  split; [done|]. intros x. rewrite SmallMapFacts.get_remove by done.
  destruct (kcmp k x) eqn:E.
  - apply kcmp_eq in E. subst. split; [done|]. by intros [? ?].
  - rewrite <- Hk, elem_of_cons. split; [auto|]. intros [->|?]; [by rewrite kcmp_refl in E|done].
  - rewrite <- Hk, elem_of_cons. split; [auto|]. intros [->|?]; [by rewrite kcmp_refl in E|done].
Qed.

(** Eviction drops the oldest keys, as few as needed for one more to fit. *)
Lemma evict_spec cap order (m : smallmap PacketKey SeenEntry) :
  1 <= cap -> SmallMapFacts.wf m -> NoDup order -> (forall k, k ∈ order <-> is_Some (SmallMap.get m k)) ->
  zlen order <= cap ->
  let '(order', m') := evict cap order m in
  order' = (if decide (zlen order >= cap) then tail order else order) /\
  SmallMapFacts.wf m' /\ NoDup order' /\ (forall k, k ∈ order' <-> is_Some (SmallMap.get m' k)) /\ zlen order' < cap.
Proof.
  intros Hcap Hwf Hnd Hk Hlen. destruct order as [|k order]; simpl.
  { rewrite zlen_nil in *. rewrite decide_False by lia. repeat split; try done; [apply Hk|apply Hk|lia]. }
  rewrite (len_order m (k :: order)) by done. case_decide as Hfull; [|repeat split; try done; [apply Hk|apply Hk|lia]].
  destruct (pop_front_ok m k order Hwf Hnd Hk) as (Hwf' & Hnd' & Hk'). rewrite zlen_cons in *.
  destruct order as [|k' order]; simpl.
  { repeat split; try done; [apply Hk'|apply Hk'|lia]. }
  rewrite (len_order _ (k' :: order)) by done. rewrite decide_False by lia.
  repeat split; try done; [apply Hk'|apply Hk'|lia].
Qed.

Lemma observe_spec key now c :
  cache_ok c ->
  cache_ok (observe key now c).1 /\
  (observe key now c).2 = negb (contains key c) /\
  sc_cap (observe key now c).1 = sc_cap c /\
  sc_order (observe key now c).1 =
    if contains key c then sc_order c
    else (if decide (zlen (sc_order c) >= sc_cap c) then tail (sc_order c) else sc_order c) ++ [key].
Proof.
  intros (Hwf & Hcap & Hnd & Hk & Hlen). unfold observe, contains.
  rewrite SmallMapFacts.contains_key_get by done.
  destruct (SmallMap.get (sc_map c) key) as [e|] eqn:Eg.
  - rewrite bool_decide_true by eauto. simpl. repeat split; try done; simpl.
    + by apply SmallMapFacts.update_wf.
    + intros Hx. apply Hk in Hx as [v Hv]. rewrite SmallMapFacts.get_update by done. rewrite Hv. by destruct (kcmp key k).
    + rewrite SmallMapFacts.get_update by done. rewrite Hk. intros [v Hv].
      destruct (kcmp key k), (SmallMap.get (sc_map c) k); naive_solver.
    + by rewrite SmallMapFacts.len_update.
  - rewrite bool_decide_false by (by intros [? ?]). simpl.
    assert (Hzo : zlen (sc_order c) <= sc_cap c) by (by rewrite <- (len_order (sc_map c))).
    pose proof (evict_spec _ _ _ Hcap Hwf Hnd Hk Hzo) as Hev.
    assert (Hni : key ∉ sc_order c) by (rewrite Hk, Eg; by intros [? ?]).
    destruct (evict _ _ _) as [order m]. destruct Hev as (Ho & Hwf' & Hnd' & Hk' & Hlt).
    assert (Hni' : key ∉ order).
    { rewrite Ho. case_decide; [|done]. destruct (sc_order c); simpl in *; [done|]. set_solver. }
    assert (Hg : SmallMap.get m key = None).
    { destruct (SmallMap.get m key) eqn:E; [|done]. exfalso. apply Hni', Hk'. by rewrite E. }
    split; [|by rewrite Ho]. split; [by apply SmallMapFacts.insert_wf|]. simpl. split; [done|].
    split; [apply NoDup_app; split; [done|]; split; [set_solver|apply NoDup_singleton]|]. split.
    + intros x. rewrite elem_of_app, list_elem_of_singleton, Hk', SmallMapFacts.get_insert by done.
      destruct (kcmp key x) eqn:E.
      * apply kcmp_eq in E. subst. naive_solver.
      * split; [|auto]. intros [?| ->]; [done|]. by rewrite kcmp_refl in E.
      * split; [|auto]. intros [?| ->]; [done|]. by rewrite kcmp_refl in E.
    + rewrite SmallMapFacts.len_insert, Hg, (len_order m order) by done. lia.
Qed.

Lemma expire_loop_ok now ttl order (m : smallmap PacketKey SeenEntry) :
  SmallMapFacts.wf m -> NoDup order -> (forall k, k ∈ order <-> is_Some (SmallMap.get m k)) ->
  let '(order', m') := expire_loop now ttl order m in
  SmallMapFacts.wf m' /\ NoDup order' /\ (forall k, k ∈ order' <-> is_Some (SmallMap.get m' k)) /\
  exists old, order = old ++ order'.
Proof.
  revert m. induction order as [|k order IH]; intros m Hwf Hnd Hk; simpl; [repeat split; try done; [apply Hk|apply Hk|by exists []]|].
  destruct (SmallMap.get m k) as [e|] eqn:Eg.
  2:{ exfalso. assert (Hin : k ∈ k :: order) by set_solver. apply Hk in Hin as [? ?]. congruence. }
  case_decide; [|repeat split; try done; [apply Hk|apply Hk|by exists []]].
  destruct (pop_front_ok m k order Hwf Hnd Hk) as (Hwf' & Hnd' & Hk'). specialize (IH _ Hwf' Hnd' Hk').
  destruct (expire_loop _ _ _ _) as [order' m']. destruct IH as (? & ? & ? & old & ->).
  repeat split; try done; [naive_solver|naive_solver|by exists (k :: old)].
Qed.

Lemma expire_ok now c : cache_ok c -> cache_ok (expire now c).
Proof.
  intros (Hwf & Hcap & Hnd & Hk & Hlen). unfold expire.
  pose proof (expire_loop_ok now (sc_ttl_ms c) _ _ Hwf Hnd Hk) as He.
  rewrite (len_order (sc_map c) (sc_order c)) in Hlen by done.
  destruct (expire_loop _ _ _ _) as [order m]. destruct He as (? & ? & ? & old & Ho).
  repeat split; simpl; try done; [naive_solver|naive_solver|].
  rewrite (len_order m order) by done. rewrite Ho, zlen_app in Hlen. pose proof (zlen_nonneg old). lia.
Qed.

Lemma mark_ok key c : cache_ok c -> cache_ok (mark_forwarded key c).
Proof.
  intros (Hwf & Hcap & Hnd & Hk & Hlen). unfold mark_forwarded.
  repeat split; simpl; try done.
  - by apply SmallMapFacts.update_wf.
  - intros [v Hv]%Hk. rewrite SmallMapFacts.get_update by done. rewrite Hv. by destruct (kcmp key k).
  - rewrite SmallMapFacts.get_update by done. rewrite Hk. intros [v Hv].
    destruct (kcmp key k), (SmallMap.get (sc_map c) k); naive_solver.
  - by rewrite SmallMapFacts.len_update.
Qed.

(** The calls that change the cache. *)
Inductive cop := Observe (key : PacketKey) (now : Z) | Mark (key : PacketKey) | Expire (now : Z).
Definition run_cop (o : cop) (c : SeenCache) : SeenCache :=
  match o with Observe k now => (observe k now c).1 | Mark k => mark_forwarded k c | Expire now => expire now c end.

Lemma seen_cache_start cap ttl_ms : cache_ok (new cap ttl_ms) /\ sc_cap (new cap ttl_ms) = Z.max cap 1.
Proof.
  split; [|done]. split; [apply SmallMapFacts.empty_wf|]. simpl. split; [lia|]. split; [constructor|].
  split; [|change (SmallMap.len SmallMap.empty) with 0; lia].
  intros k. rewrite SmallMapFacts.get_empty. split; [set_solver|by intros [? ?]].
Qed.

(** The seen-packet cache never holds more than its capacity (at least
    one), and its eviction queue lists exactly the remembered packets, each
    once, whatever is observed, marked and expired. *)
Theorem seen_cache_bounded (cap ttl_ms : Z) (ops : list cop) :
  let c := foldl (fun c o => run_cop o c) (new cap ttl_ms) ops in
  cache_ok c /\ len c <= Z.max cap 1.
Proof.
  pose proof (seen_cache_start cap ttl_ms) as H0.
  enough (H : let c := foldl (fun c o => run_cop o c) (new cap ttl_ms) ops in cache_ok c /\ sc_cap c = Z.max cap 1).
  { destruct H as [(? & ? & ? & ? & ?) Hc]. split; [done|]. unfold len. lia. }
  revert H0. generalize (new cap ttl_ms). induction ops as [|o ops IH]; intros c [Hc Hcap]; simpl; [done|].
  apply IH. destruct o; simpl.
  - destruct (observe_spec key now c Hc) as (? & _ & ? & _). split; [done|congruence].
  - split; [by apply mark_ok|done].
  - split; [by apply expire_ok|]. unfold expire. by destruct (expire_loop _ _ _ _).
Qed.

(** Observing a sequence: the final cache and which packets were new. *)
Fixpoint observe_all (obs : list (PacketKey * Z)) (c : SeenCache) : SeenCache * list bool :=
  match obs with
  | [] => (c, [])
  | (k, now) :: obs' =>
      let '(c1, b) := observe k now c in let '(c2, bs) := observe_all obs' c1 in (c2, b :: bs)
  end.

Definition news (bs : list bool) : Z := zlen (retain id bs).

Lemma observe_all_keeps key obs c pre post :
  cache_ok c -> sc_order c = pre ++ key :: post ->
  zlen post + news (observe_all obs c).2 < sc_cap c ->
  contains key (observe_all obs c).1 = true /\ cache_ok (observe_all obs c).1.
Proof.
  revert c pre post. induction obs as [|[k now] obs IH]; intros c pre post Hc Ho; simpl.
  { intros _. split; [|done]. destruct Hc as (Hwf & _ & _ & Hk & _). unfold contains.
    rewrite SmallMapFacts.contains_key_get by done. apply bool_decide_true, Hk. rewrite Ho. set_solver. }
  destruct (observe_spec k now c Hc) as (Hc' & Hb & Hcap & Hord).
  destruct (observe k now c) as [c1 b]. cbn [fst snd] in *. subst b.
  specialize (IH c1). destruct (observe_all obs c1) as [c2 bs]. cbn [fst snd] in *.
  unfold news at 1. rewrite retain_cons. unfold id at 1. destruct (contains k c); cbn [negb].
  - intros Hlt. eapply (IH pre post); [done|congruence|]. unfold news. rewrite Hcap. lia.
  - rewrite zlen_cons. fold (news bs). intros Hlt.
    assert (0 <= news bs) by apply zlen_nonneg.
    assert (Hnew : exists pre', sc_order c1 = pre' ++ key :: (post ++ [k])).
    { rewrite Hord. clear Hord. rewrite Ho. case_decide as Hfull.
      - destruct pre as [|x pre]; simpl.
        + cbn [app] in Hfull. rewrite zlen_cons in Hfull. lia.
        + exists pre. by rewrite <- app_assoc.
      - exists pre. by rewrite <- app_assoc. }
    destruct Hnew as [pre' Hnew]. eapply (IH pre' (post ++ [k])); [done|done|].
    rewrite zlen_app, zlen_cons, zlen_nil, Hcap. lia.
Qed.

(** Duplicate suppression: a packet once observed is recognised again as
    long as fewer than [cap] other packets were new in between, so a node
    relays it at most once in that window. *)
Theorem seen_cache_recognises (key : PacketKey) (now now' : Z) (c : SeenCache) (obs : list (PacketKey * Z)) :
  cache_ok c -> contains key c = false ->
  let c1 := (observe key now c).1 in
  news (observe_all obs c1).2 < sc_cap c ->
  (observe key now c).2 = true /\ (observe key now' (observe_all obs c1).1).2 = false.
Proof.
  intros Hc Hn c1 Hlt. subst c1. destruct (observe_spec key now c Hc) as (Hc' & Hb & Hcap & Hord).
  rewrite Hn in Hb, Hord. split; [done|].
  destruct (observe_all_keeps key obs _ _ [] Hc' Hord) as [Hk Hok].
  { rewrite zlen_nil. lia. }
  destruct (observe_spec key now' _ Hok) as (_ & -> & _). by rewrite Hk.
Qed.

(** ** Forwarding *)

(** The forwarding probability is a percentage: certain up to the density
    threshold, never below the configured floor, and never larger for a denser
    neighbourhood. *)
Theorem forward_percent_bounds (cfg : StormConfig) (n n' : Z) :
  in_u 8 (density_threshold cfg) -> 0 <= min_forward_percent cfg <= 100 -> 0 <= n <= n' -> n' < 2 ^ 32 ->
  min_forward_percent cfg <= forward_percent cfg n' <= forward_percent cfg n /\ forward_percent cfg n <= 100 /\
  (n <= density_threshold cfg -> forward_percent cfg n = 100).
Proof.
  intros Hd Hm Hn Hn'. unfold forward_percent, in_u in *. change (2 ^ 8) with 256 in Hd.
  rewrite usize_small by (change (2 ^ 32) with 4294967296; lia).
  assert (Hp : forall k, density_threshold cfg < k -> 0 <= density_threshold cfg * 100 / k < 100).
  { intros k Hk. split; [apply Z.div_pos; lia|]. apply Z.div_lt_upper_bound; lia. }
  assert (Hanti : density_threshold cfg < n -> density_threshold cfg * 100 / n' <= density_threshold cfg * 100 / n)
    by (intros; apply Z.div_le_compat_l; lia).
  pose proof (Hp n). pose proof (Hp n').
  repeat case_decide; try lia; rewrite !u8_small by lia; lia.
Qed.

Import RebroadcastScheduler.

Definition is_due (now : Z) (p : Pending) : bool := bool_decide (p_due p <= now).
Definition suppressed (threshold : Z) (p : Pending) : bool := bool_decide (p_heard p >= threshold).

(** When the relay slots are served, exactly the packets whose slot has
    come leave the queue: those heard fewer than [counter_threshold] times are
    transmitted, in order, the others are counted as cancelled; every other
    packet keeps waiting. *)
Theorem scheduler_due_exact (now threshold : Z) (s : RebroadcastScheduler) :
  let ready := retain (is_due now) (rs_pending s) in
  let '(s', out) := due now threshold s in
  out = (fun p => (p_key p, p_packet p)) <$> retain (fun p => negb (suppressed threshold p)) ready /\
  rs_pending s' = retain (fun p => negb (is_due now p)) (rs_pending s) /\
  u32 (rs_cancelled s') = u32 (rs_cancelled s + zlen (retain (suppressed threshold) ready)) /\
  u32 (rs_relayed s') = u32 (rs_relayed s + zlen out).
Proof.
  cbn zeta. unfold due. generalize (rs_cancelled s) (rs_relayed s).
  induction (rs_pending s) as [|p l IH]; intros c r.
  { simpl. rewrite !retain_nil, !zlen_nil, !Z.add_0_r. done. }
  rewrite !retain_cons. simpl. case_decide as Hdue.
  - assert (is_due now p = true) as -> by (by apply bool_decide_true). cbn [negb]. rewrite !retain_cons.
    case_decide as Hth.
    + assert (suppressed threshold p = true) as -> by (by apply bool_decide_true). cbn [negb].
      specialize (IH (u32 (c + 1)) r). destruct (due_loop _ _ _ _ _) as [[[keep out] c'] r']. simpl in *.
      destruct IH as (IH1 & IH2 & IH3 & IH4). split; [done|]. split; [done|]. split; [|done].
      rewrite IH3, zlen_cons. unfold u32, wrap. rewrite Zplus_mod_idemp_l. f_equal. lia.
    + assert (suppressed threshold p = false) as -> by (by apply bool_decide_false). cbn [negb].
      specialize (IH c (u32 (r + 1))). destruct (due_loop _ _ _ _ _) as [[[keep out] c'] r']. simpl in *.
      destruct IH as (IH1 & IH2 & IH3 & IH4). split; [by rewrite IH1|]. split; [done|]. split; [done|].
      rewrite IH4, zlen_cons. unfold u32, wrap. rewrite Zplus_mod_idemp_l. f_equal. lia.
  - assert (is_due now p = false) as -> by (by apply bool_decide_false). cbn [negb].
    specialize (IH c r). destruct (due_loop _ _ _ _ _) as [[[keep out] c'] r']. simpl in *.
    destruct IH as (IH1 & IH2 & IH3 & IH4). split; [done|]. split; [by rewrite IH2|]. done.
Qed.

Definition ex_key (n : Z) : PacketKey := (mkAddress [0; 0; 0; 0; 0; 0; 0; 1], n).

Lemma ex_cache_ok : cache_ok (SeenCache.new 3 1000).
Proof. exact (proj1 (seen_cache_start 3 1000)). Qed.

Lemma seen_cache_recognises_witness :
  (observe (ex_key 1) 9 (observe_all [(ex_key 2, 6); (ex_key 1, 7); (ex_key 3, 8)] (observe (ex_key 1) 5 (SeenCache.new 3 1000)).1).1).2 = false.
Proof.
  refine (proj2 (seen_cache_recognises (ex_key 1) 5 9 (SeenCache.new 3 1000) [(ex_key 2, 6); (ex_key 1, 7); (ex_key 3, 8)] ex_cache_ok _ _));
    vm_compute; reflexivity.
Defined.

Lemma forward_percent_bounds_witness :
  25 <= forward_percent StormConfig_default 40 <= forward_percent StormConfig_default 8 /\
  forward_percent StormConfig_default 8 <= 100.
Proof.
  destruct (forward_percent_bounds StormConfig_default 8 40) as (H1 & H2 & _).
  - split; [done|reflexivity].
  - done.
  - done.
  - reflexivity.
  - split; [exact H1|exact H2].
Defined.

(** The queue is first-in first-out: hearing a packet again does not move it
    back, so the packet heard most recently can be the one evicted. *)
Lemma seen_cache_is_fifo :
  let c := (observe_all [(ex_key 1, 1); (ex_key 2, 2); (ex_key 3, 3); (ex_key 1, 4); (ex_key 4, 5)] (SeenCache.new 3 1000)).1 in
  contains (ex_key 1) c = false /\ contains (ex_key 2) c = true.
Proof. vm_compute. done. Qed.
End StormFacts.
