(* ===== verification/Routing.v ===== *)
(** * Route cache

    [crates/meshstar-core/src/routing/mod.rs]: link costs, cached routes with
    alternatives, failure accounting and expiry. *)
From stdpp Require Import base tactics list numbers sets sorting.
From Stdlib Require Import Lia.
From S2P Require Import Prelude SmallMap Protocol.

Inductive RouteSource := Zone | Discovery | Reverse | AnchorProxy | Static.
#[global] Instance RouteSource_eq_dec : EqDecision RouteSource.
Proof. solve_decision. Defined.

Record RouteEntry := mkRouteEntry {
  r_dst : Address;
  r_next_hop : Address;
  r_hops : Z;
  r_cost : Z;
  r_learned_at : Z;
  r_expires_at : Z;
  r_last_used : Z;
  r_failures : Z;
  r_source : RouteSource;
  r_via_anchor : option Address
}.

(** Assignment of the fields the cache updates in place. *)
Definition r_set (learned expires used failures : Z) (r : RouteEntry) : RouteEntry :=
  mkRouteEntry (r_dst r) (r_next_hop r) (r_hops r) (r_cost r) learned expires used failures (r_source r) (r_via_anchor r).

Definition effective_cost (r : RouteEntry) (now : Z) : Z :=
  let age_h := sat_sub now (r_learned_at r) / 3600000 in
  let penalty := u32 (u32 (Z.min age_h 10) * r_cost r) / 10 in
  u32 (u32 (r_cost r + penalty) + u32 (r_failures r * 50)).

Record RoutingConfig := mkRoutingConfig {
  max_destinations : Z; cfg_alternatives : Z; route_ttl_ms : Z; max_failures : Z
}.
Definition RoutingConfig_default : RoutingConfig := mkRoutingConfig 128 2 (30 * 60 * 1000) 3.

Definition link_cost (quality congestion : Z) : Z :=
  let q := Z.max quality 1 in
  let ratio := u64 (255 * 256) / q in
  let base := Z.shiftr (u64 (u64 (100 * ratio) * ratio)) 16 in
  let c := u64 (congestion * 100) / 255 in
  u16 (Z.min (u64 (base + c)) U16_MAX).

Record RouteCache := mkRouteCache {
  rc_cfg : RoutingConfig; rc_routes : smallmap Address (list RouteEntry); rc_route_errors_received : Z
}.

Definition set_routes (m : smallmap Address (list RouteEntry)) (c : RouteCache) : RouteCache :=
  mkRouteCache (rc_cfg c) m (rc_route_errors_received c).

Module RouteCache.
Definition new (cfg : RoutingConfig) : RouteCache := mkRouteCache cfg SmallMap.empty 0.

Definition len (c : RouteCache) : Z := usize (zsum (zlen <$> SmallMap.values (rc_routes c))).
Definition is_empty (c : RouteCache) : bool := SmallMap.is_empty (rc_routes c).
Definition destinations (c : RouteCache) : Z := SmallMap.len (rc_routes c).

(** [v.iter().map(|r| r.last_used).max().unwrap_or(0)] *)
Definition last_use (l : list RouteEntry) : Z :=
  match max_by_key r_last_used l with Some r => r_last_used r | None => 0 end.

Definition via (hop : Address) (r : RouteEntry) : bool := bool_decide (r_next_hop r = hop).

Definition evict (dst : Address) (c : RouteCache) : smallmap Address (list RouteEntry) :=
  if negb (SmallMap.contains_key (rc_routes c) dst) && bool_decide (SmallMap.len (rc_routes c) >= max_destinations (rc_cfg c)) then
    match min_by_key (fun kv => last_use kv.2) (rc_routes c) with
    | Some (victim, _) => (SmallMap.remove (rc_routes c) victim).1
    | None => rc_routes c
    end
  else rc_routes c.

Definition insert (e : RouteEntry) (now : Z) (c : RouteCache) : RouteCache * bool :=
  let e := r_set now (r_expires_at e) now (r_failures e) e in
  let e := if decide (r_expires_at e = 0)
           then r_set (r_learned_at e) (u64 (now + route_ttl_ms (rc_cfg c))) (r_last_used e) (r_failures e) e else e in
  let m := SmallMap.get_or_default [] (evict (r_dst e) c) (r_dst e) in
  let list := match SmallMap.get m (r_dst e) with Some l => l | None => [] end in
  match find_first (via (r_next_hop e)) list with
  | Some existing =>
      let better := bool_decide (r_cost e <= r_cost existing) || bool_decide (r_source e = Discovery) in
      let f r := if better then e
                 else r_set (r_learned_at r) (Z.max (r_expires_at r) (r_expires_at e)) (r_last_used r) (r_failures r) r in
      let list := sort_by_key (update_first (via (r_next_hop e)) f list) (fun r => effective_cost r now) in
      (set_routes (SmallMap.update m (r_dst e) (fun _ => list)) c, better)
  | None =>
      let list := sort_by_key (list ++ [e]) (fun r => effective_cost r now) in
      let list := take (Z.to_nat (cfg_alternatives (rc_cfg c))) list in
      (set_routes (SmallMap.update m (r_dst e) (fun _ => list)) c, existsb (via (r_next_hop e)) list)
  end.

Definition live (now : Z) (r : RouteEntry) : bool := bool_decide (r_expires_at r > now).

Definition lookup (dst : Address) (now : Z) (c : RouteCache) : option RouteEntry :=
  match SmallMap.get (rc_routes c) dst with
  | Some l => min_by_key (fun r => effective_cost r now) (retain (live now) l)
  | None => None
  end.

Definition alternatives (dst : Address) (now : Z) (c : RouteCache) : list RouteEntry :=
  let v := match SmallMap.get (rc_routes c) dst with Some l => retain (live now) l | None => [] end in
  sort_by_key v (fun r => effective_cost r now).

Definition touch (dst next_hop : Address) (now : Z) (c : RouteCache) : RouteCache :=
  set_routes (SmallMap.update (rc_routes c) dst (update_first (via next_hop) (fun r =>
    r_set (r_learned_at r) (Z.max (r_expires_at r) (u64 (now + route_ttl_ms (rc_cfg c) / 2))) now (r_failures r) r))) c.

Definition add_failure (r : RouteEntry) : RouteEntry :=
  r_set (r_learned_at r) (r_expires_at r) (r_last_used r) (sat_add 8 (r_failures r) 1) r.

Definition mark_failure (dst next_hop : Address) (c : RouteCache) : RouteCache * bool :=
  match SmallMap.get (rc_routes c) dst with
  | None => (c, false)
  | Some l =>
      let l := update_first (via next_hop) add_failure l in
      let removed := match find_first (via next_hop) l with
                     | Some r => bool_decide (r_failures r >= max_failures (rc_cfg c)) | None => false end in
      let l := if removed then retain (fun r => negb (via next_hop r)) l else l in
      let m := SmallMap.update (rc_routes c) dst (fun _ => l) in
      (set_routes (if decide (l = []) then (SmallMap.remove m dst).1 else m) c, removed)
  end.

Definition mark_success (dst next_hop : Address) (now : Z) (c : RouteCache) : RouteCache :=
  set_routes (SmallMap.update (rc_routes c) dst (update_first (via next_hop) (fun r =>
    r_set (r_learned_at r) (u64 (now + route_ttl_ms (rc_cfg c))) now 0 r))) c.

Definition nonempty (dst : Address) (l : list RouteEntry) : bool := negb (bool_decide (l = [])).

(** Filter every list, then drop the empty ones. *)
Definition prune (keep : RouteEntry -> bool) (m : smallmap Address (list RouteEntry)) : smallmap Address (list RouteEntry) :=
  SmallMap.retain nonempty (SmallMap.map_values (fun _ => retain keep) m).

Definition invalidate_via (next_hop : Address) (c : RouteCache) : RouteCache * list Address :=
  let affected := omap (fun kv => if decide (zlen (retain (fun r => negb (via next_hop r)) kv.2) <> zlen kv.2)
                                  then Some kv.1 else None) (rc_routes c) in
  (set_routes (prune (fun r => negb (via next_hop r)) (rc_routes c)) c, affected).

Definition remove (dst : Address) (c : RouteCache) : RouteCache * bool :=
  let '(m, old) := SmallMap.remove (rc_routes c) dst in (set_routes m c, bool_decide (is_Some old)).

Definition expire (now : Z) (c : RouteCache) : RouteCache * Z :=
  let n := usize (zsum ((fun l => zlen l - zlen (retain (live now) l)) <$> SmallMap.values (rc_routes c))) in
  (set_routes (prune (live now) (rc_routes c)) c, n).

Definition iter (c : RouteCache) : list RouteEntry := concat (SmallMap.values (rc_routes c)).
End RouteCache.

(** ** Costs *)

Module RoutingFacts.
Import RouteCache.

(** The link cost stays in its 16 bits without overflow, is 100 for a
    perfect idle link, never falls when the quality drops or the congestion
    grows, and never exceeds the saturation value. *)
Theorem link_cost_monotone (q q' c c' : Z) :
  in_u 8 q -> in_u 8 q' -> in_u 8 c -> in_u 8 c' -> q' <= q -> c <= c' ->
  100 <= link_cost q c <= link_cost q' c' /\ link_cost q' c' <= U16_MAX /\ link_cost 255 0 = 100.
Proof.
  unfold in_u. change (2 ^ 8) with 256. intros Hq Hq' Hc Hc' Hle Hcle. split; [|split; [|reflexivity]].
  - assert (Hb : forall x y, 0 <= x < 256 -> 0 <= y < 256 -> let r := 65280 / Z.max x 1 in
      256 <= r <= 65280 /\ link_cost x y = Z.min (100 * r * r / 65536 + y * 100 / 255) 65535).
    { intros x y Hx Hy r. assert (Hr : 256 <= r <= 65280).
      { unfold r. split; [apply Z.div_le_lower_bound; lia|]. apply Z.div_le_upper_bound; lia. }
      split; [done|]. unfold link_cost, U16_MAX. change (u64 (255 * 256)) with 65280. fold r. clearbody r.
      rewrite Z.shiftr_div_pow2 by lia. change (2 ^ 16) with 65536.
      rewrite (u64_small (100 * r)) by (change (2 ^ 64) with 18446744073709551616; lia).
      rewrite (u64_small (100 * r * r)) by (change (2 ^ 64) with 18446744073709551616; nia).
      rewrite (u64_small (y * 100)) by (change (2 ^ 64) with 18446744073709551616; lia).
      assert (0 <= 100 * r * r / 65536 < 65536 * 100) by (split; [apply Z.div_pos; nia|apply Z.div_lt_upper_bound; nia]).
      assert (0 <= y * 100 / 255 <= 100) by (split; [apply Z.div_pos; lia|apply Z.div_le_upper_bound; lia]).
      rewrite u64_small by (change (2 ^ 64) with 18446744073709551616; lia). apply u16_small. lia. }
    destruct (Hb q c Hq Hc) as [Hr ->]. destruct (Hb q' c' Hq' Hc') as [Hr' ->].
    assert (Hrr : 65280 / Z.max q 1 <= 65280 / Z.max q' 1) by (apply Z.div_le_compat_l; lia).
    generalize dependent (65280 / Z.max q 1). generalize dependent (65280 / Z.max q' 1). intros r' Hr' r Hr Hrr.
    assert (100 <= 100 * r * r / 65536) by (apply Z.div_le_lower_bound; nia).
    assert (100 * r * r / 65536 <= 100 * r' * r' / 65536) by (apply Z.div_le_mono; nia).
    assert (0 <= c * 100 / 255) by (apply Z.div_pos; lia).
    assert (c * 100 / 255 <= c' * 100 / 255) by (apply Z.div_le_mono; lia). lia.
  - unfold link_cost. pose proof (wrap_range 16 (Z.min (u64 (Z.shiftr (u64 (u64 (100 * (u64 (255 * 256) / Z.max q' 1)) *
      (u64 (255 * 256) / Z.max q' 1))) 16 + u64 (c' * 100) / 255)) U16_MAX) ltac:(lia)) as H.
    unfold in_u, U16_MAX in *. change (2 ^ 16) with 65536 in H. unfold u16. lia.
Qed.

(** ** The cache invariant *)

Definition list_ok (cfg : RoutingConfig) (dst : Address) (l : list RouteEntry) : Prop :=
  l <> [] /\ zlen l <= cfg_alternatives cfg /\ NoDup (r_next_hop <$> l) /\ Forall (fun r => r_dst r = dst) l.

Definition routes_ok (c : RouteCache) : Prop :=
  1 <= cfg_alternatives (rc_cfg c) /\ SmallMapFacts.wf (rc_routes c) /\
  SmallMap.len (rc_routes c) <= Z.max 1 (max_destinations (rc_cfg c)) /\
  Forall (fun kv => list_ok (rc_cfg c) kv.1 kv.2) (rc_routes c).

Lemma list_ok_get c dst l : routes_ok c -> SmallMap.get (rc_routes c) dst = Some l -> list_ok (rc_cfg c) dst l.
Proof.
  intros (_ & Hwf & _ & Hf) Hg. apply SmallMapFacts.get_Some in Hg; [|done].
  rewrite Forall_forall in Hf. apply (Hf _ Hg).
Qed.

(** In-place updates keep a list valid when they keep hop and destination. *)
Lemma list_ok_update cfg dst l p f :
  (forall r, p r = true -> r_next_hop (f r) = r_next_hop r /\ r_dst (f r) = r_dst r) ->
  list_ok cfg dst l -> list_ok cfg dst (update_first p f l).
Proof.
  intros Hf (Hne & Hlen & Hnd & Hd). split; [|split; [|split]].
  - intros E. apply (f_equal length) in E. rewrite length_update_first in E. by destruct l.
  - unfold zlen in *. by rewrite length_update_first.
  - rewrite fmap_update_first; [done|]. intros x Hx. by apply Hf.
  - apply Forall_update_first; [done|]. intros x _ Hx Hp. by rewrite (proj2 (Hf x Hp)).
Qed.

Lemma list_ok_perm cfg dst l k : l ≡ₚ k -> list_ok cfg dst l -> list_ok cfg dst k.
Proof.
  intros HP (Hne & Hlen & Hnd & Hd). split; [|split; [|split]].
  - intros ->. by apply symmetry, Permutation_nil in HP.
  - apply Permutation_length in HP. unfold zlen in *. lia.
  - by rewrite <- HP.
  - by rewrite <- HP.
Qed.

Lemma list_ok_truncate cfg dst l :
  1 <= cfg_alternatives cfg -> l <> [] -> NoDup (r_next_hop <$> l) -> Forall (fun r => r_dst r = dst) l ->
  list_ok cfg dst (take (Z.to_nat (cfg_alternatives cfg)) l).
Proof.
  intros Ha Hne Hnd Hd. split; [|split; [|split]].
  - destruct l as [|r l]; [done|]. destruct (Z.to_nat (cfg_alternatives cfg)) eqn:E; [lia|done].
  - unfold zlen. rewrite length_take. lia.
  - rewrite <- (take_drop (Z.to_nat (cfg_alternatives cfg)) l), fmap_app in Hnd. by apply NoDup_app in Hnd as [? _].
  - by apply Forall_take.
Qed.

Lemma find_first_None {A} (p : A -> bool) l : find_first p l = None -> Forall (fun x => p x = false) l.
Proof. induction l as [|x l IH]; simpl; [constructor|]. destruct (p x) eqn:E; [done|]. intros H. constructor; auto. Qed.

(** Storing a valid list under its destination. *)
Lemma set_list_ok cfg (m : smallmap Address (list RouteEntry)) dst l :
  SmallMapFacts.wf m -> Forall (fun kv => list_ok cfg kv.1 kv.2) m -> list_ok cfg dst l ->
  SmallMapFacts.wf (SmallMap.insert m dst l).1 /\ Forall (fun kv => list_ok cfg kv.1 kv.2) (SmallMap.insert m dst l).1.
Proof. intros ???. split; [by apply SmallMapFacts.insert_wf|]. by apply SmallMapFacts.Forall_insert. Qed.

Lemma evict_ok dst c :
  routes_ok c ->
  SmallMapFacts.wf (evict dst c) /\ Forall (fun kv => list_ok (rc_cfg c) kv.1 kv.2) (evict dst c) /\
  SmallMap.get (evict dst c) dst = SmallMap.get (rc_routes c) dst /\
  SmallMap.len (evict dst c) + (if SmallMap.get (rc_routes c) dst then 0 else 1) <= Z.max 1 (max_destinations (rc_cfg c)).
Proof.
  intros (_ & Hwf & Hlen & Hf). unfold evict. rewrite SmallMapFacts.contains_key_get by done.
  destruct (SmallMap.get (rc_routes c) dst) as [l|] eqn:Eg; cbn [bool_decide].
  { rewrite bool_decide_true by eauto. simpl. repeat split; try done. lia. }
  rewrite bool_decide_false by (by intros [? ?]). simpl.
  case_bool_decide as Hfull; [|repeat split; try done; lia].
  destruct (min_by_key _ _) as [[victim v]|] eqn:Em.
  - apply min_by_key_In in Em. apply SmallMapFacts.get_Some in Em; [|done].
    split; [by apply SmallMapFacts.remove_wf|]. split; [by apply SmallMapFacts.Forall_remove|]. split.
    + rewrite SmallMapFacts.get_remove by done. rewrite Eg. by destruct (kcmp victim dst).
    + rewrite SmallMapFacts.len_remove, Em by done. lia.
  - apply min_by_key_None in Em. rewrite Em in *. repeat split; try done. change (SmallMap.len []) with 0. lia.
Qed.

(** [get_or_default] followed by an assignment through the reference. *)
Lemma upsert (m : smallmap Address (list RouteEntry)) dst l :
  SmallMapFacts.wf m ->
  SmallMap.update (SmallMap.get_or_default [] m dst) dst (fun _ => l) = (SmallMap.insert m dst l).1 /\
  SmallMap.get (SmallMap.get_or_default [] m dst) dst = Some (default [] (SmallMap.get m dst)).
Proof.
  intros Hwf. rewrite SmallMapFacts.get_or_default_insert by done.
  destruct (SmallMap.get m dst) as [l0|] eqn:Eg; simpl.
  - split; [|done]. by rewrite (SmallMapFacts.update_insert m dst _ l0).
  - rewrite SmallMapFacts.get_insert_eq by done. split; [|done].
    rewrite (SmallMapFacts.update_insert _ dst _ []) by (by apply SmallMapFacts.insert_wf || by rewrite SmallMapFacts.get_insert_eq).
    by rewrite SmallMapFacts.insert_insert.
Qed.

(** The entry as [insert] stamps it. *)
Definition stamped (c : RouteCache) (e : RouteEntry) (now : Z) : RouteEntry :=
  r_set now (if decide (r_expires_at e = 0) then u64 (now + route_ttl_ms (rc_cfg c)) else r_expires_at e) now (r_failures e) e.

(** What [insert] leaves under the destination. *)
Lemma insert_routes e now c :
  routes_ok c ->
  exists l, rc_routes (insert e now c).1 = (SmallMap.insert (evict (r_dst e) c) (r_dst e) l).1 /\
    rc_cfg (insert e now c).1 = rc_cfg c /\ list_ok (rc_cfg c) (r_dst e) l.
Proof.
  intros Hc. destruct (evict_ok (r_dst e) c Hc) as (Hwf & Hf & Hget & _).
  assert (Hold : default [] (SmallMap.get (rc_routes c) (r_dst e)) = [] \/
    list_ok (rc_cfg c) (r_dst e) (default [] (SmallMap.get (rc_routes c) (r_dst e)))).
  { destruct (SmallMap.get (rc_routes c) (r_dst e)) eqn:Eg; [right|by left]. by apply list_ok_get. }
  unfold insert. cbn zeta.
  assert (Hst : (if decide (r_expires_at (r_set now (r_expires_at e) now (r_failures e) e) = 0)
    then r_set (r_learned_at (r_set now (r_expires_at e) now (r_failures e) e)) (u64 (now + route_ttl_ms (rc_cfg c)))
           (r_last_used (r_set now (r_expires_at e) now (r_failures e) e)) (r_failures (r_set now (r_expires_at e) now (r_failures e) e))
           (r_set now (r_expires_at e) now (r_failures e) e)
    else r_set now (r_expires_at e) now (r_failures e) e) = stamped c e now).
  { unfold stamped. cbn [r_expires_at r_set]. by case_decide. }
  rewrite Hst. clear Hst. change (r_dst (stamped c e now)) with (r_dst e). set (e' := stamped c e now).
  assert (He' : r_dst e' = r_dst e) by done. clearbody e'.
  destruct (upsert (evict (r_dst e) c) (r_dst e) [] Hwf) as [_ Hg]. rewrite Hg, Hget.
  set (old := default [] (SmallMap.get (rc_routes c) (r_dst e))) in *. clearbody old.
  destruct (find_first (via (r_next_hop e')) old) as [ex|] eqn:Ef.
  - eexists. split; [exact (proj1 (upsert _ _ _ Hwf))|]. split; [done|].
    eapply list_ok_perm; [symmetry; apply sort_by_key_perm|].
    destruct Hold as [->|Hold]; [done|]. eapply list_ok_perm; [reflexivity|].
    destruct Hold as (Hne & Hlen & Hnd & Hd). split; [|split; [|split]].
    + intros E. apply (f_equal length) in E. rewrite length_update_first in E. by destruct old.
    + unfold zlen in *. by rewrite length_update_first.
    + rewrite fmap_update_first; [done|]. intros x Hx. apply bool_decide_eq_true in Hx. by case_match.
    + apply Forall_update_first; [done|]. intros x _ Hx _. by case_match.
  - eexists. split; [exact (proj1 (upsert _ _ _ Hwf))|]. split; [done|].
    apply list_ok_truncate; [apply Hc| | |].
    + intros E. assert (HP : sort_by_key (old ++ [e']) (fun r => effective_cost r now) ≡ₚ old ++ [e']) by apply sort_by_key_perm.
      rewrite E in HP. apply Permutation_nil in HP. by destruct old.
    + rewrite (sort_by_key_perm (fun r => effective_cost r now) (old ++ [e'])), fmap_app. simpl.
      apply NoDup_app. split; [destruct Hold as [->|(_ & _ & ? & _)]; [constructor|done]|]. split; [|apply NoDup_singleton].
      intros x Hx Hx'. apply list_elem_of_singleton in Hx'. subst x.
      apply list_elem_of_fmap in Hx as (r & Hr & Hin). apply find_first_None in Ef. rewrite Forall_forall in Ef.
      specialize (Ef r Hin). unfold via in Ef. apply bool_decide_eq_false in Ef. by rewrite Hr in Ef.
    + rewrite (sort_by_key_perm (fun r => effective_cost r now) (old ++ [e'])). apply Forall_app. split; [|by repeat constructor].
      destruct Hold as [->|(_ & _ & _ & ?)]; [constructor|done].
Qed.

Lemma insert_ok e now c : routes_ok c -> routes_ok (insert e now c).1.
Proof.
  intros Hc. destruct (insert_routes e now c Hc) as (l & Hr & Hcfg & Hl).
  destruct (evict_ok (r_dst e) c Hc) as (Hwf & Hf & Hget & Hlen). destruct Hc as (Ha & _).
  destruct (set_list_ok _ _ _ l Hwf Hf Hl) as [Hw' Hf']. unfold routes_ok. rewrite Hr, Hcfg.
  split; [done|]. split; [done|]. split; [|done]. rewrite SmallMapFacts.len_insert, Hget by done. done.
Qed.

Lemma update_routes_ok c dst f :
  (forall l, list_ok (rc_cfg c) dst l -> list_ok (rc_cfg c) dst (f l)) -> routes_ok c ->
  routes_ok (set_routes (SmallMap.update (rc_routes c) dst f) c).
Proof.
  intros Hf (Ha & Hwf & Hlen & Hall). split; [done|]. simpl.
  split; [by apply SmallMapFacts.update_wf|]. split; [by rewrite SmallMapFacts.len_update|].
  apply SmallMapFacts.Forall_update; [done|done|]. simpl. auto.
Qed.

Lemma mark_failure_ok dst hop c : routes_ok c -> routes_ok (mark_failure dst hop c).1.
Proof.
  intros Hc. unfold mark_failure. destruct (SmallMap.get (rc_routes c) dst) as [l|] eqn:Eg; [|done].
  pose proof (list_ok_get c dst l Hc Eg) as Hl. destruct Hc as (Ha & Hwf & Hlen & Hall).
  assert (Hl1 : list_ok (rc_cfg c) dst (update_first (via hop) add_failure l)) by (by apply list_ok_update).
  cbn zeta. set (l1 := update_first (via hop) add_failure l) in *. clearbody l1.
  match goal with |- context [if ?b then retain ?p l1 else l1] => set (l2 := if b then retain p l1 else l1) end.
  assert (Hl2 : l2 = [] \/ list_ok (rc_cfg c) dst l2).
  { unfold l2. destruct Hl1 as (Hne & Hz & Hnd & Hd). case_match; [|by right].
    destruct (decide (retain (fun r => negb (via hop r)) l1 = [])) as [->|Hne']; [by left|right].
    split; [done|]. split; [unfold zlen in *; pose proof (length_retain (fun r => negb (via hop r)) l1); lia|]. split.
    - eapply sublist_NoDup; [exact Hnd|]. apply fmap_sublist, retain_sublist.
    - by apply Forall_retain. }
  clearbody l2. assert (Hu : SmallMap.update (rc_routes c) dst (fun _ => l2) = (SmallMap.insert (rc_routes c) dst l2).1)
    by (by rewrite (SmallMapFacts.update_insert _ dst _ l)).
  simpl. rewrite Hu. split; [done|]. simpl. case_decide as E.
  - subst l2. rewrite SmallMapFacts.remove_insert by done. split; [by apply SmallMapFacts.remove_wf|].
    split; [rewrite SmallMapFacts.len_remove by done; case_match; lia|]. by apply SmallMapFacts.Forall_remove.
  - destruct Hl2 as [?|Hl2]; [done|]. destruct (set_list_ok _ _ dst l2 Hwf Hall Hl2) as [? ?].
    split; [done|]. split; [|done]. rewrite SmallMapFacts.len_insert, Eg by done. lia.
Qed.

(** Pruning: what is left under each destination. *)
Lemma get_prune keep (m : smallmap Address (list RouteEntry)) dst :
  SmallMapFacts.wf m ->
  SmallMapFacts.wf (prune keep m) /\
  SmallMap.get (prune keep m) dst =
    match SmallMap.get m dst with
    | Some l => if decide (retain keep l = []) then None else Some (retain keep l)
    | None => None
    end.
Proof.
  intros Hwf. unfold prune. assert (Hw : SmallMapFacts.wf (SmallMap.map_values (fun _ : Address => retain keep) m))
    by (by apply SmallMapFacts.map_values_wf).
  split; [by apply SmallMapFacts.retain_wf|]. rewrite SmallMapFacts.get_retain, SmallMapFacts.get_map_values by done.
  destruct (SmallMap.get m dst) as [l|]; simpl; [|done]. unfold nonempty.
  case_decide as E; [by rewrite bool_decide_true|by rewrite bool_decide_false].
Qed.

Lemma prune_ok keep c : routes_ok c -> routes_ok (set_routes (prune keep (rc_routes c)) c).
Proof.
  intros Hc. pose proof Hc as (Ha & Hwf & Hlen & Hall). destruct (get_prune keep _ NULL Hwf) as [Hw _].
  split; [done|]. simpl. split; [done|]. split.
  - etransitivity; [apply SmallMapFacts.len_retain|]. unfold SmallMap.len, SmallMap.map_values, zlen. by rewrite length_fmap.
  - apply Forall_forall. intros [dst l] Hin. apply SmallMapFacts.get_Some in Hin; [|done].
    rewrite (proj2 (get_prune keep _ dst Hwf)) in Hin.
    destruct (SmallMap.get (rc_routes c) dst) as [l0|] eqn:Eg; [|done]. case_decide as Hne; [done|]. injection Hin as <-.
    destruct (list_ok_get c dst l0 Hc Eg) as (_ & Hz & Hnd & Hd). simpl. split; [done|].
    split; [unfold zlen in *; pose proof (length_retain keep l0); lia|]. split.
    + eapply sublist_NoDup; [exact Hnd|]. apply fmap_sublist, retain_sublist.
    + by apply Forall_retain.
Qed.

(** The calls that change the cache. *)
Inductive rop :=
| Insert (e : RouteEntry) (now : Z) | Touch (dst hop : Address) (now : Z)
| Failure (dst hop : Address) | Success (dst hop : Address) (now : Z)
| InvalidateVia (hop : Address) | Remove (dst : Address) | ExpireRoutes (now : Z).

Definition run_rop (o : rop) (c : RouteCache) : RouteCache :=
  match o with
  | Insert e now => (insert e now c).1
  | Touch dst hop now => touch dst hop now c
  | Failure dst hop => (mark_failure dst hop c).1
  | Success dst hop now => mark_success dst hop now c
  | InvalidateVia hop => (invalidate_via hop c).1
  | Remove dst => (remove dst c).1
  | ExpireRoutes now => (expire now c).1
  end.

Lemma run_rop_ok o c : routes_ok c -> routes_ok (run_rop o c).
Proof.
  destruct o; simpl; intros Hc.
  - by apply insert_ok.
  - apply update_routes_ok; [|done]. intros l. by apply list_ok_update.
  - by apply mark_failure_ok.
  - apply update_routes_ok; [|done]. intros l. by apply list_ok_update.
  - by apply prune_ok.
  - unfold remove. pose proof Hc as (Ha & Hwf & Hlen & Hall).
    pose proof (SmallMapFacts.len_remove (rc_routes c) dst Hwf). pose proof (SmallMapFacts.remove_wf (rc_routes c) dst Hwf).
    pose proof (SmallMapFacts.Forall_remove _ (rc_routes c) dst Hwf Hall).
    destruct (SmallMap.remove (rc_routes c) dst) as [m old]. simpl in *. split; [done|]. split; [done|]. split; [|done].
    simpl. case_match; lia.
  - by apply prune_ok.
Qed.

(** Whatever routes are learned, used, failed, invalidated and expired, the
    cache stays bounded and consistent: at most [max_destinations] destinations
    (at least one), each with between one and [alternatives] routes to it
    through pairwise different next hops. *)
Theorem route_cache_bounded (cfg : RoutingConfig) (ops : list rop) :
  1 <= cfg_alternatives cfg -> routes_ok (foldl (fun c o => run_rop o c) (new cfg) ops).
Proof.
  intros Ha. assert (H0 : routes_ok (new cfg)).
  { split; [done|]. split; [apply SmallMapFacts.empty_wf|]. split; [|constructor].
    simpl. change (SmallMap.len SmallMap.empty) with 0. lia. }
  revert H0. generalize (new cfg). induction ops as [|o ops IH]; intros c Hc; simpl; [done|]. by apply IH, run_rop_ok.
Qed.

(** The routes held for a destination. *)
Definition held (dst : Address) (c : RouteCache) : list RouteEntry := default [] (SmallMap.get (rc_routes c) dst).

(** C37. Route selection is optimal: [lookup] finds a route exactly when an
    unexpired one is held, and then one of least effective cost among them;
    [alternatives] lists all unexpired routes, best first, and begins with a
    route as good as the one [lookup] returns. *)
Theorem route_lookup_optimal (dst : Address) (now : Z) (c : RouteCache) :
  (lookup dst now c = None <-> retain (live now) (held dst c) = []) /\
  (forall r, lookup dst now c = Some r ->
     r ∈ held dst c /\ now < r_expires_at r /\
     forall r', r' ∈ held dst c -> now < r_expires_at r' -> effective_cost r now <= effective_cost r' now) /\
  alternatives dst now c ≡ₚ retain (live now) (held dst c) /\
  StronglySorted (fun a b => effective_cost a now <= effective_cost b now) (alternatives dst now c).
Proof.
  unfold lookup, alternatives, held. split; [|split; [|split]].
  - destruct (SmallMap.get (rc_routes c) dst); simpl; [apply min_by_key_None|done].
  - intros r Hr. destruct (SmallMap.get (rc_routes c) dst) as [l|]; [|done]. simpl.
    pose proof (min_by_key_In _ _ _ Hr) as [Hlive Hin]%elem_of_retain. apply bool_decide_eq_true in Hlive.
    split; [done|]. split; [lia|]. intros r' Hr' Hl'.
    assert (Hin' : r' ∈ retain (live now) l) by (apply elem_of_retain; split; [apply bool_decide_true; lia|done]).
    pose proof (min_by_key_le _ _ _ _ Hr Hin') as Hle. unfold kcmp, Z_KeyOrd in Hle. by rewrite Z.compare_gt_iff, Z.nlt_ge in Hle.
  - rewrite sort_by_key_perm. by destruct (SmallMap.get (rc_routes c) dst).
  - assert (Himp : forall l : list RouteEntry, StronglySorted (key_le (fun r => effective_cost r now)) l ->
      StronglySorted (fun a b => effective_cost a now <= effective_cost b now) l).
    { intros l. induction 1 as [|x l Hs IH Hx]; constructor; [done|]. eapply Forall_impl; [exact Hx|].
      intros y Hy. unfold key_le, kcmp, Z_KeyOrd in Hy. by rewrite Z.compare_gt_iff, Z.nlt_ge in Hy. }
    apply Himp, sort_by_key_sorted.
Qed.

(** Losing a neighbour removes exactly the routes through it: afterwards
    every destination holds its other routes, in the same order, and the
    destinations reported are those that lost one. *)
Theorem invalidate_via_exact (hop dst : Address) (c : RouteCache) :
  routes_ok c ->
  held dst (invalidate_via hop c).1 = retain (fun r => negb (via hop r)) (held dst c) /\
  (dst ∈ (invalidate_via hop c).2 <-> Exists (fun r => r_next_hop r = hop) (held dst c)).
Proof.
  intros Hc. pose proof Hc as (_ & Hwf & _). split.
  - unfold held, invalidate_via. simpl. rewrite (proj2 (get_prune _ _ dst Hwf)).
    destruct (SmallMap.get (rc_routes c) dst) as [l|]; simpl; [|done]. by case_decide as E; [rewrite E|].
  - unfold invalidate_via, held. simpl. rewrite list_elem_of_omap. split.
    + intros ([k l] & Hin & Hk). simpl in Hk. case_decide as Hz; [|done]. injection Hk as ->.
      apply SmallMapFacts.get_Some in Hin; [|done]. rewrite Hin. simpl.
      destruct (decide (Exists (fun r => r_next_hop r = hop) l)) as [|Hn]; [done|]. exfalso. apply Hz. f_equal.
      apply retain_all, Forall_forall. intros r Hr. unfold via. rewrite bool_decide_false; [done|].
      intros E. apply Hn, Exists_exists. eauto.
    + intros Hex. destruct (SmallMap.get (rc_routes c) dst) as [l|] eqn:Eg; simpl in Hex; [|by inversion Hex].
      exists (dst, l). split; [by apply SmallMapFacts.get_Some|]. simpl. rewrite decide_True; [done|].
      intros Hz. apply Exists_exists in Hex as (r & Hr & Hhop).
      assert (HF : Forall (fun r => negb (via hop r) = true) l) by (by apply retain_all_inv).
      rewrite Forall_forall in HF. specialize (HF r Hr). unfold via in HF. by rewrite bool_decide_true in HF.
Qed.

Definition ex_addr (n : Z) : Address := mkAddress [0; 0; 0; 0; 0; 0; 0; n].
Definition ex_route (dst hop cost expires : Z) : RouteEntry :=
  mkRouteEntry (ex_addr dst) (ex_addr hop) 2 cost 0 expires 0 0 Discovery None.
Definition ex_ops : list rop :=
  [Insert (ex_route 9 1 300 0) 10; Insert (ex_route 9 2 200 0) 20; Insert (ex_route 8 2 100 0) 30; Failure (ex_addr 9) (ex_addr 1)].
Definition ex_cache : RouteCache := foldl (fun c o => run_rop o c) (new RoutingConfig_default) ex_ops.

Lemma link_cost_monotone_witness : 100 <= link_cost 200 10 <= link_cost 64 80 /\ link_cost 64 80 <= U16_MAX.
Proof.
  destruct (link_cost_monotone 200 64 10 80) as (H1 & H2 & _); [split; done..|done|done|]. split; [exact H1|exact H2].
Defined.

Lemma route_cache_bounded_witness : routes_ok ex_cache.
Proof. apply (route_cache_bounded RoutingConfig_default ex_ops). done. Defined.

Lemma ex_routes_ok : routes_ok ex_cache.
Proof.
  repeat apply run_rop_ok. split; [done|]. split; [apply SmallMapFacts.empty_wf|]. split; [done|constructor].
Qed.

Lemma route_lookup_optimal_witness : r_next_hop <$> lookup (ex_addr 9) 40 ex_cache = Some (ex_addr 2) /\
  exists r, lookup (ex_addr 9) 40 ex_cache = Some r /\ effective_cost r 40 <= 250.
Proof.
  split; [vm_compute; reflexivity|].
  destruct (lookup (ex_addr 9) 40 ex_cache) as [r|] eqn:E; [|vm_compute in E; discriminate E].
  exists r. split; [reflexivity|].
  refine (Z.le_trans _ _ _ (proj2 (proj2 (proj1 (proj2 (route_lookup_optimal (ex_addr 9) 40 ex_cache)) r E))
    (r_set 20 1800020 20 0 (ex_route 9 2 200 0)) _ _) _).
  - apply (list_elem_of_lookup_2 _ 0). vm_compute. reflexivity.
  - vm_compute. reflexivity.
  - vm_compute. discriminate.
Defined.

Lemma invalidate_via_exact_witness :
  r_next_hop <$> held (ex_addr 9) (invalidate_via (ex_addr 2) ex_cache).1 = [ex_addr 1].
Proof.
  rewrite (proj1 (invalidate_via_exact (ex_addr 2) (ex_addr 9) ex_cache ex_routes_ok)). vm_compute. reflexivity.
Defined.

(** An insertion into a full list compares the new route with routes that have
    already expired: it can be dropped in favour of them, leaving no usable
    route until the next expiry. *)
Lemma insert_dropped_for_expired :
  let c := foldl (fun c o => run_rop o c) (new RoutingConfig_default)
             [Insert (ex_route 9 1 100 50) 10; Insert (ex_route 9 2 100 50) 10] in
  (insert (ex_route 9 3 500 0) 60 c).2 = false /\ lookup (ex_addr 9) 60 (insert (ex_route 9 3 500 0) 60 c).1 = None.
Proof. vm_compute. done. Qed.
End RoutingFacts.
