(* ===== verification/Messages.v ===== *)
(** * Route discovery messages

    [crates/meshstar-core/src/zrp/messages.rs]: the ROUTE_REQUEST,
    ROUTE_REPLY and ROUTE_ERROR payload codecs. *)
From stdpp Require Import base tactics list numbers.
From Stdlib Require Import Lia.
From S2P Require Import Prelude Protocol Packet.

Module rreq_flags.
Definition PROXY_OK : Z := Z.shiftl 1 0.
Definition WANT_KEY : Z := Z.shiftl 1 1.
Definition HANDSHAKE : Z := Z.shiftl 1 2.
End rreq_flags.

Module rrep_flags.
Definition PROXY : Z := Z.shiftl 1 0.
Definition HAS_KEY : Z := Z.shiftl 1 1.
Definition TARGET_LEAF : Z := Z.shiftl 1 2.
Definition HANDSHAKE : Z := Z.shiftl 1 3.
End rrep_flags.

(** [flags & !bits] on a byte. *)
Definition clear_bits (fl bits : Z) : Z := Z.land fl (Z.lxor bits 0xFF).

Module messages.
Record RouteRequest := mkRouteRequest {
  rq_target : Address; rq_cost : Z; rq_flags : Z; rq_handshake : list Z
}.

Definition RREQ_LEN : Z := 11.

Definition rreq_encode (q : RouteRequest) : list Z :=
  let fl := clear_bits (rq_flags q) rreq_flags.HANDSHAKE in
  let fl := match rq_handshake q with [] => fl | _ => Z.lor fl rreq_flags.HANDSHAKE end in
  addr_bytes (rq_target q) ++ be_bytes 2 (rq_cost q) ++ [fl] ++ rq_handshake q.

Definition rreq_decode (b : list Z) : Result RouteRequest :=
  if decide (zlen b < RREQ_LEN) then Err Truncated else
  target ← read_target b 0;
  fl ← idx b 10;
  handshake ←
    (if has_flag fl rreq_flags.HANDSHAKE then
       if decide (zlen b < RREQ_LEN + 32) then Err Truncated else slice_from b RREQ_LEN
     else if decide (zlen b <> RREQ_LEN) then Err BadField else Ok []);
  cost ← be_at b 8 2;
  Ok (mkRouteRequest target cost fl handshake).

Record RouteReply := mkRouteReply {
  rp_target : Address; rp_req_id : Z; rp_hops_to_target : Z; rp_cost : Z; rp_flags : Z;
  rp_target_key : option (list Z); rp_handshake : list Z
}.

Definition RREP_MIN_LEN : Z := 16.

Definition rrep_encode (r : RouteReply) : list Z :=
  let fl := clear_bits (rp_flags r) (Z.lor rrep_flags.HAS_KEY rrep_flags.HANDSHAKE) in
  let fl := match rp_target_key r with Some _ => Z.lor fl rrep_flags.HAS_KEY | None => fl end in
  let fl := match rp_handshake r with [] => fl | _ => Z.lor fl rrep_flags.HANDSHAKE end in
  addr_bytes (rp_target r) ++ be_bytes 4 (rp_req_id r) ++ [rp_hops_to_target r] ++
  be_bytes 2 (rp_cost r) ++ [fl] ++ default [] (rp_target_key r) ++ rp_handshake r.

Definition rrep_decode (b : list Z) : Result RouteReply :=
  if decide (zlen b < RREP_MIN_LEN) then Err Truncated else
  target ← read_target b 0;
  req_id ← be_at b 8 4;
  hops ← idx b 12;
  cost ← be_at b 13 2;
  fl ← idx b 15;
  '(pos, key) ←
    (if has_flag fl rrep_flags.HAS_KEY then
       if decide (zlen b < RREP_MIN_LEN + 32) then Err Truncated else
       k ← slice b RREP_MIN_LEN (RREP_MIN_LEN + 32);
       Ok (RREP_MIN_LEN + 32, Some k)
     else Ok (RREP_MIN_LEN, None));
  handshake ←
    (if has_flag fl rrep_flags.HANDSHAKE then
       if decide (zlen b < pos + 32 + 48 + 16) then Err Truncated else slice_from b pos
     else if decide (zlen b <> pos) then Err BadField else Ok []);
  Ok (mkRouteReply target req_id hops cost fl key handshake).

Record RouteError := mkRouteError { re_unreachable : list Address }.

Definition rerr_encode (e : RouteError) : list Z :=
  u8 (Z.min (zlen (re_unreachable e)) 16) :: concat (addr_bytes <$> take 16 (re_unreachable e)).

(** The [for i in 0..n] loop, [i] of [n] done. *)
Fixpoint rerr_loop (b : list Z) (i : Z) (n : nat) : Result (list Address) :=
  match n with
  | O => Ok []
  | S n' =>
      a ← read_target b (1 + 8 * i);
      rest ← rerr_loop b (i + 1) n';
      Ok (a :: rest)
  end.

Definition rerr_decode (b : list Z) : Result RouteError :=
  if decide (b = []) then Err Truncated else
  n ← idx b 0;
  if decide (n = 0 \/ n > 16 \/ zlen b <> 1 + 8 * n) then Err BadField else
  l ← rerr_loop b 0 (Z.to_nat n);
  Ok (mkRouteError l).
End messages.

(** ** Round trips *)

Module MessagesFacts.
Import messages.

(** A request as a node builds it: the handshake bit says whether Noise
    message 1 (at least 32 bytes) follows. *)
Definition rreq_ok (q : RouteRequest) : Prop :=
  target_ok (rq_target q) /\ in_u 16 (rq_cost q) /\ byte_ok (rq_flags q) /\
  if has_flag (rq_flags q) rreq_flags.HANDSHAKE then 32 <= zlen (rq_handshake q) else rq_handshake q = [].

Definition rrep_ok (r : RouteReply) : Prop :=
  target_ok (rp_target r) /\ in_u 32 (rp_req_id r) /\ byte_ok (rp_hops_to_target r) /\ in_u 16 (rp_cost r) /\
  byte_ok (rp_flags r) /\
  (if has_flag (rp_flags r) rrep_flags.HAS_KEY then exists k, rp_target_key r = Some k /\ zlen k = 32
   else rp_target_key r = None) /\
  (if has_flag (rp_flags r) rrep_flags.HANDSHAKE then 96 <= zlen (rp_handshake r) else rp_handshake r = []).

(** The encoder recomputes the presence bits; they come out as they were. *)
Lemma rreq_flags_stable fl :
  byte_ok fl ->
  (let f := clear_bits fl rreq_flags.HANDSHAKE in
   if has_flag fl rreq_flags.HANDSHAKE then Z.lor f rreq_flags.HANDSHAKE else f) = fl.
Proof. intros Hfl. byte_check fl Hfl. Qed.

Lemma rrep_flags_stable fl :
  byte_ok fl ->
  (let f := clear_bits fl (Z.lor rrep_flags.HAS_KEY rrep_flags.HANDSHAKE) in
   let f := if has_flag fl rrep_flags.HAS_KEY then Z.lor f rrep_flags.HAS_KEY else f in
   if has_flag fl rrep_flags.HANDSHAKE then Z.lor f rrep_flags.HANDSHAKE else f) = fl.
Proof. intros Hfl. byte_check fl Hfl. Qed.

Lemma rreq_roundtrip q : rreq_ok q -> rreq_decode (rreq_encode q) = Ok q.
Proof.
  intros (Ht & Hc & Hfl & Hhs). unfold rreq_encode.
  assert (Hf : match rq_handshake q with [] => clear_bits (rq_flags q) rreq_flags.HANDSHAKE
      | _ => Z.lor (clear_bits (rq_flags q) rreq_flags.HANDSHAKE) rreq_flags.HANDSHAKE end = rq_flags q).
  { pose proof (rreq_flags_stable _ Hfl) as Hs. cbn zeta in Hs. destruct (has_flag _ _).
    - destruct (rq_handshake q); [unfold zlen in Hhs; simpl in Hhs; lia|done].
    - by rewrite Hhs. }
  cbn zeta. rewrite Hf. clear Hf. pose proof (zlen_addr _ (proj1 Ht)) as Hz. pose proof (zlen_nonneg (rq_handshake q)).
  unfold rreq_decode, RREQ_LEN. rewrite decide_False by zlens. rewrite read_target_head by done.
  cbn [mbind outcome_bind]. codec. destruct (has_flag (rq_flags q) rreq_flags.HANDSHAKE).
  - codec. rewrite from_be_16 by done. by destruct q.
  - rewrite Hhs, app_nil_r in *. rewrite decide_False by (autorewrite with mesh; lia).
    cbn [mbind outcome_bind]. codec. rewrite from_be_16 by done. destruct q. simpl in *. by subst.
Qed.

Lemma rrep_roundtrip r : rrep_ok r -> rrep_decode (rrep_encode r) = Ok r.
Proof.
  intros (Ht & Hid & Hh & Hc & Hfl & Hkey & Hhs). unfold rrep_encode.
  assert (Hf : let f := clear_bits (rp_flags r) (Z.lor rrep_flags.HAS_KEY rrep_flags.HANDSHAKE) in
    let f := match rp_target_key r with Some _ => Z.lor f rrep_flags.HAS_KEY | None => f end in
    match rp_handshake r with [] => f | _ => Z.lor f rrep_flags.HANDSHAKE end = rp_flags r).
  { pose proof (rrep_flags_stable _ Hfl) as Hs. cbn zeta in *.
    destruct (has_flag (rp_flags r) rrep_flags.HAS_KEY); [destruct Hkey as (k & -> & _)|rewrite Hkey];
    (destruct (has_flag (rp_flags r) rrep_flags.HANDSHAKE);
      [destruct (rp_handshake r); [unfold zlen in Hhs; simpl in Hhs; lia|done]|by rewrite Hhs]). }
  cbn zeta in *. rewrite Hf. clear Hf. pose proof (zlen_addr _ (proj1 Ht)) as Hz.
  pose proof (zlen_nonneg (rp_handshake r)). pose proof (zlen_nonneg (default [] (rp_target_key r))).
  unfold rrep_decode, RREP_MIN_LEN. rewrite decide_False by zlens. rewrite read_target_head by done.
  cbn [mbind outcome_bind]. do 4 codec_head. rewrite from_be_32, from_be_16 by done.
  destruct (has_flag (rp_flags r) rrep_flags.HAS_KEY); [destruct Hkey as (k & Hk & Hzk)|rename Hkey into Hk];
    rewrite Hk in *; simpl default in *; cbn [mbind outcome_bind]; codec;
    (destruct (has_flag (rp_flags r) rrep_flags.HANDSHAKE);
      [codec|rewrite Hhs, ?app_nil_r; rewrite decide_False by (autorewrite with mesh; lia); cbn [mbind outcome_bind]]);
    destruct r; simpl in *; by subst.
Qed.

Lemma rerr_loop_spec (l : list Address) (p : list Z) i :
  Forall target_ok l -> zlen p = 1 + 8 * i ->
  rerr_loop (p ++ concat (addr_bytes <$> l)) i (length l) = Ok l.
Proof.
  intros Hl. revert p i. induction Hl as [|a l Ha Hl IH]; intros p i Hp; [done|]. simpl.
  rewrite read_target_at by done. cbn [mbind outcome_bind].
  rewrite app_assoc, IH; [done|]. rewrite zlen_app, (zlen_addr _ (proj1 Ha)). lia.
Qed.

Lemma rerr_roundtrip e :
  Forall target_ok (re_unreachable e) -> 1 <= zlen (re_unreachable e) <= 16 -> rerr_decode (rerr_encode e) = Ok e.
Proof.
  intros Hl Hn. destruct e as [l]. unfold rerr_decode, rerr_encode. simpl in *.
  rewrite firstn_all2 by (unfold zlen in Hn; lia). rewrite Z.min_l, u8_small by lia.
  rewrite decide_False by (rewrite zlen_cons, zlen_addresses by done; lia).
  replace (Z.to_nat (zlen l)) with (length l) by (unfold zlen; lia).
  pose proof (rerr_loop_spec l [zlen l] 0 Hl eq_refl) as Hloop. cbn [app] in Hloop. by rewrite Hloop.
Qed.

(** ** Arbitrary input *)

Lemma safe_rreq_decode b : safe (rreq_decode b).
Proof.
  unfold rreq_decode, RREQ_LEN. repeat (safe_step || (apply safe_read_target; lia)).
Qed.

Lemma safe_rrep_decode b : safe (rrep_decode b).
Proof.
  unfold rrep_decode, RREP_MIN_LEN. repeat (safe_step || (apply safe_read_target; lia)).
  destruct a4 as [pos key]. assert (16 <= pos <= zlen b).
  { match goal with H : (if has_flag _ rrep_flags.HAS_KEY then _ else _) = Ok _ |- _ => rename H into Hk end.
    destruct (has_flag a3 rrep_flags.HAS_KEY).
    - case_decide; [done|]. apply bind_ok in Hk as (? & ? & [= <- _]). lia.
    - injection Hk as <- _. lia. }
  repeat safe_step.
Qed.

Lemma safe_rerr_loop b n i : 0 <= i -> 1 + 8 * (i + Z.of_nat n) <= zlen b -> safe (rerr_loop b i n).
Proof.
  revert i. induction n as [|n IH]; intros i Hi Hn; simpl; [done|].
  apply safe_bind; [apply safe_read_target; lia|]. intros a _. apply safe_bind; [apply IH; lia|]. done.
Qed.

Lemma safe_rerr_decode b : safe (rerr_decode b).
Proof.
  unfold rerr_decode. apply safe_if; intros Hb; [done|].
  assert (1 <= zlen b) by (destruct b; [done|rewrite zlen_cons; pose proof (zlen_nonneg b); lia]).
  repeat safe_step. apply safe_rerr_loop; lia.
Qed.

(** The discovery messages survive the wire: requests and replies decode to
    what was encoded, with or without key and handshake, and so do errors with
    one to sixteen addresses; no payload makes a decoder panic. *)
Theorem discovery_codecs_roundtrip (q : RouteRequest) (r : RouteReply) (e : RouteError) (b : list Z) :
  rreq_ok q -> rrep_ok r -> Forall target_ok (re_unreachable e) -> 1 <= zlen (re_unreachable e) <= 16 ->
  rreq_decode (rreq_encode q) = Ok q /\ rrep_decode (rrep_encode r) = Ok r /\ rerr_decode (rerr_encode e) = Ok e /\
  rreq_decode b <> Panic /\ rrep_decode b <> Panic /\ rerr_decode b <> Panic.
Proof.
  intros Hq Hr He Hn. split; [by apply rreq_roundtrip|]. split; [by apply rrep_roundtrip|].
  split; [by apply rerr_roundtrip|]. split; [apply safe_rreq_decode|]. split; [apply safe_rrep_decode|apply safe_rerr_decode].
Qed.

Definition ex_target : Address := mkAddress [1; 2; 3; 4; 5; 6; 7; 8].
Lemma ex_target_ok : target_ok ex_target.
Proof. split; [split; [done|apply (bool_decide_unpack _); vm_compute; exact I]|done]. Qed.

Lemma discovery_codecs_roundtrip_witness :
  rreq_decode (rreq_encode (mkRouteRequest ex_target 300 7 (replicate 40 9))) = Ok (mkRouteRequest ex_target 300 7 (replicate 40 9)) /\
  rerr_decode (rerr_encode (mkRouteError [ex_target])) = Ok (mkRouteError [ex_target]).
Proof.
  destruct (discovery_codecs_roundtrip (mkRouteRequest ex_target 300 7 (replicate 40 9))
    (mkRouteReply ex_target 77 3 500 2 (Some (replicate 32 1)) []) (mkRouteError [ex_target]) []) as (H1 & _ & H3 & _).
  - split; [exact ex_target_ok|]. repeat split; vm_compute; (reflexivity || discriminate).
  - split; [exact ex_target_ok|]. split; [split; done|]. split; [split; done|]. split; [split; done|]. split; [split; done|].
    split; [exists (replicate 32 1); split; reflexivity|reflexivity].
  - constructor; [exact ex_target_ok|constructor].
  - split; discriminate.
  - split; [exact H1|exact H3].
Defined.
End MessagesFacts.
