(* ===== verification/Ierp.v ===== *)
(** * Reactive route discovery

    [crates/meshstar-core/src/zrp/mod.rs]: expanding-ring discoveries, the
    reply scheduler and the request cache of a relay. *)
From stdpp Require Import base tactics list numbers sets.
From Stdlib Require Import Lia.
From S2P Require Import Prelude SmallMap Protocol Packet.

Record ZrpConfig := mkZrpConfig {
  zone_radius : Z; discovery_attempts : Z; discovery_timeout_ms : Z; discovery_per_hop_ms : Z;
  max_pending_discoveries : Z; max_queued_per_discovery : Z; max_zone_entries : Z;
  max_advertised_entries : Z; better_cost_percent : Z; discovery_holdoff_ms : Z
}.
Definition ZrpConfig_default : ZrpConfig :=
  mkZrpConfig 2 (u8 (zlen DISCOVERY_TTL_STEPS)) 3000 1600 8 4 96 6 70 20000.

Record Discovery := mkDiscovery {
  d_target : Address; d_started_at : Z; d_attempt : Z; d_deadline : Z; d_req_id : Z; d_queued : list Packet
}.

(** [Discovery::ttl]; the index is clamped to the last step. *)
Definition discovery_ttl (d : Discovery) : Z :=
  let i := Z.min (d_attempt d) (zlen DISCOVERY_TTL_STEPS - 1) in
  default 0 (DISCOVERY_TTL_STEPS !! Z.to_nat i).

Definition ReplyItem : Type := (Address * Z * Z * Z * Packet)%type.
Record PendingReplies := mkPendingReplies { pr_items : list ReplyItem; pr_suppressed : Z }.

Module PendingReplies.
Definition new : PendingReplies := mkPendingReplies [] 0.
Definition schedule (origin : Address) (req_id cost due : Z) (p : Packet) (s : PendingReplies) : PendingReplies :=
  if decide (zlen (pr_items s) < 16)
  then mkPendingReplies (pr_items s ++ [(origin, req_id, cost, due, p)]) (pr_suppressed s) else s.

Definition heard (origin : Address) (req_id cost : Z) (s : PendingReplies) : PendingReplies :=
  let keep := retain (fun '(o, r, c, _, _) =>
    negb (bool_decide (o = origin) && bool_decide (r = req_id) && bool_decide (c >= cost))) (pr_items s) in
  mkPendingReplies keep (u32 (pr_suppressed s + u32 (usize (zlen (pr_items s) - zlen keep)))).

Fixpoint due_loop (now : Z) (l : list ReplyItem) : list ReplyItem * list Packet :=
  match l with
  | [] => ([], [])
  | (o, r, c, d, p) :: l' =>
      let '(keep, out) := due_loop now l' in
      if decide (d <= now) then (keep, p :: out) else ((o, r, c, d, p) :: keep, out)
  end.
Definition due (now : Z) (s : PendingReplies) : PendingReplies * list Packet :=
  let '(keep, out) := due_loop now (pr_items s) in (mkPendingReplies keep (pr_suppressed s), out).

Definition next_due (s : PendingReplies) : option Z := zmin ((fun '(_, _, _, d, _) => d) <$> pr_items s).
Definition len (s : PendingReplies) : Z := zlen (pr_items s).
End PendingReplies.

Record SeenRequest := mkSeenRequest {
  sq_best_cost : Z; sq_relays : Z; sq_first_seen : Z; sq_replied : bool
}.

Record Ierp := mkIerp {
  ie_cfg : ZrpConfig;
  ie_pending : smallmap Address Discovery;
  ie_seen_requests : smallmap (Address * Z) SeenRequest;
  ie_last_finished : smallmap Address (Z * bool);
  ie_discoveries_started : Z;
  ie_discoveries_succeeded : Z;
  ie_discoveries_failed : Z;
  ie_proxy_replies_sent : Z
}.

Definition set_pending (m : smallmap Address Discovery) (s : Ierp) : Ierp :=
  mkIerp (ie_cfg s) m (ie_seen_requests s) (ie_last_finished s) (ie_discoveries_started s)
    (ie_discoveries_succeeded s) (ie_discoveries_failed s) (ie_proxy_replies_sent s).
Definition set_seen (m : smallmap (Address * Z) SeenRequest) (s : Ierp) : Ierp :=
  mkIerp (ie_cfg s) (ie_pending s) m (ie_last_finished s) (ie_discoveries_started s)
    (ie_discoveries_succeeded s) (ie_discoveries_failed s) (ie_proxy_replies_sent s).
Definition set_finished (m : smallmap Address (Z * bool)) (s : Ierp) : Ierp :=
  mkIerp (ie_cfg s) (ie_pending s) (ie_seen_requests s) m (ie_discoveries_started s)
    (ie_discoveries_succeeded s) (ie_discoveries_failed s) (ie_proxy_replies_sent s).
Definition count_discovery (started succeeded failed : Z) (s : Ierp) : Ierp :=
  mkIerp (ie_cfg s) (ie_pending s) (ie_seen_requests s) (ie_last_finished s)
    (u32 (ie_discoveries_started s + started)) (u32 (ie_discoveries_succeeded s + succeeded))
    (u32 (ie_discoveries_failed s + failed)) (ie_proxy_replies_sent s).

Module Ierp.
Definition new (cfg : ZrpConfig) : Ierp := mkIerp cfg SmallMap.empty SmallMap.empty SmallMap.empty 0 0 0 0.

Definition is_pending (target : Address) (s : Ierp) : bool := SmallMap.contains_key (ie_pending s) target.

Definition may_start (target : Address) (now : Z) (s : Ierp) : bool :=
  if SmallMap.contains_key (ie_pending s) target then false
  else if decide (SmallMap.len (ie_pending s) >= max_pending_discoveries (ie_cfg s)) then false
  else match SmallMap.get (ie_last_finished s) target with
       | Some (t, false) => bool_decide (sat_sub now t >= discovery_holdoff_ms (ie_cfg s))
       | Some (t, true) => bool_decide (sat_sub now t >= discovery_holdoff_ms (ie_cfg s) / 4)
       | None => true
       end.

Definition timeout_for (cfg : ZrpConfig) (ttl : Z) : Z :=
  u64 (discovery_timeout_ms cfg + u64 (ttl * discovery_per_hop_ms cfg)).

Definition start (target : Address) (req_id now : Z) (s : Ierp) : Ierp * Z :=
  let ttl := discovery_ttl (mkDiscovery target now 0 0 req_id []) in
  let d := mkDiscovery target now 0 (u64 (now + timeout_for (ie_cfg s) ttl)) req_id [] in
  (count_discovery 1 0 0 (set_pending (SmallMap.insert (ie_pending s) target d).1 s), ttl).

Definition push_queued (p : Packet) (d : Discovery) : Discovery :=
  mkDiscovery (d_target d) (d_started_at d) (d_attempt d) (d_deadline d) (d_req_id d) (d_queued d ++ [p]).

Definition queue (target : Address) (p : Packet) (s : Ierp) : Ierp * bool :=
  match SmallMap.get (ie_pending s) target with
  | Some d =>
      if decide (zlen (d_queued d) < max_queued_per_discovery (ie_cfg s))
      then (set_pending (SmallMap.update (ie_pending s) target (push_queued p)) s, true) else (s, false)
  | None => (s, false)
  end.

Definition succeed (target : Address) (now : Z) (s : Ierp) : Ierp * list Packet :=
  let s := set_finished (SmallMap.insert (ie_last_finished s) target (now, true)).1 s in
  match SmallMap.remove (ie_pending s) target with
  | (m, Some d) => (count_discovery 0 1 0 (set_pending m s), d_queued d)
  | (m, None) => (s, [])
  end.

Section Tick.
Context {G : Type} (new_req_id : G -> Z * G).

(** The loop over the pending discoveries: their new states, the retries, the
    targets given up. *)
Fixpoint tick_loop (cfg : ZrpConfig) (now : Z) (l : smallmap Address Discovery) (g : G) :
    smallmap Address Discovery * list (Address * Z * Z) * list Address * G :=
  match l with
  | [] => ([], [], [], g)
  | (t, d) :: l' =>
      if decide (now < d_deadline d) then
        let '(m, retries, done, g) := tick_loop cfg now l' g in ((t, d) :: m, retries, done, g)
      else
        let attempt := u8 (d_attempt d + 1) in
        if decide (attempt >= discovery_attempts cfg) then
          let d := mkDiscovery (d_target d) (d_started_at d) attempt (d_deadline d) (d_req_id d) (d_queued d) in
          let '(m, retries, done, g) := tick_loop cfg now l' g in ((t, d) :: m, retries, t :: done, g)
        else
          let '(id, g) := new_req_id g in
          let ttl := discovery_ttl (mkDiscovery (d_target d) (d_started_at d) attempt (d_deadline d) id (d_queued d)) in
          let deadline := u64 (u64 (now + discovery_timeout_ms cfg) + u64 (ttl * discovery_per_hop_ms cfg)) in
          let d := mkDiscovery (d_target d) (d_started_at d) attempt deadline id (d_queued d) in
          let '(m, retries, done, g) := tick_loop cfg now l' g in ((t, d) :: m, (t, id, ttl) :: retries, done, g)
  end.

(** [for t in done]: remove the discovery, count it, remember the failure. *)
Fixpoint fail_loop (now : Z) (done : list Address) (s : Ierp) : Ierp * outcome Error (list (Address * list Packet)) :=
  match done with
  | [] => (s, Ok [])
  | t :: done' =>
      match SmallMap.remove (ie_pending s) t with
      | (m, Some d) =>
          let s := count_discovery 0 0 1 (set_pending m s) in
          let s := set_finished (SmallMap.insert (ie_last_finished s) t (now, false)).1 s in
          let '(s, r) := fail_loop now done' s in
          (s, rest ← r; Ok ((t, d_queued d) :: rest))
      | (m, None) => (s, Panic)
      end
  end.

Definition tick (now : Z) (g : G) (s : Ierp) :
    Ierp * outcome Error (list (Address * Z * Z) * list (Address * list Packet)) * G :=
  let '(m, retries, done, g) := tick_loop (ie_cfg s) now (ie_pending s) g in
  let '(s, r) := fail_loop now done (set_pending m s) in
  (s, (failures ← r; Ok (retries, failures)), g).
End Tick.

Definition next_deadline (s : Ierp) : option Z := zmin (d_deadline <$> SmallMap.values (ie_pending s)).

Definition prune_seen (now : Z) (s : Ierp) : smallmap (Address * Z) SeenRequest :=
  if decide (SmallMap.len (ie_seen_requests s) > 512)
  then SmallMap.retain (fun _ q => bool_decide (sq_first_seen q > sat_sub now 60000)) (ie_seen_requests s)
  else ie_seen_requests s.

Definition observe_request (origin : Address) (req_id cost now : Z) (s : Ierp) : Ierp * bool :=
  let key := (origin, req_id) in
  let seen := prune_seen now s in
  match SmallMap.get seen key with
  | None => (set_seen (SmallMap.insert seen key (mkSeenRequest cost 1 now false)).1 s, true)
  | Some q =>
      let much_better := bool_decide (u32 (cost * 100) < u32 (sq_best_cost q * better_cost_percent (ie_cfg s))) in
      if much_better && bool_decide (sq_relays q < 2) then
        (set_seen (SmallMap.update seen key (fun q => mkSeenRequest cost (u8 (sq_relays q + 1)) (sq_first_seen q) (sq_replied q))) s, true)
      else
        (set_seen (SmallMap.update seen key (fun q =>
           if decide (cost < sq_best_cost q) then mkSeenRequest cost (sq_relays q) (sq_first_seen q) (sq_replied q) else q)) s, false)
  end.

Definition mark_replied (origin : Address) (req_id : Z) (s : Ierp) : Ierp * bool :=
  match SmallMap.get (ie_seen_requests s) (origin, req_id) with
  | Some q =>
      if sq_replied q then (s, false)
      else (set_seen (SmallMap.update (ie_seen_requests s) (origin, req_id)
              (fun q => mkSeenRequest (sq_best_cost q) (sq_relays q) (sq_first_seen q) true)) s, true)
  | None => (s, true)
  end.

Definition seen_request (origin : Address) (req_id : Z) (s : Ierp) : option SeenRequest :=
  SmallMap.get (ie_seen_requests s) (origin, req_id).

Definition expire (now : Z) (s : Ierp) : Ierp :=
  let s := set_seen (SmallMap.retain (fun _ q => bool_decide (sq_first_seen q > sat_sub now 120000)) (ie_seen_requests s)) s in
  set_finished (SmallMap.retain (fun _ '(t, _) => bool_decide (sat_sub now t < u64 (discovery_holdoff_ms (ie_cfg s) * 4)))
    (ie_last_finished s)) s.
End Ierp.

(** ** Discoveries end *)

Module IerpFacts.
Import Ierp.

Definition discovery_ok (cfg : ZrpConfig) (t : Address) (d : Discovery) : Prop :=
  d_target d = t /\ 0 <= d_attempt d < Z.max 1 (discovery_attempts cfg) /\
  zlen (d_queued d) <= Z.max 0 (max_queued_per_discovery cfg).

Definition request_ok (q : SeenRequest) : Prop := 1 <= sq_relays q <= 2.

Definition ierp_ok (s : Ierp) : Prop :=
  0 <= discovery_attempts (ie_cfg s) <= 255 /\
  SmallMapFacts.wf (ie_pending s) /\ SmallMapFacts.wf (ie_seen_requests s) /\ SmallMapFacts.wf (ie_last_finished s) /\
  SmallMap.len (ie_pending s) <= Z.max 0 (max_pending_discoveries (ie_cfg s)) /\
  Forall (fun kv => discovery_ok (ie_cfg s) kv.1 kv.2) (ie_pending s) /\
  Forall (fun kv => request_ok kv.2) (ie_seen_requests s).

(** What a tick does to one discovery. *)
Definition due (now : Z) (d : Discovery) : Prop := d_deadline d <= now.
Definition exhausted (cfg : ZrpConfig) (d : Discovery) : Prop := discovery_attempts cfg <= d_attempt d + 1.
#[global] Instance due_dec now d : Decision (due now d).
Proof. unfold due. apply _. Defined.
#[global] Instance exhausted_dec cfg d : Decision (exhausted cfg d).
Proof. unfold exhausted. apply _. Defined.

Definition advanced (now : Z) (d d' : Discovery) : Prop :=
  if decide (due now d) then
    d_attempt d' = d_attempt d + 1 /\ d_queued d' = d_queued d /\ d_target d' = d_target d
  else d' = d.

Section Loop.
Context {G : Type} (new_req_id : G -> Z * G) (cfg : ZrpConfig) (now : Z).
Hypothesis (Hcfg : 0 <= discovery_attempts cfg <= 255).

Definition retried (retries : list (Address * Z * Z)) (td td' : Address * Discovery) : Prop :=
  td'.1 = td.1 /\ advanced now td.2 td'.2 /\
  (due now td.2 -> ~ exhausted cfg td.2 -> (td.1, d_req_id td'.2, discovery_ttl td'.2) ∈ retries).

Lemma retried_mono x retries td td' : retried retries td td' -> retried (x :: retries) td td'.
Proof. intros (? & ? & H). split; [done|]. split; [done|]. intros ??. apply elem_of_cons. right. auto. Qed.

Lemma discovery_loop_spec l (g : G) :
  Forall (fun kv => discovery_ok cfg kv.1 kv.2) l ->
  let '(m, retries, done, g') := tick_loop new_req_id cfg now l g in
  Forall2 (retried retries) l m /\
  done = omap (fun td => if decide (due now td.2 /\ exhausted cfg td.2) then Some td.1 else None) l.
Proof.
  intros Hl. revert g. induction Hl as [|[t d] l (Ht & Ha & Hq) Hl IH]; intros g; simpl; [split; constructor|].
  simpl in *. case_decide as Hd.
  - specialize (IH g). destruct (tick_loop _ _ _ _ _) as [[[m retries] done] g']. destruct IH as [IH ->].
    rewrite decide_False by (unfold due; lia). split; [|done]. constructor; [|done].
    split; [done|]. unfold advanced. simpl. rewrite decide_False by (unfold due; lia). split; [done|]. unfold due. lia.
  - rewrite u8_small by lia. assert (Hdue : due now d) by (unfold due; lia). case_decide as He.
    + specialize (IH g). destruct (tick_loop _ _ _ _ _) as [[[m retries] done] g']. destruct IH as [IH ->].
      rewrite decide_True by (split; [done|]; unfold exhausted; lia). split; [|done]. constructor; [|done].
      split; [done|]. unfold advanced. simpl. rewrite decide_True by done. split; [done|]. unfold exhausted. lia.
    + destruct (new_req_id g) as [id g1]. specialize (IH g1).
      destruct (tick_loop _ _ _ _ _) as [[[m retries] done] g']. destruct IH as [IH ->].
      rewrite decide_False by (unfold exhausted; lia). split; [|done]. constructor.
      * split; [done|]. unfold advanced. simpl. rewrite decide_True by done. split; [done|]. intros _ _. apply elem_of_cons. by left.
      * eapply Forall2_impl; [exact IH|]. intros. by apply retried_mono.
Qed.
End Loop.

(** Looking up in a map changed entry by entry. *)
Lemma get_Forall2 {V} (R : Address * V -> Address * V -> Prop) (m m' : smallmap Address V) :
  SmallMapFacts.wf m -> (forall x y, R x y -> y.1 = x.1) -> Forall2 R m m' ->
  SmallMapFacts.wf m' /\ SmallMap.len m' = SmallMap.len m /\
  (forall t v, SmallMap.get m t = Some v -> exists v', SmallMap.get m' t = Some v' /\ R (t, v) (t, v')) /\
  (forall t, SmallMap.get m t = None -> SmallMap.get m' t = None).
Proof.
  intros Hwf HR Hall.
  assert (Hkeys : m'.*1 = m.*1).
  { clear Hwf. induction Hall as [|x y m m' Hxy Hall IH]; [done|]. rewrite !fmap_cons, IH. f_equal. by apply HR. }
  assert (Hwf' : SmallMapFacts.wf m') by (unfold SmallMapFacts.wf in *; by rewrite Hkeys).
  split; [done|]. split; [unfold SmallMap.len, zlen; by rewrite (Forall2_length _ _ _ Hall)|]. split.
  - intros t v Hv. apply SmallMapFacts.get_Some in Hv; [|done]. apply list_elem_of_lookup in Hv as [i Hi].
    destruct (Forall2_lookup_l _ _ _ _ _ Hall Hi) as ([t' v'] & Hi' & Hr). pose proof (HR _ _ Hr) as Ht. simpl in Ht. subst t'.
    exists v'. split; [|done]. apply SmallMapFacts.get_Some; [done|]. by eapply list_elem_of_lookup_2.
  - intros t Ht. apply SmallMapFacts.get_None; [done|]. intros v Hin. rewrite SmallMapFacts.get_None in Ht by done.
    assert (Hk : t ∈ m.*1) by (rewrite <- Hkeys; apply list_elem_of_fmap; by exists (t, v)).
    apply list_elem_of_fmap in Hk as ([t' v'] & -> & Hin'). by apply (Ht v').
Qed.

Lemma fail_loop_spec now done s :
  SmallMapFacts.wf (ie_pending s) -> SmallMapFacts.wf (ie_last_finished s) -> NoDup done ->
  (forall t, t ∈ done -> is_Some (SmallMap.get (ie_pending s) t)) ->
  exists s' failures, fail_loop now done s = (s', Ok failures) /\
    ie_cfg s' = ie_cfg s /\ ie_seen_requests s' = ie_seen_requests s /\
    SmallMapFacts.wf (ie_pending s') /\ SmallMapFacts.wf (ie_last_finished s') /\
    SmallMap.len (ie_pending s') <= SmallMap.len (ie_pending s) /\
    (forall t, SmallMap.get (ie_pending s') t = if decide (t ∈ done) then None else SmallMap.get (ie_pending s) t) /\
    (forall t d, t ∈ done -> SmallMap.get (ie_pending s) t = Some d -> (t, d_queued d) ∈ failures).
Proof.
  intros Hwf Hwl Hnd. revert s Hwf Hwl. induction Hnd as [|t done Hni Hnd IH]; intros s Hwf Hwl Hin; simpl.
  { exists s, []. repeat split; try done. intros t d Ht. by apply elem_of_nil in Ht. }
  destruct (Hin t) as [d Hd]; [set_solver|].
  pose proof (SmallMapFacts.remove_wf _ t Hwf) as Hw. pose proof (SmallMapFacts.remove_old _ t Hwf) as Ho.
  pose proof (fun k => SmallMapFacts.get_remove (ie_pending s) t k Hwf) as Hg.
  pose proof (SmallMapFacts.len_remove (ie_pending s) t Hwf) as Hl. rewrite Hd in *.
  destruct (SmallMap.remove (ie_pending s) t) as [m old]. simpl in Ho, Hw, Hg, Hl. subst old.
  set (s1 := set_finished _ _).
  assert (Hgk : forall k, SmallMap.get (ie_pending s1) k = if decide (k = t) then None else SmallMap.get (ie_pending s) k).
  { intros k. simpl. rewrite Hg. destruct (kcmp t k) eqn:E.
    - apply kcmp_eq in E. by rewrite decide_True.
    - rewrite decide_False; [done|]. intros ->. by rewrite kcmp_refl in E.
    - rewrite decide_False; [done|]. intros ->. by rewrite kcmp_refl in E. }
  destruct (IH s1) as (s' & failures & Hr & Hc & Hs & Hwf' & Hwl' & Hlen & Hget & Hf).
  { done. } { by apply SmallMapFacts.insert_wf. }
  { intros k Hk. rewrite Hgk, decide_False by (intros ->; done). apply Hin. set_solver. }
  rewrite Hr. exists s', ((t, d_queued d) :: failures). simpl. repeat split; try done.
  - simpl in Hlen. lia.
  - intros k. rewrite Hget, Hgk. destruct (decide (k ∈ done)) as [Hk|Hk].
    + by rewrite decide_True by set_solver.
    + destruct (decide (k = t)) as [->|Hne]; [by rewrite decide_True by set_solver|].
      by rewrite decide_False by set_solver.
  - intros k d' Hk Hd'. apply elem_of_cons in Hk as [->|Hk]; [apply elem_of_cons; left; congruence|].
    apply elem_of_cons. right. apply Hf; [done|]. rewrite Hgk, decide_False by (intros ->; done). done.
Qed.

Lemma done_list_spec cfg now (l : smallmap Address Discovery) t :
  t ∈ omap (fun td : Address * Discovery => if decide (due now td.2 /\ exhausted cfg td.2) then Some td.1 else None) l <->
  exists d, (t, d) ∈ l /\ due now d /\ exhausted cfg d.
Proof.
  rewrite list_elem_of_omap. split.
  - intros ([k d] & Hin & Hk). simpl in Hk. case_decide as H; [|done]. injection Hk as ->. eauto.
  - intros (d & Hin & Hd & He). exists (t, d). split; [done|]. simpl. by rewrite decide_True.
Qed.

Lemma done_list_NoDup cfg now (l : smallmap Address Discovery) :
  NoDup (l.*1) ->
  NoDup (omap (fun td : Address * Discovery => if decide (due now td.2 /\ exhausted cfg td.2) then Some td.1 else None) l).
Proof.
  induction l as [|[k d] l IH]; simpl; [constructor|]. intros Hnd. inversion_clear Hnd as [|? ? Hni Hnd'].
  specialize (IH Hnd'). destruct (decide (due now d /\ exhausted cfg d)); [|done]. constructor; [|done].
  rewrite done_list_spec. intros (d' & Hin & _). apply Hni, list_elem_of_fmap. by exists (k, d').
Qed.

(** What a tick decides for one target. *)
Definition decided (cfg : ZrpConfig) (now : Z) (retries : list (Address * Z * Z)) (failures : list (Address * list Packet))
    (t : Address) (before after : option Discovery) : Prop :=
  match before with
  | None => after = None
  | Some d =>
      if decide (due now d) then
        if decide (exhausted cfg d) then after = None /\ (t, d_queued d) ∈ failures
        else exists d', after = Some d' /\ d_attempt d' = d_attempt d + 1 /\ d_queued d' = d_queued d /\
               d_target d' = d_target d /\ (t, d_req_id d', discovery_ttl d') ∈ retries
      else after = Some d
  end.

Lemma decided_ok cfg now retries failures t before after d' :
  decided cfg now retries failures t before after ->
  (forall d, before = Some d -> discovery_ok cfg t d) -> after = Some d' -> discovery_ok cfg t d'.
Proof.
  unfold decided. destruct before as [d|]; [|naive_solver]. intros H Hok Ha. destruct (Hok d eq_refl) as (? & ? & ?).
  case_decide; [case_decide as He|].
  - naive_solver.
  - destruct H as (d1 & E & Hat & Hq & Ht & _). rewrite Ha in E. injection E as <-.
    unfold discovery_ok, exhausted in *. rewrite Hat, Hq, Ht. repeat split; try done; lia.
  - naive_solver.
Qed.

Section Tick.
Context {G : Type} (new_req_id : G -> Z * G).

Lemma tick_run now (g : G) s :
  ierp_ok s ->
  exists s' retries failures g', tick new_req_id now g s = (s', Ok (retries, failures), g') /\
    ie_cfg s' = ie_cfg s /\ ie_seen_requests s' = ie_seen_requests s /\
    SmallMapFacts.wf (ie_pending s') /\ SmallMapFacts.wf (ie_last_finished s') /\
    SmallMap.len (ie_pending s') <= SmallMap.len (ie_pending s) /\
    forall t, decided (ie_cfg s) now retries failures t (SmallMap.get (ie_pending s) t) (SmallMap.get (ie_pending s') t).
Proof.
  intros (Hcfg & Hwp & Hws & Hwl & Hlen & Hdisc & Hreq). unfold tick.
  pose proof (discovery_loop_spec new_req_id (ie_cfg s) now Hcfg (ie_pending s) g Hdisc) as Hloop.
  destruct (tick_loop _ _ _ _ _) as [[[m retries] done] g']. destruct Hloop as [Hall Hdone].
  destruct (get_Forall2 (retried (ie_cfg s) now retries) _ _ Hwp (fun x y h => proj1 h) Hall) as (Hwm & Hlm & Hsome & Hnone).
  assert (Hd : forall t, t ∈ done <-> exists d, SmallMap.get (ie_pending s) t = Some d /\ due now d /\ exhausted (ie_cfg s) d).
  { intros t. rewrite Hdone, done_list_spec. setoid_rewrite (SmallMapFacts.get_Some (ie_pending s)); [|done]. done. }
  destruct (fail_loop_spec now done (set_pending m s)) as (s' & failures & -> & Hc & Hs & Hwf' & Hwl' & Hlen' & Hget & Hf).
  { done. } { done. }
  { rewrite Hdone. by apply done_list_NoDup, SmallMapFacts.wf_keys_NoDup. }
  { intros t (d & Hg & _)%Hd. destruct (Hsome t d Hg) as (d' & Hd' & _). by exists d'. }
  exists s', retries, failures, g'. split; [done|]. simpl in Hlen'. repeat (split; [done || lia|]).
  intros t. unfold decided. rewrite Hget. destruct (SmallMap.get (ie_pending s) t) as [d|] eqn:Eg.
  2:{ simpl. rewrite (Hnone t Eg). by case_decide. }
  destruct (Hsome t d Eg) as (d' & Hd' & _ & Hadv & Hr). simpl in Hadv, Hr. unfold advanced in Hadv.
  assert (Hdt : t ∈ done <-> due now d /\ exhausted (ie_cfg s) d).
  { rewrite Hd. split; [|eauto]. intros (d2 & Hg2 & Hx). rewrite Eg in Hg2. by injection Hg2 as <-. }
  destruct (decide (due now d)) as [Hdue|Hdue]; [destruct (decide (exhausted (ie_cfg s) d)) as [He|He]|].
  - rewrite decide_True by tauto. split; [done|]. destruct Hadv as (_ & <- & _). apply Hf; [tauto|done].
  - rewrite decide_False by tauto. exists d'. naive_solver.
  - rewrite decide_False by tauto. by subst.
Qed.

Lemma tick_ierp_ok now (g : G) s : ierp_ok s -> ierp_ok (tick new_req_id now g s).1.1.
Proof.
  intros Hok. destruct (tick_run now g s Hok) as (s' & retries & failures & g' & -> & Hc & Hs & Hwf & Hwl & Hlen & Hd).
  destruct Hok as (Hcfg & Hwp & Hws & _ & Hlen0 & Hdisc & Hreq). simpl. unfold ierp_ok. rewrite Hc, Hs.
  repeat (split; [done || lia|]). split; [|done].
  apply Forall_forall. intros [t d'] Hin. apply SmallMapFacts.get_Some in Hin; [|done].
  eapply decided_ok; [apply Hd| |exact Hin]. intros d Hg. rewrite Forall_forall in Hdisc.
  apply (Hdisc (t, d)). by apply SmallMapFacts.get_Some.
Qed.

(** A discovery timer tick decides every pending discovery: one that is not
    due is untouched; one that is due and has rings left is retried with the
    next request id and ring TTL, keeping its queued packets; one whose last
    ring timed out is removed and its queued packets are handed back.  No other
    target changes, and nothing panics. *)
Theorem discovery_tick_exact (now : Z) (g : G) (s : Ierp) :
  ierp_ok s ->
  exists s' retries failures g', tick new_req_id now g s = (s', Ok (retries, failures), g') /\ ierp_ok s' /\
    forall t, decided (ie_cfg s) now retries failures t (SmallMap.get (ie_pending s) t) (SmallMap.get (ie_pending s') t).
Proof.
  intros Hok. pose proof (tick_ierp_ok now g s Hok) as Hok'.
  destruct (tick_run now g s Hok) as (s' & retries & failures & g' & E & _ & _ & _ & _ & _ & Hd).
  rewrite E in Hok'. exists s', retries, failures, g'. done.
Qed.

(** ** Termination *)

Fixpoint ticks (nows : list Z) (g : G) (s : Ierp) : Ierp * G :=
  match nows with
  | [] => (s, g)
  | now :: nows' => let '(s', _, g') := tick new_req_id now g s in ticks nows' g' s'
  end.

(** Every tick finds all discoveries timed out. *)
Fixpoint due_run (nows : list Z) (g : G) (s : Ierp) : bool :=
  match nows with
  | [] => true
  | now :: nows' =>
      bool_decide (Forall (fun kv : Address * Discovery => due now kv.2) (ie_pending s)) &&
      let '(s', _, g') := tick new_req_id now g s in due_run nows' g' s'
  end.

Lemma ticks_attempts nows (g : G) s k :
  ierp_ok s -> due_run nows g s = true -> (forall t d, SmallMap.get (ie_pending s) t = Some d -> k <= d_attempt d) ->
  ierp_ok (ticks nows g s).1 /\ ie_cfg (ticks nows g s).1 = ie_cfg s /\
  forall t d, SmallMap.get (ie_pending (ticks nows g s).1) t = Some d -> k + zlen nows <= d_attempt d.
Proof.
  revert g s k. induction nows as [|now nows IH]; intros g s k Hok Hdue Hk; simpl in *.
  { split; [done|]. split; [done|]. intros t d Hg. rewrite zlen_nil. specialize (Hk t d Hg). lia. }
  apply andb_true_iff in Hdue as [Hall%bool_decide_eq_true Hrest].
  pose proof (tick_ierp_ok now g s Hok) as Hok'.
  destruct (tick_run now g s Hok) as (s' & retries & failures & g' & E & Hc & _ & _ & _ & _ & Hd).
  rewrite E in *. simpl in Hok'. destruct (IH g' s' (k + 1) Hok' Hrest) as (H1 & H2 & H3).
  { intros t d' Hg'. specialize (Hd t). unfold decided in Hd. rewrite Hg' in Hd.
    destruct (SmallMap.get (ie_pending s) t) as [d|] eqn:Eg; [|done].
    assert (Hdue : due now d).
    { rewrite Forall_forall in Hall. apply (Hall (t, d)). apply SmallMapFacts.get_Some; [apply Hok|done]. }
    rewrite decide_True in Hd by done. case_decide; [naive_solver|].
    destruct Hd as (d1 & [= <-] & Hat & _). specialize (Hk t d Eg). lia. }
  split; [done|]. split; [congruence|]. intros t d Hg. rewrite zlen_cons. specialize (H3 t d Hg). lia.
Qed.

(** The expanding-ring search terminates: when the timer of every pending
    discovery has run out [discovery_attempts] times (at least once), no
    discovery is pending any more. *)
Theorem discovery_terminates (nows : list Z) (g : G) (s : Ierp) :
  ierp_ok s -> due_run nows g s = true -> Z.max 1 (discovery_attempts (ie_cfg s)) <= zlen nows ->
  ie_pending (ticks nows g s).1 = SmallMap.empty.
Proof.
  intros Hok Hdue Hlen. destruct (ticks_attempts nows g s 0 Hok Hdue) as (Hok' & Hc & Ha).
  { intros t d Hg. destruct Hok as (_ & Hwf & _ & _ & _ & Hd & _). rewrite Forall_forall in Hd.
    apply SmallMapFacts.get_Some in Hg; [|done]. destruct (Hd _ Hg) as (_ & ? & _). simpl in *. lia. }
  destruct (ie_pending (ticks nows g s).1) as [|[t d] m] eqn:E; [done|]. exfalso.
  destruct Hok' as (_ & Hwf & _ & _ & _ & Hd & _). rewrite Forall_forall in Hd.
  assert (Hin : (t, d) ∈ ie_pending (ticks nows g s).1) by (rewrite E; set_solver).
  specialize (Hd _ Hin). destruct Hd as (_ & Hd & _). simpl in Hd. apply SmallMapFacts.get_Some in Hin; [|done].
  specialize (Ha t d). rewrite <- E in Ha. specialize (Ha Hin). rewrite Hc in Hd. lia.
Qed.
End Tick.

(** ** Request relaying *)

(** The copies of requests heard by a relay: origin, id, cost, time. *)
Definition Heard : Type := (Address * Z * Z * Z)%type.

Fixpoint observe_requests (l : list Heard) (s : Ierp) : Ierp * list bool :=
  match l with
  | [] => (s, [])
  | (o, r, c, now) :: l' =>
      let '(s1, b) := observe_request o r c now s in
      let '(s2, bs) := observe_requests l' s1 in (s2, b :: bs)
  end.

(** How many copies of one request were relayed. *)
Fixpoint relayed (key : Address * Z) (l : list Heard) (bs : list bool) : Z :=
  match l, bs with
  | (o, r, _, _) :: l', b :: bs' =>
      (if decide ((o, r) = key) then (if b then 1 else 0) else 0) + relayed key l' bs'
  | _, _ => 0
  end.

(** The cache entry of a request, whatever else is heard, for a minute. *)
Definition fresh_entry (key : Address * Z) (t0 : Z) (n : Z) (s : Ierp) : Prop :=
  exists q, SmallMap.get (ie_seen_requests s) key = Some q /\ sq_first_seen q = t0 /\ sq_relays q = n /\ n <= 2.

Lemma get_prune_seen now s key q :
  SmallMapFacts.wf (ie_seen_requests s) -> SmallMap.get (ie_seen_requests s) key = Some q -> sat_sub now 60000 < sq_first_seen q ->
  SmallMapFacts.wf (prune_seen now s) /\ SmallMap.get (prune_seen now s) key = Some q.
Proof.
  intros Hwf Hg Hq. unfold prune_seen. case_decide; [|done]. split; [by apply SmallMapFacts.retain_wf|].
  rewrite SmallMapFacts.get_retain, Hg by done. by rewrite bool_decide_true by lia.
Qed.

Lemma prune_seen_wf now s : SmallMapFacts.wf (ie_seen_requests s) -> SmallMapFacts.wf (prune_seen now s).
Proof. intros Hwf. unfold prune_seen. case_decide; [by apply SmallMapFacts.retain_wf|done]. Qed.

(** One observation: the entry persists and counts its own relays. *)
Lemma observe_keeps key t0 n o r c now s :
  SmallMapFacts.wf (ie_seen_requests s) -> fresh_entry key t0 n s -> 0 <= n -> sat_sub now 60000 < t0 ->
  let '(s', b) := observe_request o r c now s in
  SmallMapFacts.wf (ie_seen_requests s') /\
  fresh_entry key t0 (n + (if decide ((o, r) = key) then if b then 1 else 0 else 0)) s'.
Proof.
  intros Hwf (q & Hg & Ht & Hn & H2) H0 Hnow. subst t0 n.
  destruct (get_prune_seen now s key q Hwf Hg Hnow) as [Hwp Hgp]. unfold observe_request, fresh_entry.
  destruct (SmallMap.get (prune_seen now s) (o, r)) as [q'|] eqn:Eo.
  - assert (Heq : (o, r) = key -> q' = q) by (intros E; congruence).
    destruct (bool_decide _ && bool_decide (sq_relays q' < 2)) eqn:Eb; simpl.
    + split; [by apply SmallMapFacts.update_wf|]. rewrite SmallMapFacts.get_update by done. rewrite Hgp.
      apply andb_true_iff in Eb as [_ Hlt%bool_decide_eq_true].
      destruct (kcmp (o, r) key) eqn:Ek.
      * apply kcmp_eq in Ek. rewrite decide_True by done. rewrite (Heq Ek) in Hlt. simpl. eexists. split; [done|]. simpl.
        rewrite u8_small by lia. repeat split; lia.
      * rewrite decide_False by (intros E; apply (proj2 (kcmp_eq _ _)) in E; congruence).
        exists q. rewrite Z.add_0_r. done.
      * rewrite decide_False by (intros E; apply (proj2 (kcmp_eq _ _)) in E; congruence).
        exists q. rewrite Z.add_0_r. done.
    + split; [by apply SmallMapFacts.update_wf|]. rewrite SmallMapFacts.get_update by done. rewrite Hgp.
      assert (Hz : sq_relays q + (if decide ((o, r) = key) then 0 else 0) = sq_relays q)
        by (destruct (decide ((o, r) = key)); lia).
      rewrite Hz.
      destruct (kcmp (o, r) key); simpl; [|by exists q|by exists q]. eexists. split; [done|].
      by destruct (decide (c < sq_best_cost q)).
  - assert (Hne : (o, r) <> key) by (intros E; rewrite E in Eo; congruence).
    rewrite decide_False, Z.add_0_r by done. simpl.
    split; [by apply SmallMapFacts.insert_wf|]. exists q. rewrite SmallMapFacts.get_insert by done.
    destruct (kcmp (o, r) key) eqn:Ek; [by apply kcmp_eq in Ek|done|done].
Qed.

Lemma observe_requests_count key t0 n l s :
  SmallMapFacts.wf (ie_seen_requests s) -> fresh_entry key t0 n s -> 0 <= n ->
  Forall (fun '(_, _, _, now) => sat_sub now 60000 < t0) l ->
  n + relayed key l (observe_requests l s).2 <= 2.
Proof.
  intros Hwf Hf Hn Hl. revert s n Hwf Hf Hn. induction Hl as [|[[[o r] c] now] l Hnow Hl IH]; intros s n Hwf Hf Hn; simpl.
  { destruct Hf as (q & _ & _ & _ & ?). lia. }
  pose proof (observe_keeps key t0 n o r c now s Hwf Hf Hn Hnow) as H.
  destruct (observe_request o r c now s) as [s1 b]. destruct H as [Hw1 Hf1].
  specialize (IH s1 _ Hw1 Hf1). destruct (observe_requests l s1) as [s2 bs]. simpl in *.
  assert (0 <= (if decide ((o, r) = key) then if b then 1 else 0 else 0)) by (repeat case_match; lia). lia.
Qed.

(** A route request is relayed at most twice: after a node relays the first
    copy it hears, all further copies it hears for a minute, at whatever cost
    and mixed with any other requests, are relayed at most once more. *)
Theorem request_relayed_at_most_twice (origin : Address) (req_id cost now : Z) (l : list Heard) (s : Ierp) :
  ierp_ok s -> seen_request origin req_id s = None ->
  Forall (fun '(_, _, _, t) => sat_sub t 60000 < now) l ->
  let s1 := (observe_request origin req_id cost now s).1 in
  (observe_request origin req_id cost now s).2 = true /\
  relayed (origin, req_id) l (observe_requests l s1).2 <= 1.
Proof.
  intros (_ & _ & Hwf & _) Hnone Hl s1. unfold seen_request in Hnone.
  pose proof (prune_seen_wf now s Hwf) as Hwp.
  assert (Hg : SmallMap.get (prune_seen now s) (origin, req_id) = None).
  { unfold prune_seen. case_decide; [|done]. by rewrite SmallMapFacts.get_retain, Hnone. }
  assert (E : observe_request origin req_id cost now s =
    (set_seen (SmallMap.insert (prune_seen now s) (origin, req_id) (mkSeenRequest cost 1 now false)).1 s, true)).
  { unfold observe_request. by rewrite Hg. }
  subst s1. rewrite E. split; [done|]. cbn [fst].
  pose proof (observe_requests_count (origin, req_id) now 1 l
    (set_seen (SmallMap.insert (prune_seen now s) (origin, req_id) (mkSeenRequest cost 1 now false)).1 s)) as H.
  enough (1 + relayed (origin, req_id) l (observe_requests l (set_seen (SmallMap.insert (prune_seen now s) (origin, req_id)
    (mkSeenRequest cost 1 now false)).1 s)).2 <= 2) by lia.
  apply H; [by apply SmallMapFacts.insert_wf| |lia|done].
  eexists. simpl. rewrite SmallMapFacts.get_insert_eq by done. split; [done|]. done.
Qed.

(** Concrete states. *)
Definition ex_t (n : Z) : Address := mkAddress [0; 0; 0; 0; 0; 0; 0; n].
Definition ex_next (g : Z) : Z * Z := (g, g + 1).
Definition ex_ierp : Ierp := (start (ex_t 2) 101 0 (start (ex_t 1) 100 0 (new ZrpConfig_default)).1).1.

Lemma ex_ierp_ok : ierp_ok ex_ierp.
Proof.
  split; [vm_compute; split; discriminate|]. split.
  { unfold ex_ierp, start, count_discovery, set_pending. cbn [ie_pending fst].
    apply SmallMapFacts.insert_wf, SmallMapFacts.insert_wf, SmallMapFacts.empty_wf. }
  split; [apply SmallMapFacts.empty_wf|]. split; [apply SmallMapFacts.empty_wf|]. split; [vm_compute; discriminate|].
  split; [|constructor]. repeat constructor; vm_compute; (reflexivity || discriminate).
Qed.

Lemma discovery_tick_exact_witness :
  exists s' retries failures g', tick ex_next 20000 7 ex_ierp = (s', Ok (retries, failures), g') /\ ierp_ok s' /\
    forall t, decided ZrpConfig_default 20000 retries failures t (SmallMap.get (ie_pending ex_ierp) t) (SmallMap.get (ie_pending s') t).
Proof. exact (discovery_tick_exact ex_next 20000 7 ex_ierp ex_ierp_ok). Defined.

Lemma discovery_terminates_witness : ie_pending (ticks ex_next [20000; 60000; 200000] 7 ex_ierp).1 = SmallMap.empty.
Proof.
  apply (discovery_terminates ex_next [20000; 60000; 200000] 7 ex_ierp ex_ierp_ok); vm_compute; (reflexivity || discriminate).
Defined.

Lemma request_relayed_at_most_twice_witness :
  relayed (ex_t 1, 5) [(ex_t 1, 5, 200, 1100); (ex_t 2, 5, 10, 1200); (ex_t 1, 5, 20, 1300); (ex_t 1, 5, 1, 1400)]
    (observe_requests [(ex_t 1, 5, 200, 1100); (ex_t 2, 5, 10, 1200); (ex_t 1, 5, 20, 1300); (ex_t 1, 5, 1, 1400)]
       (observe_request (ex_t 1) 5 500 1000 ex_ierp).1).2 <= 1.
Proof.
  apply (request_relayed_at_most_twice (ex_t 1) 5 500 1000
    [(ex_t 1, 5, 200, 1100); (ex_t 2, 5, 10, 1200); (ex_t 1, 5, 20, 1300); (ex_t 1, 5, 1, 1400)] ex_ierp ex_ierp_ok).
  - reflexivity.
  - repeat constructor.
Defined.
End IerpFacts.
