(* ===== verification/Power.v ===== *)
(** * Energy management

    [crates/meshstar-core/src/power/mod.rs]: the regulatory airtime budget, the
    sleep schedule and the adaptive beacon interval. *)
From stdpp Require Import base tactics list numbers sets sorting.
From Stdlib Require Import Lia.
From S2P Require Import Prelude.

Inductive PowerMode :=
| AlwaysOn
| DutyCycle (listen_ms sleep_ms : Z)
| LeafMode (wake_interval_s awake_window_ms : Z).

Record PowerConfig := mkPowerConfig {
  pc_mode : PowerMode; max_airtime_permille : Z; airtime_window_ms : Z;
  max_beacon_slowdown : Z; activity_extension_ms : Z
}.
Definition PowerConfig_default : PowerConfig := mkPowerConfig AlwaysOn 10 3600000 4 6000.

Record PowerStats := mkPowerStats { tx_airtime_ms : Z; ps_sleep_ms : Z; wakeups : Z; tx_deferred_duty : Z }.
Definition PowerStats_default : PowerStats := mkPowerStats 0 0 0 0.

Record PowerManager := mkPowerManager {
  pm_cfg : PowerConfig;
  pm_tx_log : list (Z * Z);
  pm_airtime_in_window : Z;
  pm_awake : bool;
  pm_awake_until : Z;
  pm_awake_since : Z;
  pm_next_wake : Z;
  pm_stable_intervals : Z;
  pm_stats : PowerStats
}.

Definition set_log (log : list (Z * Z)) (airtime : Z) (stats : PowerStats) (p : PowerManager) : PowerManager :=
  mkPowerManager (pm_cfg p) log airtime (pm_awake p) (pm_awake_until p) (pm_awake_since p) (pm_next_wake p)
    (pm_stable_intervals p) stats.
Definition set_sched (awake : bool) (until since wake : Z) (stats : PowerStats) (p : PowerManager) : PowerManager :=
  mkPowerManager (pm_cfg p) (pm_tx_log p) (pm_airtime_in_window p) awake until since wake (pm_stable_intervals p) stats.

Module PowerManager.
Definition new (cfg : PowerConfig) (now : Z) : PowerManager :=
  mkPowerManager cfg [] 0 true U64_MAX now now 0 PowerStats_default.

Fixpoint prune_loop (window now : Z) (log : list (Z * Z)) (airtime : Z) : list (Z * Z) * Z :=
  match log with
  | (t, a) :: log' =>
      if decide (sat_sub now t > window) then prune_loop window now log' (u64 (airtime - a)) else (log, airtime)
  | [] => ([], airtime)
  end.

Definition prune (now : Z) (p : PowerManager) : PowerManager :=
  let '(log, airtime) := prune_loop (airtime_window_ms (pm_cfg p)) now (pm_tx_log p) (pm_airtime_in_window p) in
  set_log log airtime (pm_stats p) p.

Definition budget (cfg : PowerConfig) : Z := u64 (airtime_window_ms cfg * max_airtime_permille cfg) / 1000.

Definition can_transmit (now airtime_ms : Z) (p : PowerManager) : PowerManager * bool :=
  let p := prune now p in
  let ok := bool_decide (u64 (pm_airtime_in_window p + airtime_ms) <= budget (pm_cfg p)) in
  let st := pm_stats p in
  (set_log (pm_tx_log p) (pm_airtime_in_window p)
     (if ok then st else mkPowerStats (tx_airtime_ms st) (ps_sleep_ms st) (wakeups st) (u32 (tx_deferred_duty st + 1))) p, ok).

Definition record_tx (now airtime_ms : Z) (p : PowerManager) : PowerManager :=
  let p := prune now p in
  let log := pm_tx_log p ++ [(now, airtime_ms)] in
  let airtime := u64 (pm_airtime_in_window p + airtime_ms) in
  let st := pm_stats p in
  let st := mkPowerStats (u64 (tx_airtime_ms st + airtime_ms)) (ps_sleep_ms st) (wakeups st) (tx_deferred_duty st) in
  if decide (zlen log > 4096) then
    match log with
    | (_, a) :: log' => set_log log' (u64 (airtime - a)) st p
    | [] => set_log log airtime st p
    end
  else set_log log airtime st p.

Definition airtime_permille (now : Z) (p : PowerManager) : PowerManager * Z :=
  let p := prune now p in
  (p, u16 (u64 (pm_airtime_in_window p * 1000) / Z.max (airtime_window_ms (pm_cfg p)) 1)).

Definition on_activity (now : Z) (p : PowerManager) : PowerManager :=
  if pm_awake p && negb (bool_decide (pm_awake_until p = U64_MAX)) then
    let extend window :=
      let cap := u64 (pm_awake_since p + u64 (5 * Z.max window 1)) in
      let until := Z.min (Z.max (pm_awake_until p) (u64 (now + activity_extension_ms (pm_cfg p))))
                     (Z.max cap (pm_awake_until p)) in
      set_sched (pm_awake p) until (pm_awake_since p) (pm_next_wake p) (pm_stats p) p in
    match pc_mode (pm_cfg p) with
    | LeafMode _ awake_window_ms => extend awake_window_ms
    | DutyCycle listen_ms _ => extend listen_ms
    | AlwaysOn => p
    end
  else p.

Definition step (now awake_len sleep_len : Z) (p : PowerManager) : PowerManager * option bool :=
  if pm_awake p then
    if decide (pm_awake_until p = U64_MAX) then
      (set_sched true (u64 (now + awake_len)) now (pm_next_wake p) (pm_stats p) p, None)
    else if decide (now >= pm_awake_until p) then
      (set_sched false (pm_awake_until p) (pm_awake_since p) (u64 (now + sleep_len)) (pm_stats p) p, Some false)
    else (p, None)
  else if decide (now >= pm_next_wake p) then
    let st := pm_stats p in
    (set_sched true (u64 (now + awake_len)) now (pm_next_wake p)
       (mkPowerStats (tx_airtime_ms st) (u64 (ps_sleep_ms st + sleep_len)) (u32 (wakeups st + 1)) (tx_deferred_duty st)) p, Some true)
  else (p, None).

Definition tick (now : Z) (p : PowerManager) : PowerManager * option bool :=
  match pc_mode (pm_cfg p) with
  | AlwaysOn =>
      if negb (pm_awake p) then
        (set_sched true U64_MAX (pm_awake_since p) (pm_next_wake p) (pm_stats p) p, Some true)
      else (p, None)
  | DutyCycle listen_ms sleep_ms => step now listen_ms sleep_ms p
  | LeafMode wake_interval_s awake_window_ms => step now awake_window_ms (u64 (wake_interval_s * 1000)) p
  end.

Definition delay_wake (ms : Z) (p : PowerManager) : PowerManager :=
  if negb (pm_awake p)
  then set_sched (pm_awake p) (pm_awake_until p) (pm_awake_since p) (sat_add 64 (pm_next_wake p) ms) (pm_stats p) p else p.

Definition wake_now (now window_ms : Z) (p : PowerManager) : PowerManager :=
  let st := pm_stats p in
  let st := if negb (pm_awake p)
            then mkPowerStats (tx_airtime_ms st) (ps_sleep_ms st) (u32 (wakeups st + 1)) (tx_deferred_duty st) else st in
  set_sched true (u64 (now + window_ms)) now (pm_next_wake p) st p.

Definition next_event (p : PowerManager) : Z := if pm_awake p then pm_awake_until p else pm_next_wake p.

Definition beacon_multiplier (changed : bool) (p : PowerManager) : PowerManager * Z :=
  let n := if changed then 0 else sat_add 8 (pm_stable_intervals p) 1 in
  let p := mkPowerManager (pm_cfg p) (pm_tx_log p) (pm_airtime_in_window p) (pm_awake p) (pm_awake_until p)
             (pm_awake_since p) (pm_next_wake p) n (pm_stats p) in
  (p, Z.min (u8 (1 + n / 4)) (Z.max (max_beacon_slowdown (pm_cfg p)) 1)).
End PowerManager.

(** ** The airtime budget *)

Module PowerFacts.
Import PowerManager.

Definition airtime (l : list (Z * Z)) : Z := zsum (l.*2).
(** Transmissions that still count at time [now]. *)
Definition in_window (window now : Z) (l : list (Z * Z)) : list (Z * Z) :=
  retain (fun ta => bool_decide (now - ta.1 <= window)) l.

(** The transmission path: ask, then record. *)
Definition transmit (now a : Z) (p : PowerManager) : PowerManager * bool :=
  let '(p, ok) := can_transmit now a p in
  if ok then (record_tx now a p, true) else (p, false).

(** Requests served in time order, with the transmissions made. *)
Fixpoint transmits (reqs : list (Z * Z)) (p : PowerManager) : PowerManager * list (Z * Z) :=
  match reqs with
  | [] => (p, [])
  | (now, a) :: reqs' =>
      let '(p1, ok) := transmit now a p in
      let '(p2, sent) := transmits reqs' p1 in (p2, if ok then (now, a) :: sent else sent)
  end.

(** The log holds the transmissions so far that can still count at [now]. *)
Definition log_ok (amin now : Z) (sent : list (Z * Z)) (p : PowerManager) : Prop :=
  let w := airtime_window_ms (pm_cfg p) in
  StronglySorted (fun x y => x.1 <= y.1) sent /\ Forall (fun ta => 0 <= ta.1 <= now /\ amin <= ta.2) sent /\
  (exists old, sent = old ++ pm_tx_log p /\ Forall (fun ta => w < now - ta.1) old) /\
  pm_airtime_in_window p = airtime (pm_tx_log p) /\ airtime (pm_tx_log p) <= budget (pm_cfg p).

Section Budget.
Context (cfg : PowerConfig) (amin : Z).
Hypothesis (Hw : 0 <= airtime_window_ms cfg < 2 ^ 40) (Hp : 0 <= max_airtime_permille cfg < 2 ^ 16).
Hypothesis (Hamin : 1 <= amin) (Hfit : budget cfg <= 4096 * amin).

Lemma budget_small : 0 <= budget cfg < 2 ^ 56.
Proof.
  unfold budget. change (2 ^ 40) with 1099511627776 in Hw. change (2 ^ 16) with 65536 in Hp.
  assert (0 <= airtime_window_ms cfg * max_airtime_permille cfg < 1099511627776 * 65536) by nia.
  rewrite u64_small by (change (2 ^ 64) with 18446744073709551616; lia).
  split; [apply Z.div_pos; lia|]. apply Z.div_lt_upper_bound; [lia|]. change (2 ^ 56) with 72057594037927936. lia.
Qed.

Lemma airtime_app l k : airtime (l ++ k) = airtime l + airtime k.
Proof. unfold airtime. by rewrite fmap_app, zsum_app. Qed.

Lemma airtime_bound l : Forall (fun ta => amin <= ta.2) l -> amin * zlen l <= airtime l.
Proof.
  induction 1 as [|[t a] l Ha _ IH]; [rewrite zlen_nil; unfold airtime; simpl; lia|].
  rewrite zlen_cons. change (airtime ((t, a) :: l)) with (a + airtime l). simpl in Ha. lia.
Qed.

Lemma sorted_suffix {A} (R : A -> A -> Prop) l k : StronglySorted R (l ++ k) -> StronglySorted R k.
Proof. induction l as [|x l IH]; [done|]. inversion 1; auto. Qed.

(** Pruning drops exactly what fell out of the window. *)
Lemma prune_loop_spec now l :
  StronglySorted (fun x y : Z * Z => x.1 <= y.1) l -> Forall (fun ta => ta.1 <= now /\ amin <= ta.2) l -> airtime l < 2 ^ 64 ->
  exists old l', prune_loop (airtime_window_ms cfg) now l (airtime l) = (l', airtime l') /\ l = old ++ l' /\
    Forall (fun ta => airtime_window_ms cfg < now - ta.1) old /\
    Forall (fun ta => now - ta.1 <= airtime_window_ms cfg) l'.
Proof.
  intros Hs Hf. induction Hs as [|[t a] l Hs IH Hhd]; intros Hsmall; [by exists [], []|].
  inversion_clear Hf as [|? ? [Ht Ha] Hf']. simpl in *. unfold sat_sub. rewrite Z.max_r by lia.
  assert (Hbound : amin * zlen l <= airtime l).
  { apply airtime_bound. eapply Forall_impl; [exact Hf'|]. simpl. tauto. }
  pose proof (zlen_nonneg l). change (airtime ((t, a) :: l)) with (a + airtime l) in *. case_decide as Hold.
  - replace (a + airtime l - a) with (airtime l) by lia. rewrite u64_small by nia.
    destruct (IH Hf') as (old & l' & E & -> & Ho & Hin); [lia|].
    exists ((t, a) :: old), l'. split; [done|]. split; [done|]. split; [|done]. constructor; [simpl; lia|done].
  - exists [], ((t, a) :: l). split; [done|]. split; [done|]. split; [constructor|]. constructor; [simpl; lia|].
    eapply Forall_impl; [exact Hhd|]. simpl. intros [t' a'] Hle. simpl in *. lia.
Qed.

Lemma log_prune_ok now now' sent p :
  pm_cfg p = cfg -> log_ok amin now sent p -> now <= now' ->
  log_ok amin now' sent (prune now' p) /\ pm_cfg (prune now' p) = cfg /\
  Forall (fun ta => now' - ta.1 <= airtime_window_ms cfg) (pm_tx_log (prune now' p)).
Proof.
  intros Hc (Hs & Hf & (old & Ho & Hold) & Ha & Hb) Hle. rewrite Hc in *.
  assert (Hsl : StronglySorted (fun x y : Z * Z => x.1 <= y.1) (pm_tx_log p)).
  { rewrite Ho in Hs. by apply sorted_suffix in Hs. }
  assert (Hfl : Forall (fun ta => 0 <= ta.1 <= now /\ amin <= ta.2) (pm_tx_log p)) 
    by (rewrite Ho in Hf; by apply Forall_app in Hf as [_ ?]).
  destruct (prune_loop_spec now' (pm_tx_log p) Hsl) as (old' & l' & E & El & Hold' & Hin).
  { eapply Forall_impl; [exact Hfl|]. simpl. intros ta (? & ?). lia. }
  { pose proof budget_small as Hbs. change (2 ^ 56) with 72057594037927936 in Hbs. change (2 ^ 64) with 18446744073709551616. lia. }
  unfold prune. rewrite Hc, Ha, E. simpl. split; [|done].
  split; [done|]. split; [eapply Forall_impl; [exact Hf|]; simpl; intros; lia|]. simpl. rewrite Hc. split; [|split; [done|]].
  - exists (old ++ old'). split; [by rewrite Ho, El, app_assoc|]. apply Forall_app. split; [|done].
    eapply Forall_impl; [exact Hold|]. simpl. intros. lia.
  - assert (0 <= airtime old').
    { pose proof (airtime_bound old'). pose proof (zlen_nonneg old').
      assert (Forall (fun ta => amin <= ta.2) old') as Hx%airtime_bound.
      { rewrite El in Hfl. apply Forall_app in Hfl as [Hx _]. eapply Forall_impl; [exact Hx|]. simpl. tauto. }
      nia. }
    rewrite El, airtime_app in Hb. lia.
Qed.

(** Pruning twice at the same time is pruning once. *)
Lemma prune_idle now p :
  Forall (fun ta => now - ta.1 <= airtime_window_ms (pm_cfg p)) (pm_tx_log p) -> 0 <= airtime_window_ms (pm_cfg p) ->
  prune_loop (airtime_window_ms (pm_cfg p)) now (pm_tx_log p) (pm_airtime_in_window p) = (pm_tx_log p, pm_airtime_in_window p).
Proof.
  intros Hl H0. destruct (pm_tx_log p) as [|[t a] l]; [done|]. inversion_clear Hl as [|? ? Ht _]. simpl in *.
  unfold sat_sub. by rewrite decide_False by lia.
Qed.

Lemma sorted_snoc (l : list (Z * Z)) x :
  StronglySorted (fun x y => x.1 <= y.1) l -> Forall (fun y => y.1 <= x.1) l -> StronglySorted (fun x y => x.1 <= y.1) (l ++ [x]).
Proof.
  induction 1 as [|y l Hs IH Hy]; intros Hf; simpl; [repeat constructor|]. inversion_clear Hf as [|? ? Hyx Hf'].
  constructor; [auto|]. apply Forall_app. split; [done|]. by repeat constructor.
Qed.

Lemma transmit_ok now now' a sent p :
  pm_cfg p = cfg -> log_ok amin now sent p -> 0 <= now <= now' -> amin <= a < 2 ^ 32 ->
  let '(p', ok) := transmit now' a p in
  pm_cfg p' = cfg /\ log_ok amin now' (if ok then sent ++ [(now', a)] else sent) p'.
Proof.
  intros Hc Hlog Hle Ha. destruct (log_prune_ok now now' sent p Hc Hlog ltac:(lia)) as (Hlog' & Hc' & Hin).
  unfold transmit, can_transmit. set (q := prune now' p) in *. clearbody q.
  destruct Hlog' as (Hs & Hf & (old & Ho & Hold) & Hair & Hb). rewrite Hc' in *.
  pose proof budget_small as Hbs. change (2 ^ 56) with 72057594037927936 in Hbs. change (2 ^ 32) with 4294967296 in Ha.
  assert (Hall : Forall (fun ta => amin <= ta.2) (pm_tx_log q)).
  { rewrite Ho in Hf. apply Forall_app in Hf as [_ Hf]. eapply Forall_impl; [exact Hf|]. simpl. tauto. }
  pose proof (airtime_bound _ Hall) as Hab. pose proof (zlen_nonneg (pm_tx_log q)).
  rewrite u64_small by (change (2 ^ 64) with 18446744073709551616; nia).
  case_bool_decide as Hok.
  2:{ simpl. split; [done|]. unfold log_ok. simpl. rewrite Hc'. eauto 10. }
  unfold record_tx, prune. cbn [pm_cfg pm_tx_log pm_airtime_in_window pm_stats set_log].
  rewrite prune_idle by (rewrite ?Hc'; done || lia). cbn [pm_cfg pm_tx_log pm_airtime_in_window pm_stats set_log].
  rewrite u64_small by (change (2 ^ 64) with 18446744073709551616; nia).
  rewrite decide_False.
  2:{ rewrite zlen_app, zlen_cons, zlen_nil. nia. }
  simpl. split; [done|]. unfold log_ok. simpl. rewrite Hc'.
  split; [|split; [|split; [|split]]].
  - apply sorted_snoc; [done|]. eapply Forall_impl; [exact Hf|]. simpl. lia.
  - apply Forall_app. split; [done|]. repeat constructor; simpl; lia.
  - exists old. split; [by rewrite Ho, app_assoc|done].
  - rewrite airtime_app, Hair. unfold airtime at 3. simpl. lia.
  - rewrite airtime_app. unfold airtime at 2. simpl. lia.
Qed.

Lemma transmits_ok reqs now sent p :
  pm_cfg p = cfg -> log_ok amin now sent p -> 0 <= now ->
  StronglySorted (fun x y => x.1 <= y.1) ((now, 0) :: reqs) -> Forall (fun ta => amin <= ta.2 < 2 ^ 32) reqs ->
  exists last, log_ok amin last (sent ++ (transmits reqs p).2) (transmits reqs p).1 /\
    pm_cfg (transmits reqs p).1 = cfg /\ (last = now \/ exists a, (last, a) ∈ reqs).
Proof.
  revert now sent p. induction reqs as [|[t a] reqs IH]; intros now sent p Hc Hlog H0 Hs Hf; simpl.
  { exists now. rewrite app_nil_r. auto. }
  inversion_clear Hs as [|? ? Hs' Hhd]. inversion_clear Hhd as [|? ? Ht Hhd']. inversion_clear Hf as [|? ? Ha Hf'].
  simpl in Ht, Ha. pose proof (transmit_ok now t a sent p Hc Hlog ltac:(lia) Ha) as H1.
  destruct (transmit t a p) as [p1 ok]. destruct H1 as [Hc1 Hlog1].
  destruct (IH t _ p1 Hc1 Hlog1 ltac:(lia)) as (last & H2 & H3 & H4); [|done|].
  { inversion_clear Hs' as [|? ? Hs2 Hh2]. by constructor. }
  destruct (transmits reqs p1) as [p2 sent2]. simpl in *. exists last. split; [|split; [done|]].
  - destruct ok; [by rewrite <- app_assoc in H2|done].
  - right. destruct H4 as [->|[a' H4]]; [exists a; set_solver|exists a'; set_solver].
Qed.
End Budget.

Lemma airtime_sublist l k : sublist l k -> Forall (fun ta => 0 <= ta.2) k -> airtime l <= airtime k.
Proof.
  induction 1 as [|[t a] l k Hs IH|[t a] l k Hs IH]; intros Hf; [done| |];
    inversion_clear Hf as [|? ? Ha Hf']; specialize (IH Hf'); simpl in Ha;
    change (airtime ((t, a) :: k)) with (a + airtime k); [|lia].
  change (airtime ((t, a) :: l)) with (a + airtime l). lia.
Qed.

(** C38. The regulatory duty cycle is respected: if every transmission asks
    [can_transmit] first, the airtime used in any window of the configured
    length never exceeds the configured share of it, for requests in time order
    whose airtime is at least a 4096th of the budget (so that the log of
    transmissions does not have to drop entries that still count). *)
Theorem duty_cycle_respected (cfg : PowerConfig) (amin start now : Z) (reqs : list (Z * Z)) :
  0 <= airtime_window_ms cfg < 2 ^ 40 -> 0 <= max_airtime_permille cfg < 2 ^ 16 ->
  1 <= amin -> budget cfg <= 4096 * amin -> 0 <= start ->
  StronglySorted (fun x y => x.1 <= y.1) ((start, 0) :: reqs) ->
  Forall (fun ta => amin <= ta.2 < 2 ^ 32 /\ ta.1 <= now) reqs -> start <= now ->
  airtime (in_window (airtime_window_ms cfg) now (transmits reqs (new cfg start)).2) <= budget cfg.
Proof.
  intros Hw Hp Hamin Hfit H0 Hs Hf Hnow.
  assert (Hinit : log_ok amin start [] (new cfg start)).
  { pose proof (budget_small cfg Hw Hp). split; [constructor|]. split; [constructor|]. split; [by exists []|]. split; [done|].
    unfold airtime. simpl. lia. }
  destruct (transmits_ok cfg amin Hw Hp Hamin Hfit reqs start [] (new cfg start)) as (last & Hlog & Hc & Hlast); try done.
  { eapply Forall_impl; [exact Hf|]. simpl. tauto. }
  simpl in Hlog. destruct (transmits reqs (new cfg start)) as [p sent]. simpl in *.
  assert (Hln : last <= now).
  { destruct Hlast as [->|[a Hin]]; [done|]. rewrite Forall_forall in Hf. apply (Hf _ Hin). }
  destruct Hlog as (_ & Hfs & (old & Ho & Hold) & _ & Hb). rewrite Hc in *. rewrite Ho. unfold in_window. rewrite retain_app.
  assert (Hnil : retain (fun ta => bool_decide (now - ta.1 <= airtime_window_ms cfg)) old = []).
  { clear -Hold Hln. induction Hold as [|[t a] l Ht _ IH]; [done|]. rewrite retain_cons, bool_decide_false; [done|]. simpl in *. lia. }
  rewrite Hnil. simpl. etransitivity; [|exact Hb]. apply airtime_sublist; [apply retain_sublist|].
  rewrite Ho in Hfs. apply Forall_app in Hfs as [_ Hfs]. eapply Forall_impl; [exact Hfs|]. simpl. lia.
Qed.

(** ** The log of transmissions *)

(** The log is bounded, whatever is sent. *)
Definition log_bounded (p : PowerManager) : Prop := zlen (pm_tx_log p) <= 4096.
Lemma prune_loop_le window now l a : zlen (prune_loop window now l a).1 <= zlen l.
Proof.
  revert a. induction l as [|[t x] l IH]; intros a; simpl; [done|]. case_decide; [|done]. specialize (IH (u64 (a - x))). rewrite zlen_cons. lia.
Qed.
Lemma prune_log now p : zlen (pm_tx_log (prune now p)) <= zlen (pm_tx_log p).
Proof.
  unfold prune. pose proof (prune_loop_le (airtime_window_ms (pm_cfg p)) now (pm_tx_log p) (pm_airtime_in_window p)) as Hl.
  by destruct (prune_loop _ _ _ _).
Qed.
Lemma can_transmit_log now a p : log_bounded p -> log_bounded (can_transmit now a p).1.
Proof. intros Hp. unfold log_bounded in *. pose proof (prune_log now p). simpl. lia. Qed.
Lemma record_tx_log now a p : log_bounded p -> log_bounded (record_tx now a p).
Proof.
  intros Hp. unfold log_bounded, record_tx in *. pose proof (prune_log now p). set (q := prune now p) in *. clearbody q.
  case_decide as Hl; [|simpl; lia]. destruct (pm_tx_log q) as [|[t x] l]; simpl; [rewrite zlen_nil; lia|].
  rewrite zlen_app, !zlen_cons, zlen_nil in *. lia.
Qed.
Lemma on_activity_log now p : pm_tx_log (on_activity now p) = pm_tx_log p.
Proof. unfold on_activity. destruct (_ && _); [|done]. by destruct (pc_mode (pm_cfg p)). Qed.
Lemma tick_log now p : pm_tx_log (tick now p).1 = pm_tx_log p.
Proof.
  unfold tick, step. destruct (pc_mode (pm_cfg p)); destruct (pm_awake p); simpl; try done; by repeat case_decide.
Qed.
Lemma delay_wake_log ms p : pm_tx_log (delay_wake ms p) = pm_tx_log p.
Proof. unfold delay_wake. by destruct (negb _). Qed.

(** ** The sleep schedule *)

(** The awake window of the modes that sleep. *)
Definition window_of (m : PowerMode) : option Z :=
  match m with AlwaysOn => None | DutyCycle l _ => Some l | LeafMode _ w => Some w end.

(** Awake since [t0], until at most five windows later. *)
Definition awake_within (t0 w : Z) (p : PowerManager) : Prop :=
  window_of (pc_mode (pm_cfg p)) = Some w /\ pm_awake p = true /\ pm_awake_since p = t0 /\
  0 <= pm_awake_until p <= t0 + 5 * Z.max w 1.

Lemma on_activity_within t0 w t p :
  0 <= t0 < 2 ^ 63 -> 0 <= w < 2 ^ 32 -> 0 <= t < 2 ^ 63 -> 0 <= activity_extension_ms (pm_cfg p) < 2 ^ 32 ->
  awake_within t0 w p -> awake_within t0 w (on_activity t p) /\ pm_cfg (on_activity t p) = pm_cfg p.
Proof.
  intros Ht0 Hw Ht He (Hm & Ha & Hs & Hu). unfold on_activity. rewrite Ha. cbn [andb].
  change (2 ^ 63) with 9223372036854775808 in *. change (2 ^ 32) with 4294967296 in *.
  rewrite bool_decide_false by (unfold U64_MAX; lia). cbn [negb].
  assert (Hext : forall x, x = w -> awake_within t0 w (set_sched (pm_awake p)
    (Z.min (Z.max (pm_awake_until p) (u64 (t + activity_extension_ms (pm_cfg p))))
      (Z.max (u64 (pm_awake_since p + u64 (5 * Z.max x 1))) (pm_awake_until p)))
    (pm_awake_since p) (pm_next_wake p) (pm_stats p) p)).
  { intros x ->. rewrite (u64_small (5 * _)) by (change (2 ^ 64) with 18446744073709551616; lia).
    rewrite (u64_small (pm_awake_since p + _)) by (change (2 ^ 64) with 18446744073709551616; lia).
    rewrite (u64_small (t + _)) by (change (2 ^ 64) with 18446744073709551616; lia).
    split; [done|]. rewrite Hs. simpl. split; [done|]. split; [done|]. lia. }
  rewrite Ha in Hext.
  destruct (pc_mode (pm_cfg p)) as [|l sl|wi aw]; simpl in Hm; [done|..]; injection Hm as ->; split; try done; by apply Hext.
Qed.

(** A sleeping node's waking periods are bounded: from the tick that wakes
    it, no amount of traffic keeps it awake longer than five awake windows, and
    the first tick after that puts it back to sleep. *)
Theorem awake_period_bounded (p p1 : PowerManager) (t0 w now : Z) (acts : list Z) :
  window_of (pc_mode (pm_cfg p)) = Some w -> 0 <= w < 2 ^ 32 -> 0 <= activity_extension_ms (pm_cfg p) < 2 ^ 32 ->
  0 <= t0 < 2 ^ 63 -> Forall (fun t => 0 <= t < 2 ^ 63) acts ->
  tick t0 p = (p1, Some true) -> t0 + 5 * Z.max w 1 <= now ->
  let p2 := foldl (fun p t => on_activity t p) p1 acts in
  pm_awake p2 = true /\ pm_awake_until p2 <= t0 + 5 * Z.max w 1 /\ (tick now p2).2 = Some false.
Proof.
  intros Hm Hw He Ht0 Hacts Htick Hnow p2.
  assert (H1 : awake_within t0 w p1 /\ pm_cfg p1 = pm_cfg p).
  { assert (Hstep : forall sl, step t0 w sl p = (p1, Some true) -> awake_within t0 w p1 /\ pm_cfg p1 = pm_cfg p).
    { intros sl. unfold step. destruct (pm_awake p); repeat case_decide; intros E; simplify_eq. split; [|done].
      split; [done|]. split; [done|]. split; [done|]. simpl.
      rewrite u64_small by (change (2 ^ 63) with 9223372036854775808 in *; change (2 ^ 32) with 4294967296 in *; change (2 ^ 64) with 18446744073709551616; lia).
      lia. }
    unfold tick in Htick. destruct (pc_mode (pm_cfg p)); simpl in Hm; [done|..]; injection Hm as <-; by eapply Hstep. }
  assert (H2 : awake_within t0 w p2 /\ pm_cfg p2 = pm_cfg p).
  { subst p2. clear Htick. revert p1 H1. induction Hacts as [|t acts Ht _ IH]; intros p1 [Hp1 Hc1]; simpl; [done|].
    destruct (on_activity_within t0 w t p1) as [Ha Hc]; try done; [by rewrite Hc1|]. apply IH. split; [done|congruence]. }
  destruct H2 as [(Hm2 & Ha2 & Hs2 & Hu2) Hc2]. split; [done|]. split; [lia|].
  change (2 ^ 63) with 9223372036854775808 in *. change (2 ^ 32) with 4294967296 in *.
  assert (Hsleep : forall l sl, (step now l sl p2).2 = Some false).
  { intros l sl. unfold step. rewrite Ha2. rewrite decide_False by (unfold U64_MAX; lia). by rewrite decide_True by lia. }
  unfold tick. destruct (pc_mode (pm_cfg p2)); simpl in Hm2; [done|apply Hsleep|apply Hsleep].
Qed.

Lemma beacon_multiplier_bounds changed p :
  0 <= pm_stable_intervals p <= 255 ->
  1 <= (beacon_multiplier changed p).2 <= Z.max (max_beacon_slowdown (pm_cfg p)) 1 /\
  (changed = true -> (beacon_multiplier changed p).2 = 1).
Proof.
  intros Hs. unfold beacon_multiplier, sat_add. change (2 ^ 8 - 1) with 255. simpl. split.
  - assert (0 <= (if changed then 0 else Z.min 255 (pm_stable_intervals p + 1)) / 4 <= 63) by (destruct changed; div_lia).
    rewrite u8_small by lia. lia.
  - intros ->. change (u8 (1 + 0 / 4)) with 1. lia.
Qed.

(** Concrete runs. *)
Definition ex_reqs : list (Z * Z) := [(10, 20000); (20, 15000); (30, 2000); (3600015, 30000)].
Lemma duty_cycle_respected_witness :
  (transmits ex_reqs (new PowerConfig_default 0)).2 = [(10, 20000); (20, 15000)] /\
  airtime (in_window 3600000 3600015 (transmits ex_reqs (new PowerConfig_default 0)).2) <= 36000.
Proof.
  split; [vm_compute; reflexivity|].
  apply (duty_cycle_respected PowerConfig_default 9 0 3600015 ex_reqs).
  - split; [discriminate|reflexivity].
  - split; [discriminate|reflexivity].
  - discriminate.
  - vm_compute. discriminate.
  - discriminate.
  - repeat constructor; simpl; discriminate.
  - repeat constructor; simpl; discriminate.
  - discriminate.
Defined.

Definition ex_leaf : PowerConfig := mkPowerConfig (LeafMode 60 500) 10 3600000 4 6000.
Definition ex_asleep : PowerManager := (tick 1000 (tick 0 (new ex_leaf 0)).1).1.
Lemma awake_period_bounded_witness :
  pm_awake ex_asleep = false /\
  (tick 70000 (foldl (fun p t => on_activity t p) (tick 61000 ex_asleep).1 [61100; 61200])).2 = Some false.
Proof.
  split; [reflexivity|].
  apply (awake_period_bounded ex_asleep (tick 61000 ex_asleep).1 61000 500 70000 [61100; 61200]).
  - reflexivity.
  - split; [discriminate|reflexivity].
  - split; [discriminate|reflexivity].
  - split; [discriminate|reflexivity].
  - repeat constructor; discriminate.
  - vm_compute. reflexivity.
  - vm_compute. discriminate.
Defined.
End PowerFacts.
