(* ===== verification/Beacon.v ===== *)
(** * Beacon payloads

    [crates/meshstar-core/src/neighbor/beacon.rs]: the announcement every node
    broadcasts, its codec and the signature of the identity part. *)
From stdpp Require Import base tactics list numbers.
From Stdlib Require Import Lia.
From S2P Require Import Prelude Protocol Packet CryptoLib Identity.

Definition FLAG_FULL : Z := Z.shiftl 1 0.
Definition FLAG_ZONE : Z := Z.shiftl 1 1.
Definition FLAG_ATTACHED : Z := Z.shiftl 1 2.
Definition FLAG_MAILBOX : Z := Z.shiftl 1 3.
Definition ZONE_ENTRY_LEN : Z := 11.
Definition FIXED_LEN : Z := 11.
Definition FULL_LEN : Z := 32 + 4 + 64.
(** [b"MeshStar/beacon/v1"] *)
Definition SIGN_DOMAIN : list Z :=
  [77; 101; 115; 104; 83; 116; 97; 114; 47; 98; 101; 97; 99; 111; 110; 47; 118; 49].

Module zflags.
Definition LEAF : Z := Z.shiftl 1 0.
Definition ANCHOR : Z := Z.shiftl 1 1.
Definition SLEEPING : Z := Z.shiftl 1 2.
End zflags.

Record ZoneEntry := mkZoneEntry { ze_addr : Address; ze_distance : Z; ze_quality : Z; ze_flags : Z }.
Record FullIdentity := mkFullIdentity { fi_public_key : list Z; fi_timestamp : Z; fi_signature : list Z }.

Record Beacon := mkBeacon {
  bc_role : Role;
  bc_seq : Z;
  bc_zone_radius : Z;
  bc_neighbor_count : Z;
  bc_battery_percent : Z;
  bc_sleep_interval_s : Z;
  bc_awake_window_ms : Z;
  bc_mailbox_available : bool;
  bc_full : option FullIdentity;
  bc_attached : list Address;
  bc_zone : list ZoneEntry
}.

Module Beacon.
Definition short (role : Role) (seq zone_radius neighbor_count : Z) : Beacon :=
  mkBeacon role seq zone_radius neighbor_count 255 0 0 false None [] [].

Definition signed_bytes (addr : Address) (pk : list Z) (seq timestamp : Z) (role : Role) : list Z :=
  SIGN_DOMAIN ++ addr_bytes addr ++ pk ++ be_bytes 2 seq ++ be_bytes 4 timestamp ++ [role_u8 role].

Definition set_full (f : FullIdentity) (b : Beacon) : Beacon :=
  mkBeacon (bc_role b) (bc_seq b) (bc_zone_radius b) (bc_neighbor_count b) (bc_battery_percent b)
    (bc_sleep_interval_s b) (bc_awake_window_ms b) (bc_mailbox_available b) (Some f) (bc_attached b) (bc_zone b).

Section Signature.
Context `{C : CryptoLib}.

Definition sign (id : Identity) (timestamp : Z) (b : Beacon) : Beacon :=
  let pk := public_key_bytes (id_public id) in
  let msg := signed_bytes (id_address id) pk (bc_seq b) timestamp (bc_role b) in
  set_full (mkFullIdentity pk timestamp (id_sign id msg)) b.

Definition full (id : Identity) (role : Role) (seq zone_radius neighbor_count timestamp : Z) : Beacon :=
  sign id timestamp (short role seq zone_radius neighbor_count).

Definition verify_signature (src : Address) (id : PublicIdentity) (b : Beacon) : Result unit :=
  f ← ok_or (bc_full b) NotFound;
  pubid_verify id (signed_bytes src (fi_public_key f) (bc_seq b) (fi_timestamp f) (bc_role b)) (fi_signature f).
End Signature.

Definition encoded_len (b : Beacon) : Z :=
  usize (FIXED_LEN
    + (match bc_full b with Some _ => FULL_LEN | None => 0 end)
    + (match bc_attached b with [] => 0 | _ => 1 + 8 * zlen (bc_attached b) end)
    + (match bc_zone b with [] => 0 | _ => 1 + ZONE_ENTRY_LEN * zlen (bc_zone b) end)).

Definition encode_flags (b : Beacon) : Z :=
  let fl := 0 in
  let fl := match bc_full b with Some _ => Z.lor fl FLAG_FULL | None => fl end in
  let fl := match bc_zone b with [] => fl | _ => Z.lor fl FLAG_ZONE end in
  let fl := match bc_attached b with [] => fl | _ => Z.lor fl FLAG_ATTACHED end in
  if bc_mailbox_available b then Z.lor fl FLAG_MAILBOX else fl.

Definition encode_entry (z : ZoneEntry) : list Z :=
  addr_bytes (ze_addr z) ++ [ze_distance z; ze_quality z; ze_flags z].

Definition encode_full (f : option FullIdentity) : list Z :=
  match f with
  | Some f => fi_public_key f ++ be_bytes 4 (fi_timestamp f) ++ fi_signature f
  | None => []
  end.

Definition encode_attached (l : list Address) : list Z :=
  match l with [] => [] | _ => [u8 (zlen l)] ++ concat (addr_bytes <$> l) end.

Definition encode_zone (l : list ZoneEntry) : list Z :=
  match l with [] => [] | _ => [u8 (zlen l)] ++ concat (encode_entry <$> l) end.

Definition encode (b : Beacon) : list Z :=
  ([encode_flags b; role_u8 (bc_role b)] ++ be_bytes 2 (bc_seq b) ++
   [bc_zone_radius b; bc_neighbor_count b; bc_battery_percent b] ++
   be_bytes 2 (bc_sleep_interval_s b) ++ be_bytes 2 (bc_awake_window_ms b)) ++
  encode_full (bc_full b) ++ encode_attached (bc_attached b) ++ encode_zone (bc_zone b).

(** The optional sections; each returns the position after it. *)
Definition decode_full (b : list Z) (fl pos : Z) : Result (Z * option FullIdentity) :=
  if has_flag fl FLAG_FULL then
    if decide (zlen b < pos + FULL_LEN) then Err Truncated else
    public_key ← slice b pos (pos + 32);
    timestamp ← be_at b (pos + 32) 4;
    signature ← slice b (pos + 36) (pos + 100);
    Ok (pos + FULL_LEN, Some (mkFullIdentity public_key timestamp signature))
  else Ok (pos, None).

Fixpoint attached_loop (b : list Z) (pos : Z) (n : nat) : Result (Z * list Address) :=
  match n with
  | O => Ok (pos, [])
  | S n' =>
      a ← read_target b pos;
      '(pos', rest) ← attached_loop b (pos + 8) n';
      Ok (pos', a :: rest)
  end.

Definition decode_attached (b : list Z) (fl pos : Z) : Result (Z * list Address) :=
  if has_flag fl FLAG_ATTACHED then
    if decide (zlen b < pos + 1) then Err Truncated else
    n ← idx b pos;
    if decide (zlen b < pos + 1 + n * 8) then Err Truncated else
    attached_loop b (pos + 1) (Z.to_nat n)
  else Ok (pos, []).

Fixpoint zone_loop (b : list Z) (pos : Z) (n : nat) : Result (Z * list ZoneEntry) :=
  match n with
  | O => Ok (pos, [])
  | S n' =>
      s ← slice b pos (pos + 8);
      addr ← addr_from_bytes s;
      distance ← idx b (pos + 8);
      if is_null addr || is_broadcast addr || bool_decide (distance = 0) || bool_decide (distance > 4)
      then Err BadField else
      quality ← idx b (pos + 9);
      flags ← idx b (pos + 10);
      '(pos', rest) ← zone_loop b (pos + ZONE_ENTRY_LEN) n';
      Ok (pos', mkZoneEntry addr distance quality flags :: rest)
  end.

Definition decode_zone (b : list Z) (fl pos : Z) : Result (Z * list ZoneEntry) :=
  if has_flag fl FLAG_ZONE then
    if decide (zlen b < pos + 1) then Err Truncated else
    n ← idx b pos;
    if decide (zlen b < pos + 1 + n * ZONE_ENTRY_LEN) then Err Truncated else
    zone_loop b (pos + 1) (Z.to_nat n)
  else Ok (pos, []).

Definition decode (b : list Z) : Result Beacon :=
  if decide (zlen b < FIXED_LEN) then Err Truncated else
  fl ← idx b 0;
  r ← idx b 1;
  role ← ok_or (role_from_u8 r) BadField;
  seq ← be_at b 2 2;
  zone_radius ← idx b 4;
  if decide (zone_radius > 4) then Err BadField else
  neighbor_count ← idx b 5;
  battery_percent ← idx b 6;
  sleep_interval_s ← be_at b 7 2;
  awake_window_ms ← be_at b 9 2;
  '(pos, full) ← decode_full b fl FIXED_LEN;
  '(pos, attached) ← decode_attached b fl pos;
  '(pos, zone) ← decode_zone b fl pos;
  if decide (pos <> zlen b) then Err BadField else
  Ok (mkBeacon role seq zone_radius neighbor_count battery_percent sleep_interval_s awake_window_ms
        (has_flag fl FLAG_MAILBOX) full attached zone).
End Beacon.

(** ** Round trip *)

Module BeaconFacts.
Import Beacon.

Definition entry_ok (z : ZoneEntry) : Prop :=
  target_ok (ze_addr z) /\ 1 <= ze_distance z <= 4 /\ byte_ok (ze_quality z) /\ byte_ok (ze_flags z).

Definition full_ok (f : FullIdentity) : Prop :=
  zlen (fi_public_key f) = 32 /\ in_u 32 (fi_timestamp f) /\ zlen (fi_signature f) = 64.

(** The beacons a node can announce: lists fit their count bytes. *)
Definition beacon_ok (b : Beacon) : Prop :=
  (in_u 16 (bc_seq b) /\ 0 <= bc_zone_radius b <= 4 /\ byte_ok (bc_neighbor_count b) /\
   byte_ok (bc_battery_percent b) /\ in_u 16 (bc_sleep_interval_s b) /\ in_u 16 (bc_awake_window_ms b)) /\
  (forall f, bc_full b = Some f -> full_ok f) /\
  Forall target_ok (bc_attached b) /\ zlen (bc_attached b) <= 255 /\
  Forall entry_ok (bc_zone b) /\ zlen (bc_zone b) <= 255.

Lemma flags_full b : has_flag (encode_flags b) FLAG_FULL = match bc_full b with Some _ => true | None => false end.
Proof. unfold encode_flags. by destruct (bc_full b), (bc_zone b), (bc_attached b), (bc_mailbox_available b). Qed.
Lemma flags_zone b : has_flag (encode_flags b) FLAG_ZONE = match bc_zone b with [] => false | _ => true end.
Proof. unfold encode_flags. by destruct (bc_full b), (bc_zone b), (bc_attached b), (bc_mailbox_available b). Qed.
Lemma flags_attached b : has_flag (encode_flags b) FLAG_ATTACHED = match bc_attached b with [] => false | _ => true end.
Proof. unfold encode_flags. by destruct (bc_full b), (bc_zone b), (bc_attached b), (bc_mailbox_available b). Qed.
Lemma flags_mailbox b : has_flag (encode_flags b) FLAG_MAILBOX = bc_mailbox_available b.
Proof. unfold encode_flags. by destruct (bc_full b), (bc_zone b), (bc_attached b), (bc_mailbox_available b). Qed.

Lemma zlen_entry z : entry_ok z -> zlen (encode_entry z) = 11.
Proof. intros [[Ha _] _]. unfold encode_entry. rewrite zlen_app, zlen_addr by done. done. Qed.

Lemma zlen_entries l : Forall entry_ok l -> zlen (concat (encode_entry <$> l)) = 11 * zlen l.
Proof.
  induction 1 as [|z l Hz _ IH]; [done|]. rewrite fmap_cons. cbn [concat].
  rewrite zlen_app, (zlen_cons z l), IH, zlen_entry by done. lia.
Qed.

(** Each section, read at the end of what precedes it. *)
Lemma decode_full_at fl p f s :
  has_flag fl FLAG_FULL = match f with Some _ => true | None => false end ->
  (forall g, f = Some g -> full_ok g) ->
  decode_full (p ++ encode_full f ++ s) fl (zlen p) = Ok (zlen (p ++ encode_full f), f).
Proof.
  intros Hfl Hok. unfold decode_full. rewrite Hfl. destruct f as [[pk ts sg]|]; [|by rewrite app_nil_r].
  destruct (Hok _ eq_refl) as (Hk & Ht & Hs). cbn [encode_full fi_public_key fi_timestamp fi_signature] in *.
  pose proof (zlen_nonneg s). pose proof (zlen_nonneg p). unfold FULL_LEN. rewrite <- !app_assoc.
  rewrite decide_False by zlens. do 3 codec_head. rewrite from_be_32 by done. do 2 f_equal. zlens.
Qed.

Lemma attached_loop_at (l : list Address) (p s : list Z) :
  Forall target_ok l ->
  attached_loop (p ++ concat (addr_bytes <$> l) ++ s) (zlen p) (length l)
  = Ok (zlen (p ++ concat (addr_bytes <$> l)), l).
Proof.
  intros Hl. revert p. induction Hl as [|a l Ha Hl IH]; intros p; simpl; [by rewrite app_nil_r|].
  rewrite <- app_assoc, read_target_at by done. cbn [mbind outcome_bind].
  rewrite (app_assoc p), <- (zlen_addr a (proj1 Ha)), <- zlen_app, IH. cbn [mbind outcome_bind].
  by rewrite <- app_assoc.
Qed.

Lemma decode_attached_at fl p l s :
  has_flag fl FLAG_ATTACHED = match l with [] => false | _ => true end ->
  Forall target_ok l -> zlen l <= 255 ->
  decode_attached (p ++ encode_attached l ++ s) fl (zlen p) = Ok (zlen (p ++ encode_attached l), l).
Proof.
  intros Hfl Hl Hn. unfold decode_attached. rewrite Hfl. destruct l as [|a l]; [by rewrite app_nil_r|].
  pose proof (zlen_nonneg (a :: l)). pose proof (zlen_nonneg s). pose proof (zlen_nonneg p).
  pose proof (zlen_addresses _ Hl). unfold encode_attached. rewrite u8_small by lia.
  assert (Z.to_nat (zlen (a :: l)) = length (a :: l)) as Hlen by (unfold zlen; lia).
  remember (zlen (a :: l)) as n eqn:En. clear En. remember (concat (addr_bytes <$> a :: l)) as body eqn:Eb. rewrite <- app_assoc.
  rewrite decide_False by zlens. rewrite idx_skip by lia. rewrite idx_here_app by lia. cbn [mbind outcome_bind].
  rewrite decide_False by zlens. rewrite (app_assoc p). replace (zlen p + 1) with (zlen (p ++ [n])) by zlens.
  rewrite Hlen, Eb.
  rewrite attached_loop_at by done. by rewrite <- app_assoc.
Qed.

Lemma zone_loop_at (l : list ZoneEntry) (p s : list Z) :
  Forall entry_ok l ->
  zone_loop (p ++ concat (encode_entry <$> l) ++ s) (zlen p) (length l)
  = Ok (zlen (p ++ concat (encode_entry <$> l)), l).
Proof.
  intros Hl. revert p. induction Hl as [|z l Hz Hl IH]; intros p; [simpl; by rewrite app_nil_r|].
  cbn [length zone_loop]. rewrite fmap_cons. cbn [concat]. pose proof (zlen_entry z Hz) as Hlen.
  specialize (IH (p ++ encode_entry z)). rewrite zlen_app, Hlen, <- app_assoc in IH. rewrite <- app_assoc.
  destruct z as [a d q fl]. destruct Hz as ([Ha Hr] & Hd & _). simpl in Ha, Hr, Hd.
  set (rest := concat (encode_entry <$> l) ++ s) in *. unfold encode_entry in *. simpl in Hlen, IH |- *.
  rewrite <- app_assoc in IH |- *. simpl in IH |- *. pose proof (zlen_addr a Ha) as Hz. pose proof (zlen_nonneg p).
  rewrite slice_mid by lia. cbn [mbind outcome_bind]. rewrite addr_from_bytes_self by done. cbn [mbind outcome_bind].
  do 1 codec_head. unfold is_reserved in Hr. rewrite Hr, !bool_decide_eq_false_2 by lia. cbn [orb].
  do 2 codec_head. unfold ZONE_ENTRY_LEN. rewrite IH. cbn [mbind outcome_bind]. rewrite <- !app_assoc. simpl.
  done.
Qed.

Lemma decode_zone_at fl p l :
  has_flag fl FLAG_ZONE = match l with [] => false | _ => true end ->
  Forall entry_ok l -> zlen l <= 255 ->
  decode_zone (p ++ encode_zone l) fl (zlen p) = Ok (zlen (p ++ encode_zone l), l).
Proof.
  intros Hfl Hl Hn. unfold decode_zone. rewrite Hfl. destruct l as [|a l]; [by rewrite app_nil_r|].
  pose proof (zlen_nonneg (a :: l)). pose proof (zlen_nonneg p).
  pose proof (zlen_entries _ Hl). unfold encode_zone. rewrite u8_small by lia.
  assert (Z.to_nat (zlen (a :: l)) = length (a :: l)) as Hlen by (unfold zlen; lia).
  remember (zlen (a :: l)) as n eqn:En. clear En. remember (concat (encode_entry <$> a :: l)) as body eqn:Eb. unfold ZONE_ENTRY_LEN.
  rewrite decide_False by zlens. rewrite idx_skip by lia. rewrite idx_here_app by lia. cbn [mbind outcome_bind].
  rewrite decide_False by zlens. rewrite (app_assoc p). replace (zlen p + 1) with (zlen (p ++ [n])) by zlens.
  rewrite Hlen, Eb.
  rewrite <- (app_nil_r (concat _)) at 1. rewrite zone_loop_at by done. by rewrite <- app_assoc.
Qed.

Definition fixed_part (b : Beacon) : list Z :=
  [encode_flags b; role_u8 (bc_role b)] ++ be_bytes 2 (bc_seq b) ++
  [bc_zone_radius b; bc_neighbor_count b; bc_battery_percent b] ++
  be_bytes 2 (bc_sleep_interval_s b) ++ be_bytes 2 (bc_awake_window_ms b).

Lemma zlen_fixed b : zlen (fixed_part b) = 11.
Proof. unfold fixed_part. zlens. Qed.

Lemma read_fixed b tail frame :
  frame = fixed_part b ++ tail ->
  in_u 16 (bc_seq b) -> in_u 16 (bc_sleep_interval_s b) -> in_u 16 (bc_awake_window_ms b) ->
  idx frame 0 =@{Result Z} Ok (encode_flags b) /\ idx frame 1 =@{Result Z} Ok (role_u8 (bc_role b)) /\
  be_at frame 2 2 =@{Result Z} Ok (bc_seq b) /\ idx frame 4 =@{Result Z} Ok (bc_zone_radius b) /\
  idx frame 5 =@{Result Z} Ok (bc_neighbor_count b) /\ idx frame 6 =@{Result Z} Ok (bc_battery_percent b) /\
  be_at frame 7 2 =@{Result Z} Ok (bc_sleep_interval_s b) /\ be_at frame 9 2 =@{Result Z} Ok (bc_awake_window_ms b).
Proof.
  intros -> H1 H2 H3. pose proof (zlen_nonneg tail). unfold fixed_part. rewrite <- !app_assoc.
  repeat apply conj; codec; by rewrite ?from_be_16.
Qed.

Lemma decode_encode b : beacon_ok b -> decode (encode b) = Ok b.
Proof.
  intros ((Hs & Hr & Hnc & Hbt & Hsl & Haw) & Hf & Ha & Hal & Hz & Hzl).
  change (encode b) with (fixed_part b ++ encode_full (bc_full b) ++ encode_attached (bc_attached b) ++ encode_zone (bc_zone b)).
  pose proof (decode_full_at (encode_flags b) (fixed_part b) (bc_full b)
    (encode_attached (bc_attached b) ++ encode_zone (bc_zone b)) (flags_full b) Hf) as H1.
  pose proof (decode_attached_at (encode_flags b) (fixed_part b ++ encode_full (bc_full b)) _
    (encode_zone (bc_zone b)) (flags_attached b) Ha Hal) as H2.
  pose proof (decode_zone_at (encode_flags b) ((fixed_part b ++ encode_full (bc_full b)) ++ encode_attached (bc_attached b)) _
    (flags_zone b) Hz Hzl) as H3.
  rewrite <- !app_assoc in H2. rewrite <- !app_assoc in H3. rewrite zlen_fixed in H1.
  pose proof (zlen_fixed b) as Hfix. remember (fixed_part b ++ encode_full _ ++ _ ++ _) as frame eqn:Efr.
  destruct (read_fixed b _ frame Efr Hs Hsl Haw) as (R0 & R1 & R2 & R4 & R5 & R6 & R7 & R9).
  assert (11 <= zlen frame) by (rewrite Efr, zlen_app, Hfix; match goal with |- _ <= _ + zlen ?t => pose proof (zlen_nonneg t) end; lia).
  unfold decode, FIXED_LEN. rewrite decide_False by lia.
  rewrite R0. cbn [mbind outcome_bind]. rewrite R1. cbn [mbind outcome_bind]. rewrite role_roundtrip. cbn [ok_or mbind outcome_bind].
  rewrite R2. cbn [mbind outcome_bind]. rewrite R4. cbn [mbind outcome_bind]. rewrite decide_False by lia.
  rewrite R5. cbn [mbind outcome_bind]. rewrite R6. cbn [mbind outcome_bind]. rewrite R7. cbn [mbind outcome_bind].
  rewrite R9. cbn [mbind outcome_bind]. rewrite H1. cbn [mbind outcome_bind]. rewrite H2. cbn [mbind outcome_bind].
  rewrite H3. cbn [mbind outcome_bind]. rewrite decide_False by auto. rewrite flags_mailbox. by destruct b.
Qed.

(** ** Arbitrary input *)

Lemma decode_full_wf b fl pos :
  bytes_ok b -> 0 <= pos <= zlen b ->
  safe (decode_full b fl pos) /\
  forall pos' f, decode_full b fl pos = Ok (pos', f) -> pos <= pos' <= zlen b /\ forall g, f = Some g -> full_ok g.
Proof.
  intros Hb Hp. unfold decode_full, FULL_LEN. split; [by repeat safe_step|]. intros pos' f H.
  destruct (has_flag fl FLAG_FULL); [|injection H as <- <-; split; [lia|done]].
  case_decide; [done|]. apply bind_ok in H as (pk & Hpk & H). apply bind_ok in H as (ts & Hts & H).
  apply bind_ok in H as (sg & Hsg & [= <- <-]). split; [lia|]. intros g [= <-].
  repeat split; simpl; [apply slice_zlen in Hpk; lia|apply be_at_wf in Hts; [apply Hts|done]..|apply slice_zlen in Hsg; lia].
Qed.

Lemma attached_loop_wf b n pos :
  bytes_ok b -> 0 <= pos -> pos + 8 * Z.of_nat n <= zlen b ->
  safe (attached_loop b pos n) /\
  forall pos' l, attached_loop b pos n = Ok (pos', l) ->
    pos' = pos + 8 * Z.of_nat n /\ Forall target_ok l /\ length l = n.
Proof.
  intros Hb. revert pos. induction n as [|n IH]; intros pos Hp Hn; cbn [attached_loop].
  { split; [done|]. intros ?? [= <- <-]. split; [lia|by split]. }
  destruct (IH (pos + 8)) as [IH1 IH2]; [lia..|]. split.
  - apply safe_bind; [apply safe_read_target; lia|]. intros a _. apply safe_bind; [done|]. by intros [] _.
  - intros pos' l H. apply bind_ok in H as (a & Ha & H). apply bind_ok in H as ([p r] & Hr & [= <- <-]).
    destruct (IH2 _ _ Hr) as (-> & Hl & <-). split; [lia|]. split; [|done].
    constructor; [by eapply read_target_ok|done].
Qed.

Lemma zone_loop_wf b n pos :
  bytes_ok b -> 0 <= pos -> pos + 11 * Z.of_nat n <= zlen b ->
  safe (zone_loop b pos n) /\
  forall pos' l, zone_loop b pos n = Ok (pos', l) ->
    pos' = pos + 11 * Z.of_nat n /\ Forall entry_ok l /\ length l = n.
Proof.
  intros Hb. revert pos. induction n as [|n IH]; intros pos Hp Hn; cbn [zone_loop].
  { split; [done|]. intros ?? [= <- <-]. split; [lia|by split]. }
  unfold ZONE_ENTRY_LEN. destruct (IH (pos + 11)) as [IH1 IH2]; [lia..|]. split.
  - apply safe_bind; [apply safe_slice; lia|]. intros s Hs. apply slice_zlen in Hs.
    apply safe_bind; [destruct (addr_from_bytes_total s) as [a ->]; [lia|done]|]. intros a _.
    repeat safe_step; [done|]. by destruct a3.
  - intros pos' l H. apply bind_ok in H as (s & Hs & H). apply bind_ok in H as (a & Ha & H).
    apply bind_ok in H as (d & Hd & H). destruct (_ || _) eqn:E in H; [done|].
    apply bind_ok in H as (q & Hq & H). apply bind_ok in H as (fl & Hfl & H).
    apply bind_ok in H as ([p r] & Hr & [= <- <-]). destruct (IH2 _ _ Hr) as (-> & Hl & <-).
    split; [lia|]. split; [|done]. constructor; [|done].
    apply orb_false_elim in E as [E E4%bool_decide_eq_false]. apply orb_false_elim in E as [E E0%bool_decide_eq_false].
    apply slice_wf in Hs; [|done]. pose proof (idx_wf _ _ _ Hb Hd) as [Hd0 _].
    split; [split; [by eapply addr_from_bytes_wf|exact E]|]. split; [simpl; lia|]. split; [exact (idx_wf _ _ _ Hb Hq)|exact (idx_wf _ _ _ Hb Hfl)].
Qed.

Lemma decode_attached_wf b fl pos :
  bytes_ok b -> 0 <= pos <= zlen b ->
  safe (decode_attached b fl pos) /\
  forall pos' l, decode_attached b fl pos = Ok (pos', l) ->
    pos <= pos' <= zlen b /\ Forall target_ok l /\ zlen l <= 255.
Proof.
  intros Hb Hp. unfold decode_attached. destruct (has_flag fl FLAG_ATTACHED).
  2:{ split; [done|]. intros ?? [= <- <-]. by split_and!; try lia. }
  case_decide; [done|]. destruct (idx_in (E := Error) b pos) as (n & Hn & _); [lia|]. rewrite Hn. cbn [mbind outcome_bind].
  pose proof (idx_wf _ _ _ Hb Hn) as Hbn. unfold byte_ok, in_u in Hbn. change (2 ^ 8) with 256 in Hbn. case_decide; [done|].
  destruct (attached_loop_wf b (Z.to_nat n) (pos + 1)) as [H1 H2]; [done|lia..|]. split; [done|].
  intros pos' l H'. destruct (H2 _ _ H') as (-> & Hl & Hlen). split; [lia|]. split; [done|]. unfold zlen. lia.
Qed.

Lemma decode_zone_wf b fl pos :
  bytes_ok b -> 0 <= pos <= zlen b ->
  safe (decode_zone b fl pos) /\
  forall pos' l, decode_zone b fl pos = Ok (pos', l) -> Forall entry_ok l /\ zlen l <= 255.
Proof.
  intros Hb Hp. unfold decode_zone, ZONE_ENTRY_LEN. destruct (has_flag fl FLAG_ZONE).
  2:{ split; [done|]. intros ?? [= <- <-]. by split_and!; try lia. }
  case_decide; [done|]. destruct (idx_in (E := Error) b pos) as (n & Hn & _); [lia|]. rewrite Hn. cbn [mbind outcome_bind].
  pose proof (idx_wf _ _ _ Hb Hn) as Hbn. unfold byte_ok, in_u in Hbn. change (2 ^ 8) with 256 in Hbn. case_decide; [done|].
  destruct (zone_loop_wf b (Z.to_nat n) (pos + 1)) as [H1 H2]; [done|lia..|]. split; [done|].
  intros pos' l H'. destruct (H2 _ _ H') as (-> & Hl & Hlen). unfold zlen. split; [done|lia].
Qed.

Lemma decode_wf b : bytes_ok b -> safe (decode b) /\ forall x, decode b = Ok x -> beacon_ok x.
Proof.
  intros Hb. unfold decode, FIXED_LEN. case_decide as Hlen; [done|].
  destruct (idx_in (E := Error) b 0) as (fl & -> & _); [lia|]. cbn [mbind outcome_bind].
  destruct (idx_in (E := Error) b 1) as (r & -> & _); [lia|]. cbn [mbind outcome_bind].
  destruct (role_from_u8 r) as [role|]; [|done]. cbn [ok_or mbind outcome_bind].
  destruct (be_at_in (E := Error) b 2 2) as (seq & Hs); [lia..|]. rewrite Hs. cbn [mbind outcome_bind].
  destruct (idx_in (E := Error) b 4) as (zr & Hz & _); [lia|]. rewrite Hz. cbn [mbind outcome_bind].
  case_decide; [done|].
  destruct (idx_in (E := Error) b 5) as (nc & Hnc & _); [lia|]. rewrite Hnc. cbn [mbind outcome_bind].
  destruct (idx_in (E := Error) b 6) as (bp & Hbp & _); [lia|]. rewrite Hbp. cbn [mbind outcome_bind].
  destruct (be_at_in (E := Error) b 7 2) as (si & Hsi); [lia..|]. rewrite Hsi. cbn [mbind outcome_bind].
  destruct (be_at_in (E := Error) b 9 2) as (aw & Haw); [lia..|]. rewrite Haw. cbn [mbind outcome_bind].
  destruct (decode_full_wf b fl 11) as [F1 F2]; [done|lia|].
  destruct (decode_full b fl 11) as [[p1 f]|e|] eqn:Ef; [|done..]. cbn [mbind outcome_bind].
  destruct (F2 _ _ eq_refl) as [Hp1 Hf]. destruct (decode_attached_wf b fl p1) as [A1 A2]; [done|lia|].
  destruct (decode_attached b fl p1) as [[p2 l]|e|] eqn:Ea; [|done..]. cbn [mbind outcome_bind].
  destruct (A2 _ _ eq_refl) as (Hp2 & Hl & Hll). destruct (decode_zone_wf b fl p2) as [Z1 Z2]; [done|lia|].
  destruct (decode_zone b fl p2) as [[p3 z]|e|] eqn:Ez; [|done..]. cbn [mbind outcome_bind].
  destruct (Z2 _ _ eq_refl) as (Hzl & Hzn). case_decide; [done|]. split; [done|]. intros x [= <-].
  pose proof (idx_wf _ _ _ Hb Hz) as [? _]. pose proof (be_at_wf _ _ _ _ Hb Hs). pose proof (be_at_wf _ _ _ _ Hb Hsi).
  pose proof (be_at_wf _ _ _ _ Hb Haw). split; simpl; [|by split_and!].
  split; [done|]. split; [lia|]. split; [by eapply idx_wf|]. split; [by eapply idx_wf|done].
Qed.

Lemma zlen_encode b : beacon_ok b -> zlen (encode b) = encoded_len b.
Proof.
  intros (_ & Hf & Ha & Hal & Hz & Hzl).
  change (encode b) with (fixed_part b ++ encode_full (bc_full b) ++ encode_attached (bc_attached b) ++ encode_zone (bc_zone b)).
  rewrite !zlen_app, zlen_fixed. unfold encoded_len, FIXED_LEN, FULL_LEN, ZONE_ENTRY_LEN.
  assert (zlen (encode_full (bc_full b)) = match bc_full b with Some _ => 32 + 4 + 64 | None => 0 end) as ->.
  { destruct (bc_full b) as [f|]; [|done]. destruct (Hf f eq_refl) as (? & ? & ?). simpl encode_full. zlens. }
  assert (zlen (encode_attached (bc_attached b)) = match bc_attached b with [] => 0 | _ => 1 + 8 * zlen (bc_attached b) end) as ->.
  { unfold encode_attached. pose proof (zlen_addresses _ Ha). destruct (bc_attached b); [done|]. rewrite zlen_app. change (zlen [_]) with 1. lia. }
  assert (zlen (encode_zone (bc_zone b)) = match bc_zone b with [] => 0 | _ => 1 + 11 * zlen (bc_zone b) end) as ->.
  { unfold encode_zone. pose proof (zlen_entries _ Hz). destruct (bc_zone b); [done|]. rewrite zlen_app. change (zlen [_]) with 1. lia. }
  pose proof (zlen_nonneg (bc_attached b)). pose proof (zlen_nonneg (bc_zone b)).
  rewrite usize_small; [lia|]. destruct (bc_full b), (bc_attached b), (bc_zone b); lia.
Qed.

(** The beacon codec: every announceable beacon has the announced length
    and decodes to itself; no payload makes the decoder panic; and whatever it
    accepts is an announceable beacon (radius and distances within 4, no
    reserved address), so it survives being encoded again. *)
Theorem beacon_codec (b : Beacon) (payload : list Z) :
  bytes_ok payload ->
  (beacon_ok b -> decode (encode b) = Ok b /\ zlen (encode b) = encoded_len b) /\
  decode payload <> Panic /\
  forall x, decode payload = Ok x -> beacon_ok x /\ decode (encode x) = Ok x.
Proof.
  intros Hp. split; [intros Hb; split; [by apply decode_encode|by apply zlen_encode]|].
  destruct (decode_wf payload Hp) as [Hs Hw]. split; [done|].
  intros x Hx. specialize (Hw x Hx). split; [done|by apply decode_encode].
Qed.

(** ** Signatures *)

(** The signed message determines every field it covers. *)
Lemma signed_bytes_inj a pk seq ts r a' pk' seq' ts' r' :
  address_ok a -> address_ok a' -> zlen pk = 32 -> zlen pk' = 32 ->
  in_u 16 seq -> in_u 16 seq' -> in_u 32 ts -> in_u 32 ts' ->
  signed_bytes a pk seq ts r = signed_bytes a' pk' seq' ts' r' ->
  a = a' /\ pk = pk' /\ seq = seq' /\ ts = ts' /\ r = r'.
Proof.
  intros Ha Ha' Hk Hk' Hs Hs' Ht Ht' H. unfold signed_bytes in H.
  apply app_inj_1 in H as [_ H]; [|done].
  apply app_inj_1 in H as [Hab H]; [|by rewrite (proj1 Ha), (proj1 Ha')].
  apply app_inj_1 in H as [Hpk H]; [|unfold zlen in *; lia].
  apply app_inj_1 in H as [Hsq H]; [|by rewrite !length_be_bytes].
  apply app_inj_1 in H as [Hts H]; [|by rewrite !length_be_bytes].
  apply (f_equal from_be) in Hsq, Hts. rewrite !from_be_16 in Hsq by done. rewrite !from_be_32 in Hts by done.
  injection H as H. repeat split; [destruct a, a'; simpl in *; congruence|done|done|done|].
  apply (f_equal role_from_u8) in H. rewrite !role_roundtrip in H. by injection H.
Qed.

Section Signed.
Context `{C : CryptoLib, !CryptoLibLaws C}.

Lemma sign_ok id ts b : identity_ok id -> in_u 32 ts -> beacon_ok b -> beacon_ok (sign id ts b).
Proof.
  intros Hid Hts (Hb & _ & Hr). split; [exact Hb|]. split; [|exact Hr]. intros f [= <-].
  pose proof (identity_ok_inv id Hid) as [Hp _]. unfold public_key_bytes. rewrite Hp. unfold full_ok, id_sign, zlen. simpl.
  by rewrite ed_public_len, ed_sign_len.
Qed.

(** Signed announcements authenticate their sender: a beacon signed by a
    node and sent over the air verifies against the identity the receiver
    rebuilds from the key inside it, whose address is the sender's; a beacon
    without identity part is [NotFound]; and two signed messages agree only if
    address, key, sequence number, timestamp and role all do. *)
Theorem beacon_authentic (seed : list Z) (ts : Z) (b : Beacon) :
  in_u 32 ts -> beacon_ok b ->
  exists id x pub, from_seed seed = Ok id /\
    decode (encode (sign id ts b)) = Ok x /\
    (fi_public_key <$> bc_full x) = Some (pi_verifying pub) /\ pubid_from_bytes (pi_verifying pub) = Ok pub /\
    pi_address pub = id_address id /\ verify_signature (id_address id) pub x = Ok () /\
    (bc_full b = None -> verify_signature (id_address id) pub b = Err NotFound) /\
    (forall a pk seq ts' r, address_ok a -> zlen pk = 32 -> in_u 16 seq -> in_u 32 ts' ->
       signed_bytes a pk seq ts' r = signed_bytes (id_address id) (pi_verifying pub) (bc_seq b) ts (bc_role b) ->
       a = id_address id /\ pk = pi_verifying pub /\ seq = bc_seq b /\ ts' = ts /\ r = bc_role b).
Proof.
  intros Hts Hb. destruct (from_seed_total seed) as (id & Hid & Hok). exists id, (sign id ts b), (id_public id).
  pose proof (identity_ok_inv id Hok) as [Hp _]. split; [done|].
  split; [by apply decode_encode, sign_ok|]. split; [done|]. split; [by apply identity_pubid|]. split; [done|].
  split.
  { unfold verify_signature, sign. cbn [bc_full set_full ok_or mbind outcome_bind]. unfold pubid_verify. cbn -[signed_bytes].
    rewrite Hp at 1. simpl pi_verifying. unfold id_sign. by rewrite ed_sign_verify. }
  split; [intros Hn; unfold verify_signature; by rewrite Hn|].
  intros a pk seq ts' r Hsrc Hl Hsq Hts' Heq. assert (Hpk : zlen (pi_verifying (id_public id)) = 32).
  { rewrite Hp. unfold zlen. simpl. by rewrite ed_public_len. }
  assert (Ha : address_ok (id_address id)) by (unfold id_address; rewrite Hp; apply from_public_key_ok).
  destruct Hb as ((Hs & _) & _). by eapply signed_bytes_inj in Heq.
Qed.
End Signed.

(** Concrete beacons. *)
Definition ex_neighbor : Address := mkAddress [4; 4; 4; 4; 4; 4; 4; 4].
Definition ex_beacon : Beacon :=
  mkBeacon Anchor 300 2 7 255 60 500 true None [ex_neighbor] [mkZoneEntry ex_neighbor 1 200 zflags.LEAF].

Lemma ex_beacon_ok : beacon_ok ex_beacon.
Proof.
  assert (Ht : target_ok ex_neighbor) by (split; [split; [done|apply (bool_decide_unpack _); vm_compute; exact I]|done]).
  split; [simpl; unfold byte_ok, in_u; lia|]. split; [done|]. split; [by apply Forall_cons_2|]. split; [done|].
  split; [|done]. apply Forall_cons_2; [|done]. split; [done|]. simpl. split; [lia|split; split; done || lia].
Qed.

Lemma beacon_codec_witness :
  decode (encode ex_beacon) = Ok ex_beacon /\ zlen (encode ex_beacon) = 32 /\ decode (1 :: encode ex_beacon) <> Panic.
Proof.
  destruct (beacon_codec ex_beacon (1 :: encode ex_beacon)) as (H1 & H2 & _).
  - apply (bool_decide_unpack _). vm_compute. exact I.
  - destruct (H1 ex_beacon_ok) as [H3 H4]. split; [exact H3|]. split; [reflexivity|exact H2].
Defined.

Lemma beacon_authentic_witness :
  exists id x pub, from_seed (C := ToyCrypto.lib) [1; 2; 3] = Ok id /\ decode (encode (sign id 12345 ex_beacon)) = Ok x /\
    pi_address pub = id_address id /\ verify_signature (id_address id) pub x = Ok ().
Proof.
  destruct (beacon_authentic (C := ToyCrypto.lib) [1; 2; 3] 12345 ex_beacon) as (id & x & pub & H1 & H2 & _ & _ & H3 & H4 & _).
  - split; reflexivity || discriminate.
  - exact ex_beacon_ok.
  - exists id, x, pub. split; [exact H1|]. split; [exact H2|]. split; [exact H3|exact H4].
Defined.
End BeaconFacts.
