(* ===== verification/Radio.v ===== *)
(** * Radio profiles

    [crates/meshstar-core/src/radio/mod.rs]: the LoRa modem settings, the
    time-on-air formula every transmission is charged by, and the reception
    metadata.  The [Radio] trait itself is the interface to the hardware. *)
From stdpp Require Import base tactics list numbers.
From Stdlib Require Import Lia.
From S2P Require Import Prelude Float32 Protocol.

(** Two's complement 32-bit signed arithmetic. *)
Definition i32 (z : Z) : Z := wrap 32 (z + 2147483648) - 2147483648.

Lemma i32_small z : -2147483648 <= z < 2147483648 -> i32 z = z.
Proof. intros H. unfold i32, wrap. change (2 ^ 32) with 4294967296. rewrite Z.mod_small; lia. Qed.

Record LoRaProfile := mkLoRaProfile {
  frequency_hz : Z;
  bandwidth_hz : Z;
  spreading_factor : Z;
  coding_rate : Z;
  sync_word : Z;
  preamble_symbols : Z;
  lp_crc : bool;
  implicit_header : bool;
  tx_power_dbm : Z
}.

Record RxMeta := mkRxMeta { rssi_dbm : Z; snr_db : f32; timestamp_ms : Z; freq_error_hz : Z }.
Definition RxMeta_new (rssi : Z) (snr : f32) (timestamp : Z) : RxMeta := mkRxMeta rssi snr timestamp 0.

Module LoRaProfile.
Definition MESHSTAR_EU868 : LoRaProfile := mkLoRaProfile 869525000 125000 8 5 0x1A 32 true false 14.
Definition MESHSTAR_US915 : LoRaProfile := mkLoRaProfile 915000000 125000 8 5 0x1A 32 true false 20.
Definition MESHSTAR_EU868_LONG : LoRaProfile := mkLoRaProfile 869525000 125000 10 6 0x1A 32 true false 14.
Definition MESHSTAR_EU868_FAST : LoRaProfile := mkLoRaProfile 869525000 250000 7 5 0x1A 32 true false 14.

Definition sync_word_sx126x (p : LoRaProfile) : Z :=
  let hi := Z.shiftr (sync_word p) 4 in
  let lo := Z.land (sync_word p) 0x0F in
  Z.lor (Z.lor (Z.lor (u16 (Z.shiftl hi 12)) (Z.shiftl 0x4 8)) (Z.shiftl lo 4)) 0x4.

(** Division by a zero bandwidth panics. *)
Definition symbol_time_us (p : LoRaProfile) : Result Z :=
  if decide (bandwidth_hz p = 0) then Panic
  else Ok (u32 (u64 (u64 (Z.shiftl 1 (spreading_factor p mod 64)) * 1000000) / bandwidth_hz p)).

Definition low_data_rate_optimize (p : LoRaProfile) : Result bool :=
  ts ← symbol_time_us p; Ok (bool_decide (ts > 16000)).

Definition airtime_us (p : LoRaProfile) (len : Z) : Result Z :=
  let sf := spreading_factor p in
  ldr ← low_data_rate_optimize p;
  let de := if (ldr : bool) then 1 else 0 in
  let ih := if implicit_header p then 1 else 0 in
  let crc := if lp_crc p then 1 else 0 in
  let cr := Z.max 1 (Z.min 4 (coding_rate p - 4)) in
  let num := i32 (i32 (8 * i32 len) - 4 * sf + 28 + 16 * crc - 20 * ih) in
  let den := i32 (4 * (sf - 2 * de)) in
  if decide (den = 0) then Panic else
  (* [div_euclid]: the remainder is not negative *)
  let q := let n := i32 (num + den - 1) in if decide (den > 0) then n / den else - (n / - den) in
  let payload_symbols := i32 (8 + i32 (Z.max q 0 * (cr + 4))) in
  ts ← symbol_time_us p;
  let preamble := u64 (u64 (u64 (preamble_symbols p * 4) + 17) * ts) / 4 in
  Ok (u32 (u64 (preamble + u64 (u64 payload_symbols * ts)))).

Definition airtime_ms (p : LoRaProfile) (len : Z) : Result Z :=
  us ← airtime_us p len; Ok ((us + 999) / 1000).

Definition bitrate_bps (p : LoRaProfile) : Result Z :=
  let sf := spreading_factor p in
  let d := u64 (u64 (Z.shiftl 1 (sf mod 64)) * coding_rate p) in
  if decide (d = 0) then Panic else Ok (u32 (u64 (u64 (sf * bandwidth_hz p) * 4) / d)).

Definition demod_snr_db (p : LoRaProfile) : f32 :=
  match spreading_factor p with
  | 5 => lit (-5) 2
  | 6 => f32_of (-5)
  | 7 => lit (-15) 2
  | 8 => f32_of (-10)
  | 9 => lit (-25) 2
  | 10 => f32_of (-15)
  | 11 => lit (-35) 2
  | _ => f32_of (-20)
  end.

(** [i16] division truncates towards zero. *)
Definition sensitivity_dbm (p : LoRaProfile) : Z :=
  let base := if decide (bandwidth_hz p <= 62500) then -129
              else if decide (bandwidth_hz p <= 125000) then -126
              else if decide (bandwidth_hz p <= 250000) then -123 else -120 in
  base - Z.quot ((spreading_factor p - 7) * 5) 2 + 5.
End LoRaProfile.

(** ** Time on air *)

Module RadioFacts.
Import LoRaProfile.

(** The settings the modems accept. *)
Definition profile_ok (p : LoRaProfile) : Prop :=
  5 <= spreading_factor p <= 12 /\ 7800 <= bandwidth_hz p <= 500000 /\ 5 <= coding_rate p <= 8 /\
  0 <= preamble_symbols p <= 1024.

(** The number of payload symbols of the Semtech formula, over the integers. *)
Definition symbols (p : LoRaProfile) (de len : Z) : Z :=
  let num := 8 * len - 4 * spreading_factor p + 28 + 16 * Z.b2z (lp_crc p) - 20 * Z.b2z (implicit_header p) in
  let den := 4 * (spreading_factor p - 2 * de) in
  8 + Z.max 0 ((num + den - 1) / den) * coding_rate p.

(** Symbol time of a valid profile. *)
Definition ts_of (p : LoRaProfile) : Z := 2 ^ spreading_factor p * 1000000 / bandwidth_hz p.

Lemma symbol_time_ok p : profile_ok p -> symbol_time_us p = Ok (ts_of p) /\ 64 <= ts_of p <= 525129.
Proof.
  intros (Hsf & Hbw & _). unfold symbol_time_us, ts_of. rewrite decide_False by lia.
  rewrite (Z.mod_small (spreading_factor p)) by lia. rewrite Z.shiftl_1_l.
  assert (32 <= 2 ^ spreading_factor p <= 4096).
  { change 32 with (2 ^ 5). change 4096 with (2 ^ 12). split; apply Z.pow_le_mono_r; lia. }
  assert (Hq : 64 <= 2 ^ spreading_factor p * 1000000 / bandwidth_hz p <= 525129).
  { split; [apply Z.div_le_lower_bound; lia|]. apply Z.div_le_upper_bound; lia. }
  split; [|done]. f_equal. rewrite (u64_small (2 ^ _)), u64_small, u32_small by lia. done.
Qed.

(** The code computes the integer formula: no intermediate result overflows for
    the frames the radio can send. *)
Lemma airtime_us_ok p len :
  profile_ok p -> 0 <= len <= 255 ->
  exists de, (de = 0 \/ de = 1) /\
    airtime_us p len = Ok ((preamble_symbols p * 4 + 17) * ts_of p / 4 + symbols p de len * ts_of p).
Proof.
  intros Hok Hlen. pose proof Hok as (Hsf & Hbw & Hcr & Hpre). destruct (symbol_time_ok p Hok) as [Hts Hr].
  set (ts := ts_of p) in *. clearbody ts. unfold airtime_us, low_data_rate_optimize. rewrite Hts. cbn [mbind outcome_bind].
  exists (if bool_decide (ts > 16000) then 1 else 0). set (de := if bool_decide (ts > 16000) then 1 else 0).
  assert (Hde : de = 0 \/ de = 1) by (unfold de; destruct (bool_decide (ts > 16000)); auto). clearbody de. split; [done|].
  rewrite (Z.max_r 1), (Z.min_r 4) by lia. rewrite (i32_small len), (i32_small (8 * len)) by lia. unfold symbols.
  replace (if lp_crc p then 1 else 0) with (Z.b2z (lp_crc p)) by (by destruct (lp_crc p)).
  replace (if implicit_header p then 1 else 0) with (Z.b2z (implicit_header p)) by (by destruct (implicit_header p)).
  set (num := 8 * len - 4 * spreading_factor p + 28 + 16 * Z.b2z (lp_crc p) - 20 * Z.b2z (implicit_header p)).
  assert (Hnum : -40 <= num <= 2084) by (unfold num; destruct (lp_crc p), (implicit_header p); simpl; lia). clearbody num.
  rewrite (i32_small num), (i32_small (4 * _)) by lia. set (den := 4 * (spreading_factor p - 2 * de)).
  assert (Hden : 12 <= den <= 48) by lia. clearbody den. cbn zeta. rewrite decide_False by lia. rewrite decide_True by lia.
  rewrite (i32_small (num + den - 1)) by lia. rewrite (Z.max_comm _ 0).
  assert (Hq : Z.max 0 ((num + den - 1) / den) <= 180).
  { apply Z.max_lub; [lia|]. apply Z.div_le_upper_bound; lia. }
  set (q := Z.max 0 ((num + den - 1) / den)) in *. assert (0 <= q) by lia. clearbody q.
  replace (coding_rate p - 4 + 4) with (coding_rate p) by lia.
  assert (Hs : 0 <= q * coding_rate p <= 1440) by nia. rewrite (i32_small (q * _)), (i32_small (8 + _)) by lia.
  set (sy := 8 + q * coding_rate p) in *. assert (Hsy : 8 <= sy <= 1448) by lia. clearbody sy.
  rewrite (u64_small (preamble_symbols p * 4)), (u64_small (_ + 17)), (u64_small sy) by lia.
  assert (Hp : 0 <= (preamble_symbols p * 4 + 17) * ts <= 2160000000) by nia.
  assert (Hpay : 0 <= sy * ts <= 760386792) by nia. rewrite (u64_small (_ * ts)), (u64_small (sy * ts)) by lia.
  assert (0 <= (preamble_symbols p * 4 + 17) * ts / 4 <= 540000000).
  { split; [apply Z.div_pos; lia|]. apply Z.div_le_upper_bound; lia. }
  rewrite u64_small, u32_small by lia. done.
Qed.

Lemma airtime_ms_ok p len :
  profile_ok p -> 0 <= len <= 255 -> exists a, airtime_ms p len = Ok a /\ 0 <= a <= 1400000.
Proof.
  intros Hok Hlen. destruct (airtime_us_ok p len Hok Hlen) as (de & Hde & Hus). unfold airtime_ms. rewrite Hus.
  eexists. split; [reflexivity|]. destruct (symbol_time_ok p Hok) as [_ Hr]. destruct Hok as (Hsf & _ & Hcr & Hpre).
  set (ts := ts_of p) in *. clearbody ts.
  assert (8 <= symbols p de len <= 1600).
  { unfold symbols. assert (Z.max 0 ((8 * len - 4 * spreading_factor p + 28 + 16 * Z.b2z (lp_crc p) - 20 * Z.b2z (implicit_header p) +
      4 * (spreading_factor p - 2 * de) - 1) / (4 * (spreading_factor p - 2 * de))) <= 180).
    { apply Z.max_lub; [lia|]. apply Z.div_le_upper_bound; [lia|]. destruct (lp_crc p), (implicit_header p); simpl; lia. }
    nia. }
  assert (0 <= (preamble_symbols p * 4 + 17) * ts / 4 <= 540000000).
  { split; [apply Z.div_pos; nia|]. apply Z.div_le_upper_bound; nia. }
  split; [apply Z.div_pos; nia|]. apply Z.div_le_upper_bound; nia.
Qed.
End RadioFacts.
