(* ===== verification/Neighbor.v ===== *)
(** * Neighbour table

    [crates/meshstar-core/src/neighbor/mod.rs]: the directly reachable nodes,
    their link statistics (binary32) and the processing of beacons.  The build with identities (without
    the [tiny] feature) is modelled. *)
From stdpp Require Import base tactics list numbers.
From Stdlib Require Import Lia.
From S2P Require Import Prelude SmallMap Float32 Protocol Packet CryptoLib Identity Beacon Radio.

Record NeighborConfig := mkNeighborConfig {
  beacon_interval_ms : Z;
  beacon_jitter_ms : Z;
  full_beacon_every : Z;
  timeout_intervals : Z;
  max_neighbors : Z;
  ewma_alpha : f32;
  nc_snr_floor_db : f32
}.

Definition NeighborConfig_default : NeighborConfig :=
  mkNeighborConfig 120000 20000 6 4 48 (lit 3 10) (f32_of (-10)).

Record Neighbor := mkNeighbor {
  nb_addr : Address;
  nb_role : Role;
  nb_identity : option PublicIdentity;
  nb_first_seen : Z;
  nb_last_seen : Z;
  nb_last_beacon_seq : option Z;
  nb_beacons_received : Z;
  nb_beacons_expected : Z;
  nb_rssi_dbm : f32;
  nb_snr_db : f32;
  nb_advertised_neighbors : Z;
  nb_zone_radius : Z;
  nb_battery_percent : Z;
  nb_sleep_interval_s : Z;
  nb_awake_until : option Z;
  nb_attached : list Address;
  nb_attached_to_me : bool;
  nb_packets : Z;
  nb_failures : Z;
  nb_snr_floor_db : f32;
  nb_tx_attempts : Z;
  nb_tx_confirmed : Z
}.

Module Neighbor.
(** [Neighbor::new] followed by the assignment of [snr_floor_db]. *)
Definition new (addr : Address) (role : Role) (now : Z) (meta : RxMeta) (floor : f32) : Neighbor :=
  mkNeighbor addr role None now now None 0 0 (f32_of (rssi_dbm meta)) (snr_db meta) 0 0 255 0 None [] false 0 0 floor 0 0.

Definition set_failures (k : Z) (n : Neighbor) : Neighbor :=
  mkNeighbor (nb_addr n) (nb_role n) (nb_identity n) (nb_first_seen n) (nb_last_seen n) (nb_last_beacon_seq n)
    (nb_beacons_received n) (nb_beacons_expected n) (nb_rssi_dbm n) (nb_snr_db n) (nb_advertised_neighbors n)
    (nb_zone_radius n) (nb_battery_percent n) (nb_sleep_interval_s n) (nb_awake_until n) (nb_attached n)
    (nb_attached_to_me n) (nb_packets n) k (nb_snr_floor_db n) (nb_tx_attempts n) (nb_tx_confirmed n).

Definition set_tx (attempts confirmed : Z) (n : Neighbor) : Neighbor :=
  mkNeighbor (nb_addr n) (nb_role n) (nb_identity n) (nb_first_seen n) (nb_last_seen n) (nb_last_beacon_seq n)
    (nb_beacons_received n) (nb_beacons_expected n) (nb_rssi_dbm n) (nb_snr_db n) (nb_advertised_neighbors n)
    (nb_zone_radius n) (nb_battery_percent n) (nb_sleep_interval_s n) (nb_awake_until n) (nb_attached n)
    (nb_attached_to_me n) (nb_packets n) (nb_failures n) (nb_snr_floor_db n) attempts confirmed.

Definition delivery_ratio (n : Neighbor) : f32 :=
  f32_clamp ((f32_of (nb_beacons_received n) + f32_of 1) / (f32_of (nb_beacons_expected n) + f32_of 2))%f32 (lit 5 100) (f32_of 1).

Definition snr_margin_db (n : Neighbor) : f32 := (nb_snr_db n - nb_snr_floor_db n)%f32.

Definition etx (n : Neighbor) : f32 :=
  ((f32_of (nb_tx_attempts n) + f32_of 4) / (f32_of (nb_tx_confirmed n) + f32_of 4))%f32.

Definition link_quality (n : Neighbor) : Z :=
  let margin := f32_clamp (snr_margin_db n / f32_of 12)%f32 (f32_of 0) (f32_of 1) in
  let dr := delivery_ratio n in
  let fail := (f32_of 1 - f32_min (f32_of (nb_failures n) * lit 15 100) (lit 8 10))%f32 in
  let e := f32_clamp (f32_of 1 / etx n)%f32 (lit 1 10) (f32_of 1) in
  let q := ((lit 45 100 * margin + lit 35 100 * dr + lit 2 10 * e) * fail)%f32 in
  f32_to_u 8 (f32_clamp q (f32_of 0) (f32_of 1) * f32_of 255)%f32.

Definition record_tx_attempt (n : Neighbor) : Neighbor :=
  let a := sat_add 32 (nb_tx_attempts n) 1 in
  if decide (a > 200) then set_tx (a / 2) (nb_tx_confirmed n / 2) n else set_tx a (nb_tx_confirmed n) n.

Definition record_tx_confirmed (n : Neighbor) : Neighbor :=
  set_tx (nb_tx_attempts n) (Z.min (sat_add 32 (nb_tx_confirmed n) 1) (nb_tx_attempts n)) n.

Definition is_leaf (n : Neighbor) : bool := bool_decide (nb_role n = Leaf).

Definition is_sleeping (now : Z) (n : Neighbor) : bool :=
  is_leaf n && match nb_awake_until n with Some t => bool_decide (now > t) | None => true end.

(** The exponentially weighted averages of a reception. *)
Definition ewma (a old new : f32) : f32 := (old * (f32_of 1 - a) + new * a)%f32.

(** [(beacons_expected, beacons_received)] after a beacon numbered [seq]. *)
Definition beacon_stats (seq : Z) (n : Neighbor) : Z * Z :=
  match nb_last_beacon_seq n with
  | Some prev =>
      let gap := u16 (seq - prev) in
      if decide (gap = 0) then (nb_beacons_expected n, nb_beacons_received n)
      else if decide (gap < 64) then (u32 (nb_beacons_expected n + gap), u32 (nb_beacons_received n + 1))
      else (1, 1)
  | None => (1, 1)
  end.

(** The updates of [observe_beacon_as] once the beacon is accepted. *)
Definition refresh (a : f32) (now : Z) (b : Beacon) (meta : RxMeta) (me : option Address)
    (verified : option PublicIdentity) (n : Neighbor) : Neighbor :=
  let '(expected, received) := beacon_stats (bc_seq b) n in
  mkNeighbor (nb_addr n) (bc_role b)
    (match verified with Some _ => verified | None => nb_identity n end)
    (nb_first_seen n) now (Some (bc_seq b)) received expected
    (ewma a (nb_rssi_dbm n) (f32_of (rssi_dbm meta))) (ewma a (nb_snr_db n) (snr_db meta))
    (bc_neighbor_count b) (bc_zone_radius b) (bc_battery_percent b) (bc_sleep_interval_s b)
    (if bool_decide (bc_role b = Leaf) then Some (u64 (now + bc_awake_window_ms b)) else nb_awake_until n)
    (bc_attached b)
    (if bool_decide (bc_role b = Leaf)
     then match me with Some m => bool_decide (m ∈ bc_attached b) | None => false end
     else nb_attached_to_me n)
    (u32 (nb_packets n + 1)) (sat_sub (nb_failures n) 1) (nb_snr_floor_db n) (nb_tx_attempts n) (nb_tx_confirmed n).

(** The updates of [observe_packet]. *)
Definition hear (a : f32) (now : Z) (meta : RxMeta) (n : Neighbor) : Neighbor :=
  mkNeighbor (nb_addr n) (nb_role n) (nb_identity n) (nb_first_seen n) now (nb_last_beacon_seq n)
    (nb_beacons_received n) (nb_beacons_expected n)
    (ewma a (nb_rssi_dbm n) (f32_of (rssi_dbm meta))) (ewma a (nb_snr_db n) (snr_db meta))
    (nb_advertised_neighbors n) (nb_zone_radius n) (nb_battery_percent n) (nb_sleep_interval_s n)
    (if is_leaf n then Some (u64 (now + 2000)) else nb_awake_until n) (nb_attached n)
    (nb_attached_to_me n) (u32 (nb_packets n + 1)) (nb_failures n) (nb_snr_floor_db n) (nb_tx_attempts n) (nb_tx_confirmed n).
End Neighbor.

Record BeaconObservation := mkBeaconObservation { is_new : bool; identity_verified : bool; identity_rejected : bool }.

Record NeighborTable := mkNeighborTable {
  nt_cfg : NeighborConfig;
  nt_map : smallmap Address Neighbor;
  rejected_beacons : Z
}.
Definition set_neighbors (m : smallmap Address Neighbor) (t : NeighborTable) : NeighborTable :=
  mkNeighborTable (nt_cfg t) m (rejected_beacons t).
Definition count_rejected (t : NeighborTable) : NeighborTable :=
  mkNeighborTable (nt_cfg t) (nt_map t) (u32 (rejected_beacons t + 1)).

#[global] Instance PublicIdentity_eq_dec : EqDecision PublicIdentity.
Proof. solve_decision. Defined.

Module NeighborTable.
Definition new (cfg : NeighborConfig) : NeighborTable := mkNeighborTable cfg SmallMap.empty 0.
Definition len (t : NeighborTable) : Z := SmallMap.len (nt_map t).
Definition is_empty (t : NeighborTable) : bool := SmallMap.is_empty (nt_map t).
Definition get (a : Address) (t : NeighborTable) : option Neighbor := SmallMap.get (nt_map t) a.
Definition contains (a : Address) (t : NeighborTable) : bool := SmallMap.contains_key (nt_map t) a.
Definition iter (t : NeighborTable) : list Neighbor := SmallMap.values (nt_map t).
Definition addresses (t : NeighborTable) : list Address := SmallMap.keys (nt_map t).

Definition resolve_short (short : Z) (t : NeighborTable) : option Neighbor :=
  max_by_key Neighbor.link_quality (retain (fun n => bool_decide (addr_short (nb_addr n) = short)) (iter t)).

Definition timeout_ms (cfg : NeighborConfig) : Z :=
  u64 (u64 (beacon_interval_ms cfg + beacon_jitter_ms cfg) * timeout_intervals cfg).

(** Make room for a new neighbour: evict the worst link if it is poor; [None]
    when the table is full of good links. *)
Definition make_room (t : NeighborTable) : outcome Error (option (smallmap Address Neighbor)) :=
  if decide (len t >= max_neighbors (nt_cfg t)) then
    match nb_addr <$> min_by_key Neighbor.link_quality (iter t) with
    | Some worst =>
        w ← unwrap (SmallMap.get (nt_map t) worst);
        if decide (Neighbor.link_quality w < 64) then Ok (Some (SmallMap.remove (nt_map t) worst).1) else Ok None
    | None => Ok (Some (nt_map t))
    end
  else Ok (Some (nt_map t)).

Section Observe.
Context `{C : CryptoLib}.

(** The identity part of a beacon: [None] rejects it. *)
Definition check_identity (src : Address) (b : Beacon) : option (option PublicIdentity) :=
  match bc_full b with
  | None => Some None
  | Some f =>
      match pubid_from_bytes (fi_public_key f) with
      | Ok id =>
          if bool_decide (pi_address id = src) && is_ok (Beacon.verify_signature src id b) then Some (Some id) else None
      | _ => None
      end
  end.

Definition observe_beacon_as (now : Z) (src : Address) (b : Beacon) (meta : RxMeta) (me : option Address)
    (t : NeighborTable) : outcome Error (NeighborTable * BeaconObservation) :=
  match check_identity src b with
  | None => Ok (count_rejected t, mkBeaconObservation false false true)
  | Some verified =>
      let ver := match verified with Some _ => true | None => false end in
      let known := contains src t in
      room ← (if known then Ok (Some (nt_map t)) else make_room t);
      match room with
      | None => Ok (t, mkBeaconObservation false ver false)
      | Some m =>
          let m := if known then m
                   else (SmallMap.insert m src (Neighbor.new src (bc_role b) now meta (nc_snr_floor_db (nt_cfg t)))).1 in
          n ← unwrap (SmallMap.get m src);
          let clash := match nb_identity n, verified with
                       | Some k, Some v => negb (bool_decide (k = v))
                       | _, _ => false
                       end in
          if clash then Ok (count_rejected (set_neighbors m t), mkBeaconObservation (negb known) false true)
          else Ok (set_neighbors (SmallMap.update m src (Neighbor.refresh (ewma_alpha (nt_cfg t)) now b meta me verified)) t,
                   mkBeaconObservation (negb known) ver false)
      end
  end.

Definition observe_beacon (now : Z) (src : Address) (b : Beacon) (meta : RxMeta) (t : NeighborTable) :
    outcome Error (NeighborTable * BeaconObservation) := observe_beacon_as now src b meta None t.
End Observe.

Definition observe_packet (now : Z) (src : Address) (meta : RxMeta) (t : NeighborTable) : NeighborTable :=
  set_neighbors (SmallMap.update (nt_map t) src (Neighbor.hear (ewma_alpha (nt_cfg t)) now meta)) t.

Definition record_failure (next_hop : Address) (t : NeighborTable) : NeighborTable * bool :=
  match SmallMap.get (nt_map t) next_hop with
  | Some n =>
      let k := sat_add 8 (nb_failures n) 1 in
      (set_neighbors (SmallMap.update (nt_map t) next_hop (Neighbor.set_failures k)) t, bool_decide (k >= 4))
  | None => (t, false)
  end.

Definition record_success (next_hop : Address) (t : NeighborTable) : NeighborTable :=
  set_neighbors (SmallMap.update (nt_map t) next_hop (Neighbor.set_failures 0)) t.

Definition is_dead (cfg : NeighborConfig) (now : Z) (n : Neighbor) : bool :=
  let timeout := timeout_ms cfg in
  let announced := u64 (nb_sleep_interval_s n * 1000) in
  let t := if decide (announced > 0)
           then Z.max timeout (u64 (u64 (announced + beacon_jitter_ms cfg) * timeout_intervals cfg)) else timeout in
  bool_decide (sat_sub now (nb_last_seen n) > t).

Definition expire (now : Z) (t : NeighborTable) : NeighborTable * list Address :=
  let dead := nb_addr <$> retain (is_dead (nt_cfg t) now) (iter t) in
  (set_neighbors (SmallMap.remove_all dead (nt_map t)) t, dead).

Definition remove (a : Address) (t : NeighborTable) : NeighborTable * option Neighbor :=
  let '(m, old) := SmallMap.remove (nt_map t) a in (set_neighbors m t, old).

Definition is_anchor (n : Neighbor) : bool := bool_decide (nb_role n = Anchor).

Definition best_anchor (t : NeighborTable) : option Neighbor :=
  max_by_key Neighbor.link_quality (retain is_anchor (iter t)).

(** [(role == Anchor, link_quality)] with [false < true]. *)
Definition best_relay (t : NeighborTable) : option Neighbor :=
  max_by_key (fun n => (Z.b2z (is_anchor n), Neighbor.link_quality n))
    (retain (fun n => role_relays (nb_role n)) (iter t)).

Definition leaves (t : NeighborTable) : list Neighbor := retain Neighbor.is_leaf (iter t).

Definition best_host (t : NeighborTable) : option Neighbor :=
  max_by_key (fun n => Neighbor.link_quality n + (if is_anchor n then 60 else 0))
    (retain (fun n => role_relays (nb_role n)) (iter t)).

Definition hosted (n : Neighbor) : bool :=
  Neighbor.is_leaf n && (nb_attached_to_me n || bool_decide (nb_attached n = [])).

Definition hosted_leaves (t : NeighborTable) : list Neighbor := retain hosted (iter t).

Definition hosts (a : Address) (t : NeighborTable) : bool :=
  match SmallMap.get (nt_map t) a with Some n => hosted n | None => false end.
End NeighborTable.

(** ** Invariant *)

Module NeighborFacts.
Import NeighborTable.

Section Facts.
Context `{C : CryptoLib}.

(** An entry is filed under its own address, and an identity kept for it is one
    whose key hashes to that address. *)
Definition entry_valid (kn : Address * Neighbor) : Prop :=
  nb_addr kn.2 = kn.1 /\ forall id, nb_identity kn.2 = Some id -> pi_address id = kn.1 /\ pubid_ok id.

Definition table_ok (t : NeighborTable) : Prop :=
  SmallMapFacts.wf (nt_map t) /\ Forall entry_valid (nt_map t) /\ len t <= Z.max 1 (max_neighbors (nt_cfg t)).

Lemma table_keyed m : Forall entry_valid m -> SmallMapFacts.keyed nb_addr m.
Proof. unfold SmallMapFacts.keyed. rewrite !Forall_forall. intros Hm kn Hkn. by destruct (Hm kn Hkn). Qed.

Lemma update_table_ok f a t :
  (forall n, nb_addr (f n) = nb_addr n) -> (forall n, nb_identity (f n) = nb_identity n) ->
  table_ok t -> table_ok (set_neighbors (SmallMap.update (nt_map t) a f) t).
Proof.
  intros Hf Hid (Hwf & Hall & Hlen). split; [by apply SmallMapFacts.update_wf|]. split.
  - apply SmallMapFacts.Forall_update; [done..|]. intros n _ [H1 H2]. simpl in *. split; simpl; [by rewrite Hf|].
    intros id. rewrite Hid. apply H2.
  - unfold len. cbn [nt_map set_neighbors nt_cfg]. by rewrite SmallMapFacts.len_update.
Qed.

Lemma check_identity_ok src b v :
  check_identity src b = Some v ->
  match bc_full b, v with
  | None, None => True
  | Some f, Some id =>
      pubid_from_bytes (fi_public_key f) = Ok id /\ pi_address id = src /\ pubid_ok id /\
      Beacon.verify_signature src id b = Ok ()
  | _, _ => False
  end.
Proof.
  unfold check_identity. destruct (bc_full b) as [f|]; [|by intros [= <-]].
  destruct (pubid_from_bytes (fi_public_key f)) as [id|e|] eqn:E; [|done..].
  destruct (bool_decide _ && _) eqn:Eb; [|done]. intros [= <-]. apply andb_true_iff in Eb as [Ha Hv].
  split; [done|]. split; [by apply bool_decide_eq_true in Ha|]. split; [by apply pubid_from_bytes_inv in E as (_ & _ & _ & ?)|].
  by destruct (Beacon.verify_signature src id b) as [[]|e|].
Qed.

(** Making room never panics; it drops at most one neighbour, a poor one. *)
Lemma make_room_spec t :
  table_ok t ->
  make_room t = Ok None \/
  exists m, make_room t = Ok (Some m) /\ SmallMapFacts.wf m /\ Forall entry_valid m /\
    SmallMap.len m + 1 <= Z.max 1 (max_neighbors (nt_cfg t)) /\
    (forall a n, SmallMap.get m a = Some n -> get a t = Some n) /\
    (forall a n, get a t = Some n ->
       SmallMap.get m a = Some n \/
       SmallMap.get m a = None /\ Neighbor.link_quality n < 64 /\ max_neighbors (nt_cfg t) <= len t).
Proof.
  intros (Hwf & Hall & Hlen). unfold make_room. unfold len in *. case_decide as Hfull.
  2:{ right. exists (nt_map t). split; [done|]. split_and!; try done; [lia|]. intros a n ?. by left. }
  destruct (min_by_key Neighbor.link_quality (iter t)) as [w|] eqn:Ew; simpl.
  - assert (Hw : SmallMap.get (nt_map t) (nb_addr w) = Some w).
    { apply SmallMapFacts.keyed_values; [done|by apply table_keyed|]. by apply min_by_key_In in Ew. }
    rewrite Hw. cbn [unwrap mbind outcome_bind]. case_decide as Hq; [|by left]. right. eexists. split; [done|].
    split; [by apply SmallMapFacts.remove_wf|]. split; [by apply SmallMapFacts.Forall_remove|].
    split; [rewrite SmallMapFacts.len_remove, Hw by done; lia|]. unfold get. split.
    + intros a n. rewrite SmallMapFacts.get_remove by done. by destruct (kcmp (nb_addr w) a).
    + intros a n Ha. rewrite SmallMapFacts.get_remove by done. destruct (kcmp (nb_addr w) a) eqn:Ek; [|by left..].
      apply kcmp_eq in Ek as <-. right. rewrite Hw in Ha. injection Ha as <-. split; [done|]. split; [done|lia].
  - right. exists (nt_map t). apply min_by_key_None in Ew. assert (nt_map t = []) as Hn.
    { unfold iter, SmallMap.values in Ew. by destruct (nt_map t). }
    split; [done|]. split_and!; try done; [rewrite Hn; change (SmallMap.len []) with 0; lia|]. intros a n ?. by left.
Qed.

(** What a processed beacon may do to the entries already there. *)
Definition entries_kept (src : Address) (t t' : NeighborTable) : Prop :=
  forall a n id, get a t = Some n -> nb_identity n = Some id ->
    match get a t' with
    | Some n' => nb_identity n' = Some id
    | None => a <> src /\ Neighbor.link_quality n < 64 /\ max_neighbors (nt_cfg t) <= len t
    end.

Lemma refresh_addr a now b meta me v n : nb_addr (Neighbor.refresh a now b meta me v n) = nb_addr n.
Proof. unfold Neighbor.refresh. by destruct (Neighbor.beacon_stats (bc_seq b) n). Qed.

Lemma refresh_identity a now b meta me v n :
  nb_identity (Neighbor.refresh a now b meta me v n) = match v with Some _ => v | None => nb_identity n end.
Proof. unfold Neighbor.refresh. by destruct (Neighbor.beacon_stats (bc_seq b) n). Qed.

(** An accepted beacon: the entry of [src] in [m] takes the verified identity,
    which does not contradict the one it had. *)
Lemma refresh_ok src b now meta me v m (n : Neighbor) t :
  SmallMapFacts.wf m -> Forall entry_valid m -> SmallMap.get m src = Some n -> check_identity src b = Some v ->
  match nb_identity n, v with Some k, Some v => negb (bool_decide (k = v)) | _, _ => false end = false ->
  SmallMap.len m <= Z.max 1 (max_neighbors (nt_cfg t)) ->
  let t' := set_neighbors (SmallMap.update m src (Neighbor.refresh (ewma_alpha (nt_cfg t)) now b meta me v)) t in
  table_ok t' /\
  (forall id, nb_identity n = Some id -> exists n', get src t' = Some n' /\ nb_identity n' = Some id) /\
  forall a, a <> src -> get a t' = SmallMap.get m a.
Proof.
  intros Hwf Hall Hn Hv Hc Hlen t'. apply check_identity_ok in Hv. split; [|split].
  - split; [by apply SmallMapFacts.update_wf|]. split.
    + apply SmallMapFacts.Forall_update; [done..|]. intros n0 _ [H1 H2]. split; cbn [fst snd] in *; [by rewrite refresh_addr|].
      intros id. rewrite refresh_identity. destruct v as [v|]; [|apply H2]. intros [= <-].
      destruct (bc_full b); [|done]. destruct Hv as (_ & ? & ? & _). done.
    + unfold t', len. cbn [nt_map set_neighbors nt_cfg]. by rewrite SmallMapFacts.len_update.
  - intros id Hid. exists (Neighbor.refresh (ewma_alpha (nt_cfg t)) now b meta me v n). unfold t', get. cbn [nt_map set_neighbors].
    rewrite SmallMapFacts.get_update, kcmp_refl, Hn by done. split; [done|]. rewrite refresh_identity, Hid in *.
    destruct v; [|done]. apply negb_false_iff, bool_decide_eq_true in Hc. by subst.
  - intros a Ha. unfold t', get. cbn [nt_map set_neighbors]. rewrite SmallMapFacts.get_update by done.
    destruct (kcmp src a) eqn:E; [|done..]. apply kcmp_eq in E. congruence.
Qed.

Lemma observe_beacon_spec now src b meta me t :
  table_ok t ->
  exists t' obs, observe_beacon_as now src b meta me t = Ok (t', obs) /\ table_ok t' /\
    (identity_rejected obs = true -> nt_map t' = nt_map t /\ identity_verified obs = false) /\
    (identity_rejected obs = false -> is_Some (check_identity src b)) /\ entries_kept src t t'.
Proof.
  intros Hok. pose proof Hok as (Hwf & Hall & Hlen). unfold observe_beacon_as, entries_kept.
  assert (Hsame : forall a n id, get a t = Some n -> nb_identity n = Some id ->
    match get a t with Some n' => nb_identity n' = Some id
    | None => a <> src /\ Neighbor.link_quality n < 64 /\ max_neighbors (nt_cfg t) <= len t end).
  { intros a n id Ha Hid. by rewrite Ha. }
  destruct (check_identity src b) as [v|] eqn:Ev.
  2:{ eexists _, _. split; [done|]. split; [exact Hok|]. split; [done|]. split; [done|exact Hsame]. }
  assert (Hkc : contains src t = bool_decide (is_Some (get src t))) by (by apply SmallMapFacts.contains_key_get).
  rewrite Hkc. destruct (get src t) as [n|] eqn:En.
  - rewrite bool_decide_true by eauto. cbn [mbind outcome_bind]. unfold get in En. rewrite En. cbn [unwrap mbind outcome_bind].
    destruct (match nb_identity n, v with Some k, Some v => _ | _, _ => _ end) eqn:Ec.
    { eexists _, _. split; [done|]. split; [exact Hok|]. split; [done|]. split; [done|exact Hsame]. }
    destruct (refresh_ok src b now meta me v (nt_map t) n t) as (H1 & H2 & H3); [done..|].
    eexists _, _. split; [done|]. split; [exact H1|]. split; [done|]. split; [by eauto|].
    intros a m id Ha Hid. destruct (decide (a = src)) as [->|Hne].
    + unfold get in Ha. rewrite En in Ha. injection Ha as <-. destruct (H2 id Hid) as (n' & -> & ?). done.
    + rewrite (H3 a Hne). unfold get in Ha. by rewrite Ha.
  - rewrite bool_decide_false by (by intros []). destruct (make_room_spec t Hok) as [->|(m & -> & Hm & Hma & Hml & Hsub & Hkeep)].
    { eexists _, _. split; [done|]. split; [exact Hok|]. split; [done|]. split; [by eauto|exact Hsame]. }
    cbn [mbind outcome_bind]. set (nb := Neighbor.new src (bc_role b) now meta (nc_snr_floor_db (nt_cfg t))).
    rewrite SmallMapFacts.get_insert_eq by done. cbn [unwrap mbind outcome_bind nb_identity nb Neighbor.new].
    assert (Hmiss : SmallMap.get m src = None).
    { destruct (SmallMap.get m src) eqn:E; [|done]. apply Hsub in E. congruence. }
    destruct (refresh_ok src b now meta me v (SmallMap.insert m src nb).1 nb t) as (H1 & _ & H3).
    { by apply SmallMapFacts.insert_wf. }
    { apply SmallMapFacts.Forall_insert; [done..|]. by split. }
    { by apply SmallMapFacts.get_insert_eq. }
    { done. }
    { done. }
    { rewrite SmallMapFacts.len_insert, Hmiss by done. lia. }
    eexists _, _. split; [done|]. split; [exact H1|]. split; [done|]. split; [by eauto|].
    intros a n id Ha Hid. assert (Hne : a <> src) by congruence. rewrite (H3 a Hne), SmallMapFacts.get_insert by done.
    destruct (kcmp src a) eqn:Ek; [apply kcmp_eq in Ek; congruence| |];
      (destruct (Hkeep a n Ha) as [->|(-> & ? & ?)]; [done|by split_and!]).
Qed.

Lemma expire_spec now t :
  table_ok t ->
  table_ok (expire now t).1 /\
  forall a, get a (expire now t).1 =
      match get a t with Some n => if is_dead (nt_cfg t) now n then None else Some n | None => None end /\
    (a ∈ (expire now t).2 <-> exists n, get a t = Some n /\ is_dead (nt_cfg t) now n = true).
Proof.
  intros (Hwf & Hall & Hlen). pose proof (table_keyed _ Hall) as Hk. unfold expire. cbn [fst snd].
  set (dead := nb_addr <$> _). destruct (SmallMapFacts.remove_all_spec dead (nt_map t) Hwf) as (H1 & H2 & _). split.
  - split; [done|]. split; [by apply SmallMapFacts.Forall_remove_all|]. unfold len in *. simpl. lia.
  - intros a. split; [by apply SmallMapFacts.remove_selected|]. unfold dead. rewrite list_elem_of_fmap. split.
    + intros (n & -> & [Hd Hn]%elem_of_retain). exists n. split; [|done]. by apply SmallMapFacts.keyed_values.
    + intros (n & Hn & Hd). exists n. pose proof (SmallMapFacts.keyed_get _ _ _ _ Hwf Hk Hn) as <-.
      split; [done|]. apply elem_of_retain. split; [done|]. by apply (SmallMapFacts.keyed_values nb_addr).
Qed.

Inductive nop :=
  | ObserveBeacon (now : Z) (src : Address) (b : Beacon) (meta : RxMeta) (me : option Address)
  | ObservePacket (now : Z) (src : Address) (meta : RxMeta)
  | Failure (a : Address) | Success (a : Address) | Attempt (a : Address) | Confirm (a : Address)
  | Expire (now : Z) | Remove (a : Address).

Definition run_nop (o : nop) (t : NeighborTable) : outcome Error NeighborTable :=
  match o with
  | ObserveBeacon now src b meta me => '(t', _) ← observe_beacon_as now src b meta me t; Ok t'
  | ObservePacket now src meta => Ok (observe_packet now src meta t)
  | Failure a => Ok (record_failure a t).1
  | Success a => Ok (record_success a t)
  | Attempt a => Ok (set_neighbors (SmallMap.update (nt_map t) a Neighbor.record_tx_attempt) t)
  | Confirm a => Ok (set_neighbors (SmallMap.update (nt_map t) a Neighbor.record_tx_confirmed) t)
  | Expire now => Ok (expire now t).1
  | Remove a => Ok (remove a t).1
  end.

Fixpoint run_nops (ops : list nop) (t : NeighborTable) : outcome Error NeighborTable :=
  match ops with
  | [] => Ok t
  | o :: ops' => t' ← run_nop o t; run_nops ops' t'
  end.

Lemma run_nop_ok o t : table_ok t -> exists t', run_nop o t = Ok t' /\ table_ok t' /\ nt_cfg t' = nt_cfg t.
Proof.
  intros Hok. pose proof Hok as (Hwf & Hall & Hlen). destruct o; cbn [run_nop].
  - destruct (observe_beacon_spec now src b meta me t Hok) as (t' & obs & Hr & Hok' & _).
    rewrite Hr. exists t'. split; [done|]. split; [done|]. revert Hr. unfold observe_beacon_as.
    destruct (check_identity src b); [|by intros [= <- _]]. intros ([m|] & _ & Hr)%bind_ok; [|by injection Hr as <- _].
    apply bind_ok in Hr as (n & _ & Hr). destruct (match nb_identity n, _ with Some _, Some _ => _ | _, _ => _ end) in Hr; by injection Hr as <- _.
  - eexists. split; [done|]. split; [by apply update_table_ok|done].
  - eexists. split; [done|]. unfold record_failure. destruct (SmallMap.get _ _); [split; [by apply update_table_ok|done]|done].
  - eexists. split; [done|]. split; [by apply update_table_ok|done].
  - eexists. split; [done|]. split; [|done].
    apply update_table_ok; [intros n; unfold Neighbor.record_tx_attempt; by case_decide..|done].
  - eexists. split; [done|]. split; [by apply update_table_ok|done].
  - eexists. split; [done|]. split; [by apply expire_spec|done].
  - eexists. split; [done|]. unfold remove. destruct (SmallMap.remove (nt_map t) a) as [m old] eqn:E.
    replace m with (SmallMap.remove (nt_map t) a).1 by (by rewrite E). split; [|done].
    split; [by apply SmallMapFacts.remove_wf|]. split; [by apply SmallMapFacts.Forall_remove|].
    unfold len in *. simpl. rewrite SmallMapFacts.len_remove by done. destruct (SmallMap.get (nt_map t) a); lia.
Qed.

Lemma run_nops_ok ops t : table_ok t -> exists t', run_nops ops t = Ok t' /\ table_ok t' /\ nt_cfg t' = nt_cfg t.
Proof.
  revert t. induction ops as [|o ops IH]; intros t Hok; [by exists t|]. simpl.
  destruct (run_nop_ok o t Hok) as (t1 & -> & H1 & H2). cbn [mbind outcome_bind].
  destruct (IH t1 H1) as (t2 & Hr & H3 & H4). exists t2. split; [done|]. split; [done|congruence].
Qed.

Lemma new_table_ok cfg : table_ok (new cfg).
Proof. split; [apply SmallMapFacts.empty_wf|]. split; [constructor|]. change (len (new cfg)) with 0. lia. Qed.

(** The neighbour table under any sequence of beacons, packets, delivery
    reports and timeouts: no operation panics; there are never more than
    [max_neighbors] entries (at least one), each filed under its address; a
    kept identity always hashes to the address it is kept for; and expiry
    removes and reports exactly the neighbours silent for too long. *)
Theorem neighbor_table_invariant (cfg : NeighborConfig) (ops : list nop) (now : Z) (a : Address) :
  exists t, run_nops ops (new cfg) = Ok t /\ table_ok t /\ len t <= Z.max 1 (max_neighbors cfg) /\
    get a (expire now t).1 =
      match get a t with Some n => if is_dead cfg now n then None else Some n | None => None end /\
    (a ∈ (expire now t).2 <-> exists n, get a t = Some n /\ is_dead cfg now n = true).
Proof.
  pose proof (new_table_ok cfg) as H0.
  destruct (run_nops_ok ops _ H0) as (t & Hr & Hok & Hcfg). change (nt_cfg (new cfg)) with cfg in Hcfg.
  exists t. split; [done|]. split; [done|]. rewrite <- Hcfg. split; [by destruct Hok as (_ & _ & ?)|].
  by apply expire_spec.
Qed.

(** Identities are pinned: processing a beacon never panics, and a beacon
    with an identity part is used only if its key hashes to the sender address
    and its signature verifies; a rejected beacon leaves all neighbours as they
    were; and an identity once verified is never replaced by another one (its
    entry can only leave the table, to make room, when the table is full and
    its link poor, and never because of a beacon in its own name). *)
Theorem beacon_identity_pinned (now : Z) (src : Address) (b : Beacon) (meta : RxMeta) (me : option Address) (t : NeighborTable) :
  table_ok t ->
  exists t' obs, observe_beacon_as now src b meta me t = Ok (t', obs) /\ table_ok t' /\
    (identity_rejected obs = true -> nt_map t' = nt_map t /\ identity_verified obs = false) /\
    (forall f, bc_full b = Some f -> identity_rejected obs = false ->
       exists id, pubid_from_bytes (fi_public_key f) = Ok id /\ pi_address id = src /\
         Beacon.verify_signature src id b = Ok ()) /\
    entries_kept src t t'.
Proof.
  intros Hok. destruct (observe_beacon_spec now src b meta me t Hok) as (t' & obs & H1 & H2 & H3 & H4 & H5).
  exists t', obs. split; [done|]. split; [done|]. split; [done|]. split; [|done].
  intros f Hf Hr. destruct (H4 Hr) as [v Hv]. apply check_identity_ok in Hv. rewrite Hf in Hv.
  destruct v as [id|]; [|done]. destruct Hv as (? & ? & _ & ?). eauto.
Qed.
End Facts.

(** A concrete table: a signed beacon pins an identity, and a beacon signed
    with another key in the same name is rejected. *)
Definition ex_meta : RxMeta := mkRxMeta (-90) (f32_of 5) 0 0.
Definition ex_beacon_of (seed : list Z) : Beacon :=
  match from_seed (C := ToyCrypto.lib) seed with
  | Ok id => Beacon.full (C := ToyCrypto.lib) id Normal 1 2 3 99
  | _ => Beacon.short Normal 1 2 3
  end.
Definition ex_src : Address := from_public_key (C := ToyCrypto.lib) (ToyCrypto.pub [1; 2; 3]).
Definition ex_table : NeighborTable :=
  match run_nops (C := ToyCrypto.lib) [ObserveBeacon 0 ex_src (ex_beacon_of [1; 2; 3]) ex_meta None] (new NeighborConfig_default) with
  | Ok t => t
  | _ => new NeighborConfig_default
  end.

Lemma ex_table_ok : table_ok (C := ToyCrypto.lib) ex_table.
Proof.
  unfold ex_table. destruct (run_nops_ok (C := ToyCrypto.lib) [ObserveBeacon 0 ex_src (ex_beacon_of [1; 2; 3]) ex_meta None]
    (new NeighborConfig_default) (new_table_ok _)) as (t & -> & Hok & _). exact Hok.
Qed.

Lemma beacon_identity_pinned_witness :
  is_Some (get ex_src ex_table ≫= nb_identity) /\
  exists t' obs, observe_beacon_as (C := ToyCrypto.lib) 9 ex_src (ex_beacon_of [4; 5; 6]) ex_meta None ex_table = Ok (t', obs) /\
    nt_map t' = nt_map ex_table.
Proof.
  split; [vm_compute; eexists; reflexivity|].
  destruct (beacon_identity_pinned (C := ToyCrypto.lib) 9 ex_src (ex_beacon_of [4; 5; 6]) ex_meta None ex_table ex_table_ok)
    as (t' & obs & H1 & _ & H2 & _).
  exists t', obs. split; [exact H1|]. apply H2.
  assert (H3 : (snd <$> match observe_beacon_as (C := ToyCrypto.lib) 9 ex_src (ex_beacon_of [4; 5; 6]) ex_meta None ex_table with
    Ok r => Some r | _ => None end) = Some (mkBeaconObservation false false true)) by (vm_compute; reflexivity).
  rewrite H1 in H3. injection H3 as ->. reflexivity.
Defined.
End NeighborFacts.
