(* ===== verification/Zone.v ===== *)
(** * Intra-zone routing table

    [crates/meshstar-core/src/zrp/zone.rs]: the bounded distance vector each
    node keeps of its zone, merged from the beacons of its neighbours. *)
From stdpp Require Import base tactics list numbers.
From Stdlib Require Import Lia.
From S2P Require Import Prelude SmallMap Float32 Protocol Packet CryptoLib Identity Beacon Radio Neighbor Routing.

Record ZoneNode := mkZoneNode {
  zn_addr : Address; zn_distance : Z; zn_next_hop : Address; zn_quality : Z; zn_flags : Z; zn_updated_at : Z
}.

Module ZoneNode.
Definition is_leaf (n : ZoneNode) : bool := has_flag (zn_flags n) zflags.LEAF.
Definition is_anchor (n : ZoneNode) : bool := has_flag (zn_flags n) zflags.ANCHOR.
Definition is_sleeping (n : ZoneNode) : bool := has_flag (zn_flags n) zflags.SLEEPING.
Definition cost (n : ZoneNode) : Z := u32 (zn_distance n * link_cost (zn_quality n) 0).
End ZoneNode.

Record ZoneTable := mkZoneTable {
  zt_radius : Z;
  zt_max_entries : Z;
  zt_entry_ttl_ms : Z;
  zt_nodes : smallmap Address ZoneNode;
  zt_adjacency : smallmap Address (list Address)
}.
Definition set_nodes (m : smallmap Address ZoneNode) (t : ZoneTable) : ZoneTable :=
  mkZoneTable (zt_radius t) (zt_max_entries t) (zt_entry_ttl_ms t) m (zt_adjacency t).
Definition set_adjacency (m : smallmap Address (list Address)) (t : ZoneTable) : ZoneTable :=
  mkZoneTable (zt_radius t) (zt_max_entries t) (zt_entry_ttl_ms t) (zt_nodes t) m.

(** [it.cycle().skip(start).take(n)] on a list that is not empty. *)
Fixpoint cycle_from {A} (v : list A) (start : nat) (n : nat) : list A :=
  match n with
  | O => []
  | S n' => match v !! (start mod length v)%nat with
            | Some x => x :: cycle_from v (S start) n'
            | None => []
            end
  end.

Module ZoneTable.
Definition new (radius max_entries entry_ttl_ms : Z) : ZoneTable :=
  mkZoneTable (Z.max 1 (Z.min radius 4)) max_entries entry_ttl_ms SmallMap.empty SmallMap.empty.
Definition radius (t : ZoneTable) : Z := zt_radius t.
Definition len (t : ZoneTable) : Z := SmallMap.len (zt_nodes t).
Definition is_empty (t : ZoneTable) : bool := SmallMap.is_empty (zt_nodes t).
Definition get (a : Address) (t : ZoneTable) : option ZoneNode := SmallMap.get (zt_nodes t) a.
Definition contains (a : Address) (t : ZoneTable) : bool := SmallMap.contains_key (zt_nodes t) a.
Definition iter (t : ZoneTable) : list ZoneNode := SmallMap.values (zt_nodes t).

Definition merge (now : Z) (cand : ZoneNode) (t : ZoneTable) : ZoneTable :=
  let ins := set_nodes (SmallMap.insert (zt_nodes t) (zn_addr cand) cand).1 t in
  match SmallMap.get (zt_nodes t) (zn_addr cand) with
  | Some cur =>
      if bool_decide (zn_next_hop cur <> zn_next_hop cand) then
        let stale := bool_decide (sat_sub now (zn_updated_at cur) > zt_entry_ttl_ms t / 2) in
        if bool_decide (ZoneNode.cost cand < ZoneNode.cost cur) || stale then ins else t
      else ins
  | None => ins
  end.

(** The farthest, then worst, entry goes first.  [fuel] is the length of the
    map: every round removes an entry. *)
Definition worst_key (n : ZoneNode) : Z * Z := (zn_distance n, U8_MAX - zn_quality n).
Fixpoint enforce_loop (fuel : nat) (max_entries : Z) (m : smallmap Address ZoneNode) : smallmap Address ZoneNode :=
  match fuel with
  | O => m
  | S fuel' =>
      if decide (SmallMap.len m > max_entries) then
        match zn_addr <$> max_by_key worst_key (SmallMap.values m) with
        | Some victim => enforce_loop fuel' max_entries (SmallMap.remove m victim).1
        | None => m
        end
      else m
  end.
Definition enforce_bound (t : ZoneTable) : ZoneTable :=
  set_nodes (enforce_loop (length (zt_nodes t)) (zt_max_entries t) (zt_nodes t)) t.

(** What [update_from_beacon] records of the sender itself. *)
Definition direct_node (now : Z) (n : Neighbor) (from : Address) : ZoneNode :=
  let flags := 0 in
  let flags := if Neighbor.is_leaf n then Z.lor flags zflags.LEAF else flags in
  let flags := if bool_decide (nb_role n = Anchor) then Z.lor flags zflags.ANCHOR else flags in
  mkZoneNode from 1 from (Neighbor.link_quality n) flags now.

Definition merge_attached (now : Z) (me from : Address) (lq : Z) (t : ZoneTable) (a : Address) : ZoneTable :=
  if bool_decide (a = me) then t
  else merge now (mkZoneNode a 2 from lq (Z.lor zflags.LEAF zflags.SLEEPING) now) t.

Definition merge_entry (now : Z) (me from : Address) (lq : Z) (t : ZoneTable) (e : ZoneEntry) : ZoneTable :=
  if bool_decide (ze_addr e = me) then t else
  let d := sat_add 8 (ze_distance e) 1 in
  if decide (d > zt_radius t) then t
  else merge now (mkZoneNode (ze_addr e) d from (Z.min (ze_quality e) lq) (ze_flags e) now) t.

Definition update_from_beacon (now : Z) (me : Address) (neighbors : NeighborTable) (from : Address)
    (entries : list ZoneEntry) (attached : list Address) (t : ZoneTable) : ZoneTable :=
  match NeighborTable.get from neighbors with
  | None => t
  | Some n =>
      let lq := Neighbor.link_quality n in
      let t := merge now (direct_node now n from) t in
      let adj := (ze_addr <$> retain (fun e => bool_decide (ze_distance e = 1)) entries) ++ attached in
      let t := set_adjacency (SmallMap.insert (zt_adjacency t) from adj).1 t in
      let t := foldl (merge_attached now me from lq) t attached in
      let t := foldl (merge_entry now me from lq) t entries in
      enforce_bound t
  end.

Definition via (neighbor : Address) (n : ZoneNode) : bool := bool_decide (zn_next_hop n = neighbor).

Definition remove_via (neighbor : Address) (t : ZoneTable) : ZoneTable * list Address :=
  let gone := zn_addr <$> retain (via neighbor) (iter t) in
  let t := set_nodes (SmallMap.remove_all gone (zt_nodes t)) t in
  (set_adjacency (SmallMap.remove (zt_adjacency t) neighbor).1 t, gone).

Definition fresh (ttl now : Z) (n : ZoneNode) : bool := bool_decide (sat_sub now (zn_updated_at n) <= ttl).

Definition expire (now : Z) (t : ZoneTable) : ZoneTable * Z :=
  let before := len t in
  let t := set_nodes (SmallMap.retain (fun _ n => fresh (zt_entry_ttl_ms t) now n) (zt_nodes t)) t in
  let t := set_adjacency (SmallMap.retain (fun a _ => SmallMap.contains_key (zt_nodes t) a) (zt_adjacency t)) t in
  (t, before - len t).

Definition advertised (n : ZoneNode) : ZoneEntry := mkZoneEntry (zn_addr n) (zn_distance n) (zn_quality n) (zn_flags n).

(** The [filter] of [advertisement]. *)
Definition eligible (t : ZoneTable) : list ZoneNode :=
  retain (fun n => bool_decide (zn_distance n < Z.max (zt_radius t) 2)) (iter t).

(** [round : u32], the number of beacons sent so far. *)
Definition advertisement (max round : Z) (t : ZoneTable) : list ZoneEntry :=
  let round := u32 round in
  let v := eligible t in
  if decide (v = [] \/ max = 0) then [] else
  let v := sort_by_key v zn_addr in
  let len := zlen v in
  let windows := (len + max - 1) / max in
  let start := usize ((round mod windows) * max) in
  advertised <$> cycle_from v (Z.to_nat start) (Z.to_nat (Z.min max len)).

Definition neighbors_of (node : Address) (t : ZoneTable) : option (list Address) := SmallMap.get (zt_adjacency t) node.

(** The loop over the neighbours: [None] once one is not covered, otherwise
    whether a relaying one was met. *)
Fixpoint covered_loop (transmitter : Address) (adj : list Address) (ns : list Neighbor) (any : bool) : option bool :=
  match ns with
  | [] => Some any
  | n :: ns' =>
      if negb (role_relays (nb_role n)) || bool_decide (nb_addr n = transmitter)
      then covered_loop transmitter adj ns' any
      else if bool_decide (nb_addr n ∈ adj) then covered_loop transmitter adj ns' true else None
  end.

Definition covered_by (transmitter : Address) (neighbors : NeighborTable) (t : ZoneTable) : bool :=
  match SmallMap.get (zt_adjacency t) transmitter with
  | None => false
  | Some adj =>
      match covered_loop transmitter adj (NeighborTable.iter neighbors) false with
      | None => false
      | Some any =>
          any || forallb (fun n => bool_decide (nb_addr n = transmitter) || negb (role_relays (nb_role n)))
                   (NeighborTable.iter neighbors)
      end
  end.

Definition anchor_for (leaf : Address) (t : ZoneTable) : option Address :=
  n ← SmallMap.get (zt_nodes t) leaf;
  if ZoneNode.is_leaf n && bool_decide (zn_distance n >= 2) && ZoneNode.is_sleeping n then
    via ← SmallMap.get (zt_nodes t) (zn_next_hop n);
    if negb (ZoneNode.is_leaf via) then Some (zn_addr via) else None
  else None.
End ZoneTable.

(** ** Invariant *)

Module ZoneFacts.
Import ZoneTable.

(** An entry is filed under its address, at a distance within the zone (or two
    hops, for a leaf behind its host); a direct neighbour is its own next hop. *)
Definition node_ok (r : Z) (me : Address) (kn : Address * ZoneNode) : Prop :=
  zn_addr kn.2 = kn.1 /\ kn.1 <> me /\ 1 <= zn_distance kn.2 <= Z.max r 2 /\ byte_ok (zn_quality kn.2) /\
  (zn_distance kn.2 = 1 -> zn_next_hop kn.2 = kn.1).

Definition zone_ok (me : Address) (t : ZoneTable) : Prop :=
  SmallMapFacts.wf (zt_nodes t) /\ SmallMapFacts.wf (zt_adjacency t) /\ Forall (node_ok (zt_radius t) me) (zt_nodes t) /\
  1 <= zt_radius t <= 4.

Lemma zone_keyed r me m : Forall (node_ok r me) m -> SmallMapFacts.keyed zn_addr m.
Proof. unfold SmallMapFacts.keyed. rewrite !Forall_forall. intros Hm kn Hkn. by destruct (Hm kn Hkn). Qed.

Definition same_shape (t t' : ZoneTable) : Prop :=
  zt_radius t' = zt_radius t /\ zt_max_entries t' = zt_max_entries t /\ zt_entry_ttl_ms t' = zt_entry_ttl_ms t.

Lemma merge_ok me now cand t :
  zone_ok me t -> node_ok (zt_radius t) me (zn_addr cand, cand) -> zone_ok me (merge now cand t) /\ same_shape t (merge now cand t).
Proof.
  intros (H1 & H2 & H3 & H4) Hc.
  assert (Hi : zone_ok me (set_nodes (SmallMap.insert (zt_nodes t) (zn_addr cand) cand).1 t)).
  { split; [by apply SmallMapFacts.insert_wf|]. split; [done|]. split; [|done]. by apply SmallMapFacts.Forall_insert. }
  unfold merge. destruct (SmallMap.get _ _); [|by split]. case_bool_decide; [|by split].
  destruct (_ || _); by split.
Qed.

Lemma link_quality_byte n : byte_ok (Neighbor.link_quality n).
Proof. unfold Neighbor.link_quality. apply f32_to_u_range. lia. Qed.

Lemma foldl_zone_ok {A} (f : ZoneTable -> A -> ZoneTable) (l : list A) (P : A -> Prop) me t :
  (forall t x, P x -> zone_ok me t -> zone_ok me (f t x) /\ same_shape t (f t x)) ->
  Forall P l -> zone_ok me t -> zone_ok me (foldl f t l) /\ same_shape t (foldl f t l).
Proof.
  intros Hf Hl. revert t. induction Hl as [|x l Hx Hl IH]; intros t Hok; simpl; [done|].
  destruct (Hf t x Hx Hok) as [H1 (S1 & S2 & S3)]. destruct (IH _ H1) as [H2 (S4 & S5 & S6)].
  split; [done|]. unfold same_shape in *. repeat split; congruence.
Qed.

Lemma merge_attached_ok me now from lq t a :
  byte_ok lq -> zone_ok me t ->
  zone_ok me (merge_attached now me from lq t a) /\ same_shape t (merge_attached now me from lq t a).
Proof.
  intros Hlq Hok. unfold merge_attached. case_bool_decide; [done|]. apply merge_ok; [done|].
  split; [done|]. split; [done|]. split; [simpl; lia|]. split; [exact Hlq|]. simpl. lia.
Qed.

Lemma merge_entry_ok me now from lq t e :
  byte_ok lq -> 1 <= ze_distance e <= 255 -> byte_ok (ze_quality e) -> zone_ok me t ->
  zone_ok me (merge_entry now me from lq t e) /\ same_shape t (merge_entry now me from lq t e).
Proof.
  intros Hlq Hd Hq Hok. unfold merge_entry. case_bool_decide; [done|]. case_decide as Hr; [done|].
  unfold sat_add in *. change (2 ^ 8 - 1) with 255 in *. apply merge_ok; [done|].
  split; [done|]. split; [done|]. unfold byte_ok, in_u in *. split; [cbn [snd zn_distance]; lia|].
  split; [cbn [snd zn_quality]; lia|]. cbn [snd zn_distance]. lia.
Qed.

Lemma enforce_loop_spec r me max fuel (m : smallmap Address ZoneNode) :
  SmallMapFacts.wf m -> Forall (node_ok r me) m -> (length m <= fuel)%nat -> 0 <= max ->
  let m' := enforce_loop fuel max m in
  SmallMapFacts.wf m' /\ Forall (node_ok r me) m' /\ SmallMap.len m' <= max /\
  (SmallMap.len m <= max -> m' = m) /\
  forall a n, SmallMap.get m' a = Some n -> SmallMap.get m a = Some n.
Proof.
  revert m. induction fuel as [|fuel IH]; intros m Hwf Hall Hf Hmax; cbn [enforce_loop]; cbn zeta.
  { destruct m; [|simpl in Hf; lia]. split_and!; try done. }
  case_decide as Hlen; [|split_and!; try done; lia].
  destruct (max_by_key worst_key (SmallMap.values m)) as [v|] eqn:Ev; simpl.
  - apply max_by_key_In in Ev. apply (SmallMapFacts.keyed_values zn_addr) in Ev; [|done|by eapply zone_keyed].
    pose proof (SmallMapFacts.len_remove m (zn_addr v) Hwf) as Hl. rewrite Ev in Hl. unfold SmallMap.len, zlen in Hl.
    destruct (IH (SmallMap.remove m (zn_addr v)).1) as (H1 & H2 & H3 & _ & H5);
      [by apply SmallMapFacts.remove_wf|by apply SmallMapFacts.Forall_remove|lia|done|].
    split; [done|]. split; [done|]. split; [done|]. split; [lia|]. intros a n Ha. apply H5 in Ha.
    rewrite SmallMapFacts.get_remove in Ha by done. by destruct (kcmp (zn_addr v) a).
  - apply max_by_key_None in Ev. unfold SmallMap.values in Ev. destruct m; [|done].
    change (SmallMap.len []) with 0 in Hlen. lia.
Qed.

Lemma update_zone_ok me now nbs from entries attached t :
  zone_ok me t -> from <> me -> 0 <= zt_max_entries t ->
  Forall (fun e => 1 <= ze_distance e <= 255 /\ byte_ok (ze_quality e)) entries ->
  let t' := update_from_beacon now me nbs from entries attached t in
  zone_ok me t' /\ same_shape t t' /\ (is_Some (NeighborTable.get from nbs) -> len t' <= zt_max_entries t).
Proof.
  intros Hok Hne Hmax He. unfold update_from_beacon. destruct (NeighborTable.get from nbs) as [n|]; cbn zeta.
  2:{ split; [done|]. split; [done|]. by intros []. }
  pose proof (link_quality_byte n) as Hlq.
  destruct (merge_ok me now (direct_node now n from) t) as [H1 S1]; [done| |].
  { split; [done|]. split; [done|]. split; [simpl; lia|]. split; [exact Hlq|done]. }
  set (t1 := merge now _ t) in *.
  set (t2 := set_adjacency _ t1). assert (H2 : zone_ok me t2).
  { destruct H1 as (? & ? & ? & ?). split; [done|]. split; [by apply SmallMapFacts.insert_wf|by split]. }
  destruct (foldl_zone_ok (merge_attached now me from (Neighbor.link_quality n)) attached (fun _ => True) me t2) as [H3 S3].
  { intros t0 x _ ?. by apply merge_attached_ok. }
  { by apply Forall_true. }
  { done. }
  set (t3 := foldl _ t2 attached) in *.
  destruct (foldl_zone_ok (merge_entry now me from (Neighbor.link_quality n)) entries _ me t3
    (fun t0 x Hx Ht0 => merge_entry_ok me now from _ t0 x Hlq (proj1 Hx) (proj2 Hx) Ht0) He H3) as [H4 S4].
  set (t4 := foldl _ t3 entries) in *. unfold same_shape in *. destruct S1 as (? & ? & ?), S3 as (S31 & S32 & S33), S4 as (? & ? & ?).
  change (zt_radius t2) with (zt_radius t1) in S31. change (zt_max_entries t2) with (zt_max_entries t1) in S32.
  change (zt_entry_ttl_ms t2) with (zt_entry_ttl_ms t1) in S33.
  destruct H4 as (Hw & Ha & Hn & Hr). unfold enforce_bound.
  destruct (enforce_loop_spec (zt_radius t4) me (zt_max_entries t4) (length (zt_nodes t4)) (zt_nodes t4)) as (E1 & E2 & E3 & _);
    [done..|congruence|].
  split; [split; [done|]; split; [done|]; split; [done|done]|]. split; [cbn; repeat split; congruence|].
  intros _. unfold len. cbn [set_nodes zt_nodes]. replace (zt_max_entries t) with (zt_max_entries t4) by congruence. exact E3.
Qed.

Lemma remove_via_ok me x t :
  zone_ok me t ->
  zone_ok me (remove_via x t).1 /\ same_shape t (remove_via x t).1 /\ len (remove_via x t).1 <= len t /\
  forall a, get a (remove_via x t).1 =
    match get a t with Some n => if via x n then None else Some n | None => None end.
Proof.
  intros (H1 & H2 & H3 & H4). pose proof (zone_keyed _ _ _ H3) as Hk. unfold remove_via. cbn [fst snd].
  set (gone := zn_addr <$> _). destruct (SmallMapFacts.remove_all_spec gone (zt_nodes t) H1) as (E1 & E2 & _).
  split; [|split; [done|split; [exact E2|]]].
  - split; [done|]. split; [by apply SmallMapFacts.remove_wf|]. split; [by apply SmallMapFacts.Forall_remove_all|done].
  - intros a. by apply (SmallMapFacts.remove_selected zn_addr).
Qed.

Lemma expire_zone_ok me now t :
  zone_ok me t -> zone_ok me (expire now t).1 /\ same_shape t (expire now t).1 /\ len (expire now t).1 <= len t.
Proof.
  intros (H1 & H2 & H3 & H4). unfold expire. cbn [fst snd]. split; [|split; [done|apply SmallMapFacts.len_retain]].
  split; [by apply SmallMapFacts.retain_wf|]. split; [by apply SmallMapFacts.retain_wf|]. split; [|done].
  by apply Forall_retain.
Qed.

Inductive zop :=
  | Update (now : Z) (nbs : NeighborTable) (from : Address) (entries : list ZoneEntry) (attached : list Address)
  | RemoveVia (a : Address)
  | Expire (now : Z).
Definition run_zop (me : Address) (t : ZoneTable) (o : zop) : ZoneTable :=
  match o with
  | Update now nbs from entries attached => update_from_beacon now me nbs from entries attached t
  | RemoveVia a => (remove_via a t).1
  | Expire now => (expire now t).1
  end.
(** Beacons come from other nodes, with the entries their decoder admits. *)
Definition zop_ok (me : Address) (o : zop) : Prop :=
  match o with
  | Update now nbs from entries attached => from <> me /\ Forall BeaconFacts.entry_ok entries
  | _ => True
  end.

Lemma run_zop_ok me t o :
  zop_ok me o -> zone_ok me t /\ 0 <= zt_max_entries t /\ len t <= zt_max_entries t ->
  (zone_ok me (run_zop me t o) /\ 0 <= zt_max_entries (run_zop me t o) /\
   len (run_zop me t o) <= zt_max_entries (run_zop me t o)) /\ same_shape t (run_zop me t o).
Proof.
  intros Ho (Hok & Hmax & Hlen). destruct o as [now nbs from entries attached|a|now]; cbn [run_zop].
  - destruct Ho as [Hne He]. destruct (update_zone_ok me now nbs from entries attached t) as (H1 & S & H2); [done..| |].
    { rewrite Forall_forall in *. intros e Hin. destruct (He e Hin) as (_ & ? & ? & _). split; [lia|done]. }
    pose proof S as (_ & -> & _). split; [|done]. split; [done|]. split; [done|].
    destruct (NeighborTable.get from nbs) as [n|] eqn:E; [apply H2; eauto|].
    unfold update_from_beacon. by rewrite E.
  - destruct (remove_via_ok me a t Hok) as (H1 & S & H2 & _). pose proof S as (_ & -> & _). split; [split_and!; [done..|lia]|done].
  - destruct (expire_zone_ok me now t Hok) as (H1 & S & H2). pose proof S as (_ & -> & _). split; [split_and!; [done..|lia]|done].
Qed.

Lemma run_zops_ok me ops t :
  Forall (zop_ok me) ops -> zone_ok me t /\ 0 <= zt_max_entries t /\ len t <= zt_max_entries t ->
  (zone_ok me (foldl (run_zop me) t ops) /\ 0 <= zt_max_entries (foldl (run_zop me) t ops) /\
   len (foldl (run_zop me) t ops) <= zt_max_entries (foldl (run_zop me) t ops)) /\ same_shape t (foldl (run_zop me) t ops).
Proof.
  intros Hops. revert t. induction Hops as [|o ops Ho Hops IH]; intros t Ht; cbn [foldl]; [done|].
  destruct (run_zop_ok me t o Ho Ht) as [H1 (S1 & S2 & S3)]. destruct (IH _ H1) as [H2 (S4 & S5 & S6)].
  split; [done|]. repeat split; congruence.
Qed.

(** The zone table after any sequence of beacons, lost neighbours and
    expiries: it never exceeds [max_entries], never contains the node itself,
    keeps only distances within the radius (two for a leaf behind its host),
    and a lost neighbour takes with it exactly the nodes reached through it. *)
Theorem zone_table_invariant (radius max_entries ttl : Z) (me lost : Address) (ops : list zop) :
  0 <= max_entries -> Forall (zop_ok me) ops ->
  let t := foldl (run_zop me) (new radius max_entries ttl) ops in
  zone_ok me t /\ len t <= max_entries /\ get me t = None /\
  forall a, get a (remove_via lost t).1 =
    match get a t with Some n => if via lost n then None else Some n | None => None end.
Proof.
  intros Hmax Hops t. assert (H0 : zone_ok me (new radius max_entries ttl)).
  { split; [apply SmallMapFacts.empty_wf|]. split; [apply SmallMapFacts.empty_wf|]. split; [constructor|]. simpl. lia. }
  destruct (run_zops_ok me ops _ Hops (conj H0 (conj Hmax Hmax))) as [(Hok & _ & Hlen) (_ & Hm & _)].
  fold t in Hok, Hlen, Hm. simpl in Hm. split; [done|]. split; [lia|]. split; [|by apply (remove_via_ok me)].
  destruct Hok as (Hwf & _ & Hall & _). apply SmallMapFacts.get_None; [done|]. intros n Hin.
  rewrite Forall_forall in Hall. apply list_elem_of_In in Hin. by destruct (Hall _ Hin) as (_ & ? & _).
Qed.

(** ** Advertisement rounds *)

Lemma length_cycle_from {A} (v : list A) s n : v <> [] -> length (cycle_from v s n) = n.
Proof.
  intros Hv. revert s. induction n as [|n IH]; intros s; cbn [cycle_from]; [done|].
  assert (Hl : (s mod length v < length v)%nat) by (apply Nat.mod_upper_bound; destruct v; done).
  apply lookup_lt_is_Some_2 in Hl as [x ->]. simpl. by rewrite IH.
Qed.

Lemma lookup_cycle_from {A} (v : list A) s n i :
  v <> [] -> (i < n)%nat -> cycle_from v s n !! i = v !! ((s + i) mod length v)%nat.
Proof.
  intros Hv. revert s i. induction n as [|n IH]; intros s i Hi; [lia|]. cbn [cycle_from].
  assert (Hl : (s mod length v < length v)%nat) by (apply Nat.mod_upper_bound; destruct v; done).
  apply lookup_lt_is_Some_2 in Hl as [x Hx]. rewrite Hx. destruct i as [|i]; simpl.
  - by rewrite Nat.add_0_r.
  - rewrite IH by lia. do 2 f_equal. lia.
Qed.

Lemma elem_of_cycle_from {A} (v : list A) s n x : v <> [] -> x ∈ cycle_from v s n -> x ∈ v.
Proof.
  intros Hv [i Hi]%list_elem_of_lookup. pose proof (lookup_lt_Some _ _ _ Hi) as Hlt.
  rewrite length_cycle_from in Hlt by done. rewrite lookup_cycle_from in Hi by done. by eapply list_elem_of_lookup_2.
Qed.

Lemma eligible_sorted t n : n ∈ sort_by_key (eligible t) zn_addr <-> n ∈ eligible t.
Proof. by rewrite (sort_by_key_perm zn_addr (eligible t)). Qed.

(** A node is near: closer than the radius, or a direct neighbour. *)
Definition near (t : ZoneTable) (n : ZoneNode) : Prop := zn_distance n < zt_radius t \/ zn_distance n <= 1.
#[export] Instance near_dec t n : Decision (near t n).
Proof. unfold near. apply _. Defined.

Lemma elem_of_eligible t n : n ∈ eligible t <-> n ∈ iter t /\ near t n.
Proof. unfold eligible, near. rewrite elem_of_retain, bool_decide_eq_true. split; (intros [? ?]; split; [|done || lia]); done || lia. Qed.
Lemma eligible_filter t : eligible t = filter (near t) (iter t).
Proof. unfold eligible, Prelude.retain. apply list_filter_iff. intros n. unfold near. rewrite bool_decide_eq_true. lia. Qed.

(** One beacon of a non-empty zone: a window of the sorted nodes. *)
Lemma advertisement_window max round t :
  1 <= max -> 0 <= round < 2 ^ 32 -> eligible t <> [] ->
  let v := sort_by_key (eligible t) zn_addr in
  advertisement max round t =
  advertised <$> cycle_from v (Z.to_nat (usize ((round mod ((zlen v + max - 1) / max)) * max))) (Z.to_nat (Z.min max (zlen v))).
Proof.
  intros Hmax Hr Hne. unfold advertisement. cbn zeta. rewrite decide_False by (intros [|]; [done|lia]).
  unfold u32. by rewrite wrap_small by done.
Qed.

(** The window of the [j]-th of [len] nodes. *)
Lemma window_of max len j :
  1 <= max -> 0 <= j < len -> 0 <= j / max < (len + max - 1) / max /\ (j / max) * max <= j < (j / max) * max + max.
Proof.
  intros Hmax Hj. pose proof (Z.div_pos j max ltac:(lia) ltac:(lia)).
  pose proof (Z.mul_div_le j max ltac:(lia)). pose proof (Z.mul_succ_div_gt j max ltac:(lia)).
  split; [|lia]. split; [lia|]. apply Z.div_lt_upper_bound; [lia|].
  pose proof (Z.mul_succ_div_gt (len + max - 1) max ltac:(lia)). lia.
Qed.

(** C39. Zone advertisements are complete: a beacon carries as many entries as
    fit, at most [max], all of nodes closer than the radius (or direct
    neighbours, in a zone of radius one); and from any beacon on, every such
    node is advertised within the next [ceil(count / max)] beacons, as long as
    the 32-bit count of beacons does not wrap meanwhile. *)
Theorem advertisement_complete (max round : Z) (t : ZoneTable) :
  let count := zlen (filter (near t) (iter t)) in
  let windows := (count + max - 1) / max in
  1 <= max -> max + count < 2 ^ 32 -> 0 <= round -> round + windows <= 2 ^ 32 -> round < 2 ^ 32 ->
  (forall n, n ∈ iter t -> zn_distance n < zt_radius t \/ zn_distance n <= 1 ->
     exists i, 0 <= i < windows /\ mkZoneEntry (zn_addr n) (zn_distance n) (zn_quality n) (zn_flags n) ∈ advertisement max (round + i) t) /\
  zlen (advertisement max round t) = Z.min max count /\
  (forall e, e ∈ advertisement max round t -> exists n, n ∈ iter t /\ (zn_distance n < zt_radius t \/ zn_distance n <= 1) /\
     e = mkZoneEntry (zn_addr n) (zn_distance n) (zn_quality n) (zn_flags n)).
Proof.
  intros count windows Hmax Hsmall Hr Hwr Hr32. set (v := sort_by_key (eligible t) zn_addr).
  assert (Hlen : zlen v = count) by (unfold v, count, zlen; by rewrite (Permutation_length (sort_by_key_perm zn_addr (eligible t))), eligible_filter).
  destruct (decide (eligible t = [])) as [E|Hne].
  { assert (Hc : count = 0) by (rewrite <- Hlen; unfold v; by rewrite E). assert (Ha : advertisement max round t = []).
    { unfold advertisement. cbn zeta. by rewrite decide_True by (by left). }
    rewrite Ha, Hc. split; [|split; [rewrite zlen_nil; lia|intros e He; by apply elem_of_nil in He]].
    intros n Hn Hd. assert (n ∈ eligible t) by (by apply elem_of_eligible). rewrite E in *. by apply elem_of_nil in H. }
  assert (Hv : v <> []) by (intros E; apply Hne; symmetry in E; apply Permutation_nil; rewrite E; apply sort_by_key_perm).
  assert (Had : forall r, 0 <= r < 2 ^ 32 -> advertisement max r t = advertised <$> cycle_from v (Z.to_nat (usize ((r mod windows) * max))) (Z.to_nat (Z.min max count))).
  { intros r Hr'. rewrite advertisement_window by done. fold v. unfold windows. by rewrite Hlen. }
  split; [|split].
  - intros n Hn Hd. assert (Hin : n ∈ v) by (by apply eligible_sorted, elem_of_eligible). apply list_elem_of_lookup in Hin as [j Hj].
    pose proof (lookup_lt_Some _ _ _ Hj) as Hjl. assert (Hjz : 0 <= Z.of_nat j < count) by (rewrite <- Hlen; unfold zlen; lia).
    pose proof (window_of max count (Z.of_nat j) Hmax Hjz) as Hw. fold windows in Hw. set (w := Z.of_nat j / max) in Hw. clearbody w.
    exists ((w - round) mod windows). pose proof (Z.mod_pos_bound (w - round) windows ltac:(lia)) as Hb. split; [exact Hb|].
    rewrite Had by lia. rewrite Zplus_mod_idemp_r. replace (round + (w - round)) with w by lia. rewrite Z.mod_small by lia.
    rewrite usize_small by lia. apply list_elem_of_fmap. exists n. split; [done|].
    apply list_elem_of_lookup. exists (Z.to_nat (Z.of_nat j - w * max)). rewrite lookup_cycle_from; [|done|lia].
    rewrite <- Hj. f_equal. replace (Z.to_nat (w * max) + Z.to_nat (Z.of_nat j - w * max))%nat with j by lia. by apply Nat.mod_small.
  - rewrite Had by done. unfold zlen at 1. rewrite length_fmap, length_cycle_from by done. pose proof (zlen_nonneg v). lia.
  - intros e. rewrite Had by done. rewrite list_elem_of_fmap. intros (n' & -> & Hn'). apply elem_of_cycle_from in Hn'; [|done].
    apply eligible_sorted, elem_of_eligible in Hn' as [H1 H2]. by exists n'.
Qed.

(** ** Coverage pruning *)

Lemma covered_loop_spec tx adj ns any :
  match covered_loop tx adj ns any with
  | None => exists n, n ∈ ns /\ role_relays (nb_role n) = true /\ nb_addr n <> tx /\ nb_addr n ∉ adj
  | Some _ => forall n, n ∈ ns -> role_relays (nb_role n) = true -> nb_addr n <> tx -> nb_addr n ∈ adj
  end /\
  (covered_loop tx adj ns any = Some false ->
   forallb (fun n => bool_decide (nb_addr n = tx) || negb (role_relays (nb_role n))) ns = true).
Proof.
  revert any. induction ns as [|n ns IH]; intros any; cbn [covered_loop forallb].
  { split; [|done]. intros n Hn. by apply elem_of_nil in Hn. }
  destruct (negb (role_relays (nb_role n)) || bool_decide (nb_addr n = tx)) eqn:Eskip.
  - destruct (IH any) as [H1 H2]. split.
    + destruct (covered_loop tx adj ns any).
      * intros n' [->|Hn']%elem_of_cons; [|by apply H1]. intros Hr Ht. exfalso.
        apply orb_true_iff in Eskip as [E|E]; [by rewrite Hr in E|by apply bool_decide_eq_true in E].
      * destruct H1 as (n' & ? & ?). exists n'. split; [by apply elem_of_cons; right|done].
    + intros E. rewrite (H2 E), andb_true_r, orb_comm. exact Eskip.
  - apply orb_false_iff in Eskip as [E1 E2]. apply bool_decide_eq_false in E2. apply negb_false_iff in E1.
    destruct (bool_decide (nb_addr n ∈ adj)) eqn:Hin; [apply bool_decide_eq_true in Hin|apply bool_decide_eq_false in Hin].
    + destruct (IH true) as [H1 H2]. split.
      * destruct (covered_loop tx adj ns true).
        -- intros n' [->|Hn']%elem_of_cons; [done|by apply H1].
        -- destruct H1 as (n' & ? & ?). exists n'. split; [by apply elem_of_cons; right|done].
      * clear. intros E. exfalso. revert E. induction ns as [|m ns IH]; cbn [covered_loop]; [done|].
        destruct (_ || _); [done|]. case_bool_decide; done.
    + split; [|done]. exists n. split; [apply elem_of_cons; by left|done].
Qed.

(** A relay is suppressed exactly when the transmitter's announced neighbours
    include every other relaying neighbour of ours. *)
Lemma covered_by_exact (tx : Address) (nbs : NeighborTable) (t : ZoneTable) :
  covered_by tx nbs t = true <->
  exists adj, neighbors_of tx t = Some adj /\
    forall n, n ∈ NeighborTable.iter nbs -> role_relays (nb_role n) = true -> nb_addr n <> tx -> nb_addr n ∈ adj.
Proof.
  unfold covered_by, neighbors_of. destruct (SmallMap.get (zt_adjacency t) tx) as [adj|]; [|by split; [|intros (? & ? & _)]].
  destruct (covered_loop_spec tx adj (NeighborTable.iter nbs) false) as [H1 H2].
  destruct (covered_loop tx adj (NeighborTable.iter nbs) false) as [[]|]; simpl.
  - split; [intros _; by exists adj|done].
  - rewrite H2 by done. split; [intros _; by exists adj|done].
  - split; [done|]. intros (adj' & [= <-] & Hall). destruct H1 as (n & Hn & Hr & Ht & Ha). by destruct Ha; apply Hall.
Qed.

(** A concrete zone: one neighbour that announces two more nodes. *)
Definition ex_a (n : Z) : Address := mkAddress [0; 0; 0; 0; 0; 0; 0; n].
Definition ex_nbs : NeighborTable :=
  mkNeighborTable NeighborConfig_default
    [(ex_a 1, Neighbor.new (ex_a 1) Normal 0 (mkRxMeta (-90) (f32_of 5) 0 0) (f32_of (-10)))] 0.
Definition ex_update : zop :=
  Update 100 ex_nbs (ex_a 1) [mkZoneEntry (ex_a 2) 1 200 0; mkZoneEntry (ex_a 3) 1 90 0; mkZoneEntry (ex_a 9) 1 90 0] [].
Definition ex_zone : ZoneTable := foldl (run_zop (ex_a 9)) (new 3 8 1000) [ex_update].

Lemma ex_update_ok : zop_ok (ex_a 9) ex_update.
Proof.
  split; [done|].
  assert (Ht : forall n, 1 <= n <= 9 -> target_ok (ex_a n)).
  { intros n Hn. split; [split; [done|]|]; [|unfold is_reserved, is_null, is_broadcast; simpl; by rewrite !bool_decide_eq_false_2 by (intros [=]; lia)].
    repeat (apply Forall_cons_2; [unfold byte_ok, in_u; change (2 ^ 8) with 256; lia|]). constructor. }
  repeat (apply Forall_cons_2; [split; [by apply Ht|]; split; [done|]; unfold byte_ok, in_u; simpl; change (2 ^ 8) with 256; lia|]). constructor.
Qed.

Lemma zone_table_invariant_witness : zone_ok (ex_a 9) ex_zone /\ len ex_zone = 3 /\ get (ex_a 9) ex_zone = None.
Proof.
  destruct (zone_table_invariant 3 8 1000 (ex_a 9) (ex_a 1) [ex_update]) as (H1 & _ & H2 & _).
  - lia.
  - constructor; [exact ex_update_ok|constructor].
  - split; [exact H1|]. split; [vm_compute; reflexivity|exact H2].
Defined.

Definition ex_node : ZoneNode := mkZoneNode (ex_a 3) 2 (ex_a 1) 90 0 100.
Lemma advertisement_complete_witness :
  zlen (filter (near ex_zone) (iter ex_zone)) = 3 /\ exists i, 0 <= i < 3 /\ mkZoneEntry (ex_a 3) 2 90 0 ∈ advertisement 1 (7 + i) ex_zone.
Proof.
  assert (Hl : zlen (filter (near ex_zone) (iter ex_zone)) = 3) by (vm_compute; reflexivity).
  split; [exact Hl|]. destruct (advertisement_complete 1 7 ex_zone) as (H & _).
  - lia.
  - rewrite Hl. reflexivity.
  - lia.
  - rewrite Hl. vm_compute. discriminate.
  - reflexivity.
  - destruct (H ex_node) as (i & Hi & Hin).
    + apply list_elem_of_lookup. exists 2%nat. vm_compute. reflexivity.
    + left. vm_compute. reflexivity.
    + exists i. rewrite Hl in Hi. split; [exact Hi|exact Hin].
Defined.

(** Where the count of beacons wraps, three successive beacons miss a node. *)
Example advertisement_wraps :
  (fun i => ze_addr <$> advertisement 1 (u32 (2 ^ 32 - 1 + i)) ex_zone) <$> [0; 1; 2] = [[ex_a 1]; [ex_a 1]; [ex_a 2]].
Proof. vm_compute. reflexivity. Qed.
End ZoneFacts.
