(* ===== verification/Methods.v ===== *)
(** * Methods on a large state

    The engines ([node/], [relay/]) are structures with many fields, and their
    methods call the methods of one field at a time, ignore or inspect errors and
    loop over vectors.  These are the combinators their models are written in,
    over any state [S]. *)
From stdpp Require Import base tactics list numbers.
From S2P Require Import Prelude SmallMap Protocol.

(** Run a component's method on its field: [self.field.method(..)]. *)
Definition call {S T A} (pr : S -> T) (upd : (T -> T) -> S -> S) (f : T -> T * A) : St S Error A :=
  fun n => let '(t, a) := f (pr n) in (upd (fun _ => t) n, Ok a).
(** The same for a fallible method. *)
Definition try_call {S T A} (pr : S -> T) (upd : (T -> T) -> S -> S) (f : St T Error A) : St S Error A :=
  zoom pr (fun t => upd (fun _ => t)) f.
(** Keep the error of a call as a value: [match self.m() { Ok.. Err.. }]. *)
Definition attempt {S E A} (m : St S E A) : St S E (E + A) := fun s =>
  match m s with (s', Ok a) => (s', Ok (inr a)) | (s', Err e) => (s', Ok (inl e)) | (s', Panic) => (s', Panic) end.
(** [let _ = self.m();] *)
Definition ignore {S E A} (m : St S E A) : St S E unit := attempt m;; mret ().
(** [for x in l { .. }] *)
Fixpoint for_each {S E A} (l : list A) (f : A -> St S E unit) : St S E unit :=
  match l with [] => mret () | x :: l' => f x;; for_each l' f end.
Definition when {S E} (b : bool) (m : St S E unit) : St S E unit := if b then m else mret ().

(** A [BTreeMap]'s methods that change the map and return something. *)
Definition map_insert {K V} `{KeyOrd K} (k : K) (v : V) (m : smallmap K V) : smallmap K V := (SmallMap.insert m k v).1.
Definition map_remove {K V} `{KeyOrd K} (k : K) (m : smallmap K V) : smallmap K V := (SmallMap.remove m k).1.
