(* ===== verification/NodeState.v ===== *)
(** * The node engine: state

    [crates/meshstar-core/src/node/mod.rs] and [node/diag.rs]: the
    configuration, the events, the queued items and the [Node] structure that
    owns every protocol component, with the small methods the rest of the
    engine is built from.

    A [&mut self] method is a value of [M A] = [St Node Error A].  The
    generator is any [R] with [RngCore] (the code instantiates ChaCha20). *)
From stdpp Require Import base tactics list numbers.
From Stdlib Require Import Lia.
From S2P Require Import Prelude SmallMap Float32 Protocol Packet Fragmentation CryptoLib Identity Noise Replay Session Transport StoreForward Storm Routing Messages Ierp Power Beacon Radio Neighbor Zone Methods.

Inductive RoutingMode := Zrp | Flood.
#[global] Instance RoutingMode_eq_dec : EqDecision RoutingMode.
Proof. solve_decision. Defined.

Record NodeConfig := mkNodeConfig {
  c_role : Role;
  c_name : list Z;
  c_routing_mode : RoutingMode;
  c_profile : LoRaProfile;
  c_max_ttl : Z;
  c_default_ttl : Z;
  c_network_key : option NetworkKey;
  c_neighbor : NeighborConfig;
  c_routing : RoutingConfig;
  c_zrp : ZrpConfig;
  c_storm : StormConfig;
  c_transport : TransportConfig;
  c_mailbox : MailboxConfig;
  c_power : PowerConfig;
  c_session : SessionLimits;
  c_reassembly : ReassemblyConfig;
  c_handshake_timeout_ms : Z;
  c_max_tx_queue : Z;
  c_envelope_ttl_s : Z;
  c_unicast_forward_jitter_ms : Z;
  c_hop_ack_timeout_ms : Z;
  c_hop_retries : Z
}.

Definition NodeConfig_with (role : Role) (power : PowerConfig) : NodeConfig :=
  mkNodeConfig role [] Zrp LoRaProfile.MESHSTAR_EU868 64 DEFAULT_TTL None NeighborConfig_default RoutingConfig_default
    ZrpConfig_default StormConfig_default TransportConfig_default MailboxConfig_default power SessionLimits_default
    ReassemblyConfig_default 120000 32 (24 * 3600) 60 1500 2.
(** [NodeConfig::default], [NodeConfig::leaf] and [NodeConfig::anchor]. *)
Definition NodeConfig_default : NodeConfig := NodeConfig_with Normal PowerConfig_default.
Definition NodeConfig_leaf (wake_interval_s awake_window_ms : Z) : NodeConfig :=
  NodeConfig_with Leaf (mkPowerConfig (LeafMode wake_interval_s awake_window_ms) (max_airtime_permille PowerConfig_default)
    (airtime_window_ms PowerConfig_default) (max_beacon_slowdown PowerConfig_default)
    (activity_extension_ms PowerConfig_default)).
Definition NodeConfig_anchor : NodeConfig := NodeConfig_with Anchor PowerConfig_default.

(** [Protection::Session] and [Protection::Envelope] are [InSession] and
    [InEnvelope]. *)
Inductive Protection := InSession | InEnvelope | Group | Plaintext.
#[global] Instance Protection_eq_dec : EqDecision Protection.
Proof. solve_decision. Defined.

(** [FailReason::NoRoute], [NoSession] and [TooLarge] share their names with
    errors: the reasons carry a prefix. *)
Inductive FailReason := FrNoRoute | FrNoAck | FrNoSession | FrNoKey | FrQueueFull | FrTooLarge | FrRejected.
#[global] Instance FailReason_eq_dec : EqDecision FailReason.
Proof. solve_decision. Defined.

Inductive NodeEvent :=
| MessageReceived (from : Address) (seq : Z) (payload : list Z) (protection : Protection) (hops rssi : Z) (snr : f32)
    (relay : option Address)
| Delivered (handle : Z) (to : Address) (rtt_ms : Z)
| Stored (handle : Z) (anchor : Address)
| Failed (handle : Z) (to : Address) (reason : FailReason)
| NeighborUp (a : Address)
| NeighborDown (a : Address)
| SessionEstablished (a : Address)
| SessionClosed (a : Address)
| RouteFound (dst : Address) (hops cost : Z)
| RouteLost (a : Address)
| PowerState (awake : bool)
| MailboxDelivered (to : Address) (envelope_id : Z)
| TraceResult (dst : Address) (reached : bool) (hops : list Z) (rtt_ms : Z).

Record TxItem := mkTxItem {
  tx_frame : list Z; tx_not_before : Z; tx_ptype : PacketType; tx_priority : Z; tx_is_relay : bool; tx_dst : Address
}.

Definition QUEUED_CONTROL : Z := U32_MAX - 1.

Record QueuedSend := mkQueuedSend {
  q_dst : Address; q_payload : list Z; q_reliability : Reliability; q_handle : Z; q_queued_at : Z
}.

Record PendingHandshake := mkPendingHandshake {
  ph_hs : HandshakeXX;
  ph_started_at : Z;
  ph_epoch : Z;
  ph_queued : list QueuedSend;
  ph_attempts : Z;
  ph_m1 : list Z;
  ph_re : list Z;
  ph_m2 : list Z
}.
(** Assignments to the fields of a handshake in flight. *)
Definition ph_set_hs (v : HandshakeXX) (h : PendingHandshake) : PendingHandshake :=
  mkPendingHandshake v (ph_started_at h) (ph_epoch h) (ph_queued h) (ph_attempts h) (ph_m1 h) (ph_re h) (ph_m2 h).
Definition ph_set_started (v : Z) (h : PendingHandshake) : PendingHandshake :=
  mkPendingHandshake (ph_hs h) v (ph_epoch h) (ph_queued h) (ph_attempts h) (ph_m1 h) (ph_re h) (ph_m2 h).
Definition ph_push (q : QueuedSend) (h : PendingHandshake) : PendingHandshake :=
  mkPendingHandshake (ph_hs h) (ph_started_at h) (ph_epoch h) (ph_queued h ++ [q]) (ph_attempts h) (ph_m1 h) (ph_re h) (ph_m2 h).
Definition ph_count_attempt (h : PendingHandshake) : PendingHandshake :=
  mkPendingHandshake (ph_hs h) (ph_started_at h) (ph_epoch h) (ph_queued h) (u8 (ph_attempts h + 1)) (ph_m1 h) (ph_re h) (ph_m2 h).

Record PendingEnvelope := mkPendingEnvelope {
  pe_dst : Address; pe_payload : list Z; pe_handle : Z; pe_queued_at : Z
}.

Record HopPending := mkHopPending {
  hp_key : PacketKey; hp_next_hop : Address; hp_packet : Packet; hp_attempts : Z; hp_due : Z; hp_is_relay : bool;
  hp_rerouted : bool
}.

(** The [Counters] structure as a total map from its fields. *)
Inductive Counter :=
  | ct_rx_packets | ct_rx_bytes | ct_rx_bad | ct_rx_duplicates | ct_rx_for_us | ct_rx_ttl_exhausted | ct_tx_packets
  | ct_tx_bytes | ct_tx_control | ct_tx_errors | ct_tx_dropped | ct_relayed | ct_relay_suppressed_covered
  | ct_relay_suppressed_probabilistic | ct_relay_no_route | ct_beacons_sent | ct_beacons_received | ct_rreq_sent
  | ct_rreq_received | ct_rrep_sent | ct_rrep_received | ct_rerr_sent | ct_rerr_received | ct_discovery_failures
  | ct_handshakes_started | ct_handshakes_completed | ct_handshake_failures | ct_auth_failures | ct_replays
  | ct_app_sent | ct_app_received | ct_retries | ct_fragments_sent | ct_fragments_received | ct_fetch_sent
  | ct_store_sent | ct_store_received | ct_envelopes_opened | ct_neighbors_lost | ct_loops_detected
  | ct_rx_no_session | ct_hs_read_failures | ct_hop_retransmissions | ct_hop_failures | ct_hop_reroutes
  | ct_m3_resends | ct_sessions_reset | ct_keys_from_replies | ct_key_requests_sent | ct_no_session_notices
  | ct_link_acks_sent.
#[global] Instance Counter_eq_dec : EqDecision Counter.
Proof. solve_decision. Defined.
Definition Counters : Type := Counter -> Z.
Definition Counters_default : Counters := fun _ => 0.
Definition counter_width (k : Counter) : Z := match k with ct_rx_bytes | ct_tx_bytes => 64 | _ => 32 end.
(** [counters.k += d]. *)
Definition add_counter (k : Counter) (d : Z) (c : Counters) : Counters :=
  fun j => if decide (j = k) then wrap (counter_width k) (c k + d) else c j.

Section Node.
Context {R : Type}.

Record Node := mkNode {
  n_cfg : NodeConfig;
  n_id : Identity;
  n_rng : R;
  n_now : Z;
  n_neighbors : NeighborTable;
  n_zone : ZoneTable;
  n_routes : RouteCache;
  n_ierp : Ierp;
  n_rrep_pending : PendingReplies;
  n_seen : SeenCache;
  n_sched : RebroadcastScheduler;
  n_transport : Transport;
  n_mailbox : option Mailbox;
  n_power : PowerManager;
  n_reassembler : Reassembler;
  n_sessions : smallmap Address Session;
  n_handshakes : smallmap Address PendingHandshake;
  n_key_dir : smallmap Address PublicIdentity;
  n_pending_envelopes : list PendingEnvelope;
  n_tx_queue : list TxItem;
  n_events : list NodeEvent;
  n_beacon_seq : Z;
  n_next_beacon : Z;
  n_beacons_sent : Z;
  n_last_beacon_at : Z;
  n_last_neighbor_count : Z;
  n_next_handle : Z;
  n_frag_id : Z;
  n_counters : Counters;
  n_opened_envelopes : list (Address * Z);
  n_attached_anchor : option Address;
  n_rx_airtime_ms : Z;
  n_last_housekeeping : Z;
  n_last_wake : Z;
  n_slept_at : Z;
  n_pending_fetch : option (Address * Z * Z);
  n_pending_traces : list (Address * Z);
  n_held_for_sleeping : list (Address * Packet * Z);
  n_hop_pending : list HopPending
}.

(** One updater per field. *)
Definition upd_cfg (f : NodeConfig -> NodeConfig) (n : Node) : Node :=
  mkNode
    (f (n_cfg n)) (n_id n) (n_rng n) (n_now n) (n_neighbors n) (n_zone n) (n_routes n) (n_ierp n)
    (n_rrep_pending n) (n_seen n) (n_sched n) (n_transport n) (n_mailbox n) (n_power n) (n_reassembler n)
    (n_sessions n) (n_handshakes n) (n_key_dir n) (n_pending_envelopes n) (n_tx_queue n) (n_events n)
    (n_beacon_seq n) (n_next_beacon n) (n_beacons_sent n) (n_last_beacon_at n) (n_last_neighbor_count n)
    (n_next_handle n) (n_frag_id n) (n_counters n) (n_opened_envelopes n) (n_attached_anchor n) (n_rx_airtime_ms n)
    (n_last_housekeeping n) (n_last_wake n) (n_slept_at n) (n_pending_fetch n) (n_pending_traces n)
    (n_held_for_sleeping n) (n_hop_pending n).
Definition upd_id (f : Identity -> Identity) (n : Node) : Node :=
  mkNode
    (n_cfg n) (f (n_id n)) (n_rng n) (n_now n) (n_neighbors n) (n_zone n) (n_routes n) (n_ierp n)
    (n_rrep_pending n) (n_seen n) (n_sched n) (n_transport n) (n_mailbox n) (n_power n) (n_reassembler n)
    (n_sessions n) (n_handshakes n) (n_key_dir n) (n_pending_envelopes n) (n_tx_queue n) (n_events n)
    (n_beacon_seq n) (n_next_beacon n) (n_beacons_sent n) (n_last_beacon_at n) (n_last_neighbor_count n)
    (n_next_handle n) (n_frag_id n) (n_counters n) (n_opened_envelopes n) (n_attached_anchor n) (n_rx_airtime_ms n)
    (n_last_housekeeping n) (n_last_wake n) (n_slept_at n) (n_pending_fetch n) (n_pending_traces n)
    (n_held_for_sleeping n) (n_hop_pending n).
Definition upd_rng (f : R -> R) (n : Node) : Node :=
  mkNode
    (n_cfg n) (n_id n) (f (n_rng n)) (n_now n) (n_neighbors n) (n_zone n) (n_routes n) (n_ierp n)
    (n_rrep_pending n) (n_seen n) (n_sched n) (n_transport n) (n_mailbox n) (n_power n) (n_reassembler n)
    (n_sessions n) (n_handshakes n) (n_key_dir n) (n_pending_envelopes n) (n_tx_queue n) (n_events n)
    (n_beacon_seq n) (n_next_beacon n) (n_beacons_sent n) (n_last_beacon_at n) (n_last_neighbor_count n)
    (n_next_handle n) (n_frag_id n) (n_counters n) (n_opened_envelopes n) (n_attached_anchor n) (n_rx_airtime_ms n)
    (n_last_housekeeping n) (n_last_wake n) (n_slept_at n) (n_pending_fetch n) (n_pending_traces n)
    (n_held_for_sleeping n) (n_hop_pending n).
Definition upd_now (f : Z -> Z) (n : Node) : Node :=
  mkNode
    (n_cfg n) (n_id n) (n_rng n) (f (n_now n)) (n_neighbors n) (n_zone n) (n_routes n) (n_ierp n)
    (n_rrep_pending n) (n_seen n) (n_sched n) (n_transport n) (n_mailbox n) (n_power n) (n_reassembler n)
    (n_sessions n) (n_handshakes n) (n_key_dir n) (n_pending_envelopes n) (n_tx_queue n) (n_events n)
    (n_beacon_seq n) (n_next_beacon n) (n_beacons_sent n) (n_last_beacon_at n) (n_last_neighbor_count n)
    (n_next_handle n) (n_frag_id n) (n_counters n) (n_opened_envelopes n) (n_attached_anchor n) (n_rx_airtime_ms n)
    (n_last_housekeeping n) (n_last_wake n) (n_slept_at n) (n_pending_fetch n) (n_pending_traces n)
    (n_held_for_sleeping n) (n_hop_pending n).
Definition upd_neighbors (f : NeighborTable -> NeighborTable) (n : Node) : Node :=
  mkNode
    (n_cfg n) (n_id n) (n_rng n) (n_now n) (f (n_neighbors n)) (n_zone n) (n_routes n) (n_ierp n)
    (n_rrep_pending n) (n_seen n) (n_sched n) (n_transport n) (n_mailbox n) (n_power n) (n_reassembler n)
    (n_sessions n) (n_handshakes n) (n_key_dir n) (n_pending_envelopes n) (n_tx_queue n) (n_events n)
    (n_beacon_seq n) (n_next_beacon n) (n_beacons_sent n) (n_last_beacon_at n) (n_last_neighbor_count n)
    (n_next_handle n) (n_frag_id n) (n_counters n) (n_opened_envelopes n) (n_attached_anchor n) (n_rx_airtime_ms n)
    (n_last_housekeeping n) (n_last_wake n) (n_slept_at n) (n_pending_fetch n) (n_pending_traces n)
    (n_held_for_sleeping n) (n_hop_pending n).
Definition upd_zone (f : ZoneTable -> ZoneTable) (n : Node) : Node :=
  mkNode
    (n_cfg n) (n_id n) (n_rng n) (n_now n) (n_neighbors n) (f (n_zone n)) (n_routes n) (n_ierp n)
    (n_rrep_pending n) (n_seen n) (n_sched n) (n_transport n) (n_mailbox n) (n_power n) (n_reassembler n)
    (n_sessions n) (n_handshakes n) (n_key_dir n) (n_pending_envelopes n) (n_tx_queue n) (n_events n)
    (n_beacon_seq n) (n_next_beacon n) (n_beacons_sent n) (n_last_beacon_at n) (n_last_neighbor_count n)
    (n_next_handle n) (n_frag_id n) (n_counters n) (n_opened_envelopes n) (n_attached_anchor n) (n_rx_airtime_ms n)
    (n_last_housekeeping n) (n_last_wake n) (n_slept_at n) (n_pending_fetch n) (n_pending_traces n)
    (n_held_for_sleeping n) (n_hop_pending n).
Definition upd_routes (f : RouteCache -> RouteCache) (n : Node) : Node :=
  mkNode
    (n_cfg n) (n_id n) (n_rng n) (n_now n) (n_neighbors n) (n_zone n) (f (n_routes n)) (n_ierp n)
    (n_rrep_pending n) (n_seen n) (n_sched n) (n_transport n) (n_mailbox n) (n_power n) (n_reassembler n)
    (n_sessions n) (n_handshakes n) (n_key_dir n) (n_pending_envelopes n) (n_tx_queue n) (n_events n)
    (n_beacon_seq n) (n_next_beacon n) (n_beacons_sent n) (n_last_beacon_at n) (n_last_neighbor_count n)
    (n_next_handle n) (n_frag_id n) (n_counters n) (n_opened_envelopes n) (n_attached_anchor n) (n_rx_airtime_ms n)
    (n_last_housekeeping n) (n_last_wake n) (n_slept_at n) (n_pending_fetch n) (n_pending_traces n)
    (n_held_for_sleeping n) (n_hop_pending n).
Definition upd_ierp (f : Ierp -> Ierp) (n : Node) : Node :=
  mkNode
    (n_cfg n) (n_id n) (n_rng n) (n_now n) (n_neighbors n) (n_zone n) (n_routes n) (f (n_ierp n))
    (n_rrep_pending n) (n_seen n) (n_sched n) (n_transport n) (n_mailbox n) (n_power n) (n_reassembler n)
    (n_sessions n) (n_handshakes n) (n_key_dir n) (n_pending_envelopes n) (n_tx_queue n) (n_events n)
    (n_beacon_seq n) (n_next_beacon n) (n_beacons_sent n) (n_last_beacon_at n) (n_last_neighbor_count n)
    (n_next_handle n) (n_frag_id n) (n_counters n) (n_opened_envelopes n) (n_attached_anchor n) (n_rx_airtime_ms n)
    (n_last_housekeeping n) (n_last_wake n) (n_slept_at n) (n_pending_fetch n) (n_pending_traces n)
    (n_held_for_sleeping n) (n_hop_pending n).
Definition upd_rrep_pending (f : PendingReplies -> PendingReplies) (n : Node) : Node :=
  mkNode
    (n_cfg n) (n_id n) (n_rng n) (n_now n) (n_neighbors n) (n_zone n) (n_routes n) (n_ierp n)
    (f (n_rrep_pending n)) (n_seen n) (n_sched n) (n_transport n) (n_mailbox n) (n_power n) (n_reassembler n)
    (n_sessions n) (n_handshakes n) (n_key_dir n) (n_pending_envelopes n) (n_tx_queue n) (n_events n)
    (n_beacon_seq n) (n_next_beacon n) (n_beacons_sent n) (n_last_beacon_at n) (n_last_neighbor_count n)
    (n_next_handle n) (n_frag_id n) (n_counters n) (n_opened_envelopes n) (n_attached_anchor n) (n_rx_airtime_ms n)
    (n_last_housekeeping n) (n_last_wake n) (n_slept_at n) (n_pending_fetch n) (n_pending_traces n)
    (n_held_for_sleeping n) (n_hop_pending n).
Definition upd_seen (f : SeenCache -> SeenCache) (n : Node) : Node :=
  mkNode
    (n_cfg n) (n_id n) (n_rng n) (n_now n) (n_neighbors n) (n_zone n) (n_routes n) (n_ierp n) (n_rrep_pending n)
    (f (n_seen n)) (n_sched n) (n_transport n) (n_mailbox n) (n_power n) (n_reassembler n) (n_sessions n)
    (n_handshakes n) (n_key_dir n) (n_pending_envelopes n) (n_tx_queue n) (n_events n) (n_beacon_seq n)
    (n_next_beacon n) (n_beacons_sent n) (n_last_beacon_at n) (n_last_neighbor_count n) (n_next_handle n)
    (n_frag_id n) (n_counters n) (n_opened_envelopes n) (n_attached_anchor n) (n_rx_airtime_ms n)
    (n_last_housekeeping n) (n_last_wake n) (n_slept_at n) (n_pending_fetch n) (n_pending_traces n)
    (n_held_for_sleeping n) (n_hop_pending n).
Definition upd_sched (f : RebroadcastScheduler -> RebroadcastScheduler) (n : Node) : Node :=
  mkNode
    (n_cfg n) (n_id n) (n_rng n) (n_now n) (n_neighbors n) (n_zone n) (n_routes n) (n_ierp n) (n_rrep_pending n)
    (n_seen n) (f (n_sched n)) (n_transport n) (n_mailbox n) (n_power n) (n_reassembler n) (n_sessions n)
    (n_handshakes n) (n_key_dir n) (n_pending_envelopes n) (n_tx_queue n) (n_events n) (n_beacon_seq n)
    (n_next_beacon n) (n_beacons_sent n) (n_last_beacon_at n) (n_last_neighbor_count n) (n_next_handle n)
    (n_frag_id n) (n_counters n) (n_opened_envelopes n) (n_attached_anchor n) (n_rx_airtime_ms n)
    (n_last_housekeeping n) (n_last_wake n) (n_slept_at n) (n_pending_fetch n) (n_pending_traces n)
    (n_held_for_sleeping n) (n_hop_pending n).
Definition upd_transport (f : Transport -> Transport) (n : Node) : Node :=
  mkNode
    (n_cfg n) (n_id n) (n_rng n) (n_now n) (n_neighbors n) (n_zone n) (n_routes n) (n_ierp n) (n_rrep_pending n)
    (n_seen n) (n_sched n) (f (n_transport n)) (n_mailbox n) (n_power n) (n_reassembler n) (n_sessions n)
    (n_handshakes n) (n_key_dir n) (n_pending_envelopes n) (n_tx_queue n) (n_events n) (n_beacon_seq n)
    (n_next_beacon n) (n_beacons_sent n) (n_last_beacon_at n) (n_last_neighbor_count n) (n_next_handle n)
    (n_frag_id n) (n_counters n) (n_opened_envelopes n) (n_attached_anchor n) (n_rx_airtime_ms n)
    (n_last_housekeeping n) (n_last_wake n) (n_slept_at n) (n_pending_fetch n) (n_pending_traces n)
    (n_held_for_sleeping n) (n_hop_pending n).
Definition upd_mailbox (f : option Mailbox -> option Mailbox) (n : Node) : Node :=
  mkNode
    (n_cfg n) (n_id n) (n_rng n) (n_now n) (n_neighbors n) (n_zone n) (n_routes n) (n_ierp n) (n_rrep_pending n)
    (n_seen n) (n_sched n) (n_transport n) (f (n_mailbox n)) (n_power n) (n_reassembler n) (n_sessions n)
    (n_handshakes n) (n_key_dir n) (n_pending_envelopes n) (n_tx_queue n) (n_events n) (n_beacon_seq n)
    (n_next_beacon n) (n_beacons_sent n) (n_last_beacon_at n) (n_last_neighbor_count n) (n_next_handle n)
    (n_frag_id n) (n_counters n) (n_opened_envelopes n) (n_attached_anchor n) (n_rx_airtime_ms n)
    (n_last_housekeeping n) (n_last_wake n) (n_slept_at n) (n_pending_fetch n) (n_pending_traces n)
    (n_held_for_sleeping n) (n_hop_pending n).
Definition upd_power (f : PowerManager -> PowerManager) (n : Node) : Node :=
  mkNode
    (n_cfg n) (n_id n) (n_rng n) (n_now n) (n_neighbors n) (n_zone n) (n_routes n) (n_ierp n) (n_rrep_pending n)
    (n_seen n) (n_sched n) (n_transport n) (n_mailbox n) (f (n_power n)) (n_reassembler n) (n_sessions n)
    (n_handshakes n) (n_key_dir n) (n_pending_envelopes n) (n_tx_queue n) (n_events n) (n_beacon_seq n)
    (n_next_beacon n) (n_beacons_sent n) (n_last_beacon_at n) (n_last_neighbor_count n) (n_next_handle n)
    (n_frag_id n) (n_counters n) (n_opened_envelopes n) (n_attached_anchor n) (n_rx_airtime_ms n)
    (n_last_housekeeping n) (n_last_wake n) (n_slept_at n) (n_pending_fetch n) (n_pending_traces n)
    (n_held_for_sleeping n) (n_hop_pending n).
Definition upd_reassembler (f : Reassembler -> Reassembler) (n : Node) : Node :=
  mkNode
    (n_cfg n) (n_id n) (n_rng n) (n_now n) (n_neighbors n) (n_zone n) (n_routes n) (n_ierp n) (n_rrep_pending n)
    (n_seen n) (n_sched n) (n_transport n) (n_mailbox n) (n_power n) (f (n_reassembler n)) (n_sessions n)
    (n_handshakes n) (n_key_dir n) (n_pending_envelopes n) (n_tx_queue n) (n_events n) (n_beacon_seq n)
    (n_next_beacon n) (n_beacons_sent n) (n_last_beacon_at n) (n_last_neighbor_count n) (n_next_handle n)
    (n_frag_id n) (n_counters n) (n_opened_envelopes n) (n_attached_anchor n) (n_rx_airtime_ms n)
    (n_last_housekeeping n) (n_last_wake n) (n_slept_at n) (n_pending_fetch n) (n_pending_traces n)
    (n_held_for_sleeping n) (n_hop_pending n).
Definition upd_sessions (f : smallmap Address Session -> smallmap Address Session) (n : Node) : Node :=
  mkNode
    (n_cfg n) (n_id n) (n_rng n) (n_now n) (n_neighbors n) (n_zone n) (n_routes n) (n_ierp n) (n_rrep_pending n)
    (n_seen n) (n_sched n) (n_transport n) (n_mailbox n) (n_power n) (n_reassembler n) (f (n_sessions n))
    (n_handshakes n) (n_key_dir n) (n_pending_envelopes n) (n_tx_queue n) (n_events n) (n_beacon_seq n)
    (n_next_beacon n) (n_beacons_sent n) (n_last_beacon_at n) (n_last_neighbor_count n) (n_next_handle n)
    (n_frag_id n) (n_counters n) (n_opened_envelopes n) (n_attached_anchor n) (n_rx_airtime_ms n)
    (n_last_housekeeping n) (n_last_wake n) (n_slept_at n) (n_pending_fetch n) (n_pending_traces n)
    (n_held_for_sleeping n) (n_hop_pending n).
Definition upd_handshakes (f : smallmap Address PendingHandshake -> smallmap Address PendingHandshake) (n : Node) : Node :=
  mkNode
    (n_cfg n) (n_id n) (n_rng n) (n_now n) (n_neighbors n) (n_zone n) (n_routes n) (n_ierp n) (n_rrep_pending n)
    (n_seen n) (n_sched n) (n_transport n) (n_mailbox n) (n_power n) (n_reassembler n) (n_sessions n)
    (f (n_handshakes n)) (n_key_dir n) (n_pending_envelopes n) (n_tx_queue n) (n_events n) (n_beacon_seq n)
    (n_next_beacon n) (n_beacons_sent n) (n_last_beacon_at n) (n_last_neighbor_count n) (n_next_handle n)
    (n_frag_id n) (n_counters n) (n_opened_envelopes n) (n_attached_anchor n) (n_rx_airtime_ms n)
    (n_last_housekeeping n) (n_last_wake n) (n_slept_at n) (n_pending_fetch n) (n_pending_traces n)
    (n_held_for_sleeping n) (n_hop_pending n).
Definition upd_key_dir (f : smallmap Address PublicIdentity -> smallmap Address PublicIdentity) (n : Node) : Node :=
  mkNode
    (n_cfg n) (n_id n) (n_rng n) (n_now n) (n_neighbors n) (n_zone n) (n_routes n) (n_ierp n) (n_rrep_pending n)
    (n_seen n) (n_sched n) (n_transport n) (n_mailbox n) (n_power n) (n_reassembler n) (n_sessions n)
    (n_handshakes n) (f (n_key_dir n)) (n_pending_envelopes n) (n_tx_queue n) (n_events n) (n_beacon_seq n)
    (n_next_beacon n) (n_beacons_sent n) (n_last_beacon_at n) (n_last_neighbor_count n) (n_next_handle n)
    (n_frag_id n) (n_counters n) (n_opened_envelopes n) (n_attached_anchor n) (n_rx_airtime_ms n)
    (n_last_housekeeping n) (n_last_wake n) (n_slept_at n) (n_pending_fetch n) (n_pending_traces n)
    (n_held_for_sleeping n) (n_hop_pending n).
Definition upd_pending_envelopes (f : list PendingEnvelope -> list PendingEnvelope) (n : Node) : Node :=
  mkNode
    (n_cfg n) (n_id n) (n_rng n) (n_now n) (n_neighbors n) (n_zone n) (n_routes n) (n_ierp n) (n_rrep_pending n)
    (n_seen n) (n_sched n) (n_transport n) (n_mailbox n) (n_power n) (n_reassembler n) (n_sessions n)
    (n_handshakes n) (n_key_dir n) (f (n_pending_envelopes n)) (n_tx_queue n) (n_events n) (n_beacon_seq n)
    (n_next_beacon n) (n_beacons_sent n) (n_last_beacon_at n) (n_last_neighbor_count n) (n_next_handle n)
    (n_frag_id n) (n_counters n) (n_opened_envelopes n) (n_attached_anchor n) (n_rx_airtime_ms n)
    (n_last_housekeeping n) (n_last_wake n) (n_slept_at n) (n_pending_fetch n) (n_pending_traces n)
    (n_held_for_sleeping n) (n_hop_pending n).
Definition upd_tx_queue (f : list TxItem -> list TxItem) (n : Node) : Node :=
  mkNode
    (n_cfg n) (n_id n) (n_rng n) (n_now n) (n_neighbors n) (n_zone n) (n_routes n) (n_ierp n) (n_rrep_pending n)
    (n_seen n) (n_sched n) (n_transport n) (n_mailbox n) (n_power n) (n_reassembler n) (n_sessions n)
    (n_handshakes n) (n_key_dir n) (n_pending_envelopes n) (f (n_tx_queue n)) (n_events n) (n_beacon_seq n)
    (n_next_beacon n) (n_beacons_sent n) (n_last_beacon_at n) (n_last_neighbor_count n) (n_next_handle n)
    (n_frag_id n) (n_counters n) (n_opened_envelopes n) (n_attached_anchor n) (n_rx_airtime_ms n)
    (n_last_housekeeping n) (n_last_wake n) (n_slept_at n) (n_pending_fetch n) (n_pending_traces n)
    (n_held_for_sleeping n) (n_hop_pending n).
Definition upd_events (f : list NodeEvent -> list NodeEvent) (n : Node) : Node :=
  mkNode
    (n_cfg n) (n_id n) (n_rng n) (n_now n) (n_neighbors n) (n_zone n) (n_routes n) (n_ierp n) (n_rrep_pending n)
    (n_seen n) (n_sched n) (n_transport n) (n_mailbox n) (n_power n) (n_reassembler n) (n_sessions n)
    (n_handshakes n) (n_key_dir n) (n_pending_envelopes n) (n_tx_queue n) (f (n_events n)) (n_beacon_seq n)
    (n_next_beacon n) (n_beacons_sent n) (n_last_beacon_at n) (n_last_neighbor_count n) (n_next_handle n)
    (n_frag_id n) (n_counters n) (n_opened_envelopes n) (n_attached_anchor n) (n_rx_airtime_ms n)
    (n_last_housekeeping n) (n_last_wake n) (n_slept_at n) (n_pending_fetch n) (n_pending_traces n)
    (n_held_for_sleeping n) (n_hop_pending n).
Definition upd_beacon_seq (f : Z -> Z) (n : Node) : Node :=
  mkNode
    (n_cfg n) (n_id n) (n_rng n) (n_now n) (n_neighbors n) (n_zone n) (n_routes n) (n_ierp n) (n_rrep_pending n)
    (n_seen n) (n_sched n) (n_transport n) (n_mailbox n) (n_power n) (n_reassembler n) (n_sessions n)
    (n_handshakes n) (n_key_dir n) (n_pending_envelopes n) (n_tx_queue n) (n_events n) (f (n_beacon_seq n))
    (n_next_beacon n) (n_beacons_sent n) (n_last_beacon_at n) (n_last_neighbor_count n) (n_next_handle n)
    (n_frag_id n) (n_counters n) (n_opened_envelopes n) (n_attached_anchor n) (n_rx_airtime_ms n)
    (n_last_housekeeping n) (n_last_wake n) (n_slept_at n) (n_pending_fetch n) (n_pending_traces n)
    (n_held_for_sleeping n) (n_hop_pending n).
Definition upd_next_beacon (f : Z -> Z) (n : Node) : Node :=
  mkNode
    (n_cfg n) (n_id n) (n_rng n) (n_now n) (n_neighbors n) (n_zone n) (n_routes n) (n_ierp n) (n_rrep_pending n)
    (n_seen n) (n_sched n) (n_transport n) (n_mailbox n) (n_power n) (n_reassembler n) (n_sessions n)
    (n_handshakes n) (n_key_dir n) (n_pending_envelopes n) (n_tx_queue n) (n_events n) (n_beacon_seq n)
    (f (n_next_beacon n)) (n_beacons_sent n) (n_last_beacon_at n) (n_last_neighbor_count n) (n_next_handle n)
    (n_frag_id n) (n_counters n) (n_opened_envelopes n) (n_attached_anchor n) (n_rx_airtime_ms n)
    (n_last_housekeeping n) (n_last_wake n) (n_slept_at n) (n_pending_fetch n) (n_pending_traces n)
    (n_held_for_sleeping n) (n_hop_pending n).
Definition upd_beacons_sent (f : Z -> Z) (n : Node) : Node :=
  mkNode
    (n_cfg n) (n_id n) (n_rng n) (n_now n) (n_neighbors n) (n_zone n) (n_routes n) (n_ierp n) (n_rrep_pending n)
    (n_seen n) (n_sched n) (n_transport n) (n_mailbox n) (n_power n) (n_reassembler n) (n_sessions n)
    (n_handshakes n) (n_key_dir n) (n_pending_envelopes n) (n_tx_queue n) (n_events n) (n_beacon_seq n)
    (n_next_beacon n) (f (n_beacons_sent n)) (n_last_beacon_at n) (n_last_neighbor_count n) (n_next_handle n)
    (n_frag_id n) (n_counters n) (n_opened_envelopes n) (n_attached_anchor n) (n_rx_airtime_ms n)
    (n_last_housekeeping n) (n_last_wake n) (n_slept_at n) (n_pending_fetch n) (n_pending_traces n)
    (n_held_for_sleeping n) (n_hop_pending n).
Definition upd_last_beacon_at (f : Z -> Z) (n : Node) : Node :=
  mkNode
    (n_cfg n) (n_id n) (n_rng n) (n_now n) (n_neighbors n) (n_zone n) (n_routes n) (n_ierp n) (n_rrep_pending n)
    (n_seen n) (n_sched n) (n_transport n) (n_mailbox n) (n_power n) (n_reassembler n) (n_sessions n)
    (n_handshakes n) (n_key_dir n) (n_pending_envelopes n) (n_tx_queue n) (n_events n) (n_beacon_seq n)
    (n_next_beacon n) (n_beacons_sent n) (f (n_last_beacon_at n)) (n_last_neighbor_count n) (n_next_handle n)
    (n_frag_id n) (n_counters n) (n_opened_envelopes n) (n_attached_anchor n) (n_rx_airtime_ms n)
    (n_last_housekeeping n) (n_last_wake n) (n_slept_at n) (n_pending_fetch n) (n_pending_traces n)
    (n_held_for_sleeping n) (n_hop_pending n).
Definition upd_last_neighbor_count (f : Z -> Z) (n : Node) : Node :=
  mkNode
    (n_cfg n) (n_id n) (n_rng n) (n_now n) (n_neighbors n) (n_zone n) (n_routes n) (n_ierp n) (n_rrep_pending n)
    (n_seen n) (n_sched n) (n_transport n) (n_mailbox n) (n_power n) (n_reassembler n) (n_sessions n)
    (n_handshakes n) (n_key_dir n) (n_pending_envelopes n) (n_tx_queue n) (n_events n) (n_beacon_seq n)
    (n_next_beacon n) (n_beacons_sent n) (n_last_beacon_at n) (f (n_last_neighbor_count n)) (n_next_handle n)
    (n_frag_id n) (n_counters n) (n_opened_envelopes n) (n_attached_anchor n) (n_rx_airtime_ms n)
    (n_last_housekeeping n) (n_last_wake n) (n_slept_at n) (n_pending_fetch n) (n_pending_traces n)
    (n_held_for_sleeping n) (n_hop_pending n).
Definition upd_next_handle (f : Z -> Z) (n : Node) : Node :=
  mkNode
    (n_cfg n) (n_id n) (n_rng n) (n_now n) (n_neighbors n) (n_zone n) (n_routes n) (n_ierp n) (n_rrep_pending n)
    (n_seen n) (n_sched n) (n_transport n) (n_mailbox n) (n_power n) (n_reassembler n) (n_sessions n)
    (n_handshakes n) (n_key_dir n) (n_pending_envelopes n) (n_tx_queue n) (n_events n) (n_beacon_seq n)
    (n_next_beacon n) (n_beacons_sent n) (n_last_beacon_at n) (n_last_neighbor_count n) (f (n_next_handle n))
    (n_frag_id n) (n_counters n) (n_opened_envelopes n) (n_attached_anchor n) (n_rx_airtime_ms n)
    (n_last_housekeeping n) (n_last_wake n) (n_slept_at n) (n_pending_fetch n) (n_pending_traces n)
    (n_held_for_sleeping n) (n_hop_pending n).
Definition upd_frag_id (f : Z -> Z) (n : Node) : Node :=
  mkNode
    (n_cfg n) (n_id n) (n_rng n) (n_now n) (n_neighbors n) (n_zone n) (n_routes n) (n_ierp n) (n_rrep_pending n)
    (n_seen n) (n_sched n) (n_transport n) (n_mailbox n) (n_power n) (n_reassembler n) (n_sessions n)
    (n_handshakes n) (n_key_dir n) (n_pending_envelopes n) (n_tx_queue n) (n_events n) (n_beacon_seq n)
    (n_next_beacon n) (n_beacons_sent n) (n_last_beacon_at n) (n_last_neighbor_count n) (n_next_handle n)
    (f (n_frag_id n)) (n_counters n) (n_opened_envelopes n) (n_attached_anchor n) (n_rx_airtime_ms n)
    (n_last_housekeeping n) (n_last_wake n) (n_slept_at n) (n_pending_fetch n) (n_pending_traces n)
    (n_held_for_sleeping n) (n_hop_pending n).
Definition upd_counters (f : Counters -> Counters) (n : Node) : Node :=
  mkNode
    (n_cfg n) (n_id n) (n_rng n) (n_now n) (n_neighbors n) (n_zone n) (n_routes n) (n_ierp n) (n_rrep_pending n)
    (n_seen n) (n_sched n) (n_transport n) (n_mailbox n) (n_power n) (n_reassembler n) (n_sessions n)
    (n_handshakes n) (n_key_dir n) (n_pending_envelopes n) (n_tx_queue n) (n_events n) (n_beacon_seq n)
    (n_next_beacon n) (n_beacons_sent n) (n_last_beacon_at n) (n_last_neighbor_count n) (n_next_handle n)
    (n_frag_id n) (f (n_counters n)) (n_opened_envelopes n) (n_attached_anchor n) (n_rx_airtime_ms n)
    (n_last_housekeeping n) (n_last_wake n) (n_slept_at n) (n_pending_fetch n) (n_pending_traces n)
    (n_held_for_sleeping n) (n_hop_pending n).
Definition upd_opened_envelopes (f : list (Address * Z) -> list (Address * Z)) (n : Node) : Node :=
  mkNode
    (n_cfg n) (n_id n) (n_rng n) (n_now n) (n_neighbors n) (n_zone n) (n_routes n) (n_ierp n) (n_rrep_pending n)
    (n_seen n) (n_sched n) (n_transport n) (n_mailbox n) (n_power n) (n_reassembler n) (n_sessions n)
    (n_handshakes n) (n_key_dir n) (n_pending_envelopes n) (n_tx_queue n) (n_events n) (n_beacon_seq n)
    (n_next_beacon n) (n_beacons_sent n) (n_last_beacon_at n) (n_last_neighbor_count n) (n_next_handle n)
    (n_frag_id n) (n_counters n) (f (n_opened_envelopes n)) (n_attached_anchor n) (n_rx_airtime_ms n)
    (n_last_housekeeping n) (n_last_wake n) (n_slept_at n) (n_pending_fetch n) (n_pending_traces n)
    (n_held_for_sleeping n) (n_hop_pending n).
Definition upd_attached_anchor (f : option Address -> option Address) (n : Node) : Node :=
  mkNode
    (n_cfg n) (n_id n) (n_rng n) (n_now n) (n_neighbors n) (n_zone n) (n_routes n) (n_ierp n) (n_rrep_pending n)
    (n_seen n) (n_sched n) (n_transport n) (n_mailbox n) (n_power n) (n_reassembler n) (n_sessions n)
    (n_handshakes n) (n_key_dir n) (n_pending_envelopes n) (n_tx_queue n) (n_events n) (n_beacon_seq n)
    (n_next_beacon n) (n_beacons_sent n) (n_last_beacon_at n) (n_last_neighbor_count n) (n_next_handle n)
    (n_frag_id n) (n_counters n) (n_opened_envelopes n) (f (n_attached_anchor n)) (n_rx_airtime_ms n)
    (n_last_housekeeping n) (n_last_wake n) (n_slept_at n) (n_pending_fetch n) (n_pending_traces n)
    (n_held_for_sleeping n) (n_hop_pending n).
Definition upd_rx_airtime_ms (f : Z -> Z) (n : Node) : Node :=
  mkNode
    (n_cfg n) (n_id n) (n_rng n) (n_now n) (n_neighbors n) (n_zone n) (n_routes n) (n_ierp n) (n_rrep_pending n)
    (n_seen n) (n_sched n) (n_transport n) (n_mailbox n) (n_power n) (n_reassembler n) (n_sessions n)
    (n_handshakes n) (n_key_dir n) (n_pending_envelopes n) (n_tx_queue n) (n_events n) (n_beacon_seq n)
    (n_next_beacon n) (n_beacons_sent n) (n_last_beacon_at n) (n_last_neighbor_count n) (n_next_handle n)
    (n_frag_id n) (n_counters n) (n_opened_envelopes n) (n_attached_anchor n) (f (n_rx_airtime_ms n))
    (n_last_housekeeping n) (n_last_wake n) (n_slept_at n) (n_pending_fetch n) (n_pending_traces n)
    (n_held_for_sleeping n) (n_hop_pending n).
Definition upd_last_housekeeping (f : Z -> Z) (n : Node) : Node :=
  mkNode
    (n_cfg n) (n_id n) (n_rng n) (n_now n) (n_neighbors n) (n_zone n) (n_routes n) (n_ierp n) (n_rrep_pending n)
    (n_seen n) (n_sched n) (n_transport n) (n_mailbox n) (n_power n) (n_reassembler n) (n_sessions n)
    (n_handshakes n) (n_key_dir n) (n_pending_envelopes n) (n_tx_queue n) (n_events n) (n_beacon_seq n)
    (n_next_beacon n) (n_beacons_sent n) (n_last_beacon_at n) (n_last_neighbor_count n) (n_next_handle n)
    (n_frag_id n) (n_counters n) (n_opened_envelopes n) (n_attached_anchor n) (n_rx_airtime_ms n)
    (f (n_last_housekeeping n)) (n_last_wake n) (n_slept_at n) (n_pending_fetch n) (n_pending_traces n)
    (n_held_for_sleeping n) (n_hop_pending n).
Definition upd_last_wake (f : Z -> Z) (n : Node) : Node :=
  mkNode
    (n_cfg n) (n_id n) (n_rng n) (n_now n) (n_neighbors n) (n_zone n) (n_routes n) (n_ierp n) (n_rrep_pending n)
    (n_seen n) (n_sched n) (n_transport n) (n_mailbox n) (n_power n) (n_reassembler n) (n_sessions n)
    (n_handshakes n) (n_key_dir n) (n_pending_envelopes n) (n_tx_queue n) (n_events n) (n_beacon_seq n)
    (n_next_beacon n) (n_beacons_sent n) (n_last_beacon_at n) (n_last_neighbor_count n) (n_next_handle n)
    (n_frag_id n) (n_counters n) (n_opened_envelopes n) (n_attached_anchor n) (n_rx_airtime_ms n)
    (n_last_housekeeping n) (f (n_last_wake n)) (n_slept_at n) (n_pending_fetch n) (n_pending_traces n)
    (n_held_for_sleeping n) (n_hop_pending n).
Definition upd_slept_at (f : Z -> Z) (n : Node) : Node :=
  mkNode
    (n_cfg n) (n_id n) (n_rng n) (n_now n) (n_neighbors n) (n_zone n) (n_routes n) (n_ierp n) (n_rrep_pending n)
    (n_seen n) (n_sched n) (n_transport n) (n_mailbox n) (n_power n) (n_reassembler n) (n_sessions n)
    (n_handshakes n) (n_key_dir n) (n_pending_envelopes n) (n_tx_queue n) (n_events n) (n_beacon_seq n)
    (n_next_beacon n) (n_beacons_sent n) (n_last_beacon_at n) (n_last_neighbor_count n) (n_next_handle n)
    (n_frag_id n) (n_counters n) (n_opened_envelopes n) (n_attached_anchor n) (n_rx_airtime_ms n)
    (n_last_housekeeping n) (n_last_wake n) (f (n_slept_at n)) (n_pending_fetch n) (n_pending_traces n)
    (n_held_for_sleeping n) (n_hop_pending n).
Definition upd_pending_fetch (f : option (Address * Z * Z) -> option (Address * Z * Z)) (n : Node) : Node :=
  mkNode
    (n_cfg n) (n_id n) (n_rng n) (n_now n) (n_neighbors n) (n_zone n) (n_routes n) (n_ierp n) (n_rrep_pending n)
    (n_seen n) (n_sched n) (n_transport n) (n_mailbox n) (n_power n) (n_reassembler n) (n_sessions n)
    (n_handshakes n) (n_key_dir n) (n_pending_envelopes n) (n_tx_queue n) (n_events n) (n_beacon_seq n)
    (n_next_beacon n) (n_beacons_sent n) (n_last_beacon_at n) (n_last_neighbor_count n) (n_next_handle n)
    (n_frag_id n) (n_counters n) (n_opened_envelopes n) (n_attached_anchor n) (n_rx_airtime_ms n)
    (n_last_housekeeping n) (n_last_wake n) (n_slept_at n) (f (n_pending_fetch n)) (n_pending_traces n)
    (n_held_for_sleeping n) (n_hop_pending n).
Definition upd_pending_traces (f : list (Address * Z) -> list (Address * Z)) (n : Node) : Node :=
  mkNode
    (n_cfg n) (n_id n) (n_rng n) (n_now n) (n_neighbors n) (n_zone n) (n_routes n) (n_ierp n) (n_rrep_pending n)
    (n_seen n) (n_sched n) (n_transport n) (n_mailbox n) (n_power n) (n_reassembler n) (n_sessions n)
    (n_handshakes n) (n_key_dir n) (n_pending_envelopes n) (n_tx_queue n) (n_events n) (n_beacon_seq n)
    (n_next_beacon n) (n_beacons_sent n) (n_last_beacon_at n) (n_last_neighbor_count n) (n_next_handle n)
    (n_frag_id n) (n_counters n) (n_opened_envelopes n) (n_attached_anchor n) (n_rx_airtime_ms n)
    (n_last_housekeeping n) (n_last_wake n) (n_slept_at n) (n_pending_fetch n) (f (n_pending_traces n))
    (n_held_for_sleeping n) (n_hop_pending n).
Definition upd_held_for_sleeping (f : list (Address * Packet * Z) -> list (Address * Packet * Z)) (n : Node) : Node :=
  mkNode
    (n_cfg n) (n_id n) (n_rng n) (n_now n) (n_neighbors n) (n_zone n) (n_routes n) (n_ierp n) (n_rrep_pending n)
    (n_seen n) (n_sched n) (n_transport n) (n_mailbox n) (n_power n) (n_reassembler n) (n_sessions n)
    (n_handshakes n) (n_key_dir n) (n_pending_envelopes n) (n_tx_queue n) (n_events n) (n_beacon_seq n)
    (n_next_beacon n) (n_beacons_sent n) (n_last_beacon_at n) (n_last_neighbor_count n) (n_next_handle n)
    (n_frag_id n) (n_counters n) (n_opened_envelopes n) (n_attached_anchor n) (n_rx_airtime_ms n)
    (n_last_housekeeping n) (n_last_wake n) (n_slept_at n) (n_pending_fetch n) (n_pending_traces n)
    (f (n_held_for_sleeping n)) (n_hop_pending n).
Definition upd_hop_pending (f : list HopPending -> list HopPending) (n : Node) : Node :=
  mkNode
    (n_cfg n) (n_id n) (n_rng n) (n_now n) (n_neighbors n) (n_zone n) (n_routes n) (n_ierp n) (n_rrep_pending n)
    (n_seen n) (n_sched n) (n_transport n) (n_mailbox n) (n_power n) (n_reassembler n) (n_sessions n)
    (n_handshakes n) (n_key_dir n) (n_pending_envelopes n) (n_tx_queue n) (n_events n) (n_beacon_seq n)
    (n_next_beacon n) (n_beacons_sent n) (n_last_beacon_at n) (n_last_neighbor_count n) (n_next_handle n)
    (n_frag_id n) (n_counters n) (n_opened_envelopes n) (n_attached_anchor n) (n_rx_airtime_ms n)
    (n_last_housekeeping n) (n_last_wake n) (n_slept_at n) (n_pending_fetch n) (n_pending_traces n)
    (n_held_for_sleeping n) (f (n_hop_pending n)).
End Node.
Arguments Node : clear implicits.

(** * The method monad *)

Notation M R := (St (Node R) Error).

Section Basics.
Context {R : Type} `{RngCore R}.
Notation M := (M R).

Definition count (k : Counter) : M unit := modify (upd_counters (add_counter k 1)).
Definition address : M Address := gets (fun n => id_address (n_id n)).

(** [self.rng.next_u32()], [self.rng.next_u64()]. *)
Definition rand_u32 : M Z := call n_rng upd_rng (fun r => let '(z, r) := next_u32 r in (r, z)).
Definition rand_u64 : M Z := call n_rng upd_rng (fun r => let '(z, r) := next_u64 r in (r, z)).

Definition emit (e : NodeEvent) : M unit :=
  modify (upd_events (fun l => if decide (zlen l < 256) then l ++ [e] else l)).

(** The loop runs until the generator gives a value other than 0; a run of
    [ID_DRAWS] zeros counts as a failure of the generator. *)
Definition ID_DRAWS : nat := 64.
Fixpoint draw_id (fuel : nat) (r : R) : R * outcome Error Z :=
  match fuel with
  | O => (r, Panic)
  | S fuel' => let '(id, r) := next_u32 r in if decide (id <> 0) then (r, Ok id) else draw_id fuel' r
  end.
Definition new_packet_id : M Z := try_call n_rng upd_rng (draw_id ID_DRAWS).

Definition new_handle : M Z :=
  h ← gets n_next_handle;
  modify (upd_next_handle (fun h => Z.max (u32 (h + 1)) 1));;
  mret h.

Definition congestion : M Z :=
  now ← gets n_now;
  tx ← call n_power upd_power (PowerManager.airtime_permille now);
  window ← gets (fun n => Z.max (airtime_window_ms (c_power (n_cfg n))) 1);
  rx ← gets (fun n => u64 (n_rx_airtime_ms n * 1000) / window);
  mret (Z.min (u64 (u64 (tx + rx) * 255) / 250) 255).

Definition next_event : M (option NodeEvent) :=
  call n_events upd_events (fun l => match l with e :: l' => (l', Some e) | [] => ([], None) end).
Definition has_events (n : Node R) : bool := negb (bool_decide (zlen (n_events n) = 0)).
Definition add_known_identity (id : PublicIdentity) : M unit := modify (upd_key_dir (map_insert (pi_address id) id)).
Definition is_awake (n : Node R) : bool := pm_awake (n_power n).
Definition tx_queue_len (n : Node R) : Z := zlen (n_tx_queue n).
Definition known_key (a : Address) (n : Node R) : option PublicIdentity := SmallMap.get (n_key_dir n) a.
End Basics.
