(* ===== verification/NodeTx.v ===== *)
(** * The node engine: transmit path

    [crates/meshstar-core/src/node/tx.rs] and the sending half of
    [node/session.rs] ([start_handshake], [send_handshake_packet]): from the
    application's messages, the acknowledgements, beacons and route control down
    to the transmit queue. *)
From stdpp Require Import base tactics list numbers.
From Stdlib Require Import Lia.
From S2P Require Import Prelude SmallMap Float32 Protocol Packet Fragmentation CryptoLib Identity Noise Replay Session Transport StoreForward Storm Routing Messages Ierp Power Beacon Radio Neighbor Zone Methods NodeState.

Module prio.
Definition CONTROL : Z := 0.
Definition DATA : Z := 1.
Definition BEACON : Z := 2.
Definition RELAY : Z := 3.
End prio.

(** Assignments to header fields. *)
Definition h_with_flags (v : Z) (h : Header) : Header :=
  mkHeader (h_ptype h) v (h_ttl h) (h_hops h) (h_src h) (h_dst h) (h_packet_id h) (h_seq h) (h_next_hop h) (h_relay h).
Definition h_with_packet_id (v : Z) (h : Header) : Header :=
  mkHeader (h_ptype h) (h_flags h) (h_ttl h) (h_hops h) (h_src h) (h_dst h) v (h_seq h) (h_next_hop h) (h_relay h).
Definition h_with_seq (v : Z) (h : Header) : Header :=
  mkHeader (h_ptype h) (h_flags h) (h_ttl h) (h_hops h) (h_src h) (h_dst h) (h_packet_id h) v (h_next_hop h) (h_relay h).
Definition h_with_next_hop (v : Z) (h : Header) : Header :=
  mkHeader (h_ptype h) (h_flags h) (h_ttl h) (h_hops h) (h_src h) (h_dst h) (h_packet_id h) (h_seq h) v (h_relay h).
Definition h_with_relay (v : Z) (h : Header) : Header :=
  mkHeader (h_ptype h) (h_flags h) (h_ttl h) (h_hops h) (h_src h) (h_dst h) (h_packet_id h) (h_seq h) (h_next_hop h) v.
(** [h.ttl -= 1; h.hops = h.hops.saturating_add(1)]: one more hop. *)
Definition h_hop (h : Header) : Header :=
  mkHeader (h_ptype h) (h_flags h) (u8 (h_ttl h - 1)) (sat_add 8 (h_hops h) 1) (h_src h) (h_dst h) (h_packet_id h)
    (h_seq h) (h_next_hop h) (h_relay h).
Definition on_header (f : Header -> Header) (p : Packet) : Packet := mkPacket (f (p_header p)) (p_payload p).

Definition transport_aad (h : Header) (frag : option Z) : list Z :=
  let hh := h_with_flags (clear_bits (h_flags h) flags.FRAGMENTED) h in
  match frag with
  | Some f => header_aad (h_with_packet_id f hh) 0
  | None => header_aad hh 0
  end.

(** [prologue] of [node/session.rs]. *)
Definition prologue (initiator responder : Address) : list Z :=
  [77; 101; 115; 104; 83; 116; 97; 114; 47; 120; 120; 47; 118; 49] ++ addr_bytes initiator ++ addr_bytes responder.

(** [u8::clamp], which panics when the bounds cross. *)
Definition clamp (lo hi x : Z) : Result Z := if decide (lo <= hi) then Ok (Z.max lo (Z.min x hi)) else Panic.

(** Assignments to beacon fields. *)
Definition bc_with_sleep (v : Z) (b : Beacon) : Beacon :=
  mkBeacon (bc_role b) (bc_seq b) (bc_zone_radius b) (bc_neighbor_count b) (bc_battery_percent b) v
    (bc_awake_window_ms b) (bc_mailbox_available b) (bc_full b) (bc_attached b) (bc_zone b).
Definition bc_with_window (v : Z) (b : Beacon) : Beacon :=
  mkBeacon (bc_role b) (bc_seq b) (bc_zone_radius b) (bc_neighbor_count b) (bc_battery_percent b) (bc_sleep_interval_s b)
    v (bc_mailbox_available b) (bc_full b) (bc_attached b) (bc_zone b).
Definition bc_with_mailbox (v : bool) (b : Beacon) : Beacon :=
  mkBeacon (bc_role b) (bc_seq b) (bc_zone_radius b) (bc_neighbor_count b) (bc_battery_percent b) (bc_sleep_interval_s b)
    (bc_awake_window_ms b) v (bc_full b) (bc_attached b) (bc_zone b).
Definition bc_with_attached (v : list Address) (b : Beacon) : Beacon :=
  mkBeacon (bc_role b) (bc_seq b) (bc_zone_radius b) (bc_neighbor_count b) (bc_battery_percent b) (bc_sleep_interval_s b)
    (bc_awake_window_ms b) (bc_mailbox_available b) (bc_full b) v (bc_zone b).
Definition bc_with_zone (v : list ZoneEntry) (b : Beacon) : Beacon :=
  mkBeacon (bc_role b) (bc_seq b) (bc_zone_radius b) (bc_neighbor_count b) (bc_battery_percent b) (bc_sleep_interval_s b)
    (bc_awake_window_ms b) (bc_mailbox_available b) (bc_full b) (bc_attached b) v.

(** The two [while b.encoded_len() > budget] loops: each round pops one entry,
    so the number of entries is enough rounds. *)
Fixpoint trim_zone (fuel : nat) (budget : Z) (b : Beacon) : Beacon :=
  match fuel with
  | O => b
  | S fuel' =>
      if decide (Beacon.encoded_len b > budget /\ bc_zone b <> [])
      then trim_zone fuel' budget (bc_with_zone (take (length (bc_zone b) - 1) (bc_zone b)) b) else b
  end.
Fixpoint trim_attached (fuel : nat) (budget : Z) (b : Beacon) : Beacon :=
  match fuel with
  | O => b
  | S fuel' =>
      if decide (Beacon.encoded_len b > budget /\ bc_attached b <> [])
      then trim_attached fuel' budget (bc_with_attached (take (length (bc_attached b) - 1) (bc_attached b)) b) else b
  end.

(** The [acks_sent] statistic of the transport. *)
Definition set_t_stats (f : TransportStats -> TransportStats) (t : Transport) : Transport :=
  mkTransport (t_cfg t) (t_outstanding t) (t_windows t) (t_next_seq t) (f (t_stats t)).
Definition add_acks_sent (s : TransportStats) : TransportStats :=
  mkTransportStats (st_sent s) (st_retries s) (st_acked s) (st_failed s) (st_duplicates_dropped s)
    (u32 (st_acks_sent s + 1)) (st_stored_at_anchor s).

Section Tx.
Context `{C : CryptoLib} {R : Type} `{RngCore R}.
Notation M := (St (Node R) Error).
Implicit Types (n : Node R) (p : Packet) (dst peer to anchor : Address) (now : Z).

(** ** Helpers over the state *)

Definition mailbox_call {A} (f : Mailbox -> Mailbox * A) : M (option A) :=
  call n_mailbox upd_mailbox (fun o => match o with Some m => let '(m, a) := f m in (Some m, Some a) | None => (None, None) end).
(** [self.sessions.get_mut(&dst).ok_or(Error::NoSession)?.m()]. *)
Definition with_session {A} dst (m : St Session Error A) : M A := fun n =>
  match SmallMap.get (n_sessions n) dst with
  | Some s => let '(s, r) := m s in (upd_sessions (fun l => SmallMap.update l dst (fun _ => s)) n, r)
  | None => (n, Err NoSession)
  end.
Definition has_session dst : M bool := gets (fun n => SmallMap.contains_key (n_sessions n) dst).
Definition is_neighbor (a : Address) n : bool := NeighborTable.contains a (n_neighbors n).
Definition neighbor (a : Address) n : option Neighbor := NeighborTable.get a (n_neighbors n).
Definition update_neighbor (a : Address) (f : Neighbor -> Neighbor) : M unit :=
  modify (upd_neighbors (fun t => set_neighbors (SmallMap.update (nt_map t) a f) t)).
Definition my_role : M Role := gets (fun n => c_role (n_cfg n)).
Definition airtime (len : Z) : M Z := prof ← gets (fun n => c_profile (n_cfg n)); lift (LoRaProfile.airtime_ms prof len).

(** ** The transmit queue *)

Definition enqueue_packet p (not_before priority : Z) (is_relay : bool) : M bool :=
  key ← gets (fun n => c_network_key (n_cfg n));
  r ← attempt (lift (packet_encode hmac_sha256 p key));
  match r with
  | inl _ => count ct_tx_errors;; mret false
  | inr frame =>
      q ← gets n_tx_queue;
      max ← gets (fun n => c_max_tx_queue (n_cfg n));
      let item := mkTxItem frame not_before (h_ptype (p_header p)) priority is_relay (h_dst (p_header p)) in
      let push := modify (upd_tx_queue (fun q => q ++ [item]));; mret true in
      if decide (zlen q >= max) then
        match max_by_key (fun e => tx_priority e.2) (retain (fun e => tx_is_relay e.2) (imap pair q)) with
        | Some (i, _) =>
            modify (upd_tx_queue (SmallMap.vec_remove i));;
            count ct_tx_dropped;;
            push
        | None => count ct_tx_dropped;; mret false
        end
      else push
  end.

Definition hop_timeout (len : Z) : M Z :=
  a ← airtime len;
  cfg ← gets n_cfg;
  mret (u64 (3 * a + c_unicast_forward_jitter_ms cfg + c_hop_ack_timeout_ms cfg)).

Definition track_hop p (next_hop : Address) now (is_relay : bool) : M unit :=
  cfg ← gets n_cfg;
  pend ← gets n_hop_pending;
  if decide (c_hop_retries cfg = 0 \/ zlen pend >= 24) then mret () else
  let key := h_key (p_header p) in
  modify (upd_hop_pending (retain (fun h => negb (bool_decide (hp_key h = key)))));;
  update_neighbor next_hop Neighbor.record_tx_attempt;;
  t ← hop_timeout (wire_len p);
  r ← rand_u64;
  let due := u64 (u64 (now + t) + r mod 200) in
  modify (upd_hop_pending (fun l => l ++ [mkHopPending key next_hop p 1 due is_relay false])).

Definition hop_confirmed (key : PacketKey) (from : Address) : M unit :=
  before ← gets (fun n => zlen (n_hop_pending n));
  modify (upd_hop_pending (retain (fun h => negb (bool_decide (hp_key h = key) && bool_decide (hp_next_hop h = from)))));;
  after ← gets (fun n => zlen (n_hop_pending n));
  when (bool_decide (before <> after)) (
    modify (upd_neighbors (NeighborTable.record_success from));;
    update_neighbor from Neighbor.record_tx_confirmed).

(** ** Next hop, time to live, headers *)

(** The [consider] closure. *)
Definition consider (cost : Z) (nh : Address) (best : option (Z * Address)) : option (Z * Address) :=
  match best with
  | Some (c, _) => if decide (cost < c) then Some (cost, nh) else best
  | None => Some (cost, nh)
  end.

Definition consider_link dst now n (best : option (Z * Address)) : option (Z * Address) :=
  match neighbor dst n with
  | Some nb =>
      if negb (Neighbor.is_sleeping now nb) || bool_decide (c_role (n_cfg n) = Anchor)
      then consider (link_cost (Neighbor.link_quality nb) 0) dst best else best
  | None => best
  end.
Definition consider_zone dst n (best : option (Z * Address)) : option (Z * Address) :=
  match ZoneTable.get dst (n_zone n) with
  | Some z =>
      match neighbor (zn_next_hop z) n with
      | Some nh =>
          let per_hop := link_cost (Z.min (zn_quality z) (Neighbor.link_quality nh)) 0 in
          consider (u32 (per_hop * zn_distance z)) (zn_next_hop z) best
      | None => best
      end
  | None => best
  end.
Definition consider_route dst now n (best : option (Z * Address)) : option (Z * Address) :=
  match RouteCache.lookup dst now (n_routes n) with
  | Some r =>
      match neighbor (r_next_hop r) n with
      | Some nh => consider (Z.max (effective_cost r now) (link_cost (Neighbor.link_quality nh) 0)) (r_next_hop r) best
      | None => if decide (r_hops r <= 1) then consider (effective_cost r now) (r_next_hop r) best else best
      end
  | None => best
  end.

Definition next_hop_for dst now n : option Address :=
  match consider_route dst now n (consider_zone dst n (consider_link dst now n None)) with
  | Some (_, nh) => Some nh
  | None =>
      if decide (c_role (n_cfg n) = Leaf) then
        match n_attached_anchor n with
        | Some a => if is_neighbor a n then Some a else nb_addr <$> NeighborTable.best_relay (n_neighbors n)
        | None => nb_addr <$> NeighborTable.best_relay (n_neighbors n)
        end
      else None
  end.

Definition ttl_for dst n : Z :=
  let max := c_max_ttl (n_cfg n) in
  if is_neighbor dst n then Z.min 2 max else
  match ZoneTable.get dst (n_zone n) with
  | Some z => Z.min (u8 (zn_distance z + 2)) max
  | None =>
      match RouteCache.lookup dst (n_now n) (n_routes n) with
      | Some r => Z.min (sat_add 8 (r_hops r) 4) max
      | None => c_default_ttl (n_cfg n)
      end
  end.

Definition base_header (ptype : PacketType) dst (ttl : Z) : M Header :=
  id ← new_packet_id;
  me ← address;
  cfg ← gets n_cfg;
  ttl ← lift (clamp 1 (c_max_ttl cfg) ttl);
  let h := h_with_relay (addr_short me) (header_new ptype me dst id 0 ttl) in
  mret (if c_network_key cfg then h_set h flags.NET_AUTH true else h).

(** ** Route control *)

Definition send_route_request (target : Address) (req_id ttl now : Z) : M unit :=
  h ← base_header RouteRequest BROADCAST ttl;
  let h := h_with_packet_id req_id h in
  want ← gets (fun n => existsb (fun e => bool_decide (pe_dst e = target)) (n_pending_envelopes n)
                        || negb (SmallMap.contains_key (n_key_dir n) target));
  let rflags := if (want : bool) then Z.lor rreq_flags.PROXY_OK rreq_flags.WANT_KEY else rreq_flags.PROXY_OK in
  hs ← gets (fun n => match SmallMap.get (n_handshakes n) target with
                      | Some h => if decide (hs_role (ph_hs h) = Initiator) then ph_m1 h else []
                      | None => [] end);
  when (negb (Z.land rflags rreq_flags.WANT_KEY =? 0)) (count ct_key_requests_sent);;
  count ct_rreq_sent;;
  enqueue_packet (mkPacket h (messages.rreq_encode (messages.mkRouteRequest target 0 rflags hs))) now prio.BEACON false;;
  mret ().

Definition may_start dst now : M bool := gets (fun n => Ierp.may_start dst now (n_ierp n)).
(** [let req_id = self.new_packet_id(); let ttl = self.ierp.start(dst, req_id, now)]. *)
Definition start_discovery dst now : M (Z * Z) :=
  req_id ← new_packet_id;
  ttl ← call n_ierp upd_ierp (Ierp.start dst req_id now);
  mret (req_id, ttl).

Definition route_unicast p now : M unit :=
  let dst := h_dst (p_header p) in
  mode ← gets (fun n => c_routing_mode (n_cfg n));
  if decide (mode = Flood) then
    enqueue_packet (on_header (h_with_next_hop NEXT_HOP_ANY) p) now prio.DATA false;; mret ()
  else
  nh ← gets (next_hop_for dst now);
  match nh with
  | Some nh =>
      let p := on_header (h_with_next_hop (addr_short nh)) p in
      modify (upd_routes (RouteCache.touch dst nh now));;
      let pr := if decide (h_ptype (p_header p) = Data) then prio.DATA else prio.CONTROL in
      track_hop p nh now false;;
      enqueue_packet p now pr false;;
      mret ()
  | None =>
      pending ← gets (fun n => Ierp.is_pending dst (n_ierp n));
      if pending : bool then
        ok ← call n_ierp upd_ierp (Ierp.queue dst p);
        ensure ok Full
      else
      may ← may_start dst now;
      ensure may NoRoute;;
      '(req_id, ttl) ← start_discovery dst now;
      call n_ierp upd_ierp (Ierp.queue dst p);;
      send_route_request dst req_id ttl now
  end.

Definition send_route_reply (origin : Address) (reply : messages.RouteReply) now : M unit :=
  nh ← gets (next_hop_for origin now);
  mode ← gets (fun n => c_routing_mode (n_cfg n));
  if decide (nh = None /\ mode <> Flood) then mret () else
  ok ← call n_ierp upd_ierp (Ierp.mark_replied origin (messages.rp_req_id reply));
  if negb ok then mret () else
  ttl ← gets (ttl_for origin);
  h ← base_header RouteReply origin ttl;
  delay ← gets (fun n => max_delay_ms (c_storm (n_cfg n)));
  r ← rand_u64;
  let jitter := u64 (delay + 50 + Z.min (messages.rp_cost reply) 1500 + r mod 400) in
  modify (upd_rrep_pending (PendingReplies.schedule origin (messages.rp_req_id reply) (messages.rp_cost reply)
    (u64 (now + jitter)) (mkPacket h (messages.rrep_encode reply)))).

Definition send_route_error to (unreachable : Address) now : M unit :=
  me ← address;
  if decide (to = me) then mret () else
  ttl ← gets (ttl_for to);
  h ← base_header RouteError to ttl;
  let p := mkPacket h (messages.rerr_encode (messages.mkRouteError [unreachable])) in
  count ct_rerr_sent;;
  nh ← gets (next_hop_for to now);
  when (bool_decide (nh <> None)) (ignore (route_unicast p now)).

(** ** Beacons *)

(** The beacon's schedule: the next one, in the node's state. *)
Definition schedule_beacon now : M unit :=
  ncount ← gets (fun n => NeighborTable.len (n_neighbors n));
  last ← gets n_last_neighbor_count;
  let changed := bool_decide (ncount <> last) in
  modify (upd_last_neighbor_count (fun _ => ncount));;
  mult ← call n_power upd_power (PowerManager.beacon_multiplier changed);
  cfg ← gets n_cfg;
  let base := u64 (beacon_interval_ms (c_neighbor cfg) * mult) in
  r ← rand_u64;
  let jitter := r mod Z.max (beacon_jitter_ms (c_neighbor cfg)) 1 in
  modify (upd_next_beacon (fun _ => u64 (u64 (now + base) + jitter)));;
  when (bool_decide (c_role cfg = Leaf)) (modify (upd_next_beacon (fun _ => u64 (now + beacon_interval_ms (c_neighbor cfg)))));;
  modify (upd_last_beacon_at (fun _ => now));;
  modify (upd_beacon_seq (fun s => u16 (s + 1))).

(** The beacon built from the state, within the payload budget. *)
Definition build_beacon now (full : bool) n : Beacon :=
  let cfg := n_cfg n in
  let ncount := NeighborTable.len (n_neighbors n) in
  let b := Beacon.short (c_role cfg) (n_beacon_seq n) (ZoneTable.radius (n_zone n)) (Z.min ncount 255) in
  let b := if full then Beacon.sign (n_id n) (u32 (now / 1000)) b else b in
  let b := bc_with_sleep (Z.min (div_ceil (u64 (n_next_beacon n - now)) 1000) U16_MAX) b in
  let b := match pc_mode (c_power cfg) with
    | LeafMode wake_interval_s awake_window_ms =>
        let remaining := Z.min (sat_sub (pm_awake_until (n_power n)) now) U16_MAX in
        let b := bc_with_window (Z.max remaining (Z.min awake_window_ms (Z.max remaining 1))) (bc_with_sleep wake_interval_s b) in
        match n_attached_anchor n with Some a => bc_with_attached (bc_attached b ++ [a]) b | None => b end
    | _ => b
    end in
  let b := if role_relays (c_role cfg) then
      bc_with_attached (take 8 (nb_addr <$> NeighborTable.hosted_leaves (n_neighbors n)))
        (bc_with_mailbox (match n_mailbox n with Some m => Mailbox.has_space m | None => false end) b)
    else b in
  let budget := max_payload (bool_decide (is_Some (c_network_key cfg))) in
  let b := if decide (c_role cfg <> Leaf) then
      let entries := ZoneTable.advertisement (max_advertised_entries (c_zrp cfg)) (n_beacons_sent n) (n_zone n) in
      trim_zone (length entries) budget (bc_with_zone entries b)
    else b in
  trim_attached (length (bc_attached b)) budget b.

Definition send_beacon now : M unit :=
  schedule_beacon now;;
  cfg ← gets n_cfg;
  sent ← gets n_beacons_sent;
  let full := bool_decide (sent mod Z.max (full_beacon_every (c_neighbor cfg)) 1 = 0) || bool_decide (c_role cfg = Leaf) in
  modify (upd_beacons_sent (fun s => u32 (s + 1)));;
  b ← gets (build_beacon now full);
  h ← base_header Protocol.Beacon BROADCAST 1;
  count ct_beacons_sent;;
  let pr := if decide (c_role cfg = Leaf) then prio.CONTROL else prio.BEACON in
  enqueue_packet (mkPacket h (Beacon.encode b)) now pr false;;
  mret ().

(** ** Handshakes, sending side ([node/session.rs]) *)

Definition send_handshake_packet peer (no : HandshakeMessage) (msg : list Z) now : M unit :=
  ttl ← gets (ttl_for peer);
  h ← base_header Handshake peer ttl;
  ignore (route_unicast (mkPacket h (hsmsg_u8 no :: msg)) now).

(** [HandshakeXX::new(role, &self.id, &prologue, &mut self.rng)]. *)
Definition new_handshake (role : NoiseRole) (initiator responder : Address) : M HandshakeXX := fun n =>
  let '(hs, rng) := hs_new role (n_id n) (prologue initiator responder) (n_rng n) in
  (upd_rng (fun _ => rng) n, Ok hs).
(** A call on a handshake object held in a local variable. *)
Definition run_hs {A} (m : St HandshakeXX Error A) (hs : HandshakeXX) : M (HandshakeXX * (Error + A)) :=
  lift (match m hs with
        | (hs, Ok a) => Ok (hs, inr a) | (hs, Err e) => Ok (hs, inl e) | (_, Panic) => Panic end).

Definition start_handshake peer now : M unit :=
  busy ← gets (fun n => SmallMap.contains_key (n_handshakes n) peer);
  me ← address;
  if (busy : bool) || bool_decide (peer = me) then mret () else
  epoch ← gets (fun n => match SmallMap.get (n_sessions n) peer with Some s => u8 (s_epoch s + 1) | None => 0 end);
  hs ← new_handshake Initiator me peer;
  role ← my_role;
  '(hs, r) ← run_hs (write_message_1 [role_u8 role; epoch]) hs;
  match r with
  | inl _ => mret ()
  | inr m1 =>
      modify (upd_handshakes (map_insert peer (mkPendingHandshake hs now epoch [] 1 m1 (replicate 32 0) [])));;
      count ct_handshakes_started;;
      send_handshake_packet peer One m1 now
  end.

(** ** Session traffic *)

Definition next_seq : M Z := call n_transport upd_transport Transport.next_seq.

(** The [for] loop over the fragments; the first keeps the packet id. *)
Definition send_fragments (h : Header) (parts : list (FragHeader * list Z)) (send : Packet -> M unit) : M unit :=
  for_each (imap pair parts) (fun '(i, (fh, data)) =>
    hh ← (if decide (i <> 0%nat) then id ← new_packet_id; mret (h_with_packet_id id h) else mret h);
    send (mkPacket hh (frame_fragment fh data))).

Definition send_session_packet dst (ptype : PacketType) (body : list Z) (seq : Z) (ack_request : bool) now : M unit :=
  ttl ← gets (ttl_for dst);
  h ← base_header ptype dst ttl;
  role ← my_role;
  let h := h_set (h_set (h_with_seq seq h) flags.ENCRYPTED true) flags.ACK_REQUEST ack_request in
  let h := if decide (role = Leaf) then h_set h flags.LEAF_SOURCE true else h in
  let single_max := max_payload (h_has h flags.NET_AUTH) in
  let ct_len := usize (zlen body + TRANSPORT_OVERHEAD) in
  let fragmented := bool_decide (ct_len > single_max) in
  fid ← (if fragmented then
           modify (upd_frag_id (fun f => u16 (f + 1)));; f ← gets n_frag_id; mret (Some f)
         else mret None);
  let h := if fragmented then h_set h flags.FRAGMENTED true else h in
  let aad := transport_aad h fid in
  ct ← with_session dst (Session.encrypt now aad body);
  if negb fragmented then route_unicast (mkPacket h ct) now else
  let chunk := single_max - FRAG_HEADER_LEN in
  f ← lift (unwrap fid);
  parts ← lift (ok_or (Fragmentation.split f ct chunk) TooLarge);
  send_fragments h parts (fun p => route_unicast p now);;
  modify (upd_counters (add_counter ct_fragments_sent (u32 (zlen parts)))).

Definition send_ack to (seq status : Z) now : M unit :=
  s ← has_session to;
  when s (
    q ← next_seq;
    ignore (send_session_packet to Protocol.Ack (ack_encode (mkAck seq status)) q false now);;
    modify (upd_transport (set_t_stats add_acks_sent))).

Definition send_control to (sub : Z) (body : list Z) now : M unit :=
  s ← has_session to;
  when s (q ← next_seq; ignore (send_session_packet to Control (sub :: body) q false now)).

Definition send_fetch anchor now : M unit :=
  leaf ← gets (fun n => match neighbor anchor n with Some nb => negb (role_relays (nb_role nb)) | None => false end);
  if leaf : bool then mret () else
  s ← has_session anchor;
  (if s : bool then
     q ← next_seq;
     ignore (send_session_packet anchor Fetch [8] q false now)
   else
     start_handshake anchor now;;
     modify (upd_handshakes (fun m => SmallMap.update m anchor (ph_push (mkQueuedSend anchor [] Unreliable 0 now)))));;
  count ct_fetch_sent.

Definition send_link_ack to (packet_id : Z) now : M unit :=
  h ← base_header Control to 1;
  let h := h_with_next_hop (addr_short to) h in
  count ct_link_acks_sent;;
  enqueue_packet (mkPacket h (control.LINK_ACK :: be_bytes 4 packet_id)) now prio.CONTROL false;;
  mret ().

(** ** Envelopes *)

Definition send_envelope_data dst (envelope_id : Z) (envelope : list Z) now : M unit :=
  ttl ← gets (ttl_for dst);
  h ← base_header Data dst ttl;
  q ← next_seq;
  let h := h_with_seq q (h_set (h_set h flags.ENVELOPE true) flags.STORE_FORWARD true) in
  let body := frame_envelope envelope_id envelope in
  let single_max := max_payload (h_has h flags.NET_AUTH) in
  if decide (zlen body <= single_max) then ignore (route_unicast (mkPacket h body) now) else
  let h := h_set h flags.FRAGMENTED true in
  modify (upd_frag_id (fun f => u16 (f + 1)));;
  fid ← gets n_frag_id;
  let chunk := single_max - FRAG_HEADER_LEN in
  match Fragmentation.split fid body chunk with
  | Some parts => send_fragments h parts (fun p => ignore (route_unicast p now);; count ct_fragments_sent)
  | None => mret ()
  end.

Definition flush_mailbox_to dst now : M unit :=
  items ← mailbox_call (Mailbox.take_deliverable dst now 4);
  match items with
  | Some items => for_each items (fun '(id, env) => send_envelope_data dst id env now)
  | None => mret ()
  end.

Definition send_store anchor dst (envelope_id : Z) (envelope : list Z) now : M unit :=
  ttl_s ← gets (fun n => c_envelope_ttl_s (n_cfg n));
  let payload := store_encode (mkStoreRequest dst envelope_id ttl_s envelope) in
  s ← has_session anchor;
  if s : bool then
    q ← next_seq;
    ignore (send_session_packet anchor Store payload q false now);;
    count ct_store_sent
  else
    start_handshake anchor now;;
    modify (upd_handshakes (fun m => SmallMap.update m anchor (ph_push (mkQueuedSend anchor payload Unreliable U32_MAX now)))).

Definition route_unicast_envelope dst (envelope_id : Z) (env : list Z) now : M unit :=
  nh ← gets (next_hop_for dst now);
  cfg ← gets n_cfg;
  if decide (nh = None /\ c_routing_mode cfg = Zrp) then
    h ← base_header Data dst (c_default_ttl cfg);
    let h := h_set (h_set h flags.ENVELOPE true) flags.STORE_FORWARD true in
    let body := frame_envelope envelope_id env in
    ensure (bool_decide (zlen body <= max_payload (h_has h flags.NET_AUTH))) TooLarge;;
    route_unicast (mkPacket h body) now
  else send_envelope_data dst envelope_id env now.

(** The first branch of [deliver_envelope]: the destination is a leaf hosted
    here.  The result says whether the mailbox took the envelope. *)
Definition deliver_locally dst (envelope_id : Z) (env : list Z) now : M bool :=
  cfg ← gets n_cfg;
  nb ← gets (neighbor dst);
  match nb with
  | Some nb =>
      if role_relays (c_role cfg) && NeighborTable.hosted nb then
        me ← address;
        r ← mailbox_call (Mailbox.store now me (mkStoreRequest dst envelope_id (c_envelope_ttl_s cfg) env));
        match r with
        | Some (Ok _) =>
            call n_transport upd_transport (Transport.on_store_accepted envelope_id);;
            when (negb (Neighbor.is_sleeping now nb)) (flush_mailbox_to dst now);;
            mret true
        | _ => mret false
        end
      else mret false
  | None => mret false
  end.

Definition deliver_envelope dst (envelope_id : Z) (env : list Z) now : M unit :=
  done ← deliver_locally dst envelope_id env now;
  if done : bool then mret () else
  anchor ← gets (fun n =>
    match ZoneTable.anchor_for dst (n_zone n) with
    | Some a => Some a
    | None => match RouteCache.lookup dst now (n_routes n) with Some r => r_via_anchor r | None => None end
    end);
  match anchor with
  | Some a => send_store a dst envelope_id env now
  | None =>
      r ← attempt (route_unicast_envelope dst envelope_id env now);
      match r with
      | inr _ => mret ()
      | inl _ =>
          best ← gets (fun n => NeighborTable.best_anchor (n_neighbors n));
          match best with
          | Some nb => send_store (nb_addr nb) dst envelope_id env now
          | None => mret ()
          end
      end
  end.

Definition failed_event (handle : Z) to (reason : FailReason) : M unit := emit (Failed handle to reason).

Definition seal_and_send_envelope dst (payload : list Z) (handle now : Z) : M unit :=
  pk ← gets (fun n => SmallMap.get (n_key_dir n) dst);
  match pk with
  | None => failed_event handle dst FrNoKey
  | Some pk =>
      envelope_id ← new_packet_id;
      id ← gets n_id;
      r ← attempt (try_call n_rng upd_rng (fun rng => let '(o, rng) := seal_envelope id pk envelope_id payload rng in (rng, o)));
      match r with
      | inl _ => failed_event handle dst FrNoKey
      | inr env =>
          if decide (usize (zlen env + 4) > 1500) then failed_event handle dst FrTooLarge else
          let o := mkOutstanding dst 0 handle StoreAndForward env 0 0 now (Some envelope_id) false None in
          t ← attempt (try_call n_transport upd_transport (Transport.track o now));
          match t with
          | inl _ => failed_event handle dst FrQueueFull
          | inr _ => deliver_envelope dst envelope_id env now
          end
      end
  end.

(** [if self.ierp.may_start(..) { .. start .. send_route_request }]. *)
Definition discover dst now : M unit :=
  may ← may_start dst now;
  when may ('(req_id, ttl) ← start_discovery dst now; send_route_request dst req_id ttl now).

Definition queue_envelope dst (payload : list Z) (handle now : Z) : M unit :=
  known ← gets (fun n => SmallMap.contains_key (n_key_dir n) dst);
  if known : bool then seal_and_send_envelope dst payload handle now else
  len ← gets (fun n => zlen (n_pending_envelopes n));
  if decide (len >= 16) then failed_event handle dst FrQueueFull else
  modify (upd_pending_envelopes (fun l => l ++ [mkPendingEnvelope dst payload handle now]));;
  discover dst now.

Definition try_pending_envelopes dst now : M unit :=
  pend ← gets (fun n => retain (fun e => bool_decide (pe_dst e = dst)) (n_pending_envelopes n));
  modify (upd_pending_envelopes (retain (fun e => negb (bool_decide (pe_dst e = dst)))));;
  for_each pend (fun e => seal_and_send_envelope dst (pe_payload e) (pe_handle e) now).

(** ** Application messages *)

Definition send_data_in_session (q : QueuedSend) now : M unit :=
  seq ← next_seq;
  let ack := bool_decide (q_reliability q = Acknowledged) in
  let failed := failed_event (q_handle q) (q_dst q) in
  r ← attempt (send_session_packet (q_dst q) Data (q_payload q) seq ack now);
  match r with
  | inr _ =>
      if ack then
        let o := mkOutstanding (q_dst q) seq (q_handle q) (q_reliability q) (q_payload q) 0 0 now None false None in
        t ← attempt (try_call n_transport upd_transport (Transport.track o now));
        match t with inl _ => failed FrQueueFull | inr _ => mret () end
      else mret ()
  | inl TooLarge => failed FrTooLarge
  | inl NoRoute => failed FrNoRoute
  | inl _ => failed FrNoSession
  end.

Definition push_queued dst (q : QueuedSend) : M unit :=
  modify (upd_handshakes (fun m => SmallMap.update m dst (ph_push q))).

Definition send_or_queue (q : QueuedSend) now : M unit :=
  let dst := q_dst q in
  s ← has_session dst;
  if s : bool then send_data_in_session q now else
  h ← gets (fun n => SmallMap.get (n_handshakes n) dst);
  match h with
  | Some h =>
      if decide (zlen (ph_queued h) < 8) then push_queued dst q else failed_event (q_handle q) dst FrQueueFull
  | None =>
      start_handshake dst now;;
      started ← gets (fun n => SmallMap.contains_key (n_handshakes n) dst);
      if started : bool then push_queued dst q else failed_event (q_handle q) dst FrNoSession
  end.

Definition send_broadcast (payload : list Z) : M Z :=
  now ← gets n_now;
  handle ← new_handle;
  cfg ← gets n_cfg;
  h ← base_header Data BROADCAST (c_default_ttl cfg);
  seq ← next_seq;
  let h := h_with_seq seq h in
  me ← address;
  '(h, body) ← match c_network_key cfg with
    | Some k =>
        let h := h_set h flags.GROUP_ENCRYPTED true in
        body ← lift (group_encrypt (group_key sha256 k) me (h_packet_id h) (header_aad h 0) payload);
        mret (h, body)
    | None => mret (h, payload)
    end;
  ensure (bool_decide (zlen body <= max_payload (h_has h flags.NET_AUTH))) TooLarge;;
  count ct_app_sent;;
  enqueue_packet (mkPacket h body) now prio.DATA false;;
  mret handle.

Definition send_message dst (payload : list Z) (reliability : Reliability) : M Z :=
  now ← gets n_now;
  me ← address;
  ensure (negb (is_null dst || bool_decide (dst = me))) BadField;;
  ensure (bool_decide (zlen payload <= 2048)) TooLarge;;
  if is_broadcast dst then send_broadcast payload else
  handle ← new_handle;
  count ct_app_sent;;
  (if decide (reliability = StoreAndForward) then queue_envelope dst payload handle now
   else send_or_queue (mkQueuedSend dst payload reliability handle now) now);;
  mret handle.

Definition trace dst : M unit :=
  me ← address;
  ensure (negb (bool_decide (dst = me) || is_broadcast dst)) BadField;;
  len ← gets (fun n => zlen (n_pending_traces n));
  ensure (bool_decide (len < 4)) Full;;
  now ← gets n_now;
  ttl ← gets (ttl_for dst);
  h ← base_header Control dst ttl;
  modify (upd_pending_traces (fun l => retain (fun e => negb (bool_decide (e.1 = dst))) l ++ [(dst, now)]));;
  route_unicast (mkPacket h [control.TRACE_REQ]) now.

(** ** Routes *)

Definition learn_route dst (next_hop : Address) (hops cost : Z) (source : RouteSource) (via_anchor : option Address) now : M unit :=
  me ← address;
  if bool_decide (dst = me) || is_broadcast dst || bool_decide (next_hop = me) then mret () else
  let e := mkRouteEntry dst next_hop hops cost now 0 now 0 source via_anchor in
  call n_routes upd_routes (RouteCache.insert e now);;
  mret ().

Definition link_cost_to (a : Address) : M Z :=
  q ← gets (fun n => match neighbor a n with Some nb => Neighbor.link_quality nb | None => 96 end);
  c ← congestion;
  mret (link_cost q c).

(** ** Discovery failures and retries *)

(** One packet parked on a discovery that failed. *)
Definition fail_parked (target : Address) (anchor : option Address) now p : M unit :=
  if h_has (p_header p) flags.ENVELOPE && h_has (p_header p) flags.STORE_FORWARD then
    r ← attempt (lift (parse_envelope_frame (p_payload p)));
    match r with
    | inl _ => mret ()
    | inr (id, env) =>
        match anchor with
        | Some a => send_store a target id env now
        | None =>
            o ← call n_transport upd_transport (Transport.on_envelope_delivered id);
            match o with
            | Some o =>
                modify (upd_transport (set_t_stats (add_acked (-1))));;
                failed_event (o_handle o) target FrNoRoute
            | None => mret ()
            end
        end
    end
  else mret ().

Definition on_discovery_failed (target : Address) (queued : list Packet) now : M unit :=
  count ct_discovery_failures;;
  me ← address;
  anchor ← gets (fun n => match NeighborTable.best_anchor (n_neighbors n) with
                          | Some nb => if decide (nb_addr nb <> me) then Some (nb_addr nb) else None
                          | None => None end);
  for_each queued (fail_parked target anchor now);;
  h ← call n_handshakes upd_handshakes (fun m => SmallMap.remove m target);
  match h with
  | Some h =>
      for_each (ph_queued h) (fun q =>
        when (bool_decide (q_handle q <> 0) && bool_decide (q_handle q <> U32_MAX))
          (failed_event (q_handle q) (q_dst q) FrNoRoute))
  | None => mret ()
  end;;
  gone ← call n_transport upd_transport (Transport.fail_all_to target);
  for_each gone (fun o => failed_event (o_handle o) target FrNoRoute);;
  pend ← gets (fun n => retain (fun e => bool_decide (pe_dst e = target)) (n_pending_envelopes n));
  modify (upd_pending_envelopes (retain (fun e => negb (bool_decide (pe_dst e = target)))));;
  for_each pend (fun e => failed_event (pe_handle e) (pe_dst e) FrNoKey).

Definition retry_outstanding (o : Outstanding) now : M unit :=
  count ct_retries;;
  let dst := o_dst o in
  r ← gets (fun n => RouteCache.lookup dst now (n_routes n));
  match o_reliability o with
  | StoreAndForward =>
      match o_envelope_id o with
      | Some id =>
          match r with
          | Some r => when (bool_decide (o_attempts o >= 3)) (
              call n_routes upd_routes (RouteCache.mark_failure dst (r_next_hop r));; mret ())
          | None => mret ()
          end;;
          deliver_envelope dst id (o_body o) now
      | None => mret ()
      end
  | _ =>
      match r with
      | Some r => when (bool_decide (o_attempts o >= 3)) (
          lost ← call n_routes upd_routes (RouteCache.mark_failure dst (r_next_hop r));
          when lost (emit (RouteLost dst));;
          call n_neighbors upd_neighbors (NeighborTable.record_failure (r_next_hop r));;
          mret ())
      | None => mret ()
      end;;
      s ← has_session dst;
      if negb s then
        let q := mkQueuedSend dst (o_body o) (o_reliability o) (o_handle o) now in
        call n_transport upd_transport (Transport.fail_all_to dst);;
        modify (upd_transport (set_t_stats (add_failed (-1))));;
        send_or_queue q now
      else ignore (send_session_packet dst Data (o_body o) (o_seq o) true now)
  end.
End Tx.
