(* ===== verification/NodeRx.v ===== *)
(** * The node engine: sessions and receive path

    The receiving half of [crates/meshstar-core/src/node/session.rs] and
    [node/rx.rs]: from a received frame to the handlers of every packet type,
    relaying included. *)
From stdpp Require Import base tactics list numbers.
From Stdlib Require Import Lia.
From S2P Require Import Prelude SmallMap Float32 Protocol Packet Fragmentation CryptoLib Identity Noise Replay Session Transport StoreForward Storm Routing Messages Ierp Power Beacon Radio Neighbor Zone Methods NodeState NodeTx.

(** Assignments to session fields. *)
Definition s_with_m3 (m3 : option (list Z)) (resends : Z) (s : Session) : Session :=
  mkSession (s_peer s) (s_epoch s) (s_send_key s) (s_recv_key s) (s_send_ctr s) (s_replay s) (s_handshake_hash s)
    (s_established_at s) (s_last_activity s) (s_sent s) (s_received s) (s_rekey_in_progress s) m3 resends.
Definition s_with_rekey (v : bool) (s : Session) : Session :=
  mkSession (s_peer s) (s_epoch s) (s_send_key s) (s_recv_key s) (s_send_ctr s) (s_replay s) (s_handshake_hash s)
    (s_established_at s) (s_last_activity s) (s_sent s) (s_received s) v (s_m3 s) (s_m3_resends s).

(** [nb.awake_until = Some(t)]. *)
Definition nb_stay_awake (t : Z) (n : Neighbor) : Neighbor :=
  mkNeighbor (nb_addr n) (nb_role n) (nb_identity n) (nb_first_seen n) (nb_last_seen n) (nb_last_beacon_seq n)
    (nb_beacons_received n) (nb_beacons_expected n) (nb_rssi_dbm n) (nb_snr_db n) (nb_advertised_neighbors n)
    (nb_zone_radius n) (nb_battery_percent n) (nb_sleep_interval_s n) (Some t) (nb_attached n)
    (nb_attached_to_me n) (nb_packets n) (nb_failures n) (nb_snr_floor_db n) (nb_tx_attempts n) (nb_tx_confirmed n).

(** [ierp.proxy_replies_sent += 1], [routes.route_errors_received += 1]. *)
Definition count_proxy_reply (s : Ierp) : Ierp :=
  mkIerp (ie_cfg s) (ie_pending s) (ie_seen_requests s) (ie_last_finished s) (ie_discoveries_started s)
    (ie_discoveries_succeeded s) (ie_discoveries_failed s) (u32 (ie_proxy_replies_sent s + 1)).
Definition count_route_error (c : RouteCache) : RouteCache :=
  mkRouteCache (rc_cfg c) (rc_routes c) (u32 (rc_route_errors_received c + 1)).

Definition trace_stamp (me : Address) (p : Packet) : Packet :=
  if bool_decide (h_ptype (p_header p) = Control) && bool_decide (head (p_payload p) = Some control.TRACE_REQ)
     && bool_decide (zlen (p_payload p) < 1 + 2 * control.TRACE_MAX_HOPS)
  then mkPacket (p_header p) (p_payload p ++ be_bytes 2 (addr_short me)) else p.

(** [chunks_exact(2).map(u16::from_be_bytes)]. *)
Fixpoint trace_hops (l : list Z) : list Z :=
  match l with a :: b :: l' => from_be [a; b] :: trace_hops l' | _ => [] end.

Section Rx.
Context `{C : CryptoLib} {R : Type} `{RngCore R}.
Notation M := (St (Node R) Error).
Implicit Types (n : Node R) (p : Packet) (peer src dst origin : Address) (prev : option Address) (meta : RxMeta) (now : Z).

(** ** Sessions ([node/session.rs]) *)

(** A call on the handshake in flight with [peer], which is in the map. *)
Definition hs_call_in {A} peer (m : St HandshakeXX Error A) : M (Error + A) := fun n =>
  match SmallMap.get (n_handshakes n) peer with
  | Some h =>
      let '(hs, r) := m (ph_hs h) in
      (upd_handshakes (fun l => SmallMap.update l peer (ph_set_hs hs)) n,
       match r with Ok a => Ok (inr a) | Err e => Ok (inl e) | Panic => Panic end)
  | None => (n, Panic)
  end.
Definition remote_address peer : M (option Address) :=
  gets (fun n => h ← SmallMap.get (n_handshakes n) peer; pi_address <$> hs_remote (ph_hs h)).
Definition take_handshake peer : M (option PendingHandshake) :=
  call n_handshakes upd_handshakes (fun m => SmallMap.remove m peer).

Definition install_session peer (epoch : Z) (keys : TransportKeys) (remote : PublicIdentity) now : M unit :=
  modify (upd_key_dir (map_insert peer remote));;
  modify (upd_sessions (map_insert peer (session_new remote epoch keys now)));;
  count ct_handshakes_completed;;
  emit (SessionEstablished peer);;
  try_pending_envelopes peer now;;
  adopt ← gets (fun n => bool_decide (c_role (n_cfg n) = Leaf) && bool_decide (n_attached_anchor n = None)
                         && match neighbor peer n with Some nb => role_relays (nb_role nb) | None => false end);
  when adopt (modify (upd_attached_anchor (fun _ => Some peer))).

Definition drain_one peer now (q : QueuedSend) : M unit :=
  if decide (q_handle q = 0 /\ q_payload q = []) then
    s ← next_seq; ignore (send_session_packet peer Fetch [8] s false now)
  else if decide (q_handle q = U32_MAX) then
    s ← next_seq;
    ignore (send_session_packet peer Store (q_payload q) s false now);;
    count ct_store_sent
  else if decide (q_handle q = QUEUED_CONTROL) then
    match q_payload q with sub :: body => send_control peer sub body now | [] => mret () end
  else if decide (q_reliability q = StoreAndForward) then queue_envelope (q_dst q) (q_payload q) (q_handle q) now
  else send_data_in_session q now.
Definition drain_queued peer (queued : list QueuedSend) now : M unit := for_each queued (drain_one peer now).

(** Message 1 of an already known exchange, or of one to ignore: [Some] of the
    answer, [None] to go on. *)
Definition responder_repeat peer (re : list Z) n : option (option (list Z)) :=
  match SmallMap.get (n_handshakes n) peer with
  | Some h =>
      if decide (hs_role (ph_hs h) = Initiator) then
        if decide (kcmp (id_address (n_id n)) peer = Lt) then Some None else None
      else if decide (ph_re h = re) then Some (Some (ph_m2 h)) else None
  | None => None
  end.

Definition responder_start peer (msg : list Z) now : M (option (list Z)) :=
  me ← address;
  if decide (zlen msg < 32) then mret None else
  re ← lift (slice msg 0 32);
  known ← gets (responder_repeat peer re);
  match known with
  | Some answer => mret answer
  | None =>
      old ← take_handshake peer;
      let queued := match old with Some h => ph_queued h | None => [] end in
      hs ← new_handshake Responder peer me;
      '(hs, r) ← run_hs (read_message_1 msg) hs;
      match r with
      | inl _ => count ct_hs_read_failures;; mret None
      | inr m1_payload =>
          let epoch := default 0 (m1_payload !! 1%nat) in
          role ← my_role;
          '(hs, r) ← run_hs (write_message_2 [role_u8 role]) hs;
          match r with
          | inl _ => mret None
          | inr m2 =>
              modify (upd_handshakes (map_insert peer (mkPendingHandshake hs now epoch queued 1 [] re m2)));;
              mret (Some m2)
          end
      end
  end.

Definition initiator_continue peer (msg : list Z) now : M bool :=
  h ← gets (fun n => SmallMap.get (n_handshakes n) peer);
  match h with
  | None => mret false
  | Some h =>
      if decide (hs_role (ph_hs h) <> Initiator) then mret false else
      r ← hs_call_in peer (read_message_2 msg);
      match r with
      | inl _ => count ct_hs_read_failures;; mret false
      | inr _ =>
          remote ← remote_address peer;
          if decide (remote <> Some peer) then
            count ct_auth_failures;; take_handshake peer;; mret false
          else
          role ← my_role;
          r ← hs_call_in peer (write_message_3 [role_u8 role]);
          match r with
          | inl _ => mret false
          | inr m3 =>
              h ← take_handshake peer;
              h ← lift (unwrap h);
              f ← attempt (lift (finish (ph_hs h)));
              match f with
              | inr (keys, remote) =>
                  send_handshake_packet peer Three m3 now;;
                  install_session peer (ph_epoch h) keys remote now;;
                  modify (upd_sessions (fun m => SmallMap.update m peer (fun s => s_with_m3 (Some m3) (s_m3_resends s) s)));;
                  drain_queued peer (ph_queued h) now;;
                  mret true
              | inl _ => count ct_handshake_failures;; mret false
              end
          end
      end
  end.

(** Message 3, on the responder. *)
Definition responder_finish peer (msg : list Z) now : M unit :=
  h ← gets (fun n => SmallMap.get (n_handshakes n) peer);
  match h with
  | None => mret ()
  | Some h =>
      if decide (hs_role (ph_hs h) <> Responder) then mret () else
      r ← hs_call_in peer (read_message_3 msg);
      match r with
      | inl _ => count ct_hs_read_failures
      | inr _ =>
          remote ← remote_address peer;
          if decide (remote <> Some peer) then
            count ct_auth_failures;; take_handshake peer;; mret ()
          else
          h ← take_handshake peer;
          h ← lift (unwrap h);
          f ← attempt (lift (finish (ph_hs h)));
          match f with
          | inr (keys, remote) =>
              install_session peer (ph_epoch h) keys remote now;;
              drain_queued peer (ph_queued h) now
          | inl _ => count ct_handshake_failures
          end
      end
  end.

Definition handle_handshake p now : M unit :=
  let peer := h_src (p_header p) in
  match p_payload p with
  | [] => mret ()
  | no :: msg =>
      match hsmsg_from_u8 no with
      | None => count ct_rx_bad
      | Some One =>
          m2 ← responder_start peer msg now;
          match m2 with Some m2 => send_handshake_packet peer Two m2 now | None => mret () end
      | Some Two => initiator_continue peer msg now;; mret ()
      | Some Three => responder_finish peer msg now
      end
  end.

Definition on_no_session_notice peer now : M unit :=
  s ← gets (fun n => SmallMap.get (n_sessions n) peer);
  match s with
  | None => mret ()
  | Some s =>
      timeout ← gets (fun n => c_handshake_timeout_ms (n_cfg n));
      let can_resend := bool_decide (s_m3_resends s < 3) && bool_decide (sat_sub now (s_established_at s) <= timeout) in
      match (if can_resend then s_m3 s else None) with
      | Some m3 =>
          modify (upd_sessions (fun m => SmallMap.update m peer (fun s => s_with_m3 (s_m3 s) (u8 (s_m3_resends s + 1)) s)));;
          count ct_m3_resends;;
          send_handshake_packet peer Three m3 now
      | None =>
          modify (upd_sessions (map_remove peer));;
          modify (upd_transport (Transport.reset_peer peer));;
          count ct_sessions_reset;;
          emit (SessionClosed peer);;
          pending ← call n_transport upd_transport (Transport.fail_all_to peer);
          modify (upd_transport (set_t_stats (fun s => mkTransportStats (st_sent s) (st_retries s) (st_acked s)
            (sat_sub (st_failed s) (u32 (zlen pending))) (st_duplicates_dropped s) (st_acks_sent s) (st_stored_at_anchor s))));;
          for_each pending (fun o =>
            if decide (o_reliability o = StoreAndForward) then mret ()
            else send_or_queue (mkQueuedSend peer (o_body o) (o_reliability o) (o_handle o) now) now)
      end
  end.

Definition close_session peer : M unit :=
  now ← gets n_now;
  s ← has_session peer;
  when s (
    send_control peer control.SESSION_CLOSE [] now;;
    modify (upd_sessions (map_remove peer));;
    modify (upd_transport (Transport.reset_peer peer));;
    emit (SessionClosed peer)).

(** ** Beacons *)

Definition resolve_short (short : Z) n : option Address := nb_addr <$> NeighborTable.resolve_short short (n_neighbors n).
Definition last_relay_of p n : option Address :=
  if decide (h_hops (p_header p) = 0) then None else resolve_short (h_relay (p_header p)) n.

Definition observe_beacon src (b : Beacon) meta now : M BeaconObservation :=
  me ← address;
  t ← gets n_neighbors;
  '(t, obs) ← lift (NeighborTable.observe_beacon_as now src b meta (Some me) t);
  modify (upd_neighbors (fun _ => t));;
  mret obs.

(** A leaf beaconed to one of its hosts: mailbox and held packets go out. *)
Definition serve_leaf src now : M unit :=
  flush_mailbox_to src now;;
  me ← address;
  held ← gets (fun n => (fun e => e.1.2) <$> retain (fun e => bool_decide (e.1.1 = src)) (n_held_for_sleeping n));
  modify (upd_held_for_sleeping (retain (fun e => negb (bool_decide (e.1.1 = src)))));;
  for_each held (fun hp =>
    enqueue_packet (on_header (fun h => h_with_relay (addr_short me) (h_with_next_hop (addr_short src) h)) hp)
      now prio.DATA true;; mret ()).

Definition host_score (nb : Neighbor) : Z := Neighbor.link_quality nb + if decide (nb_role nb = Anchor) then 60 else 0.

(** A leaf heard a host: attach to the best one. *)
Definition choose_host now : M unit :=
  attached ← gets n_attached_anchor;
  current ← gets (fun n => a ← attached; host_score <$> neighbor a n);
  best ← gets (fun n => NeighborTable.best_host (n_neighbors n));
  match best with
  | Some best =>
      let better := match current with Some c => bool_decide (host_score best > c + 30) | None => true end in
      when (better && negb (bool_decide (attached = Some (nb_addr best)))) (
        modify (upd_attached_anchor (fun _ => Some (nb_addr best)));;
        send_fetch (nb_addr best) now)
  | None => mret ()
  end.

Definition handle_beacon p meta now : M unit :=
  let src := h_src (p_header p) in
  r ← attempt (lift (Beacon.decode (p_payload p)));
  match r with
  | inl _ => count ct_rx_bad
  | inr b =>
      count ct_beacons_received;;
      obs ← observe_beacon src b meta now;
      if identity_rejected obs then count ct_auth_failures else
      when (is_new obs) (emit (NeighborUp src));;
      id ← gets (fun n => nb ← neighbor src n; nb_identity nb);
      match (if identity_verified obs then id else None) with
      | Some id => modify (upd_key_dir (map_insert src id));; try_pending_envelopes src now
      | None => mret ()
      end;;
      me ← address;
      nbs ← gets n_neighbors;
      modify (upd_zone (ZoneTable.update_from_beacon now me nbs src (bc_zone b) (bc_attached b)));;
      cost ← link_cost_to src;
      learn_route src src 1 cost Routing.Zone None now;;
      role ← my_role;
      last ← gets n_last_beacon_at;
      when (bool_decide (bc_role b = Leaf) && role_relays role
            && (bool_decide (bc_attached b = []) || bool_decide (me ∈ bc_attached b))
            && bool_decide (sat_sub now last > 10000)) (
        r ← rand_u64;
        modify (upd_next_beacon (fun t => Z.min t (u64 (now + (150 + r mod 900))))));;
      match role, bc_role b with
      | Leaf, Leaf => mret ()
      | Leaf, _ => choose_host now
      | _, Leaf => serve_leaf src now
      | _, _ => mret ()
      end
  end.

(** ** Relaying *)

Definition roll (percent : Z) : M bool := call n_rng upd_rng (fun r => let '(b, r) := roll_percent r percent in (r, b)).
Definition forward_delay meta : M Z :=
  cfg ← gets (fun n => c_storm (n_cfg n));
  call n_rng upd_rng (fun r => let '(d, r) := forward_delay_ms r cfg (snr_db meta) in (r, d)).
Definition covered prev : M bool :=
  gets (fun n => match prev with Some pv => ZoneTable.covered_by pv (n_neighbors n) (n_zone n) | None => false end).
(** The density roll: [roll_percent(&mut self.rng, forward_percent(..))]. *)
Definition density_roll : M bool :=
  pct ← gets (fun n => forward_percent (c_storm (n_cfg n)) (NeighborTable.len (n_neighbors n)));
  roll pct.
(** [if !self.sched.schedule(..) { tx_dropped += 1 }]. *)
Definition schedule_relay p meta now : M unit :=
  delay ← forward_delay meta;
  cfg ← gets (fun n => c_storm (n_cfg n));
  ok ← call n_sched upd_sched (RebroadcastScheduler.schedule (h_key (p_header p)) p (u64 (now + delay)) (max_pending cfg));
  when (negb ok) (count ct_tx_dropped).
Definition relayed_copy p : Packet := on_header (fun h => h_with_next_hop NEXT_HOP_ANY (h_hop h)) p.

Definition maybe_relay_flood p prev meta now : M unit :=
  cfg ← gets n_cfg;
  if negb (role_relays (c_role cfg)) || bool_decide (h_ttl (p_header p) <= 1) then
    when (bool_decide (h_ttl (p_header p) <= 1)) (count ct_rx_ttl_exhausted)
  else
  cov ← covered prev;
  if bool_decide (c_routing_mode cfg = Zrp) && cov then count ct_relay_suppressed_covered else
  go ← density_roll;
  if negb go then count ct_relay_suppressed_probabilistic else
  schedule_relay (relayed_copy p) meta now.

(** The mailbox branch for an envelope in transit to a sleeping leaf: whether
    the packet is safe in the mailbox. *)
Definition store_in_transit p now : M bool :=
  let h := p_header p in
  if h_has h flags.ENVELOPE && h_has h flags.STORE_FORWARD && negb (h_has h flags.FRAGMENTED) then
    r ← attempt (lift (parse_envelope_frame (p_payload p)));
    match r with
    | inr (id, env) =>
        ttl_s ← gets (fun n => c_envelope_ttl_s (n_cfg n));
        r ← mailbox_call (Mailbox.store now (h_src h) (mkStoreRequest (h_dst h) id ttl_s env));
        mret (match r with
              | Some (Ok _) => true
              | Some (Err e) => bool_decide (e = reject_reason.DUPLICATE)
              | _ => false
              end)
    | inl _ => mret false
    end
  else mret false.

(** Traffic for a sleeping leaf hosted here; whether the packet was taken. *)
Definition hold_for_leaf p now : M bool :=
  let dst := h_dst (p_header p) in
  nb ← gets (neighbor dst);
  match nb with
  | Some nb =>
      if NeighborTable.hosted nb && Neighbor.is_sleeping now nb then
        stored ← store_in_transit p now;
        if stored : bool then mret true else
        let hold_ms := Z.max (u64 (nb_sleep_interval_s nb * 1000)) 10000 in
        len ← gets (fun n => zlen (n_held_for_sleeping n));
        when (bool_decide (len < 16)) (modify (upd_held_for_sleeping (fun l => l ++ [(dst, p, u64 (now + hold_ms))])));;
        mret true
      else mret false
  | None => mret false
  end.

Definition mark_route_failure dst (nh : Address) : M bool := call n_routes upd_routes (RouteCache.mark_failure dst nh).

Definition forward_to (nh : Address) p prev now : M unit :=
  let dst := h_dst (p_header p) in
  me ← address;
  if decide (Some nh = prev) then
    count ct_loops_detected;;
    mark_route_failure dst nh;; mark_route_failure dst nh;; mark_route_failure dst nh;;
    send_route_error (h_src (p_header p)) dst now
  else
    let p := on_header (fun h => h_with_relay (addr_short me) (h_with_next_hop (addr_short nh) (h_hop h))) p in
    let p := trace_stamp me p in
    modify (upd_routes (RouteCache.touch dst nh now));;
    r ← rand_u32;
    max ← gets (fun n => c_unicast_forward_jitter_ms (n_cfg n));
    let at_ := u64 (now + r mod Z.max max 1) in
    track_hop p nh at_ true;;
    enqueue_packet p at_ prio.DATA true;;
    mret ().

(** No route for a packet in transit: repair on behalf of the source. *)
Definition repair_route p now : M unit :=
  let dst := h_dst (p_header p) in
  count ct_relay_no_route;;
  pending ← gets (fun n => Ierp.is_pending dst (n_ierp n));
  if pending : bool then call n_ierp upd_ierp (Ierp.queue dst p);; mret () else
  may ← may_start dst now;
  if may : bool then
    '(req_id, ttl) ← start_discovery dst now;
    call n_ierp upd_ierp (Ierp.queue dst p);;
    send_route_request dst req_id ttl now
  else send_route_error (h_src (p_header p)) dst now.

Definition forward_unicast p prev meta now : M unit :=
  cfg ← gets n_cfg;
  if negb (role_relays (c_role cfg)) then mret () else
  if decide (c_routing_mode cfg = Flood) then maybe_relay_flood p prev meta now else
  me ← address;
  let h := p_header p in
  if decide (h_next_hop h <> NEXT_HOP_ANY /\ h_next_hop h <> addr_short me) then mret () else
  if decide (h_ttl h <= 1) then count ct_rx_ttl_exhausted else
  held ← hold_for_leaf p now;
  if held : bool then mret () else
  nh ← gets (next_hop_for (h_dst h) now);
  match nh with
  | Some nh => forward_to nh p prev now
  | None => repair_route p now
  end.

(** ** Route control *)

Definition key_if (want : bool) (k : option (list Z)) : option (list Z) := if want then k else None.

(** 1. The request is for this node. *)
Definition answer_as_target (q : messages.RouteRequest) origin (req_id : Z) (want_key : bool) now : M unit :=
  me ← address;
  role ← my_role;
  s ← has_session origin;
  hs ← (if negb (bool_decide (messages.rq_handshake q = [])) && negb s
        then r ← responder_start origin (messages.rq_handshake q) now; mret (default [] r) else mret []);
  id ← gets n_id;
  let rflags := if decide (role = Leaf) then rrep_flags.TARGET_LEAF else 0 in
  let key := if want_key && bool_decide (hs = []) then Some (public_key_bytes (id_public id)) else None in
  send_route_reply origin (messages.mkRouteReply me req_id 0 0 rflags key hs) now.

(** 2. Proxy for a leaf neighbour; whether a reply was sent. *)
Definition proxy_for_neighbor (q : messages.RouteRequest) origin (req_id : Z) (want_key : bool) (known_key : option (list Z)) now
    : M bool :=
  role ← my_role;
  nb ← gets (neighbor (messages.rq_target q));
  has_mb ← gets (fun n => bool_decide (is_Some (n_mailbox n)));
  match nb with
  | Some nb =>
      let i_am_host := NeighborTable.hosted nb in
      let i_can_host := Neighbor.is_leaf nb && bool_decide (role = Anchor) && has_mb && want_key && bool_decide (is_Some known_key) in
      if role_relays role && negb (Z.land (messages.rq_flags q) rreq_flags.PROXY_OK =? 0) && (i_am_host || i_can_host) then
        let cost := link_cost (Neighbor.link_quality nb) 0 in
        modify (upd_ierp count_proxy_reply);;
        send_route_reply origin (messages.mkRouteReply (messages.rq_target q) req_id 1 cost
          (Z.lor rrep_flags.PROXY rrep_flags.TARGET_LEAF) (key_if want_key known_key) []) now;;
        mret true
      else mret false
  | None => mret false
  end.

(** 3. A sleeping leaf behind an anchor of the zone. *)
Definition answer_from_zone (q : messages.RouteRequest) origin (req_id : Z) (want_key : bool) (known_key : option (list Z)) now
    : M bool :=
  z ← gets (fun n => ZoneTable.get (messages.rq_target q) (n_zone n));
  anchor ← gets (fun n => ZoneTable.anchor_for (messages.rq_target q) (n_zone n));
  match z, anchor with
  | Some z, Some _ =>
      if negb want_key || bool_decide (is_Some known_key) then
        let cost := Z.min (u32 (zn_distance z * link_cost (zn_quality z) 0)) U16_MAX in
        send_route_reply origin (messages.mkRouteReply (messages.rq_target q) req_id (zn_distance z) cost
          (Z.lor rrep_flags.PROXY rrep_flags.TARGET_LEAF) (key_if want_key known_key) []) now;;
        mret true
      else mret false
  | _, _ => mret false
  end.

(** 4. A fresh cached route of a previous discovery. *)
Definition answer_from_cache (q : messages.RouteRequest) origin (req_id : Z) (want_key : bool) (known_key : option (list Z)) now
    : M bool :=
  r ← gets (fun n => RouteCache.lookup (messages.rq_target q) now (n_routes n));
  ttl ← gets (fun n => route_ttl_ms (c_routing (n_cfg n)));
  match r with
  | Some r =>
      let fresh := bool_decide (sat_sub now (r_learned_at r) < ttl / 4) && bool_decide (r_failures r = 0) in
      if fresh && bool_decide (r_source r = Routing.Discovery) && (negb want_key || bool_decide (is_Some known_key)) then
        send_route_reply origin (messages.mkRouteReply (messages.rq_target q) req_id (r_hops r) (r_cost r)
          (if r_via_anchor r then rrep_flags.PROXY else 0) (key_if want_key known_key) []) now;;
        mret true
      else mret false
  | None => mret false
  end.

(** 5. Relay with storm protection and coverage pruning. *)
Definition relay_request p (q : messages.RouteRequest) (my_cost : Z) prev meta now : M unit :=
  role ← my_role;
  if negb (role_relays role) || bool_decide (h_ttl (p_header p) <= 1) then mret () else
  cov ← covered prev;
  if cov : bool then count ct_relay_suppressed_covered else
  go ← density_roll;
  if negb go then count ct_relay_suppressed_probabilistic else
  let key := h_key (p_header p) in
  let fp := mkPacket (p_header (relayed_copy p))
              (messages.rreq_encode (messages.mkRouteRequest (messages.rq_target q) my_cost (messages.rq_flags q) (messages.rq_handshake q))) in
  delay ← forward_delay meta;
  cfg ← gets (fun n => c_storm (n_cfg n));
  modify (upd_sched (fun s => if RebroadcastScheduler.is_pending key s then (RebroadcastScheduler.cancel key s).1 else s));;
  ok ← call n_sched upd_sched (RebroadcastScheduler.schedule key fp (u64 (now + delay)) (max_pending cfg));
  when (negb ok) (count ct_tx_dropped).

Definition handle_route_request p prev meta now : M unit :=
  r ← attempt (lift (messages.rreq_decode (p_payload p)));
  match r with
  | inl _ => count ct_rx_bad
  | inr q =>
      count ct_rreq_received;;
      let h := p_header p in
      let origin := h_src h in
      me ← address;
      link ← match prev with Some pv => link_cost_to pv | None => mret 400 end;
      let my_cost := sat_add 16 (messages.rq_cost q) link in
      fresh ← call n_ierp upd_ierp (Ierp.observe_request origin (h_packet_id h) my_cost now);
      if negb fresh then
        count ct_rx_duplicates;;
        call n_sched upd_sched (RebroadcastScheduler.heard (h_key h));; mret ()
      else
      match prev with
      | Some pv => learn_route origin pv (sat_add 8 (h_hops h) 1) my_cost Reverse None now
      | None => mret ()
      end;;
      if decide (messages.rq_target q = origin) then mret () else
      let want_key := negb (Z.land (messages.rq_flags q) rreq_flags.WANT_KEY =? 0) in
      if decide (messages.rq_target q = me) then answer_as_target q origin (h_packet_id h) want_key now else
      known_key ← gets (fun n => public_key_bytes <$> SmallMap.get (n_key_dir n) (messages.rq_target q));
      done ← proxy_for_neighbor q origin (h_packet_id h) want_key known_key now;
      if done : bool then mret () else
      done ← answer_from_zone q origin (h_packet_id h) want_key known_key now;
      if done : bool then mret () else
      done ← answer_from_cache q origin (h_packet_id h) want_key known_key now;
      if done : bool then mret () else
      relay_request p q my_cost prev meta now
  end.

Definition absorb_route_reply p (r : messages.RouteReply) prev now : M Z :=
  let h := p_header p in
  let via := default (h_src h) prev in
  link ← link_cost_to via;
  let cost := sat_add 16 (messages.rp_cost r) link in
  let hops := sat_add 8 (sat_add 8 (messages.rp_hops_to_target r) (h_hops h)) 1 in
  let via_anchor := if Z.land (messages.rp_flags r) rrep_flags.PROXY =? 0 then None else Some (h_src h) in
  learn_route (messages.rp_target r) via hops cost Routing.Discovery via_anchor now;;
  match messages.rp_target_key r with
  | Some k =>
      i ← attempt (lift (pubid_from_bytes k));
      match i with
      | inr id =>
          if decide (pi_address id = messages.rp_target r) then
            count ct_keys_from_replies;;
            modify (upd_key_dir (map_insert (messages.rp_target r) id));;
            try_pending_envelopes (messages.rp_target r) now
          else count ct_auth_failures
      | inl _ => mret ()
      end
  | None => mret ()
  end;;
  mret cost.

Definition handle_route_reply p prev now : M unit :=
  r ← attempt (lift (messages.rrep_decode (p_payload p)));
  match r with
  | inl _ => count ct_rx_bad
  | inr r =>
      count ct_rrep_received;;
      cost ← absorb_route_reply p r prev now;
      let target := messages.rp_target r in
      let hops := sat_add 8 (sat_add 8 (messages.rp_hops_to_target r) (h_hops (p_header p))) 1 in
      queued ← call n_ierp upd_ierp (Ierp.succeed target now);
      emit (RouteFound target hops cost);;
      done ← (if negb (bool_decide (messages.rp_handshake r = [])) && bool_decide (h_src (p_header p) = target)
              then initiator_continue target (messages.rp_handshake r) now else mret false);
      let queued := if (done : bool) then retain (fun q => negb (bool_decide (h_ptype (p_header q) = Handshake))) queued else queued in
      for_each queued (fun q => ignore (route_unicast q now))
  end.

Definition forward_route_reply p prev meta now : M unit :=
  r ← attempt (lift (messages.rrep_decode (p_payload p)));
  match r with
  | inr r =>
      cost ← absorb_route_reply p r prev now;
      let r := messages.mkRouteReply (messages.rp_target r) (messages.rp_req_id r) (messages.rp_hops_to_target r) cost
                 (messages.rp_flags r) (messages.rp_target_key r) (messages.rp_handshake r) in
      forward_unicast (mkPacket (p_header p) (messages.rrep_encode r)) prev meta now
  | inl _ => count ct_rx_bad
  end.

(** The [for _ in 0..max_failures.max(1)] loop: until the route is removed. *)
Fixpoint fail_until_removed (k : nat) dst (via : Address) : M bool :=
  match k with
  | O => mret false
  | S k' => gone ← mark_route_failure dst via; if gone : bool then mret true else fail_until_removed k' dst via
  end.

Definition handle_route_error p prev now : M unit :=
  r ← attempt (lift (messages.rerr_decode (p_payload p)));
  match r with
  | inl _ => count ct_rx_bad
  | inr e =>
      count ct_rerr_received;;
      modify (upd_routes count_route_error);;
      let via := default (h_src (p_header p)) prev in
      k ← gets (fun n => Z.max (max_failures (c_routing (n_cfg n))) 1);
      for_each (messages.re_unreachable e) (fun u =>
        gone ← fail_until_removed (Z.to_nat k) u via;
        when gone (emit (RouteLost u)))
  end.

(** ** Data *)

Definition deliver_event p (from : Address) (payload : list Z) (prot : Protection) meta : M unit :=
  relay ← gets (last_relay_of p);
  let h := p_header p in
  emit (MessageReceived from (h_seq h) payload prot (h_hops h) (rssi_dbm meta) (snr_db meta) relay).

Definition handle_broadcast_data p meta : M unit :=
  let h := p_header p in
  let deliver payload prot := count ct_app_received;; deliver_event p (h_src h) payload prot meta in
  if h_has h flags.GROUP_ENCRYPTED then
    key ← gets (fun n => c_network_key (n_cfg n));
    match key with
    | None => count ct_rx_bad
    | Some k =>
        r ← attempt (lift (group_decrypt (group_key sha256 k) (h_src h) (h_packet_id h) (header_aad h 0) (p_payload p)));
        match r with
        | inr pt => deliver pt Group
        | inl _ => count ct_auth_failures
        end
    end
  else deliver (p_payload p) Plaintext.

Definition reassemble p now : M (option (list Z * option Z)) :=
  match frag_header p with
  | None => mret (Some (p_payload p, None))
  | Some fh =>
      count ct_fragments_received;;
      r ← attempt (try_call n_reassembler upd_reassembler
                     (fun ra => Reassembler.push ra now (h_src (p_header p)) fh (packet_body p)));
      mret (match r with inr (Some full) => Some (full, Some (frag_id fh)) | _ => None end)
  end.

(** No session: a responder waiting for message 3 says so, at most three times. *)
Definition notify_no_session src now : M unit :=
  count ct_rx_no_session;;
  h ← gets (fun n => SmallMap.get (n_handshakes n) src);
  match h with
  | Some h =>
      when (bool_decide (hs_role (ph_hs h) = Responder) && bool_decide (ph_attempts h < 4)) (
        modify (upd_handshakes (fun m => SmallMap.update m src ph_count_attempt));;
        count ct_no_session_notices;;
        ttl ← gets (ttl_for src);
        hh ← base_header Control src ttl;
        ignore (route_unicast (mkPacket hh [control.NO_SESSION]) now))
  | None => mret ()
  end.

Definition open_session_payload p now : M (option (list Z)) :=
  let src := h_src (p_header p) in
  b ← reassemble p now;
  match b with
  | None => mret None
  | Some (ct, frag) =>
      let aad := transport_aad (p_header p) frag in
      s ← has_session src;
      if negb s then notify_no_session src now;; mret None else
      r ← attempt (with_session src (Session.decrypt now aad ct));
      match r with
      | inr pt => mret (Some pt)
      | inl Replay => count ct_replays;; mret None
      | inl _ => count ct_auth_failures;; mret None
      end
  end.

(** [self.opened_envelopes]: whether the envelope is new. *)
Definition note_envelope (key : Address * Z) : M bool :=
  call n_opened_envelopes upd_opened_envelopes (fun l =>
    if decide (key ∈ l) then (l, false)
    else let l := l ++ [key] in ((if decide (zlen l > 64) then tail l else l), true)).

(** The mailbox holder learns that the envelope arrived. *)
Definition acknowledge_mailbox src (envelope_id : Z) now : M unit :=
  s ← has_session src;
  if s : bool then send_control src control.MAILBOX_ACK (be_bytes 4 envelope_id) now
  else
    start_handshake src now;;
    push_queued src (mkQueuedSend src (control.MAILBOX_ACK :: be_bytes 4 envelope_id) Unreliable QUEUED_CONTROL now).

Definition acknowledge_envelope p (sender : PublicIdentity) (envelope_id : Z) now : M unit :=
  id ← gets n_id;
  r ← attempt (try_call n_rng upd_rng (fun rng => let '(o, rng) := seal_envelope id sender envelope_id [68] rng in (rng, o)));
  match r with
  | inr ack_env =>
      let from := pi_address sender in
      ttl ← gets (ttl_for from);
      h ← base_header Protocol.Ack from ttl;
      let h := h_with_seq (h_seq (p_header p)) (h_set h flags.ENVELOPE true) in
      ignore (route_unicast (mkPacket h (frame_envelope envelope_id ack_env)) now);;
      modify (upd_transport (set_t_stats add_acks_sent))
  | inl _ => mret ()
  end.

Definition handle_envelope_data p meta now : M unit :=
  let src := h_src (p_header p) in
  b ← reassemble p now;
  match b with
  | None => mret ()
  | Some (body, _) =>
      r ← attempt (lift (parse_envelope_frame body));
      match r with
      | inl _ => count ct_rx_bad
      | inr (envelope_id, env) =>
          id ← gets n_id;
          o ← attempt (lift (open_envelope id envelope_id env));
          match o with
          | inl _ => count ct_auth_failures
          | inr (sender, plaintext) =>
              let from := pi_address sender in
              modify (upd_key_dir (map_insert from sender));;
              fresh ← note_envelope (from, envelope_id);
              (if fresh : bool then
                 count ct_envelopes_opened;;
                 count ct_app_received;;
                 deliver_event p from plaintext InEnvelope meta
               else modify (upd_transport (set_t_stats (add_dups 1))));;
              when (negb (bool_decide (src = from))) (acknowledge_mailbox src envelope_id now);;
              acknowledge_envelope p sender envelope_id now
          end
      end
  end.

Definition handle_unicast_data p meta now : M unit :=
  let h := p_header p in
  let src := h_src h in
  if h_has h flags.ENVELOPE then handle_envelope_data p meta now else
  if negb (h_has h flags.ENCRYPTED) then count ct_rx_bad else
  b ← open_session_payload p now;
  match b with
  | None => mret ()
  | Some body =>
      fresh ← call n_transport upd_transport (Transport.accept_incoming src (h_seq h) now);
      when (h_has h flags.ACK_REQUEST) (send_ack src (h_seq h) ack_status.DELIVERED now);;
      if negb fresh then mret () else
      count ct_app_received;;
      deliver_event p src body InSession meta
  end.

Definition handle_envelope_ack p now : M unit :=
  b ← reassemble p now;
  match b with
  | None => mret ()
  | Some (body, _) =>
      r ← attempt (lift (parse_envelope_frame body));
      match r with
      | inl _ => count ct_rx_bad
      | inr (envelope_id, env) =>
          id ← gets n_id;
          o ← attempt (lift (open_envelope id envelope_id env));
          match o with
          | inl _ => count ct_auth_failures
          | inr (sender, _) =>
              o ← call n_transport upd_transport (Transport.on_envelope_delivered envelope_id);
              match o with
              | Some o =>
                  when (bool_decide (o_dst o = pi_address sender))
                    (emit (Delivered (o_handle o) (o_dst o) (sat_sub now (o_started_at o))))
              | None => mret ()
              end
          end
      end
  end.

Definition handle_ack p now : M unit :=
  let src := h_src (p_header p) in
  if h_has (p_header p) flags.ENVELOPE then handle_envelope_ack p now else
  b ← open_session_payload p now;
  match b with
  | None => mret ()
  | Some body =>
      r ← attempt (lift (ack_decode body));
      match r with
      | inl _ => count ct_rx_bad
      | inr ack =>
          o ← call n_transport upd_transport (Transport.on_ack src ack);
          match o with
          | Some o =>
              r ← gets (fun n => RouteCache.lookup src now (n_routes n));
              match r with
              | Some r =>
                  modify (upd_routes (RouteCache.mark_success src (r_next_hop r) now));;
                  modify (upd_neighbors (NeighborTable.record_success (r_next_hop r)))
              | None => mret ()
              end;;
              if decide (ack_st ack = ack_status.DELIVERED)
              then emit (Delivered (o_handle o) (o_dst o) (sat_sub now (o_started_at o)))
              else emit (Failed (o_handle o) (o_dst o) FrRejected)
          | None =>
              o ← gets (fun n => find_first (fun o => bool_decide (o_dst o = src) && bool_decide (o_seq o = ack_seq ack))
                                   (t_outstanding (n_transport n)));
              match o with
              | Some o => when (bool_decide (ack_st ack = ack_status.STORED)) (emit (Stored (o_handle o) src))
              | None => mret ()
              end
          end
      end
  end.

(** ** Store and forward, traces, control *)

Definition handle_store p now : M unit :=
  let src := h_src (p_header p) in
  b ← open_session_payload p now;
  match b with
  | None => mret ()
  | Some body =>
      r ← attempt (lift (store_decode body));
      match r with
      | inl _ => count ct_rx_bad
      | inr req =>
          count ct_store_received;;
          let id := sr_envelope_id req in
          let dst := sr_dst req in
          r ← mailbox_call (Mailbox.store now src req);
          match default (Err reject_reason.NOT_ANCHOR) r with
          | Ok _ =>
              send_control src control.STORE_ACCEPTED (encode_store_result id None) now;;
              awake ← gets (fun n => match neighbor dst n with Some nb => negb (Neighbor.is_sleeping now nb) | None => false end);
              when awake (flush_mailbox_to dst now)
          | Err reason =>
              if decide (reason = reject_reason.DUPLICATE)
              then send_control src control.STORE_ACCEPTED (encode_store_result id None) now
              else send_control src control.STORE_REJECTED (encode_store_result id (Some reason)) now
          | Panic => lift Panic
          end
      end
  end.

Definition handle_fetch p now : M unit :=
  let src := h_src (p_header p) in
  b ← open_session_payload p now;
  mb ← gets n_mailbox;
  match b, mb with
  | Some _, Some _ =>
      update_neighbor src (nb_stay_awake (u64 (now + 5000)));;
      flush_mailbox_to src now
  | _, _ => mret ()
  end.

Definition handle_trace p now : M unit :=
  let src := h_src (p_header p) in
  match p_payload p with
  | k :: rest =>
      if decide (k = control.TRACE_REQ) then
        ttl ← gets (ttl_for src);
        h ← base_header Control src ttl;
        ignore (route_unicast (mkPacket h (control.TRACE_REP :: rest)) now)
      else if decide (k = control.TRACE_REP) then
        started ← call n_pending_traces upd_pending_traces (fun l =>
          match position (fun e => bool_decide (e.1 = src)) l with
          | Some i => (SmallMap.vec_remove i l, snd <$> l !! i)
          | None => (l, None)
          end);
        match started with
        | Some t => emit (TraceResult src true (trace_hops rest) (sat_sub now t))
        | None => mret ()
        end
      else mret ()
  | [] => mret ()
  end.

Definition on_store_result_accepted src (id : Z) : M unit :=
  ok ← call n_transport upd_transport (Transport.on_store_accepted id);
  if ok : bool then
    o ← gets (fun n => find_first (fun o => bool_decide (o_envelope_id o = Some id)) (t_outstanding (n_transport n)));
    match o with Some o => emit (Stored (o_handle o) src) | None => mret () end
  else
    mailbox_call (fun m =>
      match find_first (fun e => bool_decide (se_envelope_id e = id)) (mb_entries m) with
      | Some e => Mailbox.delivered (se_dst e) id m
      | None => (m, false)
      end);;
    mret ().

Definition on_store_result_rejected (id : Z) : M unit :=
  o ← call n_transport upd_transport (Transport.on_envelope_delivered id);
  match o with
  | Some o =>
      modify (upd_transport (set_t_stats (fun s => add_failed 1 (add_acked (-1) s))));;
      emit (Failed (o_handle o) (o_dst o) FrRejected)
  | None => mret ()
  end.

Definition on_mailbox_ack src (rest : list Z) : M unit :=
  if decide (zlen rest = 4) then
    let id := from_be rest in
    done ← mailbox_call (Mailbox.delivered src id);
    when (default false done) (emit (MailboxDelivered src id))
  else mret ().

Definition handle_control p now : M unit :=
  let src := h_src (p_header p) in
  b ← open_session_payload p now;
  match b with
  | None => mret ()
  | Some [] => count ct_rx_bad
  | Some (sub :: rest) =>
      if decide (sub = control.STORE_ACCEPTED) then
        r ← attempt (lift (decode_store_result rest));
        match r with inr (id, _) => on_store_result_accepted src id | inl _ => mret () end
      else if decide (sub = control.STORE_REJECTED) then
        r ← attempt (lift (decode_store_result rest));
        match r with inr (id, _) => on_store_result_rejected id | inl _ => mret () end
      else if decide (sub = control.SESSION_CLOSE) then
        modify (upd_sessions (map_remove src));;
        modify (upd_transport (Transport.reset_peer src));;
        emit (SessionClosed src)
      else if decide (sub = control.PING) then send_control src control.PONG rest now
      else if decide (sub = control.PONG) then mret ()
      else if decide (sub = control.MAILBOX_ACK) then on_mailbox_ack src rest
      else count ct_rx_bad
  end.

(** ** A received frame *)

Definition is_trace p : bool :=
  bool_decide (head (p_payload p) = Some control.TRACE_REQ) || bool_decide (head (p_payload p) = Some control.TRACE_REP).

Definition on_activity now : M unit := modify (upd_power (PowerManager.on_activity now)).

(** The [match p.header.ptype] at the end of [on_radio_rx]. *)
Definition dispatch p prev meta now : M unit :=
  me ← address;
  let for_me := bool_decide (h_dst (p_header p) = me) in
  let bcast := is_broadcast (h_dst (p_header p)) in
  match h_ptype (p_header p) with
  | Protocol.Beacon => mret ()
  | RouteRequest => if bcast then handle_route_request p prev meta now else count ct_rx_bad
  | RouteReply =>
      r ← attempt (lift (messages.rrep_decode (p_payload p)));
      match r with
      | inr r => modify (upd_rrep_pending (PendingReplies.heard (h_dst (p_header p)) (messages.rp_req_id r) (messages.rp_cost r)))
      | inl _ => mret ()
      end;;
      if for_me then handle_route_reply p prev now
      else when (negb bcast) (forward_route_reply p prev meta now)
  | RouteError =>
      if for_me then handle_route_error p prev now
      else when (negb bcast) (forward_unicast p prev meta now)
  | Handshake =>
      if for_me then on_activity now;; handle_handshake p now
      else when (negb bcast) (forward_unicast p prev meta now)
  | Data =>
      if bcast then handle_broadcast_data p meta;; maybe_relay_flood p prev meta now
      else if for_me then on_activity now;; handle_unicast_data p meta now
      else forward_unicast p prev meta now
  | (Protocol.Ack | Store | Fetch | Control) as t =>
      if for_me then
        on_activity now;;
        match t with
        | Protocol.Ack => handle_ack p now
        | Store => handle_store p now
        | Fetch => handle_fetch p now
        | _ => if is_trace p then handle_trace p now else handle_control p now
        end
      else if negb bcast then forward_unicast p prev meta now
      else count ct_rx_bad
  end.

(** Plaintext link acknowledgement from a neighbour. *)
Definition handle_link_ack p prev : M unit :=
  match prev with
  | Some pv =>
      id ← lift (be_at (p_payload p) 1 4);
      acked ← gets (fun n => hp_key <$> retain (fun h => bool_decide ((hp_key h).2 = id) && bool_decide (hp_next_hop h = pv)) (n_hop_pending n));
      for_each acked (fun k => hop_confirmed k pv)
  | None => mret ()
  end.

(** [send_link_ack] to the previous hop, if it is known. *)
Definition confirm_hop p prev now : M unit :=
  match prev with Some pv => send_link_ack pv (h_packet_id (p_header p)) now | None => mret () end.

(** Reverse route to the source, only when there is none. *)
Definition learn_reverse p prev now : M unit :=
  let src := h_src (p_header p) in
  match prev with
  | Some pv =>
      missing ← gets (fun n => bool_decide (RouteCache.lookup src now (n_routes n) = None) && negb (is_neighbor src n));
      when missing (
        let hops := sat_add 8 (h_hops (p_header p)) 1 in
        c ← link_cost_to pv;
        learn_route src pv hops (Z.min (u32 (hops * c)) U16_MAX) Reverse None now)
  | None => mret ()
  end.

(** A decoded packet that is not a beacon. *)
Definition handle_packet p prev meta now : M unit :=
  me ← address;
  let h := p_header p in
  let key := h_key h in
  let for_me := bool_decide (h_dst h = me) in
  when for_me (on_activity now);;
  if bool_decide (h_ptype h = Control) && for_me && bool_decide (zlen (p_payload p) = 5)
     && bool_decide (head (p_payload p) = Some control.LINK_ACK) then handle_link_ack p prev else
  if bool_decide (h_ptype h = Control) && for_me && bool_decide (p_payload p = [control.NO_SESSION])
  then on_no_session_notice (h_src h) now else
  match prev with Some pv => when (bool_decide (h_hops h > 0)) (hop_confirmed key pv) | None => mret () end;;
  fresh ← (if decide (h_ptype h <> RouteRequest) then call n_seen upd_seen (SeenCache.observe key now) else mret true);
  if negb fresh then
    count ct_rx_duplicates;;
    call n_sched upd_sched (RebroadcastScheduler.heard key);;
    when ((for_me || bool_decide (h_next_hop h = addr_short me)) && negb (is_broadcast (h_dst h))) (confirm_hop p prev now)
  else
  when (for_me && negb (is_link_local (h_ptype h))) (confirm_hop p prev now);;
  learn_reverse p prev now;;
  when for_me (count ct_rx_for_us);;
  dispatch p prev meta now.

(** Who transmitted this frame. *)
Definition previous_hop p n : option Address :=
  if decide (h_hops (p_header p) = 0) then Some (h_src (p_header p)) else resolve_short (h_relay (p_header p)) n.

Definition on_radio_rx (frame : list Z) meta : M unit :=
  modify (upd_now (fun t => Z.max t (timestamp_ms meta)));;
  now ← gets n_now;
  awake ← gets is_awake;
  if negb awake then mret () else
  count ct_rx_packets;;
  modify (upd_counters (add_counter ct_rx_bytes (zlen frame)));;
  air ← airtime (zlen frame);
  modify (upd_rx_airtime_ms (fun t => u64 (t + air)));;
  cfg ← gets n_cfg;
  r ← attempt (lift (packet_decode hmac_sha256 frame (c_network_key cfg) (c_max_ttl cfg)));
  match r with
  | inl e =>
      count ct_rx_bad;;
      when (bool_decide (e = AuthFailed)) (count ct_auth_failures)
  | inr p =>
      me ← address;
      let src := h_src (p_header p) in
      if decide (src = me) then mret () else
      prev ← gets (previous_hop p);
      match prev with
      | Some pv => modify (upd_neighbors (NeighborTable.observe_packet now pv meta))
      | None => mret ()
      end;;
      if decide (h_ptype (p_header p) = Protocol.Beacon) then handle_beacon p meta now
      else handle_packet p prev meta now
  end.
End Rx.
