(* ===== verification/Node.v ===== *)
(** * The node engine: construction, timers and the radio queue

    The rest of [crates/meshstar-core/src/node/mod.rs]: [Node::new], [poll]
    with its timers and housekeeping, [next_tx] and [next_wakeup]. *)
From stdpp Require Import base tactics list numbers.
From Stdlib Require Import Lia.
From S2P Require Import Prelude SmallMap Float32 Protocol Packet Fragmentation CryptoLib Identity Noise Replay Session Transport StoreForward Storm Routing Messages Ierp Power Beacon Radio Neighbor Zone Methods NodeState NodeTx NodeRx.

Section Engine.
Context `{C : CryptoLib} {R : Type} `{RngCore R}.
Notation M := (St (Node R) Error).
Implicit Types (n : Node R) (now : Z).

(** ** Construction *)

Definition small_mailbox (cfg : MailboxConfig) : MailboxConfig :=
  mkMailboxConfig (StoreForward.max_entries cfg / 8) (StoreForward.max_bytes cfg / 8)
    (Z.max 2 (max_per_destination cfg / 4)) (max_ttl_ms cfg) (max_delivery_attempts cfg) (retry_interval_ms cfg).

(** The configuration [new] keeps: TTLs clamped ([max_ttl] is at least 1, so the
    bounds of [clamp] do not cross), SNR floor from the radio profile. *)
Definition normalize (c : NodeConfig) : NodeConfig :=
  let max_ttl := Z.max (c_max_ttl c) 1 in
  let nc := c_neighbor c in
  mkNodeConfig (c_role c) (c_name c) (c_routing_mode c) (c_profile c) max_ttl (Z.max 1 (Z.min (c_default_ttl c) max_ttl))
    (c_network_key c)
    (mkNeighborConfig (beacon_interval_ms nc) (beacon_jitter_ms nc) (full_beacon_every nc) (timeout_intervals nc)
       (max_neighbors nc) (ewma_alpha nc) (LoRaProfile.demod_snr_db (c_profile c)))
    (c_routing c) (c_zrp c) (c_storm c) (c_transport c) (c_mailbox c) (c_power c) (c_session c) (c_reassembly c)
    (c_handshake_timeout_ms c) (c_max_tx_queue c) (c_envelope_ttl_s c) (c_unicast_forward_jitter_ms c)
    (c_hop_ack_timeout_ms c) (c_hop_retries c).

Definition new (c : NodeConfig) (id : Identity) (rng : R) now : Node R :=
  let mailbox := match c_role c with
    | Anchor => Some (Mailbox.new (c_mailbox c))
    | Normal => Some (Mailbox.new (small_mailbox (c_mailbox c)))
    | Leaf => None
    end in
  let '(r, rng) := next_u32 rng in
  let first_seq := Z.lor (u16 r) 1 in
  let c := normalize c in
  let nc := c_neighbor c in
  let '(r, rng) := next_u64 rng in
  let jitter := r mod Z.max (beacon_jitter_ms nc) 1 in
  let '(seq, rng) := next_u32 rng in
  let '(fid, rng) := next_u32 rng in
  mkNode c id rng now
    (NeighborTable.new nc)
    (ZoneTable.new (zone_radius (c_zrp c)) (max_zone_entries (c_zrp c))
       (u64 (u64 (beacon_interval_ms nc * timeout_intervals nc) * 2)))
    (RouteCache.new (c_routing c))
    (Ierp.new (c_zrp c))
    PendingReplies.new
    (SeenCache.new (seen_cache_size (c_storm c)) (seen_ttl_ms (c_storm c)))
    RebroadcastScheduler.new
    (Transport.new (c_transport c) first_seq)
    mailbox
    (PowerManager.new (c_power c) now)
    (Reassembler.new (c_reassembly c))
    SmallMap.empty SmallMap.empty SmallMap.empty [] [] []
    (u16 seq) (u64 (u64 (now + 500) + jitter)) 0 0 0 1 (u16 fid) Counters_default [] None 0 now now now None [] [] [].

(** ** The radio queue *)

(** The selection loop of [next_tx] from index [i] on. *)
Fixpoint pick (now : Z) (l : list TxItem) (i : nat) (best : option (nat * TxItem)) : option (nat * TxItem) :=
  match l with
  | [] => best
  | item :: l' =>
      let best :=
        if decide (tx_not_before item > now) then best else
        match best with
        | None => Some (i, item)
        | Some (_, cur) =>
            if decide (tx_priority item < tx_priority cur
                       \/ tx_priority item = tx_priority cur /\ tx_not_before item < tx_not_before cur)
            then Some (i, item) else best
        end in
      pick now l' (S i) best
  end.

Definition next_tx now : M (option TxItem) :=
  modify (upd_now (fun t => Z.max t now));;
  awake ← gets is_awake;
  if negb awake then mret None else
  best ← gets (fun n => pick now (n_tx_queue n) 0 None);
  match best with
  | None => mret None
  | Some (i, item) =>
      air ← airtime (zlen (tx_frame item));
      ok ← call n_power upd_power (PowerManager.can_transmit now air);
      if negb ok then mret None else
      modify (upd_tx_queue (SmallMap.vec_remove i));;
      modify (upd_power (PowerManager.record_tx now air));;
      count ct_tx_packets;;
      modify (upd_counters (add_counter ct_tx_bytes (zlen (tx_frame item))));;
      when (tx_is_relay item) (count ct_relayed);;
      when (negb (bool_decide (tx_ptype item = Data))) (count ct_tx_control);;
      mret (Some item)
  end.

Definition min_opt (t : Z) (d : option Z) : Z := match d with Some d => Z.min t d | None => t end.

Definition next_wakeup n : Z :=
  let t := n_next_beacon n in
  let t := min_opt t (RebroadcastScheduler.next_due (n_sched n)) in
  let t := min_opt t (Ierp.next_deadline (n_ierp n)) in
  let t := min_opt t (PendingReplies.next_due (n_rrep_pending n)) in
  let t := min_opt t (zmin (hp_due <$> n_hop_pending n)) in
  let t := min_opt t (Transport.next_deadline (n_transport n)) in
  let t := min_opt t (zmin (tx_not_before <$> n_tx_queue n)) in
  let t := Z.min t (PowerManager.next_event (n_power n)) in
  Z.min t (u64 (n_last_housekeeping n + 1000)).

(** ** Housekeeping *)

Definition on_neighbor_lost (a : Address) : M unit :=
  count ct_neighbors_lost;;
  emit (NeighborDown a);;
  modify (upd_zone (fun z => (ZoneTable.remove_via a z).1));;
  lost ← call n_routes upd_routes (RouteCache.invalidate_via a);
  for_each lost (fun dst => emit (RouteLost dst));;
  modify (upd_attached_anchor (fun o => if decide (o = Some a) then None else o)).

(** The caches with a time to live. *)
Definition expire_caches now : M unit :=
  modify (upd_last_housekeeping (fun _ => now));;
  modify (upd_seen (SeenCache.expire now));;
  modify (upd_ierp (Ierp.expire now));;
  modify (upd_routes (fun r => (RouteCache.expire now r).1));;
  modify (upd_zone (fun z => (ZoneTable.expire now z).1));;
  ra ← gets n_reassembler;
  '(ra, _) ← lift (Reassembler.expire ra now);
  modify (upd_reassembler (fun _ => ra));;
  cfg ← gets n_cfg;
  grace ← gets (fun n => bool_decide (c_role cfg = Leaf)
                  && bool_decide (sat_sub now (n_last_wake n) < NeighborTable.timeout_ms (nt_cfg (n_neighbors n))));
  when (negb grace) (
    dead ← call n_neighbors upd_neighbors (NeighborTable.expire now);
    for_each dead on_neighbor_lost).

Definition expire_sessions now : M unit :=
  limits ← gets (fun n => c_session (n_cfg n));
  expired ← gets (fun n => (retain (fun e => is_expired e.2 now limits) (n_sessions n)).*1);
  for_each expired (fun a =>
    modify (upd_sessions (map_remove a));;
    modify (upd_transport (Transport.reset_peer a));;
    emit (SessionClosed a));;
  rekey ← gets (fun n => (retain (fun e => needs_rekey e.2 now limits) (n_sessions n)).*1);
  for_each rekey (fun a =>
    modify (upd_sessions (fun m => SmallMap.update m a (s_with_rekey true)));;
    start_handshake a now).

(** The destinations of pending envelopes without a known key, each once. *)
Fixpoint want_keys (keys : smallmap Address PublicIdentity) (l : list PendingEnvelope) (v : list Address) : list Address :=
  match l with
  | [] => v
  | e :: l' =>
      want_keys keys l'
        (if negb (SmallMap.contains_key keys (pe_dst e)) && negb (bool_decide (pe_dst e ∈ v)) then v ++ [pe_dst e] else v)
  end.

Definition expire_envelopes now : M unit :=
  want ← gets (fun n => want_keys (n_key_dir n) (n_pending_envelopes n) []);
  for_each want (fun dst => discover dst now);;
  let is_stale e := bool_decide (sat_sub now (pe_queued_at e) > 180000) in
  stale ← gets (fun n => retain is_stale (n_pending_envelopes n));
  modify (upd_pending_envelopes (retain (fun e => negb (is_stale e))));;
  for_each stale (fun e => failed_event (pe_handle e) (pe_dst e) FrNoKey).

Definition serve_mailbox_for now (d : Address) : M unit :=
  nb ← gets (neighbor d);
  match nb with
  | Some nb => when (negb (Neighbor.is_sleeping now nb)) (flush_mailbox_to d now)
  | None =>
      me ← address;
      host ← gets (fun n => ZoneTable.anchor_for d (n_zone n));
      match host with
      | Some host =>
          when (negb (bool_decide (host = me))) (
            items ← mailbox_call (Mailbox.take_deliverable d now 2);
            for_each (default [] items) (fun '(id, env) => send_store host d id env now))
      | None => mret ()
      end
  end.

Definition serve_mailbox now : M unit :=
  dsts ← mailbox_call (fun m => let m := (Mailbox.gc now m).1 in (m, Mailbox.destinations m));
  for_each (default [] dsts) (serve_mailbox_for now).

Definition housekeeping now : M unit :=
  expire_caches now;;
  expire_sessions now;;
  expire_envelopes now;;
  serve_mailbox now;;
  modify (upd_rx_airtime_ms (fun t => sat_sub t (u64 (t / 64 + 1))));;
  modify (upd_held_for_sleeping (retain (fun e => bool_decide (e.2 > now))));;
  modify (upd_tx_queue (retain (fun i => bool_decide (sat_sub now (tx_not_before i) < 60000)))).

(** ** Sleep and wake-up *)

Definition shift_discovery (slept : Z) (d : Discovery) : Discovery :=
  mkDiscovery (d_target d) (sat_add 64 (d_started_at d) slept) (d_attempt d) (sat_add 64 (d_deadline d) slept)
    (d_req_id d) (d_queued d).

Definition shift_timers (slept : Z) : M unit :=
  if decide (slept = 0) then mret () else
  modify (upd_handshakes (SmallMap.map_values (fun _ h => ph_set_started (sat_add 64 (ph_started_at h) slept) h)));;
  modify (upd_ierp (fun s => set_pending (SmallMap.map_values (fun _ => shift_discovery slept) (ie_pending s)) s));;
  modify (upd_transport (Transport.shift_timers slept));;
  modify (upd_pending_envelopes (fmap (fun e =>
    mkPendingEnvelope (pe_dst e) (pe_payload e) (pe_handle e) (sat_add 64 (pe_queued_at e) slept)))).

Definition wake_host n : option Address :=
  let best := nb_addr <$> NeighborTable.best_host (n_neighbors n) in
  match n_attached_anchor n with
  | Some a => match neighbor a n with
              | Some nb => if role_relays (nb_role nb) then Some a else best
              | None => Some a
              end
  | None => best
  end.

Definition on_wake now : M unit :=
  modify (upd_next_beacon (fun _ => now));;
  role ← my_role;
  host ← gets wake_host;
  match (if decide (role = Leaf) then host else None) with
  | Some anchor =>
      modify (upd_attached_anchor (fun _ => Some anchor));;
      air ← airtime 160;
      modify (fun n => upd_pending_fetch (fun _ => Some (anchor, u64 (u64 (now + air) + 1500), n_counters n ct_rx_for_us)) n)
  | None => mret ()
  end.

(** The [match self.power.tick(now)] at the start of [poll]. *)
Definition poll_power now : M unit :=
  t ← call n_power upd_power (PowerManager.tick now);
  match t with
  | Some true =>
      slept ← gets (fun n => sat_sub now (n_slept_at n));
      modify (upd_last_wake (fun _ => now));;
      shift_timers slept;;
      emit (PowerState true);;
      on_wake now
  | Some false =>
      modify (upd_slept_at (fun _ => now));;
      mode ← gets (fun n => pc_mode (c_power (n_cfg n)));
      match mode with
      | LeafMode wake_interval_s _ =>
          let span := Z.max (u64 (wake_interval_s * 1000) / 5) 1 in
          r ← rand_u64;
          modify (upd_power (PowerManager.delay_wake (r mod span)))
      | _ => mret ()
      end;;
      emit (PowerState false);;
      modify (upd_tx_queue (retain (fun i => bool_decide (tx_priority i = 0))))
  | None => mret ()
  end.

(** ** Timers *)

Definition poll_fetch now : M unit :=
  f ← gets n_pending_fetch;
  match f with
  | Some (host, due, rx_before) =>
      when (bool_decide (now >= due)) (
        modify (upd_pending_fetch (fun _ => None));;
        rx ← gets (fun n => n_counters n ct_rx_for_us);
        when (bool_decide (rx = rx_before)) (send_fetch host now))
  | None => mret ()
  end.

Definition poll_relays now : M unit :=
  threshold ← gets (fun n => counter_threshold (c_storm (n_cfg n)));
  due ← call n_sched upd_sched (RebroadcastScheduler.due now threshold);
  for_each due (fun '(key, p) =>
    modify (upd_seen (SeenCache.mark_forwarded key));;
    me ← address;
    enqueue_packet (on_header (h_with_relay (addr_short me)) p) now prio.RELAY true;;
    mret ()).

Definition hp_retry (due : Z) (h : HopPending) : HopPending :=
  mkHopPending (hp_key h) (hp_next_hop h) (hp_packet h) (u8 (hp_attempts h + 1)) due (hp_is_relay h) (hp_rerouted h).
Definition hp_mark_rerouted (h : HopPending) : HopPending :=
  mkHopPending (hp_key h) (hp_next_hop h) (hp_packet h) (hp_attempts h) (hp_due h) (hp_is_relay h) true.

(** A hop that exhausted its retries, already removed from the list. *)
Definition hop_failed (h : HopPending) now : M unit :=
  count ct_hop_failures;;
  let dst := h_dst (p_header (hp_packet h)) in
  dead ← call n_neighbors upd_neighbors (NeighborTable.record_failure (hp_next_hop h));
  (if dead : bool then
     lost ← call n_routes upd_routes (RouteCache.invalidate_via (hp_next_hop h));
     for_each lost (fun d => emit (RouteLost d))
   else mark_route_failure dst (hp_next_hop h);; mret ());;
  alt ← gets (next_hop_for dst now);
  match alt with
  | Some alt =>
      when (negb (hp_rerouted h) && negb (bool_decide (alt = hp_next_hop h))) (
        let p := on_header (h_with_next_hop (addr_short alt)) (hp_packet h) in
        count ct_hop_reroutes;;
        track_hop p alt now (hp_is_relay h);;
        modify (upd_hop_pending (update_first (fun x => bool_decide (hp_key x = h_key (p_header p))) hp_mark_rerouted));;
        enqueue_packet p now prio.DATA (hp_is_relay h);;
        mret ())
  | None => mret ()
  end.

(** A retransmission of the entry at index [i]. *)
Definition hop_retry (i : nat) (h : HopPending) now : M unit :=
  update_neighbor (hp_next_hop h) Neighbor.record_tx_attempt;;
  r ← rand_u64;
  let jitter := r mod 300 in
  timeout ← hop_timeout (wire_len (hp_packet h));
  modify (upd_hop_pending (alter (hp_retry (u64 (u64 (now + timeout) + jitter))) i));;
  count ct_hop_retransmissions;;
  enqueue_packet (hp_packet h) (u64 (now + jitter)) prio.DATA (hp_is_relay h);;
  mret ().

(** The [while i < self.hop_pending.len()] loop.  Every round either advances
    [i] or removes an exhausted entry, and the entries a reroute adds are not
    exhausted: [HOP_ROUNDS] rounds are enough, running out is a failure. *)
Fixpoint hop_loop (fuel i : nat) (max_retries now : Z) : M unit :=
  match fuel with
  | O => lift Panic
  | S fuel' =>
      h ← gets (fun n => n_hop_pending n !! i);
      match h with
      | None => mret ()
      | Some h =>
          if decide (hp_due h > now) then hop_loop fuel' (S i) max_retries now
          else if decide (hp_attempts h > max_retries) then
            modify (upd_hop_pending (SmallMap.vec_remove i));;
            hop_failed h now;;
            hop_loop fuel' i max_retries now
          else
            hop_retry i h now;;
            hop_loop fuel' (S i) max_retries now
      end
  end.
Definition HOP_ROUNDS : nat := 49.
Definition poll_hops now : M unit :=
  max_retries ← gets (fun n => c_hop_retries (n_cfg n));
  hop_loop HOP_ROUNDS 0 max_retries now.

Definition poll_discovery now : M unit :=
  replies ← call n_rrep_pending upd_rrep_pending (PendingReplies.due now);
  for_each replies (fun p => count ct_rrep_sent;; ignore (route_unicast p now));;
  '(retries, failures) ← (fun n =>
     let '(s, r, g) := Ierp.tick next_u32 now (n_rng n) (n_ierp n) in
     (upd_rng (fun _ => g) (upd_ierp (fun _ => s) n), r));
  for_each retries (fun '(target, req_id, ttl) => send_route_request target req_id ttl now);;
  for_each failures (fun '(target, queued) => on_discovery_failed target queued now).

Definition poll_transport now : M unit :=
  '(retries, failed) ← (fun n =>
     let '(t, r, g) := Transport.tick now (n_rng n) (n_transport n) in
     (upd_rng (fun _ => g) (upd_transport (fun _ => t) n), Ok r));
  for_each retries (fun o => retry_outstanding o now);;
  for_each failed (fun o =>
    if o_stored o then mret () else
    mark_route_failure (o_dst o) (o_dst o);;
    emit (Failed (o_handle o) (o_dst o) FrNoAck)).

(** Message 1 is due again. *)
Definition needs_resend now (timeout : Z) n (e : Address * PendingHandshake) : bool :=
  let h := e.2 in
  negb (bool_decide (ph_m1 h = [])) && bool_decide (ph_attempts h < 3) && negb (Ierp.is_pending e.1 (n_ierp n))
  && bool_decide (sat_sub now (ph_started_at h) > u64 (timeout / 3 * ph_attempts h)).
Definition handshake_budget (timeout : Z) n (e : Address * PendingHandshake) : Z :=
  let base := match neighbor e.1 n with
    | Some nb => if Neighbor.is_leaf nb && bool_decide (nb_sleep_interval_s nb > 0)
                 then u64 (u64 (u64 (nb_sleep_interval_s nb * 1000) * 2) + timeout) else timeout
    | None => timeout
    end in
  u64 (base * if decide (hs_role (ph_hs e.2) = Responder) then 2 else 1).

Definition poll_handshakes now : M unit :=
  timeout ← gets (fun n => c_handshake_timeout_ms (n_cfg n));
  resend ← gets (fun n => (fun e => (e.1, ph_m1 e.2)) <$> retain (needs_resend now timeout n) (n_handshakes n));
  for_each resend (fun '(a, m1) =>
    modify (upd_handshakes (fun m => SmallMap.update m a ph_count_attempt));;
    send_handshake_packet a One m1 now);;
  expired ← gets (fun n => (retain (fun e => bool_decide (sat_sub now (ph_started_at e.2) > handshake_budget timeout n e))
                              (n_handshakes n)).*1);
  for_each expired (fun a =>
    h ← take_handshake a;
    match h with
    | Some h =>
        for_each (ph_queued h) (fun q => emit (Failed (q_handle q) (q_dst q) FrNoSession));;
        count ct_handshake_failures
    | None => mret ()
    end).

Definition poll_traces now : M unit :=
  expired ← gets (fun n => (retain (fun e => bool_decide (sat_sub now e.2 > 30000)) (n_pending_traces n)).*1);
  for_each expired (fun d =>
    modify (upd_pending_traces (retain (fun e => negb (bool_decide (e.1 = d)))));;
    emit (TraceResult d false [] 0)).

Definition poll now : M unit :=
  modify (upd_now (fun t => Z.max t now));;
  now ← gets n_now;
  poll_power now;;
  awake ← gets is_awake;
  if negb awake then mret () else
  next ← gets n_next_beacon;
  when (bool_decide (now >= next)) (send_beacon now);;
  poll_fetch now;;
  poll_relays now;;
  poll_hops now;;
  poll_discovery now;;
  poll_transport now;;
  poll_handshakes now;;
  poll_traces now;;
  last ← gets n_last_housekeeping;
  when (bool_decide (sat_sub now last >= 1000)) (housekeeping now).
End Engine.
