(* ===== verification/Calculus.v ===== *)
(** * A calculus for the engine's methods

    [holds I m Q]: from every state in [I] the method [m] does not panic, leaves
    a state in [I] whether it succeeds or fails, and a result in [Q] when it
    succeeds.  The rules follow the shape of the code; [keep] applies them. *)
From stdpp Require Import base tactics list numbers.
From S2P Require Import Prelude SmallMap Protocol Methods.

Definition wpe {S E A} (m : St S E A) (Q : S -> A -> Prop) (X : S -> Prop) (s : S) : Prop :=
  match m s with (s', Ok a) => Q s' a | (s', Err _) => X s' | (_, Panic) => False end.

Definition holds {S E A} (I : S -> Prop) (m : St S E A) (Q : A -> Prop) : Prop :=
  forall s, I s -> wpe m (fun s' a => I s' /\ Q a) I s.

(** No claim about the result. *)
Definition any {A} (a : A) : Prop := True.

Section Wpe.
Context {S E A B : Type}.
Implicit Types (s : S) (X : S -> Prop).

Lemma wpe_bind (m : St S E A) (f : A -> St S E B) Q X s :
  wpe m (fun s' a => wpe (f a) Q X s') X s -> wpe (m ≫= f) Q X s.
Proof. unfold wpe, mbind, St_bind. destruct (m s) as [s' [a|e|]]; done. Qed.
Lemma wpe_gets (f : S -> A) Q X s : Q s (f s) -> wpe (E := E) (gets f) Q X s.
Proof. done. Qed.
Lemma wpe_modify (f : S -> S) Q X s : Q (f s) () -> wpe (E := E) (modify f) Q X s.
Proof. done. Qed.
Lemma wpe_ret (a : A) Q X s : Q s a -> wpe (E := E) (mret a) Q X s.
Proof. done. Qed.
Lemma wpe_lift (o : outcome E A) Q X s : safe o -> (forall a, o = Ok a -> Q s a) -> X s -> wpe (lift o) Q X s.
Proof. unfold wpe, lift, safe. destruct o; naive_solver. Qed.
Lemma wpe_ensure b (e : E) Q X s : (b = true -> Q s ()) -> X s -> wpe (ensure b e) Q X s.
Proof. unfold wpe. destruct b; simpl; auto. Qed.
Lemma wpe_attempt (m : St S E A) (Q : S -> E + A -> Prop) X s :
  wpe m (fun s' a => Q s' (inr a)) (fun s' => forall e, Q s' (inl e)) s -> wpe (attempt m) Q X s.
Proof. unfold wpe, attempt. destruct (m s) as [s' [a|e|]]; auto. Qed.
Lemma wpe_mono (m : St S E A) (Q Q' : S -> A -> Prop) (X X' : S -> Prop) s :
  wpe m Q X s -> (forall s' a, Q s' a -> Q' s' a) -> (forall s', X s' -> X' s') -> wpe m Q' X' s.
Proof. unfold wpe. destruct (m s) as [s' [a|e|]]; auto. Qed.
(** Use a method's contract inside a longer run. *)
Lemma wpe_holds (I : S -> Prop) (m : St S E A) P Q X s :
  holds I m P -> I s -> (forall s' a, I s' -> P a -> Q s' a) -> (forall s', I s' -> X s') -> wpe m Q X s.
Proof. intros Hm Hs HQ HX. eapply wpe_mono; [by apply Hm|naive_solver|done]. Qed.
End Wpe.

Lemma wpe_call {S T A} (pr : S -> T) upd (f : T -> T * A) Q X n :
  Q (upd (fun _ => (f (pr n)).1) n) (f (pr n)).2 -> wpe (call pr upd f) Q X n.
Proof. unfold wpe, call. destruct (f (pr n)). done. Qed.

Lemma wpe_try_call {S T A} (pr : S -> T) upd (f : St T Error A) Q X n :
  wpe f (fun t a => Q (upd (fun _ => t) n) a) (fun t => X (upd (fun _ => t) n)) (pr n) -> wpe (try_call pr upd f) Q X n.
Proof. unfold wpe, try_call, zoom. destruct (f (pr n)) as [t [a|e|]]; done. Qed.

Lemma wpx_call {S T A} (pr : S -> T) upd (f : T -> T * A) Q X n :
  Q (upd (fun _ => (f (pr n)).1) n) (f (pr n)).2 -> wpx (call pr upd f) Q X n.
Proof. unfold wpx, call. by destruct (f (pr n)). Qed.

Ltac wpe_step :=
  match goal with
  | |- wpe (_ ≫= _) _ _ _ => apply wpe_bind
  | |- wpe (gets _) _ _ _ => apply wpe_gets
  | |- wpe (modify _) _ _ _ => apply wpe_modify
  | |- wpe (mret _) _ _ _ => apply wpe_ret
  | |- wpe (ensure _ _) _ _ _ => apply wpe_ensure; [intros ?|]
  | |- wpe (lift _) _ _ _ => apply wpe_lift; [|intros ? ?|]
  | |- wpe (call _ _ _) _ _ _ => apply wpe_call
  | |- wpe (attempt _) _ _ _ => apply wpe_attempt
  end.

Section Holds.
Context {S E : Type} (I : S -> Prop).
Notation M := (St S E).

Lemma holds_ret {A} (a : A) (Q : A -> Prop) : Q a -> holds I (mret a : M A) Q.
Proof. by intros HQ s Hs. Qed.
Lemma holds_bind {A B} (m : M A) (f : A -> M B) (P : A -> Prop) Q :
  holds I m P -> (forall a, P a -> holds I (f a) Q) -> holds I (m ≫= f) Q.
Proof.
  intros Hm Hf s Hs. apply wpe_bind. eapply wpe_mono; [by apply Hm| |done]. intros s' a [Hs' Ha]. by apply Hf.
Qed.
Lemma holds_gets {A} (f : S -> A) (Q : A -> Prop) : (forall s, I s -> Q (f s)) -> holds I (gets f : M A) Q.
Proof. intros HQ s Hs. apply wpe_gets. auto. Qed.
(** A value read from a state of the invariant. *)
Lemma holds_bind_gets {A B} (f : S -> A) (k : A -> M B) Q :
  (forall s, I s -> holds I (k (f s)) Q) -> holds I (gets f ≫= k) Q.
Proof. intros Hk s Hs. apply wpe_bind, wpe_gets. by apply Hk. Qed.
Lemma holds_modify (f : S -> S) (Q : unit -> Prop) : (forall s, I s -> I (f s)) -> Q () -> holds I (modify f : M unit) Q.
Proof. intros Hf HQ s Hs. apply wpe_modify. auto. Qed.
Lemma holds_lift {A} (o : outcome E A) (Q : A -> Prop) : safe o -> (forall a, o = Ok a -> Q a) -> holds I (lift o : M A) Q.
Proof. intros Ho HQ s Hs. apply wpe_lift; auto. Qed.
Lemma holds_ensure b (e : E) (Q : unit -> Prop) : (b = true -> Q ()) -> holds I (ensure b e) Q.
Proof. intros HQ s Hs. apply wpe_ensure; auto. Qed.
Lemma holds_attempt {A} (m : M A) (P : A -> Prop) (Q : E + A -> Prop) :
  holds I m P -> (forall e, Q (inl e)) -> (forall a, P a -> Q (inr a)) -> holds I (attempt m) Q.
Proof.
  intros Hm HE HA s Hs. apply wpe_attempt. eapply wpe_mono; [by apply Hm|naive_solver|]. intros s' Hs'. auto.
Qed.
Lemma holds_ignore {A} (m : M A) (P : A -> Prop) (Q : unit -> Prop) : holds I m P -> Q () -> holds I (ignore m) Q.
Proof.
  intros Hm HQ. unfold ignore. apply holds_bind with (P := any); [|intros; by apply holds_ret].
  by eapply holds_attempt.
Qed.
Lemma holds_when b (m : M unit) (Q : unit -> Prop) : (b = true -> holds I m Q) -> Q () -> holds I (when b m) Q.
Proof. destruct b; [auto|]. intros _ HQ. by apply holds_ret. Qed.
Lemma holds_for_each {A} (l : list A) (f : A -> M unit) (P : A -> Prop) (Q : unit -> Prop) :
  Forall P l -> (forall x, P x -> holds I (f x) any) -> Q () -> holds I (for_each l f) Q.
Proof.
  intros Hl Hf HQ. induction Hl as [|x l Hx _ IH]; simpl; [by apply holds_ret|].
  eapply holds_bind; [by apply Hf|]. done.
Qed.
Lemma holds_mono {A} (m : M A) (P Q : A -> Prop) : holds I m P -> (forall a, P a -> Q a) -> holds I m Q.
Proof. intros Hm HPQ s Hs. eapply wpe_mono; [by apply Hm|naive_solver|done]. Qed.
Lemma holds_any {A} (m : M A) (P : A -> Prop) : holds I m P -> holds I m any.
Proof. intros Hm. by eapply holds_mono. Qed.
(** Forget what a run did when only the invariant matters. *)
Lemma holds_true {A} (l : list A) (f : A -> M unit) (Q : unit -> Prop) :
  (forall x, holds I (f x) any) -> Q () -> holds I (for_each l f) Q.
Proof. intros Hf HQ. apply holds_for_each with (P := any); [by apply Forall_true|auto|done]. Qed.
End Holds.

(** A field [pr] with updater [upd] whose part of the invariant is [P]. *)
Class FieldInv {S T} (I : S -> Prop) (pr : S -> T) (upd : (T -> T) -> S -> S) (P : T -> Prop) : Prop := {
  field_get n : I n -> P (pr n);
  field_set f n : I n -> P (f (pr n)) -> I (upd f n)
}.

Section Fields.
Context {S T : Type} {I : S -> Prop} {pr : S -> T} {upd : (T -> T) -> S -> S} {P : T -> Prop}.
Context `{!FieldInv I pr upd P}.

Lemma holds_upd f (Q : unit -> Prop) : (forall x, P x -> P (f x)) -> Q () -> holds I (modify (upd f) : St S Error unit) Q.
Proof. intros Hf HQ. apply holds_modify; [|done]. intros n Hn. apply field_set; [done|]. by apply Hf, field_get. Qed.
Lemma holds_call {A} (f : T -> T * A) (Q : A -> Prop) :
  (forall x, P x -> P (f x).1 /\ Q (f x).2) -> holds I (call pr upd f) Q.
Proof.
  intros Hf n Hn. apply wpe_call. destruct (Hf (pr n)) as [H1 H2]; [by apply field_get|].
  split; [|done]. by apply field_set.
Qed.
Lemma holds_try_call {A} (f : St T Error A) (Q : A -> Prop) :
  (forall x, P x -> P (f x).1 /\ (f x).2 <> Panic /\ forall a, (f x).2 = Ok a -> Q a) -> holds I (try_call pr upd f) Q.
Proof.
  intros Hf n Hn. apply wpe_try_call. unfold wpe. destruct (Hf (pr n)) as (H1 & H2 & H3); [by apply field_get|].
  destruct (f (pr n)) as [t [a|e|]]; simpl in *; [|by apply field_set|done]. split; [by apply field_set|by apply H3].
Qed.
End Fields.

(** One step along the code.  A [gets] is read into the context, updates go
    through the field of the invariant; methods use the contracts of the [keep]
    hint database. *)
Create HintDb keep discriminated.
#[export] Hint Constants Opaque : keep.
#[export] Hint Variables Opaque : keep.
#[export] Hint Extern 0 (any _) => exact Logic.I : keep.
Ltac keep_step :=
  match goal with
  | |- holds _ (mret _) _ => apply holds_ret; try exact Logic.I
  | |- holds _ (gets _ ≫= _) _ => apply holds_bind_gets; intros ? ?; cbn beta
  | |- holds _ (ensure ?b _ ≫= _) _ =>
      apply (holds_bind _ _ _ (fun _ => b = true)); [by apply holds_ensure|intros _ ?; cbn beta]
  | |- holds _ (_ ≫= _) _ =>
      first [ eapply holds_bind; [solve [eauto with keep]|intros ? ?; cbn beta]
            | apply (holds_bind _ _ _ any); [|intros ? _; cbn beta] ]
  | |- holds _ (gets _) _ => apply holds_gets; intros ? ?; try exact Logic.I
  | |- holds _ (ensure _ _) _ => apply holds_ensure; intros ?; try exact Logic.I
  | |- holds _ (ignore _) _ => apply (holds_ignore _ _ any); [|try exact Logic.I]
  | |- holds _ (attempt _) any => apply (holds_attempt _ _ any); [|try done..]
  | |- holds _ (when _ _) _ => apply holds_when; [intros ?|try exact Logic.I]
  | |- holds _ (modify (?u _)) any => apply holds_upd; [try done|exact Logic.I]
  | |- holds _ (call _ _ _) any => apply holds_call; intros ? ?; first [split; exact Logic.I | split; [|exact Logic.I]]
  | |- holds _ (lift _) any => apply holds_lift; [|intros ? _; exact Logic.I]
  | |- holds _ (if decide ?P then _ else _) _ => destruct (decide P)
  | |- holds _ (if ?b then _ else _) _ => destruct b eqn:?
  | |- holds _ (match ?x with _ => _ end) _ => destruct x eqn:?
  end.
(** A method by its contract; a sequence is taken apart first. *)
Ltac keep_known :=
  lazymatch goal with
  | |- holds _ (_ ≫= _) _ => fail
  | |- _ => solve [eauto with keep]
  end.

(** ** Methods that leave a part of the state alone *)

Section Frames.
Context {S E T : Type} (pr : S -> T).
Definition frames {A} (m : St S E A) : Prop := forall s, pr (m s).1 = pr s.

Lemma frames_ret {A} (a : A) : frames (mret a).
Proof. done. Qed.
Lemma frames_bind {A B} (m : St S E A) (f : A -> St S E B) : frames m -> (forall a, frames (f a)) -> frames (m ≫= f).
Proof.
  intros Hm Hf s. specialize (Hm s). unfold mbind, St_bind. destruct (m s) as [s' [a|e|]]; simpl in *; [|done..]. by rewrite (Hf a s').
Qed.
Lemma frames_gets {A} (f : S -> A) : frames (gets f).
Proof. done. Qed.
Lemma frames_modify (f : S -> S) : (forall s, pr (f s) = pr s) -> frames (modify f).
Proof. intros Hf s. apply Hf. Qed.
Lemma frames_lift {A} (o : outcome E A) : frames (lift o).
Proof. intros s. unfold lift. by destruct o. Qed.
Lemma frames_attempt {A} (m : St S E A) : frames m -> frames (attempt m).
Proof. intros Hm s. specialize (Hm s). unfold attempt. by destruct (m s) as [s' []]. Qed.
Lemma frames_ensure b (e : E) : frames (ensure b e).
Proof. by destruct b. Qed.
Lemma frames_ignore {A} (m : St S E A) : frames m -> frames (ignore m).
Proof. intros Hm. apply frames_bind; [by apply frames_attempt|intros; apply frames_ret]. Qed.
Lemma frames_when b (m : St S E unit) : frames m -> frames (when b m).
Proof. by destruct b. Qed.
Lemma frames_for_each {A} (l : list A) (f : A -> St S E unit) : (forall x, frames (f x)) -> frames (for_each l f).
Proof. intros Hf. induction l; [apply frames_ret|]. by apply frames_bind. Qed.

(** A method that leaves [pr] alone keeps what is known of it. *)
Lemma holds_frame {A} (I : S -> Prop) (K : T -> Prop) (m : St S E A) (Q : A -> Prop) :
  holds I m Q -> frames m -> holds (fun s => I s /\ K (pr s)) m Q.
Proof.
  intros Hm Hf s [Hs HK]. specialize (Hm s Hs). specialize (Hf s). unfold wpe in *. destruct (m s) as [s' [a|e|]]; simpl in *; [|by rewrite Hf|done].
  rewrite Hf. naive_solver.
Qed.
End Frames.

Lemma frames_call {S T U A} (pr : S -> T) (pr' : S -> U) upd (f : U -> U * A) :
  (forall g n, pr (upd g n) = pr n) -> frames pr (call pr' upd f).
Proof. intros Hu n. unfold call. destruct (f (pr' n)). apply Hu. Qed.
Lemma frames_try_call {S T U A} (pr : S -> T) (pr' : S -> U) upd (f : St U Error A) :
  (forall g n, pr (upd g n) = pr n) -> frames pr (try_call pr' upd f).
Proof. intros Hu n. unfold try_call, zoom. destruct (f (pr' n)). apply Hu. Qed.

Create HintDb frame discriminated.
#[export] Hint Constants Opaque : frame.
#[export] Hint Variables Opaque : frame.
Ltac frame_step :=
  match goal with
  | |- frames _ (_ ≫= _) => apply frames_bind; [|intros ?; cbn beta]
  | |- frames _ (mret _) => apply frames_ret
  | |- frames _ (gets _) => apply frames_gets
  | |- frames _ (modify _) => by apply frames_modify
  | |- frames _ (lift _) => apply frames_lift
  | |- frames _ (ensure _ _) => apply frames_ensure
  | |- frames _ (attempt _) => apply frames_attempt
  | |- frames _ (ignore _) => apply frames_ignore
  | |- frames _ (when _ _) => apply frames_when
  | |- frames _ (for_each _ _) => apply frames_for_each; intros ?
  | |- frames _ (call _ _ _) => by apply frames_call
  | |- frames _ (try_call _ _ _) => by apply frames_try_call
  | |- frames _ (match ?x with _ => _ end) => destruct x
  end.
(** Sequences are taken apart, methods use the [frame] hints. *)
Ltac frame :=
  repeat (lazymatch goal with
          | |- frames _ (_ ≫= _) => frame_step
          | |- _ => solve [eauto with frame] || frame_step
          end).
