(* ===== verification/EngineInv.v ===== *)
(** * Invariants shared by the engines

    What the full node and the relay keep true of the components they both own,
    and that the operations they call preserve it. *)
From stdpp Require Import base tactics list numbers.
From Stdlib Require Import Lia.
From S2P Require Import Prelude SmallMap Float32 Protocol Packet Fragmentation CryptoLib Identity Noise Replay Session Transport StoreForward Storm Routing Messages Ierp Power Beacon Radio Neighbor Zone Methods NodeState Calculus NodeTx NodeRx Node.
From stdpp Require Import list.
#[local] Open Scope Z_scope.

Lemma Forall_elem {A} (P : A -> Prop) l x : Forall P l -> x ∈ l -> P x.
Proof. induction 1; [by intros ?%elem_of_nil|]. intros [->|?]%elem_of_cons; auto. Qed.

(** ** Maps with a property of their entries *)

Section MapOk.
Context {K V : Type} `{KeyOrdLaws K} (P : K * V -> Prop).
Implicit Types (m : smallmap K V).

Definition map_ok m : Prop := SmallMapFacts.wf m /\ Forall P m.

Lemma map_ok_empty : map_ok SmallMap.empty.
Proof. split; [apply SmallMapFacts.empty_wf|constructor]. Qed.
Lemma map_ok_insert k v m : map_ok m -> P (k, v) -> map_ok (map_insert k v m).
Proof. intros [Hwf Hm] Hv. split; [by apply SmallMapFacts.insert_wf|by apply SmallMapFacts.Forall_insert]. Qed.
Lemma map_ok_remove k m : map_ok m -> map_ok (map_remove k m).
Proof. intros [Hwf Hm]. split; [by apply SmallMapFacts.remove_wf|by apply SmallMapFacts.Forall_remove]. Qed.
Lemma map_ok_update k f m : map_ok m -> (forall v, P (k, v) -> P (k, f v)) -> map_ok (SmallMap.update m k f).
Proof. intros [Hwf Hm] Hf. split; [by apply SmallMapFacts.update_wf|]. apply SmallMapFacts.Forall_update; auto. Qed.
Lemma map_ok_get k v m : map_ok m -> SmallMap.get m k = Some v -> P (k, v).
Proof. intros [Hwf Hm] Hg. apply SmallMapFacts.get_Some in Hg; [|done]. by apply (Forall_elem _ _ _ Hm Hg). Qed.
Lemma map_ok_values f m : map_ok m -> (forall k v, P (k, v) -> P (k, f k v)) -> map_ok (SmallMap.map_values f m).
Proof.
  intros [Hwf Hm] Hf. split; [by apply SmallMapFacts.map_values_wf|]. apply Forall_fmap.
  eapply Forall_impl; [exact Hm|]. intros [k v]. apply Hf.
Qed.
(** [remove] returns the entry it takes out. *)
Lemma map_ok_take k m : map_ok m -> map_ok (SmallMap.remove m k).1 /\ forall v, (SmallMap.remove m k).2 = Some v -> P (k, v).
Proof.
  intros Hm. split; [by apply map_ok_remove|]. intros v. rewrite SmallMapFacts.remove_old by apply Hm. by apply map_ok_get.
Qed.
End MapOk.

(** ** Sizes *)

(** Vectors that fit the address space with room for the headers the code puts
    in front of them; vectors within the memory budgets. *)
Definition sendable (l : list Z) : Prop := zlen l < 2 ^ 32 - 1024.
Definition small (l : list Z) : Prop := zlen l < 2 ^ 31.

Lemma small_sendable l : small l -> sendable l.
Proof. unfold small, sendable. lia. Qed.
Lemma small_le l k : zlen l <= zlen k -> small k -> small l.
Proof. unfold small. lia. Qed.

(** Handshake messages and other fixed formats. *)
Definition tiny (l : list Z) : Prop := zlen l <= 1024.
Lemma tiny_small l : tiny l -> small l.
Proof. unfold tiny, small. lia. Qed.

(** An address of the fixed length. *)
Definition short (a : Address) : Prop := zlen (addr_bytes a) <= 8.
Lemma address_short a : address_ok a -> short a.
Proof. intros Ha. unfold short. by rewrite zlen_addr. Qed.

(** ** Where a packet comes from *)

(** The types whose payload belongs to the two ends of the conversation; relays
    rewrite the others (costs of route control, stamps of traces). *)
Definition end_to_end (t : PacketType) : bool :=
  match t with Data | Handshake | Protocol.Ack | Store | Fetch => true | _ => false end.

(** [p] is the message [q], perhaps further along its way: only the hop fields
    differ, and the time to live did not grow. *)
Definition same_message (q p : Packet) : Prop :=
  let h := p_header q in let h' := p_header p in
  h_ptype h' = h_ptype h /\ h_flags h' = h_flags h /\ h_src h' = h_src h /\ h_dst h' = h_dst h /\
  h_packet_id h' = h_packet_id h /\ h_seq h' = h_seq h /\ h_ttl h' <= h_ttl h /\ p_payload p = p_payload q.

Lemma same_message_refl p : same_message p p.
Proof. repeat split. lia. Qed.
Lemma same_message_trans p q r : same_message p q -> same_message q r -> same_message p r.
Proof. unfold same_message. intros (?&?&?&?&?&?&?&?) (?&?&?&?&?&?&?&?). repeat split; try congruence. lia. Qed.
(** The hop fields are the ones the associated data leaves out. *)
Lemma same_message_aad q p len : same_message q p -> header_aad (p_header p) len = header_aad (p_header q) len.
Proof. intros (H1&H2&H3&H4&H5&H6&_&_). unfold header_aad. by rewrite H1, H2, H3, H4, H5, H6. Qed.

Section Provenance.
Context (heard : Packet -> Prop).

(** An end-to-end packet that was heard, not made up. *)
Definition relayed (p : Packet) : Prop :=
  end_to_end (h_ptype (p_header p)) = true -> exists q, heard q /\ same_message q p.

Lemma relayed_heard p : heard p -> relayed p.
Proof. intros Hp _. exists p. split; [done|apply same_message_refl]. Qed.
Lemma relayed_control p : end_to_end (h_ptype (p_header p)) = false -> relayed p.
Proof. intros Hp. unfold relayed. by rewrite Hp. Qed.
Lemma relayed_same p p' : same_message p p' -> relayed p -> relayed p'.
Proof.
  intros Hs Hp He. destruct Hp as (q & Hq & Hqp); [|exists q; split; [done|by eapply same_message_trans]].
  destruct Hs as (<- & _). done.
Qed.
(** A stamped trace is not end-to-end traffic. *)
Lemma relayed_stamp a p : relayed p -> relayed (trace_stamp a p).
Proof.
  intros Hp. unfold trace_stamp. destruct (_ && _) eqn:E; [|done]. apply andb_true_iff in E as [E _]. apply andb_true_iff in E as [E _].
  apply bool_decide_eq_true in E. apply relayed_control. simpl. by rewrite E.
Qed.
End Provenance.
Lemma relayed_mono (P Q : Packet -> Prop) p : (forall q, P q -> Q q) -> relayed P p -> relayed Q p.
Proof. intros HPQ Hp He. destruct (Hp He) as (q & Hq & Hs). eauto. Qed.

(** ** Pieces without state *)

Lemma airtime_ms_safe p len : RadioFacts.profile_ok p -> safe (LoRaProfile.airtime_ms p len).
Proof.
  intros Hp. pose proof (RadioFacts.symbol_time_ok p Hp) as [Hts _]. destruct Hp as (Hsf & _).
  unfold LoRaProfile.airtime_ms, LoRaProfile.airtime_us, LoRaProfile.low_data_rate_optimize. rewrite Hts. cbn [mbind outcome_bind].
  set (de := if bool_decide (RadioFacts.ts_of p > 16000) then 1 else 0).
  assert (Hde : de = 0 \/ de = 1) by (unfold de; destruct (bool_decide _); auto). clearbody de. cbn zeta.
  rewrite decide_False; [done|]. rewrite i32_small; lia.
Qed.

Lemma packet_encode_safe `{C : CryptoLib} p key : safe (packet_encode hmac_sha256 p key).
Proof.
  unfold packet_encode. case_decide as Hk; [done|]. case_decide; [done|]. destruct (h_has _ _); [|done].
  destruct key; [done|]. exfalso. auto.
Qed.

Lemma vec_remove_len {A} (j : nat) (l : list A) x : l !! j = Some x -> zlen (SmallMap.vec_remove j l) = zlen l - 1.
Proof.
  intros Hl%lookup_lt_Some. unfold SmallMap.vec_remove, zlen. rewrite length_app, length_take, length_drop. lia.
Qed.

Lemma Forall_vec_remove {A} (P : A -> Prop) j l : Forall P l -> Forall P (SmallMap.vec_remove j l).
Proof. intros Hl. apply Forall_app_2; [by apply Forall_take|by apply Forall_drop]. Qed.

Lemma zlen_retain_le {A} (p : A -> bool) l : zlen (retain p l) <= zlen l.
Proof. unfold zlen. pose proof (length_retain p l). lia. Qed.

(** One more hop: the packet stays the same message. *)
Lemma same_hop f p : h_ttl (p_header p) > 1 -> (forall h, same_message (mkPacket (h_hop h) (p_payload p)) (mkPacket (f h) (p_payload p))) ->
  same_message p (on_header f p).
Proof.
  intros Ht Hf. eapply same_message_trans; [|apply Hf]. repeat split. simpl. unfold u8, wrap. apply Z.le_trans with (h_ttl (p_header p) - 1); [|lia].
  apply Z.mod_le; lia.
Qed.

Lemma due_split now th l a b (P : Packet -> Prop) :
  Forall (fun e => P (p_packet e)) l ->
  let '(keep, out, _, _) := RebroadcastScheduler.due_loop now th l a b in
  zlen keep <= zlen l /\ Forall (fun e => P (p_packet e)) keep /\ Forall (fun e => P e.2) out.
Proof.
  intros Hl. revert a b. induction Hl as [|p l Hp Hl IH]; intros a b; simpl; [by repeat constructor|]. repeat case_decide;
    match goal with |- context [RebroadcastScheduler.due_loop now th l ?x ?y] =>
      specialize (IH x y); destruct (RebroadcastScheduler.due_loop now th l x y) as [[[??]?]?] end;
    destruct IH as (? & ? & ?); rewrite ?zlen_cons; (split; [lia|]); split; try done; by apply Forall_cons_2.
Qed.

Lemma zlen_retain_app {A} (f : A -> bool) l k : zlen (retain f (l ++ k)) = zlen (retain f l) + zlen (retain f k).
Proof. by rewrite retain_app, zlen_app. Qed.

(** ** Entries that exhausted their retries, from an index on *)

Section Exhausted.
Context {A : Type} (att : A -> Z).

Definition exhausted (max : Z) (j : nat) (l : list A) : Z :=
  zlen (retain (fun a => bool_decide (a > max)) (drop j (att <$> l))).


Lemma exhausted_S max j l : exhausted max (S j) l <= exhausted max j l.
Proof.
  unfold exhausted. replace (S j) with (j + 1)%nat by lia. rewrite <- drop_drop. generalize (drop j (att <$> l)). intros [|a k]; [done|].
  simpl. rewrite drop_0, retain_cons. destruct (bool_decide _); rewrite ?zlen_cons; lia.
Qed.
Lemma exhausted_le max j l : exhausted max j l <= zlen l.
Proof.
  unfold exhausted. etrans; [apply zlen_retain_le|]. unfold zlen. rewrite length_drop, length_fmap. lia.
Qed.
Lemma exhausted_retain max j f l : exhausted max j (retain f l) <= exhausted max j l.
Proof.
  revert j. induction l as [|x l IH]; intros j; [done|]. rewrite retain_cons. destruct (f x).
  - destruct j as [|j]; [|apply IH]. specialize (IH 0%nat). unfold exhausted in *. rewrite !drop_0 in *. rewrite !fmap_cons, !retain_cons.
    destruct (bool_decide _); rewrite ?zlen_cons; lia.
  - destruct j as [|j].
    + specialize (IH 0%nat). unfold exhausted in *. rewrite !drop_0 in *. rewrite fmap_cons, retain_cons. destruct (bool_decide _); rewrite ?zlen_cons; lia.
    + etrans; [apply exhausted_S|]. apply IH.
Qed.
Lemma exhausted_snoc max j l x : att x <= max -> exhausted max j (l ++ [x]) <= exhausted max j l.
Proof.
  intros Hx. unfold exhausted. rewrite fmap_app, drop_app, zlen_retain_app. enough (zlen (retain (fun a => bool_decide (a > max))
    (drop (j - length (att <$> l)) (att <$> [x]))) = 0) by lia.
  destruct (j - length _)%nat as [|k]; simpl; [rewrite retain_cons, bool_decide_false by lia; done|]. by rewrite drop_nil.
Qed.
Lemma exhausted_vec_remove max j l h : l !! j = Some h -> att h > max -> exhausted max j (SmallMap.vec_remove j l) = exhausted max j l - 1.
Proof.
  intros Hl Hh. unfold exhausted, SmallMap.vec_remove. rewrite fmap_app, fmap_take, fmap_drop.
  assert (Hj : (att <$> l) !! j = Some (att h)) by (by rewrite list_lookup_fmap, Hl).
  rewrite (drop_S _ _ _ Hj). rewrite retain_cons, bool_decide_true, zlen_cons by done.
  rewrite drop_app_length' by (rewrite length_take; apply lookup_lt_Some in Hj; lia). lia.
Qed.
Lemma exhausted_same max j l k : att <$> k = att <$> l -> exhausted max j k = exhausted max j l.
Proof. intros E. unfold exhausted. by rewrite E. Qed.
Lemma exhausted_alter max j f l : exhausted max (S j) (alter f j l) = exhausted max (S j) l.
Proof. unfold exhausted. rewrite <- !fmap_drop. by rewrite drop_alter, decide_False by lia. Qed.
End Exhausted.

(** ** The fields both engines own *)

Section Fields.
Context `{C : CryptoLib, !CryptoLibLaws C}.

Definition neighbors_fld (nc : NeighborConfig) (t : NeighborTable) : Prop := NeighborFacts.table_ok t /\ nt_cfg t = nc.
Lemma nop_fld nc o t : neighbors_fld nc t -> exists t', NeighborFacts.run_nop o t = Ok t' /\ neighbors_fld nc t'.
Proof.
  intros [Ht Hc]. destruct (NeighborFacts.run_nop_ok o t Ht) as (t' & Hr & H1 & H2). exists t'. split; [done|]. split; [done|congruence].
Qed.

Definition zone_fld (me : Address) (zc : ZrpConfig) (t : ZoneTable) : Prop :=
  ZoneFacts.zone_ok me t /\ zt_max_entries t = max_zone_entries zc /\ ZoneTable.len t <= max_zone_entries zc.
Lemma zop_fld me zc o t :
  0 <= max_zone_entries zc -> ZoneFacts.zop_ok me o -> zone_fld me zc t -> zone_fld me zc (ZoneFacts.run_zop me t o).
Proof.
  intros Hz Ho (H1 & H2 & H3). destruct (ZoneFacts.run_zop_ok me t o Ho) as [(H4 & H5 & H6) (_ & H7 & _)]; [split; [done|]; rewrite H2; lia|].
  split; [done|]. rewrite H7 in *. split; [done|lia].
Qed.

Definition routes_fld (rc : RoutingConfig) (r : RouteCache) : Prop := RoutingFacts.routes_ok r /\ rc_cfg r = rc.
Lemma rop_fld rc o r : routes_fld rc r -> routes_fld rc (RoutingFacts.run_rop o r).
Proof.
  intros [H1 H2]. split; [by apply RoutingFacts.run_rop_ok|]. rewrite <- H2. destruct o; cbn [RoutingFacts.run_rop]; try done.
  - unfold RouteCache.insert. by destruct (find_first _ _).
  - unfold RouteCache.mark_failure. by destruct (SmallMap.get _ _).
  - unfold RouteCache.remove. by destruct (SmallMap.remove _ _).
Qed.

Definition seen_fld (sc : StormConfig) (s : SeenCache) : Prop := StormFacts.cache_ok s /\ sc_cap s = Z.max (seen_cache_size sc) 1.
Lemma cop_fld sc o s : seen_fld sc s -> seen_fld sc (StormFacts.run_cop o s).
Proof.
  intros [H1 H2]. destruct o; simpl.
  - destruct (StormFacts.observe_spec key now s H1) as (H3 & _ & H4 & _). split; [done|congruence].
  - split; [by apply StormFacts.mark_ok|done].
  - split; [by apply StormFacts.expire_ok|]. unfold SeenCache.expire. by destruct (SeenCache.expire_loop _ _ _ _).
Qed.

(** Packets waiting for their turn to be relayed, each [PK]. *)
Context (PK : Packet -> Prop).
Definition sched_fld (sc : StormConfig) (s : RebroadcastScheduler) : Prop :=
  zlen (rs_pending s) <= Z.max 0 (max_pending sc) /\ Forall (fun e => PK (p_packet e)) (rs_pending s).
Lemma schedule_fld sc key p due s : PK p -> sched_fld sc s -> sched_fld sc (RebroadcastScheduler.schedule key p due (max_pending sc) s).1.
Proof.
  intros Hp [Hl Hf]. unfold RebroadcastScheduler.schedule. case_decide; [done|]. split; simpl; [rewrite zlen_app, zlen_cons, zlen_nil; lia|].
  apply Forall_app_2; [done|]. by apply Forall_cons_2.
Qed.
Lemma sched_heard_fld sc key s : sched_fld sc s -> sched_fld sc (RebroadcastScheduler.heard key s).1.
Proof.
  intros [Hl Hf]. unfold RebroadcastScheduler.heard. destruct (find_first _ _); [|done].
  split; simpl; [unfold zlen in *; by rewrite length_update_first|by apply Forall_update_first].
Qed.
Lemma sched_cancel_fld sc key s : sched_fld sc s -> sched_fld sc (RebroadcastScheduler.cancel key s).1.
Proof. intros [Hl Hf]. split; simpl; [|by apply Forall_retain]. etrans; [apply zlen_retain_le|done]. Qed.
Lemma sched_due_fld sc now th s :
  sched_fld sc s -> sched_fld sc (RebroadcastScheduler.due now th s).1 /\ Forall (fun e => PK e.2) (RebroadcastScheduler.due now th s).2.
Proof.
  intros [Hl Hf]. unfold RebroadcastScheduler.due.
  match goal with |- context [RebroadcastScheduler.due_loop ?a ?b _ ?y ?z] => pose proof (due_split a b _ y z _ Hf) as Hd end.
  destruct (RebroadcastScheduler.due_loop _ _ _ _ _) as [[[??]?]?]. destruct Hd as (? & ? & ?). split; [|done]. split; simpl; [lia|done].
Qed.

(** The transmit queue: encodings of packets that are [PK]. *)
Definition tx_fld (key : option NetworkKey) (max : Z) (q : list TxItem) : Prop :=
  zlen q <= Z.max 0 max /\ Forall (fun e => exists p, PK p /\ packet_encode hmac_sha256 p key = Ok (tx_frame e)) q.
Lemma tx_push_fld key max q frame p t pt pr rel d :
  zlen q < Z.max 0 max -> tx_fld key max q -> PK p -> packet_encode hmac_sha256 p key = Ok frame ->
  tx_fld key max (q ++ [mkTxItem frame t pt pr rel d]).
Proof.
  intros Hlt [Hl Hf] Hp He. split; [rewrite zlen_app, zlen_cons, zlen_nil; lia|]. apply Forall_app_2; [done|].
  repeat constructor. by exists p.
Qed.
Lemma tx_remove_fld key max q j : tx_fld key max q -> tx_fld key max (SmallMap.vec_remove j q).
Proof.
  intros [Hl Hf]. split; [|by apply Forall_vec_remove]. unfold SmallMap.vec_remove, zlen in *. rewrite length_app, length_take, length_drop. lia.
Qed.
Lemma tx_evict_fld key max q j e :
  tx_fld key max q -> max_by_key (fun e => tx_priority e.2) (retain (fun e => tx_is_relay e.2) (imap pair q)) = Some (j, e) ->
  tx_fld key max (SmallMap.vec_remove j q) /\ zlen (SmallMap.vec_remove j q) < Z.max 0 max.
Proof.
  intros Hq Hj%max_by_key_In. split; [by apply tx_remove_fld|]. destruct Hq as [Hl _]. apply elem_of_retain in Hj as [_ Hj].
  apply elem_of_lookup_imap in Hj as (k & x & [= <- <-] & Hk). pose proof (vec_remove_len _ _ _ Hk) as Hv. lia.
Qed.
Lemma tx_retain_fld key max f q : tx_fld key max q -> tx_fld key max (retain f q).
Proof. intros [Hl Hf]. split; [pose proof (zlen_retain_le f q); lia|by apply Forall_retain]. Qed.
End Fields.

(** ** Discoveries *)

Module IerpInv.
Import Ierp IerpFacts.

Section Parked.
Context (PK : Packet -> Prop).

(** The packets parked on a discovery are [PK] and for its target. *)
Definition parked (t : Address) (p : Packet) : Prop := PK p /\ h_dst (p_header p) = t.
Definition queued_small (kv : Address * Discovery) : Prop := Forall (parked kv.1) (d_queued kv.2).
Definition ierp_inv (s : Ierp) : Prop := ierp_ok s /\ Forall queued_small (ie_pending s).

Lemma new_inv cfg : 0 <= discovery_attempts cfg <= 255 -> ierp_inv (new cfg).
Proof.
  intros Hc. split; [|constructor]. split; [done|]. repeat (split; [apply SmallMapFacts.empty_wf|]).
  split; [change (SmallMap.len (ie_pending (new cfg))) with 0; lia|]. split; constructor.
Qed.

Lemma start_inv target req_id now s :
  may_start target now s = true -> ierp_inv s -> ierp_inv (start target req_id now s).1.
Proof.
  intros Hm [(Hc & Hwp & Hws & Hwl & Hlen & Hd & Hr) Hq]. unfold may_start in Hm.
  rewrite SmallMapFacts.contains_key_get in Hm by done. case_bool_decide as Hk; [done|].
  destruct (decide (SmallMap.len (ie_pending s) >= max_pending_discoveries (ie_cfg s))) as [|Hlt]; [done|]. unfold start. simpl. split; [|by apply SmallMapFacts.Forall_insert; [..|constructor]].
  split; [done|]. simpl. split; [by apply SmallMapFacts.insert_wf|]. split; [done|]. split; [done|]. split.
  - rewrite SmallMapFacts.len_insert by done. destruct (SmallMap.get (ie_pending s) target); [clear -Hlen; lia|]. clear -Hlt. lia.
  - split; [|done]. apply SmallMapFacts.Forall_insert; [done..|]. split; [done|]. split; simpl; [lia|rewrite zlen_nil; lia].
Qed.

(** Changing one discovery without touching its target and attempt. *)
Lemma queue_inv target p s : parked target p -> ierp_inv s -> ierp_inv (queue target p s).1.
Proof.
  intros Hp [(Hc & Hwp & Hws & Hwl & Hlen & Hd & Hr) Hq]. unfold queue.
  destruct (SmallMap.get (ie_pending s) target) as [d|] eqn:E; [|done]. case_decide as Hl; [|done]. simpl. split.
  - split; [done|]. simpl. split; [by apply SmallMapFacts.update_wf|]. split; [done|]. split; [done|].
    split; [by rewrite SmallMapFacts.len_update|]. split; [|done]. apply SmallMapFacts.Forall_update; [done..|].
    intros v Hv (? & ? & ?). rewrite E in Hv. injection Hv as <-. split; [done|]. split; [done|]. simpl.
    rewrite zlen_app, zlen_cons, zlen_nil. simpl in *. lia.
  - apply SmallMapFacts.Forall_update; [done..|]. intros v _ Hv. unfold queued_small. simpl. apply Forall_app_2; [done|]. by apply Forall_cons_2.
Qed.

Lemma succeed_inv target now s :
  ierp_inv s -> ierp_inv (succeed target now s).1 /\ Forall (parked target) (succeed target now s).2.
Proof.
  intros [(Hc & Hwp & Hws & Hwl & Hlen & Hd & Hr) Hq]. unfold succeed.
  pose proof (SmallMapFacts.remove_old (ie_pending s) target Hwp) as Ho. simpl.
  pose proof (SmallMapFacts.remove_wf _ target Hwp) as Hw. pose proof (SmallMapFacts.len_remove _ target Hwp) as Hl.
  pose proof (SmallMapFacts.Forall_remove _ _ target Hwp Hd) as Hd'. pose proof (SmallMapFacts.Forall_remove _ _ target Hwp Hq) as Hq'.
  destruct (SmallMap.remove (ie_pending s) target) as [m [d|]]; simpl in *.
  - split; [split; [|done]|].
    + split; [done|]. simpl. split; [done|]. split; [done|]. split; [by apply SmallMapFacts.insert_wf|]. split; [|done].
      destruct (SmallMap.get _ _); lia.
    + symmetry in Ho. apply SmallMapFacts.get_Some in Ho; [|done]. by apply (Forall_elem _ _ _ Hq Ho).
  - split; [|constructor]. split; [|done]. split; [done|]. split; [done|]. split; [done|]. split; [by apply SmallMapFacts.insert_wf|done].
Qed.

Lemma observe_inv origin req_id cost now s : ierp_inv s -> ierp_inv (observe_request origin req_id cost now s).1.
Proof.
  intros [(Hc & Hwp & Hws & Hwl & Hlen & Hd & Hr) Hq].
  assert (Hok : forall m, SmallMapFacts.wf m -> Forall (fun kv => request_ok kv.2) m -> ierp_inv (set_seen m s)) by done.
  assert (Hp : Forall (fun kv => request_ok kv.2) (prune_seen now s)).
  { unfold prune_seen. case_decide; [|done]. by apply Forall_retain. }
  pose proof (prune_seen_wf now s Hws) as Hw. unfold observe_request.
  destruct (SmallMap.get _ _) as [q|] eqn:E; [destruct (_ && _) eqn:Eb|]; apply Hok.
  - by apply SmallMapFacts.update_wf.
  - apply SmallMapFacts.Forall_update; [done..|]. intros v Hv H1. rewrite E in Hv. injection Hv as <-. unfold request_ok in *. simpl in *.
    apply andb_true_iff in Eb as [_ Hlt%bool_decide_eq_true]. rewrite u8_small; lia.
  - by apply SmallMapFacts.update_wf.
  - apply SmallMapFacts.Forall_update; [done..|]. intros v _ H1. simpl in *. destruct (decide _); exact H1.
  - by apply SmallMapFacts.insert_wf.
  - apply SmallMapFacts.Forall_insert; [done..|]. unfold request_ok. simpl. lia.
Qed.

Lemma mark_replied_inv origin req_id s : ierp_inv s -> ierp_inv (mark_replied origin req_id s).1.
Proof.
  intros [(Hc & Hwp & Hws & Hwl & Hlen & Hd & Hr) Hq]. unfold mark_replied.
  destruct (SmallMap.get _ _) as [q|]; [|done]. destruct (sq_replied q); [done|]. split; [|done].
  split; [done|]. split; [done|]. split; [by apply SmallMapFacts.update_wf|]. split; [done|]. split; [done|]. split; [done|].
  by apply SmallMapFacts.Forall_update.
Qed.

Lemma expire_inv now s : ierp_inv s -> ierp_inv (expire now s).
Proof.
  intros [(Hc & Hwp & Hws & Hwl & Hlen & Hd & Hr) Hq]. split; [|done]. split; [done|]. split; [done|].
  split; [by apply SmallMapFacts.retain_wf|]. split; [by apply SmallMapFacts.retain_wf|]. split; [done|]. split; [done|].
  by apply Forall_retain.
Qed.

Lemma shift_inv slept s :
  ierp_inv s -> ierp_inv (set_pending (SmallMap.map_values (fun _ => shift_discovery slept) (ie_pending s)) s).
Proof.
  intros [(Hc & Hwp & Hws & Hwl & Hlen & Hd & Hr) Hq]. split; [split; [done|]; split; [|split; [done|split; [done|split; [|split; [|done]]]]]|].
  - by apply SmallMapFacts.map_values_wf.
  - unfold SmallMap.len, zlen, SmallMap.map_values. simpl. by rewrite length_fmap.
  - apply Forall_fmap. by eapply Forall_impl; [exact Hd|].
  - apply Forall_fmap. by eapply Forall_impl; [exact Hq|].
Qed.

Lemma fail_loop_small now done s :
  SmallMapFacts.wf (ie_pending s) -> Forall queued_small (ie_pending s) ->
  forall failures, (fail_loop now done s).2 = Ok failures -> Forall (fun f => Forall (parked f.1) f.2) failures.
Proof.
  revert s. induction done as [|t done IH]; intros s Hwf Hq failures; simpl; [intros [= <-]; constructor|].
  pose proof (SmallMapFacts.remove_old (ie_pending s) t Hwf) as Ho. pose proof (SmallMapFacts.remove_wf _ t Hwf) as Hw.
  pose proof (SmallMapFacts.Forall_remove _ _ t Hwf Hq) as Hq'.
  destruct (SmallMap.remove (ie_pending s) t) as [m [d|]]; simpl in *; [|done].
  match goal with |- context [fail_loop now done ?x] => specialize (IH x Hw Hq'); destruct (fail_loop now done x) as [s' r] end.
  simpl in *. intros (rest & Hr & [= <-])%bind_ok. constructor; [|by apply IH].
  symmetry in Ho. apply SmallMapFacts.get_Some in Ho; [|done]. by apply (Forall_elem _ _ _ Hq Ho).
Qed.

Lemma tick_loop_small {G} (new_req_id : G -> Z * G) cfg now l (g : G) :
  Forall queued_small l -> Forall queued_small (tick_loop new_req_id cfg now l g).1.1.1.
Proof.
  intros Hl. revert g. induction Hl as [|[t d] l Hd Hl IH]; intros g; simpl; [constructor|].
  repeat case_decide; try destruct (new_req_id g) as [id g1];
    match goal with |- context [tick_loop _ _ _ _ ?x] => specialize (IH x); destruct (tick_loop new_req_id cfg now l x) as [[[??]?]?] end;
    simpl in *; by constructor.
Qed.

Lemma tick_inv {G} (new_req_id : G -> Z * G) now (g : G) s :
  ierp_inv s ->
  exists s' retries failures g', tick new_req_id now g s = (s', Ok (retries, failures), g') /\ ierp_inv s' /\
    Forall (fun f => Forall (parked f.1) f.2) failures.
Proof.
  intros [Hok Hq]. pose proof (tick_ierp_ok new_req_id now g s Hok) as Hok'.
  destruct (tick_run new_req_id now g s Hok) as (s' & retries & failures & g' & Hr & Hc & Hs & Hwf & Hwl & Hlen & Hd).
  exists s', retries, failures, g'. split; [done|]. rewrite Hr in Hok'. simpl in Hok'. split; [split; [done|]|].
  - apply Forall_forall. intros [t d'] Hin. apply SmallMapFacts.get_Some in Hin; [|done]. specialize (Hd t). rewrite Hin in Hd.
    assert (Hb : forall d, SmallMap.get (ie_pending s) t = Some d -> queued_small (t, d)).
    { intros d Hg. apply SmallMapFacts.get_Some in Hg; [|apply Hok]. by apply (Forall_elem _ _ _ Hq Hg). }
    unfold decided in Hd. destruct (SmallMap.get (ie_pending s) t) as [d|]; [|done]. specialize (Hb d eq_refl).
    unfold queued_small in *. simpl in *. case_decide; [case_decide|]; [naive_solver| |naive_solver].
    destruct Hd as (d1 & [= <-] & _ & -> & _). done.
  - unfold tick in Hr. pose proof (tick_loop_small new_req_id (ie_cfg s) now (ie_pending s) g Hq) as Hm.
    pose proof (discovery_loop_spec new_req_id (ie_cfg s) now (proj1 Hok) (ie_pending s) g) as Hsp.
    destruct (tick_loop _ _ _ _ _) as [[[m rts] done] g1]. simpl in Hm.
    destruct Hsp as [Hall _]; [apply Hok|].
    assert (Hwm : SmallMapFacts.wf m) by (eapply (get_Forall2 (retried (ie_cfg s) now rts)); [apply Hok|by intros ?? []|done]).
    pose proof (fail_loop_small now done (set_pending m s) Hwm Hm) as Hf. destruct (fail_loop now done (set_pending m s)) as [s1 r].
    injection Hr as <- Hr _. apply bind_ok in Hr as (f & Hf' & [= _ <-]). by apply Hf.
Qed.

(** With the configuration the node gave it. *)
Section Config.
Context (cfg : ZrpConfig).
Definition ierp_fld (s : Ierp) : Prop := ierp_inv s /\ ie_cfg s = cfg.

Lemma new_fld : 0 <= discovery_attempts cfg <= 255 -> ierp_fld (new cfg).
Proof. intros Hc. split; [by apply new_inv|done]. Qed.
Lemma start_fld target req_id now s : may_start target now s = true -> ierp_fld s -> ierp_fld (start target req_id now s).1.
Proof. intros Hm [H1 H2]. split; [by apply start_inv|done]. Qed.
Lemma queue_fld target p s : parked target p -> ierp_fld s -> ierp_fld (queue target p s).1.
Proof. intros Hp [H1 H2]. split; [by apply queue_inv|]. unfold queue. by repeat case_match. Qed.
Lemma succeed_fld target now s : ierp_fld s -> ierp_fld (succeed target now s).1 /\ Forall (parked target) (succeed target now s).2.
Proof.
  intros [H1 H2]. destruct (succeed_inv target now s H1) as [H3 H4]. split; [|done]. split; [done|]. unfold succeed. by repeat case_match.
Qed.
Lemma observe_fld origin req_id cost now s : ierp_fld s -> ierp_fld (observe_request origin req_id cost now s).1.
Proof. intros [H1 H2]. split; [by apply observe_inv|]. unfold observe_request. by repeat case_match. Qed.
Lemma mark_replied_fld origin req_id s : ierp_fld s -> ierp_fld (mark_replied origin req_id s).1.
Proof. intros [H1 H2]. split; [by apply mark_replied_inv|]. unfold mark_replied. by repeat case_match. Qed.
Lemma expire_fld now s : ierp_fld s -> ierp_fld (expire now s).
Proof. intros [H1 H2]. split; [by apply expire_inv|done]. Qed.
Lemma shift_fld slept s :
  ierp_fld s -> ierp_fld (set_pending (SmallMap.map_values (fun _ => shift_discovery slept) (ie_pending s)) s).
Proof. intros [H1 H2]. split; [by apply shift_inv|done]. Qed.
Lemma tick_fld {G} (new_req_id : G -> Z * G) now (g : G) s :
  ierp_fld s ->
  exists s' retries failures g', tick new_req_id now g s = (s', Ok (retries, failures), g') /\ ierp_fld s' /\
    Forall (fun f => Forall (parked f.1) f.2) failures.
Proof.
  intros [H1 H2]. destruct (tick_inv new_req_id now g s H1) as (s' & rt & fl & g' & Ht & H3 & H4).
  destruct (tick_run new_req_id now g s (proj1 H1)) as (s2 & rt2 & fl2 & g2 & Hr & Hc & _). rewrite Ht in Hr. injection Hr as <- <- <- <-.
  exists s', rt, fl, g'. split; [done|]. split; [|done]. split; [done|congruence].
Qed.
End Config.
End Parked.

Lemma ierp_fld_mono (P Q : Packet -> Prop) cfg s : (forall p, P p -> Q p) -> ierp_fld P cfg s -> ierp_fld Q cfg s.
Proof.
  intros HPQ [[Hok Hq] Hc]. split; [split; [done|]|done]. eapply Forall_impl; [exact Hq|]. intros [t d] Hd. unfold queued_small, parked in *.
  eapply Forall_impl; [exact Hd|]. naive_solver.
Qed.
End IerpInv.
