(* ===== verification/NodeInv.v ===== *)
(** * The engine's invariant

    What the node keeps true of every component, and that the operations the
    engine calls preserve it: [node_ok cfg id] at the end of the file. *)
From stdpp Require Import base tactics list numbers.
From Stdlib Require Import Lia.
From S2P Require Import Prelude SmallMap Float32 Protocol Packet Fragmentation CryptoLib Identity Noise Replay Session Transport StoreForward Storm Routing Messages Ierp Power Beacon Radio Neighbor Zone Methods NodeState Calculus NodeTx NodeRx Node EngineInv.
From stdpp Require Import list.
#[local] Open Scope Z_scope.

(** A generator that does not return zero for ever. *)
Class RngLive (R : Type) `{RngCore R} : Prop := draw_id_live (r : R) : (draw_id ID_DRAWS r).2 <> Panic.

(** Envelopes in transit. *)
Definition is_envelope (p : Packet) : bool :=
  h_has (p_header p) flags.ENVELOPE && h_has (p_header p) flags.STORE_FORWARD.

(** ** Messages in flight *)

Module TransportInv.
Import Transport TransportFacts.
Section Inv.
Context {R : Type} `{RngCoreLaws R}.

Definition out_ok (o : Outstanding) : Prop :=
  sendable (o_body o) /\ (o_reliability o = StoreAndForward -> small (o_body o) /\ short (o_dst o)).
Definition transport_inv (cfg : TransportConfig) (t : Transport) : Prop :=
  transport_ok t /\ t_cfg t = cfg /\ Forall out_ok (t_outstanding t).

Lemma new_transport_inv cfg first_seq : config_ok cfg -> transport_inv cfg (new cfg first_seq).
Proof.
  intros Hc. split; [|split; [done|constructor]]. split; [done|]. simpl. split; [rewrite zlen_nil; lia|].
  split; [constructor|]. split; [apply SmallMapFacts.empty_wf|]. change (SmallMap.len (@SmallMap.empty Address (SeqWindow * Z))) with 0. lia.
Qed.

Lemma stats_inv cfg f t : transport_inv cfg t -> transport_inv cfg (set_t_stats f t).
Proof. done. Qed.
Lemma next_seq_inv cfg t : transport_inv cfg t -> transport_inv cfg (next_seq t).1.
Proof. done. Qed.

Lemma track_inv cfg o now t : out_ok o -> transport_inv cfg t -> transport_inv cfg (track o now t).1.
Proof.
  intros Ho (Ht & Hc & Hf). split; [eapply (tstep_ok (R := R)); [exact Ht|apply step_track]|]. unfold track. case_decide; [done|].
  split; [done|]. simpl. apply Forall_app_2; [done|]. by apply Forall_cons_2.
Qed.

Lemma take_at_inv i l : Forall out_ok l -> Forall out_ok (take_at i l).1 /\ forall o, (take_at i l).2 = Some o -> out_ok o.
Proof.
  intros Hl. split; [apply Forall_app_2; [by apply Forall_take|by apply Forall_drop]|].
  intros o Ho. by apply (Forall_lookup_1 _ _ _ _ Hl Ho).
Qed.

Lemma on_ack_inv cfg from a t :
  transport_inv cfg t -> transport_inv cfg (on_ack from a t).1 /\ forall o, (on_ack from a t).2 = Some o -> out_ok o.
Proof.
  intros (Ht & Hc & Hf). pose proof (on_ack_ok from a t Ht) as Hok. unfold transport_inv. unfold on_ack in *.
  destruct (position _ _) as [i|]; [|done]. destruct (take_at_inv i _ Hf) as [H1 H2].
  case_decide; [split; [|done]; split; [done|]; split; [done|]; by apply Forall_alter|].
  destruct (take_at i (t_outstanding t)) as [rest o]. simpl in *. by case_decide.
Qed.

Lemma delivered_inv cfg id t :
  transport_inv cfg t ->
  transport_inv cfg (on_envelope_delivered id t).1 /\ forall o, (on_envelope_delivered id t).2 = Some o -> out_ok o.
Proof.
  intros (Ht & Hc & Hf). pose proof (delivered_ok id t Ht) as Hok. unfold transport_inv. unfold on_envelope_delivered in *.
  destruct (position _ _) as [i|]; [|done]. destruct (take_at_inv i _ Hf) as [H1 H2].
  destruct (take_at i (t_outstanding t)) as [rest o]. done.
Qed.

Lemma accepted_inv cfg id t : transport_inv cfg t -> transport_inv cfg (on_store_accepted id t).1.
Proof.
  intros (Ht & Hc & Hf). split; [eapply (tstep_ok (R := R)); [exact Ht|apply step_accepted]|]. unfold on_store_accepted.
  destruct (find_first _ _); [|done]. split; [done|]. simpl. by apply Forall_update_first.
Qed.

Lemma fail_all_inv cfg dst t :
  transport_inv cfg t -> transport_inv cfg (fail_all_to dst t).1 /\ Forall out_ok (fail_all_to dst t).2.
Proof.
  intros (Ht & Hc & Hf). split; [|by apply Forall_retain]. split; [eapply (tstep_ok (R := R)); [exact Ht|apply step_fail]|].
  split; [done|]. by apply Forall_retain.
Qed.

Lemma shift_transport_inv cfg delta t : transport_inv cfg t -> transport_inv cfg (shift_timers delta t).
Proof.
  intros (Ht & Hc & Hf). split; [eapply (tstep_ok (R := R)); [exact Ht|apply step_shift]|]. split; [done|]. apply Forall_fmap.
  by eapply Forall_impl; [exact Hf|].
Qed.

Lemma incoming_inv cfg from seq now t : transport_inv cfg t -> transport_inv cfg (accept_incoming from seq now t).1.
Proof.
  intros (Ht & Hc & Hf). split; [by apply accept_incoming_ok|]. unfold accept_incoming. by destruct (SeqWindow.accept _ _).
Qed.

Lemma reset_inv cfg from t : transport_inv cfg t -> transport_inv cfg (reset_peer from t).
Proof. intros (Ht & Hc & Hf). split; [eapply (tstep_ok (R := R)); [exact Ht|apply step_reset]|]. done. Qed.

Lemma tick_loop_out cfg now l st (rng : R) :
  Forall out_ok l ->
  let '(keep, retry, failed, _, _) := tick_loop cfg now l st rng in
  Forall out_ok keep /\ Forall out_ok retry /\ Forall out_ok failed.
Proof.
  intros Hl. revert st rng. induction Hl as [|o l Ho Hl IH]; intros st rng; simpl; [by repeat constructor|].
  assert (Hs : forall a b c, out_ok (o_set_timing a b c o)) by (intros; apply Ho).
  destruct (o_stored o); repeat case_decide; try destruct (rto _ _ _) as [r rng1];
    match goal with |- context [tick_loop cfg now l ?a ?b] =>
      specialize (IH a b); destruct (tick_loop cfg now l a b) as [[[[keep retry] failed] ?] ?] end;
    destruct IH as (? & ? & ?); (split; [|split]); repeat apply Forall_cons_2; auto.
Qed.

Lemma tick_transport_inv cfg now (rng : R) t :
  transport_inv cfg t ->
  transport_inv cfg (tick now rng t).1.1 /\ Forall out_ok (tick now rng t).1.2.1 /\ Forall out_ok (tick now rng t).1.2.2.
Proof.
  intros (Ht & Hc & Hf). pose proof (tick_ok now rng t Ht) as Hok. unfold tick in *.
  pose proof (tick_loop_out (t_cfg t) now _ (t_stats t) rng Hf) as H1.
  destruct (tick_loop _ _ _ _ _) as [[[[keep retry] failed] ?] ?]. destruct H1 as (? & ? & ?). done.
Qed.
End Inv.
End TransportInv.

(** ** Stored mail *)

Module MailboxInv.
Import Mailbox MailboxFacts.

Definition box_inv (cfg : MailboxConfig) (m : Mailbox) : Prop :=
  mailbox_ok m /\ mb_cfg m = cfg /\ Forall (fun e => short (se_dst e)) (mb_entries m).

Lemma new_box_inv cfg : config_ok cfg -> box_inv cfg (new cfg).
Proof. intros Hc. split; [by apply mailbox_new_ok|]. split; [done|constructor]. Qed.

Lemma store_inv cfg now d req m :
  small (sr_envelope req) -> short (sr_dst req) -> box_inv cfg m ->
  box_inv cfg (store now d req m).1 /\ (store now d req m).2 <> Panic.
Proof.
  intros He Hd (Hm & Hc & Hs). pose proof (mailbox_store_ok now d req m Hm He) as Hok. unfold box_inv. unfold store in *.
  destruct (existsb _ _); [done|]. case_decide; [done|]. case_decide; [done|]. split; [|done]. split; [done|]. split; [done|].
  simpl. apply Forall_app_2; [done|]. by apply Forall_cons_2.
Qed.

Lemma delivered_box_inv cfg dst id m : box_inv cfg m -> box_inv cfg (delivered dst id m).1.
Proof.
  intros (Hm & Hc & Hs). split; [by apply mailbox_delivered_ok|]. unfold delivered. destruct (position _ _); [|done].
  split; [done|]. simpl. apply Forall_app_2; [by apply Forall_take|by apply Forall_drop].
Qed.

Lemma gc_inv cfg now m : box_inv cfg m -> box_inv cfg (gc now m).1.
Proof. intros (Hm & Hc & Hs). split; [by apply mailbox_gc_ok|]. split; [done|]. by apply Forall_retain. Qed.

(** What is handed out is small, and for a proper destination. *)
Definition outgoing (dst : Address) (e : Z * list Z) : Prop := small e.2 /\ short dst.

Lemma elen_small m e : mailbox_ok m -> e ∈ mb_entries m -> small (se_envelope e).
Proof.
  intros ((_ & Hc & _) & _ & Hb & Hm & _) He. unfold small. enough (zlen (se_envelope e) <= occupancy (mb_entries m)) by lia.
  apply elem_of_Permutation in He as [l Hl]. rewrite (occupancy_perm _ _ Hl). unfold occupancy. csimpl.
  pose proof (occupancy_nonneg l). unfold occupancy, elen in *. lia.
Qed.

Lemma take_inv cfg dst now max m :
  box_inv cfg m ->
  box_inv cfg (take_deliverable dst now max m).1 /\ Forall (outgoing dst) (take_deliverable dst now max m).2.
Proof.
  intros (Hm & Hc & Hs). pose proof (mailbox_take_ok dst now max m Hm) as Hok.
  destruct (take_loop_spec (mb_cfg m) dst now max 0 (mb_entries m)) as [Hl Ho]. unfold box_inv. unfold take_deliverable in *.
  destruct (take_loop _ _ _ _ _ _) as [l out]. simpl in *. split.
  - split; [done|]. split; [done|]. clear -Hl Hs. revert Hs. induction Hl as [|e e' ? ? He Hl IH]; [constructor|].
    intros Hs. inversion_clear Hs. apply Forall_cons_2; [|by apply IH]. destruct (attempted_key _ _ _ _ He) as (_ & _ & -> & _). done.
  - subst out. apply Forall_take, Forall_fmap, Forall_forall. intros e [He1 He2]%elem_of_retain.
    apply andb_true_iff in He1 as [->%bool_decide_eq_true%symmetry _]. split; [by apply (elen_small m)|]. by apply (Forall_elem _ _ _ Hs He2).
Qed.
End MailboxInv.

(** ** Handshakes and sessions *)

(** One step of a handshake method, tracking the state it leaves behind. *)
Ltac hs_walk :=
  first
    [ wpx_step
    | apply wpx_encrypt_and_hash; [intros ? ? ?|]
    | apply wpx_decrypt_and_hash; [intros ? ? ?|] ].

Section Handshakes.
Context `{C : CryptoLib, !CryptoLibLaws C}.

(** The public halves have their fixed length, and a peer identity is valid. *)
Definition hs_parts_ok (h : HandshakeXX) : Prop :=
  zlen (hs_s_pub h) = 32 /\ zlen (hs_ed_pub h) = 32 /\ zlen (hs_e_pub h) = 32 /\
  forall id, hs_remote h = Some id -> pubid_ok id.
Definition hs_ok (h : HandshakeXX) : Prop := keyed h /\ hs_parts_ok h.

Lemma run_call_parts c h : hs_parts_ok h -> hs_parts_ok (run_call c h).1.
Proof.
  intros Hk. apply wpx_final.
  destruct c; simpl; unfold write_message_1, read_message_1, write_message_2, read_message_2,
    write_message_3, read_message_3, verify_identity_payload, on_ss;
    repeat hs_walk; try exact Hk;
    (destruct Hk as (? & ? & ? & ?); split; [done|]; split; [done|]; split; [done|]; simpl;
     intros i [= <-]; by eapply pubid_from_bytes_inv).
Qed.

Lemma run_call_ok c h : hs_ok h -> hs_ok (run_call c h).1.
Proof. intros [H1 H2]. split; [by apply run_call_keyed|by apply run_call_parts]. Qed.

Lemma hs_new_ok {R} `{RngCore R} role id prol (rng : R) : identity_ok id -> hs_ok (hs_new role id prol rng).1.
Proof.
  intros Hi. pose proof (identity_ok_inv id Hi) as [Hp _]. unfold hs_new. destruct (fill_bytes rng 32) as [e rng']. simpl.
  split; [unfold keyed; simpl; lia|]. unfold hs_parts_ok. simpl. rewrite Hp. unfold zlen. simpl.
  by rewrite !x25519_public_len, ed_public_len.
Qed.

Lemma wp_encrypt_and_hash pt s (Q : SymmetricState -> list Z -> Prop) :
  zlen pt < 2 ^ 32 -> (forall s' ct, zlen ct <= zlen pt + 16 -> Q s' ct) -> wp (encrypt_and_hash pt) Q s.
Proof.
  intros Hpt HQ. destruct (encrypt_and_hash_spec s pt Hpt) as (ct & s' & He & _ & Hz & _). unfold wp. rewrite He.
  apply HQ. rewrite Hz. unfold overhead, TAG_LEN. destruct (cs_k (ss_cs s)); lia.
Qed.

Ltac write_step := first [ wp_step | apply wp_encrypt_and_hash; [|intros ? ? ?] | apply safe_dh | apply safe_ok_or ].

Lemma write_1_wp payload h : hs_ok h -> zlen payload <= 64 -> wp (write_message_1 payload) (fun _ m => tiny m) h.
Proof.
  intros [_ (Hs & He & Hep & _)] Hp. unfold write_message_1, on_ss. repeat write_step; simpl in *; [lia|].
  unfold tiny. rewrite zlen_app. lia.
Qed.
Lemma write_2_wp extra h : hs_ok h -> zlen extra <= 64 -> wp (write_message_2 extra) (fun _ m => tiny m) h.
Proof.
  intros [_ (Hs & He & Hep & _)] Hp. unfold write_message_2, on_ss. repeat write_step; simpl in *; unfold identity_payload; simpl.
  - lia.
  - rewrite zlen_app. lia.
  - unfold tiny. unfold identity_payload in *. simpl in *. rewrite !zlen_app in *. lia.
Qed.
Lemma write_3_wp extra h : hs_ok h -> zlen extra <= 64 -> wp (write_message_3 extra) (fun _ m => tiny m) h.
Proof.
  intros [_ (Hs & He & Hep & _)] Hp. unfold write_message_3, on_ss. repeat write_step; simpl in *; unfold identity_payload; simpl.
  - lia.
  - rewrite zlen_app. lia.
  - unfold tiny. unfold identity_payload in *. simpl in *. rewrite !zlen_app in *. lia.
Qed.

(** Reading never panics in a valid state. *)
Lemma read_3_wp msg h : hs_ok h -> wp (read_message_3 msg) (fun _ _ => True) h.
Proof.
  intros [[Hs Hk] _]. destruct (decide (call_at (R3 msg) = (hs_role h, hs_step h))) as [E|E].
  - eapply wp_mono; [apply wp_read_message_3, Hk; injection E; lia|done].
  - pose proof (run_call_refused (R3 msg) h E) as Hr. simpl in Hr. unfold wp. by rewrite Hr.
Qed.

Lemma finish_safe h : safe (finish h).
Proof.
  unfold finish. case_decide; [done|]. unfold ss_split. destruct (hkdf2 (ss_ck (hs_ss h)) []) as [k1 k2].
  destruct (hs_role h); destruct (hs_remote h); done.
Qed.
Lemma finish_remote h keys remote : finish h = Ok (keys, remote) -> hs_remote h = Some remote.
Proof.
  unfold finish. case_decide; [done|]. destruct (ss_split (hs_ss h)) as [c1 c2].
  destruct (hs_role h), (hs_remote h); simpl; [|done| |done]; intros Hf; inv_ok Hf; congruence.
Qed.
Lemma write_3_remote extra h : hs_remote (write_message_3 extra h).1 = hs_remote h.
Proof. apply wpx_final with (X := fun h' => hs_remote h' = hs_remote h). unfold write_message_3, on_ss. by repeat hs_walk. Qed.

End Handshakes.

(** ** The node's own handshakes and sessions *)

Section Own.
Context `{C : CryptoLib, !CryptoLibLaws C} {R : Type} `{RngCore R}.
Context (i : Identity) (heard : Packet -> Prop).

(** Bytes at the end of a packet the node received. *)
Definition heard_bytes (msg : list Z) : Prop := exists p, heard p /\ msg `suffix_of` p_payload p.
(** The message a call reads. *)
Definition reads (hc : hs_call) : option (list Z) :=
  match hc with R1 m | R2 m | R3 m => Some m | _ => None end.

(** A handshake this node runs with [peer]: started under its own identity with
    the ephemeral key of a generator, and fed only messages it received. *)
Inductive own_hs (peer : Address) : HandshakeXX -> Prop :=
| own_start role (rng : R) :
    own_hs peer (hs_new role i (match role with
                                | Initiator => prologue (id_address i) peer
                                | Responder => prologue peer (id_address i) end) rng).1
| own_call hc h : own_hs peer h -> (forall msg, reads hc = Some msg -> heard_bytes msg) -> own_hs peer (run_call hc h).1.

Definition hs_valid (peer : Address) (h : HandshakeXX) : Prop := hs_ok h /\ own_hs peer h.

(** A call on a valid handshake: the state stays valid, no panic, [Q] of the
    output. *)
Definition hs_sound (hc : hs_call) (Q : list Z -> Prop) : Prop :=
  forall peer h, hs_valid peer h -> wpe (run_call hc) (fun h' a => hs_valid peer h' /\ Q a) (hs_valid peer) h.
Lemma hs_sound_intro hc (Q : list Z -> Prop) :
  (forall msg, reads hc = Some msg -> heard_bytes msg) -> (forall h, hs_ok h -> wp (run_call hc) (fun _ a => Q a) h) -> hs_sound hc Q.
Proof.
  intros Hm Hw peer h [Hh Ho]. pose proof (run_call_ok hc h Hh) as Hok. pose proof (own_call peer hc h Ho Hm) as Ho'.
  specialize (Hw h Hh). unfold wp, wpe, hs_valid in *. destruct (run_call hc h) as [h' [a|e|]]; done.
Qed.
Lemma sound_w1 payload : zlen payload <= 64 -> hs_sound (W1 payload) tiny.
Proof. intros. apply hs_sound_intro; [done|]. intros. by apply write_1_wp. Qed.
Lemma sound_w2 payload : zlen payload <= 64 -> hs_sound (W2 payload) tiny.
Proof. intros. apply hs_sound_intro; [done|]. intros. by apply write_2_wp. Qed.
Lemma sound_w3 payload : zlen payload <= 64 -> hs_sound (W3 payload) tiny.
Proof. intros. apply hs_sound_intro; [done|]. intros. by apply write_3_wp. Qed.
Lemma sound_r1 msg : heard_bytes msg -> hs_sound (R1 msg) any.
Proof. intros. apply hs_sound_intro; [by intros ? [= <-]|]. intros. apply wp_read_message_1. Qed.
Lemma sound_r2 msg : heard_bytes msg -> hs_sound (R2 msg) any.
Proof. intros. apply hs_sound_intro; [by intros ? [= <-]|]. intros. eapply wp_mono; [apply wp_read_message_2|done]. Qed.
Lemma sound_r3 msg : heard_bytes msg -> hs_sound (R3 msg) any.
Proof. intros. apply hs_sound_intro; [by intros ? [= <-]|]. intros. by apply read_3_wp. Qed.

(** A session this node established with [a]: its keys and its peer are the
    outcome of such a handshake. *)
Definition own_session (a : Address) (s : Session) : Prop :=
  exists h keys, own_hs a h /\ finish h = Ok (keys, s_peer s) /\ s_send_key s = tk_send keys /\ s_recv_key s = tk_recv keys.

(** Sessions keep the identity they were opened with. *)
Definition session_entry (ks : Address * Session) : Prop :=
  pi_address (s_peer ks.2) = ks.1 /\ pubid_ok (s_peer ks.2) /\ own_session ks.1 ks.2 /\ forall m3, s_m3 ks.2 = Some m3 -> tiny m3.

Lemma encrypt_entry a now aad pt s :
  session_entry (a, s) -> sendable pt ->
  wpe (Session.encrypt now aad pt) (fun s' ct => session_entry (a, s') /\ zlen ct = zlen pt + 20) (fun s' => session_entry (a, s')) s.
Proof.
  intros Hs Hpt. unfold Session.encrypt. repeat wpe_step; try done.
  - destruct (encrypt_n_spec (s_send_key s) (s_send_ctr s) (full_ad aad (s_epoch s) (s_send_ctr s)) pt) as (ct & He & _).
    { unfold sendable in Hpt. lia. }
    simpl. by rewrite He.
  - split; [done|]. destruct (encrypt_n_spec (s_send_key s) (s_send_ctr s) (full_ad aad (s_epoch s) (s_send_ctr s)) pt) as (ct & He & Hz & _).
    { unfold sendable in Hpt. lia. }
    simpl in *. rewrite He in *. simplify_eq. unfold TAG_LEN in Hz. rewrite !zlen_cons. lia.
Qed.

Lemma decrypt_entry a now aad ct s :
  session_entry (a, s) ->
  wpe (Session.decrypt now aad ct) (fun s' pt => session_entry (a, s') /\ zlen pt <= zlen ct) (fun s' => session_entry (a, s')) s.
Proof.
  intros Hs. unfold Session.decrypt, TRANSPORT_OVERHEAD, TAG_LEN. pose proof (zlen_nonneg ct).
  repeat wpe_step; try done; repeat match goal with H : bool_decide _ = true |- _ => apply bool_decide_eq_true in H end;
    try (apply safe_idx; lia).
  - apply safe_slice_from. lia.
  - apply SessionFacts.decrypt_safe_n.
  - split; [done|]. match goal with H : decrypt_n _ _ _ _ = Ok _ |- _ => apply decrypt_n_len in H end.
    match goal with H : slice_from _ _ = Ok _ |- _ => unfold slice_from in H; apply slice_zlen in H end.
    unfold TAG_LEN in *. lia.
Qed.
End Own.

(** ** The invariant *)

(** Configurations the engine accepts: a radio profile the modem supports,
    timers and budgets that fit their types. *)
Definition config_ok (c : NodeConfig) : Prop :=
  RadioFacts.profile_ok (c_profile c) /\ 1 <= c_max_ttl c /\
  TransportFacts.config_ok (c_transport c) /\ MailboxFacts.config_ok (c_mailbox c) /\
  ReassemblerFacts.cfg_ok (c_reassembly c) /\ 0 <= discovery_attempts (c_zrp c) <= 255 /\
  1 <= cfg_alternatives (c_routing c) /\ 0 <= max_zone_entries (c_zrp c) /\ 0 <= c_hop_retries c.

(** The budget of the mailbox a node of this role keeps. *)
Definition mailbox_budget (c : NodeConfig) : MailboxConfig :=
  match c_role c with Anchor => c_mailbox c | _ => small_mailbox (c_mailbox c) end.

Section Invariant.
Context `{C : CryptoLib} {R : Type} `{RngCore R}.
Context (c : NodeConfig) (i : Identity) (heard : Packet -> Prop).

(** A packet this node may send: its own, or, if its role relays, one it heard. *)
Definition carried (p : Packet) : Prop :=
  h_src (p_header p) = id_address i \/ role_relays (c_role c) = true /\ relayed heard p.
(** Packets the engine may park: within memory, an envelope to a proper address. *)
Definition good (p : Packet) : Prop :=
  small (p_payload p) /\ (is_envelope p = true -> short (h_dst (p_header p))) /\ carried p.

Definition neighbors_inv (t : NeighborTable) : Prop := neighbors_fld (c_neighbor c) t.
Definition zone_inv (t : ZoneTable) : Prop := zone_fld (id_address i) (c_zrp c) t.
Definition routes_inv (r : RouteCache) : Prop := routes_fld (c_routing c) r.
Definition rrep_inv (s : PendingReplies) : Prop :=
  zlen (pr_items s) <= 16 /\ Forall (fun e : ReplyItem => good e.2) (pr_items s).
Definition seen_inv (s : SeenCache) : Prop := seen_fld (c_storm c) s.
Definition sched_inv (s : RebroadcastScheduler) : Prop := sched_fld carried (c_storm c) s.
Definition transport_fld (t : Transport) : Prop := TransportInv.transport_inv (c_transport c) t.
Definition mailbox_inv (o : option Mailbox) : Prop :=
  match o with Some m => MailboxInv.box_inv (mailbox_budget c) m | None => True end.
(** A fragment the node received. *)
Definition fragment_heard (key : Address * Z) (total : Z) (k : nat) (chunk : list Z) : Prop :=
  exists p, heard p /\ h_src (p_header p) = key.1 /\ frag_header p = Some (mkFragHeader key.2 (Z.of_nat k) total) /\ packet_body p = chunk.
Definition reassembler_inv (r : Reassembler) : Prop :=
  ReassemblerFacts.reasm_ok r /\ ra_cfg r = c_reassembly c /\ ReassemblerFacts.parts_from fragment_heard (ra_sets r).
Definition queued_ok (q : QueuedSend) : Prop := sendable (q_payload q) /\ q_reliability q <> StoreAndForward.
Definition handshake_entry (kh : Address * PendingHandshake) : Prop :=
  hs_valid (R := R) i heard kh.1 (ph_hs kh.2) /\ Forall queued_ok (ph_queued kh.2) /\ tiny (ph_m1 kh.2) /\ tiny (ph_m2 kh.2).
Definition key_entry (ki : Address * PublicIdentity) : Prop := pi_address ki.2 = ki.1 /\ pubid_ok ki.2.
Definition envelopes_inv (l : list PendingEnvelope) : Prop := zlen l <= 16 /\ Forall (fun e => sendable (pe_payload e) /\ short (pe_dst e)) l.
Definition tx_inv (q : list TxItem) : Prop := tx_fld carried (c_network_key c) (c_max_tx_queue c) q.
Definition bounded {A} (k : Z) (l : list A) : Prop := zlen l <= k.
Definition held_inv (l : list (Address * Packet * Z)) : Prop := bounded 16 l /\ Forall (fun e => carried e.1.2) l.
Definition hops_inv (l : list HopPending) : Prop := bounded 24 l /\ Forall (fun h => carried (hp_packet h)) l.

(** [ct] was received from [a]: as the payload of one packet, or as the
    concatenation of all fragments of the set [frag]. *)
Definition received_body (a : Address) (ct : list Z) (frag : option Z) : Prop :=
  match frag with
  | None => exists p, heard p /\ h_src (p_header p) = a /\ frag_header p = None /\ p_payload p = ct
  | Some fid => exists ps, ct = concat (packet_body <$> ps) /\
      forall k p, ps !! k = Some p ->
        heard p /\ h_src (p_header p) = a /\ frag_header p = Some (mkFragHeader fid (Z.of_nat k) (zlen ps))
  end.
(** A received packet of type [t], and the body it brings or completes. *)
Definition arrived (t : PacketType) (p : Packet) (body : list Z) : Prop :=
  heard p /\ h_ptype (p_header p) = t /\ received_body (h_src (p_header p)) body (frag_id <$> frag_header p).

(** What an event for the application claims.  A message is the payload of a
    received packet, decrypted under a session this node established with the
    sender, taken from an envelope sealed to this node by an identity with the
    sender's address, decrypted under this node's network key, or plain; a
    delivery was confirmed in one of the first two ways by the destination. *)
Definition from_session (t : PacketType) (a : Address) (payload : list Z) : Prop :=
  exists p ct s now, arrived t p ct /\ h_src (p_header p) = a /\ h_dst (p_header p) = id_address i /\
    session_entry (R := R) i heard (a, s) /\
    (Session.decrypt now (transport_aad (p_header p) (frag_id <$> frag_header p)) ct s).2 = Ok payload.
Definition from_envelope (t : PacketType) (a : Address) (payload : list Z) : Prop :=
  exists p body id env sender, arrived t p body /\ h_dst (p_header p) = id_address i /\ parse_envelope_frame body = Ok (id, env) /\
    open_envelope i id env = Ok (sender, payload) /\ pi_address sender = a /\ pubid_ok sender.
Definition from_group (a : Address) (payload : list Z) : Prop :=
  exists p k, heard p /\ h_ptype (p_header p) = Data /\ h_src (p_header p) = a /\ c_network_key c = Some k /\
    group_decrypt (group_key sha256 k) a (h_packet_id (p_header p)) (header_aad (p_header p) 0) (p_payload p) = Ok payload.
Definition from_plain (a : Address) (payload : list Z) : Prop :=
  exists p, heard p /\ h_ptype (p_header p) = Data /\ h_src (p_header p) = a /\ h_has (p_header p) flags.GROUP_ENCRYPTED = false /\ p_payload p = payload.
Definition genuine (e : NodeEvent) : Prop :=
  match e with
  | MessageReceived from _ payload InSession _ _ _ _ => from_session Data from payload
  | MessageReceived from _ payload InEnvelope _ _ _ _ => from_envelope Data from payload
  | MessageReceived from _ payload Group _ _ _ _ => from_group from payload
  | MessageReceived from _ payload Plaintext _ _ _ _ => from_plain from payload
  | Delivered _ to _ =>
      (exists body a, from_session Protocol.Ack to body /\ ack_decode body = Ok a /\ ack_st a = ack_status.DELIVERED) \/
      (exists body, from_envelope Protocol.Ack to body)
  | _ => True
  end.
Definition events_inv (l : list NodeEvent) : Prop := zlen l <= 256 /\ Forall genuine l.

(** [node_ok c i heard n]: the state [n] of a node with configuration [c] and
    identity [i] that received the packets [heard].  Every table is within its budget; a session, a known key and a
    neighbour's identity belong to the address they are filed under. *)
Record node_ok (n : Node R) : Prop := {
  ok_cfg : n_cfg n = c;
  ok_id : n_id n = i;
  ok_neighbors : neighbors_inv (n_neighbors n);
  ok_zone : zone_inv (n_zone n);
  ok_routes : routes_inv (n_routes n);
  ok_ierp : IerpInv.ierp_fld good (c_zrp c) (n_ierp n);
  ok_rrep : rrep_inv (n_rrep_pending n);
  ok_seen : seen_inv (n_seen n);
  ok_sched : sched_inv (n_sched n);
  ok_transport : transport_fld (n_transport n);
  ok_mailbox : mailbox_inv (n_mailbox n);
  ok_power : PowerFacts.log_bounded (n_power n);
  ok_reassembler : reassembler_inv (n_reassembler n);
  ok_sessions : map_ok (session_entry (R := R) i heard) (n_sessions n);
  ok_handshakes : map_ok handshake_entry (n_handshakes n);
  ok_keys : map_ok key_entry (n_key_dir n);
  ok_envelopes : envelopes_inv (n_pending_envelopes n);
  ok_tx : tx_inv (n_tx_queue n);
  ok_events : events_inv (n_events n);
  ok_opened : bounded 64 (n_opened_envelopes n);
  ok_traces : bounded 4 (n_pending_traces n);
  ok_held : held_inv (n_held_for_sleeping n);
  ok_hops : hops_inv (n_hop_pending n)
}.

Ltac solve_field := split; [by intros n []|by intros f n [] Hf; split].
#[export] Instance fi_cfg : FieldInv node_ok n_cfg upd_cfg (eq c).
Proof. split; [by intros n []|intros f n [] Hf; by split]. Qed.
#[export] Instance fi_neighbors : FieldInv node_ok n_neighbors upd_neighbors neighbors_inv.
Proof. solve_field. Qed.
#[export] Instance fi_zone : FieldInv node_ok n_zone upd_zone zone_inv.
Proof. solve_field. Qed.
#[export] Instance fi_routes : FieldInv node_ok n_routes upd_routes routes_inv.
Proof. solve_field. Qed.
#[export] Instance fi_ierp : FieldInv node_ok n_ierp upd_ierp (IerpInv.ierp_fld good (c_zrp c)).
Proof. solve_field. Qed.
#[export] Instance fi_rrep : FieldInv node_ok n_rrep_pending upd_rrep_pending rrep_inv.
Proof. solve_field. Qed.
#[export] Instance fi_seen : FieldInv node_ok n_seen upd_seen seen_inv.
Proof. solve_field. Qed.
#[export] Instance fi_sched : FieldInv node_ok n_sched upd_sched sched_inv.
Proof. solve_field. Qed.
#[export] Instance fi_transport : FieldInv node_ok n_transport upd_transport transport_fld.
Proof. solve_field. Qed.
#[export] Instance fi_mailbox : FieldInv node_ok n_mailbox upd_mailbox mailbox_inv.
Proof. solve_field. Qed.
#[export] Instance fi_reassembler : FieldInv node_ok n_reassembler upd_reassembler reassembler_inv.
Proof. solve_field. Qed.
#[export] Instance fi_sessions : FieldInv node_ok n_sessions upd_sessions (map_ok (session_entry (R := R) i heard)).
Proof. solve_field. Qed.
#[export] Instance fi_handshakes : FieldInv node_ok n_handshakes upd_handshakes (map_ok handshake_entry).
Proof. solve_field. Qed.
#[export] Instance fi_keys : FieldInv node_ok n_key_dir upd_key_dir (map_ok key_entry).
Proof. solve_field. Qed.
#[export] Instance fi_envelopes : FieldInv node_ok n_pending_envelopes upd_pending_envelopes envelopes_inv.
Proof. solve_field. Qed.
#[export] Instance fi_tx : FieldInv node_ok n_tx_queue upd_tx_queue tx_inv.
Proof. solve_field. Qed.
#[export] Instance fi_events : FieldInv node_ok n_events upd_events events_inv.
Proof. solve_field. Qed.
#[export] Instance fi_opened : FieldInv node_ok n_opened_envelopes upd_opened_envelopes (bounded 64).
Proof. solve_field. Qed.
#[export] Instance fi_traces : FieldInv node_ok n_pending_traces upd_pending_traces (bounded 4).
Proof. solve_field. Qed.
#[export] Instance fi_held : FieldInv node_ok n_held_for_sleeping upd_held_for_sleeping held_inv.
Proof. solve_field. Qed.
#[export] Instance fi_hops : FieldInv node_ok n_hop_pending upd_hop_pending hops_inv.
Proof. solve_field. Qed.
(** Fields the invariant says nothing about. *)
#[export] Instance fi_rng : FieldInv node_ok n_rng upd_rng any.
Proof. solve_field. Qed.
#[export] Instance fi_now : FieldInv node_ok n_now upd_now any.
Proof. solve_field. Qed.
#[export] Instance fi_power : FieldInv node_ok n_power upd_power PowerFacts.log_bounded.
Proof. solve_field. Qed.
#[export] Instance fi_beacon_seq : FieldInv node_ok n_beacon_seq upd_beacon_seq any.
Proof. solve_field. Qed.
#[export] Instance fi_next_beacon : FieldInv node_ok n_next_beacon upd_next_beacon any.
Proof. solve_field. Qed.
#[export] Instance fi_beacons_sent : FieldInv node_ok n_beacons_sent upd_beacons_sent any.
Proof. solve_field. Qed.
#[export] Instance fi_last_beacon_at : FieldInv node_ok n_last_beacon_at upd_last_beacon_at any.
Proof. solve_field. Qed.
#[export] Instance fi_last_count : FieldInv node_ok n_last_neighbor_count upd_last_neighbor_count any.
Proof. solve_field. Qed.
#[export] Instance fi_next_handle : FieldInv node_ok n_next_handle upd_next_handle any.
Proof. solve_field. Qed.
#[export] Instance fi_frag_id : FieldInv node_ok n_frag_id upd_frag_id any.
Proof. solve_field. Qed.
#[export] Instance fi_counters : FieldInv node_ok n_counters upd_counters any.
Proof. solve_field. Qed.
#[export] Instance fi_anchor : FieldInv node_ok n_attached_anchor upd_attached_anchor any.
Proof. solve_field. Qed.
#[export] Instance fi_rx_airtime : FieldInv node_ok n_rx_airtime_ms upd_rx_airtime_ms any.
Proof. solve_field. Qed.
#[export] Instance fi_housekeeping : FieldInv node_ok n_last_housekeeping upd_last_housekeeping any.
Proof. solve_field. Qed.
#[export] Instance fi_last_wake : FieldInv node_ok n_last_wake upd_last_wake any.
Proof. solve_field. Qed.
#[export] Instance fi_slept_at : FieldInv node_ok n_slept_at upd_slept_at any.
Proof. solve_field. Qed.
#[export] Instance fi_pending_fetch : FieldInv node_ok n_pending_fetch upd_pending_fetch any.
Proof. solve_field. Qed.
End Invariant.

(** More packets heard: the invariant still holds. *)
Section Mono.
Context `{C : CryptoLib} {R : Type} `{RngCore R} (c : NodeConfig) (i : Identity) (P Q : Packet -> Prop).
Hypothesis HPQ : forall p, P p -> Q p.

Lemma carried_mono p : carried c i P p -> carried c i Q p.
Proof. intros [Hp|[Hr Hp]]; [by left|right]. split; [done|by eapply relayed_mono]. Qed.
Lemma good_mono p : good c i P p -> good c i Q p.
Proof. intros (H1 & H2 & H3). split; [done|]. split; [done|by apply carried_mono]. Qed.
Lemma own_hs_mono a h : own_hs (R := R) i P a h -> own_hs (R := R) i Q a h.
Proof.
  induction 1 as [|hc h Hh IH Hr]; [constructor|]. apply own_call; [done|]. intros msg Hm. destruct (Hr msg Hm) as (p & Hp & Hs). exists p. auto.
Qed.
Lemma session_entry_mono ks : session_entry (R := R) i P ks -> session_entry (R := R) i Q ks.
Proof.
  intros (H1 & H2 & (h & keys & Ho & Hf) & H4). split; [done|]. split; [done|]. split; [|done]. exists h, keys. split; [by apply own_hs_mono|done].
Qed.
Lemma handshake_entry_mono kh : handshake_entry (R := R) i P kh -> handshake_entry (R := R) i Q kh.
Proof. intros ([H1 H2] & H3). split; [|done]. split; [done|by apply own_hs_mono]. Qed.
Lemma received_body_mono a ct frag : received_body P a ct frag -> received_body Q a ct frag.
Proof.
  destruct frag as [fid|]; simpl; [|intros (p & ? & ?); eauto]. intros (ps & -> & Hps). exists ps. split; [done|].
  intros k p Hk. destruct (Hps k p Hk) as (? & ? & ?). auto.
Qed.
Lemma arrived_mono t p body : arrived P t p body -> arrived Q t p body.
Proof. intros (? & ? & ?). split; [auto|]. split; [done|by apply received_body_mono]. Qed.
Lemma from_session_mono t a pt : from_session (R := R) i P t a pt -> from_session (R := R) i Q t a pt.
Proof.
  intros (p & ct & s & now & Ha & H1 & H2 & Hs & Hd). exists p, ct, s, now. split; [by apply arrived_mono|]. split; [done|]. split; [done|].
  split; [by apply session_entry_mono|done].
Qed.
Lemma from_envelope_mono t a pt : from_envelope i P t a pt -> from_envelope i Q t a pt.
Proof. intros (p & body & id & env & sender & Ha & ?). exists p, body, id, env, sender. split; [by apply arrived_mono|done]. Qed.
Lemma genuine_mono e : genuine (R := R) c i P e -> genuine (R := R) c i Q e.
Proof.
  destruct e as [a sq pt []| | | | | | | | | | | |]; simpl; try done.
  - apply from_session_mono.
  - apply from_envelope_mono.
  - intros (p & k & ? & ?). exists p, k. auto.
  - intros (p & ? & ?). exists p. auto.
  - intros [(body & x & Hb & ?)|[body Hb]]; [left|right]; exists body; [exists x; split; [by apply from_session_mono|done]|by apply from_envelope_mono].
Qed.

Lemma node_ok_mono (n : Node R) : node_ok c i P n -> node_ok c i Q n.
Proof.
  intros Hn. destruct Hn. split; try done.
  - eapply IerpInv.ierp_fld_mono; [|done]. apply good_mono.
  - destruct ok_rrep0 as [Hl Hf]. split; [done|]. eapply Forall_impl; [exact Hf|]. intros e. apply good_mono.
  - destruct ok_sched0 as [Hl Hf]. split; [done|]. eapply Forall_impl; [exact Hf|]. intros e. apply carried_mono.
  - destruct ok_reassembler0 as (H1 & H2 & H3). split; [done|]. split; [done|]. eapply ReassemblerFacts.parts_from_mono; [|exact H3].
    intros key total k chunk (p & Hp & ?). exists p. auto.
  - destruct ok_sessions0 as [Hl Hf]. split; [done|]. eapply Forall_impl; [exact Hf|]. apply session_entry_mono.
  - destruct ok_handshakes0 as [Hl Hf]. split; [done|]. eapply Forall_impl; [exact Hf|]. apply handshake_entry_mono.
  - destruct ok_tx0 as [Hl Hf]. split; [done|]. eapply Forall_impl; [exact Hf|]. intros e (p & Hp & He). exists p. split; [by apply carried_mono|done].
  - destruct ok_events0 as [Hl Hf]. split; [done|]. eapply Forall_impl; [exact Hf|]. apply genuine_mono.
  - destruct ok_held0 as [Hl Hf]. split; [done|]. eapply Forall_impl; [exact Hf|]. intros e. apply carried_mono.
  - destruct ok_hops0 as [Hl Hf]. split; [done|]. eapply Forall_impl; [exact Hf|]. intros e. apply carried_mono.
Qed.
End Mono.
