(* ===== verification/NodeSafe.v ===== *)
(** * The engine never panics: transmit path

    Every method of [NodeState] and [NodeTx] keeps [node_ok] and does not panic,
    from any state of the invariant ([holds]). *)
From stdpp Require Import base tactics list numbers.
From Stdlib Require Import Lia.
From S2P Require Import Prelude SmallMap Float32 Protocol Packet Fragmentation CryptoLib Identity Noise Replay Session Transport StoreForward Storm Routing Messages Ierp Power Beacon Radio Neighbor Zone Methods NodeState Calculus NodeTx NodeRx Node EngineInv NodeInv.
From stdpp Require Import list.
#[local] Open Scope Z_scope.

(** Read [n_cfg] and [n_id] of a state of the invariant. *)
Ltac keep_cfg :=
  repeat match goal with
  | Hn : node_ok ?c ?i ?hd ?n |- context [n_cfg ?n] => rewrite (ok_cfg c i hd n Hn)
  | Hn : node_ok ?c ?i ?hd ?n |- context [n_id ?n] => rewrite (ok_id c i hd n Hn)
  end.
#[export] Hint Extern 0 (genuine _ _ _ _) => exact Logic.I : keep.
Ltac run := repeat ((keep_known || keep_step || keep_loop); keep_cfg)
(** A loop whose body keeps the invariant for any element; others are left. *)
with keep_loop :=
  match goal with |- holds _ (for_each _ _) any => apply holds_true; [intros ?; solve [run]|exact Logic.I] end.

(** ** Pieces without state *)





(** Flags other than [ENVELOPE]. *)
Definition no_env (h : Header) : Prop := h_has h flags.ENVELOPE = false.
Lemma no_env_set h f b : Z.land f flags.ENVELOPE = 0 -> no_env h -> no_env (h_set h f b).
Proof.
  unfold no_env, h_has, has_flag. intros Hf Hh. apply negb_false_iff, Z.eqb_eq in Hh. apply negb_false_iff, Z.eqb_eq.
  destruct b; cbn [h_set h_flags].
  - by rewrite Z.land_lor_distr_l, Hh, Hf.
  - by rewrite <- Z.land_assoc, (Z.land_comm _ flags.ENVELOPE), Z.land_assoc, Hh.
Qed.

Lemma split_small fid body chunk parts :
  0 <= chunk <= 255 -> Fragmentation.split fid body chunk = Some parts -> Forall (fun q => small (frame_fragment q.1 q.2)) parts.
Proof.
  intros Hc (D & _ & _ & -> & HD)%split_numbered; [|lia]. rewrite <- (ReassemblerFacts.numbered_chunks fid D) in HD.
  apply (Forall_fmap snd) in HD. eapply Forall_impl; [exact HD|]. intros [h d] Hd. simpl in *. unfold small, frame_fragment, frag_write.
  rewrite !zlen_app, zlen_be_bytes, !zlen_cons, zlen_nil. lia.
Qed.
Lemma chunk_range b : 0 <= max_payload b - FRAG_HEADER_LEN <= 255.
Proof. by destruct b. Qed.

Section Seal.
Context `{C : CryptoLib, !CryptoLibLaws C}.
Lemma group_encrypt_safe k src id aad pt : sendable pt -> safe (group_encrypt k src id aad pt).
Proof.
  intros Hp. unfold sendable in Hp. unfold group_encrypt. destruct (aead_total k (group_nonce src id) aad pt) as [x ->]; [lia|done].
Qed.
Lemma seal_envelope_safe {R} `{RngCore R} sender recipient id body (rng : R) :
  identity_ok sender -> sendable body ->
  safe (seal_envelope sender recipient id body rng).1 /\
  forall env, (seal_envelope sender recipient id body rng).1 = Ok env -> zlen env = zlen body + 128.
Proof.
  intros Hs Hb. unfold sendable in Hb. pose proof (static_public sender Hs) as Hst. pose proof (zlen_key sender Hs) as Hk.
  unfold seal_envelope, x_seal. set (ss0 := mix_hash _ _). destruct (fill_bytes rng 32) as [e rng']. cbn [fst].
  generalize (mix_hash (x25519_public e) ss0). intros ss1.
  assert (Hx : forall pt s, zlen pt < 2 ^ 32 -> exists s' ct, exec (encrypt_and_hash pt) s = Ok (s', ct) /\ zlen ct = zlen pt + overhead s).
  { intros pt s Hpt. destruct (encrypt_and_hash_spec s pt Hpt) as (ct & s' & He & _ & Hz & _). exists s', ct. by rewrite (exec_ok _ _ _ _ He). }
  assert (Hp : zlen (noise_static_public (id_public sender)) = 32) by (rewrite Hst; apply zlen_public).
  destruct (dh e _) as [es| |] eqn:E1; [|done|by destruct (safe_dh e (noise_static_public recipient))]. cbn [mbind outcome_bind].
  destruct (Hx (noise_static_public (id_public sender)) (mix_key es ss1)) as (s1 & c1 & -> & Hc1); [lia|]. cbn [mbind outcome_bind].
  destruct (dh (noise_static_secret sender) _) as [sk| |] eqn:E2; [|done|by destruct (safe_dh (noise_static_secret sender) (noise_static_public recipient))].
  cbn [mbind outcome_bind].
  destruct (Hx (public_key_bytes (id_public sender) ++ body) (mix_key sk s1)) as (s2 & c2 & -> & Hc2); [rewrite zlen_app; lia|].
  split; [done|]. intros env [= <-]. rewrite overhead_mix_key in *. rewrite !zlen_app, zlen_public, Hc1, Hc2, zlen_app. lia.
Qed.
End Seal.

Section Safe.
Context `{C : CryptoLib, !CryptoLibLaws C} {R : Type} `{G : RngCore R, !RngCoreLaws R, !RngLive R}.
Context (c : NodeConfig) (i : Identity) (heard : Packet -> Prop) (Hcfg : config_ok c) (Hid : identity_ok i).
Notation M := (St (Node R) Error).
Notation ok := (node_ok (R := R) c i heard).
Notation hs_valid := (hs_valid (R := R) i heard).
Notation hs_sound := (hs_sound (R := R) i heard).
Notation handshake_entry := (handshake_entry (R := R) i heard).
Notation session_entry := (session_entry (R := R) i heard).
Implicit Types (n : Node R) (p : Packet).

(** The node's own packets. *)
Notation me := (id_address i).
Notation carried := (carried c i heard).
Notation good := (good c i heard).
Lemma own_carried p : h_src (p_header p) = me -> carried p.
Proof. by left. Qed.
Lemma carried_same p p' : same_message p p' -> carried p -> carried p'.
Proof. intros Hs [Hp|[Hr Hp]]; [left|right; split; [done|by eapply relayed_same]]. destruct Hs as (_ & _ & -> & _). done. Qed.
(** Edits of the hop fields. *)
Lemma carried_next_hop v p : carried p -> carried (on_header (h_with_next_hop v) p).
Proof. apply carried_same. by repeat split. Qed.
Lemma carried_relay v p : carried p -> carried (on_header (h_with_relay v) p).
Proof. apply carried_same. by repeat split. Qed.
Lemma no_env_packet h payload : no_env h -> h_src h = me -> small payload -> good (mkPacket h payload).
Proof. intros Hh Hs Hp. split; [done|]. split; [|by apply own_carried]. unfold is_envelope. simpl. by rewrite Hh. Qed.

Lemma good_carried p : good p -> carried p.
Proof. by intros (_ & _ & ?). Qed.

(** ** Small methods *)

Lemma count_keep k : holds ok (count k) any.
Proof. unfold count. run. Qed.
Lemma address_keep : holds ok address (fun a => a = id_address i).
Proof. unfold address. run. Qed.
Lemma rand_u32_keep : holds ok rand_u32 any.
Proof. unfold rand_u32. run. Qed.
Lemma rand_u64_keep : holds ok rand_u64 any.
Proof. unfold rand_u64. run. Qed.
Lemma emit_keep e : genuine (R := R) c i heard e -> holds ok (emit e) any.
Proof.
  intros He. unfold emit. run. intros l [Hl Hf]. case_decide; [|done]. split; [rewrite zlen_app, zlen_cons, zlen_nil; lia|].
  apply Forall_app_2; [done|]. by apply Forall_cons_2.
Qed.
Lemma new_packet_id_keep : holds ok new_packet_id any.
Proof. unfold new_packet_id. apply holds_try_call. intros r _. split; [done|]. split; [apply draw_id_live|done]. Qed.
Lemma new_handle_keep : holds ok new_handle any.
Proof. unfold new_handle. run. Qed.
Lemma congestion_keep : holds ok congestion any.
Proof. unfold congestion. run. unfold PowerFacts.log_bounded in *. etrans; [apply PowerFacts.prune_log|done]. Qed.
Hint Resolve count_keep address_keep rand_u32_keep rand_u64_keep emit_keep new_packet_id_keep new_handle_keep
  congestion_keep : keep.

Lemma next_event_keep : holds ok next_event any.
Proof.
  unfold next_event. run. match goal with H : events_inv _ _ _ ?l |- _ => destruct H as [Hl Hf]; destruct l as [|e l] end; [done|].
  inversion_clear Hf. split; [rewrite zlen_cons in Hl; simpl; lia|done].
Qed.
Lemma add_known_identity_keep id : key_entry (pi_address id, id) -> holds ok (add_known_identity id) any.
Proof. intros Hk. unfold add_known_identity. run. intros m Hm. by apply map_ok_insert. Qed.

Lemma mailbox_call_keep {A} (f : Mailbox -> Mailbox * A) (Q : A -> Prop) :
  (forall m, mailbox_inv c (Some m) -> mailbox_inv c (Some (f m).1) /\ Q (f m).2) ->
  holds ok (mailbox_call f) (fun o => forall a, o = Some a -> Q a).
Proof.
  intros Hf. unfold mailbox_call. apply holds_call. intros [m|] Hm; [|done]. specialize (Hf m Hm).
  destruct (f m) as [m' a]. simpl in *. split; [apply Hf|]. intros ? [= <-]. apply Hf.
Qed.
Lemma has_session_keep dst : holds ok (has_session dst) any.
Proof. unfold has_session. run. Qed.
Lemma my_role_keep : holds ok my_role any.
Proof. unfold my_role. run. Qed.
Lemma update_neighbor_keep a f :
  (forall v, nb_addr (f v) = nb_addr v) -> (forall v, nb_identity (f v) = nb_identity v) -> holds ok (update_neighbor a f) any.
Proof.
  intros Ha Hi. unfold update_neighbor. run. intros t [Ht Hc]. split; [|done]. by apply NeighborFacts.update_table_ok.
Qed.
Lemma airtime_keep len : holds ok (airtime len) any.
Proof. unfold airtime. run. apply airtime_ms_safe, Hcfg. Qed.
Hint Resolve has_session_keep my_role_keep airtime_keep : keep.
Lemma hop_timeout_keep len : holds ok (hop_timeout len) any.
Proof. unfold hop_timeout. run. Qed.
Hint Resolve hop_timeout_keep : keep.
Lemma next_seq_keep : holds ok next_seq any.
Proof. unfold next_seq. run. Qed.
Hint Resolve next_seq_keep : keep.

(** ** The transmit queue *)



Lemma enqueue_packet_keep p t pr rel : carried p -> holds ok (enqueue_packet p t pr rel) any.
Proof.
  intros Hc. unfold enqueue_packet. apply holds_bind_gets. intros n0 Hn0. keep_cfg.
  eapply holds_bind with (P := fun r => forall f, r = inr f -> packet_encode hmac_sha256 p (c_network_key c) = Ok f).
  { eapply holds_attempt; [apply holds_lift with (Q := fun f => packet_encode hmac_sha256 p (c_network_key c) = Ok f)|done|naive_solver].
    - apply packet_encode_safe.
    - done. }
  intros [e|frame] Hf; [run|]. specialize (Hf frame eq_refl). intros n Hn. do 2 apply wpe_bind, wpe_gets.
  pose proof (ok_tx _ _ _ _ Hn) as Hq. keep_cfg. case_decide as Hlen.
  - destruct (max_by_key _ _) as [[j e]|] eqn:Hj; [|by apply (wpe_holds ok _ any); [run|..]].
    destruct (tx_evict_fld _ _ _ _ _ _ Hq Hj) as [Hq' Hl]. repeat wpe_step. unfold count. wpe_step.
    split; [|done]. apply field_set; [repeat (apply field_set; [|done]); done|]. simpl. by eapply tx_push_fld.
  - repeat wpe_step. split; [|done]. apply field_set; [done|]. eapply tx_push_fld; [lia|done..].
Qed.
Hint Resolve enqueue_packet_keep carried_next_hop carried_relay good_carried : keep.

Lemma bounded_retain {A} k (f : A -> bool) l : bounded k l -> bounded k (retain f l).
Proof. unfold bounded. pose proof (zlen_retain_le f l). lia. Qed.

Lemma tx_attempt_keep a : holds ok (update_neighbor a Neighbor.record_tx_attempt) any.
Proof. apply update_neighbor_keep; intros v; unfold Neighbor.record_tx_attempt; by case_decide. Qed.
Lemma tx_confirmed_keep a : holds ok (update_neighbor a Neighbor.record_tx_confirmed) any.
Proof. by apply update_neighbor_keep. Qed.
Hint Resolve tx_attempt_keep tx_confirmed_keep : keep.

Lemma hops_retain f l : hops_inv c i heard l -> hops_inv c i heard (retain f l).
Proof. intros [Hl Hf]. split; [by apply bounded_retain|by apply Forall_retain]. Qed.
Lemma track_hop_keep p nh now rel : carried p -> holds ok (track_hop p nh now rel) any.
Proof.
  intros Hp. unfold track_hop. intros n Hn. do 2 apply wpe_bind, wpe_gets. keep_cfg. case_decide as Hd; [by apply wpe_ret|].
  set (fl := fun h : HopPending => negb (bool_decide (hp_key h = h_key (p_header p)))).
  apply wpe_bind, wpe_modify.
  assert (Hr : ok (upd_hop_pending (retain fl) n) /\ zlen (n_hop_pending (upd_hop_pending (retain fl) n)) < 24).
  { pose proof (zlen_retain_le fl (n_hop_pending n)). split; [apply field_set; [done|]; by apply hops_retain, field_get|]. simpl. lia. }
  revert Hr. generalize (upd_hop_pending (retain fl) n). clear -Hcfg Hp. intros n [Hn Hl]. unfold update_neighbor.
  apply wpe_bind, wpe_modify. set (n1 := upd_neighbors _ n).
  assert (Hn1 : ok n1). { pose proof (tx_attempt_keep nh n Hn) as [H1 _]. apply H1. }
  assert (Hl1 : zlen (n_hop_pending n1) < 24) by done. clearbody n1. clear n Hn Hl.
  unfold hop_timeout, airtime. apply wpe_bind, wpe_bind, wpe_bind, wpe_gets. keep_cfg. apply wpe_lift; [apply airtime_ms_safe, Hcfg| |done].
  intros a _. apply wpe_bind, wpe_gets, wpe_ret. unfold rand_u64. apply wpe_bind, wpe_call, wpe_modify. split; [|done].
  pose proof (ok_hops _ _ _ _ Hn1) as [_ Hf]. apply field_set; [by apply field_set|]. split.
  - unfold bounded. simpl. rewrite zlen_app, zlen_cons, zlen_nil. lia.
  - apply Forall_app_2; [exact Hf|]. by apply Forall_cons_2.
Qed.
Hint Resolve track_hop_keep : keep.

Lemma hop_confirmed_keep key from : holds ok (hop_confirmed key from) any.
Proof.
  unfold hop_confirmed. run; [intros l; apply hops_retain|]. intros t [Ht Hc]. split; [|done].
  destruct (NeighborFacts.run_nop_ok (NeighborFacts.Success from) t Ht) as (t' & [= <-] & ? & ?). done.
Qed.
Hint Resolve hop_confirmed_keep : keep.

(** ** Headers, route control *)

(** A header of [base_header]: no flag but the network tag, from this node. *)
Definition fresh_header (dst : Address) (h : Header) : Prop :=
  h_dst h = dst /\ (h_flags h = 0 \/ h_flags h = flags.NET_AUTH) /\ h_src h = me.
Hint Extern 2 (NodeInv.carried _ _ _ _) =>
  apply own_carried; simpl; match goal with H : fresh_header _ _ |- _ => apply H end : keep.

Lemma base_header_keep pt dst ttl : holds ok (base_header pt dst ttl) (fresh_header dst).
Proof.
  unfold base_header. run.
  - unfold clamp. destruct Hcfg as (_ & Ht & _). by rewrite decide_True.
  - destruct (c_network_key c); split; auto.
Qed.
Hint Resolve base_header_keep : keep.

Lemma fresh_packet dst h f payload :
  fresh_header dst h -> h_flags (f h) = h_flags h -> h_src (f h) = h_src h -> small payload -> good (mkPacket (f h) payload).
Proof.
  intros (_ & Hf & Hm) Hs Hr Hp. apply no_env_packet; [|congruence|done]. unfold no_env, h_has. rewrite Hs. by destruct Hf as [-> | ->].
Qed.

Lemma send_route_request_keep target req_id ttl now : holds ok (send_route_request target req_id ttl now) any.
Proof. unfold send_route_request. run. Qed.
Lemma may_start_keep dst now : holds ok (may_start dst now) any.
Proof. unfold may_start. run. Qed.
Hint Resolve send_route_request_keep may_start_keep : keep.

(** A discovery starts in a state where it may. *)
Lemma start_discovery_wpe dst now n :
  ok n -> Ierp.may_start dst now (n_ierp n) = true -> wpe (start_discovery dst now) (fun n' _ => ok n') ok n.
Proof.
  intros Hn Hm. unfold start_discovery, new_packet_id. apply wpe_bind, wpe_try_call. unfold wpe.
  pose proof (draw_id_live (n_rng n)) as Hl. destruct (draw_id ID_DRAWS (n_rng n)) as [r [a|e|]]; [| |done]; simpl in *.
  - apply field_set; [by apply field_set|]. apply IerpInv.start_fld; [done|]. apply Hn.
  - by apply field_set.
Qed.

Lemma discover_keep dst now : holds ok (discover dst now) any.
Proof.
  intros n Hn. unfold discover, may_start. apply wpe_bind, wpe_gets. destruct (Ierp.may_start dst now (n_ierp n)) eqn:Hm; [|by apply wpe_ret].
  simpl. apply wpe_bind. eapply wpe_mono; [by apply start_discovery_wpe| |done]. intros n' [req ttl] Hn'. by apply send_route_request_keep.
Qed.
Hint Resolve discover_keep : keep.

Lemma queue_keep p : good p -> holds ok (call n_ierp upd_ierp (Ierp.queue (h_dst (p_header p)) p)) any.
Proof. intros Hp. run. by apply IerpInv.queue_fld. Qed.
Hint Resolve queue_keep : keep.

(** Start a discovery for a packet and park it. *)
Lemma park_wpe p now n :
  ok n -> good p -> Ierp.may_start (h_dst (p_header p)) now (n_ierp n) = true ->
  wpe ('(req_id, ttl) ← start_discovery (h_dst (p_header p)) now;
       call n_ierp upd_ierp (Ierp.queue (h_dst (p_header p)) p);;
       send_route_request (h_dst (p_header p)) req_id ttl now) (fun n' _ => ok n' /\ True) ok n.
Proof.
  intros Hn Hp Hm. apply wpe_bind. eapply wpe_mono; [by apply start_discovery_wpe| |done]. intros n' [req ttl] Hn'.
  change (wpe (call n_ierp upd_ierp (Ierp.queue (h_dst (p_header p)) p);; send_route_request (h_dst (p_header p)) req ttl now)
    (fun s' a => ok s' /\ any a) ok n'). revert n' Hn'. change (holds ok (call n_ierp upd_ierp (Ierp.queue (h_dst (p_header p)) p);;
    send_route_request (h_dst (p_header p)) req ttl now) any). run.
Qed.

Lemma park_keep p now :
  good p ->
  holds ok (may ← may_start (h_dst (p_header p)) now;
            ensure may NoRoute;;
            '(req_id, ttl) ← start_discovery (h_dst (p_header p)) now;
            call n_ierp upd_ierp (Ierp.queue (h_dst (p_header p)) p);;
            send_route_request (h_dst (p_header p)) req_id ttl now) any.
Proof.
  intros Hp n Hn. unfold may_start. apply wpe_bind, wpe_gets, wpe_bind, wpe_ensure; [|done]. intros Hm. by apply park_wpe.
Qed.

Lemma route_unicast_keep p now : good p -> holds ok (route_unicast p now) any.
Proof.
  intros Hp. unfold route_unicast. apply holds_bind_gets. intros n0 _. destruct (decide _); [run|]. apply holds_bind_gets. intros n1 _.
  destruct (next_hop_for _ _ _); [run; intros r; apply (rop_fld _ (RoutingFacts.Touch _ _ _))|].
  apply holds_bind_gets. intros n2 _. destruct (Ierp.is_pending _ _); [run|]. by apply park_keep.
Qed.
Hint Resolve route_unicast_keep : keep.

Definition reply_small (r : messages.RouteReply) : Prop :=
  short (messages.rp_target r) /\ zlen (default [] (messages.rp_target_key r)) <= 64 /\ zlen (messages.rp_handshake r) <= 2048.
Lemma rrep_small r : reply_small r -> small (messages.rrep_encode r).
Proof.
  intros (Ht & Hk & Hh). unfold short, small, messages.rrep_encode in *. rewrite !zlen_app, !zlen_be_bytes, !zlen_cons, !zlen_nil. lia.
Qed.
Lemma schedule_reply_inv o q cost due p s : good p -> rrep_inv c i heard s -> rrep_inv c i heard (PendingReplies.schedule o q cost due p s).
Proof.
  intros Hp [Hl Hf]. unfold PendingReplies.schedule. case_decide; [|done]. split; simpl.
  - rewrite zlen_app, zlen_cons, zlen_nil. lia.
  - apply Forall_app_2; [done|]. by apply Forall_cons_2.
Qed.

Lemma send_route_reply_keep origin r now : reply_small r -> holds ok (send_route_reply origin r now) any.
Proof.
  intros Hr. unfold send_route_reply. run; [by apply IerpInv.mark_replied_fld|]. intros ? ?.
  apply schedule_reply_inv; [|done]. by apply (fresh_packet origin _ id), rrep_small.
Qed.
Lemma send_route_error_keep dst u now : short u -> holds ok (send_route_error dst u now) any.
Proof.
  intros Hu. unfold send_route_error. run. apply route_unicast_keep, (fresh_packet dst _ id); [done..|].
  unfold small, messages.rerr_encode. simpl. unfold short in Hu. rewrite zlen_cons, app_nil_r. lia.
Qed.
Hint Resolve send_route_reply_keep send_route_error_keep : keep.

(** ** Beacons *)

Lemma schedule_beacon_keep now : holds ok (schedule_beacon now) any.
Proof. unfold schedule_beacon. run. Qed.
Hint Resolve schedule_beacon_keep : keep.
Lemma send_beacon_keep now : holds ok (send_beacon now) any.
Proof. unfold send_beacon. run. Qed.

(** ** Handshakes *)

Lemma send_handshake_keep peer no msg now : tiny msg -> holds ok (send_handshake_packet peer no msg now) any.
Proof.
  intros Hm. unfold send_handshake_packet. run. apply route_unicast_keep, (fresh_packet peer _ id); [done..|].
  unfold small, tiny in *. rewrite zlen_cons. lia.
Qed.
Hint Resolve send_handshake_keep : keep.

Lemma new_handshake_keep role a b peer :
  prologue a b = match role with Initiator => prologue (id_address i) peer | Responder => prologue peer (id_address i) end ->
  holds ok (new_handshake role a b) (hs_valid peer).
Proof.
  intros Hp n Hn. unfold wpe, new_handshake. rewrite (ok_id _ _ _ _ Hn). pose proof (hs_new_ok role i (prologue a b) (n_rng n) Hid) as Hh.
  pose proof (own_start i heard peer role (n_rng n)) as Ho. rewrite <- Hp in Ho.
  destruct (hs_new role i (prologue a b) (n_rng n)) as [hs rng]. split; [|by split]. by apply field_set.
Qed.
Lemma run_hs_keep hc Q peer hs :
  hs_sound hc Q -> hs_valid peer hs ->
  holds ok (run_hs (run_call hc) hs) (fun r => hs_valid peer r.1 /\ forall a, r.2 = inr a -> Q a).
Proof.
  intros Hs Hh. specialize (Hs peer hs Hh). unfold wpe in Hs. unfold run_hs. destruct (run_call hc hs) as [hs' [a|e|]]; [| |done].
  - apply holds_lift; [done|]. intros x [= <-]. split; [apply Hs|]. intros ? [= <-]. apply Hs.
  - apply holds_lift; [done|]. intros x [= <-]. done.
Qed.

Lemma insert_handshake_keep peer h : handshake_entry (peer, h) -> holds ok (modify (upd_handshakes (map_insert peer h)) : M unit) any.
Proof. intros Hh. run. intros m Hm. by apply map_ok_insert. Qed.
Lemma push_entry dst q m : queued_ok q -> map_ok handshake_entry m -> map_ok handshake_entry (SmallMap.update m dst (ph_push q)).
Proof.
  intros Hq Hm. apply map_ok_update; [done|]. intros h (H1 & H2 & H3). split; [done|]. split; [|done].
  apply Forall_app_2; [done|]. by apply Forall_cons_2.
Qed.
Lemma push_queued_keep dst q : queued_ok q -> holds ok (push_queued dst q) any.
Proof. intros Hq. unfold push_queued. run. intros m. by apply push_entry. Qed.
Hint Resolve insert_handshake_keep push_queued_keep : keep.

Lemma start_handshake_keep peer now : holds ok (start_handshake peer now) any.
Proof.
  unfold start_handshake. apply holds_bind_gets. intros n0 _. eapply holds_bind; [apply address_keep|]. intros a ->. cbn beta.
  destruct (_ || _); [run|]. apply holds_bind_gets. intros n _. eapply holds_bind; [by apply (new_handshake_keep _ _ _ peer)|]. intros hs Hhs.
  eapply holds_bind; [apply my_role_keep|]. intros role _.
  match goal with |- holds _ (run_hs (write_message_1 ?pl) hs ≫= _) _ =>
    eapply holds_bind; [apply (run_hs_keep (W1 pl) tiny peer); [by apply sound_w1|done]|] end.
  intros [hs' r] [Hh' Hr]. simpl in *. destruct r as [e|m1]; [run|]. specialize (Hr m1 eq_refl). run.
  intros ? ?. apply map_ok_insert; [done|]. split; [done|]. split; [constructor|]. done.
Qed.
Hint Resolve start_handshake_keep : keep.

(** ** Session traffic *)

Lemma with_session_keep {A} dst (m : St Session Error A) (Q : A -> Prop) :
  (forall s, session_entry (dst, s) -> wpe m (fun s' a => session_entry (dst, s') /\ Q a) (fun s' => session_entry (dst, s')) s) ->
  holds ok (with_session dst m) Q.
Proof.
  intros Hm n Hn. unfold wpe, with_session. pose proof (ok_sessions _ _ _ _ Hn) as Hs.
  destruct (SmallMap.get (n_sessions n) dst) as [s|] eqn:E; [|done]. specialize (Hm s (map_ok_get _ _ _ _ Hs E)). unfold wpe in Hm.
  assert (Hup : forall s', session_entry (dst, s') -> ok (upd_sessions (fun l => SmallMap.update l dst (fun _ => s')) n)).
  { intros s' Hs'. apply field_set; [done|]. by apply map_ok_update. }
  destruct (m s) as [s' [a|e|]]; [|by apply Hup|done]. destruct Hm. split; [by apply Hup|done].
Qed.
Lemma encrypt_keep dst now aad pt :
  sendable pt -> holds ok (with_session dst (Session.encrypt now aad pt)) (fun ct => zlen ct = zlen pt + 20).
Proof. intros Hp. apply with_session_keep. intros s Hs. by apply encrypt_entry. Qed.
Lemma decrypt_keep dst now aad ct :
  holds ok (with_session dst (Session.decrypt now aad ct))
    (fun pt => zlen pt <= zlen ct /\ exists s, session_entry (dst, s) /\ (Session.decrypt now aad ct s).2 = Ok pt).
Proof.
  apply with_session_keep. intros s Hs. pose proof (decrypt_entry i heard dst now aad ct s Hs) as Hd. unfold wpe in *.
  destruct (Session.decrypt now aad ct s) as [s' [pt|e|]] eqn:E; [|done..]. destruct Hd as [H1 H2]. split; [done|]. split; [done|].
  exists s. by rewrite E.
Qed.

Lemma send_fragments_keep h parts send :
  Forall (fun q => small (frame_fragment q.1 q.2)) parts ->
  (forall hh payload, h_flags hh = h_flags h -> h_dst hh = h_dst h -> h_src hh = h_src h -> small payload ->
     holds ok (send (mkPacket hh payload)) any) ->
  holds ok (send_fragments h parts send) any.
Proof.
  intros Hp Hs. unfold send_fragments. apply holds_for_each with (P := fun q => small (frame_fragment q.2.1 q.2.2)); [|intros [k [fh data]] Hq|done].
  - apply Forall_lookup. intros k q Hk. rewrite list_lookup_imap in Hk. apply fmap_Some in Hk as (q' & Hk & ->).
    by apply (Forall_lookup_1 _ _ _ _ Hp Hk).
  - apply holds_bind with (P := fun hh => h_flags hh = h_flags h /\ h_dst hh = h_dst h /\ h_src hh = h_src h).
    + run; done.
    + intros hh (H1 & H2 & H3). by apply Hs.
Qed.

Lemma session_header h seq ack leaf frag dst :
  fresh_header dst h ->
  let h := h_set (h_set (h_with_seq seq h) flags.ENCRYPTED true) flags.ACK_REQUEST ack in
  let h := if leaf : bool then h_set h flags.LEAF_SOURCE true else h in
  let h := if frag : bool then h_set h flags.FRAGMENTED true else h in
  no_env h /\ h_src h = me.
Proof.
  intros (_ & Hf & Hm). cbv zeta. split; [|by destruct leaf, frag]. assert (no_env (h_with_seq seq h)) by (unfold no_env, h_has; simpl; by destruct Hf as [-> | ->]).
  destruct leaf, frag; by repeat apply no_env_set.
Qed.

Lemma send_session_keep dst pt body seq ack now : sendable body -> holds ok (send_session_packet dst pt body seq ack now) any.
Proof.
  intros Hb. unfold send_session_packet. apply holds_bind_gets. intros n0 _. eapply holds_bind; [apply base_header_keep|]. intros h Hh.
  eapply holds_bind; [apply my_role_keep|]. intros role _.
  set (h1 := if decide (role = Leaf) then _ else _). set (max := max_payload _). set (fr := bool_decide _).
  assert (Hne : no_env (if fr then h_set h1 flags.FRAGMENTED true else h1) /\ h_src (if fr then h_set h1 flags.FRAGMENTED true else h1) = me).
  { pose proof (session_header h seq ack (bool_decide (role = Leaf)) fr dst Hh) as Hn. subst h1. cbv zeta in Hn.
    destruct (decide (role = Leaf)) as [E|E]; [rewrite bool_decide_true in Hn by done|rewrite bool_decide_false in Hn by done]; exact Hn. }
  revert Hne. generalize (if fr then h_set h1 flags.FRAGMENTED true else h1). intros h2 [Hne Hme].
  apply holds_bind with (P := fun fid => fr = true -> is_Some fid).
  { destruct fr eqn:E; [|by apply holds_ret]. run. }
  intros fid Hfid. eapply holds_bind; [by apply encrypt_keep|]. intros ct Hct. unfold sendable in Hb. destruct fr eqn:E; simpl.
  - destruct Hfid as [f ->]; [done|]. apply (holds_bind _ _ _ (eq f)); [apply holds_lift; [done|by intros ? [= ->]]|]. intros ? <-.
    apply holds_bind with (P := Forall (fun q => small (frame_fragment q.1 q.2))).
    { apply holds_lift; [apply safe_ok_or|]. intros parts Hp. destruct (Fragmentation.split f ct _) as [q|] eqn:Hsp; [|done].
      injection Hp as <-. by eapply split_small, Hsp; apply chunk_range. }
    intros parts Hp. eapply holds_bind; [|intros; run]. apply send_fragments_keep; [done|]. intros hh payload H1 H2 H3 H4.
    apply route_unicast_keep, no_env_packet; [|congruence|done]. unfold no_env, h_has in *. by rewrite H1.
  - apply route_unicast_keep, no_env_packet; [done..|]. subst fr. apply bool_decide_eq_false in E. unfold TRANSPORT_OVERHEAD in E.
    assert (max <= 255) by (unfold max, max_payload; by destruct (h_has _ _)). pose proof (zlen_nonneg body).
    rewrite usize_small in E by (unfold TAG_LEN in *; lia). unfold small, TAG_LEN in *. lia.
Qed.
Hint Resolve send_session_keep : keep.

Lemma tiny_sendable l : tiny l -> sendable l.
Proof. intros. by apply small_sendable, tiny_small. Qed.
Lemma add_acks_keep : holds ok (modify (upd_transport (set_t_stats add_acks_sent)) : M unit) any.
Proof. run. Qed.
Hint Resolve add_acks_keep : keep.

Lemma send_ack_keep dst seq st now : holds ok (send_ack dst seq st now) any.
Proof. unfold send_ack. run. apply send_session_keep. unfold sendable, ack_encode. rewrite zlen_app, zlen_be_bytes, zlen_cons, zlen_nil. lia. Qed.
Lemma send_control_keep dst sub body now : sendable (sub :: body) -> holds ok (send_control dst sub body now) any.
Proof. intros Hb. unfold send_control. run. Qed.
Hint Resolve send_ack_keep send_control_keep : keep.

Lemma tiny_queued dst l handle now : tiny l -> queued_ok (mkQueuedSend dst l Unreliable handle now).
Proof. intros Hl. split; [by apply tiny_sendable|done]. Qed.
Hint Resolve tiny_queued : keep.

Lemma send_fetch_keep anchor now : holds ok (send_fetch anchor now) any.
Proof. unfold send_fetch. run; [by apply send_session_keep|intros m; by apply push_entry, tiny_queued]. Qed.
Lemma send_link_ack_keep dst id now : holds ok (send_link_ack dst id now) any.
Proof. unfold send_link_ack. run. Qed.
Hint Resolve send_fetch_keep send_link_ack_keep : keep.

(** ** Envelopes *)

Lemma send_envelope_keep dst id env now : small env -> short dst -> holds ok (send_envelope_data dst id env now) any.
Proof.
  intros He Hd. unfold send_envelope_data. apply holds_bind_gets. intros n0 _. eapply holds_bind; [apply base_header_keep|]. intros h (Hh & _ & Hm0).
  eapply holds_bind; [apply next_seq_keep|]. intros q _.
  assert (Hfr : small (frame_envelope id env) \/ ~ zlen (frame_envelope id env) <= 255).
  { destruct (decide (zlen (frame_envelope id env) <= 255)); [left; unfold small; lia|by right]. }
  set (h1 := h_with_seq q _). assert (H1 : h_dst h1 = dst) by done. assert (H2 : h_src h1 = me) by done. clearbody h1. assert (Hm : forall b, max_payload b <= 255) by (by intros []).
  destruct (decide _) as [Hle|_].
  - run. apply route_unicast_keep. split; simpl; [|split; [by rewrite H1|by apply own_carried]]. specialize (Hm (h_has h1 flags.NET_AUTH)). unfold small. lia.
  - run. apply send_fragments_keep; [by eapply split_small; [apply chunk_range|]|]. intros hh payload _ H3 H4 H5. run.
    apply route_unicast_keep. split; simpl; [done|]. simpl in H3, H4. split; [by rewrite H3, H1|]. apply own_carried. simpl. congruence.
Qed.
Hint Resolve send_envelope_keep : keep.

Lemma take_keep dst now k :
  holds ok (mailbox_call (Mailbox.take_deliverable dst now k)) (fun o => forall l, o = Some l -> Forall (MailboxInv.outgoing dst) l).
Proof. apply mailbox_call_keep. intros m Hm. by apply MailboxInv.take_inv. Qed.
Lemma flush_keep dst now : holds ok (flush_mailbox_to dst now) any.
Proof.
  unfold flush_mailbox_to. eapply holds_bind; [apply take_keep|]. intros [items|] Hi; [|run].
  eapply holds_for_each; [by apply Hi| |done]. intros [id env] [H1 H2]. by apply send_envelope_keep.
Qed.
Lemma store_keep now d req :
  small (sr_envelope req) -> short (sr_dst req) ->
  holds ok (mailbox_call (Mailbox.store now d req)) (fun o => forall r, o = Some r -> r <> Panic).
Proof. intros He Hd. apply (mailbox_call_keep _ (fun r => r <> Panic)). intros m Hm. by apply MailboxInv.store_inv. Qed.
Hint Resolve flush_keep : keep.

Lemma store_encode_sendable dst id ttl env : small env -> short dst -> sendable (store_encode (mkStoreRequest dst id ttl env)).
Proof.
  intros He Hd. unfold sendable, small, short, store_encode in *. cbn [sr_dst sr_envelope_id sr_ttl_s sr_envelope].
  rewrite !zlen_app, !zlen_be_bytes. lia.
Qed.
Lemma send_store_keep anchor dst id env now : small env -> short dst -> holds ok (send_store anchor dst id env now) any.
Proof.
  intros He Hd. unfold send_store. run; [by apply send_session_keep, store_encode_sendable|].
  intros m. apply push_entry. split; [by apply store_encode_sendable|done].
Qed.
Hint Resolve send_store_keep : keep.

Lemma route_unicast_envelope_keep dst id env now : small env -> short dst -> holds ok (route_unicast_envelope dst id env now) any.
Proof.
  intros He Hd. unfold route_unicast_envelope. run. apply route_unicast_keep. match goal with H : fresh_header _ _ |- _ => destruct H as (Hh & _ & Hm0) end.
  split; simpl; [|split; [by rewrite Hh|by apply own_carried]]. match goal with H : bool_decide (_ <= max_payload ?b) = true |- _ =>
    apply bool_decide_eq_true in H; assert (max_payload b <= 255) by (by destruct b) end. unfold small. lia.
Qed.
Lemma accepted_keep id : holds ok (call n_transport upd_transport (Transport.on_store_accepted id)) any.
Proof. run. by apply (TransportInv.accepted_inv (R := R)). Qed.
Hint Resolve route_unicast_envelope_keep accepted_keep : keep.

Lemma deliver_locally_keep dst id env now : small env -> short dst -> holds ok (deliver_locally dst id env now) any.
Proof.
  intros He Hd. unfold deliver_locally. run. eapply holds_any, store_keep; done.
Qed.
Hint Resolve deliver_locally_keep : keep.
Lemma deliver_envelope_keep dst id env now : small env -> short dst -> holds ok (deliver_envelope dst id env now) any.
Proof. intros He Hd. unfold deliver_envelope. run. Qed.
Lemma failed_event_keep handle dst r : holds ok (failed_event handle dst r) any.
Proof. unfold failed_event. run. Qed.
Hint Resolve deliver_envelope_keep failed_event_keep : keep.

Lemma track_keep o now :
  TransportInv.out_ok o -> holds ok (try_call n_transport upd_transport (Transport.track o now)) any.
Proof.
  intros Ho. apply holds_try_call. intros t Ht. split; [by apply (TransportInv.track_inv (R := R))|]. split; [|done].
  unfold Transport.track. by case_decide.
Qed.

Lemma seal_and_send_keep dst payload handle now :
  sendable payload -> short dst -> holds ok (seal_and_send_envelope dst payload handle now) any.
Proof.
  intros Hp Hd. unfold seal_and_send_envelope. apply holds_bind_gets. intros n0 Hn0. destruct (SmallMap.get _ _) as [pk|]; [|run].
  eapply holds_bind; [apply new_packet_id_keep|]. intros id _. apply holds_bind_gets. intros n1 Hn1. keep_cfg.
  apply holds_bind with (P := fun r => forall env, r = inr env -> zlen env = zlen payload + 128).
  { eapply holds_attempt with (P := fun env => zlen env = zlen payload + 128); [|done|by intros env He ? [= <-]].
    apply holds_try_call. intros r _. destruct (seal_envelope_safe i pk id payload r Hid Hp) as [H1 H2].
    by destruct (seal_envelope i pk id payload r). }
  intros [e|env] He; [run|]. specialize (He env eq_refl). unfold sendable in Hp. pose proof (zlen_nonneg payload).
  destruct (decide _) as [|Hlen]; [run|]. rewrite usize_small in Hlen by lia. assert (Hs : small env) by (unfold small; lia).
  run. apply track_keep. split; [by apply small_sendable|done].
Qed.
Hint Resolve seal_and_send_keep : keep.

Lemma envelopes_push e l : zlen l < 16 -> sendable (pe_payload e) -> short (pe_dst e) -> envelopes_inv l -> envelopes_inv (l ++ [e]).
Proof.
  intros Hlt Hs Hd [Hl Hf]. split; [rewrite zlen_app, zlen_cons, zlen_nil; lia|]. apply Forall_app_2; [done|]. by apply Forall_cons_2.
Qed.
Lemma envelopes_retain f l : envelopes_inv l -> envelopes_inv (retain f l).
Proof. intros [Hl Hf]. split; [pose proof (zlen_retain_le f l); lia|by apply Forall_retain]. Qed.

Lemma queue_envelope_keep dst payload handle now :
  sendable payload -> short dst -> holds ok (queue_envelope dst payload handle now) any.
Proof.
  intros Hp Hd. unfold queue_envelope. apply holds_bind_gets. intros n0 _. destruct (SmallMap.contains_key _ _); [run|].
  intros n Hn. apply wpe_bind, wpe_gets. destruct (decide _); [by apply failed_event_keep|]. apply wpe_bind, wpe_modify.
  apply discover_keep. apply field_set; [done|]. apply envelopes_push; [lia|done..|apply Hn].
Qed.
Hint Resolve queue_envelope_keep : keep.

Lemma try_pending_keep dst now : holds ok (try_pending_envelopes dst now) any.
Proof.
  unfold try_pending_envelopes. apply holds_bind_gets. intros n Hn. run; [intros l; apply envelopes_retain|].
  pose proof (ok_envelopes _ _ _ _ Hn) as [_ Hf].
  eapply holds_for_each with (P := fun e => sendable (pe_payload e) /\ short dst); [|intros e [? ?]; run|done].
  apply Forall_forall. intros e [He1 He2]%elem_of_retain. apply bool_decide_eq_true in He1 as <-. by apply (Forall_elem _ _ _ Hf He2).
Qed.
Hint Resolve try_pending_keep : keep.

(** ** Application messages *)

Lemma send_data_keep q now : queued_ok q -> holds ok (send_data_in_session q now) any.
Proof. intros [Hs Hr]. unfold send_data_in_session. run. apply track_keep. by split. Qed.
Hint Resolve send_data_keep : keep.
Lemma send_or_queue_keep q now : queued_ok q -> holds ok (send_or_queue q now) any.
Proof. intros Hq. unfold send_or_queue. run. Qed.
Hint Resolve send_or_queue_keep : keep.

Lemma send_broadcast_keep payload : sendable payload -> holds ok (send_broadcast payload) any.
Proof.
  intros Hp. unfold send_broadcast. do 5 keep_step. match goal with H : fresh_header _ _ |- _ => destruct H as (_ & _ & Hh) end.
  keep_step. apply (holds_bind _ _ _ (fun hb => h_src hb.1 = me)).
  - run. by apply group_encrypt_safe.
  - intros [h' body] Hs. simpl in Hs. run. by apply enqueue_packet_keep, own_carried.
Qed.
Hint Resolve send_broadcast_keep : keep.

Lemma send_message_keep dst payload rel : address_ok dst -> holds ok (send_message dst payload rel) any.
Proof.
  intros Hd. apply address_short in Hd. unfold send_message. do 3 keep_step. keep_step.
  assert (Hp : sendable payload).
  { match goal with H : bool_decide (zlen payload <= _) = true |- _ => apply bool_decide_eq_true in H end. unfold sendable. lia. }
  run. apply send_or_queue_keep. by split.
Qed.

Lemma trace_keep dst : holds ok (trace dst) any.
Proof.
  unfold trace. eapply holds_bind; [apply address_keep|]. intros me _. keep_step. intros n Hn. apply wpe_bind, wpe_gets, wpe_bind, wpe_ensure; [|done].
  intros Hlen%bool_decide_eq_true. do 2 apply wpe_bind, wpe_gets.
  set (push := fun l : list (Address * Z) => retain (fun e => negb (bool_decide (e.1 = dst))) l ++ [(dst, n_now n)]).
  assert (Hp : forall h n', ok n' -> zlen (n_pending_traces n') < 4 -> fresh_header dst h ->
     wpe (modify (upd_pending_traces push);; route_unicast (mkPacket h [control.TRACE_REQ]) (n_now n)) (fun s' a => ok s' /\ any a) ok n').
  { intros h n' Hn' Hl Hh. apply wpe_bind, wpe_modify. apply route_unicast_keep; [by apply (fresh_packet dst _ id)|].
    apply field_set; [done|]. unfold bounded, push. rewrite zlen_app, zlen_cons, zlen_nil. pose proof (zlen_retain_le (fun e => negb (bool_decide (e.1 = dst))) (n_pending_traces n')). lia. }
  apply wpe_bind. unfold base_header, new_packet_id. apply wpe_bind, wpe_try_call. unfold wpe at 1.
  pose proof (draw_id_live (n_rng n)) as Hlv. destruct (draw_id ID_DRAWS (n_rng n)) as [r [a|e|]]; [| |done]; [|by apply field_set].
  unfold address. do 2 apply wpe_bind, wpe_gets. simpl. keep_cfg. apply wpe_bind, wpe_lift; [|intros ttl _|by apply field_set].
  { unfold clamp. destruct Hcfg as (_ & Ht & _). by rewrite decide_True. }
  apply wpe_ret, Hp; [by apply field_set|done|]. destruct (c_network_key c); split; auto.
Qed.

(** ** Routes and retries *)

Lemma insert_route_keep e now : holds ok (call n_routes upd_routes (RouteCache.insert e now)) any.
Proof. run. by apply (rop_fld _ (RoutingFacts.Insert e now)). Qed.
Lemma mark_failure_keep dst hop : holds ok (call n_routes upd_routes (RouteCache.mark_failure dst hop)) any.
Proof. run. by apply (rop_fld _ (RoutingFacts.Failure dst hop)). Qed.
Hint Resolve insert_route_keep mark_failure_keep : keep.
Lemma learn_route_keep dst nh hops cost src via now : holds ok (learn_route dst nh hops cost src via now) any.
Proof. unfold learn_route. run. Qed.
Lemma link_cost_to_keep a : holds ok (link_cost_to a) any.
Proof. unfold link_cost_to. run. Qed.
Hint Resolve learn_route_keep link_cost_to_keep : keep.

Lemma record_failure_keep a : holds ok (call n_neighbors upd_neighbors (NeighborTable.record_failure a)) any.
Proof.
  run. match goal with H : neighbors_inv _ ?x |- _ => destruct H as [Ht Hc];
    destruct (NeighborFacts.run_nop_ok (NeighborFacts.Failure a) x Ht) as (t' & [= <-] & ? & ?) end. split; [done|congruence].
Qed.
Lemma delivered_keep id :
  holds ok (call n_transport upd_transport (Transport.on_envelope_delivered id)) (fun o => forall x, o = Some x -> TransportInv.out_ok x).
Proof. apply holds_call. intros t Ht. by apply TransportInv.delivered_inv. Qed.
Lemma fail_all_keep dst :
  holds ok (call n_transport upd_transport (Transport.fail_all_to dst)) (Forall TransportInv.out_ok).
Proof. apply holds_call. intros t Ht. by apply (TransportInv.fail_all_inv (R := R)). Qed.
Lemma take_handshake_keep peer :
  holds ok (call n_handshakes upd_handshakes (fun m => SmallMap.remove m peer)) (fun o => forall h, o = Some h -> handshake_entry (peer, h)).
Proof. apply holds_call. intros m Hm. by apply map_ok_take. Qed.
Hint Resolve record_failure_keep delivered_keep fail_all_keep take_handshake_keep : keep.

Lemma safe_parse_envelope_frame b :
  safe (parse_envelope_frame b) /\ forall id env, parse_envelope_frame b = Ok (id, env) -> zlen env <= zlen b.
Proof.
  pose proof (zlen_nonneg b). unfold parse_envelope_frame, ENVELOPE_OVERHEAD. split; [safe_tac|]. intros id env He. case_decide; [done|]. inv_ok He.
  match goal with H : slice_from _ _ = Ok _ |- _ => unfold slice_from in H; apply slice_zlen in H end. simplify_eq. lia.
Qed.
Lemma parse_envelope_keep b :
  small b -> holds ok (attempt (lift (parse_envelope_frame b)) : M _) (fun r => forall id env, r = inr (id, env) -> small env).
Proof.
  intros Hb. destruct (safe_parse_envelope_frame b) as [Hs He].
  eapply holds_attempt with (P := fun r => small r.2); [apply holds_lift; [done|]|done|by intros [id env] ? ? ? [= <- <-]].
  intros [id env] Hr. by eapply small_le, Hb; eapply He.
Qed.

Lemma fail_parked_keep target anchor now p : IerpInv.parked (good) target p -> holds ok (fail_parked target anchor now p) any.
Proof.
  intros [(Hp & He & _) <-]. unfold fail_parked. fold (is_envelope p). destruct (is_envelope p); [|run].
  eapply holds_bind; [by apply parse_envelope_keep|]. intros [e|[id env]] Hr; [run|]. specialize (Hr id env eq_refl). specialize (He eq_refl). run.
Qed.

Lemma on_discovery_failed_keep target queued now :
  Forall (IerpInv.parked (good) target) queued -> holds ok (on_discovery_failed target queued now) any.
Proof.
  intros Hq. unfold on_discovery_failed. run; [|intros l; apply envelopes_retain].
  eapply holds_for_each; [exact Hq| |done]. intros p. apply fail_parked_keep.
Qed.

Lemma retry_outstanding_keep o now : TransportInv.out_ok o -> holds ok (retry_outstanding o now) any.
Proof.
  intros [Hb Hs]. unfold retry_outstanding. run.
  all: try (apply send_or_queue_keep; split; [done|]; simpl; congruence). destruct Hs; [done|]. run.
Qed.

End Safe.

#[export] Hint Resolve count_keep address_keep rand_u32_keep rand_u64_keep emit_keep new_packet_id_keep
  new_handle_keep congestion_keep next_event_keep add_known_identity_keep has_session_keep my_role_keep airtime_keep
  hop_timeout_keep next_seq_keep enqueue_packet_keep tx_attempt_keep tx_confirmed_keep track_hop_keep
  hop_confirmed_keep base_header_keep send_route_request_keep may_start_keep discover_keep queue_keep
  route_unicast_keep send_route_reply_keep send_route_error_keep schedule_beacon_keep send_beacon_keep
  send_handshake_keep insert_handshake_keep push_queued_keep start_handshake_keep send_session_keep add_acks_keep
  send_ack_keep send_control_keep send_fetch_keep send_link_ack_keep send_envelope_keep flush_keep send_store_keep
  route_unicast_envelope_keep accepted_keep deliver_locally_keep deliver_envelope_keep failed_event_keep track_keep
  seal_and_send_keep queue_envelope_keep try_pending_keep send_data_keep send_or_queue_keep send_broadcast_keep
  send_message_keep trace_keep insert_route_keep mark_failure_keep learn_route_keep link_cost_to_keep
  record_failure_keep delivered_keep fail_all_keep take_handshake_keep parse_envelope_keep fail_parked_keep
  on_discovery_failed_keep retry_outstanding_keep : keep.
#[export] Hint Resolve carried_next_hop carried_relay good_carried : keep.
#[export] Hint Extern 2 (carried _ _ _ _) =>
  apply own_carried; simpl; match goal with H : fresh_header _ _ _ |- _ => apply H end : keep.
