(* ===== verification/NodeRxSafe.v ===== *)
(** * The engine never panics: sessions and receive path

    Every method of [NodeRx] keeps [node_ok] and does not panic, for every
    packet the decoder lets through. *)
From stdpp Require Import base tactics list numbers.
From Stdlib Require Import Lia.
From S2P Require Import Prelude SmallMap Float32 Protocol Packet Fragmentation CryptoLib Identity Noise Replay Session Transport StoreForward Storm Routing Messages Ierp Power Beacon Radio Neighbor Zone Methods NodeState Calculus NodeTx NodeRx Node EngineInv NodeInv NodeSafe.
From stdpp Require Import list.
#[local] Open Scope Z_scope.

(** ** Sizes of decoded messages *)

Lemma addr_from_bytes_short b a : addr_from_bytes b = Ok a -> short a.
Proof.
  unfold addr_from_bytes, short. case_decide; [done|]. intros Ha. inv_ok Ha. simplify_eq.
  match goal with H : slice _ _ _ = Ok _ |- _ => apply slice_zlen in H end. simpl. unfold ADDRESS_LEN in *. lia.
Qed.

Lemma read_target_short b off a : read_target b off = Ok a -> short a.
Proof.
  unfold read_target. intros Ha. apply bind_ok in Ha as (s & _ & Ha). apply bind_ok in Ha as (a' & H1 & Ha).
  destruct (_ || _); [done|]. injection Ha as <-. by eapply addr_from_bytes_short.
Qed.
Lemma rreq_sizes b q : messages.rreq_decode b = Ok q -> short (messages.rq_target q) /\ zlen (messages.rq_handshake q) <= zlen b.
Proof.
  unfold messages.rreq_decode, messages.RREQ_LEN. case_decide; [done|]. intros Hq.
  apply bind_ok in Hq as (t & Ht & Hq). apply bind_ok in Hq as (fl & _ & Hq). apply bind_ok in Hq as (h & Hh & Hq). inv_ok Hq. simplify_eq. simpl.
  split; [by eapply read_target_short|]. pose proof (zlen_nonneg b). destruct (has_flag _ _); case_decide; [done| |done|by injection Hh as <-].
  unfold slice_from in Hh. apply slice_zlen in Hh. lia.
Qed.
Lemma rrep_sizes b r : messages.rrep_decode b = Ok r -> zlen b <= 2048 -> reply_small r.
Proof.
  unfold messages.rrep_decode, messages.RREP_MIN_LEN. case_decide; [done|]. intros Hr Hb. pose proof (zlen_nonneg b).
  apply bind_ok in Hr as (t & Ht & Hr). do 4 apply bind_ok in Hr as (? & _ & Hr). apply bind_ok in Hr as ([pos key] & Hk & Hr).
  apply bind_ok in Hr as (h & Hh & Hr). injection Hr as <-. unfold reply_small. simpl. split; [by eapply read_target_short|].
  assert (0 <= pos /\ zlen (default [] key) <= 64) as [Hpos Hkey].
  { clear Hh. destruct (has_flag _ _) in Hk; [case_decide; [done|]; apply bind_ok in Hk as (k & Hk' & [= <- <-]); apply slice_zlen in Hk'; simpl; lia|].
    injection Hk as <- <-. by split. }
  split; [done|]. clear Hk. destruct (has_flag _ _) in Hh; case_decide; [done| |done|injection Hh as <-; done].
  unfold slice_from in Hh. apply slice_zlen in Hh. lia.
Qed.
(** The handshake a route request or reply carries is its tail. *)
Lemma slice_from_suffix (b : list Z) k x : (slice_from b k : Result _) = Ok x -> x `suffix_of` b.
Proof.
  unfold slice_from, slice. case_decide; [|done]. intros [= <-]. rewrite take_ge by (rewrite length_drop; unfold zlen; lia). apply suffix_drop.
Qed.
Lemma rreq_suffix b q : messages.rreq_decode b = Ok q -> messages.rq_handshake q `suffix_of` b.
Proof.
  unfold messages.rreq_decode. case_decide; [done|]. intros Hq.
  apply bind_ok in Hq as (t & _ & Hq). apply bind_ok in Hq as (fl & _ & Hq). apply bind_ok in Hq as (h & Hh & Hq). inv_ok Hq. simplify_eq. simpl.
  destruct (has_flag _ _); case_decide; [done|by eapply slice_from_suffix|done|injection Hh as <-; apply suffix_nil].
Qed.
Lemma rrep_suffix b r : messages.rrep_decode b = Ok r -> messages.rp_handshake r `suffix_of` b.
Proof.
  unfold messages.rrep_decode. case_decide; [done|]. intros Hr. do 5 apply bind_ok in Hr as (? & _ & Hr). apply bind_ok in Hr as ([pos key] & _ & Hr).
  apply bind_ok in Hr as (h & Hh & Hr). injection Hr as <-. simpl.
  destruct (has_flag _ _) in Hh; case_decide; [done|by eapply slice_from_suffix|done|injection Hh as <-; apply suffix_nil].
Qed.
Lemma store_sizes b r : store_decode b = Ok r -> short (sr_dst r) /\ zlen (sr_envelope r) <= zlen b.
Proof.
  unfold store_decode, STORE_HEADER_LEN. case_decide; [done|]. intros Hr. apply bind_ok in Hr as (s & _ & Hr).
  apply bind_ok in Hr as (d & Hd & Hr). destruct (_ || _); [done|]. apply bind_ok in Hr as (? & _ & Hr). apply bind_ok in Hr as (? & _ & Hr).
  case_decide; [done|]. apply bind_ok in Hr as (e & He & Hr). injection Hr as <-. simpl. split; [by eapply addr_from_bytes_short|].
  unfold slice_from in He. apply slice_zlen in He. lia.
Qed.
Lemma safe_ack_decode b : safe (ack_decode b).
Proof. unfold ack_decode. safe_tac. Qed.

Section Safe.
Context `{C : CryptoLib, !CryptoLibLaws C} {R : Type} `{G : RngCore R, !RngCoreLaws R, !RngLive R}.
Context (c : NodeConfig) (i : Identity) (heard : Packet -> Prop) (Hcfg : config_ok c) (Hid : identity_ok i).
Notation M := (St (Node R) Error).
Notation ok := (node_ok (R := R) c i heard).
Notation me := (id_address i).
Notation heard_bytes := (heard_bytes heard).
Notation hs_valid := (hs_valid (R := R) i heard).
Notation hs_sound := (hs_sound (R := R) i heard).
Notation own_session := (own_session (R := R) i heard).
Notation handshake_entry := (handshake_entry (R := R) i heard).
Notation session_entry := (session_entry (R := R) i heard).
Notation from_session := (from_session (R := R) i heard).
Notation from_envelope := (from_envelope i heard).
Implicit Types (n : Node R) (p : Packet).

(** ** Sessions *)

Lemma install_session_keep peer epoch keys remote now :
  key_entry (peer, remote) -> own_session peer (session_new remote epoch keys now) ->
  holds ok (install_session peer epoch keys remote now) any.
Proof.
  intros [Hk Hp] Ho. unfold install_session. run.
  - intros m Hm. by apply map_ok_insert.
  - intros m Hm. by apply map_ok_insert.
Qed.

Lemma drain_one_keep peer now q : queued_ok q -> holds ok (drain_one peer now q) any.
Proof. intros [Hs Hr]. unfold drain_one. run; [by apply send_session_keep|done|by apply send_data_keep]. Qed.
Lemma drain_queued_keep peer l now : Forall queued_ok l -> holds ok (drain_queued peer l now) any.
Proof. intros Hl. eapply holds_for_each; [exact Hl| |done]. intros q. apply drain_one_keep. Qed.
Hint Resolve install_session_keep drain_queued_keep : keep.

Lemma responder_repeat_tiny peer re n m2 : ok n -> responder_repeat peer re n = Some (Some m2) -> tiny m2.
Proof.
  intros Hn. unfold responder_repeat. destruct (SmallMap.get _ _) as [h|] eqn:E; [|done]. repeat case_decide; [done..| |done].
  intros [= <-]. by destruct (map_ok_get _ _ _ _ (ok_handshakes _ _ _ _ Hn) E) as (_ & _ & _ & ?).
Qed.
Lemma taken_queue peer o :
  (forall h, o = Some h -> handshake_entry (peer, h)) -> Forall queued_ok (match o with Some h => ph_queued h | None => [] end).
Proof. destruct o as [h|]; [|constructor]. intros Hh. by destruct (Hh h eq_refl) as (_ & ? & _). Qed.

Lemma responder_start_keep peer msg now :
  heard_bytes msg ->
  holds ok (responder_start peer msg now) (fun o => forall m2, o = Some m2 -> tiny m2).
Proof.
  intros Hmsg. unfold responder_start. eapply holds_bind; [by apply address_keep|]. intros a ->. destruct (decide _) as [|Hlen]; [by apply holds_ret|].
  apply (holds_bind _ _ _ any); [apply holds_lift; [|done]|intros re _].
  { apply safe_slice. lia. }
  apply holds_bind_gets. intros n Hn. destruct (responder_repeat peer re n) as [[m2|]|] eqn:Er.
  { apply holds_ret. intros ? [= <-]. by eapply responder_repeat_tiny. }
  { by apply holds_ret. }
  eapply holds_bind; [by apply take_handshake_keep|]. intros old Hold. pose proof (taken_queue _ _ Hold) as Hq. revert Hq.
  generalize (match old with Some h => ph_queued h | None => [] end). intros queued Hq. cbv zeta. clear old Hold.
  eapply holds_bind; [by apply (new_handshake_keep c i heard Hid _ _ _ peer)|]. intros hs Hhs.
  eapply holds_bind; [apply (run_hs_keep c i heard (R1 msg) any peer); [by apply sound_r1|done]|]. intros [hs1 r] [Hh1 _]. simpl in Hh1.
  destruct r as [e|m1]; [run; done|]. eapply holds_bind; [by apply my_role_keep|]. intros role _.
  match goal with |- holds _ (run_hs (write_message_2 ?pl) _ ≫= _) _ =>
    eapply holds_bind; [apply (run_hs_keep c i heard (W2 pl) tiny peer); [by apply sound_w2|done]|] end.
  intros [hs2 r] [Hh2 Hr]. simpl in *. destruct r as [e|m2]; [by apply holds_ret|]. specialize (Hr m2 eq_refl).
  eapply holds_bind; [apply insert_handshake_keep|intros _ _; apply holds_ret; by intros ? [= <-]].
  split; [done|]. split; [done|]. split; done.
Qed.

(** A call on a handshake in flight: it stays in flight, valid, with its queue. *)
Definition in_flight peer (P : PendingHandshake -> Prop) n : Prop :=
  ok n /\ exists h, SmallMap.get (n_handshakes n) peer = Some h /\ P h.

Lemma in_flight_any peer P n : in_flight peer P n -> ok n.
Proof. by intros []. Qed.

Lemma hs_call_in_wpe peer hc (Q : list Z -> Prop) (P P' : PendingHandshake -> Prop) n :
  in_flight peer P n -> hs_sound hc Q -> (forall h, P h -> P' (ph_set_hs (run_call hc (ph_hs h)).1 h)) ->
  wpe (hs_call_in peer (run_call hc)) (fun n' r => in_flight peer P' n' /\ forall a, r = inr a -> Q a) ok n.
Proof.
  intros [Hn (h & Hg & Hp)] Hs HP. pose proof (ok_handshakes _ _ _ _ Hn) as Hm. pose proof (map_ok_get _ _ _ _ Hm Hg) as (H1 & H2 & H3).
  simpl in H1. specialize (Hs _ _ H1). specialize (HP h Hp). unfold wpe, hs_call_in in *. rewrite Hg.
  assert (Hin : forall hs', hs_valid peer hs' -> P' (ph_set_hs hs' h) -> in_flight peer P' (upd_handshakes (fun l => SmallMap.update l peer (ph_set_hs hs')) n)).
  { intros hs' Hh' HP'. split; [apply field_set; [done|]; apply map_ok_update; [done|intros v (_ & ? & ?); by split]|]. exists (ph_set_hs hs' h). split; [|done].
    simpl. rewrite SmallMapFacts.get_update, kcmp_refl, Hg by apply Hm. done. }
  destruct (run_call hc (ph_hs h)) as [hs' [a|e|]]; [|split; [by apply Hin|done]|done]. destruct Hs. split; [by apply Hin|]. by intros ? [= <-].
Qed.

(** The handshake is taken out and its keys derived. *)
Lemma finish_wpe {A} peer P (k : PendingHandshake -> Error + (TransportKeys * PublicIdentity) -> M A) n :
  in_flight peer P n ->
  (forall h f, P h -> handshake_entry (peer, h) -> (forall keys remote, f = inr (keys, remote) -> finish (ph_hs h) = Ok (keys, remote)) ->
     holds ok (k h f) any) ->
  wpe (h ← take_handshake peer; h ← lift (unwrap h); f ← attempt (lift (finish (ph_hs h))); k h f)
    (fun n' a => ok n' /\ any a) ok n.
Proof.
  intros [Hn (h & Hg & Hp)] Hk. pose proof (ok_handshakes _ _ _ _ Hn) as Hm. unfold take_handshake. apply wpe_bind, wpe_call.
  rewrite SmallMapFacts.remove_old, Hg by apply Hm. apply wpe_bind, wpe_lift; [done| |].
  - intros ? [= <-]. pose proof (map_ok_get _ _ _ _ Hm Hg) as He. set (n' := upd_handshakes _ n). assert (Hn' : ok n') by (apply field_set; [done|]; by apply map_ok_remove).
    clearbody n'. apply wpe_bind, wpe_attempt, wpe_lift; [apply finish_safe| |].
    + intros [keys remote] Hf. apply Hk; [done..| |done]. by intros ? ? [= <- <-].
    + intros e. by apply Hk.
  - apply field_set; [done|]. by apply map_ok_remove.
Qed.

Lemma remote_key peer h keys remote :
  handshake_entry (peer, h) -> (pi_address <$> hs_remote (ph_hs h)) = Some peer -> finish (ph_hs h) = Ok (keys, remote) ->
  key_entry (peer, remote).
Proof.
  intros ([H1 _] & _) Hr Hf%finish_remote. rewrite Hf in Hr. injection Hr as Hr. split; [done|]. destruct H1 as [_ (_ & _ & _ & H1)]. by apply H1.
Qed.
Lemma finished_session peer h keys remote epoch now :
  handshake_entry (peer, h) -> finish (ph_hs h) = Ok (keys, remote) -> own_session peer (session_new remote epoch keys now).
Proof. intros ([_ Ho] & _) Hf. by exists (ph_hs h), keys. Qed.

Lemma take_hs_keep peer : holds ok (take_handshake peer) (fun o => forall h, o = Some h -> handshake_entry (peer, h)).
Proof. by apply take_handshake_keep. Qed.
Hint Resolve take_hs_keep : keep.

Lemma initiator_continue_keep peer msg now : heard_bytes msg -> holds ok (initiator_continue peer msg now) any.
Proof.
  intros Hmsg n Hn. unfold initiator_continue. apply wpe_bind, wpe_gets. destruct (SmallMap.get _ _) as [h|] eqn:Hg; [|by apply wpe_ret].
  destruct (decide _); [by apply wpe_ret|]. apply wpe_bind.
  eapply wpe_mono; [apply (hs_call_in_wpe peer (R2 msg) any any any); [by split; [|exists h]|by apply sound_r2|done]| |done].
  clear n Hn h Hg n0. intros n r [Hin _]. destruct r as [e|out]; [by apply (wpe_holds ok _ any); [run|apply Hin|..]|].
  unfold remote_address. apply wpe_bind, wpe_gets. destruct Hin as [Hn (h & Hg & _)]. rewrite Hg. cbn [mbind option_bind].
  destruct (decide _) as [_|Hrem].
  { apply (wpe_holds ok _ any); [run|done..]. }
  apply dec_stable in Hrem. unfold my_role. apply wpe_bind, wpe_gets, wpe_bind.
  set (Pr := fun h : PendingHandshake => pi_address <$> hs_remote (ph_hs h) = Some peer).
  match goal with |- wpe (hs_call_in _ (write_message_3 ?pl)) _ _ _ =>
    eapply wpe_mono; [apply (hs_call_in_wpe peer (W3 pl) tiny Pr Pr); [by split; [|exists h]|by apply sound_w3|]| |done] end.
  { intros h' Hh'. unfold Pr in *. cbn [run_call ph_set_hs ph_hs]. by rewrite write_3_remote. }
  clear n Hn h Hg Hrem. intros n r [Hin Hr]. destruct r as [e|m3]; [by apply wpe_ret; split; [apply Hin|]|]. specialize (Hr m3 eq_refl).
  apply (finish_wpe peer Pr); [done|]. intros h f Hp He Hf. destruct f as [e|[keys remote]]; [run|].
  pose proof (remote_key peer h keys remote He Hp (Hf _ _ eq_refl)) as Hk.
  pose proof (finished_session peer h keys remote (ph_epoch h) now He (Hf _ _ eq_refl)) as Hown. destruct He as (_ & Hq & _). run.
  intros m Hm. apply map_ok_update; [done|]. intros sn (H1 & H2 & H3 & H4). split; [done|]. split; [done|]. split; [done|]. simpl. by intros ? [= <-].
Qed.

Lemma responder_finish_keep peer msg now : heard_bytes msg -> holds ok (responder_finish peer msg now) any.
Proof.
  intros Hmsg n Hn. unfold responder_finish. apply wpe_bind, wpe_gets. destruct (SmallMap.get _ _) as [h|] eqn:Hg; [|by apply wpe_ret].
  destruct (decide _); [by apply wpe_ret|]. apply wpe_bind.
  eapply wpe_mono; [apply (hs_call_in_wpe peer (R3 msg) any any any); [by split; [|exists h]|by apply sound_r3|done]| |done].
  clear n Hn h Hg n0. intros n r [Hin _]. destruct r as [e|out]; [by apply count_keep, Hin|].
  unfold remote_address. apply wpe_bind, wpe_gets. destruct Hin as [Hn (h & Hg & _)]. rewrite Hg. cbn [mbind option_bind].
  destruct (decide _) as [_|Hrem].
  { apply (wpe_holds ok _ any); [run|done..]. }
  apply dec_stable in Hrem. set (Pr := fun h : PendingHandshake => pi_address <$> hs_remote (ph_hs h) = Some peer).
  apply (finish_wpe peer Pr); [by split; [|exists h]|]. clear h Hg Hrem n Hn. intros h f Hp He Hf. destruct f as [e|[keys remote]]; [run|].
  pose proof (remote_key peer h keys remote He Hp (Hf _ _ eq_refl)) as Hk.
  pose proof (finished_session peer h keys remote (ph_epoch h) now He (Hf _ _ eq_refl)) as Hown. destruct He as (_ & Hq & _). run.
Qed.
Hint Resolve responder_start_keep initiator_continue_keep responder_finish_keep : keep.

Lemma handle_handshake_keep p now : heard p -> holds ok (handle_handshake p now) any.
Proof.
  intros Hh. assert (Hm : forall no msg, p_payload p = no :: msg -> heard_bytes msg) by (intros no msg E; exists p; split; [done|exists [no]; exact E]).
  unfold handle_handshake. destruct (p_payload p) as [|no msg] eqn:Ep; [run|]. specialize (Hm no msg eq_refl). destruct (hsmsg_from_u8 no) as [[]|]; [|run..].
  eapply holds_bind; [by apply responder_start_keep|]. intros [m2|] Hm2; [|run]. by apply send_handshake_keep, Hm2.
Qed.

Lemma remove_session_keep peer : holds ok (modify (upd_sessions (map_remove peer)) : M unit) any.
Proof. run. intros m Hm. by apply map_ok_remove. Qed.
Lemma reset_peer_keep peer : holds ok (modify (upd_transport (Transport.reset_peer peer)) : M unit) any.
Proof. run. intros t. by apply (TransportInv.reset_inv (R := R)). Qed.
Hint Resolve remove_session_keep reset_peer_keep : keep.

Lemma on_no_session_notice_keep peer now : holds ok (on_no_session_notice peer now) any.
Proof.
  unfold on_no_session_notice. apply holds_bind_gets. intros n Hn. destruct (SmallMap.get _ _) as [sn|] eqn:Hg; [|run].
  pose proof (map_ok_get _ _ _ _ (ok_sessions _ _ _ _ Hn) Hg) as (_ & _ & _ & Hm3). simpl in Hm3. run.
  - intros m Hm. apply map_ok_update; [done|]. done.
  - apply send_handshake_keep; [done..|]. apply Hm3. by destruct (_ && _).
  - eapply holds_for_each; [eassumption| |done]. intros o [Ho _]. run. by apply send_or_queue_keep.
Qed.
Lemma close_session_keep peer : holds ok (close_session peer) any.
Proof. unfold close_session. run. by apply send_control_keep. Qed.

Hint Resolve handle_handshake_keep on_no_session_notice_keep close_session_keep : keep.

(** ** Beacons *)


Lemma observe_beacon_keep src b meta now : holds ok (observe_beacon src b meta now) any.
Proof.
  unfold observe_beacon. eapply holds_bind; [by apply address_keep|]. intros a _. intros n Hn. apply wpe_bind, wpe_gets.
  pose proof (ok_neighbors _ _ _ _ Hn) as Ht. destruct (nop_fld _ (NeighborFacts.ObserveBeacon now src b meta (Some a)) _ Ht) as (t' & Hr & H1).
  simpl in Hr. destruct (NeighborTable.observe_beacon_as now src b meta (Some a) (n_neighbors n)) as [[t1 obs]| |]; [|done..].
  injection Hr as ->. apply wpe_bind, wpe_lift; [done| |done]. intros ? [= <-]. apply wpe_bind, wpe_modify, wpe_ret.
  split; [by apply field_set|done].
Qed.
Hint Resolve observe_beacon_keep : keep.

Lemma serve_leaf_keep src now : holds ok (serve_leaf src now) any.
Proof.
  unfold serve_leaf. do 2 keep_step. apply holds_bind_gets. intros n Hn. run.
  - intros l [Hl Hf]. split; [by apply bounded_retain|by apply Forall_retain].
  - pose proof (ok_held _ _ _ _ Hn) as [_ Hf]. eapply holds_for_each with (P := carried c i heard); [|intros hp Hp; run|done]. by apply Forall_fmap, Forall_retain.
Qed.
Lemma choose_host_keep now : holds ok (choose_host now) any.
Proof. unfold choose_host. run. Qed.
Hint Resolve serve_leaf_keep choose_host_keep : keep.

Lemma neighbor_key a n id : ok n -> (nb ← neighbor a n; nb_identity nb) = Some id -> key_entry (a, id).
Proof.
  intros Hn. unfold neighbor, NeighborTable.get. pose proof (ok_neighbors _ _ _ _ Hn) as [(Hwf & Hall & _) _].
  destruct (SmallMap.get _ _) as [nb|] eqn:E; [|done]. intros Hi. apply SmallMapFacts.get_Some in E; [|done].
  apply (Forall_elem _ _ _ Hall E). exact Hi.
Qed.

Lemma insert_key_keep a id : key_entry (a, id) -> holds ok (modify (upd_key_dir (map_insert a id)) : M unit) any.
Proof. intros Hk. run. intros m Hm. by apply map_ok_insert. Qed.


Lemma handle_beacon_keep p meta now :
  bytes_ok (p_payload p) -> h_src (p_header p) <> me -> holds ok (handle_beacon p meta now) any.
Proof.
  intros Hb Hsrc. pose proof (BeaconFacts.decode_wf (p_payload p) Hb) as [Hsafe Hok]. unfold handle_beacon.
  apply holds_bind with (P := fun r => forall b, r = inr b -> BeaconFacts.beacon_ok b).
  { eapply holds_attempt with (P := BeaconFacts.beacon_ok); [by apply holds_lift|done|]. by intros b Hbk ? [= <-]. }
  intros [e|b] Hbk; [run|]. destruct (Hbk b eq_refl) as (_ & _ & _ & _ & Hz & _). run.
  - intros m Hm. apply map_ok_insert; [done|]. eapply neighbor_key; [eassumption|]. by destruct (identity_verified _).
  - intros t Ht. match goal with H : (fun a => a = me) _ |- _ => simpl in H; rewrite H end. apply (zop_fld _ _ (ZoneFacts.Update _ _ _ _ _)); [apply Hcfg|done..].
Qed.

(** ** Relaying *)

Lemma roll_keep k : holds ok (roll k) any.
Proof. unfold roll. run. Qed.
Hint Resolve roll_keep : keep.
Lemma forward_delay_keep meta : holds ok (forward_delay meta) any.
Proof. unfold forward_delay. run. Qed.
Lemma covered_keep prev : holds ok (covered prev) any.
Proof. unfold covered. run. Qed.
Lemma density_roll_keep : holds ok density_roll any.
Proof. unfold density_roll. run. Qed.
Hint Resolve forward_delay_keep covered_keep density_roll_keep : keep.

Lemma heard_keep key : holds ok (call n_sched upd_sched (RebroadcastScheduler.heard key)) any.
Proof.
  run. by apply sched_heard_fld.
Qed.
Lemma schedule_relay_keep p meta now : carried c i heard p -> holds ok (schedule_relay p meta now) any.
Proof. intros Hp. unfold schedule_relay. run. by apply schedule_fld. Qed.
Hint Resolve heard_keep schedule_relay_keep : keep.
Lemma relay_flood_keep p prev meta now : relayed heard p -> holds ok (maybe_relay_flood p prev meta now) any.
Proof.
  intros Hp. unfold maybe_relay_flood. apply holds_bind_gets. intros n Hn. keep_cfg.
  destruct (negb (role_relays (c_role c)) || _) eqn:E; [run|]. apply orb_false_iff in E as [Hr Ht]. apply negb_false_iff in Hr. apply bool_decide_eq_false in Ht.
  run. apply schedule_relay_keep. right. split; [done|]. eapply relayed_same, Hp. apply same_hop; [lia|]. by repeat split.
Qed.
Hint Resolve relay_flood_keep : keep.

(** A packet in transit. *)
Definition transit p : Prop := small (p_payload p) /\ short (h_dst (p_header p)) /\ relayed heard p.
Lemma transit_packet p : role_relays (c_role c) = true -> transit p -> good c i heard p.
Proof. intros Hr (H1 & H2 & H3). split; [done|]. split; [done|]. by right. Qed.

Lemma store_in_transit_keep p now : transit p -> holds ok (store_in_transit p now) any.
Proof.
  intros (Hp & Hd & _). unfold store_in_transit. destruct (_ && _); [|run]. eapply holds_bind; [by apply parse_envelope_keep|].
  intros [e|[id env]] Hr; [run|]. specialize (Hr id env eq_refl). run. by eapply holds_any, store_keep.
Qed.
Hint Resolve store_in_transit_keep : keep.

Lemma hold_for_leaf_keep p now : role_relays (c_role c) = true -> transit p -> holds ok (hold_for_leaf p now) any.
Proof.
  intros Hr Hp. unfold hold_for_leaf. apply holds_bind_gets. intros n0 _. destruct (neighbor _ _) as [nb|]; [|run]. destruct (_ && _); [|run].
  eapply holds_bind; [by apply store_in_transit_keep|]. intros [] _; [run|]. intros n Hn. apply wpe_bind, wpe_gets. apply wpe_bind.
  case_bool_decide as Hl; [|by apply wpe_ret, wpe_ret]. apply wpe_modify, wpe_ret. split; [|done]. apply field_set; [done|].
  pose proof (ok_held _ _ _ _ Hn) as [_ Hf]. split; [unfold bounded; rewrite zlen_app, zlen_cons, zlen_nil; lia|].
  apply Forall_app_2; [done|]. apply Forall_cons_2; [|constructor]. by apply good_carried, transit_packet.
Qed.
Lemma mark_route_failure_keep dst nh : holds ok (mark_route_failure dst nh) any.
Proof. by apply mark_failure_keep. Qed.
Hint Resolve hold_for_leaf_keep mark_route_failure_keep : keep.

Lemma touch_keep dst nh now : holds ok (modify (upd_routes (RouteCache.touch dst nh now)) : M unit) any.
Proof. run. intros r. apply (rop_fld _ (RoutingFacts.Touch dst nh now)). Qed.
Hint Resolve touch_keep : keep.
Lemma forward_to_keep nh p prev now :
  role_relays (c_role c) = true -> h_ttl (p_header p) > 1 -> transit p -> holds ok (forward_to nh p prev now) any.
Proof.
  intros Hr Ht (Hp & Hd & Hc). unfold forward_to. eapply holds_bind; [by apply address_keep|]. intros a ->. destruct (decide _); [run|].
  set (p' := trace_stamp _ _). assert (carried c i heard p').
  { right. split; [done|]. apply relayed_stamp. eapply relayed_same, Hc. apply same_hop; [lia|]. by repeat split. }
  clearbody p'. run.
Qed.

Lemma repair_route_keep p now : role_relays (c_role c) = true -> transit p -> holds ok (repair_route p now) any.
Proof.
  intros Hr Hp. pose proof (transit_packet p Hr Hp) as Hs. destruct Hp as (_ & Hd & _). unfold repair_route. eapply holds_bind; [by apply count_keep|]. intros _ _.
  apply holds_bind_gets. intros n0 _. destruct (Ierp.is_pending _ _); [run|]. intros n Hn. unfold may_start. apply wpe_bind, wpe_gets.
  destruct (Ierp.may_start _ _ _) eqn:Hm; [by apply park_wpe|]. by apply send_route_error_keep.
Qed.
Hint Resolve forward_to_keep repair_route_keep : keep.
Lemma forward_unicast_keep p prev meta now : transit p -> holds ok (forward_unicast p prev meta now) any.
Proof.
  intros Hp. pose proof Hp as (_ & _ & Hc). unfold forward_unicast. apply holds_bind_gets. intros n Hn. keep_cfg.
  destruct (role_relays (c_role c)) eqn:Hr; simpl; [|run]. run. apply forward_to_keep; [done|lia|done].
Qed.
Hint Resolve forward_unicast_keep : keep.

(** ** Route control *)

Lemma identity_key : zlen (public_key_bytes (id_public i)) <= 64 /\ short me.
Proof.
  split; [by rewrite zlen_key|]. pose proof (identity_ok_inv i Hid) as [Hp _]. apply address_short. unfold id_address. rewrite Hp. simpl.
  unfold from_public_key, address_ok. simpl. split; [rewrite length_take, sha256_len; done|apply Forall_take, sha256_bytes].
Qed.

Lemma answer_as_target_keep q origin req want now :
  heard_bytes (messages.rq_handshake q) -> holds ok (answer_as_target q origin req want now) any.
Proof.
  intros Hq. unfold answer_as_target. eapply holds_bind; [by apply address_keep|]. intros a ->. eapply holds_bind; [by apply my_role_keep|]. intros role _.
  eapply holds_bind; [by apply has_session_keep|]. intros sn _. apply holds_bind with (P := tiny).
  { destruct (_ && _); [|by apply holds_ret]. eapply holds_bind; [by apply responder_start_keep|]. intros [m2|] Hm; apply holds_ret; [by apply Hm|done]. }
  intros hs Hhs. apply holds_bind_gets. intros n Hn. keep_cfg. destruct identity_key as [H1 H2]. apply send_route_reply_keep; [done..|].
  split; [done|]. simpl. split; [|unfold tiny in Hhs; lia]. by destruct (_ && _).
Qed.

Definition key_size (k : option (list Z)) : Prop := zlen (default [] k) <= 64.
Lemma key_if_size w k : key_size k -> key_size (key_if w k).
Proof. by destruct w. Qed.

Lemma proxy_keep q origin req want k now :
  short (messages.rq_target q) -> key_size k -> holds ok (proxy_for_neighbor q origin req want k now) any.
Proof.
  intros Ht Hk. unfold proxy_for_neighbor. run. apply send_route_reply_keep; [done..|]. split; [done|]. by split; [apply (key_if_size want)|].
Qed.
Lemma answer_zone_keep q origin req want k now :
  short (messages.rq_target q) -> key_size k -> holds ok (answer_from_zone q origin req want k now) any.
Proof.
  intros Ht Hk. unfold answer_from_zone. do 2 keep_step. destruct (ZoneTable.get _ _); [|run]. cbn beta. run. apply send_route_reply_keep; [done..|]. split; [done|]. by split; [apply (key_if_size want)|].
Qed.
Lemma answer_cache_keep q origin req want k now :
  short (messages.rq_target q) -> key_size k -> holds ok (answer_from_cache q origin req want k now) any.
Proof.
  intros Ht Hk. unfold answer_from_cache. run. apply send_route_reply_keep; [done..|]. split; [done|]. by split; [apply (key_if_size want)|].
Qed.
Lemma relay_request_keep p q cost prev meta now :
  h_ptype (p_header p) = RouteRequest -> holds ok (relay_request p q cost prev meta now) any.
Proof.
  intros Hp. unfold relay_request. unfold my_role. apply holds_bind_gets. intros n Hn. keep_cfg. destruct (negb (role_relays (c_role c)) || _) eqn:E; [run|].
  apply orb_false_iff in E as [Hr _]. apply negb_false_iff in Hr. run.
  - intros s0 Hs. destruct (RebroadcastScheduler.is_pending _ _); [|done]. by apply sched_cancel_fld.
  - apply schedule_fld; [|done]. right. split; [done|]. apply relayed_control. simpl. by rewrite Hp.
Qed.
Hint Resolve answer_as_target_keep proxy_keep answer_zone_keep answer_cache_keep relay_request_keep : keep.

Lemma observe_request_keep o r cost now : holds ok (call n_ierp upd_ierp (Ierp.observe_request o r cost now)) any.
Proof. run. by apply IerpInv.observe_fld. Qed.
Hint Resolve observe_request_keep : keep.

Lemma known_key_size a n : ok n -> key_size (public_key_bytes <$> SmallMap.get (n_key_dir n) a).
Proof.
  intros Hn. unfold key_size. destruct (SmallMap.get _ _) as [id|] eqn:E; [|done].
  destruct (map_ok_get _ _ _ _ (ok_keys _ _ _ _ Hn) E) as [_ Hp]. simpl in *. unfold public_key_bytes. by rewrite pubid_ok_len.
Qed.

Lemma decode_keep {A} (o : Result A) (Q : A -> Prop) :
  safe o -> (forall a, o = Ok a -> Q a) -> holds ok (attempt (lift o) : M _) (fun r => forall a, r = inr a -> Q a).
Proof. intros Hs Hq. eapply holds_attempt with (P := Q); [by apply holds_lift|done|]. by intros a Ha ? [= <-]. Qed.

Lemma handle_route_request_keep p prev meta now :
  heard p -> h_ptype (p_header p) = RouteRequest -> holds ok (handle_route_request p prev meta now) any.
Proof.
  intros Hh Hpt. unfold handle_route_request.
  eapply holds_bind; [apply (decode_keep _ (fun q => short (messages.rq_target q) /\ heard_bytes (messages.rq_handshake q))); [apply MessagesFacts.safe_rreq_decode|]|].
  { intros q Hq. split; [by eapply rreq_sizes|]. exists p. split; [done|by apply rreq_suffix]. }
  intros [e|q] Hq; [run|]. destruct (Hq q eq_refl) as [Ht Hm]. clear Hq. run;
    (apply proxy_keep || apply answer_zone_keep || apply answer_cache_keep); try done; by apply known_key_size.
Qed.

Lemma absorb_keep p r prev now : holds ok (absorb_route_reply p r prev now) any.
Proof.
  unfold absorb_route_reply. eapply holds_bind; [by apply link_cost_to_keep|]. intros lk _. eapply holds_bind; [by apply learn_route_keep|]. intros _ _.
  apply (holds_bind _ _ _ any); [|intros _ _; run]. destruct (messages.rp_target_key r) as [k|]; [|run].
  eapply holds_bind; [apply decode_keep; [apply safe_pubid|apply pubid_from_bytes_inv]|]. intros [e|id] Hi; [run|].
  destruct (Hi id eq_refl) as (_ & _ & _ & Hp). destruct (decide _) as [<-|]; run. intros m Hm. by apply map_ok_insert.
Qed.
Hint Resolve absorb_keep : keep.

Lemma succeed_keep target now :
  holds ok (call n_ierp upd_ierp (Ierp.succeed target now)) (Forall (IerpInv.parked (good c i heard) target)).
Proof. apply holds_call. intros s. apply IerpInv.succeed_fld. Qed.
Hint Resolve succeed_keep : keep.

Lemma handle_route_reply_keep p prev now : heard p -> holds ok (handle_route_reply p prev now) any.
Proof.
  intros Hh. unfold handle_route_reply.
  eapply holds_bind; [apply (decode_keep _ (fun r => heard_bytes (messages.rp_handshake r))); [apply MessagesFacts.safe_rrep_decode|]|].
  { intros r Hr. exists p. split; [done|by apply rrep_suffix]. }
  intros [e|r] Hr; [run|]. specialize (Hr r eq_refl). run. match goal with H : Forall (IerpInv.parked (good c i heard) _) ?l |- holds _ (for_each (if ?b then _ else _) _) _ =>
    assert (Hl : Forall (good c i heard) l) by (eapply Forall_impl; [exact H|by intros ? [? _]]); destruct b end;
    (eapply holds_for_each with (P := good c i heard); [|intros q Hq; run|done]); [by apply Forall_retain|done].
Qed.

Lemma forward_route_reply_keep p prev meta now :
  zlen (p_payload p) <= 2048 -> short (h_dst (p_header p)) -> h_ptype (p_header p) = RouteReply ->
  holds ok (forward_route_reply p prev meta now) any.
Proof.
  intros Hp Hd Ht. unfold forward_route_reply. eapply holds_bind; [apply (decode_keep _ reply_small); [apply MessagesFacts.safe_rrep_decode|intros a Ha; by eapply rrep_sizes]|].
  intros [e|r] Hr; [run|]. specialize (Hr r eq_refl). run. apply forward_unicast_keep; [done..|]. split; [apply rrep_small; exact Hr|]. split; [done|]. apply relayed_control. simpl. by rewrite Ht.
Qed.

Lemma fail_until_keep k dst via : holds ok (fail_until_removed k dst via) any.
Proof. induction k as [|k IH]; simpl; [run|]. run. Qed.
Hint Resolve fail_until_keep : keep.
Lemma handle_route_error_keep p prev now : holds ok (handle_route_error p prev now) any.
Proof.
  unfold handle_route_error. eapply holds_bind; [apply (decode_keep _ any); [apply MessagesFacts.safe_rerr_decode|done]|].
  intros [e|r] _; [run|]. run.
Qed.
Hint Resolve handle_route_request_keep handle_route_reply_keep forward_route_reply_keep handle_route_error_keep : keep.

(** ** Data *)

(** What the decoder guarantees of a received packet. *)
Notation rx_ok := (packet_ok (c_max_ttl c)).
Lemma rx_size p : rx_ok p -> zlen (p_payload p) <= 255.
Proof. intros (_ & _ & Hl & _). assert (forall b, max_payload b <= 255) as Hm by (by intros []). specialize (Hm (h_has (p_header p) flags.NET_AUTH)). lia. Qed.
Lemma rx_small p : rx_ok p -> small (p_payload p).
Proof. intros Hp%rx_size. unfold small. lia. Qed.
Lemma rx_transit p : rx_ok p -> heard p -> transit p.
Proof.
  intros Hp Hh. split; [by apply rx_small|]. split; [|by apply relayed_heard]. apply address_short.
  by destruct Hp as ((_ & _ & _ & _ & _ & ? & _) & _).
Qed.

(** A message that is what its protection claims. *)
Definition message_ok (from : Address) (payload : list Z) (prot : Protection) : Prop :=
  genuine (R := R) c i heard (MessageReceived from 0 payload prot 0 0 (f32_of 0) None).
Lemma deliver_event_keep p from payload prot meta :
  message_ok from payload prot -> holds ok (deliver_event p from payload prot meta) any.
Proof. intros Hm. unfold deliver_event. run. Qed.
Hint Resolve deliver_event_keep : keep.

Lemma group_decrypt_safe k src id aad ct : safe (group_decrypt k src id aad ct).
Proof. unfold group_decrypt, TAG_LEN. pose proof (zlen_nonneg ct). safe_tac. Qed.
Lemma broadcast_data_keep p meta : heard p -> h_ptype (p_header p) = Data -> holds ok (handle_broadcast_data p meta) any.
Proof.
  intros Hh Ht. unfold handle_broadcast_data. destruct (h_has _ _) eqn:Eg; [|run; apply deliver_event_keep; by exists p].
  apply holds_bind_gets. intros n Hn. keep_cfg.
  destruct (c_network_key c) as [k|] eqn:Ek; [|run]. eapply holds_bind; [apply decode_keep; [apply group_decrypt_safe|intros a Ha; exact Ha]|].
  intros [e|pt] Hp; [run|]. run. apply deliver_event_keep. exists p, k. split_and!; try done. by apply Hp.
Qed.

(** The packets behind the fragments of a set. *)
Lemma fragments_packets key chunks :
  (forall k chunk, chunks !! k = Some chunk -> fragment_heard heard key (zlen chunks) k chunk) ->
  received_body heard key.1 (concat chunks) (Some key.2).
Proof.
  intros Hf. assert (Hps : exists ps, packet_body <$> ps = chunks /\ forall k p, ps !! k = Some p ->
    heard p /\ h_src (p_header p) = key.1 /\ frag_header p = Some (mkFragHeader key.2 (Z.of_nat k) (zlen chunks))).
  { generalize (zlen chunks) as total, Hf. clear Hf. induction chunks as [|chunk chunks IH] using rev_ind; intros total Hf; [by exists []|].
    destruct (IH total) as (ps & Hb & Hps).
    { intros k d Hk. apply Hf. apply lookup_app_l_Some, Hk. }
    destruct (Hf (length chunks) chunk) as (p & H1 & H2 & H3 & H4); [by apply list_lookup_middle|].
    exists (ps ++ [p]). split; [by rewrite fmap_app, Hb; simpl; rewrite H4|]. intros k q Hk.
    apply lookup_app_Some in Hk as [Hk|[Hl Hk]]; [by apply Hps|]. apply list_lookup_singleton_Some in Hk as [Hz ->].
    assert (length ps = length chunks) by (by rewrite <- Hb, length_fmap). replace k with (length chunks) by lia. done. }
  destruct Hps as (ps & Hb & Hps). exists ps. split; [by rewrite Hb|]. replace (zlen ps) with (zlen chunks); [done|].
  rewrite <- Hb. unfold zlen. by rewrite length_fmap.
Qed.

(** The body a packet brings, alone or with the fragments before it. *)
Definition brings p (o : option (list Z * option Z)) : Prop :=
  forall ct fr, o = Some (ct, fr) -> small ct /\ fr = frag_id <$> frag_header p /\ received_body heard (h_src (p_header p)) ct fr.
Lemma reassemble_keep p now : rx_ok p -> heard p -> holds ok (reassemble p now) (brings p).
Proof.
  intros Hp Hh. pose proof (rx_small p Hp) as Hs. unfold reassemble, brings. destruct (frag_header p) as [fh|] eqn:Hf.
  2:{ apply holds_ret. intros ? ? [= <- <-]. split; [done|]. split; [done|]. by exists p. }
  eapply holds_bind; [by apply count_keep|]. intros _ _.
  assert (Hfh : frag_header_ok fh).
  { unfold frag_header in Hf. destruct (h_has _ _); [|done]. destruct (frag_parse (p_payload p)) as [x| |] eqn:E; [|done..]. injection Hf as <-.
    eapply frag_parse_inv, E. apply Hp. }
  assert (Hb : zlen (packet_body p) < 2 ^ 31).
  { unfold packet_body. unfold small in Hs. destruct (h_has _ _); [|done]. unfold zlen in *. rewrite length_drop. lia. }
  assert (HQ : fragment_heard heard (h_src (p_header p), frag_id fh) (frag_total fh) (Z.to_nat (frag_index fh)) (packet_body p)).
  { exists p. split; [done|]. split; [done|]. split; [|done]. destruct Hfh as (_ & ? & _). rewrite Hf, Z2Nat.id by lia. by destruct fh. }
  destruct Hcfg as (_ & _ & _ & _ & Hra & _).
  set (P := fun o : option (list Z) => forall full, o = Some full -> small full /\ received_body heard (h_src (p_header p)) full (Some (frag_id fh))).
  apply holds_bind with (P := fun r => forall o, r = inr o -> P o).
  - eapply holds_attempt with (P := P); [|done|by intros o Ho ? [= <-]].
    apply holds_try_call. intros ra (Hok & Hc & Hm). rewrite <- Hc in Hra.
    destruct (ReassemblerFacts.push_ok ra now (h_src (p_header p)) fh (packet_body p) Hra Hok Hfh Hb) as (H1 & H2 & H3 & H4).
    destruct (ReassemblerFacts.push_from _ ra now (h_src (p_header p)) fh (packet_body p) Hra Hok Hfh Hm HQ) as (H5 & H6).
    split; [split; [done|]; split; [congruence|done]|]. split; [done|]. intros o Ho full ->. specialize (H4 full Ho).
    split; [destruct Hra; unfold small; lia|]. destruct (H6 full Ho) as (chunks & -> & Hq). by apply (fragments_packets (h_src (p_header p), frag_id fh)).
  - intros [e|[full|]] Hr; apply holds_ret; [done| |done]. intros ? ? [= <- <-]. destruct (Hr _ eq_refl full eq_refl). done.
Qed.

Lemma attempt_count_keep a : holds ok (modify (upd_handshakes (fun m => SmallMap.update m a ph_count_attempt)) : M unit) any.
Proof. run. intros m Hm. by apply map_ok_update. Qed.
Hint Resolve attempt_count_keep : keep.
Lemma notify_keep src now : holds ok (notify_no_session src now) any.
Proof. unfold notify_no_session. run. apply route_unicast_keep; [done..|]. by apply (fresh_packet c i heard src _ id). Qed.
Hint Resolve notify_keep : keep.

(** A packet for this node. *)
Notation for_me p := (bool_decide (h_dst (p_header p) = me) = true).
Lemma open_payload_keep p now : rx_ok p -> heard p -> for_me p ->
  holds ok (open_session_payload p now)
    (fun o => forall pt, o = Some pt -> small pt /\ from_session (h_ptype (p_header p)) (h_src (p_header p)) pt).
Proof.
  intros Hp Hh Hm%bool_decide_eq_true. unfold open_session_payload. eapply holds_bind; [by apply reassemble_keep|].
  intros [[ct fr]|] Hb; [|by apply holds_ret].
  destruct (Hb ct fr eq_refl) as (Hs & -> & Hr). eapply holds_bind; [by apply has_session_keep|]. intros sn _. destruct (negb sn).
  { eapply holds_bind; [by apply notify_keep|]. intros _ _. by apply holds_ret. }
  apply holds_bind with (P := fun r => forall pt, r = inr pt -> small pt /\ from_session (h_ptype (p_header p)) (h_src (p_header p)) pt).
  { eapply holds_attempt; [apply decrypt_keep|done|]. intros pt (Hpt & s & Hse & Hd) ? [= <-]. split; [by apply (small_le _ ct)|].
    exists p, ct, s, now. done. }
  intros [e|pt] Hq; [|apply holds_ret; intros ? [= <-]; by apply Hq].
  destruct e; (eapply holds_bind; [by apply count_keep|]; intros _ _; by apply holds_ret).
Qed.

Lemma note_envelope_keep key : holds ok (note_envelope key) any.
Proof.
  unfold note_envelope. apply holds_call. intros l Hl. split; [|done]. case_decide; [done|]. unfold bounded in *. simpl.
  case_decide as Hg; simpl.
  - rewrite zlen_app, zlen_cons, zlen_nil in Hg. destruct l as [|x l]; [rewrite zlen_nil in Hg; lia|]. simpl. rewrite zlen_app, !zlen_cons, zlen_nil in *. lia.
  - lia.
Qed.
Lemma ack_mailbox_keep src id now : holds ok (acknowledge_mailbox src id now) any.
Proof.
  unfold acknowledge_mailbox. assert (Ht : tiny (control.MAILBOX_ACK :: be_bytes 4 id)) by done.
  pose proof (tiny_sendable _ Ht). pose proof (tiny_queued src _ QUEUED_CONTROL now Ht). run.
Qed.
Hint Resolve note_envelope_keep ack_mailbox_keep : keep.

Lemma ack_envelope_keep p sender id now : holds ok (acknowledge_envelope p sender id now) any.
Proof.
  unfold acknowledge_envelope. apply holds_bind_gets. intros n Hn. keep_cfg. assert (Hb : sendable [68]) by done.
  apply holds_bind with (P := fun r => forall env, r = inr env -> tiny env).
  { eapply holds_attempt with (P := tiny); [|done|by intros env He ? [= <-]]. apply holds_try_call. intros r _.
    destruct (seal_envelope_safe i sender id [68] r Hid Hb) as [H1 H2]. destruct (seal_envelope i sender id [68] r) as [o r']. split; [done|].
    split; [done|]. intros env He. unfold tiny. rewrite (H2 env He). done. }
  intros [e|env] He; [run|]. specialize (He env eq_refl). run. apply route_unicast_keep; [done..|].
  match goal with H : fresh_header _ _ _ |- _ => destruct H as (_ & Hf & Hm) end. split; [|split; [|by apply own_carried]].
  - change (small (frame_envelope id env)). unfold small, tiny, frame_envelope in *. rewrite zlen_app, zlen_be_bytes. lia.
  - unfold is_envelope, h_has. simpl. by destruct Hf as [-> | ->].
Qed.
Hint Resolve ack_envelope_keep : keep.

Lemma parse_frame_keep body :
  holds ok (attempt (lift (parse_envelope_frame body)) : M _) (fun r => forall x, r = inr x -> parse_envelope_frame body = Ok x).
Proof. apply decode_keep; [apply safe_parse_envelope_frame|done]. Qed.
(** An envelope in the body a packet brings. *)
Lemma open_envelope_keep p body id env :
  heard p -> for_me p -> received_body heard (h_src (p_header p)) body (frag_id <$> frag_header p) -> parse_envelope_frame body = Ok (id, env) ->
  holds ok (attempt (lift (open_envelope i id env)) : M _)
    (fun r => forall sender pt, r = inr (sender, pt) -> pubid_ok sender /\ from_envelope (h_ptype (p_header p)) (pi_address sender) pt).
Proof.
  intros Hh Hm%bool_decide_eq_true Hr He. eapply holds_attempt with (P := fun a => open_envelope i id env = Ok a); [|done|].
  - apply holds_lift; [apply open_envelope_safe|done].
  - intros a Ha sender pt [= ->]. pose proof (open_envelope_sender _ _ _ _ _ Ha) as [Hp _]. split; [done|]. by exists p, body, id, env, sender.
Qed.
Lemma envelope_data_keep p meta now :
  rx_ok p -> heard p -> for_me p -> h_ptype (p_header p) = Data -> holds ok (handle_envelope_data p meta now) any.
Proof.
  intros Hp Hh Hm Ht. unfold handle_envelope_data. eapply holds_bind; [by apply reassemble_keep|]. intros [[body fr]|] Hb; [|run].
  destruct (Hb body fr eq_refl) as (_ & -> & Hr). eapply holds_bind; [apply parse_frame_keep|]. intros [e|[id env]] He; [run|].
  apply holds_bind_gets. intros n Hn. keep_cfg. eapply holds_bind; [by apply (open_envelope_keep p body), He|].
  intros [e|[sender pt]] Hs; [run|]. destruct (Hs _ _ eq_refl) as [Hp' Hg]. rewrite Ht in Hg.
  run. intros m Hmm. by apply map_ok_insert.
Qed.

Lemma incoming_keep src seq now : holds ok (call n_transport upd_transport (Transport.accept_incoming src seq now)) any.
Proof. run. by apply TransportInv.incoming_inv. Qed.
Hint Resolve envelope_data_keep incoming_keep : keep.
Lemma unicast_data_keep p meta now :
  rx_ok p -> heard p -> for_me p -> h_ptype (p_header p) = Data -> holds ok (handle_unicast_data p meta now) any.
Proof.
  intros Hp Hh Hm Ht. unfold handle_unicast_data. destruct (h_has _ _); [run|]. destruct (negb _); [run|].
  eapply holds_bind; [by apply open_payload_keep|]. intros [body|] Hb; [|run]. destruct (Hb body eq_refl) as [_ Hg]. rewrite Ht in Hg. run.
Qed.

Lemma envelope_ack_keep p now :
  rx_ok p -> heard p -> for_me p -> h_ptype (p_header p) = Protocol.Ack -> holds ok (handle_envelope_ack p now) any.
Proof.
  intros Hp Hh Hm Ht. unfold handle_envelope_ack. eapply holds_bind; [by apply reassemble_keep|]. intros [[body fr]|] Hb; [|run].
  destruct (Hb body fr eq_refl) as (_ & -> & Hr). eapply holds_bind; [apply parse_frame_keep|]. intros [e|[id env]] He; [run|].
  apply holds_bind_gets. intros n Hn. keep_cfg. eapply holds_bind; [by apply (open_envelope_keep p body), He|].
  intros [e|[sender pt]] Hs; [run|]. destruct (Hs _ _ eq_refl) as [_ Hg]. rewrite Ht in Hg. run. apply emit_keep.
  match goal with H : bool_decide (o_dst _ = _) = true |- _ => apply bool_decide_eq_true in H; rewrite H end. right. by exists pt.
Qed.

Lemma on_ack_keep src a :
  holds ok (call n_transport upd_transport (Transport.on_ack src a)) (fun o => forall x, o = Some x -> o_dst x = src).
Proof.
  apply holds_call. intros t Ht. split; [by apply TransportInv.on_ack_inv|]. intros x. unfold Transport.on_ack.
  destruct (position _ _) as [j|] eqn:Hj; [|done]. apply position_Some in Hj as (y & Hy & [Hd _]%andb_true_iff & _). apply bool_decide_eq_true in Hd.
  unfold Transport.take_at. rewrite Hy. repeat case_decide; simpl; intros Hx; by simplify_eq.
Qed.
Hint Resolve envelope_ack_keep on_ack_keep : keep.
Lemma handle_ack_keep p now :
  rx_ok p -> heard p -> for_me p -> h_ptype (p_header p) = Protocol.Ack -> holds ok (handle_ack p now) any.
Proof.
  intros Hp Hh Hm Ht. unfold handle_ack. destruct (h_has _ _); [run|]. eapply holds_bind; [by apply open_payload_keep|]. intros [body|] Hb; [|run].
  destruct (Hb body eq_refl) as [_ Hg]. rewrite Ht in Hg. eapply holds_bind; [apply decode_keep; [apply safe_ack_decode|intros a Ha; exact Ha]|]. intros [e|a] Ha; [run|].
  specialize (Ha a eq_refl). run.
  - intros ?. apply (rop_fld _ (RoutingFacts.Success _ _ _)).
  - intros t Ht1. by destruct (nop_fld _ (NeighborFacts.Success (r_next_hop r)) t Ht1) as (t' & [= <-] & ?).
  - apply emit_keep. match goal with H : forall x, Some _ = Some x -> _ |- _ => rewrite (H _ eq_refl) end. left. by exists body, a.
Qed.
Hint Resolve unicast_data_keep broadcast_data_keep handle_ack_keep : keep.

(** ** Store and forward, traces, control *)

Lemma store_result_tiny sub id r : sendable (sub :: encode_store_result id r).
Proof. by destruct r. Qed.
Lemma result_control_keep dst sub id r now : holds ok (send_control dst sub (encode_store_result id r) now) any.
Proof. apply send_control_keep; [done..|]. apply store_result_tiny. Qed.
Hint Resolve result_control_keep : keep.

Lemma handle_store_keep p now : rx_ok p -> heard p -> for_me p -> holds ok (handle_store p now) any.
Proof.
  intros Hp Hh Hm. unfold handle_store. eapply holds_bind; [by apply open_payload_keep|]. intros [body|] Hb; [|run]. destruct (Hb body eq_refl) as [Hbs _].
  eapply holds_bind; [apply decode_keep; [apply safe_store_codecs|apply store_sizes]|]. intros [e|req] Hr; [run|].
  destruct (Hr req eq_refl) as [H1 H2]. eapply holds_bind; [by apply count_keep|]. intros _ _.
  eapply holds_bind; [apply store_keep; [by apply (small_le _ body)|done]|]. intros o Ho. destruct o as [r|]; simpl; [|run].
  specialize (Ho r eq_refl). destruct r; [run..|done].
Qed.

Lemma stay_awake_keep a t : holds ok (update_neighbor a (nb_stay_awake t)) any.
Proof. by apply update_neighbor_keep. Qed.
Hint Resolve stay_awake_keep : keep.
Lemma handle_fetch_keep p now : rx_ok p -> heard p -> for_me p -> holds ok (handle_fetch p now) any.
Proof.
  intros Hp Hh Hm. unfold handle_fetch. eapply holds_bind; [by apply open_payload_keep|]. intros b _. apply holds_bind_gets. intros n Hn.
  destruct b, (n_mailbox n); run.
Qed.

Lemma handle_trace_keep p now : rx_ok p -> holds ok (handle_trace p now) any.
Proof.
  intros Hp%rx_size. unfold handle_trace. destruct (p_payload p) as [|k rest]; [run|]. rewrite zlen_cons in Hp. run.
  - apply route_unicast_keep; [done..|]. apply (fresh_packet c i heard (h_src (p_header p)) _ id); [done..|]. unfold small. rewrite zlen_cons. lia.
  - destruct (position _ _) as [j|] eqn:Hj; [|done]. apply position_Some in Hj as (x' & Hx & _). unfold bounded in *. simpl.
    rewrite (vec_remove_len _ _ _ Hx). lia.
Qed.

Lemma store_accepted_keep src id : holds ok (on_store_result_accepted src id) any.
Proof.
  unfold on_store_result_accepted. run. apply (holds_any _ _ (fun o => forall a, o = Some a -> any a)), mailbox_call_keep. intros m Hm.
  split; [|done]. destruct (find_first _ _); [|done]. by apply MailboxInv.delivered_box_inv.
Qed.
Lemma store_rejected_keep id : holds ok (on_store_result_rejected id) any.
Proof. unfold on_store_result_rejected. run. Qed.
Lemma on_mailbox_ack_keep src rest : holds ok (on_mailbox_ack src rest) any.
Proof.
  unfold on_mailbox_ack. run. apply (holds_any _ _ (fun o => forall a, o = Some a -> any a)), mailbox_call_keep. intros m Hm.
  split; [|done]. by apply MailboxInv.delivered_box_inv.
Qed.
Hint Resolve store_accepted_keep store_rejected_keep on_mailbox_ack_keep : keep.

Lemma handle_control_keep p now : rx_ok p -> heard p -> for_me p -> holds ok (handle_control p now) any.
Proof.
  intros Hp Hh Hm. unfold handle_control. eapply holds_bind; [by apply open_payload_keep|]. intros [[|sub rest]|] Hb; [run| |run].
  destruct (Hb _ eq_refl) as [Hbs _]. assert (Hs : forall b, safe (decode_store_result b)) by (intros b; apply safe_store_codecs).
  run; [by apply Hs..|]. apply send_control_keep; [done..|]. apply small_sendable. unfold small in *. rewrite zlen_cons in *. lia.
Qed.
Lemma on_activity_keep now : holds ok (on_activity now) any.
Proof. unfold on_activity. run. intros p Hp. unfold PowerFacts.log_bounded. by rewrite PowerFacts.on_activity_log. Qed.
Hint Resolve handle_store_keep handle_fetch_keep handle_trace_keep handle_control_keep on_activity_keep : keep.

(** ** A received frame *)

Lemma reply_heard_keep o r cost : holds ok (modify (upd_rrep_pending (PendingReplies.heard o r cost)) : M unit) any.
Proof.
  run. intros s [Hl Hf]. unfold PendingReplies.heard. split; simpl; [|by apply Forall_retain].
  etrans; [apply zlen_retain_le|exact Hl].
Qed.
Hint Resolve reply_heard_keep : keep.

Lemma dispatch_keep p prev meta now : rx_ok p -> heard p -> holds ok (dispatch p prev meta now) any.
Proof.
  intros Hp Hh. pose proof (rx_transit p Hp Hh) as Ht. assert (Hz : zlen (p_payload p) <= 2048) by (pose proof (rx_size p Hp); lia).
  pose proof Ht as (_ & Hd & Hc). assert (Hs : forall b, safe (messages.rrep_decode b)) by apply MessagesFacts.safe_rrep_decode.
  unfold dispatch. eapply holds_bind; [by apply address_keep|]. intros a ->. destruct (h_ptype (p_header p)) eqn:Hpt; run. all: try by apply Hs.
Qed.
Hint Resolve dispatch_keep : keep.

Lemma handle_link_ack_keep p prev : zlen (p_payload p) = 5 -> holds ok (handle_link_ack p prev) any.
Proof. intros Hp. unfold handle_link_ack. run. apply safe_be_at. lia. Qed.
Lemma confirm_hop_keep p prev now : holds ok (confirm_hop p prev now) any.
Proof. unfold confirm_hop. run. Qed.
Lemma learn_reverse_keep p prev now : holds ok (learn_reverse p prev now) any.
Proof. unfold learn_reverse. run. Qed.
Lemma seen_keep key now : holds ok (call n_seen upd_seen (SeenCache.observe key now)) any.
Proof. run. by apply (cop_fld _ (StormFacts.Observe key now)). Qed.
Hint Resolve confirm_hop_keep learn_reverse_keep seen_keep : keep.

Lemma handle_packet_keep p prev meta now : rx_ok p -> heard p -> holds ok (handle_packet p prev meta now) any.
Proof.
  intros Hp Hh. unfold handle_packet. run. apply handle_link_ack_keep. 
  repeat match goal with H : _ && _ = true |- _ => apply andb_true_iff in H as [? ?] end. by eapply bool_decide_eq_true_1.
Qed.
Hint Resolve handle_beacon_keep handle_packet_keep : keep.

(** The packets a frame stands for. *)
Definition decodes_to (frame : list Z) p : Prop := packet_decode hmac_sha256 frame (c_network_key c) (c_max_ttl c) = Ok p.
Lemma on_radio_rx_keep frame meta :
  bytes_ok frame -> (forall p, decodes_to frame p -> heard p) -> holds ok (on_radio_rx frame meta) any.
Proof.
  intros Hf Hhd. unfold on_radio_rx. apply (holds_bind _ _ _ any); [run|intros _ _]. do 2 (apply holds_bind_gets; intros ? ?).
  destruct (negb _); [run|]. eapply holds_bind; [by apply count_keep|]. intros _ _. apply (holds_bind _ _ _ any); [run|intros _ _].
  eapply holds_bind; [by apply airtime_keep|]. intros air _. apply (holds_bind _ _ _ any); [run|intros _ _]. apply holds_bind_gets. intros n Hn. keep_cfg.
  eapply holds_bind; [apply (decode_keep _ (fun p => rx_ok p /\ heard p)); [by apply packet_decode_safe|]|].
  { intros p Hp. split; [by eapply packet_decode_sound|by apply Hhd]. }
  intros [e|p] Hp; [run|]. destruct (Hp p eq_refl) as [Hok Hh]. clear Hp. eapply holds_bind; [by apply address_keep|]. intros a ->.
  destruct (decide _) as [|Hsrc]; [run|]. pose proof Hok as (_ & Hb & _). run.
  intros t Ht. match goal with |- neighbors_inv _ (NeighborTable.observe_packet ?a ?b _ _) =>
    by destruct (nop_fld _ (NeighborFacts.ObservePacket a b meta) t Ht) as (t' & [= <-] & ?) end.
Qed.
End Safe.

#[export] Hint Resolve install_session_keep drain_one_keep drain_queued_keep responder_start_keep take_hs_keep
  initiator_continue_keep responder_finish_keep handle_handshake_keep remove_session_keep reset_peer_keep
  on_no_session_notice_keep close_session_keep observe_beacon_keep serve_leaf_keep choose_host_keep insert_key_keep
  handle_beacon_keep roll_keep forward_delay_keep covered_keep density_roll_keep heard_keep schedule_relay_keep
  relay_flood_keep store_in_transit_keep hold_for_leaf_keep mark_route_failure_keep touch_keep forward_to_keep
  repair_route_keep forward_unicast_keep answer_as_target_keep proxy_keep answer_zone_keep answer_cache_keep
  relay_request_keep observe_request_keep handle_route_request_keep absorb_keep succeed_keep handle_route_reply_keep
  forward_route_reply_keep fail_until_keep handle_route_error_keep deliver_event_keep broadcast_data_keep
  reassemble_keep attempt_count_keep notify_keep open_payload_keep note_envelope_keep ack_mailbox_keep
  ack_envelope_keep envelope_data_keep incoming_keep unicast_data_keep envelope_ack_keep on_ack_keep handle_ack_keep
  result_control_keep handle_store_keep stay_awake_keep handle_fetch_keep handle_trace_keep store_accepted_keep
  store_rejected_keep on_mailbox_ack_keep handle_control_keep on_activity_keep reply_heard_keep dispatch_keep
  handle_link_ack_keep confirm_hop_keep learn_reverse_keep seen_keep handle_packet_keep on_radio_rx_keep : keep.
