(* ===== verification/NodeTimersSafe.v ===== *)
(** * The engine never panics: timers

    Every method of [Node] (construction, [poll] with its timers and
    housekeeping, the radio queue) keeps [node_ok] and does not panic; the hop
    retry loop ends within its [HOP_ROUNDS] rounds. *)
From stdpp Require Import base tactics list numbers.
From Stdlib Require Import Lia.
From S2P Require Import Prelude SmallMap Float32 Protocol Packet Fragmentation CryptoLib Identity Noise Replay Session Transport StoreForward Storm Routing Messages Ierp Power Beacon Radio Neighbor Zone Methods NodeState Calculus NodeTx NodeRx Node EngineInv NodeInv NodeSafe NodeRxSafe.
From stdpp Require Import list.
#[local] Open Scope Z_scope.

Section Safe.
Context `{C : CryptoLib, !CryptoLibLaws C} {R : Type} `{G : RngCore R, !RngCoreLaws R, !RngLive R}.
Context (c : NodeConfig) (i : Identity) (heard : Packet -> Prop) (Hcfg : config_ok c) (Hid : identity_ok i).
Notation M := (St (Node R) Error).
Notation ok := (node_ok (R := R) c i heard).
Notation me := (id_address i).
Notation exh := (exhausted hp_attempts).
Implicit Types (n : Node R) (p : Packet).

(** ** Hop retries *)

(** Methods that leave the hop list alone. *)
Lemma enqueue_frames p t pr rel : frames n_hop_pending (enqueue_packet (R := R) p t pr rel).
Proof. unfold enqueue_packet, count. frame. Qed.
Lemma hop_timeout_frames len : frames n_hop_pending (hop_timeout (R := R) len).
Proof. unfold hop_timeout, airtime. frame. Qed.
Lemma rand_frames : frames n_hop_pending (rand_u64 (R := R)).
Proof. unfold rand_u64. frame. Qed.
Lemma update_neighbor_frames a f : frames n_hop_pending (update_neighbor (R := R) a f).
Proof. unfold update_neighbor. frame. Qed.

(** At most [k] exhausted entries from index [j] on. *)
Definition few (k : Z) (j : nat) n : Prop := ok n /\ exh (c_hop_retries c) j (n_hop_pending n) <= k.
Lemma few_frame {A} k j (m : M A) : holds ok m any -> frames n_hop_pending m -> holds (few k j) m any.
Proof. intros Hm Hf. exact (holds_frame n_hop_pending ok (fun l => exh (c_hop_retries c) j l <= k) m any Hm Hf). Qed.
Lemma few_hops k j f :
  (forall l, hops_inv c i heard l -> hops_inv c i heard (f l)) -> (forall l, exh (c_hop_retries c) j (f l) <= exh (c_hop_retries c) j l) ->
  holds (few k j) (modify (upd_hop_pending f) : M unit) any.
Proof.
  intros Hb He. apply holds_modify; [|done]. intros n [Hn Hk]. split; [apply field_set; [done|]; by apply Hb, field_get|]. simpl.
  specialize (He (n_hop_pending n)). lia.
Qed.

(** A tracked hop starts with one attempt, within the retries. *)
Lemma track_hop_exh k j p nh now rel n :
  n_cfg n = c -> exh (c_hop_retries c) j (n_hop_pending n) <= k ->
  exh (c_hop_retries c) j (n_hop_pending (track_hop p nh now rel n).1) <= k.
Proof.
  intros Hc Hk. set (X := fun n' => exh (c_hop_retries c) j (n_hop_pending n') <= k). change (X (track_hop p nh now rel n).1).
  destruct Hcfg as (_ & _ & _ & _ & _ & _ & _ & _ & Hr). apply wpx_final. unfold track_hop. do 2 (apply wpx_bind, wpx_gets). rewrite Hc.
  destruct (decide _) as [|Hd]; [done|]. apply wpx_bind, wpx_modify. set (n1 := upd_hop_pending _ n).
  assert (H1 : X n1) by (unfold X, n1; simpl; etrans; [apply exhausted_retain|done]). clearbody n1.
  unfold update_neighbor, hop_timeout, airtime, rand_u64. repeat (wpx_step || apply wpx_call); [|exact H1].
  unfold X. simpl. etrans; [apply exhausted_snoc; simpl; lia|exact H1].
Qed.
Lemma track_hop_few k j p nh now rel : carried c i heard p -> holds (few k j) (track_hop p nh now rel) any.
Proof.
  intros Hp n [Hn Hk]. pose proof (track_hop_keep c i heard Hcfg p nh now rel Hp n Hn) as Hok.
  pose proof (track_hop_exh k j p nh now rel n (ok_cfg _ _ _ _ Hn) Hk) as Hex. unfold wpe in *.
  destruct (track_hop p nh now rel n) as [n' [a|e|]]; simpl in *; [|by split|done]. by destruct Hok.
Qed.

Lemma bounded_update_first {A} k f g (l : list A) : bounded k l -> bounded k (update_first f g l).
Proof. unfold bounded, zlen. by rewrite length_update_first. Qed.
Lemma mark_rerouted_few k j f : holds (few k j) (modify (upd_hop_pending (update_first f hp_mark_rerouted)) : M unit) any.
Proof.
  apply few_hops; intros l; [intros [Hl Hf]; split; [by apply bounded_update_first|by apply Forall_update_first]|]. rewrite (exhausted_same _ _ _ l); [done|]. by apply fmap_update_first.
Qed.

Lemma hop_failed_few k j h now : carried c i heard (hp_packet h) -> holds (few k j) (hop_failed h now) any.
Proof.
  intros Hp.   unfold hop_failed. apply (holds_bind _ _ _ any); [apply few_frame; [by apply count_keep|unfold count; frame]|intros _ _].
  apply (holds_bind _ _ _ any); [apply few_frame; [by apply record_failure_keep|frame]|intros dead _].
  apply (holds_bind _ _ _ any).
  { apply few_frame; [|unfold mark_route_failure, emit; frame]. run. by apply (rop_fld _ (RoutingFacts.InvalidateVia _)). }
  intros _ _. apply holds_bind_gets. intros n _. destruct (next_hop_for _ _ _) as [alt|]; [|by apply holds_ret].
  apply holds_when; [intros _|done]. apply (holds_bind _ _ _ any); [apply few_frame; [by apply count_keep|unfold count; frame]|intros _ _].
  apply (holds_bind _ _ _ any); [by apply track_hop_few, (carried_next_hop c i heard)|intros _ _]. apply (holds_bind _ _ _ any); [apply mark_rerouted_few|intros _ _].
  apply (holds_bind _ _ _ any); [apply few_frame; [by apply enqueue_packet_keep, (carried_next_hop c i heard)|apply enqueue_frames]|intros _ _].
  by apply holds_ret.
Qed.

Lemma hop_retry_few k j h now : carried c i heard (hp_packet h) -> holds (few k (S j)) (hop_retry j h now) any.
Proof.
  intros Hp.   unfold hop_retry. apply (holds_bind _ _ _ any); [apply few_frame; [by apply tx_attempt_keep|apply update_neighbor_frames]|intros _ _].
  apply (holds_bind _ _ _ any); [apply few_frame; [by apply rand_u64_keep|apply rand_frames]|intros r _].
  apply (holds_bind _ _ _ any); [apply few_frame; [by apply hop_timeout_keep|apply hop_timeout_frames]|intros t _].
  apply (holds_bind _ _ _ any); [apply few_hops; intros l|intros _ _].
  { intros [Hl Hf]. split; [unfold bounded, zlen in *; by rewrite length_alter|by apply Forall_alter]. }
  { by rewrite exhausted_alter. }
  apply few_frame; [run|]. unfold count. frame; apply enqueue_frames || by apply frames_modify.
Qed.

(** Rounds left: indices not yet visited and exhausted entries ahead. *)
Lemma hop_loop_wpe fuel j now k n :
  few k j n -> 24 - Z.of_nat j + k < Z.of_nat fuel -> (j <= 24)%nat ->
  wpe (hop_loop fuel j (c_hop_retries c) now) (fun n' a => ok n' /\ any a) ok n.
Proof.
  revert j k n. induction fuel as [|fuel IH]; intros j k n [Hn Hk] Hf Hj.
  { pose proof (zlen_nonneg (retain (fun a => bool_decide (a > c_hop_retries c)) (drop j (hp_attempts <$> n_hop_pending n)))). unfold exhausted in Hk. lia. }
  simpl. apply wpe_bind, wpe_gets. destruct (n_hop_pending n !! j) as [h|] eqn:Hl; [|by apply wpe_ret].
  assert (Hlt : (j < 24)%nat).
  { apply lookup_lt_Some in Hl. pose proof (ok_hops _ _ _ _ Hn) as [Hb _]. unfold bounded, zlen in Hb. lia. }
  pose proof (ok_hops _ _ _ _ Hn) as [Hb Hc]. pose proof (Forall_lookup_1 _ _ _ _ Hc Hl) as Hh.
  destruct (decide (hp_due h > now)) as [_|_].
  { apply (IH (S j) k); [split; [done|etrans; [apply exhausted_S|done]]|lia|lia]. }
  destruct (decide (hp_attempts h > c_hop_retries c)) as [Hx|_].
  - apply wpe_bind, wpe_modify, wpe_bind. eapply wpe_mono; [apply (hop_failed_few (k - 1) j h now Hh)| |by intros ? []].
    + split; simpl; [|rewrite (exhausted_vec_remove _ _ _ _ _ Hl Hx); lia]. apply field_set; [done|]. split; [|by apply Forall_vec_remove].
      unfold bounded in *. rewrite (vec_remove_len _ _ _ Hl). lia.
    + intros n' _ [Hn' _]. apply (IH j (k - 1)); [done|lia|lia].
  - apply wpe_bind. eapply wpe_mono; [apply (hop_retry_few k j h now Hh)| |by intros ? []].
    + split; [done|]. etrans; [apply exhausted_S|done].
    + intros n' _ [Hn' _]. apply (IH (S j) k); [done|lia|lia].
Qed.

Lemma poll_hops_keep now : holds ok (poll_hops now) any.
Proof.
  intros n Hn. unfold poll_hops. apply wpe_bind, wpe_gets. keep_cfg. apply (hop_loop_wpe _ 0 now 24); [|done|lia].
  split; [done|]. etrans; [apply exhausted_le|]. apply Hn.
Qed.
Hint Resolve poll_hops_keep : keep.

(** ** Housekeeping *)

Lemma on_neighbor_lost_keep a : holds ok (on_neighbor_lost a) any.
Proof.
  unfold on_neighbor_lost. run; [intros z; apply (zop_fld _ _ (ZoneFacts.RemoveVia a)); [apply Hcfg|done]|].
  by apply (rop_fld _ (RoutingFacts.InvalidateVia a)).
Qed.

Lemma expire_reassembler_keep now :
  holds ok (ra ← gets n_reassembler; '(ra, _) ← lift (Reassembler.expire ra now); modify (upd_reassembler (fun _ => ra)) : M unit) any.
Proof.
  intros n Hn. apply wpe_bind, wpe_gets. pose proof (ok_reassembler _ _ _ _ Hn) as (Hr & Hc & Hm). destruct Hcfg as (_ & _ & _ & _ & Hra & _).
  rewrite <- Hc in Hra. destruct (ReassemblerFacts.expire_exact (n_reassembler n) now Hra Hr) as (ra & k & He & H1 & H2 & H3).
  rewrite He. apply wpe_bind, wpe_lift; [done| |done]. intros ? [= <-]. apply wpe_modify. split; [|done]. apply field_set; [done|].
  split; [done|]. split; [congruence|]. intros key s Hg. rewrite H3 in Hg. destruct (SmallMap.get (ra_sets (n_reassembler n)) key) as [s0|] eqn:E; [|done].
  destruct (Reassembler.is_stale _ _ _); [done|]. injection Hg as <-. by apply Hm.
Qed.

Lemma neighbor_expire_keep now : holds ok (call n_neighbors upd_neighbors (NeighborTable.expire now)) any.
Proof. run. match goal with H : neighbors_inv c ?t |- _ => by destruct (nop_fld _ (NeighborFacts.Expire now) t H) as (t' & [= <-] & ?) end. Qed.
Hint Resolve on_neighbor_lost_keep neighbor_expire_keep : keep.

Lemma expire_caches_keep now : holds ok (expire_caches now) any.
Proof.
  unfold expire_caches. apply (holds_bind _ _ _ any); [run|intros _ _].
  apply (holds_bind _ _ _ any); [run; intros s; apply (cop_fld _ (StormFacts.Expire now))|intros _ _].
  apply (holds_bind _ _ _ any); [run; intros s; apply IerpInv.expire_fld|intros _ _].
  apply (holds_bind _ _ _ any); [run; intros r; apply (rop_fld _ (RoutingFacts.ExpireRoutes now))|intros _ _].
  apply (holds_bind _ _ _ any); [run; intros z; apply (zop_fld _ _ (ZoneFacts.Expire now)); [apply Hcfg|done]|intros _ _].
  intros n Hn. pose proof (expire_reassembler_keep now n Hn) as Hw. apply wpe_bind, wpe_gets, wpe_bind.
    unfold wpe, mbind, St_bind, gets, lift in Hw. unfold wpe, lift. destruct (Reassembler.expire (n_reassembler n) now) as [[ra k]|e|]; [|done..].
    apply wpe_bind, wpe_modify. destruct Hw as [Hw _]. revert Hw. generalize (upd_reassembler (fun _ => ra) n).
    match goal with |- forall n0, _ -> wpe ?m _ _ _ => change (holds ok m any) end. run.
Qed.

Lemma rekey_keep a : holds ok (modify (upd_sessions (fun m => SmallMap.update m a (s_with_rekey true))) : M unit) any.
Proof. run. intros m Hm. by apply map_ok_update. Qed.
Hint Resolve rekey_keep : keep.
Lemma expire_sessions_keep now : holds ok (expire_sessions now) any.
Proof. unfold expire_sessions. run. Qed.
Lemma expire_envelopes_keep now : holds ok (expire_envelopes now) any.
Proof. unfold expire_envelopes. run. intros l. apply envelopes_retain. Qed.

Lemma serve_mailbox_for_keep now d : holds ok (serve_mailbox_for now d) any.
Proof.
  unfold serve_mailbox_for. do 2 keep_step; [run|]. keep_step. keep_step. keep_step; [|run]. keep_step.
  eapply holds_bind; [by apply take_keep|]. intros o Ho. eapply holds_for_each with (P := MailboxInv.outgoing d); [|intros [id env] [? ?]; run|done].
  destruct o as [l|]; [by apply Ho|constructor].
Qed.
Hint Resolve serve_mailbox_for_keep : keep.
Lemma serve_mailbox_keep now : holds ok (serve_mailbox now) any.
Proof.
  unfold serve_mailbox. run. apply (holds_any _ _ (fun o => forall a, o = Some a -> any a)), mailbox_call_keep. intros m Hm.
  split; [|done]. by apply MailboxInv.gc_inv.
Qed.
Hint Resolve expire_caches_keep expire_sessions_keep expire_envelopes_keep serve_mailbox_keep : keep.
Lemma housekeeping_keep now : holds ok (housekeeping now) any.
Proof. unfold housekeeping. run; [intros l [Hl Hf]; split; [by apply bounded_retain|by apply Forall_retain]|intros q; apply tx_retain_fld]. Qed.
Hint Resolve housekeeping_keep : keep.

(** ** Sleep and timers *)

Lemma shift_timers_keep slept : holds ok (shift_timers slept) any.
Proof.
  unfold shift_timers. run.
  - intros m Hm. apply map_ok_values; [done|]. by intros k v (? & ? & ?).
  - intros s. apply IerpInv.shift_fld.
  - intros t. apply (TransportInv.shift_transport_inv (R := R)).
  - intros l [Hl Hf]. split; [unfold zlen in *; by rewrite length_fmap|]. apply Forall_fmap. by eapply Forall_impl; [exact Hf|].
Qed.
Lemma on_wake_keep now : holds ok (on_wake now) any.
Proof. unfold on_wake. run. apply holds_modify; [|done]. intros n Hn. by apply field_set. Qed.
Hint Resolve shift_timers_keep on_wake_keep : keep.
Lemma poll_power_keep now : holds ok (poll_power now) any.
Proof.
  unfold poll_power. run.
  - unfold PowerFacts.log_bounded. by rewrite PowerFacts.tick_log.
  - intros p Hp. unfold PowerFacts.log_bounded. by rewrite PowerFacts.delay_wake_log.
  - intros q. apply tx_retain_fld.
Qed.
Lemma poll_fetch_keep now : holds ok (poll_fetch now) any.
Proof. unfold poll_fetch. run. Qed.

Lemma mark_forwarded_keep key : holds ok (modify (upd_seen (SeenCache.mark_forwarded key)) : M unit) any.
Proof. run. intros s. apply (cop_fld _ (StormFacts.Mark key)). Qed.
Hint Resolve mark_forwarded_keep : keep.
Lemma poll_relays_keep now : holds ok (poll_relays now) any.
Proof.
  unfold poll_relays. apply holds_bind_gets. intros n Hn. apply holds_bind with (P := Forall (fun e => carried c i heard e.2)).
  - apply holds_call. intros x. apply sched_due_fld.
  - intros due Hd. eapply holds_for_each; [exact Hd| |done]. intros [key p] Hp. simpl in Hp. run.
Qed.

Lemma replies_due now s : rrep_inv c i heard s -> rrep_inv c i heard (PendingReplies.due now s).1 /\ Forall (good c i heard) (PendingReplies.due now s).2.
Proof.
  intros [Hl Hf]. unfold PendingReplies.due. enough (zlen (PendingReplies.due_loop now (pr_items s)).1 <= zlen (pr_items s) /\
    Forall (fun e : ReplyItem => good c i heard e.2) (PendingReplies.due_loop now (pr_items s)).1 /\ Forall (good c i heard) (PendingReplies.due_loop now (pr_items s)).2) as (H1 & H2 & H3).
  { destruct (PendingReplies.due_loop now (pr_items s)) as [k o]. simpl in *. split; [|done]. split; [simpl; etrans; [exact H1|exact Hl]|done]. }
  clear Hl. induction Hf as [|[[[[o r] cost] d] p] l Hp Hf IH]; [by repeat constructor|]. simpl. destruct (PendingReplies.due_loop now l) as [k out].
  simpl in *. destruct IH as (? & ? & ?). case_decide; simpl; rewrite ?zlen_cons; (split; [lia|]); split; try done; by apply Forall_cons_2.
Qed.

Lemma poll_discovery_keep now : holds ok (poll_discovery now) any.
Proof.
  unfold poll_discovery. apply holds_bind with (P := Forall (good c i heard)); [apply holds_call; intros s; apply replies_due|]. intros replies Hr.
  apply (holds_bind _ _ _ any); [|intros _ _].
  { eapply holds_for_each; [exact Hr| |done]. intros p Hp. run. }
  apply holds_bind with (P := fun r => Forall (fun f => Forall (IerpInv.parked (good c i heard) f.1) f.2) r.2).
  - intros n Hn. unfold wpe. destruct (IerpInv.tick_fld (good c i heard) (c_zrp c) next_u32 now (n_rng n) (n_ierp n) (ok_ierp _ _ _ _ Hn)) as (s' & rt & fl & g' & Ht & H1 & H2).
    rewrite Ht. split; [|done]. apply field_set; [by apply field_set|done].
  - intros [retries failures] Hf. simpl in Hf. apply (holds_bind _ _ _ any); [|intros _ _].
    + apply holds_true; [|done]. intros [[t req] ttl]. run.
    + eapply holds_for_each; [exact Hf| |done]. intros [t queued] Hq. by apply on_discovery_failed_keep.
Qed.

Lemma poll_transport_keep now : holds ok (poll_transport now) any.
Proof.
  unfold poll_transport. apply holds_bind with (P := fun r => Forall TransportInv.out_ok r.1).
  - intros n Hn. unfold wpe. destruct (TransportInv.tick_transport_inv _ now (n_rng n) _ (ok_transport _ _ _ _ Hn)) as (H1 & H2 & H3).
    destruct (Transport.tick now (n_rng n) (n_transport n)) as [[t [rt fl]] g]. simpl in *. split; [|done]. apply field_set; [by apply field_set|done].
  - intros [retries failed] Hf. simpl in Hf. apply (holds_bind _ _ _ any); [|intros _ _; run].
    eapply holds_for_each; [exact Hf| |done]. intros o. by apply retry_outstanding_keep.
Qed.

Lemma poll_handshakes_keep now : holds ok (poll_handshakes now) any.
Proof.
  unfold poll_handshakes. apply holds_bind_gets. intros n0 _. apply holds_bind_gets. intros n Hn. apply (holds_bind _ _ _ any); [|intros _ _; run].
  eapply holds_for_each with (P := fun e => tiny e.2); [|intros [a m1] Hm; simpl in Hm; run|done].
  apply Forall_fmap, Forall_retain. pose proof (ok_handshakes _ _ _ _ Hn) as [_ Hh]. eapply Forall_impl; [exact Hh|]. by intros [a h] (_ & _ & ? & _).
Qed.

Lemma poll_traces_keep now : holds ok (poll_traces now) any.
Proof. unfold poll_traces. keep_step. apply holds_true; [|done]. intros d. run. intros l. apply bounded_retain. Qed.
Hint Resolve poll_power_keep poll_fetch_keep poll_relays_keep poll_discovery_keep poll_transport_keep poll_handshakes_keep
  poll_traces_keep : keep.

Lemma poll_keep now : holds ok (poll now) any.
Proof. unfold poll. run. Qed.

Lemma next_tx_keep now : holds ok (next_tx now) any.
Proof.
  unfold next_tx. run; [by apply PowerFacts.can_transmit_log|intros q; apply tx_remove_fld|intros pm; apply PowerFacts.record_tx_log].
Qed.
End Safe.
