(* ===== verification/NodeMain.v ===== *)
(** * The engine: theorems

    What the whole node guarantees: from [Node::new] on, whatever the
    application calls and whatever the radio delivers. *)
From stdpp Require Import base tactics list numbers.
From Stdlib Require Import Lia.
From S2P Require Import Prelude SmallMap Float32 Protocol Packet Fragmentation CryptoLib Identity Noise Replay Session Transport StoreForward Storm Routing Messages Ierp Power Beacon Radio Neighbor Zone Methods NodeState Calculus NodeTx NodeRx Node EngineInv NodeInv NodeSafe NodeRxSafe NodeTimersSafe.
From stdpp Require Import list.
#[local] Open Scope Z_scope.

Section Engine.
Context `{C : CryptoLib} {R : Type} `{G : RngCore R}.

(** ** The node's interface *)

Inductive api :=
| SendMessage (dst : Address) (payload : list Z) (reliability : Reliability)
| SendBroadcast (payload : list Z)
| Trace (dst : Address)
| CloseSession (peer : Address)
| AddKnownIdentity (id : PublicIdentity)
| RadioRx (frame : list Z) (meta : RxMeta)
| Poll (now : Z)
| NextTx (now : Z)
| NextEvent.

Definition run_api (a : api) : M R unit :=
  match a with
  | SendMessage dst payload rel => send_message dst payload rel;; mret ()
  | SendBroadcast payload => send_broadcast payload;; mret ()
  | Trace dst => trace dst
  | CloseSession peer => close_session peer
  | AddKnownIdentity id => add_known_identity id
  | RadioRx frame meta => on_radio_rx frame meta
  | Poll now => poll now
  | NextTx now => next_tx now;; mret ()
  | NextEvent => next_event;; mret ()
  end.

(** The arguments Rust's types allow: 8-byte addresses, bytes, payloads that fit
    the address space, identities made by [PublicIdentity::from_bytes]. *)
Definition api_ok (a : api) : Prop :=
  match a with
  | SendMessage dst _ _ => address_ok dst
  | SendBroadcast payload => sendable payload
  | AddKnownIdentity id => pubid_ok id
  | RadioRx frame _ => bytes_ok frame
  | _ => True
  end.

(** The states of a node created with [c] and [i], with the frames it received,
    the last one first. *)
Definition received (a : api) : list (list Z) := match a with RadioRx frame _ => [frame] | _ => [] end.
Inductive history (c : NodeConfig) (i : Identity) : list (list Z) -> Node R -> Prop :=
| hist_new rng now : history c i [] (new c i rng now)
| hist_api log n a : history c i log n -> api_ok a -> history c i (received a ++ log) (run_api a n).1.
Definition reachable (c : NodeConfig) (i : Identity) (n : Node R) : Prop := exists log, history c i log n.

Lemma reach_new c i rng now : reachable c i (new c i rng now).
Proof. exists []. constructor. Qed.
Lemma reach_api c i n a : reachable c i n -> api_ok a -> reachable c i (run_api a n).1.
Proof. intros [log Hn] Ha. exists (received a ++ log). by constructor. Qed.

(** ** The initial state *)

Context `{!CryptoLibLaws C, !RngCoreLaws R, !RngLive R}.

(** The configurations an application may pass to [new]: the TTL bound is set
    by [normalize]. *)
Definition user_config_ok (c : NodeConfig) : Prop :=
  RadioFacts.profile_ok (c_profile c) /\
  TransportFacts.config_ok (c_transport c) /\ MailboxFacts.config_ok (c_mailbox c) /\
  ReassemblerFacts.cfg_ok (c_reassembly c) /\ 0 <= discovery_attempts (c_zrp c) <= 255 /\
  1 <= cfg_alternatives (c_routing c) /\ 0 <= max_zone_entries (c_zrp c) /\ 0 <= c_hop_retries c.

Lemma normalize_ok c : user_config_ok c -> config_ok (normalize c).
Proof. intros (? & ? & ? & ? & ? & ? & ? & ?). unfold config_ok. simpl. repeat (split; [done|]). split; [lia|]. done. Qed.

Lemma small_mailbox_ok cfg : MailboxFacts.config_ok cfg -> MailboxFacts.config_ok (small_mailbox cfg).
Proof.
  intros (H1 & H2 & H3). unfold MailboxFacts.config_ok, small_mailbox. simpl.
  split; [|split; [|done]]; (split; [apply Z.div_pos; lia|apply Z.div_lt_upper_bound; lia]).
Qed.

Lemma new_node_ok c i heard rng now : user_config_ok c -> node_ok (normalize c) i heard (new c i rng now).
Proof.
  intros Hc. pose proof (normalize_ok c Hc) as Hn. destruct Hc as (Hp & Ht & Hm & Hra & Hz & Halt & Hze & Hh).
  unfold new. destruct (next_u32 rng) as [r1 g1]. destruct (next_u64 g1) as [r2 g2]. destruct (next_u32 g2) as [r3 g3]. destruct (next_u32 g3) as [r4 g4].
  split; cbn [n_cfg n_id n_neighbors n_zone n_routes n_ierp n_rrep_pending n_seen n_sched n_transport n_mailbox n_power n_reassembler n_sessions
    n_handshakes n_key_dir n_pending_envelopes n_tx_queue n_events n_opened_envelopes n_pending_traces n_held_for_sleeping n_hop_pending].
  1-2: done.
  - split; [apply NeighborFacts.new_table_ok|done].
  - split; [|split; [done|exact Hze]]. split; [apply SmallMapFacts.empty_wf|]. split; [apply SmallMapFacts.empty_wf|].
    split; [constructor|]. simpl. lia.
  - split; [|done]. split; [done|]. split; [apply SmallMapFacts.empty_wf|]. split; [|constructor]. change (0 <= Z.max 1 (max_destinations (c_routing c))). lia.
  - by apply IerpInv.new_fld.
  - by repeat constructor.
  - apply StormFacts.seen_cache_start.
  - split; simpl; [unfold zlen; simpl; lia|constructor].
  - by apply TransportInv.new_transport_inv.
  - unfold mailbox_inv, mailbox_budget. simpl. destruct (c_role c); [|done|]; apply MailboxInv.new_box_inv; [by apply small_mailbox_ok|done].
  - done.
  - split; [by apply ReassemblerFacts.new_ok|]. split; [done|]. intros key s Hg. done.
  - apply map_ok_empty.
  - apply map_ok_empty.
  - apply map_ok_empty.
  - by repeat constructor.
  - split; simpl; [unfold zlen; simpl; lia|constructor].
  - done.
  - done.
  - done.
  - done.
  - done.
Qed.

(** ** Every call keeps the invariant *)

(** The packets in the frames of a log, as the node decodes them. *)
Definition heard_in (c : NodeConfig) (log : list (list Z)) (p : Packet) : Prop := exists frame, frame ∈ log /\ decodes_to c frame p.

Lemma run_api_keep c i heard a :
  config_ok c -> identity_ok i -> api_ok a -> (forall p, heard_in c (received a) p -> heard p) ->
  holds (node_ok c i heard) (run_api a) any.
Proof.
  intros Hc Hi Ha Hh. destruct a; simpl in *; try (apply (holds_bind _ _ _ any); [|intros; by apply holds_ret]).
  - by apply send_message_keep.
  - by apply send_broadcast_keep.
  - by apply trace_keep.
  - by apply close_session_keep.
  - by apply add_known_identity_keep.
  - apply on_radio_rx_keep; [done..|]. intros p Hp. apply Hh. exists frame. split; [by apply list_elem_of_singleton|done].
  - by apply poll_keep.
  - by apply next_tx_keep.
  - by apply next_event_keep.
Qed.

Lemma history_ok c i log n :
  user_config_ok c -> identity_ok i -> history c i log n -> node_ok (normalize c) i (heard_in (normalize c) log) n.
Proof.
  intros Hc Hi. induction 1 as [rng now|log n a _ IH Ha]; [by apply new_node_ok|].
  set (log' := received a ++ log). assert (Hn : node_ok (normalize c) i (heard_in (normalize c) log') n).
  { eapply node_ok_mono, IH. intros p (f & Hf & Hp). exists f. split; [|done]. apply elem_of_app. by right. }
  assert (Hh : forall p, heard_in (normalize c) (received a) p -> heard_in (normalize c) log' p).
  { intros p (f & Hf & Hp). exists f. split; [|done]. apply elem_of_app. by left. }
  pose proof (run_api_keep _ _ _ a (normalize_ok c Hc) Hi Ha Hh n Hn) as Hw. unfold wpe in Hw.
  by destruct (run_api a n) as [n' [x|e|]]; [destruct Hw|..].
Qed.
Lemma reachable_ok c i n : user_config_ok c -> identity_ok i -> reachable c i n -> exists heard, node_ok (normalize c) i heard n.
Proof. intros Hc Hi [log Hn]. eexists. by apply history_ok. Qed.

(** C1. The engine never panics: from [Node::new], after any sequence of
    application calls, timer polls, transmissions and received frames, whatever
    bytes the frames hold, the next call returns a value or an error. *)
Theorem engine_never_panics (c : NodeConfig) (i : Identity) (n : Node R) (a : api) :
  user_config_ok c -> identity_ok i -> reachable c i n -> api_ok a -> (run_api a n).2 <> Panic.
Proof.
  intros Hc Hi Hn Ha. destruct (reachable_ok c i n Hc Hi Hn) as [heard Hok].
  pose proof (run_api_keep _ _ any a (normalize_ok c Hc) Hi Ha (fun _ _ => Logic.I) n) as Hw. unfold wpe in Hw.
  assert (Hany : node_ok (normalize c) i any n) by (by eapply node_ok_mono, Hok). specialize (Hw Hany).
  by destruct (run_api a n) as [n' [x|e|]].
Qed.

(** C5. Hard limits: in every state the engine reaches, whatever was received,
    the neighbour table, the zone's nodes, the routes and the alternatives of
    each, the discoveries under way, the route replies waiting, the duplicate
    cache, the scheduled relays, the messages in flight, the receive windows,
    the mailbox (bytes and messages), the reassembly buffers, the transmit and
    event queues, the envelopes waiting and opened, the traces, the packets held
    for sleeping leaves, the hops awaiting confirmation and the airtime log are
    within their configured or fixed limits.  (The code puts no such limit on
    sessions, on handshakes and what waits for them, on the key directory, on
    the zone's adjacency lists, and on the discovery's cache of requests and of
    past results.) *)
Theorem engine_bounded_memory (c : NodeConfig) (i : Identity) (n : Node R) :
  user_config_ok c -> identity_ok i -> reachable c i n ->
  NeighborTable.len (n_neighbors n) <= Z.max 1 (max_neighbors (c_neighbor c)) /\
  ZoneTable.len (n_zone n) <= max_zone_entries (c_zrp c) /\
  RouteCache.destinations (n_routes n) <= Z.max 1 (max_destinations (c_routing c)) /\
  (forall dst l, SmallMap.get (rc_routes (n_routes n)) dst = Some l -> zlen l <= cfg_alternatives (c_routing c)) /\
  SmallMap.len (ie_pending (n_ierp n)) <= Z.max 0 (max_pending_discoveries (c_zrp c)) /\
  zlen (pr_items (n_rrep_pending n)) <= 16 /\
  SmallMap.len (sc_map (n_seen n)) <= Z.max 1 (seen_cache_size (c_storm c)) /\
  zlen (rs_pending (n_sched n)) <= Z.max 0 (max_pending (c_storm c)) /\
  zlen (t_outstanding (n_transport n)) <= Z.max 0 (max_in_flight (c_transport c)) /\
  SmallMap.len (t_windows (n_transport n)) <= Z.max 1 (max_peers (c_transport c)) /\
  (forall m, n_mailbox n = Some m -> mb_bytes m <= StoreForward.max_bytes (c_mailbox c) /\
     zlen (mb_entries m) <= StoreForward.max_entries (c_mailbox c)) /\
  Reassembler.bytes_held (n_reassembler n) <= Fragmentation.max_bytes (c_reassembly c) /\
  zlen (n_tx_queue n) <= Z.max 0 (c_max_tx_queue c) /\ zlen (n_events n) <= 256 /\
  zlen (n_pending_envelopes n) <= 16 /\ zlen (n_opened_envelopes n) <= 64 /\ zlen (n_pending_traces n) <= 4 /\
  zlen (n_held_for_sleeping n) <= 16 /\ zlen (n_hop_pending n) <= 24 /\ zlen (pm_tx_log (n_power n)) <= 4096.
Proof.
  intros Hc Hi Hn. destruct (reachable_ok c i n Hc Hi Hn) as [heard Hok]. destruct Hc as (_ & _ & (Hm1 & Hm2 & _) & _).
  repeat match goal with |- _ /\ _ => split end.
  - destruct (ok_neighbors _ _ _ _ Hok) as [(_ & _ & H) Ht]. by rewrite Ht in H.
  - apply (ok_zone _ _ _ _ Hok).
  - destruct (ok_routes _ _ _ _ Hok) as [(_ & _ & H & _) Ht]. by rewrite Ht in H.
  - intros dst l Hl. destruct (ok_routes _ _ _ _ Hok) as [H Ht]. destruct (RoutingFacts.list_ok_get _ _ _ H Hl) as (_ & Hlen & _). by rewrite Ht in Hlen.
  - destruct (ok_ierp _ _ _ _ Hok) as [[(_ & _ & _ & _ & H & _) _] Ht]. by rewrite Ht in H.
  - apply (ok_rrep _ _ _ _ Hok).
  - destruct (ok_seen _ _ _ _ Hok) as [(_ & _ & _ & _ & H) Ht]. rewrite Ht in H. simpl in H. lia.
  - apply (ok_sched _ _ _ _ Hok).
  - destruct (ok_transport _ _ _ _ Hok) as ((_ & H & _) & Ht & _). by rewrite Ht in H.
  - destruct (ok_transport _ _ _ _ Hok) as ((_ & _ & _ & _ & H) & Ht & _). by rewrite Ht in H.
  - intros m Hm. pose proof (ok_mailbox _ _ _ _ Hok) as Hb. rewrite Hm in Hb. destruct Hb as ((_ & _ & _ & H1 & H2 & _) & Ht & _). rewrite Ht in *.
    unfold mailbox_budget in *. simpl in *. assert (forall x, 0 <= x -> x / 8 <= x) by (intros x ?; apply Z.div_le_upper_bound; lia).
    destruct (c_role c); simpl in *; split; (etrans; [eassumption|]); first [lia | apply H; lia].
  - destruct (ok_reassembler _ _ _ _ Hok) as ((_ & _ & _ & H & _) & Ht & _). by rewrite Ht in H.
  - apply (ok_tx _ _ _ _ Hok).
  - apply (ok_events _ _ _ _ Hok).
  - apply (ok_envelopes _ _ _ _ Hok).
  - apply (ok_opened _ _ _ _ Hok).
  - apply (ok_traces _ _ _ _ Hok).
  - apply (ok_held _ _ _ _ Hok).
  - apply (ok_hops _ _ _ _ Hok).
  - apply (ok_power _ _ _ _ Hok).
Qed.

(** C4. Identity binding: in every state the engine reaches, a session, a known
    key and a neighbour's identity filed under an address are valid identities
    whose key hashes to that very address. *)
Theorem engine_identity_binding (c : NodeConfig) (i : Identity) (n : Node R) (a : Address) :
  user_config_ok c -> identity_ok i -> reachable c i n ->
  (forall s, SmallMap.get (n_sessions n) a = Some s -> pubid_ok (s_peer s) /\ from_public_key (pi_verifying (s_peer s)) = a) /\
  (forall id, known_key a n = Some id -> pubid_ok id /\ from_public_key (pi_verifying id) = a) /\
  (forall nb id, neighbor a n = Some nb -> nb_identity nb = Some id -> pubid_ok id /\ from_public_key (pi_verifying id) = a).
Proof.
  intros Hc Hi Hn. destruct (reachable_ok c i n Hc Hi Hn) as [heard Hok].
  assert (Hk : forall id, key_entry (a, id) -> pubid_ok id /\ from_public_key (pi_verifying id) = a).
  { intros id [Ha Hp]. split; [done|]. unfold pubid_ok in Hp. apply pubid_from_bytes_inv in Hp as (_ & He & _). simpl in *. congruence. }
  split; [|split].
  - intros s Hs. destruct (map_ok_get _ _ _ _ (ok_sessions _ _ _ _ Hok) Hs) as (H1 & H2 & _). by apply Hk.
  - intros id Hid. apply Hk. by apply (map_ok_get _ _ _ _ (ok_keys _ _ _ _ Hok)).
  - intros nb id Hnb Hid. apply Hk. apply (neighbor_key (normalize c) i heard a n id Hok). by rewrite Hnb.
Qed.

(** C3. What the application is told is genuine.  In every state the engine
    reaches, a queued message event carries the payload of a packet in a frame
    the node received from the named sender (or of all fragments of one
    message, each received from it), as its protection says: decrypted under a
    session whose keys and peer come out of a handshake this node ran under its
    own identity on messages it received, the peer's key hashing to the sender's
    address; opened from an envelope sealed to this node by such an identity;
    decrypted under this node's network key; or in the clear.  A delivery is
    announced only on an acknowledgement of the destination that came in one of
    the first two ways. *)
Theorem engine_events_genuine (c : NodeConfig) (i : Identity) (log : list (list Z)) (n : Node R) (e : NodeEvent) :
  user_config_ok c -> identity_ok i -> history c i log n -> e ∈ n_events n ->
  let heard p := exists frame, frame ∈ log /\ packet_decode hmac_sha256 frame (c_network_key c) (c_max_ttl (normalize c)) = Ok p in
  match e with
  | MessageReceived from _ payload InSession _ _ _ _ => from_session (R := R) i heard Data from payload
  | MessageReceived from _ payload InEnvelope _ _ _ _ => from_envelope i heard Data from payload
  | MessageReceived from _ payload Group _ _ _ _ => from_group c heard from payload
  | MessageReceived from _ payload Plaintext _ _ _ _ => from_plain heard from payload
  | Delivered _ to _ =>
      (exists body a, from_session (R := R) i heard Protocol.Ack to body /\ ack_decode body = Ok a /\ ack_st a = ack_status.DELIVERED) \/
      (exists body, from_envelope i heard Protocol.Ack to body)
  | _ => True
  end.
Proof.
  intros Hc Hi Hn He heard. pose proof (ok_events _ _ _ _ (history_ok c i log n Hc Hi Hn)) as [_ Hf]. pose proof (Forall_elem _ _ _ Hf He) as Hg.
  by destruct e as [? ? ? []| | | | | | | | | | | |].
Qed.
(** C2. The relay is transparent: every frame the engine queues is the encoding
    of a packet of its own, or, if its role relays, of one it passes on; and a
    message, handshake, acknowledgement or mailbox packet it passes on came in
    a frame it received with the same type, flags, addresses, identifiers and
    payload, and at least as much time to live left. *)
Theorem engine_transparent (c : NodeConfig) (i : Identity) (log : list (list Z)) (n : Node R) (item : TxItem) :
  user_config_ok c -> identity_ok i -> history c i log n -> item ∈ n_tx_queue n ->
  exists p, packet_encode hmac_sha256 p (c_network_key c) = Ok (tx_frame item) /\
  (h_src (p_header p) = id_address i \/
   role_relays (c_role c) = true /\
   (end_to_end (h_ptype (p_header p)) = true ->
    exists frame q, frame ∈ log /\ packet_decode hmac_sha256 frame (c_network_key c) (c_max_ttl (normalize c)) = Ok q /\ same_message q p)).
Proof.
  intros Hc Hi Hn Hit. destruct (ok_tx _ _ _ _ (history_ok c i log n Hc Hi Hn)) as [_ Hf].
  destruct (Forall_elem _ _ _ Hf Hit) as (p & Hp & He). exists p. split; [exact He|]. destruct Hp as [Hp|[Hr Hp]]; [by left|right].
  split; [exact Hr|]. intros Ht. destruct (Hp Ht) as (q & (frame & Hl & Hd) & Hs). by exists frame, q.
Qed.
End Engine.

(** ** Two nodes on one channel

    A small simulation with the toy primitives: both nodes are polled, then
    each one's ready frames reach the other. *)
Module NodeExamples.
#[export] Instance live : RngLive Z.
Proof.
  intros r. unfold ID_DRAWS. cbn [draw_id next_u32 ToyRng.rng]. destruct (decide (u32 (r * 2654435769) <> 0)) as [|H1]; [done|].
  destruct (decide (u32 ((r + 1) * 2654435769) <> 0)) as [|H2]; [done|]. exfalso. apply dec_stable in H1, H2.
  unfold u32, wrap in H1, H2. assert (H3 : ((r + 1) * 2654435769 - r * 2654435769) mod 2 ^ 32 = 0).
  { rewrite Zminus_mod, H1, H2. done. }
  replace ((r + 1) * 2654435769 - r * 2654435769) with 2654435769 in H3 by lia. done.
Qed.

Definition alice0 : Node Z := new NodeConfig_default NoiseExamples.alice 1 0.
Definition bob0 : Node Z := new NodeConfig_default NoiseExamples.bob 1000 0.
Definition alice_addr : Address := id_address NoiseExamples.alice.
Definition bob_addr : Address := id_address NoiseExamples.bob.

(** [k] frames at most go from [x] to [y]. *)
Fixpoint pump (k : nat) (t : Z) (x y : Node Z) : Node Z * Node Z :=
  match k with
  | O => (x, y)
  | S k' =>
      match next_tx t x with
      | (x', Ok (Some item)) =>
          if decide (bytes_ok (tx_frame item))
          then pump k' t x' (run_api (RadioRx (tx_frame item) (RxMeta_new (-80) (f32_of 5) t)) y).1 else (x', y)
      | (x', _) => (x', y)
      end
  end.
Definition tick (xy : Node Z * Node Z) (t : Z) : Node Z * Node Z :=
  let x := (run_api (Poll t) xy.1).1 in
  let y := (run_api (Poll t) xy.2).1 in
  let '(x, y) := pump 10 t x y in
  let '(y, x) := pump 10 t y x in (x, y).
(** Beacons; then Alice sends; then handshake, data and acknowledgement. *)
Definition met : Node Z * Node Z := foldl tick (alice0, bob0) [30000; 31000].
Definition send_to_bob (xy : Node Z * Node Z) : Node Z * Node Z :=
  ((run_api (SendMessage bob_addr [1; 2; 3] Acknowledged) xy.1).1, xy.2).
Definition done_ : Node Z * Node Z := foldl tick (send_to_bob met) [32000; 33000; 34000; 35000; 36000; 37000; 38000; 39000].

(** Both nodes stay within the states of the theorems. *)
Definition both_reachable (xy : Node Z * Node Z) : Prop :=
  reachable (C := ToyCrypto.lib) NodeConfig_default NoiseExamples.alice xy.1 /\
  reachable (C := ToyCrypto.lib) NodeConfig_default NoiseExamples.bob xy.2.
Lemma next_tx_reachable c i t n : reachable (C := ToyCrypto.lib) c i n -> reachable c i (next_tx t n).1.
Proof.
  intros Hn. pose proof (reach_api c i n (NextTx t) Hn Logic.I) as Hr. simpl in Hr. unfold mbind, St_bind in Hr.
  by destruct (next_tx t n) as [n' [x|e|]].
Qed.
Lemma pump_reachable c i c' i' k t x y :
  reachable (C := ToyCrypto.lib) c i x -> reachable c' i' y ->
  reachable c i (pump k t x y).1 /\ reachable c' i' (pump k t x y).2.
Proof.
  revert x y. induction k as [|k IH]; intros x y Hx Hy; [done|]. cbn [pump]. pose proof (next_tx_reachable c i t x Hx) as Hx'.
  destruct (next_tx t x) as [x' [[item|]|e|]]; [|done..]. destruct (decide (bytes_ok (tx_frame item))) as [Hb|]; [|done].
  apply IH; [done|]. by apply reach_api.
Qed.
Lemma tick_reachable xy t : both_reachable xy -> both_reachable (tick xy t).
Proof.
  intros [Hx Hy]. unfold tick. pose proof (reach_api _ _ _ (Poll t) Hx Logic.I) as Hx'. pose proof (reach_api _ _ _ (Poll t) Hy Logic.I) as Hy'.
  destruct (pump_reachable _ _ _ _ 10 t _ _ Hx' Hy') as [H1 H2]. destruct (pump 10 t _ _) as [x y]. cbn [fst snd] in *.
  destruct (pump_reachable _ _ _ _ 10 t _ _ H2 H1) as [H3 H4]. by destruct (pump 10 t y x).
Qed.
Lemma ticks_reachable l xy : both_reachable xy -> both_reachable (foldl tick xy l).
Proof. revert xy. induction l as [|t l IH]; intros xy Hxy; [done|]. by apply IH, tick_reachable. Qed.
Lemma start_reachable : both_reachable (alice0, bob0).
Proof. exact (conj (reach_new NodeConfig_default NoiseExamples.alice 1 0) (reach_new NodeConfig_default NoiseExamples.bob 1000 0)). Qed.
Lemma bob_addr_ok : address_ok bob_addr.
Proof. split; [reflexivity|]. apply (bool_decide_unpack _). vm_compute. exact Logic.I. Qed.
Lemma send_reachable xy : both_reachable xy -> both_reachable (send_to_bob xy).
Proof. intros [H1 H2]. exact (conj (reach_api _ _ _ (SendMessage bob_addr [1; 2; 3] Acknowledged) H1 bob_addr_ok) H2). Qed.
Lemma met_reachable : both_reachable met.
Proof. exact (ticks_reachable _ _ start_reachable). Qed.
Lemma done_reachable : both_reachable done_.
Proof. exact (ticks_reachable _ _ (send_reachable _ met_reachable)). Qed.
Lemma default_config_ok : user_config_ok NodeConfig_default.
Proof.
  split; [unfold RadioFacts.profile_ok; simpl; lia|]. split; [apply TransportFacts.transport_default_ok|].
  split; [apply MailboxFacts.mailbox_default_ok|]. repeat split; by vm_compute.
Qed.
End NodeExamples.
Import NodeExamples.

Definition ex_frame : list Z := [16; 0; 255].
Definition ex_meta : RxMeta := RxMeta_new (-90) (f32_of 2) 40000.
Lemma ex_frame_ok : bytes_ok ex_frame.
Proof. by apply (bool_decide_unpack _). Qed.
Lemma engine_never_panics_witness : (run_api (RadioRx ex_frame ex_meta) done_.1).2 <> Panic.
Proof.
  exact (engine_never_panics NodeConfig_default NoiseExamples.alice done_.1 (RadioRx ex_frame ex_meta) default_config_ok NoiseExamples.alice_ok
    (proj1 done_reachable) ex_frame_ok).
Defined.

Lemma engine_bounded_memory_witness : NeighborTable.len (n_neighbors done_.1) <= 48 /\ zlen (n_events done_.1) <= 256.
Proof.
  pose proof (engine_bounded_memory NodeConfig_default NoiseExamples.alice done_.1 default_config_ok NoiseExamples.alice_ok (proj1 done_reachable))
    as (H1 & _ & _ & _ & _ & _ & _ & _ & _ & _ & _ & _ & _ & H2 & _). split; [exact H1|exact H2].
Defined.

(** What the run leaves behind. *)
Lemma done_session : bool_decide (is_Some (SmallMap.get (n_sessions done_.1) bob_addr)) = true.
Proof. vm_compute. reflexivity. Qed.
Lemma done_message : exists seq meta_rssi snr relay,
  n_events done_.2 !! 2%nat = Some (MessageReceived alice_addr seq [1; 2; 3] InSession 0 meta_rssi snr relay).
Proof. do 4 eexists. vm_compute. reflexivity. Qed.

Lemma engine_identity_binding_witness :
  exists s, SmallMap.get (n_sessions done_.1) bob_addr = Some s /\ from_public_key (pi_verifying (s_peer s)) = bob_addr.
Proof.
  pose proof done_session as Hs. apply bool_decide_eq_true in Hs as [s Hs]. exists s. split; [exact Hs|].
  destruct (engine_identity_binding NodeConfig_default NoiseExamples.alice done_.1 bob_addr default_config_ok NoiseExamples.alice_ok
    (proj1 done_reachable)) as [Hb _]. exact (proj2 (Hb s Hs)).
Defined.

Lemma engine_events_genuine_witness :
  exists log, history (C := ToyCrypto.lib) NodeConfig_default NoiseExamples.bob log done_.2 /\
    from_session (R := Z) NoiseExamples.bob
      (fun p => exists frame, frame ∈ log /\ packet_decode hmac_sha256 frame (c_network_key NodeConfig_default) (c_max_ttl (normalize NodeConfig_default)) = Ok p)
      Data alice_addr [1; 2; 3].
Proof.
  destruct done_message as (seq & rssi & snr & relay & E). destruct (proj2 done_reachable) as [log Hl]. exists log. split; [exact Hl|].
  exact (engine_events_genuine NodeConfig_default NoiseExamples.bob log done_.2 _ default_config_ok NoiseExamples.bob_ok
    Hl (list_elem_of_lookup_2 _ _ _ E)).
Defined.

(** A broadcast of Alice's that Bob, who has no neighbours yet, passes on. *)
Definition broadcast_frame : list Z := default [] (tx_frame <$> head (n_tx_queue (run_api (SendBroadcast [7; 7]) alice0).1)).
Definition bob_heard : Node Z := (run_api (RadioRx broadcast_frame (RxMeta_new (-80) (f32_of 5) 40000)) bob0).1.
Definition bob_relays : Node Z := (run_api (Poll 45000) bob_heard).1.
Lemma broadcast_frame_ok : bytes_ok broadcast_frame.
Proof. apply (bool_decide_unpack _). vm_compute. exact Logic.I. Qed.
Lemma bob_relays_history : history (C := ToyCrypto.lib) NodeConfig_default NoiseExamples.bob [broadcast_frame] bob_relays.
Proof.
  exact (hist_api _ _ _ _ (Poll 45000) (hist_api _ _ _ _ (RadioRx broadcast_frame _) (hist_new _ _ 1000 0) broadcast_frame_ok) Logic.I).
Qed.
Lemma bob_relays_queue : exists beacon item, n_tx_queue bob_relays = [beacon; item].
Proof. do 2 eexists. vm_compute. reflexivity. Qed.
Lemma engine_transparent_witness :
  exists item p, n_tx_queue bob_relays !! 1%nat = Some item /\ packet_encode hmac_sha256 p (c_network_key NodeConfig_default) = Ok (tx_frame item) /\
  (h_src (p_header p) = bob_addr \/ role_relays (c_role NodeConfig_default) = true /\
   (end_to_end (h_ptype (p_header p)) = true ->
    exists q, packet_decode hmac_sha256 broadcast_frame (c_network_key NodeConfig_default) 64 = Ok q /\ same_message q p)).
Proof.
  destruct bob_relays_queue as (beacon & item & E).
  assert (Hin : n_tx_queue bob_relays !! 1%nat = Some item) by (rewrite E; reflexivity).
  destruct (engine_transparent NodeConfig_default NoiseExamples.bob [broadcast_frame] bob_relays item default_config_ok NoiseExamples.bob_ok
    bob_relays_history (list_elem_of_lookup_2 _ _ _ Hin)) as (p & He & Hp).
  exists item, p. split; [exact Hin|]. split; [exact He|]. destruct Hp as [Hp|[Hr Hp]]; [left; exact Hp|right; split; [exact Hr|]].
  intros Ht. destruct (Hp Ht) as (frame & q & Hf & Hd & Hs). apply list_elem_of_singleton in Hf. subst frame. exists q. split; [exact Hd|exact Hs].
Defined.

(** Two nodes that never met exchange beacons, run the handshake on demand and
    deliver the message, once, over the encrypted session; the sender is told. *)
Example two_nodes_deliver :
  exists rtt seq, n_events done_.1 = [NeighborUp bob_addr; SessionEstablished bob_addr; Delivered 1 bob_addr rtt] /\
  n_events done_.2 = [NeighborUp alice_addr; SessionEstablished alice_addr;
    MessageReceived alice_addr seq [1; 2; 3] InSession 0 (-80) (f32_of 5) None].
Proof. eexists _, _. vm_compute. split; reflexivity. Qed.
