(* ===== verification/RelayState.v ===== *)
(** * The relay: state and transmit path

    [crates/meshstar-core/src/relay/mod.rs]: the forwarding half of a node for
    small boards.  Here: identities, configuration, the [Relay] structure, and
    the methods below the receive path and the timers: headers, the transmit
    queue, next hops, route control packets and hop-by-hop reliability.

    A [&mut self] method is a value of [St (Relay I R) Error A]; the identity is
    any [I] with [RelayIdentity] and the generator any [R] with [RngCore]. *)
From stdpp Require Import base tactics list numbers.
From Stdlib Require Import Lia.
From S2P Require Import Prelude SmallMap Float32 Protocol Packet CryptoLib Identity Storm Routing Messages Ierp Beacon Radio Neighbor Zone Methods NodeState NodeTx NodeRx Node.
#[local] Open Scope Z_scope.

(** ** Identities *)

(** How a relay presents itself in beacons. *)
Class RelayIdentity (I : Type) := {
  ri_address : I -> Address;
  ri_sign_beacon : I -> Z -> Beacon -> Beacon
}.

Record SignedIdentity := mkSignedIdentity { si_identity : Identity }.
#[export] Instance signed_relay_identity `{C : CryptoLib} : RelayIdentity SignedIdentity := {
  ri_address s := id_address (si_identity s);
  ri_sign_beacon s timestamp b := Beacon.sign (si_identity s) timestamp b
}.

Record UnsignedIdentity := mkUnsignedIdentity { ui_address : Address }.
Definition UnsignedIdentity_from_public_key `{C : CryptoLib} (pk : list Z) : UnsignedIdentity :=
  mkUnsignedIdentity (from_public_key pk).
#[export] Instance unsigned_relay_identity : RelayIdentity UnsignedIdentity := {
  ri_address s := ui_address s;
  ri_sign_beacon _ _ b := b
}.

Module relay_prio.
Definition CONTROL : Z := 0.
Definition DATA : Z := 1.
Definition BEACON : Z := 2.
Definition RELAY : Z := 3.
End relay_prio.

(** ** Configuration and counters *)

Record RelayConfig := mkRelayConfig {
  rcf_profile : LoRaProfile;
  rcf_network_key : option NetworkKey;
  rcf_max_ttl : Z;
  rcf_neighbor : NeighborConfig;
  rcf_zrp : ZrpConfig;
  rcf_routing : RoutingConfig;
  rcf_storm : StormConfig;
  rcf_hop_retries : Z;
  rcf_hop_ack_timeout_ms : Z;
  rcf_unicast_forward_jitter_ms : Z;
  rcf_max_tx_queue : Z;
  rcf_max_held : Z;
  rcf_max_hop_pending : Z
}.

Definition RelayConfig_default : RelayConfig :=
  let profile := LoRaProfile.MESHSTAR_EU868 in
  let nd := NeighborConfig_default in
  let neighbor := mkNeighborConfig (beacon_interval_ms nd) (beacon_jitter_ms nd) (full_beacon_every nd) (timeout_intervals nd)
    12 (ewma_alpha nd) (LoRaProfile.demod_snr_db profile) in
  let zd := ZrpConfig_default in
  let zrp := mkZrpConfig (zone_radius zd) (discovery_attempts zd) (discovery_timeout_ms zd) (discovery_per_hop_ms zd)
    2 2 24 6 (better_cost_percent zd) (discovery_holdoff_ms zd) in
  let rd := RoutingConfig_default in
  let routing := mkRoutingConfig 16 1 (route_ttl_ms rd) (max_failures rd) in
  let sd := StormConfig_default in
  let storm := mkStormConfig 48 (seen_ttl_ms sd) (min_delay_ms sd) (max_delay_ms sd) (counter_threshold sd)
    (density_threshold sd) (min_forward_percent sd) 3 in
  mkRelayConfig profile None 32 neighbor zrp routing storm 2 1500 60 4 2 4.

(** The [RelayStats] structure as a total map from its fields, all [u32]. *)
Inductive RelayStat :=
  | rst_rx_packets | rst_rx_bad | rst_rx_duplicates | rst_tx_packets | rst_relayed | rst_beacons_sent | rst_rreq_relayed
  | rst_hop_retransmissions | rst_hop_failures | rst_suppressed | rst_route_repairs | rst_tx_dropped.
#[global] Instance RelayStat_eq_dec : EqDecision RelayStat.
Proof. solve_decision. Defined.
Definition RelayStats : Type := RelayStat -> Z.
Definition RelayStats_default : RelayStats := fun _ => 0.
(** [self.stats.k += 1]. *)
Definition add_stat (k : RelayStat) (s : RelayStats) : RelayStats := fun j => if decide (j = k) then u32 (s k + 1) else s j.

Record HopPending := mkHopPending {
  ho_key : PacketKey; ho_next_hop : Address; ho_packet : Packet; ho_attempts : Z; ho_due : Z; ho_rerouted : bool
}.

(** ** The structure *)

Section Relay.
Context {I R : Type}.

Record Relay := mkRelay {
  rl_cfg : RelayConfig;
  rl_id : I;
  rl_rng : R;
  rl_now : Z;
  rl_neighbors : NeighborTable;
  rl_zone : ZoneTable;
  rl_routes : RouteCache;
  rl_ierp : Ierp;
  rl_sched : RebroadcastScheduler;
  rl_seen : SeenCache;
  rl_hop_pending : list HopPending;
  rl_tx_queue : list TxItem;
  rl_held : list (Address * Packet * Z);
  rl_next_beacon : Z;
  rl_last_beacon_at : Z;
  rl_beacon_seq : Z;
  rl_beacons_sent : Z;
  rl_last_neighbor_count : Z;
  rl_packet_ids : Z;
  rl_last_housekeeping : Z;
  rl_airtime_ms : Z;
  rl_stats : RelayStats
}.

(** One updater per field. *)
Definition rl_upd_cfg (f : RelayConfig -> RelayConfig) (s : Relay) : Relay :=
  mkRelay
    (f (rl_cfg s)) (rl_id s) (rl_rng s) (rl_now s) (rl_neighbors s) (rl_zone s) (rl_routes s) (rl_ierp s)
    (rl_sched s) (rl_seen s) (rl_hop_pending s) (rl_tx_queue s) (rl_held s) (rl_next_beacon s)
    (rl_last_beacon_at s) (rl_beacon_seq s) (rl_beacons_sent s) (rl_last_neighbor_count s) (rl_packet_ids s)
    (rl_last_housekeeping s) (rl_airtime_ms s) (rl_stats s).
Definition rl_upd_id (f : I -> I) (s : Relay) : Relay :=
  mkRelay
    (rl_cfg s) (f (rl_id s)) (rl_rng s) (rl_now s) (rl_neighbors s) (rl_zone s) (rl_routes s) (rl_ierp s)
    (rl_sched s) (rl_seen s) (rl_hop_pending s) (rl_tx_queue s) (rl_held s) (rl_next_beacon s)
    (rl_last_beacon_at s) (rl_beacon_seq s) (rl_beacons_sent s) (rl_last_neighbor_count s) (rl_packet_ids s)
    (rl_last_housekeeping s) (rl_airtime_ms s) (rl_stats s).
Definition rl_upd_rng (f : R -> R) (s : Relay) : Relay :=
  mkRelay
    (rl_cfg s) (rl_id s) (f (rl_rng s)) (rl_now s) (rl_neighbors s) (rl_zone s) (rl_routes s) (rl_ierp s)
    (rl_sched s) (rl_seen s) (rl_hop_pending s) (rl_tx_queue s) (rl_held s) (rl_next_beacon s)
    (rl_last_beacon_at s) (rl_beacon_seq s) (rl_beacons_sent s) (rl_last_neighbor_count s) (rl_packet_ids s)
    (rl_last_housekeeping s) (rl_airtime_ms s) (rl_stats s).
Definition rl_upd_now (f : Z -> Z) (s : Relay) : Relay :=
  mkRelay
    (rl_cfg s) (rl_id s) (rl_rng s) (f (rl_now s)) (rl_neighbors s) (rl_zone s) (rl_routes s) (rl_ierp s)
    (rl_sched s) (rl_seen s) (rl_hop_pending s) (rl_tx_queue s) (rl_held s) (rl_next_beacon s)
    (rl_last_beacon_at s) (rl_beacon_seq s) (rl_beacons_sent s) (rl_last_neighbor_count s) (rl_packet_ids s)
    (rl_last_housekeeping s) (rl_airtime_ms s) (rl_stats s).
Definition rl_upd_neighbors (f : NeighborTable -> NeighborTable) (s : Relay) : Relay :=
  mkRelay
    (rl_cfg s) (rl_id s) (rl_rng s) (rl_now s) (f (rl_neighbors s)) (rl_zone s) (rl_routes s) (rl_ierp s)
    (rl_sched s) (rl_seen s) (rl_hop_pending s) (rl_tx_queue s) (rl_held s) (rl_next_beacon s)
    (rl_last_beacon_at s) (rl_beacon_seq s) (rl_beacons_sent s) (rl_last_neighbor_count s) (rl_packet_ids s)
    (rl_last_housekeeping s) (rl_airtime_ms s) (rl_stats s).
Definition rl_upd_zone (f : ZoneTable -> ZoneTable) (s : Relay) : Relay :=
  mkRelay
    (rl_cfg s) (rl_id s) (rl_rng s) (rl_now s) (rl_neighbors s) (f (rl_zone s)) (rl_routes s) (rl_ierp s)
    (rl_sched s) (rl_seen s) (rl_hop_pending s) (rl_tx_queue s) (rl_held s) (rl_next_beacon s)
    (rl_last_beacon_at s) (rl_beacon_seq s) (rl_beacons_sent s) (rl_last_neighbor_count s) (rl_packet_ids s)
    (rl_last_housekeeping s) (rl_airtime_ms s) (rl_stats s).
Definition rl_upd_routes (f : RouteCache -> RouteCache) (s : Relay) : Relay :=
  mkRelay
    (rl_cfg s) (rl_id s) (rl_rng s) (rl_now s) (rl_neighbors s) (rl_zone s) (f (rl_routes s)) (rl_ierp s)
    (rl_sched s) (rl_seen s) (rl_hop_pending s) (rl_tx_queue s) (rl_held s) (rl_next_beacon s)
    (rl_last_beacon_at s) (rl_beacon_seq s) (rl_beacons_sent s) (rl_last_neighbor_count s) (rl_packet_ids s)
    (rl_last_housekeeping s) (rl_airtime_ms s) (rl_stats s).
Definition rl_upd_ierp (f : Ierp -> Ierp) (s : Relay) : Relay :=
  mkRelay
    (rl_cfg s) (rl_id s) (rl_rng s) (rl_now s) (rl_neighbors s) (rl_zone s) (rl_routes s) (f (rl_ierp s))
    (rl_sched s) (rl_seen s) (rl_hop_pending s) (rl_tx_queue s) (rl_held s) (rl_next_beacon s)
    (rl_last_beacon_at s) (rl_beacon_seq s) (rl_beacons_sent s) (rl_last_neighbor_count s) (rl_packet_ids s)
    (rl_last_housekeeping s) (rl_airtime_ms s) (rl_stats s).
Definition rl_upd_sched (f : RebroadcastScheduler -> RebroadcastScheduler) (s : Relay) : Relay :=
  mkRelay
    (rl_cfg s) (rl_id s) (rl_rng s) (rl_now s) (rl_neighbors s) (rl_zone s) (rl_routes s) (rl_ierp s)
    (f (rl_sched s)) (rl_seen s) (rl_hop_pending s) (rl_tx_queue s) (rl_held s) (rl_next_beacon s)
    (rl_last_beacon_at s) (rl_beacon_seq s) (rl_beacons_sent s) (rl_last_neighbor_count s) (rl_packet_ids s)
    (rl_last_housekeeping s) (rl_airtime_ms s) (rl_stats s).
Definition rl_upd_seen (f : SeenCache -> SeenCache) (s : Relay) : Relay :=
  mkRelay
    (rl_cfg s) (rl_id s) (rl_rng s) (rl_now s) (rl_neighbors s) (rl_zone s) (rl_routes s) (rl_ierp s) (rl_sched s)
    (f (rl_seen s)) (rl_hop_pending s) (rl_tx_queue s) (rl_held s) (rl_next_beacon s) (rl_last_beacon_at s)
    (rl_beacon_seq s) (rl_beacons_sent s) (rl_last_neighbor_count s) (rl_packet_ids s) (rl_last_housekeeping s)
    (rl_airtime_ms s) (rl_stats s).
Definition rl_upd_hop_pending (f : list HopPending -> list HopPending) (s : Relay) : Relay :=
  mkRelay
    (rl_cfg s) (rl_id s) (rl_rng s) (rl_now s) (rl_neighbors s) (rl_zone s) (rl_routes s) (rl_ierp s) (rl_sched s)
    (rl_seen s) (f (rl_hop_pending s)) (rl_tx_queue s) (rl_held s) (rl_next_beacon s) (rl_last_beacon_at s)
    (rl_beacon_seq s) (rl_beacons_sent s) (rl_last_neighbor_count s) (rl_packet_ids s) (rl_last_housekeeping s)
    (rl_airtime_ms s) (rl_stats s).
Definition rl_upd_tx_queue (f : list TxItem -> list TxItem) (s : Relay) : Relay :=
  mkRelay
    (rl_cfg s) (rl_id s) (rl_rng s) (rl_now s) (rl_neighbors s) (rl_zone s) (rl_routes s) (rl_ierp s) (rl_sched s)
    (rl_seen s) (rl_hop_pending s) (f (rl_tx_queue s)) (rl_held s) (rl_next_beacon s) (rl_last_beacon_at s)
    (rl_beacon_seq s) (rl_beacons_sent s) (rl_last_neighbor_count s) (rl_packet_ids s) (rl_last_housekeeping s)
    (rl_airtime_ms s) (rl_stats s).
Definition rl_upd_held (f : list (Address * Packet * Z) -> list (Address * Packet * Z)) (s : Relay) : Relay :=
  mkRelay
    (rl_cfg s) (rl_id s) (rl_rng s) (rl_now s) (rl_neighbors s) (rl_zone s) (rl_routes s) (rl_ierp s) (rl_sched s)
    (rl_seen s) (rl_hop_pending s) (rl_tx_queue s) (f (rl_held s)) (rl_next_beacon s) (rl_last_beacon_at s)
    (rl_beacon_seq s) (rl_beacons_sent s) (rl_last_neighbor_count s) (rl_packet_ids s) (rl_last_housekeeping s)
    (rl_airtime_ms s) (rl_stats s).
Definition rl_upd_next_beacon (f : Z -> Z) (s : Relay) : Relay :=
  mkRelay
    (rl_cfg s) (rl_id s) (rl_rng s) (rl_now s) (rl_neighbors s) (rl_zone s) (rl_routes s) (rl_ierp s) (rl_sched s)
    (rl_seen s) (rl_hop_pending s) (rl_tx_queue s) (rl_held s) (f (rl_next_beacon s)) (rl_last_beacon_at s)
    (rl_beacon_seq s) (rl_beacons_sent s) (rl_last_neighbor_count s) (rl_packet_ids s) (rl_last_housekeeping s)
    (rl_airtime_ms s) (rl_stats s).
Definition rl_upd_last_beacon_at (f : Z -> Z) (s : Relay) : Relay :=
  mkRelay
    (rl_cfg s) (rl_id s) (rl_rng s) (rl_now s) (rl_neighbors s) (rl_zone s) (rl_routes s) (rl_ierp s) (rl_sched s)
    (rl_seen s) (rl_hop_pending s) (rl_tx_queue s) (rl_held s) (rl_next_beacon s) (f (rl_last_beacon_at s))
    (rl_beacon_seq s) (rl_beacons_sent s) (rl_last_neighbor_count s) (rl_packet_ids s) (rl_last_housekeeping s)
    (rl_airtime_ms s) (rl_stats s).
Definition rl_upd_beacon_seq (f : Z -> Z) (s : Relay) : Relay :=
  mkRelay
    (rl_cfg s) (rl_id s) (rl_rng s) (rl_now s) (rl_neighbors s) (rl_zone s) (rl_routes s) (rl_ierp s) (rl_sched s)
    (rl_seen s) (rl_hop_pending s) (rl_tx_queue s) (rl_held s) (rl_next_beacon s) (rl_last_beacon_at s)
    (f (rl_beacon_seq s)) (rl_beacons_sent s) (rl_last_neighbor_count s) (rl_packet_ids s) (rl_last_housekeeping s)
    (rl_airtime_ms s) (rl_stats s).
Definition rl_upd_beacons_sent (f : Z -> Z) (s : Relay) : Relay :=
  mkRelay
    (rl_cfg s) (rl_id s) (rl_rng s) (rl_now s) (rl_neighbors s) (rl_zone s) (rl_routes s) (rl_ierp s) (rl_sched s)
    (rl_seen s) (rl_hop_pending s) (rl_tx_queue s) (rl_held s) (rl_next_beacon s) (rl_last_beacon_at s)
    (rl_beacon_seq s) (f (rl_beacons_sent s)) (rl_last_neighbor_count s) (rl_packet_ids s) (rl_last_housekeeping s)
    (rl_airtime_ms s) (rl_stats s).
Definition rl_upd_last_neighbor_count (f : Z -> Z) (s : Relay) : Relay :=
  mkRelay
    (rl_cfg s) (rl_id s) (rl_rng s) (rl_now s) (rl_neighbors s) (rl_zone s) (rl_routes s) (rl_ierp s) (rl_sched s)
    (rl_seen s) (rl_hop_pending s) (rl_tx_queue s) (rl_held s) (rl_next_beacon s) (rl_last_beacon_at s)
    (rl_beacon_seq s) (rl_beacons_sent s) (f (rl_last_neighbor_count s)) (rl_packet_ids s) (rl_last_housekeeping s)
    (rl_airtime_ms s) (rl_stats s).
Definition rl_upd_packet_ids (f : Z -> Z) (s : Relay) : Relay :=
  mkRelay
    (rl_cfg s) (rl_id s) (rl_rng s) (rl_now s) (rl_neighbors s) (rl_zone s) (rl_routes s) (rl_ierp s) (rl_sched s)
    (rl_seen s) (rl_hop_pending s) (rl_tx_queue s) (rl_held s) (rl_next_beacon s) (rl_last_beacon_at s)
    (rl_beacon_seq s) (rl_beacons_sent s) (rl_last_neighbor_count s) (f (rl_packet_ids s)) (rl_last_housekeeping s)
    (rl_airtime_ms s) (rl_stats s).
Definition rl_upd_last_housekeeping (f : Z -> Z) (s : Relay) : Relay :=
  mkRelay
    (rl_cfg s) (rl_id s) (rl_rng s) (rl_now s) (rl_neighbors s) (rl_zone s) (rl_routes s) (rl_ierp s) (rl_sched s)
    (rl_seen s) (rl_hop_pending s) (rl_tx_queue s) (rl_held s) (rl_next_beacon s) (rl_last_beacon_at s)
    (rl_beacon_seq s) (rl_beacons_sent s) (rl_last_neighbor_count s) (rl_packet_ids s) (f (rl_last_housekeeping s))
    (rl_airtime_ms s) (rl_stats s).
Definition rl_upd_airtime_ms (f : Z -> Z) (s : Relay) : Relay :=
  mkRelay
    (rl_cfg s) (rl_id s) (rl_rng s) (rl_now s) (rl_neighbors s) (rl_zone s) (rl_routes s) (rl_ierp s) (rl_sched s)
    (rl_seen s) (rl_hop_pending s) (rl_tx_queue s) (rl_held s) (rl_next_beacon s) (rl_last_beacon_at s)
    (rl_beacon_seq s) (rl_beacons_sent s) (rl_last_neighbor_count s) (rl_packet_ids s) (rl_last_housekeeping s)
    (f (rl_airtime_ms s)) (rl_stats s).
Definition rl_upd_stats (f : RelayStats -> RelayStats) (s : Relay) : Relay :=
  mkRelay
    (rl_cfg s) (rl_id s) (rl_rng s) (rl_now s) (rl_neighbors s) (rl_zone s) (rl_routes s) (rl_ierp s) (rl_sched s)
    (rl_seen s) (rl_hop_pending s) (rl_tx_queue s) (rl_held s) (rl_next_beacon s) (rl_last_beacon_at s)
    (rl_beacon_seq s) (rl_beacons_sent s) (rl_last_neighbor_count s) (rl_packet_ids s) (rl_last_housekeeping s)
    (rl_airtime_ms s) (f (rl_stats s)).
End Relay.
Arguments Relay : clear implicits.

Section Methods.
Context `{C : CryptoLib} {I R : Type} `{RelayIdentity I} `{RngCore R}.
Notation M := (St (Relay I R) Error).
Implicit Types (s : Relay I R) (p : Packet) (dst to : Address) (now : Z).

Definition with_identity (cfg : RelayConfig) (id : I) (rng : R) now : Relay I R :=
  let '(r, rng) := next_u64 rng in
  let jitter := r mod 5000 in
  let nc := rcf_neighbor cfg in
  let zone_ttl := u64 (u64 (beacon_interval_ms nc * timeout_intervals nc) * 2) in
  let '(seq, rng) := next_u32 rng in
  let '(ids, rng) := next_u32 rng in
  mkRelay cfg id rng now
    (NeighborTable.new nc)
    (ZoneTable.new (zone_radius (rcf_zrp cfg)) (max_zone_entries (rcf_zrp cfg)) zone_ttl)
    (RouteCache.new (rcf_routing cfg))
    (Ierp.new (rcf_zrp cfg))
    RebroadcastScheduler.new
    (SeenCache.new (seen_cache_size (rcf_storm cfg)) (seen_ttl_ms (rcf_storm cfg)))
    [] [] []
    (u64 (u64 (now + 500) + jitter)) 0 (u16 seq) 0 0 ids now 0 RelayStats_default.

(** ** Basics *)

Definition stat (k : RelayStat) : M unit := modify (rl_upd_stats (add_stat k)).
Definition relay_address : M Address := gets (fun s => ri_address (rl_id s)).
Definition relay_tx_queue_len s : Z := zlen (rl_tx_queue s).
Definition relay_rand_u32 : M Z := call rl_rng rl_upd_rng (fun r => let '(z, r) := next_u32 r in (r, z)).
Definition relay_rand_u64 : M Z := call rl_rng rl_upd_rng (fun r => let '(z, r) := next_u64 r in (r, z)).

Definition next_packet_id (ids : Z) : Z := u32 (u32 (ids + 1) * 2654435761).
Definition relay_new_packet_id : M Z := modify (rl_upd_packet_ids next_packet_id);; gets rl_packet_ids.

Definition relay_congestion s : Z := u8 (Z.min (u64 (u64 (rl_airtime_ms s * 1000) / 64000 * 255) / 250) 255).
Definition relay_neighbor (a : Address) s : option Neighbor := NeighborTable.get a (rl_neighbors s).
Definition relay_update_neighbor (a : Address) (f : Neighbor -> Neighbor) : M unit :=
  modify (rl_upd_neighbors (fun t => set_neighbors (SmallMap.update (nt_map t) a f) t)).
Definition relay_link_cost_to (a : Address) s : Z :=
  link_cost (match relay_neighbor a s with Some n => Neighbor.link_quality n | None => 96 end) (relay_congestion s).
Definition relay_airtime (len : Z) : M Z := prof ← gets (fun s => rcf_profile (rl_cfg s)); lift (LoRaProfile.airtime_ms prof len).

Definition relay_base_header (ptype : PacketType) dst (ttl : Z) : M Header :=
  id ← relay_new_packet_id;
  me ← relay_address;
  cfg ← gets rl_cfg;
  ttl ← lift (clamp 1 (rcf_max_ttl cfg) ttl);
  let h := h_with_relay (addr_short me) (header_new ptype me dst id 0 ttl) in
  mret (if rcf_network_key cfg then h_set h flags.NET_AUTH true else h).

(** ** The transmit queue *)

Definition relay_enqueue p (not_before priority : Z) (is_relay : bool) : M bool :=
  key ← gets (fun s => rcf_network_key (rl_cfg s));
  r ← attempt (lift (packet_encode hmac_sha256 p key));
  match r with
  | inl _ => mret false
  | inr frame =>
      q ← gets rl_tx_queue;
      max ← gets (fun s => rcf_max_tx_queue (rl_cfg s));
      let item := mkTxItem frame not_before (h_ptype (p_header p)) priority is_relay (h_dst (p_header p)) in
      let push := modify (rl_upd_tx_queue (fun q => q ++ [item]));; mret true in
      if decide (zlen q >= max) then
        match max_by_key (fun e => tx_priority e.2) (retain (fun e => tx_is_relay e.2) (imap pair q)) with
        | Some (i, _) =>
            modify (rl_upd_tx_queue (SmallMap.vec_remove i));;
            stat rst_tx_dropped;;
            push
        | None => stat rst_tx_dropped;; mret false
        end
      else push
  end.
(** [self.enqueue(..);], the result unused. *)
Definition relay_send p (not_before priority : Z) (is_relay : bool) : M unit :=
  relay_enqueue p not_before priority is_relay;; mret ().

Definition relay_next_tx now : M (option TxItem) :=
  modify (rl_upd_now (fun t => Z.max t now));;
  best ← gets (fun s => pick now (rl_tx_queue s) 0 None);
  match best with
  | None => mret None
  | Some (i, item) =>
      modify (rl_upd_tx_queue (SmallMap.vec_remove i));;
      air ← relay_airtime (zlen (tx_frame item));
      modify (rl_upd_airtime_ms (fun t => u64 (t + air)));;
      stat rst_tx_packets;;
      when (tx_is_relay item) (stat rst_relayed);;
      mret (Some item)
  end.

Definition relay_next_wakeup s : Z :=
  let t := rl_next_beacon s in
  let t := min_opt t (RebroadcastScheduler.next_due (rl_sched s)) in
  let t := min_opt t (Ierp.next_deadline (rl_ierp s)) in
  let t := min_opt t (zmin (ho_due <$> rl_hop_pending s)) in
  let t := min_opt t (zmin (tx_not_before <$> rl_tx_queue s)) in
  Z.min t (u64 (rl_last_housekeeping s + 1000)).

(** ** Next hop and time to live *)

Definition relay_consider_link dst now s (best : option (Z * Address)) : option (Z * Address) :=
  match relay_neighbor dst s with
  | Some nb => if negb (Neighbor.is_sleeping now nb) then consider (link_cost (Neighbor.link_quality nb) 0) dst best else best
  | None => best
  end.
Definition relay_consider_zone dst s (best : option (Z * Address)) : option (Z * Address) :=
  match ZoneTable.get dst (rl_zone s) with
  | Some z =>
      match relay_neighbor (zn_next_hop z) s with
      | Some nh =>
          let per_hop := link_cost (Z.min (zn_quality z) (Neighbor.link_quality nh)) 0 in
          consider (u32 (per_hop * zn_distance z)) (zn_next_hop z) best
      | None => best
      end
  | None => best
  end.
Definition relay_consider_route dst now s (best : option (Z * Address)) : option (Z * Address) :=
  match RouteCache.lookup dst now (rl_routes s) with
  | Some r =>
      match relay_neighbor (r_next_hop r) s with
      | Some nh => consider (Z.max (effective_cost r now) (link_cost (Neighbor.link_quality nh) 0)) (r_next_hop r) best
      | None => if decide (r_hops r <= 1) then consider (effective_cost r now) (r_next_hop r) best else best
      end
  | None => best
  end.
Definition relay_next_hop_for dst now s : option Address :=
  snd <$> relay_consider_route dst now s (relay_consider_zone dst s (relay_consider_link dst now s None)).

Definition relay_ttl_for dst s : Z :=
  let max := rcf_max_ttl (rl_cfg s) in
  if NeighborTable.contains dst (rl_neighbors s) then Z.min 2 max else
  match ZoneTable.get dst (rl_zone s) with
  | Some z => Z.min (u8 (zn_distance z + 2)) max
  | None =>
      match RouteCache.lookup dst (rl_now s) (rl_routes s) with
      | Some r => Z.min (sat_add 8 (r_hops r) 4) max
      | None => Z.min 8 max
      end
  end.

Definition relay_learn_route dst (next_hop : Address) (hops cost : Z) (source : RouteSource) (via_anchor : option Address) now : M unit :=
  me ← relay_address;
  if bool_decide (dst = me) || is_broadcast dst || bool_decide (next_hop = me) then mret () else
  let e := mkRouteEntry dst next_hop hops cost now 0 now 0 source via_anchor in
  call rl_routes rl_upd_routes (RouteCache.insert e now);;
  mret ().
Definition relay_mark_failure dst (nh : Address) : M bool := call rl_routes rl_upd_routes (RouteCache.mark_failure dst nh).

(** ** Hop-by-hop reliability *)

Definition relay_hop_timeout (len : Z) : M Z :=
  a ← relay_airtime len;
  cfg ← gets rl_cfg;
  mret (u64 (3 * a + rcf_unicast_forward_jitter_ms cfg + rcf_hop_ack_timeout_ms cfg)).

Definition relay_track_hop p (next_hop : Address) now : M unit :=
  cfg ← gets rl_cfg;
  pend ← gets rl_hop_pending;
  if decide (rcf_hop_retries cfg = 0 \/ zlen pend >= rcf_max_hop_pending cfg) then mret () else
  let key := h_key (p_header p) in
  modify (rl_upd_hop_pending (retain (fun h => negb (bool_decide (ho_key h = key)))));;
  relay_update_neighbor next_hop Neighbor.record_tx_attempt;;
  t ← relay_hop_timeout (wire_len p);
  r ← relay_rand_u64;
  let due := u64 (u64 (now + t) + r mod 200) in
  modify (rl_upd_hop_pending (fun l => l ++ [mkHopPending key next_hop p 1 due false])).

Definition relay_hop_confirmed (key : PacketKey) (from : Address) : M unit :=
  before ← gets (fun s => zlen (rl_hop_pending s));
  modify (rl_upd_hop_pending (retain (fun h => negb (bool_decide (ho_key h = key) && bool_decide (ho_next_hop h = from)))));;
  after ← gets (fun s => zlen (rl_hop_pending s));
  when (bool_decide (before <> after)) (
    modify (rl_upd_neighbors (NeighborTable.record_success from));;
    relay_update_neighbor from Neighbor.record_tx_confirmed).

(** ** Packets of the relay's own *)

Definition relay_route_unicast p now : M bool :=
  let dst := h_dst (p_header p) in
  nh ← gets (relay_next_hop_for dst now);
  match nh with
  | None => mret false
  | Some nh =>
      me ← relay_address;
      let p := on_header (fun h => h_with_relay (addr_short me) (h_with_next_hop (addr_short nh) h)) p in
      modify (rl_upd_routes (RouteCache.touch dst nh now));;
      let pr := if decide (h_ptype (p_header p) = Data) then relay_prio.DATA else relay_prio.CONTROL in
      relay_track_hop p nh now;;
      relay_enqueue p now pr true
  end.

Definition relay_send_route_request (target : Address) (req_id ttl now : Z) : M unit :=
  h ← relay_base_header RouteRequest BROADCAST ttl;
  let h := h_with_packet_id req_id h in
  relay_send (mkPacket h (messages.rreq_encode (messages.mkRouteRequest target 0 rreq_flags.PROXY_OK []))) now relay_prio.BEACON false.

Definition relay_send_route_error to (unreachable : Address) now : M unit :=
  me ← relay_address;
  nh ← gets (relay_next_hop_for to now);
  if decide (to = me \/ nh = None) then mret () else
  ttl ← gets (relay_ttl_for to);
  h ← relay_base_header RouteError to ttl;
  relay_route_unicast (mkPacket h (messages.rerr_encode (messages.mkRouteError [unreachable]))) now;;
  mret ().

Definition relay_send_link_ack to (packet_id : Z) now : M unit :=
  h ← relay_base_header Control to 1;
  let h := h_with_next_hop (addr_short to) h in
  relay_send (mkPacket h (control.LINK_ACK :: be_bytes 4 packet_id)) now relay_prio.CONTROL false.
End Methods.

Definition relay_new `{C : CryptoLib} {R} `{RngCore R} (cfg : RelayConfig) (id : Identity) (rng : R) (now : Z) : Relay SignedIdentity R :=
  with_identity cfg (mkSignedIdentity id) rng now.
