(* ===== verification/Relay.v ===== *)
(** * The relay: receive path and timers

    The rest of [crates/meshstar-core/src/relay/mod.rs]: [on_radio_rx] with the
    handlers of every packet type, [poll], beacons and housekeeping. *)
From stdpp Require Import base tactics list numbers.
From Stdlib Require Import Lia.
From S2P Require Import Prelude SmallMap Float32 Protocol Packet Fragmentation CryptoLib Identity Storm Routing Messages Ierp Beacon Radio Neighbor Zone Methods NodeState NodeTx NodeRx Node RelayState.
#[local] Open Scope Z_scope.

Section Rx.
Context `{C : CryptoLib} {I R : Type} `{RelayIdentity I} `{RngCore R}.
Notation M := (St (Relay I R) Error).
Implicit Types (s : Relay I R) (p : Packet) (src dst origin : Address) (prev : option Address) (meta : RxMeta) (now : Z).

(** ** Beacons received *)

(** [self.neighbors.observe_beacon_as(now, src, &b, meta, Some(me))]. *)
Definition relay_observe_beacon src (b : Beacon) meta now : M BeaconObservation :=
  me ← relay_address;
  t ← gets rl_neighbors;
  '(t, obs) ← lift (NeighborTable.observe_beacon_as now src b meta (Some me) t);
  modify (rl_upd_neighbors (fun _ => t));;
  mret obs.

(** A leaf beaconed: packets held for it go out. *)
Definition release_held src now : M unit :=
  me ← relay_address;
  mine ← gets (fun s => (fun e => e.1.2) <$> retain (fun e => bool_decide (e.1.1 = src)) (rl_held s));
  modify (rl_upd_held (retain (fun e => negb (bool_decide (e.1.1 = src)))));;
  for_each mine (fun hp =>
    let hp := on_header (fun h => h_with_relay (addr_short me) (h_with_next_hop (addr_short src) h)) hp in
    relay_track_hop hp src now;;
    relay_send hp now relay_prio.DATA true).

Definition relay_handle_beacon p meta now : M unit :=
  let src := h_src (p_header p) in
  r ← attempt (lift (Beacon.decode (p_payload p)));
  match r with
  | inl _ => stat rst_rx_bad
  | inr b =>
      me ← relay_address;
      obs ← relay_observe_beacon src b meta now;
      if identity_rejected obs then stat rst_rx_bad else
      nbs ← gets rl_neighbors;
      modify (rl_upd_zone (ZoneTable.update_from_beacon now me nbs src (bc_zone b) (bc_attached b)));;
      cost ← gets (relay_link_cost_to src);
      relay_learn_route src src 1 cost Routing.Zone None now;;
      last ← gets rl_last_beacon_at;
      when (bool_decide (bc_role b = Leaf) && (bool_decide (bc_attached b = []) || bool_decide (me ∈ bc_attached b))
            && bool_decide (sat_sub now last > 10000)) (
        r ← relay_rand_u64;
        modify (rl_upd_next_beacon (fun t => Z.min t (u64 (now + (150 + r mod 900))))));;
      when (bool_decide (bc_role b = Leaf)) (release_held src now)
  end.

(** ** Floods *)

Definition relay_covered prev : M bool :=
  gets (fun s => match prev with Some pv => ZoneTable.covered_by pv (rl_neighbors s) (rl_zone s) | None => false end).
(** [roll_percent(&mut self.rng, forward_percent(..))]. *)
Definition relay_density_roll : M bool :=
  pct ← gets (fun s => forward_percent (rcf_storm (rl_cfg s)) (NeighborTable.len (rl_neighbors s)));
  call rl_rng rl_upd_rng (fun r => let '(b, r) := roll_percent r pct in (r, b)).
Definition relay_forward_delay meta : M Z :=
  cfg ← gets (fun s => rcf_storm (rl_cfg s));
  call rl_rng rl_upd_rng (fun r => let '(d, r) := forward_delay_ms r cfg (snr_db meta) in (r, d)).
(** [if !self.sched.schedule(..) { self.stats.tx_dropped += 1 }]. *)
Definition relay_schedule (key : PacketKey) p (due : Z) : M unit :=
  max ← gets (fun s => max_pending (rcf_storm (rl_cfg s)));
  ok ← call rl_sched rl_upd_sched (RebroadcastScheduler.schedule key p due max);
  when (negb ok) (stat rst_tx_dropped).

Definition relay_maybe_relay_flood p prev meta now : M unit :=
  if decide (h_ttl (p_header p) <= 1) then mret () else
  cov ← relay_covered prev;
  if cov : bool then stat rst_suppressed else
  go ← relay_density_roll;
  if negb go then stat rst_suppressed else
  delay ← relay_forward_delay meta;
  relay_schedule (h_key (p_header p)) (relayed_copy p) (u64 (now + delay)).

(** ** Unicast *)

(** The packet is for a sleeping leaf neighbour: whether it was dealt with. *)
Definition relay_hold p now : M bool :=
  let dst := h_dst (p_header p) in
  nb ← gets (relay_neighbor dst);
  match nb with
  | Some nb =>
      if NeighborTable.hosted nb && Neighbor.is_sleeping now nb then
        let hold_ms := Z.max (u64 (nb_sleep_interval_s nb * 1000)) 10000 in
        len ← gets (fun s => zlen (rl_held s));
        max ← gets (fun s => rcf_max_held (rl_cfg s));
        when (bool_decide (len < max)) (modify (rl_upd_held (fun l => l ++ [(dst, p, u64 (now + hold_ms))])));;
        mret true
      else mret false
  | None => mret false
  end.

Definition relay_forward_to (nh : Address) p prev now : M unit :=
  let dst := h_dst (p_header p) in
  if decide (Some nh = prev) then
    relay_mark_failure dst nh;; relay_mark_failure dst nh;; relay_mark_failure dst nh;;
    relay_send_route_error (h_src (p_header p)) dst now
  else
    me ← relay_address;
    let p := on_header (fun h => h_with_relay (addr_short me) (h_with_next_hop (addr_short nh) (h_hop h))) p in
    let p := trace_stamp me p in
    modify (rl_upd_routes (RouteCache.touch dst nh now));;
    r ← relay_rand_u32;
    max ← gets (fun s => rcf_unicast_forward_jitter_ms (rl_cfg s));
    let at_ := u64 (now + r mod Z.max max 1) in
    relay_track_hop p nh at_;;
    relay_send p at_ relay_prio.DATA true.

(** No next hop: route repair on behalf of the source. *)
Definition relay_repair p now : M unit :=
  let dst := h_dst (p_header p) in
  pending ← gets (fun s => Ierp.is_pending dst (rl_ierp s));
  if pending : bool then call rl_ierp rl_upd_ierp (Ierp.queue dst p);; mret () else
  may ← gets (fun s => Ierp.may_start dst now (rl_ierp s));
  if may : bool then
    req_id ← relay_new_packet_id;
    ttl ← call rl_ierp rl_upd_ierp (Ierp.start dst req_id now);
    call rl_ierp rl_upd_ierp (Ierp.queue dst p);;
    stat rst_route_repairs;;
    relay_send_route_request dst req_id ttl now
  else relay_send_route_error (h_src (p_header p)) dst now.

Definition relay_forward_unicast p prev now : M unit :=
  let h := p_header p in
  me ← relay_address;
  if decide (h_next_hop h <> NEXT_HOP_ANY /\ h_next_hop h <> addr_short me) then mret () else
  if decide (h_ttl h <= 1) then mret () else
  held ← relay_hold p now;
  if held : bool then mret () else
  nh ← gets (relay_next_hop_for (h_dst h) now);
  match nh with
  | Some nh => relay_forward_to nh p prev now
  | None => relay_repair p now
  end.

(** ** Route control *)

(** The relaying half of [handle_route_request]. *)
Definition relay_pass_request p (q : messages.RouteRequest) (my_cost : Z) prev meta now : M unit :=
  if decide (h_ttl (p_header p) <= 1) then mret () else
  cov ← relay_covered prev;
  if cov : bool then stat rst_suppressed else
  go ← relay_density_roll;
  if negb go then stat rst_suppressed else
  let key := h_key (p_header p) in
  let fp := mkPacket (p_header (relayed_copy p))
              (messages.rreq_encode (messages.mkRouteRequest (messages.rq_target q) my_cost (messages.rq_flags q) (messages.rq_handshake q))) in
  delay ← relay_forward_delay meta;
  modify (rl_upd_sched (fun c => if RebroadcastScheduler.is_pending key c then (RebroadcastScheduler.cancel key c).1 else c));;
  stat rst_rreq_relayed;;
  relay_schedule key fp (u64 (now + delay)).

Definition relay_handle_route_request p prev meta now : M unit :=
  r ← attempt (lift (messages.rreq_decode (p_payload p)));
  match r with
  | inl _ => stat rst_rx_bad
  | inr q =>
      let h := p_header p in
      let origin := h_src h in
      link ← gets (fun s => match prev with Some pv => relay_link_cost_to pv s | None => 400 end);
      let my_cost := sat_add 16 (messages.rq_cost q) link in
      fresh ← call rl_ierp rl_upd_ierp (Ierp.observe_request origin (h_packet_id h) my_cost now);
      if negb fresh then
        stat rst_rx_duplicates;;
        call rl_sched rl_upd_sched (RebroadcastScheduler.heard (h_key h));; mret ()
      else
      match prev with
      | Some pv => relay_learn_route origin pv (sat_add 8 (h_hops h) 1) my_cost Reverse None now
      | None => mret ()
      end;;
      me ← relay_address;
      if decide (messages.rq_target q = origin \/ messages.rq_target q = me) then mret () else
      relay_pass_request p q my_cost prev meta now
  end.

Definition relay_forward_route_reply p prev now : M unit :=
  r ← attempt (lift (messages.rrep_decode (p_payload p)));
  match r with
  | inl _ => stat rst_rx_bad
  | inr r =>
      let h := p_header p in
      let via := default (h_src h) prev in
      link ← gets (relay_link_cost_to via);
      let cost := sat_add 16 (messages.rp_cost r) link in
      let hops := sat_add 8 (sat_add 8 (messages.rp_hops_to_target r) (h_hops h)) 1 in
      let via_anchor := if Z.land (messages.rp_flags r) rrep_flags.PROXY =? 0 then None else Some (h_src h) in
      relay_learn_route (messages.rp_target r) via hops cost Routing.Discovery via_anchor now;;
      let r := messages.mkRouteReply (messages.rp_target r) (messages.rp_req_id r) (messages.rp_hops_to_target r) cost
        (messages.rp_flags r) (messages.rp_target_key r) (messages.rp_handshake r) in
      relay_forward_unicast (mkPacket h (messages.rrep_encode r)) prev now
  end.

(** [for _ in 0..max_failures.max(1) { if mark_failure(..) { break } }]. *)
Fixpoint fail_until_lost (rounds : nat) (u via : Address) : M unit :=
  match rounds with
  | O => mret ()
  | S rounds' => lost ← relay_mark_failure u via; if lost : bool then mret () else fail_until_lost rounds' u via
  end.

Definition relay_handle_route_error p prev : M unit :=
  r ← attempt (lift (messages.rerr_decode (p_payload p)));
  match r with
  | inl _ => stat rst_rx_bad
  | inr e =>
      let via := default (h_src (p_header p)) prev in
      max ← gets (fun s => Z.max (max_failures (rcf_routing (rl_cfg s))) 1);
      for_each (messages.re_unreachable e) (fun u => fail_until_lost (Z.to_nat max) u via)
  end.

(** A trace aimed at the relay itself: answer with the path so far. *)
Definition relay_answer_trace p now : M unit :=
  let src := h_src (p_header p) in
  path ← lift (slice_from (p_payload p) 1);
  ttl ← gets (relay_ttl_for src);
  h ← relay_base_header Control src ttl;
  relay_route_unicast (mkPacket h (control.TRACE_REP :: path)) now;;
  mret ().

(** ** Frames *)

Definition relay_dispatch p prev meta now : M unit :=
  me ← relay_address;
  let h := p_header p in
  let for_me := bool_decide (h_dst h = me) in
  let bcast := is_broadcast (h_dst h) in
  match h_ptype h with
  | Protocol.Beacon => mret ()
  | RouteRequest => when bcast (relay_handle_route_request p prev meta now)
  | RouteReply => when (negb for_me && negb bcast) (relay_forward_route_reply p prev now)
  | RouteError =>
      if for_me then relay_handle_route_error p prev
      else when (negb bcast) (relay_forward_unicast p prev now)
  | Data =>
      if bcast then relay_maybe_relay_flood p prev meta now
      else when (negb for_me) (relay_forward_unicast p prev now)
  | t =>
      if bool_decide (t = Control) && for_me && bool_decide (head (p_payload p) = Some control.TRACE_REQ)
      then relay_answer_trace p now
      else when (negb for_me && negb bcast) (relay_forward_unicast p prev now)
  end.

(** Link acknowledgement for one of the relay's forwards. *)
Definition relay_handle_link_ack p prev : M unit :=
  match prev with
  | Some pv =>
      id ← lift (be_at (p_payload p) 1 4);
      acked ← gets (fun s => ho_key <$> retain (fun h => bool_decide ((ho_key h).2 = id) && bool_decide (ho_next_hop h = pv)) (rl_hop_pending s));
      for_each acked (fun k => relay_hop_confirmed k pv)
  | None => mret ()
  end.

(** Reverse route to the source, only when there is none. *)
Definition relay_learn_reverse p prev now : M unit :=
  let src := h_src (p_header p) in
  match prev with
  | Some pv =>
      missing ← gets (fun s => bool_decide (RouteCache.lookup src now (rl_routes s) = None)
                               && negb (NeighborTable.contains src (rl_neighbors s)));
      when missing (
        let hops := sat_add 8 (h_hops (p_header p)) 1 in
        c ← gets (relay_link_cost_to pv);
        relay_learn_route src pv hops (Z.min (u32 (hops * c)) U16_MAX) Reverse None now)
  | None => mret ()
  end.

(** A decoded packet that is not a beacon. *)
Definition relay_handle_packet p prev meta now : M unit :=
  me ← relay_address;
  let h := p_header p in
  let key := h_key h in
  let for_me := bool_decide (h_dst h = me) in
  if bool_decide (h_ptype h = Control) && for_me && bool_decide (zlen (p_payload p) = 5)
     && bool_decide (head (p_payload p) = Some control.LINK_ACK) then relay_handle_link_ack p prev else
  match prev with Some pv => when (bool_decide (h_hops h > 0)) (relay_hop_confirmed key pv) | None => mret () end;;
  fresh ← (if decide (h_ptype h <> RouteRequest) then call rl_seen rl_upd_seen (SeenCache.observe key now) else mret true);
  if negb fresh then
    stat rst_rx_duplicates;;
    call rl_sched rl_upd_sched (RebroadcastScheduler.heard key);;
    when (bool_decide (h_next_hop h = addr_short me) && negb (is_broadcast (h_dst h))) (
      match prev with Some pv => relay_send_link_ack pv (h_packet_id h) now | None => mret () end)
  else
  relay_learn_reverse p prev now;;
  relay_dispatch p prev meta now.

(** Who transmitted this frame. *)
Definition relay_previous_hop p s : option Address :=
  if decide (h_hops (p_header p) = 0) then Some (h_src (p_header p))
  else nb_addr <$> NeighborTable.resolve_short (h_relay (p_header p)) (rl_neighbors s).

Definition relay_on_radio_rx (frame : list Z) meta : M unit :=
  modify (rl_upd_now (fun t => Z.max t (timestamp_ms meta)));;
  now ← gets rl_now;
  stat rst_rx_packets;;
  air ← relay_airtime (zlen frame);
  modify (rl_upd_airtime_ms (fun t => u64 (t + air)));;
  cfg ← gets rl_cfg;
  r ← attempt (lift (packet_decode hmac_sha256 frame (rcf_network_key cfg) (rcf_max_ttl cfg)));
  match r with
  | inl _ => stat rst_rx_bad
  | inr p =>
      me ← relay_address;
      if decide (h_src (p_header p) = me) then mret () else
      prev ← gets (relay_previous_hop p);
      match prev with
      | Some pv => modify (rl_upd_neighbors (NeighborTable.observe_packet now pv meta))
      | None => mret ()
      end;;
      if decide (h_ptype (p_header p) = Protocol.Beacon) then relay_handle_beacon p meta now
      else relay_handle_packet p prev meta now
  end.
End Rx.

Section Timers.
Context `{C : CryptoLib} {I R : Type} `{RelayIdentity I} `{RngCore R}.
Notation M := (St (Relay I R) Error).
Implicit Types (s : Relay I R) (p : Packet) (now : Z).

(** ** Beacons sent *)

(** When the next beacon is due. *)
Definition relay_schedule_beacon now : M unit :=
  ncount ← gets (fun s => NeighborTable.len (rl_neighbors s));
  last ← gets rl_last_neighbor_count;
  let changed := bool_decide (ncount <> last) in
  modify (rl_upd_last_neighbor_count (fun _ => ncount));;
  let mult := if changed then 1 else 2 in
  nc ← gets (fun s => rcf_neighbor (rl_cfg s));
  let base := u64 (beacon_interval_ms nc * mult) in
  r ← relay_rand_u64;
  let jitter := r mod Z.max (beacon_jitter_ms nc) 1 in
  modify (rl_upd_next_beacon (fun _ => u64 (u64 (now + base) + jitter)));;
  modify (rl_upd_last_beacon_at (fun _ => now));;
  modify (rl_upd_beacon_seq (fun q => u16 (q + 1))).

(** The beacon built from the state, within the payload budget. *)
Definition relay_build_beacon now (full : bool) s : Beacon :=
  let cfg := rl_cfg s in
  let ncount := NeighborTable.len (rl_neighbors s) in
  let b := Beacon.short Normal (rl_beacon_seq s) (ZoneTable.radius (rl_zone s)) (Z.min ncount 255) in
  let b := if full then ri_sign_beacon (rl_id s) (u32 (now / 1000)) b else b in
  let b := bc_with_sleep (Z.min (div_ceil (u64 (rl_next_beacon s - now)) 1000) U16_MAX) b in
  let b := bc_with_attached (take 4 (nb_addr <$> NeighborTable.hosted_leaves (rl_neighbors s))) b in
  let budget := max_payload (bool_decide (is_Some (rcf_network_key cfg))) in
  let entries := ZoneTable.advertisement (max_advertised_entries (rcf_zrp cfg)) (rl_beacons_sent s) (rl_zone s) in
  let b := trim_zone (length entries) budget (bc_with_zone entries b) in
  trim_attached (length (bc_attached b)) budget b.

Definition relay_send_beacon now : M unit :=
  relay_schedule_beacon now;;
  every ← gets (fun s => Z.max (full_beacon_every (rcf_neighbor (rl_cfg s))) 1);
  sent ← gets rl_beacons_sent;
  let full := bool_decide (sent mod every = 0) in
  modify (rl_upd_beacons_sent (fun n => u32 (n + 1)));;
  stat rst_beacons_sent;;
  b ← gets (relay_build_beacon now full);
  h ← relay_base_header Protocol.Beacon BROADCAST 1;
  relay_send (mkPacket h (Beacon.encode b)) now relay_prio.BEACON false.

(** ** Scheduled relays *)

Definition relay_poll_relays now : M unit :=
  threshold ← gets (fun s => counter_threshold (rcf_storm (rl_cfg s)));
  me ← relay_address;
  due ← call rl_sched rl_upd_sched (RebroadcastScheduler.due now threshold);
  for_each due (fun '(key, p) =>
    modify (rl_upd_seen (SeenCache.mark_forwarded key));;
    relay_send (on_header (h_with_relay (addr_short me)) p) now relay_prio.RELAY true).

(** ** Hop retransmissions *)

Definition ho_retry (due : Z) (h : HopPending) : HopPending :=
  mkHopPending (ho_key h) (ho_next_hop h) (ho_packet h) (u8 (ho_attempts h + 1)) due (ho_rerouted h).
Definition ho_mark_rerouted (h : HopPending) : HopPending :=
  mkHopPending (ho_key h) (ho_next_hop h) (ho_packet h) (ho_attempts h) (ho_due h) true.

(** Another way for a packet whose hop failed. *)
Definition relay_reroute (h : HopPending) (alt : Address) now : M unit :=
  let p := on_header (h_with_next_hop (addr_short alt)) (ho_packet h) in
  relay_track_hop p alt now;;
  modify (rl_upd_hop_pending (update_first (fun x => bool_decide (ho_key x = h_key (p_header p))) ho_mark_rerouted));;
  relay_send p now relay_prio.DATA true.

(** A hop that exhausted its retries, already removed from the list. *)
Definition relay_hop_failed (h : HopPending) now : M unit :=
  stat rst_hop_failures;;
  let dst := h_dst (p_header (ho_packet h)) in
  dead ← call rl_neighbors rl_upd_neighbors (NeighborTable.record_failure (ho_next_hop h));
  (if dead : bool then call rl_routes rl_upd_routes (RouteCache.invalidate_via (ho_next_hop h));; mret ()
   else relay_mark_failure dst (ho_next_hop h);; mret ());;
  alt ← gets (relay_next_hop_for dst now);
  match (if ho_rerouted h then None else alt) with
  | Some alt =>
      if decide (alt <> ho_next_hop h) then relay_reroute h alt now
      else relay_send_route_error (h_src (p_header (ho_packet h))) dst now
  | None => relay_send_route_error (h_src (p_header (ho_packet h))) dst now
  end.

(** A retransmission of the entry at index [i]. *)
Definition relay_hop_retry (i : nat) (h : HopPending) now : M unit :=
  relay_update_neighbor (ho_next_hop h) Neighbor.record_tx_attempt;;
  r ← relay_rand_u64;
  let jitter := r mod 300 in
  timeout ← relay_hop_timeout (wire_len (ho_packet h));
  modify (rl_upd_hop_pending (alter (ho_retry (u64 (u64 (now + timeout) + jitter))) i));;
  stat rst_hop_retransmissions;;
  relay_send (ho_packet h) (u64 (now + jitter)) relay_prio.DATA true.

(** The [while i < self.hop_pending.len()] loop.  A round advances [i] or
    removes an exhausted entry, and what it adds is not exhausted: twice the
    capacity and one rounds are enough, running out is a failure. *)
Fixpoint relay_hop_loop (fuel i : nat) (max_retries now : Z) : M unit :=
  match fuel with
  | O => lift Panic
  | S fuel' =>
      h ← gets (fun s => rl_hop_pending s !! i);
      match h with
      | None => mret ()
      | Some h =>
          if decide (ho_due h > now) then relay_hop_loop fuel' (S i) max_retries now
          else if decide (ho_attempts h > max_retries) then
            modify (rl_upd_hop_pending (SmallMap.vec_remove i));;
            relay_hop_failed h now;;
            relay_hop_loop fuel' i max_retries now
          else
            relay_hop_retry i h now;;
            relay_hop_loop fuel' (S i) max_retries now
      end
  end.
Definition relay_poll_hops now : M unit :=
  max_retries ← gets (fun s => rcf_hop_retries (rl_cfg s));
  rounds ← gets (fun s => S (2 * Z.to_nat (rcf_max_hop_pending (rl_cfg s))));
  relay_hop_loop rounds 0 max_retries now.

(** ** Route repairs *)

Definition relay_poll_repairs now : M unit :=
  '(retries, failures) ← (fun s =>
     let '(t, r, g) := Ierp.tick next_u32 now (rl_rng s) (rl_ierp s) in
     (rl_upd_rng (fun _ => g) (rl_upd_ierp (fun _ => t) s), r));
  for_each retries (fun '(target, req_id, ttl) => relay_send_route_request target req_id ttl now);;
  for_each failures (fun '(target, queued) =>
    for_each queued (fun q => relay_send_route_error (h_src (p_header q)) target now)).

(** Repaired: flush what waited. *)
Definition relay_flush_repaired now : M unit :=
  repaired ← gets (fun s => retain (fun t => bool_decide (relay_next_hop_for t now s <> None)) (ie_pending (rl_ierp s)).*1);
  for_each repaired (fun t =>
    queued ← call rl_ierp rl_upd_ierp (Ierp.succeed t now);
    for_each queued (fun q => relay_route_unicast q now;; mret ())).

(** ** Housekeeping *)

Definition relay_housekeeping now : M unit :=
  modify (rl_upd_last_housekeeping (fun _ => now));;
  modify (rl_upd_seen (SeenCache.expire now));;
  modify (rl_upd_ierp (Ierp.expire now));;
  modify (rl_upd_routes (fun r => (RouteCache.expire now r).1));;
  modify (rl_upd_zone (fun z => (ZoneTable.expire now z).1));;
  dead ← call rl_neighbors rl_upd_neighbors (NeighborTable.expire now);
  for_each dead (fun a =>
    modify (rl_upd_zone (fun z => (ZoneTable.remove_via a z).1));;
    call rl_routes rl_upd_routes (RouteCache.invalidate_via a);;
    mret ());;
  modify (rl_upd_airtime_ms (fun t => sat_sub t (u64 (t / 64 + 1))));;
  modify (rl_upd_held (retain (fun e => bool_decide (e.2 > now))));;
  modify (rl_upd_tx_queue (retain (fun i => bool_decide (sat_sub now (tx_not_before i) < 60000)))).

Definition relay_poll now : M unit :=
  modify (rl_upd_now (fun t => Z.max t now));;
  now ← gets rl_now;
  next ← gets rl_next_beacon;
  when (bool_decide (now >= next)) (relay_send_beacon now);;
  relay_poll_relays now;;
  relay_poll_hops now;;
  relay_poll_repairs now;;
  relay_flush_repaired now;;
  last ← gets rl_last_housekeeping;
  when (bool_decide (sat_sub now last >= 1000)) (relay_housekeeping now).
End Timers.
