(* ===== verification/RelaySafe.v ===== *)
(** * The relay never panics

    The invariant [relay_ok] of the relay and, for every method of RelayState
    and Relay, that it keeps the invariant and does not panic. *)
From stdpp Require Import base tactics list numbers.
From Stdlib Require Import Lia.
From S2P Require Import Prelude SmallMap Float32 Protocol Packet Fragmentation CryptoLib Identity Storm Routing Messages Ierp Beacon Radio Neighbor Zone Methods NodeState Calculus NodeTx NodeRx Node EngineInv RelayState Relay.
From stdpp Require Import list.
#[local] Open Scope Z_scope.

(** ** The invariant *)

Definition relay_config_ok (c : RelayConfig) : Prop :=
  RadioFacts.profile_ok (rcf_profile c) /\ 1 <= rcf_max_ttl c /\ 0 <= discovery_attempts (rcf_zrp c) <= 255 /\
  1 <= cfg_alternatives (rcf_routing c) /\ 0 <= max_zone_entries (rcf_zrp c) /\ 0 <= rcf_hop_retries c.

Section Invariant.
Context `{C : CryptoLib} {I R : Type} `{RelayIdentity I} `{RngCore R}.
Context (c : RelayConfig) (i : I) (heard : Packet -> Prop).

(** End-to-end packets are only passed on. *)
Notation passes := (relayed heard).
Definition hops_fld (l : list HopPending) : Prop :=
  zlen l <= Z.max 0 (rcf_max_hop_pending c) /\ Forall (fun h => passes (ho_packet h)) l.
Definition held_fld (l : list (Address * Packet * Z)) : Prop :=
  zlen l <= Z.max 0 (rcf_max_held c) /\ Forall (fun e => passes e.1.2) l.

(** The state of a relay with configuration [c] and identity [i] that received
    the packets [heard]: every table is within its budget, and everything it
    may still send of end-to-end traffic it heard. *)
Record relay_ok (s : Relay I R) : Prop := {
  rok_cfg : rl_cfg s = c;
  rok_id : rl_id s = i;
  rok_neighbors : neighbors_fld (rcf_neighbor c) (rl_neighbors s);
  rok_zone : zone_fld (ri_address i) (rcf_zrp c) (rl_zone s);
  rok_routes : routes_fld (rcf_routing c) (rl_routes s);
  rok_ierp : IerpInv.ierp_fld passes (rcf_zrp c) (rl_ierp s);
  rok_sched : sched_fld passes (rcf_storm c) (rl_sched s);
  rok_seen : seen_fld (rcf_storm c) (rl_seen s);
  rok_hops : hops_fld (rl_hop_pending s);
  rok_tx : tx_fld passes (rcf_network_key c) (rcf_max_tx_queue c) (rl_tx_queue s);
  rok_held : held_fld (rl_held s)
}.

Ltac solve_field := split; [by intros n []|by intros f n [] Hf; split].
#[export] Instance rfi_neighbors : FieldInv relay_ok rl_neighbors rl_upd_neighbors (neighbors_fld (rcf_neighbor c)).
Proof. solve_field. Qed.
#[export] Instance rfi_zone : FieldInv relay_ok rl_zone rl_upd_zone (zone_fld (ri_address i) (rcf_zrp c)).
Proof. solve_field. Qed.
#[export] Instance rfi_routes : FieldInv relay_ok rl_routes rl_upd_routes (routes_fld (rcf_routing c)).
Proof. solve_field. Qed.
#[export] Instance rfi_ierp : FieldInv relay_ok rl_ierp rl_upd_ierp (IerpInv.ierp_fld passes (rcf_zrp c)).
Proof. solve_field. Qed.
#[export] Instance rfi_sched : FieldInv relay_ok rl_sched rl_upd_sched (sched_fld passes (rcf_storm c)).
Proof. solve_field. Qed.
#[export] Instance rfi_seen : FieldInv relay_ok rl_seen rl_upd_seen (seen_fld (rcf_storm c)).
Proof. solve_field. Qed.
#[export] Instance rfi_hops : FieldInv relay_ok rl_hop_pending rl_upd_hop_pending hops_fld.
Proof. solve_field. Qed.
#[export] Instance rfi_tx : FieldInv relay_ok rl_tx_queue rl_upd_tx_queue (tx_fld passes (rcf_network_key c) (rcf_max_tx_queue c)).
Proof. solve_field. Qed.
#[export] Instance rfi_held : FieldInv relay_ok rl_held rl_upd_held held_fld.
Proof. solve_field. Qed.
(** Fields the invariant says nothing about. *)
#[export] Instance rfi_rng : FieldInv relay_ok rl_rng rl_upd_rng any.
Proof. solve_field. Qed.
#[export] Instance rfi_now : FieldInv relay_ok rl_now rl_upd_now any.
Proof. solve_field. Qed.
#[export] Instance rfi_next_beacon : FieldInv relay_ok rl_next_beacon rl_upd_next_beacon any.
Proof. solve_field. Qed.
#[export] Instance rfi_last_beacon : FieldInv relay_ok rl_last_beacon_at rl_upd_last_beacon_at any.
Proof. solve_field. Qed.
#[export] Instance rfi_beacon_seq : FieldInv relay_ok rl_beacon_seq rl_upd_beacon_seq any.
Proof. solve_field. Qed.
#[export] Instance rfi_beacons_sent : FieldInv relay_ok rl_beacons_sent rl_upd_beacons_sent any.
Proof. solve_field. Qed.
#[export] Instance rfi_last_count : FieldInv relay_ok rl_last_neighbor_count rl_upd_last_neighbor_count any.
Proof. solve_field. Qed.
#[export] Instance rfi_ids : FieldInv relay_ok rl_packet_ids rl_upd_packet_ids any.
Proof. solve_field. Qed.
#[export] Instance rfi_housekeeping : FieldInv relay_ok rl_last_housekeeping rl_upd_last_housekeeping any.
Proof. solve_field. Qed.
#[export] Instance rfi_airtime : FieldInv relay_ok rl_airtime_ms rl_upd_airtime_ms any.
Proof. solve_field. Qed.
#[export] Instance rfi_stats : FieldInv relay_ok rl_stats rl_upd_stats any.
Proof. solve_field. Qed.
End Invariant.

(** More packets heard: the invariant still holds. *)
Section Mono.
Context `{C : CryptoLib} {I R : Type} `{RelayIdentity I} `{RngCore R} (c : RelayConfig) (i : I) (P Q : Packet -> Prop).
Hypothesis HPQ : forall p, P p -> Q p.

Lemma relay_ok_mono (s : Relay I R) : relay_ok c i P s -> relay_ok c i Q s.
Proof.
  intros Hn. destruct Hn. split; try done.
  - eapply IerpInv.ierp_fld_mono; [|done]. intros p. by apply relayed_mono.
  - destruct rok_sched0 as [Hl Hf]. split; [done|]. eapply Forall_impl; [exact Hf|]. intros e. by apply relayed_mono.
  - destruct rok_hops0 as [Hl Hf]. split; [done|]. eapply Forall_impl; [exact Hf|]. intros e. by apply relayed_mono.
  - destruct rok_tx0 as [Hl Hf]. split; [done|]. eapply Forall_impl; [exact Hf|]. intros e (p & Hp & He). exists p. split; [by eapply relayed_mono|done].
  - destruct rok_held0 as [Hl Hf]. split; [done|]. eapply Forall_impl; [exact Hf|]. intros e. by apply relayed_mono.
Qed.
End Mono.

(** Read [rl_cfg] and [rl_id] of a state of the invariant. *)
Ltac keep_relay_cfg :=
  repeat match goal with
  | Hn : relay_ok ?c ?i ?hd ?n |- context [rl_cfg ?n] => rewrite (rok_cfg c i hd n Hn)
  | Hn : relay_ok ?c ?i ?hd ?n |- context [rl_id ?n] => rewrite (rok_id c i hd n Hn)
  end.
Ltac relay_run := repeat ((keep_known || keep_step || relay_loop); keep_relay_cfg)
with relay_loop :=
  match goal with |- holds _ (for_each _ _) any => apply holds_true; [intros ?; solve [relay_run]|exact Logic.I] end.

Section Safe.
Context `{C : CryptoLib, !CryptoLibLaws C} {I R : Type} `{!RelayIdentity I} `{G : RngCore R, !RngCoreLaws R}.
Context (c : RelayConfig) (i : I) (heard : Packet -> Prop) (Hcfg : relay_config_ok c).
Notation M := (St (Relay I R) Error).
Notation ok := (relay_ok (R := R) c i heard).
Notation me := (ri_address i).
Notation passes := (relayed heard).
Implicit Types (s : Relay I R) (p : Packet).

(** Edits of the hop fields. *)
Lemma passes_next_hop v p : passes p -> passes (on_header (h_with_next_hop v) p).
Proof. apply relayed_same. by repeat split. Qed.
Lemma passes_relay v p : passes p -> passes (on_header (h_with_relay v) p).
Proof. apply relayed_same. by repeat split. Qed.
Lemma passes_hops v w p : passes p -> passes (on_header (fun h => h_with_relay v (h_with_next_hop w h)) p).
Proof. apply relayed_same. by repeat split. Qed.

(** ** Small methods *)

Lemma stat_keep k : holds ok (stat k) any.
Proof. unfold stat. relay_run. Qed.
Lemma relay_address_keep : holds ok relay_address (fun a => a = me).
Proof. unfold relay_address. relay_run. Qed.
Lemma relay_rand_u32_keep : holds ok relay_rand_u32 any.
Proof. unfold relay_rand_u32. relay_run. Qed.
Lemma relay_rand_u64_keep : holds ok relay_rand_u64 any.
Proof. unfold relay_rand_u64. relay_run. Qed.
Lemma relay_new_packet_id_keep : holds ok relay_new_packet_id any.
Proof. unfold relay_new_packet_id. relay_run. Qed.
Lemma relay_airtime_keep len : holds ok (relay_airtime len) any.
Proof. unfold relay_airtime. relay_run. apply airtime_ms_safe, Hcfg. Qed.
Hint Resolve stat_keep relay_address_keep relay_rand_u32_keep relay_rand_u64_keep relay_new_packet_id_keep relay_airtime_keep : keep.
Lemma relay_hop_timeout_keep len : holds ok (relay_hop_timeout len) any.
Proof. unfold relay_hop_timeout. relay_run. Qed.
Lemma relay_update_neighbor_keep a f :
  (forall v, nb_addr (f v) = nb_addr v) -> (forall v, nb_identity (f v) = nb_identity v) -> holds ok (relay_update_neighbor a f) any.
Proof.
  intros Ha Hi. unfold relay_update_neighbor. relay_run. intros t [Ht Hc]. split; [|done]. by apply NeighborFacts.update_table_ok.
Qed.
Lemma relay_tx_attempt_keep a : holds ok (relay_update_neighbor a Neighbor.record_tx_attempt) any.
Proof. apply relay_update_neighbor_keep; intros v; unfold Neighbor.record_tx_attempt; by case_decide. Qed.
Lemma relay_tx_confirmed_keep a : holds ok (relay_update_neighbor a Neighbor.record_tx_confirmed) any.
Proof. by apply relay_update_neighbor_keep. Qed.
Hint Resolve relay_hop_timeout_keep relay_tx_attempt_keep relay_tx_confirmed_keep : keep.

Lemma relay_mark_failure_keep dst nh : holds ok (relay_mark_failure dst nh) any.
Proof. unfold relay_mark_failure. relay_run. by apply (rop_fld _ (RoutingFacts.Failure _ _)). Qed.
Lemma relay_touch_keep dst nh now : holds ok (modify (rl_upd_routes (RouteCache.touch dst nh now)) : M unit) any.
Proof. relay_run. intros r. apply (rop_fld _ (RoutingFacts.Touch dst nh now)). Qed.
Lemma relay_learn_route_keep dst nh hops cost src via now : holds ok (relay_learn_route dst nh hops cost src via now) any.
Proof. unfold relay_learn_route. relay_run. by apply (rop_fld _ (RoutingFacts.Insert _ _)). Qed.
Hint Resolve relay_mark_failure_keep relay_touch_keep relay_learn_route_keep : keep.

(** ** The transmit queue *)

Lemma relay_enqueue_keep p t pr rel : passes p -> holds ok (relay_enqueue p t pr rel) any.
Proof.
  intros Hc. unfold relay_enqueue. apply holds_bind_gets. intros n0 Hn0. keep_relay_cfg.
  eapply holds_bind with (P := fun r => forall f, r = inr f -> packet_encode hmac_sha256 p (rcf_network_key c) = Ok f).
  { eapply holds_attempt; [apply holds_lift with (Q := fun f => packet_encode hmac_sha256 p (rcf_network_key c) = Ok f)|done|naive_solver].
    - apply packet_encode_safe.
    - done. }
  intros [e|frame] Hf; [relay_run|]. specialize (Hf frame eq_refl). intros n Hn. do 2 apply wpe_bind, wpe_gets.
  pose proof (rok_tx _ _ _ _ Hn) as Hq. keep_relay_cfg. case_decide as Hlen.
  - destruct (max_by_key _ _) as [[j e]|] eqn:Hj; [|by apply (wpe_holds ok _ any); [relay_run|..]].
    destruct (tx_evict_fld _ _ _ _ _ _ Hq Hj) as [Hq' Hl]. repeat wpe_step. unfold stat. wpe_step.
    split; [|done]. apply field_set; [repeat (apply field_set; [|done]); done|]. simpl. by eapply tx_push_fld.
  - repeat wpe_step. split; [|done]. apply field_set; [done|]. eapply tx_push_fld; [lia|done..].
Qed.
Hint Resolve relay_enqueue_keep passes_next_hop passes_relay passes_hops : keep.
Lemma relay_send_keep p t pr rel : passes p -> holds ok (relay_send p t pr rel) any.
Proof. intros Hp. unfold relay_send. relay_run. Qed.
Hint Resolve relay_send_keep : keep.
Lemma relay_next_tx_keep now : holds ok (relay_next_tx now) any.
Proof. unfold relay_next_tx. relay_run. intros q. apply tx_remove_fld. Qed.

(** ** Hop-by-hop reliability *)

Lemma relay_hops_retain f l : hops_fld c heard l -> hops_fld c heard (retain f l).
Proof. intros [Hl Hf]. split; [pose proof (zlen_retain_le f l); lia|by apply Forall_retain]. Qed.
Lemma relay_track_hop_keep p nh now : passes p -> holds ok (relay_track_hop p nh now) any.
Proof.
  intros Hp. unfold relay_track_hop. intros n Hn. do 2 apply wpe_bind, wpe_gets. keep_relay_cfg. case_decide as Hd; [by apply wpe_ret|].
  set (fl := fun h : HopPending => negb (bool_decide (ho_key h = h_key (p_header p)))).
  apply wpe_bind, wpe_modify. set (lim := Z.max 0 (rcf_max_hop_pending c)).
  assert (Hr : ok (rl_upd_hop_pending (retain fl) n) /\ zlen (rl_hop_pending (rl_upd_hop_pending (retain fl) n)) < lim).
  { pose proof (zlen_retain_le fl (rl_hop_pending n)). split; [apply field_set; [done|]; by apply relay_hops_retain, field_get|]. simpl. lia. }
  revert Hr. generalize (rl_upd_hop_pending (retain fl) n). clear -Hcfg Hp. intros n [Hn Hl]. unfold relay_update_neighbor.
  apply wpe_bind, wpe_modify. set (n1 := rl_upd_neighbors _ n).
  assert (Hn1 : ok n1). { pose proof (relay_tx_attempt_keep nh n Hn) as [H1 _]. apply H1. }
  assert (Hl1 : zlen (rl_hop_pending n1) < lim) by done. clearbody n1. clear n Hn Hl.
  unfold relay_hop_timeout, relay_airtime. apply wpe_bind, wpe_bind, wpe_bind, wpe_gets. keep_relay_cfg.
  apply wpe_lift; [apply airtime_ms_safe, Hcfg| |done].
  intros a _. apply wpe_bind, wpe_gets, wpe_ret. unfold relay_rand_u64. apply wpe_bind, wpe_call, wpe_modify. split; [|done].
  pose proof (rok_hops _ _ _ _ Hn1) as [_ Hf]. apply field_set; [by apply field_set|]. split.
  - simpl. rewrite zlen_app, zlen_cons, zlen_nil. lia.
  - apply Forall_app_2; [exact Hf|]. by apply Forall_cons_2.
Qed.
Lemma relay_hop_confirmed_keep key from : holds ok (relay_hop_confirmed key from) any.
Proof.
  unfold relay_hop_confirmed. relay_run; [intros l; apply relay_hops_retain|]. intros t Ht.
  by destruct (nop_fld _ (NeighborFacts.Success from) t Ht) as (t' & [= <-] & ?).
Qed.
Hint Resolve relay_track_hop_keep relay_hop_confirmed_keep : keep.

(** ** The relay's own packets *)

Definition typed (pt : PacketType) (h : Header) : Prop := h_ptype h = pt.
Lemma relay_base_header_keep pt dst ttl : holds ok (relay_base_header pt dst ttl) (typed pt).
Proof.
  unfold relay_base_header. relay_run.
  - unfold clamp. destruct Hcfg as (_ & Ht & _). by rewrite decide_True.
  - by destruct (rcf_network_key c).
Qed.
Hint Resolve relay_base_header_keep : keep.
(** The packets the relay makes itself are link and route control. *)
Hint Extern 2 (relayed _ _) =>
  apply relayed_control; simpl; match goal with H : typed _ _ |- _ => rewrite H; reflexivity end : keep.
Lemma relay_route_unicast_keep p now : passes p -> holds ok (relay_route_unicast p now) any.
Proof. intros Hp. unfold relay_route_unicast. relay_run. Qed.
Hint Resolve relay_route_unicast_keep : keep.
Lemma relay_send_route_request_keep target req_id ttl now : holds ok (relay_send_route_request target req_id ttl now) any.
Proof. unfold relay_send_route_request. relay_run. Qed.
Lemma relay_send_route_error_keep to u now : holds ok (relay_send_route_error to u now) any.
Proof. unfold relay_send_route_error. relay_run. Qed.
Lemma relay_send_link_ack_keep to id now : holds ok (relay_send_link_ack to id now) any.
Proof. unfold relay_send_link_ack. relay_run. Qed.
Hint Resolve relay_send_route_request_keep relay_send_route_error_keep relay_send_link_ack_keep : keep.

(** ** Beacons received *)

Lemma relay_observe_beacon_keep src b meta now : holds ok (relay_observe_beacon src b meta now) any.
Proof.
  unfold relay_observe_beacon. eapply holds_bind; [by apply relay_address_keep|]. intros a _. intros n Hn. apply wpe_bind, wpe_gets.
  pose proof (rok_neighbors _ _ _ _ Hn) as Ht. destruct (nop_fld _ (NeighborFacts.ObserveBeacon now src b meta (Some a)) _ Ht) as (t' & Hr & H1).
  simpl in Hr. destruct (NeighborTable.observe_beacon_as now src b meta (Some a) (rl_neighbors n)) as [[t1 obs]| |]; [|done..].
  injection Hr as ->. apply wpe_bind, wpe_lift; [done| |done]. intros ? [= <-]. apply wpe_bind, wpe_modify, wpe_ret.
  split; [by apply field_set|done].
Qed.
Lemma release_held_keep src now : holds ok (release_held src now) any.
Proof.
  unfold release_held. eapply holds_bind; [by apply relay_address_keep|]. intros a _. apply holds_bind_gets. intros n Hn.
  pose proof (rok_held _ _ _ _ Hn) as [_ Hf].
  apply (holds_bind _ _ _ any); [relay_run; intros l [Hl Hp]; split; [pose proof (zlen_retain_le (fun e => negb (bool_decide (e.1.1 = src))) l); lia|by apply Forall_retain]|].
  intros _ _. eapply holds_for_each with (P := passes); [|intros p Hp; relay_run|done]. by apply Forall_fmap, Forall_retain.
Qed.
Hint Resolve relay_observe_beacon_keep release_held_keep : keep.
Lemma decode_attempt {A} (o : Result A) (Q : A -> Prop) :
  safe o -> (forall a, o = Ok a -> Q a) -> holds ok (attempt (lift o) : M _) (fun r => forall a, r = inr a -> Q a).
Proof. intros Hs Hq. eapply holds_attempt with (P := Q); [by apply holds_lift|done|]. by intros a Ha ? [= <-]. Qed.
Lemma relay_handle_beacon_keep p meta now :
  bytes_ok (p_payload p) -> h_src (p_header p) <> me -> holds ok (relay_handle_beacon p meta now) any.
Proof.
  intros Hb Hsrc. pose proof (BeaconFacts.decode_wf (p_payload p) Hb) as [Hsafe Hok]. unfold relay_handle_beacon.
  eapply holds_bind; [by apply (decode_attempt _ BeaconFacts.beacon_ok)|].
  intros [e|b] Hbk; [relay_run|]. destruct (Hbk b eq_refl) as (_ & _ & _ & _ & Hz & _). relay_run.
  intros t Ht. match goal with H : (fun a => a = me) _ |- _ => simpl in H; rewrite H end.
  apply (zop_fld _ _ (ZoneFacts.Update _ _ _ _ _)); [apply Hcfg|done..].
Qed.

(** ** Relaying *)

Lemma relay_covered_keep prev : holds ok (relay_covered prev) any.
Proof. unfold relay_covered. relay_run. Qed.
Lemma relay_density_roll_keep : holds ok relay_density_roll any.
Proof. unfold relay_density_roll. relay_run. Qed.
Lemma relay_forward_delay_keep meta : holds ok (relay_forward_delay meta) any.
Proof. unfold relay_forward_delay. relay_run. Qed.
Lemma relay_schedule_keep key p due : passes p -> holds ok (relay_schedule key p due) any.
Proof. intros Hp. unfold relay_schedule. relay_run. by apply schedule_fld. Qed.
Lemma relay_heard_keep key : holds ok (call rl_sched rl_upd_sched (RebroadcastScheduler.heard key)) any.
Proof. relay_run. by apply sched_heard_fld. Qed.
Hint Resolve relay_covered_keep relay_density_roll_keep relay_forward_delay_keep relay_schedule_keep relay_heard_keep : keep.
Lemma relay_maybe_relay_flood_keep p prev meta now : relayed heard p -> holds ok (relay_maybe_relay_flood p prev meta now) any.
Proof.
  intros Hp. unfold relay_maybe_relay_flood. destruct (decide _) as [|Ht]; [relay_run|]. assert (passes (relayed_copy p)).
  { eapply relayed_same, Hp. apply same_hop; [lia|]. by repeat split. }
  relay_run.
Qed.
Lemma relay_hold_keep p now : passes p -> holds ok (relay_hold p now) any.
Proof.
  intros Hp. unfold relay_hold. apply holds_bind_gets. intros n0 _. destruct (relay_neighbor _ _) as [nb|]; [|relay_run].
  destruct (_ && _); [|relay_run]. intros n Hn. do 2 apply wpe_bind, wpe_gets. keep_relay_cfg. case_bool_decide as Hl; simpl; [|by repeat wpe_step].
  repeat wpe_step. split; [|done]. apply field_set; [done|]. pose proof (rok_held _ _ _ _ Hn) as [_ Hf].
  split; [rewrite zlen_app, zlen_cons, zlen_nil; lia|]. apply Forall_app_2; [done|]. by apply Forall_cons_2.
Qed.
Hint Resolve relay_maybe_relay_flood_keep relay_hold_keep : keep.
Lemma relay_forward_to_keep nh p prev now : h_ttl (p_header p) > 1 -> relayed heard p -> holds ok (relay_forward_to nh p prev now) any.
Proof.
  intros Ht Hc. unfold relay_forward_to. destruct (decide _); [relay_run|]. eapply holds_bind; [by apply relay_address_keep|]. intros a ->.
  set (p' := trace_stamp _ _). assert (passes p').
  { apply relayed_stamp. eapply relayed_same, Hc. apply same_hop; [lia|]. by repeat split. }
  clearbody p'. relay_run.
Qed.
Lemma relay_queue_keep p : passes p -> holds ok (call rl_ierp rl_upd_ierp (Ierp.queue (h_dst (p_header p)) p)) any.
Proof. intros Hp. relay_run. by apply IerpInv.queue_fld. Qed.
Hint Resolve relay_forward_to_keep relay_queue_keep : keep.
Lemma relay_repair_keep p now : passes p -> holds ok (relay_repair p now) any.
Proof.
  intros Hp. unfold relay_repair. apply holds_bind_gets. intros n0 _. destruct (Ierp.is_pending _ _); [relay_run|].
  intros n Hn. apply wpe_bind, wpe_gets. destruct (Ierp.may_start _ _ _) eqn:Hm; [|by apply relay_send_route_error_keep].
  unfold relay_new_packet_id. do 3 wpe_step. wpe_step. set (n1 := rl_upd_packet_ids _ n). assert (Hn1 : ok n1) by (by apply field_set).
  assert (Hm1 : Ierp.may_start (h_dst (p_header p)) now (rl_ierp n1) = true) by exact Hm. clearbody n1. do 2 wpe_step.
  set (n2 := rl_upd_ierp _ n1). assert (Hn2 : ok n2) by (apply field_set; [done|]; apply IerpInv.start_fld; [done|apply Hn1]). clearbody n2.
  revert n2 Hn2. match goal with |- forall n2, _ -> wpe ?m _ _ _ => change (holds ok m any) end. relay_run.
Qed.
Hint Resolve relay_repair_keep : keep.
Lemma relay_forward_unicast_keep p prev now : relayed heard p -> holds ok (relay_forward_unicast p prev now) any.
Proof.
  intros Hp. unfold relay_forward_unicast. eapply holds_bind; [by apply relay_address_keep|]. intros a ->.
  destruct (decide _); [relay_run|]. destruct (decide _) as [|Ht]; [relay_run|]. relay_run. apply relay_forward_to_keep; [lia|done].
Qed.
Hint Resolve relay_forward_unicast_keep : keep.

(** ** Route control *)

Lemma relay_pass_request_keep p q cost prev meta now :
  h_ptype (p_header p) = RouteRequest -> holds ok (relay_pass_request p q cost prev meta now) any.
Proof.
  intros Hp. unfold relay_pass_request. set (fp := mkPacket _ _). assert (passes fp) by (apply relayed_control; simpl; by rewrite Hp).
  clearbody fp. relay_run. intros s Hs. destruct (RebroadcastScheduler.is_pending _ _); [|done]. by apply sched_cancel_fld.
Qed.
Lemma relay_observe_request_keep o r cost now : holds ok (call rl_ierp rl_upd_ierp (Ierp.observe_request o r cost now)) any.
Proof. relay_run. by apply IerpInv.observe_fld. Qed.
Hint Resolve relay_pass_request_keep relay_observe_request_keep : keep.
Lemma relay_handle_route_request_keep p prev meta now :
  h_ptype (p_header p) = RouteRequest -> holds ok (relay_handle_route_request p prev meta now) any.
Proof.
  intros Hp. unfold relay_handle_route_request. eapply holds_bind; [apply (decode_attempt _ any); [apply MessagesFacts.safe_rreq_decode|done]|].
  intros [e|q] _; relay_run.
Qed.
Lemma relay_forward_route_reply_keep p prev now :
  h_ptype (p_header p) = RouteReply -> holds ok (relay_forward_route_reply p prev now) any.
Proof.
  intros Hp. unfold relay_forward_route_reply. eapply holds_bind; [apply (decode_attempt _ any); [apply MessagesFacts.safe_rrep_decode|done]|].
  intros [e|r] _; relay_run. apply relay_forward_unicast_keep, relayed_control. simpl. by rewrite Hp.
Qed.
Lemma fail_until_lost_keep k u via : holds ok (fail_until_lost k u via) any.
Proof. induction k as [|k IH]; simpl; relay_run. Qed.
Hint Resolve fail_until_lost_keep : keep.
Lemma relay_handle_route_error_keep p prev : holds ok (relay_handle_route_error p prev) any.
Proof.
  unfold relay_handle_route_error. eapply holds_bind; [apply (decode_attempt _ any); [apply MessagesFacts.safe_rerr_decode|done]|].
  intros [e|r] _; relay_run.
Qed.
Lemma relay_answer_trace_keep p now : head (p_payload p) = Some control.TRACE_REQ -> holds ok (relay_answer_trace p now) any.
Proof. intros Hp. unfold relay_answer_trace. relay_run. apply safe_slice_from. destruct (p_payload p); [done|]. rewrite zlen_cons. pose proof (zlen_nonneg l). lia. Qed.
Hint Resolve relay_handle_route_request_keep relay_forward_route_reply_keep relay_handle_route_error_keep : keep.

(** ** Frames *)

Lemma relay_dispatch_keep p prev meta now : heard p -> holds ok (relay_dispatch p prev meta now) any.
Proof.
  intros Hh. pose proof (relayed_heard heard p Hh) as Hr. unfold relay_dispatch. eapply holds_bind; [by apply relay_address_keep|]. intros a _.
  destruct (h_ptype (p_header p)) eqn:Hpt; relay_run; apply relay_answer_trace_keep;
    match goal with H : _ && _ = true |- _ => apply andb_true_iff in H as [_ H]; by apply bool_decide_eq_true in H end.
Qed.
Hint Resolve relay_dispatch_keep : keep.
Lemma relay_handle_link_ack_keep p prev : zlen (p_payload p) = 5 -> holds ok (relay_handle_link_ack p prev) any.
Proof. intros Hp. unfold relay_handle_link_ack. relay_run. apply safe_be_at. lia. Qed.
Lemma relay_learn_reverse_keep p prev now : holds ok (relay_learn_reverse p prev now) any.
Proof. unfold relay_learn_reverse. relay_run. Qed.
Lemma relay_seen_keep key now : holds ok (call rl_seen rl_upd_seen (SeenCache.observe key now)) any.
Proof. relay_run. by apply (cop_fld _ (StormFacts.Observe key now)). Qed.
Hint Resolve relay_learn_reverse_keep relay_seen_keep : keep.
Lemma relay_handle_packet_keep p prev meta now : heard p -> holds ok (relay_handle_packet p prev meta now) any.
Proof.
  intros Hh. unfold relay_handle_packet. relay_run. apply relay_handle_link_ack_keep.
  repeat match goal with H : _ && _ = true |- _ => apply andb_true_iff in H as [? ?] end. by eapply bool_decide_eq_true_1.
Qed.
Hint Resolve relay_handle_beacon_keep relay_handle_packet_keep : keep.
Definition relay_decodes (frame : list Z) p : Prop := packet_decode hmac_sha256 frame (rcf_network_key c) (rcf_max_ttl c) = Ok p.
Lemma relay_on_radio_rx_keep frame meta :
  bytes_ok frame -> (forall p, relay_decodes frame p -> heard p) -> holds ok (relay_on_radio_rx frame meta) any.
Proof.
  intros Hf Hhd. unfold relay_on_radio_rx. apply (holds_bind _ _ _ any); [relay_run|intros _ _]. apply holds_bind_gets; intros ? ?.
  eapply holds_bind; [by apply stat_keep|]. intros _ _. eapply holds_bind; [by apply relay_airtime_keep|]. intros air _.
  apply (holds_bind _ _ _ any); [relay_run|intros _ _]. apply holds_bind_gets. intros n Hn. keep_relay_cfg.
  eapply holds_bind; [apply (decode_attempt _ (fun p => packet_ok (rcf_max_ttl c) p /\ heard p)); [by apply packet_decode_safe|]|].
  { intros p Hp. split; [by eapply packet_decode_sound|by apply Hhd]. }
  intros [e|p] Hp; [relay_run|]. destruct (Hp p eq_refl) as [Hok Hh]. clear Hp. eapply holds_bind; [by apply relay_address_keep|]. intros a ->.
  destruct (decide _) as [|Hsrc]; [relay_run|]. pose proof Hok as (_ & Hb & _). relay_run.
  intros t Ht. match goal with |- neighbors_fld _ (NeighborTable.observe_packet ?a ?b _ _) =>
    by destruct (nop_fld _ (NeighborFacts.ObservePacket a b meta) t Ht) as (t' & [= <-] & ?) end.
Qed.

(** ** Beacons sent, scheduled relays *)

Lemma relay_schedule_beacon_keep now : holds ok (relay_schedule_beacon now) any.
Proof. unfold relay_schedule_beacon. relay_run. Qed.
Hint Resolve relay_schedule_beacon_keep : keep.
Lemma relay_send_beacon_keep now : holds ok (relay_send_beacon now) any.
Proof. unfold relay_send_beacon. relay_run. Qed.
Lemma relay_mark_forwarded_keep key : holds ok (modify (rl_upd_seen (SeenCache.mark_forwarded key)) : M unit) any.
Proof. relay_run. intros s. apply (cop_fld _ (StormFacts.Mark key)). Qed.
Hint Resolve relay_send_beacon_keep relay_mark_forwarded_keep : keep.
Lemma relay_poll_relays_keep now : holds ok (relay_poll_relays now) any.
Proof.
  unfold relay_poll_relays. apply holds_bind_gets. intros n Hn. eapply holds_bind; [by apply relay_address_keep|]. intros a _.
  apply holds_bind with (P := Forall (fun e => passes e.2)); [apply holds_call; intros x; apply sched_due_fld|].
  intros due Hd. eapply holds_for_each; [exact Hd| |done]. intros [key p] Hp. simpl in Hp. relay_run.
Qed.

(** ** Hop retries *)

Notation exh := (exhausted ho_attempts).

Lemma relay_enqueue_frames p t pr rel : frames rl_hop_pending (relay_enqueue (I := I) (R := R) p t pr rel).
Proof. unfold relay_enqueue, stat. frame. Qed.
Lemma relay_send_frames p t pr rel : frames rl_hop_pending (relay_send (I := I) (R := R) p t pr rel).
Proof. unfold relay_send. frame. apply relay_enqueue_frames. Qed.
Lemma relay_base_header_frames pt dst ttl : frames rl_hop_pending (relay_base_header (I := I) (R := R) pt dst ttl).
Proof. unfold relay_base_header, relay_new_packet_id, relay_address. frame. Qed.

(** At most [k] exhausted entries from index [j] on. *)
Definition rfew (k : Z) (j : nat) s : Prop := ok s /\ exh (rcf_hop_retries c) j (rl_hop_pending s) <= k.
Lemma rfew_frame {A} k j (m : M A) (Q : A -> Prop) : holds ok m Q -> frames rl_hop_pending m -> holds (rfew k j) m Q.
Proof. intros Hm Hf. exact (holds_frame rl_hop_pending ok (fun l => exh (rcf_hop_retries c) j l <= k) m Q Hm Hf). Qed.
Lemma rfew_hops k j f :
  (forall l, hops_fld c heard l -> hops_fld c heard (f l)) -> (forall l, exh (rcf_hop_retries c) j (f l) <= exh (rcf_hop_retries c) j l) ->
  holds (rfew k j) (modify (rl_upd_hop_pending f) : M unit) any.
Proof.
  intros Hb He. apply holds_modify; [|done]. intros n [Hn Hk]. split; [apply field_set; [done|]; by apply Hb, field_get|]. simpl.
  specialize (He (rl_hop_pending n)). lia.
Qed.
(** A tracked hop starts with one attempt, within the retries. *)
Lemma relay_track_hop_exh k j p nh now s :
  rl_cfg s = c -> exh (rcf_hop_retries c) j (rl_hop_pending s) <= k ->
  exh (rcf_hop_retries c) j (rl_hop_pending (relay_track_hop p nh now s).1) <= k.
Proof.
  intros Hc Hk. set (X := fun n' : Relay I R => exh (rcf_hop_retries c) j (rl_hop_pending n') <= k). change (X (relay_track_hop p nh now s).1).
  destruct Hcfg as (_ & _ & _ & _ & _ & Hr). apply wpx_final. unfold relay_track_hop. do 2 (apply wpx_bind, wpx_gets). rewrite Hc.
  destruct (decide _) as [|Hd]; [done|]. apply wpx_bind, wpx_modify. set (n1 := rl_upd_hop_pending _ s).
  assert (H1 : X n1) by (unfold X, n1; simpl; etrans; [apply exhausted_retain|done]). clearbody n1.
  unfold relay_update_neighbor, relay_hop_timeout, relay_airtime, relay_rand_u64. repeat (wpx_step || apply wpx_call); [|exact H1].
  unfold X. simpl. etrans; [apply exhausted_snoc; simpl; lia|exact H1].
Qed.
Lemma relay_track_hop_few k j p nh now : passes p -> holds (rfew k j) (relay_track_hop p nh now) any.
Proof.
  intros Hp n [Hn Hk]. pose proof (relay_track_hop_keep p nh now Hp n Hn) as Hok.
  pose proof (relay_track_hop_exh k j p nh now n (rok_cfg _ _ _ _ Hn) Hk) as Hex. unfold wpe in *.
  destruct (relay_track_hop p nh now n) as [n' [a|e|]]; simpl in *; [|by split|done]. by destruct Hok.
Qed.
Lemma relay_reroute_few k j h alt now : passes (ho_packet h) -> holds (rfew k j) (relay_reroute h alt now) any.
Proof.
  intros Hp. unfold relay_reroute. apply (holds_bind _ _ _ any); [by apply relay_track_hop_few, passes_next_hop|intros _ _].
  apply (holds_bind _ _ _ any); [|intros _ _; apply rfew_frame; [by apply relay_send_keep, passes_next_hop|apply relay_send_frames]].
  apply rfew_hops; intros l.
  - intros [Hl Hf]. split; [unfold zlen in *; by rewrite length_update_first|by apply Forall_update_first].
  - rewrite (exhausted_same _ _ _ l); [done|]. by apply fmap_update_first.
Qed.
Lemma relay_route_unicast_few k j p now : passes p -> holds (rfew k j) (relay_route_unicast p now) any.
Proof.
  intros Hp. unfold relay_route_unicast. apply holds_bind_gets. intros s _. destruct (relay_next_hop_for _ _ _) as [nh|]; [|by apply holds_ret].
  apply (holds_bind _ _ _ any); [apply rfew_frame; [by eapply holds_any, relay_address_keep|unfold relay_address; frame]|intros a _].
  apply (holds_bind _ _ _ any); [apply rfew_frame; [by apply relay_touch_keep|frame]|intros _ _].
  apply (holds_bind _ _ _ any); [by apply relay_track_hop_few, passes_hops|intros _ _].
  apply rfew_frame; [by apply relay_enqueue_keep, passes_hops|apply relay_enqueue_frames].
Qed.
Lemma relay_send_route_error_few k j to u now : holds (rfew k j) (relay_send_route_error to u now) any.
Proof.
  unfold relay_send_route_error. apply (holds_bind _ _ _ any); [apply rfew_frame; [by eapply holds_any, relay_address_keep|unfold relay_address; frame]|intros a _].
  apply holds_bind_gets. intros s _. destruct (decide _); [by apply holds_ret|]. apply holds_bind_gets. intros s' _.
  eapply holds_bind; [apply rfew_frame; [apply relay_base_header_keep|apply relay_base_header_frames]|]. intros h Hh.
  apply (holds_bind _ _ _ any); [apply relay_route_unicast_few, relayed_control; simpl; by rewrite Hh|intros _ _; by apply holds_ret].
Qed.
Lemma relay_record_failure_keep a : holds ok (call rl_neighbors rl_upd_neighbors (NeighborTable.record_failure a)) any.
Proof. relay_run. match goal with H : neighbors_fld _ ?t |- _ => by destruct (nop_fld _ (NeighborFacts.Failure a) t H) as (t' & [= <-] & ?) end. Qed.
Lemma relay_hop_failed_few k j h now : passes (ho_packet h) -> holds (rfew k j) (relay_hop_failed h now) any.
Proof.
  intros Hp. unfold relay_hop_failed. apply (holds_bind _ _ _ any); [apply rfew_frame; [by apply stat_keep|unfold stat; frame]|intros _ _].
  apply (holds_bind _ _ _ any); [apply rfew_frame; [by apply relay_record_failure_keep|frame]|intros dead _].
  apply (holds_bind _ _ _ any).
  { apply rfew_frame; [|unfold relay_mark_failure; frame]. relay_run. by apply (rop_fld _ (RoutingFacts.InvalidateVia _)). }
  intros _ _. apply holds_bind_gets. intros s _. destruct (if ho_rerouted h then None else _) as [alt|]; [|apply relay_send_route_error_few].
  destruct (decide _); [by apply relay_reroute_few|apply relay_send_route_error_few].
Qed.
Lemma relay_hop_retry_few k j h now : passes (ho_packet h) -> holds (rfew k (S j)) (relay_hop_retry j h now) any.
Proof.
  intros Hp. unfold relay_hop_retry. apply (holds_bind _ _ _ any); [apply rfew_frame; [by apply relay_tx_attempt_keep|unfold relay_update_neighbor; frame]|intros _ _].
  apply (holds_bind _ _ _ any); [apply rfew_frame; [by apply relay_rand_u64_keep|unfold relay_rand_u64; frame]|intros r _].
  apply (holds_bind _ _ _ any); [apply rfew_frame; [by apply relay_hop_timeout_keep|unfold relay_hop_timeout, relay_airtime; frame]|intros t _].
  apply (holds_bind _ _ _ any); [apply rfew_hops; intros l|intros _ _].
  { intros [Hl Hf]. split; [unfold zlen in *; by rewrite length_alter|by apply Forall_alter]. }
  { by rewrite exhausted_alter. }
  apply rfew_frame; [relay_run|]. unfold stat. frame; apply relay_send_frames || by apply frames_modify.
Qed.

(** Rounds left: indices not yet visited and exhausted entries ahead. *)
Notation cap := (Z.max 0 (rcf_max_hop_pending c)).
Lemma relay_hop_loop_wpe fuel j now k s :
  rfew k j s -> cap - Z.of_nat j + k < Z.of_nat fuel -> Z.of_nat j <= cap ->
  wpe (relay_hop_loop fuel j (rcf_hop_retries c) now) (fun n' a => ok n' /\ any a) ok s.
Proof.
  revert j k s. induction fuel as [|fuel IH]; intros j k n [Hn Hk] Hf Hj.
  { pose proof (zlen_nonneg (retain (fun a => bool_decide (a > rcf_hop_retries c)) (drop j (ho_attempts <$> rl_hop_pending n)))).
    unfold exhausted in Hk. lia. }
  simpl. apply wpe_bind, wpe_gets. destruct (rl_hop_pending n !! j) as [h|] eqn:Hl; [|by apply wpe_ret].
  pose proof (rok_hops _ _ _ _ Hn) as [Hb Hc]. pose proof (Forall_lookup_1 _ _ _ _ Hc Hl) as Hh.
  assert (Hlt : Z.of_nat j < cap) by (apply lookup_lt_Some in Hl; unfold zlen in Hb; lia).
  destruct (decide (ho_due h > now)) as [_|_].
  { apply (IH (S j) k); [split; [done|etrans; [apply exhausted_S|done]]|lia|lia]. }
  destruct (decide (ho_attempts h > rcf_hop_retries c)) as [Hx|_].
  - apply wpe_bind, wpe_modify, wpe_bind. eapply wpe_mono; [apply (relay_hop_failed_few (k - 1) j h now Hh)| |by intros ? []].
    + split; simpl; [|rewrite (exhausted_vec_remove _ _ _ _ _ Hl Hx); lia]. apply field_set; [done|]. split; [|by apply Forall_vec_remove].
      rewrite (vec_remove_len _ _ _ Hl). lia.
    + intros n' _ [Hn' _]. apply (IH j (k - 1)); [done|lia|lia].
  - apply wpe_bind. eapply wpe_mono; [apply (relay_hop_retry_few k j h now Hh)| |by intros ? []].
    + split; [done|]. etrans; [apply exhausted_S|done].
    + intros n' _ [Hn' _]. apply (IH (S j) k); [done|lia|lia].
Qed.
Lemma relay_poll_hops_keep now : holds ok (relay_poll_hops now) any.
Proof.
  intros n Hn. unfold relay_poll_hops. do 2 apply wpe_bind, wpe_gets. keep_relay_cfg. apply (relay_hop_loop_wpe _ 0 now cap); [|lia|lia].
  split; [done|]. etrans; [apply exhausted_le|]. apply Hn.
Qed.

(** ** Repairs and housekeeping *)

Lemma relay_poll_repairs_keep now : holds ok (relay_poll_repairs now) any.
Proof.
  unfold relay_poll_repairs. apply holds_bind with (P := any); [|intros [retries failures] _; relay_run].
  - intros n Hn. unfold wpe.
    destruct (IerpInv.tick_fld passes (rcf_zrp c) next_u32 now (rl_rng n) (rl_ierp n) (rok_ierp _ _ _ _ Hn)) as (s' & rt & fl & g' & Ht & H1 & H2).
    rewrite Ht. split; [|done]. apply field_set; [by apply field_set|done].
Qed.
Lemma relay_flush_repaired_keep now : holds ok (relay_flush_repaired now) any.
Proof.
  unfold relay_flush_repaired. apply holds_bind_gets. intros n _. apply holds_true; [|done]. intros t.
  apply holds_bind with (P := Forall (IerpInv.parked passes t)); [apply holds_call; intros s; apply IerpInv.succeed_fld|].
  intros queued Hq. eapply holds_for_each; [exact Hq| |done]. intros p [Hp _]. relay_run.
Qed.
Lemma relay_neighbor_expire_keep now : holds ok (call rl_neighbors rl_upd_neighbors (NeighborTable.expire now)) any.
Proof. relay_run. match goal with H : neighbors_fld _ ?t |- _ => by destruct (nop_fld _ (NeighborFacts.Expire now) t H) as (t' & [= <-] & ?) end. Qed.
Hint Resolve relay_neighbor_expire_keep : keep.
Lemma relay_forget_keep a :
  holds ok (modify (rl_upd_zone (fun z => (ZoneTable.remove_via a z).1));; call rl_routes rl_upd_routes (RouteCache.invalidate_via a);; mret () : M unit) any.
Proof.
  relay_run; [intros z; apply (zop_fld _ _ (ZoneFacts.RemoveVia a)); [apply Hcfg|done]|]. by apply (rop_fld _ (RoutingFacts.InvalidateVia a)).
Qed.
Lemma relay_housekeeping_keep now : holds ok (relay_housekeeping now) any.
Proof.
  unfold relay_housekeeping. apply (holds_bind _ _ _ any); [relay_run|intros _ _].
  apply (holds_bind _ _ _ any); [relay_run; intros s; apply (cop_fld _ (StormFacts.Expire now))|intros _ _].
  apply (holds_bind _ _ _ any); [relay_run; intros s; apply IerpInv.expire_fld|intros _ _].
  apply (holds_bind _ _ _ any); [relay_run; intros r; apply (rop_fld _ (RoutingFacts.ExpireRoutes now))|intros _ _].
  apply (holds_bind _ _ _ any); [relay_run; intros z; apply (zop_fld _ _ (ZoneFacts.Expire now)); [apply Hcfg|done]|intros _ _].
  apply (holds_bind _ _ _ any); [by apply relay_neighbor_expire_keep|intros dead _].
  apply (holds_bind _ _ _ any); [apply holds_true; [intros a; apply relay_forget_keep|done]|intros _ _].
  relay_run; [|intros q; apply tx_retain_fld]. intros l [Hl Hf]. split; [|by apply Forall_retain].
  match goal with |- zlen (retain ?f l) <= _ => pose proof (zlen_retain_le f l) end. lia.
Qed.
Hint Resolve relay_poll_relays_keep relay_poll_hops_keep relay_poll_repairs_keep relay_flush_repaired_keep relay_housekeeping_keep : keep.
Lemma relay_poll_keep now : holds ok (relay_poll now) any.
Proof. unfold relay_poll. relay_run. Qed.
End Safe.
