(* ===== verification/RelayMain.v ===== *)
(** * The relay: theorems

    What a relay guarantees from [Relay::with_identity] on, whatever frames it
    receives, and that its packet ids do not repeat. *)
From stdpp Require Import base tactics list numbers.
From Stdlib Require Import Lia Znumtheory Zpow_facts.
From S2P Require Import Prelude SmallMap Float32 Protocol Packet Fragmentation CryptoLib Identity Noise Storm Routing Messages Ierp Transport Beacon Radio Neighbor Zone Methods NodeState Calculus NodeTx NodeRx Node EngineInv NodeMain RelayState Relay RelaySafe.
From stdpp Require Import list.
#[local] Open Scope Z_scope.

Section Relay.
Context `{C : CryptoLib, !CryptoLibLaws C} {I R : Type} `{!RelayIdentity I} `{G : RngCore R, !RngCoreLaws R}.

(** ** The relay's interface *)

Inductive relay_api := RelayRx (frame : list Z) (meta : RxMeta) | RelayPoll (now : Z) | RelayNextTx (now : Z).
Definition run_relay (a : relay_api) : St (Relay I R) Error unit :=
  match a with
  | RelayRx frame meta => relay_on_radio_rx frame meta
  | RelayPoll now => relay_poll now
  | RelayNextTx now => relay_next_tx now;; mret ()
  end.
Definition relay_api_ok (a : relay_api) : Prop := match a with RelayRx frame _ => bytes_ok frame | _ => True end.
Definition relay_received (a : relay_api) : list (list Z) := match a with RelayRx frame _ => [frame] | _ => [] end.

(** The states of a relay created with [c] and [i], with the frames it received. *)
Inductive relay_history (c : RelayConfig) (i : I) : list (list Z) -> Relay I R -> Prop :=
| rhist_new rng now : relay_history c i [] (with_identity c i rng now)
| rhist_api log s a : relay_history c i log s -> relay_api_ok a -> relay_history c i (relay_received a ++ log) (run_relay a s).1.
Definition relay_heard_in (c : RelayConfig) (log : list (list Z)) (p : Packet) : Prop := exists frame, frame ∈ log /\ relay_decodes c frame p.

Lemma with_identity_ok c i heard rng now : relay_config_ok c -> relay_ok c i heard (with_identity c i rng now).
Proof.
  intros (Hp & Ht & Hz & Ha & Hm & Hh). unfold with_identity. destruct (next_u64 rng) as [r1 g1]. destruct (next_u32 g1) as [r2 g2].
  destruct (next_u32 g2) as [r3 g3].
  split; cbn [rl_cfg rl_id rl_neighbors rl_zone rl_routes rl_ierp rl_sched rl_seen rl_hop_pending rl_tx_queue rl_held].
  1-2: done.
  - split; [apply NeighborFacts.new_table_ok|done].
  - split; [|split; [done|exact Hm]]. split; [apply SmallMapFacts.empty_wf|]. split; [apply SmallMapFacts.empty_wf|]. split; [constructor|]. simpl. lia.
  - split; [|done]. split; [done|]. split; [apply SmallMapFacts.empty_wf|]. split; [|constructor].
    change (0 <= Z.max 1 (max_destinations (rcf_routing c))). lia.
  - by apply IerpInv.new_fld.
  - split; simpl; [unfold zlen; simpl; lia|constructor].
  - apply StormFacts.seen_cache_start.
  - split; simpl; [unfold zlen; simpl; lia|constructor].
  - split; simpl; [unfold zlen; simpl; lia|constructor].
  - split; simpl; [unfold zlen; simpl; lia|constructor].
Qed.
Lemma run_relay_keep c i heard a :
  relay_config_ok c -> relay_api_ok a -> (forall p, relay_heard_in c (relay_received a) p -> heard p) ->
  holds (relay_ok c i heard) (run_relay a) any.
Proof.
  intros Hc Ha Hh. destruct a; simpl in *.
  - apply relay_on_radio_rx_keep; [done..|]. intros p Hp. apply Hh. exists frame. split; [by apply list_elem_of_singleton|done].
  - by apply relay_poll_keep.
  - apply (holds_bind _ _ _ any); [by apply relay_next_tx_keep|intros; by apply holds_ret].
Qed.
Lemma relay_history_ok c i log s : relay_config_ok c -> relay_history c i log s -> relay_ok c i (relay_heard_in c log) s.
Proof.
  intros Hc. induction 1 as [rng now|log s a _ IH Ha]; [by apply with_identity_ok|]. set (log' := relay_received a ++ log).
  assert (Hs : relay_ok c i (relay_heard_in c log') s).
  { eapply relay_ok_mono, IH. intros p (f & Hf & Hp). exists f. split; [|done]. apply elem_of_app. by right. }
  assert (Hh : forall p, relay_heard_in c (relay_received a) p -> relay_heard_in c log' p).
  { intros p (f & Hf & Hp). exists f. split; [|done]. apply elem_of_app. by left. }
  pose proof (run_relay_keep c i _ a Hc Ha Hh s Hs) as Hw. unfold wpe in Hw. by destruct (run_relay a s) as [s' [x|e|]]; [destruct Hw|..].
Qed.

(** C6. The relay never panics: from [Relay::with_identity], after any sequence
    of received frames, polls and transmissions, the next call returns. *)
Theorem relay_never_panics (c : RelayConfig) (i : I) (log : list (list Z)) (s : Relay I R) (a : relay_api) :
  relay_config_ok c -> relay_history c i log s -> relay_api_ok a -> (run_relay a s).2 <> Panic.
Proof.
  intros Hc Hs Ha. pose proof (run_relay_keep c i any a Hc Ha (fun _ _ => Logic.I) s) as Hw. unfold wpe in Hw.
  assert (Hany : relay_ok c i any s) by (by eapply relay_ok_mono, relay_history_ok). specialize (Hw Hany).
  by destruct (run_relay a s) as [s' [x|e|]].
Qed.

(** C8. Hard limits, as a board with 20 KB needs them: in every state the relay
    reaches, whatever was received, the neighbour table, the zone's nodes, the
    destinations with routes, the discoveries under way, the duplicate cache, the
    scheduled relays, the hops awaiting confirmation, the transmit queue and the
    packets held for sleeping leaves are within their configured limits.  (The
    code puts no such limit on the zone's adjacency lists and on the
    discovery's cache of requests.) *)
Theorem relay_bounded_memory (c : RelayConfig) (i : I) (log : list (list Z)) (s : Relay I R) :
  relay_config_ok c -> relay_history c i log s ->
  NeighborTable.len (rl_neighbors s) <= Z.max 1 (max_neighbors (rcf_neighbor c)) /\
  ZoneTable.len (rl_zone s) <= max_zone_entries (rcf_zrp c) /\
  RouteCache.destinations (rl_routes s) <= Z.max 1 (max_destinations (rcf_routing c)) /\
  SmallMap.len (ie_pending (rl_ierp s)) <= Z.max 0 (max_pending_discoveries (rcf_zrp c)) /\
  SmallMap.len (sc_map (rl_seen s)) <= Z.max 1 (seen_cache_size (rcf_storm c)) /\
  zlen (rs_pending (rl_sched s)) <= Z.max 0 (max_pending (rcf_storm c)) /\
  zlen (rl_hop_pending s) <= Z.max 0 (rcf_max_hop_pending c) /\
  zlen (rl_tx_queue s) <= Z.max 0 (rcf_max_tx_queue c) /\
  zlen (rl_held s) <= Z.max 0 (rcf_max_held c).
Proof.
  intros Hc Hs. pose proof (relay_history_ok c i log s Hc Hs) as Hok. repeat match goal with |- _ /\ _ => split end.
  - destruct (rok_neighbors _ _ _ _ Hok) as [(_ & _ & H) Ht]. by rewrite Ht in H.
  - apply (rok_zone _ _ _ _ Hok).
  - destruct (rok_routes _ _ _ _ Hok) as [(_ & _ & H & _) Ht]. by rewrite Ht in H.
  - destruct (rok_ierp _ _ _ _ Hok) as [[(_ & _ & _ & _ & H & _) _] Ht]. by rewrite Ht in H.
  - destruct (rok_seen _ _ _ _ Hok) as [(_ & _ & _ & _ & H) Ht]. rewrite Ht in H. simpl in H. lia.
  - apply (rok_sched _ _ _ _ Hok).
  - apply (rok_hops _ _ _ _ Hok).
  - apply (rok_tx _ _ _ _ Hok).
  - apply (rok_held _ _ _ _ Hok).
Qed.

(** C7. A relay only passes traffic on: every frame it queues encodes a packet,
    and if that is a message, handshake, acknowledgement or mailbox packet, the
    relay received it in some frame, with the same type, flags, addresses,
    identifiers and payload, and at least as much time to live. *)
Theorem relay_only_forwards (c : RelayConfig) (i : I) (log : list (list Z)) (s : Relay I R) (item : TxItem) :
  relay_config_ok c -> relay_history c i log s -> item ∈ rl_tx_queue s ->
  exists p, packet_encode hmac_sha256 p (rcf_network_key c) = Ok (tx_frame item) /\
  (end_to_end (h_ptype (p_header p)) = true ->
   exists frame q, frame ∈ log /\ packet_decode hmac_sha256 frame (rcf_network_key c) (rcf_max_ttl c) = Ok q /\ same_message q p).
Proof.
  intros Hc Hs Hit. destruct (rok_tx _ _ _ _ (relay_history_ok c i log s Hc Hs)) as [_ Hf].
  destruct (Forall_elem _ _ _ Hf Hit) as (p & Hp & He). exists p. split; [exact He|]. intros Ht.
  destruct (Hp Ht) as (q & (frame & Hl & Hd) & Hsame). by exists frame, q.
Qed.
End Relay.

(** ** Packet ids

    [new_packet_id] steps [x] to [(x + 1) * 2654435761] modulo [2^32]: a linear
    congruential generator whose multiplier is 1 modulo 4 and whose increment is
    odd, so its period is the whole of [2^32]. *)
Module PacketIds.
Definition A : Z := 2654435761.
(** 1 + A + ... + A^(n-1). *)
Fixpoint geo (n : nat) : Z := match n with O => 0 | S n' => geo n' + A ^ Z.of_nat n' end.

Lemma geo_pow n : geo n * (A - 1) = A ^ Z.of_nat n - 1.
Proof. induction n as [|n IH]; [done|]. cbn [geo]. rewrite Nat2Z.inj_succ, Z.pow_succ_r by lia. nia. Qed.
Lemma geo_double n : geo (n + n) = geo n * (1 + A ^ Z.of_nat n).
Proof.
  apply (Z.mul_reg_r _ _ (A - 1)); [done|]. rewrite geo_pow, Nat2Z.inj_add, Z.pow_add_r by lia.
  transitivity (geo n * (A - 1) * (1 + A ^ Z.of_nat n)); [rewrite geo_pow; ring|ring].
Qed.
Lemma pow_mod4 n : A ^ Z.of_nat n mod 4 = 1.
Proof. induction n as [|n IH]; [done|]. rewrite Nat2Z.inj_succ, Z.pow_succ_r by lia. rewrite Z.mul_mod, IH by done. done. Qed.
Lemma geo_parity n : (2 | geo n - Z.of_nat n).
Proof.
  induction n as [|n [q Hq]]; [by exists 0|]. pose proof (Z.div_mod (A ^ Z.of_nat n) 4) as Hd. rewrite pow_mod4 in Hd.
  cbn [geo]. exists (q + 2 * (A ^ Z.of_nat n / 4)). rewrite Nat2Z.inj_succ. lia.
Qed.
(** The power of two in the sum is the one in its length. *)
Lemma geo_divides k : forall n, (2 ^ Z.of_nat k | geo n) -> (2 ^ Z.of_nat k | Z.of_nat n).
Proof.
  induction k as [|k IH]; intros n Hn; [exists (Z.of_nat n); lia|]. rewrite Nat2Z.inj_succ, Z.pow_succ_r in * by lia.
  assert (Hev : (2 | Z.of_nat n)).
  { destruct Hn as [q Hq]. destruct (geo_parity n) as [r Hr]. exists (q * 2 ^ Z.of_nat k - r). lia. }
  destruct Hev as [m Hm]. assert (Hn2 : n = (Z.to_nat m + Z.to_nat m)%nat) by lia. rewrite Hn2, geo_double in Hn.
  pose proof (Z.div_mod (A ^ Z.of_nat (Z.to_nat m)) 4) as Hd. rewrite pow_mod4 in Hd. set (w := A ^ _ / 4) in Hd.
  destruct Hn as [q Hq]. assert (H2 : (2 ^ Z.of_nat k | (2 * w + 1) * geo (Z.to_nat m))) by (exists q; nia).
  apply Gauss in H2.
  - apply IH in H2 as [u Hu]. exists u. lia.
  - apply rel_prime_sym, rel_prime_Zpower_r; [lia|]. apply Zgcd_1_rel_prime. rewrite Z.gcd_comm.
    replace (2 * w + 1) with (1 + w * 2) by lia. by rewrite Z.gcd_add_mult_diag_r.
Qed.

(** [n] steps, in closed form. *)
Lemma iter_closed n x : Nat.iter n next_packet_id x mod 2 ^ 32 = (A ^ Z.of_nat n * x + A * geo n) mod 2 ^ 32.
Proof.
  revert x. induction n as [|n IH]; intros x; [simpl; f_equal; lia|]. rewrite Nat.iter_succ_r, IH. unfold next_packet_id, u32, wrap.
  cbn [geo]. rewrite Nat2Z.inj_succ, Z.pow_succ_r by lia. fold A. set (p := A ^ Z.of_nat n).
  rewrite <- (Zplus_mod_idemp_l (p * _)), Z.mul_mod_idemp_r, Zplus_mod_idemp_l by done.
  rewrite <- (Zplus_mod_idemp_l (p * _)), (Z.mul_assoc p), (Z.mul_comm p (_ mod _)), <- Z.mul_assoc, Z.mul_mod_idemp_l, Zplus_mod_idemp_l by done.
  f_equal. ring.
Qed.
Lemma next_range x : 0 <= next_packet_id x < 2 ^ 32.
Proof. apply Z.mod_pos_bound. done. Qed.

(** A value comes back only after a multiple of [2^32] steps. *)
Lemma period x n : 0 <= x < 2 ^ 32 -> Nat.iter n next_packet_id x = x -> (2 ^ 32 | Z.of_nat n).
Proof.
  intros Hx Hn. apply (geo_divides 32). pose proof (iter_closed n x) as Hc. rewrite Hn in Hc.
  assert (Hz : ((A ^ Z.of_nat n * x + A * geo n) - x) mod 2 ^ 32 = 0) by (rewrite Zminus_mod, <- Hc, Z.sub_diag; done).
  apply Z.mod_divide in Hz; [|done]. rewrite <- (Z.sub_add 1 (A ^ Z.of_nat n)), <- geo_pow in Hz.
  replace ((geo n * (A - 1) + 1) * x + A * geo n - x) with (((A - 1) * x + A) * geo n) in Hz by ring.
  apply Gauss in Hz; [done|]. apply rel_prime_sym, (rel_prime_Zpower_r 32); [lia|]. apply Zgcd_1_rel_prime. rewrite Z.gcd_comm.
  replace ((A - 1) * x + A) with (1 + ((A - 1) / 2 * x + (A - 1) / 2) * 2) by (change ((A - 1) / 2) with 1327217880; unfold A; ring).
  by rewrite Z.gcd_add_mult_diag_r.
Qed.
Lemma iter_distinct x j k : (j < k)%nat -> Z.of_nat (k - j) < 2 ^ 32 -> Nat.iter (S j) next_packet_id x <> Nat.iter (S k) next_packet_id x.
Proof.
  intros Hjk Hk E. replace (S k) with (k - j + S j)%nat in E by lia. rewrite Nat.iter_add in E.
  assert (Hp : (2 ^ 32 | Z.of_nat (k - j))); [|apply Z.divide_pos_le in Hp; lia].
  apply (period (Nat.iter (S j) next_packet_id x)); [apply next_range|done].
Qed.
End PacketIds.

Section Ids.
Context {I R : Type} `{!RelayIdentity I} `{G : RngCore R}.

(** The ids of the next [n] packets. *)
Fixpoint drawn_ids (n : nat) (s : Relay I R) : list Z :=
  match n with
  | O => []
  | S n' => match relay_new_packet_id s with (s', Ok id) => id :: drawn_ids n' s' | _ => [] end
  end.
Lemma drawn_cons n s :
  drawn_ids (S n) s = next_packet_id (rl_packet_ids s) :: drawn_ids n (rl_upd_packet_ids next_packet_id s).
Proof. reflexivity. Qed.
Lemma drawn_lookup n s k : (k < n)%nat -> drawn_ids n s !! k = Some (Nat.iter (S k) next_packet_id (rl_packet_ids s)).
Proof.
  revert s k. induction n as [|n IH]; intros s k Hk; [lia|]. rewrite drawn_cons. destruct k as [|k]; [done|].
  rewrite (Nat.iter_succ_r (S k)). apply (IH (rl_upd_packet_ids next_packet_id s)). lia.
Qed.
Lemma drawn_length n s : length (drawn_ids n s) = n.
Proof. revert s. induction n as [|n IH]; intros s; [done|]. rewrite drawn_cons. simpl. by rewrite IH. Qed.

(** A relay does not reuse a packet id: the ids of up to [2^32] packets
    in a row are distinct, whatever the first one. *)
Theorem relay_packet_ids_unique (n : nat) (s : Relay I R) :
  Z.of_nat n <= 2 ^ 32 -> length (drawn_ids n s) = n /\ NoDup (drawn_ids n s).
Proof.
  intros Hn. split; [apply drawn_length|]. apply NoDup_alt. intros j k x Hj Hk.
  pose proof (lookup_lt_Some _ _ _ Hj) as H1. pose proof (lookup_lt_Some _ _ _ Hk) as H2. rewrite drawn_length in H1, H2.
  rewrite drawn_lookup in Hj, Hk by done. simplify_eq. destruct (lt_eq_lt_dec j k) as [[Hlt|]|Hlt]; [exfalso|done|exfalso].
  - eapply (PacketIds.iter_distinct (rl_packet_ids s) j k); [done|lia|]. congruence.
  - eapply (PacketIds.iter_distinct (rl_packet_ids s) k j); [done|lia|]. congruence.
Qed.
End Ids.

(** ** Two nodes that only hear the relay

    Alice and Bob are out of range of each other; what either sends reaches the
    relay, and what the relay sends reaches both. *)
Module RelayExamples.
Import NodeExamples.

Definition relay_id : UnsignedIdentity := UnsignedIdentity_from_public_key (C := ToyCrypto.lib) (replicate 32 7).
Definition relay0 : Relay UnsignedIdentity Z := with_identity RelayConfig_default relay_id 5000 0.
Definition at_ (t : Z) : RxMeta := RxMeta_new (-80) (f32_of 5) t.
Notation world := (Node Z * Relay UnsignedIdentity Z * Node Z)%type.

Fixpoint node_to_relay (k : nat) (t : Z) (x : Node Z) (r : Relay UnsignedIdentity Z) : Node Z * Relay UnsignedIdentity Z :=
  match k with
  | O => (x, r)
  | S k' =>
      match next_tx t x with
      | (x', Ok (Some item)) => node_to_relay k' t x' (run_relay (RelayRx (tx_frame item) (at_ t)) r).1
      | (x', _) => (x', r)
      end
  end.
Fixpoint relay_to_nodes (k : nat) (t : Z) (w : world) : world :=
  match k with
  | O => w
  | S k' =>
      let '(x, r, y) := w in
      match relay_next_tx t r with
      | (r', Ok (Some item)) =>
          relay_to_nodes k' t ((run_api (RadioRx (tx_frame item) (at_ t)) x).1, r', (run_api (RadioRx (tx_frame item) (at_ t)) y).1)
      | (r', _) => (x, r', y)
      end
  end.
Definition relay_tick (w : world) (t : Z) : world :=
  let '(x, r, y) := w in
  let x := (run_api (Poll t) x).1 in
  let y := (run_api (Poll t) y).1 in
  let r := (run_relay (RelayPoll t) r).1 in
  let '(x, r) := node_to_relay 6 t x r in
  let '(y, r) := node_to_relay 6 t y r in
  relay_to_nodes 6 t (x, r, y).
Definition relay_met : world := foldl relay_tick (alice0, relay0, bob0) [30000; 31000].
Definition relay_sent : world := let '(x, r, y) := relay_met in ((run_api (SendMessage bob_addr [1; 2; 3] Acknowledged) x).1, r, y).
Definition times (a : Z) (n : nat) : list Z := (fun k => a + 1000 * Z.of_nat k) <$> seq 0 n.
Definition relay_done : world := foldl relay_tick relay_sent (times 32000 14).

(** A broadcast of Alice's that the relay, alone so far, passes on. *)
Definition relay_heard : Relay UnsignedIdentity Z := (run_relay (RelayRx broadcast_frame (at_ 40000)) relay0).1.
Definition relay_busy : Relay UnsignedIdentity Z := (run_relay (RelayPoll 45000) relay_heard).1.
Lemma relay_default_ok : relay_config_ok RelayConfig_default.
Proof. split; [unfold RadioFacts.profile_ok; simpl; lia|]. repeat split; by vm_compute. Qed.
Lemma relay_busy_history : relay_history (C := ToyCrypto.lib) RelayConfig_default relay_id [broadcast_frame] relay_busy.
Proof.
  exact (rhist_api _ _ _ _ (RelayPoll 45000) (rhist_api _ _ _ _ (RelayRx broadcast_frame (at_ 40000)) (rhist_new _ _ 5000 0) broadcast_frame_ok) Logic.I).
Qed.
Lemma relay_busy_queue : exists beacon item, rl_tx_queue relay_busy = [beacon; item].
Proof. do 2 eexists. vm_compute. reflexivity. Qed.
End RelayExamples.
Import RelayExamples NodeExamples.

Lemma relay_never_panics_witness : (run_relay (RelayRx ex_frame ex_meta) relay_busy).2 <> Panic.
Proof.
  exact (relay_never_panics RelayConfig_default relay_id [broadcast_frame] relay_busy (RelayRx ex_frame ex_meta) relay_default_ok
    relay_busy_history ex_frame_ok).
Defined.
Lemma relay_bounded_memory_witness : NeighborTable.len (rl_neighbors relay_busy) <= 12 /\ zlen (rl_tx_queue relay_busy) <= 4.
Proof.
  pose proof (relay_bounded_memory RelayConfig_default relay_id [broadcast_frame] relay_busy relay_default_ok relay_busy_history)
    as (H1 & _ & _ & _ & _ & _ & _ & H2 & _). split; [exact H1|exact H2].
Defined.
Lemma relay_only_forwards_witness :
  exists item p, rl_tx_queue relay_busy !! 1%nat = Some item /\
  packet_encode hmac_sha256 p (rcf_network_key RelayConfig_default) = Ok (tx_frame item) /\
  (end_to_end (h_ptype (p_header p)) = true ->
   exists q, packet_decode hmac_sha256 broadcast_frame (rcf_network_key RelayConfig_default) 32 = Ok q /\ same_message q p).
Proof.
  destruct relay_busy_queue as (beacon & item & E). assert (Hin : rl_tx_queue relay_busy !! 1%nat = Some item) by (rewrite E; reflexivity).
  destruct (relay_only_forwards RelayConfig_default relay_id [broadcast_frame] relay_busy item relay_default_ok relay_busy_history
    (list_elem_of_lookup_2 _ _ _ Hin)) as (p & He & Hp).
  exists item, p. split; [exact Hin|]. split; [exact He|]. intros Ht. destruct (Hp Ht) as (frame & q & Hf & Hd & Hs).
  apply list_elem_of_singleton in Hf. subst frame. exists q. split; [exact Hd|exact Hs].
Defined.
Lemma relay_packet_ids_unique_witness : length (drawn_ids 100 relay0) = 100%nat /\ NoDup (drawn_ids 100 relay0).
Proof. apply (relay_packet_ids_unique 100 relay0). lia. Defined.

(** A run, as an example.  Through a relay: two nodes out of range of each other find a route,
    run the handshake and deliver the message, once, over the encrypted session,
    through a relay that holds no key; the sender is told. *)
Example relay_carries_message :
  exists hops cost rtt seq,
  n_events relay_done.1.1 = [NeighborUp (ui_address relay_id); RouteFound bob_addr hops cost; SessionEstablished bob_addr; Delivered 1 bob_addr rtt] /\
  n_events relay_done.2 = [NeighborUp (ui_address relay_id); SessionEstablished alice_addr;
    MessageReceived alice_addr seq [1; 2; 3] InSession 1 (-80) (f32_of 5) (Some (ui_address relay_id))].
Proof. eexists _, _, _, _. vm_compute. split; reflexivity. Qed.
