(* ===== verification/Text.v ===== *)
(** * Text

    The [str] and [String] of the language, as the protocol adapters use them:
    a string is the list of its UTF-8 bytes.  Literals, UTF-8 validation,
    character boundaries, prefixes and splits, and the number formats. *)
From stdpp Require Import base tactics list numbers.
From Stdlib Require Import Lia Ascii String.
From S2P Require Import Prelude Protocol.
From stdpp Require Import list.
#[local] Open Scope Z_scope.

(** A literal. *)
Definition str (s : string) : list Z := (fun c => Z.of_N (N_of_ascii c)) <$> list_ascii_of_string s.

(** ** UTF-8 *)

Definition between (lo hi b : Z) : bool := bool_decide (lo <= b <= hi).
Definition is_cont (b : Z) : bool := between 0x80 0xBF b.

(** The encoding of one character. *)
Definition utf8_char (c : list Z) : bool :=
  match c with
  | [b] => between 0 0x7F b
  | [b; c1] => between 0xC2 0xDF b && is_cont c1
  | [b; c1; c2] =>
      ((bool_decide (b = 0xE0) && between 0xA0 0xBF c1) || (between 0xE1 0xEC b && is_cont c1)
       || (bool_decide (b = 0xED) && between 0x80 0x9F c1) || (between 0xEE 0xEF b && is_cont c1)) && is_cont c2
  | [b; c1; c2; c3] =>
      ((bool_decide (b = 0xF0) && between 0x90 0xBF c1) || (between 0xF1 0xF3 b && is_cont c1)
       || (bool_decide (b = 0xF4) && between 0x80 0x8F c1)) && is_cont c2 && is_cont c3
  | _ => false
  end.

(** [core::str::from_utf8(..).is_ok()]. *)
Fixpoint utf8_valid (l : list Z) : bool :=
  match l with
  | [] => true
  | b :: l1 =>
      if utf8_char [b] then utf8_valid l1 else
      match l1 with
      | [] => false
      | c1 :: l2 =>
          if utf8_char [b; c1] then utf8_valid l2 else
          match l2 with
          | [] => false
          | c2 :: l3 =>
              if utf8_char [b; c1; c2] then utf8_valid l3 else
              match l3 with [] => false | c3 :: l4 => if utf8_char [b; c1; c2; c3] then utf8_valid l4 else false end
          end
      end
  end.

(** [s.is_char_boundary(i)]. *)
Definition is_char_boundary (s : list Z) (i : nat) : bool :=
  bool_decide (i = 0%nat) ||
  match s !! i with Some b => negb (is_cont b) | None => bool_decide (i = length s) end.

(** ** Searching and splitting *)

Definition starts_with (p s : list Z) : bool := bool_decide (take (length p) s = p).
(** [s.strip_suffix(c)] for a one-byte character. *)
Definition strip_suffix (c : Z) (s : list Z) : option (list Z) :=
  match reverse s with b :: r => if decide (b = c) then Some (reverse r) else None | [] => None end.
(** [s.split_once(d)]: around the first occurrence. *)
Fixpoint split_once (d s : list Z) : option (list Z * list Z) :=
  if starts_with d s then Some ([], drop (length d) s) else
  match s with
  | [] => None
  | b :: s' => match split_once d s' with Some (l, r) => Some (b :: l, r) | None => None end
  end.

Definition to_lower (b : Z) : Z := if between 65 90 b then b + 32 else b.
Definition to_upper (b : Z) : Z := if between 97 122 b then b - 32 else b.
Definition to_ascii_lowercase (s : list Z) : list Z := to_lower <$> s.
Definition to_ascii_uppercase (s : list Z) : list Z := to_upper <$> s.

(** The length of the white-space character at the head, 0 if there is none. *)
Definition whitespace_len (s : list Z) : nat :=
  match s with
  | b :: _ => if decide (b = 32 \/ 9 <= b <= 13) then 1%nat else
      match s with
      | 0xC2 :: c1 :: _ => if decide (c1 = 0x85 \/ c1 = 0xA0) then 2%nat else 0%nat
      | 0xE1 :: 0x9A :: 0x80 :: _ => 3%nat
      | 0xE2 :: 0x80 :: c2 :: _ => if decide (0x80 <= c2 <= 0x8A \/ c2 = 0xA8 \/ c2 = 0xA9 \/ c2 = 0xAF) then 3%nat else 0%nat
      | 0xE2 :: 0x81 :: 0x9F :: _ => 3%nat
      | 0xE3 :: 0x80 :: 0x80 :: _ => 3%nat
      | _ => 0%nat
      end
  | [] => 0%nat
  end.
(** [s.split_whitespace()]: [word] is the word being read, reversed; the rest of
    a white-space character is skipped. *)
Fixpoint words (s : list Z) (skip : nat) (word : list Z) : list (list Z) :=
  let flush := match word with [] => [] | _ => [reverse word] end in
  match s with
  | [] => flush
  | b :: s' =>
      match skip with
      | S k => words s' k word
      | O => match whitespace_len s with
             | O => words s' 0 (b :: word)
             | S k => flush ++ words s' k []
             end
      end
  end.
Definition split_whitespace (s : list Z) : list (list Z) := words s 0 [].

(** ** Numbers *)

(** [hex::encode] and [{:08x}]. *)
Definition hex_encode (l : list Z) : list Z := l ≫= hex_byte.
Definition hex_u32 (n : Z) : list Z := hex_encode (be_bytes 4 n).
(** [n.to_string()] for a [u64]: at most 20 digits. *)
Fixpoint digits (fuel : nat) (n : Z) (acc : list Z) : list Z :=
  match fuel with
  | O => acc
  | S fuel' => let acc := 48 + n mod 10 :: acc in if decide (n < 10) then acc else digits fuel' (n / 10) acc
  end.
Definition dec (n : Z) : list Z := digits 20 n [].

(** * Facts *)

(** Text as the sequence of its characters. *)
Inductive well_encoded : list Z -> Prop :=
| encoded_nil : well_encoded []
| encoded_app c s : utf8_char c = true -> well_encoded s -> well_encoded (c ++ s).

Lemma utf8_char_len c : utf8_char c = true -> (1 <= length c <= 4)%nat.
Proof. destruct c as [|? [|? [|? [|? [|]]]]]; simpl; try done; lia. Qed.
Lemma utf8_valid_sound n : forall s, (length s <= n)%nat -> utf8_valid s = true -> well_encoded s.
Proof.
  induction n as [|n IH]; intros s Hn Hs; [destruct s; [constructor|simpl in Hn; lia]|].
  destruct s as [|b s]; [constructor|]. destruct s as [|c1 [|c2 [|c3 l]]]; cbn [utf8_valid] in Hs; simpl in Hn;
    repeat match goal with
    | _ : utf8_char _ = true |- _ => fail 1
    | _ => match type of Hs with (if ?x then _ else _) = true => destruct x eqn:? end
    end; try done;
    (match goal with H : utf8_char ?c = true |- _ => apply (encoded_app c); [exact H|] end); apply IH; try exact Hs; simpl; lia.
Qed.
(** No character is a proper prefix of another. *)
Lemma prefix_free c1 c2 : utf8_char c1 = true -> utf8_char (c1 ++ c2) = true -> c2 = [].
Proof.
  intros H1 H2. destruct c2 as [|d c2]; [done|]. exfalso.
  destruct c1 as [|b [|c1 [|c2' [|c3 [|]]]]]; try done; destruct c2 as [|d2 [|d3 [|d4 [|]]]]; cbn [app] in H2; try done;
    unfold utf8_char, is_cont, between in *;
    repeat match goal with
    | H : _ && _ = true |- _ => apply andb_true_iff in H as [? ?]
    | H : _ || _ = true |- _ => apply orb_true_iff in H as [H|H]
    | H : bool_decide _ = true |- _ => apply bool_decide_eq_true in H
    end; lia.
Qed.
Lemma utf8_valid_complete s : well_encoded s -> utf8_valid s = true.
Proof.
  induction 1 as [|c s Hc _ IH]; [done|].
  assert (Hp : forall c1 c2, c2 <> [] -> c = c1 ++ c2 -> utf8_char c1 = false).
  { intros c1 c2 Hne ->. destruct (utf8_char c1) eqn:E; [|done]. by destruct Hne, (prefix_free c1 c2). }
  destruct c as [|b [|c1 [|c2 [|c3 [|]]]]]; try done; cbn [utf8_valid app];
    rewrite ?(Hp [b] [c1]), ?(Hp [b] [c1; c2]), ?(Hp [b; c1] [c2]), ?(Hp [b] [c1; c2; c3]), ?(Hp [b; c1] [c2; c3]), ?(Hp [b; c1; c2] [c3]) by done;
    by rewrite Hc.
Qed.
Lemma utf8_valid_iff s : utf8_valid s = true <-> well_encoded s.
Proof. split; [by apply (utf8_valid_sound (length s))|apply utf8_valid_complete]. Qed.
Lemma encoded_concat a b : well_encoded a -> well_encoded b -> well_encoded (a ++ b).
Proof. intros Ha Hb. induction Ha as [|c s Hc _ IH]; [done|]. rewrite <- app_assoc. by constructor. Qed.
Lemma encoded_ascii s : Forall (fun b => between 0 0x7F b = true) s -> well_encoded s.
Proof. induction 1 as [|b s Hb _ IH]; [constructor|]. by apply (encoded_app [b]). Qed.

(** Inside a character there is no boundary. *)
Lemma inner_not_boundary c s k : utf8_char c = true -> (0 < k < length c)%nat -> is_char_boundary (c ++ s) k = false.
Proof.
  intros Hc Hk. unfold is_char_boundary. rewrite bool_decide_false by lia. simpl.
  destruct c as [|b [|c1 [|c2 [|c3 [|]]]]]; try done; simpl in Hk;
    (destruct k as [|[|[|[|k]]]]; try lia); simpl; apply negb_false_iff; unfold utf8_char, is_cont, between in *;
    repeat match goal with
    | H : _ && _ = true |- _ => apply andb_true_iff in H as [? ?]
    | H : _ || _ = true |- _ => apply orb_true_iff in H as [H|H]
    | H : bool_decide _ = true |- _ => apply bool_decide_eq_true in H
    end; apply bool_decide_eq_true; lia.
Qed.
Lemma boundary_app c s k : (length c < k)%nat -> is_char_boundary (c ++ s) k = is_char_boundary s (k - length c).
Proof.
  intros Hk. unfold is_char_boundary. rewrite lookup_app_r, length_app by lia.
  rewrite (bool_decide_false (k = 0%nat)), (bool_decide_false (k - length c = 0)%nat) by lia.
  simpl. destruct (s !! (k - length c)%nat); [done|]. apply bool_decide_ext. lia.
Qed.
(** [truncate] at a boundary keeps text. *)
Lemma truncate_encoded s k : well_encoded s -> is_char_boundary s k = true -> well_encoded (take k s).
Proof.
  intros Hs. revert k. induction Hs as [|c s Hc Hs IH]; intros k Hk; [rewrite take_nil; constructor|].
  pose proof (utf8_char_len c Hc) as Hl. destruct (decide (k = 0%nat)) as [->|Hz]; [constructor|].
  destruct (decide (k < length c)%nat) as [Hlt|Hge]; [rewrite inner_not_boundary in Hk by (done || lia); done|].
  rewrite take_app_ge by lia. constructor; [done|].
  destruct (decide (k = length c)) as [->|]; [rewrite Nat.sub_diag; constructor|]. apply IH. by rewrite boundary_app in Hk by lia.
Qed.

(** Printed numbers are text. *)
Lemma digits_ascii fuel n acc :
  Forall (fun b => between 0 0x7F b = true) acc -> Forall (fun b => between 0 0x7F b = true) (digits fuel n acc).
Proof.
  revert n acc. induction fuel as [|fuel IH]; intros n acc Hacc; cbn [digits]; [done|].
  assert (Forall (fun b => between 0 0x7F b = true) (48 + n mod 10 :: acc)).
  { constructor; [|done]. pose proof (Z.mod_pos_bound n 10). apply bool_decide_eq_true. lia. }
  case_decide; [done|]. by apply IH.
Qed.
Lemma dec_encoded n : well_encoded (dec n).
Proof. apply encoded_ascii, digits_ascii. constructor. Qed.

(** A concrete byte string is checked by evaluation. *)
Lemma bytes_check l : forallb (between 0 255) l = true -> bytes_ok l.
Proof.
  intros H. rewrite forallb_forall in H. apply Forall_forall. intros b Hb. apply list_elem_of_In, H in Hb. unfold between in Hb. apply bool_decide_eq_true_1 in Hb. unfold byte_ok, in_u. lia.
Qed.
