(* ===== verification/Unified.v ===== *)
(** * The protocol-neutral model

    [crates/meshstar-protocols/src/model.rs], [adapter.rs] and [profiles.rs]: the
    message every adapter decodes to and encodes from, identities qualified by
    their protocol, security labels, the adapter trait as a class with its laws,
    and the schedule by which one radio listens to several networks. *)
From stdpp Require Import base tactics list numbers sets.
From Stdlib Require Import Lia Ascii String.
From S2P Require Import Prelude Float32 Protocol Radio CryptoLib Text.
From stdpp Require Import list.
#[local] Open Scope Z_scope.

(** ** Protocols and identities *)

Inductive ProtocolId := MeshStar | Meshtastic | MeshCore | Unknown.
#[global] Instance ProtocolId_eq_dec : EqDecision ProtocolId.
Proof. solve_decision. Defined.

Module ProtocolId.
Definition name (p : ProtocolId) : list Z :=
  str match p with
      | MeshStar => "MeshStar"
      | Meshtastic => "Meshtastic"
      | MeshCore => "MeshCore"
      | Unknown => "Unknown"
      end.
Definition parse (s : list Z) : option ProtocolId :=
  let s := to_ascii_lowercase s in
  if decide (s = str "meshstar" \/ s = str "native") then Some MeshStar
  else if decide (s = str "meshtastic") then Some Meshtastic
  else if decide (s = str "meshcore") then Some MeshCore
  else None.
End ProtocolId.

Inductive MeshCoreId := PublicKey (k : list Z) | HashPrefix (h : list Z).
#[global] Instance MeshCoreId_eq_dec : EqDecision MeshCoreId.
Proof. solve_decision. Defined.

Inductive IdentityRef :=
| IdMeshStar (a : Address) | IdMeshtastic (n : Z) | IdMeshCore (i : MeshCoreId) | IdBroadcast (p : ProtocolId).
#[global] Instance IdentityRef_eq_dec : EqDecision IdentityRef.
Proof. solve_decision. Defined.

Module IdentityRef.
Definition protocol (i : IdentityRef) : ProtocolId :=
  match i with
  | IdMeshStar _ => MeshStar
  | IdMeshtastic _ => Meshtastic
  | IdMeshCore _ => MeshCore
  | IdBroadcast p => p
  end.
Definition is_broadcast (i : IdentityRef) : bool := match i with IdBroadcast _ => true | _ => false end.
Definition canonical (i : IdentityRef) : list Z :=
  match i with
  | IdMeshStar a => str "meshstar:" ++ addr_display a
  | IdMeshtastic n => str "meshtastic:!" ++ hex_u32 n
  | IdMeshCore (PublicKey k) => str "meshcore:" ++ hex_encode k
  | IdMeshCore (HashPrefix h) => str "meshcore:~" ++ hex_encode h
  | IdBroadcast p => to_ascii_lowercase (ProtocolId.name p) ++ str ":broadcast"
  end.
End IdentityRef.

Record ForeignIdentity := mkForeign {
  fi_protocol : ProtocolId;
  fi_native_id : IdentityRef;
  fi_display_name : option (list Z);
  fi_short_name : option (list Z);
  fi_observed_keys : list (list Z);
  fi_first_seen : Z;
  fi_last_seen : Z;
  fi_last_rssi_dbm : option Z;
  fi_last_snr_db : option f32;
  fi_metadata : list (list Z * list Z)
}.

Module ForeignIdentity.
Definition new (native_id : IdentityRef) (now : Z) : ForeignIdentity :=
  mkForeign (IdentityRef.protocol native_id) native_id None None [] now now None None [].
(** The flag: the key conflicts with one seen before. *)
Definition observe_key (key_hex : list Z) (f : ForeignIdentity) : ForeignIdentity * bool :=
  if bool_decide (key_hex ∈ fi_observed_keys f) then (f, false) else
  let conflict := negb (bool_decide (fi_observed_keys f = [])) in
  (mkForeign (fi_protocol f) (fi_native_id f) (fi_display_name f) (fi_short_name f) (fi_observed_keys f ++ [key_hex])
     (fi_first_seen f) (fi_last_seen f) (fi_last_rssi_dbm f) (fi_last_snr_db f) (fi_metadata f), conflict).
End ForeignIdentity.

(** ** Messages *)

Inductive ContentType := Text | Binary | Position | NodeInfo | Telemetry | CtAck | RouteControl | Advert | Opaque | Other (x : Z).
#[global] Instance ContentType_eq_dec : EqDecision ContentType.
Proof. solve_decision. Defined.

(** [{:?}] *)
Definition ContentType_debug (c : ContentType) : list Z :=
  match c with
  | Text => str "Text" | Binary => str "Binary" | Position => str "Position" | NodeInfo => str "NodeInfo"
  | Telemetry => str "Telemetry" | CtAck => str "Ack" | RouteControl => str "RouteControl" | Advert => str "Advert"
  | Opaque => str "Opaque" | Other x => str "Other(" ++ dec x ++ str ")"
  end.

Inductive SecurityLevel :=
| MeshStarE2E | MeshStarEnvelope | MeshStarGroup | Plaintext
| ForeignSharedKey (protocol : ProtocolId) (channel : list Z)
| ForeignDirect (protocol : ProtocolId) (authenticated : bool)
| Undecryptable (protocol : ProtocolId)
| Bridged (via : ProtocolId) (gateway : list Z) (original : SecurityLevel).
#[global] Instance SecurityLevel_eq_dec : EqDecision SecurityLevel.
Proof. solve_decision. Defined.

Module SecurityLevel.
Definition is_meshstar_e2e (s : SecurityLevel) : bool := match s with MeshStarE2E | MeshStarEnvelope => true | _ => false end.
Definition crossed_bridge (s : SecurityLevel) : bool := match s with Bridged _ _ _ => true | _ => false end.
Fixpoint label (s : SecurityLevel) : list Z :=
  match s with
  | MeshStarE2E => str "MeshStar E2E (Noise XX, forward secrecy)"
  | MeshStarEnvelope => str "MeshStar sealed envelope (Noise X)"
  | MeshStarGroup => str "MeshStar group key broadcast"
  | Plaintext => str "PLAINTEXT"
  | ForeignSharedKey p ch => ProtocolId.name p ++ str " shared channel key (" ++ ch ++ str ")"
  | ForeignDirect p auth => ProtocolId.name p ++ str " direct" ++ (if auth then str ", authenticated" else str ", unauthenticated")
  | Undecryptable p => ProtocolId.name p ++ str " encrypted (no key)"
  | Bridged via gw orig =>
      str "Bridged via " ++ ProtocolId.name via ++ str " compatibility gateway " ++ gw ++ str " (originally: " ++ label orig ++ str ")"
  end.
End SecurityLevel.

Record SignalMeta := mkSignal {
  sg_rssi_dbm : option Z; sg_snr_db : option f32; sg_frequency_hz : option Z; sg_received_at : Z
}.
Definition SignalMeta_default : SignalMeta := mkSignal None None None 0.

Record HopMeta := mkHops {
  hm_hops_travelled : option Z; hm_hops_remaining : option Z; hm_path : list (list Z); hm_relayed_by : option (list Z)
}.
Definition HopMeta_default : HopMeta := mkHops None None [] None.

Record BridgeHop := mkHop { bh_gateway : list Z; bh_from : ProtocolId; bh_to : ProtocolId; bh_at : Z }.

Record UnifiedMessage := mkUnified {
  um_source : IdentityRef;
  um_destination : IdentityRef;
  um_protocol : ProtocolId;
  um_channel : option (list Z);
  um_message_id : list Z;
  um_reply_to : option (list Z);
  um_timestamp : option Z;
  um_content_type : ContentType;
  um_payload : list Z;
  um_encrypted : bool;
  um_security : SecurityLevel;
  um_signal : SignalMeta;
  um_hops : HopMeta;
  um_wants_ack : bool;
  um_bridge_path : list BridgeHop;
  um_bridge_origin : option (list Z);
  um_protocol_metadata : list (list Z * list Z)
}.

(** Assignments [m.field = v]. *)
Module UM.
Definition set_source (v : IdentityRef) (m : UnifiedMessage) : UnifiedMessage :=
  mkUnified
    v (um_destination m) (um_protocol m) (um_channel m) (um_message_id m) (um_reply_to m) (um_timestamp m)
    (um_content_type m) (um_payload m) (um_encrypted m) (um_security m) (um_signal m) (um_hops m)
    (um_wants_ack m) (um_bridge_path m) (um_bridge_origin m) (um_protocol_metadata m).
Definition set_destination (v : IdentityRef) (m : UnifiedMessage) : UnifiedMessage :=
  mkUnified
    (um_source m) v (um_protocol m) (um_channel m) (um_message_id m) (um_reply_to m) (um_timestamp m)
    (um_content_type m) (um_payload m) (um_encrypted m) (um_security m) (um_signal m) (um_hops m)
    (um_wants_ack m) (um_bridge_path m) (um_bridge_origin m) (um_protocol_metadata m).
Definition set_protocol (v : ProtocolId) (m : UnifiedMessage) : UnifiedMessage :=
  mkUnified
    (um_source m) (um_destination m) v (um_channel m) (um_message_id m) (um_reply_to m) (um_timestamp m)
    (um_content_type m) (um_payload m) (um_encrypted m) (um_security m) (um_signal m) (um_hops m)
    (um_wants_ack m) (um_bridge_path m) (um_bridge_origin m) (um_protocol_metadata m).
Definition set_channel (v : option (list Z)) (m : UnifiedMessage) : UnifiedMessage :=
  mkUnified
    (um_source m) (um_destination m) (um_protocol m) v (um_message_id m) (um_reply_to m) (um_timestamp m)
    (um_content_type m) (um_payload m) (um_encrypted m) (um_security m) (um_signal m) (um_hops m)
    (um_wants_ack m) (um_bridge_path m) (um_bridge_origin m) (um_protocol_metadata m).
Definition set_message_id (v : list Z) (m : UnifiedMessage) : UnifiedMessage :=
  mkUnified
    (um_source m) (um_destination m) (um_protocol m) (um_channel m) v (um_reply_to m) (um_timestamp m)
    (um_content_type m) (um_payload m) (um_encrypted m) (um_security m) (um_signal m) (um_hops m)
    (um_wants_ack m) (um_bridge_path m) (um_bridge_origin m) (um_protocol_metadata m).
Definition set_reply_to (v : option (list Z)) (m : UnifiedMessage) : UnifiedMessage :=
  mkUnified
    (um_source m) (um_destination m) (um_protocol m) (um_channel m) (um_message_id m) v (um_timestamp m)
    (um_content_type m) (um_payload m) (um_encrypted m) (um_security m) (um_signal m) (um_hops m)
    (um_wants_ack m) (um_bridge_path m) (um_bridge_origin m) (um_protocol_metadata m).
Definition set_timestamp (v : option Z) (m : UnifiedMessage) : UnifiedMessage :=
  mkUnified
    (um_source m) (um_destination m) (um_protocol m) (um_channel m) (um_message_id m) (um_reply_to m) v
    (um_content_type m) (um_payload m) (um_encrypted m) (um_security m) (um_signal m) (um_hops m)
    (um_wants_ack m) (um_bridge_path m) (um_bridge_origin m) (um_protocol_metadata m).
Definition set_content_type (v : ContentType) (m : UnifiedMessage) : UnifiedMessage :=
  mkUnified
    (um_source m) (um_destination m) (um_protocol m) (um_channel m) (um_message_id m) (um_reply_to m)
    (um_timestamp m) v (um_payload m) (um_encrypted m) (um_security m) (um_signal m) (um_hops m)
    (um_wants_ack m) (um_bridge_path m) (um_bridge_origin m) (um_protocol_metadata m).
Definition set_payload (v : list Z) (m : UnifiedMessage) : UnifiedMessage :=
  mkUnified
    (um_source m) (um_destination m) (um_protocol m) (um_channel m) (um_message_id m) (um_reply_to m)
    (um_timestamp m) (um_content_type m) v (um_encrypted m) (um_security m) (um_signal m) (um_hops m)
    (um_wants_ack m) (um_bridge_path m) (um_bridge_origin m) (um_protocol_metadata m).
Definition set_encrypted (v : bool) (m : UnifiedMessage) : UnifiedMessage :=
  mkUnified
    (um_source m) (um_destination m) (um_protocol m) (um_channel m) (um_message_id m) (um_reply_to m)
    (um_timestamp m) (um_content_type m) (um_payload m) v (um_security m) (um_signal m) (um_hops m)
    (um_wants_ack m) (um_bridge_path m) (um_bridge_origin m) (um_protocol_metadata m).
Definition set_security (v : SecurityLevel) (m : UnifiedMessage) : UnifiedMessage :=
  mkUnified
    (um_source m) (um_destination m) (um_protocol m) (um_channel m) (um_message_id m) (um_reply_to m)
    (um_timestamp m) (um_content_type m) (um_payload m) (um_encrypted m) v (um_signal m) (um_hops m)
    (um_wants_ack m) (um_bridge_path m) (um_bridge_origin m) (um_protocol_metadata m).
Definition set_signal (v : SignalMeta) (m : UnifiedMessage) : UnifiedMessage :=
  mkUnified
    (um_source m) (um_destination m) (um_protocol m) (um_channel m) (um_message_id m) (um_reply_to m)
    (um_timestamp m) (um_content_type m) (um_payload m) (um_encrypted m) (um_security m) v (um_hops m)
    (um_wants_ack m) (um_bridge_path m) (um_bridge_origin m) (um_protocol_metadata m).
Definition set_hops (v : HopMeta) (m : UnifiedMessage) : UnifiedMessage :=
  mkUnified
    (um_source m) (um_destination m) (um_protocol m) (um_channel m) (um_message_id m) (um_reply_to m)
    (um_timestamp m) (um_content_type m) (um_payload m) (um_encrypted m) (um_security m) (um_signal m) v
    (um_wants_ack m) (um_bridge_path m) (um_bridge_origin m) (um_protocol_metadata m).
Definition set_wants_ack (v : bool) (m : UnifiedMessage) : UnifiedMessage :=
  mkUnified
    (um_source m) (um_destination m) (um_protocol m) (um_channel m) (um_message_id m) (um_reply_to m)
    (um_timestamp m) (um_content_type m) (um_payload m) (um_encrypted m) (um_security m) (um_signal m)
    (um_hops m) v (um_bridge_path m) (um_bridge_origin m) (um_protocol_metadata m).
Definition set_bridge_path (v : list BridgeHop) (m : UnifiedMessage) : UnifiedMessage :=
  mkUnified
    (um_source m) (um_destination m) (um_protocol m) (um_channel m) (um_message_id m) (um_reply_to m)
    (um_timestamp m) (um_content_type m) (um_payload m) (um_encrypted m) (um_security m) (um_signal m)
    (um_hops m) (um_wants_ack m) v (um_bridge_origin m) (um_protocol_metadata m).
Definition set_bridge_origin (v : option (list Z)) (m : UnifiedMessage) : UnifiedMessage :=
  mkUnified
    (um_source m) (um_destination m) (um_protocol m) (um_channel m) (um_message_id m) (um_reply_to m)
    (um_timestamp m) (um_content_type m) (um_payload m) (um_encrypted m) (um_security m) (um_signal m)
    (um_hops m) (um_wants_ack m) (um_bridge_path m) v (um_protocol_metadata m).
Definition set_protocol_metadata (v : list (list Z * list Z)) (m : UnifiedMessage) : UnifiedMessage :=
  mkUnified
    (um_source m) (um_destination m) (um_protocol m) (um_channel m) (um_message_id m) (um_reply_to m)
    (um_timestamp m) (um_content_type m) (um_payload m) (um_encrypted m) (um_security m) (um_signal m)
    (um_hops m) (um_wants_ack m) (um_bridge_path m) (um_bridge_origin m) v.
End UM.

Module UnifiedMessage.
Definition text (source destination : IdentityRef) (protocol : ProtocolId) (text : list Z) : UnifiedMessage :=
  mkUnified source destination protocol None [] None None Text text false Plaintext SignalMeta_default HopMeta_default false [] None [].
Definition text_payload (m : UnifiedMessage) : option (list Z) :=
  if decide (um_content_type m = Text) then (if utf8_valid (um_payload m) then Some (um_payload m) else None) else None.
Definition meta (m : UnifiedMessage) (key : list Z) : option (list Z) :=
  snd <$> find_first (fun e => bool_decide (e.1 = key)) (um_protocol_metadata m).
Definition set_entry (key value : list Z) (l : list (list Z * list Z)) : list (list Z * list Z) :=
  if find_first (fun e => bool_decide (e.1 = key)) l
  then update_first (fun e => bool_decide (e.1 = key)) (fun e => (e.1, value)) l
  else l ++ [(key, value)].
Definition set_meta (key value : list Z) (m : UnifiedMessage) : UnifiedMessage :=
  UM.set_protocol_metadata (set_entry key value (um_protocol_metadata m)) m.
(** [0x100 + x] is [u16] arithmetic. *)
Definition content_type_code (c : ContentType) : Z :=
  match c with
  | Text => 1 | Binary => 2 | Position => 3 | NodeInfo => 4 | Telemetry => 5 | CtAck => 6 | RouteControl => 7 | Advert => 8 | Opaque => 9
  | Other x => u16 (0x100 + x)
  end.
(** What is hashed, in order; the digest is its first 16 bytes. *)
Definition canonical_input (m : UnifiedMessage) : list Z :=
  str "MeshStar/canon/v1" ++ IdentityRef.canonical (um_source m) ++ [0] ++ IdentityRef.canonical (um_destination m) ++ [0]
  ++ be_bytes 2 (content_type_code (um_content_type m)) ++ um_payload m
  ++ match um_timestamp m with Some t => be_bytes 4 (t / 60) | None => [] end.
Definition canonical_digest {C : CryptoLib} (m : UnifiedMessage) : list Z := take 16 (sha256 (canonical_input m)).
End UnifiedMessage.

(** ** Adapters *)

Record DetectionScore := mkScore { ds_protocol : ProtocolId; ds_score : Z; ds_evidence : list (list Z) }.
Module DetectionScore.
Definition none (p : ProtocolId) : DetectionScore := mkScore p 0 [].
Definition add (points : Z) (why : list Z) (d : DetectionScore) : DetectionScore :=
  mkScore (ds_protocol d) (Z.min (sat_add 8 (ds_score d) points) 100) (ds_evidence d ++ [why]).
Definition reject (why : list Z) (d : DetectionScore) : DetectionScore :=
  mkScore (ds_protocol d) 0 (ds_evidence d ++ [str "REJECT: " ++ why]).
End DetectionScore.

Record ProtocolCapabilities := mkCaps {
  cap_text : bool; cap_binary : bool; cap_replies : bool; cap_channels : bool; cap_store_forward : bool;
  cap_e2e_identity : bool; cap_forward_secrecy : bool; cap_position : bool; cap_acknowledgements : bool;
  cap_max_text_bytes : Z; cap_max_binary_bytes : Z; cap_max_hops : Z
}.

Inductive AdapterError :=
| NotThisProtocol (why : list Z) | NoKey | AdAuthFailed | Unsupported (what : list Z) | AdTooLarge | MissingContext (what : list Z)
| AdCore (e : Error).

Record ChannelKey := mkChannelKey { ck_name : list Z; ck_key : list Z }.
Record LocalProtocolIdentity := mkLocal {
  li_protocol : ProtocolId; li_id : IdentityRef; li_display_name : list Z; li_short_name : list Z; li_secret : list Z
}.
Record ProtocolContext := mkCtx {
  cx_now_ms : Z; cx_unix_time_s : Z; cx_profile : LoRaProfile; cx_local : option LocalProtocolIdentity;
  cx_channels : list ChannelKey; cx_peer_keys : list (IdentityRef * list Z); cx_random : list Z
}.
Module ProtocolContext.
Definition new (now_ms unix_time_s : Z) (profile : LoRaProfile) : ProtocolContext :=
  mkCtx now_ms unix_time_s profile None [] [] (replicate 32 0).
Definition peer_key (c : ProtocolContext) (id : IdentityRef) : option (list Z) :=
  snd <$> find_first (fun e => bool_decide (e.1 = id)) (cx_peer_keys c).
End ProtocolContext.

Record ReplyContext := mkReply {
  rc_protocol : ProtocolId; rc_to : IdentityRef; rc_channel : option (list Z); rc_reply_to_id : option (list Z); rc_routing_hint : list Z
}.
Record OutboundFrame := mkFrame { of_protocol : ProtocolId; of_bytes : list Z; of_profile : LoRaProfile }.

(** The adapter trait.  [detect] has no error, only a panic to avoid; the default
    methods are [supports] and [no_periodic]. *)
Class RadioProtocol (A : Type) := {
  rp_id : A -> ProtocolId;
  rp_capabilities : A -> ProtocolCapabilities;
  rp_detect : A -> list Z -> RxMeta -> ProtocolContext -> outcome Empty_set DetectionScore;
  rp_decode : A -> list Z -> RxMeta -> ProtocolContext -> outcome AdapterError UnifiedMessage;
  rp_encode : A -> UnifiedMessage -> ProtocolContext -> outcome AdapterError OutboundFrame;
  rp_can_reply : A -> UnifiedMessage -> ProtocolContext -> bool;
  rp_reply_context : A -> UnifiedMessage -> option ReplyContext;
  rp_periodic : A -> ProtocolContext -> outcome Empty_set (A * list OutboundFrame)
}.
Definition supports {A} `{RadioProtocol A} (a : A) (ct : ContentType) : bool :=
  let c := rp_capabilities a in
  match ct with
  | Text => cap_text c
  | Binary => cap_binary c
  | Position => cap_position c
  | CtAck => cap_acknowledgements c
  | _ => false
  end.
Definition no_periodic {A} (a : A) (_ : ProtocolContext) : outcome Empty_set (A * list OutboundFrame) := Ok (a, []).

(** ** Profiles and the scan schedule *)

Record NamedProfile := mkNamedProfile {
  np_protocol : ProtocolId; np_name : list Z; np_region : list Z; np_profile : LoRaProfile; np_verified : bool
}.
Inductive Region := Eu868 | Us915 | Eu433 | Anz | UnknownRegion.
Module Region.
Definition parse (s : list Z) : Region :=
  let s := to_ascii_uppercase s in
  if decide (s = str "EU868" \/ s = str "EU_868" \/ s = str "EU") then Eu868
  else if decide (s = str "US915" \/ s = str "US_915" \/ s = str "US") then Us915
  else if decide (s = str "EU433" \/ s = str "EU_433") then Eu433
  else if decide (s = str "ANZ") then Anz
  else UnknownRegion.
Definition name (r : Region) : list Z :=
  str match r with Eu868 => "EU_868" | Us915 => "US_915" | Eu433 => "EU_433" | Anz => "ANZ" | UnknownRegion => "UNKNOWN" end.
End Region.

Definition meshstar_profiles : list NamedProfile :=
  [mkNamedProfile MeshStar (str "meshstar-default") (str "EU_868") LoRaProfile.MESHSTAR_EU868 true;
   mkNamedProfile MeshStar (str "meshstar-default") (str "US_915") LoRaProfile.MESHSTAR_US915 true].

Record ScanSlot := mkScanSlot { ss_profile : NamedProfile; ss_dwell_ms : Z }.
Record ScanSchedule := mkSchedule { sc_slots : list ScanSlot }.
Module ScanSchedule.
(** [.map(|s| s.dwell_ms as u64).sum()] *)
Definition total (l : list ScanSlot) : Z := u64 (zsum (ss_dwell_ms <$> l)).
Fixpoint seek (l : list ScanSlot) (t : Z) : option ScanSlot :=
  match l with
  | [] => None
  | s :: l' => if decide (t < ss_dwell_ms s) then Some s else seek l' (u64 (t - ss_dwell_ms s))
  end.
Definition active (c : ScanSchedule) (now_ms : Z) : option ScanSlot :=
  let total := total (sc_slots c) in
  if decide (total = 0) then None else seek (sc_slots c) (now_ms mod total).
Definition share_percent (c : ScanSchedule) (p : ProtocolId) : Z :=
  let t := total (sc_slots c) in
  if decide (t = 0) then 0 else
  let p := total (retain (fun s => bool_decide (np_protocol (ss_profile s) = p)) (sc_slots c)) in
  u8 (u64 (p * 100) / t).
Definition time_share (native : NamedProfile) (foreign : list NamedProfile) (native_percent period_ms : Z) : ScanSchedule :=
  let native_ms := u64 (period_ms * Z.min native_percent 100) / 100 in
  let first := mkScanSlot native (u32 native_ms) in
  if decide (foreign = []) then mkSchedule [first] else
  let each := u64 (period_ms - native_ms) / zlen foreign in
  mkSchedule (first :: ((fun f => mkScanSlot f (u32 each)) <$> foreign)).
End ScanSchedule.

(** * Facts *)

Module UnifiedFacts.

(** *** Canonical identities *)

Definition identity_ok (i : IdentityRef) : Prop :=
  match i with
  | IdMeshStar a => address_ok a
  | IdMeshtastic n => in_u 32 n
  | IdMeshCore (PublicKey k) => length k = 32%nat /\ bytes_ok k
  | IdMeshCore (HashPrefix h) => bytes_ok h
  | IdBroadcast _ => True
  end.
#[global] Instance identity_ok_dec i : Decision (identity_ok i).
Proof. destruct i as [a|n|[k|h]|p]; simpl; unfold address_ok, bytes_ok, byte_ok; apply _. Defined.

Lemma hex_encode_inj a b : bytes_ok a -> bytes_ok b -> hex_encode a = hex_encode b -> a = b.
Proof. intros Ha Hb E. pose proof (parse_hex_display _ Ha) as H. unfold hex_encode in E. rewrite E, parse_hex_display in H by done. congruence. Qed.
Lemma length_hex_encode l : length (hex_encode l) = (2 * length l)%nat.
Proof. apply length_hex_bytes. Qed.
Lemma hex_head b l : byte_ok b -> exists c r, hex_encode (b :: l) = c :: r /\ c <> 126.
Proof. intros Hb. exists (hex_digit (b / 16)). eexists. split; [reflexivity|]. byte_check b Hb. Qed.
Lemma addr_display_inj a b : address_ok a -> address_ok b -> addr_display a = addr_display b -> a = b.
Proof.
  assert (Hlen : forall a, address_ok a -> length (addr_bytes a ≫= hex_byte) = 16%nat)
    by (intros c [Hl _]; by rewrite length_hex_bytes, Hl).
  intros Ha Hb. pose proof (Hlen a Ha) as La. pose proof (Hlen b Hb) as Lb. destruct a as [a], b as [b], Ha as [_ Ha], Hb as [_ Hb].
  unfold addr_display, is_broadcast. do 2 case_bool_decide; intros E; try apply (app_inv_head PREFIX_UPPER) in E.
  - congruence.
  - apply (f_equal length) in E. rewrite Lb in E. done.
  - apply (f_equal length) in E. rewrite La in E. done.
  - f_equal. by apply hex_encode_inj.
Qed.

(** The text form of an identity determines it. *)
Lemma canonical_inj i j : identity_ok i -> identity_ok j -> IdentityRef.canonical i = IdentityRef.canonical j -> i = j.
Proof.
  assert (Hkey : forall k, length k = 32%nat -> bytes_ok k -> exists c r, hex_encode k = c :: r /\ c <> 126 /\ length r = 63%nat).
  { intros [|b k] Hl Hk; [done|]. apply Forall_cons in Hk as [Hb Hk]. destruct (hex_head b k Hb) as (c & r & E & Hc).
    exists c, r. split; [done|]. split; [done|]. pose proof (length_hex_encode (b :: k)) as L. rewrite E, Hl in L. simpl in L. lia. }
  intros Hi Hj E. destruct i as [a|n|[k|h]|p], j as [a'|n'|[k'|h']|p']; simpl in Hi, Hj; try (destruct Hi as [? ?]); try (destruct Hj as [? ?]);
    repeat match goal with p : ProtocolId |- _ => destruct p end; try discriminate E; try reflexivity; cbn [IdentityRef.canonical] in E.
  - apply (app_inv_head (str "meshstar:")) in E. f_equal. by apply addr_display_inj.
  - exfalso. unfold addr_display in E. destruct (is_broadcast a); discriminate E.
  - apply (app_inv_head (str "meshtastic:!")), hex_encode_inj in E; [|apply be_bytes_ok..]. f_equal.
    rewrite <- (from_be_32 n), <- (from_be_32 n') by done. by rewrite E.
  - apply (app_inv_head (str "meshcore:")) in E. do 2 f_equal. by apply hex_encode_inj.
  - exfalso. change (str "meshcore:~") with (str "meshcore:" ++ [126]) in E. rewrite <- app_assoc in E.
    apply (app_inv_head (str "meshcore:")) in E. destruct (Hkey k) as (c & r & Ek & ? & _); [done..|]. rewrite Ek in E. simpl in E. congruence.
  - exfalso. apply (app_inv_head (str "meshcore:")) in E. apply (f_equal length) in E. rewrite length_hex_encode in E. simpl in E. lia.
  - exfalso. change (str "meshcore:~") with (str "meshcore:" ++ [126]) in E. rewrite <- app_assoc in E.
    apply (app_inv_head (str "meshcore:")) in E. destruct (Hkey k') as (c & r & Ek & ? & _); [done..|]. rewrite Ek in E. simpl in E. congruence.
  - apply (app_inv_head (str "meshcore:~")) in E. do 2 f_equal. by apply hex_encode_inj.
  - exfalso. unfold addr_display in E. destruct (is_broadcast a'); discriminate E.
  - exfalso. apply (app_inv_head (str "meshcore:")) in E. apply (f_equal length) in E. rewrite length_hex_encode in E. simpl in E. lia.
Qed.

(** It is printable ASCII without spaces. *)
Lemma plain_spec c : plain_char c = true <-> 33 <= c < 127.
Proof. unfold plain_char. apply bool_decide_eq_true. Qed.
Lemma canonical_plain i : identity_ok i -> Forall (fun c => plain_char c = true) (IdentityRef.canonical i).
Proof.
  assert (Hlit : forall s, forallb plain_char s = true -> Forall (fun c => plain_char c = true) s).
  { intros s Hs. apply Forall_forall. intros c Hc. rewrite forallb_forall in Hs. apply Hs. by apply list_elem_of_In. }
  intros Hi. destruct i as [a|n|[k|h]|p]; simpl in Hi; cbn [IdentityRef.canonical]; [apply Forall_app_2; [by apply Hlit|]..|].
  - unfold addr_display. destruct (is_broadcast a); (apply Forall_app_2; [by apply Hlit|]); [by apply Hlit|]. by apply hex_bytes_plain, Hi.
  - apply hex_bytes_plain, be_bytes_ok.
  - by apply hex_bytes_plain, Hi.
  - by apply hex_bytes_plain.
  - destruct p; by apply Hlit.
Qed.
Lemma canonical_no_zero i : identity_ok i -> 0 ∉ IdentityRef.canonical i.
Proof. intros Hi H0. pose proof (canonical_plain i Hi) as Hp. rewrite Forall_forall in Hp. specialize (Hp 0 H0). done. Qed.
Lemma canonical_ascii i : identity_ok i -> well_encoded (IdentityRef.canonical i).
Proof.
  intros Hi. apply encoded_ascii. eapply Forall_impl; [by apply canonical_plain|]. intros c Hc%plain_spec.
  apply bool_decide_eq_true. lia.
Qed.

Lemma hex_encoded l : bytes_ok l -> well_encoded (hex_encode l).
Proof.
  intros Hl. apply encoded_ascii. eapply Forall_impl; [by apply hex_bytes_plain|]. intros c Hc%plain_spec. apply bool_decide_eq_true. lia.
Qed.

(** *** The content digest *)

Lemma split_at_zero a b x y : 0 ∉ a -> 0 ∉ b -> a ++ 0 :: x = b ++ 0 :: y -> a = b /\ x = y.
Proof.
  revert b. induction a as [|c a IH]; intros [|d b] Ha Hb E; simplify_eq/=; [done|set_solver..|].
  destruct (IH b) as [-> ->]; [set_solver..|done|done].
Qed.
Lemma code_range c : in_u 16 (UnifiedMessage.content_type_code c).
Proof. destruct c; cbn [UnifiedMessage.content_type_code]; [unfold_widths; lia..|]. apply wrap_range. lia. Qed.

(** For messages that both carry a time, or both carry none, the hashed input
    determines what the digest is documented to cover. *)
Definition message_ok (m : UnifiedMessage) : Prop :=
  identity_ok (um_source m) /\ identity_ok (um_destination m) /\ match um_timestamp m with Some t => in_u 32 t | None => True end.
Definition same_content (m m' : UnifiedMessage) : Prop :=
  um_source m = um_source m' /\ um_destination m = um_destination m' /\
  UnifiedMessage.content_type_code (um_content_type m) = UnifiedMessage.content_type_code (um_content_type m') /\
  um_payload m = um_payload m' /\ (fun t => t / 60) <$> um_timestamp m = (fun t => t / 60) <$> um_timestamp m'.
Lemma digest_input_same m m' : same_content m m' -> UnifiedMessage.canonical_input m = UnifiedMessage.canonical_input m'.
Proof.
  unfold UnifiedMessage.canonical_input. intros (-> & -> & -> & -> & Ht).
  destruct (um_timestamp m), (um_timestamp m'); simpl in Ht; try discriminate; [|done]. injection Ht as ->. done.
Qed.
Lemma digest_input_inj m m' :
  message_ok m -> message_ok m' -> is_Some (um_timestamp m) <-> is_Some (um_timestamp m') ->
  UnifiedMessage.canonical_input m = UnifiedMessage.canonical_input m' -> same_content m m'.
Proof.
  intros (Hs & Hd & Ht) (Hs' & Hd' & Ht') Hsame E. unfold UnifiedMessage.canonical_input in E.
  apply app_inv_head in E. cbn [app] in E. apply split_at_zero in E as [Es E]; [|by apply canonical_no_zero..].
  apply split_at_zero in E as [Ed E]; [|by apply canonical_no_zero..].
  apply canonical_inj in Es; [|done..]. apply canonical_inj in Ed; [|done..].
  apply app_inj_1 in E as [Ec E]; [|by rewrite !length_be_bytes].
  apply (f_equal from_be) in Ec. rewrite !from_be_16 in Ec by apply code_range. unfold same_content.
  destruct (um_timestamp m) as [t|], (um_timestamp m') as [t'|]; simpl in *; [|exfalso; destruct Hsame as [H1 H2]..|].
  - apply app_inj_2 in E as [Ep Et]; [|by rewrite !length_be_bytes]. apply (f_equal from_be) in Et.
    assert (in_u 32 (t / 60) /\ in_u 32 (t' / 60)) as [? ?].
    { split; unfold_widths; split; try (apply Z.div_pos; lia); apply Z.div_lt_upper_bound; lia. }
    rewrite !from_be_32 in Et by done. by rewrite Et.
  - destruct H1 as [? ?]; [eauto|done].
  - destruct H2 as [? ?]; [eauto|done].
  - rewrite !app_nil_r in E. done.
Qed.

(** *** The scan schedule *)

Definition schedule_ok (c : ScanSchedule) : Prop :=
  Forall (fun s => in_u 32 (ss_dwell_ms s)) (sc_slots c) /\ zlen (sc_slots c) < 2 ^ 32.
Definition dwell (l : list ScanSlot) : Z := zsum (ss_dwell_ms <$> l).
Lemma dwell_app l k : dwell (l ++ k) = dwell l + dwell k.
Proof. unfold dwell. rewrite fmap_app. apply zsum_app. Qed.
Lemma dwell_bound l : Forall (fun s => in_u 32 (ss_dwell_ms s)) l -> 0 <= dwell l <= zlen l * (2 ^ 32 - 1).
Proof.
  unfold dwell. induction 1 as [|s l Hs _ IH]; [done|]. cbn [fmap list_fmap zsum foldr]. rewrite zlen_cons. unfold in_u in Hs.
  unfold zsum in IH. change (list_fmap ScanSlot Z ss_dwell_ms l) with (ss_dwell_ms <$> l). lia.
Qed.
Lemma dwell_total c : schedule_ok c -> ScanSchedule.total (sc_slots c) = dwell (sc_slots c) /\ 0 <= dwell (sc_slots c).
Proof.
  intros [Hs Hl]. pose proof (dwell_bound _ Hs). split; [|lia]. apply u64_small. change (2 ^ 64) with (2 ^ 32 * 2 ^ 32). nia.
Qed.
Lemma seek_spec l t :
  Forall (fun s => in_u 32 (ss_dwell_ms s)) l -> 0 <= t < dwell l -> dwell l < 2 ^ 64 ->
  exists l1 s l2, ScanSchedule.seek l t = Some s /\ l = l1 ++ s :: l2 /\ dwell l1 <= t < dwell l1 + ss_dwell_ms s.
Proof.
  intros Hs. revert t. induction Hs as [|s l Hs Hl IH]; intros t Ht Hb; [change (dwell []) with 0 in Ht; lia|].
  change (dwell (s :: l)) with (ss_dwell_ms s + dwell l) in *. unfold in_u in Hs. cbn [ScanSchedule.seek]. case_decide.
  - exists [], s, l. change (dwell []) with 0. split; [done|]. split; [done|]. lia.
  - pose proof (dwell_bound l Hl). rewrite u64_small by lia. destruct (IH (t - ss_dwell_ms s)) as (l1 & s1 & l2 & E & -> & Hin); [lia..|].
    exists (s :: l1), s1, l2. split; [done|]. split; [done|]. change (dwell (s :: l1)) with (ss_dwell_ms s + dwell l1). lia.
Qed.

(** A radio that shares its time is always on exactly the slot its clock points
    to, as long as some slot has a dwell time. *)
Lemma active_exact c now :
  schedule_ok c -> 0 <= now -> 0 < dwell (sc_slots c) ->
  exists l1 s l2, ScanSchedule.active c now = Some s /\ sc_slots c = l1 ++ s :: l2 /\
    dwell l1 <= now mod dwell (sc_slots c) < dwell l1 + ss_dwell_ms s.
Proof.
  intros Hok Hnow Hpos. destruct (dwell_total c Hok) as [Ht _]. unfold ScanSchedule.active. rewrite Ht. rewrite decide_False by lia.
  pose proof (Z.mod_pos_bound now _ Hpos). destruct Hok as [Hs Hl]. apply seek_spec; [done|done|].
  pose proof (dwell_bound _ Hs). change (2 ^ 64) with (2 ^ 32 * 2 ^ 32). nia.
Qed.
(** The shares of [time_share] fit in the period. *)
Lemma dwell_cons s l : dwell (s :: l) = ss_dwell_ms s + dwell l.
Proof. done. Qed.
Lemma dwell_const (fs : list NamedProfile) d : dwell ((fun f => mkScanSlot f d) <$> fs) = zlen fs * d.
Proof. induction fs as [|f fs IH]; [done|]. rewrite fmap_cons, dwell_cons, IH, zlen_cons. simpl. lia. Qed.
Lemma time_share_fits native foreign pct period :
  in_u 8 pct -> in_u 32 period -> zlen foreign < 2 ^ 32 - 1 ->
  let c := ScanSchedule.time_share native foreign pct period in
  schedule_ok c /\ dwell (sc_slots c) <= period /\
  exists rest, sc_slots c = mkScanSlot native (period * Z.min pct 100 / 100) :: rest /\ ss_profile <$> rest = foreign.
Proof.
  intros Hpct Hp Hf c. unfold in_u in *. change (2 ^ 8) with 256 in *. change (2 ^ 32) with 4294967296 in *.
  assert (Hn : 0 <= period * Z.min pct 100 / 100 <= period).
  { split; [apply Z.div_pos; nia|]. apply Z.div_le_upper_bound; nia. }
  assert (Hu : u64 (period * Z.min pct 100) = period * Z.min pct 100) by (apply u64_small; change (2 ^ 64) with 18446744073709551616; nia).
  unfold c, ScanSchedule.time_share. rewrite Hu. set (n := period * Z.min pct 100 / 100) in *.
  rewrite (u32_small n) by (change (2 ^ 32) with 4294967296; lia). case_decide as He.
  - subst foreign. unfold schedule_ok. simpl. split; [|split; [unfold dwell; simpl; lia|by exists []]].
    split; [|done]. repeat constructor; simpl; lia.
  - assert (Hpos : 0 < zlen foreign) by (destruct foreign; [done|rewrite zlen_cons; pose proof (zlen_nonneg foreign); lia]).
    rewrite (u64_small (period - n)) by (change (2 ^ 64) with 18446744073709551616; lia). set (each := (period - n) / zlen foreign).
    assert (He' : 0 <= each /\ zlen foreign * each <= period - n) by (split; [apply Z.div_pos; lia|apply Z.mul_div_le; lia]).
    rewrite (u32_small each) by (change (2 ^ 32) with 4294967296; nia). unfold schedule_ok. cbn [sc_slots].
    rewrite dwell_cons, dwell_const, zlen_cons. cbn [ss_dwell_ms].
    split; [split|split].
    + constructor; [unfold in_u; simpl; lia|]. apply Forall_fmap, Forall_true. intros f. unfold in_u. simpl. nia.
    + change (2 ^ 32) with 4294967296. unfold zlen in *. rewrite length_fmap. lia.
    + lia.
    + eexists. split; [reflexivity|]. rewrite <- list_fmap_compose. apply list_fmap_id.
Qed.

(** *** What an adapter promises *)

(** A message that respects its types: the source is a proper identity, the
    metadata is text, the length of the payload is a [usize]. *)
Definition text_ok (msg : UnifiedMessage) : Prop :=
  identity_ok (um_source msg) /\ Forall (fun kv => well_encoded kv.2) (um_protocol_metadata msg) /\ zlen (um_payload msg) < 2 ^ 32.
Definition ctx_ok (c : ProtocolContext) : Prop :=
  RadioFacts.profile_ok (cx_profile c) /\ length (cx_random c) = 32%nat /\ bytes_ok (cx_random c) /\ in_u 32 (cx_unix_time_s c) /\
  match cx_local c with Some l => well_encoded (li_display_name l) /\ well_encoded (li_short_name l) /\ identity_ok (li_id l) | None => True end /\
  Forall (fun e => bytes_ok e.2) (cx_peer_keys c).

(** The contract of the adapter trait, for adapters in a state that satisfies
    [ok]: no input makes it panic, detection and decoding speak for the adapter's
    own protocol, frames fit the radio. *)
Class AdapterContract (A : Type) {RP : RadioProtocol A} (ok : A -> Prop) : Prop := {
  detect_total a frame meta ctx :
    ok a -> bytes_ok frame -> ctx_ok ctx ->
    exists s, rp_detect a frame meta ctx = Ok s /\ ds_protocol s = rp_id a /\ 0 <= ds_score s <= 100;
  decode_safe a frame meta ctx : ok a -> bytes_ok frame -> ctx_ok ctx -> safe (rp_decode a frame meta ctx);
  decode_speaks a frame meta ctx m :
    ok a -> bytes_ok frame -> ctx_ok ctx -> rp_decode a frame meta ctx = Ok m ->
    um_protocol m = rp_id a /\ text_ok m /\ um_bridge_path m = [];
  encode_safe a m ctx : ok a -> ctx_ok ctx -> text_ok m -> identity_ok (um_destination m) -> safe (rp_encode a m ctx);
  encode_fits a m ctx f :
    ok a -> ctx_ok ctx -> text_ok m -> identity_ok (um_destination m) -> rp_encode a m ctx = Ok f ->
    of_protocol f = rp_id a /\ of_profile f = cx_profile ctx /\ 1 <= zlen (of_bytes f) <= 255;
  periodic_total a ctx :
    ok a -> ctx_ok ctx -> exists a' out, rp_periodic a ctx = Ok (a', out) /\ ok a' /\ rp_id a' = rp_id a /\
      Forall (fun f => of_protocol f = rp_id a /\ 1 <= zlen (of_bytes f) <= 255) out;
  text_room a : ok a -> 3 <= cap_max_text_bytes (rp_capabilities a) < 2 ^ 32
}.

(** Detection scores stay in their range. *)
Lemma score_add n why d : 0 <= n -> 0 <= ds_score d <= 100 -> 0 <= ds_score (DetectionScore.add n why d) <= 100.
Proof. intros ??. simpl. unfold sat_add. change (2 ^ 8) with 256. lia. Qed.
Lemma score_reject why d : 0 <= ds_score (DetectionScore.reject why d) <= 100.
Proof. simpl. lia. Qed.

Lemma text_ok_fields m m' :
  um_source m' = um_source m -> um_protocol_metadata m' = um_protocol_metadata m -> zlen (um_payload m') < 2 ^ 32 -> text_ok m -> text_ok m'.
Proof. unfold text_ok. intros -> -> ? (? & ? & ?). by split_and!. Qed.
Lemma set_meta_text k v m : text_ok m -> well_encoded v -> text_ok (UnifiedMessage.set_meta k v m).
Proof.
  intros (Hs & Hm & Hp) Hv. split; [done|]. split; [|done]. unfold UnifiedMessage.set_meta, UnifiedMessage.set_entry. cbn. destruct (find_first _ _).
  - apply Forall_update_first; [done|]. by intros x _ _ _.
  - apply Forall_app_2; [done|]. by constructor.
Qed.
End UnifiedFacts.
