(* ===== verification/Bridge.v ===== *)
(** * Bridging: deduplication, loop guard, policy, translation

    [crates/meshstar-protocols/src/bridge/dedup.rs], [loops.rs], [policy.rs] and
    [translate.rs]: the four checks a message passes before a gateway sends it on
    another network. *)
From stdpp Require Import base tactics list numbers sets.
From Stdlib Require Import Lia Ascii String.
From S2P Require Import Prelude SmallMap Protocol CryptoLib Text Unified.
From stdpp Require Import list.
#[local] Open Scope Z_scope.

(** ** Deduplicator *)

Definition DedupKey : Type := option (list Z) * option (list Z).
Record Deduplicator := mkDedup {
  dd_cap : Z;
  dd_ttl_ms : Z;
  dd_by_id : smallmap (list Z) Z;
  dd_by_digest : smallmap (list Z) Z;
  dd_order : list DedupKey;
  dd_duplicates : Z
}.

Module Deduplicator.
Section dedup.
Context {C : CryptoLib}.

Definition new (cap ttl_ms : Z) : Deduplicator := mkDedup (Z.max cap 1) ttl_ms [] [] [] 0.
Definition id_key (msg : UnifiedMessage) : option (list Z) :=
  if decide (um_message_id msg = []) then None
  else Some (IdentityRef.canonical (um_source msg) ++ str "/" ++ um_message_id msg).
(** The text without the sender prefix a gateway adds. *)
Definition bare_text (t : list Z) : list Z :=
  if starts_with (str "[") t then match split_once (str "] ") t with Some (_, rest) => rest | None => t end else t.
Definition text_digest (msg : UnifiedMessage) : option (list Z) :=
  t ← UnifiedMessage.text_payload msg;
  Some (take 16 (sha256 (str "MeshStar/text/v1" ++ bare_text t ++ match um_timestamp msg with Some ts => be_bytes 4 (ts / 120) | None => [] end))).

Definition remember_digest (digest : list Z) (now : Z) (d : Deduplicator) : Deduplicator :=
  mkDedup (dd_cap d) (dd_ttl_ms d) (dd_by_id d) (SmallMap.insert (dd_by_digest d) digest now).1 (dd_order d ++ [(None, Some digest)])
    (dd_duplicates d).
Definition seen_text (digest : list Z) (d : Deduplicator) : bool := SmallMap.contains_key (dd_by_digest d) digest.

Definition expire (now : Z) (d : Deduplicator) : Deduplicator :=
  let live (_ : list Z) t := bool_decide (sat_sub now t <= dd_ttl_ms d) in
  mkDedup (dd_cap d) (dd_ttl_ms d) (SmallMap.retain live (dd_by_id d)) (SmallMap.retain live (dd_by_digest d)) (dd_order d) (dd_duplicates d).

Definition forget (k : option (list Z)) (m : smallmap (list Z) Z) : smallmap (list Z) Z :=
  match k with Some k => (SmallMap.remove m k).1 | None => m end.
(** [while self.order.len() >= self.cap { pop the front }]. *)
Fixpoint evict (cap : Z) (order : list DedupKey) (ids digests : smallmap (list Z) Z) :
    list DedupKey * smallmap (list Z) Z * smallmap (list Z) Z :=
  match order with
  | (i, d) :: order' =>
      if decide (zlen order >= cap) then evict cap order' (forget i ids) (forget d digests) else (order, ids, digests)
  | [] => ([], ids, digests)
  end.
Definition seen (k : option (list Z)) (m : smallmap (list Z) Z) : bool :=
  match k with Some k => SmallMap.contains_key m k | None => false end.

Definition observe (msg : UnifiedMessage) (now : Z) (d : Deduplicator) : Deduplicator * bool :=
  let d := expire now d in
  let id := id_key msg in
  let digest := UnifiedMessage.canonical_digest msg in
  let text := text_digest msg in
  if seen id (dd_by_id d) || SmallMap.contains_key (dd_by_digest d) digest || seen text (dd_by_digest d) then
    (mkDedup (dd_cap d) (dd_ttl_ms d) (dd_by_id d) (dd_by_digest d) (dd_order d) (u64 (dd_duplicates d + 1)), false)
  else
    let d := match text with Some t => remember_digest t now d | None => d end in
    let '(order, ids, digests) := evict (dd_cap d) (dd_order d) (dd_by_id d) (dd_by_digest d) in
    let ids := match id with Some i => (SmallMap.insert ids i now).1 | None => ids end in
    (mkDedup (dd_cap d) (dd_ttl_ms d) ids (SmallMap.insert digests digest now).1 (order ++ [(id, Some digest)]) (dd_duplicates d), true).
Definition len (d : Deduplicator) : Z := SmallMap.len (dd_by_digest d).
End dedup.
End Deduplicator.

(** ** Loop guard *)

Record LoopStats := mkLoopStats { ls_checked : Z; ls_blocked_revisit : Z; ls_blocked_same_gateway : Z; ls_blocked_ttl : Z }.
Definition LoopStats_default : LoopStats := mkLoopStats 0 0 0 0.
Record LoopGuard := mkGuard { lg_gateway_id : list Z; lg_max_crossings : Z; lg_stats : LoopStats }.
Inductive LoopVerdict := LoopOk | Revisit | SameGateway | Exhausted.
#[global] Instance LoopVerdict_eq_dec : EqDecision LoopVerdict.
Proof. solve_decision. Defined.

Module LoopGuard.
Definition new (gateway_id : list Z) : LoopGuard := mkGuard gateway_id 2 LoopStats_default.
Definition check (msg : UnifiedMessage) (to : ProtocolId) (g : LoopGuard) : LoopGuard * LoopVerdict :=
  let 'mkLoopStats c r s t := lg_stats g in
  let done r s t v := (mkGuard (lg_gateway_id g) (lg_max_crossings g) (mkLoopStats (u64 (c + 1)) r s t), v) in
  if decide (zlen (um_bridge_path msg) >= lg_max_crossings g) then done r s (u64 (t + 1)) Exhausted
  else if existsb (fun h => bool_decide (bh_gateway h = lg_gateway_id g)) (um_bridge_path msg) then done r (u64 (s + 1)) t SameGateway
  else if bool_decide (to = um_protocol msg) ||
          existsb (fun h => bool_decide (bh_from h = to) || bool_decide (bh_to h = to)) (um_bridge_path msg)
  then done (u64 (r + 1)) s t Revisit
  else done r s t LoopOk.
(** [from] is the protocol the message has when it is stamped. *)
Definition stamp (to : ProtocolId) (now : Z) (g : LoopGuard) (msg : UnifiedMessage) : UnifiedMessage :=
  let msg := match um_bridge_origin msg with None => UM.set_bridge_origin (Some (lg_gateway_id g)) msg | Some _ => msg end in
  UM.set_bridge_path (um_bridge_path msg ++ [mkHop (lg_gateway_id g) (um_protocol msg) to now]) msg.
End LoopGuard.

(** ** Policy *)

Inductive RuleAction := Allow | Deny.
#[global] Instance RuleAction_eq_dec : EqDecision RuleAction.
Proof. solve_decision. Defined.
Inductive ContentTypeMatch := CmText | CmPosition | CmBinary | CmAny.
Inductive SecurityMatch := PublicOnly | NotMeshStarE2E | SmAny.
Record Rule := mkRule {
  r_from : option ProtocolId; r_to : option ProtocolId; r_channel : option (list Z); r_content : option ContentTypeMatch;
  r_identity : option (list Z); r_security : option SecurityMatch; r_action : RuleAction; r_name : list Z
}.

Module Rule.
(** [Rule { action, name, ..Default::default() }] *)
Definition default (action : RuleAction) (name : list Z) : Rule := mkRule None None None None None None action name.
Definition allow (from to : ProtocolId) : Rule :=
  mkRule (Some from) (Some to) None None None None Allow (str "allow " ++ ProtocolId.name from ++ str "->" ++ ProtocolId.name to).
Definition deny (from to : ProtocolId) : Rule :=
  mkRule (Some from) (Some to) None None None None Deny (str "deny " ++ ProtocolId.name from ++ str "->" ++ ProtocolId.name to).
Definition channel (ch : list Z) (r : Rule) : Rule :=
  mkRule (r_from r) (r_to r) (Some ch) (r_content r) (r_identity r) (r_security r) (r_action r) (r_name r).
Definition content (c : ContentTypeMatch) (r : Rule) : Rule :=
  mkRule (r_from r) (r_to r) (r_channel r) (Some c) (r_identity r) (r_security r) (r_action r) (r_name r).
Definition identity (i : list Z) (r : Rule) : Rule :=
  mkRule (r_from r) (r_to r) (r_channel r) (r_content r) (Some i) (r_security r) (r_action r) (r_name r).
Definition security (s : SecurityMatch) (r : Rule) : Rule :=
  mkRule (r_from r) (r_to r) (r_channel r) (r_content r) (r_identity r) (Some s) (r_action r) (r_name r).
Definition named (n : list Z) (r : Rule) : Rule :=
  mkRule (r_from r) (r_to r) (r_channel r) (r_content r) (r_identity r) (r_security r) (r_action r) n.

(** An absent clause matches. *)
Definition clause {A} (o : option A) (f : A -> bool) : bool := match o with Some a => f a | None => true end.
Definition content_matches (c : ContentTypeMatch) (msg : UnifiedMessage) : bool :=
  match c with
  | CmText => bool_decide (um_content_type msg = Text)
  | CmPosition => bool_decide (um_content_type msg = Position)
  | CmBinary => bool_decide (um_content_type msg = Binary)
  | CmAny => true
  end.
Definition identity_matches (id : list Z) (msg : UnifiedMessage) : bool :=
  let canon := IdentityRef.canonical (um_source msg) in
  match Text.strip_suffix 42 id with Some prefix => starts_with prefix canon | None => bool_decide (canon = id) end.
Definition security_matches (s : SecurityMatch) (msg : UnifiedMessage) : bool :=
  match s with
  | SmAny => true
  | NotMeshStarE2E => negb (SecurityLevel.is_meshstar_e2e (um_security msg))
  | PublicOnly => match um_security msg with Plaintext | ForeignSharedKey _ _ | MeshStarGroup => true | _ => false end
  end.
Definition matches (r : Rule) (msg : UnifiedMessage) (to : ProtocolId) : bool :=
  clause (r_from r) (fun f => bool_decide (um_protocol msg = f)) &&
  clause (r_to r) (fun t => bool_decide (to = t)) &&
  clause (r_channel r) (fun ch => bool_decide (ch = str "*") || bool_decide (um_channel msg = Some ch)) &&
  clause (r_content r) (fun c => content_matches c msg) &&
  clause (r_identity r) (fun id => identity_matches id msg) &&
  clause (r_security r) (fun s => security_matches s msg).
End Rule.

Record PolicyDecision := mkDecision { pd_allowed : bool; pd_rule : option (list Z) }.
Record Policy := mkPolicy { pl_rules : list Rule }.

Module Policy.
Definition deny_all : Policy := mkPolicy [].
Definition public_text_bridging : Policy :=
  mkPolicy
    [Rule.security PublicOnly (Rule.content CmText (Rule.default Allow (str "allow public text")));
     Rule.security PublicOnly (Rule.content CmPosition (Rule.default Allow (str "allow public position")));
     Rule.default Deny (str "deny everything else (encrypted-private, binary)")].
Fixpoint first_match (rules : list Rule) (msg : UnifiedMessage) (to : ProtocolId) : PolicyDecision :=
  match rules with
  | [] => mkDecision false None
  | r :: rules' =>
      if Rule.matches r msg to then mkDecision (bool_decide (r_action r = Allow)) (Some (r_name r)) else first_match rules' msg to
  end.
Definition evaluate (p : Policy) (msg : UnifiedMessage) (to : ProtocolId) : PolicyDecision := first_match (pl_rules p) msg to.

Definition parse_proto (s : list Z) : option (option ProtocolId) :=
  if decide (s = str "*") then Some None else Some <$> ProtocolId.parse s.
Definition parse_clause (kv : list Z) (r : Rule) : option Rule :=
  '(k, v) ← split_once (str "=") kv;
  if decide (k = str "channel") then Some (Rule.channel v r)
  else if decide (k = str "content") then
    Some (Rule.content (if decide (v = str "text") then CmText else if decide (v = str "position") then CmPosition
                        else if decide (v = str "binary") then CmBinary else CmAny) r)
  else if decide (k = str "identity") then Some (Rule.identity v r)
  else if decide (k = str "security") then
    Some (Rule.security (if decide (v = str "public") then PublicOnly else if decide (v = str "not-e2e") then NotMeshStarE2E else SmAny) r)
  else None.
Fixpoint parse_clauses (kvs : list (list Z)) (r : Rule) : option Rule :=
  match kvs with [] => Some r | kv :: kvs' => r ← parse_clause kv r; parse_clauses kvs' r end.
Definition parse_rule (line : list Z) : option Rule :=
  match split_whitespace line with
  | act :: from :: arrow :: to :: rest =>
      action ← (if decide (act = str "allow") then Some Allow else if decide (act = str "deny") then Some Deny else None);
      if decide (arrow = str "->") then
        from ← parse_proto from; to ← parse_proto to;
        parse_clauses rest (mkRule from to None None None None action line)
      else None
  | _ => None
  end.
End Policy.

(** ** Translation *)

Inductive TranslationOutcome := Exact | Degraded (losses : list (list Z)) | TrUnsupported (what : list Z).

(** [&s[..n]] and [s.truncate(n)]: not inside a character. *)
Definition str_prefix {E} (s : list Z) (n : nat) : outcome E (list Z) := if is_char_boundary s n then Ok (take n s) else Panic.
Definition truncate {E} (s : list Z) (n : nat) : outcome E (list Z) := if decide (length s <= n)%nat then Ok s else str_prefix s n.
(** ["…"]. *)
Definition ELLIPSIS : list Z := [0xE2; 0x80; 0xA6].

Definition short_identity (id : IdentityRef) : outcome Empty_set (list Z) :=
  let c := IdentityRef.canonical id in
  if decide (zlen c > 24) then p ← str_prefix c 24; Ok (p ++ ELLIPSIS) else Ok c.

(** [while cut > 0 && !text.is_char_boundary(cut) { cut -= 1; }] *)
Fixpoint find_cut (text : list Z) (cut : nat) : nat :=
  match cut with O => O | S c => if is_char_boundary text cut then cut else find_cut text c end.

Definition or_else {A} (a b : option A) : option A := match a with Some _ => a | None => b end.
Definition sender_name (msg : UnifiedMessage) : option (list Z) :=
  or_else (or_else (UnifiedMessage.meta msg (str "sender_name")) (UnifiedMessage.meta msg (str "long_name"))) (UnifiedMessage.meta msg (str "short_name")).
Definition prefix_for (msg : UnifiedMessage) : outcome Empty_set (list Z) :=
  who ← match sender_name msg with Some s => Ok s | None => short_identity (um_source msg) end;
  Ok (str "[" ++ who ++ str "] ").
(** The text that goes out, and whether it was cut. *)
Definition bridged_text (msg : UnifiedMessage) (max_text_bytes : Z) (sender_prefix : bool) : outcome Empty_set (list Z * bool) :=
  prefix ← (if sender_prefix then prefix_for msg else Ok []);
  let text := prefix ++ default [] (UnifiedMessage.text_payload msg) in
  if decide (zlen text > max_text_bytes) then
    t ← truncate text (find_cut text (Z.to_nat (sat_sub max_text_bytes 3)));
    Ok (t ++ str "...", true)
  else Ok (text, false).

(** The fields every translated message gets. *)
Definition mark_bridged (msg : UnifiedMessage) (to : ProtocolId) (gateway : list Z) (now : Z) (out : UnifiedMessage) : UnifiedMessage :=
  let out := UM.set_destination (IdBroadcast to) out in
  let out := UM.set_protocol to out in
  let out := UM.set_encrypted false out in
  let out := UM.set_security (Bridged (um_protocol msg) gateway (um_security msg)) out in
  let out := UnifiedMessage.set_meta (str "bridged_from") (ProtocolId.name (um_protocol msg)) out in
  let out := UnifiedMessage.set_meta (str "bridged_source") (IdentityRef.canonical (um_source msg)) out in
  let out := UnifiedMessage.set_meta (str "bridged_at") (dec now) out in
  UM.set_message_id [] out.
(** The payload and its losses, or what is not supported. *)
Definition translate_content (msg : UnifiedMessage) (caps : ProtocolCapabilities) (sender_prefix : bool) :
    outcome Empty_set (list Z + list Z * list (list Z)) :=
  match um_content_type msg with
  | Text =>
      if negb (cap_text caps) then Ok (inl (str "text")) else
      '(text, cut) ← bridged_text msg (cap_max_text_bytes caps) sender_prefix;
      Ok (inr (text, if (cut : bool) then [str "text truncated to " ++ dec (cap_max_text_bytes caps) ++ str " bytes"] else []))
  | Position =>
      if negb (cap_position caps) then Ok (inl (str "position")) else
      match UnifiedMessage.meta msg (str "lat") with
      | None => Ok (inl (str "position without lat/lon metadata"))
      | Some _ => Ok (inr (um_payload msg, []))
      end
  | Binary =>
      if decide (cap_max_binary_bytes caps = 0) then Ok (inl (str "binary"))
      else if decide (zlen (um_payload msg) > cap_max_binary_bytes caps)
      then Ok (inl (str "binary payload " ++ dec (zlen (um_payload msg)) ++ str " > " ++ dec (cap_max_binary_bytes caps)))
      else Ok (inr (um_payload msg, []))
  | CtAck => Ok (inl (str "acknowledgements are per network"))
  | other => Ok (inl (ContentType_debug other))
  end.
Definition translate (msg : UnifiedMessage) (to : ProtocolId) (caps_to : ProtocolCapabilities) (gateway : list Z) (now : Z) (sender_prefix : bool) :
    outcome Empty_set (option UnifiedMessage * TranslationOutcome) :=
  r ← translate_content msg caps_to sender_prefix;
  match r with
  | inl what => Ok (None, TrUnsupported what)
  | inr (payload, losses) =>
      let out := UM.set_payload payload msg in
      let '(out, losses) :=
        if bool_decide (is_Some (um_reply_to msg)) && negb (cap_replies caps_to)
        then (UM.set_reply_to None out, losses ++ [str "reply link dropped"]) else (out, losses) in
      let '(out, losses) :=
        if um_wants_ack msg && negb (cap_acknowledgements caps_to)
        then (UM.set_wants_ack false out, losses ++ [str "ack request dropped"]) else (out, losses) in
      let losses := if IdentityRef.is_broadcast (um_destination msg) then losses
                    else losses ++ [str "unicast destination replaced by broadcast (no identity mapping)"] in
      Ok (Some (mark_bridged msg to gateway now out), if decide (losses = []) then Exact else Degraded losses)
  end.

(** * Facts *)

Module BridgeFacts.
Import SmallMapFacts UnifiedFacts.

(** *** Deduplication *)

Section dedup_facts.
Context {C : CryptoLib}.
Implicit Types d : Deduplicator.

Definition has_digest (k : list Z) (e : DedupKey) : Prop := e.2 = Some k.
Definition has_id (k : list Z) (e : DedupKey) : Prop := e.1 = Some k.
#[local] Instance has_digest_dec k e : Decision (has_digest k e).
Proof. unfold has_digest. apply _. Defined.
#[local] Instance has_id_dec k e : Decision (has_id k e).
Proof. unfold has_id. apply _. Defined.

(** Every remembered key is in the queue, so the queue bounds the maps. *)
Definition queued (has : list Z -> DedupKey -> Prop) (m : smallmap (list Z) Z) (order : list DedupKey) : Prop :=
  wf m /\ forall k, is_Some (SmallMap.get m k) -> Exists (has k) order.
Definition dedup_ok d : Prop :=
  (1 <= dd_cap d /\ 0 <= dd_ttl_ms d) /\ queued has_id (dd_by_id d) (dd_order d) /\ queued has_digest (dd_by_digest d) (dd_order d).

Lemma queued_len (f : DedupKey -> option (list Z)) m order :
  queued (fun k e => f e = Some k) m order -> SmallMap.len m <= zlen order.
Proof.
  intros [Hwf Hq]. unfold SmallMap.len, zlen.
  assert (Hsub : m.*1 ⊆+ omap f order).
  { apply NoDup_submseteq; [by apply wf_keys_NoDup|]. intros k ([k' v] & -> & Hin)%list_elem_of_fmap.
    apply list_elem_of_omap. specialize (Hq k'). rewrite Exists_exists in Hq. destruct Hq as (e & He & Hf).
    - exists v. by apply get_Some.
    - by exists e. }
  apply submseteq_length in Hsub. rewrite length_fmap in Hsub.
  assert (length (omap f order) <= length order)%nat; [|lia].
  clear. induction order as [|e order IH]; [done|]. cbn. destruct (f e); cbn; change (list_omap _ _ f order) with (omap f order); lia.
Qed.
Lemma queued_app has m order e : queued has m order -> queued has m (order ++ [e]).
Proof. intros [Hwf Hq]. split; [done|]. intros k Hk. apply Exists_app. left. auto. Qed.
Lemma queued_insert (has : list Z -> DedupKey -> Prop) m order e k t :
  queued has m order -> has k e -> queued has (SmallMap.insert m k t).1 (order ++ [e]).
Proof.
  intros [Hwf Hq] He. split; [by apply insert_wf|]. intros k' Hk'. rewrite get_insert in Hk' by done. apply Exists_app.
  destruct (kcmp k k') eqn:E; [apply kcmp_eq in E as ->; right; by constructor|left; auto..].
Qed.
Lemma queued_retain has f m order : queued has m order -> queued has (SmallMap.retain f m) order.
Proof.
  intros [Hwf Hq]. split; [by apply retain_wf|]. intros k [t Hk]. apply Hq. rewrite get_retain in Hk by done.
  destruct (SmallMap.get m k); [eauto|done].
Qed.
Lemma queued_pop (has : list Z -> DedupKey -> Prop) (key : option (list Z)) m e order :
  (forall k, has k e <-> key = Some k) -> queued has m (e :: order) -> queued has (Deduplicator.forget key m) order.
Proof.
  intros Hkey [Hwf Hq]. unfold Deduplicator.forget. destruct key as [k0|].
  - split; [by apply remove_wf|]. intros k Hk. rewrite get_remove in Hk by done.
    destruct (kcmp k0 k) eqn:E; [by destruct Hk|..]; specialize (Hq k Hk); apply Exists_cons in Hq as [He|]; auto;
      apply Hkey in He; injection He as ->; by rewrite kcmp_refl in E.
  - split; [done|]. intros k Hk. specialize (Hq k Hk). apply Exists_cons in Hq as [He|]; [|done]. by apply Hkey in He.
Qed.

(** The eviction loop stops below the capacity and keeps the accounting. *)
Lemma dedup_evict_spec cap order ids digests :
  1 <= cap -> queued has_id ids order -> queued has_digest digests order ->
  let '(order', ids', digests') := Deduplicator.evict cap order ids digests in
  zlen order' < cap /\ zlen order' <= zlen order /\ (exists pre, order = pre ++ order') /\
  queued has_id ids' order' /\ queued has_digest digests' order'.
Proof.
  intros Hcap. revert ids digests. induction order as [|[i dg] order IH]; intros ids digests Hi Hd; cbn [Deduplicator.evict].
  { rewrite zlen_nil. split_and!; try done; [lia|by exists []]. }
  case_decide.
  - apply (queued_pop _ i) in Hi; [|done]. apply (queued_pop _ dg) in Hd; [|done]. specialize (IH _ _ Hi Hd).
    destruct (Deduplicator.evict cap order _ _) as [[order' ids'] digests']. destruct IH as (? & ? & [pre ->] & ? & ?).
    rewrite zlen_cons. split_and!; try done; [lia|by exists ((i, dg) :: pre)].
  - split_and!; try done; [lia|by exists []].
Qed.

Lemma remember_digest_ok k now d : dedup_ok d -> dedup_ok (Deduplicator.remember_digest k now d).
Proof. intros (? & ? & ?). split; [done|]. split; [by apply queued_app|]. by apply queued_insert. Qed.
Lemma dedup_expire_ok now d : dedup_ok d -> dedup_ok (Deduplicator.expire now d).
Proof. intros (? & ? & ?). split; [done|]. split; by apply queued_retain. Qed.
Lemma dedup_new_ok cap ttl : 0 <= ttl -> dedup_ok (Deduplicator.new cap ttl).
Proof. intros Ht. split; [simpl; lia|]. split; (split; [apply empty_wf|intros k [? H]; discriminate H]). Qed.

Lemma observe_ok msg now d :
  dedup_ok d ->
  let '(d', fresh) := Deduplicator.observe msg now d in
  dedup_ok d' /\ dd_cap d' = dd_cap d /\ dd_ttl_ms d' = dd_ttl_ms d /\ (if fresh then zlen (dd_order d') <= dd_cap d else dd_order d' = dd_order d).
Proof.
  intros Hd%(dedup_expire_ok now). unfold Deduplicator.observe. set (de := Deduplicator.expire now d) in *.
  assert (Hc : dd_cap de = dd_cap d /\ dd_ttl_ms de = dd_ttl_ms d /\ dd_order de = dd_order d) by done. clearbody de.
  destruct Hc as (<- & <- & <-). destruct (_ || _); [by split_and!|].
  set (dr := match Deduplicator.text_digest msg with Some t => Deduplicator.remember_digest t now de | None => de end).
  assert (Hr : dedup_ok dr /\ dd_cap dr = dd_cap de /\ dd_ttl_ms dr = dd_ttl_ms de)
    by (unfold dr; destruct (Deduplicator.text_digest msg); split_and!; try done; by apply remember_digest_ok).
  clearbody dr. destruct Hr as (((Hcap & Httl) & Hi & Hg) & <- & <-).
  pose proof (dedup_evict_spec _ _ _ _ Hcap Hi Hg) as He. destruct (Deduplicator.evict _ _ _ _) as [[order ids] digests].
  destruct He as (Hlen & _ & _ & Hi' & Hg'). cbn -[zlen]. split_and!; try done.
  - split; [done|]. split; [|by apply queued_insert]. destruct (Deduplicator.id_key msg); cbn; [by apply queued_insert|by apply queued_app].
  - rewrite zlen_app, zlen_cons, zlen_nil. lia.
Qed.

(** A message is new at [now]: none of its three keys was recorded within the time
    to live. *)
Definition lapsed (now : Z) d (m : smallmap (list Z) Z) (k : list Z) : Prop := forall t, SmallMap.get m k = Some t -> now - t > dd_ttl_ms d.
Definition unseen (now : Z) (msg : UnifiedMessage) d : Prop :=
  (um_message_id msg <> [] -> lapsed now d (dd_by_id d) (IdentityRef.canonical (um_source msg) ++ str "/" ++ um_message_id msg)) /\
  lapsed now d (dd_by_digest d) (UnifiedMessage.canonical_digest msg) /\
  (forall k, Deduplicator.text_digest msg = Some k -> lapsed now d (dd_by_digest d) k).
Lemma expired_lapsed now d m k :
  0 <= dd_ttl_ms d -> wf m ->
  SmallMap.contains_key (SmallMap.retain (fun _ t => bool_decide (sat_sub now t <= dd_ttl_ms d)) m) k = false -> lapsed now d m k.
Proof.
  intros Httl Hwf Hc t Ht. rewrite contains_key_get, get_retain, Ht in Hc by (done || by apply retain_wf). apply bool_decide_eq_false in Hc.
  destruct (bool_decide_reflect (sat_sub now t <= dd_ttl_ms d)) as [|Hn]; [by destruct Hc|]. unfold sat_sub in Hn. lia.
Qed.
Lemma observe_unseen msg now d : dedup_ok d -> (Deduplicator.observe msg now d).2 = true -> unseen now msg d.
Proof.
  intros ((_ & Httl) & (Hwi & _) & Hwd & _). unfold Deduplicator.observe. destruct (_ || _) eqn:E; [done|]. intros _.
  apply orb_false_iff in E as [[E1 E2]%orb_false_iff E3]. split; [|split].
  - intros Hid. unfold Deduplicator.id_key in E1. rewrite decide_False in E1 by done. by apply expired_lapsed.
  - by apply expired_lapsed.
  - intros k Hk. rewrite Hk in E3. by apply expired_lapsed.
Qed.

(** The keys under which a message is recognised. *)
Definition recognised_by (msg : UnifiedMessage) (k : list Z) : Prop :=
  UnifiedMessage.canonical_digest msg = k \/ Deduplicator.text_digest msg = Some k.

(** A key seen at [t0] or later whose oldest queue entry has at most [n - 1]
    entries behind it. *)
Definition kept (k : list Z) (t0 n : Z) d : Prop :=
  dedup_ok d /\ (exists t, SmallMap.get (dd_by_digest d) k = Some t /\ t0 <= t) /\
  exists pre post, dd_order d = pre ++ post /\ Forall (fun e => ~ has_digest k e) pre /\ zlen post <= n.

Lemma kept_expire k t0 n now d : now <= t0 + dd_ttl_ms d -> kept k t0 n d -> kept k t0 n (Deduplicator.expire now d).
Proof.
  intros Hnow (Hok & (t & Ht & Hle) & Hq). split; [by apply dedup_expire_ok|]. split; [|done]. exists t. split; [|done]. cbn.
  rewrite get_retain, Ht by apply Hok. rewrite bool_decide_true; [done|]. destruct Hok as ((_ & ?) & _). unfold sat_sub. lia.
Qed.
Lemma get_insert_later (m : smallmap (list Z) Z) k k' (now t0 : Z) :
  wf m -> t0 <= now -> (exists t, SmallMap.get m k = Some t /\ t0 <= t) ->
  exists t, SmallMap.get (SmallMap.insert m k' now).1 k = Some t /\ t0 <= t.
Proof. intros Hwf Hnow (t & Ht & Hle). rewrite get_insert by done. destruct (kcmp k' k); eauto. Qed.
Lemma kept_remember k t0 n k' now d : t0 <= now -> kept k t0 n d -> kept k t0 (n + 1) (Deduplicator.remember_digest k' now d).
Proof.
  intros Hnow (Hok & Ht & pre & post & Ho & Hpre & Hpost). split; [by apply remember_digest_ok|].
  split; [apply get_insert_later; try done; apply Hok|]. exists pre, (post ++ [(None, Some k')]). cbn. rewrite Ho, app_assoc.
  split_and!; try done. rewrite zlen_app, zlen_cons, zlen_nil. lia.
Qed.

Lemma evict_keeps k cap order pre post ids digests :
  order = pre ++ post -> Forall (fun e => ~ has_digest k e) pre -> zlen post < cap -> wf digests ->
  let '(order', _, digests') := Deduplicator.evict cap order ids digests in
  SmallMap.get digests' k = SmallMap.get digests k /\
  exists pre', order' = pre' ++ post /\ Forall (fun e => ~ has_digest k e) pre'.
Proof.
  intros -> Hpre Hpost. revert ids digests. induction Hpre as [|[i dg] pre Hd Hpre IH]; intros ids digests Hwf.
  - destruct post as [|[i dg] post]; cbn [app Deduplicator.evict]; [by split; [|exists []]|]. rewrite decide_False by lia. by split; [|exists []].
  - cbn [app Deduplicator.evict]. case_decide; [|split; [done|]; exists ((i, dg) :: pre); split; [done|by constructor]].
    assert (Hf : wf (Deduplicator.forget dg digests) /\ SmallMap.get (Deduplicator.forget dg digests) k = SmallMap.get digests k).
    { unfold Deduplicator.forget. destruct dg as [k'|]; [|done]. split; [by apply remove_wf|]. rewrite get_remove by done.
      destruct (kcmp k' k) eqn:E; try done. apply kcmp_eq in E as ->. by destruct Hd. }
    destruct Hf as [Hwf' <-]. by apply IH.
Qed.

Inductive DedupOp := Observe (msg : UnifiedMessage) | Remember (k : list Z).
Definition dedup_step (d : Deduplicator) (o : DedupOp * Z) : Deduplicator :=
  match o.1 with Observe msg => (Deduplicator.observe msg o.2 d).1 | Remember k => Deduplicator.remember_digest k o.2 d end.

Lemma observe_refuses k t0 n now msg d :
  kept k t0 n d -> now <= t0 + dd_ttl_ms d -> recognised_by msg k -> (Deduplicator.observe msg now d).2 = false.
Proof.
  intros Hk Hnow Hr. apply (kept_expire _ _ _ _ _ Hnow) in Hk as (Hok & (t & Ht & _) & _). unfold Deduplicator.observe.
  assert (Hc : SmallMap.contains_key (dd_by_digest (Deduplicator.expire now d)) k = true).
  { rewrite contains_key_get by apply Hok. apply bool_decide_true. eauto. }
  destruct Hr as [-> | ->]; [rewrite Hc, orb_true_r; done|]. unfold Deduplicator.seen at 2. rewrite Hc, orb_true_r. done.
Qed.

(** What the recording half of [observe] does to a kept key. *)
Lemma kept_record k t0 n now id digest d :
  t0 <= now -> kept k t0 n d -> n < dd_cap d ->
  let '(order, ids, digests) := Deduplicator.evict (dd_cap d) (dd_order d) (dd_by_id d) (dd_by_digest d) in
  forall dups, kept k t0 (n + 1)
    (mkDedup (dd_cap d) (dd_ttl_ms d) (match id with Some i => (SmallMap.insert ids i now).1 | None => ids end)
       (SmallMap.insert digests digest now).1 (order ++ [(id, Some digest)]) dups).
Proof.
  intros Hnow (((Hcap & Httl) & Hi & Hg) & Ht & pre & post & Ho & Hpre & Hpost) Hn.
  pose proof (dedup_evict_spec _ _ _ _ Hcap Hi Hg) as Hs.
  pose proof (evict_keeps k (dd_cap d) _ pre post (dd_by_id d) (dd_by_digest d) Ho Hpre ltac:(lia) (proj1 Hg)) as Hk.
  destruct (Deduplicator.evict _ _ _ _) as [[order ids] digests]. destruct Hs as (_ & _ & _ & Hi' & Hg').
  destruct Hk as (Hget & pre' & -> & Hpre'). intros dups. split; [|split].
  - split; [done|]. split; [|by apply queued_insert]. destruct id; cbn; [by apply queued_insert|by apply queued_app].
  - cbn. apply get_insert_later; [apply Hg'|done|]. by rewrite Hget.
  - exists pre', (post ++ [(id, Some digest)]). cbn. rewrite app_assoc. split_and!; try done. rewrite zlen_app, zlen_cons, zlen_nil. lia.
Qed.
Lemma kept_weaken k t0 n n' d : n <= n' -> kept k t0 n d -> kept k t0 n' d.
Proof. intros Hn (? & ? & pre & post & ? & ? & ?). split; [done|]. split; [done|]. exists pre, post. split_and!; try done. lia. Qed.
Lemma kept_same k t0 n d d' :
  dd_cap d' = dd_cap d -> dd_ttl_ms d' = dd_ttl_ms d -> dd_by_id d' = dd_by_id d -> dd_by_digest d' = dd_by_digest d -> dd_order d' = dd_order d ->
  kept k t0 n d -> kept k t0 n d'.
Proof. unfold kept, dedup_ok. by intros -> -> -> -> ->. Qed.
Lemma kept_step k t0 n d o :
  kept k t0 n d -> t0 <= o.2 <= t0 + dd_ttl_ms d -> n + 1 < dd_cap d ->
  kept k t0 (n + 2) (dedup_step d o) /\ dd_cap (dedup_step d o) = dd_cap d /\ dd_ttl_ms (dedup_step d o) = dd_ttl_ms d.
Proof.
  intros Hk Hnow Hn. destruct o as [[msg|k'] now]; unfold dedup_step; cbn in Hnow; cbn [fst snd].
  2: { split; [|done]. apply (kept_weaken _ _ (n + 1)); [lia|]. apply kept_remember; [lia|done]. }
  split; [|pose proof (observe_ok msg now d (proj1 Hk)) as Ho; destruct (Deduplicator.observe msg now d); naive_solver].
  apply (kept_expire _ _ _ now) in Hk; [|lia]. unfold Deduplicator.observe. set (de := Deduplicator.expire now d) in *.
  change (dd_cap d) with (dd_cap de) in Hn. clearbody de.
  destruct (_ || _); [cbn; eapply kept_same, kept_weaken, Hk; [done..|lia]|].
  destruct (Deduplicator.text_digest msg) as [t|].
  - apply (kept_remember _ _ _ t now) in Hk; [|lia]. pose proof (kept_record k t0 (n + 1) now (Deduplicator.id_key msg) (UnifiedMessage.canonical_digest msg) _ ltac:(lia) Hk Hn) as Hr.
    destruct (Deduplicator.evict _ _ _ _) as [[order ids] digests]. cbn. replace (n + 2) with (n + 1 + 1) by lia. apply Hr.
  - pose proof (kept_record k t0 n now (Deduplicator.id_key msg) (UnifiedMessage.canonical_digest msg) _ ltac:(lia) Hk ltac:(lia)) as Hr.
    destruct (Deduplicator.evict _ _ _ _) as [[order ids] digests]. cbn. apply (kept_weaken _ _ (n + 1)); [lia|]. apply Hr.
Qed.
Lemma kept_run k t0 n ops d :
  kept k t0 n d -> Forall (fun o => t0 <= o.2 <= t0 + dd_ttl_ms d) ops -> n + 2 * zlen ops <= dd_cap d ->
  kept k t0 (n + 2 * zlen ops) (foldl dedup_step d ops) /\ dd_ttl_ms (foldl dedup_step d ops) = dd_ttl_ms d.
Proof.
  revert n d. induction ops as [|o ops IH]; intros n d Hk Ht Hn; cbn [foldl]; [change (zlen []) with 0; by replace (n + 2 * 0) with n by lia|].
  rewrite zlen_cons in *. pose proof (zlen_nonneg ops). apply Forall_cons in Ht as [Ho Ht].
  destruct (kept_step k t0 n d o Hk Ho ltac:(lia)) as (Hk' & Hc & Htl).
  destruct (IH (n + 2) (dedup_step d o) Hk') as [Hk2 Ht2]; [by rewrite Htl|rewrite Hc; lia|].
  replace (n + 2 * (1 + zlen ops)) with (n + 2 + 2 * zlen ops) by lia. split; [done|]. by rewrite Ht2.
Qed.

(** Recording a new message makes both its keys kept. *)
Lemma dedup_observe_keeps k msg t0 d d' :
  dedup_ok d -> 2 <= dd_cap d -> Forall (fun e => ~ has_digest k e) (dd_order d) -> recognised_by msg k ->
  Deduplicator.observe msg t0 d = (d', true) -> kept k t0 2 d' /\ dd_ttl_ms d' = dd_ttl_ms d /\ dd_cap d' = dd_cap d.
Proof.
  intros Hok Hcap Hnew Hr Ho. pose proof (observe_ok msg t0 d Hok) as Hs. rewrite Ho in Hs. destruct Hs as (Hok' & Hc & Ht & _).
  split; [|done]. apply (dedup_expire_ok t0) in Hok. unfold Deduplicator.observe in Ho. set (de := Deduplicator.expire t0 d) in *.
  change (dd_order d) with (dd_order de) in Hnew. change (dd_cap d) with (dd_cap de) in *. clearbody de.
  destruct (_ || _); [done|]. destruct Hr as [Hk|Hk].
  - set (dr := match Deduplicator.text_digest msg with Some t => Deduplicator.remember_digest t t0 de | None => de end) in *.
    assert (Hdr : dedup_ok dr /\ dd_cap dr = dd_cap de /\ exists post, dd_order dr = dd_order de ++ post /\ zlen post <= 1).
    { unfold dr. destruct (Deduplicator.text_digest msg); [|split_and!; try done; exists []; by rewrite app_nil_r].
      split; [by apply remember_digest_ok|]. split; [done|]. by eexists. }
    clearbody dr. destruct Hdr as (((? & ?) & Hi & Hg) & Hcr & post & Hpost & Hlen).
    pose proof (dedup_evict_spec _ _ _ _ ltac:(eassumption) Hi Hg) as He.
    pose proof (evict_keeps k (dd_cap dr) _ _ post (dd_by_id dr) _ Hpost Hnew ltac:(lia) (proj1 Hg)) as Hp.
    destruct (Deduplicator.evict _ _ _ _) as [[order ids] digests]. injection Ho as <-. destruct Hp as (_ & pre' & -> & Hpre').
    split; [done|]. cbn. rewrite Hk. split; [exists t0; rewrite get_insert_eq; [done|apply He]|].
    exists pre', (post ++ [(Deduplicator.id_key msg, Some k)]). rewrite app_assoc. split_and!; try done. rewrite zlen_app, zlen_cons, zlen_nil. lia.
  - rewrite Hk in Ho.
    assert (Hk1 : kept k t0 1 (Deduplicator.remember_digest k t0 de)).
    { split; [by apply remember_digest_ok|]. cbn. split; [exists t0; rewrite get_insert_eq; [done|apply Hok]|]. by exists (dd_order de), [(None, Some k)]. }
    pose proof (kept_record k t0 1 t0 (Deduplicator.id_key msg) (UnifiedMessage.canonical_digest msg) _ ltac:(lia) Hk1 ltac:(cbn; lia)) as Hrec.
    destruct (Deduplicator.evict _ _ _ _) as [[order ids] digests]. injection Ho as <-. apply Hrec.
Qed.
End dedup_facts.

(** *** Policy *)

Lemma first_match_spec rules msg to :
  pd_allowed (Policy.first_match rules msg to) = true <->
  exists l1 r l2, rules = l1 ++ r :: l2 /\ Forall (fun r => Rule.matches r msg to = false) l1 /\ Rule.matches r msg to = true /\ r_action r = Allow.
Proof.
  induction rules as [|r rules IH]; cbn [Policy.first_match].
  - split; [done|]. intros ([] & ? & ? & ? & _); done.
  - destruct (Rule.matches r msg to) eqn:E; simpl.
    + rewrite bool_decide_eq_true. split; [intros; by exists [], r, rules|]. intros ([|r1 l1] & r' & l2 & H & Hall & Hm & Ha); simplify_eq/=; [done|].
      apply Forall_cons in Hall as [? _]. congruence.
    + rewrite IH. split; intros (l1 & r' & l2 & H & Hall & Hm & Ha).
      * exists (r :: l1), r', l2. simplify_eq/=. split; [done|]. split; [by constructor|done].
      * destruct l1 as [|r1 l1]; simplify_eq/=; [congruence|]. apply Forall_cons in Hall as [_ ?]. by exists l1, r', l2.
Qed.
(** A rule that cannot match end-to-end traffic (one with no security clause, or
    with [any], can). *)
Definition excludes_e2e (r : Rule) : Prop := r_security r = Some PublicOnly \/ r_security r = Some NotMeshStarE2E.
Lemma excludes_e2e_spec r msg to : excludes_e2e r -> SecurityLevel.is_meshstar_e2e (um_security msg) = true -> Rule.matches r msg to = false.
Proof.
  intros Hr He. unfold Rule.matches. assert (Hs : Rule.clause (r_security r) (fun s => Rule.security_matches s msg) = false).
  { destruct Hr as [-> | ->]; cbn; [by destruct (um_security msg)|by rewrite He]. }
  rewrite Hs. apply andb_false_r.
Qed.

(** When a rule applies, clause by clause. *)
Definition content_applies (k : ContentTypeMatch) (msg : UnifiedMessage) : Prop :=
  match k with CmText => um_content_type msg = Text | CmPosition => um_content_type msg = Position | CmBinary => um_content_type msg = Binary | CmAny => True end.
Definition identity_applies (id : list Z) (msg : UnifiedMessage) : Prop :=
  IdentityRef.canonical (um_source msg) = id \/ exists before rest, id = before ++ str "*" /\ IdentityRef.canonical (um_source msg) = before ++ rest.
Definition security_applies (s : SecurityMatch) (msg : UnifiedMessage) : Prop :=
  match s with
  | SmAny => True
  | NotMeshStarE2E => um_security msg <> MeshStarE2E /\ um_security msg <> MeshStarEnvelope
  | PublicOnly => um_security msg = Plaintext \/ um_security msg = MeshStarGroup \/ exists q ch, um_security msg = ForeignSharedKey q ch
  end.
Definition applies (r : Rule) (msg : UnifiedMessage) (to : ProtocolId) : Prop :=
  (forall f, r_from r = Some f -> um_protocol msg = f) /\ (forall t, r_to r = Some t -> to = t) /\
  (forall ch, r_channel r = Some ch -> ch = str "*" \/ um_channel msg = Some ch) /\
  (forall k, r_content r = Some k -> content_applies k msg) /\
  (forall id, r_identity r = Some id -> identity_applies id msg) /\
  (forall s, r_security r = Some s -> security_applies s msg).

Lemma clause_spec {A} (o : option A) (f : A -> bool) (P : A -> Prop) :
  (forall a, f a = true <-> P a) -> (Rule.clause o f = true <-> forall a, o = Some a -> P a).
Proof. intros Hf. destruct o as [a|]; simpl; [rewrite Hf; naive_solver|naive_solver]. Qed.
Lemma content_applies_spec k msg : Rule.content_matches k msg = true <-> content_applies k msg.
Proof. destruct k; simpl; rewrite ?bool_decide_eq_true; naive_solver. Qed.
Lemma security_applies_spec s msg : Rule.security_matches s msg = true <-> security_applies s msg.
Proof. destruct s; simpl; destruct (um_security msg); naive_solver. Qed.
Lemma starts_with_spec p s : starts_with p s = true <-> exists rest, s = p ++ rest.
Proof.
  unfold starts_with. rewrite bool_decide_eq_true. split; [|intros [rest ->]; apply take_app_length].
  intros E. exists (drop (length p) s). by rewrite <- E at 1; rewrite take_drop.
Qed.
Lemma strip_suffix_spec b s : match Text.strip_suffix b s with Some r => s = r ++ [b] | None => forall r, s <> r ++ [b] end.
Proof.
  unfold Text.strip_suffix. destruct (reverse s) as [|x r] eqn:E; apply (f_equal reverse) in E; rewrite reverse_involutive in E; subst s.
  - intros r. by destruct r.
  - rewrite reverse_cons. case_decide as Ex; [by subst x|]. intros r' Hr. apply app_inj_2 in Hr as [_ [= ?]]; done.
Qed.
Lemma identity_applies_spec id msg : Rule.identity_matches id msg = true <-> identity_applies id msg.
Proof.
  unfold Rule.identity_matches, identity_applies. generalize (IdentityRef.canonical (um_source msg)). intros canon.
  pose proof (strip_suffix_spec 42 id) as Hs. destruct (Text.strip_suffix 42 id) as [before|].
  - subst id. rewrite starts_with_spec. split.
    + intros [rest ->]. right. by exists before, rest.
    + intros [-> |(b & rest & Hb & ->)]; [by eexists|]. apply app_inj_2 in Hb as [-> _]; [by eexists|done].
  - rewrite bool_decide_eq_true. split; [by left|]. intros [->|(b & rest & Hb & _)]; [done|]. by apply Hs in Hb.
Qed.
Lemma matches_applies r msg to : Rule.matches r msg to = true <-> applies r msg to.
Proof.
  unfold Rule.matches, applies. rewrite !andb_true_iff.
  rewrite (clause_spec _ _ (fun f => um_protocol msg = f)) by (intros; apply bool_decide_eq_true).
  rewrite (clause_spec (r_to r) _ (fun t => to = t)) by (intros; apply bool_decide_eq_true).
  rewrite (clause_spec (r_channel r) _ (fun ch => ch = str "*" \/ um_channel msg = Some ch)) by (intros; by rewrite orb_true_iff, !bool_decide_eq_true).
  rewrite (clause_spec (r_content r) _ (fun k => content_applies k msg)) by (intros; apply content_applies_spec).
  rewrite (clause_spec (r_identity r) _ (fun id => identity_applies id msg)) by (intros; apply identity_applies_spec).
  rewrite (clause_spec (r_security r) _ (fun s => security_applies s msg)) by (intros; apply security_applies_spec). tauto.
Qed.
Lemma first_applies rules msg to :
  Forall (fun r => ~ applies r msg to) rules /\ Policy.first_match rules msg to = mkDecision false None \/
  exists l1 r l2, rules = l1 ++ r :: l2 /\ Forall (fun r => ~ applies r msg to) l1 /\ applies r msg to /\
    Policy.first_match rules msg to = mkDecision (bool_decide (r_action r = Allow)) (Some (r_name r)).
Proof.
  induction rules as [|r rules IH]; cbn [Policy.first_match]; [left; by split; [constructor|]|].
  destruct (Rule.matches r msg to) eqn:E.
  - right. exists [], r, rules. split; [done|]. split; [constructor|]. by rewrite <- matches_applies.
  - assert (~ applies r msg to) by (rewrite <- matches_applies; congruence).
    destruct IH as [[H1 H2]|(l1 & r' & l2 & -> & H1 & H2 & H3)]; [left; split; [by constructor|done]|right].
    exists (r :: l1), r', l2. split; [done|]. split; [by constructor|done].
Qed.

(** *** Translation *)

Lemma find_cut_spec text n :
  (find_cut text n <= n)%nat /\ is_char_boundary text (find_cut text n) = true.
Proof.
  induction n as [|n IH]; [done|]. destruct IH as [IH1 IH2]. cbn [find_cut]. destruct (is_char_boundary text (S n)) eqn:E; [done|]. split; [lia|done].
Qed.
Lemma meta_encoded msg k v : text_ok msg -> UnifiedMessage.meta msg k = Some v -> well_encoded v.
Proof.
  intros (_ & Hm & _) Hv. unfold UnifiedMessage.meta in Hv. apply fmap_Some in Hv as ([k' v'] & Hf & ->). apply find_first_Some in Hf as [_ Hin].
  rewrite Forall_forall in Hm. by apply (Hm _ Hin).
Qed.
Lemma ascii_boundary s n : (n <= length s)%nat -> Forall (fun c => plain_char c = true) s -> is_char_boundary s n = true.
Proof.
  intros Hn Hs. unfold is_char_boundary. destruct (s !! n) as [b|] eqn:E.
  - rewrite Forall_forall in Hs. specialize (Hs b (list_elem_of_lookup_2 _ _ _ E)). apply plain_spec in Hs.
    unfold is_cont, Text.between. rewrite (bool_decide_false (128 <= b <= 191)) by lia. apply orb_true_r.
  - apply lookup_ge_None in E. rewrite (bool_decide_true (n = length s)) by lia. apply orb_true_r.
Qed.
Lemma short_identity_ok i : identity_ok i -> exists s, short_identity i = Ok s /\ well_encoded s.
Proof.
  intros Hi. pose proof (canonical_plain i Hi) as Hp. pose proof (canonical_ascii i Hi) as Ha.
  unfold short_identity, str_prefix. case_decide as Hl; [|eauto]. unfold zlen in Hl.
  assert (Hb : is_char_boundary (IdentityRef.canonical i) 24 = true) by (apply ascii_boundary; [lia|done]).
  rewrite Hb. eexists. split; [reflexivity|]. apply encoded_concat; [by apply truncate_encoded|by apply utf8_valid_iff].
Qed.
Lemma lit_encoded s : utf8_valid s = true -> well_encoded s.
Proof. apply utf8_valid_iff. Qed.
Lemma prefix_ok msg : text_ok msg -> exists p, prefix_for msg = Ok p /\ well_encoded p.
Proof.
  intros Hm. unfold prefix_for.
  assert (exists who, match sender_name msg with Some s => Ok s | None => short_identity (um_source msg) end = Ok who /\ well_encoded who) as (who & -> & Hw).
  { destruct (sender_name msg) as [s|] eqn:E; [|by apply short_identity_ok, Hm]. exists s. split; [done|]. unfold sender_name, or_else in E.
    destruct (UnifiedMessage.meta msg (str "sender_name")) eqn:E1; [simplify_eq; by eapply meta_encoded|].
    destruct (UnifiedMessage.meta msg (str "long_name")) eqn:E2; [simplify_eq; by eapply meta_encoded|by eapply meta_encoded]. }
  eexists. split; [reflexivity|]. apply (encoded_concat (str "[")); [by apply lit_encoded|]. apply encoded_concat; [done|by apply lit_encoded].
Qed.
Lemma text_payload_encoded msg : well_encoded (default [] (UnifiedMessage.text_payload msg)).
Proof.
  unfold UnifiedMessage.text_payload. case_decide; [|constructor]. destruct (utf8_valid (um_payload msg)) eqn:E; [|constructor]. by apply utf8_valid_iff.
Qed.
(** The text that goes out is text, and fits the target network. *)
Lemma bridged_text_ok msg max pre :
  text_ok msg -> 3 <= max ->
  exists t cut, bridged_text msg max pre = Ok (t, cut) /\ well_encoded t /\ zlen t <= max /\
    (cut = false -> exists p, (if pre then prefix_for msg else Ok []) = Ok p /\ t = p ++ default [] (UnifiedMessage.text_payload msg)).
Proof.
  intros Hm Hmax. unfold bridged_text.
  assert (exists p, (if pre then prefix_for msg else Ok []) = Ok p /\ well_encoded p) as (p & Hp & Hpe)
    by (destruct pre; [by apply prefix_ok|exists []; split; [done|constructor]]).
  rewrite Hp. cbn [mbind outcome_bind]. set (text := p ++ _).
  assert (Ht : well_encoded text) by (apply encoded_concat; [done|apply text_payload_encoded]).
  case_decide as Hl; [|exists text, false; split_and!; [done|done|lia|]; intros _; by exists p].
  destruct (find_cut_spec text (Z.to_nat (sat_sub max 3))) as [Hc Hb]. set (c := find_cut _ _) in *.
  unfold sat_sub in Hc. rewrite Z.max_r in Hc by lia. unfold zlen in Hl. unfold truncate, str_prefix. rewrite decide_False by lia. rewrite Hb.
  exists (take c text ++ str "..."), true. split; [done|]. split; [|split; [|done]].
  - apply encoded_concat; [by apply truncate_encoded|by apply lit_encoded].
  - unfold zlen. rewrite length_app, length_take. change (length (str "...")) with 3%nat. lia.
Qed.
Lemma meta_set_meta key v m k : UnifiedMessage.meta (UnifiedMessage.set_meta key v m) k = if decide (k = key) then Some v else UnifiedMessage.meta m k.
Proof.
  unfold UnifiedMessage.meta, UnifiedMessage.set_meta, UnifiedMessage.set_entry. cbn. generalize (um_protocol_metadata m). intros l.
  induction l as [|[k0 v0] l IH]; cbn [find_first update_first app fst snd].
  - destruct (bool_decide_reflect (key = k)), (decide (k = key)); simpl; congruence.
  - destruct (bool_decide_reflect (k0 = key)) as [->|Hk].
    + cbn [find_first fst snd]. destruct (bool_decide_reflect (key = k)), (decide (k = key)); simpl; congruence.
    + destruct (find_first (fun e => bool_decide (e.1 = key)) l); cbn [find_first fst app]; destruct (bool_decide_reflect (k0 = k)) as [->|]; try done;
        by rewrite decide_False.
Qed.

(** What the target network can carry. *)
Definition representable (msg : UnifiedMessage) (caps : ProtocolCapabilities) : bool :=
  match um_content_type msg with
  | Text => cap_text caps
  | Position => cap_position caps && bool_decide (is_Some (UnifiedMessage.meta msg (str "lat")))
  | Binary => bool_decide (cap_max_binary_bytes caps <> 0) && bool_decide (zlen (um_payload msg) <= cap_max_binary_bytes caps)
  | _ => false
  end.
(** A payload as it goes out, [exact] if no loss is reported: a text is then whole
    behind its prefix, or, if it is no valid UTF-8, missing. *)
Definition carried (msg : UnifiedMessage) (caps : ProtocolCapabilities) (pre exact : bool) (payload : list Z) : Prop :=
  match um_content_type msg with
  | Text =>
      utf8_valid payload = true /\ zlen payload <= cap_max_text_bytes caps /\
      (exact = true -> exists p, (if pre then prefix_for msg else Ok []) = Ok p /\
         (utf8_valid (um_payload msg) = true -> payload = p ++ um_payload msg) /\ (utf8_valid (um_payload msg) = false -> payload = p))
  | Binary => payload = um_payload msg /\ zlen payload <= cap_max_binary_bytes caps
  | _ => payload = um_payload msg
  end.
Lemma translate_content_ok msg caps pre :
  text_ok msg -> 3 <= cap_max_text_bytes caps ->
  exists r, translate_content msg caps pre = Ok r /\
    match r with
    | inl _ => representable msg caps = false
    | inr (payload, losses) => representable msg caps = true /\ carried msg caps pre (bool_decide (losses = [])) payload
    end.
Proof.
  intros Hm Hmax. unfold translate_content, representable, carried. destruct (um_content_type msg) eqn:Ht; try (by eexists).
  - destruct (cap_text caps); cbn [negb]; [|by eexists]. destruct (bridged_text_ok msg _ pre Hm Hmax) as (t & cut & -> & He & Hl & Hx).
    cbn [mbind outcome_bind]. eexists. split; [reflexivity|]. split; [done|]. split; [by apply utf8_valid_iff|]. split; [done|].
    rewrite bool_decide_eq_true. destruct cut; [discriminate|]. intros _. destruct (Hx eq_refl) as (p & Hp & ->). exists p. split; [done|].
    unfold UnifiedMessage.text_payload. rewrite decide_True by done. split; intros ->; [done|apply app_nil_r].
  - case_decide as H0; [eexists; split; [reflexivity|]; rewrite bool_decide_false by naive_solver; done|].
    rewrite (bool_decide_true (cap_max_binary_bytes caps <> 0)) by done. case_decide.
    + eexists. split; [reflexivity|]. simpl. apply bool_decide_false. lia.
    + eexists. split; [reflexivity|]. split; [apply bool_decide_true; lia|]. split; [done|lia].
  - destruct (cap_position caps); cbn [negb]; [|by eexists]. destruct (UnifiedMessage.meta msg (str "lat")); [|by eexists]. eexists. split; [reflexivity|].
    split; [|done]. apply bool_decide_true. eauto.
Qed.

(** What a translation keeps, and what [Exact] promises. *)
Definition faithful (msg : UnifiedMessage) (to : ProtocolId) (caps : ProtocolCapabilities) (gw : list Z) (pre : bool)
    (out : UnifiedMessage) (outc : TranslationOutcome) : Prop :=
  um_protocol out = to /\ um_destination out = IdBroadcast to /\ um_source out = um_source msg /\
  um_content_type out = um_content_type msg /\ um_timestamp out = um_timestamp msg /\ um_bridge_path out = um_bridge_path msg /\
  um_security out = Bridged (um_protocol msg) gw (um_security msg) /\
  UnifiedMessage.meta out (str "bridged_source") = Some (IdentityRef.canonical (um_source msg)) /\
  (um_reply_to out = um_reply_to msg \/ um_reply_to out = None /\ cap_replies caps = false) /\
  carried msg caps pre (match outc with Exact => true | _ => false end) (um_payload out) /\
  (outc = Exact -> um_reply_to out = um_reply_to msg /\ um_wants_ack out = um_wants_ack msg /\ IdentityRef.is_broadcast (um_destination msg) = true).
Lemma carried_weaken msg caps pre (e e' : bool) payload : (e' = true -> e = true) -> carried msg caps pre e payload -> carried msg caps pre e' payload.
Proof. unfold carried. destruct (um_content_type msg); try done. naive_solver. Qed.
Lemma mark_bridged_meta msg to gw now out :
  UnifiedMessage.meta (mark_bridged msg to gw now out) (str "bridged_source") = Some (IdentityRef.canonical (um_source msg)).
Proof.
  unfold mark_bridged. set (o := UnifiedMessage.set_meta (str "bridged_from") _ _).
  change (UnifiedMessage.meta (UnifiedMessage.set_meta (str "bridged_at") (dec now) (UnifiedMessage.set_meta (str "bridged_source") (IdentityRef.canonical (um_source msg)) o)) (str "bridged_source") = Some (IdentityRef.canonical (um_source msg))).
  by rewrite !meta_set_meta.
Qed.

Lemma translate_returns msg to caps gw now pre :
  text_ok msg -> 3 <= cap_max_text_bytes caps -> exists r, translate msg to caps gw now pre = Ok r.
Proof.
  intros Hm Hmax. unfold translate. destruct (translate_content_ok msg caps pre Hm Hmax) as ([what|[payload losses]] & -> & _); cbn; [eauto|].
  destruct (_ && negb (cap_replies caps)), (_ && negb (cap_acknowledgements caps)); eauto.
Qed.


Definition sample_text : UnifiedMessage :=
  UnifiedMessage.text (IdMeshtastic 0x1234) (IdBroadcast Meshtastic) Meshtastic (str "hello world this is long").
Definition sample_caps : ProtocolCapabilities := mkCaps true false false true false false false false true 16 0 7.
Lemma sample_ok : text_ok sample_text.
Proof. split; [vm_compute; split; [by intros|done]|]. split; [constructor|done]. Qed.

(** C13. A policy decides by its first rule that applies, and reports that rule;
    without one it denies.  A rule applies if each clause it has does: protocols
    equal, channel equal or [*], content type, source equal or beginning with what
    stands before a final [*], security.  A policy whose allow rules all carry a
    [public] or [not-e2e] security clause never lets end-to-end protected traffic
    out; and the built-in bridging policy lets out exactly text and positions in
    the clear or protected by a shared or group key. *)
Theorem policy_exact p msg to :
  (Forall (fun r => ~ applies r msg to) (pl_rules p) /\ Policy.evaluate p msg to = mkDecision false None \/
   exists l1 r l2, pl_rules p = l1 ++ r :: l2 /\ Forall (fun r => ~ applies r msg to) l1 /\ applies r msg to /\
     Policy.evaluate p msg to = mkDecision (bool_decide (r_action r = Allow)) (Some (r_name r))) /\
  (Forall (fun r => r_action r = Allow -> r_security r = Some PublicOnly \/ r_security r = Some NotMeshStarE2E) (pl_rules p) ->
   um_security msg = MeshStarE2E \/ um_security msg = MeshStarEnvelope -> pd_allowed (Policy.evaluate p msg to) = false) /\
  (pd_allowed (Policy.evaluate Policy.public_text_bridging msg to) = true <->
   (um_content_type msg = Text \/ um_content_type msg = Position) /\
   (um_security msg = Plaintext \/ um_security msg = MeshStarGroup \/ exists q ch, um_security msg = ForeignSharedKey q ch)).
Proof.
  split; [apply first_applies|]. split.
  - intros Hp He. apply not_true_is_false. intros (l1 & r & l2 & Hr & _ & Hm & Ha)%first_match_spec. rewrite Hr in Hp.
    apply Forall_app in Hp as [_ [Hx _]%Forall_cons]. rewrite (excludes_e2e_spec r msg to (Hx Ha)) in Hm; [done|]. by destruct He as [-> | ->].
  - change (um_security msg = Plaintext \/ um_security msg = MeshStarGroup \/ exists q ch, um_security msg = ForeignSharedKey q ch) with (security_applies PublicOnly msg).
    rewrite <- security_applies_spec. unfold Policy.evaluate, Policy.public_text_bridging. cbn [Policy.first_match pl_rules]. unfold Rule.matches. cbn -[Rule.security_matches str].
    destruct (Rule.security_matches PublicOnly msg), (um_content_type msg); (split; [intros H; try discriminate H; auto|by intros [[?|?] ?]]).
Qed.
(** An unknown security clause is read as none, and releases end-to-end traffic. *)
Example unknown_security_clause :
  (r ← Policy.parse_rule (str "allow * -> * security=pubic");
   Some (pd_allowed (Policy.evaluate (mkPolicy [r]) (UM.set_security MeshStarE2E sample_text) MeshCore))) = Some true.
Proof. vm_compute. reflexivity. Qed.

(** *** Crossing a gateway *)

(** A message that a gateway with guard [g] lets onto [to]: checked, translated,
    stamped, in the order of [Gateway::bridge_one]. *)
Definition crosses (g : LoopGuard) (to : ProtocolId) (msg msg' : UnifiedMessage) : Prop :=
  (LoopGuard.check msg to g).2 = LoopOk /\
  exists caps now pre out outc,
    translate msg to caps (lg_gateway_id g) now pre = Ok (Some out, outc) /\ msg' = LoopGuard.stamp to now g out.

Lemma translate_keeps msg to caps gw now pre out outc :
  translate msg to caps gw now pre = Ok (Some out, outc) ->
  um_protocol out = to /\ um_source out = um_source msg /\ um_bridge_path out = um_bridge_path msg /\ um_bridge_origin out = um_bridge_origin msg /\
  um_security out = Bridged (um_protocol msg) gw (um_security msg).
Proof.
  unfold translate. destruct (translate_content msg caps pre) as [[what|[payload losses]]|e|]; cbn [mbind outcome_bind]; try discriminate.
  destruct (_ && negb (cap_replies caps)), (_ && negb (cap_acknowledgements caps)); intros [= <- _]; by split_and!.
Qed.
Lemma check_ok msg to g :
  (LoopGuard.check msg to g).2 = LoopOk ->
  zlen (um_bridge_path msg) < lg_max_crossings g /\ to <> um_protocol msg /\
  Forall (fun h => bh_gateway h <> lg_gateway_id g /\ bh_from h <> to /\ bh_to h <> to) (um_bridge_path msg).
Proof.
  unfold LoopGuard.check. destruct (lg_stats g). case_decide; [done|]. destruct (existsb _ _) eqn:E1; [done|].
  destruct (bool_decide_reflect (to = um_protocol msg)); [done|]. cbn [orb].
  destruct (existsb (fun h => _ || _) _) eqn:E2; [done|]. intros _. split; [lia|]. split; [done|].
  apply Forall_forall. intros h Hh. apply list_elem_of_In in Hh. split_and!; intros Heq.
  - apply not_true_iff_false in E1. apply E1, existsb_exists. exists h. split; [done|by apply bool_decide_true].
  - apply not_true_iff_false in E2. apply E2, existsb_exists. exists h. split; [done|]. by rewrite bool_decide_true.
  - apply not_true_iff_false in E2. apply E2, existsb_exists. exists h. split; [done|]. rewrite (bool_decide_true (bh_to h = to)) by done. apply orb_true_r.
Qed.

Section recognise.
Context {C : CryptoLib}.

(** C14. A message recorded as new is refused when it comes back under another
    native id or from another network: any message that shares its content
    digest or its bare text digest is a duplicate until the time to live has
    passed, provided that the calls in between come within it, and are so few
    that their records (two a call) fit the capacity, and that the digest was not
    on record before. *)
Theorem dedup_recognises d d1 msg msg' k t0 t ops :
  dedup_ok d -> Forall (fun e => ~ has_digest k e) (dd_order d) ->
  Deduplicator.observe msg t0 d = (d1, true) -> recognised_by msg k -> recognised_by msg' k ->
  Forall (fun o => t0 <= o.2 <= t0 + dd_ttl_ms d) ops -> 2 + 2 * zlen ops <= dd_cap d -> t <= t0 + dd_ttl_ms d ->
  (Deduplicator.observe msg' t (foldl dedup_step d1 ops)).2 = false.
Proof.
  intros Hok Hnew Ho Hk Hk' Hops Hroom Ht. pose proof (zlen_nonneg ops).
  destruct (dedup_observe_keeps k msg t0 d d1 Hok ltac:(lia) Hnew Hk Ho) as (Hkept & Httl & Hcap). rewrite <- Httl in Hops, Ht. rewrite <- Hcap in Hroom.
  destruct (kept_run k t0 2 ops d1 Hkept Hops Hroom) as [Hkept' Httl']. apply (observe_refuses k t0 _ t msg' _ Hkept'); [by rewrite Httl'|done].
Qed.
End recognise.

(** A copy of the sample that crossed a bridge: other source, protocol and id, a
    sender prefix. *)
Definition sample_echo : UnifiedMessage :=
  UnifiedMessage.text (IdMeshCore (HashPrefix [7])) (IdBroadcast MeshCore) MeshCore (str "[Bob] hello world this is long").
Lemma dedup_recognises_witness :
  let d1 := (Deduplicator.observe (C := ToyCrypto.lib) sample_text 0 (Deduplicator.new 8 1000)).1 in
  (Deduplicator.observe (C := ToyCrypto.lib) sample_echo 900 (foldl (dedup_step (C := ToyCrypto.lib)) d1 [(Remember [1], 5)])).2 = false.
Proof.
  intros d1. apply (dedup_recognises (C := ToyCrypto.lib) (Deduplicator.new 8 1000) d1 sample_text sample_echo
    (default [] (Deduplicator.text_digest (C := ToyCrypto.lib) sample_text)) 0 900 [(Remember [1], 5)]).
  - apply dedup_new_ok. discriminate.
  - constructor.
  - vm_compute. reflexivity.
  - right. vm_compute. reflexivity.
  - right. vm_compute. reflexivity.
  - repeat constructor; discriminate.
  - vm_compute. discriminate.
  - vm_compute. discriminate.
Defined.
End BridgeFacts.
