(* ===== verification/Gateway.v ===== *)
(** * Detector and gateway

    [crates/meshstar-protocols/src/detector/mod.rs] and [bridge/gateway.rs], over any
    type of adapters that implements the trait: classification of frames, and the
    gateway that decodes, deduplicates, records and, in bridge mode, forwards
    between networks. *)
From stdpp Require Import base tactics list numbers sets.
From Stdlib Require Import Lia Ascii String SpecFloat.
From S2P Require Import Prelude SmallMap Float32 Protocol Radio CryptoLib Methods Text Unified Bridge.
From stdpp Require Import list.
#[local] Open Scope Z_scope.

(** ** Detector *)

Record Detection := mkDetection {
  dt_protocol : ProtocolId; dt_score : Z; dt_scores : list DetectionScore; dt_probable : option ProtocolId; dt_reason : option (list Z)
}.
Record DetectorConfig := mkDetectorConfig { dc_threshold : Z; dc_probable_threshold : Z; dc_ambiguity_margin : Z }.
Definition DetectorConfig_default : DetectorConfig := mkDetectorConfig 55 35 15.

(** [DetectorStats] as a total map from its fields. *)
Inductive DetectorStat := dst_frames | dst_meshstar | dst_meshtastic | dst_meshcore | dst_unknown | dst_ambiguous.
#[global] Instance DetectorStat_eq_dec : EqDecision DetectorStat.
Proof. solve_decision. Defined.
Definition DetectorStats : Type := DetectorStat -> Z.
Definition DetectorStats_default : DetectorStats := fun _ => 0.
Definition detector_add (k : DetectorStat) (s : DetectorStats) : DetectorStats := fun j => if decide (j = k) then u64 (s k + 1) else s j.

(** [GatewayStats] as a total map from its fields. *)
Inductive GatewayStat :=
| gst_frames_in | gst_decoded | gst_undecodable | gst_unknown_protocol | gst_duplicates | gst_policy_denied | gst_loops_prevented
| gst_translated | gst_degraded | gst_unsupported | gst_rate_limited | gst_frames_out | gst_airtime_out_ms.
#[global] Instance GatewayStat_eq_dec : EqDecision GatewayStat.
Proof. solve_decision. Defined.
Definition GatewayStats : Type := GatewayStat -> Z.
Definition GatewayStats_default : GatewayStats := fun _ => 0.
Definition gateway_add (k : GatewayStat) (n : Z) (s : GatewayStats) : GatewayStats := fun j => if decide (j = k) then u64 (s k + n) else s j.

Inductive GatewayMode := Native | Compatibility | Bridge.
#[global] Instance GatewayMode_eq_dec : EqDecision GatewayMode.
Proof. solve_decision. Defined.

Record RadioSlot := mkRadioSlot { rs_name : list Z; rs_schedule : ScanSchedule }.
Definition dedicated (name : list Z) (p : NamedProfile) : RadioSlot := mkRadioSlot name (mkSchedule [mkScanSlot p 1000]).
Definition active_profile (r : RadioSlot) (now : Z) : option NamedProfile := ss_profile <$> ScanSchedule.active (rs_schedule r) now.

(** Token bucket per destination protocol. *)
Record Bucket := mkBucket { bk_tokens : f32; bk_per_second : f32; bk_max : f32; bk_last : Z }.
Definition Bucket_take (now : Z) (b : Bucket) : Bucket * bool :=
  let dt := (f32_of (sat_sub now (bk_last b)) / f32_of 1000)%f32 in
  let tokens := f32_min (bk_tokens b + dt * bk_per_second b)%f32 (bk_max b) in
  if SFleb (f32_of 1) tokens then (mkBucket (tokens - f32_of 1)%f32 (bk_per_second b) (bk_max b) now, true)
  else (mkBucket tokens (bk_per_second b) (bk_max b) now, false).

Record SeenMessage := mkSeenMessage {
  sm_at : Z; sm_protocol : ProtocolId; sm_source : list Z; sm_channel : option (list Z); sm_text : option (list Z);
  sm_security : list Z; sm_rssi_dbm : option Z; sm_bridged_to : list ProtocolId
}.
Record SeenNetwork := mkSeenNetwork {
  sn_protocol : ProtocolId; sn_name : list Z; sn_best_rssi_dbm : Z; sn_nodes : list (list Z); sn_frames : Z; sn_last_seen : Z
}.

Section Adapters.
Context {C : CryptoLib} {A : Type} {RP : RadioProtocol A}.

Record Detector := mkDetector { de_adapters : list A; de_cfg : DetectorConfig; de_stats : DetectorStats }.
Definition Detector_new (adapters : list A) : Detector := mkDetector adapters DetectorConfig_default DetectorStats_default.

Definition adapter (id : ProtocolId) (d : Detector) : option A := find_first (fun a => bool_decide (rp_id a = id)) (de_adapters d).

(** [self.adapters.iter().map(|a| a.detect(..)).collect()] *)
Fixpoint all_scores (l : list A) (frame : list Z) (meta : RxMeta) (ctx : ProtocolContext) : outcome Empty_set (list DetectionScore) :=
  match l with
  | [] => Ok []
  | a :: l' => s ← rp_detect a frame meta ctx; r ← all_scores l' frame meta ctx; Ok (s :: r)
  end.
(** The verdict on the sorted scores: protocol, score, reason, and whether it was
    ambiguous. *)
Definition verdict (cfg : DetectorConfig) (sorted : list DetectionScore) : ProtocolId * Z * option (list Z) * bool :=
  match sorted with
  | [] => (Unknown, 0, Some (str "no adapters"), false)
  | best :: rest =>
      if decide (ds_score best >= dc_threshold cfg) then
        let runner := match rest with r :: _ => ds_score r | [] => 0 end in
        if decide (runner >= dc_threshold cfg /\ ds_score best - runner < dc_ambiguity_margin cfg) then
          (Unknown, ds_score best,
           Some (str "ambiguous: " ++ ProtocolId.name (ds_protocol best) ++ str " " ++ dec (ds_score best) ++ str " vs "
                 ++ ProtocolId.name (match rest with r :: _ => ds_protocol r | [] => Unknown end) ++ str " " ++ dec runner), true)
        else (ds_protocol best, ds_score best, None, false)
      else (Unknown, ds_score best, Some (str "best score " ++ dec (ds_score best) ++ str " below threshold " ++ dec (dc_threshold cfg)), false)
  end.
Definition stat_of (p : ProtocolId) : DetectorStat :=
  match p with MeshStar => dst_meshstar | Meshtastic => dst_meshtastic | MeshCore => dst_meshcore | Unknown => dst_unknown end.
(** The standard library's sort is stable, like the insertion sort used here. *)
Definition detect (frame : list Z) (meta : RxMeta) (ctx : ProtocolContext) (d : Detector) : outcome Empty_set (Detector * Detection) :=
  scores ← all_scores (de_adapters d) frame meta ctx;
  let sorted := sort_by_key scores (fun s => - ds_score s) in
  let probable :=
    match sorted with
    | b :: _ => if decide (ds_score b >= dc_probable_threshold (de_cfg d) /\ ds_score b < dc_threshold (de_cfg d)) then Some (ds_protocol b) else None
    | [] => None
    end in
  let '(protocol, score, reason, ambiguous) := verdict (de_cfg d) sorted in
  let stats := detector_add dst_frames (de_stats d) in
  let stats := if (ambiguous : bool) then detector_add dst_ambiguous stats else stats in
  Ok (mkDetector (de_adapters d) (de_cfg d) (detector_add (stat_of protocol) stats), mkDetection protocol score scores probable reason).
(** A decoder's error is a value here. *)
Definition classify (frame : list Z) (meta : RxMeta) (ctx : ProtocolContext) (d : Detector) :
    outcome Empty_set (Detector * (Detection * option (AdapterError + UnifiedMessage))) :=
  '(d, det) ← detect frame meta ctx d;
  if decide (dt_protocol det = Unknown) then Ok (d, (det, None)) else
  match adapter (dt_protocol det) d with
  | None => Ok (d, (det, None))
  | Some a =>
      match rp_decode a frame meta ctx with
      | Ok m => Ok (d, (det, Some (inr m)))
      | Err e => Ok (d, (det, Some (inl e)))
      | Panic => Panic
      end
  end.

(** ** Gateway *)

Record Gateway := mkGateway {
  gt_id : list Z;
  gt_mode : GatewayMode;
  gt_radios : list RadioSlot;
  gt_detector : Detector;
  gt_policy : Policy;
  gt_dedup : Deduplicator;
  gt_loops : LoopGuard;
  gt_stats : GatewayStats;
  gt_cache : list SeenMessage;
  gt_networks : list SeenNetwork;
  gt_identities : list ForeignIdentity;
  gt_sender_prefix : bool;
  gt_buckets : list (ProtocolId * Bucket);
  gt_cache_cap : Z
}.
Definition gt_upd_id (f : list Z -> list Z) (g : Gateway) : Gateway :=
  mkGateway
    (f (gt_id g)) (gt_mode g) (gt_radios g) (gt_detector g) (gt_policy g) (gt_dedup g) (gt_loops g)
    (gt_stats g) (gt_cache g) (gt_networks g) (gt_identities g) (gt_sender_prefix g) (gt_buckets g)
    (gt_cache_cap g).
Definition gt_upd_mode (f : GatewayMode -> GatewayMode) (g : Gateway) : Gateway :=
  mkGateway
    (gt_id g) (f (gt_mode g)) (gt_radios g) (gt_detector g) (gt_policy g) (gt_dedup g) (gt_loops g)
    (gt_stats g) (gt_cache g) (gt_networks g) (gt_identities g) (gt_sender_prefix g) (gt_buckets g)
    (gt_cache_cap g).
Definition gt_upd_radios (f : list RadioSlot -> list RadioSlot) (g : Gateway) : Gateway :=
  mkGateway
    (gt_id g) (gt_mode g) (f (gt_radios g)) (gt_detector g) (gt_policy g) (gt_dedup g) (gt_loops g)
    (gt_stats g) (gt_cache g) (gt_networks g) (gt_identities g) (gt_sender_prefix g) (gt_buckets g)
    (gt_cache_cap g).
Definition gt_upd_detector (f : Detector -> Detector) (g : Gateway) : Gateway :=
  mkGateway
    (gt_id g) (gt_mode g) (gt_radios g) (f (gt_detector g)) (gt_policy g) (gt_dedup g) (gt_loops g)
    (gt_stats g) (gt_cache g) (gt_networks g) (gt_identities g) (gt_sender_prefix g) (gt_buckets g)
    (gt_cache_cap g).
Definition gt_upd_policy (f : Policy -> Policy) (g : Gateway) : Gateway :=
  mkGateway
    (gt_id g) (gt_mode g) (gt_radios g) (gt_detector g) (f (gt_policy g)) (gt_dedup g) (gt_loops g)
    (gt_stats g) (gt_cache g) (gt_networks g) (gt_identities g) (gt_sender_prefix g) (gt_buckets g)
    (gt_cache_cap g).
Definition gt_upd_dedup (f : Deduplicator -> Deduplicator) (g : Gateway) : Gateway :=
  mkGateway
    (gt_id g) (gt_mode g) (gt_radios g) (gt_detector g) (gt_policy g) (f (gt_dedup g)) (gt_loops g)
    (gt_stats g) (gt_cache g) (gt_networks g) (gt_identities g) (gt_sender_prefix g) (gt_buckets g)
    (gt_cache_cap g).
Definition gt_upd_loops (f : LoopGuard -> LoopGuard) (g : Gateway) : Gateway :=
  mkGateway
    (gt_id g) (gt_mode g) (gt_radios g) (gt_detector g) (gt_policy g) (gt_dedup g) (f (gt_loops g))
    (gt_stats g) (gt_cache g) (gt_networks g) (gt_identities g) (gt_sender_prefix g) (gt_buckets g)
    (gt_cache_cap g).
Definition gt_upd_stats (f : GatewayStats -> GatewayStats) (g : Gateway) : Gateway :=
  mkGateway
    (gt_id g) (gt_mode g) (gt_radios g) (gt_detector g) (gt_policy g) (gt_dedup g) (gt_loops g)
    (f (gt_stats g)) (gt_cache g) (gt_networks g) (gt_identities g) (gt_sender_prefix g) (gt_buckets g)
    (gt_cache_cap g).
Definition gt_upd_cache (f : list SeenMessage -> list SeenMessage) (g : Gateway) : Gateway :=
  mkGateway
    (gt_id g) (gt_mode g) (gt_radios g) (gt_detector g) (gt_policy g) (gt_dedup g) (gt_loops g) (gt_stats g)
    (f (gt_cache g)) (gt_networks g) (gt_identities g) (gt_sender_prefix g) (gt_buckets g) (gt_cache_cap g).
Definition gt_upd_networks (f : list SeenNetwork -> list SeenNetwork) (g : Gateway) : Gateway :=
  mkGateway
    (gt_id g) (gt_mode g) (gt_radios g) (gt_detector g) (gt_policy g) (gt_dedup g) (gt_loops g) (gt_stats g)
    (gt_cache g) (f (gt_networks g)) (gt_identities g) (gt_sender_prefix g) (gt_buckets g) (gt_cache_cap g).
Definition gt_upd_identities (f : list ForeignIdentity -> list ForeignIdentity) (g : Gateway) : Gateway :=
  mkGateway
    (gt_id g) (gt_mode g) (gt_radios g) (gt_detector g) (gt_policy g) (gt_dedup g) (gt_loops g) (gt_stats g)
    (gt_cache g) (gt_networks g) (f (gt_identities g)) (gt_sender_prefix g) (gt_buckets g) (gt_cache_cap g).
Definition gt_upd_sender_prefix (f : bool -> bool) (g : Gateway) : Gateway :=
  mkGateway
    (gt_id g) (gt_mode g) (gt_radios g) (gt_detector g) (gt_policy g) (gt_dedup g) (gt_loops g) (gt_stats g)
    (gt_cache g) (gt_networks g) (gt_identities g) (f (gt_sender_prefix g)) (gt_buckets g) (gt_cache_cap g).
Definition gt_upd_buckets (f : list (ProtocolId * Bucket) -> list (ProtocolId * Bucket)) (g : Gateway) : Gateway :=
  mkGateway
    (gt_id g) (gt_mode g) (gt_radios g) (gt_detector g) (gt_policy g) (gt_dedup g) (gt_loops g) (gt_stats g)
    (gt_cache g) (gt_networks g) (gt_identities g) (gt_sender_prefix g) (f (gt_buckets g)) (gt_cache_cap g).
Definition gt_upd_cache_cap (f : Z -> Z) (g : Gateway) : Gateway :=
  mkGateway
    (gt_id g) (gt_mode g) (gt_radios g) (gt_detector g) (gt_policy g) (gt_dedup g) (gt_loops g) (gt_stats g)
    (gt_cache g) (gt_networks g) (gt_identities g) (gt_sender_prefix g) (gt_buckets g) (f (gt_cache_cap g)).

Definition gateway_new (id : list Z) (detector : Detector) : Gateway :=
  mkGateway id Native [] detector Policy.deny_all (Deduplicator.new 512 (10 * 60 * 1000)) (LoopGuard.new id) GatewayStats_default
    [] [] [] true [] 256.

Notation M := (St Gateway Error).
Definition count_stat (k : GatewayStat) : M unit := modify (gt_upd_stats (gateway_add k 1)).
(** A panic of a component that returns no error. *)
Definition or_panic {X} (o : outcome Empty_set X) : M X :=
  lift match o with Ok x => Ok x | Err e => match e with end | Panic => Panic end.

Definition set_rate_limit (to : ProtocolId) (per_minute : f32) (burst : Z) (g : Gateway) : Gateway :=
  gt_upd_buckets (fun bs => retain (fun b => negb (bool_decide (b.1 = to))) bs ++
    [(to, mkBucket (f32_of burst) (per_minute / f32_of 60)%f32 (f32_of burst) 0)]) g.
Definition bucket_take (to : ProtocolId) (now : Z) (g : Gateway) : option (Gateway * bool) :=
  match find_first (fun b => bool_decide (b.1 = to)) (gt_buckets g) with
  | Some (_, b) =>
      let '(b', ok) := Bucket_take now b in
      Some (gt_upd_buckets (update_first (fun e => bool_decide (e.1 = to)) (fun e => (e.1, b'))) g, ok)
  | None => None
  end.
(** The recursive call after the default limit was set finds it. *)
Definition bucket (to : ProtocolId) (now : Z) : M bool := fun g =>
  match bucket_take to now g with
  | Some (g', ok) => (g', Ok ok)
  | None =>
      match bucket_take to now (set_rate_limit to (f32_of 6) 3 g) with
      | Some (g', ok) => (g', Ok ok)
      | None => (g, Ok false)
      end
  end.

(** The tail of [bridge_one], once the rate limit has let the message through. *)
Definition transmit (to : ProtocolId) (ctx : ProtocolContext) (out : UnifiedMessage) : M (option OutboundFrame) :=
  stamped ← gets (fun g => LoopGuard.stamp to (cx_now_ms ctx) (gt_loops g) out);
  ad ← gets (fun g => adapter to (gt_detector g));
  match ad with
  | None => mret None
  | Some a =>
      match rp_encode a stamped ctx with
      | Panic => lift Panic
      | Err _ => mret None
      | Ok frame =>
          modify (gt_upd_dedup (fun d => match Deduplicator.text_digest stamped with
                                         | Some t => Deduplicator.remember_digest t (cx_now_ms ctx) d
                                         | None => d
                                         end));;
          count_stat gst_translated;;
          count_stat gst_frames_out;;
          air ← lift (LoRaProfile.airtime_ms (of_profile frame) (zlen (of_bytes frame)));
          modify (gt_upd_stats (gateway_add gst_airtime_out_ms air));;
          mret (Some frame)
      end
  end.
Definition bridge_one (msg : UnifiedMessage) (to : ProtocolId) (ctx : ProtocolContext) : M (option OutboundFrame) :=
  decision ← gets (fun g => Policy.evaluate (gt_policy g) msg to);
  if negb (pd_allowed decision) then count_stat gst_policy_denied;; mret None else
  v ← call gt_loops gt_upd_loops (LoopGuard.check msg to);
  match v with
  | LoopOk =>
      ad ← gets (fun g => adapter to (gt_detector g));
      match ad with
      | None => mret None
      | Some a =>
          g ← gets id;
          '(translated, outcome) ← or_panic (translate msg to (rp_capabilities a) (gt_id g) (cx_now_ms ctx) (gt_sender_prefix g));
          match outcome with
          | TrUnsupported _ => count_stat gst_unsupported;; mret None
          | _ =>
              when (match outcome with Degraded _ => true | _ => false end) (count_stat gst_degraded);;
              match translated with
              | None => mret None
              | Some out =>
                  ok ← bucket to (cx_now_ms ctx);
                  if negb ok then count_stat gst_rate_limited;; mret None else transmit to ctx out
              end
          end
      end
  | _ => count_stat gst_loops_prevented;; mret None
  end.
(** [for to in targets { if let Some(f) = self.bridge_one(..) { out.push(f) } }] *)
Fixpoint bridge_targets (msg : UnifiedMessage) (targets : list ProtocolId) (ctx : ProtocolContext) : M (list OutboundFrame) :=
  match targets with
  | [] => mret []
  | to :: targets' =>
      f ← bridge_one msg to ctx;
      rest ← bridge_targets msg targets' ctx;
      mret (match f with Some f => f :: rest | None => rest end)
  end.
Definition bridge_all (msg : UnifiedMessage) (ctx : ProtocolContext) : M (list OutboundFrame) :=
  mode ← gets gt_mode;
  if decide (mode <> Bridge) then mret [] else
  targets ← gets (fun g => retain (fun p => negb (bool_decide (p = um_protocol msg))) (rp_id <$> de_adapters (gt_detector g)));
  bridge_targets msg targets ctx.
Definition bridge_message (msg : UnifiedMessage) (ctx : ProtocolContext) : M (list OutboundFrame) :=
  fresh ← call gt_dedup gt_upd_dedup (Deduplicator.observe msg (cx_now_ms ctx));
  if negb fresh then count_stat gst_duplicates;; mret [] else bridge_all msg ctx.

Definition network_name (msg : UnifiedMessage) : list Z :=
  match um_channel msg with
  | Some c => c
  | None => match um_protocol msg with MeshStar => str "local-zone" | _ => str "default" end
  end.
Definition observe_network (msg : UnifiedMessage) (meta : RxMeta) (now : Z) (l : list SeenNetwork) : list SeenNetwork :=
  let name := network_name msg in
  let src := IdentityRef.canonical (um_source msg) in
  let here n := bool_decide (sn_protocol n = um_protocol msg) && bool_decide (sn_name n = name) in
  match find_first here l with
  | Some _ =>
      update_first here (fun n =>
        mkSeenNetwork (sn_protocol n) (sn_name n) (Z.max (sn_best_rssi_dbm n) (rssi_dbm meta))
          (if negb (bool_decide (src ∈ sn_nodes n)) && bool_decide (zlen (sn_nodes n) < 256) then sn_nodes n ++ [src] else sn_nodes n)
          (u64 (sn_frames n + 1)) now) l
  | None =>
      if decide (zlen l < 64) then l ++ [mkSeenNetwork (um_protocol msg) name (rssi_dbm meta) [src] 1 now] else l
  end.

Definition display_name (msg : UnifiedMessage) : option (list Z) :=
  or_else (or_else (UnifiedMessage.meta msg (str "long_name")) (UnifiedMessage.meta msg (str "name"))) (UnifiedMessage.meta msg (str "sender_name")).
Definition refresh_identity (msg : UnifiedMessage) (meta : RxMeta) (now : Z) (f : ForeignIdentity) : ForeignIdentity :=
  let f := mkForeign (fi_protocol f) (fi_native_id f) (match display_name msg with Some n => Some n | None => fi_display_name f end)
    (fi_short_name f) (fi_observed_keys f) (fi_first_seen f) now (Some (rssi_dbm meta)) (Some (snr_db meta)) (fi_metadata f) in
  match UnifiedMessage.meta msg (str "public_key") with
  | None => f
  | Some k =>
      let '(f, conflict) := ForeignIdentity.observe_key k f in
      if conflict
      then mkForeign (fi_protocol f) (fi_native_id f) (fi_display_name f) (fi_short_name f) (fi_observed_keys f) (fi_first_seen f)
             (fi_last_seen f) (fi_last_rssi_dbm f) (fi_last_snr_db f) (fi_metadata f ++ [(str "key_conflict", str "true")])
      else f
  end.
Definition first_identity (msg : UnifiedMessage) (meta : RxMeta) (now : Z) : ForeignIdentity :=
  let f := ForeignIdentity.new (um_source msg) now in
  let f := mkForeign (fi_protocol f) (fi_native_id f) (display_name msg) (fi_short_name f) (fi_observed_keys f) (fi_first_seen f)
    (fi_last_seen f) (Some (rssi_dbm meta)) (Some (snr_db meta)) (fi_metadata f) in
  match UnifiedMessage.meta msg (str "public_key") with Some k => (ForeignIdentity.observe_key k f).1 | None => f end.
Definition observe_identity (msg : UnifiedMessage) (meta : RxMeta) (now : Z) (l : list ForeignIdentity) : list ForeignIdentity :=
  if IdentityRef.is_broadcast (um_source msg) then l else
  let here f := bool_decide (fi_native_id f = um_source msg) in
  match find_first here l with
  | Some _ => update_first here (refresh_identity msg meta now) l
  | None => if decide (zlen l < 512) then l ++ [first_identity msg meta now] else l
  end.

(** [if self.cache.len() >= self.cache_cap { self.cache.remove(0); } self.cache.push(record)]:
    removing from an empty vector panics. *)
Definition push_cache (record : SeenMessage) : M unit :=
  g ← gets id;
  if decide (zlen (gt_cache g) >= gt_cache_cap g) then
    match gt_cache g with
    | [] => lift Panic
    | _ :: rest => modify (gt_upd_cache (fun _ => rest ++ [record]))
    end
  else modify (gt_upd_cache (fun c => c ++ [record])).

Definition on_frame (frame : list Z) (meta : RxMeta) (ctx : ProtocolContext) : M (Detection * option UnifiedMessage * list OutboundFrame) :=
  count_stat gst_frames_in;;
  d ← gets gt_detector;
  '(d, (det, decoded)) ← or_panic (classify frame meta ctx d);
  modify (gt_upd_detector (fun _ => d));;
  match decoded with
  | None => count_stat gst_unknown_protocol;; mret (det, None, [])
  | Some (inl _) => count_stat gst_undecodable;; mret (det, None, [])
  | Some (inr msg) =>
      count_stat gst_decoded;;
      modify (gt_upd_networks (observe_network msg meta (cx_now_ms ctx)));;
      modify (gt_upd_identities (observe_identity msg meta (cx_now_ms ctx)));;
      fresh ← call gt_dedup gt_upd_dedup (Deduplicator.observe msg (cx_now_ms ctx));
      if negb fresh then count_stat gst_duplicates;; mret (det, None, []) else
      out ← bridge_all msg ctx;
      push_cache (mkSeenMessage (cx_now_ms ctx) (um_protocol msg) (IdentityRef.canonical (um_source msg)) (um_channel msg)
        (UnifiedMessage.text_payload msg) (SecurityLevel.label (um_security msg)) (Some (rssi_dbm meta)) (of_protocol <$> out));;
      mret (det, Some msg, out)
  end.

Fixpoint periodic_all (l : list A) (ctx : ProtocolContext) : outcome Empty_set (list A * list OutboundFrame) :=
  match l with
  | [] => Ok ([], [])
  | a :: l' =>
      '(a, out) ← (if decide (rp_id a <> MeshStar) then rp_periodic a ctx else Ok (a, []));
      '(l', rest) ← periodic_all l' ctx;
      Ok (a :: l', out ++ rest)
  end.
Definition periodic (ctx : ProtocolContext) (g : Gateway) : outcome Empty_set (Gateway * list OutboundFrame) :=
  if decide (gt_mode g = Native) then Ok (g, []) else
  '(l, out) ← periodic_all (de_adapters (gt_detector g)) ctx;
  Ok (gt_upd_detector (fun d => mkDetector l (de_cfg d) (de_stats d)) g, out).

Definition profile_now (radio : nat) (now : Z) (g : Gateway) : option LoRaProfile :=
  r ← gt_radios g !! radio; np_profile <$> active_profile r now.
Definition gateway_expire (now max_age_ms : Z) (g : Gateway) : Gateway :=
  gt_upd_identities (retain (fun i => bool_decide (sat_sub now (fi_last_seen i) <= max_age_ms)))
    (gt_upd_networks (retain (fun n => bool_decide (sat_sub now (sn_last_seen n) <= max_age_ms))) g).
Definition reply_frame (original : UnifiedMessage) (text : list Z) (ctx : ProtocolContext) (g : Gateway) : outcome AdapterError OutboundFrame :=
  a ← ok_or (adapter (um_protocol original) (gt_detector g)) (Unsupported (str "no adapter"));
  rc ← ok_or (rp_reply_context a original) (Unsupported (str "no reply context"));
  let me := match cx_local ctx with Some l => li_id l | None => IdBroadcast (rc_protocol rc) end in
  let m := UnifiedMessage.text me (rc_to rc) (rc_protocol rc) text in
  let m := UM.set_reply_to (rc_reply_to_id rc) (UM.set_channel (rc_channel rc) m) in
  let m := match rc_routing_hint rc with [] => m | h => UnifiedMessage.set_meta (str "path") (hex_encode h) m end in
  rp_encode a m ctx.
End Adapters.
Arguments Detector A : clear implicits.
Arguments Gateway A : clear implicits.
