(* ===== verification/GatewayMain.v ===== *)
(** * The gateway's theorems

    Proved against the adapter contract: the gateway returns from every call,
    keeps its tables within their limits, and sends only what its policy, loop
    guard and translation let through. *)
From stdpp Require Import base tactics list numbers sets sorting.
From Stdlib Require Import Lia Ascii String.
From S2P Require Import Prelude SmallMap Float32 Protocol Radio CryptoLib Methods Calculus Text Unified Bridge Gateway.
From stdpp Require Import list.
#[local] Open Scope Z_scope.
Import SmallMapFacts UnifiedFacts BridgeFacts.

(** The method returns, in a state and with a result in [Q]. *)
Notation returns m Q := (wpe m Q (fun _ => False)).

Section Facts.
Context {C : CryptoLib} {A : Type} {RP : RadioProtocol A} {ok : A -> Prop} `{!AdapterContract A ok}.
Implicit Types g : Gateway A.

(** ** What bridging one message may change *)

Definition same_config g g' : Prop :=
  gt_id g' = gt_id g /\ gt_mode g' = gt_mode g /\ gt_radios g' = gt_radios g /\ gt_detector g' = gt_detector g /\ gt_policy g' = gt_policy g /\
  gt_cache g' = gt_cache g /\ gt_networks g' = gt_networks g /\ gt_identities g' = gt_identities g /\
  gt_sender_prefix g' = gt_sender_prefix g /\ gt_cache_cap g' = gt_cache_cap g /\
  lg_gateway_id (gt_loops g') = lg_gateway_id (gt_loops g) /\ lg_max_crossings (gt_loops g') = lg_max_crossings (gt_loops g).
#[local] Instance same_config_pre : PreOrder same_config.
Proof.
  split; [by intros g; split_and!|]. intros g1 g2 g3 H1 H2. unfold same_config in *. destruct_and!. split_and!; congruence.
Qed.

(** The limits of one state, with room for [extra] more queue entries. *)
Definition buckets_ok (bs : list (ProtocolId * Bucket)) : Prop := NoDup bs.*1.
Definition limits (extra : Z) g : Prop :=
  Forall ok (de_adapters (gt_detector g)) /\ 1 <= gt_cache_cap g /\ zlen (gt_cache g) <= gt_cache_cap g /\
  zlen (gt_networks g) <= 64 /\ Forall (fun n => zlen (sn_nodes n) <= 256) (gt_networks g) /\ zlen (gt_identities g) <= 512 /\
  lg_gateway_id (gt_loops g) = gt_id g /\ buckets_ok (gt_buckets g) /\ dedup_ok (gt_dedup g) /\ dd_cap (gt_dedup g) = 512 /\
  zlen (dd_order (gt_dedup g)) <= 512 + extra.

Lemma limits_mono n m g : n <= m -> limits n g -> limits m g.
Proof. unfold limits. intros Hn Hg. destruct_and!. split_and!; try done. lia. Qed.
Lemma limits_config extra extra' g g' :
  same_config g g' -> limits extra g -> buckets_ok (gt_buckets g') -> dedup_ok (gt_dedup g') -> dd_cap (gt_dedup g') = 512 ->
  zlen (dd_order (gt_dedup g')) <= 512 + extra' -> limits extra' g'.
Proof.
  intros Hc Hg Hb Hd Hcap Ho. unfold same_config, limits in *. destruct_and!. repeat match goal with H : _ = _ |- _ => rewrite H end. by split_and!.
Qed.

(** A frame on its way out passed policy, loop guard and translation. *)
Definition sent g (msg : UnifiedMessage) (ctx : ProtocolContext) (f : OutboundFrame) : Prop :=
  let to := of_protocol f in
  gt_mode g = Bridge /\ to <> um_protocol msg /\ pd_allowed (Policy.evaluate (gt_policy g) msg to) = true /\
  exists a out outc,
    adapter to (gt_detector g) = Some a /\ crosses (gt_loops g) to msg (LoopGuard.stamp to (cx_now_ms ctx) (gt_loops g) out) /\
    translate msg to (rp_capabilities a) (gt_id g) (cx_now_ms ctx) (gt_sender_prefix g) = Ok (Some out, outc) /\
    rp_encode a (LoopGuard.stamp to (cx_now_ms ctx) (gt_loops g) out) ctx = Ok f.

Lemma check_config msg to (l l' : LoopGuard) :
  lg_gateway_id l' = lg_gateway_id l -> lg_max_crossings l' = lg_max_crossings l -> (LoopGuard.check msg to l').2 = (LoopGuard.check msg to l).2.
Proof.
  intros Hi Hm. unfold LoopGuard.check. destruct (lg_stats l), (lg_stats l'). rewrite Hi, Hm. case_decide; [done|].
  destruct (existsb _ _); [done|]. by destruct (_ || _).
Qed.
Lemma stamp_config to now out (l l' : LoopGuard) : lg_gateway_id l' = lg_gateway_id l -> LoopGuard.stamp to now l' out = LoopGuard.stamp to now l out.
Proof. intros Hi. unfold LoopGuard.stamp. by rewrite Hi. Qed.
Lemma crosses_config to msg m' (l l' : LoopGuard) :
  lg_gateway_id l' = lg_gateway_id l -> lg_max_crossings l' = lg_max_crossings l -> crosses l' to msg m' -> crosses l to msg m'.
Proof.
  intros Hi Hm [Hc (caps & now & pre & out & outc & Ht & ->)]. split; [by rewrite <- (check_config msg to l l')|].
  exists caps, now, pre, out, outc. rewrite <- Hi. split; [done|]. by apply stamp_config.
Qed.
Lemma sent_config g g' msg ctx f : same_config g g' -> sent g' msg ctx f -> sent g msg ctx f.
Proof.
  intros Hc (Hm & Hne & Hp & a & out & outc & Ha & Hx & Ht & He). unfold same_config in Hc. destruct_and!.
  split; [congruence|]. split; [done|]. split; [congruence|]. exists a, out, outc.
  rewrite (stamp_config _ _ _ (gt_loops g)) in Hx, He by done.
  split; [congruence|]. split; [by eapply crosses_config|]. split; [congruence|done].
Qed.

(** ** One target *)

Definition bridged msg to ctx g (extra : Z) (g' : Gateway A) (f : option OutboundFrame) : Prop :=
  same_config g g' /\ limits (extra + 1) g' /\ match f with Some f => of_protocol f = to /\ sent g msg ctx f | None => True end.

Lemma count_stat_returns k g Q : Q (gt_upd_stats (gateway_add k 1) g) () -> returns (count_stat k) Q g.
Proof. done. Qed.
Lemma or_panic_returns {X} (x : X) g Q : Q g x -> returns (or_panic (Ok x)) Q g.
Proof. done. Qed.
Lemma set_rate_limit_buckets to per burst g : buckets_ok (gt_buckets g) -> buckets_ok (gt_buckets (set_rate_limit to per burst g)).
Proof.
  unfold buckets_ok, set_rate_limit. cbn. rewrite fmap_app. intros Hb. apply NoDup_app. split_and!.
  - eapply sublist_NoDup; [done|]. apply fmap_sublist, retain_sublist.
  - intros p (b & -> & [Hn _]%elem_of_retain)%list_elem_of_fmap. cbn. rewrite list_elem_of_singleton. intros Heq.
    by rewrite bool_decide_true in Hn.
  - apply NoDup_singleton.
Qed.
Lemma bucket_returns to now extra g :
  limits extra g -> returns (bucket to now) (fun g' _ => same_config g g' /\ limits extra g') g.
Proof.
  assert (Hupd : forall g bs, limits extra g -> buckets_ok bs -> same_config g (gt_upd_buckets (fun _ => bs) g) /\ limits extra (gt_upd_buckets (fun _ => bs) g)).
  { intros h bs Hg Hb. split; [by split_and!|]. unfold limits in *. by destruct_and!; split_and!. }
  assert (Htake : forall g r, limits extra g -> bucket_take to now g = Some r -> same_config g r.1 /\ limits extra r.1).
  { intros h r Hg. unfold bucket_take. destruct (find_first _ _) as [[p b]|]; [|done]. destruct (Bucket_take now b) as [b' okb]. intros [= <-].
    apply (Hupd h (update_first _ _ (gt_buckets h)) Hg). unfold buckets_ok. rewrite (fmap_update_first fst) by done. apply Hg. }
  intros Hg. unfold bucket, wpe. destruct (bucket_take to now g) as [[g1 ok1]|] eqn:E1; [by apply (Htake g (g1, ok1))|].
  assert (Hs : same_config g (set_rate_limit to (f32_of 6) 3 g) /\ limits extra (set_rate_limit to (f32_of 6) 3 g)).
  { apply (Hupd g (gt_buckets (set_rate_limit to (f32_of 6) 3 g)) Hg). apply set_rate_limit_buckets, Hg. }
  destruct (bucket_take to now (set_rate_limit _ _ _ g)) as [[g2 ok2]|] eqn:E2; [|done].
  destruct (Htake _ (g2, ok2) (proj2 Hs) E2) as [H1 H2]. split; [|done]. etransitivity; [apply Hs|done].
Qed.

Lemma remember_order k now (d : Deduplicator) : zlen (dd_order (Deduplicator.remember_digest k now d)) = zlen (dd_order d) + 1.
Proof. cbn. by rewrite zlen_app. Qed.

(** What [transmit] needs of the message: its source and metadata are text. *)
Lemma translate_text_ok msg to caps gwid now pre out outc :
  text_ok msg -> 3 <= cap_max_text_bytes caps < 2 ^ 32 -> translate msg to caps gwid now pre = Ok (Some out, outc) ->
  text_ok out /\ um_destination out = IdBroadcast to.
Proof.
  intros Hm Hcap. unfold translate. destruct (translate_content_ok msg caps pre Hm (proj1 Hcap)) as ([what|[payload losses]] & -> & Hr);
    cbn [mbind outcome_bind]; [discriminate|]. destruct Hr as [_ Hcar].
  assert (Hlen : zlen payload < 2 ^ 32).
  { unfold carried in Hcar. destruct (um_content_type msg); try (rewrite Hcar; apply Hm); [lia|]. destruct Hcar as [-> _]. apply Hm. }
  assert (Hmark : forall o, um_source o = um_source msg -> um_protocol_metadata o = um_protocol_metadata msg -> um_payload o = payload ->
    text_ok (mark_bridged msg to gwid now o) /\ um_destination (mark_bridged msg to gwid now o) = IdBroadcast to).
  { intros o Hs Hmd Hpl. split; [|done].
    apply (text_ok_fields (UnifiedMessage.set_meta (str "bridged_at") (dec now) (UnifiedMessage.set_meta (str "bridged_source") (IdentityRef.canonical (um_source msg))
      (UnifiedMessage.set_meta (str "bridged_from") (ProtocolId.name (um_protocol msg)) o)))); [reflexivity..|change (zlen (um_payload o) < 2 ^ 32); by rewrite Hpl|].
    apply set_meta_text; [|apply dec_encoded]. apply set_meta_text; [|apply canonical_ascii, Hm].
    apply set_meta_text; [|destruct (um_protocol msg); by apply lit_encoded]. apply (text_ok_fields msg); [done|done|by rewrite Hpl|done]. }
  destruct (_ && negb (cap_replies caps)), (_ && negb (cap_acknowledgements caps)); intros [= <- _]; by apply Hmark.
Qed.

Lemma transmit_returns msg to ctx g0 extra g out outc a :
  same_config g0 g -> gt_mode g0 = Bridge -> to <> um_protocol msg -> limits extra g -> ctx_ok ctx -> text_ok msg ->
  pd_allowed (Policy.evaluate (gt_policy g0) msg to) = true -> (LoopGuard.check msg to (gt_loops g0)).2 = LoopOk ->
  adapter to (gt_detector g0) = Some a ->
  translate msg to (rp_capabilities a) (gt_id g0) (cx_now_ms ctx) (gt_sender_prefix g0) = Ok (Some out, outc) ->
  returns (transmit to ctx out) (bridged msg to ctx g0 extra) g.
Proof.
  intros Hc Hmode Hne Hg Hctx Hm Hp Hl Ha Ht. pose proof Hc as (Hid & _ & _ & Hdet & _ & _ & _ & _ & _ & _ & Hlg & Hmx).
  apply find_first_Some in Ha as Ha'. destruct Ha' as [Haid%bool_decide_eq_true Hain].
  assert (Hok : ok a). { destruct Hg as [Hall _]. rewrite Hdet in Hall. rewrite Forall_forall in Hall. by apply Hall. }
  destruct (translate_text_ok _ _ _ _ _ _ _ _ Hm (text_room a Hok) Ht) as [Hto Hdst].
  unfold transmit. do 2 (apply wpe_bind, wpe_gets). rewrite Hdet, Ha, (stamp_config to _ out (gt_loops g0)) by done.
  set (st := LoopGuard.stamp to (cx_now_ms ctx) (gt_loops g0) out).
  assert (Hst : text_ok st /\ identity_ok (um_destination st)).
  { unfold st, LoopGuard.stamp. destruct (um_bridge_origin out); cbn; rewrite Hdst; by split. }
  destruct (rp_encode a st ctx) as [f|e|] eqn:He.
  - destruct (encode_fits a st ctx f Hok Hctx (proj1 Hst) (proj2 Hst) He) as (Hfp & Hfprof & Hflen). rewrite Haid in Hfp.
    destruct (RadioFacts.airtime_ms_ok (of_profile f) (zlen (of_bytes f))) as (air & Hair & _); [rewrite Hfprof; apply Hctx|lia|].
    apply wpe_bind, wpe_modify. do 2 (apply wpe_bind; apply count_stat_returns). apply wpe_bind. rewrite Hair.
    apply wpe_bind, wpe_modify, wpe_ret. split; [etransitivity; [exact Hc|repeat split]|]. split.
    + apply (limits_config extra (extra + 1) g); [repeat split|exact Hg|apply Hg|..]; cbn -[zlen]; destruct (Deduplicator.text_digest st); try apply Hg.
      * apply remember_digest_ok, Hg.
      * rewrite remember_order. destruct Hg as (_ & _ & _ & _ & _ & _ & _ & _ & _ & _ & Ho). lia.
      * destruct Hg as (_ & _ & _ & _ & _ & _ & _ & _ & _ & _ & Ho). lia.
    + unfold st in *. clear st. clear Haid. subst to. split; [done|]. split; [done|]. split; [done|]. split; [done|]. exists a, out, outc. split; [done|]. split; [|by split].
      split; [done|]. exists (rp_capabilities a), (cx_now_ms ctx), (gt_sender_prefix g0), out, outc. split; [|done].
      destruct Hg as (_ & _ & _ & _ & _ & _ & Hgid & _). rewrite Hlg, Hid in Hgid. by rewrite Hgid.
  - apply wpe_ret. split; [done|]. split; [by eapply limits_mono, Hg; lia|done].
  - exfalso. by apply (encode_safe a st ctx Hok Hctx (proj1 Hst) (proj2 Hst)).
Qed.

Lemma limits_stats extra n k g : limits extra g -> limits extra (gt_upd_stats (gateway_add k n) g).
Proof. done. Qed.
(** A refusal: some counter moved, nothing goes out. *)
Lemma bridged_refused msg to ctx g0 extra g k :
  same_config g0 g -> limits extra g -> bridged msg to ctx g0 extra (gt_upd_stats (gateway_add k 1) g) None.
Proof. intros Hc Hg. split; [done|]. split; [|done]. eapply limits_mono; [|exact (limits_stats extra 1 k g Hg)]. lia. Qed.

Lemma limited_transmit msg to ctx g0 extra g o outc a :
  same_config g0 g -> gt_mode g0 = Bridge -> to <> um_protocol msg -> limits extra g -> ctx_ok ctx -> text_ok msg ->
  pd_allowed (Policy.evaluate (gt_policy g0) msg to) = true -> (LoopGuard.check msg to (gt_loops g0)).2 = LoopOk ->
  adapter to (gt_detector g0) = Some a ->
  translate msg to (rp_capabilities a) (gt_id g0) (cx_now_ms ctx) (gt_sender_prefix g0) = Ok (o, outc) ->
  returns (match o with
           | None => mret None
           | Some out => ok ← bucket to (cx_now_ms ctx); if negb ok then count_stat gst_rate_limited;; mret None else transmit to ctx out
           end) (bridged msg to ctx g0 extra) g.
Proof.
  intros Hc Hmode Hne Hg Hctx Hm Hp Hl Ha Ht. destruct o as [out|]; [|apply wpe_ret; split; [done|]; split; [by eapply limits_mono, Hg; lia|done]].
  apply wpe_bind. eapply wpe_mono; [by apply bucket_returns| |done]. intros g2 okb [Hc2 Hg2]. assert (same_config g0 g2) by (by etransitivity).
  destruct okb; cbn [negb]; [by eapply transmit_returns|]. apply wpe_bind, count_stat_returns, wpe_ret. by apply bridged_refused.
Qed.

Lemma bridge_one_returns msg to ctx extra g :
  limits extra g -> gt_mode g = Bridge -> to <> um_protocol msg -> ctx_ok ctx -> text_ok msg ->
  returns (bridge_one msg to ctx) (bridged msg to ctx g extra) g.
Proof.
  intros Hg Hmode Hne Hctx Hm. unfold bridge_one. apply wpe_bind, wpe_gets.
  destruct (pd_allowed (Policy.evaluate (gt_policy g) msg to)) eqn:Hp; cbn [negb].
  2: { apply wpe_bind, count_stat_returns, wpe_ret. by apply bridged_refused. }
  apply wpe_bind, wpe_call. destruct (LoopGuard.check msg to (gt_loops g)) as [l v] eqn:El. cbn [fst snd].
  set (g1 := gt_upd_loops (fun _ => l) g).
  assert (Hl : lg_gateway_id l = lg_gateway_id (gt_loops g) /\ lg_max_crossings l = lg_max_crossings (gt_loops g)).
  { unfold LoopGuard.check in El. destruct (lg_stats (gt_loops g)). case_decide; [by simplify_eq|]. destruct (existsb _ _); [by simplify_eq|].
    destruct (_ || _); by simplify_eq. }
  destruct Hl as [Hl1 Hl2]. assert (Hc1 : same_config g g1) by (by repeat split).
  assert (Hg1 : limits extra g1).
  { unfold limits in *. destruct_and!. split_and!; try done. unfold g1. cbn. congruence. }
  destruct v; try (apply wpe_bind, count_stat_returns, wpe_ret; by apply bridged_refused).
  apply wpe_bind, wpe_gets. change (gt_detector g1) with (gt_detector g).
  destruct (adapter to (gt_detector g)) as [a|] eqn:Ha; [|apply wpe_ret; split; [done|]; split; [by eapply limits_mono, Hg1; lia|done]].
  apply wpe_bind, wpe_gets. cbn [id]. change (gt_id g1) with (gt_id g). change (gt_sender_prefix g1) with (gt_sender_prefix g).
  pose proof Ha as [_ Hain]%find_first_Some. assert (Hok : ok a) by (destruct Hg as [Hall _]; rewrite Forall_forall in Hall; by apply Hall).
  destruct (translate_returns msg to (rp_capabilities a) (gt_id g) (cx_now_ms ctx) (gt_sender_prefix g) Hm (proj1 (text_room a Hok))) as ([o outc] & Ht).
  rewrite Ht. apply wpe_bind, or_panic_returns.
  destruct outc as [|losses|what].
  - apply wpe_bind, wpe_ret. eapply limited_transmit; rewrite ?El; done.
  - apply wpe_bind, count_stat_returns. eapply limited_transmit; rewrite ?El; done.
  - apply wpe_bind, count_stat_returns, wpe_ret. by apply bridged_refused.
Qed.

(** ** All targets, and the calls of the gateway *)

Lemma bridge_targets_returns msg targets ctx extra g :
  Forall (fun to => to <> um_protocol msg) targets -> limits extra g -> gt_mode g = Bridge -> ctx_ok ctx -> text_ok msg ->
  returns (bridge_targets msg targets ctx)
    (fun g' out => same_config g g' /\ limits (extra + zlen targets) g' /\ Forall (sent g msg ctx) out /\ of_protocol <$> out `sublist_of` targets) g.
Proof.
  intros Ht. revert extra g. induction Ht as [|to targets Hne Ht IH]; intros extra g Hg Hmode Hctx Hm; cbn [bridge_targets].
  - apply wpe_ret. rewrite zlen_nil. split; [done|]. split; [by replace (extra + 0) with extra by lia|]. by split.
  - apply wpe_bind. eapply wpe_mono; [by apply bridge_one_returns| |done]. intros g1 f (Hc1 & Hg1 & Hf). apply wpe_bind.
    eapply wpe_mono; [apply (IH (extra + 1)); try done; by rewrite (proj1 (proj2 Hc1))| |done].
    intros g2 out (Hc2 & Hg2 & Hout & Hsub). apply wpe_ret. split; [by etransitivity|]. rewrite zlen_cons. split; [eapply limits_mono, Hg2; lia|].
    assert (Hout' : Forall (sent g msg ctx) out) by (eapply Forall_impl; [exact Hout|intros; by eapply sent_config]).
    destruct f as [f|]; [|split; [done|by apply sublist_cons]]. destruct Hf as [<- Hf]. split; [by constructor|]. by apply sublist_skip.
Qed.
Definition targets_of msg g : list ProtocolId := retain (fun p => negb (bool_decide (p = um_protocol msg))) (rp_id <$> de_adapters (gt_detector g)).
Lemma targets_other msg g : Forall (fun to => to <> um_protocol msg) (targets_of msg g).
Proof. apply Forall_forall. intros p [Hp _]%elem_of_retain ->. by rewrite bool_decide_true in Hp. Qed.
Definition adapters_count g : Z := zlen (de_adapters (gt_detector g)).
Lemma targets_count msg g : zlen (targets_of msg g) <= adapters_count g.
Proof.
  unfold targets_of, adapters_count, zlen. pose proof (length_retain (fun p => negb (bool_decide (p = um_protocol msg))) (rp_id <$> de_adapters (gt_detector g))) as H.
  rewrite length_fmap in H. lia.
Qed.
Lemma bridge_all_returns msg ctx g :
  limits 0 g -> ctx_ok ctx -> text_ok msg ->
  returns (bridge_all msg ctx)
    (fun g' out => same_config g g' /\ limits (adapters_count g) g' /\ Forall (sent g msg ctx) out) g.
Proof.
  intros Hg Hctx Hm. unfold bridge_all. apply wpe_bind, wpe_gets. case_decide as Hmode.
  - apply wpe_ret. split; [done|]. split; [eapply limits_mono, Hg; unfold adapters_count; apply zlen_nonneg|done].
  - apply wpe_bind, wpe_gets. assert (Hb : gt_mode g = Bridge) by (destruct (decide (gt_mode g = Bridge)); [done|by destruct Hmode]).
    eapply wpe_mono; [exact (bridge_targets_returns msg (targets_of msg g) ctx 0 g (targets_other msg g) Hg Hb Hctx Hm)|..].
    + intros g' out (Hc & Hl & Hs & _). split; [done|]. split; [|done]. eapply limits_mono, Hl. pose proof (targets_count msg g). lia.
    + done.
Qed.

(** The gateway between calls. *)
Definition gateway_ok g : Prop := limits (adapters_count g) g.

(** A fresh message leaves the queue within the capacity. *)
Lemma observe_returns msg now g :
  gateway_ok g ->
  returns (call gt_dedup gt_upd_dedup (Deduplicator.observe msg now))
    (fun g' fresh => same_config g g' /\ (if fresh then limits 0 g' /\ unseen now msg (gt_dedup g) else gateway_ok g')) g.
Proof.
  intros Hg. apply wpe_call. pose proof (observe_ok msg now (gt_dedup g)) as Ho. pose proof (observe_unseen msg now (gt_dedup g)) as Hu. destruct (Deduplicator.observe msg now (gt_dedup g)) as [d fresh].
  destruct Ho as (Hd & Hcap & _ & Ho); [apply Hg|]. cbn [fst snd]. split; [by repeat split|]. assert (Hc : dd_cap (gt_dedup g) = 512) by apply Hg. rewrite Hc in *.
  destruct fresh.
  - split; [|apply Hu; [apply Hg|done]]. eapply (limits_config _ 0 g); [by repeat split|exact Hg|apply Hg|done|done|]. cbn. lia.
  - eapply (limits_config _ (adapters_count g) g); [by repeat split|exact Hg|apply Hg|done|done|]. cbn. rewrite Ho. apply Hg.
Qed.
Lemma same_adapters g g' : same_config g g' -> adapters_count g' = adapters_count g.
Proof. intros (_ & _ & _ & Hd & _). unfold adapters_count. by rewrite Hd. Qed.

Lemma bridge_message_returns msg ctx g :
  gateway_ok g -> ctx_ok ctx -> text_ok msg ->
  returns (bridge_message msg ctx) (fun g' out => same_config g g' /\ gateway_ok g' /\ Forall (sent g msg ctx) out) g.
Proof.
  intros Hg Hctx Hm. unfold bridge_message. apply wpe_bind. eapply wpe_mono; [by apply observe_returns| |done]. intros g1 [] [Hc1 Hg1]; cbn [negb].
  - eapply wpe_mono; [apply bridge_all_returns; [apply Hg1|done..]| |done]. intros g2 out (Hc2 & Hg2 & Hs). split; [by etransitivity|].
    split; [unfold gateway_ok; rewrite (same_adapters g1 g2) by done; exact Hg2|]. eapply Forall_impl; [exact Hs|]. intros f. by apply sent_config.
  - apply wpe_bind, count_stat_returns, wpe_ret. split; [exact Hc1|]. split; [exact Hg1|done].
Qed.

(** ** Detection *)

(** The winner of a detection: at or above the threshold, and ahead of every
    other plausible protocol by the margin. *)
Definition wins (cfg : DetectorConfig) (scores : list DetectionScore) (p : ProtocolId) : Prop :=
  exists best rest, scores ≡ₚ best :: rest /\ ds_protocol best = p /\ dc_threshold cfg <= ds_score best /\
    Forall (fun r => ds_score r <= ds_score best /\ (ds_score r < dc_threshold cfg \/ dc_ambiguity_margin cfg <= ds_score best - ds_score r)) rest.
Lemma all_scores_total (l : list A) frame meta ctx :
  Forall ok l -> bytes_ok frame -> ctx_ok ctx ->
  exists ss, all_scores l frame meta ctx = Ok ss /\ ds_protocol <$> ss = rp_id <$> l.
Proof.
  intros Hl Hf Hc. induction Hl as [|a l Ha _ (ss & IH & Hp)]; [by exists []|]. cbn [all_scores].
  destruct (detect_total a frame meta ctx Ha Hf Hc) as (s & -> & Hs & _). cbn [mbind outcome_bind]. rewrite IH. exists (s :: ss).
  split; [done|]. cbn. f_equal; [done|exact Hp].
Qed.
Lemma sorted_scores ss : 
  exists l, sort_by_key ss (fun s => - ds_score s) = l /\ l ≡ₚ ss /\ StronglySorted (fun a b => ds_score b <= ds_score a) l.
Proof.
  eexists. split; [reflexivity|]. destruct (sort_by_key_spec (fun s => - ds_score s) ss) as [Hs Hp]. split; [done|].
  clear Hp. induction Hs as [|a l _ IH Hall]; constructor; [done|]. eapply Forall_impl; [exact Hall|].
  intros b Hab. unfold key_le, kcmp, Z_KeyOrd in Hab. rewrite Z.compare_le_iff in Hab. lia.
Qed.
Lemma verdict_wins cfg ss l p sc why amb :
  l ≡ₚ ss -> StronglySorted (fun a b => ds_score b <= ds_score a) l -> verdict cfg l = (p, sc, why, amb) -> p <> Unknown -> wins cfg ss p.
Proof.
  intros Hp Hs Hv Hne. unfold verdict in Hv. destruct l as [|best rest]; [by simplify_eq|]. case_decide as Ht; [|by simplify_eq].
  case_decide as Hamb; [by simplify_eq|]. simplify_eq. apply StronglySorted_cons in Hs as [Hall Hs]. exists best, rest. split; [by symmetry|]. split; [done|].
  split; [lia|]. destruct rest as [|r rest]; [constructor|]. apply Forall_forall. intros x Hx. rewrite Forall_forall in Hall. split; [by apply Hall|].
  assert (ds_score x <= ds_score r).
  { apply elem_of_cons in Hx as [->|Hx]; [lia|]. apply StronglySorted_cons in Hs as [Hr _]. rewrite Forall_forall in Hr. by apply Hr. }
  specialize (Hall x Hx). lia.
Qed.
Lemma find_adapter (l : list A) p : p ∈ rp_id <$> l -> exists a, find_first (fun a => bool_decide (rp_id a = p)) l = Some a.
Proof.
  induction l as [|a l IH]; [by intros ?%not_elem_of_nil|]. cbn [find_first]. intros [->|Hp]%elem_of_cons; [rewrite bool_decide_true by done; eauto|].
  case_bool_decide; eauto.
Qed.
(** A frame is handed to a decoder only when detection is certain, and to the
    decoder of the detected protocol. *)
Definition decoded_by (d : Detector A) frame meta ctx (msg : UnifiedMessage) : Prop :=
  exists a scores, all_scores (de_adapters d) frame meta ctx = Ok scores /\ wins (de_cfg d) scores (um_protocol msg) /\
    adapter (um_protocol msg) d = Some a /\ rp_decode a frame meta ctx = Ok msg.
Lemma classify_total (d : Detector A) frame meta ctx :
  Forall ok (de_adapters d) -> bytes_ok frame -> ctx_ok ctx ->
  exists d' det decoded, classify frame meta ctx d = Ok (d', (det, decoded)) /\ de_adapters d' = de_adapters d /\ de_cfg d' = de_cfg d /\
    forall msg, decoded = Some (inr msg) -> dt_protocol det = um_protocol msg /\ text_ok msg /\ um_bridge_path msg = [] /\ decoded_by d frame meta ctx msg.
Proof.
  intros Hl Hf Hc. unfold classify, detect. destruct (all_scores_total _ frame meta ctx Hl Hf Hc) as (ss & Hss & Hids). rewrite Hss. cbn [mbind outcome_bind].
  destruct (sorted_scores ss) as (l & -> & Hperm & Hsort). destruct (verdict (de_cfg d) l) as [[[p sc] why] amb] eqn:Hv. cbn [mbind outcome_bind dt_protocol].
  case_decide as Hu; [by eexists _, _, None|]. pose proof (verdict_wins _ _ _ _ _ _ _ Hperm Hsort Hv Hu) as Hw.
  destruct (find_adapter (de_adapters d) p) as [a Ha].
  { destruct Hw as (best & rest & Hp & <- & _). rewrite <- Hids. apply list_elem_of_fmap. exists best. split; [done|]. rewrite Hp. apply list_elem_of_here. }
  unfold adapter at 1. cbn [de_adapters]. rewrite Ha. apply find_first_Some in Ha as Hin. destruct Hin as [Hid%bool_decide_eq_true Hin].
  rewrite Forall_forall in Hl. destruct (rp_decode a frame meta ctx) as [m|e|] eqn:Hd.
  - eexists _, _, _. split; [reflexivity|]. split; [done|]. split; [done|]. intros msg [= <-].
    destruct (decode_speaks a frame meta ctx m (Hl a Hin) Hf Hc Hd) as (Hp & Ht & Hb). rewrite Hid in Hp. cbn. split; [done|]. split; [done|]. split; [done|].
    exists a, ss. rewrite Hp. by split_and!.
  - by eexists _, _, _.
  - exfalso. by apply (decode_safe a frame meta ctx (Hl a Hin) Hf Hc).
Qed.

(** ** The tables of the gateway *)

Lemma observe_network_limits msg meta now l :
  zlen l <= 64 -> Forall (fun n => zlen (sn_nodes n) <= 256) l ->
  zlen (observe_network msg meta now l) <= 64 /\ Forall (fun n => zlen (sn_nodes n) <= 256) (observe_network msg meta now l).
Proof.
  intros Hl Hn. unfold observe_network. destruct (find_first _ l).
  - split; [unfold zlen in *; by rewrite length_update_first|]. apply Forall_update_first; [done|]. intros n _ Hb _. cbn -[zlen].
    destruct (negb _ && bool_decide (zlen (sn_nodes n) < 256)) eqn:E; [|done]. apply andb_true_iff in E as [_ E%bool_decide_eq_true].
    rewrite zlen_app, zlen_cons, zlen_nil. lia.
  - case_decide; [|done]. split; [rewrite zlen_app, zlen_cons, zlen_nil; lia|]. apply Forall_app_2; [done|]. by constructor.
Qed.
Lemma observe_identity_limits msg meta now l : zlen l <= 512 -> zlen (observe_identity msg meta now l) <= 512.
Proof.
  intros Hl. unfold observe_identity. destruct (IdentityRef.is_broadcast _); [done|]. destruct (find_first _ l).
  - unfold zlen in *. by rewrite length_update_first.
  - case_decide; [|done]. rewrite zlen_app, zlen_cons, zlen_nil. lia.
Qed.
Lemma push_cache_returns r g (Q : Gateway A -> unit -> Prop) :
  gateway_ok g -> (forall g', gateway_ok g' -> Q g' ()) -> returns (push_cache r) Q g.
Proof.
  intros Hg HQ. unfold push_cache. apply wpe_bind, wpe_gets. cbn [id]. unfold gateway_ok, limits in *. destruct_and!. case_decide.
  - destruct (gt_cache g) as [|x rest] eqn:Ec; [rewrite zlen_nil in *; lia|]. apply wpe_modify, HQ. cbn -[zlen]. split_and!; try done.
    rewrite zlen_cons in *. rewrite zlen_app, zlen_cons, zlen_nil. lia.
  - apply wpe_modify, HQ. cbn -[zlen]. split_and!; try done. rewrite zlen_app, zlen_cons, zlen_nil. lia.
Qed.

(** What a frame leads to: nothing, or a decoded message and its translations. *)
Definition frame_result g frame meta ctx (r : Detection * option UnifiedMessage * list OutboundFrame) : Prop :=
  match r with
  | (_, None, out) => out = []
  | (det, Some msg, out) =>
      dt_protocol det = um_protocol msg /\ decoded_by (gt_detector g) frame meta ctx msg /\ unseen (cx_now_ms ctx) msg (gt_dedup g) /\
      Forall (sent g msg ctx) out
  end.
(** Statistics and observation tables do not matter to what is sent. *)
Definition same_rules g g' : Prop :=
  gt_id g' = gt_id g /\ gt_mode g' = gt_mode g /\ de_adapters (gt_detector g') = de_adapters (gt_detector g) /\ gt_policy g' = gt_policy g /\
  gt_sender_prefix g' = gt_sender_prefix g /\ gt_loops g' = gt_loops g.
Lemma sent_rules g g' msg ctx f : same_rules g g' -> sent g' msg ctx f -> sent g msg ctx f.
Proof.
  intros (Hi & Hm & Ha & Hp & Hs & Hl) (? & ? & ? & a & out & outc & Had & Hx & Ht & He). rewrite Hi, Hp, Hs, Hl in *.
  split; [congruence|]. split; [done|]. split; [done|]. exists a, out, outc. split; [|done]. unfold adapter in *. by rewrite <- Ha.
Qed.

Lemma on_frame_returns frame meta ctx g :
  gateway_ok g -> bytes_ok frame -> ctx_ok ctx ->
  returns (on_frame frame meta ctx) (fun g' r => gateway_ok g' /\ frame_result g frame meta ctx r) g.
Proof.
  intros Hg Hf Hc. unfold on_frame. apply wpe_bind, count_stat_returns, wpe_bind, wpe_gets. cbn [gt_detector gt_upd_stats].
  destruct (classify_total (gt_detector g) frame meta ctx) as (d & det & decoded & -> & Had & Hcfg & Hdec); [apply Hg|done|done|].
  apply wpe_bind, or_panic_returns. apply wpe_bind, wpe_modify. set (g1 := gt_upd_detector _ _).
  assert (Hg1 : gateway_ok g1) by (unfold gateway_ok, limits, adapters_count, g1 in *; cbn -[zlen]; rewrite Had; exact Hg).
  destruct decoded as [[e|msg]|]; [by apply wpe_bind, count_stat_returns, wpe_ret| |by apply wpe_bind, count_stat_returns, wpe_ret].
  destruct (Hdec msg eq_refl) as (Hdet & Htext & _ & Hby). apply wpe_bind, count_stat_returns. do 2 (apply wpe_bind, wpe_modify). set (g2 := gt_upd_identities _ _).
  assert (Hg2 : gateway_ok g2).
  { unfold gateway_ok, limits, adapters_count, g2 in *. destruct_and!. cbn -[zlen]. split_and!; try done; [by apply observe_network_limits..|by apply observe_identity_limits]. }
  apply wpe_bind. eapply wpe_mono; [by apply observe_returns| |done]. intros g3 [] [Hc3 Hg3]; cbn [negb]; [|by apply wpe_bind, count_stat_returns, wpe_ret].
  destruct Hg3 as [Hg3 Hun]. apply wpe_bind. eapply wpe_mono; [by apply bridge_all_returns| |done]. intros g4 out (Hc4 & Hg4 & Hs). apply wpe_bind. apply push_cache_returns.
  - unfold gateway_ok. by rewrite (same_adapters g3 g4).
  - intros g5 Hg5. apply wpe_ret. split; [done|]. split; [done|]. split; [done|]. split; [exact Hun|].
    eapply Forall_impl; [exact Hs|]. intros f Hsent. apply (sent_rules g g2); [repeat split; exact Had|]. eapply sent_config; [exact Hc3|exact Hsent].
Qed.

Lemma periodic_total_all (l : list A) ctx :
  Forall ok l -> ctx_ok ctx -> exists l' out, periodic_all l ctx = Ok (l', out) /\ Forall ok l' /\ rp_id <$> l' = rp_id <$> l /\
    Forall (fun f => of_protocol f <> MeshStar) out.
Proof.
  intros Hl Hc. induction Hl as [|a l Ha _ (l' & out & IH & Hl' & Hids & Hout)]; cbn [periodic_all]; [by exists [], []|].
  case_decide as Hid.
  - destruct (periodic_total a ctx Ha Hc) as (a' & fs & -> & Hok & Heq & Hfs). cbn [mbind outcome_bind]. rewrite IH. exists (a' :: l'), (fs ++ out).
    split; [done|]. split; [by constructor|]. split; [cbn; f_equal; done|]. apply Forall_app_2; [|done]. eapply Forall_impl; [exact Hfs|]. intros f [-> _]. done.
  - cbn [mbind outcome_bind]. rewrite IH. exists (a :: l'), out. split; [done|]. split; [by constructor|]. split; [cbn; f_equal; done|done].
Qed.
End Facts.

Lemma zlen_retain {X} (p : X -> bool) l : zlen (retain p l) <= zlen l.
Proof. unfold zlen. pose proof (length_retain p l). lia. Qed.

(** ** Operations and reachable states *)

(** Calls into a gateway, the configuration of its public fields included. *)
Inductive GwOp :=
| GwFrame (frame : list Z) (meta : RxMeta) (ctx : ProtocolContext)
| GwBridge (msg : UnifiedMessage) (ctx : ProtocolContext)
| GwPeriodic (ctx : ProtocolContext)
| GwExpire (now max_age_ms : Z)
| GwRateLimit (to : ProtocolId) (per_minute : f32) (burst : Z)
| GwConfigure (mode : GatewayMode) (policy : Policy) (sender_prefix : bool).
Definition op_ok (o : GwOp) : Prop :=
  match o with
  | GwFrame frame _ ctx => bytes_ok frame /\ ctx_ok ctx
  | GwBridge msg ctx => text_ok msg /\ ctx_ok ctx
  | GwPeriodic ctx => ctx_ok ctx
  | _ => True
  end.

Section Reach.
Context {C : CryptoLib} {A : Type} {RP : RadioProtocol A} {ok : A -> Prop} `{!AdapterContract A ok}.
Implicit Types g : Gateway A.

Definition gw_run (o : GwOp) (g : Gateway A) : Gateway A * outcome Error (list OutboundFrame) :=
  match o with
  | GwFrame frame meta ctx => match on_frame frame meta ctx g with (g', Ok r) => (g', Ok r.2) | (g', Err e) => (g', Err e) | (g', Panic) => (g', Panic) end
  | GwBridge msg ctx => bridge_message msg ctx g
  | GwPeriodic ctx => match periodic ctx g with Ok (g', out) => (g', Ok out) | _ => (g, Panic) end
  | GwExpire now age => (gateway_expire now age g, Ok [])
  | GwRateLimit to per burst => (set_rate_limit to per burst g, Ok [])
  | GwConfigure mode policy prefix => (gt_upd_sender_prefix (fun _ => prefix) (gt_upd_policy (fun _ => policy) (gt_upd_mode (fun _ => mode) g)), Ok [])
  end.

Inductive gw_reach (id : list Z) (adapters : list A) : Gateway A -> Prop :=
| gw_start : gw_reach id adapters (gateway_new id (Detector_new adapters))
| gw_step g g' o out : gw_reach id adapters g -> op_ok o -> gw_run o g = (g', Ok out) -> gw_reach id adapters g'.

(** Every call returns, keeps the tables within their limits and the adapters. *)
Lemma gw_run_returns o g :
  gateway_ok (ok := ok) g -> op_ok o -> exists g' out, gw_run o g = (g', Ok out) /\ gateway_ok (ok := ok) g'.
Proof.
  intros Hg Ho. destruct o as [frame meta ctx|msg ctx|ctx|now age|to per burst|mode policy prefix]; cbn [gw_run].
  - destruct Ho as [Hf Hc]. pose proof (on_frame_returns frame meta ctx g Hg Hf Hc) as H. unfold wpe in H.
    destruct (on_frame frame meta ctx g) as [g' [r|e|]]; try done. exists g', r.2. split; [done|]. apply H.
  - destruct Ho as [Hm Hc]. pose proof (bridge_message_returns msg ctx g Hg Hc Hm) as H. unfold wpe in H.
    destruct (bridge_message msg ctx g) as [g' [r|e|]]; try done. exists g', r. split; [done|]. apply H.
  - unfold periodic. case_decide; [by eexists _, _|]. destruct (periodic_total_all (de_adapters (gt_detector g)) ctx) as (l' & out & -> & Hl & Hids & _); [apply Hg|done|].
    cbn [mbind outcome_bind]. eexists _, _. split; [reflexivity|]. unfold gateway_ok, limits, adapters_count in *. destruct_and!. cbn -[zlen].
    assert (Hlen : zlen l' = zlen (de_adapters (gt_detector g))) by (unfold zlen; apply (f_equal length) in Hids; rewrite !length_fmap in Hids; lia).
    rewrite Hlen. by split_and!.
  - eexists _, _. split; [reflexivity|]. unfold gateway_ok, limits, adapters_count, gateway_expire in *. destruct_and!. cbn -[zlen].
    split_and!; try done; [eapply Z.le_trans; [apply zlen_retain|done]|by apply Forall_retain|eapply Z.le_trans; [apply zlen_retain|done]].
  - eexists _, _. split; [reflexivity|]. pose proof Hg as Hg'. unfold gateway_ok, limits, adapters_count in Hg'. destruct_and!.
    unfold gateway_ok, limits, adapters_count. cbn -[zlen]. split_and!; try done. by apply set_rate_limit_buckets.
  - by eexists _, _.
Qed.
Lemma gw_reach_ok id adapters g : Forall ok adapters -> gw_reach id adapters g -> gateway_ok (ok := ok) g.
Proof.
  intros Ha. induction 1 as [|g g' o out _ IH Ho Hr].
  - unfold gateway_ok, limits, adapters_count, gateway_new. cbn -[zlen]. rewrite !zlen_nil. pose proof (zlen_nonneg adapters).
    split_and!; try done; try lia; [constructor|apply dedup_new_ok; lia|change (zlen []) with 0; lia].
  - destruct (gw_run_returns o g IH Ho) as (g1 & out1 & Hr1 & Hok1). congruence.
Qed.

(** C9. With adapters that keep their contract, every call into a reachable gateway
    returns: no frame, message, configuration or clock makes it panic. *)
Theorem gateway_never_panics id adapters g o :
  Forall ok adapters -> gw_reach id adapters g -> op_ok o -> exists g' out, gw_run o g = (g', Ok out).
Proof.
  intros Ha Hr Ho. destruct (gw_run_returns o g) as (g' & out & H & _); [by apply (gw_reach_ok id adapters)|done|]. eauto.
Qed.

(** C11. A reachable gateway stays small: its message cache, observed networks and
    nodes, identities, duplicate records and rate limits are within fixed
    bounds, however much traffic it hears. *)
Theorem gateway_bounded_memory id adapters g :
  Forall ok adapters -> gw_reach id adapters g ->
  zlen (gt_cache g) <= gt_cache_cap g /\ zlen (gt_networks g) <= 64 /\ Forall (fun n => zlen (sn_nodes n) <= 256) (gt_networks g) /\
  zlen (gt_identities g) <= 512 /\ zlen (gt_buckets g) <= 4 /\
  SmallMap.len (dd_by_digest (gt_dedup g)) <= 512 + zlen (de_adapters (gt_detector g)) /\
  SmallMap.len (dd_by_id (gt_dedup g)) <= 512 + zlen (de_adapters (gt_detector g)).
Proof.
  intros Ha Hr. pose proof (gw_reach_ok id adapters g Ha Hr) as Hg.
  destruct Hg as (_ & _ & Hcache & Hnet & Hnodes & Hid & _ & Hb & (_ & Hqi & Hqd) & _ & Ho). unfold adapters_count in Ho.
  pose proof (queued_len snd _ _ Hqd). pose proof (queued_len fst _ _ Hqi). split_and!; try done; try lia.
  assert (Hsub : (gt_buckets g).*1 ⊆+ [MeshStar; Meshtastic; MeshCore; Unknown]) by (apply NoDup_submseteq; [done|]; intros [] _; set_solver).
  apply submseteq_length in Hsub. rewrite length_fmap in Hsub. unfold zlen. simpl in Hsub. lia.
Qed.

(** C10. What a gateway sends in answer to a frame: nothing, unless exactly one
    adapter is certain of the frame and decodes it, and the message is new: no
    record of its id, its content digest or its text digest is within the time
    to live.  And then only in bridge mode, only frames for which the policy
    allows the target and the loop guard passes, each the encoding of the
    translation; a policy whose allow rules all carry a [public] or [not-e2e]
    security clause sends no end-to-end protected traffic. *)
Theorem gateway_sends_only_allowed id adapters g g' frame meta ctx det r out :
  Forall ok adapters -> gw_reach id adapters g -> bytes_ok frame -> ctx_ok ctx ->
  on_frame frame meta ctx g = (g', Ok (det, r, out)) ->
  match r with
  | None => out = []
  | Some msg =>
      dt_protocol det = um_protocol msg /\ decoded_by (gt_detector g) frame meta ctx msg /\ unseen (cx_now_ms ctx) msg (gt_dedup g) /\
      Forall (sent g msg ctx) out /\
      (gt_mode g <> Bridge -> out = []) /\
      (Forall (fun r => r_action r = Allow -> r_security r = Some PublicOnly \/ r_security r = Some NotMeshStarE2E) (pl_rules (gt_policy g)) ->
       SecurityLevel.is_meshstar_e2e (um_security msg) = true -> out = [])
  end.
Proof.
  intros Ha Hr Hf Hc Ho. pose proof (on_frame_returns frame meta ctx g (gw_reach_ok id adapters g Ha Hr) Hf Hc) as H.
  unfold wpe in H. rewrite Ho in H. destruct H as [_ H]. destruct r as [msg|]; [|done]. destruct H as (Hd & Hby & Hun & Hs). split; [done|]. split; [done|]. split; [exact Hun|]. split; [done|]. split.
  - intros Hm. destruct Hs as [|f out [Hb _] _]; [done|]. by destruct Hm.
  - intros Hp He. destruct Hs as [|f out (_ & _ & Hal & _) _]; [done|]. unfold Policy.evaluate in Hal. apply first_match_spec in Hal as (l1 & rl & l2 & Hrl & _ & Hm & Hact).
    rewrite Hrl in Hp. apply Forall_app in Hp as [_ [Hx _]%Forall_cons]. by rewrite (excludes_e2e_spec rl msg _ (Hx Hact) He) in Hm.
Qed.
End Reach.
