(* ===== verification/StarAdapter.v ===== *)
(** * The MeshStar adapter

    [crates/meshstar-protocols/src/meshstar/mod.rs]: the native protocol seen from
    outside a session.  It classifies frames, decodes headers and broadcast
    payloads, and encodes broadcasts; session traffic stays opaque to it. *)
From stdpp Require Import base tactics list numbers.
From Stdlib Require Import Lia Ascii String.
From S2P Require Import Prelude SmallMap Float32 Protocol Packet CryptoLib Noise Session Messages Beacon Radio Text Unified Bridge Gateway GatewayMain.
From stdpp Require Import list.
#[local] Open Scope Z_scope.

(** [PacketType::name], [Role::name] and the [Debug] form of the core's errors. *)
Definition ptype_name (t : PacketType) : list Z :=
  str match t with
      | Protocol.Beacon => "BEACON" | Data => "DATA" | Ack => "ACK" | RouteRequest => "ROUTE_REQUEST" | RouteReply => "ROUTE_REPLY"
      | RouteError => "ROUTE_ERROR" | Store => "STORE" | Fetch => "FETCH" | Handshake => "HANDSHAKE" | Control => "CONTROL"
      end.
Definition role_name (r : Role) : list Z := str match r with Normal => "NORMAL" | Leaf => "LEAF" | Anchor => "ANCHOR" end.
Definition error_debug (e : Error) : list Z :=
  str match e with
      | Truncated => "Truncated" | BadVersion => "BadVersion" | BadType => "BadType" | BadField => "BadField" | BadTtl => "BadTtl"
      | Duplicate => "Duplicate" | AuthFailed => "AuthFailed" | Replay => "Replay" | NoSession => "NoSession"
      | HandshakeState => "HandshakeState" | TooLarge => "TooLarge" | NoRoute => "NoRoute" | Full => "Full"
      | RoleViolation => "RoleViolation" | Expired => "Expired" | NotFound => "NotFound"
      end.

Record MeshStarAdapter := mkStarAdapter { sa_network_key : option NetworkKey; sa_local : option Address }.
Definition MeshStarAdapter_new (network_key : option NetworkKey) (local : option Address) : MeshStarAdapter := mkStarAdapter network_key local.
Definition MeshStarAdapter_profiles : list LoRaProfile :=
  [LoRaProfile.MESHSTAR_EU868; LoRaProfile.MESHSTAR_US915; LoRaProfile.MESHSTAR_EU868_LONG; LoRaProfile.MESHSTAR_EU868_FAST].

Definition security_of (h : Header) : SecurityLevel * bool :=
  if h_has h flags.ENVELOPE then (MeshStarEnvelope, true)
  else if h_has h flags.ENCRYPTED then (MeshStarE2E, true)
  else if h_has h flags.GROUP_ENCRYPTED then (MeshStarGroup, true)
  else (Plaintext, false).

Definition star_capabilities : ProtocolCapabilities :=
  mkCaps true true true true true true true true true 2048 2048 MAX_TTL.

Section Adapter.
Context {C : CryptoLib}.

(** Type-specific plausibility of a payload. *)
Definition plausible (p : Packet) : bool :=
  let plen := zlen (p_payload p) in
  let h := p_header p in
  match h_ptype h with
  | Protocol.Beacon => is_ok (Beacon.decode (p_payload p))
  | Data =>
      if h_has h flags.ENVELOPE then bool_decide (plen >= 4 + ENVELOPE_OVERHEAD)
      else if h_has h flags.ENCRYPTED then bool_decide (plen >= TRANSPORT_OVERHEAD) && negb (is_broadcast (h_dst h))
      else if h_has h flags.GROUP_ENCRYPTED then bool_decide (plen >= TAG_LEN) && is_broadcast (h_dst h)
      else true
  | Ack => bool_decide (plen = 3 + TRANSPORT_OVERHEAD) || (h_has h flags.ENVELOPE && bool_decide (plen >= 4 + ENVELOPE_OVERHEAD))
  | RouteRequest => is_broadcast (h_dst h) && is_ok (messages.rreq_decode (p_payload p))
  | RouteReply => negb (is_broadcast (h_dst h)) && is_ok (messages.rrep_decode (p_payload p))
  | RouteError => is_ok (messages.rerr_decode (p_payload p))
  | Handshake => bool_decide (plen > 32) && negb (is_broadcast (h_dst h))
  | Store | Fetch => h_has h flags.ENCRYPTED && bool_decide (plen >= TRANSPORT_OVERHEAD)
  | Control => bool_decide (plen >= 1) && negb (is_broadcast (h_dst h))
  end.
(** The evidence of a plausible packet, [None] when the network tag rejects it. *)
Definition tag_evidence (a : MeshStarAdapter) (frame : list Z) (p : Packet) (s : DetectionScore) : option DetectionScore :=
  if h_has (p_header p) flags.NET_AUTH then
    match sa_network_key a with
    | Some k =>
        if is_ok (packet_decode hmac_sha256 frame (Some k) MAX_TTL)
        then Some (DetectionScore.add 55 (str "network access tag verified with our key") s) else None
    | None => Some (DetectionScore.add 20 (str "carries a network access tag") s)
    end
  else Some s.
Definition star_detect (a : MeshStarAdapter) (frame : list Z) (_ : RxMeta) (ctx : ProtocolContext) : outcome Empty_set DetectionScore :=
  let s := DetectionScore.none MeshStar in
  if decide (zlen frame < Packet.HEADER_LEN) then Ok (DetectionScore.reject (str "shorter than the MeshStar header") s) else
  match packet_decode hmac_sha256 frame None MAX_TTL with
  | Panic => Panic
  | Err BadVersion => Ok (DetectionScore.reject (str "unknown protocol version nibble") s)
  | Err e => Ok (DetectionScore.reject (str "header rejected: " ++ error_debug e) s)
  | Ok p =>
      if negb (plausible p) then Ok (DetectionScore.reject (str "payload inconsistent with packet type / flags") s) else
      let s := DetectionScore.add 65 (str "header parses and payload is consistent with the packet type (version, TTL/hop budget, addresses, exact length, flags)") s in
      match tag_evidence a frame p s with
      | None => Ok (DetectionScore.reject (str "network tag does not verify with our key") s)
      | Some s =>
          let s := if bool_decide (h_ptype (p_header p) = Protocol.Beacon) && is_ok (Beacon.decode (p_payload p))
                   then DetectionScore.add 40 (str "beacon payload decodes") s else s in
          Ok (if decide (sync_word (cx_profile ctx) = sync_word LoRaProfile.MESHSTAR_EU868)
              then DetectionScore.add 10 (str "captured with the MeshStar sync word") s else s)
      end
  end.

(** Content type and payload of a decoded packet. *)
Definition star_content (a : MeshStarAdapter) (p : Packet) (encrypted : bool) : outcome AdapterError (ContentType * list Z) :=
  let h := p_header p in
  match h_ptype h with
  | Data =>
      if is_broadcast (h_dst h) && negb encrypted then Ok (Text, p_payload p)
      else if is_broadcast (h_dst h) then
        match sa_network_key a with
        | Some k =>
            match group_decrypt (group_key sha256 k) (h_src h) (h_packet_id h) (header_aad h 0) (p_payload p) with
            | Ok pt => Ok (Text, pt)
            | Err _ => Err AdAuthFailed
            | Panic => Panic
            end
        | None => Ok (Opaque, [])
        end
      else Ok (Opaque, [])
  | Protocol.Beacon => Ok (Advert, [])
  | Ack => Ok (CtAck, [])
  | RouteRequest | RouteReply | RouteError => Ok (RouteControl, [])
  | t => Ok (Other (ptype_u8 t), [])
  end.
Definition beacon_meta (p : Packet) (m : UnifiedMessage) : UnifiedMessage :=
  if decide (h_ptype (p_header p) = Protocol.Beacon) then
    match Beacon.decode (p_payload p) with
    | Ok b =>
        let m := UnifiedMessage.set_meta (str "role") (role_name (bc_role b)) m in
        let m := UnifiedMessage.set_meta (str "neighbors") (dec (bc_neighbor_count b)) m in
        match bc_full b with Some f => UnifiedMessage.set_meta (str "public_key") (hex_encode (fi_public_key f)) m | None => m end
    | _ => m
    end
  else m.
(** [{:04x}] *)
Definition hex_u16 (n : Z) : list Z := hex_encode (be_bytes 2 n).
Definition star_decode (a : MeshStarAdapter) (frame : list Z) (meta : RxMeta) (ctx : ProtocolContext) : outcome AdapterError UnifiedMessage :=
  p ← match packet_decode hmac_sha256 frame (sa_network_key a) MAX_TTL with
      | Ok p => Ok p
      | Err AuthFailed => Err AdAuthFailed
      | Err e => Err (NotThisProtocol (error_debug e))
      | Panic => Panic
      end;
  let h := p_header p in
  let '(security, encrypted) := security_of h in
  '(content_type, payload) ← star_content a p encrypted;
  let content_type := if bool_decide (content_type = Text) && negb (utf8_valid payload) then Binary else content_type in
  let m := mkUnified (IdMeshStar (h_src h)) (if is_broadcast (h_dst h) then IdBroadcast MeshStar else IdMeshStar (h_dst h)) MeshStar None
    (hex_u32 (h_packet_id h)) None None content_type payload encrypted (if encrypted then security else Plaintext)
    (mkSignal (Some (rssi_dbm meta)) (Some (snr_db meta)) (Some (frequency_hz (cx_profile ctx))) (timestamp_ms meta))
    (mkHops (Some (h_hops h)) (Some (h_ttl h)) [] (if decide (h_hops h > 0) then Some (hex_u16 (h_relay h)) else None))
    (h_has h flags.ACK_REQUEST) [] None [] in
  let m := UnifiedMessage.set_meta (str "packet_type") (ptype_name (h_ptype h)) m in
  let m := UnifiedMessage.set_meta (str "seq") (dec (h_seq h)) m in
  Ok (beacon_meta p m).

Definition star_encode (a : MeshStarAdapter) (msg : UnifiedMessage) (ctx : ProtocolContext) : outcome AdapterError OutboundFrame :=
  if negb (IdentityRef.is_broadcast (um_destination msg))
  then Err (Unsupported (str "unicast MeshStar traffic is sent through a Node session, not the adapter")) else
  if negb (bool_decide (um_content_type msg = Text) || bool_decide (um_content_type msg = Binary))
  then Err (Unsupported (ContentType_debug (um_content_type msg))) else
  src ← ok_or (sa_local a) (MissingContext (str "local MeshStar address"));
  r ← slice (cx_random ctx) 0 4;
  let id := Z.max (from_be r) 1 in
  let h := header_new Data src BROADCAST id 0 DEFAULT_TTL in
  '(h, body) ← match sa_network_key a with
               | Some k =>
                   let h := h_set (h_set h flags.NET_AUTH true) flags.GROUP_ENCRYPTED true in
                   match group_encrypt (group_key sha256 k) src id (header_aad h 0) (um_payload msg) with
                   | Ok ct => Ok (h, ct)
                   | _ => Panic
                   end
               | None => Ok (h, um_payload msg)
               end;
  if decide (zlen body > max_payload (h_has h flags.NET_AUTH)) then Err AdTooLarge else
  match packet_encode hmac_sha256 (mkPacket h body) (sa_network_key a) with
  | Ok bytes => Ok (mkFrame MeshStar bytes (cx_profile ctx))
  | Err e => Err (AdCore e)
  | Panic => Panic
  end.

Definition star_can_reply (_ : MeshStarAdapter) (msg : UnifiedMessage) (_ : ProtocolContext) : bool :=
  match um_source msg with IdMeshStar _ => true | _ => false end.
Definition star_reply_context (_ : MeshStarAdapter) (msg : UnifiedMessage) : option ReplyContext :=
  match um_source msg with
  | IdMeshStar a => Some (mkReply MeshStar (IdMeshStar a) None (Some (um_message_id msg)) [])
  | _ => None
  end.

#[global] Instance meshstar_radio_protocol : RadioProtocol MeshStarAdapter := {
  rp_id _ := MeshStar;
  rp_capabilities _ := star_capabilities;
  rp_detect := star_detect;
  rp_decode := star_decode;
  rp_encode := star_encode;
  rp_can_reply := star_can_reply;
  rp_reply_context := star_reply_context;
  rp_periodic := no_periodic
}.
End Adapter.

(** * Facts *)

Module StarFacts.
Import UnifiedFacts.
Section Contract.
Context {C : CryptoLib} `{!CryptoLibLaws C}.

Definition star_ok (a : MeshStarAdapter) : Prop := match sa_local a with Some l => address_ok l | None => True end.

Lemma star_detect_total a frame meta ctx :
  bytes_ok frame -> exists s, star_detect a frame meta ctx = Ok s /\ ds_protocol s = MeshStar /\ 0 <= ds_score s <= 100.
Proof.
  intros Hf. unfold star_detect. case_decide; [eexists; split; [reflexivity|]; split; [done|apply score_reject]|].
  pose proof (packet_decode_safe hmac_sha256 frame None MAX_TTL Hf) as Hs.
  destruct (packet_decode hmac_sha256 frame None MAX_TTL) as [p|e|]; [|destruct e; eexists; (split; [reflexivity|]); (split; [done|apply score_reject])|done].
  destruct (plausible p); cbn [negb]; [|eexists; split; [reflexivity|]; split; [done|apply score_reject]].
  set (s0 := DetectionScore.add 65 _ _).
  assert (H0 : ds_protocol s0 = MeshStar /\ 0 <= ds_score s0 <= 100) by (split; [done|]; apply score_add; simpl; lia). clearbody s0.
  unfold tag_evidence. assert (Hadd : forall n why s, 0 <= n -> ds_protocol s = MeshStar /\ 0 <= ds_score s <= 100 ->
    ds_protocol (DetectionScore.add n why s) = MeshStar /\ 0 <= ds_score (DetectionScore.add n why s) <= 100)
    by (intros n why s Hn [? ?]; split; [done|by apply score_add]).
  assert (Hfin : forall s, ds_protocol s = MeshStar /\ 0 <= ds_score s <= 100 ->
    let s1 := if bool_decide (h_ptype (p_header p) = Protocol.Beacon) && is_ok (Beacon.decode (p_payload p)) then DetectionScore.add 40 (str "beacon payload decodes") s else s in
    let s2 := if decide (sync_word (cx_profile ctx) = sync_word LoRaProfile.MESHSTAR_EU868) then DetectionScore.add 10 (str "captured with the MeshStar sync word") s1 else s1 in
    ds_protocol s2 = MeshStar /\ 0 <= ds_score s2 <= 100).
  { intros s Hs'. cbv zeta. destruct (_ && _); case_decide; repeat (apply Hadd; [lia|]); done. }
  destruct (h_has (p_header p) flags.NET_AUTH); [|eexists; split; [reflexivity|]; by apply Hfin].
  destruct (sa_network_key a) as [k|]; [|eexists; split; [reflexivity|]; apply Hfin, Hadd; [lia|done]].
  destruct (is_ok (packet_decode hmac_sha256 frame (Some k) MAX_TTL)); eexists; (split; [reflexivity|]); [apply Hfin, Hadd; [lia|done]|]. split; [apply H0|apply score_reject].
Qed.

Lemma safe_group_decrypt key src id aad ct : safe (group_decrypt key src id aad ct).
Proof. unfold group_decrypt, TAG_LEN. pose proof (zlen_nonneg ct). safe_tac. Qed.
Lemma star_content_safe a p enc : safe (star_content a p enc).
Proof.
  unfold star_content. destruct (h_ptype (p_header p)); try done. destruct (is_broadcast _ && negb enc); [done|].
  destruct (is_broadcast _); [|done]. destruct (sa_network_key a) as [k|]; [|done].
  pose proof (safe_group_decrypt (group_key sha256 k) (h_src (p_header p)) (h_packet_id (p_header p)) (header_aad (p_header p) 0) (p_payload p)).
  by destruct (group_decrypt _ _ _ _ _).
Qed.
Lemma group_decrypt_len key src id aad ct pt : group_decrypt key src id aad ct = Ok pt -> zlen pt <= zlen ct.
Proof.
  unfold group_decrypt, TAG_LEN. case_decide; [done|]. intros H0. inv_ok H0.
  destruct (aead_decrypt _ _ _ _ _) as [pt'|] eqn:Ed; [|done]. simplify_eq/=.
  apply aead_decrypt_len in Ed. unfold slice in *. case_decide; [|done]. simplify_eq. unfold zlen in *. rewrite Ed, length_take, length_drop. lia.
Qed.
Lemma star_content_len a p enc ct pl : star_content a p enc = Ok (ct, pl) -> zlen pl <= zlen (p_payload p).
Proof.
  assert (H0 : zlen (@nil Z) <= zlen (p_payload p)) by apply zlen_nonneg.
  unfold star_content. destruct (h_ptype (p_header p)); intros H; try (simplify_eq; done).
  destruct (is_broadcast _ && negb enc); [by simplify_eq|]. destruct (is_broadcast _); [|by simplify_eq]. destruct (sa_network_key a) as [k|]; [|by simplify_eq].
  destruct (group_decrypt _ _ _ _ _) eqn:Ed; simplify_eq. by eapply group_decrypt_len.
Qed.

Lemma star_decode_safe a frame meta ctx : bytes_ok frame -> safe (star_decode a frame meta ctx).
Proof.
  intros Hf. unfold star_decode. pose proof (packet_decode_safe hmac_sha256 frame (sa_network_key a) MAX_TTL Hf) as Hs.
  destruct (packet_decode hmac_sha256 frame (sa_network_key a) MAX_TTL) as [p|e|]; [|by destruct e|done]. cbn [mbind outcome_bind].
  destruct (security_of (p_header p)) as [sec enc]. apply safe_bind; [apply star_content_safe|]. by intros [ct pl] _.
Qed.
(** The key of a full beacon is a slice of the frame. *)
Lemma beacon_key_bytes b x f : bytes_ok b -> Beacon.decode b = Ok x -> bc_full x = Some f -> bytes_ok (fi_public_key f).
Proof.
  intros Hb H Hf. unfold Beacon.decode in H. inv_ok H.
  repeat match type of H with
  | (let '(_, _) := ?r in _) = Ok _ => destruct r; inv_ok H
  end. simplify_eq/=.
  match goal with E : Beacon.decode_full _ _ _ = Ok _ |- _ => unfold Beacon.decode_full in E; destruct (has_flag _ _); [|done]; inv_ok E end.
  simplify_eq/=. by eapply slice_wf.
Qed.
Lemma beacon_meta_text p m : bytes_ok (p_payload p) -> text_ok m -> text_ok (beacon_meta p m) /\ um_protocol (beacon_meta p m) = um_protocol m /\ um_bridge_path (beacon_meta p m) = um_bridge_path m.
Proof.
  intros Hp Hm. unfold beacon_meta. case_decide; [|done]. destruct (Beacon.decode (p_payload p)) as [b|e|] eqn:Eb; try done.
  assert (Hb : text_ok (UnifiedMessage.set_meta (str "neighbors") (dec (bc_neighbor_count b)) (UnifiedMessage.set_meta (str "role") (role_name (bc_role b)) m))).
  { apply set_meta_text; [|apply dec_encoded]. apply set_meta_text; [done|]. apply utf8_valid_iff. by destruct (bc_role b). }
  destruct (bc_full b) as [f|] eqn:Ef; [|by split_and!]. split; [|done]. apply set_meta_text; [done|].
  apply hex_encoded. by eapply beacon_key_bytes.
Qed.
Lemma star_decode_speaks a frame meta ctx m :
  bytes_ok frame -> star_decode a frame meta ctx = Ok m -> um_protocol m = MeshStar /\ text_ok m /\ um_bridge_path m = [].
Proof.
  intros Hf. unfold star_decode. pose proof (packet_decode_sound hmac_sha256 MAX_TTL frame (sa_network_key a)) as Hsound.
  destruct (packet_decode hmac_sha256 frame (sa_network_key a) MAX_TTL) as [p|e|]; [|by destruct e|done]. cbn [mbind outcome_bind].
  destruct (Hsound p Hf eq_refl) as [(Hh & Hpl & Hlen & _) _].
  destruct (security_of (p_header p)) as [sec enc]. destruct (star_content a p enc) as [[ct pl]|e|] eqn:Ec; try done. cbn [mbind outcome_bind].
  intros [= <-]. match goal with |- context [beacon_meta p ?m0] => destruct (beacon_meta_text p m0 Hpl) as (Ht & -> & ->) end; [|done].
  apply set_meta_text; [|apply dec_encoded]. apply set_meta_text; [|apply utf8_valid_iff; by destruct (h_ptype (p_header p))].
  split; [apply Hh|]. split; [constructor|]. cbn. apply star_content_len in Ec. unfold max_payload, MAX_FRAME, HEADER_LEN in Hlen.
  destruct (h_has _ _); change (2 ^ 32) with 4294967296; unfold NET_TAG_LEN in *; lia.
Qed.

Lemma ok_inj {E A} (x y : A) : Ok (E := E) x = Ok y -> x = y.
Proof. congruence. Qed.
Lemma star_encode_total a m ctx :
  star_ok a -> ctx_ok ctx -> text_ok m ->
  safe (star_encode a m ctx) /\ forall f, star_encode a m ctx = Ok f ->
    of_protocol f = MeshStar /\ of_profile f = cx_profile ctx /\ 1 <= zlen (of_bytes f) <= 255.
Proof.
  intros Ha (_ & Hr & Hrb & _) (_ & _ & Hpl). unfold star_encode. destruct (negb (IdentityRef.is_broadcast _)); [done|].
  destruct (negb (_ || _)); [done|]. unfold star_ok in Ha. destruct (sa_local a) as [src|]; [|done]. cbn [ok_or mbind outcome_bind].
  rewrite slice_in by (unfold zlen; rewrite ?Hr; lia). cbn [mbind outcome_bind]. set (id := Z.max _ 1).
  set (h := header_new Data src BROADCAST id 0 DEFAULT_TTL).
  assert (Hfin : forall h body, address_ok (h_src h) -> address_ok (h_dst h) -> (h_has h flags.NET_AUTH = true -> is_Some (sa_network_key a)) ->
    let r := if decide (zlen body > max_payload (h_has h flags.NET_AUTH)) then Err AdTooLarge else
      match packet_encode hmac_sha256 (mkPacket h body) (sa_network_key a) with
      | Ok bytes => Ok (mkFrame MeshStar bytes (cx_profile ctx)) | Err e => Err (AdCore e) | Panic => Panic end in
    safe r /\ forall f, r = Ok f -> of_protocol f = MeshStar /\ of_profile f = cx_profile ctx /\ 1 <= zlen (of_bytes f) <= 255).
  { clear -CryptoLibLaws0. intros h body Hs Hd Hk. cbv zeta. case_decide as Hl; [done|]. unfold packet_encode. cbn [p_header p_payload].
    case_decide as Hn; [done|]. case_decide; [done|]. pose proof (zlen_nonneg body). unfold max_payload, MAX_FRAME, HEADER_LEN, NET_TAG_LEN in *.
    destruct (h_has h flags.NET_AUTH) eqn:En.
    - destruct Hk as [k ->]; [done|]. cbn [unwrap mbind outcome_bind]. split; [done|]. intros f Hff. apply ok_inj in Hff. subst f. cbn [of_protocol of_profile of_bytes]. split; [done|]. split; [done|].
      rewrite !zlen_app, zlen_header_write, (zlen_net_tag hmac_sha256 hmac_len) by done. unfold HEADER_LEN, NET_TAG_LEN. lia.
    - split; [done|]. intros f Hff. apply ok_inj in Hff. subst f. cbn [of_protocol of_profile of_bytes]. split; [done|]. split; [done|]. rewrite zlen_app, zlen_header_write by done. unfold HEADER_LEN. lia. }
  assert (Hb : address_ok BROADCAST) by (split; [done|]; apply Forall_replicate; done).
  destruct (sa_network_key a) as [k|] eqn:Ek.
  - unfold group_encrypt. destruct (aead_total (group_key sha256 k) (group_nonce src id) (header_aad (h_set (h_set h flags.NET_AUTH true) flags.GROUP_ENCRYPTED true) 0) (um_payload m) Hpl) as [[ct tag] Hct].
    rewrite Hct. cbn [unwrap mbind outcome_bind]. apply Hfin; [done|done|eauto].
  - cbn [mbind outcome_bind]. apply Hfin; [done|done|]. unfold h, header_new, h_has, has_flag. cbn. done.
Qed.

#[global] Instance star_contract : AdapterContract MeshStarAdapter star_ok.
Proof.
  split.
  - intros a frame meta ctx _ Hf _. by apply star_detect_total.
  - intros a frame meta ctx _ Hf _. by apply star_decode_safe.
  - intros a frame meta ctx m _ Hf _. by apply star_decode_speaks.
  - intros a m ctx Ha Hc Hm _. by apply star_encode_total.
  - intros a m ctx f Ha Hc Hm _. by apply star_encode_total.
  - intros a ctx Ha _. exists a, []. split; [done|]. split; [done|]. split; [done|constructor].
  - intros a _. cbn. change (2 ^ 32) with 4294967296. lia.
Qed.
End Contract.
End StarFacts.

(** ** A gateway with the native adapter *)
Module StarGateway.
Import StarFacts UnifiedFacts BridgeFacts.

Definition sg_star : MeshStarAdapter := MeshStarAdapter_new None (Some (mkAddress [1; 2; 3; 4; 5; 6; 7; 8])).
Definition sg_ctx : ProtocolContext := ProtocolContext.new 5000 1700000000 LoRaProfile.MESHSTAR_EU868.
Definition sg_meta_rx : RxMeta := RxMeta_new (-80) (f32_of 5) 5000.
Definition sg_frame : list Z :=
  match star_encode (C := ToyCrypto.lib) sg_star (UnifiedMessage.text (IdMeshtastic 7) (IdBroadcast MeshStar) MeshStar (str "hi")) sg_ctx with
  | Ok f => of_bytes f | _ => []
  end.
Definition sg_gw : Gateway MeshStarAdapter := gateway_new (str "gw") (Detector_new [sg_star]).
Definition sg_conf : GwOp := GwConfigure Bridge Policy.public_text_bridging true.
Definition sg_gw1 : Gateway MeshStarAdapter := (gw_run (C := ToyCrypto.lib) sg_conf sg_gw).1.
Definition sg_on_frame := on_frame (C := ToyCrypto.lib) sg_frame sg_meta_rx sg_ctx sg_gw1.
Definition sg_result := match sg_on_frame.2 with Ok r => r | _ => (mkDetection Unknown 0 [] None None, None, []) end.
Lemma sg_frame_ok : bytes_ok sg_frame.
Proof. apply bytes_check. vm_compute. reflexivity. Qed.
Lemma sg_ctx_ok : ctx_ok sg_ctx.
Proof.
  split; [vm_compute; repeat split; discriminate|]. split; [done|]. split; [by apply Forall_replicate|]. by vm_compute.
Qed.
Lemma sg_star_ok : Forall star_ok [sg_star].
Proof. constructor; [|done]. split; [done|]. by repeat constructor. Qed.
Lemma sg_reach : gw_reach (C := ToyCrypto.lib) (str "gw") [sg_star] sg_gw1.
Proof. eapply (gw_step _ _ sg_gw _ sg_conf); [apply gw_start|done|reflexivity]. Qed.
Lemma sg_result_eq : sg_on_frame.2 = Ok sg_result.
Proof. vm_compute. reflexivity. Qed.
Lemma sg_on_frame_eq : sg_on_frame = (sg_on_frame.1, Ok (sg_result.1.1, sg_result.1.2, sg_result.2)).
Proof. rewrite (surjective_pairing sg_on_frame) at 1. rewrite sg_result_eq. by destruct sg_result as [[] ]. Qed.

Lemma gateway_never_panics_witness : exists g' out, gw_run (C := ToyCrypto.lib) (GwFrame sg_frame sg_meta_rx sg_ctx) sg_gw1 = (g', Ok out).
Proof.
  apply (gateway_never_panics (C := ToyCrypto.lib) (ok := star_ok) (str "gw") [sg_star]); [exact sg_star_ok|exact sg_reach|].
  split; [exact sg_frame_ok|exact sg_ctx_ok].
Defined.
Lemma gateway_bounded_memory_witness : zlen (gt_cache sg_gw1) <= gt_cache_cap sg_gw1.
Proof. apply (gateway_bounded_memory (C := ToyCrypto.lib) (ok := star_ok) (str "gw") [sg_star] sg_gw1 sg_star_ok sg_reach). Defined.
Lemma gateway_sends_only_allowed_witness : is_Some sg_result.1.2 /\ match sg_result.1.2 with None => True | Some msg => Forall (sent sg_gw1 msg sg_ctx) sg_result.2 end.
Proof.
  split; [by vm_compute; eexists|].
  pose proof (gateway_sends_only_allowed (C := ToyCrypto.lib) (ok := star_ok) (str "gw") [sg_star] sg_gw1 sg_on_frame.1 sg_frame sg_meta_rx sg_ctx
    sg_result.1.1 sg_result.1.2 sg_result.2 sg_star_ok sg_reach sg_frame_ok sg_ctx_ok sg_on_frame_eq) as H.
  destruct sg_result.1.2; [apply H|done].
Defined.
End StarGateway.
