(* ===== verification/Strings.v ===== *)
(** * More of Rust's strings

    Lossy decoding, trimming, number parsing and formatting, as the adapters of
    the foreign protocols use them ([core::str], [core::num], [core::fmt]). *)
From stdpp Require Import base tactics list numbers.
From Stdlib Require Import Lia Ascii String.
From S2P Require Import Prelude Protocol Text.
From stdpp Require Import list.
Import Text.
#[local] Open Scope Z_scope.

(** ** [String::from_utf8_lossy] *)

Definition REPLACEMENT : list Z := [0xEF; 0xBF; 0xBD].
(** The character, or the longest run of bytes that could have begun one, at the
    head: its length and whether it is a character. *)
Definition second_ok (b c : Z) : bool :=
  if decide (b = 0xE0) then between 0xA0 0xBF c
  else if decide (b = 0xED) then between 0x80 0x9F c
  else if decide (b = 0xF0) then between 0x90 0xBF c
  else if decide (b = 0xF4) then between 0x80 0x8F c
  else is_cont c.
Definition at_or_zero (l : list Z) (i : nat) : Z := default 0 (l !! i).
Definition utf8_chunk (l : list Z) : nat * bool :=
  let b := at_or_zero l 0 in
  if between 0 0x7F b then (1%nat, true)
  else if between 0xC2 0xDF b then if is_cont (at_or_zero l 1) then (2%nat, true) else (1%nat, false)
  else if between 0xE0 0xEF b then
    if negb (second_ok b (at_or_zero l 1)) then (1%nat, false)
    else if is_cont (at_or_zero l 2) then (3%nat, true) else (2%nat, false)
  else if between 0xF0 0xF4 b then
    if negb (second_ok b (at_or_zero l 1)) then (1%nat, false)
    else if negb (is_cont (at_or_zero l 2)) then (2%nat, false)
    else if is_cont (at_or_zero l 3) then (4%nat, true) else (3%nat, false)
  else (1%nat, false).
Fixpoint lossy (l : list Z) (skip : nat) : list Z :=
  match l with
  | [] => []
  | _ :: l' =>
      match skip with
      | S k => lossy l' k
      | O => let '(n, ok) := utf8_chunk l in (if ok then take n l else REPLACEMENT) ++ lossy l' (Nat.pred n)
      end
  end.
Definition from_utf8_lossy (l : list Z) : list Z := lossy l 0.

(** ** Slicing *)

Definition eq_ignore_ascii_case (a b : list Z) : bool := bool_decide (to_ascii_lowercase a = to_ascii_lowercase b).
Definition strip_prefix (p s : list Z) : option (list Z) := if starts_with p s then Some (drop (length p) s) else None.
Fixpoint trim_start (s : list Z) (skip : nat) : list Z :=
  match s with
  | [] => []
  | _ :: s' =>
      match skip with
      | S k => trim_start s' k
      | O => match whitespace_len s with O => s | S k => trim_start s' k end
      end
  end.
Fixpoint trim_end (s : list Z) : list Z :=
  match s with
  | [] => []
  | b :: s' => if decide (split_whitespace s = []) then [] else b :: trim_end s'
  end.
Definition trim (s : list Z) : list Z := trim_end (trim_start s 0).
(** [s.chars().take(n).collect()]. *)
Fixpoint take_chars (n : nat) (s : list Z) : list Z :=
  match s with
  | [] => []
  | b :: s' => if is_cont b then b :: take_chars n s' else match n with O => [] | S k => b :: take_chars k s' end
  end.
(** [s.split(c).next()] for a one-byte character. *)
Definition first_field (c : Z) (s : list Z) : list Z := match split_once [c] s with Some (l, _) => l | None => s end.

(** ** Numbers *)

Definition digit_value (radix b : Z) : option Z :=
  let d := if between 48 57 b then b - 48 else if between 97 122 b then b - 87 else if between 65 90 b then b - 55 else radix in
  if decide (d < radix) then Some d else None.
Fixpoint parse_digits (radix acc : Z) (s : list Z) : option Z :=
  match s with
  | [] => Some acc
  | b :: s' => match digit_value radix b with Some d => parse_digits radix (acc * radix + d) s' | None => None end
  end.
(** [uN::from_str_radix]: an optional [+] and digits, at most [max].  The value
    only grows, so the overflow of a step is the overflow of the result. *)
Definition parse_unsigned (radix max : Z) (s : list Z) : option Z :=
  let digits := match s with 43 :: r => r | _ => s end in
  match digits with
  | [] => None
  | _ => n ← parse_digits radix 0 digits; if decide (n <= max) then Some n else None
  end.
(** [iN::from_str_radix]: a [-] negates. *)
Definition parse_signed (radix max : Z) (s : list Z) : option Z :=
  match s with
  | 45 :: r => match r with [] => None | _ => n ← parse_digits radix 0 r; if decide (n <= max + 1) then Some (- n) else None end
  | _ => parse_unsigned radix max s
  end.
(** [{}] of a signed integer, [{:02x}], [{:04x}], [{:07}]. *)
Definition dec_signed (n : Z) : list Z := if decide (n < 0) then 45 :: dec (- n) else dec n.
Definition hex_u8 (n : Z) : list Z := hex_byte n.
Definition pad_zeros (width : nat) (s : list Z) : list Z := replicate (width - length s) 48 ++ s.

(** * Facts *)

Lemma at_zero l i : at_or_zero l i <> 0 -> exists b, l !! i = Some b /\ at_or_zero l i = b.
Proof. unfold at_or_zero. intros H. destruct (l !! i) as [b|]; [by exists b|by destruct H]. Qed.
Lemma cont_at l i : is_cont (at_or_zero l i) = true -> exists b, l !! i = Some b /\ is_cont b = true.
Proof.
  intros H. destruct (at_zero l i) as (b & Hl & Hb); [|exists b; split; [done|by rewrite <- Hb]].
  intros E. rewrite E in H. unfold is_cont, between in H. apply bool_decide_eq_true in H. lia.
Qed.
Lemma second_at b l i : second_ok b (at_or_zero l i) = true -> exists c, l !! i = Some c /\ second_ok b c = true.
Proof.
  intros H. destruct (at_zero l i) as (c & Hl & Hc); [|exists c; split; [done|by rewrite <- Hc]].
  intros E. rewrite E in H. unfold second_ok, is_cont, between in H. repeat case_decide; apply bool_decide_eq_true in H; lia.
Qed.

Lemma second_ok_char3 b c1 c2 : between 0xE0 0xEF b = true -> second_ok b c1 = true -> is_cont c2 = true -> utf8_char [b; c1; c2] = true.
Proof.
  unfold utf8_char, second_ok, is_cont, between. intros Hb H1 ->. apply bool_decide_eq_true in Hb.
  rewrite andb_true_r, !orb_true_iff, !andb_true_iff, !bool_decide_eq_true. repeat case_decide; apply bool_decide_eq_true in H1; lia.
Qed.
Lemma second_ok_char4 b c1 c2 c3 :
  between 0xF0 0xF4 b = true -> second_ok b c1 = true -> is_cont c2 = true -> is_cont c3 = true -> utf8_char [b; c1; c2; c3] = true.
Proof.
  unfold utf8_char, second_ok, is_cont, between. intros Hb H1 -> ->. apply bool_decide_eq_true in Hb.
  rewrite !andb_true_r, !orb_true_iff, !andb_true_iff, !bool_decide_eq_true. repeat case_decide; apply bool_decide_eq_true in H1; lia.
Qed.
(** A chunk that counts as a character is one. *)
Lemma utf8_chunk_char b l n : utf8_chunk (b :: l) = (n, true) -> utf8_char (take n (b :: l)) = true /\ (1 <= n <= length (b :: l))%nat.
Proof.
  unfold utf8_chunk. change (at_or_zero (b :: l) 0) with b.
  change (at_or_zero (b :: l) 1) with (at_or_zero l 0). change (at_or_zero (b :: l) 2) with (at_or_zero l 1). change (at_or_zero (b :: l) 3) with (at_or_zero l 2).
  destruct (between 0 0x7F b) eqn:E1; [intros [= <-]; split; [done|simpl; lia]|].
  destruct (between 0xC2 0xDF b) eqn:E2.
  { destruct (is_cont (at_or_zero l 0)) eqn:C1; [|done]. intros [= <-]. apply cont_at in C1 as (c1 & H1 & C1). destruct l as [|x l]; [done|].
    injection H1 as ->. split; [|simpl; lia]. unfold utf8_char. cbn [take]. by rewrite E2, C1. }
  destruct (between 0xE0 0xEF b) eqn:E3.
  { destruct (second_ok b (at_or_zero l 0)) eqn:S1; [|done]. destruct (is_cont (at_or_zero l 1)) eqn:C2; [|done]. intros [= <-].
    apply second_at in S1 as (c1 & H1 & S1). apply cont_at in C2 as (c2 & H2 & C2). destruct l as [|x [|y l]]; try done.
    injection H1 as ->. injection H2 as ->. split; [|simpl; lia]. by apply second_ok_char3. }
  destruct (between 0xF0 0xF4 b) eqn:E4; [|done].
  destruct (second_ok b (at_or_zero l 0)) eqn:S1; [|done]. destruct (is_cont (at_or_zero l 1)) eqn:C2; [|done].
  destruct (is_cont (at_or_zero l 2)) eqn:C3; [|done]. intros [= <-].
  apply second_at in S1 as (c1 & H1 & S1). apply cont_at in C2 as (c2 & H2 & C2). apply cont_at in C3 as (c3 & H3 & C3).
  destruct l as [|x [|y [|z l]]]; try done. injection H1 as ->. injection H2 as ->. injection H3 as ->. split; [|simpl; lia]. by apply second_ok_char4.
Qed.
Lemma utf8_chunk_pos l : (1 <= (utf8_chunk l).1)%nat.
Proof. unfold utf8_chunk. repeat destruct (between _ _ _); repeat destruct (is_cont _); repeat destruct (second_ok _ _); simpl; lia. Qed.

(** Lossy decoding always yields text, and text decodes to itself. *)
Lemma lossy_encoded l : forall skip, well_encoded (lossy l skip).
Proof.
  induction l as [|b l IH]; intros skip; [constructor|]. cbn [lossy]. destruct skip; [|apply IH].
  destruct (utf8_chunk (b :: l)) as [n [|]] eqn:E; [|by apply (encoded_app REPLACEMENT)].
  apply utf8_chunk_char in E as [E _]. by apply encoded_app.
Qed.
Lemma from_utf8_lossy_encoded l : well_encoded (from_utf8_lossy l).
Proof. apply lossy_encoded. Qed.
Lemma lossy_skip l n : lossy l n = lossy (drop n l) 0.
Proof. revert n. induction l as [|b l IH]; intros [|n]; try done. cbn [lossy drop]. apply IH. Qed.
Lemma utf8_chunk_of_char c s : utf8_char c = true -> utf8_chunk (c ++ s) = (length c, true).
Proof.
  intros Hc. destruct c as [|b [|c1 [|c2 [|c3 [|]]]]]; try done; unfold utf8_chunk, at_or_zero, second_ok; cbn [app lookup list_lookup default length id];
    unfold utf8_char, is_cont, between in *;
    repeat match goal with
    | H : _ && _ = true |- _ => apply andb_true_iff in H as [? ?]
    | H : _ || _ = true |- _ => apply orb_true_iff in H as [H|H]
    | H : bool_decide _ = true |- _ => apply bool_decide_eq_true in H
    end;
    repeat first [rewrite bool_decide_true by (cbn; lia) | rewrite bool_decide_false by (cbn; lia) | rewrite decide_True by (cbn; lia) | rewrite decide_False by (cbn; lia) | progress cbn [negb] ]; done.
Qed.
Lemma from_utf8_lossy_id s : well_encoded s -> from_utf8_lossy s = s.
Proof.
  unfold from_utf8_lossy. induction 1 as [|c s Hc _ IH]; [done|]. pose proof (utf8_chunk_of_char c s Hc) as Ech.
  destruct c as [|b c]; [done|]. change ((b :: c) ++ s) with (b :: (c ++ s)) in *. cbn [lossy]. rewrite Ech. cbn [length Nat.pred].
  change (b :: c ++ s) with ((b :: c) ++ s). change (S (length c)) with (length (b :: c)). rewrite take_app_length. f_equal.
  by rewrite lossy_skip, drop_app_length.
Qed.

(** Decimal digits read back. *)
Definition is_digit (b : Z) : Prop := 48 <= b <= 57.
Lemma digit_value_dec d : 0 <= d < 10 -> digit_value 10 (48 + d) = Some d.
Proof. intros Hd. unfold digit_value, between. rewrite bool_decide_true by lia. replace (48 + d - 48) with d by lia. by rewrite decide_True by lia. Qed.
Lemma digits_read fuel : forall n acc,
  0 <= n < 10 ^ Z.of_nat fuel -> (0 < fuel)%nat ->
  exists l, digits fuel n acc = l ++ acc /\ Forall is_digit l /\ l <> [] /\ (length l <= fuel)%nat /\
    forall a r, parse_digits 10 a (l ++ r) = parse_digits 10 (a * 10 ^ zlen l + n) r.
Proof.
  induction fuel as [|fuel IH]; intros n acc Hn Hf; [lia|]. cbn [digits].
  pose proof (Z.mod_pos_bound n 10 ltac:(lia)) as Hm. case_decide as Hlt.
  - exists [48 + n mod 10]. split; [done|]. split; [repeat constructor; lia|]. split; [done|]. split; [simpl; lia|]. intros a r.
    cbn [app parse_digits]. rewrite digit_value_dec by lia. rewrite Z.mod_small by lia. done.
  - rewrite Nat2Z.inj_succ, Z.pow_succ_r in Hn by lia.
    assert (Hq : 0 <= n / 10 < 10 ^ Z.of_nat fuel) by (split; [apply Z.div_pos; lia|apply Z.div_lt_upper_bound; lia]).
    assert (Hf' : (0 < fuel)%nat) by (destruct fuel; [simpl in Hn; lia|lia]).
    destruct (IH (n / 10) (48 + n mod 10 :: acc) Hq Hf') as (l & -> & Hd & Hne & Hl & Hp).
    exists (l ++ [48 + n mod 10]). rewrite <- !app_assoc. split; [done|]. split; [apply Forall_app_2; [done|]; repeat constructor; lia|].
    split; [by destruct l|]. split; [rewrite length_app; simpl; lia|]. intros a r. rewrite <- app_assoc, Hp. cbn [app parse_digits].
    rewrite digit_value_dec by lia. f_equal. unfold zlen. rewrite length_app, Nat2Z.inj_add. change (Z.of_nat (length [48 + n mod 10])) with 1.
    rewrite Z.pow_add_r by lia. pose proof (Z.div_mod n 10). lia.
Qed.
Lemma dec_read n : 0 <= n < 10 ^ 20 -> exists l, dec n = l /\ Forall is_digit l /\ l <> [] /\ forall a r, parse_digits 10 a (l ++ r) = parse_digits 10 (a * 10 ^ zlen l + n) r.
Proof. intros Hn. destruct (digits_read 20 n [] Hn ltac:(lia)) as (l & Hl & Hd & Hne & _ & Hp). exists l. unfold dec. by rewrite Hl, app_nil_r. Qed.
Lemma dec_short n k : (0 < k <= 20)%nat -> 0 <= n < 10 ^ Z.of_nat k -> (length (dec n) <= k)%nat.
Proof.
  intros Hk Hn. unfold dec. assert (Hstep : forall a b n acc, (0 < a <= b)%nat -> 0 <= n < 10 ^ Z.of_nat a -> digits b n acc = digits a n acc).
  { clear. induction a as [|a IH]; intros b n acc Hab Hn; [lia|]. destruct b as [|b]; [lia|]. cbn [digits]. case_decide; [done|].
    rewrite Nat2Z.inj_succ, Z.pow_succ_r in Hn by lia. apply IH; [|split; [apply Z.div_pos; lia|apply Z.div_lt_upper_bound; lia]].
    destruct a; [simpl in Hn; lia|lia]. }
  rewrite (Hstep k 20%nat) by lia. destruct (digits_read k n [] Hn ltac:(lia)) as (l & -> & _ & _ & Hl & _). by rewrite app_nil_r.
Qed.
Lemma parse_zeros k : forall a r, parse_digits 10 a (replicate k 48 ++ r) = parse_digits 10 (a * 10 ^ Z.of_nat k) r.
Proof.
  induction k as [|k IH]; intros a r; [by rewrite Z.mul_1_r|]. cbn [replicate app parse_digits]. change (digit_value 10 48) with (Some 0). cbn beta iota.
  rewrite IH, Nat2Z.inj_succ, Z.pow_succ_r by lia. f_equal. lia.
Qed.
Lemma parse_dec n : 0 <= n < 10 ^ 20 -> parse_digits 10 0 (dec n) = Some n.
Proof. intros Hn. destruct (dec_read n Hn) as (l & -> & _ & _ & Hp). by rewrite <- (app_nil_r l), Hp. Qed.
Lemma dec_digits n : 0 <= n < 10 ^ 20 -> Forall is_digit (dec n) /\ dec n <> [].
Proof. intros Hn. by destruct (dec_read n Hn) as (l & -> & ? & ? & _). Qed.
Lemma pad_read k n : (0 < k <= 20)%nat -> 0 <= n < 10 ^ Z.of_nat k ->
  length (pad_zeros k (dec n)) = k /\ Forall is_digit (pad_zeros k (dec n)) /\ parse_digits 10 0 (pad_zeros k (dec n)) = Some n.
Proof.
  intros Hk Hn. pose proof (dec_short n k Hk Hn). assert (H20 : 10 ^ Z.of_nat k <= 10 ^ 20) by (apply Z.pow_le_mono_r; lia).
  unfold pad_zeros. rewrite length_app, length_replicate. split; [lia|]. split.
  - apply Forall_app_2; [|apply dec_digits; lia]. apply Forall_replicate. unfold is_digit. lia.
  - rewrite parse_zeros. apply parse_dec. lia.
Qed.

(** Hexadecimal bytes read back. *)
Lemma hex_digit_value d : 0 <= d < 16 -> digit_value 16 (hex_digit d) = Some d.
Proof.
  intros Hd. assert (Hx : d = 0 \/ d = 1 \/ d = 2 \/ d = 3 \/ d = 4 \/ d = 5 \/ d = 6 \/ d = 7 \/ d = 8 \/ d = 9 \/ d = 10 \/ d = 11 \/ d = 12 \/ d = 13 \/ d = 14 \/ d = 15) by lia.
  repeat destruct Hx as [->|Hx]; [reflexivity..|by rewrite Hx].
Qed.
Lemma parse_hex_bytes l : bytes_ok l -> forall a, parse_digits 16 a (hex_encode l) = Some (a * 256 ^ zlen l + from_be l).
Proof.
  unfold hex_encode. induction 1 as [|b l Hb Hl IH]; intros a; [by rewrite zlen_nil, Z.mul_1_r, Z.add_0_r|].
  unfold byte_ok, in_u in Hb. change (2 ^ 8) with 256 in Hb.
  change (mbind hex_byte (b :: l)) with (hex_byte b ++ mbind hex_byte l). unfold hex_byte at 1. cbn [app parse_digits].
  rewrite !hex_digit_value by (split; [first [apply Z.div_pos|apply Z.mod_pos_bound]; lia|first [apply Z.div_lt_upper_bound|apply Z.mod_pos_bound]; lia]).
  rewrite IH. f_equal. rewrite zlen_cons, Z.pow_add_r by (pose proof (zlen_nonneg l); lia). rewrite from_be_cons.
  pose proof (Z.div_mod b 16). lia.
Qed.

(** ASCII text without spaces. *)
Definition visible (b : Z) : Prop := 33 <= b <= 126.
Lemma words_nonempty s : forall skip w, w <> [] -> words s skip w <> [].
Proof.
  assert (Hr : forall w : list Z, w <> [] -> reverse w <> []) by (intros w Hw H; apply Hw; apply (f_equal reverse) in H; by rewrite reverse_involutive in H).
  induction s as [|b s IH]; intros skip w Hw; cbn [words]; [by destruct w|]. destruct skip; [|by apply IH].
  destruct (whitespace_len (b :: s)); [by apply IH|]. by destruct w.
Qed.
Lemma whitespace_visible b s : visible b -> whitespace_len (b :: s) = 0%nat.
Proof.
  unfold visible. intros Hb. unfold whitespace_len. rewrite decide_False by lia.
  assert (Hn : b <> 0xC2 /\ b <> 0xE1 /\ b <> 0xE2 /\ b <> 0xE3) by lia. destruct Hn as (H1 & H2 & H3 & H4).
  destruct b as [|p|p]; [done| |done]. do 8 (destruct p as [p|p|]; try done; try (exfalso; lia)).
Qed.
Lemma trim_visible s : Forall visible s -> trim s = s.
Proof.
  unfold trim. intros Hs. assert (H1 : trim_start s 0 = s) by (destruct Hs as [|b s Hb Hs]; [done|]; cbn [trim_start]; by rewrite whitespace_visible).
  rewrite H1. clear H1. induction Hs as [|b s Hb Hs IH]; [done|]. cbn [trim_end]. rewrite decide_False; [by rewrite IH|].
  unfold split_whitespace. cbn [words]. rewrite whitespace_visible by done. by apply words_nonempty.
Qed.
Lemma take_chars_encoded s : well_encoded s -> forall n, well_encoded (take_chars n s).
Proof.
  assert (Hk : forall c s n, Forall (fun b => is_cont b = true) c -> take_chars n (c ++ s) = c ++ take_chars n s).
  { clear. intros c s n Hc. induction Hc as [|b c Hb _ IH]; [done|]. cbn [app take_chars]. by rewrite Hb, IH. }
  induction 1 as [|c s Hc _ IH]; intros n; [constructor|].
  assert (Hh : exists b c', c = b :: c' /\ is_cont b = false /\ Forall (fun b => is_cont b = true) c').
  { destruct c as [|b [|c1 [|c2 [|c3 [|]]]]]; try done; exists b; eexists; (split; [reflexivity|]); unfold utf8_char, is_cont, between in *;
      repeat match goal with
      | H : _ && _ = true |- _ => apply andb_true_iff in H as [? ?]
      | H : _ || _ = true |- _ => apply orb_true_iff in H as [H|H]
      | H : bool_decide _ = true |- _ => apply bool_decide_eq_true in H
      end; (split; [apply bool_decide_false; lia|]); repeat constructor; apply bool_decide_true; lia. }
  destruct Hh as (b & c' & -> & Hb & Hc'). cbn [app take_chars]. rewrite Hb. destruct n; [constructor|]. rewrite Hk by done.
  change (b :: c' ++ take_chars n s) with ((b :: c') ++ take_chars n s). by apply encoded_app.
Qed.
