(* ===== verification/Proto.v ===== *)
(** * Protocol buffers

    [crates/meshstar-protocols/src/meshtastic/proto.rs]: the hand-written codec
    of the four Meshtastic messages the adapter needs.  [Reader] and [Writer]
    are a position in a buffer and a growing buffer; a [decode] folds the fields
    it reads into a record of defaults. *)
From stdpp Require Import base tactics list numbers.
From Stdlib Require Import Lia Ascii String.
From S2P Require Import Prelude Protocol Text Strings.
From stdpp Require Import list.
Import Text Strings.
#[local] Open Scope Z_scope.

(** [uN::to_le_bytes] and [from_le_bytes]; a 32-bit pattern as [i32]. *)
Definition le_bytes (n : nat) (z : Z) : list Z := reverse (be_bytes n z).
Definition from_le (l : list Z) : Z := from_be (reverse l).
Definition as_i32 (z : Z) : Z := let m := z mod 2 ^ 32 in if decide (m < 2 ^ 31) then m else m - 2 ^ 32.

Inductive ProtoError := PeTruncated | VarintOverflow | BadWireType (wire : Z) | WrongWireType (field wire : Z) | PeBadField.
(** [{:?}], which is also the [Display] form. *)
Definition proto_error_debug (e : ProtoError) : list Z :=
  match e with
  | PeTruncated => str "Truncated"
  | VarintOverflow => str "VarintOverflow"
  | BadWireType w => str "BadWireType(" ++ dec w ++ str ")"
  | WrongWireType f w => str "WrongWireType { field: " ++ dec f ++ str ", wire: " ++ dec w ++ str " }"
  | PeBadField => str "BadField"
  end.

Definition WT_VARINT : Z := 0.
Definition WT_FIXED64 : Z := 1.
Definition WT_LEN : Z := 2.
Definition WT_FIXED32 : Z := 5.

Inductive Value := Varint (v : Z) | Fixed64 (v : Z) | Len (b : list Z) | Fixed32 (v : Z).
Module Value.
Definition wire_type (v : Value) : Z :=
  match v with Varint _ => WT_VARINT | Fixed64 _ => WT_FIXED64 | Len _ => WT_LEN | Fixed32 _ => WT_FIXED32 end.
Definition varint (field : Z) (v : Value) : outcome ProtoError Z :=
  match v with Varint n => Ok n | other => Err (WrongWireType field (wire_type other)) end.
Definition to_u32 (field : Z) (v : Value) : outcome ProtoError Z := n ← varint field v; Ok (u32 n).
Definition to_i32 (field : Z) (v : Value) : outcome ProtoError Z := n ← varint field v; Ok (as_i32 n).
Definition sint32 (field : Z) (v : Value) : outcome ProtoError Z :=
  n ← varint field v; let n := u32 n in Ok (Z.lxor (as_i32 (Z.shiftr n 1)) (- as_i32 (Z.land n 1))).
Definition to_bool (field : Z) (v : Value) : outcome ProtoError bool := n ← varint field v; Ok (bool_decide (n <> 0)).
Definition fixed32 (field : Z) (v : Value) : outcome ProtoError Z :=
  match v with Fixed32 n => Ok n | other => Err (WrongWireType field (wire_type other)) end.
Definition sfixed32 (field : Z) (v : Value) : outcome ProtoError Z := n ← fixed32 field v; Ok (as_i32 n).
Definition bytes (field : Z) (v : Value) : outcome ProtoError (list Z) :=
  match v with Len b => Ok b | other => Err (WrongWireType field (wire_type other)) end.
Definition string (field : Z) (v : Value) : outcome ProtoError (list Z) := b ← bytes field v; Ok (from_utf8_lossy b).
End Value.

Record Reader := mkReader { rd_buf : list Z; rd_pos : Z }.
Module Reader.
Definition new (buf : list Z) : Reader := mkReader buf 0.
Definition remaining (r : Reader) : Z := sat_sub (zlen (rd_buf r)) (rd_pos r).
(** [for i in 0..10]: [n] iterations are left. *)
Fixpoint varint_loop (n : nat) (i result : Z) (r : Reader) : outcome ProtoError (Z * Reader) :=
  match n with
  | O => Err VarintOverflow
  | S n' =>
      match rd_buf r !! Z.to_nat (rd_pos r) with
      | None => Err PeTruncated
      | Some b =>
          let r := mkReader (rd_buf r) (usize (rd_pos r + 1)) in
          let payload := Z.land b 0x7F in
          if decide (i = 9 /\ payload > 1) then Err VarintOverflow else
          let result := Z.lor result (u64 (Z.shiftl payload (7 * i))) in
          if decide (Z.land b 0x80 = 0) then Ok (result, r) else varint_loop n' (i + 1) result r
      end
  end.
Definition read_varint (r : Reader) : outcome ProtoError (Z * Reader) := varint_loop 10 0 0 r.
Definition take (n : Z) (r : Reader) : outcome ProtoError (list Z * Reader) :=
  let e := rd_pos r + n in
  if decide (e > U32_MAX) then Err PeTruncated else
  if decide (e > zlen (rd_buf r)) then Err PeTruncated else
  s ← slice (rd_buf r) (rd_pos r) e; Ok (s, mkReader (rd_buf r) e).
Definition read_value (wire : Z) (r : Reader) : outcome ProtoError (Value * Reader) :=
  if decide (wire = WT_VARINT) then '(v, r) ← read_varint r; Ok (Varint v, r)
  else if decide (wire = WT_FIXED64) then '(s, r) ← take 8 r; Ok (Fixed64 (from_le s), r)
  else if decide (wire = WT_LEN) then
    '(len, r) ← read_varint r;
    if decide (len > remaining r) then Err PeTruncated else
    '(s, r) ← take (usize len) r; Ok (Len s, r)
  else if decide (wire = WT_FIXED32) then '(s, r) ← take 4 r; Ok (Fixed32 (from_le s), r)
  else Err (BadWireType wire).
Definition next_field (r : Reader) : outcome ProtoError (option (Z * Value) * Reader) :=
  if decide (rd_pos r >= zlen (rd_buf r)) then Ok (None, r) else
  '(key, r) ← read_varint r;
  let wire := Z.land key 7 in
  let field := u32 (Z.shiftr key 3) in
  if decide (field = 0 \/ Z.shiftr key 3 > U32_MAX) then Err PeBadField else
  '(value, r) ← read_value wire r;
  Ok (Some (field, value), r).
(** [while let Some((field, v)) = r.next_field()? { .. }]: every round consumes
    input, so the length of the buffer bounds the rounds. *)
Fixpoint each_field {M} (step : Z -> Value -> M -> outcome ProtoError M) (fuel : nat) (r : Reader) (m : M) : outcome ProtoError M :=
  match fuel with
  | O => Panic
  | S fuel' =>
      '(o, r) ← next_field r;
      match o with
      | None => Ok m
      | Some (field, v) => m ← step field v m; each_field step fuel' r m
      end
  end.
Definition fields {M} (step : Z -> Value -> M -> outcome ProtoError M) (buf : list Z) (m : M) : outcome ProtoError M :=
  each_field step (S (length buf)) (new buf) m.
End Reader.

Module Writer.
(** [loop] of [write_varint]: ten rounds write a [u64]. *)
Fixpoint varint_bytes (n : nat) (v : Z) : list Z :=
  let b := u8 (Z.land v 0x7F) in
  let v := Z.shiftr v 7 in
  if decide (v = 0) then [b] else match n with O => [] | S n' => Z.lor b 0x80 :: varint_bytes n' v end.
Definition write_varint (v : Z) (w : list Z) : list Z := w ++ varint_bytes 9 v.
Definition key (field wire : Z) (w : list Z) : list Z := write_varint (Z.lor (u64 (Z.shiftl field 3)) wire) w.
Definition varint (field v : Z) (w : list Z) : list Z := write_varint v (key field WT_VARINT w).
Definition int32 (field v : Z) (w : list Z) : list Z := varint field (u64 v) w.
Definition sint32 (field v : Z) (w : list Z) : list Z := varint field (u32 (Z.lxor (as_i32 (Z.shiftl v 1)) (Z.shiftr v 31))) w.
Definition bool (field : Z) (v : bool) (w : list Z) : list Z := varint field (Z.b2z v) w.
Definition fixed32 (field v : Z) (w : list Z) : list Z := key field WT_FIXED32 w ++ le_bytes 4 v.
Definition sfixed32 (field v : Z) (w : list Z) : list Z := fixed32 field (u32 v) w.
Definition bytes (field : Z) (v : list Z) (w : list Z) : list Z := write_varint (zlen v) (key field WT_LEN w) ++ v.
Definition string (field : Z) (v : list Z) (w : list Z) : list Z := bytes field v w.
End Writer.

Definition DATA_PAYLOAD_LEN : Z := 233.
Definition BITFIELD_OK_TO_MQTT : Z := Z.shiftl 1 0.
Definition BITFIELD_WANT_RESPONSE : Z := Z.shiftl 1 1.
Definition HW_MODEL_PRIVATE_HW : Z := 255.
Definition ROLE_CLIENT : Z := 0.
Definition ROUTING_ERROR_NONE : Z := 0.

(** [if c { w.f(..); }] and [if let Some(v) = o { w.f(.., v); }] *)
Definition put_if (c : bool) (f : list Z -> list Z) (w : list Z) : list Z := if c then f w else w.
Definition put_some {A} (o : option A) (f : A -> list Z -> list Z) (w : list Z) : list Z := match o with Some v => f v w | None => w end.
(** [for (field, v) in [..] { if v != 0 { w.varint(field, v as u64); } }] *)
Definition varint_each (l : list (Z * Z)) (w : list Z) : list Z :=
  foldl (fun w e => put_if (bool_decide (e.2 <> 0)) (Writer.varint e.1 e.2) w) w l.


(** ** [meshtastic.Data] *)

Record PbData := mkPbData {
  d_portnum : Z; d_payload : list Z; d_want_response : bool; d_dest : Z; d_source : Z; d_request_id : Z;
  d_reply_id : Z; d_emoji : Z; d_bitfield : option Z; d_xeddsa_signature : option (list Z)
}.
Module PbData.
Definition default_value : PbData := mkPbData 0 [] false 0 0 0 0 0 None None.
Definition set_portnum (v : Z) (m : PbData) : PbData :=
  mkPbData
    v (d_payload m) (d_want_response m) (d_dest m) (d_source m) (d_request_id m) (d_reply_id m) (d_emoji m)
    (d_bitfield m) (d_xeddsa_signature m).
Definition set_payload (v : list Z) (m : PbData) : PbData :=
  mkPbData
    (d_portnum m) v (d_want_response m) (d_dest m) (d_source m) (d_request_id m) (d_reply_id m) (d_emoji m)
    (d_bitfield m) (d_xeddsa_signature m).
Definition set_want_response (v : bool) (m : PbData) : PbData :=
  mkPbData
    (d_portnum m) (d_payload m) v (d_dest m) (d_source m) (d_request_id m) (d_reply_id m) (d_emoji m) (d_bitfield m)
    (d_xeddsa_signature m).
Definition set_dest (v : Z) (m : PbData) : PbData :=
  mkPbData
    (d_portnum m) (d_payload m) (d_want_response m) v (d_source m) (d_request_id m) (d_reply_id m) (d_emoji m)
    (d_bitfield m) (d_xeddsa_signature m).
Definition set_source (v : Z) (m : PbData) : PbData :=
  mkPbData
    (d_portnum m) (d_payload m) (d_want_response m) (d_dest m) v (d_request_id m) (d_reply_id m) (d_emoji m)
    (d_bitfield m) (d_xeddsa_signature m).
Definition set_request_id (v : Z) (m : PbData) : PbData :=
  mkPbData
    (d_portnum m) (d_payload m) (d_want_response m) (d_dest m) (d_source m) v (d_reply_id m) (d_emoji m)
    (d_bitfield m) (d_xeddsa_signature m).
Definition set_reply_id (v : Z) (m : PbData) : PbData :=
  mkPbData
    (d_portnum m) (d_payload m) (d_want_response m) (d_dest m) (d_source m) (d_request_id m) v (d_emoji m)
    (d_bitfield m) (d_xeddsa_signature m).
Definition set_emoji (v : Z) (m : PbData) : PbData :=
  mkPbData
    (d_portnum m) (d_payload m) (d_want_response m) (d_dest m) (d_source m) (d_request_id m) (d_reply_id m) v
    (d_bitfield m) (d_xeddsa_signature m).
Definition set_bitfield (v : option Z) (m : PbData) : PbData :=
  mkPbData
    (d_portnum m) (d_payload m) (d_want_response m) (d_dest m) (d_source m) (d_request_id m) (d_reply_id m)
    (d_emoji m) v (d_xeddsa_signature m).
Definition set_xeddsa_signature (v : option (list Z)) (m : PbData) : PbData :=
  mkPbData
    (d_portnum m) (d_payload m) (d_want_response m) (d_dest m) (d_source m) (d_request_id m) (d_reply_id m)
    (d_emoji m) (d_bitfield m) v.
Definition step (field : Z) (v : Value) (m : PbData) : outcome ProtoError PbData :=
  match field with
  | 1 => x ← Value.to_u32 field v; Ok (set_portnum x m)
  | 2 => x ← Value.bytes field v; Ok (set_payload x m)
  | 3 => x ← Value.to_bool field v; Ok (set_want_response x m)
  | 4 => x ← Value.fixed32 field v; Ok (set_dest x m)
  | 5 => x ← Value.fixed32 field v; Ok (set_source x m)
  | 6 => x ← Value.fixed32 field v; Ok (set_request_id x m)
  | 7 => x ← Value.fixed32 field v; Ok (set_reply_id x m)
  | 8 => x ← Value.fixed32 field v; Ok (set_emoji x m)
  | 9 => x ← Value.to_u32 field v; Ok (set_bitfield (Some x) m)
  | 10 => x ← Value.bytes field v; Ok (set_xeddsa_signature (Some x) m)
  | _ => Ok m
  end.
Definition decode (buf : list Z) : outcome ProtoError PbData :=
  d ← Reader.fields step buf default_value;
  Ok match d_bitfield d with
     | Some b => if decide (Z.land b BITFIELD_WANT_RESPONSE <> 0) then set_want_response true d else d
     | None => d
     end.
Definition encode (m : PbData) : list Z :=
  let w := [] in
  let w := put_if (bool_decide (d_portnum m <> 0)) (Writer.varint 1 (d_portnum m)) w in
  let w := put_if (bool_decide (d_payload m <> [])) (Writer.bytes 2 (d_payload m)) w in
  let w := put_if (d_want_response m) (Writer.bool 3 true) w in
  let w := put_if (bool_decide (d_dest m <> 0)) (Writer.fixed32 4 (d_dest m)) w in
  let w := put_if (bool_decide (d_source m <> 0)) (Writer.fixed32 5 (d_source m)) w in
  let w := put_if (bool_decide (d_request_id m <> 0)) (Writer.fixed32 6 (d_request_id m)) w in
  let w := put_if (bool_decide (d_reply_id m <> 0)) (Writer.fixed32 7 (d_reply_id m)) w in
  let w := put_if (bool_decide (d_emoji m <> 0)) (Writer.fixed32 8 (d_emoji m)) w in
  let w := put_some (d_bitfield m) (Writer.varint 9) w in
  let w := put_some (d_xeddsa_signature m) (Writer.bytes 10) w in
  w.
End PbData.

(** ** [meshtastic.User], the payload of a node announcement *)

Record PbUser := mkPbUser {
  us_id : list Z; us_long_name : list Z; us_short_name : list Z; us_macaddr : list Z; us_hw_model : Z;
  us_is_licensed : bool; us_role : Z; us_public_key : list Z; us_is_unmessagable : option bool
}.
Module PbUser.
Definition default_value : PbUser := mkPbUser [] [] [] [] 0 false 0 [] None.
Definition set_id (v : list Z) (m : PbUser) : PbUser :=
  mkPbUser
    v (us_long_name m) (us_short_name m) (us_macaddr m) (us_hw_model m) (us_is_licensed m) (us_role m)
    (us_public_key m) (us_is_unmessagable m).
Definition set_long_name (v : list Z) (m : PbUser) : PbUser :=
  mkPbUser
    (us_id m) v (us_short_name m) (us_macaddr m) (us_hw_model m) (us_is_licensed m) (us_role m) (us_public_key m)
    (us_is_unmessagable m).
Definition set_short_name (v : list Z) (m : PbUser) : PbUser :=
  mkPbUser
    (us_id m) (us_long_name m) v (us_macaddr m) (us_hw_model m) (us_is_licensed m) (us_role m) (us_public_key m)
    (us_is_unmessagable m).
Definition set_macaddr (v : list Z) (m : PbUser) : PbUser :=
  mkPbUser
    (us_id m) (us_long_name m) (us_short_name m) v (us_hw_model m) (us_is_licensed m) (us_role m) (us_public_key m)
    (us_is_unmessagable m).
Definition set_hw_model (v : Z) (m : PbUser) : PbUser :=
  mkPbUser
    (us_id m) (us_long_name m) (us_short_name m) (us_macaddr m) v (us_is_licensed m) (us_role m) (us_public_key m)
    (us_is_unmessagable m).
Definition set_is_licensed (v : bool) (m : PbUser) : PbUser :=
  mkPbUser
    (us_id m) (us_long_name m) (us_short_name m) (us_macaddr m) (us_hw_model m) v (us_role m) (us_public_key m)
    (us_is_unmessagable m).
Definition set_role (v : Z) (m : PbUser) : PbUser :=
  mkPbUser
    (us_id m) (us_long_name m) (us_short_name m) (us_macaddr m) (us_hw_model m) (us_is_licensed m) v
    (us_public_key m) (us_is_unmessagable m).
Definition set_public_key (v : list Z) (m : PbUser) : PbUser :=
  mkPbUser
    (us_id m) (us_long_name m) (us_short_name m) (us_macaddr m) (us_hw_model m) (us_is_licensed m) (us_role m) v
    (us_is_unmessagable m).
Definition set_is_unmessagable (v : option bool) (m : PbUser) : PbUser :=
  mkPbUser
    (us_id m) (us_long_name m) (us_short_name m) (us_macaddr m) (us_hw_model m) (us_is_licensed m) (us_role m)
    (us_public_key m) v.
Definition step (field : Z) (v : Value) (m : PbUser) : outcome ProtoError PbUser :=
  match field with
  | 1 => x ← Value.string field v; Ok (set_id x m)
  | 2 => x ← Value.string field v; Ok (set_long_name x m)
  | 3 => x ← Value.string field v; Ok (set_short_name x m)
  | 4 => x ← Value.bytes field v; Ok (set_macaddr x m)
  | 5 => x ← Value.to_u32 field v; Ok (set_hw_model x m)
  | 6 => x ← Value.to_bool field v; Ok (set_is_licensed x m)
  | 7 => x ← Value.to_u32 field v; Ok (set_role x m)
  | 8 => x ← Value.bytes field v; Ok (set_public_key x m)
  | 9 => x ← Value.to_bool field v; Ok (set_is_unmessagable (Some x) m)
  | _ => Ok m
  end.
Definition decode (buf : list Z) : outcome ProtoError PbUser := Reader.fields step buf default_value.
Definition encode (m : PbUser) : list Z :=
  let w := [] in
  let w := put_if (bool_decide (us_id m <> [])) (Writer.string 1 (us_id m)) w in
  let w := put_if (bool_decide (us_long_name m <> [])) (Writer.string 2 (us_long_name m)) w in
  let w := put_if (bool_decide (us_short_name m <> [])) (Writer.string 3 (us_short_name m)) w in
  let w := put_if (bool_decide (us_macaddr m <> [])) (Writer.bytes 4 (us_macaddr m)) w in
  let w := put_if (bool_decide (us_hw_model m <> 0)) (Writer.varint 5 (us_hw_model m)) w in
  let w := put_if (us_is_licensed m) (Writer.bool 6 true) w in
  let w := put_if (bool_decide (us_role m <> 0)) (Writer.varint 7 (us_role m)) w in
  let w := put_if (bool_decide (us_public_key m <> [])) (Writer.bytes 8 (us_public_key m)) w in
  let w := put_some (us_is_unmessagable m) (Writer.bool 9) w in
  w.
End PbUser.

(** ** [meshtastic.Position]; coordinates are degrees times ten million *)

Record PbPosition := mkPbPosition {
  po_latitude_i : option Z; po_longitude_i : option Z; po_altitude : option Z; po_time : Z; po_location_source : Z;
  po_altitude_source : Z; po_timestamp : Z; po_timestamp_millis_adjust : Z; po_altitude_hae : option Z;
  po_altitude_geoidal_separation : option Z; po_pdop : Z; po_hdop : Z; po_vdop : Z; po_gps_accuracy : Z;
  po_ground_speed : option Z; po_ground_track : option Z; po_fix_quality : Z; po_fix_type : Z; po_sats_in_view : Z;
  po_sensor_id : Z; po_next_update : Z; po_seq_number : Z; po_precision_bits : Z
}.
Module PbPosition.
Definition default_value : PbPosition := mkPbPosition None None None 0 0 0 0 0 None None 0 0 0 0 None None 0 0 0 0 0 0 0.
Definition set_latitude_i (v : option Z) (m : PbPosition) : PbPosition :=
  mkPbPosition
    v (po_longitude_i m) (po_altitude m) (po_time m) (po_location_source m) (po_altitude_source m) (po_timestamp m)
    (po_timestamp_millis_adjust m) (po_altitude_hae m) (po_altitude_geoidal_separation m) (po_pdop m) (po_hdop m)
    (po_vdop m) (po_gps_accuracy m) (po_ground_speed m) (po_ground_track m) (po_fix_quality m) (po_fix_type m)
    (po_sats_in_view m) (po_sensor_id m) (po_next_update m) (po_seq_number m) (po_precision_bits m).
Definition set_longitude_i (v : option Z) (m : PbPosition) : PbPosition :=
  mkPbPosition
    (po_latitude_i m) v (po_altitude m) (po_time m) (po_location_source m) (po_altitude_source m) (po_timestamp m)
    (po_timestamp_millis_adjust m) (po_altitude_hae m) (po_altitude_geoidal_separation m) (po_pdop m) (po_hdop m)
    (po_vdop m) (po_gps_accuracy m) (po_ground_speed m) (po_ground_track m) (po_fix_quality m) (po_fix_type m)
    (po_sats_in_view m) (po_sensor_id m) (po_next_update m) (po_seq_number m) (po_precision_bits m).
Definition set_altitude (v : option Z) (m : PbPosition) : PbPosition :=
  mkPbPosition
    (po_latitude_i m) (po_longitude_i m) v (po_time m) (po_location_source m) (po_altitude_source m) (po_timestamp m)
    (po_timestamp_millis_adjust m) (po_altitude_hae m) (po_altitude_geoidal_separation m) (po_pdop m) (po_hdop m)
    (po_vdop m) (po_gps_accuracy m) (po_ground_speed m) (po_ground_track m) (po_fix_quality m) (po_fix_type m)
    (po_sats_in_view m) (po_sensor_id m) (po_next_update m) (po_seq_number m) (po_precision_bits m).
Definition set_time (v : Z) (m : PbPosition) : PbPosition :=
  mkPbPosition
    (po_latitude_i m) (po_longitude_i m) (po_altitude m) v (po_location_source m) (po_altitude_source m)
    (po_timestamp m) (po_timestamp_millis_adjust m) (po_altitude_hae m) (po_altitude_geoidal_separation m)
    (po_pdop m) (po_hdop m) (po_vdop m) (po_gps_accuracy m) (po_ground_speed m) (po_ground_track m)
    (po_fix_quality m) (po_fix_type m) (po_sats_in_view m) (po_sensor_id m) (po_next_update m) (po_seq_number m)
    (po_precision_bits m).
Definition set_location_source (v : Z) (m : PbPosition) : PbPosition :=
  mkPbPosition
    (po_latitude_i m) (po_longitude_i m) (po_altitude m) (po_time m) v (po_altitude_source m) (po_timestamp m)
    (po_timestamp_millis_adjust m) (po_altitude_hae m) (po_altitude_geoidal_separation m) (po_pdop m) (po_hdop m)
    (po_vdop m) (po_gps_accuracy m) (po_ground_speed m) (po_ground_track m) (po_fix_quality m) (po_fix_type m)
    (po_sats_in_view m) (po_sensor_id m) (po_next_update m) (po_seq_number m) (po_precision_bits m).
Definition set_altitude_source (v : Z) (m : PbPosition) : PbPosition :=
  mkPbPosition
    (po_latitude_i m) (po_longitude_i m) (po_altitude m) (po_time m) (po_location_source m) v (po_timestamp m)
    (po_timestamp_millis_adjust m) (po_altitude_hae m) (po_altitude_geoidal_separation m) (po_pdop m) (po_hdop m)
    (po_vdop m) (po_gps_accuracy m) (po_ground_speed m) (po_ground_track m) (po_fix_quality m) (po_fix_type m)
    (po_sats_in_view m) (po_sensor_id m) (po_next_update m) (po_seq_number m) (po_precision_bits m).
Definition set_timestamp (v : Z) (m : PbPosition) : PbPosition :=
  mkPbPosition
    (po_latitude_i m) (po_longitude_i m) (po_altitude m) (po_time m) (po_location_source m) (po_altitude_source m) v
    (po_timestamp_millis_adjust m) (po_altitude_hae m) (po_altitude_geoidal_separation m) (po_pdop m) (po_hdop m)
    (po_vdop m) (po_gps_accuracy m) (po_ground_speed m) (po_ground_track m) (po_fix_quality m) (po_fix_type m)
    (po_sats_in_view m) (po_sensor_id m) (po_next_update m) (po_seq_number m) (po_precision_bits m).
Definition set_timestamp_millis_adjust (v : Z) (m : PbPosition) : PbPosition :=
  mkPbPosition
    (po_latitude_i m) (po_longitude_i m) (po_altitude m) (po_time m) (po_location_source m) (po_altitude_source m)
    (po_timestamp m) v (po_altitude_hae m) (po_altitude_geoidal_separation m) (po_pdop m) (po_hdop m) (po_vdop m)
    (po_gps_accuracy m) (po_ground_speed m) (po_ground_track m) (po_fix_quality m) (po_fix_type m)
    (po_sats_in_view m) (po_sensor_id m) (po_next_update m) (po_seq_number m) (po_precision_bits m).
Definition set_altitude_hae (v : option Z) (m : PbPosition) : PbPosition :=
  mkPbPosition
    (po_latitude_i m) (po_longitude_i m) (po_altitude m) (po_time m) (po_location_source m) (po_altitude_source m)
    (po_timestamp m) (po_timestamp_millis_adjust m) v (po_altitude_geoidal_separation m) (po_pdop m) (po_hdop m)
    (po_vdop m) (po_gps_accuracy m) (po_ground_speed m) (po_ground_track m) (po_fix_quality m) (po_fix_type m)
    (po_sats_in_view m) (po_sensor_id m) (po_next_update m) (po_seq_number m) (po_precision_bits m).
Definition set_altitude_geoidal_separation (v : option Z) (m : PbPosition) : PbPosition :=
  mkPbPosition
    (po_latitude_i m) (po_longitude_i m) (po_altitude m) (po_time m) (po_location_source m) (po_altitude_source m)
    (po_timestamp m) (po_timestamp_millis_adjust m) (po_altitude_hae m) v (po_pdop m) (po_hdop m) (po_vdop m)
    (po_gps_accuracy m) (po_ground_speed m) (po_ground_track m) (po_fix_quality m) (po_fix_type m)
    (po_sats_in_view m) (po_sensor_id m) (po_next_update m) (po_seq_number m) (po_precision_bits m).
Definition set_pdop (v : Z) (m : PbPosition) : PbPosition :=
  mkPbPosition
    (po_latitude_i m) (po_longitude_i m) (po_altitude m) (po_time m) (po_location_source m) (po_altitude_source m)
    (po_timestamp m) (po_timestamp_millis_adjust m) (po_altitude_hae m) (po_altitude_geoidal_separation m) v
    (po_hdop m) (po_vdop m) (po_gps_accuracy m) (po_ground_speed m) (po_ground_track m) (po_fix_quality m)
    (po_fix_type m) (po_sats_in_view m) (po_sensor_id m) (po_next_update m) (po_seq_number m) (po_precision_bits m).
Definition set_hdop (v : Z) (m : PbPosition) : PbPosition :=
  mkPbPosition
    (po_latitude_i m) (po_longitude_i m) (po_altitude m) (po_time m) (po_location_source m) (po_altitude_source m)
    (po_timestamp m) (po_timestamp_millis_adjust m) (po_altitude_hae m) (po_altitude_geoidal_separation m)
    (po_pdop m) v (po_vdop m) (po_gps_accuracy m) (po_ground_speed m) (po_ground_track m) (po_fix_quality m)
    (po_fix_type m) (po_sats_in_view m) (po_sensor_id m) (po_next_update m) (po_seq_number m) (po_precision_bits m).
Definition set_vdop (v : Z) (m : PbPosition) : PbPosition :=
  mkPbPosition
    (po_latitude_i m) (po_longitude_i m) (po_altitude m) (po_time m) (po_location_source m) (po_altitude_source m)
    (po_timestamp m) (po_timestamp_millis_adjust m) (po_altitude_hae m) (po_altitude_geoidal_separation m)
    (po_pdop m) (po_hdop m) v (po_gps_accuracy m) (po_ground_speed m) (po_ground_track m) (po_fix_quality m)
    (po_fix_type m) (po_sats_in_view m) (po_sensor_id m) (po_next_update m) (po_seq_number m) (po_precision_bits m).
Definition set_gps_accuracy (v : Z) (m : PbPosition) : PbPosition :=
  mkPbPosition
    (po_latitude_i m) (po_longitude_i m) (po_altitude m) (po_time m) (po_location_source m) (po_altitude_source m)
    (po_timestamp m) (po_timestamp_millis_adjust m) (po_altitude_hae m) (po_altitude_geoidal_separation m)
    (po_pdop m) (po_hdop m) (po_vdop m) v (po_ground_speed m) (po_ground_track m) (po_fix_quality m) (po_fix_type m)
    (po_sats_in_view m) (po_sensor_id m) (po_next_update m) (po_seq_number m) (po_precision_bits m).
Definition set_ground_speed (v : option Z) (m : PbPosition) : PbPosition :=
  mkPbPosition
    (po_latitude_i m) (po_longitude_i m) (po_altitude m) (po_time m) (po_location_source m) (po_altitude_source m)
    (po_timestamp m) (po_timestamp_millis_adjust m) (po_altitude_hae m) (po_altitude_geoidal_separation m)
    (po_pdop m) (po_hdop m) (po_vdop m) (po_gps_accuracy m) v (po_ground_track m) (po_fix_quality m) (po_fix_type m)
    (po_sats_in_view m) (po_sensor_id m) (po_next_update m) (po_seq_number m) (po_precision_bits m).
Definition set_ground_track (v : option Z) (m : PbPosition) : PbPosition :=
  mkPbPosition
    (po_latitude_i m) (po_longitude_i m) (po_altitude m) (po_time m) (po_location_source m) (po_altitude_source m)
    (po_timestamp m) (po_timestamp_millis_adjust m) (po_altitude_hae m) (po_altitude_geoidal_separation m)
    (po_pdop m) (po_hdop m) (po_vdop m) (po_gps_accuracy m) (po_ground_speed m) v (po_fix_quality m) (po_fix_type m)
    (po_sats_in_view m) (po_sensor_id m) (po_next_update m) (po_seq_number m) (po_precision_bits m).
Definition set_fix_quality (v : Z) (m : PbPosition) : PbPosition :=
  mkPbPosition
    (po_latitude_i m) (po_longitude_i m) (po_altitude m) (po_time m) (po_location_source m) (po_altitude_source m)
    (po_timestamp m) (po_timestamp_millis_adjust m) (po_altitude_hae m) (po_altitude_geoidal_separation m)
    (po_pdop m) (po_hdop m) (po_vdop m) (po_gps_accuracy m) (po_ground_speed m) (po_ground_track m) v (po_fix_type m)
    (po_sats_in_view m) (po_sensor_id m) (po_next_update m) (po_seq_number m) (po_precision_bits m).
Definition set_fix_type (v : Z) (m : PbPosition) : PbPosition :=
  mkPbPosition
    (po_latitude_i m) (po_longitude_i m) (po_altitude m) (po_time m) (po_location_source m) (po_altitude_source m)
    (po_timestamp m) (po_timestamp_millis_adjust m) (po_altitude_hae m) (po_altitude_geoidal_separation m)
    (po_pdop m) (po_hdop m) (po_vdop m) (po_gps_accuracy m) (po_ground_speed m) (po_ground_track m)
    (po_fix_quality m) v (po_sats_in_view m) (po_sensor_id m) (po_next_update m) (po_seq_number m)
    (po_precision_bits m).
Definition set_sats_in_view (v : Z) (m : PbPosition) : PbPosition :=
  mkPbPosition
    (po_latitude_i m) (po_longitude_i m) (po_altitude m) (po_time m) (po_location_source m) (po_altitude_source m)
    (po_timestamp m) (po_timestamp_millis_adjust m) (po_altitude_hae m) (po_altitude_geoidal_separation m)
    (po_pdop m) (po_hdop m) (po_vdop m) (po_gps_accuracy m) (po_ground_speed m) (po_ground_track m)
    (po_fix_quality m) (po_fix_type m) v (po_sensor_id m) (po_next_update m) (po_seq_number m) (po_precision_bits m).
Definition set_sensor_id (v : Z) (m : PbPosition) : PbPosition :=
  mkPbPosition
    (po_latitude_i m) (po_longitude_i m) (po_altitude m) (po_time m) (po_location_source m) (po_altitude_source m)
    (po_timestamp m) (po_timestamp_millis_adjust m) (po_altitude_hae m) (po_altitude_geoidal_separation m)
    (po_pdop m) (po_hdop m) (po_vdop m) (po_gps_accuracy m) (po_ground_speed m) (po_ground_track m)
    (po_fix_quality m) (po_fix_type m) (po_sats_in_view m) v (po_next_update m) (po_seq_number m)
    (po_precision_bits m).
Definition set_next_update (v : Z) (m : PbPosition) : PbPosition :=
  mkPbPosition
    (po_latitude_i m) (po_longitude_i m) (po_altitude m) (po_time m) (po_location_source m) (po_altitude_source m)
    (po_timestamp m) (po_timestamp_millis_adjust m) (po_altitude_hae m) (po_altitude_geoidal_separation m)
    (po_pdop m) (po_hdop m) (po_vdop m) (po_gps_accuracy m) (po_ground_speed m) (po_ground_track m)
    (po_fix_quality m) (po_fix_type m) (po_sats_in_view m) (po_sensor_id m) v (po_seq_number m) (po_precision_bits m).
Definition set_seq_number (v : Z) (m : PbPosition) : PbPosition :=
  mkPbPosition
    (po_latitude_i m) (po_longitude_i m) (po_altitude m) (po_time m) (po_location_source m) (po_altitude_source m)
    (po_timestamp m) (po_timestamp_millis_adjust m) (po_altitude_hae m) (po_altitude_geoidal_separation m)
    (po_pdop m) (po_hdop m) (po_vdop m) (po_gps_accuracy m) (po_ground_speed m) (po_ground_track m)
    (po_fix_quality m) (po_fix_type m) (po_sats_in_view m) (po_sensor_id m) (po_next_update m) v
    (po_precision_bits m).
Definition set_precision_bits (v : Z) (m : PbPosition) : PbPosition :=
  mkPbPosition
    (po_latitude_i m) (po_longitude_i m) (po_altitude m) (po_time m) (po_location_source m) (po_altitude_source m)
    (po_timestamp m) (po_timestamp_millis_adjust m) (po_altitude_hae m) (po_altitude_geoidal_separation m)
    (po_pdop m) (po_hdop m) (po_vdop m) (po_gps_accuracy m) (po_ground_speed m) (po_ground_track m)
    (po_fix_quality m) (po_fix_type m) (po_sats_in_view m) (po_sensor_id m) (po_next_update m) (po_seq_number m) v.
Definition step (field : Z) (v : Value) (m : PbPosition) : outcome ProtoError PbPosition :=
  match field with
  | 1 => x ← Value.sfixed32 field v; Ok (set_latitude_i (Some x) m)
  | 2 => x ← Value.sfixed32 field v; Ok (set_longitude_i (Some x) m)
  | 3 => x ← Value.to_i32 field v; Ok (set_altitude (Some x) m)
  | 4 => x ← Value.fixed32 field v; Ok (set_time x m)
  | 5 => x ← Value.to_u32 field v; Ok (set_location_source x m)
  | 6 => x ← Value.to_u32 field v; Ok (set_altitude_source x m)
  | 7 => x ← Value.fixed32 field v; Ok (set_timestamp x m)
  | 8 => x ← Value.to_i32 field v; Ok (set_timestamp_millis_adjust x m)
  | 9 => x ← Value.sint32 field v; Ok (set_altitude_hae (Some x) m)
  | 10 => x ← Value.sint32 field v; Ok (set_altitude_geoidal_separation (Some x) m)
  | 11 => x ← Value.to_u32 field v; Ok (set_pdop x m)
  | 12 => x ← Value.to_u32 field v; Ok (set_hdop x m)
  | 13 => x ← Value.to_u32 field v; Ok (set_vdop x m)
  | 14 => x ← Value.to_u32 field v; Ok (set_gps_accuracy x m)
  | 15 => x ← Value.to_u32 field v; Ok (set_ground_speed (Some x) m)
  | 16 => x ← Value.to_u32 field v; Ok (set_ground_track (Some x) m)
  | 17 => x ← Value.to_u32 field v; Ok (set_fix_quality x m)
  | 18 => x ← Value.to_u32 field v; Ok (set_fix_type x m)
  | 19 => x ← Value.to_u32 field v; Ok (set_sats_in_view x m)
  | 20 => x ← Value.to_u32 field v; Ok (set_sensor_id x m)
  | 21 => x ← Value.to_u32 field v; Ok (set_next_update x m)
  | 22 => x ← Value.to_u32 field v; Ok (set_seq_number x m)
  | 23 => x ← Value.to_u32 field v; Ok (set_precision_bits x m)
  | _ => Ok m
  end.
Definition decode (buf : list Z) : outcome ProtoError PbPosition := Reader.fields step buf default_value.
Definition encode (m : PbPosition) : list Z :=
  let w := [] in
  let w := put_some (po_latitude_i m) (Writer.sfixed32 1) w in
  let w := put_some (po_longitude_i m) (Writer.sfixed32 2) w in
  let w := put_some (po_altitude m) (Writer.int32 3) w in
  let w := put_if (bool_decide (po_time m <> 0)) (Writer.fixed32 4 (po_time m)) w in
  let w := put_if (bool_decide (po_location_source m <> 0)) (Writer.varint 5 (po_location_source m)) w in
  let w := put_if (bool_decide (po_altitude_source m <> 0)) (Writer.varint 6 (po_altitude_source m)) w in
  let w := put_if (bool_decide (po_timestamp m <> 0)) (Writer.fixed32 7 (po_timestamp m)) w in
  let w := put_if (bool_decide (po_timestamp_millis_adjust m <> 0)) (Writer.int32 8 (po_timestamp_millis_adjust m)) w in
  let w := put_some (po_altitude_hae m) (Writer.sint32 9) w in
  let w := put_some (po_altitude_geoidal_separation m) (Writer.sint32 10) w in
  let w := varint_each
    [(11, po_pdop m); (12, po_hdop m); (13, po_vdop m); (14, po_gps_accuracy m)] w in
  let w := put_some (po_ground_speed m) (Writer.varint 15) w in
  let w := put_some (po_ground_track m) (Writer.varint 16) w in
  let w := varint_each
    [(17, po_fix_quality m); (18, po_fix_type m); (19, po_sats_in_view m); (20, po_sensor_id m);
    (21, po_next_update m); (22, po_seq_number m); (23, po_precision_bits m)] w in
  w.
Definition render_coord (v : Z) : list Z :=
  let a := Z.abs v in
  (if decide (v < 0) then str "-" else []) ++ dec (a / 10000000) ++ str "." ++ pad_zeros 7 (dec (a mod 10000000)).
Definition is_ascii_digit (b : Z) : bool := between 48 57 b.
Definition parse_i64 (s : list Z) : option Z := parse_signed 10 (2 ^ 63 - 1) s.
Definition checked_i64 (n : Z) : option Z := if decide (- 2 ^ 63 <= n < 2 ^ 63) then Some n else None.
(** The digits after the sign, times ten million. *)
Definition parse_magnitude (rest : list Z) : option Z :=
  if decide (rest = []) then None else
  let '(int_part, frac_part) := match split_once (str ".") rest with Some p => p | None => (rest, []) end in
  if decide (int_part = [] /\ frac_part = []) then None else
  if negb (forallb is_ascii_digit int_part) || negb (forallb is_ascii_digit frac_part) || bool_decide (zlen frac_part > 7) then None else
  int_v ← (if decide (int_part = []) then Some 0 else parse_i64 int_part);
  frac_v ← (if decide (frac_part = []) then Some 0 else parse_i64 frac_part);
  let frac_v := frac_v * 10 ^ (7 - zlen frac_part) in
  total ← checked_i64 (int_v * 10000000);
  checked_i64 (total + frac_v).
Definition parse_coord (s : list Z) : option Z :=
  let s := trim s in
  let '(neg, rest) :=
    match strip_prefix (str "-") s with
    | Some r => (true, r)
    | None => (false, default s (strip_prefix (str "+") s))
    end in
  total ← parse_magnitude rest;
  let total := if neg : bool then - total else total in
  if decide (- 2 ^ 31 <= total < 2 ^ 31) then Some total else None.
End PbPosition.

(** ** [meshtastic.Routing]: acknowledgements, errors and traceroute *)

Record PbRouting := mkPbRouting {
  ro_route_request : option (list Z); ro_route_reply : option (list Z); ro_error_reason : option Z
}.
Module PbRouting.
Definition default_value : PbRouting := mkPbRouting None None None.
Definition set_route_request (v : option (list Z)) (m : PbRouting) : PbRouting :=
  mkPbRouting
    v (ro_route_reply m) (ro_error_reason m).
Definition set_route_reply (v : option (list Z)) (m : PbRouting) : PbRouting :=
  mkPbRouting
    (ro_route_request m) v (ro_error_reason m).
Definition set_error_reason (v : option Z) (m : PbRouting) : PbRouting :=
  mkPbRouting
    (ro_route_request m) (ro_route_reply m) v.
Definition step (field : Z) (v : Value) (m : PbRouting) : outcome ProtoError PbRouting :=
  match field with
  | 1 => x ← Value.bytes field v; Ok (set_route_request (Some x) m)
  | 2 => x ← Value.bytes field v; Ok (set_route_reply (Some x) m)
  | 3 => x ← Value.to_u32 field v; Ok (set_error_reason (Some x) m)
  | _ => Ok m
  end.
Definition decode (buf : list Z) : outcome ProtoError PbRouting := Reader.fields step buf default_value.
Definition encode (m : PbRouting) : list Z :=
  let w := [] in
  let w := put_some (ro_route_request m) (Writer.bytes 1) w in
  let w := put_some (ro_route_reply m) (Writer.bytes 2) w in
  let w := put_some (ro_error_reason m) (Writer.varint 3) w in
  w.
Definition is_ack (m : PbRouting) : bool :=
  bool_decide (ro_route_request m = None) && bool_decide (ro_route_reply m = None)
  && bool_decide (default ROUTING_ERROR_NONE (ro_error_reason m) = ROUTING_ERROR_NONE).
Definition error_name (e : Z) : list Z :=
  str match e with
      | 0 => "NONE" | 1 => "NO_ROUTE" | 2 => "GOT_NAK" | 3 => "TIMEOUT" | 4 => "NO_INTERFACE" | 5 => "MAX_RETRANSMIT"
      | 6 => "NO_CHANNEL" | 7 => "TOO_LARGE" | 8 => "NO_RESPONSE" | 9 => "DUTY_CYCLE_LIMIT" | 32 => "BAD_REQUEST"
      | 33 => "NOT_AUTHORIZED" | 34 => "PKI_FAILED" | 35 => "PKI_UNKNOWN_PUBKEY" | 36 => "ADMIN_BAD_SESSION_KEY"
      | 37 => "ADMIN_PUBLIC_KEY_UNAUTHORIZED" | 38 => "RATE_LIMIT_EXCEEDED" | 39 => "PKI_SEND_FAIL_PUBLIC_KEY" | _ => "UNKNOWN"
      end.
End PbRouting.

(** * Facts *)

Module ProtoFacts.
Import Reader.

(** ** Integers *)

Lemma length_le_bytes n z : length (le_bytes n z) = n.
Proof. unfold le_bytes. by rewrite length_reverse, length_be_bytes. Qed.
Lemma le_bytes_ok n z : bytes_ok (le_bytes n z).
Proof. unfold le_bytes. apply Forall_reverse, be_bytes_ok. Qed.
Lemma from_le_le_bytes n z : from_le (le_bytes n z) = z mod 256 ^ Z.of_nat n.
Proof. unfold from_le, le_bytes. by rewrite reverse_involutive, from_be_be_bytes. Qed.
Lemma from_le_32 z : in_u 32 z -> from_le (le_bytes 4 z) = z.
Proof. intros Hz. rewrite from_le_le_bytes. by apply Z.mod_small. Qed.
Lemma from_le_range l : bytes_ok l -> 0 <= from_le l < 256 ^ zlen l.
Proof. intros Hl. unfold from_le. pose proof (from_be_range (reverse l) ltac:(by apply Forall_reverse)) as H. unfold zlen in *. by rewrite length_reverse in H. Qed.
Lemma u32_id z : in_u 32 z -> u32 z = z.
Proof. intros Hz. unfold u32, wrap. by apply Z.mod_small. Qed.
Definition in_i32 (z : Z) : Prop := - 2 ^ 31 <= z < 2 ^ 31.
Lemma as_i32_mod z w : in_i32 z -> 32 <= w -> as_i32 (z mod 2 ^ w) = z.
Proof.
  unfold in_i32, as_i32. change (2 ^ 31) with 2147483648. intros Hz Hw.
  assert (Hm : (z mod 2 ^ w) mod 2 ^ 32 = z mod 2 ^ 32).
  { apply Z.mod_mod_divide. exists (2 ^ (w - 32)). rewrite <- Z.pow_add_r by lia. f_equal. lia. }
  rewrite Hm. change (2 ^ 32) with 4294967296. destruct (Z_lt_le_dec z 0).
  - rewrite <- (Z.mod_add z 1) by lia. rewrite Z.mod_small by lia. rewrite decide_False by lia. lia.
  - rewrite Z.mod_small by lia. by rewrite decide_True by lia.
Qed.
Lemma as_i32_u32 z : in_i32 z -> as_i32 (u32 z) = z.
Proof. intros Hz. by apply (as_i32_mod z 32). Qed.
Lemma as_i32_u64 z : in_i32 z -> as_i32 (u64 z) = z.
Proof. intros Hz. by apply (as_i32_mod z 64). Qed.
Lemma as_i32_range z : in_i32 (as_i32 z).
Proof. unfold as_i32, in_i32. pose proof (Z.mod_pos_bound z (2 ^ 32) ltac:(done)). change (2 ^ 32) with 4294967296 in *. change (2 ^ 31) with 2147483648. case_decide; lia. Qed.

(** The ZigZag form of a signed integer is read back. *)
Definition zigzag (v : Z) : Z := u32 (Z.lxor (as_i32 (Z.shiftl v 1)) (Z.shiftr v 31)).
Lemma zigzag_value v : in_i32 v -> zigzag v = if decide (v < 0) then - 2 * v - 1 else 2 * v.
Proof.
  unfold in_i32. change (2 ^ 31) with 2147483648. intros Hv. unfold zigzag. rewrite Z.shiftl_mul_pow2 by lia. change (2 ^ 1) with 2.
  assert (Ha : exists k, as_i32 (v * 2) = v * 2 + k * 4294967296).
  { unfold as_i32. change (2 ^ 32) with 4294967296. pose proof (Z.div_mod (v * 2) 4294967296 ltac:(lia)).
    case_decide; [exists (- (v * 2 / 4294967296))|exists (- (v * 2 / 4294967296) - 1)]; lia. }
  destruct Ha as [k Hk]. rewrite Hk. unfold u32, wrap. change (2 ^ 32) with 4294967296. case_decide.
  - replace (Z.shiftr v 31) with (-1) by (rewrite Z.shiftr_div_pow2 by lia; change (2 ^ 31) with 2147483648; apply (Z.div_unique _ _ _ (v + 2147483648)); lia).
    rewrite Z.lxor_m1_r. unfold Z.lnot, Z.pred. replace (- (v * 2 + k * 4294967296) + -1) with (- 2 * v - 1 + (- k) * 4294967296) by lia. rewrite Z.mod_add by lia.
    apply Z.mod_small. lia.
  - replace (Z.shiftr v 31) with 0 by (rewrite Z.shiftr_div_pow2 by lia; symmetry; apply Z.div_small; change (2 ^ 31) with 2147483648; lia).
    rewrite Z.lxor_0_r, Z.mod_add by lia. rewrite Z.mod_small by lia. lia.
Qed.
Lemma zigzag_back v f : in_i32 v -> Value.sint32 f (Varint (zigzag v)) = Ok v.
Proof.
  intros Hv. unfold Value.sint32. cbn [Value.varint mbind outcome_bind]. rewrite (zigzag_value v Hv). unfold in_i32 in Hv. change (2 ^ 31) with 2147483648 in Hv.
  f_equal. rewrite u32_id by (unfold in_u; change (2 ^ 32) with 4294967296; case_decide; lia).
  rewrite Z.shiftr_div_pow2 by lia. change (2 ^ 1) with 2. change (Z.land _ 1) with (Z.land (if decide (v < 0) then - 2 * v - 1 else 2 * v) (Z.ones 1)).
  rewrite Z.land_ones by lia. change (2 ^ 1) with 2. case_decide.
  - replace (- 2 * v - 1) with (1 + (- v - 1) * 2) by lia. rewrite Z.div_add, Z.mod_add by lia. change (1 mod 2) with 1. change (1 / 2) with 0.
    change (as_i32 1) with 1. unfold as_i32. change (2 ^ 32) with 4294967296. change (2 ^ 31) with 2147483648. rewrite Z.mod_small by lia. rewrite decide_True by lia.
    change (- (1)) with (-1). rewrite Z.lxor_m1_r. unfold Z.lnot. lia.
  - rewrite (Z.mul_comm 2), Z.div_mul, Z.mod_mul by lia. change (as_i32 0) with 0. rewrite Z.lxor_0_r.
    unfold as_i32. change (2 ^ 32) with 4294967296. change (2 ^ 31) with 2147483648. rewrite Z.mod_small by lia. by rewrite decide_True by lia.
Qed.

(** ** Varints *)

Lemma lor_shift a b n : 0 <= n -> 0 <= a < 2 ^ n -> 0 <= b -> Z.lor a (Z.shiftl b n) = a + b * 2 ^ n.
Proof.
  intros Hn Ha Hb. assert (H0 : Z.land a (Z.shiftl b n) = 0).
  { apply Z.bits_inj'. intros i Hi. rewrite Z.land_spec, Z.shiftl_spec, Z.bits_0 by done. destruct (Z_lt_le_dec i n).
    - by rewrite (Z.testbit_neg_r b) by lia; rewrite andb_false_r.
    - destruct (Z.eq_dec a 0) as [->|]; [by rewrite Z.bits_0|]. rewrite (Z.bits_above_log2 a i); [done|lia|].
      apply Z.log2_lt_pow2; [lia|]. eapply Z.lt_le_trans; [apply Ha|]. apply Z.pow_le_mono_r; lia. }
  rewrite <- Z.lxor_lor, <- Z.add_nocarry_lxor by done. by rewrite Z.shiftl_mul_pow2.
Qed.

Lemma lookup_mid (p q s : list Z) b : (p ++ (b :: q) ++ s) !! Z.to_nat (zlen p) = Some b.
Proof. unfold zlen. rewrite Nat2Z.id. by apply list_lookup_middle. Qed.

Lemma varint_loop_read n : forall v res p s,
  0 <= v < 2 ^ (7 * Z.of_nat n + 1) -> (n <= 9)%nat -> let i := 9 - Z.of_nat n in 0 <= res < 2 ^ (7 * i) ->
  zlen (p ++ Writer.varint_bytes n v ++ s) < 2 ^ 32 ->
  varint_loop (S n) i res (mkReader (p ++ Writer.varint_bytes n v ++ s) (zlen p)) =
    Ok (res + v * 2 ^ (7 * i), mkReader (p ++ Writer.varint_bytes n v ++ s) (zlen (p ++ Writer.varint_bytes n v))).
Proof.
  induction n as [|n IH]; intros v res p s Hv Hn i Hres Hlen.
  - assert (Hv' : v = 0 \/ v = 1) by (change (2 ^ (7 * Z.of_nat 0 + 1)) with 2 in Hv; lia). assert (Hi : i = 9) by (unfold i; lia). rewrite Hi in *. clear Hi i.
    assert (Hb : Writer.varint_bytes 0 v = [v]) by (by destruct Hv' as [-> | ->]). rewrite Hb in *.
    cbn [varint_loop rd_buf rd_pos]. rewrite lookup_mid.
    assert (Hl : Z.land v 127 = v /\ Z.land v 128 = 0) by (by destruct Hv' as [-> | ->]). destruct Hl as [-> ->]. rewrite decide_False by lia. rewrite decide_True by done.
    assert (Hs : u64 (Z.shiftl v (7 * 9)) = Z.shiftl v (7 * 9)) by (by destruct Hv' as [-> | ->]). rewrite Hs, lor_shift by lia.
    rewrite !zlen_app, zlen_cons, zlen_nil in *. pose proof (zlen_nonneg p). pose proof (zlen_nonneg s). unfold usize, wrap. rewrite Z.mod_small by lia. repeat f_equal; lia.
  - assert (Hb : Z.land v 127 = v mod 128) by (change 127 with (Z.ones 7); by rewrite Z.land_ones).
    pose proof (Z.mod_pos_bound v 128 ltac:(lia)) as Hm. pose proof (Z.div_mod v 128 ltac:(lia)) as Hdm.
    assert (Hi : 0 <= i <= 8) by (unfold i; lia).
    assert (Hs : u64 (Z.shiftl (v mod 128) (7 * i)) = Z.shiftl (v mod 128) (7 * i)).
    { unfold u64, wrap. apply Z.mod_small. rewrite Z.shiftl_mul_pow2 by lia. split; [apply Z.mul_nonneg_nonneg; [lia|apply Z.pow_nonneg; lia]|].
      apply Z.lt_le_trans with (128 * 2 ^ (7 * i)); [apply Z.mul_lt_mono_pos_r; [apply Z.pow_pos_nonneg; lia|lia]|].
      change 128 with (2 ^ 7). rewrite <- Z.pow_add_r by lia. apply Z.pow_le_mono_r; lia. }
    cbn [Writer.varint_bytes] in *. unfold u8, wrap in *. rewrite Hb in *. rewrite (Z.mod_small (v mod 128)) in * by lia. rewrite Z.shiftr_div_pow2 in * by lia. change (2 ^ 7) with 128 in *.
    case_decide as Hq.
    + cbn [varint_loop rd_buf rd_pos]. rewrite lookup_mid. assert (Hl : Z.land (v mod 128) 127 = v mod 128) by (change 127 with (Z.ones 7); rewrite Z.land_ones by lia; by apply Z.mod_mod).
      assert (Hh : Z.land (v mod 128) 128 = 0).
      { change 128 with (Z.shiftl 1 7) at 2. apply Z.bits_inj'. intros j Hj. rewrite Z.land_spec, Z.bits_0. destruct (Z_lt_le_dec j 7).
        - rewrite Z.shiftl_spec_low by lia. by rewrite andb_false_r.
        - change 128 with (2 ^ 7). by rewrite Z.mod_pow2_bits_high by lia. }
      rewrite Hl, Hh. rewrite decide_False by lia. rewrite decide_True by done. rewrite Hs, lor_shift by lia.
      rewrite !zlen_app, zlen_cons, zlen_nil in *. pose proof (zlen_nonneg p). pose proof (zlen_nonneg s). unfold usize, wrap. rewrite (Z.mod_small (zlen p + 1)) by lia.
      replace (v mod 128) with v by lia. repeat f_equal; lia.
    + set (b := Z.lor (v mod 128) 128) in *. remember (S n) as k eqn:Ek. cbn [varint_loop rd_buf rd_pos]. subst k. rewrite lookup_mid.
      assert (Hb2 : b = v mod 128 + 1 * 2 ^ 7) by (unfold b; change 128 with (Z.shiftl 1 7) at 2; apply lor_shift; lia).
      assert (Hl : Z.land b 127 = v mod 128) by (rewrite Hb2; change 127 with (Z.ones 7); rewrite Z.land_ones by lia; rewrite Z.mod_add by done; by apply Z.mod_mod).
      assert (Hh : Z.land b 128 <> 0).
      { intros H. apply (f_equal (fun z => Z.testbit z 7)) in H. rewrite Z.land_spec, Z.bits_0 in H. unfold b in H. rewrite Z.lor_spec in H. change (Z.testbit 128 7) with true in H. by rewrite orb_true_r in H. }
      rewrite Hl. rewrite decide_False by lia. rewrite decide_False by done. rewrite Hs, lor_shift by lia.
      assert (Hpos : usize (zlen p + 1) = zlen (p ++ [b])).
      { rewrite !zlen_app, ?zlen_cons, ?zlen_nil in *. pose proof (zlen_nonneg p). pose proof (zlen_nonneg s). pose proof (zlen_nonneg (Writer.varint_bytes n (v / 128))). unfold usize, wrap. rewrite Z.mod_small; lia. }
      rewrite Hpos. change ((b :: Writer.varint_bytes n (v / 128)) ++ s) with ([b] ++ (Writer.varint_bytes n (v / 128) ++ s)) in *. rewrite (app_assoc p [b]) in *.
      replace (i + 1) with (9 - Z.of_nat n) by (unfold i; lia). rewrite IH; [|split; [apply Z.div_pos; lia|apply Z.div_lt_upper_bound; [lia|]]|lia| |done].
      * f_equal. f_equal; [|f_equal; by rewrite <- app_assoc]. replace (9 - Z.of_nat n) with (i + 1) by (unfold i; lia).
        replace (7 * (i + 1)) with (7 * i + 7) by lia. rewrite Z.pow_add_r by lia. change (2 ^ 7) with 128. nia.
      * eapply Z.lt_le_trans; [apply Hv|]. rewrite Nat2Z.inj_succ. replace (7 * Z.succ (Z.of_nat n) + 1) with (7 + (7 * Z.of_nat n + 1)) by lia.
        rewrite Z.pow_add_r by lia. done.
      * replace (9 - Z.of_nat n) with (i + 1) by (unfold i; lia). replace (7 * (i + 1)) with (7 * i + 7) by lia. rewrite Z.pow_add_r by lia. change (2 ^ 7) with 128. nia.
Qed.
Lemma read_varint_at v p s :
  in_u 64 v -> zlen (p ++ Writer.varint_bytes 9 v ++ s) < 2 ^ 32 ->
  read_varint (mkReader (p ++ Writer.varint_bytes 9 v ++ s) (zlen p)) =
    Ok (v, mkReader (p ++ Writer.varint_bytes 9 v ++ s) (zlen (p ++ Writer.varint_bytes 9 v))).
Proof.
  intros Hv Hl. unfold read_varint. pose proof (varint_loop_read 9 v 0 p s Hv ltac:(lia)) as H. cbv zeta in H. change (9 - Z.of_nat 9) with 0 in H.
  rewrite H by done. f_equal. f_equal. change (2 ^ (7 * 0)) with 1. lia.
Qed.

(** ** Fields *)

Definition enc_value (v : Value) : list Z :=
  match v with
  | Varint n => Writer.varint_bytes 9 n
  | Fixed64 n => le_bytes 8 n
  | Len b => Writer.varint_bytes 9 (zlen b) ++ b
  | Fixed32 n => le_bytes 4 n
  end.
Definition enc_key (f wire : Z) : list Z := Writer.varint_bytes 9 (Z.lor (u64 (Z.shiftl f 3)) wire).
Definition enc_field (e : Z * Value) : list Z := enc_key e.1 (Value.wire_type e.2) ++ enc_value e.2.
Definition enc_fields (l : list (Z * Value)) : list Z := l ≫= enc_field.
Definition value_ok (v : Value) : Prop :=
  match v with Varint n => in_u 64 n | Fixed64 n => in_u 64 n | Len b => zlen b < 2 ^ 32 | Fixed32 n => in_u 32 n end.
Definition field_ok (e : Z * Value) : Prop := 1 <= e.1 < 2 ^ 32 /\ value_ok e.2.

Lemma varint_bytes_pos n v : (1 <= length (Writer.varint_bytes (S n) v))%nat.
Proof. remember (S n) as k eqn:Ek. destruct k; [lia|]. cbn [Writer.varint_bytes]. case_decide; simpl; lia. Qed.
Lemma take_at n p m s : zlen m = n -> zlen (p ++ m ++ s) < 2 ^ 32 -> Reader.take n (mkReader (p ++ m ++ s) (zlen p)) = Ok (m, mkReader (p ++ m ++ s) (zlen (p ++ m))).
Proof.
  intros Hm Hl. unfold Reader.take. cbn [rd_buf rd_pos]. rewrite !zlen_app in *. pose proof (zlen_nonneg p). pose proof (zlen_nonneg s). pose proof (zlen_nonneg m).
  rewrite decide_False by (unfold U32_MAX; lia). rewrite decide_False by lia. rewrite slice_in by (rewrite ?zlen_app; lia). cbn [mbind outcome_bind]. f_equal. f_equal; [|f_equal; lia].
  replace (zlen p + n - zlen p) with (zlen m) by lia. unfold zlen. rewrite !Nat2Z.id, drop_app_length, take_app_length. done.
Qed.
Lemma key_value f wire : 1 <= f < 2 ^ 32 -> 0 <= wire < 8 -> let k := Z.lor (u64 (Z.shiftl f 3)) wire in in_u 64 k /\ Z.land k 7 = wire /\ Z.shiftr k 3 = f.
Proof.
  intros Hf Hw k. assert (Hk : k = wire + f * 2 ^ 3).
  { unfold k, u64, wrap. rewrite Z.mod_small by (rewrite Z.shiftl_mul_pow2 by lia; lia). rewrite Z.lor_comm. by apply lor_shift; lia. }
  rewrite Hk. split; [unfold in_u; lia|]. split.
  - change 7 with (Z.ones 3). rewrite Z.land_ones, Z.mod_add by lia. by apply Z.mod_small.
  - rewrite Z.shiftr_div_pow2, Z.div_add by lia. rewrite (Z.div_small wire) by (change (2 ^ 3) with 8; lia). lia.
Qed.
Lemma read_value_at v p s :
  value_ok v -> zlen (p ++ enc_value v ++ s) < 2 ^ 32 ->
  read_value (Value.wire_type v) (mkReader (p ++ enc_value v ++ s) (zlen p)) = Ok (v, mkReader (p ++ enc_value v ++ s) (zlen (p ++ enc_value v))).
Proof.
  destruct v as [n|n|b|n]; intros Hv Hl; unfold read_value; cbn [Value.wire_type enc_value] in *.
  - rewrite decide_True by done. by rewrite read_varint_at.
  - rewrite decide_False, decide_True by done. rewrite take_at by (try done; unfold zlen; by rewrite length_le_bytes). cbn [mbind outcome_bind]. rewrite from_le_le_bytes. by rewrite Z.mod_small.
  - rewrite decide_False, decide_False, decide_True by done. rewrite <- app_assoc in *. cbn [value_ok] in Hv. pose proof (zlen_nonneg b).
    rewrite read_varint_at; [|unfold in_u; change (2 ^ 64) with 18446744073709551616; change (2 ^ 32) with 4294967296 in *; lia|done]. cbn [mbind outcome_bind].
    rewrite decide_False by (unfold remaining; cbn [rd_buf rd_pos]; rewrite !zlen_app; pose proof (zlen_nonneg s); unfold sat_sub; lia).
    rewrite (app_assoc p) in *. unfold usize, wrap. rewrite Z.mod_small by lia. rewrite take_at by done. cbn [mbind outcome_bind]. by rewrite <- !app_assoc.
  - rewrite decide_False, decide_False, decide_False, decide_True by done. rewrite take_at by (try done; unfold zlen; by rewrite length_le_bytes). cbn [mbind outcome_bind]. by rewrite from_le_32.
Qed.
Lemma next_field_at e p s :
  field_ok e -> zlen (p ++ enc_field e ++ s) < 2 ^ 32 ->
  next_field (mkReader (p ++ enc_field e ++ s) (zlen p)) = Ok (Some e, mkReader (p ++ enc_field e ++ s) (zlen (p ++ enc_field e))).
Proof.
  destruct e as [f v]. intros [Hf Hv] Hl. unfold next_field, enc_field in *. cbn [fst snd rd_buf rd_pos] in *. rewrite <- app_assoc in *.
  assert (Hw : 0 <= Value.wire_type v < 8) by (by destruct v). destruct (key_value f (Value.wire_type v) Hf Hw) as (Hk & Hk1 & Hk2).
  set (k := Z.lor _ _) in *. unfold enc_key in *. fold k in Hl |- *.
  pose proof (varint_bytes_pos 8 k) as Hne. assert (1 <= zlen (Writer.varint_bytes 9 k)) by (unfold zlen; lia).
  rewrite decide_False by (rewrite !zlen_app; pose proof (zlen_nonneg s); pose proof (zlen_nonneg (enc_value v)); lia).
  rewrite read_varint_at by done. cbn [mbind outcome_bind]. rewrite Hk1, Hk2. rewrite u32_id by (unfold in_u; lia).
  rewrite decide_False by (unfold U32_MAX; lia). rewrite (app_assoc p) in *. rewrite read_value_at by done. cbn [mbind outcome_bind]. by rewrite <- !app_assoc.
Qed.

Fixpoint fold_fields {M} (step : Z -> Value -> M -> outcome ProtoError M) (l : list (Z * Value)) (m : M) : outcome ProtoError M :=
  match l with [] => Ok m | (f, v) :: l' => m ← step f v m; fold_fields step l' m end.
Lemma enc_fields_cons e l : enc_fields (e :: l) = enc_field e ++ enc_fields l.
Proof. done. Qed.
Lemma each_field_at {M} (step : Z -> Value -> M -> outcome ProtoError M) l : forall fuel p m,
  Forall field_ok l -> (length l < fuel)%nat -> zlen (p ++ enc_fields l) < 2 ^ 32 ->
  each_field step fuel (mkReader (p ++ enc_fields l) (zlen p)) m = fold_fields step l m.
Proof.
  induction l as [|[f v] l IH]; intros fuel p m Hl Hf Hz; (destruct fuel as [|fuel]; [simpl in Hf; lia|]); cbn [each_field].
  - unfold next_field. cbn [rd_buf rd_pos]. change (enc_fields []) with (@nil Z). rewrite decide_True by (rewrite app_nil_r; lia). done.
  - apply Forall_cons in Hl as [He Hl]. rewrite enc_fields_cons in *. rewrite next_field_at by done. cbn [mbind outcome_bind fold_fields].
    destruct (step f v m) as [m'| |]; [|done..]. cbn [mbind outcome_bind]. rewrite (app_assoc p) in *. apply IH; [done|simpl in Hf; lia|done].
Qed.
Lemma length_enc_fields l : (length l <= length (enc_fields l))%nat.
Proof.
  induction l as [|[f v] l IH]; [done|]. rewrite enc_fields_cons, length_app. assert (1 <= length (enc_field (f, v)))%nat; [|simpl; lia].
  unfold enc_field, enc_key. cbn [fst snd]. rewrite length_app. pose proof (varint_bytes_pos 8 (Z.lor (u64 (Z.shiftl f 3)) (Value.wire_type v))). lia.
Qed.
(** What the decoders make of well-formed fields, in any order. *)
Lemma fields_read {M} (step : Z -> Value -> M -> outcome ProtoError M) l m :
  Forall field_ok l -> zlen (enc_fields l) < 2 ^ 32 -> Reader.fields step (enc_fields l) m = fold_fields step l m.
Proof.
  intros Hl Hz. unfold Reader.fields, Reader.new. apply (each_field_at step l (S (length (enc_fields l))) [] m Hl); [|done]. pose proof (length_enc_fields l). lia.
Qed.

(** ** The messages as lists of fields *)

Definition when_field (c : bool) (f : Z) (v : Value) : list (Z * Value) := if c then [(f, v)] else [].
Definition some_field {A} (o : option A) (f : Z) (g : A -> Value) : list (Z * Value) := match o with Some v => [(f, g v)] | None => [] end.

Lemma enc_fields_app l1 l2 : enc_fields (l1 ++ l2) = enc_fields l1 ++ enc_fields l2.
Proof. apply bind_app. Qed.
Lemma enc_one f v : enc_fields [(f, v)] = enc_field (f, v).
Proof. apply app_nil_r. Qed.
Lemma put_if_enc c f v g w : (forall w, g w = w ++ enc_field (f, v)) -> put_if c g w = w ++ enc_fields (when_field c f v).
Proof. intros Hg. unfold put_if, when_field. destruct c; [by rewrite Hg, enc_one|by rewrite app_nil_r]. Qed.
Lemma put_some_enc {A} (o : option A) f h g w : (forall v w, g v w = w ++ enc_field (f, h v)) -> put_some o g w = w ++ enc_fields (some_field o f h).
Proof. intros Hg. unfold put_some, some_field. destruct o; [by rewrite Hg, enc_one|by rewrite app_nil_r]. Qed.
Lemma write_varint_enc f v w : Writer.varint f v w = w ++ enc_field (f, Varint v).
Proof. unfold Writer.varint, Writer.key, Writer.write_varint. by rewrite <- app_assoc. Qed.
Lemma write_fixed32_enc f v w : Writer.fixed32 f v w = w ++ enc_field (f, Fixed32 v).
Proof. unfold Writer.fixed32, Writer.key, Writer.write_varint. by rewrite <- app_assoc. Qed.
Lemma write_bytes_enc f v w : Writer.bytes f v w = w ++ enc_field (f, Len v).
Proof. unfold Writer.bytes, Writer.key, Writer.write_varint. by rewrite <- !app_assoc. Qed.
Lemma put_if_varint c f v w : put_if c (Writer.varint f v) w = w ++ enc_fields (when_field c f (Varint v)).
Proof. apply put_if_enc. intros. apply write_varint_enc. Qed.
Lemma put_some_varint o f w : put_some o (Writer.varint f) w = w ++ enc_fields (some_field o f (fun v => Varint v)).
Proof. apply put_some_enc. intros. apply write_varint_enc. Qed.
Lemma put_if_fixed32 c f v w : put_if c (Writer.fixed32 f v) w = w ++ enc_fields (when_field c f (Fixed32 v)).
Proof. apply put_if_enc. intros. apply write_fixed32_enc. Qed.
Lemma put_some_fixed32 o f w : put_some o (Writer.fixed32 f) w = w ++ enc_fields (some_field o f (fun v => Fixed32 v)).
Proof. apply put_some_enc. intros. apply write_fixed32_enc. Qed.
Lemma put_if_bytes c f v w : put_if c (Writer.bytes f v) w = w ++ enc_fields (when_field c f (Len v)).
Proof. apply put_if_enc. intros. apply write_bytes_enc. Qed.
Lemma put_some_bytes o f w : put_some o (Writer.bytes f) w = w ++ enc_fields (some_field o f (fun v => Len v)).
Proof. apply put_some_enc. intros. apply write_bytes_enc. Qed.
Lemma put_if_string c f v w : put_if c (Writer.string f v) w = w ++ enc_fields (when_field c f (Len v)).
Proof. apply put_if_enc. intros. apply write_bytes_enc. Qed.
Lemma put_some_string o f w : put_some o (Writer.string f) w = w ++ enc_fields (some_field o f (fun v => Len v)).
Proof. apply put_some_enc. intros. apply write_bytes_enc. Qed.
Lemma put_if_int32 c f v w : put_if c (Writer.int32 f v) w = w ++ enc_fields (when_field c f (Varint (u64 v))).
Proof. apply put_if_enc. intros. apply write_varint_enc. Qed.
Lemma put_some_int32 o f w : put_some o (Writer.int32 f) w = w ++ enc_fields (some_field o f (fun v => Varint (u64 v))).
Proof. apply put_some_enc. intros. apply write_varint_enc. Qed.
Lemma put_if_sint32 c f v w : put_if c (Writer.sint32 f v) w = w ++ enc_fields (when_field c f (Varint (zigzag v))).
Proof. apply put_if_enc. intros. apply write_varint_enc. Qed.
Lemma put_some_sint32 o f w : put_some o (Writer.sint32 f) w = w ++ enc_fields (some_field o f (fun v => Varint (zigzag v))).
Proof. apply put_some_enc. intros. apply write_varint_enc. Qed.
Lemma put_if_sfixed32 c f v w : put_if c (Writer.sfixed32 f v) w = w ++ enc_fields (when_field c f (Fixed32 (u32 v))).
Proof. apply put_if_enc. intros. apply write_fixed32_enc. Qed.
Lemma put_some_sfixed32 o f w : put_some o (Writer.sfixed32 f) w = w ++ enc_fields (some_field o f (fun v => Fixed32 (u32 v))).
Proof. apply put_some_enc. intros. apply write_fixed32_enc. Qed.
Lemma put_if_bool c f v w : put_if c (Writer.bool f v) w = w ++ enc_fields (when_field c f (Varint (Z.b2z v))).
Proof. apply put_if_enc. intros. apply write_varint_enc. Qed.
Lemma put_some_bool o f w : put_some o (Writer.bool f) w = w ++ enc_fields (some_field o f (fun v => Varint (Z.b2z v))).
Proof. apply put_some_enc. intros. apply write_varint_enc. Qed.
Ltac enc_tac := rewrite ?put_if_varint, ?put_some_varint, ?put_if_fixed32, ?put_some_fixed32, ?put_if_bytes, ?put_some_bytes, ?put_if_string, ?put_some_string, ?put_if_int32, ?put_some_int32, ?put_if_sint32, ?put_some_sint32, ?put_if_sfixed32, ?put_some_sfixed32, ?put_if_bool, ?put_some_bool;
  rewrite ?enc_fields_app, app_nil_l; change (enc_fields []) with (@nil Z); rewrite app_nil_r; rewrite <- ?app_assoc; reflexivity.

Lemma fold_when {M} (step : Z -> Value -> M -> outcome ProtoError M) f v c m m' fs r :
  (c = true -> step f v m = Ok m') -> (c = false -> m' = m) -> fold_fields step fs m' = r -> fold_fields step (when_field c f v ++ fs) m = r.
Proof. intros H1 H2 <-. unfold when_field. destruct c; [cbn [app fold_fields]; by rewrite H1|by rewrite H2]. Qed.
Lemma fold_some {M A} (step : Z -> Value -> M -> outcome ProtoError M) f (g : A -> Value) o m m' fs r :
  (forall x, o = Some x -> step f (g x) m = Ok m') -> (o = None -> m' = m) -> fold_fields step fs m' = r -> fold_fields step (some_field o f g ++ fs) m = r.
Proof. intros H1 H2 <-. unfold some_field. destruct o; [cbn [app fold_fields]; by rewrite (H1 a)|by rewrite H2]. Qed.

Lemma rd_u32 f v : in_u 32 v -> Value.to_u32 f (Varint v) = Ok v.
Proof. intros Hv. unfold Value.to_u32. cbn [Value.varint mbind outcome_bind]. by rewrite u32_id. Qed.
Lemma rd_i32 f v : in_i32 v -> Value.to_i32 f (Varint (u64 v)) = Ok v.
Proof. intros Hv. unfold Value.to_i32. cbn [Value.varint mbind outcome_bind]. by rewrite as_i32_u64. Qed.
Lemma rd_sfixed32 f v : in_i32 v -> Value.sfixed32 f (Fixed32 (u32 v)) = Ok v.
Proof. intros Hv. unfold Value.sfixed32. cbn [Value.fixed32 mbind outcome_bind]. by rewrite as_i32_u32. Qed.
Lemma rd_bool f v : Value.to_bool f (Varint (Z.b2z v)) = Ok v.
Proof. by destruct v. Qed.
Lemma rd_fixed32 f v : Value.fixed32 f (Fixed32 v) = Ok v.
Proof. done. Qed.
Lemma rd_bytes f v : Value.bytes f (Len v) = Ok v.
Proof. done. Qed.
Lemma rd_string f v : well_encoded v -> Value.string f (Len v) = Ok v.
Proof. intros Hv. unfold Value.string. cbn [Value.bytes mbind outcome_bind]. by rewrite from_utf8_lossy_id. Qed.

Ltac field_tac :=
  intros;
  repeat match goal with
  | H : bool_decide _ = false |- _ => apply bool_decide_eq_false, dec_stable in H
  | H : ?x = _ |- _ => is_var x; subst x
  end; try reflexivity;
  cbn [from_option] in *;
  cbn [PbData.step PbUser.step PbPosition.step PbRouting.step];
  rewrite ?rd_bool, ?rd_fixed32, ?rd_bytes;
  try first [rewrite rd_u32 by assumption|rewrite rd_i32 by assumption|rewrite rd_sfixed32 by assumption|rewrite rd_string by assumption|rewrite zigzag_back by assumption];
  reflexivity.

(** The range of every number; lengths follow from the size of the whole. *)
Definition number_ok (e : Z * Value) : Prop :=
  1 <= e.1 < 2 ^ 32 /\ match e.2 with Len _ => True | v => value_ok v end.
Lemma number_ok_field l : Forall number_ok l -> zlen (enc_fields l) < 2 ^ 32 -> Forall field_ok l.
Proof.
  induction 1 as [|[f v] l [Hf Hv] _ IH]; intros Hz; [constructor|]. rewrite enc_fields_cons, zlen_app in Hz.
  pose proof (zlen_nonneg (enc_fields l)). pose proof (zlen_nonneg (enc_field (f, v))). constructor; [|apply IH; lia].
  split; [done|]. destruct v; [done..| |done]. cbn [snd value_ok] in *. unfold enc_field in Hz. cbn [fst snd enc_value] in Hz. rewrite !zlen_app in Hz.
  pose proof (zlen_nonneg (enc_key f (Value.wire_type (Len b)))). pose proof (zlen_nonneg (Writer.varint_bytes 9 (zlen b))). lia.
Qed.
Lemma when_ok c f v : number_ok (f, v) -> Forall number_ok (when_field c f v).
Proof. intros H. unfold when_field. destruct c; [apply Forall_cons_2; [done|apply Forall_nil_2]|apply Forall_nil_2]. Qed.
Lemma some_ok {A} (o : option A) f g : (forall x, o = Some x -> number_ok (f, g x)) -> Forall number_ok (some_field o f g).
Proof. unfold some_field. destruct o; [intros H; apply Forall_cons_2; [by apply H|apply Forall_nil_2]|intros _; apply Forall_nil_2]. Qed.
Lemma u32_in_u64 v : in_u 32 v -> in_u 64 v.
Proof. unfold in_u. change (2 ^ 64) with 18446744073709551616. change (2 ^ 32) with 4294967296. lia. Qed.
Lemma u32_in z : in_u 32 (u32 z).
Proof. unfold u32, wrap, in_u. by apply Z.mod_pos_bound. Qed.
Lemma u64_in z : in_u 64 (u64 z).
Proof. unfold u64, wrap, in_u. by apply Z.mod_pos_bound. Qed.
Lemma b2z_in b : in_u 64 (Z.b2z b).
Proof. by destruct b. Qed.
#[local] Hint Resolve u32_in_u64 u32_in u64_in b2z_in : mesh.
Ltac number_tac := split; [done|]; cbn [fst snd value_ok]; unfold zigzag; solve [exact I|auto with mesh].
Ltac fields_ok_tac :=
  repeat apply Forall_app_2; try apply Forall_nil_2;
  first [apply when_ok; number_tac | apply some_ok; intros ? Hsome;
    repeat match goal with H : from_option _ _ _ |- _ => rewrite Hsome in H; cbn [from_option] in H end; number_tac].

Definition data_core (m : PbData) : Prop :=
  in_u 32 (d_portnum m) /\ bytes_ok (d_payload m) /\ in_u 32 (d_dest m) /\ in_u 32 (d_source m) /\
  in_u 32 (d_request_id m) /\ in_u 32 (d_reply_id m) /\ in_u 32 (d_emoji m) /\
  from_option (fun v => in_u 32 v) True (d_bitfield m) /\
  from_option (fun v => bytes_ok v) True (d_xeddsa_signature m).
Definition data_ok (m : PbData) : Prop := data_core m /\
  (forall b, d_bitfield m = Some b -> Z.land b BITFIELD_WANT_RESPONSE <> 0 -> d_want_response m = true).
Definition data_fields (m : PbData) : list (Z * Value) :=
  when_field (bool_decide (d_portnum m <> 0)) 1 (Varint (d_portnum m)) ++
  when_field (bool_decide (d_payload m <> [])) 2 (Len (d_payload m)) ++
  when_field (d_want_response m) 3 (Varint (Z.b2z true)) ++
  when_field (bool_decide (d_dest m <> 0)) 4 (Fixed32 (d_dest m)) ++
  when_field (bool_decide (d_source m <> 0)) 5 (Fixed32 (d_source m)) ++
  when_field (bool_decide (d_request_id m <> 0)) 6 (Fixed32 (d_request_id m)) ++
  when_field (bool_decide (d_reply_id m <> 0)) 7 (Fixed32 (d_reply_id m)) ++
  when_field (bool_decide (d_emoji m <> 0)) 8 (Fixed32 (d_emoji m)) ++
  some_field (d_bitfield m) 9 (fun v => Varint v) ++
  some_field (d_xeddsa_signature m) 10 (fun v => Len v) ++
  [].
Lemma data_encode m : PbData.encode m = enc_fields (data_fields m).
Proof. unfold PbData.encode, varint_each, data_fields. cbn [foldl fst snd]. enc_tac. Qed.
Lemma data_fold m : data_core m -> fold_fields PbData.step (data_fields m) PbData.default_value = Ok m.
Proof.
  destruct m as [portnum payload want_response dest source request_id reply_id emoji bitfield xeddsa_signature].
  unfold data_core, data_fields, PbData.default_value. cbn [d_portnum d_payload d_want_response d_dest d_source d_request_id d_reply_id d_emoji d_bitfield d_xeddsa_signature]. intros Hok. destruct_and?.
  apply (fold_when _ _ _ _ _ (mkPbData portnum [] false 0 0 0 0 0 None None)); [field_tac..|].
  apply (fold_when _ _ _ _ _ (mkPbData portnum payload false 0 0 0 0 0 None None)); [field_tac..|].
  apply (fold_when _ _ _ _ _ (mkPbData portnum payload want_response 0 0 0 0 0 None None)); [field_tac..|].
  apply (fold_when _ _ _ _ _ (mkPbData portnum payload want_response dest 0 0 0 0 None None)); [field_tac..|].
  apply (fold_when _ _ _ _ _ (mkPbData portnum payload want_response dest source 0 0 0 None None)); [field_tac..|].
  apply (fold_when _ _ _ _ _ (mkPbData portnum payload want_response dest source request_id 0 0 None None)); [field_tac..|].
  apply (fold_when _ _ _ _ _ (mkPbData portnum payload want_response dest source request_id reply_id 0 None None)); [field_tac..|].
  apply (fold_when _ _ _ _ _ (mkPbData portnum payload want_response dest source request_id reply_id emoji None None)); [field_tac..|].
  apply (fold_some _ _ _ _ _ (mkPbData portnum payload want_response dest source request_id reply_id emoji bitfield None)); [field_tac..|].
  apply (fold_some _ _ _ _ _ (mkPbData portnum payload want_response dest source request_id reply_id emoji bitfield xeddsa_signature)); [field_tac..|].
  done.
Qed.
Lemma data_fields_ok m : data_core m -> Forall number_ok (data_fields m).
Proof.
  intros Hok. unfold data_core in Hok. destruct_and?. unfold data_fields in *. fields_ok_tac.
Qed.

Definition user_core (m : PbUser) : Prop :=
  well_encoded (us_id m) /\ well_encoded (us_long_name m) /\ well_encoded (us_short_name m) /\
  bytes_ok (us_macaddr m) /\ in_u 32 (us_hw_model m) /\ in_u 32 (us_role m) /\ bytes_ok (us_public_key m).
Definition user_ok (m : PbUser) : Prop := user_core m.
Definition user_fields (m : PbUser) : list (Z * Value) :=
  when_field (bool_decide (us_id m <> [])) 1 (Len (us_id m)) ++
  when_field (bool_decide (us_long_name m <> [])) 2 (Len (us_long_name m)) ++
  when_field (bool_decide (us_short_name m <> [])) 3 (Len (us_short_name m)) ++
  when_field (bool_decide (us_macaddr m <> [])) 4 (Len (us_macaddr m)) ++
  when_field (bool_decide (us_hw_model m <> 0)) 5 (Varint (us_hw_model m)) ++
  when_field (us_is_licensed m) 6 (Varint (Z.b2z true)) ++
  when_field (bool_decide (us_role m <> 0)) 7 (Varint (us_role m)) ++
  when_field (bool_decide (us_public_key m <> [])) 8 (Len (us_public_key m)) ++
  some_field (us_is_unmessagable m) 9 (fun v => Varint (Z.b2z v)) ++
  [].
Lemma user_encode m : PbUser.encode m = enc_fields (user_fields m).
Proof. unfold PbUser.encode, varint_each, user_fields. cbn [foldl fst snd]. enc_tac. Qed.
Lemma user_fold m : user_core m -> fold_fields PbUser.step (user_fields m) PbUser.default_value = Ok m.
Proof.
  destruct m as [id long_name short_name macaddr hw_model is_licensed role public_key is_unmessagable].
  unfold user_core, user_fields, PbUser.default_value. cbn [us_id us_long_name us_short_name us_macaddr us_hw_model us_is_licensed us_role us_public_key us_is_unmessagable]. intros Hok. destruct_and?.
  apply (fold_when _ _ _ _ _ (mkPbUser id [] [] [] 0 false 0 [] None)); [field_tac..|].
  apply (fold_when _ _ _ _ _ (mkPbUser id long_name [] [] 0 false 0 [] None)); [field_tac..|].
  apply (fold_when _ _ _ _ _ (mkPbUser id long_name short_name [] 0 false 0 [] None)); [field_tac..|].
  apply (fold_when _ _ _ _ _ (mkPbUser id long_name short_name macaddr 0 false 0 [] None)); [field_tac..|].
  apply (fold_when _ _ _ _ _ (mkPbUser id long_name short_name macaddr hw_model false 0 [] None)); [field_tac..|].
  apply (fold_when _ _ _ _ _ (mkPbUser id long_name short_name macaddr hw_model is_licensed 0 [] None)); [field_tac..|].
  apply (fold_when _ _ _ _ _ (mkPbUser id long_name short_name macaddr hw_model is_licensed role [] None)); [field_tac..|].
  apply (fold_when _ _ _ _ _ (mkPbUser id long_name short_name macaddr hw_model is_licensed role public_key None)); [field_tac..|].
  apply (fold_some _ _ _ _ _ (mkPbUser id long_name short_name macaddr hw_model is_licensed role public_key is_unmessagable)); [field_tac..|].
  done.
Qed.
Lemma user_fields_ok m : user_core m -> Forall number_ok (user_fields m).
Proof.
  intros Hok. unfold user_core in Hok. destruct_and?. unfold user_fields in *. fields_ok_tac.
Qed.

Definition position_core (m : PbPosition) : Prop :=
  from_option (fun v => in_i32 v) True (po_latitude_i m) /\ from_option (fun v => in_i32 v) True (po_longitude_i m) /\
  from_option (fun v => in_i32 v) True (po_altitude m) /\ in_u 32 (po_time m) /\ in_u 32 (po_location_source m) /\
  in_u 32 (po_altitude_source m) /\ in_u 32 (po_timestamp m) /\ in_i32 (po_timestamp_millis_adjust m) /\
  from_option (fun v => in_i32 v) True (po_altitude_hae m) /\
  from_option (fun v => in_i32 v) True (po_altitude_geoidal_separation m) /\ in_u 32 (po_pdop m) /\
  in_u 32 (po_hdop m) /\ in_u 32 (po_vdop m) /\ in_u 32 (po_gps_accuracy m) /\
  from_option (fun v => in_u 32 v) True (po_ground_speed m) /\
  from_option (fun v => in_u 32 v) True (po_ground_track m) /\ in_u 32 (po_fix_quality m) /\
  in_u 32 (po_fix_type m) /\ in_u 32 (po_sats_in_view m) /\ in_u 32 (po_sensor_id m) /\ in_u 32 (po_next_update m) /\
  in_u 32 (po_seq_number m) /\ in_u 32 (po_precision_bits m).
Definition position_ok (m : PbPosition) : Prop := position_core m.
Definition position_fields (m : PbPosition) : list (Z * Value) :=
  some_field (po_latitude_i m) 1 (fun v => Fixed32 (u32 v)) ++
  some_field (po_longitude_i m) 2 (fun v => Fixed32 (u32 v)) ++
  some_field (po_altitude m) 3 (fun v => Varint (u64 v)) ++
  when_field (bool_decide (po_time m <> 0)) 4 (Fixed32 (po_time m)) ++
  when_field (bool_decide (po_location_source m <> 0)) 5 (Varint (po_location_source m)) ++
  when_field (bool_decide (po_altitude_source m <> 0)) 6 (Varint (po_altitude_source m)) ++
  when_field (bool_decide (po_timestamp m <> 0)) 7 (Fixed32 (po_timestamp m)) ++
  when_field (bool_decide (po_timestamp_millis_adjust m <> 0)) 8 (Varint (u64 (po_timestamp_millis_adjust m))) ++
  some_field (po_altitude_hae m) 9 (fun v => Varint (zigzag v)) ++
  some_field (po_altitude_geoidal_separation m) 10 (fun v => Varint (zigzag v)) ++
  when_field (bool_decide (po_pdop m <> 0)) 11 (Varint (po_pdop m)) ++
  when_field (bool_decide (po_hdop m <> 0)) 12 (Varint (po_hdop m)) ++
  when_field (bool_decide (po_vdop m <> 0)) 13 (Varint (po_vdop m)) ++
  when_field (bool_decide (po_gps_accuracy m <> 0)) 14 (Varint (po_gps_accuracy m)) ++
  some_field (po_ground_speed m) 15 (fun v => Varint v) ++
  some_field (po_ground_track m) 16 (fun v => Varint v) ++
  when_field (bool_decide (po_fix_quality m <> 0)) 17 (Varint (po_fix_quality m)) ++
  when_field (bool_decide (po_fix_type m <> 0)) 18 (Varint (po_fix_type m)) ++
  when_field (bool_decide (po_sats_in_view m <> 0)) 19 (Varint (po_sats_in_view m)) ++
  when_field (bool_decide (po_sensor_id m <> 0)) 20 (Varint (po_sensor_id m)) ++
  when_field (bool_decide (po_next_update m <> 0)) 21 (Varint (po_next_update m)) ++
  when_field (bool_decide (po_seq_number m <> 0)) 22 (Varint (po_seq_number m)) ++
  when_field (bool_decide (po_precision_bits m <> 0)) 23 (Varint (po_precision_bits m)) ++
  [].
Lemma position_encode m : PbPosition.encode m = enc_fields (position_fields m).
Proof. unfold PbPosition.encode, varint_each, position_fields. cbn [foldl fst snd]. enc_tac. Qed.
Lemma position_fold m : position_core m -> fold_fields PbPosition.step (position_fields m) PbPosition.default_value = Ok m.
Proof.
  destruct m as [latitude_i longitude_i altitude time location_source altitude_source timestamp timestamp_millis_adjust altitude_hae altitude_geoidal_separation pdop hdop vdop gps_accuracy ground_speed ground_track fix_quality fix_type sats_in_view sensor_id next_update seq_number precision_bits].
  unfold position_core, position_fields, PbPosition.default_value. cbn [po_latitude_i po_longitude_i po_altitude po_time po_location_source po_altitude_source po_timestamp po_timestamp_millis_adjust po_altitude_hae po_altitude_geoidal_separation po_pdop po_hdop po_vdop po_gps_accuracy po_ground_speed po_ground_track po_fix_quality po_fix_type po_sats_in_view po_sensor_id po_next_update po_seq_number po_precision_bits]. intros Hok. destruct_and?.
  apply (fold_some _ _ _ _ _ (mkPbPosition latitude_i None None 0 0 0 0 0 None None 0 0 0 0 None None 0 0 0 0 0 0 0)); [field_tac..|].
  apply (fold_some _ _ _ _ _ (mkPbPosition latitude_i longitude_i None 0 0 0 0 0 None None 0 0 0 0 None None 0 0 0 0 0 0 0)); [field_tac..|].
  apply (fold_some _ _ _ _ _ (mkPbPosition latitude_i longitude_i altitude 0 0 0 0 0 None None 0 0 0 0 None None 0 0 0 0 0 0 0)); [field_tac..|].
  apply (fold_when _ _ _ _ _ (mkPbPosition latitude_i longitude_i altitude time 0 0 0 0 None None 0 0 0 0 None None 0 0 0 0 0 0 0)); [field_tac..|].
  apply (fold_when _ _ _ _ _ (mkPbPosition latitude_i longitude_i altitude time location_source 0 0 0 None None 0 0 0 0 None None 0 0 0 0 0 0 0)); [field_tac..|].
  apply (fold_when _ _ _ _ _ (mkPbPosition latitude_i longitude_i altitude time location_source altitude_source 0 0 None None 0 0 0 0 None None 0 0 0 0 0 0 0)); [field_tac..|].
  apply (fold_when _ _ _ _ _ (mkPbPosition latitude_i longitude_i altitude time location_source altitude_source timestamp 0 None None 0 0 0 0 None None 0 0 0 0 0 0 0)); [field_tac..|].
  apply (fold_when _ _ _ _ _ (mkPbPosition latitude_i longitude_i altitude time location_source altitude_source timestamp timestamp_millis_adjust None None 0 0 0 0 None None 0 0 0 0 0 0 0)); [field_tac..|].
  apply (fold_some _ _ _ _ _ (mkPbPosition latitude_i longitude_i altitude time location_source altitude_source timestamp timestamp_millis_adjust altitude_hae None 0 0 0 0 None None 0 0 0 0 0 0 0)); [field_tac..|].
  apply (fold_some _ _ _ _ _ (mkPbPosition latitude_i longitude_i altitude time location_source altitude_source timestamp timestamp_millis_adjust altitude_hae altitude_geoidal_separation 0 0 0 0 None None 0 0 0 0 0 0 0)); [field_tac..|].
  apply (fold_when _ _ _ _ _ (mkPbPosition latitude_i longitude_i altitude time location_source altitude_source timestamp timestamp_millis_adjust altitude_hae altitude_geoidal_separation pdop 0 0 0 None None 0 0 0 0 0 0 0)); [field_tac..|].
  apply (fold_when _ _ _ _ _ (mkPbPosition latitude_i longitude_i altitude time location_source altitude_source timestamp timestamp_millis_adjust altitude_hae altitude_geoidal_separation pdop hdop 0 0 None None 0 0 0 0 0 0 0)); [field_tac..|].
  apply (fold_when _ _ _ _ _ (mkPbPosition latitude_i longitude_i altitude time location_source altitude_source timestamp timestamp_millis_adjust altitude_hae altitude_geoidal_separation pdop hdop vdop 0 None None 0 0 0 0 0 0 0)); [field_tac..|].
  apply (fold_when _ _ _ _ _ (mkPbPosition latitude_i longitude_i altitude time location_source altitude_source timestamp timestamp_millis_adjust altitude_hae altitude_geoidal_separation pdop hdop vdop gps_accuracy None None 0 0 0 0 0 0 0)); [field_tac..|].
  apply (fold_some _ _ _ _ _ (mkPbPosition latitude_i longitude_i altitude time location_source altitude_source timestamp timestamp_millis_adjust altitude_hae altitude_geoidal_separation pdop hdop vdop gps_accuracy ground_speed None 0 0 0 0 0 0 0)); [field_tac..|].
  apply (fold_some _ _ _ _ _ (mkPbPosition latitude_i longitude_i altitude time location_source altitude_source timestamp timestamp_millis_adjust altitude_hae altitude_geoidal_separation pdop hdop vdop gps_accuracy ground_speed ground_track 0 0 0 0 0 0 0)); [field_tac..|].
  apply (fold_when _ _ _ _ _ (mkPbPosition latitude_i longitude_i altitude time location_source altitude_source timestamp timestamp_millis_adjust altitude_hae altitude_geoidal_separation pdop hdop vdop gps_accuracy ground_speed ground_track fix_quality 0 0 0 0 0 0)); [field_tac..|].
  apply (fold_when _ _ _ _ _ (mkPbPosition latitude_i longitude_i altitude time location_source altitude_source timestamp timestamp_millis_adjust altitude_hae altitude_geoidal_separation pdop hdop vdop gps_accuracy ground_speed ground_track fix_quality fix_type 0 0 0 0 0)); [field_tac..|].
  apply (fold_when _ _ _ _ _ (mkPbPosition latitude_i longitude_i altitude time location_source altitude_source timestamp timestamp_millis_adjust altitude_hae altitude_geoidal_separation pdop hdop vdop gps_accuracy ground_speed ground_track fix_quality fix_type sats_in_view 0 0 0 0)); [field_tac..|].
  apply (fold_when _ _ _ _ _ (mkPbPosition latitude_i longitude_i altitude time location_source altitude_source timestamp timestamp_millis_adjust altitude_hae altitude_geoidal_separation pdop hdop vdop gps_accuracy ground_speed ground_track fix_quality fix_type sats_in_view sensor_id 0 0 0)); [field_tac..|].
  apply (fold_when _ _ _ _ _ (mkPbPosition latitude_i longitude_i altitude time location_source altitude_source timestamp timestamp_millis_adjust altitude_hae altitude_geoidal_separation pdop hdop vdop gps_accuracy ground_speed ground_track fix_quality fix_type sats_in_view sensor_id next_update 0 0)); [field_tac..|].
  apply (fold_when _ _ _ _ _ (mkPbPosition latitude_i longitude_i altitude time location_source altitude_source timestamp timestamp_millis_adjust altitude_hae altitude_geoidal_separation pdop hdop vdop gps_accuracy ground_speed ground_track fix_quality fix_type sats_in_view sensor_id next_update seq_number 0)); [field_tac..|].
  apply (fold_when _ _ _ _ _ (mkPbPosition latitude_i longitude_i altitude time location_source altitude_source timestamp timestamp_millis_adjust altitude_hae altitude_geoidal_separation pdop hdop vdop gps_accuracy ground_speed ground_track fix_quality fix_type sats_in_view sensor_id next_update seq_number precision_bits)); [field_tac..|].
  done.
Qed.
Lemma position_fields_ok m : position_core m -> Forall number_ok (position_fields m).
Proof.
  intros Hok. unfold position_core in Hok. destruct_and?. unfold position_fields in *. fields_ok_tac.
Qed.

Definition routing_core (m : PbRouting) : Prop :=
  from_option (fun v => bytes_ok v) True (ro_route_request m) /\
  from_option (fun v => bytes_ok v) True (ro_route_reply m) /\
  from_option (fun v => in_u 32 v) True (ro_error_reason m).
Definition routing_ok (m : PbRouting) : Prop := routing_core m.
Definition routing_fields (m : PbRouting) : list (Z * Value) :=
  some_field (ro_route_request m) 1 (fun v => Len v) ++
  some_field (ro_route_reply m) 2 (fun v => Len v) ++
  some_field (ro_error_reason m) 3 (fun v => Varint v) ++
  [].
Lemma routing_encode m : PbRouting.encode m = enc_fields (routing_fields m).
Proof. unfold PbRouting.encode, varint_each, routing_fields. cbn [foldl fst snd]. enc_tac. Qed.
Lemma routing_fold m : routing_core m -> fold_fields PbRouting.step (routing_fields m) PbRouting.default_value = Ok m.
Proof.
  destruct m as [route_request route_reply error_reason].
  unfold routing_core, routing_fields, PbRouting.default_value. cbn [ro_route_request ro_route_reply ro_error_reason]. intros Hok. destruct_and?.
  apply (fold_some _ _ _ _ _ (mkPbRouting route_request None None)); [field_tac..|].
  apply (fold_some _ _ _ _ _ (mkPbRouting route_request route_reply None)); [field_tac..|].
  apply (fold_some _ _ _ _ _ (mkPbRouting route_request route_reply error_reason)); [field_tac..|].
  done.
Qed.
Lemma routing_fields_ok m : routing_core m -> Forall number_ok (routing_fields m).
Proof.
  intros Hok. unfold routing_core in Hok. destruct_and?. unfold routing_fields in *. fields_ok_tac.
Qed.

(** ** Any input *)

(** What reading keeps: the buffer, a position that moved within it, and values
    cut out of it. *)
Section Reading.
(** Whether the input is known to consist of bytes. *)
Context (c : bool).
Definition bytes_if (l : list Z) : Prop := c = true -> bytes_ok l.
Definition value_wf (bound : Z) (v : Value) : Prop :=
  match v with Len b => bytes_if b /\ zlen b <= bound | Fixed32 n => c = true -> in_u 32 n | _ => True end.
Definition reader_ok (r : Reader) : Prop := bytes_if (rd_buf r) /\ zlen (rd_buf r) < 2 ^ 32 /\ 0 <= rd_pos r.
Definition moved (r r' : Reader) : Prop := rd_buf r' = rd_buf r /\ rd_pos r < rd_pos r' <= zlen (rd_buf r).

(** [o] does not panic, and its value satisfies [P]. *)
Definition yields {E A} (P : A -> Prop) (o : outcome E A) : Prop := match o with Ok a => P a | Err _ => True | Panic => False end.
Lemma yields_bind {E A B} (P : A -> Prop) (Q : B -> Prop) (o : outcome E A) (f : A -> outcome E B) :
  yields P o -> (forall a, P a -> yields Q (f a)) -> yields Q (o ≫= f).
Proof. destruct o; cbn; auto. Qed.
Lemma yields_mono {E A} (P Q : A -> Prop) (o : outcome E A) : yields P o -> (forall a, P a -> Q a) -> yields Q o.
Proof. destruct o; cbn; auto. Qed.

Lemma varint_loop_wf n : forall i res r, reader_ok r -> 0 <= i -> 0 <= res ->
  yields (fun x => 0 <= x.1 /\ moved r x.2) (varint_loop n i res r).
Proof.
  induction n as [|n IH]; intros i res r (Hb & Hl & Hp) Hi Hres; [exact I|]. cbn [varint_loop].
  destruct (rd_buf r !! Z.to_nat (rd_pos r)) as [b|] eqn:E; [|exact I]. apply lookup_lt_Some in E.
  assert (Hlt : rd_pos r + 1 <= zlen (rd_buf r)) by (unfold zlen; lia).
  assert (Hpos : usize (rd_pos r + 1) = rd_pos r + 1) by (unfold usize, wrap; apply Z.mod_small; lia). rewrite Hpos.
  case_decide; [exact I|]. assert (Hnew : 0 <= Z.lor res (u64 (Z.shiftl (Z.land b 127) (7 * i)))) by (apply Z.lor_nonneg; split; [done|]; apply u64_in).
  case_decide; [split; [done|]; split; [done|cbn; lia]|].
  eapply yields_mono; [apply IH; [split; [done|]; split; [done|cbn; lia]|lia|done]|]. intros [v r'] (H1 & H2 & H3). cbn [yields fst snd value_wf rd_buf rd_pos] in *. split; [done|]. split; [done|lia].
Qed.
Lemma read_varint_wf r : reader_ok r -> yields (fun x => 0 <= x.1 /\ moved r x.2) (read_varint r).
Proof. intros Hr. by apply varint_loop_wf. Qed.
Lemma take_wf n r : reader_ok r -> 0 <= n -> rd_pos r <= zlen (rd_buf r) ->
  yields (fun x => bytes_if x.1 /\ zlen x.1 = n /\ rd_buf x.2 = rd_buf r /\ rd_pos r <= rd_pos x.2 <= zlen (rd_buf r)) (Reader.take n r).
Proof.
  intros (Hb & Hl & Hp) Hn Hr. unfold Reader.take. case_decide; [exact I|]. case_decide; [exact I|].
  destruct (slice (rd_buf r) (rd_pos r) (rd_pos r + n)) as [s|e|] eqn:E; [|done|].
  - cbn [yields fst snd rd_buf rd_pos mbind outcome_bind]. split; [intros Hc; eapply slice_wf, E; by apply Hb|]. rewrite slice_in in E by lia. simplify_eq. split; [|split; [done|lia]].
    unfold zlen in *. rewrite length_take, length_drop. lia.
  - by rewrite slice_in in E by lia.
Qed.
Lemma read_value_wf wire r : reader_ok r -> rd_pos r <= zlen (rd_buf r) ->
  yields (fun x => value_wf (zlen (rd_buf r)) x.1 /\ rd_buf x.2 = rd_buf r /\ rd_pos r <= rd_pos x.2 <= zlen (rd_buf r)) (read_value wire r).
Proof.
  intros Hr Hp. unfold read_value. case_decide; [|case_decide; [|case_decide; [|case_decide; [|exact I]]]].
  - eapply yields_bind; [by apply read_varint_wf|]. intros [v r'] (_ & M1 & M2). cbn [yields fst snd value_wf rd_buf rd_pos] in *. split; [done|]. split; [done|lia].
  - eapply yields_bind; [by apply take_wf|]. intros [s r'] (_ & _ & M1 & M2). by cbn [yields fst snd value_wf rd_buf rd_pos] in *.
  - eapply yields_bind; [by apply read_varint_wf|]. intros [v r'] (Hv & M1 & M2). cbn [fst snd] in Hv, M1, M2. case_decide as Hrem; [exact I|]. cbn [fst snd] in *.
    assert (Hr' : reader_ok r') by (destruct Hr as (? & ? & ?); split; [by rewrite M1|]; split; [congruence|lia]).
    assert (Hu : usize v = v) by (unfold usize, wrap; apply Z.mod_small; destruct Hr as (_ & ? & ?); unfold remaining, sat_sub in Hrem; rewrite M1 in Hrem; lia).
    rewrite Hu. eapply yields_bind; [apply take_wf; [done|done|rewrite M1; lia]|]. intros [s r''] (Hs & Hsl & M3 & M4). cbn [yields fst snd value_wf] in *. rewrite M1 in *.
    unfold remaining, sat_sub in Hrem. rewrite M1 in Hrem. destruct Hr as (_ & _ & Hr0). split; [split; [done|lia]|]. split; [done|lia].
  - eapply yields_bind; [by apply take_wf|]. intros [s r'] (Hs & Hsl & M1 & M2). cbn [yields fst snd value_wf rd_buf rd_pos] in *. split; [|done].
    intros Hc. pose proof (from_le_range s (Hs Hc)) as Hrng. rewrite Hsl in Hrng. exact Hrng.
Qed.
Lemma next_field_wf r : reader_ok r ->
  yields (fun x => match x.1 with None => True | Some (_, v) => value_wf (zlen (rd_buf r)) v /\ moved r x.2 end) (next_field r).
Proof.
  intros Hr. unfold next_field. case_decide; [exact I|]. eapply yields_bind; [by apply read_varint_wf|]. intros [k r'] (_ & M1 & M2). cbn [fst snd] in *.
  case_decide; [exact I|]. assert (Hr' : reader_ok r') by (destruct Hr as (? & ? & ?); split; [by rewrite M1|]; split; [congruence|lia]).
  eapply yields_bind; [apply read_value_wf; [done|rewrite M1; lia]|]. intros [v r''] (Hv & M3 & M4). cbn [yields fst snd value_wf rd_buf rd_pos] in *. rewrite M1 in *. split; [done|]. split; [done|]. lia.
Qed.
(** Every message is read to its end: the rounds suffice, and an invariant of the
    single steps holds of the result. *)
Lemma each_field_wf {M} (step : Z -> Value -> M -> outcome ProtoError M) (P : M -> Prop) buf :
  zlen buf < 2 ^ 32 -> bytes_if buf -> (forall f v m, value_wf (zlen buf) v -> P m -> yields P (step f v m)) ->
  forall fuel r m, rd_buf r = buf -> 0 <= rd_pos r -> P m -> (length buf < fuel + Z.to_nat (rd_pos r))%nat -> (rd_pos r <= zlen buf) ->
  yields P (each_field step fuel r m).
Proof.
  intros Hl Hb Hstep. induction fuel as [|fuel IH]; intros r m Hbuf Hp Hm Hf Hle; [unfold zlen in Hle; lia|]. cbn [each_field].
  assert (Hr : reader_ok r) by (rewrite <- Hbuf in *; done). eapply yields_bind; [by apply next_field_wf|]. intros [[[f v]|] r'] Hx; cbn [fst snd] in *; [|done].
  destruct Hx as (Hv & M1 & M2). rewrite Hbuf in *. eapply yields_bind; [by apply Hstep|]. intros m' Hm'. apply IH; try done; lia.
Qed.
Lemma fields_wf {M} (step : Z -> Value -> M -> outcome ProtoError M) (P : M -> Prop) buf m :
  zlen buf < 2 ^ 32 -> bytes_if buf -> P m -> (forall f v m, value_wf (zlen buf) v -> P m -> yields P (step f v m)) -> yields P (Reader.fields step buf m).
Proof. intros Hl Hb Hm Hs. unfold Reader.fields. eapply each_field_wf; try done; cbn; [lia|apply zlen_nonneg]. Qed.
End Reading.

Lemma yv_u32 f v : yields (in_u 32) (Value.to_u32 f v).
Proof. destruct v; try exact I. apply u32_in. Qed.
Lemma yv_i32 f v : yields in_i32 (Value.to_i32 f v).
Proof. destruct v; try exact I. apply as_i32_range. Qed.
Lemma yv_sfixed32 f v : yields in_i32 (Value.sfixed32 f v).
Proof. destruct v; try exact I. apply as_i32_range. Qed.
Lemma yv_sint32 f v : yields in_i32 (Value.sint32 f v).
Proof.
  destruct v as [n| | |]; try exact I. cbn [Value.sint32 Value.varint mbind outcome_bind yields]. pose proof (u32_in n) as Hn. set (k := u32 n) in *. clearbody k. unfold in_u in Hn.
  change (Z.land k 1) with (Z.land k (Z.ones 1)). rewrite Z.land_ones, Z.shiftr_div_pow2 by lia. change (2 ^ 1) with 2. change (2 ^ 32) with 4294967296 in Hn.
  pose proof (Z.mod_pos_bound k 2 ltac:(lia)). assert (0 <= k / 2 < 2147483648) by (split; [apply Z.div_pos; lia|apply Z.div_lt_upper_bound; lia]).
  assert (Ha : as_i32 (k / 2) = k / 2) by (unfold as_i32; change (2 ^ 32) with 4294967296; change (2 ^ 31) with 2147483648; rewrite Z.mod_small by lia; by rewrite decide_True by lia).
  rewrite Ha. unfold in_i32. change (2 ^ 31) with 2147483648. assert (Hb : k mod 2 = 0 \/ k mod 2 = 1) by lia. destruct Hb as [-> | ->].
  - change (as_i32 0) with 0. rewrite Z.lxor_0_r. lia.
  - change (- as_i32 1) with (-1). rewrite Z.lxor_m1_r. unfold Z.lnot. lia.
Qed.
Lemma yv_bool f v : yields (fun _ => True) (Value.to_bool f v).
Proof. by destruct v. Qed.
Lemma yv_fixed32 B f v : value_wf true B v -> yields (in_u 32) (Value.fixed32 f v).
Proof. destruct v; try done. intros H. by apply H. Qed.
Lemma yv_bytes B f v : value_wf true B v -> yields (fun b => bytes_ok b /\ zlen b <= B) (Value.bytes f v).
Proof. destruct v; try done. intros [H1 H2]. split; [by apply H1|done]. Qed.
Lemma yv_string f v : yields well_encoded (Value.string f v).
Proof. destruct v; try exact I. apply from_utf8_lossy_encoded. Qed.
Ltac step_cases f Hm :=
  destruct f as [|f|f]; [exact Hm| |exact Hm]; do 6 (try destruct f as [f|f|]; try exact Hm).
Ltac step_tac Hv :=
  eapply yields_bind;
  [first [apply yv_u32|apply yv_i32|apply yv_sfixed32|apply yv_sint32|apply yv_bool|apply (yv_fixed32 _ _ _ Hv)|apply (yv_bytes _ _ _ Hv)|apply yv_string]|];
  let x := fresh "x" in let Hx := fresh "Hx" in intros x Hx; cbv beta in Hx;
  destruct_and?; cbn [yields from_option d_portnum d_payload d_want_response d_dest d_source d_request_id d_reply_id d_emoji d_bitfield d_xeddsa_signature us_id us_long_name us_short_name us_macaddr us_hw_model us_is_licensed us_role us_public_key us_is_unmessagable po_latitude_i po_longitude_i po_altitude po_time po_location_source po_altitude_source po_timestamp po_timestamp_millis_adjust po_altitude_hae po_altitude_geoidal_separation po_pdop po_hdop po_vdop po_gps_accuracy po_ground_speed po_ground_track po_fix_quality po_fix_type po_sats_in_view po_sensor_id po_next_update po_seq_number po_precision_bits ro_route_request ro_route_reply ro_error_reason PbData.set_portnum PbData.set_payload PbData.set_want_response PbData.set_dest PbData.set_source PbData.set_request_id PbData.set_reply_id PbData.set_emoji PbData.set_bitfield PbData.set_xeddsa_signature PbUser.set_id PbUser.set_long_name PbUser.set_short_name PbUser.set_macaddr PbUser.set_hw_model PbUser.set_is_licensed PbUser.set_role PbUser.set_public_key PbUser.set_is_unmessagable PbPosition.set_latitude_i PbPosition.set_longitude_i PbPosition.set_altitude PbPosition.set_time PbPosition.set_location_source PbPosition.set_altitude_source PbPosition.set_timestamp PbPosition.set_timestamp_millis_adjust PbPosition.set_altitude_hae PbPosition.set_altitude_geoidal_separation PbPosition.set_pdop PbPosition.set_hdop PbPosition.set_vdop PbPosition.set_gps_accuracy PbPosition.set_ground_speed PbPosition.set_ground_track PbPosition.set_fix_quality PbPosition.set_fix_type PbPosition.set_sats_in_view PbPosition.set_sensor_id PbPosition.set_next_update PbPosition.set_seq_number PbPosition.set_precision_bits PbRouting.set_route_request PbRouting.set_route_reply PbRouting.set_error_reason]; split_and?; (assumption || done || tauto).

Lemma data_step_wf B f v m :
  value_wf true B v -> data_core m /\ zlen (d_payload m) <= B -> yields (fun m => data_core m /\ zlen (d_payload m) <= B) (PbData.step f v m).
Proof. intros Hv Hm. unfold PbData.step. step_cases f Hm; unfold data_core in *; step_tac Hv. Qed.
Lemma user_step_wf B f v m :
  value_wf true B v -> user_core m -> yields (fun m => user_core m) (PbUser.step f v m).
Proof. intros Hv Hm. unfold PbUser.step. step_cases f Hm; unfold user_core in *; step_tac Hv. Qed.
Lemma position_step_wf B f v m :
  value_wf true B v -> position_core m -> yields (fun m => position_core m) (PbPosition.step f v m).
Proof. intros Hv Hm. unfold PbPosition.step. step_cases f Hm; unfold position_core in *; step_tac Hv. Qed.
Lemma routing_step_wf B f v m :
  value_wf true B v -> routing_core m -> yields (fun m => routing_core m) (PbRouting.step f v m).
Proof. intros Hv Hm. unfold PbRouting.step. step_cases f Hm; unfold routing_core in *; step_tac Hv. Qed.

(** ** Coordinates *)

Import PbPosition.
Lemma starts_with_head b s c : starts_with [c] (b :: s) = bool_decide (b = c).
Proof. unfold starts_with. cbn [length take]. apply bool_decide_ext. split; [by intros [= ->]|by intros ->]. Qed.
Lemma split_once_first c l r : Forall (fun b => b <> c) l -> split_once [c] (l ++ c :: r) = Some (l, r).
Proof.
  induction 1 as [|b l Hb _ IH]; cbn [app split_once]; rewrite starts_with_head.
  - by rewrite bool_decide_true.
  - rewrite bool_decide_false by done. by rewrite IH.
Qed.
Lemma digits_forallb l : Forall is_digit l -> forallb is_ascii_digit l = true.
Proof. unfold is_digit, is_ascii_digit, between. induction 1 as [|b l Hb _ IH]; [done|]. cbn. rewrite IH, bool_decide_true by done. done. Qed.
Lemma parse_i64_digits l n : Forall is_digit l -> l <> [] -> parse_digits 10 0 l = Some n -> n < 2 ^ 63 -> parse_i64 l = Some n.
Proof.
  intros Hd Hne Hp Hn. unfold parse_i64, parse_signed, parse_unsigned. destruct Hd as [|b l Hb Hl]; [done|]. unfold is_digit in Hb.
  assert (Hx : b = 48 \/ b = 49 \/ b = 50 \/ b = 51 \/ b = 52 \/ b = 53 \/ b = 54 \/ b = 55 \/ b = 56 \/ b = 57) by lia.
  assert (Hm : (match b :: l with 45 :: r => match r with [] => None | _ => n ← parse_digits 10 0 r; if decide (n <= 2 ^ 63 - 1 + 1) then Some (- n) else None end
    | _ => match (match b :: l with 43 :: r => r | _ => b :: l end) with [] => None | _ => n ← parse_digits 10 0 (match b :: l with 43 :: r => r | _ => b :: l end); if decide (n <= 2 ^ 63 - 1) then Some n else None end end)
    = (n ← parse_digits 10 0 (b :: l); if decide (n <= 2 ^ 63 - 1) then Some n else None)) by (by repeat destruct Hx as [->|Hx]; [..|subst b]).
  rewrite Hm, Hp. cbn. by rewrite decide_True by lia.
Qed.
(** A coordinate is read back from its decimal form. *)
Lemma coord_roundtrip v : in_i32 v -> parse_coord (render_coord v) = Some v.
Proof.
  unfold in_i32. change (2 ^ 31) with 2147483648. intros Hv. unfold render_coord. set (a := Z.abs v). assert (Ha : 0 <= a <= 2147483648) by lia.
  assert (Hq : 0 <= a / 10000000 < 10 ^ 20) by (split; [apply Z.div_pos; lia|apply Z.div_lt_upper_bound; lia]).
  pose proof (Z.mod_pos_bound a 10000000 ltac:(lia)) as Hr. destruct (dec_digits _ Hq) as [Hd Hne]. pose proof (parse_dec _ Hq) as Hpq.
  destruct (pad_read 7 (a mod 10000000) ltac:(lia) Hr) as (Hlen & Hpd & Hpr).
  set (i := dec (a / 10000000)) in *. set (f := pad_zeros 7 (dec (a mod 10000000))) in *. change (str ".") with [46]. cbn [app].
  set (rest := i ++ 46 :: f). assert (Hvis : Forall visible rest).
  { apply Forall_app_2; [|constructor; [unfold visible; lia|]]; (eapply Forall_impl; [eassumption|]); unfold is_digit, visible; lia. }
  assert (Hrest : parse_magnitude rest = Some a).
  { unfold parse_magnitude. rewrite decide_False by (unfold rest; by destruct i). change (str ".") with [46]. unfold rest at 1.
    rewrite split_once_first by (eapply Forall_impl; [exact Hd|]; unfold is_digit; lia). cbn beta iota.
    rewrite decide_False by (intros [? _]; done). rewrite !digits_forallb by done. cbn [negb orb].
    rewrite bool_decide_false by (unfold zlen; lia). rewrite (decide_False (P := i = [])) by done.
    assert (Hqs : a / 10000000 < 1000) by (apply Z.div_lt_upper_bound; lia). rewrite (parse_i64_digits i (a / 10000000)) by (try done; change (2 ^ 63) with 9223372036854775808; lia). cbn [mbind option_bind].
    rewrite (decide_False (P := f = [])) by (intros ->; done). rewrite (parse_i64_digits f (a mod 10000000)) by first [done|by intros ->|change (2 ^ 63) with 9223372036854775808; lia].
    cbn [mbind option_bind]. unfold zlen. rewrite Hlen. change (10 ^ (7 - Z.of_nat 7)) with 1. pose proof (Z.div_mod a 10000000 ltac:(lia)) as Hdm.
    unfold checked_i64. change (2 ^ 63) with 9223372036854775808. rewrite decide_True by lia. cbn [mbind option_bind]. rewrite decide_True by lia.
    f_equal. lia. }
  unfold parse_coord. destruct (decide (v < 0)).
  - change (str "-" ++ rest) with (45 :: rest). rewrite trim_visible by (constructor; [unfold visible; lia|done]).
    unfold strip_prefix at 1. change (str "-") with [45]. rewrite starts_with_head, bool_decide_true by done. cbn [length drop]. rewrite drop_0, Hrest. cbn [mbind option_bind].
    change (2 ^ 31) with 2147483648. cbv zeta. rewrite decide_True by lia. f_equal. lia.
  - cbn [app]. rewrite trim_visible by done. assert (Hh : exists b r, rest = b :: r /\ is_digit b) by (unfold rest; destruct Hd as [|b r]; [done|]; by eexists _, _).
    destruct Hh as (b & r & Eb & Hb). unfold is_digit in Hb. unfold strip_prefix. rewrite Eb. change (str "-") with [45]. change (str "+") with [43]. rewrite !starts_with_head.
    rewrite !bool_decide_false by lia. cbn [default]. rewrite <- Eb. change (default rest None) with rest. rewrite Hrest. cbn [mbind option_bind]. change (2 ^ 31) with 2147483648. cbv zeta. rewrite decide_True by lia. f_equal. lia.
Qed.

(** ** The codec *)

(** No input makes a decoder panic, whatever its elements. *)
Lemma fields_safe {M} (step : Z -> Value -> M -> outcome ProtoError M) buf m :
  zlen buf < 2 ^ 32 -> (forall f v m, yields (fun _ => True) (step f v m)) -> yields (fun _ => True) (Reader.fields step buf m).
Proof. intros Hl Hs. by apply (fields_wf false step (fun _ => True)). Qed.
Ltac step_safe := intros f v m; destruct f as [|f|f]; [exact I| |exact I]; do 6 (try destruct f as [f|f|]; try exact I); by destruct v.
Lemma user_safe buf : zlen buf < 2 ^ 32 -> yields (fun _ => True) (PbUser.decode buf).
Proof. intros Hl. apply fields_safe; [done|]. step_safe. Qed.
Lemma position_safe buf : zlen buf < 2 ^ 32 -> yields (fun _ => True) (PbPosition.decode buf).
Proof. intros Hl. apply fields_safe; [done|]. step_safe. Qed.


Ltac default_tac := unfold data_core, user_core, position_core, routing_core; split_and?; first [apply Forall_nil_2|apply encoded_nil|done].
Lemma data_decode_ok buf : bytes_ok buf -> zlen buf < 2 ^ 32 -> yields (fun m => data_ok m /\ zlen (d_payload m) <= zlen buf) (PbData.decode buf).
Proof.
  intros Hb Hl. unfold PbData.decode. eapply yields_bind.
  - apply (fields_wf true _ (fun m => data_core m /\ zlen (d_payload m) <= zlen buf)); [done|by intros _| |intros; by apply data_step_wf].
    split; [default_tac|apply zlen_nonneg].
  - intros m [Hc Hp]. cbn [yields]. destruct (d_bitfield m) as [b|] eqn:Eb; [|split; [split; [done|congruence]|done]].
    case_decide as Hbit; [split; [split; [exact Hc|done]|done]|]. split; [split; [done|]|done]. intros b' Hb' Hn. rewrite Eb in Hb'. congruence.
Qed.
Lemma user_decode_ok buf : bytes_ok buf -> zlen buf < 2 ^ 32 -> yields user_ok (PbUser.decode buf).
Proof. intros Hb Hl. apply (fields_wf true _ user_core); [done|by intros _|default_tac|intros; by eapply user_step_wf]. Qed.
Lemma position_decode_ok buf : bytes_ok buf -> zlen buf < 2 ^ 32 -> yields position_ok (PbPosition.decode buf).
Proof. intros Hb Hl. apply (fields_wf true _ position_core); [done|by intros _|default_tac|intros; by eapply position_step_wf]. Qed.
Lemma routing_decode_ok buf : bytes_ok buf -> zlen buf < 2 ^ 32 -> yields routing_ok (PbRouting.decode buf).
Proof. intros Hb Hl. apply (fields_wf true _ routing_core); [done|by intros _|default_tac|intros; by eapply routing_step_wf]. Qed.

Lemma data_roundtrip m : data_ok m -> zlen (PbData.encode m) < 2 ^ 32 -> PbData.decode (PbData.encode m) = Ok m.
Proof.
  intros [Hc Hw] Hz. unfold PbData.decode. rewrite data_encode in *. rewrite fields_read by (try done; by apply number_ok_field, Hz; apply data_fields_ok).
  rewrite data_fold by done. cbn [mbind outcome_bind]. f_equal. destruct (d_bitfield m) as [b|] eqn:Eb; [|done]. case_decide as Hb; [|done].
  destruct m. cbn in *. unfold PbData.set_want_response. cbn. by rewrite (Hw b).
Qed.
Lemma user_roundtrip m : user_ok m -> zlen (PbUser.encode m) < 2 ^ 32 -> PbUser.decode (PbUser.encode m) = Ok m.
Proof. intros Hc Hz. unfold PbUser.decode. rewrite user_encode in *. rewrite fields_read by (try done; by apply number_ok_field, Hz; apply user_fields_ok). by apply user_fold. Qed.
Lemma position_roundtrip m : position_ok m -> zlen (PbPosition.encode m) < 2 ^ 32 -> PbPosition.decode (PbPosition.encode m) = Ok m.
Proof. intros Hc Hz. unfold PbPosition.decode. rewrite position_encode in *. rewrite fields_read by (try done; by apply number_ok_field, Hz; apply position_fields_ok). by apply position_fold. Qed.
Lemma routing_roundtrip m : routing_ok m -> zlen (PbRouting.encode m) < 2 ^ 32 -> PbRouting.decode (PbRouting.encode m) = Ok m.
Proof. intros Hc Hz. unfold PbRouting.decode. rewrite routing_encode in *. rewrite fields_read by (try done; by apply number_ok_field, Hz; apply routing_fields_ok). by apply routing_fold. Qed.

(** C21. The protocol-buffer codec: every byte string of less than 4 GiB is decoded
    to an error or to values of the right ranges, with valid text, never a
    panic; each of the four messages is decoded from its encoding, if that is
    shorter than 4 GiB, and a coordinate is read back from its decimal form. *)
Theorem proto_codec :
  (forall buf, bytes_ok buf -> zlen buf < 2 ^ 32 ->
     yields data_ok (PbData.decode buf) /\ yields user_ok (PbUser.decode buf) /\
     yields position_ok (PbPosition.decode buf) /\ yields routing_ok (PbRouting.decode buf)) /\
  (forall m, data_ok m -> zlen (PbData.encode m) < 2 ^ 32 -> PbData.decode (PbData.encode m) = Ok m) /\
  (forall m, user_ok m -> zlen (PbUser.encode m) < 2 ^ 32 -> PbUser.decode (PbUser.encode m) = Ok m) /\
  (forall m, position_ok m -> zlen (PbPosition.encode m) < 2 ^ 32 -> PbPosition.decode (PbPosition.encode m) = Ok m) /\
  (forall m, routing_ok m -> zlen (PbRouting.encode m) < 2 ^ 32 -> PbRouting.decode (PbRouting.encode m) = Ok m) /\
  (forall v, in_i32 v -> parse_coord (render_coord v) = Some v).
Proof.
  split; [|split_and!; eauto using data_roundtrip, user_roundtrip, position_roundtrip, routing_roundtrip, coord_roundtrip].
  intros buf Hb Hl. split_and!; [eapply yields_mono; [by apply data_decode_ok|by intros ? []]|by apply user_decode_ok|by apply position_decode_ok|by apply routing_decode_ok].
Qed.

Example stock_text : PbData.decode [0x08; 0x01; 0x12; 0x02; 0x48; 0x69; 0x48; 0x00] = Ok (mkPbData 1 (str "Hi") false 0 0 0 0 0 (Some 0) None).
Proof. vm_compute. reflexivity. Qed.
Example unknown_fields_skipped : PbRouting.decode [0x18; 0x05; 0xFA; 0x01; 0x01; 0x2A] = Ok (mkPbRouting None None (Some 5)).
Proof. vm_compute. reflexivity. Qed.
End ProtoFacts.
