(* ===== verification/ForeignCrypto.v ===== *)
(** * Ciphers of the foreign protocols

    What the adapters use of the [aes], [ctr] and [ccm] crates: AES in 32-bit
    counter mode, AES-256-CCM with an 8-byte tag, and single AES-128 blocks,
    with the documented facts they rely on.  No secrecy is assumed. *)
From stdpp Require Import base tactics list numbers.
From Stdlib Require Import Lia.
From S2P Require Import Prelude Protocol CryptoLib.
From stdpp Require Import list.
#[local] Open Scope Z_scope.

Class ForeignCrypto := {
  (** [Ctr32BE::<Aes128>] and [Ctr32BE::<Aes256>]: key, initial block, buffer. *)
  aes128_ctr : list Z -> list Z -> list Z -> list Z;
  aes256_ctr : list Z -> list Z -> list Z -> list Z;
  (** [Ccm<Aes256, U8, U13>] without associated data: key, nonce, plaintext. *)
  ccm_encrypt : list Z -> list Z -> list Z -> option (list Z * list Z);
  (** key, nonce, ciphertext, tag *)
  ccm_decrypt : list Z -> list Z -> list Z -> list Z -> option (list Z);
  (** [Aes128::encrypt_block] and [decrypt_block]: key, block. *)
  aes128_encrypt_block : list Z -> list Z -> list Z;
  aes128_decrypt_block : list Z -> list Z -> list Z
}.
Class ForeignCryptoLaws (F : ForeignCrypto) : Prop := {
  ctr128_len k n b : length (aes128_ctr k n b) = length b;
  ctr256_len k n b : length (aes256_ctr k n b) = length b;
  ctr128_bytes k n b : bytes_ok b -> bytes_ok (aes128_ctr k n b);
  ctr256_bytes k n b : bytes_ok b -> bytes_ok (aes256_ctr k n b);
  ctr128_inv k n b : aes128_ctr k n (aes128_ctr k n b) = b;
  ctr256_inv k n b : aes256_ctr k n (aes256_ctr k n b) = b;
  ccm_total k n pt : zlen pt < 2 ^ 16 -> is_Some (ccm_encrypt k n pt);
  ccm_encrypt_len k n pt ct tag : ccm_encrypt k n pt = Some (ct, tag) -> length ct = length pt /\ length tag = 8%nat;
  ccm_encrypt_bytes k n pt ct tag : bytes_ok pt -> ccm_encrypt k n pt = Some (ct, tag) -> bytes_ok ct /\ bytes_ok tag;
  ccm_decrypt_len k n ct tag pt : ccm_decrypt k n ct tag = Some pt -> length pt = length ct;
  ccm_decrypt_bytes k n ct tag pt : bytes_ok ct -> ccm_decrypt k n ct tag = Some pt -> bytes_ok pt;
  ccm_correct k n pt ct tag : ccm_encrypt k n pt = Some (ct, tag) -> ccm_decrypt k n ct tag = Some pt;
  block_enc_len k b : length b = 16%nat -> length (aes128_encrypt_block k b) = 16%nat;
  block_dec_len k b : length b = 16%nat -> length (aes128_decrypt_block k b) = 16%nat;
  block_enc_bytes k b : bytes_ok b -> bytes_ok (aes128_encrypt_block k b);
  block_dec_bytes k b : bytes_ok b -> bytes_ok (aes128_decrypt_block k b);
  block_correct k b : length b = 16%nat -> aes128_decrypt_block k (aes128_encrypt_block k b) = b
}.

(** A concrete instance: a one-byte key stream, a checksum for the tag, reversed
    blocks.  The laws can hold together. *)
Module ToyForeign.
Definition stream (k n b : list Z) : list Z := (fun x => Z.lxor x (ToyCrypto.digest (k ++ 256 :: n) mod 256)) <$> b.
#[global] Instance lib : ForeignCrypto := {
  aes128_ctr := stream;
  aes256_ctr := stream;
  ccm_encrypt k n pt := Some (pt, be_bytes 8 (ToyCrypto.mix k n [] pt));
  ccm_decrypt k n ct tag := if decide (tag = be_bytes 8 (ToyCrypto.mix k n [] ct)) then Some ct else None;
  aes128_encrypt_block k b := reverse b;
  aes128_decrypt_block k b := reverse b
}.
Lemma lxor_byte a b : byte_ok a -> byte_ok b -> byte_ok (Z.lxor a b).
Proof.
  unfold byte_ok, in_u. change (2 ^ 8) with 256. intros Ha Hb. assert (H0 : 0 <= Z.lxor a b) by (apply Z.lxor_nonneg; lia).
  split; [done|]. destruct (Z.eq_dec (Z.lxor a b) 0) as [->|]; [lia|]. change 256 with (2 ^ 8). apply Z.log2_lt_pow2; [lia|].
  eapply Z.le_lt_trans; [apply Z.log2_lxor; lia|]. apply Z.max_lub_lt.
  - destruct (Z.eq_dec a 0) as [->|]; [done|]. apply Z.log2_lt_pow2; [lia|]. change (2 ^ 8) with 256. lia.
  - destruct (Z.eq_dec b 0) as [->|]; [done|]. apply Z.log2_lt_pow2; [lia|]. change (2 ^ 8) with 256. lia.
Qed.
Lemma stream_bytes k n b : bytes_ok b -> bytes_ok (stream k n b).
Proof.
  unfold stream. intros Hb. apply Forall_fmap. eapply Forall_impl; [exact Hb|]. intros x Hx. apply lxor_byte; [done|].
  apply (Z.mod_pos_bound _ 256). lia.
Qed.
Lemma stream_inv k n b : stream k n (stream k n b) = b.
Proof. unfold stream. rewrite <- list_fmap_compose. rewrite <- (list_fmap_id b) at 2. apply list_fmap_ext. intros _ x _. cbn. rewrite Z.lxor_assoc, Z.lxor_nilpotent. apply Z.lxor_0_r. Qed.
#[global] Instance laws : ForeignCryptoLaws lib.
Proof.
  split; cbn; intros.
  - by unfold stream; rewrite length_fmap.
  - by unfold stream; rewrite length_fmap.
  - by apply stream_bytes.
  - by apply stream_bytes.
  - apply stream_inv.
  - apply stream_inv.
  - eauto.
  - simplify_eq. by rewrite ?length_be_bytes.
  - simplify_eq. split; [done|apply be_bytes_ok].
  - case_decide; by simplify_eq.
  - case_decide; by simplify_eq.
  - simplify_eq. by rewrite decide_True.
  - by rewrite length_reverse.
  - by rewrite length_reverse.
  - by apply Forall_reverse.
  - by apply Forall_reverse.
  - apply reverse_involutive.
Qed.
End ToyForeign.
