(* ===== verification/MtWire.v ===== *)
(** * Meshtastic frames

    [meshtastic/header.rs], [ports.rs], [crypto.rs] and [profiles.rs] of
    [crates/meshstar-protocols/src]: the 16-byte header, the port numbers, the
    channel keys and ciphers, the modem presets and frequency slots. *)
From stdpp Require Import base tactics list numbers.
From Stdlib Require Import Lia Ascii String.
From S2P Require Import Prelude SmallMap Float32 Protocol CryptoLib ForeignCrypto Radio Text Strings Unified Proto.
From stdpp Require Import list.
Import Text Strings.
#[local] Open Scope Z_scope.

(** ** The header *)

Module mt_header.
Definition HEADER_LEN : Z := 16.
Definition MAX_FRAME_LEN : Z := 255.
Definition MAX_PAYLOAD_LEN : Z := MAX_FRAME_LEN - HEADER_LEN.
Definition PKC_OVERHEAD : Z := 12.
Definition BROADCAST : Z := 0xFFFFFFFF.
Definition BROADCAST_NO_LORA : Z := 1.
Definition HOP_MAX : Z := 7.
Definition HOP_RELIABLE : Z := 3.
Definition FLAG_HOP_LIMIT_MASK : Z := 0x07.
Definition FLAG_WANT_ACK : Z := 0x08.
Definition FLAG_VIA_MQTT : Z := 0x10.
Definition FLAG_HOP_START_MASK : Z := 0xE0.
Definition FLAG_HOP_START_SHIFT : Z := 5.
End mt_header.

Record PacketHeader := mkPacketHeader {
  ph_to : Z; ph_from : Z; ph_id : Z; ph_hop_limit : Z; ph_want_ack : bool; ph_via_mqtt : bool; ph_hop_start : Z;
  ph_channel : Z; ph_next_hop : Z; ph_relay_node : Z
}.
Inductive HeaderError := HeTruncated | HeTooLong | BadSender | BadDestination | HopInconsistent | HeBadField (what : list Z).
(** The [Debug] form; the only field name used is a plain word. *)
Definition header_error_debug (e : HeaderError) : list Z :=
  match e with
  | HeTruncated => str "Truncated" | HeTooLong => str "TooLong" | BadSender => str "BadSender"
  | BadDestination => str "BadDestination" | HopInconsistent => str "HopInconsistent"
  | HeBadField w => str "BadField(" ++ [34] ++ w ++ [34] ++ str ")"
  end.

(** [header::is_broadcast] *)
Definition is_broadcast_num (to : Z) : bool := bool_decide (to = mt_header.BROADCAST) || bool_decide (to = mt_header.BROADCAST_NO_LORA).
Definition last_byte_of_node_num (num : Z) : Z := let b := u8 (Z.land num 0xFF) in if decide (b = 0) then 0xFF else b.
Definition read_u32_le (b : list Z) (off : nat) : option Z :=
  if decide (off + 4 <= length b)%nat then Some (from_le (take 4 (drop off b))) else None.

Module PacketHeader.
Import mt_header.
Definition parse_raw (frame : list Z) : outcome HeaderError PacketHeader :=
  if decide (zlen frame < HEADER_LEN) then Err HeTruncated else
  match read_u32_le frame 0, read_u32_le frame 4, read_u32_le frame 8 with
  | Some to, Some from, Some id =>
      flags ← idx frame 12;
      let hop_start := Z.shiftr (Z.land flags FLAG_HOP_START_MASK) FLAG_HOP_START_SHIFT in
      '(next_hop, relay_node) ← (if decide (hop_start = 0) then Ok (0, 0) else n ← idx frame 14; r ← idx frame 15; Ok (n, r));
      channel ← idx frame 13;
      Ok (mkPacketHeader to from id (Z.land flags FLAG_HOP_LIMIT_MASK) (bool_decide (Z.land flags FLAG_WANT_ACK <> 0))
            (bool_decide (Z.land flags FLAG_VIA_MQTT <> 0)) hop_start channel next_hop relay_node)
  | _, _, _ => Err HeTruncated
  end.
Definition validate (h : PacketHeader) : outcome HeaderError unit :=
  if decide (ph_from h = 0 \/ ph_from h = BROADCAST) then Err BadSender
  else if decide (ph_to h = 0) then Err BadDestination
  else if decide (ph_hop_limit h > HOP_MAX \/ ph_hop_start h > HOP_MAX) then Err (HeBadField (str "hop"))
  else if decide (ph_hop_start h <> 0 /\ ph_hop_start h < ph_hop_limit h) then Err HopInconsistent
  else Ok ().
Definition parse (frame : list Z) : outcome HeaderError (PacketHeader * list Z) :=
  if decide (zlen frame > MAX_FRAME_LEN) then Err HeTooLong else
  h ← parse_raw frame;
  _ ← validate h;
  payload ← slice_from frame HEADER_LEN;
  Ok (h, payload).
Definition encode (h : PacketHeader) : list Z :=
  let hop_limit := if decide (ph_hop_limit h > HOP_MAX) then HOP_RELIABLE else ph_hop_limit h in
  let flags := Z.lor (Z.lor (Z.lor hop_limit (if ph_want_ack h then FLAG_WANT_ACK else 0)) (if ph_via_mqtt h then FLAG_VIA_MQTT else 0))
                 (Z.land (u8 (Z.shiftl (ph_hop_start h) FLAG_HOP_START_SHIFT)) FLAG_HOP_START_MASK) in
  le_bytes 4 (ph_to h) ++ le_bytes 4 (ph_from h) ++ le_bytes 4 (ph_id h) ++ [flags; ph_channel h; ph_next_hop h; ph_relay_node h].
Definition is_broadcast (h : PacketHeader) : bool := is_broadcast_num (ph_to h).
Definition hops_away (h : PacketHeader) : option Z := if decide (ph_hop_start h = 0) then None else Some (sat_sub (ph_hop_start h) (ph_hop_limit h)).
Definition set_channel (c : Z) (h : PacketHeader) : PacketHeader :=
  mkPacketHeader (ph_to h) (ph_from h) (ph_id h) (ph_hop_limit h) (ph_want_ack h) (ph_via_mqtt h) (ph_hop_start h) c (ph_next_hop h) (ph_relay_node h).
End PacketHeader.

(** ** Port numbers *)

Module ports.
Definition UNKNOWN_APP : Z := 0.
Definition TEXT_MESSAGE_APP : Z := 1.
Definition REMOTE_HARDWARE_APP : Z := 2.
Definition POSITION_APP : Z := 3.
Definition NODEINFO_APP : Z := 4.
Definition ROUTING_APP : Z := 5.
Definition ADMIN_APP : Z := 6.
Definition TEXT_MESSAGE_COMPRESSED_APP : Z := 7.
Definition WAYPOINT_APP : Z := 8.
Definition AUDIO_APP : Z := 9.
Definition DETECTION_SENSOR_APP : Z := 10.
Definition ALERT_APP : Z := 11.
Definition KEY_VERIFICATION_APP : Z := 12.
Definition REMOTE_SHELL_APP : Z := 13.
Definition REPLY_APP : Z := 32.
Definition IP_TUNNEL_APP : Z := 33.
Definition PAXCOUNTER_APP : Z := 34.
Definition STORE_FORWARD_PLUSPLUS_APP : Z := 35.
Definition NODE_STATUS_APP : Z := 36.
Definition MESH_BEACON_APP : Z := 37.
Definition PAGING_APP : Z := 38.
Definition SERIAL_APP : Z := 64.
Definition STORE_FORWARD_APP : Z := 65.
Definition RANGE_TEST_APP : Z := 66.
Definition TELEMETRY_APP : Z := 67.
Definition ZPS_APP : Z := 68.
Definition SIMULATOR_APP : Z := 69.
Definition TRACEROUTE_APP : Z := 70.
Definition NEIGHBORINFO_APP : Z := 71.
Definition ATAK_PLUGIN : Z := 72.
Definition MAP_REPORT_APP : Z := 73.
Definition POWERSTRESS_APP : Z := 74.
Definition LORAWAN_BRIDGE : Z := 75.
Definition RETICULUM_TUNNEL_APP : Z := 76.
Definition CAYENNE_APP : Z := 77.
Definition ATAK_PLUGIN_V2 : Z := 78.
Definition LORA_OTA_APP : Z := 79.
Definition GROUPALARM_APP : Z := 112.
Definition PRIVATE_APP : Z := 256.
Definition ATAK_FORWARDER : Z := 257.
Definition MAX : Z := 511.
Definition name (port : Z) : option (list Z) :=
  match port with
  | 0 => Some (str "UNKNOWN_APP")
  | 1 => Some (str "TEXT_MESSAGE_APP")
  | 2 => Some (str "REMOTE_HARDWARE_APP")
  | 3 => Some (str "POSITION_APP")
  | 4 => Some (str "NODEINFO_APP")
  | 5 => Some (str "ROUTING_APP")
  | 6 => Some (str "ADMIN_APP")
  | 7 => Some (str "TEXT_MESSAGE_COMPRESSED_APP")
  | 8 => Some (str "WAYPOINT_APP")
  | 9 => Some (str "AUDIO_APP")
  | 10 => Some (str "DETECTION_SENSOR_APP")
  | 11 => Some (str "ALERT_APP")
  | 12 => Some (str "KEY_VERIFICATION_APP")
  | 13 => Some (str "REMOTE_SHELL_APP")
  | 32 => Some (str "REPLY_APP")
  | 33 => Some (str "IP_TUNNEL_APP")
  | 34 => Some (str "PAXCOUNTER_APP")
  | 35 => Some (str "STORE_FORWARD_PLUSPLUS_APP")
  | 36 => Some (str "NODE_STATUS_APP")
  | 37 => Some (str "MESH_BEACON_APP")
  | 38 => Some (str "PAGING_APP")
  | 64 => Some (str "SERIAL_APP")
  | 65 => Some (str "STORE_FORWARD_APP")
  | 66 => Some (str "RANGE_TEST_APP")
  | 67 => Some (str "TELEMETRY_APP")
  | 68 => Some (str "ZPS_APP")
  | 69 => Some (str "SIMULATOR_APP")
  | 70 => Some (str "TRACEROUTE_APP")
  | 71 => Some (str "NEIGHBORINFO_APP")
  | 72 => Some (str "ATAK_PLUGIN")
  | 73 => Some (str "MAP_REPORT_APP")
  | 74 => Some (str "POWERSTRESS_APP")
  | 75 => Some (str "LORAWAN_BRIDGE")
  | 76 => Some (str "RETICULUM_TUNNEL_APP")
  | 77 => Some (str "CAYENNE_APP")
  | 78 => Some (str "ATAK_PLUGIN_V2")
  | 79 => Some (str "LORA_OTA_APP")
  | 112 => Some (str "GROUPALARM_APP")
  | 256 => Some (str "PRIVATE_APP")
  | 257 => Some (str "ATAK_FORWARDER")
  | _ => None
  end.
Definition is_text (port : Z) : bool :=
  bool_decide (port = TEXT_MESSAGE_APP) || bool_decide (port = DETECTION_SENSOR_APP) || bool_decide (port = ALERT_APP).
Definition is_valid (port : Z) : bool := bool_decide (port <= MAX).
End ports.

(** ** Keys and ciphers *)

Definition DEFAULT_PSK : list Z := [0xd4; 0xf1; 0xbb; 0x3a; 0x20; 0x29; 0x07; 0x59; 0xf0; 0xbc; 0xff; 0xab; 0xcf; 0x4e; 0x69; 0x01].
Definition DEFAULT_CHANNEL_NAME : list Z := str "LongFast".
Definition DEFAULT_CHANNEL_HASH : Z := 0x08.
Definition PKI_TRAILER_LEN : Z := 12.
Definition MAX_BLOCKSIZE : Z := 256.
Inductive CryptoError := BadKeyLength (n : Z) | BadLength | CrAuthFailed | WeakKey.
Definition crypto_error_debug (e : CryptoError) : list Z :=
  match e with
  | BadKeyLength n => str "BadKeyLength(" ++ dec n ++ str ")"
  | BadLength => str "BadLength" | CrAuthFailed => str "AuthFailed" | WeakKey => str "WeakKey"
  end.
Definition default_channel_key : ChannelKey := mkChannelKey DEFAULT_CHANNEL_NAME DEFAULT_PSK.
(** [v.resize(n, 0)] *)
Definition resize (n : nat) (l : list Z) : list Z := take n l ++ replicate (n - length l) 0.
Definition expand_psk (psk : list Z) : list Z :=
  match psk with
  | [] => []
  | [n] => if decide (1 <= n <= 10) then <[15%nat := u8 (at_or_zero DEFAULT_PSK 15 + (n - 1))]> DEFAULT_PSK else []
  | _ => if decide (length psk <= 16)%nat then resize 16 psk
         else if decide (length psk <= 32)%nat then resize 32 psk
         else take 32 psk
  end.
Definition xor_hash (bytes : list Z) : Z := foldl Z.lxor 0 bytes.
Definition mt_channel_hash (name key : list Z) : Z := Z.lxor (xor_hash name) (xor_hash (expand_psk key)).
Definition mt_nonce (from id extra : Z) : list Z := le_bytes 4 id ++ le_bytes 4 extra ++ le_bytes 4 from ++ [0; 0; 0; 0].

Section Ciphers.
Context {C : CryptoLib} {F : ForeignCrypto}.
Definition aes_ctr (key nonce buf : list Z) : outcome CryptoError (list Z) :=
  if decide (zlen buf > MAX_BLOCKSIZE) then Err BadLength else
  if decide (zlen key = 0) then Ok buf
  else if decide (zlen key = 16) then Ok (aes128_ctr key nonce buf)
  else if decide (zlen key = 32) then Ok (aes256_ctr key nonce buf)
  else Err (BadKeyLength (zlen key)).
Definition psk_crypt (key : list Z) (from id : Z) (data : list Z) : outcome CryptoError (list Z) := aes_ctr key (mt_nonce from id 0) data.
Definition pki_session_key (our_private their_public : list Z) : outcome CryptoError (list Z) :=
  let shared := x25519 our_private their_public in
  if negb (was_contributory shared) then Err WeakKey else Ok (sha256 shared).
Definition pki_encrypt (session_key : list Z) (from id extra : Z) (plaintext : list Z) : outcome CryptoError (list Z) :=
  if decide (zlen plaintext + PKI_TRAILER_LEN > MAX_BLOCKSIZE) then Err BadLength else
  '(buf, tag) ← ok_or (ccm_encrypt session_key (take 13 (mt_nonce from id extra)) plaintext) BadLength;
  Ok (buf ++ tag ++ le_bytes 4 extra).
Definition pki_decrypt (session_key : list Z) (from id : Z) (data : list Z) : outcome CryptoError (list Z) :=
  if decide (zlen data <= PKI_TRAILER_LEN \/ zlen data > MAX_BLOCKSIZE) then Err BadLength else
  let n_ct := zlen data - PKI_TRAILER_LEN in
  auth ← slice_from data n_ct;
  extra ← slice auth 8 12;
  buf ← slice data 0 n_ct;
  tag ← slice auth 0 8;
  ok_or (ccm_decrypt session_key (take 13 (mt_nonce from id (from_le extra))) buf tag) CrAuthFailed.
End Ciphers.

(** ** Presets and frequency slots *)

Definition SYNC_WORD : Z := 0x2B.
Definition PREAMBLE_SYMBOLS : Z := 16.
Record Preset := mkPreset {
  pr_value : Z; pr_name : list Z; pr_bandwidth_hz : Z; pr_spreading_factor : Z; pr_coding_rate : Z; pr_slot_tabulated : bool
}.
Definition PRESETS : list Preset := [
  mkPreset 0 (str "LongFast") 250000 11 5 true;
  mkPreset 1 (str "LongSlow") 125000 12 8 true;
  mkPreset 3 (str "MediumSlow") 250000 10 5 false;
  mkPreset 4 (str "MediumFast") 250000 9 5 true;
  mkPreset 5 (str "ShortSlow") 250000 8 5 false;
  mkPreset 6 (str "ShortFast") 250000 7 5 true;
  mkPreset 7 (str "LongMod") 125000 11 8 true;
  mkPreset 8 (str "ShortTurbo") 500000 7 5 true;
  mkPreset 9 (str "LongTurbo") 500000 11 8 false
].
Record RegionParams := mkRegionParams { rp_region : Region; rp_start_hz : Z; rp_end_hz : Z; rp_power_limit_dbm : Z; rp_duty_cycle_percent : Z }.
Definition REGIONS : list RegionParams := [
  mkRegionParams Eu868 869400000 869650000 27 10;
  mkRegionParams Us915 902000000 928000000 30 100;
  mkRegionParams Eu433 433000000 434000000 10 10;
  mkRegionParams Anz 915000000 928000000 30 100
].
#[global] Instance Region_eq_dec : EqDecision Region.
Proof. solve_decision. Defined.
Definition djb2 (s : list Z) : Z := foldl (fun h c => u32 (u32 (h * 33) + c)) 5381 s.
Definition region_params (region : Region) : option RegionParams := find_first (fun r => bool_decide (rp_region r = region)) REGIONS.
Definition preset_params (name : list Z) : option Preset := find_first (fun p => eq_ignore_ascii_case (pr_name p) name) PRESETS.
(** [checked_add], [checked_mul] and [checked_sub] of a [u32]. *)
Definition checked_u32 (n : Z) : option Z := if decide (0 <= n <= U32_MAX) then Some n else None.
Definition frequency_slot (channel_name : list Z) (region : RegionParams) (bandwidth_hz : Z) : option (Z * Z) :=
  if decide (bandwidth_hz = 0) then None else
  span ← checked_u32 (rp_end_hz region - rp_start_hz region);
  let num_channels := span / bandwidth_hz in
  if decide (num_channels = 0) then None else
  let slot := djb2 channel_name mod num_channels in
  base ← checked_u32 (rp_start_hz region + bandwidth_hz / 2);
  off ← checked_u32 (slot * bandwidth_hz);
  freq ← checked_u32 (base + off);
  Some (slot, freq).
Definition build_profile (preset : Preset) (region : RegionParams) : option LoRaProfile :=
  '(_, frequency_hz) ← frequency_slot (pr_name preset) region (pr_bandwidth_hz preset);
  Some (mkLoRaProfile frequency_hz (pr_bandwidth_hz preset) (pr_spreading_factor preset) (pr_coding_rate preset) SYNC_WORD PREAMBLE_SYMBOLS true false
          (rp_power_limit_dbm region)).
Definition preset (name : list Z) (region : Region) : option LoRaProfile :=
  p ← preset_params name; r ← region_params region; build_profile p r.
Definition mt_profiles : list NamedProfile :=
  r ← REGIONS; p ← PRESETS;
  match build_profile p r with
  | Some profile => [mkNamedProfile Meshtastic (pr_name p) (Region.name (rp_region r)) profile (pr_slot_tabulated p)]
  | None => []
  end.
Definition matching_preset (profile : LoRaProfile) : option Preset :=
  find_first (fun p => bool_decide (pr_bandwidth_hz p = bandwidth_hz profile) && bool_decide (pr_spreading_factor p = spreading_factor profile)
    && bool_decide (pr_coding_rate p = coding_rate profile)) PRESETS.

(** * Facts *)

Module MtWireFacts.
Import mt_header ProtoFacts ToyForeign.

(** A statement on bytes is checked on each of them. *)
Lemma byte_check (P : Z -> bool) : forallb P (Z.of_nat <$> seq 0 256) = true -> forall b, byte_ok b -> P b = true.
Proof.
  intros H b Hb. rewrite forallb_forall in H. apply H, list_elem_of_In, list_elem_of_fmap. unfold byte_ok, in_u in Hb. change (2 ^ 8) with 256 in Hb.
  exists (Z.to_nat b). split; [lia|]. apply elem_of_seq. lia.
Qed.

(** ** Header *)

Definition header_sent (h : PacketHeader) : Prop :=
  in_u 32 (ph_to h) /\ in_u 32 (ph_from h) /\ in_u 32 (ph_id h) /\ 0 <= ph_hop_limit h <= 7 /\ 0 <= ph_hop_start h <= 7 /\
  byte_ok (ph_channel h) /\ byte_ok (ph_next_hop h) /\ byte_ok (ph_relay_node h) /\
  ph_from h <> 0 /\ ph_from h <> BROADCAST /\ ph_to h <> 0 /\ (ph_hop_start h <> 0 -> ph_hop_limit h <= ph_hop_start h).
Definition header_ok (h : PacketHeader) : Prop := header_sent h /\ (ph_hop_start h = 0 -> ph_next_hop h = 0 /\ ph_relay_node h = 0).

Definition flags_byte (hl hs : Z) (ack mqtt : bool) : Z :=
  Z.lor (Z.lor (Z.lor hl (if ack then FLAG_WANT_ACK else 0)) (if mqtt then FLAG_VIA_MQTT else 0)) (Z.land (u8 (Z.shiftl hs FLAG_HOP_START_SHIFT)) FLAG_HOP_START_MASK).
Lemma flags_read hl hs ack mqtt : 0 <= hl <= 7 -> 0 <= hs <= 7 ->
  let f := flags_byte hl hs ack mqtt in
  byte_ok f /\ Z.shiftr (Z.land f FLAG_HOP_START_MASK) FLAG_HOP_START_SHIFT = hs /\ Z.land f FLAG_HOP_LIMIT_MASK = hl /\
  bool_decide (Z.land f FLAG_WANT_ACK <> 0) = ack /\ bool_decide (Z.land f FLAG_VIA_MQTT <> 0) = mqtt.
Proof.
  intros H1 H2. assert (E1 : hl = 0 \/ hl = 1 \/ hl = 2 \/ hl = 3 \/ hl = 4 \/ hl = 5 \/ hl = 6 \/ hl = 7) by lia.
  assert (E2 : hs = 0 \/ hs = 1 \/ hs = 2 \/ hs = 3 \/ hs = 4 \/ hs = 5 \/ hs = 6 \/ hs = 7) by lia. clear H1 H2.
  destruct ack, mqtt; repeat destruct E1 as [-> | E1]; try subst hl; repeat destruct E2 as [-> | E2]; try subst hs; vm_compute; repeat split; discriminate.
Qed.
Notation flags_whole f := (flags_byte (Z.land f FLAG_HOP_LIMIT_MASK) (Z.shiftr (Z.land f FLAG_HOP_START_MASK) FLAG_HOP_START_SHIFT) (bool_decide (Z.land f FLAG_WANT_ACK <> 0)) (bool_decide (Z.land f FLAG_VIA_MQTT <> 0)) = f
  /\ 0 <= Z.land f FLAG_HOP_LIMIT_MASK <= 7 /\ 0 <= Z.shiftr (Z.land f FLAG_HOP_START_MASK) FLAG_HOP_START_SHIFT <= 7).
Lemma flags_checked : forallb (fun f => bool_decide (flags_whole f)) (Z.of_nat <$> seq 0 256) = true.
Proof. vm_compute. reflexivity. Qed.
Lemma flags_written f : byte_ok f -> flags_whole f.
Proof. intros Hf. pose proof (byte_check _ flags_checked f Hf) as H. by apply bool_decide_eq_true in H. Qed.

Lemma read_u32_le_at p x r off : off = length p -> in_u 32 x -> read_u32_le (p ++ le_bytes 4 x ++ r) off = Some x.
Proof.
  intros -> Hx. unfold read_u32_le. rewrite decide_True by (rewrite !length_app, length_le_bytes; lia). rewrite drop_app_length.
  rewrite take_app_length' by (by rewrite length_le_bytes). by rewrite from_le_32.
Qed.
Lemma read_u32_le_in b off : bytes_ok b -> (off + 4 <= length b)%nat -> exists x, read_u32_le b off = Some x /\ in_u 32 x /\ le_bytes 4 x = take 4 (drop off b).
Proof.
  intros Hb Hl. unfold read_u32_le. rewrite decide_True by done. eexists. split; [reflexivity|]. set (m := take 4 (drop off b)).
  assert (Hm : bytes_ok m) by (by apply Forall_take, Forall_drop). assert (Hlm : length m = 4%nat) by (unfold m; rewrite length_take, length_drop; lia).
  split. { pose proof (from_le_range m Hm) as H. unfold zlen in H. rewrite Hlm in H. exact H. }
  unfold le_bytes, from_le. rewrite be_bytes_from_be by (try apply Forall_reverse; try rewrite length_reverse; done). apply reverse_involutive.
Qed.
Lemma header_zlen h : zlen (PacketHeader.encode h) = HEADER_LEN.
Proof. unfold PacketHeader.encode. rewrite !zlen_app. unfold zlen. rewrite !length_le_bytes. reflexivity. Qed.

(** A header without a hop count is read without its relays. *)
Definition heard (h : PacketHeader) : PacketHeader :=
  if decide (ph_hop_start h = 0) then mkPacketHeader (ph_to h) (ph_from h) (ph_id h) (ph_hop_limit h) (ph_want_ack h) (ph_via_mqtt h) (ph_hop_start h) (ph_channel h) 0 0 else h.
(** A header and what follows it are read back from the frame. *)
Lemma header_read h payload :
  header_sent h -> zlen payload <= MAX_PAYLOAD_LEN -> PacketHeader.parse (PacketHeader.encode h ++ payload) = Ok (heard h, payload).
Proof.
  intros Hok Hl. pose proof Hok as (Ht & Hf & Hi & Hhl & Hhs & Hc & Hn & Hr & Hf0 & Hfb & Ht0 & Hle). unfold PacketHeader.parse.
  rewrite decide_False by (rewrite zlen_app, header_zlen; unfold MAX_PAYLOAD_LEN, MAX_FRAME_LEN, HEADER_LEN in *; lia).
  assert (Hraw : PacketHeader.parse_raw (PacketHeader.encode h ++ payload) = Ok (heard h)).
  { unfold PacketHeader.parse_raw. rewrite decide_False by (rewrite zlen_app, header_zlen; pose proof (zlen_nonneg payload); unfold HEADER_LEN; lia).
    destruct (flags_read (ph_hop_limit h) (ph_hop_start h) (ph_want_ack h) (ph_via_mqtt h) Hhl Hhs) as (_ & F1 & F2 & F3 & F4).
    unfold PacketHeader.encode. rewrite decide_False by (unfold HOP_MAX; lia). cbv zeta. fold (flags_byte (ph_hop_limit h) (ph_hop_start h) (ph_want_ack h) (ph_via_mqtt h)).
    set (f := flags_byte _ _ _ _) in *. rewrite <- !app_assoc.
    assert (R0 : forall r, read_u32_le (le_bytes 4 (ph_to h) ++ r) 0 = Some (ph_to h)) by (intros r; by apply (read_u32_le_at [] (ph_to h))). rewrite R0.
    rewrite (read_u32_le_at (le_bytes 4 (ph_to h)) (ph_from h)) by (rewrite ?length_le_bytes; done).
    rewrite (app_assoc (le_bytes 4 (ph_to h))), (read_u32_le_at (le_bytes 4 (ph_to h) ++ le_bytes 4 (ph_from h)) (ph_id h)) by (rewrite ?length_app, ?length_le_bytes; done).
    rewrite (app_assoc _ (le_bytes 4 (ph_id h))). set (p := (le_bytes 4 (ph_to h) ++ le_bytes 4 (ph_from h)) ++ le_bytes 4 (ph_id h)).
    assert (Hp : length p = 12%nat) by (unfold p; by rewrite !length_app, !length_le_bytes).
    assert (Hidx : forall i x, [f; ph_channel h; ph_next_hop h; ph_relay_node h] !! i = Some x -> idx (E := HeaderError) (p ++ [f; ph_channel h; ph_next_hop h; ph_relay_node h] ++ payload) (12 + Z.of_nat i) = Ok x).
    { intros i x Hx. pose proof (lookup_lt_Some _ _ _ Hx) as Hlt. cbn [length] in Hlt. unfold idx. rewrite decide_True by (unfold zlen; rewrite ?length_app, ?Hp; cbn [length]; lia).
      rewrite lookup_app_r by lia. replace (Z.to_nat (12 + Z.of_nat i) - length p)%nat with i by lia. by rewrite lookup_app_l by (cbn [length]; lia); rewrite Hx. }
    rewrite (Hidx 0%nat f eq_refl : idx _ 12 = _). cbn [mbind outcome_bind]. rewrite F1, F2, F3, F4.
    destruct (decide (ph_hop_start h = 0)) as [Hz0|Hz0].
    - cbn [mbind outcome_bind]. rewrite (Hidx 1%nat _ eq_refl : idx _ 13 = _). cbn [mbind outcome_bind]. unfold heard. by rewrite decide_True by done.
    - rewrite (Hidx 2%nat _ eq_refl : idx _ 14 = _). cbn [mbind outcome_bind]. rewrite (Hidx 3%nat _ eq_refl : idx _ 15 = _). cbn [mbind outcome_bind].
      rewrite (Hidx 1%nat _ eq_refl : idx _ 13 = _). cbn [mbind outcome_bind]. unfold heard. rewrite decide_False by done. clearbody p f. clear. by destruct h. }
  assert (Hh : ph_from (heard h) = ph_from h /\ ph_to (heard h) = ph_to h /\ ph_hop_limit (heard h) = ph_hop_limit h /\ ph_hop_start (heard h) = ph_hop_start h) by (unfold heard; by case_decide).
  rewrite Hraw. cbn [mbind outcome_bind]. unfold PacketHeader.validate. destruct Hh as (-> & -> & -> & ->). rewrite decide_False by lia. rewrite decide_False by done.
  rewrite decide_False by (unfold HOP_MAX; lia). rewrite decide_False by lia. cbn [mbind outcome_bind].
  unfold slice_from. pose proof (header_zlen h) as Hze. pose proof (zlen_nonneg payload). unfold HEADER_LEN in *. rewrite slice_in by (rewrite ?zlen_app; lia). cbn [mbind outcome_bind]. repeat f_equal.
  rewrite zlen_app, Hze. replace (16 + zlen payload - 16) with (zlen payload) by lia. unfold zlen in *. rewrite Nat2Z.id. replace (Z.to_nat 16) with (length (PacketHeader.encode h)) by lia.
  rewrite drop_app_length. apply take_ge. done.
Qed.

(** A header that is whole is read back as it was. *)
Lemma header_roundtrip h payload :
  header_ok h -> zlen payload <= MAX_PAYLOAD_LEN -> PacketHeader.parse (PacketHeader.encode h ++ payload) = Ok (h, payload).
Proof.
  intros [Hs Hz] Hl. rewrite header_read by done. unfold heard. case_decide as H0; [|done]. destruct (Hz H0) as [E1 E2]. destruct h; cbn in *. by subst.
Qed.

(** Any frame is refused or gives a valid header and the rest of the frame; when
    the header carries its hop count, the frame is the encoding of both. *)
Lemma header_parse_sound frame :
  bytes_ok frame ->
  yields (fun x => header_ok x.1 /\ bytes_ok x.2 /\ zlen x.2 = zlen frame - HEADER_LEN /\ 0 <= zlen x.2 <= MAX_PAYLOAD_LEN /\
    (ph_hop_start x.1 <> 0 -> frame = PacketHeader.encode x.1 ++ x.2)) (PacketHeader.parse frame).
Proof.
  intros Hb. unfold PacketHeader.parse, PacketHeader.parse_raw, HEADER_LEN, MAX_PAYLOAD_LEN, MAX_FRAME_LEN, HEADER_LEN. case_decide as Hmax; [exact I|]. case_decide as Hmin; [exact I|].
  assert (Hl : (16 <= length frame)%nat) by (unfold zlen in Hmin; lia).
  destruct (read_u32_le_in frame 0 Hb) as (to & -> & Hto & Eto); [lia|]. destruct (read_u32_le_in frame 4 Hb) as (from & -> & Hfrom & Efrom); [lia|].
  destruct (read_u32_le_in frame 8 Hb) as (id & -> & Hid & Eid); [lia|].
  assert (Hat : forall i, (i < 16)%nat -> exists x, frame !! i = Some x /\ idx (E := HeaderError) frame (Z.of_nat i) = Ok x /\ byte_ok x).
  { intros i Hi. destruct (lookup_lt_is_Some_2 frame i) as [x Hx]; [lia|]. exists x. split; [done|]. split; [|by eapply Forall_lookup_1].
    unfold idx. rewrite decide_True by (unfold zlen; lia). by rewrite Nat2Z.id, Hx. }
  destruct (Hat 12%nat) as (f & F0 & F1 & F2); [lia|]. destruct (Hat 13%nat) as (c & C0 & C1 & C2); [lia|].
  destruct (Hat 14%nat) as (n & N0 & N1 & N2); [lia|]. destruct (Hat 15%nat) as (r & R0 & R1 & R2); [lia|]. clear Hat.
  change (Z.of_nat 12) with 12 in F1. change (Z.of_nat 13) with 13 in C1. change (Z.of_nat 14) with 14 in N1. change (Z.of_nat 15) with 15 in R1.
  rewrite F1. cbn [mbind outcome_bind]. destruct (flags_written f F2) as (Ef & Hhl & Hhs). set (hs := Z.shiftr _ _) in *.
  set (nr := if decide (hs = 0) then (0, 0) else (n, r)).
  assert (Hnr : (if decide (hs = 0) then Ok (0, 0) else n ← idx frame 14; r ← idx frame 15; Ok (n, r)) = Ok (E := HeaderError) nr).
  { unfold nr. destruct (decide (hs = 0)); [done|]. rewrite N1. cbn [mbind outcome_bind]. by rewrite R1. }
  rewrite Hnr. clearbody hs. assert (Hnb : byte_ok nr.1 /\ byte_ok nr.2) by (unfold nr; destruct (decide (hs = 0)); [by repeat split|by split]).
  assert (Hn0 : hs = 0 -> nr.1 = 0 /\ nr.2 = 0) by (intros E; unfold nr; by rewrite decide_True by done). assert (Hn1 : hs <> 0 -> nr = (n, r)) by (intros E; unfold nr; by rewrite decide_False by done).
  clearbody nr. destruct nr as [nh rn]. cbn [fst snd] in *. cbn [mbind outcome_bind]. rewrite C1. cbn [mbind outcome_bind].
  unfold PacketHeader.validate. cbn [ph_from ph_to ph_hop_limit ph_hop_start]. unfold HOP_MAX.
  destruct (decide (from = 0 \/ from = BROADCAST)) as [|Hf]; [exact I|]. destruct (decide (to = 0)) as [|Ht]; [exact I|].
  destruct (decide (Z.land f FLAG_HOP_LIMIT_MASK > 7 \/ hs > 7)) as [|_]; [exact I|]. destruct (decide (hs <> 0 /\ hs < Z.land f FLAG_HOP_LIMIT_MASK)) as [|Hinc]; [exact I|].
  cbn [mbind outcome_bind]. unfold slice_from. rewrite slice_in by (unfold zlen in *; lia). cbn [mbind outcome_bind yields fst snd ph_hop_start].
  set (pl := take _ _). assert (Epl : pl = drop 16 frame) by (unfold pl; apply take_ge; rewrite length_drop; unfold zlen; lia). rewrite Epl.
  destruct Hnb as [Hnb1 Hnb2]. split; [unfold header_ok, header_sent; cbn [ph_to ph_from ph_id ph_hop_limit ph_hop_start ph_channel ph_next_hop ph_relay_node]; split; [repeat (apply conj; [first [assumption|lia|tauto]|]); lia|assumption]|]. split; [by apply Forall_drop|]. unfold zlen in *. rewrite length_drop. split; [lia|]. split; [lia|]. intros Hne. specialize (Hn1 Hne). injection Hn1 as -> ->.
  unfold PacketHeader.encode. cbn [ph_hop_limit ph_want_ack ph_via_mqtt ph_hop_start ph_to ph_from ph_id ph_channel ph_next_hop ph_relay_node]. unfold HOP_MAX. rewrite decide_False by lia. cbv zeta.
  fold (flags_byte (Z.land f FLAG_HOP_LIMIT_MASK) hs (bool_decide (Z.land f FLAG_WANT_ACK <> 0)) (bool_decide (Z.land f FLAG_VIA_MQTT <> 0))). rewrite Ef, Eto, Efrom, Eid.
  rewrite <- !app_assoc. cbn [app]. rewrite <- (take_drop 4 frame) at 1. f_equal. rewrite <- (take_drop 4 (drop 4 frame)) at 1. rewrite drop_drop. f_equal.
  rewrite <- (take_drop 4 (drop (4 + 4) frame)) at 1. rewrite drop_drop. f_equal. cbn [Nat.add].
  rewrite (drop_S _ _ _ F0), (drop_S _ _ _ C0), (drop_S _ _ _ N0), (drop_S _ _ _ R0). done.
Qed.

(** ** Ciphers *)

Lemma expand_len psk : zlen (expand_psk psk) = 0 \/ zlen (expand_psk psk) = 16 \/ zlen (expand_psk psk) = 32.
Proof.
  unfold expand_psk. destruct psk as [|n [|m l]]; [by left| |].
  - case_decide; [right; left; reflexivity|by left].
  - set (k := n :: m :: l). unfold zlen, resize. case_decide as H1; [|case_decide as H2]; rewrite ?length_app, length_take, ?length_replicate; lia.
Qed.
Section CipherFacts.
Context {C : CryptoLib} {F : ForeignCrypto} `{!CryptoLibLaws C} `{!ForeignCryptoLaws F}.

Lemma aes_ctr_spec psk nonce buf :
  zlen buf <= MAX_BLOCKSIZE ->
  exists e, aes_ctr (expand_psk psk) nonce buf = Ok e /\ zlen e = zlen buf /\ (bytes_ok buf -> bytes_ok e) /\ aes_ctr (expand_psk psk) nonce e = Ok buf.
Proof.
  intros Hb. unfold aes_ctr. rewrite decide_False by lia. destruct (expand_len psk) as [H|[H|H]]; rewrite H.
  - rewrite decide_True by done. exists buf. by rewrite decide_False by lia.
  - rewrite decide_False, decide_True by done. eexists. split; [reflexivity|]. assert (Hl : zlen (aes128_ctr (expand_psk psk) nonce buf) = zlen buf) by (unfold zlen; by rewrite ctr128_len).
    split; [done|]. split; [apply ctr128_bytes|]. rewrite Hl. rewrite decide_False by lia. rewrite decide_False, decide_True by done. by rewrite ctr128_inv.
  - rewrite decide_False, decide_False, decide_True by done. eexists. split; [reflexivity|]. assert (Hl : zlen (aes256_ctr (expand_psk psk) nonce buf) = zlen buf) by (unfold zlen; by rewrite ctr256_len).
    split; [done|]. split; [apply ctr256_bytes|]. rewrite Hl. rewrite decide_False by lia. rewrite decide_False, decide_False, decide_True by done. by rewrite ctr256_inv.
Qed.
Lemma pki_encrypt_spec key from id extra pt :
  zlen pt + PKI_TRAILER_LEN <= MAX_BLOCKSIZE ->
  exists ct tag, pki_encrypt key from id extra pt = Ok (ct ++ tag ++ le_bytes 4 extra) /\ length ct = length pt /\ length tag = 8%nat /\
    (bytes_ok pt -> bytes_ok (ct ++ tag ++ le_bytes 4 extra)) /\
    (in_u 32 extra -> 0 < zlen pt -> pki_decrypt key from id (ct ++ tag ++ le_bytes 4 extra) = Ok pt).
Proof.
  unfold PKI_TRAILER_LEN, MAX_BLOCKSIZE. intros Hl. unfold pki_encrypt, PKI_TRAILER_LEN, MAX_BLOCKSIZE. rewrite decide_False by lia. set (n := take 13 (mt_nonce from id extra)).
  destruct (ccm_total key n pt) as [[ct tag] Hct]; [change (2 ^ 16) with 65536; lia|]. rewrite Hct. cbn [ok_or mbind outcome_bind]. exists ct, tag. split; [done|].
  destruct (ccm_encrypt_len _ _ _ _ _ Hct) as [Hlc Hlt]. split; [done|]. split; [done|]. split.
  { intros Hb. destruct (ccm_encrypt_bytes _ _ _ _ _ Hb Hct). apply Forall_app_2; [done|]. apply Forall_app_2; [done|apply le_bytes_ok]. }
  intros He Hp. unfold pki_decrypt, PKI_TRAILER_LEN, MAX_BLOCKSIZE. assert (Hz : zlen (ct ++ tag ++ le_bytes 4 extra) = zlen pt + 12) by (unfold zlen; rewrite !length_app, length_le_bytes; lia).
  rewrite Hz. rewrite decide_False by lia. replace (zlen pt + 12 - 12) with (zlen ct) by (unfold zlen; lia).
  assert (Hauth : slice_from (E := CryptoError) (ct ++ tag ++ le_bytes 4 extra) (zlen ct) = Ok (tag ++ le_bytes 4 extra)).
  { unfold slice_from. rewrite slice_in by (rewrite ?Hz; unfold zlen in *; lia). f_equal. replace (Z.to_nat (zlen ct)) with (length ct) by (unfold zlen; lia). rewrite drop_app_length. apply take_ge. rewrite Hz. unfold zlen. rewrite length_app, length_le_bytes. lia. }
  rewrite Hauth. cbn [mbind outcome_bind].
  assert (Hex : slice (E := CryptoError) (tag ++ le_bytes 4 extra) 8 12 = Ok (le_bytes 4 extra)).
  { rewrite slice_in by (unfold zlen; rewrite ?length_app, ?length_le_bytes; lia). f_equal. replace (Z.to_nat 8) with (length tag) by lia. rewrite drop_app_length. apply take_ge. by rewrite length_le_bytes. }
  rewrite Hex. cbn [mbind outcome_bind].
  assert (Hbuf : slice (E := CryptoError) (ct ++ tag ++ le_bytes 4 extra) 0 (zlen ct) = Ok ct).
  { rewrite slice_in by (rewrite ?Hz; unfold zlen; lia). f_equal. rewrite Z.sub_0_r. unfold zlen. rewrite Nat2Z.id, drop_0. by apply take_app_length. }
  rewrite Hbuf. cbn [mbind outcome_bind].
  assert (Htag : slice (E := CryptoError) (tag ++ le_bytes 4 extra) 0 8 = Ok tag).
  { rewrite slice_in by (unfold zlen; rewrite ?length_app, ?length_le_bytes; lia). f_equal. rewrite drop_0. by apply take_app_length'. }
  rewrite Htag. cbn [mbind outcome_bind]. rewrite from_le_32 by done. fold n. by rewrite (ccm_correct _ _ _ _ _ Hct).
Qed.
Lemma pki_decrypt_wf key from id data : bytes_ok data -> yields (fun pt => bytes_ok pt /\ zlen pt <= zlen data) (pki_decrypt key from id data).
Proof.
  intros Hb. unfold pki_decrypt, PKI_TRAILER_LEN. case_decide as Hd; [exact I|]. unfold slice_from. rewrite (slice_in data (zlen data - 12) (zlen data)) by lia. cbn [mbind outcome_bind]. set (auth := take _ (drop (Z.to_nat (zlen data - 12)) data)).
  assert (Ha : length auth = 12%nat) by (unfold auth, zlen in *; rewrite length_take, length_drop; lia).
  rewrite (slice_in auth 8 12) by (unfold zlen; lia). cbn [mbind outcome_bind]. rewrite (slice_in data 0) by lia. cbn [mbind outcome_bind].
  rewrite (slice_in auth 0 8) by (unfold zlen; lia). cbn [mbind outcome_bind].
  destruct (ccm_decrypt _ _ _ _) as [pt|] eqn:E; [|exact I]. cbn. split; [eapply ccm_decrypt_bytes, E; by apply Forall_take, Forall_drop|].
  apply ccm_decrypt_len in E. unfold zlen. rewrite E, length_take, length_drop. lia.
Qed.
End CipherFacts.

(** ** Presets *)

(** Every tabulated preset is a valid modem setting whose channel lies inside
    the band of its region, and is found again from its settings. *)
Definition in_band (p : NamedProfile) : bool :=
  existsb (fun r => bool_decide (Region.name (rp_region r) = np_region p) &&
    bool_decide (rp_start_hz r <= frequency_hz (np_profile p) - bandwidth_hz (np_profile p) / 2) &&
    bool_decide (frequency_hz (np_profile p) + bandwidth_hz (np_profile p) / 2 <= rp_end_hz r)) REGIONS
  && bool_decide (5 <= spreading_factor (np_profile p) <= 12) && bool_decide (5 <= coding_rate (np_profile p) <= 8)
  && match matching_preset (np_profile p) with Some q => bool_decide (pr_name q = np_name p) | None => false end.
Lemma profiles_in_band : forallb in_band mt_profiles = true.
Proof. vm_compute. reflexivity. Qed.
Example stock_hash : mt_channel_hash DEFAULT_CHANNEL_NAME [1] = DEFAULT_CHANNEL_HASH /\ djb2 (str "LongFast") = 0x07c63403.
Proof. vm_compute. auto. Qed.
End MtWireFacts.
