(* ===== verification/MtAdapter.v ===== *)
(** * The Meshtastic adapter

    [crates/meshstar-protocols/src/meshtastic/mod.rs]: channels and keys of the
    context, decryption, the mapping between Meshtastic messages and the unified
    model, detection, and the node announcements. *)
From stdpp Require Import base tactics list numbers.
From Stdlib Require Import Lia Ascii String.
From S2P Require Import Prelude SmallMap Float32 Protocol CryptoLib ForeignCrypto Radio Text Strings Unified Proto MtWire.
From stdpp Require Import list.
Import Text Strings mt_header.
#[local] Open Scope Z_scope.

Definition NODEINFO_FIRST_DELAY_MS : Z := 30000.
Definition NODEINFO_INTERVAL_MS : Z := 3 * 60 * 60 * 1000.
Definition LONG_NAME_MAX_BYTES : Z := 24.
Definition SHORT_NAME_MAX_CHARS : nat := 4.
Definition MAX_TEXT_BYTES : Z := MAX_FRAME_LEN - HEADER_LEN - 7.
Definition MAX_BINARY_BYTES : Z := MAX_TEXT_BYTES - 1.

Record MeshtasticAdapter := mkMtAdapter { ma_started_ms : option Z; ma_last_nodeinfo_ms : option Z }.
Definition MeshtasticAdapter_new : MeshtasticAdapter := mkMtAdapter None None.
Record ResolvedChannel := mkResolved { ch_name : list Z; ch_key : list Z; ch_hash : Z }.
Inductive Decrypted := DePsk (channel : ResolvedChannel) (data : PbData) | DePki (data : PbData).

Definition resolve_key (ctx : ProtocolContext) (c : ChannelKey) : ResolvedChannel :=
  let name := if decide (ck_name c = []) then default DEFAULT_CHANNEL_NAME (pr_name <$> matching_preset (cx_profile ctx)) else ck_name c in
  let key := expand_psk (ck_key c) in
  mkResolved name key (Z.lxor (xor_hash name) (xor_hash key)).
Definition known_channels (ctx : ProtocolContext) : list ResolvedChannel :=
  resolve_key ctx <$> (if decide (length (cx_channels ctx) = 0%nat) then [default_channel_key] else cx_channels ctx).

Definition local_node (ctx : ProtocolContext) : option Z :=
  l ← cx_local ctx;
  match li_id l with IdMeshtastic n => if decide (n <> 0 /\ n <> BROADCAST) then Some n else None | _ => None end.
(** [<[u8; 32]>::try_from(s).ok()] *)
Definition key32 (s : list Z) : option (list Z) := if decide (length s = 32%nat) then Some s else None.
Definition local_secret (ctx : ProtocolContext) : option (list Z) := l ← cx_local ctx; key32 (li_secret l).
Definition peer_public (ctx : ProtocolContext) (node : Z) : option (list Z) := k ← ProtocolContext.peer_key ctx (IdMeshtastic node); key32 k.

Definition parse_hex_u32 (s : list Z) : option Z :=
  let t := trim s in
  let t := match strip_prefix (str "!") t with Some r => r | None => default t (strip_prefix (str "0x") t) end in
  if decide (t = [] \/ zlen t > 8) then None else parse_unsigned 16 U32_MAX t.
(** [while end > 0 && !s.is_char_boundary(end) { end -= 1 }] *)
Fixpoint last_boundary (s : list Z) (e : nat) : nat :=
  match e with O => O | S k => if is_char_boundary s e then e else last_boundary s k end.
Definition truncate_utf8 {E} (s : list Z) (max_bytes : Z) : outcome E (list Z) :=
  if decide (zlen s <= max_bytes) then Ok s else
  let e := last_boundary s (Z.to_nat max_bytes) in
  if is_char_boundary s e then Ok (take e s) else Panic.
(** [map_header_error] *)
Definition header_result {A} (o : outcome HeaderError A) : outcome AdapterError A :=
  match o with Ok a => Ok a | Err e => Err (NotThisProtocol (str "header: " ++ header_error_debug e)) | Panic => Panic end.

Section Adapter.
Context {C : CryptoLib} {F : ForeignCrypto}.

(** The PKI attempt of [try_decrypt], once its conditions hold. *)
Definition decrypt_pki (h : PacketHeader) (payload sk pk : list Z) : outcome AdapterError Decrypted :=
  key ← match pki_session_key sk pk with Ok k => Ok k | Err _ => Err AdAuthFailed | Panic => Panic end;
  plain ← match pki_decrypt key (ph_from h) (ph_id h) payload with Ok p => Ok p | Err _ => Err AdAuthFailed | Panic => Panic end;
  data ← match PbData.decode plain with Ok d => Ok d | Err e => Err (NotThisProtocol (str "pki data: " ++ proto_error_debug e)) | Panic => Panic end;
  if decide (d_portnum data = ports.UNKNOWN_APP) then Err (NotThisProtocol (str "pki data: portnum 0")) else Ok (DePki data).
(** The loop over the channels with the hash of the frame. *)
Fixpoint decrypt_psk (h : PacketHeader) (payload : list Z) (channels : list ResolvedChannel) : outcome AdapterError Decrypted :=
  match channels with
  | [] => Err NoKey
  | c :: rest =>
      if negb (bool_decide (ch_hash c = ph_channel h)) then decrypt_psk h payload rest else
      match psk_crypt (ch_key c) (ph_from h) (ph_id h) payload with
      | Panic => Panic
      | Err _ => decrypt_psk h payload rest
      | Ok plain =>
          match PbData.decode plain with
          | Panic => Panic
          | Err _ => decrypt_psk h payload rest
          | Ok data =>
              if bool_decide (d_portnum data <> ports.UNKNOWN_APP) && ports.is_valid (d_portnum data) then Ok (DePsk c data)
              else decrypt_psk h payload rest
          end
      end
  end.
Definition pki_keys (h : PacketHeader) (payload : list Z) (ctx : ProtocolContext) : option (list Z * list Z) :=
  if decide (ph_channel h = 0 /\ PacketHeader.is_broadcast h = false /\ zlen payload > PKC_OVERHEAD) then
    me ← local_node ctx; sk ← local_secret ctx; pk ← peer_public ctx (ph_from h);
    if decide (me = ph_to h) then Some (sk, pk) else None
  else None.
Definition try_decrypt (h : PacketHeader) (payload : list Z) (ctx : ProtocolContext) : outcome AdapterError Decrypted :=
  if decide (payload = []) then Err (NotThisProtocol (str "empty payload")) else
  match pki_keys h payload ctx with
  | Some (sk, pk) => decrypt_pki h payload sk pk
  | None => decrypt_psk h payload (known_channels ctx)
  end.

Definition meta_if (c : bool) (k v : list Z) (msg : UnifiedMessage) : UnifiedMessage := if c then UnifiedMessage.set_meta k v msg else msg.
Definition meta_some (o : option (list Z)) (k : list Z) (msg : UnifiedMessage) : UnifiedMessage := match o with Some v => UnifiedMessage.set_meta k v msg | None => msg end.
Definition hex_0x (b : Z) : list Z := str "0x" ++ hex_u8 b.
Definition base_message (h : PacketHeader) (meta : RxMeta) (ctx : ProtocolContext) : UnifiedMessage :=
  let destination := if PacketHeader.is_broadcast h then IdBroadcast Meshtastic else IdMeshtastic (ph_to h) in
  let msg := UnifiedMessage.text (IdMeshtastic (ph_from h)) destination Meshtastic [] in
  let msg := UM.set_payload [] msg in
  let msg := UM.set_message_id (hex_u32 (ph_id h)) msg in
  let msg := UM.set_signal (mkSignal (Some (rssi_dbm meta)) (Some (snr_db meta)) (Some (frequency_hz (cx_profile ctx))) (timestamp_ms meta)) msg in
  let msg := UM.set_hops (mkHops (PacketHeader.hops_away h) (Some (ph_hop_limit h)) []
    (if decide (ph_relay_node h <> 0) then Some (hex_0x (ph_relay_node h)) else None)) msg in
  let msg := UM.set_wants_ack (ph_want_ack h) msg in
  let msg := UnifiedMessage.set_meta (str "channel_hash") (hex_0x (ph_channel h)) msg in
  let msg := UnifiedMessage.set_meta (str "hop_start") (dec (ph_hop_start h)) msg in
  let msg := meta_if (ph_via_mqtt h) (str "via_mqtt") (str "true") msg in
  meta_if (bool_decide (ph_next_hop h <> 0)) (str "next_hop") (hex_0x (ph_next_hop h)) msg.

(** [map_content]: the fields every port shares, then the ports. *)
Definition data_meta (data : PbData) (msg : UnifiedMessage) : UnifiedMessage :=
  let msg := UnifiedMessage.set_meta (str "portnum") (dec (d_portnum data)) msg in
  let msg := meta_some (ports.name (d_portnum data)) (str "portnum_name") msg in
  let msg := meta_if (d_want_response data) (str "want_response") (str "true") msg in
  let msg := meta_if (bool_decide (d_request_id data <> 0)) (str "request_id") (hex_u32 (d_request_id data)) msg in
  let msg := meta_if (bool_decide (d_emoji data <> 0)) (str "emoji") (dec (d_emoji data)) msg in
  let msg := meta_if (bool_decide (d_dest data <> 0)) (str "dest") (str "!" ++ hex_u32 (d_dest data)) msg in
  let msg := meta_if (bool_decide (d_source data <> 0)) (str "source_field") (str "!" ++ hex_u32 (d_source data)) msg in
  let msg := meta_some (dec <$> d_bitfield data) (str "bitfield") msg in
  let msg := meta_if (bool_decide (is_Some (d_xeddsa_signature data))) (str "xeddsa_signature") (str "present (unverified)") msg in
  let msg := if decide (d_reply_id data <> 0) then UM.set_reply_to (Some (hex_u32 (d_reply_id data))) msg else msg in
  UM.set_payload (d_payload data) msg.
Definition position_meta (p : PbPosition) (msg : UnifiedMessage) : UnifiedMessage :=
  let msg := meta_some (PbPosition.render_coord <$> po_latitude_i p) (str "lat") msg in
  let msg := meta_some (PbPosition.render_coord <$> po_longitude_i p) (str "lon") msg in
  let msg := meta_some (dec_signed <$> po_altitude p) (str "altitude") msg in
  let msg := if decide (po_time p <> 0) then UM.set_timestamp (Some (po_time p)) msg else msg in
  meta_if (bool_decide (po_precision_bits p <> 0)) (str "precision_bits") (dec (po_precision_bits p)) msg.
Definition user_meta (u : PbUser) (msg : UnifiedMessage) : UnifiedMessage :=
  let msg := meta_if (bool_decide (us_id u <> [])) (str "user_id") (us_id u) msg in
  let msg := UnifiedMessage.set_meta (str "long_name") (us_long_name u) msg in
  let msg := UnifiedMessage.set_meta (str "short_name") (us_short_name u) msg in
  let msg := UnifiedMessage.set_meta (str "hw_model") (dec (us_hw_model u)) msg in
  let msg := UnifiedMessage.set_meta (str "role") (dec (us_role u)) msg in
  let msg := meta_if (us_is_licensed u) (str "is_licensed") (str "true") msg in
  meta_if (bool_decide (us_public_key u <> [])) (str "public_key") (hex_encode (us_public_key u)) msg.
Definition routing_meta (r : PbRouting) (msg : UnifiedMessage) : UnifiedMessage :=
  let err := default ROUTING_ERROR_NONE (ro_error_reason r) in
  let msg := UnifiedMessage.set_meta (str "error_reason") (dec err ++ str " (" ++ PbRouting.error_name err ++ str ")") msg in
  let variant := if decide (is_Some (ro_route_request r)) then str "route_request"
    else if decide (is_Some (ro_route_reply r)) then str "route_reply"
    else if decide (is_Some (ro_error_reason r)) then str "error_reason" else str "empty" in
  UnifiedMessage.set_meta (str "routing_variant") variant msg.
(** A parsed payload becomes metadata, a malformed one an error entry. *)
Definition parsed {A} (o : outcome ProtoError A) (k : list Z) (f : A -> UnifiedMessage -> UnifiedMessage) (msg : UnifiedMessage) : outcome AdapterError UnifiedMessage :=
  match o with
  | Ok a => Ok (f a msg)
  | Err e => Ok (UnifiedMessage.set_meta k (proto_error_debug e) msg)
  | Panic => Panic
  end.
Definition map_content (data : PbData) (msg : UnifiedMessage) : outcome AdapterError UnifiedMessage :=
  let msg := data_meta data msg in
  let p := d_portnum data in
  if ports.is_text p then
    let msg := if utf8_valid (d_payload data) then msg
               else UnifiedMessage.set_meta (str "utf8_lossy") (str "true") (UM.set_payload (from_utf8_lossy (d_payload data)) msg) in
    Ok (UM.set_content_type Text msg)
  else if decide (p = ports.POSITION_APP) then
    m ← parsed (PbPosition.decode (d_payload data)) (str "position_parse_error") position_meta msg; Ok (UM.set_content_type Position m)
  else if decide (p = ports.NODEINFO_APP) then
    m ← parsed (PbUser.decode (d_payload data)) (str "nodeinfo_parse_error") user_meta msg; Ok (UM.set_content_type NodeInfo m)
  else if decide (p = ports.ROUTING_APP) then
    let r := PbRouting.decode (d_payload data) in
    m ← parsed r (str "routing_parse_error") routing_meta msg;
    Ok (UM.set_content_type (match r with
                             | Ok r => if PbRouting.is_ack r && bool_decide (d_request_id data <> 0) then CtAck else RouteControl
                             | _ => RouteControl
                             end) m)
  else if decide (p = ports.TELEMETRY_APP) then Ok (UM.set_content_type Telemetry msg)
  else if decide (p = ports.PRIVATE_APP) then Ok (UM.set_content_type Binary msg)
  else Ok (UM.set_content_type (Other (Z.min p 65535)) msg).

Definition decode_strict (frame : list Z) (meta : RxMeta) (ctx : ProtocolContext) : outcome AdapterError UnifiedMessage :=
  '(h, payload) ← header_result (PacketHeader.parse frame);
  let msg := base_message h meta ctx in
  d ← try_decrypt h payload ctx;
  match d with
  | DePsk channel data =>
      msg ← map_content data msg;
      let msg := UM.set_channel (Some (ch_name channel)) msg in
      if decide (ch_key channel = []) then Ok (UM.set_security Plaintext (UM.set_encrypted false msg))
      else Ok (UM.set_security (ForeignSharedKey Meshtastic (ch_name channel)) (UM.set_encrypted true msg))
  | DePki data =>
      msg ← map_content data msg;
      let msg := UM.set_channel None msg in
      let msg := UM.set_security (ForeignDirect Meshtastic true) (UM.set_encrypted true msg) in
      Ok (UnifiedMessage.set_meta (str "pki") (str "true") msg)
  end.
(** The stock channel of a preset with the hash of the frame. *)
Definition stock_preset (h : PacketHeader) : option Preset := find_first (fun p => bool_decide (mt_channel_hash (pr_name p) [1] = ph_channel h)) PRESETS.
Definition hash_channel (h : PacketHeader) (ctx : ProtocolContext) : option ResolvedChannel :=
  find_first (fun c => bool_decide (ch_hash c = ph_channel h)) (known_channels ctx).
Definition pki_shape (h : PacketHeader) (payload : list Z) : bool :=
  bool_decide (ph_channel h = 0) && negb (PacketHeader.is_broadcast h) && bool_decide (zlen payload > PKC_OVERHEAD).
Definition decode_opaque (frame : list Z) (meta : RxMeta) (ctx : ProtocolContext) : outcome AdapterError UnifiedMessage :=
  '(h, payload) ← header_result (PacketHeader.parse frame);
  let msg := base_message h meta ctx in
  let msg := UM.set_content_type Opaque msg in
  let msg := UM.set_payload payload msg in
  let msg := UM.set_encrypted true msg in
  let msg := UM.set_security (Undecryptable Meshtastic) msg in
  let msg := match hash_channel h ctx with
             | Some c => UM.set_channel (Some (ch_name c)) msg
             | None => match stock_preset h with Some p => UnifiedMessage.set_meta (str "channel_hint") (pr_name p) msg | None => msg end
             end in
  Ok (meta_if (pki_shape h payload) (str "pki") (str "probable") msg).
Definition resolve_channel (ctx : ProtocolContext) (name : option (list Z)) : outcome AdapterError ResolvedChannel :=
  let channels := known_channels ctx in
  let first := ok_or (head channels) (MissingContext (str "channel")) in
  match name with
  | Some n => if decide (n <> []) then ok_or (find_first (fun c => eq_ignore_ascii_case (ch_name c) n) channels) (MissingContext (str "channel " ++ n))
              else first
  | None => first
  end.
Definition hex_low16 (node : Z) : list Z := hex_encode (be_bytes 2 (Z.land node 0xFFFF)).
Definition local_user (ctx : ProtocolContext) : outcome AdapterError (option PbUser) :=
  match cx_local ctx, local_node ctx with
  | Some local, Some node =>
      let long_name := if decide (li_display_name local = []) then str "Meshtastic " ++ hex_low16 node else li_display_name local in
      let short_name := if decide (li_short_name local = []) then hex_low16 node else li_short_name local in
      long ← truncate_utf8 long_name LONG_NAME_MAX_BYTES;
      Ok (Some (mkPbUser (str "!" ++ hex_u32 node) long (take_chars SHORT_NAME_MAX_CHARS short_name) [] HW_MODEL_PRIVATE_HW false ROLE_CLIENT
        (default [] (x25519_public <$> local_secret ctx)) None))
  | _, _ => Ok None
  end.

Definition parse_u32 (s : list Z) : option Z := parse_unsigned 10 U32_MAX s.
Definition parse_i32 (s : list Z) : option Z := parse_signed 10 (2 ^ 31 - 1) s.
Definition ack_data (msg : UnifiedMessage) (data : PbData) : outcome AdapterError PbData :=
  let request_id := r ← (s ← match UnifiedMessage.meta msg (str "request_id") with Some s => Some s | None => um_reply_to msg end; parse_hex_u32 s);
                    if decide (r <> 0) then Some r else None in
  request_id ← ok_or request_id (MissingContext (str "request_id"));
  let error_reason := default ROUTING_ERROR_NONE (s ← UnifiedMessage.meta msg (str "error_reason"); parse_u32 (first_field 32 s)) in
  let data := PbData.set_portnum ports.ROUTING_APP data in
  let data := PbData.set_payload (PbRouting.encode (mkPbRouting None None (Some error_reason))) data in
  Ok (PbData.set_reply_id 0 (PbData.set_request_id request_id data)).
(** The position to send: the payload when it is one with coordinates, else the metadata. *)
Definition position_of (msg : UnifiedMessage) (ctx : ProtocolContext) : outcome AdapterError PbPosition :=
  let from_meta :=
    let lat := s ← UnifiedMessage.meta msg (str "lat"); PbPosition.parse_coord s in
    let lon := s ← UnifiedMessage.meta msg (str "lon"); PbPosition.parse_coord s in
    if decide (lat = None /\ lon = None) then Err (Unsupported (str "position without lat/lon"))
    else Ok (PbPosition.set_time (default (cx_unix_time_s ctx) (um_timestamp msg))
               (PbPosition.set_altitude (s ← UnifiedMessage.meta msg (str "altitude"); parse_i32 s)
                 (PbPosition.set_longitude_i lon (PbPosition.set_latitude_i lat PbPosition.default_value)))) in
  match PbPosition.decode (um_payload msg) with
  | Ok p => if decide (is_Some (po_latitude_i p) \/ is_Some (po_longitude_i p)) then Ok p else from_meta
  | Err _ => from_meta
  | Panic => Panic
  end.
Definition user_of (msg : UnifiedMessage) (ctx : ProtocolContext) : outcome AdapterError PbUser :=
  let own := u ← local_user ctx; ok_or u (MissingContext (str "local Meshtastic identity")) in
  match PbUser.decode (um_payload msg) with
  | Ok u => if decide (um_payload msg <> [] /\ us_long_name u <> []) then Ok u else own
  | Err _ => own
  | Panic => Panic
  end.
Definition build_data (msg : UnifiedMessage) (ctx : ProtocolContext) : outcome AdapterError PbData :=
  let reply_id := default 0 (s ← um_reply_to msg; parse_hex_u32 s) in
  let data := PbData.set_bitfield (Some 0) (PbData.set_reply_id reply_id PbData.default_value) in
  match um_content_type msg with
  | Text =>
      if decide (zlen (um_payload msg) > DATA_PAYLOAD_LEN) then Err AdTooLarge else
      let data := PbData.set_payload (um_payload msg) (PbData.set_portnum ports.TEXT_MESSAGE_APP data) in
      Ok (match (s ← UnifiedMessage.meta msg (str "emoji"); parse_u32 s) with Some e => PbData.set_emoji e data | None => data end)
  | Binary =>
      if decide (zlen (um_payload msg) > DATA_PAYLOAD_LEN) then Err AdTooLarge else
      let port := match (s ← UnifiedMessage.meta msg (str "portnum"); parse_u32 s) with
                  | Some p => if bool_decide (p <> ports.UNKNOWN_APP) && ports.is_valid p then p else ports.PRIVATE_APP
                  | None => ports.PRIVATE_APP
                  end in
      Ok (PbData.set_payload (um_payload msg) (PbData.set_portnum port data))
  | CtAck => ack_data msg data
  | Position =>
      position ← position_of msg ctx;
      Ok (PbData.set_payload (PbPosition.encode position) (PbData.set_portnum ports.POSITION_APP data))
  | NodeInfo =>
      user ← user_of msg ctx;
      let data := PbData.set_payload (PbUser.encode user) (PbData.set_portnum ports.NODEINFO_APP data) in
      Ok (if decide (UnifiedMessage.meta msg (str "want_response") = Some (str "true"))
          then PbData.set_bitfield (Some BITFIELD_WANT_RESPONSE) (PbData.set_want_response true data) else data)
  | other => Err (Unsupported (ContentType_debug other))
  end.
Definition pki_eligible_port (port : Z) : bool :=
  negb (bool_decide (port = ports.TRACEROUTE_APP) || bool_decide (port = ports.NODEINFO_APP) || bool_decide (port = ports.ROUTING_APP) || bool_decide (port = ports.POSITION_APP)).

Definition mt_capabilities : ProtocolCapabilities := mkCaps true true true true false true false true true MAX_TEXT_BYTES MAX_BINARY_BYTES HOP_MAX.

(** [s.evidence.push(..)] *)
Definition note (why : list Z) (s : DetectionScore) : DetectionScore := mkScore (ds_protocol s) (ds_score s) (ds_evidence s ++ [why]).
(** The evidence of the channel byte, and whether it anchors the frame. *)
Definition channel_evidence (h : PacketHeader) (payload : list Z) (ctx : ProtocolContext) (s : DetectionScore) : DetectionScore * bool :=
  match hash_channel h ctx with
  | Some c => (DetectionScore.add 25 (str "channel hash " ++ hex_0x (ph_channel h) ++ str " matches configured channel " ++ ch_name c) s, true)
  | None =>
      match stock_preset h with
      | Some p => (DetectionScore.add 15 (str "channel hash " ++ hex_0x (ph_channel h) ++ str " matches default " ++ pr_name p ++ str " channel (not configured)") s, true)
      | None =>
          if pki_shape h payload then (DetectionScore.add 15 (str "channel 0x00 with unicast destination: PKI direct message shape") s, true)
          else (note (str "channel hash " ++ hex_0x (ph_channel h) ++ str " matches no known channel") s, false)
      end
  end.
Definition profile_evidence (ctx : ProtocolContext) (s : DetectionScore) : DetectionScore * bool :=
  if decide (sync_word (cx_profile ctx) = SYNC_WORD) then
    let s := DetectionScore.add 10 (str "profile sync word 0x2B") s in
    (match matching_preset (cx_profile ctx) with
     | Some p => DetectionScore.add 5 (str "profile BW/SF/CR match preset " ++ pr_name p) s
     | None => s
     end, true)
  else (s, false).
Definition hop_evidence (h : PacketHeader) (s : DetectionScore) : DetectionScore :=
  let s := if decide (ph_hop_start h <> 0) then
      let s := DetectionScore.add 5 (str "hop_start set and >= hop_limit") s in
      if decide (ph_relay_node h <> 0) then
        let s := DetectionScore.add 3 (str "relay_node set") s in
        if decide (ph_hop_start h = ph_hop_limit h /\ ph_relay_node h = last_byte_of_node_num (ph_from h))
        then DetectionScore.add 4 (str "relay_node matches originator (heard directly)") s else s
      else s
    else s in
  let s := if decide (ph_id h = 0) then note (str "id 0 (never flooded)") s else s in
  if ph_want_ack h && PacketHeader.is_broadcast h then note (str "want_ack on a broadcast never happens on air") s else s.
Definition mt_detect (_ : MeshtasticAdapter) (frame : list Z) (_ : RxMeta) (ctx : ProtocolContext) : outcome Empty_set DetectionScore :=
  let s := DetectionScore.none Meshtastic in
  if decide (zlen frame < HEADER_LEN) then Ok (DetectionScore.reject (str "shorter than the 16 byte header") s) else
  if decide (zlen frame > MAX_FRAME_LEN) then Ok (DetectionScore.reject (str "longer than 255 bytes") s) else
  match PacketHeader.parse frame with
  | Panic => Panic
  | Err e => Ok (DetectionScore.reject (str "header: " ++ header_error_debug e) s)
  | Ok (h, payload) =>
      let s := if decide (ph_to h = BROADCAST_NO_LORA) then note (str "to == 1 is never sent over LoRa") s else s in
      let '(s, anchored) := channel_evidence h payload ctx s in
      let '(s, on_sync) := profile_evidence ctx s in
      let s := if anchored || on_sync then hop_evidence h s else s in
      match try_decrypt h payload ctx with
      | Panic => Panic
      | Ok (DePsk channel data) => Ok (DetectionScore.add 50 (str "decrypts on " ++ ch_name channel ++ str " to Data portnum " ++ dec (d_portnum data)) s)
      | Ok (DePki data) => Ok (DetectionScore.add 50 (str "PKI tag verifies, Data portnum " ++ dec (d_portnum data)) s)
      | Err AdAuthFailed => Ok (note (str "PKI tag does not verify with the known keys") s)
      | Err _ => Ok (note (str "no configured key decrypts the payload") s)
      end
  end.
Definition mt_decode (_ : MeshtasticAdapter) (frame : list Z) (meta : RxMeta) (ctx : ProtocolContext) : outcome AdapterError UnifiedMessage :=
  match decode_strict frame meta ctx with Err NoKey => decode_opaque frame meta ctx | other => other end.

(** The encrypted body and the channel byte. *)
Definition mt_body (msg : UnifiedMessage) (ctx : ProtocolContext) (from to id : Z) (data : PbData) (encoded : list Z) : outcome AdapterError (list Z * Z) :=
  let keys := sk ← local_secret ctx; pk ← peer_public ctx to; Some (sk, pk) in
  match (if negb (is_broadcast_num to) && pki_eligible_port (d_portnum data) then keys else None) with
  | Some (sk, pk) =>
      if decide (zlen encoded + HEADER_LEN + PKC_OVERHEAD > MAX_FRAME_LEN) then Err AdTooLarge else
      key ← match pki_session_key sk pk with Ok k => Ok k | Err e => Err (Unsupported (str "pki: " ++ crypto_error_debug e)) | Panic => Panic end;
      r ← slice (cx_random ctx) 4 8;
      match pki_encrypt key from id (from_le r) encoded with Ok b => Ok (b, 0) | Err _ => Err AdTooLarge | Panic => Panic end
  | None =>
      if decide (zlen encoded + HEADER_LEN > MAX_FRAME_LEN) then Err AdTooLarge else
      channel ← resolve_channel ctx (um_channel msg);
      match psk_crypt (ch_key channel) from id encoded with Ok b => Ok (b, ch_hash channel) | Err _ => Err AdTooLarge | Panic => Panic end
  end.
Definition mt_encode (_ : MeshtasticAdapter) (msg : UnifiedMessage) (ctx : ProtocolContext) : outcome AdapterError OutboundFrame :=
  from ← ok_or (local_node ctx) (MissingContext (str "local Meshtastic identity"));
  to ← match um_destination msg with
       | IdBroadcast _ => Ok BROADCAST
       | IdMeshtastic n => if decide (n <> 0) then Ok n else Err (Unsupported (str "destination " ++ IdentityRef.canonical (IdMeshtastic n)))
       | other => Err (Unsupported (str "destination " ++ IdentityRef.canonical other))
       end;
  data ← build_data msg ctx;
  let encoded := PbData.encode data in
  r ← slice (cx_random ctx) 0 4;
  let id := if decide (from_le r = 0) then 1 else from_le r in
  let broadcast := is_broadcast_num to in
  let hop_limit := Z.min (default HOP_RELIABLE (s ← UnifiedMessage.meta msg (str "hop_limit"); parse_unsigned 10 255 s)) HOP_MAX in
  let h := mkPacketHeader to from id hop_limit (um_wants_ack msg && negb broadcast) false hop_limit 0 0 (last_byte_of_node_num from) in
  '(body, channel) ← mt_body msg ctx from to id data encoded;
  Ok (mkFrame Meshtastic (PacketHeader.encode (PacketHeader.set_channel channel h) ++ body) (cx_profile ctx)).
Definition build_nodeinfo (a : MeshtasticAdapter) (ctx : ProtocolContext) : outcome AdapterError OutboundFrame :=
  me ← ok_or (local_node ctx) (MissingContext (str "local Meshtastic identity"));
  let msg := UnifiedMessage.text (IdMeshtastic me) (IdBroadcast Meshtastic) Meshtastic [] in
  mt_encode a (UM.set_payload [] (UM.set_content_type NodeInfo msg)) ctx.

(** The sender of a message that can be answered. *)
Definition reply_peer (msg : UnifiedMessage) : option Z :=
  match um_source msg with IdMeshtastic n => if decide (n <> 0 /\ n <> BROADCAST) then Some n else None | _ => None end.
Definition mt_can_reply (_ : MeshtasticAdapter) (msg : UnifiedMessage) (ctx : ProtocolContext) : bool :=
  if decide (um_protocol msg <> Meshtastic \/ local_node ctx = None) then false else
  match reply_peer msg with
  | None => false
  | Some peer =>
      match um_security msg with
      | ForeignDirect _ _ => bool_decide (is_Some (local_secret ctx)) && bool_decide (is_Some (peer_public ctx peer))
      | Undecryptable _ => false
      | _ => is_ok (resolve_channel ctx (um_channel msg))
      end
  end.
Definition mt_reply_context (_ : MeshtasticAdapter) (msg : UnifiedMessage) : option ReplyContext :=
  if decide (um_protocol msg <> Meshtastic) then None else
  to ← reply_peer msg;
  let original_to := match um_destination msg with IdMeshtastic n => n | _ => BROADCAST end in
  Some (mkReply Meshtastic (IdMeshtastic to) (um_channel msg) (if decide (um_message_id msg = []) then None else Some (um_message_id msg)) (le_bytes 4 original_to)).
Definition mt_periodic (a : MeshtasticAdapter) (ctx : ProtocolContext) : outcome Empty_set (MeshtasticAdapter * list OutboundFrame) :=
  if decide (local_node ctx = None) then Ok (a, []) else
  let started := default (cx_now_ms ctx) (ma_started_ms a) in
  let a := mkMtAdapter (Some started) (ma_last_nodeinfo_ms a) in
  let due := match ma_last_nodeinfo_ms a with
             | None => bool_decide (sat_sub (cx_now_ms ctx) started >= NODEINFO_FIRST_DELAY_MS)
             | Some last => bool_decide (sat_sub (cx_now_ms ctx) last >= NODEINFO_INTERVAL_MS)
             end in
  if negb due then Ok (a, []) else
  match build_nodeinfo a ctx with
  | Ok f => Ok (mkMtAdapter (Some started) (Some (cx_now_ms ctx)), [f])
  | Err _ => Ok (a, [])
  | Panic => Panic
  end.

#[global] Instance meshtastic_radio_protocol : RadioProtocol MeshtasticAdapter := {
  rp_id _ := Meshtastic;
  rp_capabilities _ := mt_capabilities;
  rp_detect := mt_detect;
  rp_decode := mt_decode;
  rp_encode := mt_encode;
  rp_can_reply := mt_can_reply;
  rp_reply_context := mt_reply_context;
  rp_periodic := mt_periodic
}.
End Adapter.
