(* ===== verification/MtFacts.v ===== *)
(** * The Meshtastic adapter keeps its contract

    Detection, decoding, encoding and announcements of the adapter satisfy
    [AdapterContract], and a text sent on a shared channel or as a direct message
    is decoded by the receiver as it was written. *)
From stdpp Require Import base tactics list numbers.
From Stdlib Require Import Lia Ascii String.
From S2P Require Import Prelude SmallMap Float32 Protocol CryptoLib ForeignCrypto Radio Text Strings Unified Proto MtWire MtAdapter.
From stdpp Require Import list.
Import Text Strings mt_header UnifiedFacts ProtoFacts MtWireFacts.
#[local] Open Scope Z_scope.

(** ** Rendered text is valid *)

Lemma literal_encoded s : utf8_valid s = true -> well_encoded s.
Proof. apply utf8_valid_iff. Qed.
Lemma hex_u32_encoded n : well_encoded (hex_u32 n).
Proof. apply hex_encoded, be_bytes_ok. Qed.
Lemma hex_0x_encoded b : byte_ok b -> well_encoded (hex_0x b).
Proof.
  intros Hb. apply encoded_concat; [by apply literal_encoded|]. change (hex_u8 b) with (hex_byte b). rewrite <- (app_nil_r (hex_byte b)).
  change (well_encoded (hex_encode [b])). apply hex_encoded. by repeat constructor; apply Hb.
Qed.
Lemma dec_signed_encoded n : well_encoded (dec_signed n).
Proof. unfold dec_signed. case_decide; [|apply dec_encoded]. change (45 :: dec (- n)) with ([45] ++ dec (- n)). apply encoded_concat; [by apply literal_encoded|apply dec_encoded]. Qed.
Lemma pad_encoded k s : well_encoded s -> well_encoded (pad_zeros k s).
Proof. intros Hs. unfold pad_zeros. apply encoded_concat; [|done]. apply encoded_ascii, Forall_replicate. done. Qed.
Ltac enc :=
  repeat match goal with
  | |- well_encoded (str _) => apply literal_encoded; vm_compute; reflexivity
  | |- well_encoded (_ ++ _) => apply encoded_concat
  | |- well_encoded (dec _) => apply dec_encoded
  | |- well_encoded (dec_signed _) => apply dec_signed_encoded
  | |- well_encoded (hex_u32 _) => apply hex_u32_encoded
  | |- well_encoded (hex_0x _) => apply hex_0x_encoded
  | |- well_encoded (pad_zeros _ _) => apply pad_encoded
  | |- well_encoded (hex_encode _) => apply hex_encoded
  | |- well_encoded (if _ then _ else _) => case_match
  end; try assumption.
Lemma render_encoded v : well_encoded (PbPosition.render_coord v).
Proof. unfold PbPosition.render_coord. destruct (decide (v < 0)); enc. constructor. Qed.
Lemma proto_error_encoded e : well_encoded (proto_error_debug e).
Proof. destruct e; cbn [proto_error_debug]; enc. Qed.
Lemma error_name_encoded e : well_encoded (PbRouting.error_name e).
Proof. unfold PbRouting.error_name. repeat case_match; enc. Qed.
Lemma port_name_encoded p s : ports.name p = Some s -> well_encoded s.
Proof. unfold ports.name. repeat case_match; intros [= <-]; enc. Qed.
Lemma preset_name_encoded (f : Preset -> bool) p : find_first f PRESETS = Some p -> well_encoded (pr_name p).
Proof.
  intros [_ Hin]%find_first_Some. assert (H : forallb (fun p => utf8_valid (pr_name p)) PRESETS = true) by (vm_compute; reflexivity).
  rewrite forallb_forall in H. apply literal_encoded, H. by apply list_elem_of_In.
Qed.

(** ** Messages the decoder builds *)

Definition speaks (m : UnifiedMessage) : Prop := um_protocol m = Meshtastic /\ text_ok m /\ um_bridge_path m = [].
Lemma speaks_meta k v m : speaks m -> well_encoded v -> speaks (UnifiedMessage.set_meta k v m).
Proof. intros (H1 & H2 & H3) Hv. split; [done|]. split; [by apply set_meta_text|done]. Qed.
Lemma speaks_if c k v m : speaks m -> well_encoded v -> speaks (meta_if c k v m).
Proof. intros Hm Hv. unfold meta_if. destruct c; [by apply speaks_meta|done]. Qed.
Lemma speaks_some o k m : speaks m -> (forall v, o = Some v -> well_encoded v) -> speaks (meta_some o k m).
Proof. intros Hm Hv. unfold meta_some. destruct o; [by apply speaks_meta; [|apply Hv]|done]. Qed.
Lemma speaks_same m m' :
  um_protocol m' = um_protocol m -> um_source m' = um_source m -> um_protocol_metadata m' = um_protocol_metadata m -> um_bridge_path m' = um_bridge_path m ->
  zlen (um_payload m') < 2 ^ 32 -> speaks m -> speaks m'.
Proof. unfold speaks. intros -> Hs Hm -> Hp (H1 & H2 & H3). split; [done|]. split; [|done]. by eapply text_ok_fields. Qed.
Lemma speaks_payload v m : zlen v < 2 ^ 32 -> speaks m -> speaks (UM.set_payload v m).
Proof. intros Hv. by apply speaks_same. Qed.
Lemma speaks_type v m : speaks m -> speaks (UM.set_content_type v m).
Proof. intros Hm. exact Hm. Qed.

Lemma base_speaks h meta ctx : header_ok h -> speaks (base_message h meta ctx).
Proof.
  intros [(_ & Hf & _ & _ & _ & Hc & Hn & Hr & _) _]. unfold base_message. apply speaks_if; [|enc]. apply speaks_if; [|enc]. apply speaks_meta; [|enc]. apply speaks_meta; [|enc].
  split; [done|]. split; [|done]. split; [exact Hf|]. split; [constructor|done].
Qed.
Lemma data_meta_speaks data m : data_ok data -> zlen (d_payload data) < 2 ^ 32 -> speaks m -> speaks (data_meta data m).
Proof.
  intros _ Hp Hm. unfold data_meta. apply speaks_payload; [done|].
  match goal with |- speaks (if decide _ then UM.set_reply_to _ ?x else ?x) => assert (H : speaks x); [|by destruct (decide _)] end.
  apply speaks_if; [|enc]. apply speaks_some; [|by intros v (b & _ & ->)%fmap_Some; enc].
  do 5 (apply speaks_if; [|enc]). apply speaks_some; [|by intros v; apply port_name_encoded]. apply speaks_meta; [done|enc].
Qed.
Lemma position_speaks p m : speaks m -> speaks (position_meta p m).
Proof.
  intros Hm. unfold position_meta. apply speaks_if; [|enc].
  match goal with |- speaks (if decide _ then UM.set_timestamp _ ?x else ?x) => assert (H : speaks x); [|by destruct (decide _)] end.
  apply speaks_some; [|by intros v (b & _ & ->)%fmap_Some; enc]. do 2 (apply speaks_some; [|by intros v (b & _ & ->)%fmap_Some; apply render_encoded]). done.
Qed.
Lemma user_speaks u m : user_ok u -> speaks m -> speaks (user_meta u m).
Proof.
  unfold user_ok, user_core. intros (H1 & H2 & H3 & _ & _ & _ & H8) Hm. unfold user_meta.
  apply speaks_if; [|enc]. apply speaks_if; [|enc]. do 4 (apply speaks_meta; [|enc]). by apply speaks_if.
Qed.
Lemma routing_speaks r m : speaks m -> speaks (routing_meta r m).
Proof.
  intros Hm. unfold routing_meta. apply speaks_meta; [apply speaks_meta; [done|]|].
  - enc. apply error_name_encoded.
  - repeat (destruct (decide _); [enc|]). enc.
Qed.
Lemma parsed_speaks {A} (P : A -> Prop) o k f m : yields P o -> (forall a, P a -> speaks (f a m)) -> speaks m -> yields speaks (parsed o k f m).
Proof. intros Ho Hf Hm. unfold parsed. destruct o; [by apply Hf|apply speaks_meta; [done|apply proto_error_encoded]|done]. Qed.
Lemma lossy_len l n : zlen (lossy l n) <= 3 * zlen (drop n l).
Proof.
  unfold zlen. revert n. induction l as [|b l IH]; intros n; [by destruct n|]. destruct n as [|n]; [|exact (IH n)]. cbn [lossy drop].
  destruct (utf8_chunk (b :: l)) as [n ok] eqn:E. specialize (IH (Nat.pred n)). rewrite length_app. pose proof (utf8_chunk_pos (b :: l)) as Hp. rewrite E in Hp. cbn [fst] in Hp.
  rewrite length_drop in IH. destruct ok.
  - apply utf8_chunk_char in E as [_ Hn]. rewrite length_take. cbn [length] in *. lia.
  - change (length REPLACEMENT) with 3%nat. cbn [length]. lia.
Qed.
Lemma map_content_speaks data m : data_ok data -> zlen (d_payload data) < 2 ^ 30 -> speaks m -> yields speaks (map_content data m).
Proof.
  intros Hd Hp Hm. assert (Hp2 : zlen (d_payload data) < 2 ^ 32) by (change (2 ^ 32) with 4294967296; change (2 ^ 30) with 1073741824 in Hp; lia).
  pose proof (data_meta_speaks data m Hd Hp2 Hm) as Hs. assert (Hb : bytes_ok (d_payload data)) by (destruct Hd as [(_ & ? & _) _]; done).
  unfold map_content. destruct (ports.is_text _); [|destruct (decide (d_portnum data = ports.POSITION_APP)); [|destruct (decide (d_portnum data = ports.NODEINFO_APP)); [|destruct (decide (d_portnum data = ports.ROUTING_APP));
    [|destruct (decide (d_portnum data = ports.TELEMETRY_APP)); [|destruct (decide (d_portnum data = ports.PRIVATE_APP))]]]]].
  - cbn [yields]. apply speaks_type. destruct (utf8_valid _); [done|]. apply speaks_meta; [|enc]. apply speaks_payload; [|done].
    pose proof (lossy_len (d_payload data) 0) as Hl. rewrite drop_0 in Hl. unfold from_utf8_lossy. change (2 ^ 32) with 4294967296; change (2 ^ 30) with 1073741824 in Hp. lia.
  - eapply yields_bind; [eapply parsed_speaks; [by apply position_decode_ok| |done]; intros; by apply position_speaks|]. intros x Hx. exact Hx.
  - eapply yields_bind; [eapply parsed_speaks; [by apply user_decode_ok| |done]; intros; by apply user_speaks|]. intros x Hx. exact Hx.
  - eapply yields_bind; [eapply parsed_speaks; [by apply routing_decode_ok| |done]; intros; by apply routing_speaks|]. intros x Hx. exact Hx.
  - exact Hs.
  - exact Hs.
  - exact Hs.
Qed.

(** ** The contract *)

Section Contract.
Context {C : CryptoLib} {F : ForeignCrypto} `{!CryptoLibLaws C} `{!ForeignCryptoLaws F}.

Definition decrypted_ok (B : Z) (d : Decrypted) : Prop :=
  match d with DePsk _ data | DePki data => data_ok data /\ zlen (d_payload data) <= B end.
Lemma known_keys ctx c : c ∈ known_channels ctx -> exists psk, ch_key c = expand_psk psk.
Proof. unfold known_channels. intros (k & -> & _)%list_elem_of_fmap. eexists. reflexivity. Qed.
Lemma decrypt_psk_wf h payload l :
  bytes_ok payload -> zlen payload <= 255 -> Forall (fun c => exists psk, ch_key c = expand_psk psk) l -> yields (decrypted_ok 255) (decrypt_psk h payload l).
Proof.
  intros Hb Hl. induction 1 as [|c l (psk & Hk) _ IH]; [exact I|]. cbn [decrypt_psk]. destruct (negb _); [done|]. rewrite Hk. unfold psk_crypt.
  destruct (aes_ctr_spec psk (mt_nonce (ph_from h) (ph_id h) 0) payload) as (e & -> & He & Hbe & _); [unfold MAX_BLOCKSIZE; lia|].
  pose proof (data_decode_ok e (Hbe Hb)) as Hd. destruct (PbData.decode e) as [data|err|]; [|done|by apply Hd; change (2 ^ 32) with 4294967296; lia].
  destruct (_ && _); [|done]. cbn in *. destruct Hd as [Hd Hdl]; [change (2 ^ 32) with 4294967296; lia|]. split; [done|lia].
Qed.
Lemma decrypt_pki_wf h payload sk pk : bytes_ok payload -> zlen payload <= 255 -> yields (decrypted_ok 255) (decrypt_pki h payload sk pk).
Proof.
  intros Hb Hl. unfold decrypt_pki, pki_session_key. destruct (negb _); [exact I|]. cbn [mbind outcome_bind].
  pose proof (pki_decrypt_wf (sha256 (x25519 sk pk)) (ph_from h) (ph_id h) payload Hb) as Hd. destruct (pki_decrypt _ _ _ _) as [plain|e|]; [|exact I|done]. destruct Hd as [Hpb Hpl].
  cbn [mbind outcome_bind]. pose proof (data_decode_ok plain Hpb) as Hdata. destruct (PbData.decode plain) as [data|e|]; [|exact I|by apply Hdata; change (2 ^ 32) with 4294967296; lia].
  cbn [mbind outcome_bind]. case_decide; [exact I|]. cbn in *. destruct Hdata as [Hdo Hdl]; [change (2 ^ 32) with 4294967296; lia|]. split; [done|lia].
Qed.
Lemma try_decrypt_wf h payload ctx : bytes_ok payload -> zlen payload <= 255 -> yields (decrypted_ok 255) (try_decrypt h payload ctx).
Proof.
  intros Hb Hl. unfold try_decrypt. case_decide; [exact I|]. destruct (pki_keys _ _ _) as [[sk pk]|]; [by apply decrypt_pki_wf|].
  apply decrypt_psk_wf; [done|done|]. apply Forall_forall. apply known_keys.
Qed.

Definition scored (s : DetectionScore) : Prop := ds_protocol s = Meshtastic /\ 0 <= ds_score s <= 100.
Lemma scored_add n why s : 0 <= n -> scored s -> scored (DetectionScore.add n why s).
Proof. intros Hn [? ?]. split; [done|by apply score_add]. Qed.
Lemma scored_note why s : scored s -> scored (note why s).
Proof. done. Qed.
Ltac scored := repeat first [assumption|apply scored_add; [lia|]|apply scored_note].
Lemma evidence_scored h payload ctx s : scored s ->
  let '(s, anchored) := channel_evidence h payload ctx s in let '(s, on_sync) := profile_evidence ctx s in scored (if anchored || on_sync then hop_evidence h s else s).
Proof.
  intros Hs. destruct (channel_evidence h payload ctx s) as [s1 a1] eqn:E1. assert (H1 : scored s1).
  { unfold channel_evidence in E1. destruct (hash_channel _ _); [simplify_eq; scored|]. destruct (stock_preset _); [simplify_eq; scored|]. destruct (pki_shape _ _); simplify_eq; scored. }
  destruct (profile_evidence ctx s1) as [s2 a2] eqn:E2. assert (H2 : scored s2).
  { unfold profile_evidence in E2. case_decide; [|by simplify_eq]. destruct (matching_preset _); simplify_eq; scored. }
  destruct (a1 || a2); [|done]. unfold hop_evidence.
  assert (H3 : forall x, scored x -> scored (if ph_want_ack h && PacketHeader.is_broadcast h then note (str "want_ack on a broadcast never happens on air") (if decide (ph_id h = 0) then note (str "id 0 (never flooded)") x else x) else (if decide (ph_id h = 0) then note (str "id 0 (never flooded)") x else x))).
  { intros x Hx. destruct (_ && _), (decide _); scored. }
  apply H3. repeat match goal with |- context [decide ?P] => destruct (decide P) end; scored.
Qed.
Lemma mt_detect_total a frame meta ctx : bytes_ok frame -> exists s, mt_detect a frame meta ctx = Ok s /\ ds_protocol s = Meshtastic /\ 0 <= ds_score s <= 100.
Proof.
  intros Hb. unfold mt_detect. case_decide; [eexists; split; [reflexivity|]; split; [done|apply score_reject]|]. case_decide; [eexists; split; [reflexivity|]; split; [done|apply score_reject]|].
  pose proof (header_parse_sound frame Hb) as Hp. destruct (PacketHeader.parse frame) as [[h payload]|e|]; [|eexists; split; [reflexivity|]; split; [done|apply score_reject]|done].
  destruct Hp as (_ & Hpb & _ & Hpl & _). cbn [fst snd] in *. set (s0 := if decide (ph_to h = BROADCAST_NO_LORA) then _ else _). assert (Hs0 : scored s0) by (unfold s0; case_decide; (split; [done|cbn; lia])).
  clearbody s0. pose proof (evidence_scored h payload ctx s0 Hs0) as He. destruct (channel_evidence h payload ctx s0) as [s1 a1]. destruct (profile_evidence ctx s1) as [s2 a2].
  set (s3 := if a1 || a2 then _ else _) in *. clearbody s3. pose proof (try_decrypt_wf h payload ctx Hpb) as Hd. unfold MAX_PAYLOAD_LEN, MAX_FRAME_LEN, HEADER_LEN in Hpl.
  destruct (try_decrypt h payload ctx) as [[ch data|data]|e|]; [| | |exfalso; apply Hd; lia].
  - eexists. split; [reflexivity|]. by apply scored_add.
  - eexists. split; [reflexivity|]. by apply scored_add.
  - destruct e; (eexists; split; [reflexivity|exact He]).
Qed.
Lemma header_result_wf {A} (P : A -> Prop) o : yields P o -> yields P (header_result o).
Proof. by destruct o. Qed.
Lemma decode_strict_wf frame meta ctx : bytes_ok frame -> yields speaks (decode_strict frame meta ctx).
Proof.
  intros Hb. unfold decode_strict. eapply yields_bind; [by apply header_result_wf, header_parse_sound|]. intros [h payload] (Hh & Hpb & _ & Hpl & _). cbn [fst snd] in *.
  unfold MAX_PAYLOAD_LEN, MAX_FRAME_LEN, HEADER_LEN in Hpl. eapply yields_bind; [apply try_decrypt_wf; [done|lia]|].
  assert (Hmap : forall data, data_ok data -> zlen (d_payload data) <= 255 -> yields speaks (map_content data (base_message h meta ctx))).
  { intros data Hd Hdl. apply map_content_speaks; [done|change (2 ^ 30) with 1073741824; lia|by apply base_speaks]. }
  intros [c data|data] [Hd Hdl]; (eapply yields_bind; [by apply Hmap|]); intros m Hm.
  - case_decide; exact Hm.
  - cbn [yields]. apply speaks_meta; [exact Hm|enc].
Qed.
Lemma decode_opaque_wf frame meta ctx : bytes_ok frame -> yields speaks (decode_opaque frame meta ctx).
Proof.
  intros Hb. unfold decode_opaque. eapply yields_bind; [by apply header_result_wf, header_parse_sound|]. intros [h payload] (Hh & Hpb & _ & Hpl & _). cbn [fst snd] in *.
  unfold MAX_PAYLOAD_LEN, MAX_FRAME_LEN, HEADER_LEN in Hpl. cbn [yields]. apply speaks_if; [|enc].
  set (m := UM.set_security _ _). assert (Hm : speaks m).
  { unfold m. apply (speaks_same (base_message h meta ctx)); [done..|cbn; change (2 ^ 32) with 4294967296; lia|by apply base_speaks]. }
  clearbody m. destruct (hash_channel h ctx); [exact Hm|]. destruct (stock_preset h) as [p|] eqn:Ep; [|done]. apply speaks_meta; [done|]. unfold stock_preset in Ep. by eapply preset_name_encoded.
Qed.
Lemma mt_decode_wf a frame meta ctx : bytes_ok frame -> yields speaks (mt_decode a frame meta ctx).
Proof.
  intros Hb. unfold mt_decode. pose proof (decode_strict_wf frame meta ctx Hb). destruct (decode_strict frame meta ctx) as [m|e|]; [done| |done]. destruct e; try exact I. by apply decode_opaque_wf.
Qed.

Lemma last_boundary_ok s e : is_char_boundary s (last_boundary s e) = true.
Proof. induction e as [|e IH]; [done|]. cbn [last_boundary]. destruct (is_char_boundary s (S e)) eqn:E; [done|exact IH]. Qed.
Lemma truncate_total {E} s n : exists t, truncate_utf8 (E := E) s n = Ok t.
Proof. unfold truncate_utf8. case_decide; [eauto|]. rewrite last_boundary_ok. eauto. Qed.
Lemma local_user_total ctx : exists u, local_user ctx = Ok u.
Proof.
  unfold local_user. destruct (cx_local ctx) as [l|]; [|eauto]. destruct (local_node ctx) as [n|]; [|eauto].
  match goal with |- context [truncate_utf8 ?s ?k] => destruct (truncate_total (E := AdapterError) s k) as [t ->] end. eauto.
Qed.
Lemma position_of_safe msg ctx : zlen (um_payload msg) < 2 ^ 32 -> yields (fun _ => True) (position_of msg ctx).
Proof.
  intros Hp. unfold position_of. pose proof (position_safe _ Hp) as Hs. cbv zeta.
  destruct (PbPosition.decode (um_payload msg)) as [p|e|]; [|by case_decide|done]. case_decide; [exact I|]. by case_decide.
Qed.
Lemma user_of_safe msg ctx : zlen (um_payload msg) < 2 ^ 32 -> yields (fun _ => True) (user_of msg ctx).
Proof.
  intros Hp. unfold user_of. pose proof (user_safe _ Hp) as Hs. destruct (local_user_total ctx) as [u ->]. cbn [mbind outcome_bind].
  destruct (PbUser.decode (um_payload msg)) as [p|e|]; [|by destruct u|done]. case_decide; [exact I|]. by destruct u.
Qed.
Lemma build_data_safe msg ctx : zlen (um_payload msg) < 2 ^ 32 -> yields (fun _ => True) (build_data msg ctx).
Proof.
  intros Hp. unfold build_data. destruct (um_content_type msg); try exact I.
  - by case_decide.
  - by case_decide.
  - eapply yields_bind; [by apply position_of_safe|]. by intros.
  - eapply yields_bind; [by apply user_of_safe|]. by intros.
  - unfold ack_data. match goal with |- context [ok_or ?o _] => destruct o end; exact I.
Qed.
Lemma resolve_channel_wf ctx name : yields (fun c => c ∈ known_channels ctx) (resolve_channel ctx name).
Proof.
  assert (Hh : yields (fun c => c ∈ known_channels ctx) (ok_or (head (known_channels ctx)) (MissingContext (str "channel")))).
  { destruct (known_channels ctx); [exact I|]. cbn. left. }
  unfold resolve_channel. destruct name as [n|]; [|done]. case_decide; [|done]. destruct (find_first _ _) as [c|] eqn:E; [|exact I]. by apply find_first_Some in E as [_ E].
Qed.
Lemma mt_body_wf msg ctx from to id data encoded : ctx_ok ctx -> yields (fun x => zlen x.1 + HEADER_LEN <= MAX_FRAME_LEN) (mt_body msg ctx from to id data encoded).
Proof.
  intros (_ & Hr & _). unfold mt_body, HEADER_LEN, PKC_OVERHEAD, MAX_FRAME_LEN. destruct (if _ && _ then _ else _) as [[sk pk]|].
  - case_decide as Hl; [exact I|]. unfold pki_session_key. destruct (negb _); [exact I|]. cbn [mbind outcome_bind]. rewrite slice_in by (unfold zlen; lia). cbn [mbind outcome_bind].
    match goal with |- context [pki_encrypt ?k _ _ ?x _] => destruct (pki_encrypt_spec k from id x encoded) as (ct & tag & -> & H1 & H2 & _) end; [unfold PKI_TRAILER_LEN, MAX_BLOCKSIZE; lia|].
    cbn. unfold zlen in *. rewrite !length_app, length_le_bytes. lia.
  - case_decide as Hl; [exact I|]. eapply yields_bind; [apply resolve_channel_wf|]. intros c (psk & Hk)%known_keys. unfold psk_crypt. rewrite Hk.
    destruct (aes_ctr_spec psk (mt_nonce from id 0) encoded) as (e & -> & He & _); [unfold MAX_BLOCKSIZE; lia|]. cbn. lia.
Qed.
Lemma mt_encode_wf a msg ctx : ctx_ok ctx -> zlen (um_payload msg) < 2 ^ 32 ->
  yields (fun f => of_protocol f = Meshtastic /\ of_profile f = cx_profile ctx /\ 1 <= zlen (of_bytes f) <= 255) (mt_encode a msg ctx).
Proof.
  intros Hc Hp. unfold mt_encode. destruct (local_node ctx) as [from|]; [|exact I]. cbn [ok_or mbind outcome_bind].
  eapply (yields_bind (fun _ => True)); [destruct (um_destination msg); try exact I; by case_decide|]. intros to _.
  eapply yields_bind; [by apply build_data_safe|]. intros data _. pose proof Hc as (_ & Hr & _). rewrite slice_in by (unfold zlen; lia). cbn [mbind outcome_bind]. cbv zeta.
  eapply yields_bind; [by apply mt_body_wf|]. intros [body ch] Hb. cbn [yields of_protocol of_profile of_bytes fst] in *. split; [done|]. split; [done|]. rewrite zlen_app, header_zlen.
  pose proof (zlen_nonneg body). unfold HEADER_LEN, MAX_FRAME_LEN in *. lia.
Qed.
Definition mt_ok (_ : MeshtasticAdapter) : Prop := True.
#[global] Instance mt_contract : AdapterContract MeshtasticAdapter mt_ok.
Proof.
  split.
  - intros a frame meta ctx _ Hf _. by apply mt_detect_total.
  - intros a frame meta ctx _ Hf _. pose proof (mt_decode_wf a frame meta ctx Hf) as H. cbn. by destruct (mt_decode a frame meta ctx).
  - intros a frame meta ctx m _ Hf _ Hm. pose proof (mt_decode_wf a frame meta ctx Hf) as H. cbn in Hm. by rewrite Hm in H.
  - intros a m ctx _ Hc (_ & _ & Hm) _. pose proof (mt_encode_wf a m ctx Hc Hm) as H. cbn. by destruct (mt_encode a m ctx).
  - intros a m ctx f _ Hc (_ & _ & Hm) _ Hf. pose proof (mt_encode_wf a m ctx Hc Hm) as H. cbn in Hf. by rewrite Hf in H.
  - intros a ctx _ Hc. cbn. unfold mt_periodic. case_decide; [by exists a, []|]. set (a1 := mkMtAdapter _ _). set (due := match ma_last_nodeinfo_ms a1 with Some _ => _ | None => _ end). destruct due; cbn [negb]; [|by exists a1, []].
    assert (Hb : yields (fun f => of_protocol f = Meshtastic /\ of_profile f = cx_profile ctx /\ 1 <= zlen (of_bytes f) <= 255) (build_nodeinfo a1 ctx)).
    { unfold build_nodeinfo. destruct (local_node ctx) as [me|]; [|exact I]. cbn [ok_or mbind outcome_bind]. by apply mt_encode_wf. }
    destruct (build_nodeinfo a1 ctx) as [f|e|]; [|by exists a1, []|done]. eexists _, _. split; [reflexivity|]. split; [done|]. split; [done|]. constructor; [|constructor]. destruct Hb as (? & _ & ?). done.
  - intros a _. cbn. unfold MAX_TEXT_BYTES, MAX_FRAME_LEN, HEADER_LEN. change (2 ^ 32) with 4294967296. lia.
Qed.
End Contract.
