(* ===== verification/MtText.v ===== *)
(** * A text crosses a Meshtastic channel

    What [encode] of [meshtastic/mod.rs] writes for a text message, on a channel
    or as a direct message, [decode] of a node with the same key reads as it was
    written, and detection scores it as decrypted. *)
From stdpp Require Import base tactics list numbers.
From Stdlib Require Import Lia Ascii String.
From S2P Require Import Prelude SmallMap Float32 Protocol CryptoLib ForeignCrypto Radio Text Strings Unified Proto MtWire MtAdapter MtFacts.
From stdpp Require Import list.
Import Text Strings mt_header UnifiedFacts ProtoFacts MtWireFacts.
#[local] Open Scope Z_scope.

Lemma parse_digits_nonneg radix : forall l acc n, 0 <= radix -> 0 <= acc -> parse_digits radix acc l = Some n -> 0 <= n.
Proof.
  induction l as [|b l IH]; intros acc n Hr Ha; cbn [parse_digits]; [by intros [= <-]|].
  destruct (digit_value radix b) as [d|] eqn:Hd; [|done]. intros H. apply IH in H; [done|done|].
  unfold digit_value, between in Hd. repeat case_match; simplify_eq; repeat match goal with H : bool_decide _ = true |- _ => apply bool_decide_eq_true in H end; simplify_option_eq; nia.
Qed.
Lemma parse_unsigned_range radix max s n : 0 <= radix -> parse_unsigned radix max s = Some n -> 0 <= n <= max.
Proof.
  intros Hr H. unfold parse_unsigned in H. cbv zeta in H. revert H. match goal with |- match ?d with _ => _ end = _ -> _ => generalize d end.
  intros [|b l]; [intros H; discriminate H|]. intros (m & Hm & H)%bind_Some. case_decide; simplify_eq. split; [|done]. exact (parse_digits_nonneg radix _ 0 _ Hr (Z.le_refl 0) Hm).
Qed.

(** ** What is built for a text *)

Definition quoted (msg : UnifiedMessage) : Z := default 0 (s ← um_reply_to msg; parse_hex_u32 s).
Lemma quoted_range msg : in_u 32 (quoted msg).
Proof.
  unfold quoted. destruct (s ← um_reply_to msg; parse_hex_u32 s) as [n|] eqn:E; [|done]. apply bind_Some in E as (s & _ & E). unfold parse_hex_u32 in E.
  case_decide; [done|]. apply parse_unsigned_range in E; [|done]. cbn. unfold in_u, U32_MAX in *. lia.
Qed.
(** The message of a text, and its framing: the port, the length of the payload and the bitfield. *)
Definition text_data (payload : list Z) (reply emoji : Z) : PbData :=
  PbData.set_emoji emoji (PbData.set_payload payload (PbData.set_portnum ports.TEXT_MESSAGE_APP (PbData.set_bitfield (Some 0) (PbData.set_reply_id reply PbData.default_value)))).
Lemma text_data_ok payload reply emoji : bytes_ok payload -> in_u 32 reply -> in_u 32 emoji -> data_ok (text_data payload reply emoji).
Proof. intros Hp Hr He. split; [|by intros b [= <-]]. unfold data_core. cbn. repeat (apply conj; [first [assumption|done]|]). done. Qed.
Lemma varint_small v : 0 <= v < 2 ^ 14 -> zlen (Writer.varint_bytes 9 v) <= 2.
Proof.
  intros Hv. cbn [Writer.varint_bytes]. case_decide as H1; [done|]. rewrite decide_True; [done|].
  rewrite Z.shiftr_shiftr, Z.shiftr_div_pow2 by lia. apply Z.div_small. exact Hv.
Qed.
(** A field that is written only when it is set. *)
Definition set_cost (v : Z) : Z := if decide (v <> 0) then 5 else 0.
Lemma fixed_cost f v : 1 <= f <= 15 -> zlen (enc_fields (when_field (bool_decide (v <> 0)) f (Fixed32 v))) = set_cost v.
Proof.
  intros Hf. unfold set_cost, when_field. destruct (decide (v <> 0)); [rewrite bool_decide_eq_true_2 by done|by rewrite bool_decide_eq_false_2 by done].
  rewrite enc_one. unfold enc_field. cbn [fst snd enc_value Value.wire_type]. rewrite zlen_app. unfold zlen at 2. rewrite length_le_bytes.
  assert (H : forallb (fun f => bool_decide (zlen (enc_key f WT_FIXED32) = 1)) (Z.of_nat <$> seq 1 15) = true) by (vm_compute; reflexivity). rewrite forallb_forall in H.
  specialize (H f). rewrite bool_decide_eq_true in H. rewrite H; [done|]. apply list_elem_of_In, list_elem_of_fmap. exists (Z.to_nat f). split; [lia|]. apply elem_of_seq. lia.
Qed.
Lemma text_data_size payload reply emoji :
  zlen payload <= DATA_PAYLOAD_LEN -> 0 < zlen (PbData.encode (text_data payload reply emoji)) <= zlen payload + 7 + set_cost reply + set_cost emoji.
Proof.
  intros Hl. rewrite data_encode. unfold data_fields. cbn [text_data PbData.set_emoji PbData.set_payload PbData.set_portnum PbData.set_bitfield PbData.set_reply_id PbData.default_value
    d_portnum d_payload d_want_response d_dest d_source d_request_id d_reply_id d_emoji d_bitfield d_xeddsa_signature].
  rewrite !enc_fields_app, !zlen_app.
  assert (Hp : zlen (enc_fields (when_field (bool_decide (payload <> [])) 2 (Len payload))) <= zlen payload + 3).
  { unfold when_field. destruct (bool_decide _); [|change (zlen (enc_fields [])) with 0; pose proof (zlen_nonneg payload); lia]. rewrite enc_one. unfold enc_field, enc_value. cbn [fst snd]. rewrite !zlen_app.
    pose proof (varint_small (zlen payload)) as Hv. pose proof (zlen_nonneg payload). unfold DATA_PAYLOAD_LEN in Hl. change (2 ^ 14) with 16384 in Hv.
    assert (Hk : zlen (enc_key 2 (Value.wire_type (Len payload))) = 1) by reflexivity. rewrite Hk. specialize (Hv ltac:(lia)). lia. }
  assert (H1 : zlen (enc_fields (when_field (bool_decide (ports.TEXT_MESSAGE_APP <> 0)) 1 (Varint ports.TEXT_MESSAGE_APP))) = 2) by reflexivity.
  assert (H2 : zlen (enc_fields (some_field (Some 0) 9 (fun v => Varint v))) = 2) by reflexivity.
  rewrite (fixed_cost 7 reply), (fixed_cost 8 emoji) by lia.
  set (p := zlen (enc_fields (when_field _ 2 _))) in *. assert (Hp0 : 0 <= p) by apply zlen_nonneg. clearbody p. rewrite H1, H2.
  assert (Hc : 0 <= set_cost reply /\ 0 <= set_cost emoji) by (unfold set_cost; split; [destruct (decide (reply <> 0))|destruct (decide (emoji <> 0))]; lia). set (cr := set_cost reply) in *. set (ce := set_cost emoji) in *. clearbody cr ce. repeat match goal with |- context [zlen (enc_fields ?l)] => change (zlen (enc_fields l)) with 0 end. lia.
Qed.
(** The reaction of a message, and what it costs to frame it. *)
Definition emoji_of (msg : UnifiedMessage) : Z := default 0 (s ← UnifiedMessage.meta msg (str "emoji"); parse_u32 s).
Definition text_framing (msg : UnifiedMessage) : Z := 7 + set_cost (quoted msg) + set_cost (emoji_of msg).
Lemma emoji_range msg : in_u 32 (emoji_of msg).
Proof.
  unfold emoji_of. destruct (s ← UnifiedMessage.meta msg (str "emoji"); parse_u32 s) as [x|] eqn:E; [|done]. apply bind_Some in E as (s & _ & E).
  apply parse_unsigned_range in E; [|done]. cbn. unfold in_u, U32_MAX in *. lia.
Qed.
(** ** What is read from it *)

(** Metadata leaves the rest of the message alone. *)
Record same_text (m m' : UnifiedMessage) : Prop := {
  st_source : um_source m' = um_source m;
  st_destination : um_destination m' = um_destination m;
  st_protocol : um_protocol m' = um_protocol m;
  st_id : um_message_id m' = um_message_id m;
  st_ack : um_wants_ack m' = um_wants_ack m
}.
#[local] Instance same_text_preorder : PreOrder same_text.
Proof. split; [by split|]. intros x y z [] []. by split; etrans. Qed.
Lemma meta_if_same c k v m : same_text m (meta_if c k v m) /\ um_reply_to (meta_if c k v m) = um_reply_to m.
Proof. by destruct c. Qed.
Lemma meta_some_same o k m : same_text m (meta_some o k m) /\ um_reply_to (meta_some o k m) = um_reply_to m.
Proof. by destruct o. Qed.
(** The identifier a quoted message is shown with. *)
Definition reply_of (reply : Z) : option (list Z) := if decide (reply <> 0) then Some (hex_u32 reply) else None.
Lemma data_meta_same d m : um_reply_to m = None -> same_text m (data_meta d m) /\ um_payload (data_meta d m) = d_payload d /\ um_reply_to (data_meta d m) = reply_of (d_reply_id d).
Proof.
  intros Hm. unfold data_meta.
  assert (Hset : forall x, same_text m x -> um_reply_to x = None ->
    let y := UM.set_payload (d_payload d) (if decide (d_reply_id d <> 0) then UM.set_reply_to (Some (hex_u32 (d_reply_id d))) x else x) in
    same_text m y /\ um_payload y = d_payload d /\ um_reply_to y = reply_of (d_reply_id d)).
  { intros x Hx Hn. unfold reply_of. destruct (decide (d_reply_id d <> 0)); (split; [etrans; [exact Hx|by split]|by split]). }
  apply Hset.
  - repeat first [reflexivity|etrans; [|apply meta_if_same]|etrans; [|apply meta_some_same]]; by split.
  - by rewrite ?(proj2 (meta_if_same _ _ _ _)), ?(proj2 (meta_some_same _ _ _)), ?(proj2 (meta_if_same _ _ _ _)), ?(proj2 (meta_some_same _ _ _)).
Qed.
Lemma text_content d m :
  d_portnum d = ports.TEXT_MESSAGE_APP -> utf8_valid (d_payload d) = true -> um_reply_to m = None ->
  exists m', map_content d m = Ok m' /\ same_text m m' /\ um_content_type m' = Text /\ um_payload m' = d_payload d /\ um_reply_to m' = reply_of (d_reply_id d).
Proof.
  intros Hp Hu Hm. unfold map_content. rewrite Hp. cbn [ports.is_text]. rewrite Hu. eexists. split; [reflexivity|].
  destruct (data_meta_same d m Hm) as (H1 & H2 & H3). split; [etrans; [exact H1|by split]|]. by split.
Qed.
Lemma base_same h meta ctx :
  let m := base_message h meta ctx in
  um_source m = IdMeshtastic (ph_from h) /\ um_destination m = (if PacketHeader.is_broadcast h then IdBroadcast Meshtastic else IdMeshtastic (ph_to h)) /\
  um_protocol m = Meshtastic /\ um_message_id m = hex_u32 (ph_id h) /\ um_wants_ack m = ph_want_ack h /\ um_reply_to m = None.
Proof. unfold base_message. by destruct (ph_via_mqtt h), (bool_decide (ph_next_hop h <> 0)). Qed.

Section Delivery.
Context {C : CryptoLib} {F : ForeignCrypto} `{!CryptoLibLaws C} `{!ForeignCryptoLaws F}.

(** Evidence only raises the score. *)
Definition at_least (n : Z) (s : DetectionScore) : Prop := n <= ds_score s <= 100.
Lemma at_least_add n k why s : 0 <= k -> 0 <= n -> at_least n s -> at_least (Z.min (n + k) 100) (DetectionScore.add k why s).
Proof. unfold at_least. cbn. unfold sat_add. change (2 ^ 8) with 256. lia. Qed.
Lemma at_least_keep n k why s : 0 <= k -> 0 <= n -> at_least n s -> at_least n (DetectionScore.add k why s).
Proof. unfold at_least. cbn. unfold sat_add. change (2 ^ 8) with 256. lia. Qed.
Lemma evidence_kept h ctx s n : 0 <= n -> at_least n s -> at_least n (profile_evidence ctx s).1 /\ at_least n (hop_evidence h s).
Proof.
  intros Hn Hs. split.
  - unfold profile_evidence. case_decide; [|done]. destruct (matching_preset _); cbn [fst]; repeat apply at_least_keep; try lia; done.
  - unfold hop_evidence. assert (Hend : forall x, at_least n x -> at_least n (if ph_want_ack h && PacketHeader.is_broadcast h then note (str "want_ack on a broadcast never happens on air") (if decide (ph_id h = 0) then note (str "id 0 (never flooded)") x else x) else (if decide (ph_id h = 0) then note (str "id 0 (never flooded)") x else x))).
    { intros x Hx. by destruct (_ && _), (decide _). }
    apply Hend. repeat match goal with |- context [decide ?P] => destruct (decide P) end; repeat apply at_least_keep; try lia; done.
Qed.

(** A frame whose payload decrypts to a text is delivered as that text. *)
Definition delivered (from to id : Z) (ack : bool) (d : PbData) (m : UnifiedMessage) : Prop :=
  um_source m = IdMeshtastic from /\ um_destination m = (if is_broadcast_num to then IdBroadcast Meshtastic else IdMeshtastic to) /\ um_protocol m = Meshtastic /\
  um_message_id m = hex_u32 id /\ um_wants_ack m = ack /\ um_content_type m = Text /\ um_payload m = d_payload d /\ um_reply_to m = reply_of (d_reply_id d).
Lemma frame_delivered a frame h body meta rx dd d :
  PacketHeader.parse frame = Ok (h, body) -> try_decrypt h body rx = Ok dd -> (dd = DePki d \/ exists c, dd = DePsk c d) ->
  d_portnum d = ports.TEXT_MESSAGE_APP -> utf8_valid (d_payload d) = true ->
  exists m, mt_decode a frame meta rx = Ok m /\ delivered (ph_from h) (ph_to h) (ph_id h) (ph_want_ack h) d m /\
    match dd with
    | DePsk c _ => um_channel m = Some (ch_name c) /\ um_encrypted m = bool_decide (ch_key c <> []) /\
                   um_security m = if decide (ch_key c = []) then Plaintext else ForeignSharedKey Meshtastic (ch_name c)
    | DePki _ => um_channel m = None /\ um_encrypted m = true /\ um_security m = ForeignDirect Meshtastic true
    end.
Proof.
  intros Hh Hd Hdd Hp Hu. destruct (base_same h meta rx) as (B1 & B2 & B3 & B4 & B5 & B6).
  destruct (text_content d (base_message h meta rx) Hp Hu B6) as (m & Hm & [S1 S2 S3 S4 S5] & T1 & T2 & T3).
  assert (Hdel : delivered (ph_from h) (ph_to h) (ph_id h) (ph_want_ack h) d m) by (unfold delivered; rewrite S1, S2, S3, S4, S5; done).
  unfold mt_decode, decode_strict. rewrite Hh. cbn [header_result mbind outcome_bind]. rewrite Hd. cbn [mbind outcome_bind].
  destruct Hdd as [->|[c ->]]; rewrite Hm; cbn [mbind outcome_bind].
  - eexists. split; [reflexivity|]. split; [exact Hdel|done].
  - case_decide as Hk; (eexists; split; [reflexivity|]; split; [exact Hdel|]); cbn; [by rewrite bool_decide_eq_false_2 by (intros E; by apply E)|by rewrite bool_decide_eq_true_2].
Qed.
Lemma frame_detected a frame h body meta rx d :
  PacketHeader.parse frame = Ok (h, body) -> HEADER_LEN <= zlen frame <= MAX_FRAME_LEN -> try_decrypt h body rx = Ok d -> is_Some (hash_channel h rx) \/ pki_shape h body = true ->
  exists s, mt_detect a frame meta rx = Ok s /\ ds_protocol s = Meshtastic /\ 65 <= ds_score s <= 100.
Proof.
  intros Hh Hb Hd Hanchor. unfold mt_detect. rewrite decide_False by lia. rewrite decide_False by lia.
  rewrite Hh. set (s0 := if decide (ph_to h = BROADCAST_NO_LORA) then _ else _).
  assert (Hs0 : ds_score s0 = 0 /\ ds_protocol s0 = Meshtastic) by (unfold s0; by case_decide). clearbody s0. destruct Hs0 as [Hz Hpr].
  destruct (channel_evidence h body rx s0) as [s1 a1] eqn:E1. assert (H1 : at_least 15 s1 /\ ds_protocol s1 = Meshtastic).
  { unfold channel_evidence in E1. assert (Hk : forall k why, 15 <= k <= 25 -> at_least 15 (DetectionScore.add k why s0) /\ ds_protocol (DetectionScore.add k why s0) = Meshtastic)
      by (intros k why Hk; split; [unfold at_least; cbn; rewrite Hz; unfold sat_add; change (2 ^ 8) with 256; lia|done]).
    destruct (hash_channel h rx); [simplify_eq; by apply Hk|]. destruct (stock_preset h); [simplify_eq; by apply Hk|]. destruct (pki_shape h body); [simplify_eq; by apply Hk|]. by destruct Hanchor as [[]|]. }
  destruct (evidence_kept h rx s1 15) as [H2 _]; [lia|apply H1|]. assert (Hp2 : ds_protocol (profile_evidence rx s1).1 = Meshtastic).
  { unfold profile_evidence. destruct (decide _); [|apply H1]. destruct (matching_preset _); apply H1. }
  destruct (profile_evidence rx s1) as [s2 a2]. cbn [fst] in *. set (s3 := if a1 || a2 then _ else _).
  assert (H3 : at_least 15 s3) by (unfold s3; destruct (a1 || a2); [by apply evidence_kept|done]).
  assert (Hp3 : ds_protocol s3 = Meshtastic).
  { unfold s3. destruct (a1 || a2); [|done]. unfold hop_evidence. by repeat match goal with |- context [if ?b then _ else _] => destruct b end. }
  clearbody s3. rewrite Hd. destruct d; (eexists; split; [reflexivity|]; split; [exact Hp3|]);
    (match goal with |- context [DetectionScore.add 50 ?w s3] => exact (at_least_add 15 50 w s3 ltac:(lia) ltac:(lia) H3) end).
Qed.

(** What is built and sent. *)
Lemma build_text msg ctx :
  um_content_type msg = Text -> zlen (um_payload msg) <= DATA_PAYLOAD_LEN -> build_data msg ctx = Ok (text_data (um_payload msg) (quoted msg) (emoji_of msg)).
Proof.
  intros Ht Hl. unfold build_data, emoji_of, quoted. rewrite Ht. rewrite decide_False by lia. by destruct (s ← UnifiedMessage.meta msg (str "emoji"); parse_u32 s).
Qed.
(** The frame of a text: its header and its encrypted body. *)
Definition text_header (msg : UnifiedMessage) (from to id channel : Z) : PacketHeader :=
  let hop_limit := Z.min (default HOP_RELIABLE (s ← UnifiedMessage.meta msg (str "hop_limit"); parse_unsigned 10 255 s)) HOP_MAX in
  mkPacketHeader to from id hop_limit (um_wants_ack msg && negb (is_broadcast_num to)) false hop_limit channel 0 (last_byte_of_node_num from).
Definition packet_id (ctx : ProtocolContext) : Z := let id := from_le (take 4 (cx_random ctx)) in if decide (id = 0) then 1 else id.
Lemma local_node_ok ctx n : ctx_ok ctx -> local_node ctx = Some n -> in_u 32 n /\ n <> 0 /\ n <> BROADCAST.
Proof.
  intros (_ & _ & _ & _ & Hl & _) H. unfold local_node in H. destruct (cx_local ctx) as [l|]; [|done]. cbn in H. destruct Hl as (_ & _ & Hi).
  destruct (li_id l); try done. destruct (decide _) as [Hd|]; [|done]. injection H as ->. split; [exact Hi|done].
Qed.
Lemma last_byte_ok n : byte_ok (last_byte_of_node_num n).
Proof. unfold last_byte_of_node_num. case_decide; [done|]. apply (Z.mod_pos_bound _ 256). lia. Qed.
Lemma packet_id_ok ctx : ctx_ok ctx -> in_u 32 (packet_id ctx).
Proof.
  intros (_ & Hl & Hb & _). unfold packet_id. cbv zeta. destruct (decide (from_le (take 4 (cx_random ctx)) = 0)); [done|]. assert (Ht : length (take 4 (cx_random ctx)) = 4%nat) by (rewrite length_take; lia).
  pose proof (from_le_range (take 4 (cx_random ctx)) ltac:(by apply Forall_take)) as H. unfold zlen in H. rewrite Ht in H. exact H.
Qed.
Lemma text_header_sent msg from to id channel :
  in_u 32 from -> from <> 0 -> from <> BROADCAST -> in_u 32 to -> to <> 0 -> in_u 32 id -> byte_ok channel -> header_sent (text_header msg from to id channel).
Proof.
  intros Hf Hf0 Hfb Ht Ht0 Hi Hc. unfold header_sent, text_header. cbn [ph_to ph_from ph_id ph_hop_limit ph_hop_start ph_channel ph_next_hop ph_relay_node].
  set (hl := Z.min _ _). assert (Hhl : 0 <= hl <= 7).
  { unfold hl, HOP_MAX, HOP_RELIABLE. destruct (s ← UnifiedMessage.meta msg (str "hop_limit"); parse_unsigned 10 255 s) as [n|] eqn:E; cbn; [|lia].
    apply bind_Some in E as (s & _ & E). apply parse_unsigned_range in E; lia. }
  clearbody hl. pose proof (last_byte_ok from). repeat (apply conj; [first [assumption|done|lia]|]). lia.
Qed.
Lemma text_encoded a msg ctx from to :
  ctx_ok ctx -> local_node ctx = Some from -> um_content_type msg = Text -> zlen (um_payload msg) <= DATA_PAYLOAD_LEN ->
  (exists p, um_destination msg = IdBroadcast p /\ to = BROADCAST) \/ (um_destination msg = IdMeshtastic to /\ to <> 0) ->
  mt_encode a msg ctx = let data := text_data (um_payload msg) (quoted msg) (emoji_of msg) in
    '(body, channel) ← mt_body msg ctx from to (packet_id ctx) data (PbData.encode data);
    Ok (mkFrame Meshtastic (PacketHeader.encode (text_header msg from to (packet_id ctx) channel) ++ body) (cx_profile ctx)).
Proof.
  intros (_ & Hr & _) Hn Ht Hl Hd. unfold mt_encode. rewrite Hn. cbn [ok_or mbind outcome_bind].
  assert (Hto : (match um_destination msg with IdBroadcast _ => Ok BROADCAST | IdMeshtastic n => if decide (n <> 0) then Ok n else Err (Unsupported (str "destination " ++ IdentityRef.canonical (IdMeshtastic n)))
                 | other => Err (Unsupported (str "destination " ++ IdentityRef.canonical other)) end) = Ok to).
  { destruct Hd as [(p & -> & ->)|[-> H0]]; [done|]. by rewrite decide_True by done. }
  rewrite Hto. cbn [mbind outcome_bind]. rewrite build_text by done. cbn [mbind outcome_bind]. rewrite slice_in by (unfold zlen; lia). cbn [mbind outcome_bind].
  change (take (Z.to_nat (4 - 0)) (drop (Z.to_nat 0) (cx_random ctx))) with (take 4 (cx_random ctx)). reflexivity.
Qed.
Lemma heard_fields h : ph_to (heard h) = ph_to h /\ ph_from (heard h) = ph_from h /\ ph_id (heard h) = ph_id h /\ ph_want_ack (heard h) = ph_want_ack h /\ ph_channel (heard h) = ph_channel h.
Proof. unfold heard. by case_decide. Qed.

(** Both ends of a text: it is encoded, and the receiver delivers it with the
    security [sec] says and a detection score of a frame that was decrypted. *)
Definition text_arrives (a b : MeshtasticAdapter) (msg : UnifiedMessage) (tx rx : ProtocolContext) (meta : RxMeta) (from to : Z) (channel : option (list Z)) (encrypted : bool) (sec : SecurityLevel) : Prop :=
  exists f m s, mt_encode a msg tx = Ok f /\ 1 <= zlen (of_bytes f) <= MAX_FRAME_LEN /\
    mt_decode b (of_bytes f) meta rx = Ok m /\ mt_detect b (of_bytes f) meta rx = Ok s /\ 65 <= ds_score s <= 100 /\
    um_source m = IdMeshtastic from /\ um_destination m = (if is_broadcast_num to then IdBroadcast Meshtastic else IdMeshtastic to) /\ um_protocol m = Meshtastic /\
    um_message_id m = hex_u32 (packet_id tx) /\ um_wants_ack m = um_wants_ack msg && negb (is_broadcast_num to) /\
    um_content_type m = Text /\ um_payload m = um_payload msg /\ um_reply_to m = reply_of (quoted msg) /\
    um_channel m = channel /\ um_encrypted m = encrypted /\ um_security m = sec.

Lemma text_size msg : zlen (um_payload msg) + text_framing msg + HEADER_LEN <= MAX_FRAME_LEN -> zlen (um_payload msg) <= DATA_PAYLOAD_LEN /\
  let data := text_data (um_payload msg) (quoted msg) (emoji_of msg) in 0 < zlen (PbData.encode data) <= zlen (um_payload msg) + text_framing msg.
Proof.
  intros Hl. unfold text_framing, HEADER_LEN, MAX_FRAME_LEN, DATA_PAYLOAD_LEN in *. assert (Hc : 0 <= set_cost (quoted msg) /\ 0 <= set_cost (emoji_of msg)).
  { unfold set_cost. split; [destruct (decide (quoted msg <> 0))|destruct (decide (emoji_of msg <> 0))]; lia. }
  split; [lia|]. pose proof (text_data_size (um_payload msg) (quoted msg) (emoji_of msg)) as H. unfold DATA_PAYLOAD_LEN in H. cbv zeta. specialize (H ltac:(lia)). lia.
Qed.

(** A text whose body the receiver decrypts arrives. *)
Definition seen_channel (d : Decrypted) : option (list Z) := match d with DePsk c _ => Some (ch_name c) | DePki _ => None end.
Definition seen_encrypted (d : Decrypted) : bool := match d with DePsk c _ => bool_decide (ch_key c <> []) | DePki _ => true end.
Definition seen_security (d : Decrypted) : SecurityLevel :=
  match d with DePsk c _ => if decide (ch_key c = []) then Plaintext else ForeignSharedKey Meshtastic (ch_name c) | DePki _ => ForeignDirect Meshtastic true end.
Lemma body_arrives a b msg tx rx meta from to body channel dd :
  let data := text_data (um_payload msg) (quoted msg) (emoji_of msg) in
  let h := heard (text_header msg from to (packet_id tx) channel) in
  ctx_ok tx -> local_node tx = Some from -> um_content_type msg = Text -> zlen (um_payload msg) <= DATA_PAYLOAD_LEN -> utf8_valid (um_payload msg) = true ->
  (exists p, um_destination msg = IdBroadcast p /\ to = BROADCAST) \/ (um_destination msg = IdMeshtastic to /\ to <> 0) -> in_u 32 to ->
  mt_body msg tx from to (packet_id tx) data (PbData.encode data) = Ok (body, channel) -> byte_ok channel -> zlen body <= MAX_PAYLOAD_LEN ->
  try_decrypt h body rx = Ok dd -> dd = DePki data \/ (exists c, dd = DePsk c data) -> is_Some (hash_channel h rx) \/ pki_shape h body = true ->
  text_arrives a b msg tx rx meta from to (seen_channel dd) (seen_encrypted dd) (seen_security dd).
Proof.
  intros d h Hc Hn Ht Hpl Hu Hd Hto Hbody Hch Hbl Hdec Hdd Hanchor. destruct (local_node_ok tx from Hc Hn) as (Hf1 & Hf2 & Hf3).
  pose proof (text_encoded a msg tx from to Hc Hn Ht Hpl Hd) as Henc. cbv zeta in Henc. fold d in Henc. rewrite Hbody in Henc. cbn [mbind outcome_bind] in Henc.
  assert (Hto0 : to <> 0) by (destruct Hd as [(p & _ & ->)|[_ H0]]; [discriminate|done]).
  assert (Hparse : PacketHeader.parse (PacketHeader.encode (text_header msg from to (packet_id tx) channel) ++ body) = Ok (h, body))
    by (apply header_read; [apply text_header_sent; [done..|by apply packet_id_ok|done]|done]).
  destruct (heard_fields (text_header msg from to (packet_id tx) channel)) as (E1 & E2 & E3 & E4 & _). fold h in E1, E2, E3, E4. cbn in E1, E2, E3, E4.
  set (bytes := PacketHeader.encode _ ++ body) in *. assert (Hfl : HEADER_LEN <= zlen bytes <= MAX_FRAME_LEN).
  { unfold bytes. rewrite zlen_app, header_zlen. pose proof (zlen_nonneg body). unfold MAX_PAYLOAD_LEN, HEADER_LEN, MAX_FRAME_LEN in *. lia. }
  destruct (frame_delivered b bytes h body meta rx dd d Hparse Hdec Hdd eq_refl Hu) as (m & Hm & (D1 & D2 & D3 & D4 & D5 & D6 & D7 & D8) & Hsec).
  destruct (frame_detected b bytes h body meta rx dd Hparse Hfl Hdec Hanchor) as (sc & Hs1 & _ & Hs2).
  rewrite E1 in D2. rewrite E2 in D1. rewrite E3 in D4. rewrite E4 in D5.
  exists (mkFrame Meshtastic bytes (cx_profile tx)), m, sc. split; [exact Henc|]. split; [unfold HEADER_LEN in Hfl; cbn; lia|]. do 3 (split; [done|]).
  repeat (apply conj; [first [exact D1|exact D2|exact D3|exact D4|exact D5|exact D6|exact D7|exact D8]|]). by destruct Hdd as [->|[c ->]].
Qed.

(** C16. A text that fits a frame, broadcast on a channel, is encoded, and a node
    whose first channel with that hash is the same one decodes it as it was
    written: its sender, its text, the message it answers, the channel and its
    security; detection gives the frame the score of one that decrypts. *)
Theorem meshtastic_channel_text a b msg tx rx meta from c p :
  ctx_ok tx -> local_node tx = Some from -> um_content_type msg = Text -> um_destination msg = IdBroadcast p ->
  bytes_ok (um_payload msg) -> utf8_valid (um_payload msg) = true -> zlen (um_payload msg) + text_framing msg + HEADER_LEN <= MAX_FRAME_LEN ->
  resolve_channel tx (um_channel msg) = Ok c -> byte_ok (ch_hash c) -> find_first (fun d => bool_decide (ch_hash d = ch_hash c)) (known_channels rx) = Some c ->
  text_arrives a b msg tx rx meta from BROADCAST (Some (ch_name c)) (bool_decide (ch_key c <> []))
    (if decide (ch_key c = []) then Plaintext else ForeignSharedKey Meshtastic (ch_name c)).
Proof.
  intros Hc Hn Ht Hd Hb Hu Hl Hr Hch Hf. destruct (text_size msg Hl) as [Hpl Hsz]. cbv zeta in Hsz. set (d := text_data (um_payload msg) (quoted msg) (emoji_of msg)) in *.
  destruct (known_keys rx c) as [psk Hpsk]; [by apply find_first_Some in Hf as [_ ?]|].
  destruct (aes_ctr_spec psk (mt_nonce from (packet_id tx) 0) (PbData.encode d)) as (e & He & Hel & _ & Hei); [unfold MAX_BLOCKSIZE, HEADER_LEN, MAX_FRAME_LEN in *; lia|].
  destruct (heard_fields (text_header msg from BROADCAST (packet_id tx) (ch_hash c))) as (E1 & E2 & E3 & _ & E5). cbn in E1, E2, E3, E5.
  apply (body_arrives a b msg tx rx meta from BROADCAST e (ch_hash c) (DePsk c d)); [done..|by left; eauto|done| |done| | |by right; eauto|].
  - fold d. unfold mt_body. cbn [is_broadcast_num negb andb]. rewrite decide_False by lia. rewrite Hr. cbn [mbind outcome_bind]. unfold psk_crypt. by rewrite Hpsk, He.
  - unfold MAX_PAYLOAD_LEN. lia.
  - unfold try_decrypt. rewrite decide_False by (intros E; rewrite E in Hel; change (zlen []) with 0 in Hel; lia). unfold pki_keys, PacketHeader.is_broadcast. rewrite E1. rewrite decide_False by (intros (_ & Hx & _); discriminate Hx).
    revert Hf. generalize (known_channels rx). induction l as [|k l IH]; [done|]. cbn [find_first decrypt_psk]. rewrite E5, E2, E3.
    destruct (bool_decide (ch_hash k = ch_hash c)) eqn:Ek; cbn [negb]; [|exact IH]. intros [= ->]. unfold psk_crypt. rewrite Hpsk, Hei.
    rewrite data_roundtrip; [reflexivity| |change (2 ^ 32) with 4294967296; unfold HEADER_LEN, MAX_FRAME_LEN in *; lia]. apply text_data_ok; [done|apply quoted_range|apply emoji_range].
  - left. unfold hash_channel. rewrite E5, Hf. eauto.
Qed.
(** C17. A direct text between two nodes that know each other's public key is
    encrypted for the receiver, and the receiver delivers it as it was written,
    authenticated as the sender's. *)
Theorem meshtastic_direct_text a b msg tx rx meta from to sk rk :
  ctx_ok tx -> ctx_ok rx -> local_node tx = Some from -> local_node rx = Some to -> is_broadcast_num to = false ->
  um_content_type msg = Text -> um_destination msg = IdMeshtastic to ->
  bytes_ok (um_payload msg) -> utf8_valid (um_payload msg) = true -> zlen (um_payload msg) + text_framing msg + HEADER_LEN + PKC_OVERHEAD <= MAX_FRAME_LEN ->
  local_secret tx = Some sk -> local_secret rx = Some rk -> peer_public tx to = Some (x25519_public rk) -> peer_public rx from = Some (x25519_public sk) ->
  was_contributory (x25519 sk (x25519_public rk)) = true ->
  text_arrives a b msg tx rx meta from to None true (ForeignDirect Meshtastic true).
Proof.
  intros Hc Hcr Hn Hnr Hto Ht Hd Hb Hu Hl Hsk Hrk Hpk Hpkr Hdh. destruct (text_size msg) as [Hpl Hsz]; [unfold PKC_OVERHEAD in *; lia|]. cbv zeta in Hsz. set (d := text_data (um_payload msg) (quoted msg) (emoji_of msg)) in *.
  destruct (local_node_ok rx to Hcr Hnr) as (Ht1 & Ht2 & _). set (id := packet_id tx). set (r := from_le (take 4 (drop 4 (cx_random tx)))). pose proof Hc as (_ & Hr1 & Hr2 & _).
  assert (Hr : in_u 32 r).
  { assert (Hrl : length (take 4 (drop 4 (cx_random tx))) = 4%nat) by (rewrite length_take, length_drop; lia).
    pose proof (from_le_range (take 4 (drop 4 (cx_random tx))) ltac:(by apply Forall_take, Forall_drop)) as Hx. unfold zlen in Hx. rewrite Hrl in Hx. exact Hx. }
  destruct (pki_encrypt_spec (sha256 (x25519 sk (x25519_public rk))) from id r (PbData.encode d)) as (ct & tag & He & Hlc & Hlt & _ & Hdec); [unfold PKI_TRAILER_LEN, MAX_BLOCKSIZE, PKC_OVERHEAD, HEADER_LEN, MAX_FRAME_LEN in *; lia|].
  specialize (Hdec Hr (proj1 Hsz)). set (body := ct ++ tag ++ le_bytes 4 r) in *. assert (Hbl : zlen body = zlen (PbData.encode d) + 12) by (unfold body, zlen in *; rewrite !length_app, length_le_bytes; lia).
  destruct (heard_fields (text_header msg from to id 0)) as (E1 & E2 & E3 & _ & E5). cbn in E1, E2, E3, E5.
  assert (Hshape : pki_shape (heard (text_header msg from to id 0)) body = true).
  { unfold pki_shape, PacketHeader.is_broadcast. rewrite E5, E1, Hto. unfold PKC_OVERHEAD. cbn [negb]. rewrite andb_true_r, andb_true_l by done. apply bool_decide_eq_true. lia. }
  apply (body_arrives a b msg tx rx meta from to body 0 (DePki d)); [done..|by right|done| |done| | |by left|by right].
  - fold d id. unfold mt_body. rewrite Hto. cbn [negb andb]. change (pki_eligible_port (d_portnum d)) with true. cbn match. rewrite Hsk, Hpk. cbn [mbind option_bind]. rewrite decide_False by lia.
    unfold pki_session_key. rewrite Hdh. cbn [negb mbind outcome_bind]. rewrite slice_in by (unfold zlen; lia). cbn [mbind outcome_bind]. change (take (Z.to_nat (8 - 4)) (drop (Z.to_nat 4) (cx_random tx))) with (take 4 (drop 4 (cx_random tx))). fold r. by rewrite He.
  - unfold MAX_PAYLOAD_LEN, PKC_OVERHEAD in *. lia.
  - unfold try_decrypt. rewrite decide_False by (intros E; rewrite E in Hbl; change (zlen []) with 0 in Hbl; lia). fold id. unfold pki_keys, PacketHeader.is_broadcast. rewrite E1, E5, E2. rewrite decide_True by (unfold PKC_OVERHEAD; split; [done|split; [done|lia]]).
    rewrite Hnr, Hrk, Hpkr. cbn [mbind option_bind]. rewrite decide_True by done. unfold decrypt_pki, pki_session_key. rewrite (x25519_comm rk sk), Hdh. cbn [negb mbind outcome_bind].
    rewrite E2, E3, Hdec. cbn [mbind outcome_bind]. rewrite data_roundtrip; [reflexivity| |change (2 ^ 32) with 4294967296; unfold HEADER_LEN, MAX_FRAME_LEN, PKC_OVERHEAD in *; lia]. apply text_data_ok; [done|apply quoted_range|apply emoji_range].
Qed.
End Delivery.

(** ** Two nodes on the stock channel *)

Module MtExamples.
Import ToyCrypto ToyForeign.
Definition profile : LoRaProfile := default LoRaProfile.MESHSTAR_EU868 (preset (str "LongFast") Eu868).
Definition alice_secret : list Z := replicate 31 0 ++ [3].
Definition bob_secret : list Z := replicate 31 0 ++ [5].
Definition node (id : Z) (secret : list Z) (peer : Z) (peer_secret : list Z) : ProtocolContext :=
  mkCtx 1000 1700000000 profile (Some (mkLocal Meshtastic (IdMeshtastic id) (str "Node") (str "N") secret)) [] [(IdMeshtastic peer, x25519_public peer_secret)] (be_bytes 32 77).
Definition alice : ProtocolContext := node 0x11223344 alice_secret 0x55667788 bob_secret.
Definition bob : ProtocolContext := node 0x55667788 bob_secret 0x11223344 alice_secret.
Definition hello (to : IdentityRef) : UnifiedMessage := UnifiedMessage.text (IdMeshtastic 0x11223344) to Meshtastic (str "hello mesh").
Definition heard_at : RxMeta := RxMeta_new (-70) (f32_of 5) 1000.
Definition stock : ResolvedChannel := resolve_key alice default_channel_key.
Lemma node_ok id s peer ps : in_u 32 id -> ctx_ok (node id s peer ps).
Proof.
  intros Hi. split; [vm_compute; repeat split; discriminate|]. split; [done|]. split; [apply be_bytes_ok|]. split; [done|].
  split; [split; [apply utf8_valid_iff; reflexivity|]; split; [apply utf8_valid_iff; reflexivity|done]|]. constructor; [apply be_bytes_ok|constructor].
Qed.
Lemma meshtastic_channel_text_witness :
  text_arrives MeshtasticAdapter_new MeshtasticAdapter_new (hello (IdBroadcast Meshtastic)) alice bob heard_at 0x11223344 BROADCAST (Some (str "LongFast")) true (ForeignSharedKey Meshtastic (str "LongFast")).
Proof.
  apply (meshtastic_channel_text MeshtasticAdapter_new MeshtasticAdapter_new (hello (IdBroadcast Meshtastic)) alice bob heard_at 0x11223344 stock Meshtastic);
    [by apply node_ok|reflexivity|reflexivity|reflexivity|vm_compute; repeat constructor; discriminate|reflexivity|vm_compute; discriminate|reflexivity|vm_compute; split; [discriminate|reflexivity]|reflexivity].
Defined.
Lemma meshtastic_direct_text_witness :
  text_arrives MeshtasticAdapter_new MeshtasticAdapter_new (hello (IdMeshtastic 0x55667788)) alice bob heard_at 0x11223344 0x55667788 None true (ForeignDirect Meshtastic true).
Proof.
  apply (meshtastic_direct_text MeshtasticAdapter_new MeshtasticAdapter_new (hello (IdMeshtastic 0x55667788)) alice bob heard_at 0x11223344 0x55667788 alice_secret bob_secret);
    [by apply node_ok|by apply node_ok|reflexivity|reflexivity|reflexivity|reflexivity|reflexivity|vm_compute; repeat constructor; discriminate|reflexivity|vm_compute; discriminate|vm_compute; reflexivity|vm_compute; reflexivity|vm_compute; reflexivity|vm_compute; reflexivity|vm_compute; reflexivity].
Defined.
End MtExamples.
