(* ===== verification/Float64.v ===== *)
(** * Double-precision numbers in text

    [str::parse::<f64>] and the operations the adapters apply to its result:
    IEEE 754 binary64 on the executable specification of floating-point numbers
    of the Standard Library (precision 53, exponent bound 1024).  A decimal
    number is rounded once, to the nearest. *)
From stdpp Require Import base tactics list numbers.
From Stdlib Require Import SpecFloat Lia Ascii String.
From S2P Require Import Prelude Protocol Text Strings.
From stdpp Require Import list.
Import Text Strings.
#[local] Open Scope Z_scope.

Notation f64 := spec_float.
Definition f64_of (z : Z) : f64 := binary_normalize 53 1024 z 0 false.
Definition f64_mul (a b : f64) : f64 := SFmul 53 1024 a b.
Definition signed (neg : bool) (z : Z) : Z := if neg then - z else z.

(** [m * 10^e], rounded: below one, the quotient keeps 64 bits and a last bit
    that says whether anything was dropped. *)
Definition f64_decimal (neg : bool) (m e : Z) : f64 :=
  if decide (m = 0) then S754_zero neg
  else if decide (0 <= e) then binary_normalize 53 1024 (signed neg (m * 10 ^ e)) 0 neg
  else
    let d := 10 ^ (- e) in
    let s := Z.max 0 (64 + Z.log2 d - Z.log2 m) in
    let q := m * 2 ^ s / d in
    let sticky := if decide ((m * 2 ^ s) mod d = 0) then 0 else 1 in
    binary_normalize 53 1024 (signed neg (2 * q + sticky)) (- (s + 1)) neg.

(** The digits at the head, and the rest. *)
Fixpoint span_digits (s : list Z) : list Z * list Z :=
  match s with
  | b :: s' => if between 48 57 b then let '(d, r) := span_digits s' in (b :: d, r) else ([], s)
  | [] => ([], [])
  end.
Definition take_sign (s : list Z) : bool * list Z := match s with 45 :: r => (true, r) | 43 :: r => (false, r) | _ => (false, s) end.
(** [Exp], empty when absent. *)
Definition parse_exponent (s : list Z) : option Z :=
  match s with
  | [] => Some 0
  | b :: r => if decide (b = 101 \/ b = 69) then
                let '(neg, r) := take_sign r in
                if decide (r = []) then None else n ← parse_digits 10 0 r; Some (signed neg n)
              else None
  end.
Definition parse_f64 (s : list Z) : option f64 :=
  let '(neg, r) := take_sign s in
  let word := to_ascii_lowercase r in
  if decide (word = str "inf" \/ word = str "infinity") then Some (S754_infinity neg)
  else if decide (word = str "nan") then Some S754_nan
  else
    let '(int_part, r) := span_digits r in
    let '(frac_part, r) := match r with 46 :: r' => span_digits r' | _ => ([], r) end in
    if decide (int_part = [] /\ frac_part = []) then None else
    e ← parse_exponent r;
    m ← parse_digits 10 0 (int_part ++ frac_part);
    Some (f64_decimal neg m (e - zlen frac_part)).

(** [x as i32]: truncation towards zero, saturating; NaN is 0. *)
Definition f64_to_i32 (x : f64) : Z :=
  let bound neg z := if neg : bool then - Z.min (2 ^ 31) z else Z.min (2 ^ 31 - 1) z in
  match x with
  | S754_finite neg m e => bound neg (if decide (0 <= e) then Z.pos m * 2 ^ e else Z.pos m / 2 ^ (- e))
  | S754_infinity neg => bound neg (2 ^ 31)
  | _ => 0
  end.

Lemma f64_to_i32_range x : - 2 ^ 31 <= f64_to_i32 x < 2 ^ 31.
Proof.
  unfold f64_to_i32. change (2 ^ 31) with 2147483648. destruct x as [|[]| |[] m e]; try lia.
  all: assert (0 <= if decide (0 <= e) then Z.pos m * 2 ^ e else Z.pos m / 2 ^ (- e)) by (case_decide; [pose proof (Z.pow_nonneg 2 e); lia|apply Z.div_pos; [lia|apply Z.pow_pos_nonneg; lia]]); lia.
Qed.

(** Values as the language reads them. *)
Example f64_parsed :
  parse_f64 (str "0.1") = Some (S754_finite false 7205759403792794 (-56)) /\ parse_f64 (str "-1.5e3") = Some (f64_of (-1500)) /\
  parse_f64 (str "+.5") = parse_f64 (str "0.5") /\ parse_f64 (str "1e400") = Some (S754_infinity false) /\
  parse_f64 (str "9007199254740993") = Some (f64_of 9007199254740992) /\ parse_f64 (str "5e-324") = Some (S754_finite false 1 (-1074)) /\
  parse_f64 (str "NaN") = Some S754_nan /\ parse_f64 (str ".") = None /\ parse_f64 (str "1e") = None /\ parse_f64 (str "1 ") = None /\ parse_f64 [] = None.
Proof. vm_compute. repeat split. Qed.
