(* ===== verification/McWire.v ===== *)
(** * The MeshCore wire format

    [crates/meshstar-protocols/src/meshcore/]: the packet codec ([packet.rs]),
    the ciphers ([crypto.rs]), identities and adverts ([identity.rs]), message
    plaintexts ([messages.rs]) and modem profiles ([profiles.rs]). *)
From stdpp Require Import base tactics list numbers.
From Stdlib Require Import Lia Ascii String.
From S2P Require Import Prelude SmallMap Protocol CryptoLib ForeignCrypto Radio Text Strings Unified Proto.
From stdpp Require Import list.
Import Text Strings.
#[local] Open Scope Z_scope.

(** ** Packets *)

Module mc_packet.
Definition MAX_TRANS_UNIT : Z := 255.
Definition MAX_PACKET_PAYLOAD : Z := 184.
Definition MAX_PATH_SIZE : Z := 64.
Definition MAX_HOP_COUNT : Z := 63.
Definition PACKET_HASH_SIZE : nat := 8.
Definition PATH_HASH_SIZE : Z := 1.
Definition TRANSPORT_CODES_LEN : Z := 4.
Definition PAYLOAD_VER_1 : Z := 0.
End mc_packet.
Import mc_packet.

Inductive RouteType := RtTransportFlood | RtFlood | RtDirect | RtTransportDirect.
Module RouteType.
Definition as_u8 (r : RouteType) : Z := match r with RtTransportFlood => 0 | RtFlood => 1 | RtDirect => 2 | RtTransportDirect => 3 end.
Definition from_bits (bits : Z) : RouteType :=
  let b := Z.land bits 0x03 in
  if decide (b = 0) then RtTransportFlood else if decide (b = 1) then RtFlood else if decide (b = 2) then RtDirect else RtTransportDirect.
Definition is_flood (r : RouteType) : bool := match r with RtTransportFlood | RtFlood => true | _ => false end.
Definition is_direct (r : RouteType) : bool := negb (is_flood r).
Definition has_transport_codes (r : RouteType) : bool := match r with RtTransportFlood | RtTransportDirect => true | _ => false end.
Definition name (r : RouteType) : list Z :=
  match r with
  | RtTransportFlood => str "TRANSPORT_FLOOD" | RtFlood => str "FLOOD" | RtDirect => str "DIRECT" | RtTransportDirect => str "TRANSPORT_DIRECT"
  end.
End RouteType.

Inductive PayloadType :=
| PlReq | PlResponse | PlTxtMsg | PlAck | PlAdvert | PlGrpTxt | PlGrpData | PlAnonReq | PlPath | PlTrace | PlMultipart | PlControl | PlRawCustom.
#[global] Instance PayloadType_eq_dec : EqDecision PayloadType.
Proof. solve_decision. Defined.
Module PayloadType.
Definition as_u8 (p : PayloadType) : Z :=
  match p with
  | PlReq => 0x00 | PlResponse => 0x01 | PlTxtMsg => 0x02 | PlAck => 0x03 | PlAdvert => 0x04 | PlGrpTxt => 0x05 | PlGrpData => 0x06
  | PlAnonReq => 0x07 | PlPath => 0x08 | PlTrace => 0x09 | PlMultipart => 0x0A | PlControl => 0x0B | PlRawCustom => 0x0F
  end.
Definition from_u8 (v : Z) : option PayloadType :=
  match Z.land v 0x0F with
  | 0x00 => Some PlReq | 0x01 => Some PlResponse | 0x02 => Some PlTxtMsg | 0x03 => Some PlAck | 0x04 => Some PlAdvert
  | 0x05 => Some PlGrpTxt | 0x06 => Some PlGrpData | 0x07 => Some PlAnonReq | 0x08 => Some PlPath | 0x09 => Some PlTrace
  | 0x0A => Some PlMultipart | 0x0B => Some PlControl | 0x0F => Some PlRawCustom | _ => None
  end.
Definition name (p : PayloadType) : list Z :=
  match p with
  | PlReq => str "REQ" | PlResponse => str "RESPONSE" | PlTxtMsg => str "TXT_MSG" | PlAck => str "ACK" | PlAdvert => str "ADVERT"
  | PlGrpTxt => str "GRP_TXT" | PlGrpData => str "GRP_DATA" | PlAnonReq => str "ANON_REQ" | PlPath => str "PATH" | PlTrace => str "TRACE"
  | PlMultipart => str "MULTIPART" | PlControl => str "CONTROL" | PlRawCustom => str "RAW_CUSTOM"
  end.
End PayloadType.

Inductive PacketError :=
| PeTooShort | PeTooLong | PeBadVersion | PeReservedPayloadType | PeReservedHashSize | PePathTooLong | PeBadPathLength | PeTruncated | PePayloadTooLarge | PeEmptyPayload.
(** [Display] prints the [Debug] form. *)
Definition packet_error_debug (e : PacketError) : list Z :=
  match e with
  | PeTooShort => str "TooShort" | PeTooLong => str "TooLong" | PeBadVersion => str "BadVersion" | PeReservedPayloadType => str "ReservedPayloadType"
  | PeReservedHashSize => str "ReservedHashSize" | PePathTooLong => str "PathTooLong" | PeBadPathLength => str "BadPathLength"
  | PeTruncated => str "Truncated" | PePayloadTooLarge => str "PayloadTooLarge" | PeEmptyPayload => str "EmptyPayload"
  end.

Definition header_byte (route : RouteType) (ptype : PayloadType) : Z := Z.lor (RouteType.as_u8 route) (u8 (Z.shiftl (PayloadType.as_u8 ptype) 2)).
Definition parse_header (b : Z) : outcome PacketError (RouteType * PayloadType) :=
  if decide (Z.shiftr b 6 <> PAYLOAD_VER_1) then Err PeBadVersion else
  ptype ← ok_or (PayloadType.from_u8 (Z.land (Z.shiftr b 2) 0x0F)) PeReservedPayloadType;
  Ok (RouteType.from_bits b, ptype).
Definition encode_path_len (hop_count hash_size : Z) : outcome PacketError Z :=
  if decide (hop_count > MAX_HOP_COUNT) then Err PePathTooLong else
  if decide (~ (1 <= hash_size <= 3)) then Err PeReservedHashSize else
  if decide (hop_count * hash_size > MAX_PATH_SIZE) then Err PePathTooLong else
  Ok (Z.lor hop_count (u8 (Z.shiftl (u8 (hash_size - 1)) 6))).
Definition decode_path_len (b : Z) : outcome PacketError (Z * Z) :=
  let size_code := Z.shiftr b 6 in
  if decide (size_code = 3) then Err PeReservedHashSize else
  let count := Z.land b 0x3F in
  let size := u8 (size_code + 1) in
  if decide (count * size > MAX_PATH_SIZE) then Err PePathTooLong else
  Ok (count, size).

Record McPacket := mkMcPacket {
  mp_route : RouteType; mp_ptype : PayloadType; mp_codes : Z * Z; mp_hash_size : Z; mp_path : list Z; mp_payload : list Z
}.
(** [l.chunks_exact(n)] *)
Fixpoint chunks_exact (fuel n : nat) (l : list Z) : list (list Z) :=
  match fuel with
  | O => []
  | S k => if decide (length l < n)%nat then [] else take n l :: chunks_exact k n (drop n l)
  end.

Module McPacket.
Definition new (route : RouteType) (ptype : PayloadType) (payload : list Z) : McPacket := mkMcPacket route ptype (0, 0) PATH_HASH_SIZE [] payload.
Definition set_path (path : list Z) (p : McPacket) : McPacket := mkMcPacket (mp_route p) (mp_ptype p) (mp_codes p) (mp_hash_size p) path (mp_payload p).
Definition hop_count (p : McPacket) : Z := Z.min (zlen (mp_path p) / Z.max (mp_hash_size p) 1) MAX_HOP_COUNT.
Definition path_hashes (p : McPacket) : list (list Z) :=
  chunks_exact (length (mp_path p)) (Z.to_nat (Z.min (Z.max (mp_hash_size p) 1) 3)) (mp_path p).
Definition raw_len (p : McPacket) : Z :=
  2 + zlen (mp_path p) + zlen (mp_payload p) + (if RouteType.has_transport_codes (mp_route p) then TRANSPORT_CODES_LEN else 0).
(** The transport codes, and where the path length is. *)
Definition parse_codes (route : RouteType) (frame : list Z) : outcome PacketError ((Z * Z) * Z) :=
  if RouteType.has_transport_codes route then
    if decide (zlen frame < 1 + TRANSPORT_CODES_LEN) then Err PeTooShort else
    tc ← slice frame 1 (1 + TRANSPORT_CODES_LEN);
    Ok ((from_le (take 2 tc), from_le (drop 2 tc)), 1 + TRANSPORT_CODES_LEN)
  else Ok ((0, 0), 1).
Definition parse (frame : list Z) : outcome PacketError McPacket :=
  if decide (zlen frame > MAX_TRANS_UNIT) then Err PeTooLong else
  if decide (zlen frame < 3) then Err PeTooShort else
  b ← idx frame 0;
  '(route, ptype) ← parse_header b;
  '(codes, i) ← parse_codes route frame;
  pl ← ok_or (frame !! Z.to_nat i) PeTooShort;
  let i := i + 1 in
  '(count, hash_size) ← decode_path_len pl;
  let path_end := i + count * hash_size in
  if decide (path_end >= zlen frame) then Err PeTruncated else
  path ← slice frame i path_end;
  payload ← slice_from frame path_end;
  if decide (zlen payload > MAX_PACKET_PAYLOAD) then Err PePayloadTooLarge else
  Ok (mkMcPacket route ptype codes hash_size path payload).
Definition encode (p : McPacket) : outcome PacketError (list Z) :=
  if decide (mp_payload p = []) then Err PeEmptyPayload else
  if decide (zlen (mp_payload p) > MAX_PACKET_PAYLOAD) then Err PePayloadTooLarge else
  if decide (~ (1 <= mp_hash_size p <= 3)) then Err PeReservedHashSize else
  if decide (zlen (mp_path p) mod mp_hash_size p <> 0) then Err PeBadPathLength else
  if decide (zlen (mp_path p) > MAX_PATH_SIZE) then Err PePathTooLong else
  path_len ← encode_path_len (u8 (zlen (mp_path p) / mp_hash_size p)) (mp_hash_size p);
  if decide (raw_len p > MAX_TRANS_UNIT) then Err PeTooLong else
  Ok ([header_byte (mp_route p) (mp_ptype p)] ++
      (if RouteType.has_transport_codes (mp_route p) then le_bytes 2 (mp_codes p).1 ++ le_bytes 2 (mp_codes p).2 else []) ++
      [path_len] ++ mp_path p ++ mp_payload p).
(** What is hashed for duplicate detection, and its digest. *)
Definition hash_input (p : McPacket) : list Z :=
  [PayloadType.as_u8 (mp_ptype p)] ++
  (if decide (mp_ptype p = PlTrace) then
     let count := hop_count p in
     le_bytes 2 (match encode_path_len count (mp_hash_size p) with Ok pl => pl | _ => count end)
   else []) ++ mp_payload p.
Definition packet_hash {C : CryptoLib} (p : McPacket) : list Z := take PACKET_HASH_SIZE (sha256 (hash_input p)).
End McPacket.

(** ** Ciphers *)

Module mc_crypto.
Definition CIPHER_KEY_SIZE : nat := 16.
Definition CIPHER_BLOCK_SIZE : nat := 16.
Definition CIPHER_MAC_SIZE : Z := 2.
Definition SECRET_SIZE : nat := 32.
Definition ACK_CODE_SIZE : nat := 4.
End mc_crypto.
Import mc_crypto.

(** [s[..n].copy_from_slice(&l[..n])] into 32 zero bytes *)
Definition zero_extended (l : list Z) : list Z := take SECRET_SIZE l ++ replicate (SECRET_SIZE - length l) 0.
(** A loop over [chunks_exact_mut]: what is left of a last chunk stays. *)
Fixpoint each_block (fuel : nat) (f : list Z -> list Z) (l : list Z) : list Z :=
  match fuel with
  | O => l
  | S k => if decide (length l < CIPHER_BLOCK_SIZE)%nat then l else f (take CIPHER_BLOCK_SIZE l) ++ each_block k f (drop CIPHER_BLOCK_SIZE l)
  end.
Definition aligned (n : Z) : bool := bool_decide (n mod 16 = 0).
Section Ciphers.
Context {C : CryptoLib} {F : ForeignCrypto}.
(** A [SigningKey] is its seed, a [VerifyingKey] its 32 bytes. *)
Definition shared_secret (local peer : list Z) : list Z := x25519 (ed_scalar_bytes local) (ed_to_montgomery peer).
Definition group_secret (psk : list Z) : option (list Z) :=
  if decide (length psk <> 16%nat /\ length psk <> 32%nat) then None else Some (zero_extended psk).
Definition mc_channel_hash (secret : list Z) : Z :=
  let s := zero_extended secret in
  let len := if forallb (fun b => bool_decide (b = 0)) (drop 16 s) then 16%nat else 32%nat in
  hd 0 (sha256 (take len s)).
Definition aes_key (secret : list Z) : list Z := take CIPHER_KEY_SIZE secret.
Definition zero_padded (plaintext : list Z) : list Z := plaintext ++ replicate ((16 - length plaintext mod 16) mod 16) 0.
Definition aes_ecb_encrypt (secret plaintext : list Z) : list Z :=
  let out := zero_padded plaintext in each_block (length out) (aes128_encrypt_block (aes_key secret)) out.
Definition aes_ecb_decrypt (secret ciphertext : list Z) : option (list Z) :=
  if decide (ciphertext = []) then None else
  if negb (aligned (zlen ciphertext)) then None else
  Some (each_block (length ciphertext) (aes128_decrypt_block (aes_key secret)) ciphertext).
Definition block_hmac (key data : list Z) : list Z := hmac_sha256 (key ++ replicate 32 0) data.
Definition mac (secret ciphertext : list Z) : list Z := take 2 (block_hmac secret ciphertext).
Definition encrypt_then_mac (secret plaintext : list Z) : list Z :=
  let ct := aes_ecb_encrypt secret plaintext in mac secret ct ++ ct.
Definition mac_then_decrypt (secret blob : list Z) : option (list Z) :=
  if decide (zlen blob <= CIPHER_MAC_SIZE) then None else
  let m := take 2 blob in let ct := drop 2 blob in
  if negb (aligned (zlen ct)) then None else
  if decide (mac secret ct <> m) then None else
  aes_ecb_decrypt secret ct.
Definition mac_matches (secret blob : list Z) : bool :=
  if decide (zlen blob <= CIPHER_MAC_SIZE) then false else
  aligned (zlen (drop 2 blob)) && bool_decide (mac secret (drop 2 blob) = take 2 blob).
Definition ack_code (plaintext author_pubkey : list Z) : list Z := take ACK_CODE_SIZE (sha256 (plaintext ++ author_pubkey)).
End Ciphers.
Definition max_plaintext_for (blob_budget : Z) : Z := sat_sub blob_budget CIPHER_MAC_SIZE / 16 * 16.

(** ** Identities and adverts *)

Module mc_identity.
Definition PUB_KEY_SIZE : nat := 32.
Definition SEED_SIZE : nat := 32.
Definition SIGNATURE_SIZE : nat := 64.
Definition MAX_ADVERT_DATA_SIZE : Z := 32.
Definition ADVERT_MIN_LEN : Z := 100.
Definition ADVERT_MAX_LEN : Z := 132.
Definition ADV_LATLON_MASK : Z := 0x10.
Definition ADV_FEAT1_MASK : Z := 0x20.
Definition ADV_FEAT2_MASK : Z := 0x40.
Definition ADV_NAME_MASK : Z := 0x80.
End mc_identity.
Import mc_identity.
Module node_type.
Definition NONE : Z := 0.
Definition CHAT : Z := 1.
Definition REPEATER : Z := 2.
Definition ROOM_SERVER : Z := 3.
Definition SENSOR : Z := 4.
Definition name (t : Z) : list Z :=
  match Z.land t 0x0F with 0 => str "none" | 1 => str "chat" | 2 => str "repeater" | 3 => str "room_server" | 4 => str "sensor" | _ => str "future" end.
End node_type.

Inductive IdentityError := IeTooShort | IeBadPublicKey | IeBadSignature | IeAppDataTooLong | IeBadSeed.
Definition identity_error_debug (e : IdentityError) : list Z :=
  match e with
  | IeTooShort => str "TooShort" | IeBadPublicKey => str "BadPublicKey" | IeBadSignature => str "BadSignature"
  | IeAppDataTooLong => str "AppDataTooLong" | IeBadSeed => str "BadSeed"
  end.
Definition node_hash (pubkey : list Z) : Z := hd 0 pubkey.
Definition hash_prefix (pubkey : list Z) (size : Z) : list Z := take (Z.to_nat (Z.min (Z.max size 1) 3)) pubkey.
Definition is_valid_key_prefix (first_byte : Z) : bool := bool_decide (first_byte <> 0x00 /\ first_byte <> 0xFF).
Definition signing_key_from_secret (secret : list Z) : outcome IdentityError (list Z) :=
  if decide (length secret < SEED_SIZE)%nat then Err IeBadSeed else Ok (take SEED_SIZE secret).
(** The length of the longest prefix of whole characters ([valid_up_to]). *)
Fixpoint valid_up_to (l : list Z) (skip : nat) : nat :=
  match l with
  | [] => 0
  | _ :: l' =>
      match skip with
      | S k => S (valid_up_to l' k)
      | O => let '(n, ok) := utf8_chunk l in if ok then S (valid_up_to l' (Nat.pred n)) else 0
      end
  end.
Definition utf8_prefix (b : list Z) : list Z :=
  if utf8_valid b then b else
  let p := take (valid_up_to b 0) b in if utf8_valid p then p else [].
(** [l.iter().position(|&b| b == 0).unwrap_or(l.len())] *)
Fixpoint until_nul (l : list Z) : nat := match l with [] => 0 | b :: l' => if decide (b = 0) then 0 else S (until_nul l') end.

Record AdvertData := mkAdvertData {
  ad_node_type : Z; ad_lat_e6 : option Z; ad_lon_e6 : option Z; ad_feature1 : option Z; ad_feature2 : option Z; ad_name : option (list Z)
}.
(** [data.get(i..i + n)] *)
Definition get_range (data : list Z) (i n : nat) : option (list Z) := if decide (i + n <= length data)%nat then Some (take n (drop i data)) else None.
Module AdvertData.
Definition parse (data : list Z) : option AdvertData :=
  flags ← head data;
  '(lat, lon, i) ← (if decide (Z.land flags ADV_LATLON_MASK <> 0) then
                      b ← get_range data 1 8; Some (Some (as_i32 (from_le (take 4 b))), Some (as_i32 (from_le (drop 4 b))), 9%nat)
                    else Some (None, None, 1%nat));
  '(f1, i) ← (if decide (Z.land flags ADV_FEAT1_MASK <> 0) then b ← get_range data i 2; Some (Some (from_le b), (i + 2)%nat) else Some (None, i));
  '(f2, i) ← (if decide (Z.land flags ADV_FEAT2_MASK <> 0) then b ← get_range data i 2; Some (Some (from_le b), (i + 2)%nat) else Some (None, i));
  let name := if decide (Z.land flags ADV_NAME_MASK <> 0) then let rest := drop i data in Some (utf8_prefix (take (until_nul rest) rest)) else None in
  Some (mkAdvertData (Z.land flags 0x0F) lat lon f1 f2 name).
(** [while cut > 0 && !name.is_char_boundary(cut) { cut -= 1 }] *)
Fixpoint cut_at (name : list Z) (cut : nat) : nat :=
  match cut with O => O | S k => if is_char_boundary name cut then cut else cut_at name k end.
Definition encode (d : AdvertData) : outcome IdentityError (list Z) :=
  let flags := Z.land (ad_node_type d) 0x0F in
  let '(flags, out) := match ad_lat_e6 d, ad_lon_e6 d with
                       | Some lat, Some lon => (Z.lor flags ADV_LATLON_MASK, le_bytes 4 (u32 lat) ++ le_bytes 4 (u32 lon))
                       | _, _ => (flags, [])
                       end in
  let '(flags, out) := match ad_feature1 d with Some f => (Z.lor flags ADV_FEAT1_MASK, out ++ le_bytes 2 f) | None => (flags, out) end in
  let '(flags, out) := match ad_feature2 d with Some f => (Z.lor flags ADV_FEAT2_MASK, out ++ le_bytes 2 f) | None => (flags, out) end in
  if decide (1 + zlen out > MAX_ADVERT_DATA_SIZE) then Err IeAppDataTooLong else
  let '(flags, out) := match ad_name d with
                       | Some name =>
                           let room := MAX_ADVERT_DATA_SIZE - (1 + zlen out) in
                           let cut := cut_at name (Z.to_nat (Z.min (zlen name) room)) in
                           (Z.lor flags ADV_NAME_MASK, out ++ take cut name)
                       | None => (flags, out)
                       end in
  Ok (flags :: out).
End AdvertData.

Record McAdvert := mkAdvert { av_public_key : list Z; av_timestamp : Z; av_signature : list Z; av_app_data : list Z }.
Section Adverts.
Context {C : CryptoLib}.
Definition mc_verifying_key (bytes : list Z) : outcome IdentityError (list Z) :=
  if decide (length bytes <> PUB_KEY_SIZE) then Err IeBadPublicKey else if ed_decodes bytes then Ok bytes else Err IeBadPublicKey.
(** [loop] of [generate]: [None] when [fuel] draws were all refused. *)
Fixpoint mc_generate {R} `{RngCore R} (fuel : nat) (rng : R) : option (list Z) * R :=
  match fuel with
  | O => (None, rng)
  | S k => let '(seed, rng) := fill_bytes rng 32 in if is_valid_key_prefix (hd 0 (ed_public seed)) then (Some seed, rng) else mc_generate k rng
  end.
End Adverts.
Module McAdvert.
Definition parse (payload : list Z) : outcome IdentityError McAdvert :=
  if decide (zlen payload < ADVERT_MIN_LEN) then Err IeTooShort else
  public_key ← slice payload 0 32;
  ts ← slice payload 32 36;
  signature ← slice payload 36 ADVERT_MIN_LEN;
  app_data ← slice payload ADVERT_MIN_LEN (Z.min (zlen payload) ADVERT_MAX_LEN);
  Ok (mkAdvert public_key (from_le ts) signature app_data).
Definition signed_message (a : McAdvert) : list Z := av_public_key a ++ le_bytes 4 (av_timestamp a) ++ av_app_data a.
Definition encode (a : McAdvert) : list Z := av_public_key a ++ le_bytes 4 (av_timestamp a) ++ av_signature a ++ av_app_data a.
Definition data (a : McAdvert) : option AdvertData := AdvertData.parse (av_app_data a).
Definition hash (a : McAdvert) : Z := node_hash (av_public_key a).
Section Signed.
Context {C : CryptoLib}.
Definition verify (a : McAdvert) : outcome IdentityError unit :=
  if negb (ed_decodes (av_public_key a)) then Err IeBadPublicKey else
  if ed_verify_strict (av_public_key a) (signed_message a) (av_signature a) then Ok () else Err IeBadSignature.
Definition build (key : list Z) (timestamp : Z) (d : AdvertData) : outcome IdentityError McAdvert :=
  app_data ← AdvertData.encode d;
  let adv := mkAdvert (ed_public key) timestamp (replicate 64 0) app_data in
  Ok (mkAdvert (ed_public key) timestamp (ed_sign key (signed_message adv)) app_data).
End Signed.
End McAdvert.

(** ** Message plaintexts *)

Module mc_messages.
Definition MAX_TEXT_LEN : Z := 160.
Definition MAX_GROUP_DATA_LENGTH : Z := 165.
Definition DATAGRAM_HEADER_LEN : Z := 4.
Definition GROUP_HEADER_LEN : Z := 3.
Definition TXT_TYPE_PLAIN : Z := 0.
Definition TXT_TYPE_CLI_DATA : Z := 1.
Definition TXT_TYPE_SIGNED_PLAIN : Z := 2.
End mc_messages.
Import mc_messages.

Record TextPlain := mkTextPlain {
  tp_timestamp : Z; tp_txt_type : Z; tp_attempt : Z; tp_author_prefix : option (list Z); tp_text : list Z; tp_ack_covered : list Z
}.
(** [parse_text_plain]: the bytes before the text are indexed behind the length
    checks of the function. *)
Definition parse_text_plain (plain : list Z) : option TextPlain :=
  if decide (zlen plain < 5) then None else
  let timestamp := from_le (take 4 plain) in
  let flags := default 0 (plain !! 4%nat) in
  let txt_type := Z.shiftr flags 2 in
  '(author_prefix, start) ← (if decide (txt_type = TXT_TYPE_SIGNED_PLAIN) then p ← get_range plain 5 4; Some (Some p, 9%nat) else Some (None, 5%nat));
  let body := drop start plain in
  let text_len := until_nul body in
  Some (mkTextPlain timestamp txt_type (Z.land flags 3) author_prefix (utf8_prefix (take text_len body)) (take (start + text_len) plain)).
Definition contains_nul (s : list Z) : bool := existsb (fun b => bool_decide (b = 0)) s.
Definition compose_text_plain (timestamp txt_type attempt : Z) (text : list Z) : option (list Z) :=
  if decide (zlen text > MAX_TEXT_LEN) then None else
  if contains_nul text then None else
  Some (le_bytes 4 timestamp ++ [Z.lor (u8 (Z.shiftl (Z.land txt_type 0x3F) 2)) (Z.land attempt 3)] ++ text ++ [0]).
Definition ack_covered (plain_with_nul : list Z) : list Z :=
  let len := length plain_with_nul in
  let body := drop 5 plain_with_nul in
  let e := if decide ((5 <= len)%nat /\ (until_nul body < length body)%nat) then (5 + until_nul body)%nat else len in
  take (Nat.min e len) plain_with_nul.

Section Datagrams.
Context {C : CryptoLib} {F : ForeignCrypto}.
Definition build_datagram (secret : list Z) (dest_hash src_hash : Z) (plaintext : list Z) : option (list Z) :=
  if decide (zlen plaintext > max_plaintext_for (MAX_PACKET_PAYLOAD - DATAGRAM_HEADER_LEN)) then None else
  Some (dest_hash :: src_hash :: encrypt_then_mac secret plaintext).
Definition build_group_datagram (secret plaintext : list Z) : option (list Z) :=
  if decide (zlen plaintext > max_plaintext_for (MAX_PACKET_PAYLOAD - GROUP_HEADER_LEN)) then None else
  Some (mc_channel_hash secret :: encrypt_then_mac secret plaintext).
End Datagrams.
Definition split_datagram (payload : list Z) : option (Z * Z * list Z) :=
  if decide (zlen payload <= DATAGRAM_HEADER_LEN) then None else
  match payload with dest :: src :: rest => Some (dest, src, rest) | _ => None end.
Definition split_group_datagram (payload : list Z) : option (Z * list Z) :=
  if decide (zlen payload <= GROUP_HEADER_LEN) then None else
  match payload with hash :: rest => Some (hash, rest) | _ => None end.

Record GroupText := mkGroupText { gr_timestamp : Z; gr_sender_name : option (list Z); gr_text : list Z }.
Definition parse_group_text (plain : list Z) : option GroupText :=
  t ← parse_text_plain plain;
  if decide (tp_txt_type t <> TXT_TYPE_PLAIN) then None else
  match split_once (str ": ") (tp_text t) with
  | Some (name, text) => Some (mkGroupText (tp_timestamp t) (Some name) text)
  | None => Some (mkGroupText (tp_timestamp t) None (tp_text t))
  end.
Definition compose_group_text (timestamp : Z) (sender_name text : list Z) : option (list Z) :=
  if decide (zlen sender_name + 2 + zlen text > MAX_TEXT_LEN) then None else
  if contains_nul sender_name || contains_nul text then None else
  Some (le_bytes 4 timestamp ++ [TXT_TYPE_PLAIN] ++ sender_name ++ str ": " ++ text).
Record GroupData := mkGroupData { gd_data_type : Z; gd_data : list Z }.
Definition parse_group_data (plain : list Z) : option GroupData :=
  if decide (zlen plain < 3) then None else
  let len := default 0 (plain !! 2%nat) in
  data ← get_range plain 3 (Z.to_nat len);
  Some (mkGroupData (from_le (take 2 plain)) data).
Definition compose_group_data (data_type : Z) (data : list Z) : option (list Z) :=
  if decide (zlen data > MAX_GROUP_DATA_LENGTH \/ zlen data > 255) then None else
  Some (le_bytes 2 data_type ++ [zlen data] ++ data).
Definition is_ack_len (len : Z) : bool := bool_decide (len = 4 \/ len = 6).
(** No control character ([char::is_control]) but line breaks and tabs.  A byte
    [0xC2] only begins a character of [U+0080] to [U+00BF], of which the first
    32 are controls. *)
Fixpoint no_controls (s : list Z) : bool :=
  match s with
  | [] => true
  | b :: s' =>
      (if decide (b < 32) then bool_decide (b = 10 \/ b = 9 \/ b = 13)
       else if decide (b = 0x7F) then false
       else if decide (b = 0xC2) then match s' with c :: _ => negb (between 0x80 0x9F c) | [] => true end
       else true) && no_controls s'
  end.
Definition looks_like_text (s : list Z) : bool := negb (bool_decide (s = [])) && no_controls s.

(** ** Modem profiles *)

Module mc_profiles.
Definition SYNC_WORD : Z := 0x12.
Definition preamble_for_sf (sf : Z) : Z := if decide (sf <= 8) then 32 else 16.
Definition profile (frequency_hz bandwidth_hz sf cr tx_power_dbm : Z) : LoRaProfile :=
  mkLoRaProfile frequency_hz bandwidth_hz sf cr SYNC_WORD (preamble_for_sf sf) true false tx_power_dbm.
Definition build_default : LoRaProfile := profile 869618000 62500 8 5 20.
Definition usa_canada : LoRaProfile := profile 910525000 62500 7 5 20.
Definition eu_uk_original_unverified : LoRaProfile := profile 869525000 250000 11 5 20.
Definition eu_uk_sf8 : LoRaProfile := profile 869618000 62500 8 8 20.
Definition eu_uk_sf9 : LoRaProfile := profile 869618000 62500 9 8 20.
Definition named (name region : list Z) (p : LoRaProfile) (verified : bool) : NamedProfile := mkNamedProfile MeshCore name region p verified.
Definition eu_uk_scan (dwell_ms : Z) : ScanSchedule :=
  mkSchedule [mkScanSlot (named (str "meshcore-eu-sf8") (str "EU_868") eu_uk_sf8 true) dwell_ms; mkScanSlot (named (str "meshcore-eu-sf9") (str "EU_868") eu_uk_sf9 true) dwell_ms].
Definition default_profile : LoRaProfile := build_default.
Definition profiles : list NamedProfile :=
  [named (str "meshcore-build-default") (str "EU_868") build_default true;
   named (str "meshcore-usa-canada") (str "US_915") usa_canada true;
   named (str "meshcore-eu-sf8") (str "EU_868") eu_uk_sf8 true;
   named (str "meshcore-eu-sf9") (str "EU_868") eu_uk_sf9 true;
   named (str "meshcore-eu-original") (str "EU_868") eu_uk_original_unverified false].
End mc_profiles.
