(* ===== verification/McAdapter.v ===== *)
(** * The MeshCore adapter

    [crates/meshstar-protocols/src/meshcore/mod.rs]: the public channel, adverts,
    group and direct messages, acknowledgements, detection, decoding, encoding
    and replies. *)
From stdpp Require Import base tactics list numbers.
From Stdlib Require Import SpecFloat Lia Ascii String.
From S2P Require Import Prelude SmallMap Float32 Protocol CryptoLib ForeignCrypto Radio Text Strings Float64 Unified Proto McWire.
From stdpp Require Import list.
Import Text Strings mc_packet mc_crypto mc_identity mc_messages.
#[local] Open Scope Z_scope.

Definition PUBLIC_CHANNEL_NAME : list Z := str "Public".
Definition PUBLIC_CHANNEL_PSK : list Z := [0x8b; 0x33; 0x87; 0xe9; 0xc5; 0xcd; 0xea; 0x6a; 0xc9; 0xe5; 0xed; 0xba; 0xa1; 0x15; 0xcd; 0x72].
Definition PUBLIC_CHANNEL_HASH : Z := 0x11.
Definition DEFAULT_ADVERT_INTERVAL_MS : Z := 47 * 3600000.
Module mc_meta.
Definition PAYLOAD_TYPE : list Z := str "payload_type".
Definition ROUTE : list Z := str "route".
Definition HASH_SIZE : list Z := str "hash_size".
Definition TRANSPORT_CODES : list Z := str "transport_codes".
Definition SENDER_NAME : list Z := str "sender_name".
Definition CHANNEL_HASH : list Z := str "channel_hash".
Definition ACK_CODE : list Z := str "ack_code".
Definition TXT_TYPE : list Z := str "txt_type".
Definition ATTEMPT : list Z := str "attempt".
Definition AUTHOR_PREFIX : list Z := str "author_prefix".
Definition NAME : list Z := str "name".
Definition NODE_TYPE : list Z := str "node_type".
Definition LAT : list Z := str "lat".
Definition LON : list Z := str "lon".
Definition PUBKEY : list Z := str "pubkey".
Definition DATA_TYPE : list Z := str "data_type".
Definition PATH : list Z := str "path".
Definition ZERO_HOP : list Z := str "zero_hop".
Definition OPAQUE_REASON : list Z := str "opaque_reason".
End mc_meta.
Import mc_meta.

Definition public_channel : ChannelKey := mkChannelKey PUBLIC_CHANNEL_NAME PUBLIC_CHANNEL_PSK.
Definition identity_ref (pubkey : list Z) : IdentityRef := IdMeshCore (PublicKey pubkey).
Definition prefix_ref (prefix : list Z) : IdentityRef := IdMeshCore (HashPrefix prefix).
Definition local_identity_from_seed {C : CryptoLib} (seed display_name : list Z) : LocalProtocolIdentity :=
  mkLocal MeshCore (identity_ref (ed_public seed)) display_name (take_chars 4 display_name) seed.

Record MeshCoreAdapter := mkMcAdapter {
  mc_advert_interval_ms : Z; mc_node_type : Z; mc_location_e6 : option (Z * Z); mc_last_advert_ms : option Z; mc_last_advert_ts : Z
}.
Definition MeshCoreAdapter_new : MeshCoreAdapter := mkMcAdapter DEFAULT_ADVERT_INTERVAL_MS node_type.CHAT None None 0.
Definition with_advert_interval_ms (ms : Z) (a : MeshCoreAdapter) : MeshCoreAdapter :=
  mkMcAdapter ms (mc_node_type a) (mc_location_e6 a) (mc_last_advert_ms a) (mc_last_advert_ts a).
Definition with_node_type (t : Z) (a : MeshCoreAdapter) : MeshCoreAdapter :=
  mkMcAdapter (mc_advert_interval_ms a) (Z.land t 0x0F) (mc_location_e6 a) (mc_last_advert_ms a) (mc_last_advert_ts a).
Definition with_location_e6 (lat_e6 lon_e6 : Z) (a : MeshCoreAdapter) : MeshCoreAdapter :=
  mkMcAdapter (mc_advert_interval_ms a) (mc_node_type a) (Some (lat_e6, lon_e6)) (mc_last_advert_ms a) (mc_last_advert_ts a).

(** [hex::decode(s).ok()] *)
Fixpoint hex_decode (s : list Z) : option (list Z) :=
  match s with
  | [] => Some []
  | [_] => None
  | a :: b :: r => x ← digit_value 16 a; y ← digit_value 16 b; l ← hex_decode r; Some (16 * x + y :: l)
  end.
(** [s.trim_start_matches("0x")] *)
Fixpoint trim_0x (fuel : nat) (s : list Z) : list Z :=
  match fuel with O => s | S k => match strip_prefix (str "0x") s with Some r => trim_0x k r | None => s end end.
Definition hex_u16 (n : Z) : list Z := hex_encode (be_bytes 2 n).
Definition format_e6 (v : Z) : list Z :=
  (if decide (v < 0) then str "-" else []) ++ dec (Z.abs v / 1000000) ++ str "." ++ pad_zeros 6 (dec (Z.abs v mod 1000000)).
Definition parse_e6 (s : list Z) : option Z :=
  v ← parse_f64 (trim s);
  if negb (SFleb (f64_of (-360)) v && SFleb v (f64_of 360)) then None else Some (f64_to_i32 (f64_mul v (f64_of 1000000))).
Definition parse_i32_e6 (s : list Z) : option Z := parse_signed 10 (2 ^ 31 - 1) s.
Definition location_from_meta (msg : UnifiedMessage) : option (Z * Z) :=
  match UnifiedMessage.meta msg (str "lat_e6"), UnifiedMessage.meta msg (str "lon_e6") with
  | Some a, Some b => x ← parse_i32_e6 a; y ← parse_i32_e6 b; Some (x, y)
  | _, _ => a ← UnifiedMessage.meta msg LAT; x ← parse_e6 a; b ← UnifiedMessage.meta msg LON; y ← parse_e6 b; Some (x, y)
  end.
Definition is_zero_hop (msg : UnifiedMessage) : bool := bool_decide (UnifiedMessage.meta msg ZERO_HOP = Some (str "true")).
Definition route_and_path (msg : UnifiedMessage) : outcome AdapterError (RouteType * list Z) :=
  match UnifiedMessage.meta msg PATH with
  | Some p =>
      path ← ok_or (hex_decode p) (Unsupported (str "path metadata must be hex"));
      if decide (zlen path > MAX_PATH_SIZE) then Err AdTooLarge else Ok (RtDirect, path)
  | None => Ok (if is_zero_hop msg then RtDirect else RtFlood, [])
  end.
(** [k.len() == 32 && k.starts_with(p)] *)
Definition key_with_prefix (p : list Z) (e : IdentityRef * list Z) : bool := bool_decide (length e.2 = 32%nat) && starts_with p e.2.
Definition resolve_peer (dest : IdentityRef) (ctx : ProtocolContext) : outcome AdapterError (list Z) :=
  match dest with
  | IdMeshCore (PublicKey pk) => Ok pk
  | IdMeshCore (HashPrefix p) =>
      if decide (p = []) then Err (MissingContext (str "destination has no public key")) else
      match List.filter (key_with_prefix p) (cx_peer_keys ctx) with
      | [] => Err (MissingContext (str "no peer key with prefix " ++ hex_encode p))
      | _ :: _ :: _ => Err (MissingContext (str "ambiguous peer prefix " ++ hex_encode p))
      | [first] => if decide (length first.2 = 32%nat) then Ok first.2 else Err (MissingContext (str "peer key length"))
      end
  | other => Err (Unsupported (str "destination " ++ IdentityRef.canonical other ++ str " is not a MeshCore identity"))
  end.
Definition finish (pkt : McPacket) (ctx : ProtocolContext) : outcome AdapterError OutboundFrame :=
  match McPacket.encode pkt with
  | Ok bytes => Ok (mkFrame MeshCore bytes (cx_profile ctx))
  | Err (PePayloadTooLarge | PeTooLong | PePathTooLong) => Err AdTooLarge
  | Err other => Err (Unsupported (str "packet: " ++ packet_error_debug other))
  | Panic => Panic
  end.
Definition opaque_keep_type (reason : list Z) (msg : UnifiedMessage) : UnifiedMessage :=
  UnifiedMessage.set_meta OPAQUE_REASON reason (UM.set_security (Undecryptable MeshCore) (UM.set_encrypted true msg)).
Definition opaque (reason : list Z) (msg : UnifiedMessage) : UnifiedMessage := opaque_keep_type reason (UM.set_content_type Opaque msg).

Section Adapter.
Context {C : CryptoLib} {F : ForeignCrypto}.

(** A skeleton for a parsed packet. *)
Definition mc_base_message (pkt : McPacket) (meta_rx : RxMeta) : UnifiedMessage :=
  let hashes := hex_encode <$> McPacket.path_hashes pkt in
  let hops := if RouteType.is_flood (mp_route pkt) then mkHops (Some (McPacket.hop_count pkt)) None hashes (last hashes)
              else mkHops None (Some (McPacket.hop_count pkt)) hashes None in
  let msg := mkUnified (prefix_ref []) (IdBroadcast MeshCore) MeshCore None (hex_encode (McPacket.packet_hash pkt)) None None Opaque [] false Plaintext
               (mkSignal (Some (rssi_dbm meta_rx)) (Some (snr_db meta_rx)) None (timestamp_ms meta_rx)) hops false [] None [] in
  let msg := UnifiedMessage.set_meta PAYLOAD_TYPE (PayloadType.name (mp_ptype pkt)) msg in
  let msg := UnifiedMessage.set_meta ROUTE (RouteType.name (mp_route pkt)) msg in
  let msg := UnifiedMessage.set_meta HASH_SIZE (dec (mp_hash_size pkt)) msg in
  if RouteType.has_transport_codes (mp_route pkt) then
    UnifiedMessage.set_meta TRANSPORT_CODES (hex_u16 (mp_codes pkt).1 ++ str "," ++ hex_u16 (mp_codes pkt).2) msg
  else msg.

(** ** Encoding *)

Definition local_key (ctx : ProtocolContext) : outcome AdapterError (list Z) :=
  local ← ok_or (cx_local ctx) (MissingContext (str "local MeshCore identity"));
  match signing_key_from_secret (li_secret local) with
  | Ok k => Ok k
  | Err _ => Err (MissingContext (str "local secret must be a 32-byte Ed25519 seed"))
  | Panic => Panic
  end.
Definition build_advert (a : MeshCoreAdapter) (ctx : ProtocolContext) (timestamp : Z) (location_e6 : option (Z * Z)) (zero_hop : bool) : outcome AdapterError OutboundFrame :=
  key ← local_key ctx;
  let name := default [] (li_display_name <$> cx_local ctx) in
  let loc := match location_e6 with Some l => Some l | None => mc_location_e6 a end in
  let data := mkAdvertData (mc_node_type a) (fst <$> loc) (snd <$> loc) None None (Some name) in
  advert ← match McAdvert.build key timestamp data with
           | Ok x => Ok x
           | Err e => Err (Unsupported (str "advert: " ++ identity_error_debug e))
           | Panic => Panic
           end;
  finish (McPacket.new (if zero_hop then RtDirect else RtFlood) PlAdvert (McAdvert.encode advert)) ctx.
(** The plaintext of a group message and its payload type. *)
Definition group_plain (msg : UnifiedMessage) (ctx : ProtocolContext) (ts : Z) : outcome AdapterError (PayloadType * list Z) :=
  match um_content_type msg with
  | Text =>
      local ← ok_or (cx_local ctx) (MissingContext (str "local display name"));
      text ← ok_or (UnifiedMessage.text_payload msg) (Unsupported (str "text payload is not UTF-8"));
      if decide (zlen (li_display_name local) + 2 + zlen text > MAX_TEXT_LEN) then Err AdTooLarge else
      p ← ok_or (compose_group_text ts (li_display_name local) text) AdTooLarge;
      Ok (PlGrpTxt, p)
  | Binary =>
      let dt := default 0xFF00 (s ← UnifiedMessage.meta msg DATA_TYPE; parse_unsigned 16 65535 (trim_0x (length s) s)) in
      if decide (zlen (um_payload msg) > MAX_GROUP_DATA_LENGTH) then Err AdTooLarge else
      p ← ok_or (compose_group_data dt (um_payload msg)) AdTooLarge;
      Ok (PlGrpData, p)
  | other => Err (Unsupported (ContentType_debug other ++ str " on a channel"))
  end.
Definition encode_group (msg : UnifiedMessage) (ctx : ProtocolContext) : outcome AdapterError McPacket :=
  let name := default PUBLIC_CHANNEL_NAME (um_channel msg) in
  ch ← ok_or (find_first (fun c => bool_decide (ck_name c = name)) (cx_channels ctx)) (MissingContext (str "channel key for '" ++ name ++ str "'"));
  secret ← ok_or (group_secret (ck_key ch)) (MissingContext (str "channel '" ++ name ++ str "' key must be 16 or 32 bytes"));
  let ts := default (cx_unix_time_s ctx) (um_timestamp msg) in
  '(ptype, plain) ← group_plain msg ctx ts;
  payload ← ok_or (build_group_datagram secret plain) AdTooLarge;
  Ok (McPacket.new (if is_zero_hop msg then RtDirect else RtFlood) ptype payload).
Definition encode_direct_text (msg : UnifiedMessage) (ctx : ProtocolContext) : outcome AdapterError McPacket :=
  key ← local_key ctx;
  peer_pk ← resolve_peer (um_destination msg) ctx;
  peer ← match mc_verifying_key peer_pk with
         | Ok p => Ok p
         | Err _ => Err (MissingContext (str "peer public key is not a valid Ed25519 key"))
         | Panic => Panic
         end;
  text ← ok_or (UnifiedMessage.text_payload msg) (Unsupported (str "text payload is not UTF-8"));
  if decide (zlen text > MAX_TEXT_LEN) then Err AdTooLarge else
  let attempt := default 0 (s ← UnifiedMessage.meta msg ATTEMPT; parse_unsigned 10 255 s) in
  let ts := default (cx_unix_time_s ctx) (um_timestamp msg) in
  plain ← ok_or (compose_text_plain ts TXT_TYPE_PLAIN attempt text) AdTooLarge;
  payload ← ok_or (build_datagram (shared_secret key peer) (hd 0 peer_pk) (hd 0 (ed_public key)) plain) AdTooLarge;
  '(route, path) ← route_and_path msg;
  Ok (McPacket.set_path path (McPacket.new route PlTxtMsg payload)).
Definition encode_ack (msg : UnifiedMessage) : outcome AdapterError McPacket :=
  code ← (if is_ack_len (zlen (um_payload msg)) then Ok (um_payload msg) else
          hexcode ← ok_or (match UnifiedMessage.meta msg ACK_CODE with Some s => Some s | None => um_reply_to msg end)
                      (MissingContext (str "ack code (4 bytes payload or ack_code metadata)"));
          b ← ok_or (hex_decode hexcode) (MissingContext (str "ack_code must be hex"));
          if negb (is_ack_len (zlen b)) then Err (MissingContext (str "ack code must be 4 or 6 bytes")) else Ok b);
  '(route, path) ← route_and_path msg;
  Ok (McPacket.set_path path (McPacket.new route PlAck code)).
Definition encode_advert_msg (a : MeshCoreAdapter) (msg : UnifiedMessage) (ctx : ProtocolContext) : outcome AdapterError OutboundFrame :=
  let loc := location_from_meta msg in
  if decide (um_content_type msg = Position /\ loc = None) then Err (MissingContext (str "position needs lat/lon (or lat_e6/lon_e6) metadata")) else
  build_advert a ctx (default (cx_unix_time_s ctx) (um_timestamp msg)) loc (is_zero_hop msg).
Definition mc_encode (a : MeshCoreAdapter) (msg : UnifiedMessage) (ctx : ProtocolContext) : outcome AdapterError OutboundFrame :=
  match um_content_type msg with
  | Text =>
      match um_destination msg with
      | IdMeshCore _ => p ← encode_direct_text msg ctx; finish p ctx
      | dest => if IdentityRef.is_broadcast dest then p ← encode_group msg ctx; finish p ctx
                else Err (Unsupported (str "destination " ++ IdentityRef.canonical dest ++ str " is not a MeshCore identity"))
      end
  | Binary =>
      if negb (IdentityRef.is_broadcast (um_destination msg)) then Err (Unsupported (str "binary is only carried as GRP_DATA on a channel")) else
      p ← encode_group msg ctx; finish p ctx
  | Advert | Position => encode_advert_msg a msg ctx
  | CtAck => p ← encode_ack msg; finish p ctx
  | other => Err (Unsupported (ContentType_debug other ++ str " cannot be carried by MeshCore"))
  end.

(** ** Decoding *)

Definition advert_meta (d : AdvertData) (msg : UnifiedMessage) : UnifiedMessage :=
  let msg := UnifiedMessage.set_meta NODE_TYPE (node_type.name (ad_node_type d)) msg in
  let msg := match ad_name d with Some n => UnifiedMessage.set_meta NAME n msg | None => msg end in
  match ad_lat_e6 d, ad_lon_e6 d with
  | Some lat, Some lon => UnifiedMessage.set_meta LON (format_e6 lon) (UnifiedMessage.set_meta LAT (format_e6 lat) msg)
  | _, _ => msg
  end.
Definition decode_advert (pkt : McPacket) (msg : UnifiedMessage) : outcome AdapterError UnifiedMessage :=
  adv ← match McAdvert.parse (mp_payload pkt) with Ok x => Ok x | Err e => Err (NotThisProtocol (str "advert: " ++ identity_error_debug e)) | Panic => Panic end;
  _ ← match McAdvert.verify adv with Ok x => Ok x | Err _ => Err AdAuthFailed | Panic => Panic end;
  let msg := UM.set_content_type Advert msg in
  let msg := UM.set_source (identity_ref (av_public_key adv)) msg in
  let msg := UM.set_timestamp (Some (av_timestamp adv)) msg in
  let msg := UM.set_payload (av_app_data adv) msg in
  let msg := UM.set_security Plaintext msg in
  let msg := UnifiedMessage.set_meta PUBKEY (hex_encode (av_public_key adv)) msg in
  Ok (match McAdvert.data adv with Some d => advert_meta d msg | None => msg end).
(** The message of a group plaintext. *)
Definition group_content (ptype : PayloadType) (plain : list Z) (msg : UnifiedMessage) : UnifiedMessage :=
  if decide (ptype = PlGrpTxt) then
    match parse_group_text plain with
    | Some g =>
        let msg := UM.set_payload (gr_text g) (UM.set_timestamp (Some (gr_timestamp g)) (UM.set_content_type Text msg)) in
        match gr_sender_name g with Some n => UnifiedMessage.set_meta SENDER_NAME n msg | None => msg end
    | None => UnifiedMessage.set_meta OPAQUE_REASON (str "group text flags not TXT_TYPE_PLAIN") (UM.set_payload plain (UM.set_content_type Opaque msg))
    end
  else
    match parse_group_data plain with
    | Some d => UnifiedMessage.set_meta DATA_TYPE (hex_u16 (gd_data_type d)) (UM.set_payload (gd_data d) (UM.set_content_type Binary msg))
    | None => UnifiedMessage.set_meta OPAQUE_REASON (str "malformed group data") (UM.set_payload plain (UM.set_content_type Opaque msg))
    end.
(** The first channel with the hash of the frame whose key verifies it. *)
Fixpoint open_group (hash : Z) (blob : list Z) (channels : list ChannelKey) : option (ChannelKey * list Z) :=
  match channels with
  | [] => None
  | ch :: rest =>
      match group_secret (ck_key ch) with
      | None => open_group hash blob rest
      | Some secret =>
          if decide (mc_channel_hash secret <> hash) then open_group hash blob rest else
          match mac_then_decrypt secret blob with Some plain => Some (ch, plain) | None => open_group hash blob rest end
      end
  end.
Definition decode_group (pkt : McPacket) (msg : UnifiedMessage) (ctx : ProtocolContext) : outcome AdapterError UnifiedMessage :=
  '(hash, blob) ← ok_or (split_group_datagram (mp_payload pkt)) (NotThisProtocol (str "group payload too short"));
  if negb (aligned (usize (zlen blob - CIPHER_MAC_SIZE))) then Err (NotThisProtocol (str "group ciphertext not block aligned")) else
  let msg := UnifiedMessage.set_meta CHANNEL_HASH (hex_encode [hash]) msg in
  let msg := UM.set_encrypted true msg in
  match open_group hash blob (cx_channels ctx) with
  | Some (ch, plain) =>
      let msg := UM.set_channel (Some (ck_name ch)) msg in
      let msg := UM.set_security (ForeignSharedKey MeshCore (ck_name ch)) msg in
      Ok (group_content (mp_ptype pkt) plain msg)
  | None => Ok (opaque (str "no matching channel key") msg)
  end.
(** The message of a direct plaintext from [peer]. *)
Definition direct_content (peer local_pk : list Z) (t : TextPlain) (msg : UnifiedMessage) : UnifiedMessage :=
  let msg := UM.set_source (identity_ref peer) msg in
  let msg := UM.set_destination (identity_ref local_pk) msg in
  let msg := UM.set_content_type Text msg in
  let msg := UM.set_timestamp (Some (tp_timestamp t)) msg in
  let msg := UM.set_security (ForeignDirect MeshCore true) msg in
  let msg := UnifiedMessage.set_meta ATTEMPT (dec (tp_attempt t)) msg in
  let '(kind, ack_key) := if decide (tp_txt_type t = TXT_TYPE_PLAIN) then (str "plain", peer)
                          else if decide (tp_txt_type t = TXT_TYPE_CLI_DATA) then (str "cli", peer)
                          else if decide (tp_txt_type t = TXT_TYPE_SIGNED_PLAIN) then (str "signed", local_pk)
                          else (str "unknown", peer) in
  let msg := UnifiedMessage.set_meta TXT_TYPE kind msg in
  let msg := match tp_author_prefix t with Some p => UnifiedMessage.set_meta AUTHOR_PREFIX (hex_encode p) msg | None => msg end in
  let msg := UnifiedMessage.set_meta ACK_CODE (hex_encode (ack_code (tp_ack_covered t) ack_key)) msg in
  UM.set_payload (tp_text t) msg.
(** The first known key with the sender's hash that verifies the message. *)
Fixpoint open_direct (key blob : list Z) (src : Z) (peers : list (IdentityRef * list Z)) : option (list Z * list Z) :=
  match peers with
  | [] => None
  | (_, kb) :: rest =>
      if negb (bool_decide (length kb = 32%nat) && bool_decide (hd 0 kb = src)) then open_direct key blob src rest else
      match mc_verifying_key kb with
      | Ok peer => match mac_then_decrypt (shared_secret key peer) blob with Some plain => Some (peer, plain) | None => open_direct key blob src rest end
      | _ => open_direct key blob src rest
      end
  end.
Definition decode_txt (pkt : McPacket) (msg : UnifiedMessage) (ctx : ProtocolContext) : outcome AdapterError UnifiedMessage :=
  '(dest, src, blob) ← ok_or (split_datagram (mp_payload pkt)) (NotThisProtocol (str "datagram too short"));
  if negb (aligned (usize (zlen blob - CIPHER_MAC_SIZE))) then Err (NotThisProtocol (str "ciphertext not block aligned")) else
  let msg := UM.set_source (prefix_ref [src]) msg in
  let msg := UM.set_destination (prefix_ref [dest]) msg in
  let msg := UM.set_wants_ack true (UM.set_encrypted true msg) in
  match cx_local ctx with
  | None => Ok (opaque (str "no local identity") msg)
  | Some local =>
      match signing_key_from_secret (li_secret local) with
      | Panic => Panic
      | Err _ => Ok (opaque (str "local secret unusable") msg)
      | Ok key =>
          let local_pk := ed_public key in
          if decide (hd 0 local_pk <> dest) then Ok (opaque (str "not addressed to us") msg) else
          match open_direct key blob src (cx_peer_keys ctx) with
          | None => Ok (opaque (str "no matching peer key") msg)
          | Some (peer, plain) =>
              match parse_text_plain plain with
              | None => Ok (opaque (str "decrypted but malformed text") msg)
              | Some t => Ok (direct_content peer local_pk t msg)
              end
          end
      end
  end.
Definition decode_ack (pkt : McPacket) (msg : UnifiedMessage) : outcome AdapterError UnifiedMessage :=
  if negb (is_ack_len (zlen (mp_payload pkt))) then Err (NotThisProtocol (str "ack payload must be 4 or 6 bytes")) else
  c ← slice (mp_payload pkt) 0 4;
  let code := hex_encode c in
  let msg := UM.set_reply_to (Some code) (UM.set_payload (mp_payload pkt) (UM.set_content_type CtAck msg)) in
  Ok (UM.set_security Plaintext (UnifiedMessage.set_meta ACK_CODE code msg)).
Definition decode_other (pkt : McPacket) (msg : UnifiedMessage) : UnifiedMessage :=
  let msg := UM.set_payload (mp_payload pkt) msg in
  match mp_ptype pkt with
  | PlReq | PlResponse | PlPath =>
      let msg := match split_datagram (mp_payload pkt) with Some (dest, src, _) => UM.set_destination (prefix_ref [dest]) (UM.set_source (prefix_ref [src]) msg) | None => msg end in
      let msg := UM.set_content_type (if decide (mp_ptype pkt = PlPath) then RouteControl else Other (PayloadType.as_u8 (mp_ptype pkt))) msg in
      opaque_keep_type (str "encrypted for another peer") msg
  | PlAnonReq =>
      let msg := if decide (zlen (mp_payload pkt) >= 36) then
                   UM.set_source (identity_ref (take 32 (drop 1 (mp_payload pkt)))) (UM.set_destination (prefix_ref (take 1 (mp_payload pkt))) msg)
                 else msg in
      opaque_keep_type (str "anonymous request for another peer") (UM.set_content_type (Other (PayloadType.as_u8 (mp_ptype pkt))) msg)
  | PlGrpTxt | PlGrpData => opaque_keep_type (str "group payload") (UM.set_content_type Opaque msg)
  | PlTrace | PlControl => UM.set_security Plaintext (UM.set_content_type RouteControl msg)
  | _ => UM.set_security Plaintext (UM.set_content_type (Other (PayloadType.as_u8 (mp_ptype pkt))) msg)
  end.
Definition framing {A} (o : outcome PacketError A) : outcome AdapterError A :=
  match o with Ok p => Ok p | Err e => Err (NotThisProtocol (str "framing: " ++ packet_error_debug e)) | Panic => Panic end.
Definition mc_decode (_ : MeshCoreAdapter) (frame : list Z) (meta_rx : RxMeta) (ctx : ProtocolContext) : outcome AdapterError UnifiedMessage :=
  pkt ← framing (McPacket.parse frame);
  let msg := mc_base_message pkt meta_rx in
  match mp_ptype pkt with
  | PlAdvert => decode_advert pkt msg
  | PlGrpTxt | PlGrpData => decode_group pkt msg ctx
  | PlTxtMsg => decode_txt pkt msg ctx
  | PlAck => decode_ack pkt msg
  | _ => Ok (decode_other pkt msg)
  end.

(** ** Detection *)

Definition mc_note (why : list Z) (s : DetectionScore) : DetectionScore := mkScore (ds_protocol s) (ds_score s) (ds_evidence s ++ [why]).
(** The evidence of a payload, or the reason to refuse the frame. *)
Definition evidence : Type := DetectionScore -> DetectionScore + DetectionScore.
Definition refuse (why : list Z) : evidence := fun s => inr (DetectionScore.reject why s).
Definition found (points : Z) (why : list Z) : evidence := fun s => inl (DetectionScore.add points why s).
Definition advert_evidence (payload : list Z) (s : DetectionScore) : outcome Empty_set (DetectionScore + DetectionScore) :=
  match McAdvert.parse payload with
  | Panic => Panic
  | Err _ => Ok (refuse (str "ADVERT shorter than 100 bytes") s)
  | Ok adv =>
      let s := DetectionScore.add 15 (str "ADVERT length >= 100") s in
      if is_ok (McAdvert.verify adv) then
        let s := DetectionScore.add 50 (str "ADVERT Ed25519 signature verifies (conclusive)") s in
        Ok (inl (match McAdvert.data adv with
                 | Some d => if decide (1 <= ad_node_type d <= 4) then mc_note (str "node type " ++ node_type.name (ad_node_type d)) s else s
                 | None => s
                 end))
      else Ok (refuse (str "ADVERT signature invalid (firmware drops it)") s)
  end.
Definition sane_group (ptype : PayloadType) (plain : list Z) : bool :=
  if decide (ptype = PlGrpTxt) then match parse_group_text plain with Some g => looks_like_text (gr_text g) | None => false end
  else bool_decide (is_Some (parse_group_data plain)).
Fixpoint channel_score (ptype : PayloadType) (hash : Z) (blob : list Z) (channels : list ChannelKey) (s : DetectionScore) : DetectionScore :=
  match channels with
  | [] => s
  | ch :: rest =>
      match group_secret (ck_key ch) with
      | None => channel_score ptype hash blob rest s
      | Some secret =>
          if decide (mc_channel_hash secret <> hash) then channel_score ptype hash blob rest s else
          let s := DetectionScore.add 10 (str "channel hash matches '" ++ ck_name ch ++ str "'") s in
          match mac_then_decrypt secret blob with
          | Some plain =>
              let s := DetectionScore.add 30 (str "group MAC verifies with known channel key") s in
              if sane_group ptype plain then DetectionScore.add 10 (str "decrypted group payload is well formed") s else s
          | None => s
          end
      end
  end.
Definition group_evidence (pkt : McPacket) (ctx : ProtocolContext) : evidence := fun s =>
  let n := zlen (mp_payload pkt) in
  if decide (n < 1 + 2 + 16 \/ (n - 3) mod 16 <> 0) then refuse (str "group payload length not hash + MAC + 16n") s else
  let s := DetectionScore.add 15 (str "group payload length plausible") s in
  inl (channel_score (mp_ptype pkt) (hd 0 (mp_payload pkt)) (drop 1 (mp_payload pkt)) (cx_channels ctx) s).
Definition datagram_evidence (pkt : McPacket) (ctx : ProtocolContext) : evidence := fun s =>
  let n := zlen (mp_payload pkt) in
  if decide (n < 2 + 2 + 16 \/ (n - 4) mod 16 <> 0) then refuse (str "datagram length not hashes + MAC + 16n") s else
  let s := DetectionScore.add 15 (str "datagram length plausible") s in
  inl (match cx_local ctx with
       | Some local => match li_id local with
                       | IdMeshCore (PublicKey pk) => if decide (hd 0 pk = hd 0 (mp_payload pkt)) then mc_note (str "dest hash matches our key prefix") s else s
                       | _ => s
                       end
       | None => s
       end).
Definition payload_evidence (pkt : McPacket) (ctx : ProtocolContext) (s : DetectionScore) : outcome Empty_set (DetectionScore + DetectionScore) :=
  let payload := mp_payload pkt in
  let n := zlen payload in
  match mp_ptype pkt with
  | PlAdvert => advert_evidence payload s
  | PlGrpTxt | PlGrpData => Ok (group_evidence pkt ctx s)
  | PlTxtMsg | PlReq | PlResponse | PlPath => Ok (datagram_evidence pkt ctx s)
  | PlAnonReq =>
      if decide (n < 36 \/ (n - 35) mod 16 <> 0) then Ok (refuse (str "ANON_REQ length not hash + pubkey + MAC + 16n") s) else
      let s := DetectionScore.add 15 (str "ANON_REQ length plausible") s in
      k ← slice payload 1 33;
      Ok (inl (if is_ok (mc_verifying_key k) then DetectionScore.add 5 (str "ANON_REQ sender key decompresses") s else s))
  | PlAck => Ok (if is_ack_len n then found 15 (str "ACK length 4/6") s else refuse (str "ACK payload not 4 or 6 bytes") s)
  | PlTrace =>
      ok ← (if RouteType.is_direct (mp_route pkt) && bool_decide (n >= 9) then
              b ← idx payload 8; Ok (bool_decide ((n - 9) mod Z.shiftl 1 (Z.land b 3) = 0))
            else Ok false);
      Ok (if ok : bool then found 15 (str "TRACE layout plausible") s else refuse (str "TRACE must be DIRECT with tag/auth/flags + route") s)
  | PlMultipart =>
      if decide (n < 5) then Ok (refuse (str "MULTIPART only carries ACKs (>= 5 bytes)") s) else
      b ← idx payload 0;
      Ok (if decide (Z.land b 0x0F <> PayloadType.as_u8 PlAck) then refuse (str "MULTIPART only carries ACKs (>= 5 bytes)") s
          else found 15 (str "MULTIPART multi-ACK plausible") s)
  | PlControl =>
      b ← idx payload 0;
      let sub := Z.shiftr b 4 in
      Ok (if RouteType.is_direct (mp_route pkt) && bool_decide (McPacket.hop_count pkt = 0) && bool_decide (sub = 8 \/ sub = 9)
          then found 15 (str "CONTROL zero-hop discover") s else refuse (str "CONTROL must be zero-hop DISCOVER_REQ/RESP") s)
  | PlRawCustom => Ok (found 5 (str "RAW_CUSTOM (unverifiable)") s)
  end.
(** The evidence of the framing and of the path. *)
Definition framing_evidence (pkt : McPacket) (s : DetectionScore) : DetectionScore :=
  let s := DetectionScore.add 25 (str "header version 00, path_len sane, lengths consistent") s in
  let s := if decide (mp_hash_size pkt = 1) then DetectionScore.add 5 (str "1-byte path hashes (PAYLOAD_VER_1)") s else s in
  if RouteType.is_flood (mp_route pkt) && bool_decide (McPacket.hop_count pkt > 0) then
    if forallb (fun h => is_valid_key_prefix (hd 0 h)) (McPacket.path_hashes pkt) then DetectionScore.add 5 (str "flood path entries are plausible key prefixes") s
    else mc_note (str "flood path contains 0x00/0xFF entry") s
  else s.
Definition mc_detect (_ : MeshCoreAdapter) (frame : list Z) (_ : RxMeta) (ctx : ProtocolContext) : outcome Empty_set DetectionScore :=
  let s := DetectionScore.none MeshCore in
  if decide (zlen frame < 3) then Ok (DetectionScore.reject (str "shorter than header + path_len + 1 payload byte") s) else
  match McPacket.parse frame with
  | Panic => Panic
  | Err e => Ok (DetectionScore.reject (str "framing: " ++ packet_error_debug e) s)
  | Ok pkt =>
      r ← payload_evidence pkt ctx (framing_evidence pkt s);
      Ok (match r with
          | inr s => s
          | inl s => if decide (sync_word (cx_profile ctx) = mc_profiles.SYNC_WORD) then DetectionScore.add 10 (str "radio sync word 0x12 (MeshCore/RadioLib private)") s else s
          end)
  end.

(** ** Replies and announcements *)

Definition mc_capabilities : ProtocolCapabilities := mkCaps true true false true true true false true true MAX_TEXT_LEN MAX_GROUP_DATA_LENGTH MAX_PATH_SIZE.
Definition mc_supports (ct : ContentType) : bool :=
  match ct with
  | Text => cap_text mc_capabilities | Binary => cap_binary mc_capabilities | Position => cap_position mc_capabilities
  | CtAck => cap_acknowledgements mc_capabilities | Advert => true | _ => false
  end.
Definition mc_reply_context (_ : MeshCoreAdapter) (msg : UnifiedMessage) : option ReplyContext :=
  if decide (um_protocol msg <> MeshCore) then None else
  let routing_hint := if decide (default 0 (hm_hops_travelled (um_hops msg)) > 0 /\ UnifiedMessage.meta msg HASH_SIZE = Some (str "1"))
                      then reverse (hm_path (um_hops msg)) ≫= (fun h => default [] (hex_decode h)) else [] in
  match um_content_type msg, um_channel msg with
  | (Text | Binary), Some ch => Some (mkReply MeshCore (IdBroadcast MeshCore) (Some ch) None [])
  | (Text | Advert), None => match um_source msg with IdMeshCore (PublicKey _) => Some (mkReply MeshCore (um_source msg) None None routing_hint) | _ => None end
  | _, _ => None
  end.
Definition mc_can_reply (a : MeshCoreAdapter) (msg : UnifiedMessage) (ctx : ProtocolContext) : bool :=
  match mc_reply_context a msg with
  | None => false
  | Some rc =>
      match rc_channel rc with
      | Some name => bool_decide (is_Some (cx_local ctx)) && existsb (fun c => bool_decide (ck_name c = name) && bool_decide (is_Some (group_secret (ck_key c)))) (cx_channels ctx)
      | None => match rc_to rc with IdMeshCore (PublicKey _) => is_ok (local_key ctx) | _ => false end
      end
  end.
Definition mc_periodic (a : MeshCoreAdapter) (ctx : ProtocolContext) : outcome Empty_set (MeshCoreAdapter * list OutboundFrame) :=
  if negb (is_ok (local_key ctx)) then Ok (a, []) else
  let due := match mc_last_advert_ms a with None => true | Some t => bool_decide (sat_sub (cx_now_ms ctx) t >= mc_advert_interval_ms a) end in
  if negb due then Ok (a, []) else
  let ts := Z.max (cx_unix_time_s ctx) (sat_add 32 (mc_last_advert_ts a) 1) in
  match build_advert a ctx ts None false with
  | Ok f => Ok (mkMcAdapter (mc_advert_interval_ms a) (mc_node_type a) (mc_location_e6 a) (Some (cx_now_ms ctx)) ts, [f])
  | Err _ => Ok (a, [])
  | Panic => Panic
  end.

#[global] Instance meshcore_radio_protocol : RadioProtocol MeshCoreAdapter := {
  rp_id _ := MeshCore;
  rp_capabilities _ := mc_capabilities;
  rp_detect := mc_detect;
  rp_decode := mc_decode;
  rp_encode := mc_encode;
  rp_can_reply := mc_can_reply;
  rp_reply_context := mc_reply_context;
  rp_periodic := mc_periodic
}.
End Adapter.
