(* ===== verification/McFacts.v ===== *)
(** * MeshCore packets and messages

    The packet codec is exact in both directions, ciphers and plaintexts are
    read back as they were written, and the adapter keeps [AdapterContract]. *)
From stdpp Require Import base tactics list numbers.
From Stdlib Require Import Lia Ascii String.
From S2P Require Import Prelude SmallMap Float32 Protocol CryptoLib ForeignCrypto Radio Text Strings Float64 Unified Proto MtWire MtAdapter MtFacts McWire McAdapter.
From stdpp Require Import list.
Import Text Strings UnifiedFacts ProtoFacts mc_packet mc_crypto mc_identity mc_messages mc_meta.
#[local] Open Scope Z_scope.

(** ** Header and path length *)

Lemma header_read_back route ptype : byte_ok (header_byte route ptype) /\ parse_header (header_byte route ptype) = Ok (route, ptype).
Proof. by destruct route, ptype. Qed.
Definition header_exact (b : Z) : bool :=
  match parse_header b with Ok (r, p) => bool_decide (header_byte r p = b) | Err _ => true | Panic => false end.
Lemma header_checked : forallb header_exact (Z.of_nat <$> seq 0 256) = true.
Proof. vm_compute. reflexivity. Qed.
Lemma header_written b : byte_ok b -> yields (fun x => header_byte x.1 x.2 = b) (parse_header b).
Proof.
  intros Hb. pose proof (MtWireFacts.byte_check _ header_checked b Hb) as H. unfold header_exact in H.
  destruct (parse_header b) as [[r p]|e|]; [|exact I|done]. by apply bool_decide_eq_true in H.
Qed.
Definition path_exact (b : Z) : bool :=
  match decode_path_len b with
  | Ok (n, s) => bool_decide (0 <= n <= 63 /\ 1 <= s <= 3 /\ n * s <= 64) && match encode_path_len n s with Ok b' => bool_decide (b' = b) | _ => false end
  | Err _ => true
  | Panic => false
  end.
Lemma path_checked : forallb path_exact (Z.of_nat <$> seq 0 256) = true.
Proof. vm_compute. reflexivity. Qed.
Lemma path_len_written b : byte_ok b -> yields (fun x => 0 <= x.1 <= 63 /\ 1 <= x.2 <= 3 /\ x.1 * x.2 <= 64 /\ encode_path_len x.1 x.2 = Ok b) (decode_path_len b).
Proof.
  intros Hb. pose proof (MtWireFacts.byte_check _ path_checked b Hb) as H. unfold path_exact in H.
  destruct (decode_path_len b) as [[n s]|e|]; [|exact I|done]. apply andb_true_iff in H as [H1 H2]. apply bool_decide_eq_true in H1.
  cbn [yields fst snd]. destruct (encode_path_len n s) as [b'|e|]; [|done|done]. apply bool_decide_eq_true in H2 as ->. naive_solver.
Qed.
Lemma path_len_read n s b : 0 <= n -> encode_path_len n s = Ok b -> byte_ok b /\ decode_path_len b = Ok (n, s).
Proof.
  intros Hn. unfold encode_path_len, MAX_HOP_COUNT, MAX_PATH_SIZE. destruct (decide (n > 63)); [done|]. destruct (decide (~ 1 <= s <= 3)) as [|Hs]; [done|].
  destruct (decide (n * s > 64)); [done|]. intros [= <-]. assert (Hs3 : 1 <= s <= 3) by lia. clear Hs.
  assert (H : forallb (fun n => forallb (fun s => bool_decide (n * s > 64) || (bool_decide (byte_ok (Z.lor n (u8 (Z.shiftl (u8 (s - 1)) 6)))) &&
    match decode_path_len (Z.lor n (u8 (Z.shiftl (u8 (s - 1)) 6))) with Ok (a, b) => bool_decide (a = n /\ b = s) | _ => false end)) [1; 2; 3]) (Z.of_nat <$> seq 0 64) = true) by (vm_compute; reflexivity).
  rewrite forallb_forall in H. specialize (H n). rewrite forallb_forall in H. specialize (H ltac:(apply list_elem_of_In, list_elem_of_fmap; exists (Z.to_nat n); split; [lia|apply elem_of_seq; lia]) s).
  specialize (H ltac:(assert (Hd : s = 1 \/ s = 2 \/ s = 3) by lia; cbn; naive_solver)). rewrite bool_decide_eq_false_2 in H by lia. cbn [orb] in H. apply andb_true_iff in H as [Hb Hd]. apply bool_decide_eq_true in Hb. split; [done|].
  destruct (decode_path_len _) as [[a b]|e|]; [|done|done]. apply bool_decide_eq_true in Hd as [-> ->]. done.
Qed.

(** ** Packets *)

Definition codes_ok (p : McPacket) : Prop := if RouteType.has_transport_codes (mp_route p) then in_u 16 (mp_codes p).1 /\ in_u 16 (mp_codes p).2 else mp_codes p = (0, 0).
(** What the encoder accepts, and the bytes of a frame. *)
Definition packet_shape (p : McPacket) : Prop :=
  1 <= zlen (mp_payload p) <= MAX_PACKET_PAYLOAD /\ 1 <= mp_hash_size p <= 3 /\ zlen (mp_path p) mod mp_hash_size p = 0 /\
  zlen (mp_path p) / mp_hash_size p <= MAX_HOP_COUNT /\ zlen (mp_path p) <= MAX_PATH_SIZE /\ McPacket.raw_len p <= MAX_TRANS_UNIT /\ codes_ok p.
Definition packet_ok (p : McPacket) : Prop := packet_shape p /\ bytes_ok (mp_payload p) /\ bytes_ok (mp_path p).
Lemma packet_payload p : packet_ok p -> 1 <= zlen (mp_payload p) <= MAX_PACKET_PAYLOAD /\ bytes_ok (mp_payload p).
Proof. intros ((H1 & _) & H2 & _). done. Qed.
Definition code_bytes (p : McPacket) : list Z := if RouteType.has_transport_codes (mp_route p) then le_bytes 2 (mp_codes p).1 ++ le_bytes 2 (mp_codes p).2 else [].
Lemma encode_whole p : packet_shape p -> exists pl, encode_path_len (zlen (mp_path p) / mp_hash_size p) (mp_hash_size p) = Ok pl /\ decode_path_len pl = Ok (zlen (mp_path p) / mp_hash_size p, mp_hash_size p) /\
  McPacket.encode p = Ok ([header_byte (mp_route p) (mp_ptype p)] ++ code_bytes p ++ [pl] ++ mp_path p ++ mp_payload p).
Proof.
  intros (H1 & H3 & H4 & H5 & H6 & H8 & H9). unfold McPacket.encode. rewrite decide_False by (intros E; rewrite E, zlen_nil in H1; lia).
  rewrite decide_False by lia. destruct (decide (~ 1 <= mp_hash_size p <= 3)); [lia|]. rewrite decide_False by (by intros E). rewrite decide_False by lia.
  assert (Hd : 0 <= zlen (mp_path p) / mp_hash_size p) by (apply Z.div_pos; [apply zlen_nonneg|lia]). unfold MAX_HOP_COUNT, MAX_PATH_SIZE in *.
  assert (Hu : u8 (zlen (mp_path p) / mp_hash_size p) = zlen (mp_path p) / mp_hash_size p) by (apply Z.mod_small; change (2 ^ 8) with 256; lia). rewrite Hu.
  assert (Hm : zlen (mp_path p) / mp_hash_size p * mp_hash_size p = zlen (mp_path p)) by (pose proof (Z.div_mod (zlen (mp_path p)) (mp_hash_size p) ltac:(lia)); lia).
  destruct (encode_path_len (zlen (mp_path p) / mp_hash_size p) (mp_hash_size p)) as [pl|e|] eqn:E.
  - destruct (path_len_read _ _ _ Hd E) as [Hb Hr]. exists pl. split; [done|]. split; [done|]. cbn [mbind outcome_bind]. rewrite decide_False by lia. reflexivity.
  - exfalso. unfold encode_path_len, MAX_HOP_COUNT, MAX_PATH_SIZE in E. rewrite Hm in E. repeat match type of E with context [decide ?P] => destruct (decide P) end; lia || done.
  - unfold encode_path_len in E. repeat match type of E with context [decide ?P] => destruct (decide P) end; done.
Qed.
Lemma from_le_16 z : in_u 16 z -> from_le (le_bytes 2 z) = z.
Proof. intros Hz. rewrite from_le_le_bytes. apply Z.mod_small. exact Hz. Qed.
Lemma lookup_at (p s : list Z) b i : i = zlen p -> (p ++ b :: s) !! Z.to_nat i = Some b.
Proof. intros ->. unfold zlen. rewrite Nat2Z.id. by rewrite lookup_app_r, Nat.sub_diag by lia. Qed.
Lemma codes_read p r :
  codes_ok p -> McPacket.parse_codes (mp_route p) ([header_byte (mp_route p) (mp_ptype p)] ++ code_bytes p ++ r) = Ok (mp_codes p, 1 + zlen (code_bytes p)).
Proof.
  unfold codes_ok, code_bytes, McPacket.parse_codes, TRANSPORT_CODES_LEN. destruct (RouteType.has_transport_codes (mp_route p)); [|by intros ->].
  intros [H1 H2]. assert (Hz : zlen (le_bytes 2 (mp_codes p).1 ++ le_bytes 2 (mp_codes p).2) = 4) by (unfold zlen; by rewrite length_app, !length_le_bytes).
  rewrite decide_False by (rewrite !zlen_app; rewrite zlen_app in Hz; pose proof (zlen_nonneg r); change (zlen [header_byte (mp_route p) (mp_ptype p)]) with 1; lia).
  rewrite (slice_mid [header_byte (mp_route p) (mp_ptype p)]) by (rewrite ?Hz; done). cbn [mbind outcome_bind]. rewrite Hz.
  rewrite take_app_length', drop_app_length' by (by rewrite length_le_bytes). rewrite !from_le_16 by done. by destruct (mp_codes p).
Qed.
Lemma packet_read p : packet_shape p -> exists f, McPacket.encode p = Ok f /\ McPacket.parse f = Ok p /\ 3 <= zlen f <= MAX_TRANS_UNIT.
Proof.
  intros Hok. destruct (encode_whole p Hok) as (pl & Hpl & Hdec & ->). destruct Hok as (H1 & H3 & H4 & _ & _ & H8 & H9).
  eexists. split; [reflexivity|]. set (h := header_byte (mp_route p) (mp_ptype p)).
  assert (Hcl : zlen (code_bytes p) = if RouteType.has_transport_codes (mp_route p) then TRANSPORT_CODES_LEN else 0) by (unfold code_bytes; destruct (RouteType.has_transport_codes _); [|done]; unfold zlen; by rewrite length_app, !length_le_bytes).
  assert (Hlen : zlen ([h] ++ code_bytes p ++ [pl] ++ mp_path p ++ mp_payload p) = McPacket.raw_len p) by (unfold McPacket.raw_len; rewrite !zlen_app, Hcl; change (zlen [h]) with 1; change (zlen [pl]) with 1; lia).
  assert (H3l : 3 <= McPacket.raw_len p) by (unfold McPacket.raw_len, TRANSPORT_CODES_LEN; pose proof (zlen_nonneg (mp_path p)); destruct (RouteType.has_transport_codes _); lia).
  split; [|lia]. unfold McPacket.parse. rewrite Hlen. rewrite decide_False by lia. rewrite decide_False by lia.
  rewrite (idx_ok _ 0 h) by done. cbn [mbind outcome_bind]. destruct (header_read_back (mp_route p) (mp_ptype p)) as [_ Hh]. fold h in Hh. rewrite Hh. cbn [mbind outcome_bind].
  unfold h. rewrite codes_read by done. fold h. cbn [mbind outcome_bind]. rewrite app_assoc. rewrite (lookup_at ([h] ++ code_bytes p) (mp_path p ++ mp_payload p) pl) by (by rewrite zlen_app). cbn [ok_or mbind outcome_bind].
  rewrite Hdec. cbn [mbind outcome_bind]. assert (Hm : zlen (mp_path p) / mp_hash_size p * mp_hash_size p = zlen (mp_path p)) by (pose proof (Z.div_mod (zlen (mp_path p)) (mp_hash_size p) ltac:(lia)); lia). rewrite Hm.
  rewrite decide_False by (rewrite <- Hlen, !zlen_app; change (zlen [h]) with 1; change (zlen [pl]) with 1; lia).
  rewrite (app_assoc _ [pl]). set (pre := ([h] ++ code_bytes p) ++ [pl]). assert (Hpre : zlen pre = 1 + zlen (code_bytes p) + 1) by (unfold pre; rewrite !zlen_app; done). rewrite <- Hpre.
  rewrite (slice_mid pre (mp_path p) (mp_payload p)) by done. cbn [mbind outcome_bind]. rewrite app_assoc. rewrite slice_from_app by (by rewrite zlen_app). cbn [mbind outcome_bind].
  rewrite decide_False by lia. by destruct p.
Qed.
Lemma le_bytes_back l : bytes_ok l -> length l = 2%nat -> le_bytes 2 (from_le l) = l /\ in_u 16 (from_le l).
Proof.
  intros Hl H2. split.
  - unfold le_bytes, from_le. rewrite be_bytes_from_be by (try apply Forall_reverse; try rewrite length_reverse; done). apply reverse_involutive.
  - pose proof (from_le_range l Hl) as H. unfold zlen in H. rewrite H2 in H. exact H.
Qed.
Lemma codes_exact route frame :
  bytes_ok frame -> 3 <= zlen frame ->
  yields (fun x => 1 <= x.2 /\ exists h cs, take (Z.to_nat x.2) frame = h :: cs /\ zlen cs = x.2 - 1 /\
    if RouteType.has_transport_codes route then cs = le_bytes 2 x.1.1 ++ le_bytes 2 x.1.2 /\ in_u 16 x.1.1 /\ in_u 16 x.1.2 else cs = [] /\ x.1 = (0, 0)) (McPacket.parse_codes route frame).
Proof.
  intros Hb Hl. unfold McPacket.parse_codes, TRANSPORT_CODES_LEN. destruct frame as [|h frame]; [done|]. destruct (RouteType.has_transport_codes route).
  - destruct (decide _) as [|H5]; [exact I|]. rewrite zlen_cons in H5. rewrite slice_in by (rewrite ?zlen_cons; lia). cbn [mbind outcome_bind yields fst snd].
    change (take (Z.to_nat (1 + 4 - 1)) (drop (Z.to_nat 1) (h :: frame))) with (take 4 frame). change (take (Z.to_nat (1 + 4)) (h :: frame)) with (h :: take 4 frame).
    set (tc := take 4 frame). assert (Htl : length tc = 4%nat) by (unfold tc; rewrite length_take; unfold zlen in H5; lia). inversion_clear Hb as [|? ? _ Hb'].
    assert (Htb : bytes_ok tc) by (by apply Forall_take). split; [lia|]. exists h, tc. split; [done|]. split; [unfold zlen; lia|].
    destruct (le_bytes_back (take 2 tc)) as [E1 R1]; [by apply Forall_take|rewrite length_take; lia|]. destruct (le_bytes_back (drop 2 tc)) as [E2 R2]; [by apply Forall_drop|rewrite length_drop; lia|].
    split; [by rewrite E1, E2, take_drop|done].
  - cbn [yields fst snd]. split; [lia|]. exists h, []. done.
Qed.
Lemma packet_exact frame : bytes_ok frame -> yields (fun p => packet_ok p /\ McPacket.encode p = Ok frame) (McPacket.parse frame).
Proof.
  intros Hb. unfold McPacket.parse. destruct (decide (zlen frame > MAX_TRANS_UNIT)) as [|Hmax]; [exact I|]. destruct (decide (zlen frame < 3)) as [|Hmin]; [exact I|].
  destruct (idx_in (E := PacketError) frame 0) as (b & -> & Hb0); [lia|]. cbn [mbind outcome_bind]. assert (Hbb : byte_ok b) by (by eapply Forall_lookup_1).
  eapply yields_bind; [by apply header_written|]. intros [route ptype] Hh. cbn [fst snd] in Hh. eapply yields_bind; [apply codes_exact; [done|lia]|]. intros [codes i] (Hi & h & cs & Htk & Hcl & Hcodes). cbn [fst snd] in *.
  destruct (frame !! Z.to_nat i) as [pl|] eqn:Hpl; [|exact I]. cbn [ok_or mbind outcome_bind]. assert (Hplb : byte_ok pl) by (by eapply Forall_lookup_1).
  eapply yields_bind; [by apply path_len_written|]. intros [n hs] (Hn & Hs & Hns & Henc). cbn [fst snd] in *. destruct (decide _) as [|Hend]; [exact I|].
  rewrite slice_in by nia. cbn [mbind outcome_bind]. unfold slice_from. rewrite slice_in by nia. cbn [mbind outcome_bind]. set (payload := take _ _). set (path := take _ _).
  assert (Hpa : payload = drop (Z.to_nat (i + 1 + n * hs)) frame) by (unfold payload; apply take_ge; rewrite length_drop; unfold zlen; lia).
  assert (Hplen : zlen path = n * hs) by (unfold path, zlen; rewrite length_take, length_drop; unfold zlen in *; nia).
  assert (Hpaylen : zlen payload = zlen frame - (i + 1 + n * hs)) by (rewrite Hpa; unfold zlen in *; rewrite length_drop; nia).
  destruct (decide _) as [|Hpm]; [exact I|]. cbn [yields]. set (p := mkMcPacket route ptype codes hs path payload).
  assert (Hdivp : zlen path / hs = n) by (rewrite Hplen; apply Z.div_mul; lia).
  assert (Hch : h = b) by (destruct frame as [|x frame]; [done|]; cbn in Hb0; injection Hb0 as ->; destruct (Z.to_nat i) eqn:Ei; [lia|]; by injection Htk).
  assert (Hfr : frame = [header_byte route ptype] ++ cs ++ [pl] ++ path ++ payload).
  { rewrite Hh. rewrite <- (take_drop (Z.to_nat i) frame) at 1. rewrite Htk, Hch. cbn [app]. f_equal. f_equal. rewrite (drop_S _ _ _ Hpl). cbn [app]. f_equal.
    rewrite Hpa. unfold path. replace (S (Z.to_nat i)) with (Z.to_nat (i + 1)) by lia. replace (i + 1 + n * hs - (i + 1)) with (n * hs) by lia. rewrite <- (take_drop (Z.to_nat (n * hs)) (drop (Z.to_nat (i + 1)) frame)) at 1. f_equal.
    rewrite drop_drop. f_equal. nia. }
  assert (Hcb : code_bytes p = cs) by (unfold code_bytes, p; cbn [mp_route mp_codes]; destruct (RouteType.has_transport_codes route); [by destruct Hcodes as [-> _]|by destruct Hcodes as [-> _]]).
  assert (Hraw : McPacket.raw_len p = zlen frame).
  { unfold McPacket.raw_len, p, TRANSPORT_CODES_LEN. cbn [mp_path mp_payload mp_route]. assert (Hcz : zlen cs = if RouteType.has_transport_codes route then 4 else 0).
    { destruct (RouteType.has_transport_codes route); [|by destruct Hcodes as [-> _]]. destruct Hcodes as [-> _]. unfold zlen. by rewrite length_app, !length_le_bytes. } destruct (RouteType.has_transport_codes route); lia. }
  assert (Hok : packet_ok p).
  { split; [|split; [cbn [p mp_payload]; rewrite Hpa; by apply Forall_drop|by apply Forall_take, Forall_drop]]. unfold packet_shape. cbn [p mp_payload mp_path mp_hash_size].
    split; [unfold MAX_PACKET_PAYLOAD in *; lia|]. split; [done|]. split; [rewrite Hplen; apply Z.mod_mul; lia|].
    split; [rewrite Hdivp; unfold MAX_HOP_COUNT; lia|]. split; [unfold MAX_PATH_SIZE; lia|]. split; [change (McPacket.raw_len p <= MAX_TRANS_UNIT); lia|].
    unfold codes_ok. cbn [p mp_route mp_codes]. destruct (RouteType.has_transport_codes route); apply Hcodes. }
  split; [exact Hok|]. destruct (encode_whole p (proj1 Hok)) as (pl' & Henc' & _ & ->). rewrite Hcb. cbn [p mp_route mp_ptype mp_path mp_payload mp_hash_size] in *.
  f_equal. rewrite Hfr. rewrite Hdivp in Henc'. assert (Hpleq : pl' = pl) by congruence. by rewrite Hpleq.
Qed.

(** ** Ciphers *)

Section Blocks.
Context (f g : list Z -> list Z) (Hf : forall b, length b = 16%nat -> length (f b) = 16%nat) (Hg : forall b, length b = 16%nat -> g (f b) = b).
Lemma each_block_len : forall fuel l, length (each_block fuel f l) = length l.
Proof using Hf.
  induction fuel as [|k IH]; intros l; [done|]. cbn [each_block]. unfold CIPHER_BLOCK_SIZE. case_decide; [done|].
  rewrite length_app, IH, length_drop, Hf by (rewrite length_take; lia). lia.
Qed.
Lemma each_block_bytes : (forall b, bytes_ok b -> bytes_ok (f b)) -> forall fuel l, bytes_ok l -> bytes_ok (each_block fuel f l).
Proof.
  intros Hb. induction fuel as [|k IH]; intros l Hl; [done|]. cbn [each_block]. case_decide; [done|].
  apply Forall_app_2; [apply Hb; by apply Forall_take|apply IH; by apply Forall_drop].
Qed.
Lemma each_block_inv : forall fuel l, (length l <= fuel)%nat -> each_block fuel g (each_block fuel f l) = l.
Proof using Hf Hg.
  induction fuel as [|k IH]; intros l Hl; [done|]. cbn [each_block]. unfold CIPHER_BLOCK_SIZE in *. destruct (decide (length l < 16)%nat) as [Hs|Hs]; [by rewrite decide_True|].
  assert (Ht : length (take 16 l) = 16%nat) by (rewrite length_take; lia). assert (Hft : length (f (take 16 l)) = 16%nat) by (by apply Hf).
  rewrite decide_False by (rewrite length_app; lia). rewrite take_app_length', drop_app_length' by done. rewrite Hg, IH by (try rewrite length_drop; lia || done). apply take_drop.
Qed.
End Blocks.
Lemma padded_len p : zlen (zero_padded p) mod 16 = 0 /\ zlen p <= zlen (zero_padded p) < zlen p + 16.
Proof.
  unfold zero_padded, zlen. rewrite length_app, length_replicate. pose proof (Nat.mod_upper_bound (length p) 16 ltac:(lia)) as H.
  pose proof (Nat.div_mod (length p) 16 ltac:(lia)) as Hd. destruct (decide (length p mod 16 = 0)%nat) as [E|E].
  - rewrite E. change ((16 - 0) mod 16)%nat with 0%nat. rewrite Nat.add_0_r. split; [|lia]. rewrite Hd, E, Nat.add_0_r, Nat2Z.inj_mul. apply Z.mod_divide; [lia|]. exists (Z.of_nat (length p / 16)). lia.
  - rewrite (Nat.mod_small (16 - length p mod 16)) by lia. split; [|lia]. apply Z.mod_divide; [lia|]. exists (Z.of_nat (length p / 16) + 1). lia.
Qed.

Section CipherFacts.
Context {C : CryptoLib} {F : ForeignCrypto} `{!CryptoLibLaws C} `{!ForeignCryptoLaws F}.
Lemma ecb_spec secret p : exists ct, aes_ecb_encrypt secret p = ct /\ zlen ct = zlen (zero_padded p) /\ (p <> [] -> aes_ecb_decrypt secret ct = Some (zero_padded p)).
Proof.
  eexists. split; [reflexivity|]. unfold aes_ecb_encrypt. set (z := zero_padded p). set (e := aes128_encrypt_block (aes_key secret)).
  assert (Hl : length (each_block (length z) e z) = length z) by (apply each_block_len; intros b Hb; by apply block_enc_len).
  split; [unfold zlen; by rewrite Hl|]. intros Hp. destruct (padded_len p) as [Hm Hz]. fold z in Hm, Hz. unfold aes_ecb_decrypt.
  assert (Hne : each_block (length z) e z <> []).
  { intros E. apply (f_equal length) in E. rewrite Hl in E. destruct p; [done|]. rewrite zlen_cons in Hz. unfold zlen in Hz. cbn in E. lia. }
  rewrite decide_False by done. unfold aligned, zlen. rewrite Hl. fold (zlen z). rewrite bool_decide_eq_true_2 by done. cbn [negb]. f_equal.
  apply each_block_inv; [intros b Hb; by apply block_enc_len|intros b Hb; by apply block_correct|done].
Qed.
Lemma mac_len secret ct : length (mac secret ct) = 2%nat.
Proof. unfold mac, block_hmac. rewrite length_take, hmac_len. done. Qed.
Lemma sealed_spec secret p :
  zlen (encrypt_then_mac secret p) = 2 + zlen (zero_padded p) /\ (p <> [] -> mac_then_decrypt secret (encrypt_then_mac secret p) = Some (zero_padded p)).
Proof.
  destruct (ecb_spec secret p) as (ct & Hct & Hl & Hd). unfold encrypt_then_mac. rewrite Hct. pose proof (mac_len secret ct) as Hm.
  assert (Hz : zlen (mac secret ct ++ ct) = 2 + zlen (zero_padded p)) by (rewrite zlen_app, Hl; unfold zlen; rewrite Hm; done).
  split; [done|]. intros Hp. unfold mac_then_decrypt, CIPHER_MAC_SIZE. destruct (padded_len p) as [Hal Hge].
  assert (Hp1 : 1 <= zlen p) by (destruct p; [done|]; rewrite zlen_cons; pose proof (zlen_nonneg p); lia).
  rewrite Hz. rewrite decide_False by lia. rewrite take_app_length', drop_app_length' by done. unfold aligned. rewrite Hl. rewrite bool_decide_eq_true_2 by done. cbn [negb].
  rewrite decide_False by (intros E; by apply E). by apply Hd.
Qed.
Lemma opened_wf secret blob plain : mac_then_decrypt secret blob = Some plain -> zlen plain <= zlen blob /\ (bytes_ok blob -> bytes_ok plain).
Proof.
  unfold mac_then_decrypt. repeat (match goal with |- context [if ?c then _ else _] => destruct c end; [done|]). unfold aes_ecb_decrypt.
  destruct (decide (drop 2 blob = [])); [done|]. destruct (negb _); [done|]. intros [= <-]. split.
  - unfold zlen. rewrite each_block_len by (intros b Hb; by apply block_dec_len). rewrite length_drop. lia.
  - intros Hb. apply each_block_bytes; [intros b Hbb; by apply block_dec_bytes|]. by apply Forall_drop.
Qed.
Lemma shared_agree a b : shared_secret a (ed_public b) = shared_secret b (ed_public a).
Proof. unfold shared_secret. by rewrite !ed_montgomery, x25519_comm. Qed.
End CipherFacts.

(** ** Plaintexts *)

Lemma utf8_prefix_encoded b : well_encoded (utf8_prefix b).
Proof. unfold utf8_prefix. destruct (utf8_valid b) eqn:E; [by apply utf8_valid_iff|]. cbv zeta. destruct (utf8_valid (take _ b)) eqn:E2; [by apply utf8_valid_iff|constructor]. Qed.
Lemma utf8_prefix_id b : utf8_valid b = true -> utf8_prefix b = b.
Proof. unfold utf8_prefix. by intros ->. Qed.
Lemma utf8_prefix_len b : zlen (utf8_prefix b) <= zlen b.
Proof. unfold utf8_prefix. destruct (utf8_valid b); [lia|]. cbv zeta. destruct (utf8_valid (take _ b)); [|rewrite zlen_nil; apply zlen_nonneg]. unfold zlen. rewrite length_take. lia. Qed.
Lemma until_nul_at s r : contains_nul s = false -> until_nul (s ++ 0 :: r) = length s.
Proof.
  induction s as [|b s IH]; [done|]. unfold contains_nul in *. cbn [existsb app until_nul length]. intros [Hb Hs]%orb_false_iff. apply bool_decide_eq_false in Hb.
  rewrite decide_False by done. by rewrite IH.
Qed.
Lemma until_nul_all s : contains_nul s = false -> until_nul s = length s.
Proof.
  induction s as [|b s IH]; [done|]. unfold contains_nul in *. cbn [existsb until_nul length]. intros [Hb Hs]%orb_false_iff. apply bool_decide_eq_false in Hb. rewrite decide_False by done. by rewrite IH.
Qed.
Lemma until_nul_padded s k : contains_nul s = false -> until_nul (s ++ replicate k 0) = length s.
Proof. intros Hs. destruct k; [rewrite app_nil_r; by apply until_nul_all|by apply until_nul_at]. Qed.
(** A plaintext of type 0 with its padding. *)
Lemma plain_read ts flags body k :
  in_u 32 ts -> 0 <= flags < 4 -> contains_nul body = false -> utf8_valid body = true ->
  parse_text_plain ((le_bytes 4 ts ++ [flags] ++ body) ++ replicate k 0) = Some (mkTextPlain ts TXT_TYPE_PLAIN flags None body (le_bytes 4 ts ++ [flags] ++ body)).
Proof.
  intros Ht Hf Hn Hu. unfold parse_text_plain. pose proof (length_le_bytes 4 ts) as H4.
  rewrite decide_False by (rewrite !zlen_app; unfold zlen; rewrite H4; cbn; lia). rewrite <- !app_assoc. rewrite take_app_length' by done. rewrite from_le_32 by done.
  assert (Hfl : (le_bytes 4 ts ++ [flags] ++ body ++ replicate k 0) !! 4%nat = Some flags) by (rewrite lookup_app_r by lia; by rewrite H4).
  rewrite Hfl. cbn [from_option]. unfold id. cbn [app]. assert (H0 : Z.shiftr flags 2 = 0) by (rewrite Z.shiftr_div_pow2 by lia; apply Z.div_small; lia).
  rewrite H0. rewrite decide_False by done. cbn [mbind option_bind]. f_equal.
  assert (Hd : drop 5 (le_bytes 4 ts ++ flags :: body ++ replicate k 0) = body ++ replicate k 0).
  { change (flags :: body ++ replicate k 0) with ([flags] ++ body ++ replicate k 0). rewrite app_assoc. apply drop_app_length'. rewrite length_app, H4. done. }
  rewrite Hd, until_nul_padded by done. rewrite take_app_length. rewrite utf8_prefix_id by done.
  assert (Hl3 : Z.land flags 3 = flags) by (change 3 with (Z.ones 2); rewrite Z.land_ones by lia; apply Z.mod_small; lia). rewrite Hl3. f_equal.
  change (flags :: body ++ replicate k 0) with ([flags] ++ body ++ replicate k 0). rewrite !app_assoc, <- app_assoc. rewrite (app_assoc (le_bytes 4 ts ++ [flags])). apply take_app_length'. rewrite !length_app, H4. done.
Qed.
Lemma plain_parsed plain t : parse_text_plain plain = Some t -> bytes_ok plain ->
  well_encoded (tp_text t) /\ zlen (tp_text t) <= zlen plain /\ from_option bytes_ok True (tp_author_prefix t).
Proof.
  intros H Hb. unfold parse_text_plain in H. destruct (decide (zlen plain < 5)); [done|]. apply bind_Some in H as ([a st] & Ha & H). injection H as <-. cbn [tp_text tp_author_prefix].
  split; [apply utf8_prefix_encoded|]. split.
  - etrans; [apply utf8_prefix_len|]. unfold zlen. rewrite length_take, length_drop. lia.
  - destruct (decide _); [|by simplify_eq]. apply bind_Some in Ha as (p & Hp & Ha). simplify_eq. unfold get_range in Hp. case_decide; simplify_eq. cbn. by apply Forall_take, Forall_drop.
Qed.
(** The first separator is the one written. *)
Lemma split_written name text : split_once (str ": ") name = None -> split_once (str ": ") (name ++ str ": " ++ text) = Some (name, text).
Proof.
  assert (Hstart : forall s, split_once (str ": ") s = if starts_with (str ": ") s then Some ([], drop 2 s) else match s with [] => None | b :: s' => match split_once (str ": ") s' with Some (l, r) => Some (b :: l, r) | None => None end end) by (by intros []).
  induction name as [|b name IH]; intros Hn.
  - cbn [app]. rewrite Hstart. replace (starts_with (str ": ") (str ": " ++ text)) with true; [done|]. symmetry. unfold starts_with. by rewrite take_app_length, bool_decide_eq_true_2.
  - rewrite Hstart in Hn. rewrite Hstart. cbn [app]. destruct (starts_with (str ": ") (b :: name)) eqn:E1; [done|]. destruct (split_once (str ": ") name) as [[l r]|] eqn:E2; [done|]. rewrite (IH eq_refl).
    replace (starts_with (str ": ") (b :: name ++ str ": " ++ text)) with false; [done|]. symmetry. unfold starts_with in *. apply bool_decide_eq_false in E1. apply bool_decide_eq_false. intros E. apply E1.
    destruct name as [|c name]; [cbn in E; discriminate E|]. exact E.
Qed.
Lemma split_parts s l r : split_once (str ": ") s = Some (l, r) -> s = l ++ str ": " ++ r.
Proof.
  revert l r. induction s as [|b s IH]; intros l r; cbn [split_once].
  - unfold starts_with. cbn. done.
  - destruct (starts_with (str ": ") (b :: s)) eqn:E; [|destruct (split_once (str ": ") s) as [[l' r']|]; [|done]; intros [= <- <-]; by rewrite (IH _ _ eq_refl)].
    intros [= <- <-]. unfold starts_with in E. apply bool_decide_eq_true in E. transitivity (take (length (str ": ")) (b :: s) ++ drop (length (str ": ")) (b :: s)); [by rewrite take_drop|by rewrite E].
Qed.
(** A text with a separator is split at the first one. *)
Lemma split_found name text : exists l r, split_once (str ": ") (name ++ str ": " ++ text) = Some (l, r).
Proof.
  induction name as [|b name (l & r & IH)]; [exists [], text; by apply (split_written [])|]. cbn [app split_once].
  destruct (starts_with (str ": ") _); [by eexists _, _|]. rewrite IH. by eexists _, _.
Qed.
Lemma split_before s l r : split_once (str ": ") s = Some (l, r) -> split_once (str ": ") l = None.
Proof.
  revert l r. induction s as [|b s IH]; intros l r; cbn [split_once]; [done|].
  destruct (starts_with (str ": ") (b :: s)) eqn:E; [intros [= <- <-]; done|].
  destruct (split_once (str ": ") s) as [[l' r']|] eqn:Es; [|done]. intros [= <- <-]. cbn [split_once]. rewrite (IH _ _ eq_refl).
  apply split_parts in Es. subst s. replace (starts_with (str ": ") (b :: l')) with false; [done|]. symmetry.
  unfold starts_with in *. apply bool_decide_eq_false in E. apply bool_decide_eq_false. intros E'. apply E. destruct l' as [|x l']; [cbn in E'; discriminate E'|exact E'].
Qed.
Lemma split_encoded s l r : well_encoded s -> split_once (str ": ") s = Some (l, r) -> well_encoded l /\ zlen r <= zlen s.
Proof.
  intros Hs ->%split_parts. split; [|rewrite !zlen_app; pose proof (zlen_nonneg l); pose proof (zlen_nonneg (str ": ")); lia].
  pose proof (truncate_encoded _ (length l) Hs) as H. rewrite take_app_length in H. apply H. unfold is_char_boundary. rewrite lookup_app_r, Nat.sub_diag by lia. cbn. apply orb_true_r.
Qed.

(** ** Messages the decoder builds *)

Definition mc_speaks (m : UnifiedMessage) : Prop := um_protocol m = MeshCore /\ text_ok m /\ um_bridge_path m = [].
Lemma mc_speaks_meta k v m : mc_speaks m -> well_encoded v -> mc_speaks (UnifiedMessage.set_meta k v m).
Proof. intros (H1 & H2 & H3) Hv. split; [done|]. split; [by apply set_meta_text|done]. Qed.
Lemma mc_speaks_payload v m : zlen v < 2 ^ 32 -> mc_speaks m -> mc_speaks (UM.set_payload v m).
Proof. intros Hv (H1 & (H2 & H3 & _) & H4). by repeat split. Qed.
Lemma mc_speaks_source v m : identity_ok v -> mc_speaks m -> mc_speaks (UM.set_source v m).
Proof. intros Hv (H1 & (_ & H3 & H4) & H5). by repeat split. Qed.
(** Fields the contract does not speak of. *)
Lemma mc_speaks_type v m : mc_speaks m -> mc_speaks (UM.set_content_type v m).
Proof. intros H. exact H. Qed.
Lemma mc_speaks_time v m : mc_speaks m -> mc_speaks (UM.set_timestamp v m).
Proof. intros H. exact H. Qed.
Lemma mc_speaks_security v m : mc_speaks m -> mc_speaks (UM.set_security v m).
Proof. intros H. exact H. Qed.
Lemma mc_speaks_encrypted v m : mc_speaks m -> mc_speaks (UM.set_encrypted v m).
Proof. intros H. exact H. Qed.
Lemma mc_speaks_destination v m : mc_speaks m -> mc_speaks (UM.set_destination v m).
Proof. intros H. exact H. Qed.
Lemma mc_speaks_channel v m : mc_speaks m -> mc_speaks (UM.set_channel v m).
Proof. intros H. exact H. Qed.
Lemma mc_speaks_ack v m : mc_speaks m -> mc_speaks (UM.set_wants_ack v m).
Proof. intros H. exact H. Qed.
Lemma mc_speaks_reply v m : mc_speaks m -> mc_speaks (UM.set_reply_to v m).
Proof. intros H. exact H. Qed.
Lemma hex_u16_encoded n : well_encoded (hex_u16 n).
Proof. apply hex_encoded, be_bytes_ok. Qed.
Lemma prefix_identity l : bytes_ok l -> identity_ok (prefix_ref l).
Proof. done. Qed.
Lemma format_e6_encoded v : well_encoded (format_e6 v).
Proof. unfold format_e6. destruct (decide (v < 0)); enc. constructor. Qed.
Lemma route_name_encoded r : well_encoded (RouteType.name r).
Proof. destruct r; cbn [RouteType.name]; enc. Qed.
Lemma payload_name_encoded p : well_encoded (PayloadType.name p).
Proof. destruct p; cbn [PayloadType.name]; enc. Qed.
Lemma node_name_encoded t : well_encoded (node_type.name t).
Proof. unfold node_type.name. repeat case_match; enc. Qed.
Section Contract.
Context {C : CryptoLib} {F : ForeignCrypto} `{!CryptoLibLaws C} `{!ForeignCryptoLaws F}.
Lemma mc_base_speaks pkt meta : mc_speaks (mc_base_message pkt meta).
Proof.
  unfold mc_base_message. assert (H0 : forall x, mc_speaks x -> mc_speaks (UnifiedMessage.set_meta HASH_SIZE (dec (mp_hash_size pkt)) (UnifiedMessage.set_meta ROUTE (RouteType.name (mp_route pkt)) (UnifiedMessage.set_meta PAYLOAD_TYPE (PayloadType.name (mp_ptype pkt)) x)))).
  { intros x Hx. apply mc_speaks_meta; [|enc]. apply mc_speaks_meta; [|apply route_name_encoded]. apply mc_speaks_meta; [done|apply payload_name_encoded]. }
  destruct (RouteType.has_transport_codes _); [apply mc_speaks_meta; [|enc; apply hex_u16_encoded]|]; apply H0; (split; [done|]; split; [|done]; split; [by constructor|]; split; [constructor|done]).
Qed.
Lemma opaque_keep_speaks why m : well_encoded why -> mc_speaks m -> mc_speaks (opaque_keep_type why m).
Proof. intros Hw Hm. unfold opaque_keep_type. by apply mc_speaks_meta. Qed.
Lemma opaque_speaks why m : well_encoded why -> mc_speaks m -> mc_speaks (opaque why m).
Proof. intros Hw Hm. unfold opaque. by apply opaque_keep_speaks. Qed.
Lemma advert_parsed payload : bytes_ok payload -> yields (fun a => bytes_ok (av_public_key a) /\ length (av_public_key a) = 32%nat /\ zlen (av_app_data a) <= 32) (McAdvert.parse payload).
Proof.
  intros Hb. unfold McAdvert.parse, ADVERT_MIN_LEN, ADVERT_MAX_LEN. destruct (decide _) as [|Hl]; [exact I|]. rewrite slice_in by lia. cbn [mbind outcome_bind]. rewrite slice_in by lia. cbn [mbind outcome_bind].
  rewrite slice_in by lia. cbn [mbind outcome_bind]. rewrite slice_in by lia. cbn [mbind outcome_bind yields av_public_key av_app_data].
  split; [by apply Forall_take, Forall_drop|]. split; [rewrite length_take, length_drop; unfold zlen in Hl; lia|]. unfold zlen. rewrite length_take. lia.
Qed.
Lemma advert_name d data : AdvertData.parse data = Some d -> from_option well_encoded True (ad_name d).
Proof.
  unfold AdvertData.parse. intros (fl & _ & H)%bind_Some. apply bind_Some in H as ([[la lo] i] & _ & H). apply bind_Some in H as ([f1 i1] & _ & H). apply bind_Some in H as ([f2 i2] & _ & H).
  injection H as <-. cbn [ad_name]. destruct (decide _); [|done]. apply utf8_prefix_encoded.
Qed.
Lemma decode_advert_wf pkt m : packet_ok pkt -> mc_speaks m -> yields mc_speaks (decode_advert pkt m).
Proof.
  intros [_ Hb]%packet_payload Hm. unfold decode_advert. pose proof (advert_parsed _ Hb) as Hp. destruct (McAdvert.parse (mp_payload pkt)) as [adv|e|]; [|exact I|done]. destruct Hp as (Hk & Hkl & Had). cbn [mbind outcome_bind].
  unfold McAdvert.verify. destruct (negb _); [exact I|]. destruct (ed_verify_strict _ _ _); [|exact I]. cbn [mbind outcome_bind yields].
  set (m1 := UnifiedMessage.set_meta PUBKEY _ _). assert (H1 : mc_speaks m1).
  { unfold m1. apply mc_speaks_meta; [|enc]. apply mc_speaks_security, mc_speaks_payload; [change (2 ^ 32) with 4294967296; lia|]. apply mc_speaks_time, mc_speaks_source; [by split|]. by apply mc_speaks_type. }
  clearbody m1. destruct (McAdvert.data adv) as [d|] eqn:Ed; [|done]. unfold advert_meta. pose proof (advert_name _ _ Ed) as Hname.
  assert (H2 : mc_speaks (match ad_name d with Some n => UnifiedMessage.set_meta NAME n (UnifiedMessage.set_meta NODE_TYPE (node_type.name (ad_node_type d)) m1) | None => UnifiedMessage.set_meta NODE_TYPE (node_type.name (ad_node_type d)) m1 end)).
  { assert (H3 : mc_speaks (UnifiedMessage.set_meta NODE_TYPE (node_type.name (ad_node_type d)) m1)) by (apply mc_speaks_meta; [done|apply node_name_encoded]). destruct (ad_name d); [by apply mc_speaks_meta|done]. }
  destruct (ad_lat_e6 d) as [la|]; [|done]. destruct (ad_lon_e6 d) as [lo|]; [|done]. apply mc_speaks_meta; [|apply format_e6_encoded]. apply mc_speaks_meta; [done|apply format_e6_encoded].
Qed.
Lemma group_content_speaks ptype plain m : bytes_ok plain -> zlen plain <= 255 -> mc_speaks m -> mc_speaks (group_content ptype plain m).
Proof.
  intros Hb Hl Hm. assert (H32 : forall l : list Z, zlen l <= 255 -> zlen l < 2 ^ 32) by (intros l Hx; change (2 ^ 32) with 4294967296; lia). unfold group_content. destruct (decide (ptype = PlGrpTxt)).
  - unfold parse_group_text. destruct (parse_text_plain plain) as [t|] eqn:Et; cbn [mbind option_bind].
    + destruct (plain_parsed _ _ Et Hb) as (H1 & H2 & _). destruct (decide _); [apply mc_speaks_meta; [|enc]; by apply mc_speaks_payload; [apply H32|]|].
      destruct (split_once (str ": ") (tp_text t)) as [[nm r]|] eqn:Es; cbn [gr_text gr_timestamp gr_sender_name].
      * destruct (split_encoded _ _ _ H1 Es) as [H3 H4]. apply mc_speaks_meta; [|done]. apply mc_speaks_payload; [apply H32; lia|exact Hm].
      * apply mc_speaks_payload; [apply H32; lia|exact Hm].
    + apply mc_speaks_meta; [|enc]. by apply mc_speaks_payload; [apply H32|].
  - destruct (parse_group_data plain) as [d|] eqn:Ed; apply mc_speaks_meta.
    + apply mc_speaks_payload; [|exact Hm]. apply H32. unfold parse_group_data in Ed. destruct (decide _); [done|]. apply bind_Some in Ed as (x & Hx & Ed). injection Ed as <-. cbn [gd_data].
      unfold get_range in Hx. case_decide; simplify_eq. unfold zlen in *. rewrite length_take, length_drop. lia.
    + apply hex_u16_encoded.
    + by apply mc_speaks_payload; [apply H32|].
    + enc.
Qed.
Lemma open_group_wf hash blob l ch plain : open_group hash blob l = Some (ch, plain) -> zlen plain <= zlen blob /\ (bytes_ok blob -> bytes_ok plain).
Proof.
  induction l as [|c l IH]; [done|]. cbn [open_group]. destruct (group_secret (ck_key c)) as [s|]; [|done]. case_decide; [done|].
  destruct (mac_then_decrypt s blob) as [p|] eqn:E; [|done]. intros [= <- <-]. by eapply opened_wf.
Qed.
Lemma decode_group_wf pkt m ctx : packet_ok pkt -> mc_speaks m -> yields mc_speaks (decode_group pkt m ctx).
Proof.
  intros [Hl Hb]%packet_payload Hm. unfold decode_group. unfold split_group_datagram. destruct (decide _) as [|H3]; [exact I|]. destruct (mp_payload pkt) as [|hash blob]; [exact I|]. inversion_clear Hb as [|? ? Hh Hbb]. cbn [ok_or mbind outcome_bind].
  rewrite zlen_cons in Hl. unfold MAX_PACKET_PAYLOAD in Hl. destruct (negb _); [exact I|]. set (m1 := UM.set_encrypted true _). assert (H1 : mc_speaks m1) by (unfold m1; apply mc_speaks_encrypted, mc_speaks_meta; [done|]; apply hex_encoded; by repeat constructor; apply Hh).
  clearbody m1. destruct (open_group hash blob (cx_channels ctx)) as [[ch plain]|] eqn:E; cbn [yields]; [|apply opaque_speaks; [enc|done]].
  destruct (open_group_wf _ _ _ _ _ E) as [Hpl Hpb]. apply group_content_speaks; [by apply Hpb|lia|exact H1].
Qed.
Lemma open_direct_wf key blob src l peer plain :
  Forall (fun e => bytes_ok e.2) l -> open_direct key blob src l = Some (peer, plain) -> bytes_ok peer /\ length peer = 32%nat /\ zlen plain <= zlen blob /\ (bytes_ok blob -> bytes_ok plain).
Proof.
  intros Hl. induction Hl as [|[i kb] l Hkb Hl IH]; [done|]. cbn [open_direct]. destruct (negb _); [done|]. unfold mc_verifying_key. destruct (decide (length kb <> PUB_KEY_SIZE)) as [|Hlen]; [done|].
  destruct (ed_decodes kb); [|done]. destruct (mac_then_decrypt _ blob) as [p|] eqn:E; [|done]. intros [= <- <-]. split; [done|]. split; [unfold PUB_KEY_SIZE in Hlen; lia|]. by eapply opened_wf.
Qed.
Lemma direct_content_speaks peer pk t m plain :
  bytes_ok peer -> length peer = 32%nat -> parse_text_plain plain = Some t -> bytes_ok plain -> zlen plain <= 255 -> mc_speaks m -> mc_speaks (direct_content peer pk t m).
Proof.
  intros Hp Hpl Ht Hb Hl Hm. destruct (plain_parsed _ _ Ht Hb) as (H1 & H2 & H3). unfold direct_content.
  set (ka := if decide (tp_txt_type t = TXT_TYPE_PLAIN) then _ else _). assert (Hka : well_encoded ka.1) by (unfold ka; repeat case_decide; cbn [fst]; enc). clearbody ka. destruct ka as [kind ack]. cbn [fst] in Hka.
  apply mc_speaks_payload; [change (2 ^ 32) with 4294967296; lia|]. apply mc_speaks_meta; [|unfold ack_code; apply hex_encoded; apply Forall_take, sha256_bytes].
  set (m1 := UnifiedMessage.set_meta TXT_TYPE kind _). assert (Hm1 : mc_speaks m1).
  { unfold m1. apply mc_speaks_meta; [|done]. apply mc_speaks_meta; [|enc]. apply mc_speaks_security, mc_speaks_time, mc_speaks_type, mc_speaks_destination, mc_speaks_source; [by split|done]. }
  clearbody m1. destruct (tp_author_prefix t); [apply mc_speaks_meta; [done|by apply hex_encoded]|done].
Qed.
Lemma decode_txt_wf pkt m ctx : packet_ok pkt -> Forall (fun e => bytes_ok e.2) (cx_peer_keys ctx) -> mc_speaks m -> yields mc_speaks (decode_txt pkt m ctx).
Proof.
  intros [Hl Hb]%packet_payload Hpk Hm. unfold decode_txt, split_datagram. destruct (decide (zlen (mp_payload pkt) <= _)); [exact I|]. destruct (mp_payload pkt) as [|dest [|src blob]]; [exact I|exact I|]. inversion_clear Hb as [|? ? _ Hb1]. inversion_clear Hb1 as [|? ? Hsrc Hbb].
  cbn [ok_or mbind outcome_bind]. rewrite !zlen_cons in Hl. unfold MAX_PACKET_PAYLOAD in Hl. destruct (negb _); [exact I|]. set (m1 := UM.set_wants_ack true _).
  assert (H1 : mc_speaks m1) by (unfold m1; apply mc_speaks_ack, mc_speaks_encrypted, mc_speaks_destination, mc_speaks_source; [by repeat constructor; apply Hsrc|done]). clearbody m1.
  destruct (cx_local ctx) as [l|]; [|apply opaque_speaks; [enc|done]]. unfold signing_key_from_secret. destruct (decide _); [apply opaque_speaks; [enc|done]|]. destruct (decide _); [apply opaque_speaks; [enc|done]|].
  destruct (open_direct _ blob src (cx_peer_keys ctx)) as [[peer plain]|] eqn:E; [|apply opaque_speaks; [enc|done]]. destruct (open_direct_wf _ _ _ _ _ _ Hpk E) as (P1 & P2 & P3 & P4).
  destruct (parse_text_plain plain) as [t|] eqn:Et; [|apply opaque_speaks; [enc|done]]. cbn [yields]. eapply direct_content_speaks; [done|done|done|by apply P4|lia|done].
Qed.
Lemma decode_ack_wf pkt m : packet_ok pkt -> mc_speaks m -> yields mc_speaks (decode_ack pkt m).
Proof.
  intros [Hl Hb]%packet_payload Hm. unfold decode_ack, is_ack_len. destruct (bool_decide _) eqn:E; [|exact I]. apply bool_decide_eq_true in E. cbn [negb]. rewrite slice_in by lia. cbn [mbind outcome_bind yields].
  apply mc_speaks_security, mc_speaks_meta; [|apply hex_encoded; by apply Forall_take, Forall_drop]. apply mc_speaks_reply, mc_speaks_payload; [change (2 ^ 32) with 4294967296; lia|done].
Qed.
Lemma decode_other_wf pkt m : packet_ok pkt -> mc_speaks m -> mc_speaks (decode_other pkt m).
Proof.
  intros [Hl Hb]%packet_payload Hm. unfold decode_other. set (m0 := UM.set_payload _ m). assert (H0 : mc_speaks m0) by (apply mc_speaks_payload; [unfold MAX_PACKET_PAYLOAD in Hl; change (2 ^ 32) with 4294967296; lia|done]). clearbody m0.
  assert (Hd : mc_speaks (match split_datagram (mp_payload pkt) with Some (dest, src, _) => UM.set_destination (prefix_ref [dest]) (UM.set_source (prefix_ref [src]) m0) | None => m0 end)).
  { unfold split_datagram. destruct (decide _); [done|]. destruct (mp_payload pkt) as [|dest [|src r]]; [done|done|]. inversion_clear Hb as [|? ? _ Hb1]. inversion_clear Hb1 as [|? ? Hsrc _]. apply mc_speaks_destination, mc_speaks_source; [by repeat constructor; apply Hsrc|done]. }
  destruct (mp_ptype pkt); try exact H0; try (apply opaque_keep_speaks; [enc|exact Hd]); try (apply opaque_keep_speaks; [enc|exact H0]).
  apply opaque_keep_speaks; [enc|]. apply mc_speaks_type. destruct (decide (zlen (mp_payload pkt) >= 36)); [|done]. apply mc_speaks_source; [|exact H0].
  split; [rewrite length_take, length_drop; unfold zlen in *; lia|by apply Forall_take, Forall_drop].
Qed.
Lemma framing_wf {A} (P : A -> Prop) o : yields P o -> yields P (framing o).
Proof. by destruct o. Qed.
Lemma mc_decode_wf a frame meta ctx : bytes_ok frame -> Forall (fun e => bytes_ok e.2) (cx_peer_keys ctx) -> yields mc_speaks (mc_decode a frame meta ctx).
Proof.
  intros Hb Hpk. unfold mc_decode. eapply yields_bind; [by apply framing_wf, packet_exact|]. intros pkt [Hp _]. pose proof (mc_base_speaks pkt meta) as Hm.
  destruct (mp_ptype pkt); try (by apply decode_other_wf); [by apply decode_txt_wf|by apply decode_ack_wf|by apply decode_advert_wf|by apply decode_group_wf|by apply decode_group_wf].
Qed.

(** Detection. *)
Definition mc_scored (s : DetectionScore) : Prop := ds_protocol s = MeshCore /\ 0 <= ds_score s <= 100.
Definition mc_judged (r : DetectionScore + DetectionScore) : Prop := match r with inl s | inr s => mc_scored s end.
Lemma mc_scored_add n why s : 0 <= n -> mc_scored s -> mc_scored (DetectionScore.add n why s).
Proof. intros Hn [? ?]. split; [done|by apply score_add]. Qed.
Lemma refuse_judged why s : mc_scored s -> mc_judged (refuse why s).
Proof. intros [? ?]. split; [done|apply score_reject]. Qed.
Lemma found_judged n why s : 0 <= n -> mc_scored s -> mc_judged (found n why s).
Proof. apply mc_scored_add. Qed.
Lemma channel_score_wf ptype hash blob l s : mc_scored s -> mc_scored (channel_score ptype hash blob l s).
Proof.
  intros Hs. induction l as [|c l IH]; [done|]. cbn [channel_score]. destruct (group_secret _) as [k|]; [|done]. case_decide; [done|].
  assert (H1 : mc_scored (DetectionScore.add 10 (str "channel hash matches '" ++ ck_name c ++ str "'") s)) by (by apply mc_scored_add). destruct (mac_then_decrypt k blob); [|done].
  destruct (sane_group _ _); repeat apply mc_scored_add; try done.
Qed.
Lemma payload_evidence_wf pkt ctx s : packet_ok pkt -> mc_scored s -> exists r, payload_evidence pkt ctx s = Ok r /\ mc_judged r.
Proof.
  intros [Hl Hb]%packet_payload Hs. unfold payload_evidence.
  assert (Hdg : mc_judged (datagram_evidence pkt ctx s)).
  { unfold datagram_evidence. cbv zeta. destruct (decide _); [by apply refuse_judged|]. assert (H1 : mc_scored (DetectionScore.add 15 (str "datagram length plausible") s)) by (by apply mc_scored_add). cbn [mc_judged].
    destruct (cx_local ctx) as [lo|]; [|done]. destruct (li_id lo) as [| |[pk|]|]; try done. by destruct (decide _). }
  assert (Hgr : mc_judged (group_evidence pkt ctx s)).
  { unfold group_evidence. cbv zeta. destruct (decide _); [by apply refuse_judged|]. cbn [mc_judged]. apply channel_score_wf. by apply mc_scored_add. }
  destruct (mp_ptype pkt); try (eexists; split; [reflexivity|]; first [exact Hdg|exact Hgr|by apply found_judged]).
  - eexists. split; [reflexivity|]. destruct (is_ack_len _); [by apply found_judged|by apply refuse_judged].
  - unfold advert_evidence. pose proof (advert_parsed _ Hb) as Hp. destruct (McAdvert.parse (mp_payload pkt)) as [adv|e|]; [|eexists; split; [reflexivity|by apply refuse_judged]|done].
    assert (H1 : mc_scored (DetectionScore.add 15 (str "ADVERT length >= 100") s)) by (by apply mc_scored_add). destruct (is_ok _); [|eexists; split; [reflexivity|by apply refuse_judged]].
    eexists. split; [reflexivity|]. cbn [mc_judged]. assert (H2 : mc_scored (DetectionScore.add 50 (str "ADVERT Ed25519 signature verifies (conclusive)") (DetectionScore.add 15 (str "ADVERT length >= 100") s))) by (by apply mc_scored_add).
    destruct (McAdvert.data adv); [|done]. by destruct (decide _).
  - destruct (decide _) as [|Hn]; [eexists; split; [reflexivity|by apply refuse_judged]|]. rewrite slice_in by lia. cbn [mbind outcome_bind]. eexists. split; [reflexivity|]. cbn [mc_judged]. destruct (is_ok _); repeat apply mc_scored_add; done.
  - destruct (RouteType.is_direct _ && bool_decide (zlen (mp_payload pkt) >= 9)) eqn:E; cbn [mbind outcome_bind].
    + apply andb_true_iff in E as [_ E]. apply bool_decide_eq_true in E. destruct (idx_in (E := Empty_set) (mp_payload pkt) 8) as (b & -> & _); [lia|]. cbn [mbind outcome_bind]. eexists. split; [reflexivity|]. destruct (bool_decide _); [by apply found_judged|by apply refuse_judged].
    + eexists. split; [reflexivity|by apply refuse_judged].
  - destruct (decide _); [eexists; split; [reflexivity|by apply refuse_judged]|]. destruct (idx_in (E := Empty_set) (mp_payload pkt) 0) as (b & -> & _); [lia|]. cbn [mbind outcome_bind]. eexists. split; [reflexivity|]. destruct (decide _); [by apply refuse_judged|by apply found_judged].
  - destruct (idx_in (E := Empty_set) (mp_payload pkt) 0) as (b & -> & _); [lia|]. cbn [mbind outcome_bind]. eexists. split; [reflexivity|]. destruct (_ && _); [by apply found_judged|by apply refuse_judged].
Qed.
Lemma framing_scored pkt s : mc_scored s -> mc_scored (framing_evidence pkt s).
Proof.
  intros Hs. unfold framing_evidence. assert (H1 : mc_scored (DetectionScore.add 25 (str "header version 00, path_len sane, lengths consistent") s)) by (by apply mc_scored_add).
  set (s2 := if decide (mp_hash_size pkt = 1) then _ else _). assert (H2 : mc_scored s2) by (unfold s2; destruct (decide _); [by apply mc_scored_add|done]). clearbody s2.
  destruct (_ && _); [|done]. destruct (forallb _ _); [by apply mc_scored_add|done].
Qed.
Lemma mc_detect_total a frame meta ctx : bytes_ok frame -> exists s, mc_detect a frame meta ctx = Ok s /\ mc_scored s.
Proof.
  intros Hb. unfold mc_detect. assert (H0 : mc_scored (DetectionScore.none MeshCore)) by (by split).
  destruct (decide _); [eexists; split; [reflexivity|split; [done|apply score_reject]]|]. pose proof (packet_exact frame Hb) as Hp. destruct (McPacket.parse frame) as [pkt|e|]; [|eexists; split; [reflexivity|split; [done|apply score_reject]]|done].
  destruct (payload_evidence_wf pkt ctx (framing_evidence pkt (DetectionScore.none MeshCore)) (proj1 Hp)) as (r & -> & Hr); [by apply framing_scored|]. cbn [mbind outcome_bind]. eexists. split; [reflexivity|].
  destruct r as [s|s]; cbn [mc_judged] in Hr; [|done]. destruct (decide _); [by apply mc_scored_add|done].
Qed.

(** Encoding. *)
Definition mc_framed (ctx : ProtocolContext) (f : OutboundFrame) : Prop := of_protocol f = MeshCore /\ of_profile f = cx_profile ctx /\ 1 <= zlen (of_bytes f) <= 255.
Lemma finish_wf p ctx : yields (mc_framed ctx) (finish p ctx).
Proof.
  unfold finish. assert (H : yields (fun f => 1 <= zlen f <= 255) (McPacket.encode p)).
  { unfold McPacket.encode. repeat match goal with |- yields _ (if decide ?c then _ else _) => destruct (decide c); [exact I|] end.
    unfold encode_path_len. repeat match goal with |- yields _ ((if decide ?c then _ else _) ≫= _) => destruct (decide c); [exact I|] end. cbn [mbind outcome_bind].
    match goal with |- yields _ (if decide ?c then _ else _) => destruct (decide c) as [|Hr]; [exact I|] end. cbn [yields]. unfold McPacket.raw_len, MAX_TRANS_UNIT, TRANSPORT_CODES_LEN in Hr. rewrite !zlen_app.
    fold (code_bytes p). assert (Hc : zlen (code_bytes p) = if RouteType.has_transport_codes (mp_route p) then 4 else 0) by (unfold code_bytes; destruct (RouteType.has_transport_codes _); [unfold zlen; by rewrite length_app, !length_le_bytes|done]).
    pose proof (zlen_nonneg (mp_path p)). pose proof (zlen_nonneg (mp_payload p)). rewrite Hc. repeat match goal with |- context [zlen [?x]] => change (zlen [x]) with 1 end. destruct (RouteType.has_transport_codes _); lia. }
  destruct (McPacket.encode p) as [f|e|]; [|by destruct e|done]. done.
Qed.
Lemma local_key_safe ctx : yields (fun _ => True) (local_key ctx).
Proof. unfold local_key. destruct (cx_local ctx); [|exact I]. cbn [ok_or mbind outcome_bind]. unfold signing_key_from_secret. by destruct (decide _). Qed.
Lemma advert_encode_safe d : yields (fun _ => True) (AdvertData.encode d).
Proof.
  unfold AdvertData.encode. destruct (match ad_lat_e6 d, ad_lon_e6 d with Some lat, Some lon => _ | _, _ => _ end) as [f0 o0]. destruct (match ad_feature1 d with Some f => _ | None => _ end) as [f1 o1].
  destruct (match ad_feature2 d with Some f => _ | None => _ end) as [f2 o2]. destruct (decide _); [exact I|]. by destruct (ad_name d).
Qed.
Lemma build_advert_wf a ctx ts loc z : yields (mc_framed ctx) (build_advert a ctx ts loc z).
Proof.
  unfold build_advert. eapply yields_bind; [apply local_key_safe|]. intros key _. cbv zeta. set (d := mkAdvertData _ _ _ _ _ _). unfold McAdvert.build. pose proof (advert_encode_safe d) as Hd.
  destruct (AdvertData.encode d); [|exact I|done]. cbn [mbind outcome_bind]. apply finish_wf.
Qed.
Lemma ok_or_safe {A E} (o : option A) (e : E) : yields (fun _ => True) (ok_or o e).
Proof. by destruct o. Qed.
Lemma route_and_path_safe msg : yields (fun _ => True) (route_and_path msg).
Proof. unfold route_and_path. destruct (UnifiedMessage.meta msg PATH); [|exact I]. eapply yields_bind; [apply ok_or_safe|]. intros x _. by destruct (decide _). Qed.
Lemma encode_group_safe msg ctx : yields (fun _ => True) (encode_group msg ctx).
Proof.
  unfold encode_group. eapply yields_bind; [apply ok_or_safe|]. intros ch _. eapply yields_bind; [apply ok_or_safe|]. intros sec _. cbv zeta.
  eapply (yields_bind (fun _ => True)); [|intros [pt pl] _; eapply yields_bind; [apply ok_or_safe|]; by intros].
  unfold group_plain. destruct (um_content_type msg); try exact I.
  - eapply yields_bind; [apply ok_or_safe|]. intros l _. eapply yields_bind; [apply ok_or_safe|]. intros t _. destruct (decide _); [exact I|]. eapply yields_bind; [apply ok_or_safe|]. by intros.
  - cbv zeta. destruct (decide _); [exact I|]. eapply yields_bind; [apply ok_or_safe|]. by intros.
Qed.
Lemma encode_direct_safe msg ctx : yields (fun _ => True) (encode_direct_text msg ctx).
Proof.
  unfold encode_direct_text. eapply yields_bind; [apply local_key_safe|]. intros key _. eapply (yields_bind (fun _ => True)).
  { unfold resolve_peer. destruct (um_destination msg) as [| |[pk|pfx]|]; try exact I. destruct (decide _); [exact I|]. destruct (List.filter _ _) as [|e [|? ?]]; try exact I. by destruct (decide _). }
  intros pk _. eapply (yields_bind (fun _ => True)); [unfold mc_verifying_key; destruct (decide _); [exact I|]; by destruct (ed_decodes _)|]. intros peer _. eapply yields_bind; [apply ok_or_safe|]. intros t _.
  destruct (decide _); [exact I|]. cbv zeta. eapply yields_bind; [apply ok_or_safe|]. intros pl _. eapply yields_bind; [apply ok_or_safe|]. intros pay _. eapply yields_bind; [apply route_and_path_safe|]. by intros [r p] _.
Qed.
Lemma encode_ack_safe msg : yields (fun _ => True) (encode_ack msg).
Proof.
  unfold encode_ack. eapply (yields_bind (fun _ => True)).
  - destruct (is_ack_len _); [exact I|]. eapply yields_bind; [apply ok_or_safe|]. intros h _. eapply yields_bind; [apply ok_or_safe|]. intros b _. by destruct (negb _).
  - intros code _. eapply yields_bind; [apply route_and_path_safe|]. by intros [r p] _.
Qed.
Lemma mc_encode_wf a msg ctx : yields (mc_framed ctx) (mc_encode a msg ctx).
Proof.
  unfold mc_encode. destruct (um_content_type msg); try exact I.
  - assert (Hg : yields (mc_framed ctx) (p ← encode_group msg ctx; finish p ctx)) by (eapply yields_bind; [apply encode_group_safe|]; intros p _; apply finish_wf).
    destruct (um_destination msg); [exact I|exact I|eapply yields_bind; [apply encode_direct_safe|]; intros p _; apply finish_wf|exact Hg].
  - destruct (negb _); [exact I|]. eapply yields_bind; [apply encode_group_safe|]. intros p _. apply finish_wf.
  - unfold encode_advert_msg. cbv zeta. destruct (decide _); [exact I|apply build_advert_wf].
  - eapply yields_bind; [apply encode_ack_safe|]. intros p _. apply finish_wf.
  - unfold encode_advert_msg. cbv zeta. destruct (decide _); [exact I|apply build_advert_wf].
Qed.
Definition mc_ok (_ : MeshCoreAdapter) : Prop := True.
#[global] Instance mc_contract : AdapterContract MeshCoreAdapter mc_ok.
Proof.
  split.
  - intros a frame meta ctx _ Hf _. by apply mc_detect_total.
  - intros a frame meta ctx _ Hf (_ & _ & _ & _ & _ & Hpk). pose proof (mc_decode_wf a frame meta ctx Hf Hpk) as H. cbn. by destruct (mc_decode a frame meta ctx).
  - intros a frame meta ctx m _ Hf (_ & _ & _ & _ & _ & Hpk) Hm. pose proof (mc_decode_wf a frame meta ctx Hf Hpk) as H. cbn in Hm. by rewrite Hm in H.
  - intros a m ctx _ _ _ _. pose proof (mc_encode_wf a m ctx) as H. cbn. by destruct (mc_encode a m ctx).
  - intros a m ctx f _ _ _ _ Hf. pose proof (mc_encode_wf a m ctx) as H. cbn in Hf. by rewrite Hf in H.
  - intros a ctx _ _. cbn. unfold mc_periodic. destruct (negb _); [by exists a, []|]. set (due := match mc_last_advert_ms a with Some _ => _ | None => _ end). destruct due; cbn [negb]; [|by exists a, []]. cbv zeta.
    match goal with |- context [build_advert ?a ?c ?t ?l ?z] => pose proof (build_advert_wf a c t l z) as Hb; destruct (build_advert a c t l z) as [f|e|] end; [|by exists a, []|done].
    eexists _, _. split; [reflexivity|]. split; [done|]. split; [done|]. constructor; [|constructor]. by destruct Hb as (? & _ & ?).
  - intros a _. cbn. unfold MAX_TEXT_LEN. change (2 ^ 32) with 4294967296. lia.
Qed.
End Contract.
