(* ===== verification/McText.v ===== *)
(** * MeshCore packets and texts from node to node

    The packet codec as a whole, and a text on a channel or in a direct message
    from [encode] of one node to [decode] of another. *)
From stdpp Require Import base tactics list numbers.
From Stdlib Require Import Lia Ascii String.
From S2P Require Import Prelude SmallMap Float32 Protocol CryptoLib ForeignCrypto Radio Text Strings Float64 Unified Bridge Proto MtText McWire McAdapter McFacts.
From stdpp Require Import list.
Import Text Strings UnifiedFacts BridgeFacts ProtoFacts mc_packet mc_crypto mc_identity mc_messages mc_meta.
#[local] Open Scope Z_scope.

(** C20. Every packet within the limits is encoded in a frame of at most 255 bytes
    that parses back to it; and a frame that parses is within the limits and is,
    byte for byte, the encoding of what was parsed: no frame has a second
    reading, and none panics the parser. *)
Theorem meshcore_packet_codec :
  (forall p, packet_shape p -> exists f, McPacket.encode p = Ok f /\ McPacket.parse f = Ok p /\ 3 <= zlen f <= MAX_TRANS_UNIT) /\
  (forall f, bytes_ok f -> match McPacket.parse f with Ok p => packet_ok p /\ McPacket.encode p = Ok f | Err _ => True | Panic => False end).
Proof. split; [exact packet_read|]. intros f Hf. exact (packet_exact f Hf). Qed.

Section Delivery.
Context {C : CryptoLib} {F : ForeignCrypto} `{!CryptoLibLaws C} `{!ForeignCryptoLaws F}.

Lemma new_shape route ptype payload : RouteType.has_transport_codes route = false -> 1 <= zlen payload <= MAX_PACKET_PAYLOAD -> packet_shape (McPacket.new route ptype payload).
Proof.
  intros Hr Hl. unfold packet_shape, McPacket.raw_len, codes_ok. cbn [McPacket.new mp_payload mp_hash_size mp_path mp_route mp_codes]. rewrite Hr.
  unfold MAX_PACKET_PAYLOAD, PATH_HASH_SIZE, MAX_HOP_COUNT, MAX_PATH_SIZE, MAX_TRANS_UNIT in *. change (zlen []) with 0. change (0 mod 1) with 0. change (0 / 1) with 0. repeat split; lia.
Qed.
Lemma contains_app a b : contains_nul (a ++ b) = contains_nul a || contains_nul b.
Proof. apply existsb_app. Qed.
Lemma meta_set_payload v m k : UnifiedMessage.meta (UM.set_payload v m) k = UnifiedMessage.meta m k.
Proof. done. Qed.
Lemma mc_base_fields pkt meta :
  um_source (mc_base_message pkt meta) = prefix_ref [] /\ um_destination (mc_base_message pkt meta) = IdBroadcast MeshCore /\ um_protocol (mc_base_message pkt meta) = MeshCore /\
  um_message_id (mc_base_message pkt meta) = hex_encode (McPacket.packet_hash pkt) /\ um_channel (mc_base_message pkt meta) = None.
Proof. unfold mc_base_message. by destruct (RouteType.has_transport_codes _). Qed.
Lemma group_plain_text msg ctx local ts :
  cx_local ctx = Some local -> um_content_type msg = Text -> utf8_valid (um_payload msg) = true -> contains_nul (li_display_name local) = false -> contains_nul (um_payload msg) = false ->
  zlen (li_display_name local) + 2 + zlen (um_payload msg) <= MAX_TEXT_LEN ->
  group_plain msg ctx ts = Ok (PlGrpTxt, le_bytes 4 ts ++ [0] ++ li_display_name local ++ str ": " ++ um_payload msg).
Proof.
  intros Hl Ht Hu Hn1 Hn2 Hs. unfold group_plain, UnifiedMessage.text_payload. rewrite Ht, Hl. cbn [ok_or mbind outcome_bind]. rewrite decide_True by done. rewrite Hu. cbn [ok_or mbind outcome_bind].
  rewrite decide_False by lia. unfold compose_group_text. rewrite decide_False by lia. by rewrite Hn1, Hn2.
Qed.
Lemma group_text_read ts name text k :
  in_u 32 ts -> utf8_valid name = true -> utf8_valid text = true -> contains_nul name = false -> contains_nul text = false ->
  exists l r, parse_group_text ((le_bytes 4 ts ++ [0] ++ name ++ str ": " ++ text) ++ replicate k 0) = Some (mkGroupText ts (Some l) r) /\
    l ++ str ": " ++ r = name ++ str ": " ++ text /\ split_once (str ": ") l = None /\ (split_once (str ": ") name = None -> l = name /\ r = text).
Proof.
  intros Hts Hun Hut Hn Ht. destruct (split_found name text) as (l & r & Hs). exists l, r. split.
  2:{ split; [by rewrite <- (split_parts _ _ _ Hs)|]. split; [by eapply split_before|]. intros Hn'. rewrite (split_written _ _ Hn') in Hs. by injection Hs as <- <-. } unfold parse_group_text. rewrite plain_read; [|done|lia|by rewrite !contains_app, Hn, Ht|].
  - cbn [mbind option_bind tp_txt_type tp_text tp_timestamp]. rewrite decide_False by (intros E; by apply E). by rewrite Hs.
  - apply utf8_valid_iff. apply encoded_concat; [by apply utf8_valid_iff|]. apply encoded_concat; [by apply utf8_valid_iff|by apply utf8_valid_iff].
Qed.
(** The receiver's first channel with the hash of a secret. *)
Definition hash_is (secret : list Z) (c : ChannelKey) : bool := bool_decide (mc_channel_hash <$> group_secret (ck_key c) = Some (mc_channel_hash secret)).
Lemma open_first secret blob plain ch l :
  find_first (hash_is secret) l = Some ch -> group_secret (ck_key ch) = Some secret -> mac_then_decrypt secret blob = Some plain -> open_group (mc_channel_hash secret) blob l = Some (ch, plain).
Proof.
  intros Hf Hs Hm. induction l as [|c l IH]; [done|]. cbn [find_first open_group] in *. unfold hash_is in Hf at 1. destruct (group_secret (ck_key c)) as [s|] eqn:E; cbn [fmap option_fmap option_map] in Hf.
  - destruct (decide (mc_channel_hash s <> mc_channel_hash secret)) as [Hne|He]; [rewrite bool_decide_eq_false_2 in Hf by congruence; by apply IH|].
    rewrite bool_decide_eq_true_2 in Hf by (f_equal; destruct (decide (mc_channel_hash s = mc_channel_hash secret)); [done|by destruct He]). injection Hf as ->. rewrite Hs in E. injection E as <-. by rewrite Hm.
  - rewrite bool_decide_eq_false_2 in Hf by done. by apply IH.
Qed.
Lemma channel_score_first ptype secret blob plain ch l s n :
  find_first (hash_is secret) l = Some ch -> group_secret (ck_key ch) = Some secret -> mac_then_decrypt secret blob = Some plain -> 0 <= n -> at_least n s ->
  at_least (Z.min (n + 40) 100) (channel_score ptype (mc_channel_hash secret) blob l s) /\ ds_protocol (channel_score ptype (mc_channel_hash secret) blob l s) = ds_protocol s.
Proof.
  intros Hf Hs Hm Hn Hs0. induction l as [|c l IH]; [done|]. cbn [find_first channel_score] in *. unfold hash_is in Hf at 1. destruct (group_secret (ck_key c)) as [k|] eqn:E; cbn [fmap option_fmap option_map] in Hf.
  - destruct (decide (mc_channel_hash k <> mc_channel_hash secret)) as [Hne|He]; [rewrite bool_decide_eq_false_2 in Hf by congruence; by apply IH|].
    rewrite bool_decide_eq_true_2 in Hf by (f_equal; destruct (decide (mc_channel_hash k = mc_channel_hash secret)); [done|by destruct He]). injection Hf as ->. rewrite Hs in E. injection E as <-. rewrite Hm.
    set (s1 := DetectionScore.add 10 _ s). assert (H1 : at_least (Z.min (n + 10) 100) s1) by (by apply at_least_add). assert (Hp1 : ds_protocol s1 = ds_protocol s) by done. clearbody s1.
    set (s2 := DetectionScore.add 30 _ s1). assert (H2 : at_least (Z.min (Z.min (n + 10) 100 + 30) 100) s2) by (apply at_least_add; [lia|lia|done]). assert (Hp2 : ds_protocol s2 = ds_protocol s) by done. clearbody s2.
    replace (Z.min (n + 40) 100) with (Z.min (Z.min (n + 10) 100 + 30) 100) by lia. destruct (sane_group ptype plain); [|done]. split; [apply at_least_keep; [lia|lia|done]|done].
  - rewrite bool_decide_eq_false_2 in Hf by done. by apply IH.
Qed.

(** Both ends of a message: it is encoded, and the receiver decodes it as [text]
    and scores it at least [score]. *)
Definition mc_text_read (text : list Z) (a b : MeshCoreAdapter) (msg : UnifiedMessage) (tx rx : ProtocolContext) (meta : RxMeta) (src dest : IdentityRef) (channel : option (list Z)) (sec : SecurityLevel) (score : Z) (m : UnifiedMessage) : Prop :=
  exists f s, mc_encode a msg tx = Ok f /\ 3 <= zlen (of_bytes f) <= MAX_TRANS_UNIT /\ mc_decode b (of_bytes f) meta rx = Ok m /\
    mc_detect b (of_bytes f) meta rx = Ok s /\ ds_protocol s = MeshCore /\ score <= ds_score s <= 100 /\
    um_source m = src /\ um_destination m = dest /\ um_protocol m = MeshCore /\ um_content_type m = Text /\ um_payload m = text /\
    um_timestamp m = Some (default (cx_unix_time_s tx) (um_timestamp msg)) /\ um_channel m = channel /\ um_encrypted m = true /\ um_security m = sec.
(** The receiver decodes the text as it was written. *)
Definition mc_text_arrives (a b : MeshCoreAdapter) (msg : UnifiedMessage) : ProtocolContext -> ProtocolContext -> RxMeta -> IdentityRef -> IdentityRef -> option (list Z) -> SecurityLevel -> Z -> UnifiedMessage -> Prop :=
  mc_text_read (um_payload msg) a b msg.
Lemma framing_base route ptype payload s : at_least 0 s ->
  at_least 30 (framing_evidence (McPacket.new route ptype payload) s) /\ ds_protocol (framing_evidence (McPacket.new route ptype payload) s) = ds_protocol s.
Proof.
  intros Hs. unfold framing_evidence. cbn [McPacket.new mp_hash_size]. rewrite decide_True by done. change (McPacket.hop_count (McPacket.new route ptype payload)) with 0. rewrite andb_false_r.
  split; [|done]. apply (at_least_add 25 5); [lia|lia|]. by apply (at_least_add 0 25).
Qed.
Lemma sync_kept ctx s n why : 0 <= n -> at_least n s ->
  at_least n (if decide (sync_word (cx_profile ctx) = mc_profiles.SYNC_WORD) then DetectionScore.add 10 why s else s) /\
  ds_protocol (if decide (sync_word (cx_profile ctx) = mc_profiles.SYNC_WORD) then DetectionScore.add 10 why s else s) = ds_protocol s.
Proof. intros Hn Hs. destruct (decide _); [|done]. split; [by apply at_least_keep|done]. Qed.

(** A group packet whose blob opens under a known channel. *)
Lemma group_decoded b f meta rx route secret blob plain ch :
  McPacket.parse f = Ok (McPacket.new route PlGrpTxt (mc_channel_hash secret :: blob)) -> 2 < zlen blob <= 200 -> (zlen blob - 2) mod 16 = 0 ->
  open_group (mc_channel_hash secret) blob (cx_channels rx) = Some (ch, plain) ->
  mc_decode b f meta rx = Ok (group_content PlGrpTxt plain (UM.set_security (ForeignSharedKey MeshCore (ck_name ch)) (UM.set_channel (Some (ck_name ch))
    (UM.set_encrypted true (UnifiedMessage.set_meta CHANNEL_HASH (hex_encode [mc_channel_hash secret]) (mc_base_message (McPacket.new route PlGrpTxt (mc_channel_hash secret :: blob)) meta)))))).
Proof.
  intros Hparse Hl Hal Hopen. set (pkt := McPacket.new route PlGrpTxt (mc_channel_hash secret :: blob)) in *. unfold mc_decode. rewrite Hparse. cbn [framing mbind outcome_bind].
  change (mp_ptype pkt) with PlGrpTxt. cbn match. unfold decode_group, split_group_datagram. change (mp_payload pkt) with (mc_channel_hash secret :: blob). rewrite (zlen_cons (mc_channel_hash secret) blob).
  rewrite decide_False by (unfold GROUP_HEADER_LEN; lia). cbn [ok_or mbind outcome_bind].
  assert (Haln : aligned (usize (zlen blob - CIPHER_MAC_SIZE)) = true) by (unfold aligned, CIPHER_MAC_SIZE; apply bool_decide_eq_true; rewrite usize_small; [done|]; change (2 ^ 32) with 4294967296; lia).
  rewrite Haln. cbn [negb]. by rewrite Hopen.
Qed.
Lemma group_detected b f meta rx route secret blob plain ch :
  McPacket.parse f = Ok (McPacket.new route PlGrpTxt (mc_channel_hash secret :: blob)) -> 3 <= zlen f -> 18 <= zlen blob -> (zlen blob - 2) mod 16 = 0 ->
  find_first (hash_is secret) (cx_channels rx) = Some ch -> group_secret (ck_key ch) = Some secret -> mac_then_decrypt secret blob = Some plain ->
  exists s, mc_detect b f meta rx = Ok s /\ ds_protocol s = MeshCore /\ 85 <= ds_score s <= 100.
Proof.
  intros Hparse Hf Hl Hal Hrx Hsec Hop. set (pkt := McPacket.new route PlGrpTxt (mc_channel_hash secret :: blob)) in *.
  destruct (framing_base route PlGrpTxt (mc_channel_hash secret :: blob) (DetectionScore.none MeshCore)) as [S1 P1]; [by split|]. fold pkt in S1, P1. set (s0 := framing_evidence pkt (DetectionScore.none MeshCore)) in *.
  assert (S2 : at_least 45 (DetectionScore.add 15 (str "group payload length plausible") s0)) by (by apply (at_least_add 30 15)).
  destruct (channel_score_first PlGrpTxt secret blob _ ch (cx_channels rx) _ 45 Hrx Hsec Hop ltac:(lia) S2) as [S3 P3]. change (Z.min (45 + 40) 100) with 85 in S3.
  set (s3 := channel_score _ _ _ _ _) in *. destruct (sync_kept rx s3 85 (str "radio sync word 0x12 (MeshCore/RadioLib private)") ltac:(lia) S3) as [S4 P4].
  set (s4 := if decide (sync_word (cx_profile rx) = mc_profiles.SYNC_WORD) then _ else _) in *. exists s4. split; [|split; [rewrite P4, P3; exact P1|exact S4]].
  unfold mc_detect. rewrite decide_False by lia. rewrite Hparse. unfold payload_evidence. change (mp_ptype pkt) with PlGrpTxt. cbn match. unfold group_evidence. change (mp_payload pkt) with (mc_channel_hash secret :: blob).
  rewrite zlen_cons. rewrite decide_False by (intros [Hx|Hx]; [lia|apply Hx; replace (1 + zlen blob - 3) with (zlen blob - 2) by lia; exact Hal]). reflexivity.
Qed.

(** C18. A text broadcast on a channel is encoded, and a node that holds the
    channel's key under its first channel with that hash decodes the time as it
    was written and splits the transmitted "name: text" at its first ": ": the
    claimed sender and the text are those written if the sender's name contains
    no ": ", and otherwise the rest of the name is delivered as part of the text.
    The source stays unknown, because group senders are not authenticated. *)
Theorem meshcore_group_text a b msg tx rx meta local ch ch' secret p :
  cx_local tx = Some local -> um_content_type msg = Text -> um_destination msg = IdBroadcast p ->
  utf8_valid (li_display_name local) = true -> utf8_valid (um_payload msg) = true -> contains_nul (li_display_name local) = false -> contains_nul (um_payload msg) = false ->
  zlen (li_display_name local) + 2 + zlen (um_payload msg) <= MAX_TEXT_LEN ->
  in_u 32 (default (cx_unix_time_s tx) (um_timestamp msg)) ->
  find_first (fun c => bool_decide (ck_name c = default PUBLIC_CHANNEL_NAME (um_channel msg))) (cx_channels tx) = Some ch -> group_secret (ck_key ch) = Some secret ->
  find_first (hash_is secret) (cx_channels rx) = Some ch' -> group_secret (ck_key ch') = Some secret ->
  exists m name text, mc_text_read text a b msg tx rx meta (prefix_ref []) (IdBroadcast MeshCore) (Some (ck_name ch')) (ForeignSharedKey MeshCore (ck_name ch')) 85 m /\
    UnifiedMessage.meta m SENDER_NAME = Some name /\
    name ++ str ": " ++ text = li_display_name local ++ str ": " ++ um_payload msg /\ split_once (str ": ") name = None /\
    (split_once (str ": ") (li_display_name local) = None -> name = li_display_name local /\ text = um_payload msg).
Proof.
  intros Hloc Ht Hd Hun Hup Hnn Hnp Hlen Hts Hch Hsec Hrx Hsec'. set (ts := default (cx_unix_time_s tx) (um_timestamp msg)) in *.
  set (plain := le_bytes 4 ts ++ [0] ++ li_display_name local ++ str ": " ++ um_payload msg). set (route := if is_zero_hop msg then RtDirect else RtFlood).
  assert (Hpl : zlen plain = 5 + (zlen (li_display_name local) + 2 + zlen (um_payload msg))) by (unfold plain; rewrite !zlen_app; unfold zlen; rewrite length_le_bytes; cbn [length]; change (length (str ": ")) with 2%nat; lia).
  destruct (sealed_spec secret plain) as [Hsl Hop]. assert (Hne : plain <> []) by (unfold plain; by destruct (le_bytes 4 ts)). specialize (Hop Hne). destruct (padded_len plain) as [Hal Hpd]. unfold MAX_TEXT_LEN in Hlen.
  pose proof (zlen_nonneg (li_display_name local)) as Hz1. pose proof (zlen_nonneg (um_payload msg)) as Hz2. assert (H176 : 16 <= zlen (zero_padded plain) <= 176).
  { pose proof (Z.div_mod (zlen (zero_padded plain)) 16 ltac:(lia)) as Hdm. rewrite Hal in Hdm. lia. }
  set (payload := mc_channel_hash secret :: encrypt_then_mac secret plain). assert (Hpay : zlen payload = 3 + zlen (zero_padded plain)) by (unfold payload; rewrite zlen_cons; lia).
  destruct (packet_read (McPacket.new route PlGrpTxt payload)) as (f & Henc & Hparse & Hfl); [apply new_shape; [unfold route; by destruct (is_zero_hop msg)|unfold MAX_PACKET_PAYLOAD; lia]|].
  destruct (group_text_read ts (li_display_name local) (um_payload msg) ((16 - length plain mod 16) mod 16) Hts Hun Hup Hnn Hnp) as (name & text & Hpart & Hsplit). change (parse_group_text (zero_padded plain) = Some (mkGroupText ts (Some name) text)) in Hpart.
  assert (Hmenc : mc_encode a msg tx = Ok (mkFrame MeshCore f (cx_profile tx))).
  { unfold mc_encode. rewrite Ht, Hd. cbn [IdentityRef.is_broadcast]. unfold encode_group. rewrite Hch. cbn [ok_or mbind outcome_bind]. rewrite Hsec. cbn [ok_or mbind outcome_bind]. fold ts.
    rewrite (group_plain_text msg tx local ts) by done. cbn [mbind outcome_bind]. fold plain. unfold build_group_datagram. rewrite decide_False by (rewrite Hpl; change (max_plaintext_for (MAX_PACKET_PAYLOAD - GROUP_HEADER_LEN)) with 176; lia).
    cbn [ok_or mbind outcome_bind]. fold payload route. unfold finish. by rewrite Henc. }
  destruct (mc_base_fields (McPacket.new route PlGrpTxt payload) meta) as (B1 & B2 & B3 & _). assert (Hal2 : (zlen (encrypt_then_mac secret plain) - 2) mod 16 = 0) by (rewrite Hsl; replace (2 + zlen (zero_padded plain) - 2) with (zlen (zero_padded plain)) by lia; exact Hal).
  pose proof (open_first secret _ _ ch' (cx_channels rx) Hrx Hsec' Hop) as Hopen. pose proof (group_decoded b f meta rx route secret _ _ ch' Hparse ltac:(lia) Hal2 Hopen) as Hdec.
  destruct (group_detected b f meta rx route secret _ _ ch' Hparse ltac:(lia) ltac:(lia) Hal2 Hrx Hsec' Hop) as (sc & Hdet & P4 & S4).
  unfold group_content in Hdec. rewrite decide_True in Hdec by done. rewrite Hpart in Hdec. cbn [gr_text gr_timestamp gr_sender_name] in Hdec.
  eexists _, name, text. split; [|split; [rewrite meta_set_meta; by rewrite decide_True by done|exact Hsplit]]. exists (mkFrame MeshCore f (cx_profile tx)), sc. split; [done|]. split; [done|]. split; [exact Hdec|]. split; [done|]. split; [done|]. split; [done|]. by repeat split.
Qed.

(** ** Direct messages *)

Lemma compose_read ts attempt text :
  in_u 32 ts -> 0 <= attempt -> zlen text <= MAX_TEXT_LEN -> contains_nul text = false -> utf8_valid text = true ->
  exists plain, compose_text_plain ts TXT_TYPE_PLAIN attempt text = Some plain /\ zlen plain = 6 + zlen text /\
    parse_text_plain (zero_padded plain) = Some (mkTextPlain ts TXT_TYPE_PLAIN (Z.land attempt 3) None text (ack_covered plain)).
Proof.
  intros Hts Ha Hl Hn Hu. unfold compose_text_plain. rewrite decide_False by lia. rewrite Hn. set (flags := Z.lor _ _). assert (Hfl : flags = Z.land attempt 3) by (unfold flags; rewrite <- (Z.lor_0_l (Z.land attempt 3)); done).
  assert (Hf4 : 0 <= flags < 4) by (rewrite Hfl; change 3 with (Z.ones 2); rewrite Z.land_ones by lia; apply (Z.mod_pos_bound _ 4); lia). clearbody flags. subst flags.
  eexists. split; [reflexivity|]. split; [rewrite !zlen_app; unfold zlen; rewrite length_le_bytes; cbn [length]; lia|]. set (flags := Z.land attempt 3) in *. set (k := ((16 - length (le_bytes 4 ts ++ [flags] ++ text ++ [0%Z]) mod 16) mod 16)%nat).
  replace (zero_padded (le_bytes 4 ts ++ [flags] ++ text ++ [0])) with ((le_bytes 4 ts ++ [flags] ++ text) ++ replicate (S k) 0) by (unfold zero_padded; fold k; rewrite <- !app_assoc; done).
  rewrite plain_read by done. do 2 f_equal. unfold ack_covered. assert (Hd : drop 5 (le_bytes 4 ts ++ [flags] ++ text ++ [0]) = text ++ [0]) by (rewrite app_assoc; apply drop_app_length'; by rewrite length_app, length_le_bytes).
  rewrite Hd, (until_nul_at text []) by done. rewrite decide_True by (rewrite !length_app, length_le_bytes; cbn [length]; lia). rewrite Nat.min_l by (rewrite !length_app, length_le_bytes; cbn [length]; lia).
  replace (le_bytes 4 ts ++ [flags] ++ text ++ [0]) with ((le_bytes 4 ts ++ [flags] ++ text) ++ [0]) by (by rewrite <- !app_assoc). symmetry. apply take_app_length'. by rewrite !length_app, length_le_bytes.
Qed.
Lemma public_verifies seed : mc_verifying_key (ed_public seed) = Ok (ed_public seed).
Proof. unfold mc_verifying_key. rewrite decide_False by (rewrite ed_public_len; unfold PUB_KEY_SIZE; lia). by rewrite ed_public_decodes. Qed.
(** The receiver's first key with the sender's hash. *)
Definition key_hash_is (h : Z) (e : IdentityRef * list Z) : bool := bool_decide (length e.2 = 32%nat) && bool_decide (hd 0 e.2 = h).
Lemma open_direct_first key seed blob plain i l :
  find_first (key_hash_is (hd 0 (ed_public seed))) l = Some (i, ed_public seed) -> mac_then_decrypt (shared_secret key (ed_public seed)) blob = Some plain ->
  open_direct key blob (hd 0 (ed_public seed)) l = Some (ed_public seed, plain).
Proof.
  intros Hf Hm. induction l as [|[j kb] l IH]; [done|]. cbn [find_first open_direct] in *. unfold key_hash_is in Hf at 1. cbn [snd] in Hf. destruct (bool_decide (length kb = 32%nat) && bool_decide (hd 0 kb = hd 0 (ed_public seed))); cbn [negb]; [|by apply IH].
  injection Hf as -> ->. by rewrite public_verifies, Hm.
Qed.
Lemma datagram_decoded b f meta rx route dest src blob plain local rk peer t :
  McPacket.parse f = Ok (McPacket.new route PlTxtMsg (dest :: src :: blob)) -> 2 < zlen blob <= 200 -> (zlen blob - 2) mod 16 = 0 ->
  cx_local rx = Some local -> signing_key_from_secret (li_secret local) = Ok rk -> hd 0 (ed_public rk) = dest ->
  open_direct rk blob src (cx_peer_keys rx) = Some (peer, plain) -> parse_text_plain plain = Some t ->
  mc_decode b f meta rx = Ok (direct_content peer (ed_public rk) t (UM.set_wants_ack true (UM.set_encrypted true (UM.set_destination (prefix_ref [dest]) (UM.set_source (prefix_ref [src])
    (mc_base_message (McPacket.new route PlTxtMsg (dest :: src :: blob)) meta)))))).
Proof.
  intros Hparse Hl Hal Hloc Hrk Hdest Hopen Ht. set (pkt := McPacket.new route PlTxtMsg (dest :: src :: blob)) in *. unfold mc_decode. rewrite Hparse. cbn [framing mbind outcome_bind].
  change (mp_ptype pkt) with PlTxtMsg. cbn match. unfold decode_txt, split_datagram. change (mp_payload pkt) with (dest :: src :: blob). rewrite !zlen_cons.
  rewrite decide_False by (unfold DATAGRAM_HEADER_LEN; lia). cbn [ok_or mbind outcome_bind].
  assert (Haln : aligned (usize (zlen blob - CIPHER_MAC_SIZE)) = true) by (unfold aligned, CIPHER_MAC_SIZE; apply bool_decide_eq_true; rewrite usize_small; [done|]; change (2 ^ 32) with 4294967296; lia).
  rewrite Haln, Hloc, Hrk. cbn [negb]. rewrite decide_False by (intros E; by apply E). by rewrite Hopen, Ht.
Qed.
Lemma datagram_detected b f meta rx route dest src blob :
  McPacket.parse f = Ok (McPacket.new route PlTxtMsg (dest :: src :: blob)) -> 3 <= zlen f -> 18 <= zlen blob -> (zlen blob - 2) mod 16 = 0 ->
  exists s, mc_detect b f meta rx = Ok s /\ ds_protocol s = MeshCore /\ 45 <= ds_score s <= 100.
Proof.
  intros Hparse Hf Hl Hal. set (pkt := McPacket.new route PlTxtMsg (dest :: src :: blob)) in *.
  destruct (framing_base route PlTxtMsg (dest :: src :: blob) (DetectionScore.none MeshCore)) as [S1 P1]; [by split|]. fold pkt in S1, P1. set (s0 := framing_evidence pkt (DetectionScore.none MeshCore)) in *.
  assert (S2 : at_least 45 (DetectionScore.add 15 (str "datagram length plausible") s0)) by (by apply (at_least_add 30 15)).
  assert (Hev : exists s, datagram_evidence pkt rx s0 = inl s /\ at_least 45 s /\ ds_protocol s = MeshCore).
  { unfold datagram_evidence. change (mp_payload pkt) with (dest :: src :: blob). rewrite !zlen_cons. rewrite decide_False by (intros [Hx|Hx]; [lia|apply Hx; replace (1 + (1 + zlen blob) - 4) with (zlen blob - 2) by lia; exact Hal]).
    eexists. split; [reflexivity|]. destruct (cx_local rx) as [lo|]; [|done]. destruct (li_id lo) as [| |[pk|]|]; try done. by destruct (decide _). }
  destruct Hev as (s1 & He & S3 & P3). destruct (sync_kept rx s1 45 (str "radio sync word 0x12 (MeshCore/RadioLib private)") ltac:(lia) S3) as [S4 P4].
  eexists. split; [|split; [by rewrite P4|exact S4]]. unfold mc_detect. rewrite decide_False by lia. rewrite Hparse. unfold payload_evidence. change (mp_ptype pkt) with PlTxtMsg. cbn match. fold s0. rewrite He. reflexivity.
Qed.

(** C19. A direct text to a node's key is encrypted for it; that node, which knows
    the sender's key as the first one with its hash, delivers the text and time
    as written, from the sender's key, and computes the acknowledgement code the
    sender expects. *)
Theorem meshcore_direct_text a b msg tx rx meta ltx lrx sk rk i :
  cx_local tx = Some ltx -> signing_key_from_secret (li_secret ltx) = Ok sk -> cx_local rx = Some lrx -> signing_key_from_secret (li_secret lrx) = Ok rk ->
  um_content_type msg = Text -> um_destination msg = identity_ref (ed_public rk) -> UnifiedMessage.meta msg PATH = None ->
  utf8_valid (um_payload msg) = true -> contains_nul (um_payload msg) = false -> zlen (um_payload msg) <= MAX_TEXT_LEN ->
  in_u 32 (default (cx_unix_time_s tx) (um_timestamp msg)) ->
  find_first (key_hash_is (hd 0 (ed_public sk))) (cx_peer_keys rx) = Some (i, ed_public sk) ->
  exists m plain, mc_text_arrives a b msg tx rx meta (identity_ref (ed_public sk)) (identity_ref (ed_public rk)) None (ForeignDirect MeshCore true) 45 m /\ um_wants_ack m = true /\
    compose_text_plain (default (cx_unix_time_s tx) (um_timestamp msg)) TXT_TYPE_PLAIN (default 0 (s ← UnifiedMessage.meta msg ATTEMPT; parse_unsigned 10 255 s)) (um_payload msg) = Some plain /\
    UnifiedMessage.meta m ACK_CODE = Some (hex_encode (ack_code (ack_covered plain) (ed_public sk))).
Proof.
  intros Hltx Hsk Hlrx Hrk Ht Hd Hpath Hu Hn Hlen Hts Hpeer. set (ts := default (cx_unix_time_s tx) (um_timestamp msg)) in *. set (attempt := default 0 _).
  assert (Ha : 0 <= attempt). { unfold attempt. destruct (s ← UnifiedMessage.meta msg ATTEMPT; parse_unsigned 10 255 s) as [x|] eqn:E; [|done]. apply bind_Some in E as (y & _ & E). apply parse_unsigned_range in E; [|done]. cbn. lia. }
  destruct (compose_read ts attempt (um_payload msg) Hts Ha Hlen Hn Hu) as (plain & Hcomp & Hpl & Hread). set (secret := shared_secret sk (ed_public rk)). destruct (sealed_spec secret plain) as [Hsl Hop].
  assert (Hne : plain <> []) by (intros E; rewrite E, zlen_nil in Hpl; pose proof (zlen_nonneg (um_payload msg)); lia). specialize (Hop Hne). destruct (padded_len plain) as [Hal Hpd]. unfold MAX_TEXT_LEN in Hlen. pose proof (zlen_nonneg (um_payload msg)) as Hz.
  assert (H176 : 16 <= zlen (zero_padded plain) <= 176) by (pose proof (Z.div_mod (zlen (zero_padded plain)) 16 ltac:(lia)) as Hdm; rewrite Hal in Hdm; lia).
  set (route := if is_zero_hop msg then RtDirect else RtFlood). set (blob := encrypt_then_mac secret plain) in *. set (payload := hd 0 (ed_public rk) :: hd 0 (ed_public sk) :: blob).
  destruct (packet_read (McPacket.new route PlTxtMsg payload)) as (f & Henc & Hparse & Hfl); [apply new_shape; [unfold route; by destruct (is_zero_hop msg)|unfold payload, MAX_PACKET_PAYLOAD; rewrite !zlen_cons; lia]|].
  assert (Hmenc : mc_encode a msg tx = Ok (mkFrame MeshCore f (cx_profile tx))).
  { unfold mc_encode. rewrite Ht, Hd. cbn [identity_ref]. unfold encode_direct_text, local_key, resolve_peer. rewrite Hltx. cbn [ok_or mbind outcome_bind]. rewrite Hsk, Hd. cbn [identity_ref mbind outcome_bind]. rewrite public_verifies. cbn [mbind outcome_bind].
    unfold UnifiedMessage.text_payload. rewrite decide_True by done. rewrite Hu. cbn [ok_or mbind outcome_bind]. rewrite decide_False by (unfold MAX_TEXT_LEN; lia). fold ts attempt. rewrite Hcomp. cbn [ok_or mbind outcome_bind]. unfold build_datagram.
    rewrite decide_False by (rewrite Hpl; change (max_plaintext_for (MAX_PACKET_PAYLOAD - DATAGRAM_HEADER_LEN)) with 176; lia). cbn [ok_or mbind outcome_bind]. fold secret blob payload. unfold route_and_path. rewrite Hpath. cbn [mbind outcome_bind]. fold route.
    change (McPacket.set_path [] (McPacket.new route PlTxtMsg payload)) with (McPacket.new route PlTxtMsg payload). unfold finish. by rewrite Henc. }
  assert (Hal2 : (zlen blob - 2) mod 16 = 0) by (rewrite Hsl; replace (2 + zlen (zero_padded plain) - 2) with (zlen (zero_padded plain)) by lia; exact Hal).
  assert (Hopen : open_direct rk blob (hd 0 (ed_public sk)) (cx_peer_keys rx) = Some (ed_public sk, zero_padded plain)) by (eapply open_direct_first; [exact Hpeer|]; rewrite shared_agree; exact Hop).
  pose proof (datagram_decoded b f meta rx route _ _ blob _ lrx rk _ _ Hparse ltac:(lia) Hal2 Hlrx Hrk eq_refl Hopen Hread) as Hdec.
  destruct (datagram_detected b f meta rx route _ _ blob Hparse ltac:(lia) ltac:(lia) Hal2) as (sc & Hdet & P4 & S4). destruct (mc_base_fields (McPacket.new route PlTxtMsg payload) meta) as (B1 & B2 & B3 & _ & B5).
  unfold direct_content in Hdec. cbn [tp_txt_type tp_author_prefix tp_text tp_timestamp tp_attempt tp_ack_covered] in Hdec. rewrite decide_True in Hdec by done.
  eexists _, plain. split; [|split; [|split; [exact Hcomp|]]].
  - exists (mkFrame MeshCore f (cx_profile tx)), sc. split; [done|]. split; [done|]. split; [exact Hdec|]. split; [done|]. split; [done|]. split; [done|]. by repeat split.
  - done.
  - rewrite meta_set_payload, meta_set_meta. by rewrite decide_True by done.
Qed.
End Delivery.

(** ** Two nodes on the public channel *)

Module McExamples.
Import ToyCrypto ToyForeign.
Definition alice_seed : list Z := replicate 31 0 ++ [3].
Definition bob_seed : list Z := replicate 31 0 ++ [5].
Definition node (seed name : list Z) (peer : list Z) : ProtocolContext :=
  mkCtx 1000 1700000000 mc_profiles.default_profile (Some (local_identity_from_seed seed name)) [public_channel] [(identity_ref (ed_public peer), ed_public peer)] (replicate 32 7).
Definition alice : ProtocolContext := node alice_seed (str "Alice") bob_seed.
Definition bob : ProtocolContext := node bob_seed (str "Bob") alice_seed.
Definition hello (to : IdentityRef) : UnifiedMessage := UnifiedMessage.text (identity_ref (ed_public alice_seed)) to MeshCore (str "hello: mesh").
Definition heard_at : RxMeta := RxMeta_new (-70) (f32_of 5) 1000.
Definition public_secret : list Z := zero_extended PUBLIC_CHANNEL_PSK.
Lemma meshcore_group_text_witness :
  exists m, mc_text_read (str "hello: mesh") MeshCoreAdapter_new MeshCoreAdapter_new (hello (IdBroadcast MeshCore)) alice bob heard_at (prefix_ref []) (IdBroadcast MeshCore) (Some (str "Public")) (ForeignSharedKey MeshCore (str "Public")) 85 m /\
    UnifiedMessage.meta m SENDER_NAME = Some (str "Alice").
Proof.
  edestruct (meshcore_group_text MeshCoreAdapter_new MeshCoreAdapter_new (hello (IdBroadcast MeshCore)) alice bob heard_at (local_identity_from_seed alice_seed (str "Alice")) public_channel public_channel public_secret MeshCore)
    as (m & name & text & Hm & Hn & _ & _ & Hw);
    [first [reflexivity|vm_compute; reflexivity|vm_compute; discriminate|vm_compute; split; [discriminate|reflexivity]]..|].
  destruct Hw as [-> ->]; [vm_compute; reflexivity|]. exists m. split; [exact Hm|exact Hn].
Defined.
(** A name that contains the separator: the receiver reads another name and text. *)
Example name_with_separator :
  parse_group_text (zero_padded (le_bytes 4 7 ++ [0] ++ str "A: B" ++ str ": " ++ str "hi")) = Some (mkGroupText 7 (Some (str "A")) (str "B: hi")).
Proof. vm_compute. reflexivity. Qed.
Lemma meshcore_direct_text_witness :
  exists m plain, mc_text_arrives MeshCoreAdapter_new MeshCoreAdapter_new (hello (identity_ref (ed_public bob_seed))) alice bob heard_at (identity_ref (ed_public alice_seed)) (identity_ref (ed_public bob_seed)) None (ForeignDirect MeshCore true) 45 m /\
    um_wants_ack m = true /\ compose_text_plain 1700000000 TXT_TYPE_PLAIN 0 (str "hello: mesh") = Some plain /\ UnifiedMessage.meta m ACK_CODE = Some (hex_encode (ack_code (ack_covered plain) (ed_public alice_seed))).
Proof.
  apply (meshcore_direct_text MeshCoreAdapter_new MeshCoreAdapter_new (hello (identity_ref (ed_public bob_seed))) alice bob heard_at (local_identity_from_seed alice_seed (str "Alice")) (local_identity_from_seed bob_seed (str "Bob"))
    alice_seed bob_seed (identity_ref (ed_public alice_seed)));
    first [reflexivity|vm_compute; reflexivity|vm_compute; discriminate|vm_compute; split; [discriminate|reflexivity]].
Defined.
(** The coordinate a decoded advert shows is not always the one an encoded advert
    carries: the product is cut, not rounded. *)
Example location_truncated : format_e6 8200000 = str "8.200000" /\ parse_e6 (format_e6 8200000) = Some 8199999 /\ parse_e6 (str "-12.5") = Some (-12500000) /\ parse_e6 (str "361") = None.
Proof. vm_compute. repeat split. Qed.
End McExamples.
