(* ===== verification/Adapters.v ===== *)
(** * A gateway over the three adapters

    The detector holds [Box<dyn RadioProtocol>]s ([detector/mod.rs]): a gateway
    runs the native adapter beside those of Meshtastic and MeshCore.  Their sum
    keeps the contract, so the theorems on gateways hold of it, and a text crosses
    from a Meshtastic network to the two others. *)
From stdpp Require Import base tactics list numbers.
From Stdlib Require Import Lia Ascii String.
From S2P Require Import Prelude SmallMap Float32 Protocol CryptoLib ForeignCrypto Radio Text Strings Unified Bridge Gateway GatewayMain StarAdapter Proto MtWire MtAdapter MtFacts MtText McWire McAdapter McFacts McText.
From stdpp Require Import list.
Import Text Strings UnifiedFacts BridgeFacts StarFacts.
#[local] Open Scope Z_scope.

Inductive AnyAdapter := OfStar (a : MeshStarAdapter) | OfMeshtastic (a : MeshtasticAdapter) | OfMeshCore (a : MeshCoreAdapter).
Section Any.
Context {C : CryptoLib} {F : ForeignCrypto}.
Definition any_periodic (a : AnyAdapter) (ctx : ProtocolContext) : outcome Empty_set (AnyAdapter * list OutboundFrame) :=
  match a with
  | OfStar x => '(x, out) ← rp_periodic x ctx; Ok (OfStar x, out)
  | OfMeshtastic x => '(x, out) ← rp_periodic x ctx; Ok (OfMeshtastic x, out)
  | OfMeshCore x => '(x, out) ← rp_periodic x ctx; Ok (OfMeshCore x, out)
  end.
#[global] Instance any_radio_protocol : RadioProtocol AnyAdapter := {
  rp_id a := match a with OfStar x => rp_id x | OfMeshtastic x => rp_id x | OfMeshCore x => rp_id x end;
  rp_capabilities a := match a with OfStar x => rp_capabilities x | OfMeshtastic x => rp_capabilities x | OfMeshCore x => rp_capabilities x end;
  rp_detect a := match a with OfStar x => rp_detect x | OfMeshtastic x => rp_detect x | OfMeshCore x => rp_detect x end;
  rp_decode a := match a with OfStar x => rp_decode x | OfMeshtastic x => rp_decode x | OfMeshCore x => rp_decode x end;
  rp_encode a := match a with OfStar x => rp_encode x | OfMeshtastic x => rp_encode x | OfMeshCore x => rp_encode x end;
  rp_can_reply a := match a with OfStar x => rp_can_reply x | OfMeshtastic x => rp_can_reply x | OfMeshCore x => rp_can_reply x end;
  rp_reply_context a := match a with OfStar x => rp_reply_context x | OfMeshtastic x => rp_reply_context x | OfMeshCore x => rp_reply_context x end;
  rp_periodic := any_periodic
}.
(** [Detector::with_all], with both features of the crate on. *)
Definition all_adapters (network_key : option Packet.NetworkKey) (local : option Address) : list AnyAdapter :=
  [OfStar (MeshStarAdapter_new network_key local); OfMeshtastic MeshtasticAdapter_new; OfMeshCore MeshCoreAdapter_new].
Definition with_all (network_key : option Packet.NetworkKey) (local : option Address) : Detector AnyAdapter := Detector_new (all_adapters network_key local).
Context `{!CryptoLibLaws C} `{!ForeignCryptoLaws F}.
Definition any_ok (a : AnyAdapter) : Prop := match a with OfStar x => star_ok x | _ => True end.
Lemma any_contract : AdapterContract AnyAdapter any_ok.
Proof.
  split.
  - intros [a|a|a] frame meta ctx Ha; [by apply (detect_total (ok := star_ok))|by apply (detect_total (ok := mt_ok))|by apply (detect_total (ok := mc_ok))].
  - intros [a|a|a] frame meta ctx Ha; [by apply (decode_safe (ok := star_ok))|by apply (decode_safe (ok := mt_ok))|by apply (decode_safe (ok := mc_ok))].
  - intros [a|a|a] frame meta ctx m Ha; [by apply (decode_speaks (ok := star_ok))|by apply (decode_speaks (ok := mt_ok))|by apply (decode_speaks (ok := mc_ok))].
  - intros [a|a|a] m ctx Ha; [by apply (encode_safe (ok := star_ok))|by apply (encode_safe (ok := mt_ok))|by apply (encode_safe (ok := mc_ok))].
  - intros [a|a|a] m ctx f Ha; [by apply (encode_fits (ok := star_ok))|by apply (encode_fits (ok := mt_ok))|by apply (encode_fits (ok := mc_ok))].
  - intros [a|a|a] ctx Ha Hc; cbn [rp_periodic any_radio_protocol any_periodic].
    + destruct (periodic_total (ok := star_ok) a ctx Ha Hc) as (a' & out & -> & Ha' & H). exists (OfStar a'), out. done.
    + destruct (periodic_total (ok := mt_ok) a ctx Ha Hc) as (a' & out & -> & Ha' & H). exists (OfMeshtastic a'), out. done.
    + destruct (periodic_total (ok := mc_ok) a ctx Ha Hc) as (a' & out & -> & Ha' & H). exists (OfMeshCore a'), out. done.
  - intros [a|a|a] Ha; [by apply (text_room (ok := star_ok))|by apply (text_room (ok := mt_ok))|by apply (text_room (ok := mc_ok))].
Qed.

(** C15. Whichever of the three networks an adapter speaks, it keeps the contract the
    gateway is written against: on any bytes and any well-formed context it detects
    with a score of at most 100, decodes to a well-encoded message of its own
    protocol with an empty bridge path or refuses, encodes to a frame of 1 to 255
    bytes of its own protocol or refuses, and its periodic work returns an adapter of
    the same protocol; none of these calls panics.  The adapters [Detector::with_all]
    builds are such adapters. *)
Theorem adapters_keep_contract network_key local :
  AdapterContract AnyAdapter any_ok /\ (from_option address_ok True local -> Forall any_ok (all_adapters network_key local)).
Proof. split; [apply any_contract|]. intros Hl. repeat constructor. by destruct local. Qed.
End Any.

Module AdapterExamples.
Import ToyCrypto ToyForeign.
Lemma adapters_keep_contract_witness : AdapterContract AnyAdapter any_ok /\ Forall any_ok (all_adapters None (Some (mkAddress [1; 2; 3; 4; 5; 6; 7; 8]))).
Proof.
  destruct (adapters_keep_contract None (Some (mkAddress [1; 2; 3; 4; 5; 6; 7; 8]))) as [H1 H2]. split; [exact H1|]. apply H2.
  split; [reflexivity|repeat constructor; discriminate].
Defined.

(** A gateway that speaks all three protocols and bridges public text. *)
Definition gateway_ctx : ProtocolContext :=
  mkCtx 5000 1700000000 MtExamples.profile (Some (local_identity_from_seed (replicate 31 0 ++ [9]) (str "GW"))) [default_channel_key; public_channel] [] (be_bytes 32 1234567).
Definition gateway0 : Gateway AnyAdapter :=
  (gw_run (GwConfigure Bridge Policy.public_text_bridging true) (gateway_new (str "gw") (with_all None (Some (mkAddress [1; 2; 3; 4; 5; 6; 7; 8]))))).1.
Definition hears (frame : list Z) (g : Gateway AnyAdapter) : Gateway AnyAdapter * list OutboundFrame :=
  match on_frame frame MtExamples.heard_at gateway_ctx g with (g, Ok (_, _, out)) => (g, out) | (g, _) => (g, []) end.
Definition meshtastic_frame : list Z :=
  match mt_encode MeshtasticAdapter_new (MtExamples.hello (IdBroadcast Meshtastic)) MtExamples.alice with Ok f => of_bytes f | _ => [] end.
Definition crossing := hears meshtastic_frame gateway0.
Definition meshcore_frame : list Z := match crossing.2 with [_; f] => of_bytes f | _ => [] end.
Definition listener : ProtocolContext :=
  mkCtx 1000 1700000000 mc_profiles.default_profile (Some (local_identity_from_seed McExamples.bob_seed (str "Bob"))) [default_channel_key] [] (replicate 32 7).

(** A text heard on Meshtastic is sent on the two other networks, a MeshCore node
    reads it with its origin in front, and the same frame heard again is dropped. *)
Example text_crosses_networks :
  of_protocol <$> crossing.2 = [MeshStar; MeshCore] /\
  match mc_decode MeshCoreAdapter_new meshcore_frame McExamples.heard_at listener with
  | Ok m => (um_payload m, UnifiedMessage.meta m mc_meta.SENDER_NAME) = (str "[meshtastic:!11223344] hello mesh", Some (str "GW"))
  | _ => False
  end /\
  (hears meshtastic_frame crossing.1).2 = [].
Proof. vm_compute. repeat split. Qed.
(** The frame the gateway itself sent on MeshCore, heard back, is not recognised: it
    decodes with a timestamp, which enters the digest, and is bridged once more. *)
Example echo_bridged_again : of_protocol <$> (hears meshcore_frame crossing.1).2 = [MeshStar].
Proof. vm_compute. reflexivity. Qed.
End AdapterExamples.
