(* ===== verification/Companion.v ===== *)
(** * The companion link

    [crates/meshstar-companion/src/lib.rs]: the frames a phone exchanges with a node
    over BLE or a serial port.  Requests and responses are written by [W] and read
    by [R]; [Framer] finds the frames in a byte stream.  The facts: both codecs
    round trip and never panic, and whatever the pieces a stream arrives in, the
    framer returns the frames that were sent. *)
From stdpp Require Import base tactics list numbers.
From Stdlib Require Import Lia Ascii String.
From S2P Require Import Prelude Text Strings Proto.
From stdpp Require Import list.
Import Text.
#[local] Open Scope Z_scope.

Module companion.
Definition PROTOCOL_VERSION : Z := 1.
Definition START : Z := 0xAA.
Definition HEADER_LEN : nat := 3.
Definition SERVICE_UUID : list Z := str "4d657368-5374-6172-4d53-000000000100".
Definition RX_UUID : list Z := str "4d657368-5374-6172-4d53-000000000101".
Definition TX_UUID : list Z := str "4d657368-5374-6172-4d53-000000000102".
Definition SERVICE_UUID_LE : list Z := [0x00; 0x01; 0x00; 0x00; 0x00; 0x00; 0x53; 0x4d; 0x72; 0x61; 0x74; 0x53; 0x68; 0x73; 0x65; 0x4d].
Definition ADV_NAME_PREFIX : list Z := str "MS-".
End companion.
Import companion.

(** ** Data *)

Inductive Proto := PrMeshStar | PrMeshtastic | PrMeshCore | PrUnknown.
Definition proto_as_u8 (p : Proto) : Z := match p with PrMeshStar => 0 | PrMeshtastic => 1 | PrMeshCore => 2 | PrUnknown => 0xFF end.
Definition proto_from_u8 (v : Z) : Proto := if decide (v = 0) then PrMeshStar else if decide (v = 1) then PrMeshtastic else if decide (v = 2) then PrMeshCore else PrUnknown.

Inductive NodeId := NiMeshStar (a : list Z) | NiMeshtastic (n : Z) | NiMeshCore (k : list Z) | NiBroadcast (p : Proto).
Definition node_id_proto (i : NodeId) : Proto :=
  match i with NiMeshStar _ => PrMeshStar | NiMeshtastic _ => PrMeshtastic | NiMeshCore _ => PrMeshCore | NiBroadcast p => p end.

Inductive Security := ScNone | ScE2e | ScEnvelope | ScGroup | ScChannel | ScDirect | ScBridged | ScPlain | ScOpaque.
Definition security_as_u8 (s : Security) : Z :=
  match s with ScNone => 0 | ScE2e => 1 | ScEnvelope => 2 | ScGroup => 3 | ScChannel => 4 | ScDirect => 5 | ScBridged => 6 | ScPlain => 7 | ScOpaque => 8 end.
Definition security_from_u8 (v : Z) : Security :=
  match v with 1 => ScE2e | 2 => ScEnvelope | 3 => ScGroup | 4 => ScChannel | 5 => ScDirect | 6 => ScBridged | 7 => ScPlain | 8 => ScOpaque | _ => ScNone end.

Inductive Mode := MdNative | MdMeshCore | MdMeshtastic | MdScan.
Definition mode_as_u8 (m : Mode) : Z := match m with MdNative => 0 | MdMeshCore => 1 | MdMeshtastic => 2 | MdScan => 3 end.
Definition mode_from_u8 (v : Z) : option Mode :=
  match v with 0 => Some MdNative | 1 => Some MdMeshCore | 2 => Some MdMeshtastic | 3 => Some MdScan | _ => None end.

Inductive Delivery := DlQueued | DlSent | DlHopAcked | DlDelivered | DlStored | DlFailed.
Definition delivery_as_u8 (d : Delivery) : Z := match d with DlQueued => 0 | DlSent => 1 | DlHopAcked => 2 | DlDelivered => 3 | DlStored => 4 | DlFailed => 5 end.
Definition delivery_from_u8 (v : Z) : option Delivery :=
  match v with 0 => Some DlQueued | 1 => Some DlSent | 2 => Some DlHopAcked | 3 => Some DlDelivered | 4 => Some DlStored | 5 => Some DlFailed | _ => None end.

Record NodeInfo := mkNodeInfo {
  ni_name : list Z; ni_id : NodeId; ni_public_key : list Z; ni_role : Z; ni_firmware : list Z; ni_frequency_hz : Z; ni_bandwidth_hz : Z;
  ni_spreading_factor : Z; ni_coding_rate : Z; ni_tx_power_dbm : Z; ni_capabilities : Z
}.
Record NodeEntry := mkNodeEntry {
  ne_id : NodeId; ne_name : list Z; ne_rssi_dbm : Z; ne_snr_q : Z; ne_security : Security; ne_hops : Z; ne_flags : Z; ne_last_seen_s : Z; ne_lat_e7 : Z; ne_lon_e7 : Z
}.
Record Message := mkMessage {
  me_seq : Z; me_from : NodeId; me_from_name : list Z; me_channel : list Z; me_text : list Z; me_security : Security; me_rssi_dbm : Z; me_snr_q : Z;
  me_hops : Z; me_age_s : Z; me_via : list Z
}.
Record Network := mkNetwork { nw_proto : Proto; nw_name : list Z; nw_nodes : Z; nw_rssi_dbm : Z; nw_frames : Z; nw_last_seen_s : Z }.
Record Status := mkStatus {
  su_mode : Mode; su_battery_mv : Z; su_uptime_s : Z; su_neighbors : Z; su_zone : Z; su_sessions : Z; su_rx_frames : Z; su_tx_frames : Z;
  su_duty_permille : Z; su_unread : Z; su_last_rssi_dbm : Z; su_last_snr_q : Z
}.
Record Settings := mkSettings { se_name : list Z; se_role : Z; se_profile : Z; se_tx_power_dbm : Z; se_mode : Mode; se_beacon_interval_s : Z }.
Inductive Event :=
| EvNeighborUp (i : NodeId) | EvNeighborDown (i : NodeId) | EvSessionEstablished (i : NodeId) | EvRouteFound (dst : NodeId) (hops : Z) | EvRouteLost (i : NodeId)
| EvModeChanged (m : Mode).
Inductive Request :=
| GetInfo | GetNodes | SendText (to : NodeId) (reliability : Z) (text : list Z) | GetNetworks | SetMode (m : Mode) | GetStatus | SetName (n : list Z) | SetRole (r : Z)
| Announce | GetMessages (after_seq : Z) | SetTime (unix_s : Z) | Reboot | Ping (n : Z) | GetSettings | SetSettings (s : Settings)
| SendImage (to : NodeId) (reliability : Z) (data : list Z) | SetProfilePhoto (data : list Z) | SetPosition (lat_e7 lon_e7 : Z) | Trace (to : NodeId).
Inductive Response :=
| RsInfo (i : NodeInfo) | RsNode (n : NodeEntry) | RsSendResult (handle : Z) (accepted : bool) (reason : Z) | RsMessage (m : Message)
| RsDeliveryUpdate (handle : Z) (state : Delivery) (reason : Z) | RsNetwork (n : Network) | RsStatus (s : Status) | RsEvent (e : Event) | RsEnd (kind : Z) | RsPong (n : Z)
| RsError (code : Z) (text : list Z) | RsSettings (s : Settings)
| RsImage (seq : Z) (from : NodeId) (from_name : list Z) (kind : Z) (data : list Z) (rssi_dbm hops age_s : Z) | RsTrace (to : NodeId) (reached : bool) (hops : list NodeId) (rtt_ms : Z).

Module req.
Definition GET_INFO : Z := 0x01.
Definition GET_NODES : Z := 0x02.
Definition SEND_TEXT : Z := 0x03.
Definition GET_NETWORKS : Z := 0x04.
Definition SET_MODE : Z := 0x05.
Definition GET_STATUS : Z := 0x06.
Definition SET_NAME : Z := 0x07.
Definition SET_ROLE : Z := 0x08.
Definition ANNOUNCE : Z := 0x09.
Definition GET_MESSAGES : Z := 0x0A.
Definition SET_TIME : Z := 0x0B.
Definition REBOOT : Z := 0x0C.
Definition PING : Z := 0x0D.
Definition GET_SETTINGS : Z := 0x0E.
Definition SET_SETTINGS : Z := 0x0F.
Definition SET_POSITION : Z := 0x10.
Definition TRACE : Z := 0x11.
Definition SEND_IMAGE : Z := 0x12.
Definition SET_PROFILE_PHOTO : Z := 0x13.
End req.
Module resp.
Definition INFO : Z := 0x81.
Definition NODE : Z := 0x82.
Definition SEND_RESULT : Z := 0x83.
Definition MESSAGE : Z := 0x84.
Definition DELIVERY : Z := 0x85.
Definition NETWORK : Z := 0x86.
Definition STATUS : Z := 0x87.
Definition EVENT : Z := 0x88.
Definition END_ : Z := 0x8F.
Definition PONG : Z := 0x8D.
Definition SETTINGS : Z := 0x89.
Definition TRACE : Z := 0x8A.
Definition IMAGE : Z := 0x8B.
Definition ERROR : Z := 0xFF.
End resp.
Inductive DecodeError := DeTruncated | DeBadUtf8 | DeBadValue | DeUnknownType (t : Z).
Module err.
Definition BAD_FRAME : Z := 1.
Definition UNKNOWN_REQUEST : Z := 2.
Definition NO_ROUTE : Z := 3.
Definition QUEUE_FULL : Z := 4.
Definition UNSUPPORTED : Z := 5.
Definition BUSY : Z := 6.
End err.

(** ** Writer

    [W(Vec<u8>)]: every method appends to the bytes; [w |> f] is [w.f()]. *)

#[local] Notation "w |> f" := (f w) (at level 50, left associativity, only parsing).
Module W.
Definition new (t : Z) : list Z := [START; 0; 0; t].
Definition u8 (v : Z) (w : list Z) : list Z := w ++ [v].
Definition i8 (v : Z) (w : list Z) : list Z := w ++ [Prelude.u8 v].
Definition u16 (v : Z) (w : list Z) : list Z := w ++ le_bytes 2 v.
Definition i16 (v : Z) (w : list Z) : list Z := w ++ le_bytes 2 (Prelude.u16 v).
Definition i32 (v : Z) (w : list Z) : list Z := w ++ le_bytes 4 (Prelude.u32 v).
Definition u32 (v : Z) (w : list Z) : list Z := w ++ le_bytes 4 v.
Definition bytes (b : list Z) (w : list Z) : list Z :=
  let n := (length b `min` 255)%nat in
  w ++ [Z.of_nat n] ++ take n b.
Definition blob16 (b : list Z) (w : list Z) : list Z :=
  let n := (length b `min` Z.to_nat 65535)%nat in
  u16 (Z.of_nat n) w ++ take n b.
(** [while n > 0 && !s.is_char_boundary(n) { n -= 1 }] *)
Fixpoint cut (s : list Z) (n : nat) : nat :=
  match n with O => O | S k => if is_char_boundary s n then n else cut s k end.
Definition str (s : list Z) (w : list Z) : list Z := bytes (take (cut s (length s `min` 255)%nat) s) w.
Definition id (i : NodeId) (w : list Z) : list Z :=
  match i with
  | NiMeshStar a => w |> u8 (proto_as_u8 PrMeshStar) |> bytes a
  | NiMeshtastic n => w |> u8 (proto_as_u8 PrMeshtastic) |> bytes (le_bytes 4 n)
  | NiMeshCore k => w |> u8 (proto_as_u8 PrMeshCore) |> bytes k
  | NiBroadcast p => w |> u8 (proto_as_u8 p) |> bytes []
  end.
Definition finish (w : list Z) : list Z :=
  let len := Prelude.u16 (zlen w - Z.of_nat HEADER_LEN) in
  take 1 w ++ le_bytes 2 len ++ drop 3 w.
End W.

(** ** Reader

    [R(&[u8])]: the bytes that remain are the state. *)

Module R.
Definition R (A : Type) : Type := St (list Z) DecodeError A.
Definition take (n : nat) : R (list Z) := fun s => if decide (length s < n)%nat then (s, Err DeTruncated) else (drop n s, Ok (list.take n s)).
Definition u8 : R Z := b ← take 1; lift (idx b 0).
(** [as i8], [as i16] *)
Definition as_signed (w z : Z) : Z := if decide (z < 2 ^ (w - 1)) then z else z - 2 ^ w.
Definition i8 : R Z := v ← u8; mret (as_signed 8 v).
Definition u16 : R Z := b ← take 2; b0 ← lift (idx b 0); b1 ← lift (idx b 1); mret (from_le [b0; b1]).
Definition i16 : R Z := v ← u16; mret (as_signed 16 v).
Definition u32 : R Z := b ← take 4; b0 ← lift (idx b 0); b1 ← lift (idx b 1); b2 ← lift (idx b 2); b3 ← lift (idx b 3); mret (from_le [b0; b1; b2; b3]).
Definition i32 : R Z := v ← u32; mret (as_signed 32 v).
(** [r.unwrap_or(d)] *)
Definition unwrap_or {A} (r : R A) (d : A) : R A := fun s => match r s with (s', Err _) => (s', Ok d) | res => res end.
Definition i32_or (d : Z) : R Z := fun s => if decide (4 <= length s)%nat then unwrap_or i32 d s else (s, Ok d).
Definition bytes : R (list Z) := n ← u8; take (Z.to_nat n).
Definition str : R (list Z) := b ← bytes; if utf8_valid b then mret b else fail DeBadUtf8.
Definition str_or_empty : R (list Z) := fun s => if decide (s = []) then (s, Ok []) else unwrap_or str [] s.
Definition blob16 : R (list Z) := n ← u16; take (Z.to_nat n).
Definition id : R NodeId :=
  v ← u8; let p := proto_from_u8 v in
  b ← bytes;
  if decide (length b = 0)%nat then mret (NiBroadcast p) else
  match p with
  | PrMeshStar => if decide (length b = 8)%nat then a ← lift (copy_from_slice 8 b); mret (NiMeshStar a) else fail DeBadValue
  | PrMeshtastic =>
      if decide (length b = 4)%nat then
        b0 ← lift (idx b 0); b1 ← lift (idx b 1); b2 ← lift (idx b 2); b3 ← lift (idx b 3); mret (NiMeshtastic (from_le [b0; b1; b2; b3]))
      else fail DeBadValue
  | PrMeshCore => if decide (1 <= length b <= 32)%nat then mret (NiMeshCore b) else fail DeBadValue
  | PrUnknown => fail DeBadValue
  end.
(** [o.ok_or(BadValue)?] *)
Definition value {A} (o : option A) : R A := lift (ok_or o DeBadValue).
Fixpoint ids (n : nat) : R (list NodeId) := match n with O => mret [] | S n => i ← id; l ← ids n; mret (i :: l) end.
End R.

Definition write_settings (st : Settings) (w : list Z) : list Z :=
  w |> W.str (se_name st) |> W.u8 (se_role st) |> W.u8 (se_profile st) |> W.i8 (se_tx_power_dbm st) |> W.u8 (mode_as_u8 (se_mode st)) |> W.u16 (se_beacon_interval_s st).
Definition read_settings : R.R Settings :=
  name ← R.str; role ← R.u8; profile ← R.u8; power ← R.i8; v ← R.u8; mode ← R.value (mode_from_u8 v); interval ← R.u16;
  mret (mkSettings name role profile power mode interval).

(** ** Requests and responses *)

Module Request.
Definition encode (r : Request) : list Z :=
  match r with
  | GetInfo => W.new req.GET_INFO |> W.finish
  | GetNodes => W.new req.GET_NODES |> W.finish
  | SendText to reliability text => W.new req.SEND_TEXT |> W.id to |> W.u8 reliability |> W.str text |> W.finish
  | GetNetworks => W.new req.GET_NETWORKS |> W.finish
  | SetMode m => W.new req.SET_MODE |> W.u8 (mode_as_u8 m) |> W.finish
  | GetStatus => W.new req.GET_STATUS |> W.finish
  | SetName n => W.new req.SET_NAME |> W.str n |> W.finish
  | SetRole r => W.new req.SET_ROLE |> W.u8 r |> W.finish
  | Announce => W.new req.ANNOUNCE |> W.finish
  | GetMessages after_seq => W.new req.GET_MESSAGES |> W.u32 after_seq |> W.finish
  | SetTime unix_s => W.new req.SET_TIME |> W.u32 unix_s |> W.finish
  | Reboot => W.new req.REBOOT |> W.finish
  | Ping n => W.new req.PING |> W.u32 n |> W.finish
  | GetSettings => W.new req.GET_SETTINGS |> W.finish
  | SetSettings st => W.new req.SET_SETTINGS |> write_settings st |> W.finish
  | SetPosition lat_e7 lon_e7 => W.new req.SET_POSITION |> W.i32 lat_e7 |> W.i32 lon_e7 |> W.finish
  | Trace to => W.new req.TRACE |> W.id to |> W.finish
  | SendImage to reliability data => W.new req.SEND_IMAGE |> W.id to |> W.u8 reliability |> W.blob16 data |> W.finish
  | SetProfilePhoto data => W.new req.SET_PROFILE_PHOTO |> W.blob16 data |> W.finish
  end.
(** The arm of the type [t]. *)
Definition read (t : Z) : R.R Request :=
  if t =? req.GET_INFO then mret GetInfo
  else if t =? req.GET_NODES then mret GetNodes
  else if t =? req.SEND_TEXT then to ← R.id; reliability ← R.u8; text ← R.str; mret (SendText to reliability text)
  else if t =? req.GET_NETWORKS then mret GetNetworks
  else if t =? req.SET_MODE then v ← R.u8; m ← R.value (mode_from_u8 v); mret (SetMode m)
  else if t =? req.GET_STATUS then mret GetStatus
  else if t =? req.SET_NAME then n ← R.str; mret (SetName n)
  else if t =? req.SET_ROLE then r ← R.u8; mret (SetRole r)
  else if t =? req.ANNOUNCE then mret Announce
  else if t =? req.GET_MESSAGES then n ← R.u32; mret (GetMessages n)
  else if t =? req.SET_TIME then n ← R.u32; mret (SetTime n)
  else if t =? req.REBOOT then mret Reboot
  else if t =? req.PING then n ← R.u32; mret (Ping n)
  else if t =? req.GET_SETTINGS then mret GetSettings
  else if t =? req.SET_SETTINGS then st ← read_settings; mret (SetSettings st)
  else if t =? req.SET_POSITION then lat ← R.i32; lon ← R.i32; mret (SetPosition lat lon)
  else if t =? req.TRACE then to ← R.id; mret (Trace to)
  else if t =? req.SEND_IMAGE then to ← R.id; reliability ← R.u8; data ← R.blob16; mret (SendImage to reliability data)
  else if t =? req.SET_PROFILE_PHOTO then data ← R.blob16; mret (SetProfilePhoto data)
  else fail (DeUnknownType t).
Definition decode (frame : list Z) : outcome DecodeError Request := ((t ← R.u8; read t) frame).2.
Definition type_code (r : Request) : outcome DecodeError Z := idx (encode r) (Z.of_nat HEADER_LEN).
End Request.

Module Response.
Definition write_event (e : Event) (w : list Z) : list Z :=
  match e with
  | EvNeighborUp i => w |> W.u8 1 |> W.id i
  | EvNeighborDown i => w |> W.u8 2 |> W.id i
  | EvSessionEstablished i => w |> W.u8 3 |> W.id i
  | EvRouteFound dst hops => w |> W.u8 4 |> W.id dst |> W.u8 hops
  | EvRouteLost i => w |> W.u8 5 |> W.id i
  | EvModeChanged m => w |> W.u8 6 |> W.u8 (mode_as_u8 m)
  end.
Definition encode (r : Response) : list Z :=
  match r with
  | RsInfo i =>
      W.new resp.INFO |> W.u8 PROTOCOL_VERSION |> W.str (ni_name i) |> W.id (ni_id i) |> W.bytes (ni_public_key i) |> W.u8 (ni_role i) |> W.str (ni_firmware i)
      |> W.u32 (ni_frequency_hz i) |> W.u32 (ni_bandwidth_hz i) |> W.u8 (ni_spreading_factor i) |> W.u8 (ni_coding_rate i) |> W.i8 (ni_tx_power_dbm i)
      |> W.u16 (ni_capabilities i) |> W.finish
  | RsNode n =>
      W.new resp.NODE |> W.id (ne_id n) |> W.str (ne_name n) |> W.i16 (ne_rssi_dbm n) |> W.i8 (ne_snr_q n) |> W.u8 (security_as_u8 (ne_security n)) |> W.u8 (ne_hops n)
      |> W.u8 (ne_flags n) |> W.u32 (ne_last_seen_s n) |> W.i32 (ne_lat_e7 n) |> W.i32 (ne_lon_e7 n) |> W.finish
  | RsSendResult handle accepted reason => W.new resp.SEND_RESULT |> W.u32 handle |> W.u8 (if accepted : bool then 1 else 0) |> W.u8 reason |> W.finish
  | RsMessage m =>
      W.new resp.MESSAGE |> W.u32 (me_seq m) |> W.id (me_from m) |> W.str (me_from_name m) |> W.str (me_channel m) |> W.str (me_text m)
      |> W.u8 (security_as_u8 (me_security m)) |> W.i16 (me_rssi_dbm m) |> W.i8 (me_snr_q m) |> W.u8 (me_hops m) |> W.u32 (me_age_s m) |> W.str (me_via m) |> W.finish
  | RsDeliveryUpdate handle state reason => W.new resp.DELIVERY |> W.u32 handle |> W.u8 (delivery_as_u8 state) |> W.u8 reason |> W.finish
  | RsNetwork n =>
      W.new resp.NETWORK |> W.u8 (proto_as_u8 (nw_proto n)) |> W.str (nw_name n) |> W.u8 (nw_nodes n) |> W.i16 (nw_rssi_dbm n) |> W.u32 (nw_frames n)
      |> W.u32 (nw_last_seen_s n) |> W.finish
  | RsStatus s =>
      W.new resp.STATUS |> W.u8 (mode_as_u8 (su_mode s)) |> W.u16 (su_battery_mv s) |> W.u32 (su_uptime_s s) |> W.u8 (su_neighbors s) |> W.u8 (su_zone s)
      |> W.u8 (su_sessions s) |> W.u32 (su_rx_frames s) |> W.u32 (su_tx_frames s) |> W.u16 (su_duty_permille s) |> W.u8 (su_unread s)
      |> W.i16 (su_last_rssi_dbm s) |> W.i8 (su_last_snr_q s) |> W.finish
  | RsEvent e => W.new resp.EVENT |> write_event e |> W.finish
  | RsEnd kind => W.new resp.END_ |> W.u8 kind |> W.finish
  | RsPong n => W.new resp.PONG |> W.u32 n |> W.finish
  | RsError code text => W.new resp.ERROR |> W.u8 code |> W.str text |> W.finish
  | RsSettings st => W.new resp.SETTINGS |> write_settings st |> W.finish
  | RsImage seq from from_name kind data rssi_dbm hops age_s =>
      W.new resp.IMAGE |> W.u32 seq |> W.id from |> W.str from_name |> W.u8 kind |> W.i16 rssi_dbm |> W.u8 hops |> W.u32 age_s |> W.blob16 data |> W.finish
  | RsTrace to reached hops rtt_ms =>
      let w := W.new resp.TRACE |> W.id to |> W.u8 (if reached : bool then 1 else 0) |> W.u32 rtt_ms |> W.u8 (Z.of_nat (length hops `min` 255)) in
      foldl (fun w h => W.id h w) w (take 255 hops) |> W.finish
  end.
Definition read_event : R.R Event :=
  k ← R.u8;
  match k with
  | 1 => i ← R.id; mret (EvNeighborUp i)
  | 2 => i ← R.id; mret (EvNeighborDown i)
  | 3 => i ← R.id; mret (EvSessionEstablished i)
  | 4 => dst ← R.id; hops ← R.u8; mret (EvRouteFound dst hops)
  | 5 => i ← R.id; mret (EvRouteLost i)
  | 6 => v ← R.u8; m ← R.value (mode_from_u8 v); mret (EvModeChanged m)
  | _ => fail DeBadValue
  end.
Definition read (t : Z) : R.R Response :=
  if t =? resp.INFO then
    _ ← R.u8; name ← R.str; id ← R.id; pk ← R.bytes;
    if decide (length pk <> 32)%nat then fail DeBadValue else
    public_key ← lift (copy_from_slice 32 pk); role ← R.u8; firmware ← R.str; frequency ← R.u32; bandwidth ← R.u32; sf ← R.u8; cr ← R.u8; power ← R.i8; capabilities ← R.u16;
    mret (RsInfo (mkNodeInfo name id public_key role firmware frequency bandwidth sf cr power capabilities))
  else if t =? resp.NODE then
    id ← R.id; name ← R.str; rssi ← R.i16; snr ← R.i8; v ← R.u8; hops ← R.u8; flags ← R.u8; seen ← R.u32; lat ← R.i32_or 0; lon ← R.i32_or 0;
    mret (RsNode (mkNodeEntry id name rssi snr (security_from_u8 v) hops flags seen lat lon))
  else if t =? resp.SEND_RESULT then handle ← R.u32; v ← R.u8; reason ← R.u8; mret (RsSendResult handle (negb (v =? 0)) reason)
  else if t =? resp.MESSAGE then
    seq ← R.u32; from ← R.id; name ← R.str; channel ← R.str; text ← R.str; v ← R.u8; rssi ← R.i16; snr ← R.i8; hops ← R.u8; age ← R.u32; via ← R.str_or_empty;
    mret (RsMessage (mkMessage seq from name channel text (security_from_u8 v) rssi snr hops age via))
  else if t =? resp.DELIVERY then handle ← R.u32; v ← R.u8; state ← R.value (delivery_from_u8 v); reason ← R.u8; mret (RsDeliveryUpdate handle state reason)
  else if t =? resp.NETWORK then
    v ← R.u8; name ← R.str; nodes ← R.u8; rssi ← R.i16; frames ← R.u32; seen ← R.u32; mret (RsNetwork (mkNetwork (proto_from_u8 v) name nodes rssi frames seen))
  else if t =? resp.STATUS then
    v ← R.u8; mode ← R.value (mode_from_u8 v); battery ← R.u16; uptime ← R.u32; neighbors ← R.u8; zone ← R.u8; sessions ← R.u8; rx ← R.u32; tx ← R.u32; duty ← R.u16;
    unread ← R.u8; rssi ← R.i16; snr ← R.i8;
    mret (RsStatus (mkStatus mode battery uptime neighbors zone sessions rx tx duty unread rssi snr))
  else if t =? resp.EVENT then e ← read_event; mret (RsEvent e)
  else if t =? resp.END_ then k ← R.u8; mret (RsEnd k)
  else if t =? resp.PONG then n ← R.u32; mret (RsPong n)
  else if t =? resp.ERROR then code ← R.u8; text ← R.str; mret (RsError code text)
  else if t =? resp.SETTINGS then st ← read_settings; mret (RsSettings st)
  else if t =? resp.IMAGE then
    seq ← R.u32; from ← R.id; name ← R.str; kind ← R.u8; rssi ← R.i16; hops ← R.u8; age ← R.u32; data ← R.blob16; mret (RsImage seq from name kind data rssi hops age)
  else if t =? resp.TRACE then
    to ← R.id; v ← R.u8; rtt ← R.u32; n ← R.u8; hops ← R.ids (Z.to_nat n); mret (RsTrace to (negb (v =? 0)) hops rtt)
  else fail (DeUnknownType t).
Definition decode (frame : list Z) : outcome DecodeError Response := ((t ← R.u8; read t) frame).2.
End Response.

(** ** Framer *)

Record Framer := mkFramer { fr_buf : list Z; fr_max : Z }.
Module Framer.
Definition new (max : Z) : Framer := mkFramer [] max.
(** The loop of [push]; it removes a byte or more, or stops. *)
Fixpoint push_loop (fuel : nat) (max : Z) (buf : list Z) : list Z * list (list Z) :=
  match fuel with
  | O => (buf, [])
  | S fuel =>
      match position (fun b => b =? START) buf with
      | None => ([], [])
      | Some i =>
          let buf := drop i buf in
          if decide (length buf < HEADER_LEN)%nat then (buf, []) else
          let len := from_le (take 2 (drop 1 buf)) in
          if decide (len = 0 \/ len > max) then push_loop fuel max (drop 1 buf) else
          if decide (zlen buf < Z.of_nat HEADER_LEN + len) then (buf, []) else
          let frame := take (Z.to_nat len) (drop HEADER_LEN buf) in
          let '(rest, out) := push_loop fuel max (drop (HEADER_LEN + Z.to_nat len) buf) in
          (rest, frame :: out)
      end
  end.
Definition push (bytes : list Z) (f : Framer) : Framer * list (list Z) :=
  let buf := fr_buf f ++ bytes in
  let '(rest, out) := push_loop (S (length buf)) (fr_max f) buf in
  (mkFramer rest (fr_max f), out).
Definition pending (f : Framer) : Z := zlen (fr_buf f).
End Framer.
(** [frame.chunks(mtu_payload.max(1))] *)
Fixpoint chunks_of (fuel n : nat) (l : list Z) : list (list Z) :=
  match fuel, l with S fuel, _ :: _ => take n l :: chunks_of fuel n (drop n l) | _, _ => [] end.
Definition chunks (frame : list Z) (mtu_payload : nat) : list (list Z) := chunks_of (length frame) (mtu_payload `max` 1) frame.
