(* ===== verification/CompanionFacts.v ===== *)
(** * Facts on the companion link

    Two small logics on readers: [reads m w x], reading the bytes [w] gives [x] and
    leaves what follows; and [reader_yields m P], whatever the bytes, [m] ends without a
    panic and what it returns satisfies [P]. *)
From stdpp Require Import base tactics list numbers.
From Stdlib Require Import Lia Ascii String.
From S2P Require Import Prelude Text Strings Proto Companion.
From stdpp Require Import list.
Import Text companion ProtoFacts.
#[local] Open Scope Z_scope.

Definition reads {A} (m : R.R A) (w : list Z) (x : A) : Prop := forall s, m (w ++ s) = (s, Ok x).
Definition reader_yields {A} (m : R.R A) (P : A -> Prop) : Prop :=
  forall s, bytes_ok s -> match m s with (s', Ok a) => bytes_ok s' /\ P a | (s', Err _) => bytes_ok s' | (_, Panic) => False end.

(** ** Well-formed values *)

Definition in_i (w z : Z) : Prop := - 2 ^ (w - 1) <= z < 2 ^ (w - 1).
Definition str_ok (s : list Z) : Prop := utf8_valid s = true /\ bytes_ok s /\ (length s <= 255)%nat.
Definition blob_ok (b : list Z) : Prop := bytes_ok b /\ zlen b <= 65535.
Definition id_ok (i : NodeId) : Prop :=
  match i with
  | NiMeshStar a => length a = 8%nat /\ bytes_ok a
  | NiMeshtastic n => in_u 32 n
  | NiMeshCore k => (1 <= length k <= 32)%nat /\ bytes_ok k
  | NiBroadcast _ => True
  end.
Definition settings_ok (s : Settings) : Prop :=
  str_ok (se_name s) /\ in_u 8 (se_role s) /\ in_u 8 (se_profile s) /\ in_i 8 (se_tx_power_dbm s) /\ in_u 16 (se_beacon_interval_s s).
Definition request_ok (r : Request) : Prop :=
  match r with
  | SendText to reliability text => id_ok to /\ in_u 8 reliability /\ str_ok text
  | SetName n => str_ok n
  | SetRole r => in_u 8 r
  | GetMessages n | SetTime n | Ping n => in_u 32 n
  | SetSettings s => settings_ok s
  | SetPosition lat lon => in_i 32 lat /\ in_i 32 lon
  | Trace to => id_ok to
  | SendImage to reliability data => id_ok to /\ in_u 8 reliability /\ blob_ok data
  | SetProfilePhoto data => blob_ok data
  | _ => True
  end.
Definition event_ok (e : Event) : Prop :=
  match e with
  | EvNeighborUp i | EvNeighborDown i | EvSessionEstablished i | EvRouteLost i => id_ok i
  | EvRouteFound dst hops => id_ok dst /\ in_u 8 hops
  | EvModeChanged _ => True
  end.
Definition response_ok (r : Response) : Prop :=
  match r with
  | RsInfo i =>
      str_ok (ni_name i) /\ id_ok (ni_id i) /\ (length (ni_public_key i) = 32%nat /\ bytes_ok (ni_public_key i)) /\ in_u 8 (ni_role i) /\ str_ok (ni_firmware i) /\
      in_u 32 (ni_frequency_hz i) /\ in_u 32 (ni_bandwidth_hz i) /\ in_u 8 (ni_spreading_factor i) /\ in_u 8 (ni_coding_rate i) /\ in_i 8 (ni_tx_power_dbm i) /\ in_u 16 (ni_capabilities i)
  | RsNode n =>
      id_ok (ne_id n) /\ str_ok (ne_name n) /\ in_i 16 (ne_rssi_dbm n) /\ in_i 8 (ne_snr_q n) /\ in_u 8 (ne_hops n) /\ in_u 8 (ne_flags n) /\ in_u 32 (ne_last_seen_s n) /\
      in_i 32 (ne_lat_e7 n) /\ in_i 32 (ne_lon_e7 n)
  | RsSendResult handle _ reason => in_u 32 handle /\ in_u 8 reason
  | RsMessage m =>
      in_u 32 (me_seq m) /\ id_ok (me_from m) /\ str_ok (me_from_name m) /\ str_ok (me_channel m) /\ str_ok (me_text m) /\ in_i 16 (me_rssi_dbm m) /\ in_i 8 (me_snr_q m) /\
      in_u 8 (me_hops m) /\ in_u 32 (me_age_s m) /\ str_ok (me_via m)
  | RsDeliveryUpdate handle _ reason => in_u 32 handle /\ in_u 8 reason
  | RsNetwork n => str_ok (nw_name n) /\ in_u 8 (nw_nodes n) /\ in_i 16 (nw_rssi_dbm n) /\ in_u 32 (nw_frames n) /\ in_u 32 (nw_last_seen_s n)
  | RsStatus s =>
      in_u 16 (su_battery_mv s) /\ in_u 32 (su_uptime_s s) /\ in_u 8 (su_neighbors s) /\ in_u 8 (su_zone s) /\ in_u 8 (su_sessions s) /\ in_u 32 (su_rx_frames s) /\
      in_u 32 (su_tx_frames s) /\ in_u 16 (su_duty_permille s) /\ in_u 8 (su_unread s) /\ in_i 16 (su_last_rssi_dbm s) /\ in_i 8 (su_last_snr_q s)
  | RsEvent e => event_ok e
  | RsEnd k => in_u 8 k
  | RsPong n => in_u 32 n
  | RsError code text => in_u 8 code /\ str_ok text
  | RsSettings s => settings_ok s
  | RsImage seq from name kind data rssi hops age =>
      in_u 32 seq /\ id_ok from /\ str_ok name /\ in_u 8 kind /\ blob_ok data /\ in_i 16 rssi /\ in_u 8 hops /\ in_u 32 age
  | RsTrace to _ hops rtt => id_ok to /\ in_u 32 rtt /\ (length hops <= 255)%nat /\ Forall id_ok hops
  end.

(** ** Reading what was written *)

Lemma reads_ret {A} (x : A) : reads (mret x) [] x.
Proof. done. Qed.
Lemma reads_bind {A B} (m : R.R A) (k : A -> R.R B) w w' x y : reads m w x -> reads (k x) w' y -> reads (m ≫= k) (w ++ w') y.
Proof. intros Hm Hk s. rewrite <- app_assoc. unfold mbind, St_bind. rewrite Hm. apply Hk. Qed.
Lemma reads_pure {A B} (o : outcome DecodeError A) (k : A -> R.R B) w x y : o = Ok x -> reads (k x) w y -> reads (lift o ≫= k) w y.
Proof. intros -> Hk. exact Hk. Qed.
Lemma reads_map {A B} (m : R.R A) (f : A -> B) w x : reads m w x -> reads (v ← m; mret (f v)) w (f x).
Proof. intros Hm s. unfold mbind, St_bind. by rewrite Hm. Qed.
Lemma reads_take n w : length w = n -> reads (R.take n) w w.
Proof. intros Hn s. unfold R.take. rewrite decide_False by (rewrite length_app; lia). by rewrite drop_app_length', take_app_length' by done. Qed.
Lemma reads_u8 v : reads R.u8 [v] v.
Proof. done. Qed.
Lemma wrap_signed w v : 1 <= w -> in_i w v -> R.as_signed w (v mod 2 ^ w) = v.
Proof.
  intros Hw [H1 H2]. unfold R.as_signed. assert (Hp : 2 ^ w = 2 * 2 ^ (w - 1)) by (rewrite <- Z.pow_succ_r by lia; f_equal; lia). rewrite Hp.
  destruct (decide (0 <= v)).
  - rewrite Z.mod_small by lia. by rewrite decide_True by lia.
  - replace (v mod _) with (v + 2 * 2 ^ (w - 1)); [rewrite decide_False by lia; lia|]. apply Z.mod_unique with (-1); lia.
Qed.
Lemma reads_i8 v : in_i 8 v -> reads R.i8 [Prelude.u8 v] v.
Proof. intros Hv. pose proof (wrap_signed 8 v ltac:(lia) Hv) as E. rewrite <- E at 2. apply (reads_map R.u8 (R.as_signed 8)), reads_u8. Qed.
Lemma reads_le n v : in_u (8 * Z.of_nat n) v -> from_le (le_bytes n v) = v.
Proof. intros Hv. rewrite from_le_le_bytes. apply Z.mod_small. unfold in_u in Hv. replace (256 ^ Z.of_nat n) with (2 ^ (8 * Z.of_nat n)); [done|]. change 256 with (2 ^ 8). by rewrite <- Z.pow_mul_r by lia. Qed.
Lemma reads_u16 v : in_u 16 v -> reads R.u16 (le_bytes 2 v) v.
Proof.
  intros Hv s. pose proof (reads_le 2 v Hv) as E. pose proof (length_le_bytes 2 v) as Hl. destruct (le_bytes 2 v) as [|a [|b [|]]]; try done.
  unfold R.u16, mbind, St_bind. rewrite (reads_take 2 [a; b]) by done. rewrite <- E. reflexivity.
Qed.
Lemma reads_u32 v : in_u 32 v -> reads R.u32 (le_bytes 4 v) v.
Proof.
  intros Hv s. pose proof (reads_le 4 v Hv) as E. pose proof (length_le_bytes 4 v) as Hl. destruct (le_bytes 4 v) as [|a [|b [|c [|d [|]]]]]; try done.
  unfold R.u32, mbind, St_bind. rewrite (reads_take 4 [a; b; c; d]) by done. rewrite <- E. reflexivity.
Qed.
Lemma wrap_in w v : 0 <= w -> in_u w (v mod 2 ^ w).
Proof. intros Hw. apply Z.mod_pos_bound. lia. Qed.
Lemma reads_i16 v : in_i 16 v -> reads R.i16 (le_bytes 2 (Prelude.u16 v)) v.
Proof. intros Hv. pose proof (wrap_signed 16 v ltac:(lia) Hv) as E. rewrite <- E at 2. apply (reads_map R.u16 (R.as_signed 16)), reads_u16, (wrap_in 16); lia. Qed.
Lemma reads_i32 v : in_i 32 v -> reads R.i32 (le_bytes 4 (Prelude.u32 v)) v.
Proof. intros Hv. pose proof (wrap_signed 32 v ltac:(lia) Hv) as E. rewrite <- E at 2. apply (reads_map R.u32 (R.as_signed 32)), reads_u32, (wrap_in 32); lia. Qed.
Lemma reads_i32_or v d : in_i 32 v -> reads (R.i32_or d) (le_bytes 4 (Prelude.u32 v)) v.
Proof.
  intros Hv s. unfold R.i32_or. rewrite decide_True by (rewrite length_app, length_le_bytes; lia). unfold R.unwrap_or. by rewrite (reads_i32 v Hv s).
Qed.

Definition short_bytes (b : list Z) : list Z := Z.of_nat (length b) :: b.
Definition long_bytes (b : list Z) : list Z := le_bytes 2 (zlen b) ++ b.
Definition id_bytes (i : NodeId) : list Z :=
  match i with
  | NiMeshStar a => 0 :: short_bytes a
  | NiMeshtastic n => 1 :: short_bytes (le_bytes 4 n)
  | NiMeshCore k => 2 :: short_bytes k
  | NiBroadcast p => [proto_as_u8 p; 0]
  end.
Lemma reads_bytes b : reads R.bytes (short_bytes b) b.
Proof. eapply (reads_bind R.u8 _ [Z.of_nat (length b)] b); [apply reads_u8|]. apply reads_take. by rewrite Nat2Z.id. Qed.
Lemma reads_str s : str_ok s -> reads R.str (short_bytes s) s.
Proof. intros (Hu & _ & _) r. unfold R.str, mbind, St_bind. rewrite reads_bytes. by rewrite Hu. Qed.
Lemma reads_str_or_empty s : str_ok s -> reads R.str_or_empty (short_bytes s) s.
Proof. intros Hs r. unfold R.str_or_empty, R.unwrap_or. rewrite (reads_str s Hs). by rewrite decide_False. Qed.
Lemma reads_blob16 b : blob_ok b -> reads R.blob16 (long_bytes b) b.
Proof.
  intros [_ Hb]. unfold zlen in Hb. unfold R.blob16, long_bytes. apply reads_bind with (x := zlen b); [apply reads_u16; unfold in_u, zlen; change (2 ^ 16) with 65536; lia|]. apply reads_take. unfold zlen. by rewrite Nat2Z.id.
Qed.
Lemma reads_id i : id_ok i -> reads R.id (id_bytes i) i.
Proof.
  intros Hi. destruct i as [a|n|k|p]; cbn [id_bytes id_ok] in *.
  - destruct Hi as [Hl _]. eapply (reads_bind R.u8 _ [0]); [apply reads_u8|]. cbv zeta. rewrite <- (app_nil_r (short_bytes a)). apply reads_bind with (x := a); [apply reads_bytes|].
    intros s. rewrite decide_False by lia. change (proto_from_u8 0) with PrMeshStar. cbv beta iota. rewrite decide_True by done. unfold copy_from_slice, mbind, St_bind, lift. by rewrite decide_True.
  - eapply (reads_bind R.u8 _ [1]); [apply reads_u8|]. cbv zeta. rewrite <- (app_nil_r (short_bytes _)). apply reads_bind with (x := le_bytes 4 n); [apply reads_bytes|].
    intros s. pose proof (reads_le 4 n Hi) as E. pose proof (length_le_bytes 4 n) as Hl. destruct (le_bytes 4 n) as [|x [|y [|z [|t [|]]]]]; try done. rewrite <- E. reflexivity.
  - destruct Hi as [Hl _]. eapply (reads_bind R.u8 _ [2]); [apply reads_u8|]. cbv zeta. rewrite <- (app_nil_r (short_bytes k)). apply reads_bind with (x := k); [apply reads_bytes|].
    intros s. rewrite decide_False by lia. change (proto_from_u8 2) with PrMeshCore. cbv beta iota. by rewrite decide_True.
  - destruct p; intros s; reflexivity.
Qed.
Lemma reads_ids l : Forall id_ok l -> reads (R.ids (length l)) (concat (id_bytes <$> l)) l.
Proof.
  induction 1 as [|i l Hi _ IH]; [apply reads_ret|]. cbn [length R.ids fmap list_fmap concat]. apply reads_bind with (x := i); [by apply reads_id|]. by apply reads_map with (f := cons i).
Qed.

(** ** What the writer writes *)

(** The frame around a body: start byte, length, body. *)
Definition frame_of (b : list Z) : list Z := START :: le_bytes 2 (u16 (zlen b)) ++ b.
Lemma W_new t : W.new t = [START; 0; 0] ++ [t].
Proof. done. Qed.
Lemma W_finish b : W.finish ([START; 0; 0] ++ b) = frame_of b.
Proof. unfold W.finish, frame_of. cbn [app take drop]. rewrite !zlen_cons. do 4 f_equal. unfold HEADER_LEN. lia. Qed.
Lemma W_bytes b w : (length b <= 255)%nat -> W.bytes b w = w ++ short_bytes b.
Proof. intros Hb. unfold W.bytes, short_bytes. rewrite Nat.min_l by lia. by rewrite take_ge by lia. Qed.
Lemma boundary_end s : is_char_boundary s (length s) = true.
Proof. unfold is_char_boundary. rewrite lookup_ge_None_2 by lia. rewrite (bool_decide_eq_true_2 (length s = length s)) by done. apply orb_true_r. Qed.
Lemma W_cut s : W.cut s (length s) = length s.
Proof. destruct (length s) as [|n] eqn:E; [done|]. cbn [W.cut]. rewrite <- E. by rewrite boundary_end. Qed.
Lemma W_str s w : str_ok s -> W.str s w = w ++ short_bytes s.
Proof. intros (_ & _ & Hs). unfold W.str. rewrite Nat.min_l by lia. rewrite W_cut, take_ge by lia. by apply W_bytes. Qed.
Lemma W_blob16 b w : blob_ok b -> W.blob16 b w = w ++ long_bytes b.
Proof. intros [_ Hb]. unfold zlen in Hb. unfold W.blob16, W.u16, long_bytes. rewrite Nat.min_l by lia. rewrite take_ge by lia. by rewrite <- app_assoc. Qed.
Lemma W_id i w : id_ok i -> W.id i w = w ++ id_bytes i.
Proof.
  intros Hi. destruct i as [a|n|k|p]; cbn [W.id id_ok id_bytes] in *; unfold W.u8; rewrite W_bytes, <- app_assoc by (rewrite ?length_le_bytes; cbn [length]; lia); reflexivity.
Qed.
Lemma W_ids l : Forall id_ok l -> forall w, foldl (fun w h => W.id h w) w l = w ++ concat (id_bytes <$> l).
Proof. induction 1 as [|i l Hi _ IH]; intros w; [by rewrite app_nil_r|]. cbn [foldl fmap list_fmap concat]. rewrite IH, W_id by done. by rewrite <- app_assoc. Qed.

Lemma mode_back m : R.value (mode_from_u8 (mode_as_u8 m)) = lift (Ok m).
Proof. by destruct m. Qed.
Lemma delivery_back d : R.value (delivery_from_u8 (delivery_as_u8 d)) = lift (Ok d).
Proof. by destruct d. Qed.
Lemma security_back s : security_from_u8 (security_as_u8 s) = s.
Proof. by destruct s. Qed.
Lemma proto_back p : proto_from_u8 (proto_as_u8 p) = p.
Proof. by destruct p. Qed.
Lemma flag_back (b : bool) : negb ((if b then 1 else 0) =? 0) = b.
Proof. by destruct b. Qed.

Lemma reads_last {A B} (m : R.R A) (k : A -> R.R B) w x y : reads m w x -> k x = mret y -> reads (m ≫= k) w y.
Proof. intros Hm Hk s. unfold mbind, St_bind. rewrite Hm, Hk. done. Qed.
Ltac field :=
  first [simple apply reads_u8|simple apply reads_i8; done|simple apply reads_u16; done|simple apply reads_i16; done|simple apply reads_u32; done|simple apply reads_i32; done|simple apply reads_i32_or; done|
         simple apply reads_str; done|simple apply reads_str_or_empty; done|simple apply reads_id; done|simple apply reads_bytes|simple apply reads_blob16; done].
Ltac rebuilt := first [reflexivity|match goal with |- _ = mret (_ ?r) => by destruct r end].
Ltac fields :=
  repeat first [rewrite mode_back|rewrite delivery_back|simple eapply reads_pure; [reflexivity|]|simple eapply reads_bind; [solve [field]|cbv beta]];
  try (simple eapply reads_last; [solve [field]|cbv beta; rewrite ?mode_back, ?security_back, ?proto_back, ?flag_back; rebuilt]).
Ltac written :=
  unfold W.u8, W.i8, W.u16, W.i16, W.u32, W.i32; rewrite ?W_str, ?W_id, ?W_blob16 by done; rewrite ?W_new, <- ?app_assoc.
Ltac dispatch :=
  repeat match goal with |- context [?a =? ?b] => let v := eval vm_compute in (Z.eqb a b) in change (Z.eqb a b) with v; cbv beta iota end.

Definition settings_bytes (s : Settings) : list Z :=
  short_bytes (se_name s) ++ [se_role s] ++ [se_profile s] ++ [u8 (se_tx_power_dbm s)] ++ [mode_as_u8 (se_mode s)] ++ le_bytes 2 (se_beacon_interval_s s).
Lemma W_settings s w : settings_ok s -> write_settings s w = w ++ settings_bytes s.
Proof. intros (Hn & _). unfold write_settings, settings_bytes. by written. Qed.
Lemma reads_settings s : settings_ok s -> reads read_settings (settings_bytes s) s.
Proof. destruct s as [name role profile power mode interval]. intros (? & ? & ? & ? & ?). cbn [se_name se_role se_profile se_tx_power_dbm se_mode se_beacon_interval_s] in *. unfold read_settings, settings_bytes. cbn [se_name se_role se_profile se_tx_power_dbm se_mode se_beacon_interval_s]. fields. Qed.

Definition event_bytes (e : Event) : list Z :=
  match e with
  | EvNeighborUp i => [1] ++ id_bytes i
  | EvNeighborDown i => [2] ++ id_bytes i
  | EvSessionEstablished i => [3] ++ id_bytes i
  | EvRouteFound dst hops => [4] ++ id_bytes dst ++ [hops]
  | EvRouteLost i => [5] ++ id_bytes i
  | EvModeChanged m => [6] ++ [mode_as_u8 m]
  end.
Lemma W_event e w : event_ok e -> Response.write_event e w = w ++ event_bytes e.
Proof. destruct e; cbn [event_ok Response.write_event event_bytes]; intros; destruct_and?; by written. Qed.
Lemma reads_event e : event_ok e -> reads Response.read_event (event_bytes e) e.
Proof. destruct e; cbn [event_ok event_bytes]; intros; destruct_and?; unfold Response.read_event; (eapply reads_bind; [apply reads_u8|]); cbv beta iota; fields. Qed.
Ltac field ::=
  first [simple apply reads_u8|simple apply reads_i8; done|simple apply reads_u16; done|simple apply reads_i16; done|simple apply reads_u32; done|simple apply reads_i32; done|
         simple apply reads_i32_or; done|simple apply reads_str; done|simple apply reads_str_or_empty; done|simple apply reads_id; done|simple apply reads_bytes|
         simple apply reads_blob16; done|simple apply reads_settings; done|simple apply reads_event; done].
Definition read_request : R.R Request := t ← R.u8; Request.read t.
Definition read_response : R.R Response := t ← R.u8; Response.read t.
Ltac carried :=
  eexists; split; [written; apply W_finish|]; first [eapply reads_bind; [apply reads_u8|]|eapply reads_last; [apply reads_u8|reflexivity]].
Lemma request_carried r : request_ok r -> exists b, Request.encode r = frame_of b /\ reads read_request b r.
Proof.
  unfold read_request. destruct r; cbn [request_ok Request.encode]; intros Hr; destruct_and?; rewrite ?W_settings by done; carried; cbv beta; unfold Request.read; dispatch; fields.
Qed.
Ltac carried_response := carried; cbv beta; unfold Response.read; dispatch; fields.
Lemma info_carried i : response_ok (RsInfo i) -> exists b, Response.encode (RsInfo i) = frame_of b /\ reads read_response b (RsInfo i).
Proof.
  unfold read_response. destruct i as [name id pk role fw freq bw sf cr pw cap]. cbn [response_ok Response.encode ni_name ni_id ni_public_key ni_role ni_firmware ni_frequency_hz
    ni_bandwidth_hz ni_spreading_factor ni_coding_rate ni_tx_power_dbm ni_capabilities]. intros Hr. destruct_and?. rewrite W_bytes by lia. carried_response.
  rewrite decide_False by lia. unfold copy_from_slice. rewrite decide_True by done. fields.
Qed.
Lemma trace_carried to reached hops rtt :
  response_ok (RsTrace to reached hops rtt) -> exists b, Response.encode (RsTrace to reached hops rtt) = frame_of b /\ reads read_response b (RsTrace to reached hops rtt).
Proof.
  unfold read_response. cbn [response_ok Response.encode]. intros Hr. destruct_and?. cbv zeta. rewrite Nat.min_l, take_ge by lia. rewrite W_ids by done. carried_response.
  rewrite Nat2Z.id. eapply reads_last; [by apply reads_ids|]. by rewrite flag_back.
Qed.
Lemma response_carried r : response_ok r -> exists b, Response.encode r = frame_of b /\ reads read_response b r.
Proof.
  destruct r as [i|n|handle acc reason|m|handle st reason|n|s|e|k|n|code text|st|seq from name kind data rssi hops age|to reached hops rtt];
    [apply info_carried|..|apply trace_carried]; unfold read_response; cbn [response_ok Response.encode]; intros Hr; destruct_and?;
    rewrite ?W_settings, ?W_event by done; carried_response.
Qed.

(** ** Reading anything *)

Lemma yields_ret {A} (x : A) (P : A -> Prop) : P x -> reader_yields (mret x) P.
Proof. by intros HP s Hs. Qed.
Lemma yields_fail {A} e (P : A -> Prop) : reader_yields (fail e) P.
Proof. by intros s Hs. Qed.
Lemma reader_yields_bind {A B} (m : R.R A) (k : A -> R.R B) P Q : reader_yields m P -> (forall a, P a -> reader_yields (k a) Q) -> reader_yields (m ≫= k) Q.
Proof.
  intros Hm Hk s Hs. specialize (Hm s Hs). unfold mbind, St_bind. destruct (m s) as [s' [a|e|]]; [|done|done]. destruct Hm as [Hs' Ha]. by apply Hk.
Qed.
Lemma yields_weaken {A} (m : R.R A) (P Q : A -> Prop) : reader_yields m P -> (forall a, P a -> Q a) -> reader_yields m Q.
Proof. intros Hm HPQ s Hs. specialize (Hm s Hs). destruct (m s) as [s' [a|e|]]; [|done|done]. naive_solver. Qed.
Lemma yields_lift {A} (o : outcome DecodeError A) (P : A -> Prop) : match o with Ok a => P a | Err _ => True | Panic => False end -> reader_yields (lift o) P.
Proof. by intros Ho s Hs; destruct o. Qed.
Lemma yields_take n : reader_yields (R.take n) (fun b => length b = n /\ bytes_ok b).
Proof.
  intros s Hs. unfold R.take. destruct (decide (length s < n)%nat); [done|]. split; [by apply Forall_drop|]. split; [rewrite length_take; lia|by apply Forall_take].
Qed.
Lemma yields_value {A} (o : option A) : reader_yields (R.value o) (fun _ => True).
Proof. apply yields_lift. by destruct o. Qed.
Lemma yields_u8 : reader_yields R.u8 (in_u 8).
Proof. eapply reader_yields_bind; [apply yields_take|]. intros [|a [|]] [Hl Hb]; try done. apply yields_lift. by inversion Hb. Qed.
Lemma le_range l n : bytes_ok l -> length l = n -> in_u (8 * Z.of_nat n) (from_le l).
Proof.
  intros Hl Hn. pose proof (from_le_range l Hl) as H. unfold zlen in H. rewrite Hn in H. change 256 with (2 ^ 8) in H. by rewrite <- Z.pow_mul_r in H by lia.
Qed.
Lemma yields_u16 : reader_yields R.u16 (in_u 16).
Proof. eapply reader_yields_bind; [apply yields_take|]. intros [|a [|b [|]]] [Hl Hb]; try done. apply (yields_ret (from_le [a; b])). by apply (le_range _ 2). Qed.
Lemma yields_u32 : reader_yields R.u32 (in_u 32).
Proof. eapply reader_yields_bind; [apply yields_take|]. intros [|a [|b [|c [|d [|]]]]] [Hl Hb]; try done. apply (yields_ret (from_le [a; b; c; d])). by apply (le_range _ 4). Qed.
Lemma signed_range w z : 1 <= w -> in_u w z -> in_i w (R.as_signed w z).
Proof.
  intros Hw [H1 H2]. assert (Hp : 2 ^ w = 2 * 2 ^ (w - 1)) by (rewrite <- Z.pow_succ_r by lia; f_equal; lia). unfold R.as_signed, in_i. destruct (decide (z < 2 ^ (w - 1))); lia.
Qed.
Lemma yields_i8 : reader_yields R.i8 (in_i 8).
Proof. eapply reader_yields_bind; [apply yields_u8|]. intros v Hv. by apply yields_ret, signed_range. Qed.
Lemma yields_i16 : reader_yields R.i16 (in_i 16).
Proof. eapply reader_yields_bind; [apply yields_u16|]. intros v Hv. by apply yields_ret, signed_range. Qed.
Lemma yields_i32 : reader_yields R.i32 (in_i 32).
Proof. eapply reader_yields_bind; [apply yields_u32|]. intros v Hv. by apply yields_ret, signed_range. Qed.
Lemma yields_or {A} (m : R.R A) d (P : A -> Prop) : P d -> reader_yields m P -> reader_yields (R.unwrap_or m d) P.
Proof. intros Hd Hm s Hs. specialize (Hm s Hs). unfold R.unwrap_or. by destruct (m s) as [s' [a|e|]]. Qed.
Lemma yields_i32_or : reader_yields (R.i32_or 0) (in_i 32).
Proof. intros s Hs. assert (H0 : in_i 32 0) by (split; vm_compute; congruence). unfold R.i32_or. destruct (decide (4 <= length s)%nat); [|done]. by apply (yields_or R.i32 0 _ H0 yields_i32). Qed.
Lemma yields_bytes : reader_yields R.bytes (fun b => (length b <= 255)%nat /\ bytes_ok b).
Proof.
  eapply reader_yields_bind; [apply yields_u8|]. intros n [Hn1 Hn2]. change (2 ^ 8) with 256 in Hn2. eapply yields_weaken; [apply yields_take|]. intros b [Hl Hb]. split; [lia|done].
Qed.
Lemma yields_str : reader_yields R.str str_ok.
Proof. eapply reader_yields_bind; [apply yields_bytes|]. intros b [Hl Hb]. destruct (utf8_valid b) eqn:E; [by apply yields_ret|apply yields_fail]. Qed.
Lemma yields_str_or_empty : reader_yields R.str_or_empty str_ok.
Proof.
  intros s Hs. unfold R.str_or_empty. assert (He : str_ok []) by (split; [done|]; split; [constructor|cbn; lia]). destruct (decide (s = [])); [done|]. by apply (yields_or R.str [] _ He yields_str).
Qed.
Lemma yields_blob16 : reader_yields R.blob16 blob_ok.
Proof.
  eapply reader_yields_bind; [apply yields_u16|]. intros n [Hn1 Hn2]. change (2 ^ 16) with 65536 in Hn2. eapply yields_weaken; [apply yields_take|]. intros b [Hl Hb]. split; [done|]. unfold zlen. lia.
Qed.
Lemma yields_id : reader_yields R.id id_ok.
Proof.
  eapply reader_yields_bind; [apply yields_u8|]. intros v _. cbv zeta. eapply reader_yields_bind; [apply yields_bytes|]. intros b [_ Hb]. destruct (decide (length b = 0%nat)); [by apply yields_ret|].
  destruct (proto_from_u8 v).
  - destruct (decide (length b = 8%nat)) as [Hl|]; [|apply yields_fail]. unfold copy_from_slice. rewrite decide_True by done. apply (yields_ret (NiMeshStar b)). done.
  - destruct (decide (length b = 4%nat)) as [Hl|]; [|apply yields_fail]. destruct b as [|x [|y [|z [|t [|]]]]]; try done. apply (yields_ret (NiMeshtastic (from_le [x; y; z; t]))). by apply (le_range _ 4).
  - destruct (decide (1 <= length b <= 32)%nat); [by apply yields_ret|apply yields_fail].
  - apply yields_fail.
Qed.
Lemma yields_ids n : reader_yields (R.ids n) (fun l => length l = n /\ Forall id_ok l).
Proof.
  induction n as [|n IH]; cbn [R.ids]; [by apply yields_ret|]. eapply reader_yields_bind; [apply yields_id|]. intros i Hi. eapply reader_yields_bind; [apply IH|]. intros l [Hl Hf]. apply yields_ret. split; [cbn; lia|by constructor].
Qed.
Ltac any_field :=
  first [simple apply yields_u8|simple apply yields_i8|simple apply yields_u16|simple apply yields_i16|simple apply yields_u32|simple apply yields_i32|simple apply yields_i32_or|simple apply yields_str|
         simple apply yields_str_or_empty|simple apply yields_id|simple apply yields_bytes|simple apply yields_blob16|simple apply yields_value|simple apply yields_ids].
Ltac any_fields := repeat (simple eapply reader_yields_bind; [any_field|cbv beta; intros]).
Lemma yields_settings : reader_yields read_settings settings_ok.
Proof. unfold read_settings. any_fields. by apply yields_ret. Qed.
Lemma yields_event : reader_yields Response.read_event event_ok.
Proof.
  unfold Response.read_event. eapply reader_yields_bind; [apply yields_u8|]. intros k _. cbv beta.
  repeat match goal with |- reader_yields (match ?k with _ => _ end) _ => destruct k end; any_fields; first [apply yields_fail|by apply yields_ret].
Qed.
Lemma yields_request : reader_yields read_request request_ok.
Proof.
  unfold read_request, Request.read. eapply reader_yields_bind; [apply yields_u8|]. intros t _. cbv beta.
  repeat match goal with |- reader_yields (if ?b then _ else _) _ => destruct b end;
    [.. |apply yields_fail]; any_fields; try (simple eapply reader_yields_bind; [apply yields_settings|intros]); by apply yields_ret.
Qed.
Lemma yields_response : reader_yields read_response response_ok.
Proof.
  unfold read_response, Response.read. eapply reader_yields_bind; [apply yields_u8|]. intros t _. cbv beta.
  repeat match goal with |- reader_yields (if ?b =? _ then _ else _) _ => destruct (b =? _) end;
    [|..|apply yields_fail]; any_fields;
    try (simple eapply reader_yields_bind; [apply yields_settings|intros]); try (simple eapply reader_yields_bind; [apply yields_event|intros]); try by apply yields_ret.
  - destruct (decide (length a2 <> 32%nat)) as [|Hl]; [apply yields_fail|]. apply dec_stable in Hl. unfold copy_from_slice. rewrite decide_True by done.
    eapply reader_yields_bind; [apply (yields_lift (Ok a2) (eq a2)); done|]. intros ? <-. any_fields. apply yields_ret. naive_solver.
  - apply yields_ret. destruct H2 as [H2 H2'], H3 as [H3 H3']. change (2 ^ 8) with 256 in H2'. split_and!; [done|done|lia|done].
Qed.

(** ** The framer *)

Definition is_start (b : Z) : bool := b =? START.
Definition quiet (l : list Z) : Prop := Forall (fun b => is_start b = false) l.
(** The loop with the fuel [push] gives it. *)
Definition scan (max : Z) (buf : list Z) : list Z * list (list Z) := Framer.push_loop (S (length buf)) max buf.
(** One round of the loop on a buffer that begins with a start byte. *)
Definition round (max : Z) (buf : list Z) (next : list Z -> list Z * list (list Z)) : list Z * list (list Z) :=
  if decide (length buf < HEADER_LEN)%nat then (buf, []) else
  let len := from_le (take 2 (drop 1 buf)) in
  if decide (len = 0 \/ len > max) then next (drop 1 buf) else
  if decide (zlen buf < Z.of_nat HEADER_LEN + len) then (buf, []) else
  let '(rest, out) := next (drop (HEADER_LEN + Z.to_nat len) buf) in
  (rest, take (Z.to_nat len) (drop HEADER_LEN buf) :: out).
Lemma loop_quiet fuel max g b : quiet g -> Framer.push_loop (S fuel) max (g ++ b) = Framer.push_loop (S fuel) max b.
Proof.
  induction 1 as [|x g Hx _ IH]; [done|]. rewrite <- IH. cbn [Framer.push_loop app position]. unfold is_start in Hx. rewrite Hx. by destruct (position _ (g ++ b)).
Qed.
Lemma loop_round fuel max b : Framer.push_loop (S fuel) max (START :: b) = round max (START :: b) (Framer.push_loop fuel max).
Proof. cbn [Framer.push_loop position]. change (START =? START) with true. reflexivity. Qed.
Lemma split_quiet b : quiet b \/ exists g b', b = g ++ START :: b' /\ quiet g.
Proof.
  induction b as [|x b [IH|(g & b' & -> & Hg)]]; [by left; constructor|..].
  - destruct (is_start x) eqn:E; [right; exists [], b|left; by constructor]. apply Z.eqb_eq in E. subst. split; [done|constructor].
  - destruct (is_start x) eqn:E; [right; exists [], (g ++ START :: b')|right; exists (x :: g), b'; split; [done|by constructor]]. apply Z.eqb_eq in E. subst. split; [done|constructor].
Qed.
Lemma loop_none fuel max g : quiet g -> Framer.push_loop (S fuel) max g = ([], []).
Proof. intros Hg. rewrite <- (app_nil_r g), loop_quiet by done. done. Qed.
Lemma round_ext max b f g : (forall b', (length b' < length b)%nat -> f b' = g b') -> round max b f = round max b g.
Proof.
  intros H. unfold round. destruct (decide (length b < HEADER_LEN)%nat); [done|]. cbv zeta. unfold HEADER_LEN in *. destruct (decide _); [apply H; rewrite length_drop; lia|].
  destruct (decide _); [done|]. rewrite H; [done|]. rewrite length_drop. lia.
Qed.
(** Any fuel beyond the length of the buffer gives the same result: the loop ends by
    itself. *)
Lemma loop_fuel max f : forall g b, (length b < f)%nat -> (length b < g)%nat -> Framer.push_loop f max b = Framer.push_loop g max b.
Proof.
  induction f as [|f IH]; intros [|g] b Hf Hg; try lia. destruct (split_quiet b) as [Hq|(q & b' & -> & Hq)]; [by rewrite !loop_none|]. rewrite length_app in *.
  rewrite !loop_quiet, !loop_round by done. apply round_ext. intros r Hr. apply IH; lia.
Qed.
Lemma scan_quiet max g b : quiet g -> scan max (g ++ b) = scan max b.
Proof.
  intros Hg. unfold scan. rewrite loop_quiet by done. apply loop_fuel; rewrite ?length_app; lia.
Qed.
Lemma scan_none max g : quiet g -> scan max g = ([], []).
Proof. apply loop_none. Qed.
Lemma scan_round max b : scan max (START :: b) = round max (START :: b) (scan max).
Proof. unfold scan. rewrite loop_round. apply round_ext. intros b' Hb. apply loop_fuel; lia. Qed.
(** What arrives in two pieces is scanned as if it came at once. *)
Lemma scan_app max b : forall n a, (length a <= n)%nat ->
  scan max (a ++ b) = (let '(r, o) := scan max a in let '(r', o') := scan max (r ++ b) in (r', o ++ o')).
Proof.
  induction n as [|n IH]; intros a Hn.
  - destruct a; [|cbn in Hn; lia]. change (scan max []) with (@nil Z, @nil (list Z)). cbn [app]. by destruct (scan max b).
  - destruct (split_quiet a) as [Hq|(g & a' & -> & Hq)].
    { rewrite scan_quiet, (scan_none max a) by done. cbn [app]. by destruct (scan max b). }
    rewrite <- app_assoc, (scan_quiet max g (START :: a')), (scan_quiet max g ((START :: a') ++ b)) by done. rewrite length_app in Hn. remember (START :: a') as c eqn:Ec. assert (Hs : scan max c = round max c (scan max)) by (subst c; apply scan_round). rewrite Hs. clear Hs.
    assert (Hc : scan max (c ++ b) = round max (c ++ b) (scan max)) by (subst c; apply (scan_round max (a' ++ b))). assert (Hl : (length c <= S n)%nat) by lia. assert (Hd : (1 <= length c)%nat) by (subst c; cbn; lia). clear g Hq Hn Ec a'.
    unfold round at 1. destruct (decide (length c < HEADER_LEN)%nat) as [|H3]; [by destruct (scan max (c ++ b))|]. cbv zeta. unfold HEADER_LEN in *.
    destruct (decide (_ \/ _)) as [Hr|Hr].
    + rewrite <- IH by (rewrite length_drop; lia). rewrite Hc. unfold round, HEADER_LEN. rewrite decide_False by (rewrite length_app; lia). cbv zeta. rewrite drop_app_le, take_app_le by (rewrite ?length_drop; lia). by rewrite decide_True.
    + destruct (decide (zlen c < _)) as [|Hz]; [by destruct (scan max (c ++ b))|]. unfold zlen in Hz. rewrite Hc. unfold round, HEADER_LEN. rewrite decide_False by (rewrite length_app; lia). cbv zeta.
      rewrite (drop_app_le c b 1), take_app_le by (rewrite ?length_drop; lia). rewrite decide_False by done. rewrite decide_False by (rewrite zlen_app; pose proof (zlen_nonneg b); unfold zlen in *; lia).
      rewrite !drop_app_le, take_app_le by (rewrite ?length_drop; lia). rewrite IH by (rewrite length_drop; lia). destruct (scan max (drop _ c)) as [r o]. by destruct (scan max (r ++ b)).
Qed.
Lemma scan_bounded max n : forall b, (length b <= n)%nat -> 0 <= max -> bytes_ok b -> zlen (scan max b).1 <= max + 2 /\ Forall (fun f => 1 <= zlen f <= max) (scan max b).2.
Proof.
  induction n as [|n IH]; intros b Hn Hm Hb.
  - destruct b; [|cbn in Hn; lia]. change (scan max []) with (@nil Z, @nil (list Z)). cbn [fst snd]. rewrite zlen_nil. split; [lia|constructor].
  - destruct (split_quiet b) as [Hq|(g & b' & -> & Hq)]; [rewrite scan_none by done; cbn [fst snd]; rewrite zlen_nil; split; [lia|constructor]|].
    rewrite scan_quiet, scan_round by done. rewrite length_app in Hn. apply Forall_app in Hb as [_ Hb]. remember (START :: b') as c eqn:Ec. assert (Hl : (length c <= S n)%nat) by lia. assert (1 <= length c)%nat by (subst c; cbn; lia). clear g Hq Hn Ec b'.
    unfold round, HEADER_LEN. destruct (decide (length c < 3)%nat); [cbn [fst snd]; unfold zlen; split; [lia|constructor]|]. cbv zeta. destruct (decide (_ \/ _)) as [Hr|Hr]; [apply IH; [rewrite length_drop; lia|done|by apply Forall_drop]|].
    assert (Hp : 0 <= from_le (take 2 (drop 1 c))) by (apply from_le_range; by apply Forall_take, Forall_drop).
    destruct (decide (zlen c < _)); [cbn [fst snd]; split; [lia|constructor]|]. unfold zlen in *. destruct (IH (drop (3 + Z.to_nat (from_le (take 2 (drop 1 c)))) c)) as [H1 H2]; [rewrite length_drop; lia|done|by apply Forall_drop|].
    destruct (scan max _) as [r o]. cbn [fst snd] in *. split; [done|]. constructor; [|done]. rewrite length_take, length_drop. lia.
Qed.

(** Feeding a stream piece by piece. *)
Definition feed (pieces : list (list Z)) (f : Framer) : Framer * list (list Z) :=
  foldl (fun '(f, out) p => let '(f, o) := Framer.push p f in (f, out ++ o)) (f, []) pieces.
Lemma push_scan p f : Framer.push p f = (mkFramer (scan (fr_max f) (fr_buf f ++ p)).1 (fr_max f), (scan (fr_max f) (fr_buf f ++ p)).2).
Proof. unfold Framer.push. fold (scan (fr_max f) (fr_buf f ++ p)). by destruct (scan _ _). Qed.
Lemma push_push a b f : Framer.push (a ++ b) f = (let '(f', o) := Framer.push a f in let '(f'', o') := Framer.push b f' in (f'', o ++ o')).
Proof.
  rewrite !push_scan. cbn [fr_max fr_buf]. rewrite app_assoc, (scan_app _ b _ (fr_buf f ++ a) (le_n _)). destruct (scan (fr_max f) (fr_buf f ++ a)) as [r o]. cbn [fst snd]. 
  by destruct (scan (fr_max f) (r ++ b)).
Qed.
Lemma feed_from pieces : forall f out, foldl (fun '(f, out) p => let '(f, o) := Framer.push p f in (f, out ++ o)) (f, out) pieces = ((feed pieces f).1, out ++ (feed pieces f).2).
Proof.
  unfold feed. induction pieces as [|p l IH]; intros f out; [by rewrite app_nil_r|]. cbn [foldl]. destruct (Framer.push p f) as [f' o]. rewrite IH. rewrite (IH f' ([] ++ o)). cbn [fst snd app]. by rewrite app_assoc.
Qed.
Lemma feed_settled pieces : forall f, Framer.push [] f = (f, []) -> feed pieces f = Framer.push (concat pieces) f.
Proof.
  induction pieces as [|p l IH]; intros f Hf; [done|]. unfold feed. cbn [foldl concat]. rewrite push_push. destruct (Framer.push p f) as [f' o] eqn:E. rewrite feed_from.
  assert (Hf' : Framer.push [] f' = (f', [])).
  { pose proof (push_push p [] f) as H. rewrite app_nil_r, E in H. destruct (Framer.push [] f') as [f'' o'']. injection H as -> H. f_equal. symmetry in H. rewrite <- (app_nil_r o) in H at 2. by apply app_inv_head in H. }
  rewrite IH by done. by destruct (Framer.push (concat l) f').
Qed.
Lemma feed_new pieces max : feed pieces (Framer.new max) = Framer.push (concat pieces) (Framer.new max).
Proof. by apply feed_settled. Qed.

Lemma zlen_frame b : zlen (frame_of b) = 3 + zlen b.
Proof. unfold frame_of. rewrite zlen_cons, zlen_app. unfold zlen at 1. rewrite length_le_bytes. lia. Qed.
Lemma scan_frame max b s : 1 <= zlen b <= max -> zlen b <= 65535 -> scan max (frame_of b ++ s) = (let '(r, o) := scan max s in (r, b :: o)).
Proof.
  intros Hb Hw. unfold frame_of. cbn [app]. rewrite scan_round. unfold round, HEADER_LEN. rewrite <- app_assoc. pose proof (length_le_bytes 2 (u16 (zlen b))) as Hl.
  rewrite decide_False by (cbn [length]; rewrite !length_app; lia). cbv zeta. cbn [drop]. rewrite !drop_0, !take_app_length' by done. change (u16 (zlen b)) with (zlen b mod 2 ^ 16) in *. rewrite Z.mod_small in * by (change (2 ^ 16) with 65536; lia).
  rewrite reads_le by (split; [lia|]; change (2 ^ (8 * Z.of_nat 2)) with 65536; lia). rewrite decide_False by lia. rewrite decide_False by (rewrite zlen_cons, !zlen_app; unfold zlen at 1; rewrite Hl; pose proof (zlen_nonneg s); lia).
  unfold zlen in *. rewrite !Nat2Z.id. change (3 + length b)%nat with (S (2 + length b)). cbn [drop]. rewrite <- !drop_drop, !drop_app_length' by done. by rewrite take_app_length'.
Qed.
Lemma scan_frames max bs : Forall (fun b => 1 <= zlen b <= max /\ zlen b <= 65535) bs -> scan max (concat (frame_of <$> bs)) = ([], bs).
Proof. induction 1 as [|b bs [Hb Hw] _ IH]; [done|]. cbn [fmap list_fmap concat]. rewrite scan_frame by done. by rewrite IH. Qed.
Lemma chunks_of_concat n fuel : (1 <= n)%nat -> forall l, (length l <= fuel)%nat -> concat (chunks_of fuel n l) = l /\ Forall (fun c => (1 <= length c <= n)%nat) (chunks_of fuel n l).
Proof.
  intros Hn. induction fuel as [|fuel IH]; intros [|x l] Hl; try done; [cbn in Hl; lia|]. cbn [chunks_of concat]. destruct (IH (drop n (x :: l))) as [H1 H2]; [rewrite length_drop; cbn in *; lia|].
  rewrite H1, take_drop. split; [done|]. constructor; [|done]. rewrite length_take. cbn [length]. lia.
Qed.

(** ** The link *)

Lemma decode_carried {A} (m : R.R A) b x extra : reads m b x -> (m (b ++ extra)).2 = Ok x.
Proof. intros H. by rewrite H. Qed.
Lemma decode_yields {A} (m : R.R A) P s : reader_yields m P -> bytes_ok s -> match (m s).2 with Ok x => P x | Err _ => True | Panic => False end.
Proof. intros Hm Hs. specialize (Hm s Hs). destruct (m s) as [s' [a|e|]]; naive_solver. Qed.

(** C31. Every well-formed request and response is encoded as a start byte, a length
    and a body, and the body decodes to it, also with fields of a later version
    appended; and whatever bytes arrive, the decoders return a well-formed value or
    an error, never a panic. *)
Theorem companion_codec :
  (forall r extra, request_ok r -> exists b, Request.encode r = START :: le_bytes 2 (u16 (zlen b)) ++ b /\ Request.decode b = Ok r /\ Request.decode (b ++ extra) = Ok r) /\
  (forall r extra, response_ok r -> exists b, Response.encode r = START :: le_bytes 2 (u16 (zlen b)) ++ b /\ Response.decode b = Ok r /\ Response.decode (b ++ extra) = Ok r) /\
  (forall s, bytes_ok s -> match Request.decode s with Ok r => request_ok r | Err _ => True | Panic => False end) /\
  (forall s, bytes_ok s -> match Response.decode s with Ok r => response_ok r | Err _ => True | Panic => False end).
Proof.
  split; [|split; [|split]].
  - intros r extra Hr. destruct (request_carried r Hr) as (b & He & Hb). exists b. split; [done|]. split; [rewrite <- (app_nil_r b)|]; by apply (decode_carried read_request).
  - intros r extra Hr. destruct (response_carried r Hr) as (b & He & Hb). exists b. split; [done|]. split; [rewrite <- (app_nil_r b)|]; by apply (decode_carried read_response).
  - intros s Hs. exact (decode_yields read_request request_ok s yields_request Hs).
  - intros s Hs. exact (decode_yields read_response response_ok s yields_response Hs).
Qed.

(** C32. The framer does not see where one piece of the stream ends and the next
    begins: feeding any pieces gives the frames and the state of feeding their
    concatenation at once.  It keeps at most [max + 2] bytes, its frames have
    between 1 and [max] bytes, and its loop ends by itself, whatever the fuel. *)
Theorem framer_pieces max pieces :
  feed pieces (Framer.new max) = Framer.push (concat pieces) (Framer.new max) /\
  (0 <= max -> bytes_ok (concat pieces) ->
   Framer.pending (feed pieces (Framer.new max)).1 <= max + 2 /\ Forall (fun f => 1 <= zlen f <= max) (feed pieces (Framer.new max)).2) /\
  (forall f g b, (length b < f)%nat -> (length b < g)%nat -> Framer.push_loop f max b = Framer.push_loop g max b).
Proof.
  rewrite feed_new. split; [done|]. split; [|intros f g b; apply loop_fuel]. intros Hm Hb. rewrite push_scan. unfold Framer.pending, Framer.new. cbn [fr_buf fr_max fst snd app].
  exact (scan_bounded max _ (concat pieces) (le_n _) Hm Hb).
Qed.

Lemma stream_arrives {A} (enc : A -> list Z) (dec : list Z -> outcome DecodeError A) max noise xs pieces :
  Forall (fun x => exists b, enc x = frame_of b /\ dec b = Ok x /\ 1 <= zlen b) xs -> Forall (fun x => zlen (enc x) <= 3 + Z.min max 65535) xs -> quiet noise ->
  concat pieces = noise ++ concat (enc <$> xs) ->
  Framer.pending (feed pieces (Framer.new max)).1 = 0 /\ dec <$> (feed pieces (Framer.new max)).2 = Ok <$> xs.
Proof.
  intros He Hz Hq Hp. rewrite feed_new, push_scan. unfold Framer.pending, Framer.new. cbn [fr_buf fr_max fst snd app]. rewrite Hp, scan_quiet by done.
  assert (exists bs, enc <$> xs = frame_of <$> bs /\ dec <$> bs = Ok <$> xs /\ Forall (fun b => 1 <= zlen b <= max /\ zlen b <= 65535) bs) as (bs & -> & Hd & Hb).
  { clear Hp. induction He as [|x xs (b & Hb & Hx & H1) _ IH]; [exists []; repeat split; constructor|]. inversion_clear Hz as [|? ? H2 H3]. destruct (IH H3) as (bs & E1 & E2 & E3). rewrite Hb, zlen_frame in H2.
    exists (b :: bs). cbn [fmap list_fmap]. fold (enc <$> xs) (frame_of <$> bs) (dec <$> bs) ((Ok : A -> outcome DecodeError A) <$> xs). rewrite Hb, Hx. split; [by f_equal|]. split; [by f_equal|]. constructor; [lia|done]. }
  by rewrite scan_frames.
Qed.
Lemma reads_nonempty {A} (m : R.R A) b x : reads m b x -> (forall y, m [] <> ([], Ok y)) -> 1 <= zlen b.
Proof. intros Hr Hn. destruct b as [|c b]; [|rewrite zlen_cons; pose proof (zlen_nonneg b); lia]. exfalso. exact (Hn x (Hr [])). Qed.

(** C30. Requests written by the phone, in frames cut into pieces of any size by the
    link and after any noise without a start byte, reach the node as they were sent,
    all of them and in order; the framer is left empty.  The same holds of the
    responses of the node. *)
Theorem companion_stream max noise :
  quiet noise ->
  (forall rs pieces, Forall request_ok rs -> Forall (fun r => zlen (Request.encode r) <= 3 + Z.min max 65535) rs -> concat pieces = noise ++ concat (Request.encode <$> rs) ->
   Framer.pending (feed pieces (Framer.new max)).1 = 0 /\ Request.decode <$> (feed pieces (Framer.new max)).2 = Ok <$> rs) /\
  (forall rs pieces, Forall response_ok rs -> Forall (fun r => zlen (Response.encode r) <= 3 + Z.min max 65535) rs -> concat pieces = noise ++ concat (Response.encode <$> rs) ->
   Framer.pending (feed pieces (Framer.new max)).1 = 0 /\ Response.decode <$> (feed pieces (Framer.new max)).2 = Ok <$> rs) /\
  (forall f mtu, concat (chunks f mtu) = f /\ Forall (fun c => (1 <= length c <= mtu `max` 1)%nat) (chunks f mtu)).
Proof.
  intros Hq. split; [|split].
  - intros rs pieces Hr Hz Hp. apply (stream_arrives Request.encode Request.decode max noise); try done. eapply Forall_impl; [exact Hr|]. intros r Hr'. cbv beta. destruct (request_carried r Hr') as (b & He & Hb).
    exists b. split; [done|]. split; [rewrite <- (app_nil_r b); by apply (decode_carried read_request)|]. by apply (reads_nonempty read_request b r).
  - intros rs pieces Hr Hz Hp. apply (stream_arrives Response.encode Response.decode max noise); try done. eapply Forall_impl; [exact Hr|]. intros r Hr'. cbv beta. destruct (response_carried r Hr') as (b & He & Hb).
    exists b. split; [done|]. split; [rewrite <- (app_nil_r b); by apply (decode_carried read_response)|]. by apply (reads_nonempty read_response b r).
  - intros f mtu. apply chunks_of_concat; lia.
Qed.

Module CompanionExamples.
Definition requests : list Request := [GetInfo; Ping 42; SendText (NiMeshtastic 7) 1 (str "hola"); SetPosition 1 (-2)].
Definition responses : list Response := [RsPong 42; RsEvent (EvRouteFound (NiMeshStar [1; 2; 3; 4; 5; 6; 7; 8]) 3); RsTrace (NiBroadcast PrMeshCore) true [NiMeshCore [9]; NiMeshtastic 5] 2500].
Definition noise : list Z := [0xFF; 1; 2].
Definition pieces {A} (enc : A -> list Z) (l : list A) : list (list Z) := chunks (noise ++ concat (enc <$> l)) 3.
Lemma companion_stream_witness :
  Request.decode <$> (feed (pieces Request.encode requests) (Framer.new 512)).2 = Ok <$> requests /\
  Response.decode <$> (feed (pieces Response.encode responses) (Framer.new 512)).2 = Ok <$> responses.
Proof.
  destruct (companion_stream 512 noise) as (H1 & H2 & H3); [repeat constructor|]. split; [apply (H1 requests)|apply (H2 responses)];
    try (apply H3); repeat constructor; vm_compute; try congruence.
Defined.
(** A start byte in noise costs the frame that its length reaches into. *)
Example noise_swallows_frame : (feed [[START; 4; 0]; Request.encode GetInfo; Request.encode (Ping 42)] (Framer.new 512)).2 = [Request.encode GetInfo; drop 3 (Request.encode (Ping 42))].
Proof. reflexivity. Qed.
(** A picture of the largest length a blob allows makes the length of the frame wrap. *)
Example length_wraps : take 3 (Request.encode (SetProfilePhoto (replicate (Z.to_nat 65535) 0))) = [START; 2; 0].
Proof. vm_compute. reflexivity. Qed.
End CompanionExamples.
