(* ===== verification/Thumb.v ===== *)
(** * Thumbnails

    [crates/meshstar-companion/src/thumb.rs]: the run-length image codec of picture
    messages.  A picture decodes to the nearest palette colours of its pixels, and no
    bytes make the decoder panic or exceed the size limit. *)
From stdpp Require Import base tactics list numbers.
From Stdlib Require Import Lia.
From S2P Require Import Prelude.
From stdpp Require Import list.
#[local] Open Scope Z_scope.

Definition Rgb : Type := Z * Z * Z.
Definition PALETTE : list Rgb :=
  [(0, 0, 0); (64, 64, 64); (128, 128, 128); (200, 200, 200); (255, 255, 255); (180, 30, 30); (240, 120, 40); (240, 220, 60); (60, 160, 60); (40, 200, 180); (40, 110, 220);
   (110, 60, 200); (210, 70, 180); (150, 90, 50); (240, 180, 150); (90, 120, 90)].
Definition MAGIC : list Z := [84; 72].
Definition MAX_EDGE : Z := 48.

(** The squared distance of the loop of [nearest], [as u32]. *)
Definition distance (p q : Rgb) : Z :=
  let '(pr, pg, pb) := p in let '(r, g, b) := q in
  let dr := pr - r in let dg := pg - g in let db := pb - b in
  u32 (dr * dr + dg * dg + db * db).
Fixpoint nearest_loop (px : Rgb) (i : Z) (best best_d : Z) (palette : list Rgb) : Z :=
  match palette with
  | [] => best
  | p :: rest => let d := distance p px in if decide (d < best_d) then nearest_loop px (i + 1) (u8 i) d rest else nearest_loop px (i + 1) best best_d rest
  end.
Definition nearest (px : Rgb) : Z := nearest_loop px 0 0 U32_MAX PALETTE.

(** The loop of [encode] over the colours after the first, and the last run. *)
Fixpoint runs (prev count : Z) (idx : list Z) : list Z :=
  match idx with
  | [] => [u8 count; prev]
  | c :: rest => if decide (c = prev /\ count < 255) then runs prev (count + 1) rest else [u8 count; prev] ++ runs c 1 rest
  end.
Definition thumb_encode (w h : Z) (pixels : list Rgb) : option (list Z) :=
  if decide (w = 0 \/ h = 0 \/ w > MAX_EDGE \/ h > MAX_EDGE \/ zlen pixels <> w * h) then None else
  match nearest <$> pixels with
  | [] => None
  | prev :: idx => Some (MAGIC ++ [u8 w; u8 h] ++ runs prev 1 idx)
  end.

Record Thumb := mkThumb { th_w : Z; th_h : Z; th_indices : list Z }.
Inductive ThumbError := ThBadMagic | ThBadHeader | ThTruncated | ThTooBig | ThOverrun.
Definition thumb_rgb (t : Thumb) (x y : Z) : outcome ThumbError Rgb :=
  if decide (x >= th_w t \/ y >= th_h t) then Ok (0, 0, 0) else
  i ← idx (th_indices t) (y * th_w t + x); idx PALETTE (Z.land i 0x0F).
(** The loop of [decode]: runs of a count and a colour; an odd byte is left over. *)
Fixpoint fill (total : Z) (indices data : list Z) : outcome ThumbError (list Z) :=
  match data with
  | count :: color :: rest =>
      if decide (count = 0 \/ zlen indices + count > total) then Err ThOverrun else fill total (indices ++ replicate (Z.to_nat count) (Z.land color 0x0F)) rest
  | _ => Ok indices
  end.
Definition thumb_decode (data : list Z) : outcome ThumbError Thumb :=
  if decide (zlen data < 4) then Err ThTruncated else
  magic ← slice data 0 2;
  if decide (magic <> MAGIC) then Err ThBadMagic else
  w ← idx data 2; h ← idx data 3;
  if decide (w = 0 \/ h = 0) then Err ThBadHeader else
  if decide (w > MAX_EDGE \/ h > MAX_EDGE) then Err ThTooBig else
  let total := w * h in
  indices ← fill total [] (drop 4 data);
  if decide (zlen indices <> total) then Err ThTruncated else Ok (mkThumb w h indices).

(** ** Facts *)

Module ThumbFacts.
Definition rgb_ok (p : Rgb) : Prop := let '(r, g, b) := p in in_u 8 r /\ in_u 8 g /\ in_u 8 b.
Lemma nearest_loop_best px palette : forall i best best_d,
  Forall (fun p => 0 <= distance p px) palette -> 0 <= i -> i + zlen palette <= 256 ->
  let k := nearest_loop px i best best_d palette in
  (k = best /\ Forall (fun p => best_d <= distance p px) palette) \/
  (exists p, palette !! Z.to_nat (k - i) = Some p /\ i <= k < i + zlen palette /\ distance p px < best_d /\ Forall (fun q => distance p px <= distance q px) palette).
Proof.
  induction palette as [|p rest IH]; intros i best best_d Hd Hi Hn; cbv zeta; [by left|]. inversion_clear Hd as [|? ? Hp Hr]. rewrite zlen_cons in Hn. pose proof (zlen_nonneg rest). cbn [nearest_loop].
  assert (Hu : u8 i = i) by (apply Z.mod_small; change (2 ^ 8) with 256; lia). destruct (decide (distance p px < best_d)) as [Hlt|Hge].
  - right. destruct (IH (i + 1) (u8 i) (distance p px) Hr) as [[-> Hf]|(q & Hq & Hk & Hlt' & Hf)]; [lia|lia|..].
    + rewrite Hu. exists p. rewrite Z.sub_diag, zlen_cons. split; [done|]. split; [lia|]. split; [done|]. by constructor.
    + exists q. rewrite zlen_cons. set (k := nearest_loop px (i + 1) (u8 i) (distance p px) rest) in *. replace (Z.to_nat (k - i)) with (S (Z.to_nat (k - (i + 1)))) by lia. split; [done|]. split; [lia|].
      split; [lia|]. constructor; [lia|done].
  - destruct (IH (i + 1) best best_d Hr) as [[-> Hf]|(q & Hq & Hk & Hlt' & Hf)]; [lia|lia|left; split; [done|constructor; [lia|done]]|]. right. exists q. rewrite zlen_cons.
    set (k := nearest_loop px (i + 1) best best_d rest) in *. replace (Z.to_nat (k - i)) with (S (Z.to_nat (k - (i + 1)))) by lia. split; [done|]. split; [lia|]. split; [lia|]. constructor; [lia|done].
Qed.
Lemma square_small a b : 0 <= a < 256 -> 0 <= b < 256 -> 0 <= (a - b) * (a - b) <= 65025.
Proof. intros Ha Hb. rewrite <- Z.abs_square. assert (H : 0 <= Z.abs (a - b) <= 255) by lia. split; [apply Z.square_nonneg|]. change 65025 with (255 * 255). apply Z.mul_le_mono_nonneg; lia. Qed.
Lemma distance_small p q : rgb_ok p -> rgb_ok q -> 0 <= distance p q < U32_MAX.
Proof.
  destruct p as [[pr pg] pb], q as [[r g] b]. unfold rgb_ok, in_u, distance. change (2 ^ 8) with 256. intros (? & ? & ?) (? & ? & ?). pose proof (square_small pr r). pose proof (square_small pg g). pose proof (square_small pb b).
  unfold u32, wrap, U32_MAX. rewrite Z.mod_small; change (2 ^ 32) with 4294967296; lia.
Qed.
Lemma palette_ok : Forall rgb_ok PALETTE.
Proof. repeat constructor; vm_compute; congruence. Qed.
(** The colour chosen is in the palette and none is nearer. *)
Lemma nearest_best px : rgb_ok px -> exists p, PALETTE !! Z.to_nat (nearest px) = Some p /\ 0 <= nearest px < 16 /\ Forall (fun q => distance p px <= distance q px) PALETTE.
Proof.
  intros Hp. pose proof palette_ok as Hk. assert (Hd : Forall (fun p => 0 <= distance p px < U32_MAX) PALETTE) by (eapply Forall_impl; [exact Hk|]; intros p Hp'; by apply distance_small).
  destruct (nearest_loop_best px PALETTE 0 0 U32_MAX) as [[_ Hf]|(p & Hl & Hb & _ & Hf)]; [eapply Forall_impl; [exact Hd|]; cbv beta; lia|lia|vm_compute; congruence|..].
  - exfalso. unfold PALETTE in Hf, Hd. inversion Hf. inversion Hd. lia.
  - fold (nearest px) in *. rewrite Z.sub_0_r in Hl. eauto.
Qed.
Lemma runs_len idx : forall prev count, zlen (runs prev count idx) <= 2 + 2 * zlen idx.
Proof.
  induction idx as [|c l IH]; intros prev count; cbn [runs]; [by rewrite !zlen_cons, zlen_nil|]. rewrite zlen_cons. destruct (decide _).
  - specialize (IH prev (count + 1)). lia.
  - specialize (IH c 1). rewrite zlen_app, !zlen_cons, zlen_nil. lia.
Qed.
Lemma land_15 z : Z.land z 15 = z mod 16.
Proof. exact (Z.land_ones z 4 ltac:(lia)). Qed.
Lemma fill_runs total idx : forall prev count done,
  Forall (fun c => 0 <= c < 16) (prev :: idx) -> 1 <= count <= 255 -> zlen done + count + zlen idx <= total ->
  fill total done (runs prev count idx) = Ok (done ++ replicate (Z.to_nat count) prev ++ idx).
Proof.
  induction idx as [|c l IH]; intros prev count d Hc Hn Ht; cbn [runs]; inversion_clear Hc as [|? ? Hp Hl]; assert (Hu : u8 count = count) by (apply Z.mod_small; change (2 ^ 8) with 256; lia);
    assert (Hm : Z.land prev 15 = prev) by (rewrite land_15; apply Z.mod_small; lia).
  - cbn [fill]. rewrite zlen_nil in Ht. rewrite Hu. rewrite decide_False by lia. change 0x0F with 15. by rewrite Hm, app_nil_r.
  - inversion_clear Hl as [|? ? Hc Hl']. rewrite zlen_cons in Ht. pose proof (zlen_nonneg l). destruct (decide (c = prev /\ count < 255)) as [[-> H5]|].
    + rewrite IH; [|by constructor|lia|lia]. do 2 f_equal. rewrite Z.add_1_r, Z2Nat.inj_succ by lia. rewrite replicate_S_end. by rewrite <- app_assoc.
    + cbn [app fill]. rewrite Hu. rewrite decide_False by lia. change 0x0F with 15. rewrite Hm, IH; [|by constructor|lia|rewrite zlen_app; unfold zlen at 2; rewrite length_replicate; lia]. by rewrite <- app_assoc.
Qed.
Lemma fill_ok total n : forall data indices, (length data <= n)%nat -> bytes_ok data -> zlen indices <= total -> Forall (fun c => 0 <= c < 16) indices ->
  match fill total indices data with Ok l => zlen l <= total /\ Forall (fun c => 0 <= c < 16) l | Err _ => True | Panic => False end.
Proof.
  induction n as [|n IH]; intros [|count [|color rest]] indices Hn Hb Ht Hi; try done; [cbn in Hn; lia|]. cbn [fill]. inversion_clear Hb as [|? ? [Hc _] Hb']. inversion_clear Hb' as [|? ? Hk Hr].
  destruct (decide _); [done|]. apply IH; [cbn in Hn; lia|done|rewrite zlen_app; unfold zlen at 2; rewrite length_replicate; lia|].
  apply Forall_app_2; [done|]. apply Forall_replicate. change 0x0F with 15. rewrite land_15. apply Z.mod_pos_bound. lia.
Qed.

Lemma decode_header w h rest :
  thumb_decode (84 :: 72 :: w :: h :: rest) =
  (if decide (w = 0 \/ h = 0) then Err ThBadHeader else if decide (w > MAX_EDGE \/ h > MAX_EDGE) then Err ThTooBig else
   indices ← fill (w * h) [] rest; if decide (zlen indices <> w * h) then Err ThTruncated else Ok (mkThumb w h indices)).
Proof.
  unfold thumb_decode. rewrite decide_False by (rewrite !zlen_cons; pose proof (zlen_nonneg rest); lia). rewrite (slice_here [84; 72] (w :: h :: rest)) by done. cbn [mbind outcome_bind].
  reflexivity.
Qed.
Lemma pixel_ok t x y :
  zlen (th_indices t) = th_w t * th_h t -> Forall (fun c => 0 <= c < 16) (th_indices t) -> 0 <= x -> 0 <= y -> exists c, thumb_rgb t x y = Ok c.
Proof.
  intros Hl Hi Hx Hy. unfold thumb_rgb. destruct (decide _) as [|Hn]; [eauto|]. assert (Hm : y * th_w t <= (th_h t - 1) * th_w t) by (apply Z.mul_le_mono_nonneg_r; lia). assert (0 <= y * th_w t) by (apply Z.mul_nonneg_nonneg; lia).
  destruct (idx_in (E := ThumbError) (th_indices t) (y * th_w t + x)) as (i & -> & Hk); [lia|]. cbn [mbind outcome_bind].
  apply (Forall_lookup_1 _ _ _ _ Hi) in Hk. change 0x0F with 15. rewrite land_15. destruct (idx_in (E := ThumbError) PALETTE (i mod 16)) as (c & -> & _); [exact (Z.mod_pos_bound i 16 eq_refl)|eauto].
Qed.
Lemma decode_any data : bytes_ok data ->
  match thumb_decode data with
  | Ok t => 1 <= th_w t <= MAX_EDGE /\ 1 <= th_h t <= MAX_EDGE /\ zlen (th_indices t) = th_w t * th_h t /\ forall x y, 0 <= x -> 0 <= y -> exists c, thumb_rgb t x y = Ok c
  | Err _ => True
  | Panic => False
  end.
Proof.
  intros Hb. destruct data as [|m1 [|m2 [|w [|h rest]]]]; try done. destruct (decide ([m1; m2] = MAGIC)) as [E|E].
  - injection E as -> ->. rewrite decode_header. apply (Forall_drop byte_ok 2) in Hb. inversion_clear Hb as [|? ? [Hw _] Hb']. inversion_clear Hb' as [|? ? [Hh _] Hr].
    destruct (decide _); [done|]. destruct (decide _); [done|]. unfold MAX_EDGE in *. pose proof (fill_ok (w * h) _ rest [] (le_n _) Hr ltac:(rewrite zlen_nil; nia) ltac:(constructor)) as Hf.
    destruct (fill (w * h) [] rest) as [l| |]; [|done|done]. cbn [mbind outcome_bind]. destruct (decide _) as [|Hl]; [done|]. apply dec_stable in Hl. cbn [th_w th_h th_indices]. split; [lia|]. split; [lia|]. split; [done|].
    intros x y. apply pixel_ok; [done|by destruct Hf].
  - unfold thumb_decode. rewrite decide_False by (rewrite !zlen_cons; pose proof (zlen_nonneg rest); lia). rewrite (slice_here [m1; m2] (w :: h :: rest)) by done. cbn [mbind outcome_bind]. by rewrite decide_True.
Qed.

(** A picture of at most 48 by 48 pixels is encoded in at most two bytes a pixel
    and a header, and decodes to its size and, for each pixel, the palette colour
    nearest to it; other pictures are refused.  Whatever the bytes, the decoder
    does not panic, and what it accepts is a picture within the limits, all of
    whose pixels have a colour. *)
Theorem thumb_codec :
  (forall w h pixels, Forall rgb_ok pixels -> 1 <= w <= MAX_EDGE -> 1 <= h <= MAX_EDGE -> zlen pixels = w * h ->
   exists d, thumb_encode w h pixels = Some d /\ thumb_decode d = Ok (mkThumb w h (nearest <$> pixels)) /\ zlen d <= 4 + 2 * (w * h)) /\
  (forall w h pixels, 0 <= w -> 0 <= h -> ~ (1 <= w <= MAX_EDGE /\ 1 <= h <= MAX_EDGE /\ zlen pixels = w * h) -> thumb_encode w h pixels = None) /\
  (forall px, rgb_ok px -> exists p, PALETTE !! Z.to_nat (nearest px) = Some p /\ Forall (fun q => distance p px <= distance q px) PALETTE) /\
  (forall data, bytes_ok data ->
   match thumb_decode data with
   | Ok t => 1 <= th_w t <= MAX_EDGE /\ 1 <= th_h t <= MAX_EDGE /\ zlen (th_indices t) = th_w t * th_h t /\ forall x y, 0 <= x -> 0 <= y -> exists c, thumb_rgb t x y = Ok c
   | Err _ => True
   | Panic => False
   end).
Proof.
  split; [|split; [|split]].
  - intros w h pixels Hp Hw Hh Hl. unfold thumb_encode. rewrite decide_False by lia.
    assert (Hi : Forall (fun c => 0 <= c < 16) (nearest <$> pixels)) by (apply Forall_fmap; eapply Forall_impl; [exact Hp|]; intros px Hpx; by destruct (nearest_best px Hpx) as (? & _ & ? & _)).
    assert (Hn : zlen (nearest <$> pixels) = w * h) by (unfold zlen in *; by rewrite length_fmap). remember (nearest <$> pixels) as idx eqn:E. clear E. destruct idx as [|prev idx]; [rewrite zlen_nil in Hn; lia|].
    eexists. split; [done|]. rewrite zlen_cons in Hn. assert (Hu : forall z, 1 <= z <= MAX_EDGE -> u8 z = z) by (intros z Hz; apply Z.mod_small; unfold MAX_EDGE in *; change (2 ^ 8) with 256; lia). rewrite !Hu by done.
    pose proof (runs_len idx prev 1). split; [|rewrite !zlen_app, !zlen_cons, zlen_nil; change (zlen MAGIC) with 2; lia]. cbn [MAGIC app]. unfold MAX_EDGE in *. rewrite decode_header, decide_False by lia.
    rewrite decide_False by (unfold MAX_EDGE; lia). rewrite fill_runs by (done || rewrite ?zlen_nil; lia). cbn [mbind outcome_bind app replicate]. change (replicate (Z.to_nat 1) prev ++ idx) with (prev :: idx). rewrite zlen_cons. by rewrite decide_False by lia.
  - intros w h pixels Hw Hh Hn. unfold thumb_encode. rewrite decide_True; [done|]. unfold MAX_EDGE in *. lia.
  - intros px Hp. destruct (nearest_best px Hp) as (p & H1 & _ & H2). eauto.
  - exact decode_any.
Qed.
End ThumbFacts.
