(* ===== verification/Platform.v ===== *)
(** * Platform services

    [platform/mod.rs]: the volatile storage and the small random generator of a relay,
    which keeps the laws the other components assume of a generator.
    [platform/nvs.rs]: the parser of the flash partition another firmware left, from
    which a node recovers its identity. *)
From stdpp Require Import base tactics list numbers.
From Stdlib Require Import Lia Ascii String.
From S2P Require Import Prelude SmallMap Protocol CryptoLib Identity Text Strings Proto.
From stdpp Require Import list.
Import Text ProtoFacts.
#[local] Open Scope Z_scope.

(** ** Storage and random numbers *)

Record MemoryStorage := mkStorage { ms_map : smallmap (list Z) (list Z) }.
Module MemoryStorage.
Definition new : MemoryStorage := mkStorage SmallMap.empty.
Definition load (key : list Z) (s : MemoryStorage) : option (list Z) := SmallMap.get (ms_map s) key.
Definition store (key value : list Z) (s : MemoryStorage) : MemoryStorage * bool := (mkStorage (SmallMap.insert (ms_map s) key value).1, true).
Definition remove (key : list Z) (s : MemoryStorage) : MemoryStorage * bool :=
  let '(m, old) := SmallMap.remove (ms_map s) key in (mkStorage m, bool_decide (is_Some old)).
End MemoryStorage.

Record SmallRng := mkSmallRng { sr_state : Z }.
Module SmallRng.
Definition new (seed : Z) : SmallRng := mkSmallRng (Z.lxor seed 0x9E3779B97F4A7C15).
Definition next_u64 (r : SmallRng) : Z * SmallRng :=
  let s := u64 (sr_state r + 0x9E3779B97F4A7C15) in
  let z := u64 (Z.lxor s (Z.shiftr s 30) * 0xBF58476D1CE4E5B9) in
  let z := u64 (Z.lxor z (Z.shiftr z 27) * 0x94D049BB133111EB) in
  (Z.lxor z (Z.shiftr z 31), mkSmallRng s).
Definition next_u32 (r : SmallRng) : Z * SmallRng := let '(v, r) := next_u64 r in (u32 (Z.shiftr v 32), r).
(** The chunks of eight bytes of [fill_bytes]. *)
Fixpoint fill_chunks (fuel : nat) (r : SmallRng) (n : nat) : list Z * SmallRng :=
  match fuel, n with
  | S fuel, S _ =>
      let '(v, r) := next_u64 r in
      let '(rest, r) := fill_chunks fuel r (n - 8) in
      (take n (le_bytes 8 v) ++ rest, r)
  | _, _ => ([], r)
  end.
Definition fill_bytes (r : SmallRng) (n : nat) : list Z * SmallRng := fill_chunks n r n.
End SmallRng.
#[global] Instance small_rng : RngCore SmallRng := {
  next_u32 := SmallRng.next_u32;
  next_u64 := SmallRng.next_u64;
  fill_bytes := SmallRng.fill_bytes
}.

(** ** The NVS partition *)

Module nvs.
Definition PAGE : nat := 4096.
Definition ENTRY : Z := 32.
Definition ENTRIES_PER_PAGE : Z := 126.
Definition T_U8 : Z := 0x01.
Definition T_I8 : Z := 0x11.
Definition T_U16 : Z := 0x02.
Definition T_I16 : Z := 0x12.
Definition T_U32 : Z := 0x04.
Definition T_I32 : Z := 0x14.
Definition T_U64 : Z := 0x08.
Definition T_I64 : Z := 0x18.
Definition T_STR : Z := 0x21.
Definition T_BLOB : Z := 0x41.
Definition T_BLOB_DATA : Z := 0x42.
Definition T_BLOB_IDX : Z := 0x48.
End nvs.
Import nvs.
Inductive NvsValue := NvU64 (n : Z) | NvI64 (n : Z) | NvStr (s : list Z) | NvBlob (b : list Z).
Record NvsEntry := mkNvsEntry { nv_namespace : list Z; nv_key : list Z; nv_value : NvsValue }.
Record RawEntry := mkRaw { re_ns : Z; re_key : list Z; re_type : Z; re_chunk : Z; re_payload : list Z; re_data : list Z }.

(** [l.iter().position(|&b| b == 0).unwrap_or(d)] *)
Definition zero_at (l : list Z) (d : nat) : nat := default d (position (fun b => b =? 0) l).
Definition key_of {E} (e : list Z) : outcome E (list Z) :=
  k ← slice e 8 24;
  Ok (from_utf8_lossy (take (zero_at k 16) k)).
(** One page: the entries whose state bits say "written", from the entry [i]. *)
Fixpoint page_entries (fuel : nat) (page bitmap : list Z) (i : Z) : outcome Empty_set (list (Z * list Z) * list RawEntry) :=
  match fuel with
  | O => Ok ([], [])
  | S fuel =>
      if decide (i >= ENTRIES_PER_PAGE) then Ok ([], []) else
      b ← idx bitmap (i / 4);
      let st := Z.land (Z.shiftr b ((i mod 4) * 2)) 3 in
      let off := 64 + i * ENTRY in
      if decide (off + ENTRY > zlen page) then Ok ([], []) else
      e ← slice page off (off + ENTRY);
      s ← idx e 2;
      let span := Z.max s 1 in
      if decide (st <> 2) then page_entries fuel page bitmap (i + 1) else
      ns ← idx e 0; ty ← idx e 1; chunk ← idx e 3;
      key ← key_of e;
      data ← slice e 24 32;
      payload ← (if decide (span > 1) then
                   let start := off + ENTRY in
                   let end_ := Z.min (start + (span - 1) * ENTRY) (zlen page) in
                   slice page start end_
                 else Ok []);
      '(nss, raws) ← page_entries fuel page bitmap (i + span);
      d0 ← idx data 0;
      Ok (if decide (ns = 0 /\ ty = T_U8) then ((d0, key) :: nss, raws) else (nss, mkRaw ns key ty chunk payload data :: raws))
  end.
(** [image.chunks(PAGE)], and the entries of every page that is in use. *)
Fixpoint pages (fuel : nat) (image : list Z) : list (list Z) :=
  match fuel, image with S fuel, _ :: _ => take PAGE image :: pages fuel (drop PAGE image) | _, _ => [] end.
Definition one_page (page : list Z) : outcome Empty_set (list (Z * list Z) * list RawEntry) :=
  if decide (zlen page < 64) then Ok ([], []) else
  b0 ← idx page 0; b1 ← idx page 1; b2 ← idx page 2; b3 ← idx page 3;
  if decide (from_le [b0; b1; b2; b3] = 0xFFFFFFFF) then Ok ([], []) else
  bitmap ← slice page 32 64;
  page_entries (Z.to_nat ENTRIES_PER_PAGE) page bitmap 0.
Fixpoint all_pages (l : list (list Z)) : outcome Empty_set (list (Z * list Z) * list RawEntry) :=
  match l with
  | [] => Ok ([], [])
  | p :: rest => '(n1, r1) ← one_page p; '(n2, r2) ← all_pages rest; Ok (n1 ++ n2, r1 ++ r2)
  end.
Definition raw_entries (image : list Z) : outcome Empty_set (list (Z * list Z) * list RawEntry) := all_pages (pages (length image) image).

Definition ns_name (namespaces : list (Z * list Z)) (id : Z) : list Z :=
  match find_first (fun n => n.1 =? id) namespaces with Some n => n.2 | None => str "ns" ++ dec id end.
(** [iN::from_le_bytes] *)
Definition as_i (w z : Z) : Z := if decide (z < 2 ^ (w - 1)) then z else z - 2 ^ w.
Definition is_chunk (ns : Z) (key : list Z) (want : Z) (e : RawEntry) : bool :=
  bool_decide (re_ns e = ns /\ re_key e = key /\ re_type e = T_BLOB_DATA /\ re_chunk e = want).
(** The chunks of a blob, from number [c] on. *)
Fixpoint blob_chunks (n : nat) (c start ns : Z) (key : list Z) (raw : list RawEntry) : list Z :=
  match n with
  | O => []
  | S n =>
      let want := u8 (start + u8 c) in
      (match find_first (is_chunk ns key want) raw with
       | Some e => take (Z.to_nat (from_le (take 2 (re_data e)))) (re_payload e)
       | None => []
       end) ++ blob_chunks n (c + 1) start ns key raw
  end.
(** [Vec::with_capacity] on a 32-bit target: more than [isize::MAX] bytes is a panic.
    A smaller request that the heap cannot serve aborts the program; how large the
    heap is depends on the board and is not modelled. *)
Definition with_capacity {E} (n : Z) : outcome E unit := if decide (n > 2 ^ 31 - 1) then Panic else Ok ().
Definition declared_size (e : RawEntry) : Z := from_le (take 4 (re_data e)).
Definition value_of (raw : list RawEntry) (e : RawEntry) : outcome Empty_set (option NvsValue) :=
  let data := re_data e in let ty := re_type e in
  if ty =? T_U8 then Ok (Some (NvU64 (from_le (take 1 data))))
  else if ty =? T_I8 then Ok (Some (NvI64 (as_i 8 (from_le (take 1 data)))))
  else if ty =? T_U16 then Ok (Some (NvU64 (from_le (take 2 data))))
  else if ty =? T_I16 then Ok (Some (NvI64 (as_i 16 (from_le (take 2 data)))))
  else if ty =? T_U32 then Ok (Some (NvU64 (from_le (take 4 data))))
  else if ty =? T_I32 then Ok (Some (NvI64 (as_i 32 (from_le (take 4 data)))))
  else if ty =? T_U64 then Ok (Some (NvU64 (from_le data)))
  else if ty =? T_I64 then Ok (Some (NvI64 (as_i 64 (from_le data))))
  else if (ty =? T_STR) || (ty =? T_BLOB) then
    let size := from_le (take 2 data) in
    let bytes := take (Z.to_nat size) (re_payload e) in
    Ok (Some (if ty =? T_STR then NvStr (from_utf8_lossy (take (zero_at bytes (length bytes)) bytes)) else NvBlob bytes))
  else if ty =? T_BLOB_IDX then
    let size := declared_size e in
    let count := from_le (take 1 (drop 4 data)) in
    let start := from_le (take 1 (drop 5 data)) in
    _ ← with_capacity size;
    Ok (Some (NvBlob (take (Z.to_nat size) (blob_chunks (Z.to_nat count) 0 start (re_ns e) (re_key e) raw))))
  else Ok None.
Fixpoint values_of (namespaces : list (Z * list Z)) (raw l : list RawEntry) : outcome Empty_set (list NvsEntry) :=
  match l with
  | [] => Ok []
  | e :: rest =>
      v ← value_of raw e;
      out ← values_of namespaces raw rest;
      Ok (match v with Some v => mkNvsEntry (ns_name namespaces (re_ns e)) (re_key e) v :: out | None => out end)
  end.
Definition nvs_parse (image : list Z) : outcome Empty_set (list NvsEntry) :=
  '(namespaces, raw) ← raw_entries image;
  values_of namespaces raw raw.
Definition nvs_blob (entries : list NvsEntry) (namespace key : list Z) : option (list Z) :=
  match find_first (fun e => bool_decide (nv_namespace e = namespace /\ nv_key e = key)) entries with
  | Some e => match nv_value e with NvBlob b => Some b | _ => None end
  | None => None
  end.
Definition original_identity_seed {C : CryptoLib} (image : list Z) : Result (option (list Z)) :=
  match nvs_parse image with
  | Panic => Panic
  | Err e => match e with end
  | Ok entries =>
      match nvs_blob entries (str "meshstar") (str "ed25519_sk") with
      | None => Ok None
      | Some sk =>
          if decide (zlen sk < 32) then Ok None else
          let seed := take 32 sk in
          id ← from_seed seed;
          Ok (match nvs_blob entries (str "meshstar") (str "ed25519_pk") with
              | Some pk =>
                  if decide (length pk = 32%nat /\ pk <> public_key_bytes (id_public id)) then
                    if decide (zlen sk >= 64 /\ take 32 (drop 32 sk) = pk) then Some seed else None
                  else Some seed
              | None => Some seed
              end)
      end
  end.

(** ** Facts *)

Module PlatformFacts.
Lemma lxor_range w a b : 0 <= w -> in_u w a -> in_u w b -> in_u w (Z.lxor a b).
Proof.
  unfold in_u. intros Hw Ha Hb. assert (H0 : 0 <= Z.lxor a b) by (apply Z.lxor_nonneg; lia). split; [done|]. destruct (Z.eq_dec (Z.lxor a b) 0) as [->|]; [lia|]. apply Z.log2_lt_pow2; [lia|].
  eapply Z.le_lt_trans; [apply Z.log2_lxor; lia|]. assert (Hlog : forall z, 0 <= z < 2 ^ w -> Z.log2 z < w \/ z = 0).
  { intros z Hz. destruct (Z.eq_dec z 0); [by right|left]. apply Z.log2_lt_pow2; lia. }
  destruct (Z.eq_dec w 0) as [->|]; [exfalso; change (2 ^ 0) with 1 in *; assert (a = 0) as -> by lia; assert (b = 0) as -> by lia; done|].
  apply Z.max_lub_lt; [destruct (Hlog a Ha) as [| ->]|destruct (Hlog b Hb) as [| ->]]; first [done|cbn; lia].
Qed.
Lemma shiftr_range w a k : 0 <= k -> in_u w a -> in_u w (Z.shiftr a k).
Proof.
  unfold in_u. intros Hk Ha. rewrite Z.shiftr_div_pow2 by done. pose proof (Z.pow_pos_nonneg 2 k ltac:(lia) Hk). split; [apply Z.div_pos; lia|]. apply Z.div_lt_upper_bound; [done|]. nia.
Qed.
(** The generator of a relay gives numbers of their width and buffers of their length:
    the laws assumed of [RngCore]. *)
#[global] Instance small_rng_laws : RngCoreLaws SmallRng.
Proof.
  assert (H64 : forall r, in_u 64 (SmallRng.next_u64 r).1).
  { intros r. unfold SmallRng.next_u64. cbn [fst]. assert (Hu : forall z, in_u 64 (u64 z)) by (intros; by apply wrap_range). apply lxor_range; [lia|done|]. by apply shiftr_range. }
  assert (Hc : forall fuel r n, (n <= fuel)%nat -> length (SmallRng.fill_chunks fuel r n).1 = n /\ bytes_ok (SmallRng.fill_chunks fuel r n).1).
  { induction fuel as [|fuel IH]; intros r [|n] Hn; [split; [done|constructor]|lia|split; [done|constructor]|]. cbn [SmallRng.fill_chunks]. destruct (SmallRng.next_u64 r) as [v r']. destruct (IH r' (S n - 8)%nat) as [H1 H2]; [lia|].
    destruct (SmallRng.fill_chunks fuel r' (S n - 8)) as [rest r'']. cbn [fst] in *. split; [rewrite length_app, length_take, length_le_bytes, H1; lia|]. apply Forall_app_2; [apply Forall_take, le_bytes_ok|done]. }
  split; intros r.
  - cbn. unfold SmallRng.next_u32. destruct (SmallRng.next_u64 r). by apply wrap_range.
  - exact (H64 r).
  - intros n. by apply Hc.
  - intros n. by apply Hc.
Qed.
(** What was stored is loaded until it is replaced or removed; other keys are not
    touched. *)
Lemma storage_laws s key value key' : SmallMapFacts.wf (ms_map s) ->
  let s1 := (MemoryStorage.store key value s).1 in let s2 := (MemoryStorage.remove key s).1 in
  (SmallMapFacts.wf (ms_map s1) /\ SmallMapFacts.wf (ms_map s2)) /\ MemoryStorage.load key s1 = Some value /\ MemoryStorage.load key s2 = None /\
  (key' <> key -> MemoryStorage.load key' s1 = MemoryStorage.load key' s /\ MemoryStorage.load key' s2 = MemoryStorage.load key' s) /\
  (MemoryStorage.remove key s).2 = bool_decide (is_Some (MemoryStorage.load key s)).
Proof.
  intros Hw. unfold MemoryStorage.store, MemoryStorage.remove, MemoryStorage.load. pose proof (SmallMapFacts.remove_wf (ms_map s) key Hw) as Hr. pose proof (SmallMapFacts.remove_old (ms_map s) key Hw) as Ho.
  pose proof (fun k => SmallMapFacts.get_remove (ms_map s) key k Hw) as Hg. destruct (SmallMap.remove (ms_map s) key) as [m old]. cbn [fst snd ms_map] in *. cbv zeta.
  assert (Hself : kcmp key key = Eq) by (by apply kcmp_eq). split; [split; [by apply SmallMapFacts.insert_wf|done]|]. split; [by apply SmallMapFacts.get_insert_eq|]. split; [by rewrite Hg, Hself|]. split; [|by rewrite Ho].
  intros Hn. rewrite Hg, SmallMapFacts.get_insert by done. assert (Hk : kcmp key key' <> Eq) by (intros E; by apply kcmp_eq in E). by destruct (kcmp key key').
Qed.

(** The fuel of a page is the number of its entries: each round goes on by one or
    more. *)
Lemma page_fuel page bitmap f : forall g i, ENTRIES_PER_PAGE - i <= Z.of_nat f -> ENTRIES_PER_PAGE - i <= Z.of_nat g -> page_entries f page bitmap i = page_entries g page bitmap i.
Proof.
  unfold ENTRIES_PER_PAGE. induction f as [|f IH]; intros [|g] i Hf Hg; cbn [page_entries]; unfold ENTRIES_PER_PAGE; try (rewrite decide_True by lia); [done..|]. destruct (decide (i >= 126)); [done|].
  destruct (idx bitmap (i / 4)); cbn [mbind outcome_bind]; [|done|done]. destruct (decide _); [done|]. destruct (slice page _ _) as [e| |]; cbn [mbind outcome_bind]; [|done|done].
  destruct (idx e 2) as [s| |]; cbn [mbind outcome_bind]; [|done|done]. rewrite (IH g (i + 1)) by lia. destruct (decide _); [done|]. by rewrite (IH g (i + Z.max s 1)) by lia.
Qed.
Definition raw_ok (e : RawEntry) : Prop := length (re_data e) = 8%nat /\ bytes_ok (re_data e).
(** Scanning a page does not panic: every index is within the page, whatever the
    spans say. *)
Lemma page_scans page bitmap : bytes_ok page -> length bitmap = 32%nat -> forall fuel i, 0 <= i ->
  exists nss raws, page_entries fuel page bitmap i = Ok (nss, raws) /\ Forall raw_ok raws.
Proof.
  intros Hp Hbm. induction fuel as [|fuel IH]; intros i Hi; cbn [page_entries]; [by eexists _, _; split; [|constructor]|]. unfold ENTRIES_PER_PAGE, ENTRY.
  destruct (decide (i >= 126)); [by eexists _, _; split; [|constructor]|]. destruct (idx_in (E := Empty_set) bitmap (i / 4)) as (b & -> & _); [unfold zlen; rewrite Hbm; div_lia|]. cbn [mbind outcome_bind].
  destruct (decide (64 + i * 32 + 32 > zlen page)); [by eexists _, _; split; [|constructor]|]. rewrite slice_in by lia. cbn [mbind outcome_bind]. set (e := take _ _).
  assert (Hl : length e = 32%nat) by (unfold e; rewrite length_take, length_drop; unfold zlen in *; lia). assert (He : bytes_ok e) by (by apply Forall_take, Forall_drop).
  assert (Hk : forall k, 0 <= k < 32 -> exists x, @idx Empty_set Z e k = Ok x) by (intros k Hk; destruct (idx_in (E := Empty_set) e k) as (x & -> & _); [unfold zlen; lia|eauto]).
  destruct (Hk 2 ltac:(lia)) as [s ->]. cbn [mbind outcome_bind]. destruct (decide _); [apply IH; lia|].
  destruct (Hk 0 ltac:(lia)) as [ns ->], (Hk 1 ltac:(lia)) as [ty ->], (Hk 3 ltac:(lia)) as [chunk ->]. cbn [mbind outcome_bind]. unfold key_of. rewrite (slice_in e 8 24) by (unfold zlen; lia). cbn [mbind outcome_bind].
  rewrite (slice_in e 24 32) by (unfold zlen; lia). cbn [mbind outcome_bind]. set (data := take _ (drop (Z.to_nat 24) e)).
  assert (Hd : length data = 8%nat /\ bytes_ok data) by (split; [unfold data; rewrite length_take, length_drop; lia|by apply Forall_take, Forall_drop]).
  assert (exists payload, (if decide (Z.max s 1 > 1) then slice page (64 + i * 32 + 32) (Z.min (64 + i * 32 + 32 + (Z.max s 1 - 1) * 32) (zlen page)) else Ok []) = @Ok Empty_set _ payload) as [payload ->].
  { destruct (decide _); [|eauto]. rewrite slice_in by lia. eauto. }
  cbn [mbind outcome_bind]. destruct (IH (i + Z.max s 1) ltac:(lia)) as (nss & raws & -> & Hr). cbn [mbind outcome_bind]. destruct (idx_in (E := Empty_set) data 0) as (d0 & -> & _); [unfold zlen; lia|]. cbn [mbind outcome_bind].
  destruct (decide _); eexists _, _; (split; [done|]); [done|]. by constructor.
Qed.
Lemma one_page_scans page : bytes_ok page -> exists nss raws, one_page page = Ok (nss, raws) /\ Forall raw_ok raws.
Proof.
  intros Hp. unfold one_page. destruct (decide (zlen page < 64)); [by eexists _, _; split; [|constructor]|].
  assert (Hk : forall k, 0 <= k < 64 -> exists x, @idx Empty_set Z page k = Ok x) by (intros k Hk; destruct (idx_in (E := Empty_set) page k) as (x & -> & _); [lia|eauto]).
  destruct (Hk 0 ltac:(lia)) as [? ->], (Hk 1 ltac:(lia)) as [? ->], (Hk 2 ltac:(lia)) as [? ->], (Hk 3 ltac:(lia)) as [? ->]. cbn [mbind outcome_bind]. destruct (decide _); [by eexists _, _; split; [|constructor]|].
  rewrite slice_in by lia. cbn [mbind outcome_bind]. apply page_scans; [done| |lia]. rewrite length_take, length_drop. unfold zlen in *. lia.
Qed.
Lemma raw_entries_total image : bytes_ok image -> exists nss raws, raw_entries image = Ok (nss, raws) /\ Forall raw_ok raws.
Proof.
  intros Hi. unfold raw_entries. assert (Hp : forall fuel im, bytes_ok im -> Forall bytes_ok (pages fuel im)).
  { induction fuel as [|fuel IH]; intros [|x im] Hb; cbn [pages]; constructor; [by apply Forall_take|]. apply IH. by apply Forall_drop. }
  specialize (Hp (length image) image Hi). induction Hp as [|p l Hp _ IH]; cbn [all_pages]; [by eexists _, _; split; [|constructor]|].
  destruct (one_page_scans p Hp) as (n1 & r1 & -> & H1). cbn [mbind outcome_bind]. destruct IH as (n2 & r2 & -> & H2). cbn [mbind outcome_bind]. eexists _, _. split; [done|]. by apply Forall_app_2.
Qed.
(** An index entry that asks for more than the largest allocation. *)
Definition oversized (e : RawEntry) : Prop := re_type e = T_BLOB_IDX /\ declared_size e > 2 ^ 31 - 1.
Lemma value_panics raw e : (oversized e /\ value_of raw e = Panic) \/ (~ oversized e /\ exists v, value_of raw e = Ok v).
Proof.
  unfold oversized. destruct (decide (re_type e = T_BLOB_IDX)) as [E|E].
  - assert (Hv : value_of raw e = (_ ← with_capacity (declared_size e);
      Ok (Some (NvBlob (take (Z.to_nat (declared_size e)) (blob_chunks (Z.to_nat (from_le (take 1 (drop 4 (re_data e))))) 0 (from_le (take 1 (drop 5 (re_data e)))) (re_ns e) (re_key e) raw)))))) by (unfold value_of; rewrite E; reflexivity).
    rewrite Hv. unfold with_capacity. destruct (decide (declared_size e > 2 ^ 31 - 1)); [by left|right]. split; [tauto|]. by eexists.
  - right. split; [tauto|]. unfold value_of. cbv zeta. rewrite (proj2 (Z.eqb_neq _ _) E). repeat match goal with |- context [if ?b then Ok _ else _] => destruct b; [by eexists|] end. by eexists.
Qed.
Lemma values_panic nss raw l : (Exists oversized l /\ values_of nss raw l = Panic) \/ (~ Exists oversized l /\ exists out, values_of nss raw l = Ok out).
Proof.
  induction l as [|e l IH]; cbn [values_of]; [right; split; [by intros ?%Exists_nil|by eexists]|]. rewrite Exists_cons. destruct (value_panics raw e) as [[Ho ->]|[Hn [v ->]]]; cbn [mbind outcome_bind]; [left; tauto|].
  destruct IH as [[Ho ->]|[Hn' [out ->]]]; cbn [mbind outcome_bind]; [left; tauto|]. right. split; [tauto|]. by eexists.
Qed.

(** C40. Whatever the partition holds, its entries are found without a panic, and parsing
    it returns them, unless a written blob index declares 2 GiB or more: then, and
    only then, the capacity asked for overflows a 32-bit target and the parser
    panics (that the heap is exhausted by a smaller size is not considered). *)
Theorem nvs_parse_panics image : bytes_ok image ->
  exists nss raws, raw_entries image = Ok (nss, raws) /\ (nvs_parse image = Panic <-> Exists oversized raws) /\ (Forall (fun e => ~ oversized e) raws -> exists out, nvs_parse image = Ok out).
Proof.
  intros Hi. destruct (raw_entries_total image Hi) as (nss & raws & Hr & _). exists nss, raws. split; [done|]. unfold nvs_parse. rewrite Hr. cbn [mbind outcome_bind].
  destruct (values_panic nss raws raws) as [[Ho ->]|[Hn [out ->]]].
  - split; [done|]. intros Hf. exfalso. by apply Forall_Exists_neg in Hf.
  - split; [split; [done|by intros ?]|]. intros _. by eexists.
Qed.
End PlatformFacts.

Module PlatformExamples.
Import ToyCrypto.
(** The image of the tests: a namespace, a number, the two keys and a string. *)
Definition entry (ns ty span chunk : Z) (key data payload : list Z) : list Z :=
  [ns; ty; span; chunk] ++ replicate 4 0xFF ++ (key ++ replicate (16 - length key) 0) ++ data ++ payload ++ replicate (Z.to_nat (32 * (span - 1)) - length payload) 0xFF.
Definition sized (n : Z) : list Z := le_bytes 2 n ++ replicate 6 0.
Definition page (count : nat) (entries : list (list Z)) : list Z :=
  let body := concat entries in
  le_bytes 4 0xFFFFFFFE ++ replicate 28 0xFF ++ replicate (count / 4) 0xAA ++ replicate (32 - count / 4) 0xFF ++ body ++ replicate (PAGE - 64 - length body) 0xFF.
Definition seed : list Z := replicate 32 9.
Definition image : list Z :=
  page 8 [entry 0 T_U8 1 0xFF (str "meshstar") [1; 0; 0; 0; 0; 0; 0; 0] []; entry 1 T_U32 1 0xFF (str "region") (le_bytes 8 7) [];
          entry 1 T_BLOB 2 0xFF (str "ed25519_sk") (sized 32) seed; entry 1 T_BLOB 2 0xFF (str "ed25519_pk") (sized 32) (ed_public seed);
          entry 1 T_STR 2 0xFF (str "name") (sized 6) (str "hello" ++ [0])].
Example recovers_identity :
  original_identity_seed image = Ok (Some seed) /\
  (match nvs_parse image with Ok l => (fun e => (nv_namespace e, nv_key e, nv_value e)) <$> filter (fun e => nv_key e = str "region" \/ nv_key e = str "name") l | _ => [] end) =
  [(str "meshstar", str "region", NvU64 7); (str "meshstar", str "name", NvStr (str "hello"))].
Proof. vm_compute. split; reflexivity. Qed.
Lemma nvs_parse_panics_witness :
  exists nss raws, raw_entries image = Ok (nss, raws) /\ (nvs_parse image = Panic <-> Exists PlatformFacts.oversized raws) /\
    (Forall (fun e => ~ PlatformFacts.oversized e) raws -> exists out, nvs_parse image = Ok out).
Proof. apply (PlatformFacts.nvs_parse_panics image). apply bytes_check. vm_compute. reflexivity. Defined.
(** One entry of 32 bytes is enough to make the parser panic. *)
Example index_overflows : nvs_parse (page 4 [entry 1 T_BLOB_IDX 1 0xFF (str "x") (le_bytes 4 (2 ^ 31) ++ [1; 0; 0; 0]) []]) = Panic.
Proof. vm_compute. reflexivity. Qed.
End PlatformExamples.
