(* ===== verification/Hal.v ===== *)
(** * Hardware access

    The interface of the radio drivers to the board: the traits of [embedded-hal] they
    are generic over ([SpiDevice], [OutputPin], [InputPin], [DelayNs]) as a class of
    operations on a state of the hardware, with what its documentation promises; and
    the driver trait's data ([radio/mod.rs]).  A driver call is a method on the
    driver's state and the hardware. *)
From stdpp Require Import base tactics list numbers.
From Stdlib Require Import Lia.
From S2P Require Import Prelude Float32 Protocol Radio.
From stdpp Require Import list.
#[local] Open Scope Z_scope.

Inductive RadioError := ReBus | ReTimeout | ReBusy | ReInvalidConfig | ReTooLarge | ReCrcError | ReOther.
Record RadioStats := mkRadioStats {
  rs_tx_frames : Z; rs_rx_frames : Z; rs_rx_crc_errors : Z; rs_tx_airtime_ms : Z; rs_rx_airtime_ms : Z; rs_last_rssi_dbm : Z; rs_last_snr_db : f32;
  rs_cad_busy : Z; rs_preambles : Z; rs_headers : Z
}.
Module RadioStats.
Definition default_value : RadioStats := mkRadioStats 0 0 0 0 0 0 (f32_of 0) 0 0 0.
(** The counters a driver adds to. *)
Definition sent (ms : Z) (s : RadioStats) : RadioStats :=
  mkRadioStats (u32 (rs_tx_frames s + 1)) (rs_rx_frames s) (rs_rx_crc_errors s) (u64 (rs_tx_airtime_ms s + ms)) (rs_rx_airtime_ms s) (rs_last_rssi_dbm s) (rs_last_snr_db s) (rs_cad_busy s) (rs_preambles s) (rs_headers s).
Definition received (ms rssi : Z) (snr : f32) (s : RadioStats) : RadioStats :=
  mkRadioStats (rs_tx_frames s) (u32 (rs_rx_frames s + 1)) (rs_rx_crc_errors s) (rs_tx_airtime_ms s) (u64 (rs_rx_airtime_ms s + ms)) rssi snr (rs_cad_busy s) (rs_preambles s) (rs_headers s).
Definition crc_error (s : RadioStats) : RadioStats :=
  mkRadioStats (rs_tx_frames s) (rs_rx_frames s) (u32 (rs_rx_crc_errors s + 1)) (rs_tx_airtime_ms s) (rs_rx_airtime_ms s) (rs_last_rssi_dbm s) (rs_last_snr_db s) (rs_cad_busy s) (rs_preambles s) (rs_headers s).
Definition cad (s : RadioStats) : RadioStats :=
  mkRadioStats (rs_tx_frames s) (rs_rx_frames s) (rs_rx_crc_errors s) (rs_tx_airtime_ms s) (rs_rx_airtime_ms s) (rs_last_rssi_dbm s) (rs_last_snr_db s) (u32 (rs_cad_busy s + 1)) (rs_preambles s) (rs_headers s).
Definition preamble (s : RadioStats) : RadioStats :=
  mkRadioStats (rs_tx_frames s) (rs_rx_frames s) (rs_rx_crc_errors s) (rs_tx_airtime_ms s) (rs_rx_airtime_ms s) (rs_last_rssi_dbm s) (rs_last_snr_db s) (rs_cad_busy s) (u32 (rs_preambles s + 1)) (rs_headers s).
Definition header (s : RadioStats) : RadioStats :=
  mkRadioStats (rs_tx_frames s) (rs_rx_frames s) (rs_rx_crc_errors s) (rs_tx_airtime_ms s) (rs_rx_airtime_ms s) (rs_last_rssi_dbm s) (rs_last_snr_db s) (rs_cad_busy s) (rs_preambles s) (u32 (rs_headers s + 1)).
End RadioStats.

(** The board.  A write or a pin reports whether it worked; a read gives the bytes
    asked for, or nothing when it failed. *)
Class Hal (H : Type) := {
  spi_write : list Z -> H -> H * bool;
  spi_transfer_in_place : nat -> H -> H * bool;
  spi_read : nat -> H -> H * option (list Z);
  set_nss : bool -> H -> H * bool;
  set_rst : bool -> H -> H * bool;
  busy_is_high : H -> H * option bool;
  dio_is_high : H -> H * option bool;
  delay_us : Z -> H -> H
}.
Class HalLaws (H : Type) {B : Hal H} : Prop := {
  spi_read_bytes n h h' l : spi_read n h = (h', Some l) -> length l = n /\ bytes_ok l
}.

Section Driver.
Context {H : Type} {B : Hal H} {S : Type}.
Definition Drv (A : Type) : Type := St (S * H) RadioError A.
(** [.map_err(|_| RadioError::Bus)?] after an operation of a pin. *)
Definition pin (f : H -> H * bool) : Drv unit := fun '(d, h) => let '(h', ok) := f h in ((d, h'), if ok then Ok () else Err ReBus).
Definition sense (f : H -> H * option bool) : Drv bool := fun '(d, h) => let '(h', r) := f h in ((d, h'), ok_or r ReBus).
Definition pause (us : Z) : Drv unit := fun '(d, h) => ((d, delay_us us h), Ok ()).
Definition self : Drv S := fun s => (s, Ok s.1).
Definition set_self (f : S -> S) : Drv unit := fun '(d, h) => ((f d, h), Ok ()).
(** Bus operations, chained with [and_then]. *)
Definition io_write (l : list Z) (h : H) : H * option unit := let '(h, ok) := spi_write l h in (h, if ok then Some () else None).
Definition io_transfer (n : nat) (h : H) : H * option unit := let '(h, ok) := spi_transfer_in_place n h in (h, if ok then Some () else None).
Definition io_then {A A'} (f : H -> H * option A) (g : H -> H * option A') (h : H) : H * option A' :=
  match f h with (h, Some _) => g h | (h, None) => (h, None) end.
(** [nss.set_low()?; let r = ..; nss.set_high()?; r.map_err(|_| Bus)] *)
Definition framed {A} (io : H -> H * option A) : Drv A := fun '(d, h) =>
  match set_nss false h with
  | (h, false) => ((d, h), Err ReBus)
  | (h, true) =>
      let '(h, r) := io h in
      match set_nss true h with
      | (h, false) => ((d, h), Err ReBus)
      | (h, true) => ((d, h), ok_or r ReBus)
      end
  end.
(** A calculation of the core: it returns or panics. *)
Definition core {A} (o : Result A) : Drv A := lift (match o with Ok a => Ok a | _ => Panic end).
End Driver.
Arguments Drv _ _ _ : clear implicits.

(** ** What was sent

    A bus that is observed: [sent h] are the first writes after each falling edge of
    the chip select, the latest first. *)

Class Observed (H : Type) {B : Hal H} := {
  sent : H -> list (list Z);
  selected : H -> bool;
  nss_sent b h : sent (set_nss b h).1 = sent h;
  nss_selected h : selected (set_nss false h).1 = true;
  write_first l h h' : selected h = true -> spi_write l h = (h', true) -> sent h' = l :: sent h /\ selected h' = false;
  write_more l h : selected h = false -> sent (spi_write l h).1 = sent h;
  transfer_sent n h : sent (spi_transfer_in_place n h).1 = sent h;
  read_sent n h : sent (spi_read n h).1 = sent h;
  rst_sent b h : sent (set_rst b h).1 = sent h;
  busy_sent h : sent (busy_is_high h).1 = sent h;
  dio_sent h : sent (dio_is_high h).1 = sent h;
  delay_sent us h : sent (delay_us us h) = sent h
}.

(** [runs m Q X s]: from [s] the call does not panic; a result satisfies [Q], and an
    error and the state it leaves satisfy [X]. *)
Definition runs {S E A} (m : St S E A) (Q : S -> A -> Prop) (X : S -> E -> Prop) (s : S) : Prop :=
  match m s with (s', Ok a) => Q s' a | (s', Err e) => X s' e | (_, Panic) => False end.
Lemma runs_bind {S E A A'} (m : St S E A) (f : A -> St S E A') Q X s : runs m (fun s' a => runs (f a) Q X s') X s -> runs (m ≫= f) Q X s.
Proof. unfold runs, mbind, St_bind. by destruct (m s) as [s' [a|e|]]. Qed.
Lemma runs_mono {S E A} (m : St S E A) (Q Q' : S -> A -> Prop) (X X' : S -> E -> Prop) s :
  runs m Q X s -> (forall s' a, Q s' a -> Q' s' a) -> (forall s' e, X s' e -> X' s' e) -> runs m Q' X' s.
Proof. unfold runs. destruct (m s) as [s' [a|e|]]; auto. Qed.
Lemma runs_ret {S E A} (a : A) (Q : S -> A -> Prop) X s : Q s a -> runs (E := E) (mret a) Q X s.
Proof. done. Qed.
Lemma runs_fail {S E A} (e : E) (Q : S -> A -> Prop) (X : S -> E -> Prop) s : X s e -> runs (fail e) Q X s.
Proof. done. Qed.
Lemma runs_lift {S E A} (o : outcome E A) (Q : S -> A -> Prop) (X : S -> E -> Prop) s : safe o -> (forall e, o = Err e -> X s e) -> (forall a, o = Ok a -> Q s a) -> runs (lift o) Q X s.
Proof. unfold runs, lift, safe. destruct o; naive_solver. Qed.
Section Rules.
Context {H : Type} {B : Hal H} {S : Type}.
Implicit Types (Q : S * H -> unit -> Prop) (X : S * H -> RadioError -> Prop).
Lemma runs_self (Q : S * H -> S -> Prop) X s : Q s s.1 -> runs self Q X s.
Proof. done. Qed.
Lemma runs_set_self (f : S -> S) Q X d h : Q (f d, h) () -> runs (set_self f) Q X (d, h).
Proof. done. Qed.
Lemma runs_core {A} (o : Result A) (Q : S * H -> A -> Prop) X s a : o = Ok a -> Q s a -> runs (core o) Q X s.
Proof. by intros ->. Qed.
Context {O : Observed H} {L : HalLaws H}.
(** The chip is fine but the frame is not; any other error leaves its mode unknown. *)
Definition soft (e : RadioError) : Prop := e = ReCrcError \/ e = ReTooLarge.
Definition failed (d : S) (s : S * H) (e : RadioError) : Prop := s.1 = d /\ ~ soft e.
Lemma failed_bus d h : failed d (d, h) ReBus.
Proof. split; [done|]. by intros []. Qed.
(** A call that only works the bus: the driver is unchanged, and a success has sent
    [l]. *)
Definition sends (l : list (list Z)) (d : S) (h : H) (s : S * H) : Prop := s.1 = d /\ sent s.2 = l ++ sent h.
Lemma runs_pin f d h : (forall h, sent (f h).1 = sent h) -> runs (pin f) (fun s _ => sends [] d h s) (failed d) (d, h).
Proof. intros Hf. specialize (Hf h). unfold runs, pin, sends. destruct (f h) as [h' []]; cbn in *; [done|apply failed_bus]. Qed.
Lemma runs_sense f d h : (forall h, sent (f h).1 = sent h) -> runs (sense f) (fun s _ => sends [] d h s) (failed d) (d, h).
Proof. intros Hf. specialize (Hf h). unfold runs, sense, sends. destruct (f h) as [h' [b|]]; cbn in *; [done|apply failed_bus]. Qed.
Lemma runs_pause us d h : runs (pause us) (fun s _ => sends [] d h s) (failed d) (d, h).
Proof. unfold runs, pause, sends. cbn. by rewrite delay_sent. Qed.
(** Operations of a transaction: the first write is recorded, and the result is what
    the operation promises. *)
Definition transacts {A} (io : H -> H * option A) (l : list Z) (P : A -> Prop) : Prop :=
  forall h, selected h = true -> match io h with (h', Some a) => sent h' = l :: sent h /\ P a | _ => True end.
Lemma transacts_write l : transacts (io_write l) l (fun _ => True).
Proof. intros h Hs. unfold io_write. destruct (spi_write l h) as [h' []] eqn:E; [|done]. split; [by apply (write_first l h h')|done]. Qed.
Lemma transacts_read l n : transacts (io_then (io_write l) (spi_read n)) l (fun b => length b = n /\ bytes_ok b).
Proof.
  intros h Hs. unfold io_then, io_write. destruct (spi_write l h) as [h' []] eqn:E; [|done]. destruct (write_first l h h' Hs E) as [Hl _]. pose proof (read_sent n h') as Hr. destruct (spi_read n h') as [h'' [b|]] eqn:E'; [|done].
  split; [cbn in Hr; congruence|by apply (spi_read_bytes n h' h'')].
Qed.
Lemma transacts_transfer_read l k n : transacts (io_then (io_then (io_write l) (io_transfer k)) (spi_read n)) l (fun b => length b = n /\ bytes_ok b).
Proof.
  intros h Hs. unfold io_then, io_transfer, io_write. destruct (spi_write l h) as [h' []] eqn:E; [|done]. destruct (write_first l h h' Hs E) as [Hl _]. pose proof (transfer_sent k h') as Ht.
  destruct (spi_transfer_in_place k h') as [h1 []]; [|done]. pose proof (read_sent n h1) as Hr. destruct (spi_read n h1) as [h2 [b|]] eqn:E'; [|done]. cbn in *.
  split; [congruence|by apply (spi_read_bytes n h1 h2)].
Qed.
Lemma transacts_write_more l data : transacts (io_then (io_write l) (io_write data)) l (fun _ => True).
Proof.
  intros h Hs. unfold io_then, io_write. destruct (spi_write l h) as [h' []] eqn:E; [|done]. destruct (write_first l h h' Hs E) as [Hl Ho]. pose proof (write_more data h' Ho) as Hm. destruct (spi_write data h') as [h2 []]; [|done].
  cbn in *. split; [congruence|done].
Qed.
Lemma runs_framed {A} (io : H -> H * option A) l P d h :
  transacts io l P -> runs (framed io) (fun s a => sends [l] d h s /\ P a) (failed d) (d, h).
Proof.
  intros Hio. unfold runs, framed, sends. pose proof (nss_sent false h) as H1. pose proof (nss_selected h) as H2. destruct (set_nss false h) as [h1 []]; [|apply failed_bus]. cbn in H1, H2. specialize (Hio h1 H2). destruct (io h1) as [h2 r].
  pose proof (nss_sent true h2) as H3. destruct (set_nss true h2) as [h3 []]; [|apply failed_bus]. destruct r as [a|]; cbn in *; [|apply failed_bus]. destruct Hio as [Hs HP]. split; [split; [done|congruence]|done].
Qed.
End Rules.

(** ** A scripted board

    The bus of the drivers' tests: it records what is written and answers reads from a
    script. *)
Record Script := mkScript { sc_sent : list (list Z); sc_data : list (list Z); sc_selected : bool; sc_reads : list (list Z); sc_dio : bool }.
Definition scripted (reads : list (list Z)) (dio : bool) : Script := mkScript [] [] false reads dio.
#[global] Instance script_hal : Hal Script := {
  spi_write l h := (if sc_selected h then mkScript (l :: sc_sent h) (sc_data h) false (sc_reads h) (sc_dio h) else mkScript (sc_sent h) (l :: sc_data h) false (sc_reads h) (sc_dio h), true);
  spi_transfer_in_place _ h := (h, true);
  spi_read n h := (mkScript (sc_sent h) (sc_data h) (sc_selected h) (tail (sc_reads h)) (sc_dio h), Some (take n ((u8 <$> default [] (head (sc_reads h))) ++ replicate n 0)));
  set_nss b h := (mkScript (sc_sent h) (sc_data h) (negb b) (sc_reads h) (sc_dio h), true);
  set_rst _ h := (h, true);
  busy_is_high h := (h, Some false);
  dio_is_high h := (h, Some (sc_dio h));
  delay_us _ h := h
}.
#[global] Instance script_laws : HalLaws Script.
Proof.
  split. intros n h h' l [= _ <-]. split; [rewrite length_take, length_app, length_replicate; lia|]. apply Forall_take, Forall_app. split; [|by apply Forall_replicate].
  apply Forall_fmap, Forall_true. intros z. apply (wrap_range 8). lia.
Qed.
#[global] Program Instance script_observed : Observed Script := { sent := sc_sent; selected := sc_selected }.
Next Obligation. done. Qed.
Next Obligation. done. Qed.
Next Obligation. intros l h h' Hs [= <-]. by rewrite Hs. Qed.
Next Obligation. intros l h Hs. cbn. by rewrite Hs. Qed.
Next Obligation. done. Qed.
Next Obligation. done. Qed.
Next Obligation. done. Qed.
Next Obligation. done. Qed.
Next Obligation. done. Qed.
Next Obligation. done. Qed.
