(* ===== verification/Driver.v ===== *)
(** * Drivers and the chip's mode

    What the radio drivers share: a driver keeps a profile and a flag that it is
    receiving, and the chip is in the mode it was last told to enter.  [Inv] is the
    class of properties that only depend on these three, with what an error leaves of
    them, so that every step that changes none of them keeps them ([keeps]); [CallInv]
    are those that a whole call keeps. *)
From stdpp Require Import base tactics list numbers.
From Stdlib Require Import Lia.
From S2P Require Import Prelude Float32 Protocol Radio Hal.
From stdpp Require Import list.
Import LoRaProfile.
#[local] Open Scope Z_scope.

(** [drv_ok] is what the board's settings must satisfy; [mode_of] reads the mode a
    transaction commands. *)
Class ModeDriver (S : Type) := {
  drv_profile : S -> LoRaProfile;
  drv_receiving : S -> bool;
  drv_ok : S -> Prop;
  mode_of : list Z -> option Z;
  rx_mode : Z
}.

Create HintDb driver.
Ltac drv := eauto with driver typeclass_instances.

(** ** Airtime never divides by zero *)

Lemma symbol_time_runs p : bandwidth_hz p <> 0 -> exists ts, symbol_time_us p = Ok ts.
Proof. intros Hp. unfold symbol_time_us. rewrite decide_False by done. eauto. Qed.
Lemma airtime_runs p len : 5 <= spreading_factor p <= 12 -> bandwidth_hz p <> 0 -> exists us, airtime_us p len = Ok us /\ 0 <= us < 4294967296.
Proof.
  intros Hsf Hp. destruct (symbol_time_runs p Hp) as [ts Hts]. unfold airtime_us, low_data_rate_optimize. rewrite Hts. cbn [mbind outcome_bind].
  rewrite decide_False by (destruct (bool_decide (ts > 16000)); rewrite i32_small; lia). eexists. split; [reflexivity|]. by apply (wrap_range 32).
Qed.
Lemma airtime_ms_runs p len : 5 <= spreading_factor p <= 12 -> bandwidth_hz p <> 0 -> exists ms, airtime_ms p len = Ok ms /\ 0 <= ms <= 4294968.
Proof.
  intros Hsf Hp. destruct (airtime_runs p len Hsf Hp) as (us & Hus & Hr). unfold airtime_ms. rewrite Hus. eexists. split; [reflexivity|].
  split; [apply Z.div_pos; lia|]. apply Z.lt_succ_r, Z.div_lt_upper_bound; lia.
Qed.

Section Keeps.
Context {H : Type} {B : Hal H} {S : Type} {M : ModeDriver S} {O : Observed H} {L : HalLaws H}.
Implicit Types (d : S) (h : H).

(** ** Modes *)

(** The mode the chip was last told to enter. *)
Fixpoint last_mode (l : list (list Z)) : option Z :=
  match l with [] => None | c :: l => match mode_of c with Some m => Some m | None => last_mode l end end.
Definition alive d : Prop := 5 <= spreading_factor (drv_profile d) <= 12 /\ bandwidth_hz (drv_profile d) <> 0 /\ drv_ok d.
Definition tuned (s : S * H) : Prop := drv_receiving s.1 = true -> last_mode (sent s.2) = Some rx_mode.
Definition working (s : S * H) : Prop := alive s.1 /\ tuned s.
Definition idle (s : S * H) : Prop := alive s.1 /\ drv_receiving s.1 = false.
Definition hard (s : S * H) (e : RadioError) : Prop := alive s.1 /\ ~ soft e.
(** A step of the driver that changes neither the profile nor the flag. *)
Definition inert d' d : Prop := drv_profile d' = drv_profile d /\ drv_receiving d' = drv_receiving d /\ (drv_ok d -> drv_ok d').
Lemma inert_alive d' d : inert d' d -> alive d -> alive d'.
Proof. intros (Hp & _ & Ho) (? & ? & ?). unfold alive. rewrite Hp. auto. Qed.

(** [P] is a property of the profile, the receive flag and the mode, and [X] is what an
    error leaves. *)
Class Inv (P : S * H -> Prop) (X : S * H -> RadioError -> Prop) : Prop := {
  inv_step d h d' h' : P (d, h) -> inert d' d -> last_mode (sent h') = last_mode (sent h) -> P (d', h');
  inv_alive s : P s -> alive s.1;
  inv_hard s e : hard s e -> X s e
}.
(** An invariant of the calls: it also holds of an idle radio and of one told to
    receive, and an error of the frame keeps it. *)
Class CallInv (P : S * H -> Prop) : Prop := {
  call_step d h d' h' : P (d, h) -> inert d' d -> last_mode (sent h') = last_mode (sent h) -> P (d', h');
  call_alive s : P s -> alive s.1;
  call_idle s : idle s -> P s;
  call_receive s : alive s.1 -> last_mode (sent s.2) = Some rx_mode -> P s
}.
Definition spared (P : S * H -> Prop) (s : S * H) (e : RadioError) : Prop := alive s.1 /\ (soft e -> P s).
#[global] Instance call_inv P : CallInv P -> Inv P (spared P).
Proof. intros C. split; [apply call_step|apply call_alive|by intros s e [? ?]]. Qed.
#[global] Instance alive_call : CallInv (fun s => alive s.1).
Proof. split; [|done|by intros s []|done]. intros d h d' h' Ha Hi _. by apply (inert_alive d' d). Qed.
#[global] Instance working_call : CallInv working.
Proof.
  split; [|by intros s [? _]|intros s [? Hr]; split; [done|unfold tuned; by rewrite Hr]|intros s Ha Hm; split; [exact Ha|intros _; exact Hm]].
  intros d h d' h' [Ha Ht] Hi Hm. split; [by apply (inert_alive d' d)|]. destruct Hi as (_ & Hr & _). unfold tuned in *. cbn in *. by rewrite Hr, Hm.
Qed.
#[global] Instance alive_hard : Inv (fun s => alive s.1) hard.
Proof. split; [|done|done]. intros d h d' h' Ha Hi _. by apply (inert_alive d' d). Qed.
#[global] Instance idle_hard : Inv idle hard.
Proof. split; [|by intros s []|done]. intros d h d' h' [Ha Hf] Hi _. split; [by apply (inert_alive d' d)|]. destruct Hi as (_ & Hr & _). cbn in *. by rewrite Hr. Qed.

Lemma last_mode_plain c l : mode_of c = None -> last_mode (c :: l) = last_mode l.
Proof. intros Hc. cbn [last_mode]. by rewrite Hc. Qed.
Lemma last_mode_set c m l : mode_of c = Some m -> last_mode (c :: l) = Some m.
Proof. intros Hc. cbn [last_mode]. by rewrite Hc. Qed.

(** A step that keeps [P], with what its result satisfies. *)
Definition keeps (P : S * H -> Prop) X {A} (m : Drv H S A) (R : A -> Prop) : Prop := forall d h, P (d, h) -> runs m (fun s a => P s /\ R a) X (d, h).
Lemma keeps_then {A A'} P X (m : Drv H S A) (f : A -> Drv H S A') R Q d h :
  keeps P X m R -> P (d, h) -> (forall d h a, P (d, h) -> R a -> runs (f a) Q X (d, h)) -> runs (m ≫= f) Q X (d, h).
Proof. intros Hm HP Hf. apply runs_bind. eapply runs_mono; [by apply Hm| |done]. intros [d' h'] a [HP' Ha]. by apply Hf. Qed.

Section Steps.
Context {P : S * H -> Prop} {X : S * H -> RadioError -> Prop} `{!Inv P X}.
Notation keep := (keeps P X).
Lemma inv_failed d h s e : P (d, h) -> failed d s e -> X s e.
Proof. intros HP [E He]. apply inv_hard. split; [|done]. rewrite E. by apply (inv_alive (d, h)). Qed.
Lemma keeps_bind {A A'} (m : Drv H S A) (f : A -> Drv H S A') R R' : keep m R -> (forall a, R a -> keep (f a) R') -> keep (m ≫= f) R'.
Proof. intros Hm Hf d h HP. apply runs_bind. eapply runs_mono; [by apply Hm| |done]. intros [d' h'] a [HP' Ha]. by apply Hf. Qed.
Lemma keeps_seq {A A'} (m : Drv H S A) (k : Drv H S A') R R' : keep m R -> keep k R' -> keep (m ≫= fun _ => k) R'.
Proof. intros Hm Hk. by eapply keeps_bind. Qed.
Lemma keeps_if {A} (b : bool) (m m' : Drv H S A) R : keep m R -> keep m' R -> keep (if b then m else m') R.
Proof. by destruct b. Qed.
Lemma keeps_ret {A} (a : A) (R : A -> Prop) : R a -> keep (mret a) R.
Proof. by intros Ha d h HP. Qed.
Lemma keeps_weaken {A} (m : Drv H S A) (R R' : A -> Prop) : keep m R -> (forall a, R a -> R' a) -> keep m R'.
Proof. intros Hm HR d h HP. eapply runs_mono; [by apply Hm| |done]. naive_solver. Qed.
Lemma keeps_fail {A} e (R : A -> Prop) : ~ soft e -> keep (fail e) R.
Proof. intros He d h HP. apply runs_fail. by apply (inv_failed d h). Qed.
Lemma keeps_self : keep self alive.
Proof. intros d h HP. split; [done|]. by apply (inv_alive (d, h)). Qed.
Lemma keeps_set f : (forall d, inert (f d) d) -> keep (set_self f) (fun _ => True).
Proof. intros Hf d h HP. split; [|done]. by apply (inv_step d h). Qed.
Lemma keeps_core {A} (o : Result A) a : o = Ok a -> keep (core o) (fun b => b = a).
Proof. intros -> d h HP. done. Qed.
Lemma keeps_sends {A} (m : Drv H S A) l (R : A -> Prop) :
  (forall d h, runs m (fun s a => sends [l] d h s /\ R a) (failed d) (d, h)) -> mode_of l = None -> keep m R.
Proof.
  intros Hm Hl d h HP. eapply runs_mono; [apply Hm| |intros s e; by apply (inv_failed d h)]. intros [d' h'] a [[E1 E2] Ha]. cbn in E1, E2. subst d'. split; [|done]. apply (inv_step d h); [done|by split|]. rewrite E2. by apply last_mode_plain.
Qed.
Lemma keeps_nothing {A} (m : Drv H S A) : (forall d h, runs m (fun s _ => sends [] d h s) (failed d) (d, h)) -> keep m (fun _ => True).
Proof.
  intros Hm d h HP. eapply runs_mono; [apply Hm| |intros s e; by apply (inv_failed d h)]. intros [d' h'] a [E1 E2]. cbn in E1, E2. subst d'. split; [|done]. apply (inv_step d h); [done|by split|]. by rewrite E2.
Qed.
Lemma keeps_pause us : keep (pause us) (fun _ => True).
Proof. apply keeps_nothing. intros d h. apply runs_pause. Qed.
Lemma keeps_rst b : keep (pin (set_rst b)) (fun _ => True).
Proof. apply keeps_nothing. intros d h. apply runs_pin, rst_sent. Qed.
Lemma keeps_dio : keep (sense dio_is_high) (fun _ => True).
Proof. apply keeps_nothing. intros d h. apply runs_sense, dio_sent. Qed.
Lemma keeps_byte b k n : length b = n -> bytes_ok b -> 0 <= k < Z.of_nat n -> keep (lift (idx b k)) byte_ok.
Proof.
  intros Hl Hb Hk d h HP. destruct (idx_in (E := RadioError) b k) as (v & -> & Hv); [unfold zlen; lia|]. split; [done|]. by apply (Forall_lookup_1 _ _ _ _ Hb Hv).
Qed.
End Steps.

(** ** Transactions of any mode *)

(** A transaction that leaves the driver as it was. *)
Lemma any_transaction (P : S * H -> Prop) {A} (m : Drv H S A) l :
  (forall d h h', P (d, h) -> P (d, h')) -> (forall s, P s -> alive s.1) -> (forall d h, runs m (fun s _ => sends l d h s) (failed d) (d, h)) -> keeps P hard m (fun _ => True).
Proof.
  intros HP Ha Hm d h Hs. eapply runs_mono; [apply Hm| |].
  - intros [d' h'] a [E _]. cbn in E. subst d'. split; [by apply (HP d h)|done].
  - intros s e [E He]. split; [|done]. rewrite E. by apply (Ha (d, h)).
Qed.
Lemma alive_transaction {A} (m : Drv H S A) l : (forall d h, runs m (fun s _ => sends l d h s) (failed d) (d, h)) -> keeps (fun s => alive s.1) hard m (fun _ => True).
Proof. by apply any_transaction. Qed.
Lemma idle_transaction {A} (m : Drv H S A) l : (forall d h, runs m (fun s _ => sends l d h s) (failed d) (d, h)) -> keeps idle hard m (fun _ => True).
Proof. apply any_transaction; [done|by intros s []]. Qed.

(** ** Calls *)

Section Calls.
Context {P : S * H -> Prop} `{!CallInv P}.
Notation call := (keeps P (spared P)).
(** From an idle radio only a hard error can come. *)
Lemma from_idle {A} (m : Drv H S A) (Q : S * H -> A -> Prop) s : runs m Q hard s -> runs m Q (spared P) s.
Proof. intros Hm. eapply runs_mono; [exact Hm|done|]. intros s' e [? ?]. by split. Qed.
Lemma idle_keeps {A} (m : Drv H S A) R d h : keeps idle hard m R -> idle (d, h) -> runs m (fun s a => P s /\ R a) (spared P) (d, h).
Proof. intros Hm Hi. apply from_idle. eapply runs_mono; [by apply Hm| |done]. intros s a [? ?]. split; [by apply call_idle|done]. Qed.
Lemma idle_then {A A'} (m : Drv H S A) (f : A -> Drv H S A') R Q d h :
  keeps idle hard m R -> idle (d, h) -> (forall d h a, idle (d, h) -> R a -> runs (f a) Q (spared P) (d, h)) -> runs (m ≫= f) Q (spared P) (d, h).
Proof. intros Hm HP Hf. apply runs_bind. eapply runs_mono; [by apply from_idle, Hm| |done]. intros [d' h'] a [HP' Ha]. by apply Hf. Qed.
(** Standby, then the receive flag cleared. *)
Lemma call_standby_then {A} (m : Drv H S unit) f (k : Drv H S A) R :
  keeps (fun s => alive s.1) hard m (fun _ => True) -> (forall d, alive d -> alive (f d) /\ drv_receiving (f d) = false) ->
  (forall d h, idle (d, h) -> runs k (fun s a => P s /\ R a) (spared P) (d, h)) -> call (m;; set_self f;; k) R.
Proof.
  intros Hm Hf Hk d h HP. apply call_alive in HP. apply runs_bind. eapply runs_mono; [by apply Hm| |by intros s e [? ?]; split].
  intros [d1 h1] _ [H1 _]. apply runs_bind, runs_set_self, Hk. by apply Hf.
Qed.
Lemma call_standby {A} (m : Drv H S unit) f (k : Drv H S A) R :
  keeps (fun s => alive s.1) hard m (fun _ => True) -> (forall d, alive d -> alive (f d) /\ drv_receiving (f d) = false) -> keeps idle hard k R -> call (m;; set_self f;; k) R.
Proof. intros Hm Hf Hk. apply call_standby_then; [done|done|]. intros d h. by apply idle_keeps. Qed.
(** A call that ends with the radio idle. *)
Lemma call_to_idle {A} (m : Drv H S A) : (forall d h, alive d -> runs m (fun s _ => idle s) hard (d, h)) -> call m (fun _ => True).
Proof. intros Hm d h HP. apply from_idle. eapply runs_mono; [by apply Hm, (call_alive (d, h))| |done]. intros s a Hi. split; [by apply call_idle|done]. Qed.
Lemma call_fail {A} e (R : A -> Prop) : call (fail e) R.
Proof. intros d h HP. apply runs_fail. split; [by apply (call_alive (d, h))|done]. Qed.
(** A frame fits the buffer it was asked for. *)
Definition fits (buf_len : Z) (r : option (list Z * RxMeta)) : Prop := match r with Some (frame, _) => 0 < zlen frame <= buf_len /\ bytes_ok frame | None => True end.
End Calls.

(** ** Sessions

    An application makes calls one after the other, on a board that may answer
    anything. *)
Definition ignore {A} (m : Drv H S A) : Drv H S unit := m;; mret ().
Lemma ignore_keeps P X {A} (m : Drv H S A) R : keeps P X m R -> keeps P X (ignore m) (fun _ => True).
Proof. intros Hm d h HP. apply runs_bind. eapply runs_mono; [by apply Hm| |done]. by intros s a [? _]. Qed.
(** The call worked, or only the frame was bad. *)
Definition harmless (r : outcome RadioError unit) : Prop := match r with Ok _ => True | Err e => soft e | Panic => False end.
Section Session.
Context {C : Type} (perform : C -> Drv H S unit) (call_ok : C -> Prop).
Fixpoint drive (l : list C) (s : S * H) : (S * H) * list (outcome RadioError unit) :=
  match l with
  | [] => (s, [])
  | c :: l => let '(s, r) := perform c s in let '(s, rs) := drive l s in (s, r :: rs)
  end.
(** A new driver is reset, then used. *)
Definition session (init : Drv H S unit) (l : list C) (s : S * H) : (S * H) * list (outcome RadioError unit) :=
  let '(s, r) := init s in let '(s, rs) := drive l s in (s, r :: rs).
Hypothesis perform_keeps : forall P, CallInv P -> forall c, call_ok c -> keeps P (spared P) (perform c) (fun _ => True).
Lemma drive_ok l s :
  Forall call_ok l -> alive s.1 ->
  let '(s', rs) := drive l s in Forall safe rs /\ alive s'.1 /\ (working s -> Forall harmless rs -> working s').
Proof.
  intros Hl. revert s. induction Hl as [|c l Hc Hl IH]; intros [d h] Ha; [done|]. cbn [drive].
  pose proof (perform_keeps (fun s => alive s.1) _ c Hc d h Ha) as Hp. pose proof (perform_keeps working _ c Hc d h) as Hw. unfold runs in Hp, Hw. destruct (perform c (d, h)) as [s1 r].
  assert (Hr : safe r /\ alive s1.1) by (destruct r as [u|e|]; [by destruct Hp|by destruct Hp|done]). destruct Hr as [Hr Ha1]. specialize (IH s1 Ha1). destruct (drive l s1) as [s2 rs]. destruct IH as (IH1 & IH2 & IH3).
  split; [by constructor|]. split; [done|]. intros HW Hrs. apply Forall_cons in Hrs as [Hh Hrs]. apply IH3; [|done]. specialize (Hw HW). destruct r as [u|e|]; [by destruct Hw|by apply Hw|done].
Qed.
Lemma session_ok init l s s' rs :
  idle s -> runs init (fun s _ => idle s) hard s -> Forall call_ok l -> session init l s = (s', rs) ->
  Forall safe rs /\ (Forall harmless rs -> drv_receiving s'.1 = true -> last_mode (sent s'.2) = Some rx_mode).
Proof.
  intros Hi Hr Hl. unfold session. unfold runs in Hr. destruct (init s) as [s1 r].
  assert (Ha : safe r /\ alive s1.1) by (destruct r as [u|e|]; [by destruct Hr|by destruct Hr|done]). destruct Ha as [Hs Ha]. pose proof (drive_ok l s1 Hl Ha) as Hd. destruct (drive l s1) as [s2 rs2]. destruct Hd as (H1 & _ & H3).
  intros [= <- <-]. split; [by constructor|]. intros Hh. apply Forall_cons in Hh as [Hh Hrs]. apply H3; [|done]. destruct r as [u|e|]; [by apply call_idle|by destruct Hr|done].
Qed.
End Session.
End Keeps.
