(* ===== verification/Sx126x.v ===== *)
(** * The SX126x driver

    [crates/meshstar-radio-sx126x/src/lib.rs], over the hardware interface of Hal.  The
    loops are polls with a bound; the facts: no call panics or polls beyond its
    deadline whatever the chip answers, [configure] sends exactly the commands the
    profile determines, and a driver that believes it receives has the chip in receive
    mode. *)
From stdpp Require Import base tactics list numbers.
From Stdlib Require Import Lia.
From S2P Require Import Prelude Float32 Protocol Radio Hal.
From stdpp Require Import list.
Import LoRaProfile.
#[local] Open Scope Z_scope.

Module op126.
Definition SET_SLEEP : Z := 0x84.
Definition SET_STANDBY : Z := 0x80.
Definition SET_FS : Z := 0xC1.
Definition SET_TX : Z := 0x83.
Definition SET_RX : Z := 0x82.
Definition SET_CAD : Z := 0xC5.
Definition SET_REGULATOR_MODE : Z := 0x96.
Definition CALIBRATE : Z := 0x89.
Definition CALIBRATE_IMAGE : Z := 0x98.
Definition SET_PA_CONFIG : Z := 0x95.
Definition SET_RX_TX_FALLBACK_MODE : Z := 0x93.
Definition WRITE_REGISTER : Z := 0x0D.
Definition READ_REGISTER : Z := 0x1D.
Definition WRITE_BUFFER : Z := 0x0E.
Definition READ_BUFFER : Z := 0x1E.
Definition SET_DIO_IRQ_PARAMS : Z := 0x08.
Definition GET_IRQ_STATUS : Z := 0x12.
Definition CLEAR_IRQ_STATUS : Z := 0x02.
Definition SET_DIO2_AS_RF_SWITCH_CTRL : Z := 0x9D.
Definition SET_DIO3_AS_TCXO_CTRL : Z := 0x97.
Definition SET_RF_FREQUENCY : Z := 0x86.
Definition SET_PACKET_TYPE : Z := 0x8A.
Definition SET_TX_PARAMS : Z := 0x8E.
Definition SET_MODULATION_PARAMS : Z := 0x8B.
Definition SET_PACKET_PARAMS : Z := 0x8C.
Definition SET_CAD_PARAMS : Z := 0x88.
Definition SET_BUFFER_BASE_ADDRESS : Z := 0x8F.
Definition SET_LORA_SYMB_NUM_TIMEOUT : Z := 0xA0.
Definition GET_STATUS : Z := 0xC0.
Definition GET_RX_BUFFER_STATUS : Z := 0x13.
Definition GET_PACKET_STATUS : Z := 0x14.
Definition GET_RSSI_INST : Z := 0x15.
Definition GET_DEVICE_ERRORS : Z := 0x17.
Definition CLEAR_DEVICE_ERRORS : Z := 0x07.
End op126.
Module reg126.
Definition LORA_SYNC_WORD_MSB : Z := 0x0740.
Definition LORA_SYNC_WORD_LSB : Z := 0x0741.
Definition RX_GAIN : Z := 0x08AC.
Definition OCP : Z := 0x08E7.
Definition TX_MODULATION : Z := 0x0889.
Definition IQ_POLARITY : Z := 0x0736.
Definition RTC_CTRL : Z := 0x0902.
Definition EVT_CLR : Z := 0x0944.
End reg126.
Module irq126.
Definition TX_DONE : Z := 0x001.
Definition RX_DONE : Z := 0x002.
Definition PREAMBLE_DETECTED : Z := 0x004.
Definition HEADER_VALID : Z := 0x010.
Definition HEADER_ERR : Z := 0x020.
Definition CRC_ERR : Z := 0x040.
Definition CAD_DONE : Z := 0x080.
Definition CAD_DETECTED : Z := 0x100.
Definition TIMEOUT : Z := 0x200.
End irq126.
Import op126 reg126 irq126.

Record BoardConfig := mkBoard126 { bc_high_power_pa : bool; bc_dio2_rf_switch : bool; bc_dio3_tcxo : option Z; bc_dcdc : bool; bc_tcxo_delay_ms : Z }.
Definition HELTEC_V3 : BoardConfig := mkBoard126 true true (Some 0x02) true 5.
Definition same_profile (a b : LoRaProfile) : bool :=
  bool_decide (frequency_hz a = frequency_hz b /\ bandwidth_hz a = bandwidth_hz b /\ spreading_factor a = spreading_factor b /\ sync_word a = sync_word b).
Record Sx126x := mkSx126x {
  sx_board : BoardConfig; sx_profile : LoRaProfile; sx_rf_hz : Z; sx_stats : RadioStats; sx_receiving : bool; sx_rx_active : bool; sx_preamble_seen : bool
}.
Module Sx126x.
Definition new (board : BoardConfig) : Sx126x := mkSx126x board MESHSTAR_EU868 0 RadioStats.default_value false false false.
Definition set_board (b : BoardConfig) (d : Sx126x) : Sx126x := mkSx126x b (sx_profile d) (sx_rf_hz d) (sx_stats d) (sx_receiving d) (sx_rx_active d) (sx_preamble_seen d).
Definition set_profile (p : LoRaProfile) (d : Sx126x) : Sx126x := mkSx126x (sx_board d) p (sx_rf_hz d) (sx_stats d) (sx_receiving d) (sx_rx_active d) (sx_preamble_seen d).
Definition set_rf_hz (hz : Z) (d : Sx126x) : Sx126x := mkSx126x (sx_board d) (sx_profile d) hz (sx_stats d) (sx_receiving d) (sx_rx_active d) (sx_preamble_seen d).
Definition count (f : RadioStats -> RadioStats) (d : Sx126x) : Sx126x := mkSx126x (sx_board d) (sx_profile d) (sx_rf_hz d) (f (sx_stats d)) (sx_receiving d) (sx_rx_active d) (sx_preamble_seen d).
Definition set_receiving (b : bool) (d : Sx126x) : Sx126x := mkSx126x (sx_board d) (sx_profile d) (sx_rf_hz d) (sx_stats d) b (sx_rx_active d) (sx_preamble_seen d).
Definition set_rx_active (b : bool) (d : Sx126x) : Sx126x := mkSx126x (sx_board d) (sx_profile d) (sx_rf_hz d) (sx_stats d) (sx_receiving d) b (sx_preamble_seen d).
Definition set_preamble_seen (b : bool) (d : Sx126x) : Sx126x := mkSx126x (sx_board d) (sx_profile d) (sx_rf_hz d) (sx_stats d) (sx_receiving d) (sx_rx_active d) b.
Definition rx_active (d : Sx126x) : bool := sx_rx_active d.
Definition preamble_seen (d : Sx126x) : bool := sx_preamble_seen d || sx_rx_active d.
Definition clear_preamble_seen (d : Sx126x) : Sx126x := set_preamble_seen false d.
(** [s & m != 0] *)
Definition flag (s m : Z) : bool := bool_decide (Z.land s m <> 0).
Definition hi8 (z : Z) : Z := u8 (Z.shiftr z 8).
Definition within (lo hi z : Z) : bool := bool_decide (lo <= z <= hi).
Definition band (hz : Z) : Z :=
  if hz =? 0 then 0 else if within 430000000 440000000 hz then 1 else if within 470000000 510000000 hz then 2 else if within 779000000 787000000 hz then 3
  else if within 863000000 870000000 hz then 4 else if within 902000000 928000000 hz then 5 else 6.
(** The image calibration of a band. *)
Definition image_calibration (hz : Z) : option (list Z) :=
  if within 430000000 440000000 hz then Some [0x6B; 0x6F] else if within 470000000 510000000 hz then Some [0x75; 0x81] else if within 779000000 787000000 hz then Some [0xC1; 0xC5]
  else if within 863000000 870000000 hz then Some [0xD7; 0xDB] else if within 902000000 928000000 hz then Some [0xE1; 0xE9] else None.
Definition frequency_word (hz : Z) : Z := u32 (u64 (Z.shiftl hz 25) / 32000000).
Definition bandwidth_code (bw : Z) : outcome RadioError Z :=
  if bw =? 7800 then Ok 0x00 else if bw =? 10400 then Ok 0x08 else if bw =? 15600 then Ok 0x01 else if bw =? 20800 then Ok 0x09 else if bw =? 31250 then Ok 0x02
  else if bw =? 41700 then Ok 0x0A else if bw =? 62500 then Ok 0x03 else if bw =? 125000 then Ok 0x04 else if bw =? 250000 then Ok 0x05 else if bw =? 500000 then Ok 0x06 else Err ReInvalidConfig.
Definition clamp (lo hi z : Z) : Z := Z.max lo (Z.min hi z).

Section Methods.
Context {H : Type} {B : Hal H}.
#[local] Notation D := (Drv H Sx126x).
Fixpoint wait_loop (n : nat) : D unit :=
  match n with
  | O => fail ReTimeout
  | S n => b ← sense busy_is_high; if (b : bool) then pause 10;; wait_loop n else mret ()
  end.
Definition wait_busy : D unit := wait_loop (Z.to_nat 10000).
Definition cmd (opcode : Z) (params : list Z) : D unit :=
  wait_busy;;
  if decide (16 < length params + 1)%nat then fail ReInvalidConfig else framed (io_write (opcode :: params)).
Definition cmd_read (opcode : Z) (params : list Z) (n : nat) : D (list Z) :=
  wait_busy;;
  if decide (8 < length params + 1)%nat then lift Panic else framed (io_then (io_then (io_write (opcode :: params)) (io_transfer 1)) (spi_read n)).
Definition write_register (addr value : Z) : D unit := cmd WRITE_REGISTER [hi8 addr; u8 addr; value].
Definition read_register (addr : Z) : D Z := v ← cmd_read READ_REGISTER [hi8 addr; u8 addr] 1; lift (idx v 0).
Definition write_buffer (data : list Z) : D unit := wait_busy;; framed (io_then (io_write [WRITE_BUFFER; 0x00]) (io_write data)).
Definition read_buffer (offset : Z) (n : nat) : D (list Z) := wait_busy;; framed (io_then (io_write [READ_BUFFER; offset; 0x00]) (spi_read n)).
Definition irq_status : D Z := v ← cmd_read GET_IRQ_STATUS [] 2; mret (from_be v).
Definition clear_irq (mask : Z) : D unit := cmd CLEAR_IRQ_STATUS (be_bytes 2 mask).
Definition init : D unit :=
  pin (set_rst false);; pause 2000;; pin (set_rst true);; pause 10000;;
  wait_busy;;
  cmd SET_STANDBY [0x00];;
  d ← self;
  let b := sx_board d in
  match bc_dio3_tcxo b with
  | Some v =>
      let t := u32 (bc_tcxo_delay_ms b * 64) in
      cmd SET_DIO3_AS_TCXO_CTRL [v; u8 (Z.shiftr t 16); u8 (Z.shiftr t 8); u8 t];; cmd CALIBRATE [0x7F];; pause 5000
  | None => mret ()
  end;;
  (if bc_dio2_rf_switch b then cmd SET_DIO2_AS_RF_SWITCH_CTRL [0x01] else mret ());;
  cmd SET_REGULATOR_MODE [if bc_dcdc b then 0x01 else 0x00];;
  cmd SET_BUFFER_BASE_ADDRESS [0x00; 0x00];;
  cmd SET_PACKET_TYPE [0x01];;
  cmd SET_RX_TX_FALLBACK_MODE [0x20];;
  cmd CLEAR_DEVICE_ERRORS [0x00; 0x00].
Definition set_frequency (hz : Z) : D unit :=
  cmd SET_RF_FREQUENCY (be_bytes 4 (frequency_word hz));;
  d ← self;
  let same_band := band hz =? band (sx_rf_hz d) in
  set_self (set_rf_hz hz);;
  if same_band then mret () else
  match image_calibration hz with Some ab => cmd CALIBRATE_IMAGE ab | None => mret () end.
Definition set_tx_power (dbm : Z) : D unit :=
  d ← self;
  let pa := bc_high_power_pa (sx_board d) in
  let dbm := clamp (-9) (if pa then 22 else 15) dbm in
  (if pa then cmd SET_PA_CONFIG [0x04; 0x07; 0x00; 0x01];; write_register OCP 0x38 else cmd SET_PA_CONFIG [0x04; 0x00; 0x01; 0x01];; write_register OCP 0x18);;
  cmd SET_TX_PARAMS [u8 dbm; 0x04].
Definition set_packet_params (payload_len : Z) : D unit :=
  d ← self;
  let p := sx_profile d in
  cmd SET_PACKET_PARAMS [hi8 (preamble_symbols p); u8 (preamble_symbols p); if implicit_header p then 0x01 else 0x00; payload_len; if lp_crc p then 0x01 else 0x00; 0x00].
Definition set_modulation (p : LoRaProfile) : D unit :=
  bw ← lift (bandwidth_code (bandwidth_hz p));
  ldro ← core (low_data_rate_optimize p);
  cmd SET_MODULATION_PARAMS [spreading_factor p; bw; u8 (coding_rate p - 4); if (ldro : bool) then 0x01 else 0x00].
Definition set_sync_word (p : LoRaProfile) : D unit :=
  let sw := sync_word_sx126x p in
  write_register LORA_SYNC_WORD_MSB (hi8 sw);; write_register LORA_SYNC_WORD_LSB (u8 sw).

Definition configure (p : LoRaProfile) : D unit :=
  if negb (within 5 12 (spreading_factor p)) || negb (within 5 8 (coding_rate p)) then fail ReInvalidConfig else
  set_self (set_profile p);;
  cmd SET_STANDBY [0x00];;
  set_frequency (frequency_hz p);;
  set_modulation p;;
  tm ← read_register TX_MODULATION;
  write_register TX_MODULATION (if decide (bandwidth_hz p = 500000) then Z.lor tm 0x04 else Z.land tm 0xFB);;
  set_sync_word p;;
  write_register RX_GAIN 0x96;;
  set_tx_power (tx_power_dbm p);;
  set_packet_params 255;;
  let mask := Z.lor TX_DONE (Z.lor RX_DONE (Z.lor TIMEOUT (Z.lor CRC_ERR (Z.lor CAD_DONE (Z.lor CAD_DETECTED (Z.lor HEADER_ERR (Z.lor PREAMBLE_DETECTED HEADER_VALID))))))) in
  cmd SET_DIO_IRQ_PARAMS (be_bytes 2 mask ++ be_bytes 2 mask ++ [0x00; 0x00; 0x00; 0x00]);;
  let det_peak := if within 5 7 (spreading_factor p) then 22 else if within 8 10 (spreading_factor p) then 23 else 24 in
  cmd SET_CAD_PARAMS [0x02; det_peak; 10; 0x00; 0x00; 0x00; 0x00];;
  set_self (set_receiving false).

(** The poll loop of [transmit]; [waited] counts milliseconds. *)
Fixpoint transmit_loop (fuel : nat) (len deadline waited : Z) : D unit :=
  match fuel with
  | O => lift Panic
  | S fuel =>
      s ← irq_status;
      if flag s TX_DONE then
        clear_irq TX_DONE;; d ← self; ms ← core (airtime_ms (sx_profile d) len); set_self (count (RadioStats.sent ms))
      else if flag s TIMEOUT then clear_irq TIMEOUT;; fail ReTimeout
      else if decide (waited > deadline) then fail ReTimeout
      else pause 1000;; transmit_loop fuel len deadline (u32 (waited + 1))
  end.
Definition transmit (frame : list Z) : D unit :=
  if decide (frame = [] \/ zlen frame > 255) then fail ReTooLarge else
  cmd SET_STANDBY [0x00];;
  set_self (set_receiving false);;
  set_packet_params (u8 (zlen frame));;
  write_buffer frame;;
  clear_irq 0xFFFF;;
  d ← self;
  us ← core (airtime_us (sx_profile d) (zlen frame));
  let airtime := us + 200000 in
  let t := u32 (airtime * 64 / 1000) in
  cmd SET_TX [u8 (Z.shiftr t 16); u8 (Z.shiftr t 8); u8 t];;
  let deadline := u32 (u32 (airtime / 1000) + 300) in
  transmit_loop (Z.to_nat (deadline + 3)) (zlen frame) deadline 0.

Definition start_receive : D unit :=
  d ← self;
  if sx_receiving d then mret () else
  set_packet_params 255;;
  clear_irq 0xFFFF;;
  cmd SET_RX [0xFF; 0xFF; 0xFF];;
  set_self (fun d => set_preamble_seen false (set_rx_active false (set_receiving true d))).
(** [-(b as i16) / 2] *)
Definition rssi_of (b : Z) : Z := Z.quot (- b) 2.
Definition snr_of (b : Z) : f32 := (f32_of (if decide (b < 128) then b else b - 256) / f32_of 4)%f32.
Definition receive (buf_len : Z) : D (option (list Z * RxMeta)) :=
  d ← self;
  (if sx_receiving d then mret () else start_receive);;
  high ← sense dio_is_high;
  if negb high then mret None else
  s ← irq_status;
  if flag s (Z.lor CRC_ERR (Z.lor HEADER_ERR TIMEOUT)) then
    clear_irq 0xFFFF;; set_self (fun d => count RadioStats.crc_error (set_rx_active false d));; fail ReCrcError
  else if negb (flag s RX_DONE) then
    (if flag s HEADER_VALID then set_self (fun d => count RadioStats.header (set_rx_active true d)) else mret ());;
    (if flag s PREAMBLE_DETECTED then set_self (fun d => count RadioStats.preamble (set_preamble_seen true d)) else mret ());;
    clear_irq s;; mret None
  else
    set_self (set_rx_active false);;
    st ← cmd_read GET_RX_BUFFER_STATUS [] 2;
    len ← lift (idx st 0); offset ← lift (idx st 1);
    if decide (len = 0 \/ len > buf_len) then clear_irq 0xFFFF;; fail ReTooLarge else
    frame ← read_buffer offset (Z.to_nat len);
    ps ← cmd_read GET_PACKET_STATUS [] 3;
    p0 ← lift (idx ps 0); p1 ← lift (idx ps 1);
    clear_irq 0xFFFF;;
    d ← self;
    ms ← core (airtime_ms (sx_profile d) len);
    set_self (count (RadioStats.received ms (rssi_of p0) (snr_of p1)));;
    mret (Some (frame, RxMeta_new (rssi_of p0) (snr_of p1) 0)).
Definition rssi_inst : D Z := v ← cmd_read GET_RSSI_INST [] 1; b ← lift (idx v 0); mret (rssi_of b).

(** The poll loops of channel activity detection. *)
Fixpoint cad_loop (n : nat) (us : Z) : D (option bool) :=
  match n with
  | O => mret None
  | S n =>
      s ← irq_status;
      if flag s CAD_DONE then
        let busy := flag s CAD_DETECTED in
        clear_irq 0xFFFF;; (if busy then set_self (count RadioStats.cad) else mret ());; mret (Some busy)
      else pause us;; cad_loop n us
  end.
Definition channel_busy : D bool :=
  rssi ← rssi_inst;
  d ← self;
  if decide (rssi > sensitivity_dbm (sx_profile d) + 6) then set_self (count RadioStats.cad);; mret true else
  cmd SET_STANDBY [0x00];;
  set_self (set_receiving false);;
  clear_irq 0xFFFF;;
  cmd SET_CAD [];;
  r ← cad_loop 50 1000;
  start_receive;;
  match r with Some busy => mret busy | None => fail ReTimeout end.
Definition cad_probe_symbols (p : LoRaProfile) (symbols : Z) : D bool :=
  cmd SET_STANDBY [0x00];;
  set_self (set_receiving false);;
  d ← self;
  (if decide (frequency_hz p <> sx_rf_hz d) then set_frequency (frequency_hz p) else mret ());;
  set_modulation p;;
  set_sync_word p;;
  let sf := spreading_factor p in
  let det_peak := if within 5 8 sf then 22 else if sf =? 9 then 23 else if sf =? 10 then 24 else if sf =? 11 then 25 else 28 in
  let '(code, n) := if symbols <=? 1 then (0x00, 1) else if symbols <=? 3 then (0x01, 2) else if symbols <=? 7 then (0x02, 4) else if symbols <=? 15 then (0x03, 8) else (0x04, 16) in
  cmd SET_CAD_PARAMS [code; det_peak; 10; 0x00; 0x00; 0x00; 0x00];;
  clear_irq 0xFFFF;;
  cmd SET_CAD [];;
  ts ← core (symbol_time_us p);
  let budget_ms := u32 (u32 (n * ts) / 1000 + 5) in
  r ← cad_loop (Z.to_nat (u32 (Z.max budget_ms 1 * 2))) 500;
  match r with Some busy => mret busy | None => fail ReTimeout end.
Definition cad_probe (p : LoRaProfile) : D bool := cad_probe_symbols p 4.
(** The first profile with activity, from index [i]. *)
Fixpoint sniff_loop (i : nat) (l : list LoRaProfile) : D (option nat) :=
  match l with
  | [] => mret None
  | p :: rest => hit ← cad_probe p; if (hit : bool) then configure p;; start_receive;; mret (Some i) else sniff_loop (S i) rest
  end.
Definition sniff (profiles : list LoRaProfile) (fallback : nat) : D (option nat) :=
  r ← sniff_loop 0 profiles;
  match r with
  | Some i => mret (Some i)
  | None =>
      match profiles !! fallback with
      | Some p => d ← self; (if negb (sx_receiving d) || negb (same_profile (sx_profile d) p) then configure p;; start_receive else mret ());; mret None
      | None => mret None
      end
  end.
Definition retune (p : LoRaProfile) : D unit := configure p;; start_receive.
Definition rx_started : D bool :=
  s ← irq_status; d ← self;
  mret (sx_rx_active d || flag s (Z.lor PREAMBLE_DETECTED (Z.lor HEADER_VALID RX_DONE))).
Definition sleep : D unit := set_self (set_receiving false);; cmd SET_SLEEP [0x04].
End Methods.
End Sx126x.
