(* ===== verification/Sx126xFacts.v ===== *)
(** * Facts on the SX126x driver

    [sends] follows a call command by command; the calls of the driver are then
    sequences of steps that keep the profile, the flag and the mode together. *)
From stdpp Require Import base tactics list numbers.
From Stdlib Require Import Lia.
From S2P Require Import Prelude Float32 Protocol Radio Hal Driver Sx126x.
From stdpp Require Import list.
Import LoRaProfile op126 reg126 irq126 Sx126x.
#[local] Open Scope Z_scope.

Section Facts126.
Context {H : Type} {B : Hal H} {O : Observed H} {L : HalLaws H}.
Implicit Types (d : Sx126x) (h : H).

(** ** Commands one by one *)

Lemma wait_busy_runs d h : runs wait_busy (fun s _ => sends [] d h s) (failed d) (d, h).
Proof.
  unfold wait_busy. generalize (Z.to_nat 10000). intros n. revert h. induction n as [|n IH]; intros h; [split; [done|by intros []]|]. cbn [wait_loop]. apply runs_bind.
  eapply runs_mono; [apply (runs_sense busy_is_high d h), busy_sent| |done]. intros [d1 h1] [] [E1 E2]; cbn in E1, E2; subst d1; [|by split]. apply runs_bind.
  eapply runs_mono; [apply runs_pause| |done]. intros [d2 h2] _ [E3 E4]; cbn in E3, E4; subst d2. eapply runs_mono; [apply IH| |done]. intros s _ [E5 E6]. split; [done|]. rewrite E6. cbn. congruence.
Qed.
Lemma after_wait {A} (k : Drv H Sx126x A) Q X d h :
  (forall h', sent h' = sent h -> runs k Q X (d, h')) -> (forall s e, failed d s e -> X s e) -> runs (wait_busy ≫= fun _ => k) Q X (d, h).
Proof.
  intros Hk HX. apply runs_bind. eapply runs_mono; [apply wait_busy_runs| |exact HX]. intros [d1 h1] _ [E1 E2]. cbn in E1, E2. subst d1. by apply Hk.
Qed.
Lemma cmd_runs opcode params d h : (length params <= 15)%nat -> runs (cmd opcode params) (fun s _ => sends [opcode :: params] d h s) (failed d) (d, h).
Proof.
  intros Hl. unfold cmd. apply after_wait; [|done]. intros h1 E1. rewrite decide_False by lia. eapply runs_mono; [apply runs_framed, transacts_write| |done]. intros s _ [[E2 E3] _]. split; [done|]. by rewrite E3, E1.
Qed.
Lemma cmd_read_runs opcode params n d h :
  (length params <= 7)%nat -> runs (cmd_read opcode params n) (fun s b => sends [opcode :: params] d h s /\ length b = n /\ bytes_ok b) (failed d) (d, h).
Proof.
  intros Hl. unfold cmd_read. apply after_wait; [|done]. intros h1 E1. rewrite decide_False by lia. eapply runs_mono; [apply runs_framed, transacts_transfer_read| |done]. intros s b [[E2 E3] Hb]. split; [split; [done|by rewrite E3, E1]|done].
Qed.
Lemma write_buffer_runs data d h : runs (write_buffer data) (fun s _ => sends [[WRITE_BUFFER; 0x00]] d h s) (failed d) (d, h).
Proof.
  unfold write_buffer. apply after_wait; [|done]. intros h1 E1. eapply runs_mono; [apply runs_framed, transacts_write_more| |done]. intros s _ [[E2 E3] _]. split; [done|]. by rewrite E3, E1.
Qed.
Lemma read_buffer_runs offset n d h :
  runs (read_buffer offset n) (fun s b => sends [[READ_BUFFER; offset; 0x00]] d h s /\ length b = n /\ bytes_ok b) (failed d) (d, h).
Proof.
  unfold read_buffer. apply after_wait; [|done]. intros h1 E1. eapply runs_mono; [apply runs_framed, transacts_read| |done]. intros s b [[E2 E3] Hb]. split; [split; [done|by rewrite E3, E1]|done].
Qed.
Lemma byte_at (b : list Z) (k : Z) n (Q : Sx126x * H -> Z -> Prop) X s :
  length b = n -> bytes_ok b -> 0 <= k < Z.of_nat n -> (forall v, byte_ok v -> Q s v) -> runs (lift (idx (E := RadioError) b k)) Q X s.
Proof.
  intros Hl Hb Hk HQ. destruct (idx_in (E := RadioError) b k) as (v & -> & Hv); [unfold zlen; lia|]. apply HQ. by apply (Forall_lookup_1 _ _ _ _ Hb Hv).
Qed.
Lemma read_register_runs addr d h :
  runs (read_register addr) (fun s v => sends [[READ_REGISTER; hi8 addr; u8 addr]] d h s /\ byte_ok v) (failed d) (d, h).
Proof.
  unfold read_register. apply runs_bind. eapply runs_mono; [apply cmd_read_runs; cbn; lia| |done]. intros s b (Hs & Hl & Hb). apply (byte_at b 0 1); [done|done|lia|]. done.
Qed.

(** ** Steps *)

Definition is_mode (c : Z) : bool := existsb (Z.eqb c) [SET_SLEEP; SET_STANDBY; SET_FS; SET_TX; SET_RX; SET_CAD].
#[global] Instance sx126x_driver : ModeDriver Sx126x :=
  {| drv_profile := sx_profile; drv_receiving := sx_receiving; drv_ok _ := True; mode_of c := if is_mode (hd 0 c) then Some (hd 0 c) else None; rx_mode := SET_RX |}.

Section Plain.
Context {P : Sx126x * H -> Prop} {X : Sx126x * H -> RadioError -> Prop} `{!Inv P X}.
Notation keep := (keeps P X).
Lemma keeps_cmd opcode params : mode_of (opcode :: params) = None -> (length params <= 15)%nat -> keep (cmd opcode params) (fun _ => True).
Proof. intros Ho Hl. apply (keeps_sends _ (opcode :: params)); [|exact Ho]. intros d h. eapply runs_mono; [by apply cmd_runs|done|done]. Qed.
Lemma keeps_cmd_read opcode params n : mode_of (opcode :: params) = None -> (length params <= 7)%nat -> keep (cmd_read opcode params n) (fun b => length b = n /\ bytes_ok b).
Proof. intros Ho Hl. apply (keeps_sends _ (opcode :: params)); [|exact Ho]. intros d h. eapply runs_mono; [by apply cmd_read_runs|done|done]. Qed.
Lemma keeps_irq : keep irq_status (fun _ => True).
Proof. eapply keeps_bind; [by apply keeps_cmd_read; [|cbn; lia]|]. intros v _. by apply keeps_ret. Qed.
Lemma keeps_clear mask : keep (clear_irq mask) (fun _ => True).
Proof. apply keeps_cmd; [done|]. rewrite length_be_bytes. lia. Qed.
Lemma keeps_write_register addr v : keep (write_register addr v) (fun _ => True).
Proof. apply keeps_cmd; [done|cbn; lia]. Qed.
Lemma keeps_read_register addr : keep (read_register addr) byte_ok.
Proof. eapply keeps_sends; [intros d h; apply read_register_runs|done]. Qed.
Lemma keeps_write_buffer data : keep (write_buffer data) (fun _ => True).
Proof. apply (keeps_sends _ [WRITE_BUFFER; 0]); [intros d h; eapply runs_mono; [apply write_buffer_runs|by split|done]|done]. Qed.
Lemma keeps_read_buffer offset n : keep (read_buffer offset n) (fun b => length b = n /\ bytes_ok b).
Proof. eapply keeps_sends; [intros d h; apply read_buffer_runs|done]. Qed.

(** ** Calls that only program the chip *)

Lemma keeps_count f : keep (set_self (count f)) (fun _ => True).
Proof. by apply keeps_set. Qed.
Lemma keeps_set_frequency hz : keep (set_frequency hz) (fun _ => True).
Proof.
  eapply keeps_seq; [apply keeps_cmd; [done|rewrite length_be_bytes; lia]|]. eapply keeps_bind; [apply keeps_self|]. intros d _. eapply keeps_seq; [by apply keeps_set|]. apply keeps_if; [by apply keeps_ret|].
  destruct (image_calibration hz) as [ab|] eqn:E; [|by apply keeps_ret]. apply keeps_cmd; [done|]. unfold image_calibration in E. repeat case_match; simplify_eq; cbn; lia.
Qed.
Lemma keeps_set_tx_power dbm : keep (set_tx_power dbm) (fun _ => True).
Proof.
  eapply keeps_bind; [apply keeps_self|]. intros d _. cbv zeta. eapply keeps_seq; [|apply keeps_cmd; [done|cbn; lia]].
  apply keeps_if; (eapply keeps_seq; [apply keeps_cmd; [done|cbn; lia]|apply keeps_write_register]).
Qed.
Lemma keeps_set_packet_params n : keep (set_packet_params n) (fun _ => True).
Proof. eapply keeps_bind; [apply keeps_self|]. intros d _. apply keeps_cmd; [done|cbn; lia]. Qed.
Lemma bandwidth_code_nonzero p c : bandwidth_code (bandwidth_hz p) = Ok c -> bandwidth_hz p <> 0.
Proof. intros Hc E. by rewrite E in Hc. Qed.
Lemma keeps_set_modulation p : keep (set_modulation p) (fun _ => bandwidth_hz p <> 0).
Proof.
  unfold set_modulation. destruct (bandwidth_code (bandwidth_hz p)) as [c|e|] eqn:Hc.
  - pose proof (bandwidth_code_nonzero p c Hc) as Hp. destruct (symbol_time_runs p Hp) as [ts Hts]. eapply (keeps_bind _ _ (fun _ => True)); [by apply keeps_ret|]. intros a _. eapply keeps_bind; [by apply keeps_core; unfold low_data_rate_optimize; rewrite Hts|].
    intros ldro _. eapply keeps_weaken; [apply keeps_cmd; [done|cbn; lia]|done].
  - assert (e = ReInvalidConfig) as -> by (unfold bandwidth_code in Hc; repeat case_match; congruence). apply (keeps_bind _ _ (fun _ => False)); [|by intros ? []]. apply keeps_fail. by intros [].
  - exfalso. unfold bandwidth_code in Hc. repeat case_match; congruence.
Qed.
Lemma keeps_set_sync_word p : keep (set_sync_word p) (fun _ => True).
Proof. eapply keeps_seq; apply keeps_write_register. Qed.
Lemma keeps_cad_loop n us : keep (cad_loop n us) (fun _ => True).
Proof.
  induction n as [|n IH]; [by apply keeps_ret|]. cbn [cad_loop]. eapply keeps_bind; [apply keeps_irq|]. intros s _. apply keeps_if.
  - eapply keeps_seq; [apply keeps_clear|]. eapply keeps_seq; [apply keeps_if; [apply keeps_count|by apply keeps_ret]|by apply keeps_ret].
  - eapply keeps_seq; [apply keeps_pause|done].
Qed.
Lemma keeps_rssi_inst : keep rssi_inst (fun _ => True).
Proof. eapply keeps_bind; [by apply keeps_cmd_read; [|cbn; lia]|]. intros v [Hl Hb]. eapply keeps_bind; [by eapply keeps_byte|]. intros b _. by apply keeps_ret. Qed.
Lemma keeps_rx_started : keep rx_started (fun _ => True).
Proof. eapply keeps_bind; [apply keeps_irq|]. intros s _. eapply keeps_bind; [apply keeps_self|]. intros d _. by apply keeps_ret. Qed.
End Plain.
#[local] Hint Resolve keeps_pause keeps_dio keeps_irq keeps_clear keeps_write_register keeps_read_register keeps_write_buffer keeps_count
  keeps_set_frequency keeps_set_tx_power keeps_set_packet_params keeps_set_modulation keeps_set_sync_word keeps_cad_loop keeps_rssi_inst keeps_rx_started : driver.

Lemma alive_cmd opcode params : (length params <= 15)%nat -> keeps (fun s : Sx126x * H => alive s.1) hard (cmd opcode params) (fun _ => True).
Proof. intros Hl. apply (alive_transaction _ [opcode :: params]). intros d h. by apply cmd_runs. Qed.
Lemma idle_cmd opcode params : (length params <= 15)%nat -> keeps idle hard (cmd opcode params) (fun _ => True).
Proof. intros Hl. apply (idle_transaction _ [opcode :: params]). intros d h. by apply cmd_runs. Qed.

(** ** The calls *)


Lemma configure_runs p d h :
  alive d -> bandwidth_hz p <> 0 -> runs (configure p) (fun s _ => idle s) hard (d, h).
Proof.
  intros Ha Hp. unfold configure. destruct (negb _ || negb _) eqn:Hv; [apply runs_fail; split; [done|by intros []]|].
  apply orb_false_iff in Hv as [Hsf _]. apply negb_false_iff, bool_decide_eq_true in Hsf. apply runs_bind, runs_set_self.
  eapply (keeps_then (fun s => alive s.1)); [apply alive_cmd; cbn; lia|done|]. intros d1 h1 _ H1 _.
  do 2 (eapply (keeps_then (fun s => alive s.1)); [drv|done|]; intros ? ? _ ? _).
  eapply (keeps_then (fun s => alive s.1)); [drv|done|]; intros ? ? tm ? Htm.
  do 5 (eapply (keeps_then (fun s => alive s.1)); [drv|done|]; intros ? ? _ ? _).
  cbv zeta. do 2 (eapply (keeps_then (fun s => alive s.1)); [apply alive_cmd, Nat.leb_le; reflexivity|done|]; intros ? ? _ ? _).
  apply runs_set_self. done.
Qed.

Section Calls.
Context {P : Sx126x * H -> Prop} `{!CallInv P}.
Notation call := (keeps P (spared P)).
Lemma standby {A} (k : Drv H Sx126x A) R : keeps idle hard k R -> call (cmd SET_STANDBY [0x00];; set_self (set_receiving false);; k) R.
Proof. intros Hk. apply call_standby; [apply alive_cmd; cbn; lia|done|done]. Qed.
Lemma call_configure p : bandwidth_hz p <> 0 -> call (configure p) (fun _ => True).
Proof.
  intros Hp d h HP. apply from_idle. eapply runs_mono; [apply configure_runs; [by apply (call_alive (d, h))|done]| |done]. intros s a Hi. split; [by apply call_idle|done].
Qed.
Lemma call_start_receive : call start_receive (fun _ => True).
Proof.
  unfold start_receive. intros d h HP. apply runs_bind, runs_self. cbn [fst]. destruct (sx_receiving d) eqn:Hr; [done|]. apply call_alive in HP. apply from_idle.
  do 2 (eapply (keeps_then idle hard); [drv|by split|]; clear dependent d; clear h; intros d h _ [HP Hr] _). apply runs_bind.
  eapply runs_mono; [apply cmd_runs; cbn; lia| |intros s e [E He]; split; [by rewrite E|done]]. intros [d1 h1] _ [E1 E2]. cbn in E1, E2. subst d1. apply runs_set_self. split; [|done]. apply call_receive; [done|]. cbn. by rewrite E2.
Qed.
Lemma transmit_loop_runs fuel len deadline waited :
  0 <= waited <= deadline + 1 -> deadline < 4294967295 - 2 -> deadline + 2 - waited < Z.of_nat fuel -> keeps idle hard (transmit_loop fuel len deadline waited) (fun _ => True).
Proof.
  revert waited. induction fuel as [|fuel IH]; intros waited Hw Hd Hf; [lia|]. cbn [transmit_loop]. eapply keeps_bind; [drv|]. intros s _. apply keeps_if; [|apply keeps_if].
  - eapply keeps_seq; [drv|]. eapply keeps_bind; [apply keeps_self|]. intros d (Hsf & Hp & _). destruct (airtime_ms_runs (sx_profile d) len Hsf Hp) as (ms & Hms & _).
    eapply keeps_bind; [by apply keeps_core|]. intros ? ->. drv.
  - eapply keeps_seq; [drv|]. apply keeps_fail; by intros [].
  - destruct (decide (waited > deadline)); [apply keeps_fail; by intros []|]. eapply keeps_seq; [drv|]. rewrite u32_small by lia. apply IH; lia.
Qed.
Lemma call_transmit frame : call (transmit frame) (fun _ => True).
Proof.
  unfold transmit. destruct (decide (frame = [] \/ zlen frame > 255)).
  { intros d h HP. apply runs_fail. split; [by apply (call_alive (d, h))|done]. }
  apply standby. do 3 (eapply keeps_seq; [drv|]). eapply keeps_bind; [apply keeps_self|]. intros d (Hsf & Hp & _).
  destruct (airtime_runs (sx_profile d) (zlen frame) Hsf Hp) as (us & Hus & Hr). eapply keeps_bind; [by apply keeps_core|]. intros ? ->. cbv zeta. eapply keeps_seq; [apply idle_cmd; cbn; lia|].
  assert (0 <= (us + 200000) / 1000 < 4295168) by (split; [apply Z.div_pos|apply Z.div_lt_upper_bound]; lia). rewrite (u32_small (_ / _)), u32_small by lia. apply transmit_loop_runs; lia.
Qed.
Lemma call_receive_frame n : call (receive n) (fits n).
Proof.
  unfold receive. eapply keeps_bind; [apply keeps_self|]. intros d _. apply (keeps_seq _ _ (fun _ => True)); [apply keeps_if; [by apply keeps_ret|apply call_start_receive]|].
  eapply keeps_bind; [drv|]. intros high _. apply keeps_if; [by apply keeps_ret|]. eapply keeps_bind; [drv|]. intros s _. apply keeps_if; [|apply keeps_if].
  - eapply keeps_seq; [drv|]. eapply keeps_seq; [by apply keeps_set|]. apply call_fail.
  - do 2 (eapply keeps_seq; [apply keeps_if; [by apply keeps_set|by apply keeps_ret]|]). eapply keeps_seq; [drv|by apply keeps_ret].
  - eapply keeps_seq; [by apply keeps_set|]. eapply keeps_bind; [apply keeps_cmd_read; [done|cbn; lia]|]. intros st [Hl Hb].
    eapply keeps_bind; [apply (keeps_byte st 0 2); [done|done|lia]|]. intros len Hlen. eapply keeps_bind; [apply (keeps_byte st 1 2); [done|done|lia]|]. intros offset _.
    destruct (decide (len = 0 \/ len > n)); [eapply keeps_seq; [drv|apply call_fail]|].
    eapply keeps_bind; [apply keeps_read_buffer|]. intros frame [Hf Hfb]. eapply keeps_bind; [apply keeps_cmd_read; [done|cbn; lia]|]. intros ps [Hpl Hpb].
    eapply keeps_bind; [apply (keeps_byte ps 0 3); [done|done|lia]|]. intros p0 _. eapply keeps_bind; [apply (keeps_byte ps 1 3); [done|done|lia]|]. intros p1 _.
    eapply keeps_seq; [drv|]. eapply keeps_bind; [apply keeps_self|]. intros d' (Hsf & Hp & _). destruct (airtime_ms_runs (sx_profile d') len Hsf Hp) as (ms & Hms & _).
    eapply keeps_bind; [by apply keeps_core|]. intros ? ->. eapply keeps_seq; [drv|]. apply keeps_ret. split; [|done]. unfold byte_ok, in_u in Hlen. unfold zlen. rewrite Hf. lia.
Qed.
Lemma call_channel_busy : call channel_busy (fun _ => True).
Proof.
  unfold channel_busy. eapply keeps_bind; [drv|]. intros rssi _. eapply keeps_bind; [apply keeps_self|]. intros d _.
  destruct (decide _); [eapply keeps_seq; [drv|by apply keeps_ret]|].
  apply call_standby_then; [apply alive_cmd; cbn; lia|done|]. intros d1 h1 H1. eapply idle_then; [apply keeps_clear|exact H1|]. intros d2 h2 _ H2 _. eapply idle_then; [apply idle_cmd; cbn; lia|exact H2|]. intros d3 h3 _ H3 _.
  eapply idle_then; [apply keeps_cad_loop|exact H3|]. intros d4 h4 r H4 _. assert (HP : P (d4, h4)) by by apply call_idle. revert HP. apply (keeps_seq _ _ (fun _ => True)); [apply call_start_receive|]. destruct r; [by apply keeps_ret|apply call_fail].
Qed.
Lemma call_cad_probe_symbols p n : call (cad_probe_symbols p n) (fun _ => bandwidth_hz p <> 0).
Proof.
  apply standby. eapply keeps_bind; [apply keeps_self|]. intros d _. apply (keeps_seq _ _ (fun _ => True)); [destruct (decide _); [drv|by apply keeps_ret]|].
  eapply keeps_bind; [drv|]. intros u Hp. cbn beta in Hp. clear u. eapply keeps_seq; [drv|]. cbv zeta. destruct (if n <=? 1 then _ else _) as [code k].
  eapply keeps_seq; [apply idle_cmd; cbn; lia|]. eapply keeps_seq; [drv|]. eapply keeps_seq; [apply idle_cmd; cbn; lia|]. destruct (symbol_time_runs p Hp) as [ts Hts].
  eapply keeps_bind; [by apply keeps_core|]. intros ? ->. eapply keeps_bind; [drv|]. intros [busy|] _; [by apply keeps_ret|]. apply keeps_fail; by intros [].
Qed.
Lemma call_retune p : bandwidth_hz p <> 0 -> call (retune p) (fun _ => True).
Proof. intros Hp. eapply keeps_seq; [by apply call_configure|apply call_start_receive]. Qed.
Lemma call_sniff_loop i l : call (sniff_loop i l) (fun r => r = None -> Forall (fun p => bandwidth_hz p <> 0) l).
Proof.
  revert i. induction l as [|p l IH]; intros i; [by apply keeps_ret|]. cbn [sniff_loop]. eapply keeps_bind; [apply call_cad_probe_symbols|]. intros hit Hp. cbn beta in Hp. destruct hit.
  - eapply keeps_seq; [by apply call_configure|]. eapply keeps_seq; [apply call_start_receive|]. by apply keeps_ret.
  - eapply keeps_weaken; [apply IH|]. intros r Hr E. constructor; auto.
Qed.
Lemma call_sniff l k : call (sniff l k) (fun _ => True).
Proof.
  eapply keeps_bind; [apply call_sniff_loop|]. intros [i|] Hr; [by apply keeps_ret|]. specialize (Hr eq_refl). destruct (l !! k) as [p|] eqn:Hk; [|by apply keeps_ret]. eapply keeps_bind; [apply keeps_self|]. intros d _.
  apply (keeps_seq _ _ (fun _ => True)); [|by apply keeps_ret]. apply keeps_if; [|by apply keeps_ret]. eapply keeps_seq; [apply call_configure; by apply (Forall_lookup_1 _ _ _ _ Hr Hk)|apply call_start_receive].
Qed.
Lemma call_sleep : call sleep (fun _ => True).
Proof. intros d h HP. apply call_alive in HP. apply runs_bind, runs_set_self. apply (idle_keeps _ (fun _ => True)); [apply idle_cmd; cbn; lia|done]. Qed.
End Calls.
Lemma init_runs d h : idle (d, h) -> runs init (fun s _ => idle s) hard (d, h).
Proof.
  intros Hi. eapply (runs_mono _ (fun s _ => idle s /\ True)); [|by intros s a []|done]. revert d h Hi. change (keeps idle hard init (fun _ => True)). unfold init.
  do 2 (eapply keeps_seq; [apply keeps_rst|]; eapply keeps_seq; [drv|]).
  eapply keeps_seq; [apply keeps_nothing; intros d h; apply wait_busy_runs|]. eapply keeps_seq; [apply idle_cmd; cbn; lia|]. eapply keeps_bind; [apply keeps_self|]. intros d _. cbv zeta.
  apply (keeps_seq _ _ (fun _ => True)).
  { destruct (bc_dio3_tcxo (sx_board d)); [|by apply keeps_ret]. do 2 (eapply keeps_seq; [apply idle_cmd; cbn; lia|]). drv. }
  apply (keeps_seq _ _ (fun _ => True)); [apply keeps_if; [apply idle_cmd; cbn; lia|by apply keeps_ret]|]. do 4 (eapply keeps_seq; [apply idle_cmd; cbn; lia|]). apply idle_cmd; cbn; lia.
Qed.
End Facts126.
