(* ===== verification/Sx126xCalls.v ===== *)
(** * The SX126x driver in use

    The calls of the driver as a list the application makes, on a board that may answer
    anything, and what [configure] programs. *)
From stdpp Require Import base tactics list numbers.
From Stdlib Require Import Lia.
From S2P Require Import Prelude Float32 Protocol Radio Hal Driver Sx126x Sx126xFacts.
From stdpp Require Import list.
Import LoRaProfile op126 reg126 irq126 Sx126x.
#[local] Open Scope Z_scope.

(** What an application calls after [init]. *)
Inductive Call126 :=
  | CConfigure (p : LoRaProfile) | CTransmit (frame : list Z) | CStartReceive | CReceive (buf_len : Z) | CChannelBusy | CSleep
  | CCadProbe (p : LoRaProfile) (symbols : Z) | CSniff (profiles : list LoRaProfile) (fallback : nat) | CRetune (p : LoRaProfile)
  | CRxStarted | CRssiInst | CClearPreambleSeen | CSetBoard (b : BoardConfig).
(** A profile with a bandwidth of zero is no modem setting. *)
Definition call_ok (c : Call126) : Prop := match c with CConfigure p | CRetune p => bandwidth_hz p <> 0 | _ => True end.
#[global] Instance call_ok_dec c : Decision (call_ok c).
Proof. destruct c; apply _. Defined.

Section Use.
Context {H : Type} {B : Hal H}.
Definition perform (c : Call126) : Drv H Sx126x unit :=
  match c with
  | CConfigure p => configure p
  | CTransmit frame => transmit frame
  | CStartReceive => start_receive
  | CReceive n => ignore (receive n)
  | CChannelBusy => ignore channel_busy
  | CSleep => sleep
  | CCadProbe p n => ignore (cad_probe_symbols p n)
  | CSniff l k => ignore (sniff l k)
  | CRetune p => retune p
  | CRxStarted => ignore rx_started
  | CRssiInst => ignore rssi_inst
  | CClearPreambleSeen => set_self clear_preamble_seen
  | CSetBoard b => set_self (set_board b)
  end.
Context {O : Observed H} {L : HalLaws H}.
Lemma perform_keeps P `{!CallInv P} c : call_ok c -> keeps P (spared P) (perform c) (fun _ => True).
Proof.
  intros Hc. destruct c; cbn [perform call_ok] in *.
  - by apply call_configure.
  - by apply call_transmit.
  - by apply call_start_receive.
  - eapply ignore_keeps, call_receive_frame; apply _.
  - eapply ignore_keeps, call_channel_busy; apply _.
  - by apply call_sleep.
  - eapply ignore_keeps, call_cad_probe_symbols; apply _.
  - eapply ignore_keeps, call_sniff; apply _.
  - by apply call_retune.
  - eapply ignore_keeps, keeps_rx_started; apply _.
  - eapply ignore_keeps, keeps_rssi_inst; apply _.
  - by apply keeps_set.
  - by apply keeps_set.
Qed.

(** ** What a configuration programs *)

(** The parameters last sent with an opcode, and the value last written to a register. *)
Definition programmed (opcode : Z) (l : list (list Z)) : option (list Z) := tail <$> find_first (fun c => hd 0 c =? opcode) l.
Definition register (addr : Z) (l : list (list Z)) : option (list Z) := drop 3 <$> find_first (fun c => bool_decide (take 3 c = [WRITE_REGISTER; hi8 addr; u8 addr])) l.
(** The synthesizer's step is 15625/16384 Hz: the nearest step not above [hz]. *)
Definition steps_below (f hz : Z) : Prop := f * 15625 <= hz * 16384 < (f + 1) * 15625.
Lemma frequency_word_steps hz : 0 <= hz <= 4000000000 -> steps_below (frequency_word hz) hz /\ in_u 32 (frequency_word hz).
Proof.
  intros Hhz. unfold frequency_word, steps_below. rewrite Z.shiftl_mul_pow2 by lia. change (2 ^ 25) with 33554432. rewrite u64_small by lia.
  replace (hz * 33554432 / 32000000) with (hz * 16384 / 15625) by (rewrite <- (Z.div_mul_cancel_r (hz * 16384) 15625 2048) by lia; f_equal; lia).
  pose proof (Z.div_mod (hz * 16384) 15625). pose proof (Z.mod_pos_bound (hz * 16384) 15625). rewrite u32_small by lia. unfold in_u. change (2 ^ 32) with 4294967296. lia.
Qed.
Lemma cmd_then {A} opcode params (k : Drv H Sx126x A) Q d h :
  (length params <= 15)%nat -> (forall h', sent h' = (opcode :: params) :: sent h -> runs k Q (fun _ _ => True) (d, h')) -> runs (cmd opcode params;; k) Q (fun _ _ => True) (d, h).
Proof. intros Hl Hk. apply runs_bind. eapply runs_mono; [by apply cmd_runs| |done]. intros [d' h'] _ [E1 E2]. cbn in E1, E2. subst d'. by apply Hk. Qed.
(** Only image calibrations. *)
Definition calibrations (l : list (list Z)) : Prop := Forall (fun c => hd 0 c = CALIBRATE_IMAGE) l.
Lemma set_frequency_sends hz d h :
  runs (set_frequency hz) (fun s _ => s.1 = set_rf_hz hz d /\ exists cal, calibrations cal /\ sent s.2 = cal ++ (SET_RF_FREQUENCY :: be_bytes 4 (frequency_word hz)) :: sent h) (fun _ _ => True) (d, h).
Proof.
  apply cmd_then; [rewrite length_be_bytes; lia|]. intros h1 E1. apply runs_bind, runs_self. cbn [fst]. apply runs_bind, runs_set_self. destruct (_ =? _); [split; [done|exists []; by split; [constructor|]]|].
  destruct (image_calibration hz) as [ab|] eqn:E; [|split; [done|exists []; by split; [constructor|]]]. eapply runs_mono; [apply cmd_runs; unfold image_calibration in E; repeat case_match; simplify_eq; cbn; lia| |done].
  intros [d2 h2] _ [E2 E3]. split; [done|]. exists [CALIBRATE_IMAGE :: ab]. split; [by constructor|]. cbn in *. by rewrite E3, E1.
Qed.
Definition power_commands (b : BoardConfig) (dbm : Z) : list (list Z) :=
  let pa := bc_high_power_pa b in
  [[SET_TX_PARAMS; u8 (clamp (-9) (if pa then 22 else 15) dbm); 0x04]; [WRITE_REGISTER; hi8 OCP; u8 OCP; if pa then 0x38 else 0x18]; SET_PA_CONFIG :: if pa then [0x04; 0x07; 0x00; 0x01] else [0x04; 0x00; 0x01; 0x01]].
Lemma set_tx_power_sends dbm d h : runs (set_tx_power dbm) (fun s _ => sends (power_commands (sx_board d) dbm) d h s) (fun _ _ => True) (d, h).
Proof.
  apply runs_bind, runs_self. cbn [fst]. unfold power_commands. destruct (bc_high_power_pa (sx_board d)); cbv zeta; apply runs_bind; (apply cmd_then; [cbn; lia|]); intros h1 E1;
    (eapply runs_mono; [apply cmd_runs; cbn; lia| |done]); intros [d2 h2] _ [E2 E3]; cbn in E2, E3; subst d2; (eapply runs_mono; [apply cmd_runs; cbn; lia| |done]); intros s _ [E4 E5]; split; [done| |done|]; rewrite E5, E3, E1; done.
Qed.
Definition irq_mask : Z := 0x3F7.
Definition packet_command (p : LoRaProfile) (n : Z) : list Z :=
  [SET_PACKET_PARAMS; hi8 (preamble_symbols p); u8 (preamble_symbols p); if implicit_header p then 0x01 else 0x00; n; if lp_crc p then 0x01 else 0x00; 0x00].
Lemma configure_sends p d h :
  runs (configure p) (fun s _ => sx_profile s.1 = p /\ sx_receiving s.1 = false /\ exists cal bw ts tm peak,
    bandwidth_code (bandwidth_hz p) = Ok bw /\ symbol_time_us p = Ok ts /\ calibrations cal /\
    sent s.2 = [SET_CAD_PARAMS; 0x02; peak; 10; 0x00; 0x00; 0x00; 0x00] :: (SET_DIO_IRQ_PARAMS :: be_bytes 2 irq_mask ++ be_bytes 2 irq_mask ++ [0; 0; 0; 0]) ::
      packet_command p 255 :: power_commands (sx_board d) (tx_power_dbm p) ++ [WRITE_REGISTER; hi8 RX_GAIN; u8 RX_GAIN; 0x96] ::
      [WRITE_REGISTER; hi8 LORA_SYNC_WORD_LSB; u8 LORA_SYNC_WORD_LSB; u8 (sync_word_sx126x p)] :: [WRITE_REGISTER; hi8 LORA_SYNC_WORD_MSB; u8 LORA_SYNC_WORD_MSB; hi8 (sync_word_sx126x p)] ::
      [WRITE_REGISTER; hi8 TX_MODULATION; u8 TX_MODULATION; tm] :: [READ_REGISTER; hi8 TX_MODULATION; u8 TX_MODULATION] ::
      [SET_MODULATION_PARAMS; spreading_factor p; bw; u8 (coding_rate p - 4); if bool_decide (ts > 16000) then 0x01 else 0x00] ::
      cal ++ (SET_RF_FREQUENCY :: be_bytes 4 (frequency_word (frequency_hz p))) :: [SET_STANDBY; 0x00] :: sent h) (fun _ _ => True) (d, h).
Proof.
  unfold configure. destruct (negb _ || negb _); [done|]. apply runs_bind, runs_set_self. apply cmd_then; [cbn; lia|]. intros h1 E1. apply runs_bind. eapply runs_mono; [apply set_frequency_sends| |done].
  intros [d2 h2] _ (E2 & cal & Hcal & E3). cbn in E2, E3. subst d2. apply runs_bind. unfold set_modulation. destruct (bandwidth_code (bandwidth_hz p)) as [bw|e|] eqn:Hbw; [|done|exfalso; unfold bandwidth_code in Hbw; repeat case_match; congruence].
  apply runs_bind. cbn [lift runs]. destruct (symbol_time_runs p (bandwidth_code_nonzero p bw Hbw)) as [ts Hts]. apply runs_bind. eapply runs_core; [unfold low_data_rate_optimize; by rewrite Hts|].
  eapply runs_mono; [apply cmd_runs; cbn; lia| |done]. intros [d3 h3] _ [E4 E5]. cbn in E4, E5. subst d3. apply runs_bind. eapply runs_mono; [apply read_register_runs| |done]. intros [d3 h4] tm [[E6 E7] _]. cbn in E6, E7. subst d3.
  apply cmd_then; [cbn; lia|]. intros h5 E8. apply runs_bind. apply cmd_then; [cbn; lia|]. intros h6 E9. eapply runs_mono; [apply cmd_runs; cbn; lia| |done]. intros [d3 h7] _ [E10 E11]. cbn in E10, E11. subst d3.
  apply cmd_then; [cbn; lia|]. intros h8 E12. apply runs_bind. eapply runs_mono; [apply set_tx_power_sends| |done]. intros [d3 h9] _ [E13 E14]. cbn in E13, E14. subst d3.
  apply runs_bind. apply runs_bind, runs_self. eapply runs_mono; [apply cmd_runs; cbn; lia| |done]. intros [d3 h10] _ [E15 E16]. cbn in E15, E16. subst d3.
  apply cmd_then; [apply Nat.leb_le; reflexivity|]. intros h11 E17. apply cmd_then; [cbn; lia|]. intros h12 E18. apply runs_set_self. split; [done|]. split; [done|]. do 5 eexists. split; [done|]. split; [done|]. split; [exact Hcal|].
  cbn [snd]. rewrite E18, E17, E16, E14, E12, E11, E9, E8, E7, E5, E3, E1. reflexivity.
Qed.
Lemma skip_calibrations opcode cal l : opcode <> CALIBRATE_IMAGE -> calibrations cal -> find_first (fun c => hd 0 c =? opcode) (cal ++ l) = find_first (fun c => hd 0 c =? opcode) l.
Proof. intros Ho Hc. induction Hc as [|c cal Hc _ IH]; [done|]. cbn [app find_first]. rewrite Hc. destruct (Z.eqb_spec CALIBRATE_IMAGE opcode); [congruence|done]. Qed.
Lemma last_mode_calibrations cal l : calibrations cal -> last_mode (cal ++ l) = last_mode l.
Proof. intros Hc. induction Hc as [|c cal Hc _ IH]; [done|]. cbn [app]. rewrite last_mode_plain; [done|]. cbn. by rewrite Hc. Qed.

(** C28. After a successful [configure] the chip stands by with the profile's parameters:
    the synthesizer is on the highest step not above the frequency, and the modulation,
    the two sync word registers, the packet format and the interrupts are those of the
    profile, and so is the transmit power, brought into the range of the board's
    amplifier (-9 to 22 dBm, or 15). *)
Theorem configure_programs p d h s :
  0 <= frequency_hz p <= 4000000000 -> configure p (d, h) = (s, Ok ()) ->
  sx_profile s.1 = p /\ sx_receiving s.1 = false /\ last_mode (sent s.2) = Some SET_STANDBY /\
  (exists f, programmed SET_RF_FREQUENCY (sent s.2) = Some (be_bytes 4 f) /\ steps_below f (frequency_hz p) /\ in_u 32 f) /\
  (exists bw ts, bandwidth_code (bandwidth_hz p) = Ok bw /\ symbol_time_us p = Ok ts /\
    programmed SET_MODULATION_PARAMS (sent s.2) = Some [spreading_factor p; bw; u8 (coding_rate p - 4); Z.b2z (bool_decide (ts > 16000))]) /\
  register LORA_SYNC_WORD_MSB (sent s.2) = Some [hi8 (sync_word_sx126x p)] /\ register LORA_SYNC_WORD_LSB (sent s.2) = Some [u8 (sync_word_sx126x p)] /\
  programmed SET_PACKET_PARAMS (sent s.2) = Some (tail (packet_command p 255)) /\
  programmed SET_DIO_IRQ_PARAMS (sent s.2) = Some (be_bytes 2 irq_mask ++ be_bytes 2 irq_mask ++ [0; 0; 0; 0]) /\
  programmed SET_TX_PARAMS (sent s.2) = Some [u8 (Z.max (-9) (Z.min (tx_power_dbm p) (if bc_high_power_pa (sx_board d) then 22 else 15))); 0x04].
Proof.
  intros Hf E. pose proof (configure_sends p d h) as Hr. unfold runs in Hr. rewrite E in Hr. destruct Hr as (Hp & Hrx & cal & bw & ts & tm & peak & Hbw & Hts & Hcal & ->).
  destruct (frequency_word_steps (frequency_hz p) Hf) as [Hst Hu]. split; [done|]. split; [done|]. unfold power_commands. cbv zeta.
  split. { cbn [app]. repeat (rewrite last_mode_plain; [|reflexivity]). by rewrite last_mode_calibrations. }
  split. { exists (frequency_word (frequency_hz p)). split; [|done]. unfold programmed. cbn [app find_first hd]. cbn -[frequency_word be_bytes]. by rewrite skip_calibrations. }
  split. { exists bw, ts. split; [done|]. split; [done|]. unfold programmed. cbn. by destruct (bool_decide _). }
  split; [done|]. split; [done|]. split; [done|]. split; [done|].
  unfold programmed, clamp. cbn -[Z.min Z.max]. do 3 f_equal. destruct (bc_high_power_pa (sx_board d)); lia.
Qed.

(** C27. Whatever the board answers, no call of a session panics or polls for ever,
    errors included; and as long as no call failed for more than a bad frame, a driver
    that believes it is receiving has the chip in receive mode. *)
Theorem sx126x_session b l h s rs :
  Forall call_ok l -> session perform init l (new b, h) = (s, rs) ->
  Forall safe rs /\ (Forall harmless rs -> sx_receiving s.1 = true -> last_mode (sent s.2) = Some SET_RX).
Proof. intros Hl E. refine (session_ok perform call_ok _ init l (new b, h) s rs _ _ Hl E); [intros P HP c; by apply perform_keeps|done|by apply init_runs]. Qed.
End Use.

(** A frame with a bad checksum, then one of three bytes. *)
Definition board_now : Script := scripted [[0]; be_bytes 2 CRC_ERR; be_bytes 2 RX_DONE; [3; 0]; [9; 8; 7]; [160; 0xF8; 160]] true.
Definition calls_now : list Call126 := [CConfigure MESHSTAR_EU868; CStartReceive; CReceive 255; CReceive 255].
Lemma sx126x_session_witness :
  let '(s, rs) := session perform init calls_now (new HELTEC_V3, board_now) in
  rs = [Ok (); Ok (); Ok (); Err ReCrcError; Ok ()] /\ rs_rx_frames (sx_stats s.1) = 1 /\ sx_receiving s.1 = true /\ last_mode (sent s.2) = Some SET_RX.
Proof.
  destruct (session perform init calls_now (new HELTEC_V3, board_now)) as [s rs] eqn:E. destruct (sx126x_session HELTEC_V3 calls_now board_now s rs) as [_ Hw]; [repeat constructor; done|exact E|].
  vm_compute in E. injection E as <- <-. split; [reflexivity|]. split; [reflexivity|]. split; [reflexivity|]. apply Hw; [|reflexivity]. repeat constructor.
Defined.
Lemma configure_programs_witness :
  let '(s, _) := configure (H := Script) MESHSTAR_EU868 (new HELTEC_V3, scripted [[0]] false) in programmed SET_RF_FREQUENCY (sent s.2) = Some [0x36; 0x58; 0x66; 0x66] /\ sx_receiving s.1 = false.
Proof.
  destruct (configure (H := Script) MESHSTAR_EU868 (new HELTEC_V3, scripted [[0]] false)) as [s r] eqn:E.
  assert (Hr : r = Ok ()) by (vm_compute in E; congruence). subst r. destruct (configure_programs MESHSTAR_EU868 (new HELTEC_V3) (scripted [[0]] false) s) as (_ & Hrx & _); [vm_compute; split; discriminate|exact E|].
  split; [|exact Hrx]. vm_compute in E. injection E as <-. reflexivity.
Defined.
