(* ===== verification/Sx127x.v ===== *)
(** * The SX127x driver

    [crates/meshstar-radio-sx127x/src/lib.rs], a register-level driver over the hardware
    interface of Hal, and the same facts as for the SX126x: no call panics or polls
    beyond its deadline whatever the chip answers, and a driver that believes it
    receives has the chip in receive mode. *)
From stdpp Require Import base tactics list numbers.
From Stdlib Require Import SpecFloat Lia.
From S2P Require Import Prelude Float32 Protocol Radio Hal Driver.
From stdpp Require Import list.
Import LoRaProfile.
#[local] Open Scope Z_scope.

Module reg127.
Definition FIFO : Z := 0x00.
Definition OP_MODE : Z := 0x01.
Definition FRF_MSB : Z := 0x06.
Definition FRF_MID : Z := 0x07.
Definition FRF_LSB : Z := 0x08.
Definition PA_CONFIG : Z := 0x09.
Definition PA_RAMP : Z := 0x0A.
Definition OCP : Z := 0x0B.
Definition LNA : Z := 0x0C.
Definition FIFO_ADDR_PTR : Z := 0x0D.
Definition FIFO_TX_BASE_ADDR : Z := 0x0E.
Definition FIFO_RX_BASE_ADDR : Z := 0x0F.
Definition FIFO_RX_CURRENT_ADDR : Z := 0x10.
Definition IRQ_FLAGS_MASK : Z := 0x11.
Definition IRQ_FLAGS : Z := 0x12.
Definition RX_NB_BYTES : Z := 0x13.
Definition MODEM_STAT : Z := 0x18.
Definition PKT_SNR_VALUE : Z := 0x19.
Definition PKT_RSSI_VALUE : Z := 0x1A.
Definition RSSI_VALUE : Z := 0x1B.
Definition MODEM_CONFIG1 : Z := 0x1D.
Definition MODEM_CONFIG2 : Z := 0x1E.
Definition SYMB_TIMEOUT_LSB : Z := 0x1F.
Definition PREAMBLE_MSB : Z := 0x20.
Definition PREAMBLE_LSB : Z := 0x21.
Definition PAYLOAD_LENGTH : Z := 0x22.
Definition MAX_PAYLOAD_LENGTH : Z := 0x23.
Definition MODEM_CONFIG3 : Z := 0x26.
Definition DETECT_OPTIMIZE : Z := 0x31.
Definition INVERT_IQ : Z := 0x33.
Definition DETECTION_THRESHOLD : Z := 0x37.
Definition SYNC_WORD : Z := 0x39.
Definition INVERT_IQ2 : Z := 0x3B.
Definition DIO_MAPPING1 : Z := 0x40.
Definition VERSION : Z := 0x42.
Definition PA_DAC : Z := 0x4D.
End reg127.
Module mode127.
Definition LONG_RANGE : Z := 0x80.
Definition SLEEP : Z := 0x00.
Definition STDBY : Z := 0x01.
Definition TX : Z := 0x03.
Definition RX_CONTINUOUS : Z := 0x05.
Definition CAD : Z := 0x07.
End mode127.
Module irq127.
Definition RX_TIMEOUT : Z := 0x80.
Definition RX_DONE : Z := 0x40.
Definition PAYLOAD_CRC_ERROR : Z := 0x20.
Definition VALID_HEADER : Z := 0x10.
Definition TX_DONE : Z := 0x08.
Definition CAD_DONE : Z := 0x04.
Definition FHSS_CHANGE : Z := 0x02.
Definition CAD_DETECTED : Z := 0x01.
End irq127.
Import reg127 mode127 irq127.

Record BoardConfig127 := mkBoard127 { b7_pa_boost : bool; b7_xtal_hz : Z }.
Definition HELTEC_V2 : BoardConfig127 := mkBoard127 true 32000000.
Record Sx127x := mkSx127x { s7_board : BoardConfig127; s7_profile : LoRaProfile; s7_stats : RadioStats; s7_receiving : bool }.
Module Sx127x.
Definition new (board : BoardConfig127) : Sx127x := mkSx127x board MESHSTAR_EU868 RadioStats.default_value false.
Definition set_profile (p : LoRaProfile) (d : Sx127x) : Sx127x := mkSx127x (s7_board d) p (s7_stats d) (s7_receiving d).
Definition count (f : RadioStats -> RadioStats) (d : Sx127x) : Sx127x := mkSx127x (s7_board d) (s7_profile d) (f (s7_stats d)) (s7_receiving d).
Definition set_receiving (b : bool) (d : Sx127x) : Sx127x := mkSx127x (s7_board d) (s7_profile d) (s7_stats d) b.
Definition flag (s m : Z) : bool := bool_decide (Z.land s m <> 0).
Definition within (lo hi z : Z) : bool := bool_decide (lo <= z <= hi).
Definition clamp (lo hi z : Z) : Z := Z.max lo (Z.min hi z).
Definition bandwidth_code (bw : Z) : outcome RadioError Z :=
  if bw =? 7800 then Ok 0 else if bw =? 10400 then Ok 1 else if bw =? 15600 then Ok 2 else if bw =? 20800 then Ok 3 else if bw =? 31250 then Ok 4
  else if bw =? 41700 then Ok 5 else if bw =? 62500 then Ok 6 else if bw =? 125000 then Ok 7 else if bw =? 250000 then Ok 8 else if bw =? 500000 then Ok 9 else Err ReInvalidConfig.
(** [b as i8 as f32 / 4.0] *)
Definition snr_of (b : Z) : f32 := (f32_of (if decide (b < 128) then b else b - 256) / f32_of 4)%f32.
(** [x as i16] *)
Definition f32_to_i16 (x : f32) : Z :=
  match x with
  | S754_finite s m e =>
      let v := if decide (0 <= e) then Z.pos m * 2 ^ e else Z.pos m / 2 ^ (- e) in
      if s then Z.max (-32768) (- v) else Z.min 32767 v
  | S754_infinity s => if s then -32768 else 32767
  | _ => 0
  end.
Definition rssi_of (p : LoRaProfile) (raw : Z) : Z := if decide (frequency_hz p >= 779000000) then -157 + raw else -164 + raw.

Section Methods.
Context {H : Type} {B : Hal H}.
#[local] Notation D := (Drv H Sx127x).
Definition write (r v : Z) : D unit := framed (io_write [Z.lor r 0x80; v]).
Definition read (r : Z) : D Z := v ← framed (io_then (io_write [Z.land r 0x7F]) (spi_read 1)); lift (idx v 0).
Definition write_fifo (data : list Z) : D unit := framed (io_then (io_write [Z.lor FIFO 0x80]) (io_write data)).
Definition read_fifo (n : nat) : D (list Z) := framed (io_then (io_write [FIFO]) (spi_read n)).
Definition set_mode (m : Z) : D unit := write OP_MODE (Z.lor LONG_RANGE m).
Definition init : D unit :=
  pin (set_rst false);; pause 2000;; pin (set_rst true);; pause 10000;;
  v ← read VERSION;
  if decide (v <> 0x12) then fail ReOther else
  write OP_MODE (Z.lor LONG_RANGE SLEEP);;
  pause 2000;;
  set_mode STDBY;;
  write FIFO_TX_BASE_ADDR 0x00;;
  write FIFO_RX_BASE_ADDR 0x00;;
  write LNA 0x23;;
  write MAX_PAYLOAD_LENGTH 0xFF;;
  write PA_RAMP 0x08.
Definition set_frequency (hz : Z) : D unit :=
  d ← self;
  let xtal := b7_xtal_hz (s7_board d) in
  if decide (xtal = 0) then lift Panic else
  let frf := u64 (Z.shiftl hz 19) / xtal in
  write FRF_MSB (u8 (Z.shiftr frf 16));; write FRF_MID (u8 (Z.shiftr frf 8));; write FRF_LSB (u8 frf).
Definition set_tx_power (dbm : Z) : D unit :=
  d ← self;
  if b7_pa_boost (s7_board d) then
    let dbm := clamp 2 20 dbm in
    if decide (dbm > 17) then
      write PA_DAC 0x87;; write OCP (Z.lor 0x20 0x0B);; write PA_CONFIG (Z.lor (Z.lor 0x80 0x70) 0x0F)
    else
      write PA_DAC 0x84;; write OCP (Z.lor 0x20 0x0B);; write PA_CONFIG (Z.lor (Z.lor 0x80 0x70) (Z.land (u8 (dbm - 2)) 0x0F))
  else
    let dbm := clamp 0 14 dbm in
    write PA_DAC 0x84;; write PA_CONFIG (Z.lor 0x70 (Z.land (u8 dbm) 0x0F)).
Definition irq_flags : D Z := read IRQ_FLAGS.
Definition clear_irq : D unit := write IRQ_FLAGS 0xFF.
Definition rssi_inst : D Z := v ← read RSSI_VALUE; d ← self; mret (rssi_of (s7_profile d) v).

Definition configure (p : LoRaProfile) : D unit :=
  if negb (within 6 12 (spreading_factor p)) || negb (within 5 8 (coding_rate p)) then fail ReInvalidConfig else
  set_self (set_profile p);;
  set_mode STDBY;;
  set_frequency (frequency_hz p);;
  bw ← lift (bandwidth_code (bandwidth_hz p));
  let cr := coding_rate p - 4 in
  write MODEM_CONFIG1 (Z.lor (Z.lor (u8 (Z.shiftl bw 4)) (u8 (Z.shiftl cr 1))) (if implicit_header p then 1 else 0));;
  write MODEM_CONFIG2 (Z.lor (u8 (Z.shiftl (spreading_factor p) 4)) (if lp_crc p then 0x04 else 0x00));;
  low ← core (low_data_rate_optimize p);
  let ldro := if (low : bool) then 0x08 else 0x00 in
  write MODEM_CONFIG3 (Z.lor ldro 0x04);;
  (if decide (spreading_factor p = 6) then write DETECT_OPTIMIZE 0xC5;; write DETECTION_THRESHOLD 0x0C
   else write DETECT_OPTIMIZE 0xC3;; write DETECTION_THRESHOLD 0x0A);;
  write PREAMBLE_MSB (u8 (Z.shiftr (preamble_symbols p) 8));;
  write PREAMBLE_LSB (u8 (preamble_symbols p));;
  write SYNC_WORD (sync_word p);;
  write INVERT_IQ 0x27;;
  write INVERT_IQ2 0x1D;;
  set_tx_power (tx_power_dbm p);;
  write IRQ_FLAGS_MASK 0x00;;
  set_self (set_receiving false).
(** The poll loop of [transmit]; [waited] counts milliseconds. *)
Fixpoint transmit_loop (fuel : nat) (len deadline waited : Z) : D unit :=
  match fuel with
  | O => lift Panic
  | S fuel =>
      f ← irq_flags;
      if flag f TX_DONE then
        clear_irq;; d ← self; ms ← core (airtime_ms (s7_profile d) len); set_self (count (RadioStats.sent ms))
      else if decide (waited > deadline) then set_mode STDBY;; fail ReTimeout
      else pause 1000;; transmit_loop fuel len deadline (u32 (waited + 1))
  end.
Definition transmit (frame : list Z) : D unit :=
  if decide (frame = [] \/ zlen frame > 255) then fail ReTooLarge else
  set_mode STDBY;;
  set_self (set_receiving false);;
  write DIO_MAPPING1 0x40;;
  write FIFO_ADDR_PTR 0x00;;
  write PAYLOAD_LENGTH (u8 (zlen frame));;
  write_fifo frame;;
  clear_irq;;
  set_mode TX;;
  d ← self;
  ms ← core (airtime_ms (s7_profile d) (zlen frame));
  let deadline := u32 (ms + 300) in
  transmit_loop (Z.to_nat (deadline + 3)) (zlen frame) deadline 0.
Definition start_receive : D unit :=
  d ← self;
  if s7_receiving d then mret () else
  write DIO_MAPPING1 0x00;;
  write FIFO_ADDR_PTR 0x00;;
  clear_irq;;
  set_mode RX_CONTINUOUS;;
  set_self (set_receiving true).
Definition receive (buf_len : Z) : D (option (list Z * RxMeta)) :=
  d ← self;
  (if s7_receiving d then mret () else start_receive);;
  high ← sense dio_is_high;
  if negb high then mret None else
  f ← irq_flags;
  if negb (flag f RX_DONE) then clear_irq;; mret None
  else if flag f PAYLOAD_CRC_ERROR then clear_irq;; set_self (count RadioStats.crc_error);; fail ReCrcError
  else
    len ← read RX_NB_BYTES;
    if decide (len = 0 \/ len > buf_len) then clear_irq;; fail ReTooLarge else
    cur ← read FIFO_RX_CURRENT_ADDR;
    write FIFO_ADDR_PTR cur;;
    frame ← read_fifo (Z.to_nat len);
    b ← read PKT_SNR_VALUE;
    let snr := snr_of b in
    raw ← read PKT_RSSI_VALUE;
    d ← self;
    let rssi := rssi_of (s7_profile d) raw in
    let rssi := if SFltb snr (f32_of 0) then rssi + f32_to_i16 snr else rssi in
    clear_irq;;
    ms ← core (airtime_ms (s7_profile d) len);
    set_self (count (RadioStats.received ms rssi snr));;
    mret (Some (frame, RxMeta_new rssi snr 0)).
Definition channel_busy : D bool :=
  rssi ← rssi_inst;
  d ← self;
  if decide (rssi > sensitivity_dbm (s7_profile d) + 6) then set_self (count RadioStats.cad);; mret true else
  st ← read MODEM_STAT;
  if flag st 0x03 then set_self (count RadioStats.cad);; mret true else mret false.
Definition sleep : D unit := set_self (set_receiving false);; set_mode SLEEP.
End Methods.
End Sx127x.
