(* ===== verification/Sx127xFacts.v ===== *)
(** * Facts on the SX127x driver

    The register accesses as steps that keep the profile, the flag and the mode
    together, and the sessions of the driver. *)
From stdpp Require Import base tactics list numbers.
From Stdlib Require Import Lia.
From S2P Require Import Prelude Float32 Protocol Radio Hal Driver Sx127x.
From stdpp Require Import list.
Import LoRaProfile reg127 mode127 irq127 Sx127x.
#[local] Open Scope Z_scope.

(** The mode is in the low bits of a write to [OP_MODE]. *)
#[global] Instance sx127x_driver : ModeDriver Sx127x :=
  {| drv_profile := s7_profile; drv_receiving := s7_receiving; drv_ok d := b7_xtal_hz (s7_board d) <> 0;
     mode_of c := match c with [a; v] => if a =? Z.lor OP_MODE 0x80 then Some (Z.land v 0x07) else None | _ => None end; rx_mode := RX_CONTINUOUS |}.

Section Facts127.
Context {H : Type} {B : Hal H} {O : Observed H} {L : HalLaws H}.
Implicit Types (d : Sx127x) (h : H).

(** ** Steps *)

Lemma write_runs r v d h : runs (write r v) (fun s _ => sends [[Z.lor r 0x80; v]] d h s) (failed d) (d, h).
Proof. eapply runs_mono; [apply runs_framed, transacts_write| |done]. by intros s a [? _]. Qed.
Lemma write_fifo_runs data d h : runs (write_fifo data) (fun s _ => sends [[Z.lor FIFO 0x80]] d h s) (failed d) (d, h).
Proof. eapply runs_mono; [apply runs_framed, transacts_write_more| |done]. by intros s a [? _]. Qed.
Section Plain.
Context {P : Sx127x * H -> Prop} {X : Sx127x * H -> RadioError -> Prop} `{!Inv P X}.
Notation keep := (keeps P X).
Lemma keeps_write r v : mode_of [Z.lor r 0x80; v] = None -> keep (write r v) (fun _ => True).
Proof. intros Hr. apply (keeps_sends _ [Z.lor r 0x80; v]); [|done]. intros d h. eapply runs_mono; [apply write_runs|done|done]. Qed.
Lemma keeps_read r : keep (read r) byte_ok.
Proof.
  eapply keeps_bind; [apply (keeps_sends _ [Z.land r 0x7F] (fun b => length b = 1%nat /\ bytes_ok b)); [|done]|].
  - intros d h. apply runs_framed, transacts_read.
  - intros v [Hl Hb]. by eapply keeps_byte.
Qed.
Lemma keeps_write_fifo data : keep (write_fifo data) (fun _ => True).
Proof. apply (keeps_sends _ [Z.lor FIFO 0x80]); [|done]. intros d h. eapply runs_mono; [apply write_fifo_runs|done|done]. Qed.
Lemma keeps_read_fifo n : keep (read_fifo n) (fun b => length b = n /\ bytes_ok b).
Proof. apply (keeps_sends _ [FIFO]); [|done]. intros d h. apply runs_framed, transacts_read. Qed.
Lemma keeps_irq_flags : keep irq_flags byte_ok.
Proof. apply keeps_read. Qed.
Lemma keeps_clear_irq : keep clear_irq (fun _ => True).
Proof. by apply keeps_write. Qed.
Lemma keeps_count127 f : keep (set_self (count f)) (fun _ => True).
Proof. by apply keeps_set. Qed.
Lemma keeps_set_frequency127 hz : keep (set_frequency hz) (fun _ => True).
Proof.
  eapply keeps_bind; [apply keeps_self|]. intros d (_ & _ & Hx). cbv zeta. rewrite decide_False by done. do 2 (eapply keeps_seq; [by apply keeps_write|]). by apply keeps_write.
Qed.
Lemma keeps_set_tx_power127 dbm : keep (set_tx_power dbm) (fun _ => True).
Proof.
  eapply keeps_bind; [apply keeps_self|]. intros d _. apply keeps_if; [|eapply keeps_seq; by apply keeps_write]. cbv zeta. destruct (decide _); do 2 (eapply keeps_seq; [by apply keeps_write|]); by apply keeps_write.
Qed.
Lemma keeps_rssi_inst127 : keep rssi_inst (fun _ => True).
Proof. eapply keeps_bind; [apply keeps_read|]. intros v _. eapply keeps_bind; [apply keeps_self|]. intros d _. by apply keeps_ret. Qed.
End Plain.
#[local] Hint Resolve keeps_pause keeps_rst keeps_dio keeps_read keeps_write_fifo keeps_read_fifo keeps_irq_flags keeps_clear_irq keeps_count127 keeps_set_frequency127 keeps_set_tx_power127 keeps_rssi_inst127 : driver.
#[local] Hint Extern 2 (keeps _ _ (write _ _) _) => (apply keeps_write; reflexivity) : driver.
Lemma alive_set_mode m : keeps (fun s : Sx127x * H => alive s.1) hard (set_mode m) (fun _ => True).
Proof. apply (alive_transaction _ [[Z.lor OP_MODE 0x80; Z.lor LONG_RANGE m]]). intros d h. apply write_runs. Qed.
Lemma idle_write r v : keeps idle hard (write r v) (fun _ => True).
Proof. apply (idle_transaction _ [[Z.lor r 0x80; v]]). intros d h. apply write_runs. Qed.

(** ** The calls *)

Lemma configure_runs127 p d h : alive d -> bandwidth_hz p <> 0 -> runs (configure p) (fun s _ => idle s) hard (d, h).
Proof.
  intros Ha Hp. unfold configure. destruct (negb _ || negb _) eqn:Hv; [apply runs_fail; split; [done|by intros []]|].
  apply orb_false_iff in Hv as [Hsf _]. apply negb_false_iff, bool_decide_eq_true in Hsf. apply runs_bind, runs_set_self.
  assert (H0 : alive (set_profile p d)) by (split; [cbn; lia|split; [done|apply Ha]]). clear Ha.
  eapply (keeps_then (fun s => alive s.1)); [apply alive_set_mode|done|]. clear dependent d. intros d1 h1 _ H1 _.
  eapply (keeps_then (fun s => alive s.1)); [drv|done|]. clear dependent d1. intros d2 h2 _ H2 _.
  destruct (bandwidth_code (bandwidth_hz p)) as [bw|e|] eqn:Hbw.
  - apply runs_bind. cbn [lift runs]. cbv zeta. destruct (symbol_time_runs p Hp) as [ts Hts].
    do 2 (eapply (keeps_then (fun s => alive s.1)); [drv|done|]; clear dependent d2; intros d2 ? _ H2 _).
    apply runs_bind. eapply runs_core; [unfold low_data_rate_optimize; by rewrite Hts|]. 
    eapply (keeps_then (fun s => alive s.1)); [drv|done|]; clear dependent d2; intros d2 ? _ H2 _.
    eapply (keeps_then (fun s => alive s.1)); [destruct (decide _); (eapply keeps_seq; drv)|done|]; clear dependent d2; intros d2 ? _ H2 _.
    do 7 (eapply (keeps_then (fun s => alive s.1)); [drv|done|]; clear dependent d2; intros d2 ? _ H2 _). by apply runs_set_self.
  - assert (e = ReInvalidConfig) as -> by (unfold bandwidth_code in Hbw; repeat case_match; congruence). apply runs_bind, runs_fail. split; [done|by intros []].
  - exfalso. unfold bandwidth_code in Hbw. repeat case_match; congruence.
Qed.
Section Calls.
Context {P : Sx127x * H -> Prop} `{!CallInv P}.
Notation call := (keeps P (spared P)).
Lemma call_start_receive127 : call start_receive (fun _ => True).
Proof.
  unfold start_receive. intros d h HP. apply runs_bind, runs_self. cbn [fst]. destruct (s7_receiving d) eqn:Hr; [done|]. apply call_alive in HP. assert (Hi : idle (d, h)) by done. clear HP Hr.
  do 3 (eapply idle_then; [drv|exact Hi|]; clear dependent d; clear h; intros d h _ Hi _). destruct Hi as [Ha Hr]. apply from_idle, runs_bind.
  eapply runs_mono; [apply write_runs| |intros s e [E He]; split; [by rewrite E|done]]. intros [d1 h1] _ [E1 E2]. cbn in E1, E2. subst d1. apply runs_set_self. split; [|done]. apply call_receive; [done|]. cbn [snd]. rewrite E2. by apply last_mode_set.
Qed.
Lemma transmit_loop_runs127 fuel len deadline waited :
  0 <= waited <= deadline + 1 -> deadline < 4294967295 - 2 -> deadline + 2 - waited < Z.of_nat fuel -> keeps idle hard (transmit_loop fuel len deadline waited) (fun _ => True).
Proof.
  revert waited. induction fuel as [|fuel IH]; intros waited Hw Hd Hf; [lia|]. cbn [transmit_loop]. eapply keeps_bind; [drv|]. intros s _. apply keeps_if.
  - eapply keeps_seq; [drv|]. eapply keeps_bind; [apply keeps_self|]. intros d (Hsf & Hp & _). destruct (airtime_ms_runs (s7_profile d) len Hsf Hp) as (ms & Hms & _).
    eapply keeps_bind; [by apply keeps_core|]. intros ? ->. drv.
  - destruct (decide (waited > deadline)); [eapply keeps_seq; [apply idle_write|apply keeps_fail; by intros []]|]. eapply keeps_seq; [drv|]. rewrite u32_small by lia. apply IH; lia.
Qed.
Lemma call_transmit127 frame : call (transmit frame) (fun _ => True).
Proof.
  unfold transmit. destruct (decide (frame = [] \/ zlen frame > 255)); [apply call_fail|]. apply call_standby; [apply alive_set_mode|done|]. do 5 (eapply keeps_seq; [drv|]). eapply keeps_seq; [apply idle_write|].
  eapply keeps_bind; [apply keeps_self|]. intros d (Hsf & Hp & _). destruct (airtime_ms_runs (s7_profile d) (zlen frame) Hsf Hp) as (ms & Hms & Hr). eapply keeps_bind; [by apply keeps_core|]. intros ? ->. cbv zeta.
  rewrite u32_small by lia. apply transmit_loop_runs127; lia.
Qed.
Lemma call_receive_frame127 n : call (receive n) (fits n).
Proof.
  unfold receive. eapply keeps_bind; [apply keeps_self|]. intros d _. apply (keeps_seq _ _ (fun _ => True)); [apply keeps_if; [by apply keeps_ret|apply call_start_receive127]|].
  eapply keeps_bind; [drv|]. intros high _. apply keeps_if; [by apply keeps_ret|]. eapply keeps_bind; [drv|]. intros f _. apply keeps_if; [|apply keeps_if].
  - eapply keeps_seq; [drv|by apply keeps_ret].
  - do 2 (eapply keeps_seq; [drv|]). apply call_fail.
  - eapply keeps_bind; [apply keeps_read|]. intros len Hlen. destruct (decide (len = 0 \/ len > n)); [eapply keeps_seq; [drv|apply call_fail]|]. eapply keeps_bind; [apply keeps_read|]. intros cur _. eapply keeps_seq; [drv|].
    eapply keeps_bind; [apply keeps_read_fifo|]. intros frame [Hf Hfb]. eapply keeps_bind; [apply keeps_read|]. intros b _. cbv zeta. eapply keeps_bind; [apply keeps_read|]. intros raw _. eapply keeps_bind; [apply keeps_self|]. intros d' (Hsf & Hp & _).
    destruct (airtime_ms_runs (s7_profile d') len Hsf Hp) as (ms & Hms & _). eapply keeps_seq; [drv|]. eapply keeps_bind; [by apply keeps_core|]. intros ? ->. eapply keeps_seq; [drv|]. apply keeps_ret. split; [|done]. unfold byte_ok, in_u in Hlen. unfold zlen. rewrite Hf. lia.
Qed.
Lemma call_channel_busy127 : call channel_busy (fun _ => True).
Proof.
  unfold channel_busy. eapply keeps_bind; [drv|]. intros rssi _. eapply keeps_bind; [apply keeps_self|]. intros d _. destruct (decide _); [eapply keeps_seq; [drv|by apply keeps_ret]|].
  eapply keeps_bind; [drv|]. intros st _. apply keeps_if; [eapply keeps_seq; [drv|by apply keeps_ret]|by apply keeps_ret].
Qed.
Lemma call_sleep127 : call sleep (fun _ => True).
Proof. intros d h HP. apply call_alive in HP. apply runs_bind, runs_set_self. apply (idle_keeps _ (fun _ => True)); [apply idle_write|done]. Qed.
End Calls.
Lemma init_runs127 d h : idle (d, h) -> runs init (fun s _ => idle s) hard (d, h).
Proof.
  intros Hi. eapply (runs_mono _ (fun s _ => idle s /\ True)); [|by intros s a []|done]. revert d h Hi. change (keeps idle hard init (fun _ => True)). unfold init.
  do 4 (eapply keeps_seq; [drv|]). eapply keeps_bind; [drv|]. intros v _. destruct (decide _); [apply keeps_fail; by intros []|]. eapply keeps_seq; [apply idle_write|]. eapply keeps_seq; [drv|]. do 5 (eapply keeps_seq; [apply idle_write|]). apply idle_write.
Qed.
End Facts127.

(** ** Sessions *)

(** What an application calls after [init]. *)
Inductive Call127 := KConfigure (p : LoRaProfile) | KTransmit (frame : list Z) | KStartReceive | KReceive (buf_len : Z) | KChannelBusy | KSleep | KRssiInst.
Definition call127_ok (c : Call127) : Prop := match c with KConfigure p => bandwidth_hz p <> 0 | _ => True end.
Definition perform127 {H} {B : Hal H} (c : Call127) : Drv H Sx127x unit :=
  match c with
  | KConfigure p => configure p
  | KTransmit frame => transmit frame
  | KStartReceive => start_receive
  | KReceive n => ignore (receive n)
  | KChannelBusy => ignore channel_busy
  | KSleep => sleep
  | KRssiInst => ignore rssi_inst
  end.
Section Use127.
Context {H : Type} {B : Hal H} {O : Observed H} {L : HalLaws H}.
Lemma perform127_keeps P `{!CallInv P} c : call127_ok c -> keeps (H := H) P (spared P) (perform127 c) (fun _ => True).
Proof.
  intros Hc. destruct c; cbn [perform127 call127_ok] in *.
  - apply call_to_idle. intros d h Ha. by apply configure_runs127.
  - by apply call_transmit127.
  - by apply call_start_receive127.
  - eapply ignore_keeps, call_receive_frame127; apply _.
  - eapply ignore_keeps, call_channel_busy127; apply _.
  - by apply call_sleep127.
  - eapply ignore_keeps, keeps_rssi_inst127; apply _.
Qed.
(** C29. On any board with a crystal, whatever the chip answers, no call of a session
    panics or polls for ever, errors included; and as long as no call failed for more
    than a bad frame, a driver that believes it is receiving has the chip in continuous
    receive mode. *)
Theorem sx127x_session b l h s rs :
  b7_xtal_hz b <> 0 -> Forall call127_ok l -> session perform127 init l (new b, h) = (s, rs) ->
  Forall safe rs /\ (Forall harmless rs -> s7_receiving s.1 = true -> last_mode (sent s.2) = Some RX_CONTINUOUS).
Proof. intros Hx Hl E. refine (session_ok perform127 call127_ok _ init l (new b, h) s rs _ _ Hl E); [intros P HP c; by apply perform127_keeps|done|by apply init_runs127]. Qed.
End Use127.

(** The version, no frame yet, a bad checksum, then a frame of two bytes. *)
Definition board127_now : Script := scripted [[0x12]; [0]; [Z.lor RX_DONE PAYLOAD_CRC_ERROR]; [RX_DONE]; [2]; [0]; [5; 6]; [0xF8]; [100]] true.
Lemma sx127x_session_witness :
  let '(s, rs) := session perform127 init [KConfigure MESHSTAR_EU868; KReceive 255; KReceive 255; KReceive 255] (new HELTEC_V2, board127_now) in
  rs = [Ok (); Ok (); Ok (); Err ReCrcError; Ok ()] /\ rs_last_rssi_dbm (s7_stats s.1) = -59 /\ s7_receiving s.1 = true /\ last_mode (sent s.2) = Some RX_CONTINUOUS.
Proof.
  destruct (session perform127 init _ _) as [s rs] eqn:E. destruct (sx127x_session HELTEC_V2 [KConfigure MESHSTAR_EU868; KReceive 255; KReceive 255; KReceive 255] board127_now s rs) as [_ Hw]; [done|repeat constructor; done|exact E|].
  vm_compute in E. injection E as <- <-. split; [reflexivity|]. split; [reflexivity|]. split; [reflexivity|]. apply Hw; [|reflexivity]. repeat constructor.
Defined.
